(* ===== verification/_CoqProject ===== *)
-Q . S2P
Prelude.v
StatusCode.v
RingBuffer.v
Bytes.v
KvRange.v
MgmtdTypes.v
MgmtdKeys.v
UpdateChain.v
ChainProtocol.v
RoutingInfo.v
MgmtdState.v
ChainOps.v
NodeOps.v
AdminOps.v
Background.v
LeaseExtender.v
Transaction.v
ChainInvariant.v
Coherence.v
ChainTheorems.v
LeaseTheorems.v
NodeInvariant.v
NodeTheorems.v
AdminTheorems.v
Failover.v
BackgroundTheorems.v
LoaderTheorems.v
Primary.v
StorageTypes.v
Checksums.v
ChunkFiles.v
ChunkMetaStore.v
MetaKeys.v
MetaSpace.v
MetaSteps.v
MetaCreate.v
MetaTheorems.v
MetaSystem.v
ChunkReplica.v
TargetMap.v
TargetMapTheorems.v
StorageService.v
ReplicaInv.v
ReplicaData.v
ReplicaUpdate.v
ReplicaCommit.v
ReplicaTheorems.v
ReplicationSpec.v
ReplicationWorld.v
ServiceLemmas.v
ChainWiring.v
ServiceParts.v
ReplicationInv.v
ReplicationSteps.v
ReplicationRequests.v
ReplicationSimulation.v
ReplicationTheorems.v
FsTypes.v
FsTxn.v
FsLayout.v
FsResolve.v
FsGc.v
FsOps.v
FsOpen.v
FsNamespace.v
FsMoves.v
FsTracked.v
FsResolved.v
FsOpsLand.v
FsOpenLand.v
FsBatchLand.v
FsGcLand.v
FsWorld.v
FsGcLive.v
FsEnds.v
FsPermission.v
FsTheorems.v
