(* ===== verification/Prelude.v ===== *)
(** * A verification development for 3FS

    3FS is a distributed file system.  Its cluster manager ([src/mgmtd]) keeps,
    in a transactional key-value store, which nodes exist, which replication
    chains the data lives in, and in which state each replica (target) is; one
    of several manager processes holds a lease and is the primary.  Storage
    services report to the primary by heartbeats, and fetch routing information
    from it, as clients do.  A storage service ([src/storage]) keeps chunks in
    files of its targets; the targets of a chain, on different services, are
    replicas.  An update enters at the head of a chain, is applied and forwarded
    to the next target, and is committed on the way back.  The meta servers
    ([src/meta]) keep inodes, directory entries and file sessions in another
    transactional store; every operation on the namespace is a transaction, and
    inodes without a name are collected later.  This development models the
    cluster manager, the storage service, the meta store with its garbage
    collection, and the library code under them.

    ** Parts and files

    Library code and data:
    - Prelude.v: integers with wrap-around, the result type [outcome] (value,
      status code, abort of the process, or "the environment given was not
      enough"), the state monad [M], and weakest preconditions [runs].
    - StatusCode.v ([common/utils/StatusCode*]), RingBuffer.v
      ([common/utils/SimpleRingBuffer.h]), Bytes.v ([common/utils/SerDeser.h],
      [common/kv/KeyPrefix.h]), KvRange.v ([common/kv/ITransaction.cc]).
    - MgmtdTypes.v ([fbs/mgmtd], [common/app/AppInfo.*]).

    The cluster manager:
    - MgmtdKeys.v ([mgmtd/store/MgmtdStore.cc]): the keys of stored objects.
    - UpdateChain.v ([mgmtd/service/updateChain.cc]): the state machine of a
      replication chain; ChainProtocol.v: its table, and chains over time.
    - RoutingInfo.v ([mgmtd/service/RoutingInfo.cc]): the primary's memory of
      nodes, chains, tables and targets, with [ri_wf], its well-formedness.
    - MgmtdState.v ([mgmtd/store/MgmtdStore.*], [mgmtd/service/{MgmtdState,
      MgmtdData,helpers}.*], [common/kv/WithTransaction.h],
      [fdb/FDBRetryStrategy.h]): the store as one table per kind of object,
      which the injectivity of the keys justifies; a process [Sys] (memory and
      the store it talks to), the checks, and transactions.
    - ChainOps.v, NodeOps.v, AdminOps.v ([mgmtd/ops]), Background.v and
      LeaseExtender.v ([mgmtd/background]): one definition per operation.  Each
      is a computation [M Sys A] with the guards, store writes and memory
      writes of the C++ handler in their order.

    The storage service:
    - StorageTypes.v, Checksums.v ([fbs/storage/Common.*]): the data of storage,
      with CRC functions as a parameter [Crc] and its laws [CrcLaws].
    - ChunkFiles.v ([storage/store/ChunkFile*]), ChunkMetaStore.v and MetaKeys.v
      ([storage/store/ChunkMetaStore.*]), ChunkReplica.v
      ([storage/store/{ChunkReplica,ChunkStore}.*], [storage/update],
      [storage/aio]): the physical files, the space and the metadata of chunks,
      and updates, commits and reads of a chunk.  The device is part of the
      state, with a list that says which of the coming accesses fail.
    - TargetMap.v ([storage/store/StorageTarget.*], [storage/service/
      TargetMap.*]) and StorageService.v ([storage/service]): a target, the
      targets of a service, and the handling of requests.  The coroutine
      [handleUpdate] is cut at the points where it waits, into [update_begin],
      [handle_locked], [forward_attempt], [forward_reply], [wait_round] and
      [handle_finish].
    - ReplicationSpec.v: what a chain promises, without services; and what
      clients may rely on ([linearized]).  ReplicationWorld.v: the services of a
      chain, the requests in them and the messages between them, as a step
      relation and as a function that runs a schedule.

    The meta store:
    - FsTypes.v ([fbs/meta], [fbs/core/user]), FsTxn.v ([meta/store/{Inode,
      DirEntry,FileSession}.*], [meta/store/Operation.h]), FsLayout.v
      ([fbs/meta/Schema.cc], [meta/components/ChainAllocator.h]): the data, a
      transaction [Txn] (snapshot, writes, read conflicts, caches) and its
      commit, and layouts of files.
    - FsResolve.v ([meta/store/PathResolve.*], [meta/components/AclCache.h]):
      path resolution.  FsOps.v and FsOpen.v ([meta/store/ops]): one definition
      per operation, the body of its transaction, and batches.  FsGc.v
      ([meta/components/GcManager.*]): garbage and its collection.
    - FsWorld.v: the creation of a file system, and servers whose transactions
      run on snapshots and commit in any order, as a step relation [fs_step].

    ** How the code is modelled

    Integers are [Z]s, wrapped where the code computes in a fixed width.
    Unordered maps are finite maps; where the code iterates one, the order is
    that of [map_to_list], and the theorems do not depend on it.  A failed FATAL
    check, an out-of-range access and undefined behaviour are [Fatal]; DFATAL
    checks and asserts only log in a release build and are not modelled as
    aborts.  An operation of the manager runs under the writer lock, so it is
    one step; operations that release their lock in between take a function
    [between] for what others do meanwhile.  Clock readings, random numbers, the
    answer of the user store and the outcome of every transaction attempt are
    arguments: an [Attempt] says what others did to the store before it, whether
    a read or the commit fails, and whether a failed commit took effect.  The
    retry loops consume the list of attempts; a list that is too short gives
    [Pending], and the theorems about progress say which lists are long enough.

    The meta store relies on FoundationDB: a transaction reads a snapshot, and
    commits only if no key of its read conflicts has changed since.  Snapshot
    reads add no conflict, so what an operation read that way may be out of date
    when it commits; the theorems hold nevertheless.

    Loops that are not structural have fuel.  Path resolution has one unit for
    each link it may follow and two more ([link_fuel]); walks up to the root and
    real paths have more than there are inodes, searches of a directory more
    than there are entries, and the check of a tree more than twice its budget;
    [operations_end] shows that this is enough.  [listByPrefix] and the
    loader of targets take a bound of their own, and [listByPrefix_complete] and
    [target_loader_correct] say how large it must be.  The names tried for an
    orphan are the only loop without a bound in the code; its fuel is an
    argument of [gcDirectory_txn], and [gcDirectory_drains] is about directories
    for which it is not entered.

    ** What is shown

    The cluster manager:
    - ChainProtocol.v: [generateNewChain] is its transition table; its order,
      availability and fixpoint; rotations and shutdown; and, over every
      interleaving of reports, updates, rotations, shutdowns, writes and syncs,
      that every target that serves or served last holds all committed writes.
    - RingBuffer.v, KvRange.v, MgmtdKeys.v: refinement of a bounded queue,
      completeness of prefix listing, injectivity, round trip and order of keys.
    - Transaction.v: a store update is atomic and fenced by the stored lease,
      whatever its attempts meet, and it settles.
    - ChainInvariant.v, Coherence.v, NodeInvariant.v: the invariant [sys_ok]
      (memory agrees with the store, the routing information is well-formed) and
      one lemma per operation.  ChainTheorems.v, NodeTheorems.v,
      AdminTheorems.v, BackgroundTheorems.v and LoaderTheorems.v state what each
      operation does on success and that errors leave memory alone and nothing
      aborts.  These hold while nobody else writes the primary's part of the
      store ([quiet]); commits may fail, with or without effect.
    - LeaseTheorems.v, Failover.v: leases of different tenures do not overlap;
      a new primary's memory is that of the earlier one as far as it is stored;
      a process acts as primary only after that reload.
    - Primary.v: any sequence of operations that satisfy [op_pre] and succeed or
      fail without effect keeps [sys_ok].

    The storage service:
    - MetaSpace.v, MetaSteps.v, MetaCreate.v, MetaTheorems.v, MetaSystem.v: no
      two chunks share space, and bytes of a chunk change only by its own
      writes and removal, in every interleaving of the critical sections of the
      metadata store, with failing accesses.  The read of the size of a file
      while space is allocated must not fail: [failed_read_shares_position]
      shows that the code then gives one position to two chunks.
    - ReplicaInv.v, ReplicaData.v, ReplicaUpdate.v, ReplicaCommit.v,
      ReplicaTheorems.v: the invariant of the chunks of a target, and that
      updates, commits and reads refine operations on byte strings.
    - TargetMapTheorems.v, ChainWiring.v: the invariant of the targets of a
      service, and that services with the same routing information form the
      chain of the serving targets that it describes.
    - ServiceLemmas.v, ServiceParts.v: what each part of a request does.
      ReplicationInv.v relates the services of a chain to the specification;
      ReplicationSteps.v, ReplicationRequests.v and ReplicationSimulation.v show
      that every step keeps the relation, and ReplicationTheorems.v that the
      chain refines its specification, that what clients see is linearizable,
      and that acknowledged updates stay, with a run of two services.

    The theorems of ReplicationTheorems.v hold for requests that write, truncate
    or extend chunks, without the flags of benchmarks, and for clients that use
    a sequence number of a channel for one update; chunks are not removed.  They
    start from targets without chunks.  Messages are lost, repeated and
    reordered, requests are given up and sent again, devices fail and services
    stop.  The routing information is fixed and all its targets serve: its
    changes are the subject of ChainProtocol.v, and the synchronization of a
    target that returns, and restarts, are not part of the runs.  A step that
    creates a chunk assumes that the device answers reads, and an update that
    the version can still grow, because without this the code is known to fail
    (see [failed_read_shares_position] and [version_wraparound_stalls]).

    The meta store:
    - FsNamespace.v, FsMoves.v: what a well-formed namespace is ([NS]), and that
      the elementary moves keep it.  FsTracked.v, FsResolved.v: what a
      transaction that commits has seen, and what resolution finds.
      FsOpsLand.v, FsOpenLand.v, FsBatchLand.v and FsGcLand.v show that what
      each operation commits, in whatever store it commits, is a sequence of
      moves.
    - FsTheorems.v: the namespace stays well-formed in every run of servers from
      the creation of the file system on, and every run is a sequence of moves;
      with FsGcLive.v, that a removed directory is emptied; with FsEnds.v, that
      the operations that walk the namespace end; with FsPermission.v, that
      entries change only where the user may write; and that failed creations of
      a batch write nothing.

    The runs of [fs_step] assume what [op_ok] says of an operation: ids that are
    drawn are new; a request does not start in the root of the garbage or in a
    garbage directory (clients get no inodes of these); a requeued task gets a
    new name, which contains the time; and a hard link whose new path is
    followed through a symbolic link at its end gets a name that is free where
    the path leads.  Without the last one the code overwrites an entry (see
    [hard_link_overwrites]).

    Examples are concrete runs that show behaviour worth knowing, among them
    requests that stop the process and updates that are lost.

    ** What is not modelled

    The encoding of stored values (they are kept as the objects they encode),
    the network, metrics, logging and event traces, the start-up of processes,
    and the scheduling of periodic work.  FoundationDB is the environment of a
    transaction.  Of the storage service, the chunk engine (a library in another
    language), the worker threads and the resync worker are not modelled.  Of
    the meta service, the front end that dispatches requests
    ([meta/service]), the distribution of inodes over servers, the records of
    idempotent requests, the allocator of inode ids, the scan for dead sessions
    and the requests to storage services (lengths and removal of chunks, whose
    answers are arguments here) are not modelled.  The clients, the fuse daemon
    and the tools are not modelled. *)

From stdpp Require Import base gmap list strings sorting.
From Stdlib Require Import ZArith Lia.

Declare Scope hf3fs_scope.
Delimit Scope hf3fs_scope with hf3fs.
Open Scope Z_scope.
Open Scope hf3fs_scope.

Create HintDb hf3fs.

(** ** Fixed-width unsigned integers

    An unsigned [w]-bit C++ integer is a [Z] in [0, 2^w); arithmetic wraps. *)

Definition wrap (w v : Z) : Z := v mod 2 ^ w.
Definition u8 : Z -> Z := wrap 8.
Definition u32 : Z -> Z := wrap 32.
Definition u64 : Z -> Z := wrap 64.

Lemma wrap_range w v : 0 <= w -> 0 <= wrap w v < 2 ^ w.
Proof. intros Hw. apply Z.mod_pos_bound. lia. Qed.

Lemma wrap_small w v : 0 <= v < 2 ^ w -> wrap w v = v.
Proof. apply Z.mod_small. Qed.

Lemma u64_small v : 0 <= v < 2 ^ 64 -> u64 v = v.
Proof. apply wrap_small. Qed.
Lemma u32_small v : 0 <= v < 2 ^ 32 -> u32 v = v.
Proof. apply wrap_small. Qed.

Lemma wrap_succ w v : 0 <= v -> v + 1 < 2 ^ w -> wrap w (v + 1) = v + 1.
Proof. intros. apply wrap_small. lia. Qed.

(** ** Outcomes of an operation

    [Ok] is a value, [Err] an error status of [hf3fs::Result], [Fatal] a
    process abort (a failed [XLOGF(FATAL, ..)] check or undefined behaviour),
    [Pending] an operation still waiting for its environment. *)

Inductive outcome (A : Type) : Type :=
| Ok (a : A)
| Err (code : Z)
| Fatal
| Pending.
Arguments Ok {A} a.
Arguments Err {A} code.
Arguments Fatal {A}.
Arguments Pending {A}.

Definition is_ok {A} (o : outcome A) : bool :=
  match o with Ok _ => true | _ => false end.

Definition omap_outcome {A B} (f : A -> B) (o : outcome A) : outcome B :=
  match o with
  | Ok a => Ok (f a)
  | Err c => Err c
  | Fatal => Fatal
  | Pending => Pending
  end.

(** ** State and error monad

    [M S A]: a computation on a state of type [S].  The state reached is kept
    on every outcome: an error after a partial update leaves the update. *)

Definition M (S A : Type) : Type := S -> outcome A * S.

#[export] Instance M_ret S : MRet (M S) := fun A a s => (Ok a, s).
#[export] Instance M_bind S : MBind (M S) := fun A B k m s =>
  match m s with
  | (Ok a, s') => k a s'
  | (Err c, s') => (Err c, s')
  | (Fatal, s') => (Fatal, s')
  | (Pending, s') => (Pending, s')
  end.

Definition fail {S A} (c : Z) : M S A := fun s => (Err c, s).
Definition fatal {S A} : M S A := fun s => (Fatal, s).
Definition getS {S} : M S S := fun s => (Ok s, s).
Definition gets {S A} (f : S -> A) : M S A := fun s => (Ok (f s), s).
Definition modify {S} (f : S -> S) : M S unit := fun s => (Ok tt, f s).
Definition lift {S A} (o : outcome A) : M S A := fun s => (o, s).

(** [RETURN_AND_LOG_OP_ERR] under a condition. *)
Definition err_if {S} (b : bool) (c : Z) : M S unit := fun s => (if b then Err c else Ok tt, s).
(** [XLOGF_IF(FATAL, b, ..)]. *)
Definition fatal_if {S} (b : bool) : M S unit := fun s => (if b then Fatal else Ok tt, s).
(** [when b m]: the [if] statement without an [else]. *)
Definition when {S} (b : bool) (m : M S unit) : M S unit := if b then m else mret tt.

(** A [for] loop over a vector whose body may fail. *)
Fixpoint for_each {S A} (f : A -> M S unit) (l : list A) : M S unit :=
  match l with
  | [] => mret tt
  | x :: l' => f x ;; for_each f l'
  end.

(** Running a computation of a component on the part of a larger state that
    holds it. *)
Definition zoom {S T A} (get : S -> T) (put : T -> S -> S) (m : M T A) : M S A :=
  fun s => let '(o, t) := m (get s) in (o, put t s).

(** A call whose error the caller handles. *)
Definition attempt {S A} (m : M S A) : M S (A + Z) := fun s =>
  match m s with
  | (Ok a, s') => (Ok (inl a), s')
  | (Err c, s') => (Ok (inr c), s')
  | (Fatal, s') => (Fatal, s')
  | (Pending, s') => (Pending, s')
  end.

Section monad_laws.
Context {S : Type}.

Lemma bind_ok {A B} (m : M S A) (k : A -> M S B) s a s' :
  m s = (Ok a, s') -> (m ≫= k) s = k a s'.
Proof. intros H. unfold mbind, M_bind. by rewrite H. Qed.

Lemma bind_inv {A B} (m : M S A) (k : A -> M S B) s b s' :
  (m ≫= k) s = (Ok b, s') -> exists a s1, m s = (Ok a, s1) /\ k a s1 = (Ok b, s').
Proof.
  unfold mbind, M_bind. destruct (m s) as [[a|c| |] s1] eqn:E; try discriminate.
  intros H. eauto.
Qed.

Lemma err_if_inv b c (s : S) u s' : err_if b c s = (Ok u, s') -> b = false /\ s' = s.
Proof. unfold err_if. destruct b; [discriminate|]. intros H. by inversion H. Qed.

Lemma fatal_if_inv b (s : S) u s' : fatal_if b s = (Ok u, s') -> b = false /\ s' = s.
Proof. unfold fatal_if. destruct b; [discriminate|]. intros H. by inversion H. Qed.

(** Induction over a loop: an invariant preserved by every iteration that
    returns normally holds at the end. *)
Lemma for_each_inv {A} (P : list A -> S -> Prop) (f : A -> M S unit) l s u s' :
  for_each f l s = (Ok u, s') ->
  P l s ->
  (forall x l' s1 u1 s2, P (x :: l') s1 -> f x s1 = (Ok u1, s2) -> P l' s2) ->
  P [] s'.
Proof.
  revert s. induction l as [|x l IH]; intros s Hrun HP Hstep; simpl in Hrun.
  - unfold mret, M_ret in Hrun. by inversion Hrun; subst.
  - apply bind_inv in Hrun as ([] & s1 & Hf & Hrest). eauto.
Qed.

Lemma for_each_ok {A} (P : list A -> S -> Prop) (f : A -> M S unit) l s :
  P l s ->
  (forall x l' s1, P (x :: l') s1 -> exists s2, f x s1 = (Ok tt, s2) /\ P l' s2) ->
  exists s', for_each f l s = (Ok tt, s') /\ P [] s'.
Proof.
  revert s. induction l as [|x l IH]; intros s HP Hstep; simpl.
  - unfold mret, M_ret. eauto.
  - destruct (Hstep _ _ _ HP) as (s2 & Hf & HP2).
    rewrite (bind_ok _ _ _ _ _ Hf). eauto.
Qed.
End monad_laws.

(** ** Weakest preconditions

    [runs m s Q]: running [m] in [s] gives an outcome and a state in [Q]. *)
Section runs.
Context {S : Type}.

Definition runs {A} (m : M S A) (s : S) (Q : outcome A -> S -> Prop) : Prop := Q (fst (m s)) (snd (m s)).

(** What a sequence needs of its first statement. *)
Definition andThen {A B} (k : A -> M S B) (Q : outcome B -> S -> Prop) (o : outcome A) (s : S) : Prop :=
  match o with
  | Ok a => runs (k a) s Q
  | Err c => Q (Err c) s
  | Fatal => Q Fatal s
  | Pending => Q Pending s
  end.

Lemma runs_bind {A B} (m : M S A) (k : A -> M S B) s Q : runs m s (andThen k Q) -> runs (m ≫= k) s Q.
Proof. unfold runs, andThen, mbind, M_bind. destruct (m s) as [[a|c| |] s1]; simpl; done. Qed.

Lemma runs_ret {A} (a : A) s (Q : outcome A -> S -> Prop) : Q (Ok a) s -> runs (mret a) s Q.
Proof. done. Qed.

Lemma runs_fail {A} c s (Q : outcome A -> S -> Prop) : Q (Err c) s -> runs (fail c) s Q.
Proof. done. Qed.

Lemma runs_gets {A} (f : S -> A) s (Q : outcome A -> S -> Prop) : Q (Ok (f s)) s -> runs (gets f) s Q.
Proof. done. Qed.

Lemma runs_getS s (Q : outcome S -> S -> Prop) : Q (Ok s) s -> runs getS s Q.
Proof. done. Qed.

Lemma runs_modify f s (Q : outcome unit -> S -> Prop) : Q (Ok tt) (f s) -> runs (modify f) s Q.
Proof. done. Qed.

Lemma runs_lift {A} (o : outcome A) s (Q : outcome A -> S -> Prop) : Q o s -> runs (lift o) s Q.
Proof. done. Qed.

Lemma runs_err_if b c s (Q : outcome unit -> S -> Prop) :
  (b = true -> Q (Err c) s) -> (b = false -> Q (Ok tt) s) -> runs (err_if b c) s Q.
Proof. unfold runs, err_if. destruct b; auto. Qed.

Lemma runs_fatal_if b s (Q : outcome unit -> S -> Prop) :
  (b = true -> Q Fatal s) -> (b = false -> Q (Ok tt) s) -> runs (fatal_if b) s Q.
Proof. unfold runs, fatal_if. destruct b; auto. Qed.

Lemma runs_when b (m : M S unit) s Q :
  (b = true -> runs m s Q) -> (b = false -> Q (Ok tt) s) -> runs (when b m) s Q.
Proof. unfold when. destruct b; intros H1 H2; [by apply H1|by apply runs_ret, H2]. Qed.

Lemma runs_attempt {A} (m : M S A) s (Q : outcome (A + Z) -> S -> Prop) :
  runs m s (fun o s' => match o with Ok a => Q (Ok (inl a)) s' | Err c => Q (Ok (inr c)) s'
                        | Fatal => Q Fatal s' | Pending => Q Pending s' end) ->
  runs (attempt m) s Q.
Proof. unfold runs, attempt. destruct (m s) as [[a|c| |] s1]; done. Qed.

(** A loop with an invariant on the elements left. *)
Lemma runs_for_each {A} (I : list A -> S -> Prop) (f : A -> M S unit) l s (Q : outcome unit -> S -> Prop) :
  I l s ->
  (forall x l' s1, I (x :: l') s1 ->
     runs (f x) s1 (fun o s2 => match o with Ok _ => I l' s2 | Err c => Q (Err c) s2
                                | Fatal => Q Fatal s2 | Pending => Q Pending s2 end)) ->
  (forall s', I [] s' -> Q (Ok tt) s') ->
  runs (for_each f l) s Q.
Proof.
  intros H0 Hstep Hend. revert s H0. induction l as [|x l IH]; intros s H0; simpl; [by apply runs_ret, Hend|].
  apply runs_bind. specialize (Hstep x l s H0). unfold runs at 1. unfold runs at 1 in Hstep.
  destruct (f x s) as [[[]|c| |] s1]; simpl in *; [by apply IH|done..].
Qed.

Lemma runs_mono {A} (m : M S A) s (P Q : outcome A -> S -> Prop) :
  runs m s P -> (forall o s', P o s' -> Q o s') -> runs m s Q.
Proof. unfold runs. auto. Qed.

Lemma runs_conj {A} (m : M S A) s (P Q : outcome A -> S -> Prop) :
  runs m s P -> runs m s Q -> runs m s (fun o s' => P o s' /\ Q o s').
Proof. unfold runs. auto. Qed.

Lemma runs_of_eq {A} (m : M S A) s o s' (Q : outcome A -> S -> Prop) : m s = (o, s') -> Q o s' -> runs m s Q.
Proof. unfold runs. by intros ->. Qed.

Lemma runs_ok {A} (m : M S A) s (P : A -> S -> Prop) :
  runs m s (fun o s' => match o with Ok a => P a s' | _ => False end) -> exists a s', m s = (Ok a, s') /\ P a s'.
Proof. unfold runs. destruct (m s) as [[a|c| |] s1]; simpl; try done. eauto. Qed.
End runs.
Arguments runs : simpl never.
Arguments andThen : simpl never.

Lemma runs_zoom {S T A} (get : S -> T) (put : T -> S -> S) (m : M T A) s (Q : outcome A -> S -> Prop) :
  runs m (get s) (fun o t => Q o (put t s)) -> runs (zoom get put m) s Q.
Proof. unfold runs, zoom. by destruct (m (get s)). Qed.

(** One statement of a [do]-block. *)
Ltac mstep :=
  lazymatch goal with
  | |- runs (_ ≫= _) _ _ => apply runs_bind
  | |- runs (mret _) _ _ => apply runs_ret
  | |- runs (fail _) _ _ => apply runs_fail
  | |- runs (gets _) _ _ => apply runs_gets
  | |- runs getS _ _ => apply runs_getS
  | |- runs (modify _) _ _ => apply runs_modify
  | |- runs (lift _) _ _ => apply runs_lift
  | |- runs (err_if _ _) _ _ => apply runs_err_if; intros ?
  | |- runs (fatal_if _) _ _ => apply runs_fatal_if; intros ?
  | |- runs (when _ _) _ _ => apply runs_when; intros ?
  | |- runs (zoom _ _ _) _ _ => apply runs_zoom
  | |- runs (attempt _) _ _ => apply runs_attempt
  | |- andThen _ _ _ _ => cbv beta iota delta [andThen]
  end.
Ltac msteps := repeat mstep.

(** Unfold the monad's combinators on a concrete run. *)
Ltac unfold_M :=
  unfold mbind, M_bind, mret, M_ret, fail, fatal, getS, gets, modify, lift, err_if, fatal_if, when, zoom in *.

(** Split a successful run of a [do]-block into the runs of its statements. *)
Ltac minv H :=
  repeat match type of H with
  | (_ ≫= _) _ = (Ok _, _) =>
      let a := fresh "r" in let s := fresh "st" in let H1 := fresh "Hrun" in
      apply bind_inv in H as (a & s & H1 & H)
  end.

Ltac simp_run :=
  repeat match goal with
  | H : err_if _ _ _ = (Ok _, _) |- _ => apply err_if_inv in H as [? ->]
  | H : fatal_if _ _ = (Ok _, _) |- _ => apply fatal_if_inv in H as [? ->]
  | H : mret _ _ = (Ok _, _) |- _ => unfold mret, M_ret in H; simplify_eq
  | H : getS _ = (Ok _, _) |- _ => unfold getS in H; simplify_eq
  | H : gets _ _ = (Ok _, _) |- _ => unfold gets in H; simplify_eq
  | H : modify _ _ = (Ok _, _) |- _ => unfold modify in H; simplify_eq
  end.

(** ** Lists *)

(** [take] and [drop] with a bound that is not a small number. *)
Fixpoint take_z {A} (n : Z) (l : list A) : list A :=
  match l with [] => [] | x :: l' => if n <=? 0 then [] else x :: take_z (n - 1) l' end.
Fixpoint drop_z {A} (n : Z) (l : list A) : list A :=
  match l with [] => [] | x :: l' => if n <=? 0 then l else drop_z (n - 1) l' end.

Lemma take_drop_z {A} n (l : list A) : take_z n l ++ drop_z n l = l.
Proof. revert n. induction l as [|x l IH]; intros n; simpl; [done|]. destruct (n <=? 0); simpl; [done|]. by rewrite IH. Qed.

Lemma take_z_all {A} n (l : list A) : Z.of_nat (length l) <= n -> take_z n l = l.
Proof.
  revert n. induction l as [|x l IH]; intros n Hn; simpl in *; [done|]. rewrite (proj2 (Z.leb_gt _ _)) by lia.
  f_equal. apply IH. lia.
Qed.

Lemma take_z_take {A} n (l : list A) : take_z n l = take (Z.to_nat n) l.
Proof.
  revert n. induction l as [|x l IH]; intros n; simpl; [by rewrite take_nil|].
  destruct (Z.leb_spec n 0); [by replace (Z.to_nat n) with O by lia|].
  replace (Z.to_nat n) with (S (Z.to_nat (n - 1))) by lia. simpl. by rewrite IH.
Qed.

Fixpoint take_while {A} (p : A -> bool) (l : list A) : list A :=
  match l with [] => [] | x :: l' => if p x then x :: take_while p l' else [] end.

Lemma Forall2_impl_in {A B} (P Q : A -> B -> Prop) l l' :
  Forall2 P l l' -> (forall x y, x ∈ l -> P x y -> Q x y) -> Forall2 Q l l'.
Proof.
  induction 1 as [|x y l l' Hxy HF IH]; intros HPQ; constructor.
  - apply HPQ; [left|done].
  - apply IH. intros ? ? Hin. apply HPQ. by right.
Qed.

Lemma elem_of_Forall2_l {A B} (P : A -> B -> Prop) l k x :
  Forall2 P l k -> x ∈ l -> exists y, y ∈ k /\ P x y.
Proof.
  induction 1 as [|a b l k Hab HF IH]; intros Hx; [by apply elem_of_nil in Hx|].
  apply elem_of_cons in Hx as [->|Hx]; [exists b; split; [left|done]|].
  destruct (IH Hx) as (y & Hy & ?). exists y. split; [by right|done].
Qed.

Lemma elem_of_Forall2_r {A B} (P : A -> B -> Prop) l k y :
  Forall2 P l k -> y ∈ k -> exists x, x ∈ l /\ P x y.
Proof. intros HF Hy. apply Forall2_flip in HF. destruct (elem_of_Forall2_l _ _ _ _ HF Hy) as (x & ? & ?). eauto. Qed.

Lemma StronglySorted_app_le {A} (R : A -> A -> Prop) (l1 l2 : list A) :
  StronglySorted R l1 -> StronglySorted R l2 -> (forall x y, x ∈ l1 -> y ∈ l2 -> R x y) ->
  StronglySorted R (l1 ++ l2).
Proof.
  induction 1 as [|x l1 Hs IH HF]; intros H2 Hx; simpl; [done|].
  constructor.
  - apply IH; [done|]. intros. apply Hx; [by right|done].
  - apply Forall_app. split; [done|]. apply Forall_forall. intros y Hy. apply Hx; [left|done].
Qed.


Section filters.
Context {A : Type} (P Q : A -> Prop) {decP : forall x, Decision (P x)} {decQ : forall x, Decision (Q x)}.

Lemma filter_none_in (l : list A) : (forall x, x ∈ l -> ~ P x) -> filter P l = [].
Proof.
  induction l as [|y l IH]; intros H; [done|]. rewrite filter_cons_False by (apply H; left). apply IH.
  intros x Hx. apply H. by right.
Qed.

Lemma filter_all_in (l : list A) : (forall x, x ∈ l -> P x) -> filter P l = l.
Proof.
  induction l as [|y l IH]; intros H; [done|]. rewrite filter_cons_True by (apply H; left). f_equal. apply IH.
  intros x Hx. apply H. by right.
Qed.

Lemma filter_iff_in (l : list A) : (forall x, x ∈ l -> P x <-> Q x) -> filter P l = filter Q l.
Proof.
  induction l as [|y l IH]; intros H; [done|]. rewrite !filter_cons. rewrite IH by (intros x Hx; apply H; by right).
  specialize (H y ltac:(left)). destruct (decide (P y)), (decide (Q y)); tauto.
Qed.

Lemma StronglySorted_filter (R : A -> A -> Prop) (l : list A) : StronglySorted R l -> StronglySorted R (filter P l).
Proof.
  induction 1 as [|x l Hs IH HF]; [constructor|]. rewrite filter_cons. case_decide; [|done].
  constructor; [done|]. apply Forall_forall. intros y Hy. apply list_elem_of_filter in Hy as [_ Hy].
  rewrite Forall_forall in HF. by apply HF.
Qed.
End filters.
