(* ===== verification/StatusCode.v ===== *)
(** * Status codes ([src/common/utils/StatusCode.{h,cc}], [StatusCodeDetails.h])

    Status codes are 16-bit numbers, grouped in name spaces.  The constants
    below carry the numbers of [StatusCodeDetails.h]; [typeOf] and [toErrno]
    are the two classifications the services branch on. *)

From stdpp Require Import base list.
From Stdlib Require Import ZArith.
From S2P Require Import Prelude.

Inductive StatusCodeType :=
| Invalid | Common | Transaction | RPC | Meta | Storage | Mgmtd
| MgmtdClient | StorageClient | ClientAgent | Cli | KvService.

#[export] Instance StatusCodeType_eq_dec : EqDecision StatusCodeType.
Proof. solve_decision. Defined.

(** ** The code table: every code with the name space it is declared in. *)
Definition StatusCodeDetails : list (Z * StatusCodeType) :=
  [ (0, Common); (1, Common); (2, Common); (3, Common); (4, Common); (5, Common);
    (6, Common); (7, Common); (8, Common); (12, Common); (13, Common); (14, Common);
    (15, Common); (16, Common); (17, Common); (18, Common); (19, Common); (20, Common);
    (25, Common); (26, Common); (27, Common); (33, Common); (34, Common); (40, Common);
    (41, Common); (42, Common); (43, Common); (44, Common); (45, Common); (46, Common);
    (47, Common); (48, Common); (49, Common); (50, Common); (51, Common); (52, Common);
    (53, Common); (60, Common); (61, Common); (62, Common); (63, Common); (64, Common);
    (65, Common); (66, Common); (67, Common); (68, Common); (69, Common); (70, Common);
    (71, Common); (72, Common); (998, Common); (999, Common); (1000, Transaction);
    (1001, Transaction); (1002, Transaction); (1003, Transaction); (1004, Transaction);
    (1005, Transaction); (1006, Transaction); (1007, Transaction); (1008, Transaction);
    (1009, Transaction); (1010, Transaction); (2000, RPC); (2001, RPC); (2002, RPC);
    (2003, RPC); (2005, RPC); (2006, RPC); (2007, RPC); (2008, RPC); (2009, RPC);
    (2010, RPC); (2011, RPC); (2012, RPC); (2013, RPC); (2014, RPC); (2015, RPC);
    (2016, RPC); (2017, RPC); (2018, RPC); (2019, RPC); (2020, RPC); (2021, RPC);
    (2022, RPC); (2023, RPC); (2024, RPC); (2025, RPC); (2026, RPC); (2027, RPC);
    (3000, Meta); (3001, Meta); (3003, Meta); (3005, Meta); (3006, Meta); (3007, Meta);
    (3008, Meta); (3009, Meta); (3010, Meta); (3011, Meta); (3012, Meta); (3013, Meta);
    (3014, Meta); (3015, Meta); (3016, Meta); (3017, Meta); (3018, Meta); (3019, Meta);
    (3100, Meta); (3101, Meta); (3102, Meta); (3200, Meta); (3201, Meta); (3202, Meta);
    (3203, Meta); (3300, Meta); (3999, Meta); (4000, Storage); (4001, Storage);
    (4002, Storage); (4003, Storage); (4004, Storage); (4005, Storage); (4006, Storage);
    (4007, Storage); (4008, Storage); (4009, Storage); (4010, Storage); (4011, Storage);
    (4012, Storage); (4013, Storage); (4014, Storage); (4015, Storage); (4016, Storage);
    (4017, Storage); (4018, Storage); (4020, Storage); (4021, Storage); (4022, Storage);
    (4023, Storage); (4024, Storage); (4030, Storage); (4031, Storage); (4032, Storage);
    (4033, Storage); (4034, Storage); (4040, Storage); (4050, Storage); (4051, Storage);
    (4060, Storage); (4070, Storage); (4071, Storage); (4072, Storage); (4080, Storage);
    (4081, Storage); (4082, Storage); (4090, Storage); (4091, Storage); (5000, Mgmtd);
    (5001, Mgmtd); (5002, Mgmtd); (5003, Mgmtd); (5004, Mgmtd); (5005, Mgmtd);
    (5006, Mgmtd); (5007, Mgmtd); (5008, Mgmtd); (5009, Mgmtd); (5010, Mgmtd);
    (5011, Mgmtd); (5012, Mgmtd); (5013, Mgmtd); (5014, Mgmtd); (5015, Mgmtd);
    (5016, Mgmtd); (5017, Mgmtd); (5018, Mgmtd); (6000, MgmtdClient);
    (6001, MgmtdClient); (6002, MgmtdClient); (6003, MgmtdClient); (6004, MgmtdClient);
    (7000, StorageClient); (7001, StorageClient); (7002, StorageClient);
    (7003, StorageClient); (7004, StorageClient); (7005, StorageClient);
    (7006, StorageClient); (7007, StorageClient); (7008, StorageClient);
    (7009, StorageClient); (7010, StorageClient); (7011, StorageClient);
    (7012, StorageClient); (7013, StorageClient); (7014, StorageClient);
    (7015, StorageClient); (7016, StorageClient); (7017, StorageClient);
    (7018, StorageClient); (7019, StorageClient); (7020, StorageClient);
    (7021, StorageClient); (7999, StorageClient); (8000, ClientAgent);
    (8001, ClientAgent); (8002, ClientAgent); (8003, ClientAgent); (8004, ClientAgent);
    (8006, ClientAgent); (10000, Cli); (11000, KvService); (11001, KvService);
    (11002, KvService); (11003, KvService); (11004, KvService); (11005, KvService);
    (11006, KvService); (11007, KvService); (11008, KvService); (11009, KvService);
    (11010, KvService); (11011, KvService); (11012, KvService); (11013, KvService);
    (11014, KvService); (11015, KvService); (11016, KvService); (11017, KvService);
    (11018, KvService); (11019, KvService); (11020, KvService); (11021, KvService);
    (11022, KvService); (11023, KvService) ].

(** ** Named constants used by the modelled components. *)
Definition kOK : Z := 0.
Definition kNotImplemented : Z := 1.
Definition kDataCorruption : Z := 2.
Definition kInvalidArg : Z := 3.
Definition kAuthenticationFail : Z := 25.
Definition kNotEnoughMemory : Z := 26.
Definition kReadOnlyMode : Z := 34.
Definition TransactionCode_kFailed : Z := 1000.
Definition TransactionCode_kConflict : Z := 1001.
Definition TransactionCode_kThrottled : Z := 1002.
Definition TransactionCode_kTooOld : Z := 1003.
Definition TransactionCode_kNetworkError : Z := 1004.
Definition TransactionCode_kCanceled : Z := 1005.
Definition TransactionCode_kMaybeCommitted : Z := 1006.
Definition TransactionCode_kRetryable : Z := 1007.
Definition TransactionCode_kResourceConstrained : Z := 1008.
Definition TransactionCode_kProcessBehind : Z := 1009.
Definition TransactionCode_kFutureVersion : Z := 1010.
Definition MetaCode_kNotFound : Z := 3000.
Definition MetaCode_kNotEmpty : Z := 3001.
Definition MetaCode_kNotDirectory : Z := 3003.
Definition MetaCode_kTooManySymlinks : Z := 3005.
Definition MetaCode_kIsDirectory : Z := 3006.
Definition MetaCode_kExists : Z := 3007.
Definition MetaCode_kNoPermission : Z := 3008.
Definition MetaCode_kInconsistent : Z := 3009.
Definition MetaCode_kNotFile : Z := 3010.
Definition MetaCode_kMoreChunksToRemove : Z := 3016.
Definition MetaCode_kNameTooLong : Z := 3017.
Definition MetaCode_kRequestCanceled : Z := 3018.
Definition MetaCode_kNoLock : Z := 3101.
Definition MetaCode_kFileTooLarge : Z := 3102.
Definition StorageCode_kChunkMetadataUnpackError : Z := 4000.
Definition StorageCode_kChunkMetadataNotFound : Z := 4001.
Definition StorageCode_kChunkMetadataGetError : Z := 4002.
Definition StorageCode_kChunkMetadataSetError : Z := 4003.
Definition StorageCode_kChunkNotCommit : Z := 4004.
Definition StorageCode_kChunkNotClean : Z := 4005.
Definition StorageCode_kChunkStaleUpdate : Z := 4006.
Definition StorageCode_kChunkMissingUpdate : Z := 4007.
Definition StorageCode_kChunkCommittedUpdate : Z := 4008.
Definition StorageCode_kChunkOpenFailed : Z := 4009.
Definition StorageCode_kChunkReadFailed : Z := 4010.
Definition StorageCode_kChunkWriteFailed : Z := 4011.
Definition StorageCode_kChunkAdvanceUpdate : Z := 4012.
Definition StorageCode_kChunkApplyFailed : Z := 4013.
Definition StorageCode_kPunchHoleFailed : Z := 4014.
Definition StorageCode_kChunkSizeMismatch : Z := 4015.
Definition StorageCode_kStorageStatFailed : Z := 4016.
Definition StorageCode_kStorageUUIDMismatch : Z := 4017.
Definition StorageCode_kStorageInitFailed : Z := 4018.
Definition StorageCode_kMetaStoreOpenFailed : Z := 4020.
Definition StorageCode_kMetaStoreInvalidIterator : Z := 4021.
Definition StorageCode_kChunkNotReadyToRemove : Z := 4022.
Definition StorageCode_kChunkStaleCommit : Z := 4023.
Definition StorageCode_kChunkInvalidChunkSize : Z := 4024.
Definition StorageCode_kTargetOffline : Z := 4030.
Definition StorageCode_kTargetNotFound : Z := 4031.
Definition StorageCode_kTargetStateInvalid : Z := 4032.
Definition StorageCode_kNoSuccessorTarget : Z := 4033.
Definition StorageCode_kNoSuccessorAddr : Z := 4034.
Definition StorageCode_kChunkStoreInitFailed : Z := 4040.
Definition StorageCode_kAioSubmitFailed : Z := 4050.
Definition StorageCode_kAioGetEventsFailed : Z := 4051.
Definition StorageCode_kBufferSizeExceeded : Z := 4060.
Definition StorageCode_kSyncStartFailed : Z := 4070.
Definition StorageCode_kSyncSendStartFailed : Z := 4071.
Definition StorageCode_kSyncSendDoneFailed : Z := 4072.
Definition StorageCode_kChecksumMismatch : Z := 4080.
Definition StorageCode_kChainVersionMismatch : Z := 4081.
Definition StorageCode_kChunkVersionMismatch : Z := 4082.
Definition StorageCode_kChannelIsLocked : Z := 4090.
Definition StorageCode_kChunkIsLocked : Z := 4091.
Definition MgmtdCode_kNotPrimary : Z := 5000.
Definition MgmtdCode_kNodeNotFound : Z := 5001.
Definition MgmtdCode_kHeartbeatFail : Z := 5002.
Definition MgmtdCode_kClusterIdMismatch : Z := 5003.
Definition MgmtdCode_kRegisterFail : Z := 5004.
Definition MgmtdCode_kInvalidRoutingInfoVersion : Z := 5005.
Definition MgmtdCode_kInvalidConfigVersion : Z := 5006.
Definition MgmtdCode_kInvalidChainTable : Z := 5007.
Definition MgmtdCode_kInvalidChainTableVersion : Z := 5008.
Definition MgmtdCode_kHeartbeatVersionStale : Z := 5009.
Definition MgmtdCode_kClientSessionVersionStale : Z := 5010.
Definition MgmtdCode_kInvalidTag : Z := 5011.
Definition MgmtdCode_kChainNotFound : Z := 5012.
Definition MgmtdCode_kNodeTypeMismatch : Z := 5013.
Definition MgmtdCode_kExtendClientSessionMismatch : Z := 5014.
Definition MgmtdCode_kClientSessionNotFound : Z := 5015.
Definition MgmtdCode_kNotAdmin : Z := 5016.
Definition MgmtdCode_kTargetNotFound : Z := 5017.
Definition MgmtdCode_kTargetExisted : Z := 5018.
Definition kInvalidFormat : Z := 33.
Definition kSerdeInsufficientLength : Z := 40.
Definition kSerdeInvalidToml : Z := 51.
Definition kSerdeVariantIndexExceeded : Z := 42.
Definition kKVStoreNotFound : Z := 60.
Definition kKVStoreGetError : Z := 61.
Definition kKVStoreSetError : Z := 62.
Definition kKVStoreIterateError : Z := 68.
Definition RPCCode_kTimeout : Z := 2005.
Definition RPCCode_kSendFailed : Z := 2007.
Definition RPCCode_kRequestRefused : Z := 2012.
Definition RPCCode_kRDMANoBuf : Z := 2019.
Definition StorageClientCode_kNotInitialized : Z := 7003.
Definition StorageClientCode_kRoutingError : Z := 7004.
Definition StorageClientCode_kNotAvailable : Z := 7005.
Definition StorageClientCode_kResourceBusy : Z := 7012.
Definition StorageClientCode_kDuplicateUpdate : Z := 7013.
Definition StorageClientCode_kRoutingVersionMismatch : Z := 7014.
Definition StorageClientCode_kChecksumMismatch : Z := 7015.
Definition StorageClientCode_kRequestCanceled : Z := 7018.
Definition StorageClientCode_kNoSpace : Z := 7021.
Definition StorageClientCode_kFoundBug : Z := 7999.
Definition ClientAgentCode_kTooManyOpenFiles : Z := 8000.
Definition ClientAgentCode_kHoleInIoOutcome : Z := 8001.
Definition ClientAgentCode_kOperationDisabled : Z := 8003.
Definition ClientAgentCode_kIovNotRegistered : Z := 8004.
Definition ClientAgentCode_kIovShmFail : Z := 8006.

(** ** Classification *)

(** [StatusCode::typeOf]: a code outside the table is [Invalid]. *)
Definition typeOf (code : Z) : StatusCodeType :=
  match list_find (fun e => fst e = code) StatusCodeDetails with
  | Some (_, (_, t)) => t
  | None => Invalid
  end.

(** Linux errno numbers used by [toErrno]. *)
Definition EPERM := 1.
Definition ENOENT := 2.
Definition EINTR := 4.
Definition EIO := 5.
Definition EBADF := 9.
Definition EAGAIN := 11.
Definition ENOMEM := 12.
Definition EACCES := 13.
Definition EEXIST := 17.
Definition ENOTDIR := 20.
Definition EISDIR := 21.
Definition EINVAL := 22.
Definition EMFILE := 24.
Definition EFBIG := 27.
Definition ENOSPC := 28.
Definition EROFS := 30.
Definition ENAMETOOLONG := 36.
Definition ENOLCK := 37.
Definition ENOSYS := 38.
Definition ENOTEMPTY := 39.
Definition ELOOP := 40.
Definition ENODATA := 61.
Definition EOPNOTSUPP := 95.
Definition EREMOTEIO := 121.

(** The [switch] of [toErrno], case by case. *)
Definition errno_table : list (Z * Z) :=
  [ (ClientAgentCode_kTooManyOpenFiles, EMFILE);
    (kInvalidArg, EINVAL);
    (kNotImplemented, ENOSYS);
    (kNotEnoughMemory, ENOMEM);
    (kAuthenticationFail, EPERM);
    (kReadOnlyMode, EROFS);
    (MetaCode_kRequestCanceled, EINTR);
    (StorageClientCode_kRequestCanceled, EINTR);
    (StorageClientCode_kNoSpace, ENOSPC);
    (MetaCode_kNotFound, ENOENT);
    (MetaCode_kNotEmpty, ENOTEMPTY);
    (MetaCode_kNotDirectory, ENOTDIR);
    (MetaCode_kTooManySymlinks, ELOOP);
    (MetaCode_kIsDirectory, EISDIR);
    (MetaCode_kExists, EEXIST);
    (MetaCode_kNoPermission, EPERM);
    (MetaCode_kInconsistent, EIO);
    (MetaCode_kNotFile, EBADF);
    (MetaCode_kMoreChunksToRemove, EAGAIN);
    (MetaCode_kNameTooLong, ENAMETOOLONG);
    (MetaCode_kNoLock, ENOLCK);
    (MetaCode_kFileTooLarge, EFBIG);
    (ClientAgentCode_kHoleInIoOutcome, ENODATA);
    (ClientAgentCode_kOperationDisabled, EOPNOTSUPP);
    (ClientAgentCode_kIovNotRegistered, EACCES);
    (ClientAgentCode_kIovShmFail, EACCES) ].

(** [StatusCode::toErrno] *)
Definition toErrno (code : Z) : Z :=
  if decide (typeOf code = RPC) then EREMOTEIO
  else match list_find (fun e => fst e = code) errno_table with
       | Some (_, (_, e)) => e
       | None => EIO
       end.

(** [TransactionHelper::isTransactionError] *)
Definition isTransactionError (code : Z) : bool := bool_decide (typeOf code = Transaction).

(** [TransactionHelper::isRetryable] *)
Definition isRetryable (code : Z) (allowMaybeCommitted : bool) : bool :=
  if decide (code ∈ [TransactionCode_kConflict; TransactionCode_kThrottled; TransactionCode_kTooOld;
                     TransactionCode_kRetryable; TransactionCode_kResourceConstrained;
                     TransactionCode_kProcessBehind; TransactionCode_kFutureVersion])
  then true
  else if decide (code = TransactionCode_kMaybeCommitted) then allowMaybeCommitted
  else false.
