(* ===== verification/RingBuffer.v ===== *)
(** * Bounded ring buffer ([src/common/utils/SimpleRingBuffer.h])

    The buffer keeps two [size_t] counters that only grow: [head_] counts the
    pushes, [tail_] the pops; slot [pos] lives at [pos % cap_].  The iterators
    start from the unreduced counters.  [contents] is the abstract queue;
    the theorems relate every operation to it, and say when iteration ends. *)

From stdpp Require Import base list.
From Stdlib Require Import ZArith Lia.
From S2P Require Import Prelude.

Record SimpleRingBuffer (T : Type) := mkRingBuffer {
  rb_cap : Z;
  rb_head : Z;
  rb_tail : Z;
  rb_buffer : list (option T)
}.
Arguments mkRingBuffer {T}.
Arguments rb_cap {T}.
Arguments rb_head {T}.
Arguments rb_tail {T}.
Arguments rb_buffer {T}.

Section ring_buffer.
Context {T : Type}.
Implicit Types rb : SimpleRingBuffer T.

(** The constructor: [capacity] raw slots. *)
Definition rb_new (capacity : Z) : SimpleRingBuffer T :=
  mkRingBuffer capacity 0 0 (replicate (Z.to_nat capacity) None).

(** [addr(pos)]: the index of a slot. *)
Definition rb_addr rb (pos : Z) : nat := Z.to_nat (pos mod rb_cap rb).

Definition rb_empty rb : bool := rb_head rb =? rb_tail rb.
Definition rb_full rb : bool := rb_head rb =? u64 (rb_tail rb + rb_cap rb).

(** [push]: refuses when full, else writes the slot of [head_]. *)
Definition rb_push (v : T) rb : bool * SimpleRingBuffer T :=
  if rb_full rb then (false, rb)
  else (true, mkRingBuffer (rb_cap rb) (u64 (rb_head rb + 1)) (rb_tail rb)
                           (<[rb_addr rb (rb_head rb) := Some v]> (rb_buffer rb))).

(** [pop()]: destroys the object of [tail_]. *)
Definition rb_pop rb : bool * SimpleRingBuffer T :=
  if rb_empty rb then (false, rb)
  else (true, mkRingBuffer (rb_cap rb) (rb_head rb) (u64 (rb_tail rb + 1))
                           (<[rb_addr rb (rb_tail rb) := None]> (rb_buffer rb))).

(** [pop(T &v)]: moves the object of [tail_] out first. *)
Definition rb_pop_value rb : option T * SimpleRingBuffer T :=
  if rb_empty rb then (None, rb)
  else (rb_buffer rb !! rb_addr rb (rb_tail rb) ≫= id, snd (rb_pop rb)).

(** An iterator is a position; [operator++] adds one and reduces it. *)
Definition rb_begin rb : Z := rb_tail rb.
Definition rb_end rb : Z := rb_head rb.
Definition rb_next rb (pos : Z) : Z := u64 (pos + 1) mod rb_cap rb.
Definition rb_deref rb (pos : Z) : option T := rb_buffer rb !! rb_addr rb pos ≫= id.

(** Building a vector from [begin()] to [end()]; [None] when [fuel] steps do
    not reach the end. *)
Fixpoint rb_collect (fuel : nat) rb (pos : Z) : option (list (option T)) :=
  if pos =? rb_end rb then Some []
  else match fuel with
       | O => None
       | S fuel' => l ← rb_collect fuel' rb (rb_next rb pos); Some (rb_deref rb pos :: l)
       end.

(** ** The abstract queue *)

Definition rb_length rb : nat := Z.to_nat (rb_head rb - rb_tail rb).

Definition rb_contents rb : list (option T) :=
  map (fun i => rb_deref rb (rb_tail rb + Z.of_nat i)) (seq 0 (rb_length rb)).

(** Well-formed buffers: the counters are [size_t]s that have not wrapped, at
    most [cap_] apart, and the live slots are initialised. *)
Record rb_wf rb : Prop := {
  rb_wf_cap : 0 < rb_cap rb;
  rb_wf_order : 0 <= rb_tail rb <= rb_head rb;
  rb_wf_bound : rb_head rb - rb_tail rb <= rb_cap rb;
  rb_wf_width : rb_head rb + rb_cap rb + 1 < 2 ^ 64;
  rb_wf_buffer : length (rb_buffer rb) = Z.to_nat (rb_cap rb);
  rb_wf_live : Forall is_Some (rb_contents rb)
}.

Lemma rb_addr_lt rb pos : rb_wf rb -> (rb_addr rb pos < length (rb_buffer rb))%nat.
Proof.
  intros [Hc _ _ _ Hb _]. rewrite Hb. unfold rb_addr.
  pose proof (Z.mod_pos_bound pos (rb_cap rb) Hc). lia.
Qed.

(** Two positions less than [cap_] apart use different slots. *)
Lemma rb_addr_inj rb p q :
  0 < rb_cap rb -> 0 <= q - p < rb_cap rb -> rb_addr rb p = rb_addr rb q -> p = q.
Proof.
  intros Hc Hd Heq. unfold rb_addr in Heq.
  pose proof (Z.mod_pos_bound p (rb_cap rb) Hc). pose proof (Z.mod_pos_bound q (rb_cap rb) Hc).
  assert (Hm : p mod rb_cap rb = q mod rb_cap rb) by lia.
  assert ((q - p) mod rb_cap rb = 0) as H1.
  { rewrite Zminus_mod, Hm, Z.sub_diag. apply Z.mod_0_l. lia. }
  rewrite Z.mod_small in H1; lia.
Qed.

Lemma rb_full_spec rb : rb_wf rb -> rb_full rb = true <-> rb_head rb - rb_tail rb = rb_cap rb.
Proof.
  intros [Hc Ho Hb Hw _ _]. unfold rb_full, u64. rewrite wrap_small by lia.
  rewrite Z.eqb_eq. lia.
Qed.

Lemma rb_push_deref rb v p :
  rb_wf rb -> rb_full rb = false -> rb_tail rb <= p < rb_head rb ->
  rb_deref (snd (rb_push v rb)) p = rb_deref rb p.
Proof.
  intros Hwf Hf Hp. unfold rb_push. rewrite Hf. unfold rb_deref, rb_addr. simpl.
  rewrite list_lookup_insert_ne; [done|].
  intros Heq. pose proof (rb_wf_cap _ Hwf). pose proof (rb_wf_bound _ Hwf).
  assert (rb_full rb <> true) as Hnf by congruence. rewrite rb_full_spec in Hnf by done.
  pose proof (rb_addr_inj rb p (rb_head rb)) as Hinj.
  unfold rb_addr in Hinj. rewrite Hinj in Hp; lia.
Qed.

Lemma rb_push_deref_new rb v :
  rb_wf rb -> rb_full rb = false -> rb_deref (snd (rb_push v rb)) (rb_head rb) = Some v.
Proof.
  intros Hwf Hf. unfold rb_push. rewrite Hf. unfold rb_deref, rb_addr. simpl.
  rewrite list_lookup_insert_eq; [done|]. by apply (rb_addr_lt rb).
Qed.

Lemma rb_contents_push rb v :
  rb_wf rb -> rb_full rb = false ->
  rb_contents (snd (rb_push v rb)) = rb_contents rb ++ [Some v].
Proof.
  intros Hwf Hf. pose proof (rb_wf_order _ Hwf). pose proof (rb_wf_width _ Hwf).
  pose proof (rb_wf_cap _ Hwf).
  assert (Hh : rb_head (snd (rb_push v rb)) = rb_head rb + 1).
  { unfold rb_push. rewrite Hf. simpl. unfold u64. rewrite wrap_small; lia. }
  assert (Ht : rb_tail (snd (rb_push v rb)) = rb_tail rb) by (unfold rb_push; by rewrite Hf).
  unfold rb_contents, rb_length. rewrite Hh, Ht.
  replace (Z.to_nat (rb_head rb + 1 - rb_tail rb)) with (S (Z.to_nat (rb_head rb - rb_tail rb))) by lia.
  rewrite seq_S, map_app. simpl. f_equal.
  - apply map_ext_in. intros i Hi. apply in_seq in Hi.
    apply rb_push_deref; [done..|lia].
  - rewrite <- (rb_push_deref_new rb v) by done. repeat f_equal. lia.
Qed.

Lemma rb_contents_pop rb :
  rb_wf rb -> rb_empty rb = false ->
  rb_contents rb = rb_deref rb (rb_tail rb) :: rb_contents (snd (rb_pop rb)).
Proof.
  intros Hwf He. pose proof (rb_wf_order _ Hwf). pose proof (rb_wf_width _ Hwf).
  pose proof (rb_wf_cap _ Hwf). pose proof (rb_wf_bound _ Hwf).
  unfold rb_empty in He. apply Z.eqb_neq in He as He'.
  unfold rb_pop, rb_empty. rewrite He. unfold rb_contents, rb_length. simpl.
  unfold u64. rewrite wrap_small by lia.
  replace (Z.to_nat (rb_head rb - rb_tail rb)) with (S (Z.to_nat (rb_head rb - (rb_tail rb + 1)))) by lia.
  simpl. rewrite Z.add_0_r. f_equal.
  rewrite <- seq_shift, map_map. apply map_ext_in. intros i Hi. apply in_seq in Hi.
  unfold rb_deref, rb_addr. simpl.
  replace (rb_tail rb + Z.of_nat (S i)) with (rb_tail rb + 1 + Z.of_nat i) by lia.
  rewrite list_lookup_insert_ne; [done|]. intros Heq.
  pose proof (rb_addr_inj rb (rb_tail rb) (rb_tail rb + 1 + Z.of_nat i)) as Hinj.
  unfold rb_addr in Hinj. specialize (Hinj ltac:(lia) ltac:(lia) Heq). lia.
Qed.

Lemma rb_new_wf capacity : 0 < capacity -> capacity + 1 < 2 ^ 64 -> rb_wf (rb_new capacity).
Proof.
  intros Hc Hw. split; simpl; try lia.
  - apply length_replicate.
  - unfold rb_contents, rb_length. simpl. constructor.
Qed.

Lemma rb_push_wf rb v :
  rb_wf rb -> rb_head rb + rb_cap rb + 2 < 2 ^ 64 -> rb_wf (snd (rb_push v rb)).
Proof.
  intros Hwf Hw. destruct (rb_full rb) eqn:Hf; [unfold rb_push; by rewrite Hf|].
  pose proof (rb_contents_push rb v Hwf Hf) as Hc.
  assert (rb_full rb <> true) as Hnf by congruence. rewrite rb_full_spec in Hnf by done.
  destruct Hwf as [H1 H2 H3 H4 H5 H6].
  unfold rb_push in *. rewrite Hf in *. simpl in *.
  split; simpl; unfold u64 in *; rewrite ?wrap_small in * by lia; try lia.
  - by rewrite length_insert.
  - rewrite Hc. apply Forall_app. split; [done|]. by repeat constructor.
Qed.

Lemma rb_pop_wf rb : rb_wf rb -> rb_wf (snd (rb_pop rb)).
Proof.
  intros Hwf. destruct (rb_empty rb) eqn:He; [unfold rb_pop; by rewrite He|].
  pose proof (rb_contents_pop rb Hwf He) as Hc. pose proof He as He'.
  unfold rb_empty in He'. apply Z.eqb_neq in He'. destruct Hwf as [H1 H2 H3 H4 H5 H6].
  unfold rb_pop in *. rewrite He in *. simpl in *.
  split; simpl; unfold u64 in *; rewrite ?wrap_small in * by lia; try lia.
  - by rewrite length_insert.
  - rewrite Hc in H6. by apply Forall_cons in H6 as [_ ?].
Qed.

(** ** Iteration *)

Lemma rb_collect_prefix rb n :
  rb_wf rb -> rb_head rb < rb_cap rb -> (n <= rb_length rb)%nat ->
  rb_collect (rb_length rb) rb (rb_tail rb) =
    l ← rb_collect (rb_length rb - n) rb (rb_tail rb + Z.of_nat n); Some (take n (rb_contents rb) ++ l).
Proof.
  intros Hwf Hlt. pose proof (rb_wf_order _ Hwf). pose proof (rb_wf_width _ Hwf).
  assert (Hlen : length (rb_contents rb) = rb_length rb)
    by (unfold rb_contents; by rewrite length_map, length_seq).
  induction n as [|n IH]; intros Hn.
  - rewrite Nat.sub_0_r, Z.add_0_r. simpl. by destruct (rb_collect _ _ _).
  - rewrite IH by lia.
    replace (rb_length rb - n)%nat with (S (rb_length rb - S n)) by lia. cbn [rb_collect].
    assert (Hne : rb_tail rb + Z.of_nat n <> rb_end rb) by (unfold rb_end, rb_length in *; lia).
    rewrite (proj2 (Z.eqb_neq _ _) Hne).
    unfold rb_next, u64. rewrite wrap_small by (unfold rb_length in *; lia).
    rewrite Z.mod_small by (unfold rb_length in *; lia).
    replace (rb_tail rb + Z.of_nat n + 1) with (rb_tail rb + Z.of_nat (S n)) by lia.
    clear IH. destruct (rb_collect _ _ _) as [l|]; [|done]. cbn. f_equal.
    rewrite (take_S_r _ _ (rb_deref rb (rb_tail rb + Z.of_nat n))).
    { by rewrite <- app_assoc. }
    unfold rb_contents.
    rewrite list_lookup_fmap, lookup_seq_lt by lia. done.
Qed.

(** Once [head_] has reached [cap_], a reduced position never meets [end()]. *)
Lemma rb_collect_stuck rb fuel pos :
  rb_wf rb -> rb_cap rb <= rb_head rb -> pos <> rb_head rb -> rb_collect fuel rb pos = None.
Proof.
  intros Hwf Hge. revert pos. induction fuel as [|fuel IH]; intros pos Hne; simpl; unfold rb_end;
    rewrite (proj2 (Z.eqb_neq _ _) Hne); [done|].
  rewrite IH; [done|]. unfold rb_next.
  pose proof (Z.mod_pos_bound (u64 (pos + 1)) (rb_cap rb) (rb_wf_cap _ Hwf)). lia.
Qed.

(** C25: a push or a pop of the ring buffer is the same operation of a bounded
    queue: a push appends at the back unless the queue holds [cap_] elements, a
    pop takes the oldest element. *)
Theorem ring_buffer_refines_queue rb v :
  rb_wf rb ->
  (fst (rb_push v rb) = bool_decide (Z.of_nat (length (rb_contents rb)) < rb_cap rb)) /\
  rb_contents (snd (rb_push v rb)) =
    rb_contents rb ++ (if fst (rb_push v rb) then [Some v] else []) /\
  rb_contents rb = (match rb_pop_value rb with
                    | (Some x, rb') => Some x :: rb_contents rb'
                    | (None, rb') => rb_contents rb'
                    end) /\
  (fst (rb_pop_value rb) = None <-> rb_contents rb = []).
Proof.
  intros Hwf.
  assert (Hlen : length (rb_contents rb) = rb_length rb)
    by (unfold rb_contents; by rewrite length_map, length_seq).
  pose proof (rb_wf_order _ Hwf) as Ho. pose proof (rb_wf_bound _ Hwf) as Hb.
  assert (Hfst : fst (rb_push v rb) = negb (rb_full rb)) by (unfold rb_push; by destruct (rb_full rb)).
  assert (Hpop : rb_pop_value rb = (if rb_empty rb then None else rb_deref rb (rb_tail rb), snd (rb_pop rb))).
  { unfold rb_pop_value, rb_pop. by destruct (rb_empty rb). }
  split; [|split; [|split]].
  - rewrite Hfst, Hlen. unfold rb_length. pose proof (rb_full_spec rb Hwf).
    destruct (rb_full rb); case_bool_decide; simpl; try done; intuition lia.
  - rewrite Hfst. destruct (rb_full rb) eqn:Hf; simpl.
    + unfold rb_push. rewrite Hf. by rewrite app_nil_r.
    + by apply rb_contents_push.
  - rewrite Hpop. destruct (rb_empty rb) eqn:He.
    + unfold rb_pop. by rewrite He.
    + pose proof (rb_contents_pop rb Hwf He) as Hc. pose proof (rb_wf_live _ Hwf) as Hl.
      rewrite Hc in Hl. apply Forall_cons in Hl as [[x Hx] _]. by rewrite Hc, Hx.
  - rewrite Hpop. simpl. destruct (rb_empty rb) eqn:He.
    + split; [|done]. intros _. unfold rb_empty in He. apply Z.eqb_eq in He.
      apply nil_length_inv. rewrite Hlen. unfold rb_length. lia.
    + pose proof (rb_contents_pop rb Hwf He) as Hc. pose proof (rb_wf_live _ Hwf) as Hl.
      rewrite Hc in Hl |- *. apply Forall_cons in Hl as [[x Hx] _]. rewrite Hx. done.
Qed.

(** iterating from [begin()] to [end()] yields the queue while fewer than
    [cap_] elements were ever pushed; after that, unless the buffer is empty, it
    never reaches [end()], whatever the number of steps. *)
Theorem ring_buffer_iteration rb :
  rb_wf rb ->
  (rb_head rb < rb_cap rb -> rb_collect (rb_length rb) rb (rb_begin rb) = Some (rb_contents rb)) /\
  (rb_cap rb <= rb_head rb -> rb_contents rb <> [] ->
   forall fuel, rb_collect fuel rb (rb_begin rb) = None).
Proof.
  intros Hwf.
  assert (Hlen : length (rb_contents rb) = rb_length rb)
    by (unfold rb_contents; by rewrite length_map, length_seq).
  split.
  - intros Hlt. unfold rb_begin. rewrite (rb_collect_prefix rb (rb_length rb)) by done.
    rewrite Nat.sub_diag. simpl. unfold rb_end.
    rewrite (proj2 (Z.eqb_eq _ _)).
    + simpl. by rewrite app_nil_r, take_ge by lia.
    + pose proof (rb_wf_order _ Hwf). unfold rb_length. lia.
  - intros Hge Hne fuel. apply rb_collect_stuck; [done..|]. unfold rb_begin. intros Heq. apply Hne.
    apply nil_length_inv. rewrite Hlen. unfold rb_length. lia.
Qed.

End ring_buffer.

(** A buffer of two slots after three pushes and a pop. *)
Definition rb_example : SimpleRingBuffer nat :=
  snd (rb_push 8%nat (snd (rb_pop (snd (rb_push 7%nat (snd (rb_push 6%nat (rb_new 2)))))))).

Lemma rb_example_wf : rb_wf rb_example.
Proof.
  unfold rb_example. repeat first [apply rb_push_wf | apply rb_pop_wf | apply rb_new_wf]; vm_compute; done.
Qed.

Lemma ring_buffer_refines_queue_witness :
  rb_contents (snd (rb_pop_value rb_example)) = [Some 8%nat] /\
  fst (rb_push 9%nat rb_example) = false.
Proof.
  pose proof (ring_buffer_refines_queue rb_example 9%nat rb_example_wf) as (H1 & _ & H3 & _).
  split; [vm_compute; reflexivity|]. rewrite H1. vm_compute. reflexivity.
Defined.

Lemma ring_buffer_iteration_witness :
  rb_contents rb_example = [Some 7%nat; Some 8%nat] /\
  forall fuel, rb_collect fuel rb_example (rb_begin rb_example) = None.
Proof.
  pose proof (ring_buffer_iteration rb_example rb_example_wf) as [_ H].
  split; [vm_compute; reflexivity|]. apply H; vm_compute; discriminate.
Defined.
