(* ===== verification/Bytes.v ===== *)
(** * Byte strings, their order, and the raw serializer
    ([src/common/utils/SerDeser.h], [src/common/kv/KeyPrefix*.h],
    [src/common/kv/ITransaction.cc])

    A byte string is a list of [Z]s in [0, 256), ordered as the key-value store
    orders keys. *)

From stdpp Require Import base list strings.
From Stdlib Require Import ZArith Lia Ascii.
From S2P Require Import Prelude StatusCode.

Abbreviation bytes := (list Z) (only parsing).

Definition is_byte (b : Z) : Prop := 0 <= b < 256.

Definition bytes_of_string (s : string) : bytes :=
  map (fun c => Z.of_nat (nat_of_ascii c)) (String.list_ascii_of_string s).

(** Lexicographic order with unsigned bytes. *)
Fixpoint bytes_compare (a b : bytes) : comparison :=
  match a, b with
  | [], [] => Eq
  | [], _ :: _ => Lt
  | _ :: _, [] => Gt
  | x :: a', y :: b' => match x ?= y with Eq => bytes_compare a' b' | c => c end
  end.

Definition bytes_lt (a b : bytes) : Prop := bytes_compare a b = Lt.
Definition bytes_ltb (a b : bytes) : bool := match bytes_compare a b with Lt => true | _ => false end.

(** ** Serializer *)

(** The object representation of an [n]-byte unsigned integer (little endian),
    which [put] appends and [get] reads back. *)
Fixpoint le_bytes (n : nat) (v : Z) : bytes :=
  match n with
  | O => []
  | S n' => v mod 256 :: le_bytes n' (v / 256)
  end.

Fixpoint le_value (b : bytes) : Z :=
  match b with
  | [] => 0
  | x :: b' => x + 256 * le_value b'
  end.

(** [folly::Endian::big64] on a little-endian machine: the bytes reversed. *)
Definition big64 (v : Z) : Z := le_value (rev (le_bytes 8 v)).

Definition put (n : nat) (v : Z) (s : bytes) : bytes := s ++ le_bytes n v.
Definition putChar (c : Z) (s : bytes) : bytes := s ++ [c].
(** [putIntAsChar], and [putShortString] for strings below 128 bytes. *)
Definition putIntAsChar (v : Z) (s : bytes) : bytes := putChar (u8 v) s.
Definition putShortString (str : bytes) (s : bytes) : bytes := putIntAsChar (Z.of_nat (length str)) s ++ str.

(** ** Deserializer: the string and a position *)

Record Deserializer := mkDeserializer { des_s : bytes; des_pos : Z }.

Definition des_size (d : Deserializer) : Z := Z.of_nat (length (des_s d)).

(** [CHECK_BUFFER_LENGTH]: the sum is computed in 64 bits. *)
Definition buffer_too_short (d : Deserializer) (n : Z) : bool := bool_decide (u64 (des_pos d + n) > des_size d).

Definition set_des_pos (p : Z) (d : Deserializer) : Deserializer := mkDeserializer (des_s d) p.

Definition des_slice (d : Deserializer) (n : Z) : bytes := take (Z.to_nat n) (drop (Z.to_nat (des_pos d)) (des_s d)).

Definition getChar : M Deserializer Z :=
  d ← getS;
  err_if (buffer_too_short d 1) kDataCorruption ;;
  modify (set_des_pos (u64 (des_pos d + 1))) ;;
  match des_s d !! Z.to_nat (des_pos d) with
  | Some c => mret c
  | None => fatal
  end.

(** [static_cast<size_t>] of a [char] sign-extends. *)
Definition getIntFromChar : M Deserializer Z :=
  c ← getChar;
  mret (if bool_decide (c < 128) then c else u64 (c - 256)).

(** [getRaw]: a view that leaves the buffer is undefined. *)
Definition getRaw (length : Z) : M Deserializer bytes :=
  d ← getS;
  err_if (buffer_too_short d length) kDataCorruption ;;
  fatal_if (bool_decide (des_pos d + length > des_size d)) ;;
  modify (set_des_pos (u64 (des_pos d + length))) ;;
  mret (des_slice d length).

Definition getShortString : M Deserializer bytes := size ← getIntFromChar; getRaw size.

Definition getRawUntilEnd : M Deserializer bytes :=
  d ← getS;
  modify (set_des_pos (des_size d)) ;;
  mret (des_slice d (des_size d - des_pos d)).

(** [get<T>] for an [n]-byte unsigned [T]. *)
Definition get (n : nat) : M Deserializer Z :=
  d ← getS;
  err_if (buffer_too_short d (Z.of_nat n)) kDataCorruption ;;
  modify (set_des_pos (u64 (des_pos d + Z.of_nat n))) ;;
  mret (le_value (des_slice d (Z.of_nat n))).

Definition reachEnd : M Deserializer bool := gets (fun d => bool_decide (des_pos d >= des_size d)).

(** ** Key prefixes *)

Inductive KeyPrefix :=
| KP_Inode | KP_Dentry | KP_MetaDistributor | KP_User | KP_NodeTable | KP_Single | KP_ChainTable | KP_ChainInfo
| KP_InodeSession | KP_ClientSession | KP_MetaIdempotent | KP_UniversalTags | KP_Config | KP_TargetInfo
| KP_KvTable | KP_KvNamespace | KP_KvWorkerGroup.

#[export] Instance KeyPrefix_eq_dec : EqDecision KeyPrefix.
Proof. solve_decision. Defined.

Definition KeyPrefix_str (p : KeyPrefix) : string :=
  match p with
  | KP_Inode => "INOD" | KP_Dentry => "DENT" | KP_MetaDistributor => "META" | KP_User => "USER"
  | KP_NodeTable => "NODE" | KP_Single => "SING" | KP_ChainTable => "CHIT" | KP_ChainInfo => "CHIF"
  | KP_InodeSession => "INOS" | KP_ClientSession => "CLIS" | KP_MetaIdempotent => "IDEM"
  | KP_UniversalTags => "UTGS" | KP_Config => "CONF" | KP_TargetInfo => "TGIF"
  | KP_KvTable => "KVTB" | KP_KvNamespace => "KVNS" | KP_KvWorkerGroup => "KVWG"
  end.

(** [toStr] *)
Definition toStr (p : KeyPrefix) : bytes := bytes_of_string (KeyPrefix_str p).

(** [makePrefixValue]: the four characters as a 32-bit integer. *)
Definition makePrefixValue (s : bytes) : Z :=
  match s with
  | [s0; s1; s2; s3] => u32 (s0 + Z.shiftl s1 8 + Z.shiftl s2 16 + Z.shiftl s3 24)
  | _ => 0
  end.

Definition KeyPrefix_value (p : KeyPrefix) : Z := makePrefixValue (toStr p).

Definition putKeyPrefix (p : KeyPrefix) (s : bytes) : bytes := put 4 (KeyPrefix_value p) s.

(** ** Key ranges *)

Definition keyAfter (key : bytes) : bytes := key ++ [0].

(** [prefixListEndKey]: increment the last byte that is not 0xff and drop what
    follows it; the loop runs over the reversed string. *)
Fixpoint prefixListEndKey_rev (rkey : bytes) : bytes :=
  match rkey with
  | [] => []
  | c :: r => if bool_decide (c = 255) then prefixListEndKey_rev r else (c + 1) :: r
  end.
Definition prefixListEndKey (prefix : bytes) : bytes := rev (prefixListEndKey_rev (rev prefix)).

Definition starts_with (prefix key : bytes) : bool := bool_decide (take (length prefix) key = prefix).

(** ** Encoded integers *)

Lemma le_bytes_length n v : length (le_bytes n v) = n.
Proof. revert v. induction n as [|n IH]; intros v; simpl; [done|]. by rewrite IH. Qed.

Lemma le_bytes_byte n v : Forall is_byte (le_bytes n v).
Proof.
  revert v. induction n as [|n IH]; intros v; simpl; [constructor|]. constructor; [|apply IH].
  apply Z.mod_pos_bound. lia.
Qed.

Lemma le_value_bytes n v : le_value (le_bytes n v) = v mod 2 ^ (8 * Z.of_nat n).
Proof.
  revert v. induction n as [|n IH]; intros v; simpl le_bytes; simpl le_value.
  - by rewrite Z.mod_1_r.
  - rewrite IH. replace (8 * Z.of_nat (S n)) with (8 + 8 * Z.of_nat n) by lia.
    rewrite Z.pow_add_r by lia. change (2 ^ 8) with 256. rewrite Z.rem_mul_r by lia. done.
Qed.

Lemma le_value_range b : Forall is_byte b -> 0 <= le_value b < 2 ^ (8 * Z.of_nat (length b)).
Proof.
  induction 1 as [|x b Hx Hb IH]; simpl length; [simpl; lia|]. simpl le_value. unfold is_byte in Hx.
  replace (8 * Z.of_nat (S (length b))) with (8 + 8 * Z.of_nat (length b)) by lia.
  rewrite Z.pow_add_r by lia. change (2 ^ 8) with 256. lia.
Qed.

Lemma le_bytes_value b : Forall is_byte b -> le_bytes (length b) (le_value b) = b.
Proof.
  induction 1 as [|x b Hx Hb IH]; simpl; [done|]. unfold is_byte in Hx. f_equal.
  - rewrite (Z.mul_comm 256), Z_mod_plus_full. by apply Z.mod_small.
  - replace ((x + 256 * le_value b) / 256) with (le_value b); [done|].
    rewrite (Z.mul_comm 256), Z.div_add, Z.div_small by lia. lia.
Qed.

Lemma le_bytes_inj n v w :
  0 <= v < 2 ^ (8 * Z.of_nat n) -> 0 <= w < 2 ^ (8 * Z.of_nat n) -> le_bytes n v = le_bytes n w -> v = w.
Proof.
  intros Hv Hw H. assert (E : le_value (le_bytes n v) = le_value (le_bytes n w)) by by rewrite H.
  by rewrite !le_value_bytes, !Z.mod_small in E.
Qed.

(** The bytes of a byte-swapped integer are the big-endian ones. *)
Lemma le_bytes_big64 v : le_bytes 8 (big64 v) = rev (le_bytes 8 v).
Proof.
  unfold big64. rewrite <- (le_bytes_value (rev (le_bytes 8 v))) at 2.
  - by rewrite length_rev, le_bytes_length.
  - apply Forall_rev, le_bytes_byte.
Qed.

Lemma big64_range v : 0 <= big64 v < 2 ^ 64.
Proof.
  unfold big64. pose proof (le_value_range (rev (le_bytes 8 v))) as H.
  rewrite length_rev, le_bytes_length in H. apply H, Forall_rev, le_bytes_byte.
Qed.

Lemma big64_involutive v : 0 <= v < 2 ^ 64 -> big64 (big64 v) = v.
Proof.
  intros Hv. unfold big64 at 1. rewrite le_bytes_big64, rev_involutive, le_value_bytes. by apply Z.mod_small.
Qed.

(** ** Order *)

Lemma bytes_compare_refl a : bytes_compare a a = Eq.
Proof. induction a as [|x a IH]; simpl; [done|]. by rewrite Z.compare_refl. Qed.

Lemma bytes_compare_app p a b : bytes_compare (p ++ a) (p ++ b) = bytes_compare a b.
Proof. induction p as [|x p IH]; simpl; [done|]. by rewrite Z.compare_refl. Qed.

Lemma bytes_compare_app_len a b x y :
  length a = length b ->
  bytes_compare (a ++ x) (b ++ y) = match bytes_compare a b with Eq => bytes_compare x y | c => c end.
Proof.
  revert b. induction a as [|u a IH]; intros [|v b] H; simpl in *; try lia; [done|].
  destruct (u ?= v); [apply IH; lia|done..].
Qed.

Lemma bytes_compare_eq a b : bytes_compare a b = Eq <-> a = b.
Proof.
  revert b. induction a as [|x a IH]; intros [|y b]; simpl; try done.
  destruct (Z.compare_spec x y); [rewrite IH; naive_solver|..]; split; try done; intros [= -> _]; lia.
Qed.

(** Big-endian encodings are ordered as the integers. *)
Lemma be_compare n v w :
  0 <= v < 2 ^ (8 * Z.of_nat n) -> 0 <= w < 2 ^ (8 * Z.of_nat n) ->
  bytes_compare (rev (le_bytes n v)) (rev (le_bytes n w)) = (v ?= w).
Proof.
  revert v w. induction n as [|n IH]; intros v w Hv Hw.
  - simpl in *. assert (v = w) as -> by lia. by rewrite Z.compare_refl.
  - simpl. rewrite bytes_compare_app_len by (by rewrite !length_rev, !le_bytes_length).
    replace (8 * Z.of_nat (S n)) with (8 + 8 * Z.of_nat n) in * by lia.
    rewrite Z.pow_add_r in Hv, Hw by lia. change (2 ^ 8) with 256 in *.
    rewrite IH by (split; [apply Z.div_pos; lia|apply Z.div_lt_upper_bound; lia]).
    simpl. pose proof (Z.div_mod v 256 ltac:(lia)). pose proof (Z.div_mod w 256 ltac:(lia)).
    pose proof (Z.mod_pos_bound v 256 ltac:(lia)). pose proof (Z.mod_pos_bound w 256 ltac:(lia)).
    destruct (Z.compare_spec (v / 256) (w / 256)), (Z.compare_spec v w); try done; try lia.
    + subst. by rewrite Z.compare_refl.
    + destruct (Z.compare_spec (v mod 256) (w mod 256)); try done; lia.
    + destruct (Z.compare_spec (v mod 256) (w mod 256)); try done; lia.
Qed.

(** ** Prefixes *)

Lemma put_prefix p s : putKeyPrefix p s = s ++ toStr p.
Proof. unfold putKeyPrefix, put. f_equal. destruct p; reflexivity. Qed.

Lemma toStr_length p : length (toStr p) = 4%nat.
Proof. by destruct p. Qed.

Lemma toStr_inj p q : toStr p = toStr q -> p = q.
Proof. destruct p, q; intros H; first [done | discriminate H]. Qed.

(** ** Reading back *)

Lemma des_slice_app pre x rest : des_slice (mkDeserializer (pre ++ x ++ rest) (Z.of_nat (length pre))) (Z.of_nat (length x)) = x.
Proof.
  unfold des_slice. simpl. rewrite !Nat2Z.id. rewrite drop_app_length, take_app_length. done.
Qed.

(** A buffer of less than 2^64 bytes. *)
Definition fits (s : bytes) : Prop := Z.of_nat (length s) < 2 ^ 64.

Lemma fits_app pre x rest :
  fits (pre ++ x ++ rest) ->
  u64 (Z.of_nat (length pre) + Z.of_nat (length x)) = Z.of_nat (length pre) + Z.of_nat (length x) /\
  buffer_too_short (mkDeserializer (pre ++ x ++ rest) (Z.of_nat (length pre))) (Z.of_nat (length x)) = false.
Proof.
  unfold fits, buffer_too_short, des_size. simpl. rewrite !length_app. intros H.
  rewrite u64_small by lia. split; [done|]. rewrite bool_decide_false; [done|]. lia.
Qed.

Lemma runs_get pre rest n v Q :
  fits (pre ++ le_bytes n v ++ rest) -> 0 <= v < 2 ^ (8 * Z.of_nat n) ->
  Q (Ok v) (mkDeserializer (pre ++ le_bytes n v ++ rest) (Z.of_nat (length pre) + Z.of_nat n)) ->
  runs (get n) (mkDeserializer (pre ++ le_bytes n v ++ rest) (Z.of_nat (length pre))) Q.
Proof.
  intros Hf Hv HQ. destruct (fits_app _ _ _ Hf) as [Hu Hb]. rewrite le_bytes_length in Hu, Hb.
  pose proof (des_slice_app pre (le_bytes n v) rest) as Hs. rewrite le_bytes_length in Hs.
  unfold get. msteps; [congruence|]. unfold set_des_pos. simpl. rewrite Hu, Hs, le_value_bytes, Z.mod_small; done.
Qed.

Lemma runs_getChar pre rest c Q :
  fits (pre ++ [c] ++ rest) ->
  Q (Ok c) (mkDeserializer (pre ++ [c] ++ rest) (Z.of_nat (length pre) + 1)) ->
  runs getChar (mkDeserializer (pre ++ [c] ++ rest) (Z.of_nat (length pre))) Q.
Proof.
  intros Hf HQ. destruct (fits_app _ _ _ Hf) as [Hu Hb].
  change (Z.of_nat (length [c])) with 1 in *. unfold getChar. msteps; [congruence|].
  unfold set_des_pos. simpl in *. rewrite Hu, Nat2Z.id, (list_lookup_middle pre rest _ (length pre) eq_refl). by mstep.
Qed.

Lemma runs_getRaw pre rest x Q :
  fits (pre ++ x ++ rest) ->
  Q (Ok x) (mkDeserializer (pre ++ x ++ rest) (Z.of_nat (length pre) + Z.of_nat (length x))) ->
  runs (getRaw (Z.of_nat (length x))) (mkDeserializer (pre ++ x ++ rest) (Z.of_nat (length pre))) Q.
Proof.
  intros Hf HQ. destruct (fits_app _ _ _ Hf) as [Hu Hb]. unfold getRaw. msteps; [congruence|..].
  { exfalso. apply bool_decide_eq_true in H0. unfold des_size in H0. simpl in H0. rewrite !length_app in H0. lia. }
  unfold set_des_pos. simpl. by rewrite Hu, des_slice_app.
Qed.

Lemma runs_getShortString pre rest str Q :
  (length str < 128)%nat -> fits (pre ++ (Z.of_nat (length str) :: str) ++ rest) ->
  Q (Ok str) (mkDeserializer (pre ++ (Z.of_nat (length str) :: str) ++ rest)
                (Z.of_nat (length pre) + 1 + Z.of_nat (length str))) ->
  runs getShortString (mkDeserializer (pre ++ (Z.of_nat (length str) :: str) ++ rest) (Z.of_nat (length pre))) Q.
Proof.
  intros Hn Hf HQ. unfold getShortString, getIntFromChar. do 2 mstep.
  apply (runs_getChar pre (str ++ rest)); [done|]. msteps. rewrite bool_decide_true by lia.
  pose proof (runs_getRaw (pre ++ [Z.of_nat (length str)]) rest str Q) as Hraw.
  rewrite <- !app_assoc, length_app, Nat2Z.inj_add in Hraw. by apply Hraw.
Qed.

(** ** Prefix ranges *)

(** A prefix whose last byte below 0xff is [c]. *)
Lemma prefixListEndKey_spec p c m :
  c <> 255 -> prefixListEndKey (p ++ c :: replicate m 255) = p ++ [c + 1].
Proof.
  intros Hc. unfold prefixListEndKey. rewrite rev_app_distr. simpl.
  assert (rev (replicate m 255) = replicate m 255) as ->
    by (rewrite rev_alt; apply reverse_replicate).
  assert (H : prefixListEndKey_rev ((replicate m 255 ++ [c]) ++ rev p) = (c + 1) :: rev p).
  { induction m as [|m IH]; simpl; [by rewrite bool_decide_false|done]. }
  rewrite H. simpl. by rewrite rev_involutive.
Qed.

Lemma starts_with_cons x p y k : starts_with (x :: p) (y :: k) = bool_decide (x = y) && starts_with p k.
Proof.
  unfold starts_with. simpl. case_bool_decide as H; [|case_bool_decide as E; [|done]].
  - injection H as -> ->. by rewrite !bool_decide_true.
  - subst. rewrite bool_decide_false; [done|]. congruence.
Qed.

Lemma starts_with_max m k : Forall is_byte k -> starts_with (replicate m 255) k = negb (bytes_ltb k (replicate m 255)).
Proof.
  revert k. induction m as [|m IH]; intros k Hk; simpl.
  - destruct k; done.
  - destruct k as [|y k]; [done|]. apply Forall_cons in Hk as [Hy Hk]. unfold is_byte in Hy.
    rewrite starts_with_cons. unfold bytes_ltb in *. simpl. case_bool_decide as E.
    + subst. simpl. by apply IH.
    + destruct (Z.compare_spec y 255); try done; lia.
Qed.

(** The keys of the half-open range [prefix, prefixListEndKey prefix) are the
    keys with that prefix. *)
Lemma starts_with_range p c m k :
  Forall is_byte (p ++ c :: replicate m 255) -> Forall is_byte k -> c <> 255 ->
  starts_with (p ++ c :: replicate m 255) k =
    negb (bytes_ltb k (p ++ c :: replicate m 255)) && bytes_ltb k (prefixListEndKey (p ++ c :: replicate m 255)).
Proof.
  intros Hp Hk Hc. rewrite prefixListEndKey_spec by done. revert k Hk. induction p as [|x p IH]; intros k Hk; simpl in *.
  - destruct k as [|y k]; [done|]. rewrite starts_with_cons. apply Forall_cons in Hk as [Hy Hk].
    unfold bytes_ltb in *. simpl. case_bool_decide as E.
    + subst. rewrite Z.compare_refl, starts_with_max by done. unfold bytes_ltb.
      destruct (Z.compare_spec y (y + 1)); try lia. by rewrite andb_true_r.
    + destruct (Z.compare_spec y c), (Z.compare_spec y (c + 1)); simpl; try done; try lia. by destruct k.
  - destruct k as [|y k]; [done|]. rewrite starts_with_cons. apply Forall_cons in Hk as [Hy Hk].
    apply Forall_cons in Hp as [Hx Hp]. unfold bytes_ltb in *. simpl. case_bool_decide as E.
    + subst. rewrite Z.compare_refl. by apply IH.
    + destruct (Z.compare_spec y x); try done; lia.
Qed.

#[global] Arguments le_bytes : simpl never.
#[global] Arguments toStr : simpl never.
