(* ===== verification/KvRange.v ===== *)
(** * Listing a key prefix ([TransactionHelper::listByPrefix],
    [src/common/kv/ITransaction.cc])

    The store returns a range in pages of its own choice; [listByPrefix] reads
    pages until the range or the limit is exhausted.  The store is a parameter
    with the documented behaviour of a range read. *)

From stdpp Require Import base list sorting.
From Stdlib Require Import ZArith Lia.
From S2P Require Import Prelude StatusCode Bytes.

Section listing.
Context {V : Type}.

Record KeySelector := mkKeySelector { ks_key : bytes; ks_inclusive : bool }.
Record GetRangeResult := mkGetRangeResult { gr_kvs : list (bytes * V); gr_hasMore : bool }.

(** [getRange] or [snapshotGetRange] of the transaction. *)
Variable getRange : KeySelector -> KeySelector -> Z -> outcome GetRangeResult.

Definition last_key (kvs : list (bytes * V)) : option bytes := fst <$> last kvs.

(** The loop of [listByPrefix]; [fuel] bounds the number of pages. *)
Fixpoint listByPrefix_loop (fuel : nat) (prefix : bytes) (begin end_ : KeySelector) (limit : Z)
    (res : list (bytes * V)) : outcome (list (bytes * V)) :=
  match fuel with
  | O => Pending
  | S fuel' =>
      let size := Z.of_nat (length res) in
      if bool_decide (limit = 0) || bool_decide (limit > size) then
        match getRange begin end_ (if bool_decide (limit = 0) then 0 else limit - size) with
        | Ok result =>
            if negb (forallb (fun kv => starts_with prefix (fst kv)) (gr_kvs result)) then Fatal
            else
              let res' := res ++ gr_kvs result in
              if negb (gr_hasMore result) then Ok res'
              else match last_key res' with
                   | None => Fatal
                   | Some key => listByPrefix_loop fuel' prefix (mkKeySelector key false) end_ limit res'
                   end
        | Err c => Err c
        | Fatal => Fatal
        | Pending => Pending
        end
      else Ok res
  end.

Definition listByPrefix (fuel : nat) (prefix : bytes) (inclusive : bool) (limit : Z) : outcome (list (bytes * V)) :=
  listByPrefix_loop fuel prefix (mkKeySelector prefix inclusive) (mkKeySelector (prefixListEndKey prefix) false) limit [].

(** ** A range read of a sorted table *)

Definition after (sel : KeySelector) (k : bytes) : bool :=
  bytes_ltb (ks_key sel) k || (ks_inclusive sel && bool_decide (k = ks_key sel)).
Definition before (sel : KeySelector) (k : bytes) : bool :=
  bytes_ltb k (ks_key sel) || (ks_inclusive sel && bool_decide (k = ks_key sel)).

Definition in_range (b e : KeySelector) (kv : bytes * V) : bool := after b (fst kv) && before e (fst kv).

(** The table, in key order. *)
Variable db : list (bytes * V).
Definition selected (b e : KeySelector) : list (bytes * V) := filter (fun kv => in_range b e kv = true) db.

Definition sorted_table (l : list (bytes * V)) : Prop :=
  StronglySorted (fun a b => bytes_lt (fst a) (fst b)) l.

(** A page: the first entries of the range, at most [limit] of them, all of them
    unless it says so, and at least one when there are more. *)
Record range_read (b e : KeySelector) (limit : Z) (r : GetRangeResult) : Prop := {
  rr_prefix : exists n, gr_kvs r = take n (selected b e);
  rr_limit : limit <> 0 -> Z.of_nat (length (gr_kvs r)) <= limit;
  rr_all : gr_hasMore r = false -> gr_kvs r = selected b e \/ (limit <> 0 /\ Z.of_nat (length (gr_kvs r)) = limit);
  rr_some : gr_hasMore r = true -> gr_kvs r <> []
}.

Hypothesis Hsorted : sorted_table db.
Hypothesis Hbytes : Forall (fun kv => Forall is_byte (fst kv)) db.
Hypothesis Hread : forall b e limit, 0 <= limit -> exists r, getRange b e limit = Ok r /\ range_read b e limit r.

Lemma bytes_ltb_spec a b : bytes_ltb a b = true <-> bytes_lt a b.
Proof. unfold bytes_ltb, bytes_lt. by destruct (bytes_compare a b). Qed.

Lemma bytes_compare_opp a b : bytes_compare b a = CompOpp (bytes_compare a b).
Proof.
  revert b. induction a as [|x a IH]; intros [|y b]; simpl; try done.
  rewrite (Z.compare_antisym x y). destruct (x ?= y); simpl; auto.
Qed.

Lemma bytes_lt_trans a b c : bytes_lt a b -> bytes_lt b c -> bytes_lt a c.
Proof.
  unfold bytes_lt. revert b c. induction a as [|x a IH]; intros [|y b] [|z c]; simpl; try done.
  destruct (Z.compare_spec x y), (Z.compare_spec y z), (Z.compare_spec x z); subst; try done; try lia. apply IH.
Qed.

(** Continuing after the last key of a page reads the rest of the range. *)
Lemma selected_after b e n kv :
  last (take n (selected b e)) = Some kv ->
  selected (mkKeySelector (fst kv) false) e = drop n (selected b e).
Proof.
  intros Hlast.
  assert (Hs : sorted_table (selected b e)).
  { by apply StronglySorted_filter. }
  assert (Hsel : selected (mkKeySelector (fst kv) false) e =
    filter (fun kv' => bytes_ltb (fst kv) (fst kv') = true) (selected b e)).
  { unfold selected. rewrite list_filter_filter. apply list_filter_iff. intros [k v].
    unfold in_range, after. simpl. rewrite orb_false_r, !andb_true_iff. split; [|tauto]. intros [H1 H2]. split; [done|].
    split; [|done]. apply last_Some in Hlast as [l' Hl']. assert (Hkv : kv ∈ selected b e).
    { rewrite <- (take_drop n (selected b e)), Hl', !elem_of_app. left. right. left. }
    unfold selected in Hkv. apply list_elem_of_filter in Hkv as [Hkv _]. unfold in_range, after in Hkv.
    apply andb_true_iff in Hkv as [Hkv _]. apply orb_true_iff in Hkv. apply orb_true_iff. left. apply bytes_ltb_spec.
    apply bytes_ltb_spec in H1. destruct Hkv as [Hkv|Hkv]; [apply bytes_ltb_spec in Hkv; by eapply bytes_lt_trans|].
    apply andb_true_iff in Hkv as [_ Hkv]. apply bool_decide_eq_true in Hkv. by rewrite <- Hkv. }
  rewrite Hsel. clear Hsel. rewrite <- (take_drop n (selected b e)) at 1. rewrite filter_app.
  unfold sorted_table in Hs. rewrite <- (take_drop n (selected b e)) in Hs.
  revert Hlast Hs. generalize (take n (selected b e)) (drop n (selected b e)). intros l1 l2 Hlast Hs.
  apply last_Some in Hlast as [l1' ->]. rewrite !filter_app.
  rewrite (filter_none_in _ l1'), (filter_all_in _ l2).
  - rewrite filter_cons_False, filter_nil; [done|]. rewrite bytes_ltb_spec. unfold bytes_lt.
    by rewrite bytes_compare_refl.
  - intros y Hy. apply bytes_ltb_spec, (StronglySorted_app_1_elem_of _ _ _ kv y Hs); [apply elem_of_app; right; left|done].
  - intros x Hx. rewrite bytes_ltb_spec. unfold bytes_lt. rewrite bytes_compare_opp. rewrite <- app_assoc in Hs.
    assert (Hlt : bytes_lt (fst x) (fst kv)) by (apply (StronglySorted_app_1_elem_of _ _ _ x kv Hs); [done|left]).
    unfold bytes_lt in Hlt. by rewrite Hlt.
Qed.

(** Enough pages read the whole rest of the range, up to the limit. *)
Lemma listByPrefix_loop_spec prefix e limit fuel b res :
  0 <= limit -> (limit = 0 \/ Z.of_nat (length res) <= limit) -> (length (selected b e) < fuel)%nat ->
  (forall kv, kv ∈ selected b e -> starts_with prefix (fst kv) = true) ->
  listByPrefix_loop fuel prefix b e limit res =
    Ok (if bool_decide (limit = 0) then res ++ selected b e else take (Z.to_nat limit) (res ++ selected b e)).
Proof.
  intros Hl. revert b res. induction fuel as [|fuel IH]; intros b res Hres Hfuel Hpre; [lia|]. simpl.
  destruct (bool_decide (limit = 0) || bool_decide (limit > Z.of_nat (length res))) eqn:Egoing.
  2: { apply orb_false_iff in Egoing as [E1 E2]. apply bool_decide_eq_false in E1, E2. rewrite bool_decide_false by done.
       assert (E : Z.to_nat limit = length res) by lia. by rewrite E, take_app_length. }
  destruct (Hread b e (if bool_decide (limit = 0) then 0 else limit - Z.of_nat (length res))) as (r & -> & Hr).
  { case_bool_decide; lia. }
  destruct Hr as [[n Hn] Hlim Hall Hsome].
  assert (forallb (fun kv => starts_with prefix (fst kv)) (gr_kvs r) = true) as ->.
  { apply forallb_forall. intros kv Hkv. apply list_elem_of_In in Hkv. apply Hpre.
    rewrite Hn in Hkv. rewrite <- (take_drop n (selected b e)), elem_of_app. by left. }
  simpl. destruct (gr_hasMore r) eqn:Emore; simpl.
  - specialize (Hsome eq_refl). destruct (last (gr_kvs r)) as [kv|] eqn:Elast.
    2: { by apply last_None in Elast. }
    unfold last_key. rewrite last_app, Elast. simpl.
    assert (Hsel : selected (mkKeySelector (fst kv) false) e = drop n (selected b e))
      by (apply selected_after; by rewrite <- Hn).
    assert (Hnz : (length (take n (selected b e)) > 0)%nat) by (rewrite <- Hn; destruct (gr_kvs r); [done|simpl; lia]).
    rewrite length_take in Hnz.
    rewrite IH.
    + by rewrite Hsel, <- app_assoc, Hn, take_drop.
    + destruct (decide (limit = 0)) as [|Hz]; [by left|right]. rewrite length_app.
      rewrite bool_decide_false in Hlim, Egoing by done. apply bool_decide_eq_true in Egoing.
      specialize (Hlim ltac:(lia)). lia.
    + rewrite Hsel, length_drop. lia.
    + intros kv' Hkv'. apply Hpre. rewrite Hsel in Hkv'. rewrite <- (take_drop n (selected b e)), elem_of_app. by right.
  - f_equal. case_bool_decide as El.
    + destruct (Hall eq_refl) as [->|[? _]]; [done|lia].
    + rewrite orb_false_l in Egoing. apply bool_decide_eq_true in Egoing. specialize (Hlim ltac:(lia)).
      destruct (Hall eq_refl) as [Ha|[_ Ha]].
      * rewrite Ha in Hlim |- *. symmetry. apply take_ge. rewrite length_app. lia.
      * assert (Hlen : length (take n (selected b e)) = Z.to_nat (limit - Z.of_nat (length res))) by (rewrite <- Hn; lia).
        rewrite take_app_ge by lia. f_equal. rewrite Hn. symmetry.
        replace (Z.to_nat limit - length res)%nat with (length (take n (selected b e))) by lia.
        rewrite <- (take_drop n (selected b e)) at 2. by rewrite take_app_length.
Qed.

(** C26: listing a prefix with a byte below 0xff returns exactly the entries
    whose keys have the prefix, in key order and up to the limit, whatever
    pages the store cuts the range into; one page more than there are such
    entries is enough. *)
Theorem listByPrefix_complete p c m limit fuel :
  let prefix := p ++ c :: replicate m 255 in
  Forall is_byte prefix -> c <> 255 -> 0 <= limit ->
  let entries := filter (fun kv => starts_with prefix (fst kv) = true) db in
  (length entries < fuel)%nat ->
  listByPrefix fuel prefix true limit =
    Ok (if bool_decide (limit = 0) then entries else take (Z.to_nat limit) entries).
Proof.
  intros prefix Hpb Hc Hl entries Hfuel.
  assert (Hsel : selected (mkKeySelector prefix true) (mkKeySelector (prefixListEndKey prefix) false) = entries).
  { unfold selected, entries. apply filter_iff_in. intros [k v] Hkv. rewrite Forall_forall in Hbytes.
    unfold prefix. cbn [fst]. rewrite (starts_with_range p c m k Hpb (Hbytes _ Hkv) Hc). fold prefix.
    unfold in_range, after, before. simpl. rewrite orb_false_r, !andb_true_iff, orb_true_iff, negb_true_iff, bool_decide_eq_true.
    unfold bytes_ltb. rewrite (bytes_compare_opp k prefix).
    destruct (bytes_compare k prefix) eqn:E; simpl.
    - apply bytes_compare_eq in E. naive_solver.
    - assert (k <> prefix) by (intros ->; by rewrite bytes_compare_refl in E). naive_solver.
    - naive_solver. }
  unfold listByPrefix. rewrite listByPrefix_loop_spec; simpl.
  - by rewrite Hsel.
  - done.
  - case (decide (limit = 0)); [by left|right; lia].
  - by rewrite Hsel.
  - intros kv Hkv. rewrite Hsel in Hkv. by apply list_elem_of_filter in Hkv as [? _].
Qed.
End listing.

(** ** Witness: a store that returns one entry per page *)

Definition paged_getRange {V} (page : nat) (db : list (bytes * V)) (b e : KeySelector) (limit : Z)
    : outcome (GetRangeResult (V:=V)) :=
  let all := selected db b e in
  let n := if bool_decide (limit = 0) then page else Nat.min page (Z.to_nat limit) in
  Ok (mkGetRangeResult (take n all) (bool_decide (n < length all)%nat)).

Lemma paged_range_read {V} page (db : list (bytes * V)) b e limit :
  (0 < page)%nat -> 0 <= limit -> exists r, paged_getRange page db b e limit = Ok r /\ range_read db b e limit r.
Proof.
  intros Hp Hl. eexists. split; [reflexivity|].
  set (n := if bool_decide (limit = 0) then page else Nat.min page (Z.to_nat limit)).
  assert (Hn : (0 < n)%nat) by (unfold n; case_bool_decide; lia).
  split; simpl.
  - eauto.
  - intros Hz. rewrite length_take. unfold n. rewrite bool_decide_false by done. lia.
  - intros Hm. left. apply bool_decide_eq_false in Hm. apply take_ge. lia.
  - intros Hm. apply bool_decide_eq_true in Hm. destruct (selected db b e); [simpl in *; lia|]. by destruct n; [lia|].
Qed.

Definition sample_db : list (bytes * nat) :=
  [(toStr KP_ChainInfo ++ [1], 1%nat); (toStr KP_ChainInfo ++ [2], 2%nat); (toStr KP_ChainTable ++ [1], 3%nat)].

Lemma listByPrefix_complete_witness :
  listByPrefix (paged_getRange 1 sample_db) 3 (toStr KP_ChainInfo) true 0 = Ok (take 2 sample_db).
Proof.
  exact (listByPrefix_complete (paged_getRange 1 sample_db) sample_db
    ltac:(repeat constructor) ltac:(repeat constructor; unfold is_byte; simpl; lia)
    (fun b e limit Hl => paged_range_read 1 sample_db b e limit ltac:(lia) Hl)
    [67; 72; 73] 70 0 0 3 ltac:(repeat constructor; unfold is_byte; simpl; lia) ltac:(lia) ltac:(lia)
    ltac:(vm_compute; lia)).
Defined.
