(* ===== verification/MgmtdTypes.v ===== *)
(** * Data of the cluster manager ([src/fbs/mgmtd/*.h], [src/common/app/AppInfo.{h,cc}])

    Identifiers and versions are the unsigned integers of [MgmtdTypes.h]; times
    are microseconds.  A field [x] of struct [S] is the projection [s_x], with
    [s] an abbreviation of [S], and [set_s_x] assigns it. *)

From stdpp Require Import base gmap list strings.
From Stdlib Require Import ZArith Lia.
From S2P Require Import Prelude StatusCode RingBuffer.

Abbreviation TargetId := Z (only parsing).
Abbreviation ChainId := Z (only parsing).
Abbreviation ChainVersion := Z (only parsing).
Abbreviation ChainTableId := Z (only parsing).
Abbreviation ChainTableVersion := Z (only parsing).
Abbreviation NodeId := Z (only parsing).
Abbreviation RoutingInfoVersion := Z (only parsing).
Abbreviation HeartbeatVersion := Z (only parsing).
Abbreviation ConfigVersion := Z (only parsing).
Abbreviation ClientSessionVersion := Z (only parsing).
Abbreviation UtcTime := Z (only parsing).
Abbreviation SteadyTime := Z (only parsing).

(** ** Enumerations *)

Inductive PublicTargetState :=
| PS_INVALID | PS_SERVING | PS_LASTSRV | PS_SYNCING | PS_WAITING | PS_OFFLINE.

Inductive LocalTargetState := LS_INVALID | LS_UPTODATE | LS_ONLINE | LS_OFFLINE.

Inductive NodeStatus :=
| PRIMARY_MGMTD | HEARTBEAT_CONNECTED | HEARTBEAT_CONNECTING | HEARTBEAT_FAILED | DISABLED.

Inductive NodeType := NT_MGMTD | NT_META | NT_STORAGE | NT_CLIENT | NT_FUSE.

Inductive SetTagMode := REPLACE | UPSERT | REMOVE.

Inductive ConfigStatus := CS_NORMAL | CS_DIRTY | CS_FAILED | CS_UNKNOWN | CS_STALE.

#[export] Instance PublicTargetState_eq_dec : EqDecision PublicTargetState.
Proof. solve_decision. Defined.
#[export] Instance LocalTargetState_eq_dec : EqDecision LocalTargetState.
Proof. solve_decision. Defined.
#[export] Instance NodeStatus_eq_dec : EqDecision NodeStatus.
Proof. solve_decision. Defined.
#[export] Instance NodeType_eq_dec : EqDecision NodeType.
Proof. solve_decision. Defined.
#[export] Instance SetTagMode_eq_dec : EqDecision SetTagMode.
Proof. solve_decision. Defined.
#[export] Instance ConfigStatus_eq_dec : EqDecision ConfigStatus.
Proof. solve_decision. Defined.

(** The numbers of the enumerators of [NodeType]. *)
Definition NodeType_value (t : NodeType) : Z :=
  match t with NT_MGMTD => 0 | NT_META => 1 | NT_STORAGE => 2 | NT_CLIENT => 3 | NT_FUSE => 4 end.
Definition NodeType_of_value (v : Z) : option NodeType :=
  list_find (fun t => NodeType_value t = v) [NT_MGMTD; NT_META; NT_STORAGE; NT_CLIENT; NT_FUSE] ≫= fun e => Some e.2.
#[export] Instance NodeType_countable : Countable NodeType.
Proof.
  refine (inj_countable NodeType_value NodeType_of_value _). by intros [].
Defined.

(** [magic_enum::enum_for_each<flat::NodeType>] *)
Definition all_node_types : list NodeType := [NT_MGMTD; NT_META; NT_STORAGE; NT_CLIENT; NT_FUSE].

(** ** Application information *)

(** [net::Address] is packed in 64 bits. *)
Record ServiceGroupInfo := mkServiceGroupInfo {
  sgi_services : list string;
  sgi_endpoints : list Z
}.

Record TagPair := mkTagPair { tp_key : string; tp_value : string }.

Record ReleaseVersion := mkReleaseVersion {
  rv_majorVersion : Z;
  rv_minorVersion : Z;
  rv_patchVersion : Z;
  rv_commitHashShort : Z;
  rv_buildTimeInSeconds : Z;
  rv_buildPipelineId : Z
}.

Record FbsAppInfo := mkFbsAppInfo {
  app_nodeId : NodeId;
  app_hostname : string;
  app_pid : Z;
  app_serviceGroups : list ServiceGroupInfo;
  app_releaseVersion : ReleaseVersion;
  app_podname : string
}.

#[export] Instance ServiceGroupInfo_eq_dec : EqDecision ServiceGroupInfo.
Proof. solve_decision. Defined.
#[export] Instance TagPair_eq_dec : EqDecision TagPair.
Proof. solve_decision. Defined.
#[export] Instance ReleaseVersion_eq_dec : EqDecision ReleaseVersion.
Proof. solve_decision. Defined.
#[export] Instance FbsAppInfo_eq_dec : EqDecision FbsAppInfo.
Proof. solve_decision. Defined.

Definition ReleaseVersion_default : ReleaseVersion := mkReleaseVersion 1 0 0 0 0 0.
Definition FbsAppInfo_default : FbsAppInfo := mkFbsAppInfo 0 "" 0 [] ReleaseVersion_default "".

Definition kDisabledTagKey : string := "Disable".
Definition kTrafficZoneTagKey : string := "TrafficZone".

(** [findTag]: the first index of a key, or -1. *)
Fixpoint findTag_from (i : Z) (tags : list TagPair) (tag : string) : Z :=
  match tags with
  | [] => -1
  | t :: tags' => if decide (tp_key t = tag) then i else findTag_from (i + 1) tags' tag
  end.
Definition findTag (tags : list TagPair) (tag : string) : Z := findTag_from 0 tags tag.

(** [removeTag]: erases the first pair with the key, and says whether there
    was one. *)
Fixpoint removeTag (tags : list TagPair) (tag : string) : bool * list TagPair :=
  match tags with
  | [] => (false, [])
  | t :: tags' =>
      if decide (tp_key t = tag) then (true, tags')
      else let '(ok, r) := removeTag tags' tag in (ok, t :: r)
  end.

Lemma findTag_from_spec i tags tag :
  0 <= i -> findTag_from i tags tag = -1 <-> ~ In tag (map tp_key tags).
Proof.
  revert i. induction tags as [|t tags IH]; intros i Hi; simpl; [tauto|].
  case_decide as E; [split; [lia|tauto]|]. rewrite IH by lia. tauto.
Qed.

Lemma findTag_spec tags tag : findTag tags tag = -1 <-> ~ In tag (map tp_key tags).
Proof. by apply findTag_from_spec. Qed.

Lemma findTag_app tags t tag :
  findTag (tags ++ [t]) tag <> -1 <-> findTag tags tag <> -1 \/ tp_key t = tag.
Proof.
  rewrite !findTag_spec, map_app, in_app_iff. simpl.
  destruct (decide (tp_key t = tag)); destruct (in_dec (fun a b => decide (a = b)) tag (map tp_key tags)); tauto.
Qed.

(** ** Release versions *)

(** The accessors of layout 1, which packs the tag date and the patch number
    in [buildTimeInSeconds]; [None] is the [FATAL] branch of an unknown layout. *)
Definition rv_getIsReleaseVersion (rv : ReleaseVersion) : option bool :=
  if decide (rv_majorVersion rv = 0) then Some true
  else if decide (rv_majorVersion rv = 1) then Some (negb (rv_minorVersion rv =? 0))
  else None.
Definition rv_getTagDate (rv : ReleaseVersion) : option Z :=
  if decide (rv_majorVersion rv = 0) then Some 230626
  else if decide (rv_majorVersion rv = 1) then Some (u32 (Z.shiftr (rv_buildTimeInSeconds rv) 32))
  else None.
Definition rv_getPatchVersion (rv : ReleaseVersion) : option Z :=
  if decide (rv_majorVersion rv = 0) then Some (rv_patchVersion rv)
  else if decide (rv_majorVersion rv = 1) then Some (Z.land (rv_buildTimeInSeconds rv) 0xFFFFFFFF)
  else None.

Definition set_rv_minor v rv := mkReleaseVersion (rv_majorVersion rv) v (rv_patchVersion rv)
  (rv_commitHashShort rv) (rv_buildTimeInSeconds rv) (rv_buildPipelineId rv).
Definition set_rv_time v rv := mkReleaseVersion (rv_majorVersion rv) (rv_minorVersion rv) (rv_patchVersion rv)
  (rv_commitHashShort rv) v (rv_buildPipelineId rv).

Definition rv_setIsReleaseVersion (b : bool) (rv : ReleaseVersion) : ReleaseVersion :=
  set_rv_minor (if b then 1 else 0) rv.
Definition rv_setTagDate (tagDate : Z) (rv : ReleaseVersion) : option ReleaseVersion :=
  pv ← rv_getPatchVersion rv; Some (set_rv_time (u64 (Z.shiftl tagDate 32 + pv)) rv).
Definition rv_setPatchVersion (patch : Z) (rv : ReleaseVersion) : option ReleaseVersion :=
  td ← rv_getTagDate rv; Some (set_rv_time (u64 (Z.shiftl td 32 + patch)) rv).

(** The constructor from the build's version information. *)
Definition rv_make (isRelease : bool) (tagDate patch pipelineId hash : Z) : option ReleaseVersion :=
  let rv := rv_setIsReleaseVersion isRelease ReleaseVersion_default in
  rv ← rv_setTagDate tagDate rv;
  rv ← rv_setPatchVersion patch rv;
  Some (mkReleaseVersion (rv_majorVersion rv) (rv_minorVersion rv) (rv_patchVersion rv)
          hash (rv_buildTimeInSeconds rv) pipelineId).

(** [CMP]: the first difference decides. *)
Fixpoint lex_compare (l : list (Z * Z)) : comparison :=
  match l with
  | [] => Eq
  | (a, b) :: l' => match Z.compare a b with Eq => lex_compare l' | c => c end
  end.

(** [ReleaseVersion::operator<=>] *)
Definition rv_compare (x y : ReleaseVersion) : option comparison :=
  if decide (rv_majorVersion x <> rv_majorVersion y) then Some (Z.compare (rv_majorVersion x) (rv_majorVersion y))
  else if decide (rv_majorVersion x = 0) then
    Some (lex_compare [(rv_majorVersion x, rv_majorVersion y); (rv_minorVersion x, rv_minorVersion y);
                       (rv_patchVersion x, rv_patchVersion y); (rv_buildPipelineId x, rv_buildPipelineId y);
                       (rv_buildTimeInSeconds x, rv_buildTimeInSeconds y);
                       (rv_commitHashShort x, rv_commitHashShort y)])
  else if decide (rv_majorVersion x = 1) then
    tx ← rv_getTagDate x; ty ← rv_getTagDate y;
    rx ← rv_getIsReleaseVersion x; ry ← rv_getIsReleaseVersion y;
    px ← rv_getPatchVersion x; py ← rv_getPatchVersion y;
    Some (lex_compare [(tx, ty); (Z.b2z (negb rx), Z.b2z (negb ry)); (px, py)])
  else None.

(** [ReleaseVersion::operator==] *)
Definition rv_equal (x y : ReleaseVersion) : option bool :=
  if decide (rv_majorVersion x <> rv_majorVersion y) then Some false
  else if decide (rv_majorVersion x = 0) then
    Some (bool_decide (rv_commitHashShort x = rv_commitHashShort y) &&
          bool_decide (rv_majorVersion x = rv_majorVersion y) &&
          bool_decide (rv_minorVersion x = rv_minorVersion y) &&
          bool_decide (rv_patchVersion x = rv_patchVersion y) &&
          bool_decide (rv_buildTimeInSeconds x = rv_buildTimeInSeconds y) &&
          bool_decide (rv_buildPipelineId x = rv_buildPipelineId y))
  else if decide (rv_majorVersion x = 1) then
    tx ← rv_getTagDate x; ty ← rv_getTagDate y;
    rx ← rv_getIsReleaseVersion x; ry ← rv_getIsReleaseVersion y;
    px ← rv_getPatchVersion x; py ← rv_getPatchVersion y;
    Some (bool_decide (tx = ty) && eqb rx ry && bool_decide (px = py))
  else None.

(** ** Chains and targets *)

Record ChainTargetInfo := mkChainTargetInfo {
  cti_targetId : TargetId;
  cti_publicState : PublicTargetState
}.

Record ChainInfo := mkChainInfo {
  ci_chainId : ChainId;
  ci_chainVersion : ChainVersion;
  ci_targets : list ChainTargetInfo;
  ci_preferredTargetOrder : list TargetId
}.

Record ChainTable := mkChainTable {
  ct_chainTableId : ChainTableId;
  ct_chainTableVersion : ChainTableVersion;
  ct_chains : list ChainId;
  ct_desc : string
}.

(** [ChainTargetSetting] holds only a target id. *)
Record ChainSetting := mkChainSetting {
  cs_chainId : ChainId;
  cs_targets : list TargetId;
  cs_setPreferredTargetOrder : bool
}.

Record LocalTargetInfo := mkLocalTargetInfo {
  lti_targetId : TargetId;
  lti_localState : LocalTargetState;
  lti_diskIndex : option Z;
  lti_usedSize : Z;
  lti_chainVersion : ChainVersion;
  lti_lowSpace : bool
}.

(** [flat::TargetInfo] *)
Record FlatTargetInfo := mkFlatTargetInfo {
  fti_targetId : TargetId;
  fti_publicState : PublicTargetState;
  fti_localState : LocalTargetState;
  fti_chainId : ChainId;
  fti_nodeId : option NodeId;
  fti_diskIndex : option Z;
  fti_usedSize : Z
}.

#[export] Instance ChainTargetInfo_eq_dec : EqDecision ChainTargetInfo.
Proof. solve_decision. Defined.
#[export] Instance ChainInfo_eq_dec : EqDecision ChainInfo.
Proof. solve_decision. Defined.
#[export] Instance ChainTable_eq_dec : EqDecision ChainTable.
Proof. solve_decision. Defined.
#[export] Instance FlatTargetInfo_eq_dec : EqDecision FlatTargetInfo.
Proof. solve_decision. Defined.

Definition FlatTargetInfo_default : FlatTargetInfo :=
  mkFlatTargetInfo 0 PS_INVALID LS_INVALID 0 None None 0.

(** ** Nodes *)

(** [flat::NodeInfo] *)
Record NodeInfo := mkNodeInfo {
  ni_app : FbsAppInfo;
  ni_type : NodeType;
  ni_status : NodeStatus;
  ni_lastHeartbeatTs : UtcTime;
  ni_tags : list TagPair;
  ni_configVersion : ConfigVersion;
  ni_configStatus : ConfigStatus
}.

Record PersistentNodeInfo := mkPersistentNodeInfo {
  pni_nodeId : NodeId;
  pni_type : NodeType;
  pni_serviceGroups : list ServiceGroupInfo;
  pni_tags : list TagPair;
  pni_hostname : string
}.

#[export] Instance PersistentNodeInfo_eq_dec : EqDecision PersistentNodeInfo.
Proof. solve_decision. Defined.

Definition NodeInfo_default : NodeInfo :=
  mkNodeInfo FbsAppInfo_default NT_MGMTD HEARTBEAT_CONNECTING 0 [] 0 CS_NORMAL.

Definition set_ni_app v n := mkNodeInfo v (ni_type n) (ni_status n) (ni_lastHeartbeatTs n) (ni_tags n) (ni_configVersion n) (ni_configStatus n).
Definition set_ni_type v n := mkNodeInfo (ni_app n) v (ni_status n) (ni_lastHeartbeatTs n) (ni_tags n) (ni_configVersion n) (ni_configStatus n).
Definition set_ni_status v n := mkNodeInfo (ni_app n) (ni_type n) v (ni_lastHeartbeatTs n) (ni_tags n) (ni_configVersion n) (ni_configStatus n).
Definition set_ni_lastHeartbeatTs v n := mkNodeInfo (ni_app n) (ni_type n) (ni_status n) v (ni_tags n) (ni_configVersion n) (ni_configStatus n).
Definition set_ni_tags v n := mkNodeInfo (ni_app n) (ni_type n) (ni_status n) (ni_lastHeartbeatTs n) v (ni_configVersion n) (ni_configStatus n).
Definition set_ni_configVersion v n := mkNodeInfo (ni_app n) (ni_type n) (ni_status n) (ni_lastHeartbeatTs n) (ni_tags n) v (ni_configStatus n).
Definition set_ni_configStatus v n := mkNodeInfo (ni_app n) (ni_type n) (ni_status n) (ni_lastHeartbeatTs n) (ni_tags n) (ni_configVersion n) v.
Definition set_pni_tags v n := mkPersistentNodeInfo (pni_nodeId n) (pni_type n) (pni_serviceGroups n) v (pni_hostname n).

(** [toNode]: a stored node restarts as connecting, or disabled by its tag. *)
Definition toNode (pn : PersistentNodeInfo) : NodeInfo :=
  let status := if decide (findTag (pni_tags pn) kDisabledTagKey = -1) then HEARTBEAT_CONNECTING else DISABLED in
  mkNodeInfo (mkFbsAppInfo (pni_nodeId pn) (pni_hostname pn) 0 (pni_serviceGroups pn) ReleaseVersion_default "")
             (pni_type pn) status 0 (pni_tags pn) 0 CS_NORMAL.

Definition toPersistentNode (n : NodeInfo) : PersistentNodeInfo :=
  mkPersistentNodeInfo (app_nodeId (ni_app n)) (ni_type n) (app_serviceGroups (ni_app n)) (ni_tags n)
                       (app_hostname (ni_app n)).

Record NodeStatusChange := mkNodeStatusChange { nsc_status : NodeStatus; nsc_time : UtcTime }.

(** ** Leases, configurations, heartbeats, sessions *)

Record MgmtdLeaseInfo := mkMgmtdLeaseInfo {
  li_primary : PersistentNodeInfo;
  li_leaseStart : UtcTime;
  li_leaseEnd : UtcTime;
  li_releaseVersion : ReleaseVersion
}.

Record ConfigInfo := mkConfigInfo {
  cfg_configVersion : ConfigVersion;
  cfg_content : string;
  cfg_desc : string
}.
Definition ConfigInfo_default : ConfigInfo := mkConfigInfo 0 "" "".

(** The payload variant of [HeartbeatInfo]. *)
Inductive HeartbeatPayload :=
| MetaHeartbeatInfo
| StorageHeartbeatInfo (targets : list LocalTargetInfo)
| MgmtdHeartbeatInfo.

Record HeartbeatInfo := mkHeartbeatInfo {
  hb_info : HeartbeatPayload;
  hb_app : FbsAppInfo;
  hb_hbVersion : HeartbeatVersion;
  hb_configVersion : ConfigVersion;
  hb_configStatus : ConfigStatus
}.

(** [HeartbeatInfo::type] *)
Definition hb_type (hb : HeartbeatInfo) : NodeType :=
  match hb_info hb with
  | MetaHeartbeatInfo => NT_META
  | StorageHeartbeatInfo _ => NT_STORAGE
  | MgmtdHeartbeatInfo => NT_MGMTD
  end.

Record ClientSessionData := mkClientSessionData {
  csd_universalId : string;
  csd_description : string;
  csd_serviceGroups : list ServiceGroupInfo;
  csd_releaseVersion : ReleaseVersion
}.

(** [flat::ClientSession] *)
Record FlatClientSession := mkFlatClientSession {
  fcs_clientId : string;
  fcs_configVersion : ConfigVersion;
  fcs_start : UtcTime;
  fcs_lastExtend : UtcTime;
  fcs_universalId : string;
  fcs_description : string;
  fcs_serviceGroups : list ServiceGroupInfo;
  fcs_releaseVersion : ReleaseVersion;
  fcs_configStatus : ConfigStatus;
  fcs_type : NodeType;
  fcs_clientStart : UtcTime
}.

(** ** In-memory wrappers of the service ([src/mgmtd/service/*.h]) *)

(** [mgmtd::TargetInfo], a [WithTimestamp<flat::TargetInfo>]. *)
Record TargetInfo := mkTargetInfo {
  ti_base : FlatTargetInfo;
  ti_ts : SteadyTime;
  ti_locationInitLoaded : bool;
  ti_persistedNodeId : option NodeId;
  ti_persistedDiskIndex : option Z;
  ti_importantInfoChangedTime : SteadyTime
}.

Definition set_ti_base v t := mkTargetInfo v (ti_ts t) (ti_locationInitLoaded t) (ti_persistedNodeId t) (ti_persistedDiskIndex t) (ti_importantInfoChangedTime t).
Definition set_ti_ts v t := mkTargetInfo (ti_base t) v (ti_locationInitLoaded t) (ti_persistedNodeId t) (ti_persistedDiskIndex t) (ti_importantInfoChangedTime t).
Definition set_ti_loaded v t := mkTargetInfo (ti_base t) (ti_ts t) v (ti_persistedNodeId t) (ti_persistedDiskIndex t) (ti_importantInfoChangedTime t).
Definition set_ti_persisted n d t := mkTargetInfo (ti_base t) (ti_ts t) (ti_locationInitLoaded t) n d (ti_importantInfoChangedTime t).
Definition set_ti_importantInfoChangedTime v t := mkTargetInfo (ti_base t) (ti_ts t) (ti_locationInitLoaded t) (ti_persistedNodeId t) (ti_persistedDiskIndex t) v.

Definition set_fti_publicState v f := mkFlatTargetInfo (fti_targetId f) v (fti_localState f) (fti_chainId f) (fti_nodeId f) (fti_diskIndex f) (fti_usedSize f).
Definition set_fti_localState v f := mkFlatTargetInfo (fti_targetId f) (fti_publicState f) v (fti_chainId f) (fti_nodeId f) (fti_diskIndex f) (fti_usedSize f).
Definition set_fti_location n d f := mkFlatTargetInfo (fti_targetId f) (fti_publicState f) (fti_localState f) (fti_chainId f) n d (fti_usedSize f).
Definition set_fti_usedSize v f := mkFlatTargetInfo (fti_targetId f) (fti_publicState f) (fti_localState f) (fti_chainId f) (fti_nodeId f) (fti_diskIndex f) v.

(** [TargetInfo(info, ts)]; the last field is initialised from the clock. *)
Definition TargetInfo_make (info : FlatTargetInfo) (ts now : SteadyTime) : TargetInfo :=
  mkTargetInfo info ts false None None now.

(** [TargetInfo()], as [targets[tid]] inserts it for an unknown id. *)
Definition TargetInfo_default (now : SteadyTime) : TargetInfo :=
  TargetInfo_make FlatTargetInfo_default now now.

(** [NodeInfoWrapper] *)
Record NodeInfoWrapper := mkNodeInfoWrapper {
  nw_base : NodeInfo;
  nw_ts : SteadyTime;
  nw_version : HeartbeatVersion;
  nw_statusChanges : SimpleRingBuffer NodeStatusChange
}.

Definition kStatusChangeCount : Z := 100.

Definition NodeInfoWrapper_make (info : NodeInfo) (ts : SteadyTime) : NodeInfoWrapper :=
  mkNodeInfoWrapper info ts 0 (rb_new kStatusChangeCount).

Definition set_nw_base v n := mkNodeInfoWrapper v (nw_ts n) (nw_version n) (nw_statusChanges n).
Definition set_nw_ts v n := mkNodeInfoWrapper (nw_base n) v (nw_version n) (nw_statusChanges n).
Definition set_nw_version v n := mkNodeInfoWrapper (nw_base n) (nw_ts n) v (nw_statusChanges n).

(** [NodeInfoWrapper::recordStatusChange]: drops the oldest change when full. *)
Definition recordStatusChange (status : NodeStatus) (now : UtcTime) (n : NodeInfoWrapper) : NodeInfoWrapper :=
  let rb := if rb_full (nw_statusChanges n) then snd (rb_pop (nw_statusChanges n)) else nw_statusChanges n in
  mkNodeInfoWrapper (nw_base n) (nw_ts n) (nw_version n) (snd (rb_push (mkNodeStatusChange status now) rb)).

(** [mgmtd::ClientSession], a [WithTimestamp<flat::ClientSession>]. *)
Record ClientSession := mkClientSession {
  cse_base : FlatClientSession;
  cse_ts : SteadyTime;
  cse_clientSessionVersion : ClientSessionVersion
}.

(** [nextVersion]: the version type's width is given by its [wrap]. *)
Definition nextVersion32 (v : Z) : Z := u32 (v + 1).
Definition nextVersion64 (v : Z) : Z := u64 (v + 1).

(** ** Round trips *)

Lemma toNode_roundtrip pn : toPersistentNode (toNode pn) = pn.
Proof. by destruct pn. Qed.
