(* ===== verification/MgmtdKeys.v ===== *)
(** * The keys of the manager's tables ([src/mgmtd/store/MgmtdStore.cc])

    The key of every stored object, the decoders, and the theorems that let
    the store be seen as one table per kind of object: keys of different
    objects differ, decoding inverts encoding, and the key order is the one
    [loadLatestConfig] and [loadTargetsFrom] rely on. *)

From stdpp Require Import base list strings.
From Stdlib Require Import ZArith Lia.
From S2P Require Import Prelude StatusCode MgmtdTypes Bytes.

Definition getMgmtdLeaseKey : bytes := toStr KP_Single ++ bytes_of_string "MgmtdLease".
Definition getRoutingInfoVersionKey : bytes := toStr KP_Single ++ bytes_of_string "RoutingInfoVersion".
Definition getNodeKey (id : NodeId) : bytes := put 4 id (putKeyPrefix KP_NodeTable []).
Definition getChainTableKey (id : ChainTableId) (ver : ChainTableVersion) : bytes :=
  put 4 ver (put 4 id (putKeyPrefix KP_ChainTable [])).
Definition getChainInfoKey (id : ChainId) : bytes := put 4 id (putKeyPrefix KP_ChainInfo []).
Definition getTargetInfoKey (id : TargetId) : bytes := put 8 (big64 id) (putKeyPrefix KP_TargetInfo []).
Definition getKeyForUniversalTags (id : string) : bytes := toStr KP_UniversalTags ++ bytes_of_string id.

(** [toStringView] of a [NodeType]. *)
Definition NodeType_name (t : NodeType) : string :=
  match t with NT_MGMTD => "MGMTD" | NT_META => "META" | NT_STORAGE => "STORAGE" | NT_CLIENT => "CLIENT" | NT_FUSE => "FUSE" end.

Definition max64 : Z := 2 ^ 64 - 1.

Definition getConfigKey (nodeType : NodeType) (version : ConfigVersion) : bytes :=
  let s := putKeyPrefix KP_Config [] in
  let s := putShortString (bytes_of_string (NodeType_name nodeType)) s in
  put 8 (big64 (u64 (max64 - version))) s.

(** [getConfigKeyPrefix(nodeType)] *)
Definition getConfigKeyPrefix (nodeType : NodeType) : bytes :=
  putShortString (bytes_of_string (NodeType_name nodeType)) (putKeyPrefix KP_Config []).

Definition extractNodeIdFromKey (key : bytes) : outcome NodeId :=
  fst ((prefix ← get 4;
        err_if (bool_decide (prefix <> KeyPrefix_value KP_NodeTable)) kDataCorruption ;;
        id ← get 4;
        e ← reachEnd;
        err_if (negb e) kDataCorruption ;;
        mret id) (mkDeserializer key 0)).

(** [magic_enum::enum_cast<flat::NodeType>] *)
Definition NodeType_cast (s : bytes) : option NodeType :=
  list_find (fun t => bytes_of_string (NodeType_name t) = s) all_node_types ≫= fun e => Some e.2.

Definition decodeConfigKey (s : bytes) : outcome (NodeType * ConfigVersion) :=
  fst ((keyPrefix ← get 4;
        err_if (bool_decide (keyPrefix <> KeyPrefix_value KP_Config)) kDataCorruption ;;
        typeStr ← getShortString;
        match NodeType_cast typeStr with
        | None => fail kDataCorruption
        | Some type =>
            reversedBigVer ← get 8;
            mret (type, u64 (max64 - big64 reversedBigVer))
        end) (mkDeserializer s 0)).

(** ** Every object has its own key *)

(** The objects of the store. *)
Inductive StoredObject :=
| SO_Lease
| SO_RoutingInfoVersion
| SO_Node (id : NodeId)
| SO_ChainTable (id : ChainTableId) (ver : ChainTableVersion)
| SO_Chain (id : ChainId)
| SO_Target (id : TargetId)
| SO_Config (type : NodeType) (ver : ConfigVersion)
| SO_Tags (id : string).

Definition key_of (o : StoredObject) : bytes :=
  match o with
  | SO_Lease => getMgmtdLeaseKey
  | SO_RoutingInfoVersion => getRoutingInfoVersionKey
  | SO_Node id => getNodeKey id
  | SO_ChainTable id ver => getChainTableKey id ver
  | SO_Chain id => getChainInfoKey id
  | SO_Target id => getTargetInfoKey id
  | SO_Config type ver => getConfigKey type ver
  | SO_Tags id => getKeyForUniversalTags id
  end.

(** Identifiers fit their C++ types. *)
Definition in_width (o : StoredObject) : Prop :=
  match o with
  | SO_Node id | SO_Chain id => 0 <= id < 2 ^ 32
  | SO_ChainTable id ver => 0 <= id < 2 ^ 32 /\ 0 <= ver < 2 ^ 32
  | SO_Target id => 0 <= id < 2 ^ 64
  | SO_Config _ ver => 0 <= ver < 2 ^ 64
  | _ => True
  end.

Definition prefix_of (o : StoredObject) : KeyPrefix :=
  match o with
  | SO_Lease | SO_RoutingInfoVersion => KP_Single
  | SO_Node _ => KP_NodeTable
  | SO_ChainTable _ _ => KP_ChainTable
  | SO_Chain _ => KP_ChainInfo
  | SO_Target _ => KP_TargetInfo
  | SO_Config _ _ => KP_Config
  | SO_Tags _ => KP_UniversalTags
  end.

Definition rest_of (o : StoredObject) : bytes :=
  match o with
  | SO_Lease => bytes_of_string "MgmtdLease"
  | SO_RoutingInfoVersion => bytes_of_string "RoutingInfoVersion"
  | SO_Node id | SO_Chain id => le_bytes 4 id
  | SO_ChainTable id ver => le_bytes 4 id ++ le_bytes 4 ver
  | SO_Target id => rev (le_bytes 8 id)
  | SO_Config t ver =>
      (Z.of_nat (length (bytes_of_string (NodeType_name t))) :: bytes_of_string (NodeType_name t)) ++
      rev (le_bytes 8 (max64 - ver))
  | SO_Tags id => bytes_of_string id
  end.

Lemma config_ver_range v : 0 <= v < 2 ^ 64 -> u64 (max64 - v) = max64 - v.
Proof. intros H. apply u64_small. unfold max64. lia. Qed.

Lemma key_of_split o : in_width o -> key_of o = toStr (prefix_of o) ++ rest_of o.
Proof.
  destruct o as [| |id|id ver|id|id|t ver|id]; simpl; intros Hw; try done;
    unfold getNodeKey, getChainInfoKey, getChainTableKey, getTargetInfoKey, getConfigKey; rewrite put_prefix;
    unfold put, putShortString, putIntAsChar, putChar; rewrite ?app_nil_l.
  - by rewrite le_bytes_big64.
  - rewrite le_bytes_big64, config_ver_range by done. rewrite <- !app_assoc. f_equal. by destruct t.
Qed.

Lemma bytes_of_string_inj s t : bytes_of_string s = bytes_of_string t -> s = t.
Proof.
  unfold bytes_of_string. intros H. rewrite <- (String.string_of_list_ascii_of_string s), <- (String.string_of_list_ascii_of_string t).
  f_equal. revert H. generalize (String.list_ascii_of_string s) (String.list_ascii_of_string t).
  induction l as [|a l IH]; intros [|b l']; simpl; try done. intros [= Hab Hl].
  f_equal; [|by apply IH]. apply Nat2Z.inj in Hab.
  rewrite <- (Ascii.ascii_nat_embedding a), <- (Ascii.ascii_nat_embedding b). by f_equal.
Qed.

(** two objects of the store never share a key: an identifier that fits its
    C++ type is recovered from the key, and keys of different tables differ. *)
Theorem mgmtd_keys_injective (o o' : StoredObject) :
  in_width o -> in_width o' -> key_of o = key_of o' -> o = o'.
Proof.
  intros Hw Hw' H. rewrite !key_of_split in H by done.
  apply app_inj_1 in H as [Hp Hr]; [|by rewrite !toStr_length]. apply toStr_inj in Hp.
  destruct o as [| |id|id ver|id|id|t ver|id], o' as [| |id'|id' ver'|id'|id'|t' ver'|id'];
    try discriminate Hp; cbn [rest_of in_width] in Hr, Hw, Hw'; try done.
  - f_equal. by eapply (le_bytes_inj 4).
  - apply app_inj_1 in Hr as [H1 H2]; [|by rewrite !le_bytes_length].
    f_equal; eapply (le_bytes_inj 4); tauto.
  - f_equal. by eapply (le_bytes_inj 4).
  - apply (f_equal (@rev Z)) in Hr. rewrite !rev_involutive in Hr. f_equal. by eapply (le_bytes_inj 8).
  - assert (t = t') as <- by (destruct t, t'; solve [done | exfalso; cbn in Hr; discriminate Hr]).
    apply app_inv_head, (f_equal (@rev Z)) in Hr. rewrite !rev_involutive in Hr.
    apply (le_bytes_inj 8) in Hr; unfold max64 in *; [f_equal; lia|lia..].
  - f_equal. by apply bytes_of_string_inj.
Qed.

Lemma mgmtd_keys_injective_witness : SO_Config NT_META 7 = SO_Config NT_META 7.
Proof. apply mgmtd_keys_injective; [simpl; lia|simpl; lia|reflexivity]. Defined.

(** ** Round trips *)

Lemma KeyPrefix_value_range p : 0 <= KeyPrefix_value p < 2 ^ (8 * Z.of_nat 4).
Proof. destruct p; vm_compute; split; congruence. Qed.

Lemma KeyPrefix_value_bytes p : toStr p = le_bytes 4 (KeyPrefix_value p).
Proof. by destruct p. Qed.

Lemma KeyPrefix_value_inj p q : KeyPrefix_value p = KeyPrefix_value q -> p = q.
Proof. intros H. apply toStr_inj. by rewrite !KeyPrefix_value_bytes, H. Qed.

(** Reading the prefix of a key. *)
Lemma runs_get_prefix p rest Q :
  fits (toStr p ++ rest) -> Q (Ok (KeyPrefix_value p)) (mkDeserializer (toStr p ++ rest) 4) ->
  runs (get 4) (mkDeserializer (toStr p ++ rest) 0) Q.
Proof.
  intros Hf HQ. rewrite KeyPrefix_value_bytes in *. apply (runs_get [] rest 4); [done|apply KeyPrefix_value_range|done].
Qed.

Lemma fits_key o : (forall id, o <> SO_Tags id) -> in_width o -> fits (toStr (prefix_of o) ++ rest_of o).
Proof.
  intros Ht Hw. unfold fits. rewrite length_app, toStr_length.
  destruct o as [| |id|id ver|id|id|t ver|id]; cbn [rest_of]; rewrite ?length_app, ?length_rev, ?le_bytes_length; try done.
  - by destruct t.
  - by destruct (Ht id).
Qed.

(** C27: decoding a key inverts encoding it, for node and configuration keys, and
    both decoders reject the key of an object of any other table.  The fields
    of the key have their widths; keys of universal tags, which end in a string
    of any length, are left out. *)
Theorem mgmtd_keys_roundtrip (o : StoredObject) :
  in_width o -> (forall id, o <> SO_Tags id) ->
  extractNodeIdFromKey (key_of o) = match o with SO_Node id => Ok id | _ => Err kDataCorruption end /\
  decodeConfigKey (key_of o) = match o with SO_Config t v => Ok (t, v) | _ => Err kDataCorruption end.
Proof.
  intros Hw Ht. rewrite key_of_split by done. pose proof (fits_key o Ht Hw) as Hf. split.
  - match goal with |- _ = ?rhs => apply (runs_mono _ _ (fun r _ => r = rhs)) with (Q := fun r _ => r = rhs); [|done] end.
    mstep. apply runs_get_prefix; [done|]. msteps.
    + apply bool_decide_eq_true in H. destruct o; done.
    + apply bool_decide_eq_false in H. destruct o as [| |id|id ver|id|id|t ver|id]; try (exfalso; apply H; by intros ?%KeyPrefix_value_inj).
      cbn [prefix_of rest_of]. pose proof (runs_get (toStr KP_NodeTable) [] 4 id) as Hg. rewrite app_nil_r in Hg.
      rewrite toStr_length in Hg. apply Hg; [done|exact Hw|]. unfold reachEnd, des_size. msteps; [|done].
      exfalso. cbn [des_s des_pos] in H0. rewrite length_app, toStr_length, le_bytes_length, bool_decide_true in H0 by lia. done.
  - match goal with |- _ = ?rhs => apply (runs_mono _ _ (fun r _ => r = rhs)) with (Q := fun r _ => r = rhs); [|done] end.
    mstep. apply runs_get_prefix; [done|]. msteps.
    + apply bool_decide_eq_true in H. destruct o; done.
    + apply bool_decide_eq_false in H. destruct o as [| |id|id ver|id|id|t ver|id]; try (exfalso; apply H; by intros ?%KeyPrefix_value_inj).
      cbn [prefix_of rest_of] in *. set (name := bytes_of_string (NodeType_name t)) in *.
      pose proof (runs_getShortString (toStr KP_Config) (rev (le_bytes 8 (max64 - ver))) name) as Hg.
      rewrite toStr_length in Hg. apply Hg; [unfold name; destruct t; vm_compute; lia|done|]. mstep.
      assert (NodeType_cast name = Some t) as -> by (unfold name; by destruct t). mstep.
      pose proof (runs_get (toStr KP_Config ++ Z.of_nat (length name) :: name) [] 8 (big64 (max64 - ver))) as Hg2.
      rewrite le_bytes_big64, length_app, toStr_length in Hg2. rewrite app_nil_r, <- app_assoc in Hg2.
      replace (Z.of_nat 4 + 1 + Z.of_nat (length name)) with (Z.of_nat (4 + length (Z.of_nat (length name) :: name)))
        by (simpl length; lia).
      apply Hg2; [done|apply big64_range|]. msteps.
      simpl in Hw. rewrite big64_involutive by (unfold max64; lia). rewrite u64_small; unfold max64; [|lia].
      do 2 f_equal. lia.
Qed.

Lemma mgmtd_keys_roundtrip_witness :
  extractNodeIdFromKey (getNodeKey 10001) = Ok 10001 /\ decodeConfigKey (getNodeKey 10001) = Err kDataCorruption.
Proof. apply (mgmtd_keys_roundtrip (SO_Node 10001)); [simpl; lia|done]. Defined.

(** ** Order *)

(** keys of the same node type are ordered by decreasing configuration
    version, so the first key of a type is its latest version, and target keys
    are ordered by increasing target id. *)
Theorem mgmtd_keys_order (t : NodeType) (v w : ConfigVersion) (i j : TargetId) :
  0 <= v < 2 ^ 64 -> 0 <= w < 2 ^ 64 -> 0 <= i < 2 ^ 64 -> 0 <= j < 2 ^ 64 ->
  bytes_compare (getConfigKey t v) (getConfigKey t w) = (w ?= v) /\
  bytes_compare (getTargetInfoKey i) (getTargetInfoKey j) = (i ?= j) /\
  starts_with (getConfigKeyPrefix t) (getConfigKey t v) = true.
Proof.
  intros Hv Hw Hi Hj. split_and!.
  - change (getConfigKey t v) with (key_of (SO_Config t v)). change (getConfigKey t w) with (key_of (SO_Config t w)).
    rewrite !key_of_split by done. cbn [prefix_of rest_of]. rewrite !bytes_compare_app, be_compare;
      [|unfold max64; simpl; lia..].
    destruct (Z.compare_spec (max64 - v) (max64 - w)), (Z.compare_spec w v); try done; lia.
  - change (getTargetInfoKey i) with (key_of (SO_Target i)). change (getTargetInfoKey j) with (key_of (SO_Target j)).
    rewrite !key_of_split by done. cbn [prefix_of rest_of]. by rewrite bytes_compare_app, be_compare.
  - unfold starts_with, getConfigKey, getConfigKeyPrefix, put. rewrite take_app_length. by apply bool_decide_true.
Qed.

Lemma mgmtd_keys_order_witness :
  bytes_compare (getConfigKey NT_META 3) (getConfigKey NT_META 5) = Gt /\
  bytes_compare (getTargetInfoKey 255) (getTargetInfoKey 256) = Lt.
Proof.
  destruct (mgmtd_keys_order NT_META 3 5 255 256) as (H1 & H2 & _); [lia..|]. split; [exact H1|exact H2].
Defined.
