(* ===== verification/UpdateChain.v ===== *)
(** * The replication chain's state machine ([src/mgmtd/service/updateChain.{h,cc}])

    A chain lists its targets with a public state, written by the manager, and
    a local state, reported by the storage services.  [generateNewChain] is the
    manager's periodic transition; the other functions are the administrator's
    rotations and the shutdown of a chain. *)

From stdpp Require Import base list gmap sorting.
From Stdlib Require Import ZArith Lia.
From S2P Require Import Prelude MgmtdTypes.

(** ** Data *)

(** [ChainTargetInfoEx]: a chain target with its local state. *)
Record ChainTargetInfoEx := mkChainTargetInfoEx {
  cte_targetId : TargetId;
  cte_publicState : PublicTargetState;
  cte_localState : LocalTargetState
}.

#[export] Instance ChainTargetInfoEx_eq_dec : EqDecision ChainTargetInfoEx.
Proof. solve_decision. Defined.

Definition set_cte_publicState (ps : PublicTargetState) (t : ChainTargetInfoEx) : ChainTargetInfoEx :=
  mkChainTargetInfoEx (cte_targetId t) ps (cte_localState t).
Definition set_cte_localState (ls : LocalTargetState) (t : ChainTargetInfoEx) : ChainTargetInfoEx :=
  mkChainTargetInfoEx (cte_targetId t) (cte_publicState t) ls.

(** [ChainTargetInfoEx(cti, ls)] and the slicing conversion back. *)
Definition cte_make (cti : ChainTargetInfo) (ls : LocalTargetState) : ChainTargetInfoEx :=
  mkChainTargetInfoEx (cti_targetId cti) (cti_publicState cti) ls.
Definition cte_slice (t : ChainTargetInfoEx) : ChainTargetInfo :=
  mkChainTargetInfo (cte_targetId t) (cte_publicState t).

(** [explicit ChainTargetInfoEx(const flat::TargetInfo &)] *)
Definition cte_of_target (ti : FlatTargetInfo) : ChainTargetInfoEx :=
  mkChainTargetInfoEx (fti_targetId ti) (fti_publicState ti) (fti_localState ti).

Definition ChainTargetInfoEx_default : ChainTargetInfoEx := mkChainTargetInfoEx 0 PS_INVALID LS_INVALID.

(** The map from public states to the targets dispatched to them. *)
Definition TargetsByPs : Type := PublicTargetState -> list ChainTargetInfoEx.
Definition tbp_empty : TargetsByPs := fun _ => [].

(** ** Operations *)

(** [dispatch]: append the target, under its new state. *)
Definition dispatch (m : TargetsByPs) (ti : ChainTargetInfoEx) (ps : PublicTargetState) : TargetsByPs :=
  fun s => if decide (s = ps) then m s ++ [set_cte_publicState ps ti] else m s.

(** Grouping the old targets by public state. *)
Definition group_by_ps (l : list ChainTargetInfoEx) : TargetsByPs :=
  fun s => filter (fun ti => cte_publicState ti = s) l.

Definition tbp_nonempty (m : TargetsByPs) (s : PublicTargetState) : bool :=
  match m s with [] => false | _ => true end.

(** A target whose service reports it usable. *)
Definition ls_alive (ls : LocalTargetState) : bool :=
  match ls with LS_ONLINE | LS_UPTODATE => true | _ => false end.

(** The five loops of [generateNewChain], one body each. *)
Definition step_serving (m : TargetsByPs) (ti : ChainTargetInfoEx) : TargetsByPs :=
  if ls_alive (cte_localState ti) then dispatch m ti PS_SERVING
  else if negb (tbp_nonempty m PS_LASTSRV) then dispatch m ti PS_LASTSRV
  else dispatch m ti PS_OFFLINE.

Definition step_lastsrv (m : TargetsByPs) (ti : ChainTargetInfoEx) : TargetsByPs :=
  if negb (tbp_nonempty m PS_SERVING) then
    if ls_alive (cte_localState ti) then dispatch m ti PS_SERVING
    else dispatch m ti PS_LASTSRV
  else dispatch m ti PS_OFFLINE.

Definition step_syncing (m : TargetsByPs) (ti : ChainTargetInfoEx) : TargetsByPs :=
  match cte_localState ti with
  | LS_UPTODATE => dispatch m ti PS_SERVING
  | LS_ONLINE => if tbp_nonempty m PS_SERVING then dispatch m ti PS_SYNCING else dispatch m ti PS_WAITING
  | _ => dispatch m ti PS_OFFLINE
  end.

Definition step_waiting (m : TargetsByPs) (ti : ChainTargetInfoEx) : TargetsByPs :=
  if tbp_nonempty m PS_SERVING && negb (tbp_nonempty m PS_SYNCING) && bool_decide (cte_localState ti = LS_ONLINE)
  then dispatch m ti PS_SYNCING
  else if ls_alive (cte_localState ti) then dispatch m ti PS_WAITING
  else dispatch m ti PS_OFFLINE.

Definition step_offline (m : TargetsByPs) (ti : ChainTargetInfoEx) : TargetsByPs :=
  if tbp_nonempty m PS_SERVING && negb (tbp_nonempty m PS_SYNCING) && bool_decide (cte_localState ti = LS_ONLINE)
  then dispatch m ti PS_SYNCING
  else if ls_alive (cte_localState ti) then dispatch m ti PS_WAITING
  else dispatch m ti PS_OFFLINE.

(** "Has SERVING": no target stays LASTSRV next to a serving one. *)
Definition demote_lastsrv (m : TargetsByPs) : TargetsByPs :=
  if tbp_nonempty m PS_SERVING then
    let m' := fold_left (fun m ti => dispatch m ti PS_OFFLINE) (m PS_LASTSRV) m in
    fun s => if decide (s = PS_LASTSRV) then [] else m' s
  else m.

Definition concat_by_ps (m : TargetsByPs) : list ChainTargetInfoEx :=
  m PS_SERVING ++ m PS_LASTSRV ++ m PS_SYNCING ++ m PS_WAITING ++ m PS_OFFLINE.

Definition dispatch_all (oldTargets : list ChainTargetInfoEx) : TargetsByPs :=
  let old := group_by_ps oldTargets in
  let m := fold_left step_serving (old PS_SERVING) tbp_empty in
  let m := fold_left step_lastsrv (old PS_LASTSRV) m in
  let m := fold_left step_syncing (old PS_SYNCING) m in
  let m := fold_left step_waiting (old PS_WAITING) m in
  fold_left step_offline (old PS_OFFLINE) m.

Definition generateNewChain (oldTargets : list ChainTargetInfoEx) : list ChainTargetInfoEx :=
  concat_by_ps (demote_lastsrv (dispatch_all oldTargets)).

(** [oldMapping]: from target id to its last position and its entry. *)
Definition old_mapping (oldTargets : list ChainTargetInfoEx) : gmap TargetId (nat * ChainTargetInfoEx) :=
  fold_left (fun m e => <[cte_targetId (snd e) := e]> m) (zip (seq 0 (length oldTargets)) oldTargets) ∅.

(** The search for the first position that differs from the preferred one;
    reading [oldTargets[i]] out of range is undefined. *)
Fixpoint rotate_loop (oldTargets : list ChainTargetInfoEx) (m : gmap TargetId (nat * ChainTargetInfoEx))
    (i : nat) (preferred : list TargetId) : outcome (list ChainTargetInfoEx) :=
  match preferred with
  | [] => Ok oldTargets
  | tid :: preferred' =>
      let '(oldPos, oldInfo) := default (0%nat, ChainTargetInfoEx_default) (m !! tid) in
      if decide (oldPos = i) then rotate_loop oldTargets m (S i) preferred'
      else if decide (cte_publicState oldInfo <> PS_SERVING) then Ok oldTargets
      else match oldTargets !! i with
           | None => Fatal
           | Some info =>
               Ok (take i oldTargets ++ drop (S i) oldTargets ++
                   [set_cte_localState LS_OFFLINE (set_cte_publicState PS_OFFLINE info)])
           end
  end.

Definition rotateAsPreferredOrder (oldTargets : list ChainTargetInfoEx) (preferredOrder : list TargetId)
    : outcome (list ChainTargetInfoEx) :=
  rotate_loop oldTargets (old_mapping oldTargets) 0 preferredOrder.

Definition rotateLastSrv (oldTargets : list ChainTargetInfoEx) : list ChainTargetInfoEx :=
  match oldTargets with
  | t0 :: t1 :: rest =>
      if decide (cte_publicState t0 <> PS_LASTSRV) then oldTargets
      else set_cte_publicState PS_LASTSRV t1 :: map (set_cte_publicState PS_OFFLINE) (rest ++ [t0])
  | _ => oldTargets
  end.

(** [shutdownChain]: an INVALID state is a [FATAL]. *)
Definition shutdown_target (ti : ChainTargetInfo) : outcome ChainTargetInfo :=
  match cti_publicState ti with
  | PS_SERVING => Ok (mkChainTargetInfo (cti_targetId ti) PS_LASTSRV)
  | PS_WAITING | PS_SYNCING => Ok (mkChainTargetInfo (cti_targetId ti) PS_OFFLINE)
  | PS_LASTSRV | PS_OFFLINE => Ok ti
  | PS_INVALID => Fatal
  end.

Fixpoint shutdownChain (oldTargets : list ChainTargetInfo) : outcome (list ChainTargetInfo) :=
  match oldTargets with
  | [] => Ok []
  | ti :: rest =>
      match shutdown_target ti, shutdownChain rest with
      | Ok ti', Ok rest' => Ok (ti' :: rest')
      | Ok _, o => o
      | _, _ => Fatal
      end
  end.

(** ** The structure of a run of [generateNewChain] *)

Section dispatching.
Implicit Types m : TargetsByPs.

Definition tbp_le (m m' : TargetsByPs) : Prop := forall s, exists k, m' s = m s ++ k.

Lemma tbp_le_refl m : tbp_le m m.
Proof. intros s. exists []. by rewrite app_nil_r. Qed.

Lemma tbp_le_trans m1 m2 m3 : tbp_le m1 m2 -> tbp_le m2 m3 -> tbp_le m1 m3.
Proof.
  intros H1 H2 s. destruct (H1 s) as [k1 E1], (H2 s) as [k2 E2].
  exists (k1 ++ k2). by rewrite E2, E1, app_assoc.
Qed.

Lemma tbp_le_dispatch m ti ps : tbp_le m (dispatch m ti ps).
Proof. intros s. unfold dispatch. case_decide; [eauto|]. exists []. by rewrite app_nil_r. Qed.

Lemma tbp_le_nonempty m m' s : tbp_le m m' -> tbp_nonempty m s = true -> tbp_nonempty m' s = true.
Proof. intros Hle. destruct (Hle s) as [k E]. unfold tbp_nonempty. rewrite E. by destruct (m s). Qed.

(** A loop whose body dispatches each target to a state chosen from the map so
    far appends, state by state, the targets under their chosen states. *)
Lemma fold_dispatch (choose : TargetsByPs -> ChainTargetInfoEx -> PublicTargetState) step l m0 :
  (forall m ti, step m ti = dispatch m ti (choose m ti)) ->
  let m' := fold_left step l m0 in
  exists l',
    Forall2 (fun o n => exists mid, tbp_le m0 mid /\ tbp_le mid m' /\ n = set_cte_publicState (choose mid o) o) l l' /\
    (forall s, m' s = m0 s ++ filter (fun t => cte_publicState t = s) l').
Proof.
  intros Hstep. revert m0. induction l as [|ti l IH]; intros m0 m'.
  - exists []. split; [constructor|]. intros s. by rewrite app_nil_r.
  - specialize (IH (step m0 ti)) as (l' & HF & Hm).
    assert (Hle : tbp_le (step m0 ti) m') by (intros s; unfold m'; simpl; rewrite Hm; eauto).
    exists (set_cte_publicState (choose m0 ti) ti :: l'). split.
    + constructor.
      * exists m0. split; [apply tbp_le_refl|]. split; [|done].
        eapply tbp_le_trans; [|exact Hle]. rewrite Hstep. apply tbp_le_dispatch.
      * eapply Forall2_impl; [exact HF|]. intros o n (mid & H1 & H2 & ->). exists mid. split; [|done].
        eapply tbp_le_trans; [|exact H1]. rewrite Hstep. apply tbp_le_dispatch.
    + intros s. unfold m'. simpl. rewrite Hm, Hstep. unfold dispatch.
      rewrite filter_cons. simpl. repeat case_decide; try congruence.
      by rewrite <- app_assoc.
Qed.

Definition choose_serving m ti : PublicTargetState :=
  if ls_alive (cte_localState ti) then PS_SERVING
  else if negb (tbp_nonempty m PS_LASTSRV) then PS_LASTSRV else PS_OFFLINE.
Definition choose_lastsrv m ti : PublicTargetState :=
  if negb (tbp_nonempty m PS_SERVING) then
    if ls_alive (cte_localState ti) then PS_SERVING else PS_LASTSRV
  else PS_OFFLINE.
Definition choose_syncing m ti : PublicTargetState :=
  match cte_localState ti with
  | LS_UPTODATE => PS_SERVING
  | LS_ONLINE => if tbp_nonempty m PS_SERVING then PS_SYNCING else PS_WAITING
  | _ => PS_OFFLINE
  end.
Definition choose_waiting m ti : PublicTargetState :=
  if tbp_nonempty m PS_SERVING && negb (tbp_nonempty m PS_SYNCING) && bool_decide (cte_localState ti = LS_ONLINE)
  then PS_SYNCING
  else if ls_alive (cte_localState ti) then PS_WAITING else PS_OFFLINE.

Lemma step_serving_choose m ti : step_serving m ti = dispatch m ti (choose_serving m ti).
Proof. unfold step_serving, choose_serving. by repeat case_match. Qed.
Lemma step_lastsrv_choose m ti : step_lastsrv m ti = dispatch m ti (choose_lastsrv m ti).
Proof. unfold step_lastsrv, choose_lastsrv. by repeat case_match. Qed.
Lemma step_syncing_choose m ti : step_syncing m ti = dispatch m ti (choose_syncing m ti).
Proof. unfold step_syncing, choose_syncing. by repeat case_match. Qed.
Lemma step_waiting_choose m ti : step_waiting m ti = dispatch m ti (choose_waiting m ti).
Proof. unfold step_waiting, choose_waiting. by repeat case_match. Qed.
Lemma step_offline_choose m ti : step_offline m ti = dispatch m ti (choose_waiting m ti).
Proof. unfold step_offline, choose_waiting. by repeat case_match. Qed.

(** The choices of a phase, seen from the map the run ends with. *)
Definition chosen (choose : TargetsByPs -> ChainTargetInfoEx -> PublicTargetState) (m0 mf : TargetsByPs)
    (o n : ChainTargetInfoEx) : Prop :=
  exists mid, tbp_le m0 mid /\ tbp_le mid mf /\ n = set_cte_publicState (choose mid o) o.

Lemma chosen_le choose m0 m1 mf l l' :
  tbp_le m1 mf -> Forall2 (chosen choose m0 m1) l l' -> Forall2 (chosen choose m0 mf) l l'.
Proof.
  intros Hle HF. eapply Forall2_impl; [exact HF|]. intros o n (mid & H1 & H2 & H3).
  exists mid. eauto using tbp_le_trans.
Qed.

(** The five phases of a run, with the targets each of them places. *)
Record phases (old : list ChainTargetInfoEx) (mf : TargetsByPs) (l1 l2 l3 l4 l5 : list ChainTargetInfoEx) : Prop := {
  ph_serving : Forall2 (chosen choose_serving tbp_empty mf) (group_by_ps old PS_SERVING) l1;
  ph_lastsrv : Forall2 (chosen choose_lastsrv (group_by_ps l1) mf) (group_by_ps old PS_LASTSRV) l2;
  ph_syncing : Forall2 (chosen choose_syncing (group_by_ps (l1 ++ l2)) mf) (group_by_ps old PS_SYNCING) l3;
  ph_waiting : Forall2 (chosen choose_waiting (group_by_ps (l1 ++ l2 ++ l3)) mf) (group_by_ps old PS_WAITING) l4;
  ph_offline : Forall2 (chosen choose_waiting (group_by_ps (l1 ++ l2 ++ l3 ++ l4)) mf) (group_by_ps old PS_OFFLINE) l5;
  ph_final : forall s, mf s = group_by_ps (l1 ++ l2 ++ l3 ++ l4 ++ l5) s
}.

Lemma tbp_le_ext m1 m2 m3 : (forall s, m1 s = m2 s) -> tbp_le m1 m3 -> tbp_le m2 m3.
Proof. intros H Hle s. rewrite <- H. apply Hle. Qed.

Lemma dispatch_all_phases old : exists l1 l2 l3 l4 l5, phases old (dispatch_all old) l1 l2 l3 l4 l5.
Proof.
  unfold dispatch_all.
  edestruct (fold_dispatch choose_serving step_serving (group_by_ps old PS_SERVING) tbp_empty)
    as (l1 & F1 & E1); [apply step_serving_choose|].
  set (m1 := fold_left step_serving _ _) in *. clearbody m1.
  edestruct (fold_dispatch choose_lastsrv step_lastsrv (group_by_ps old PS_LASTSRV) m1)
    as (l2 & F2 & E2); [apply step_lastsrv_choose|].
  set (m2 := fold_left step_lastsrv _ _) in *. clearbody m2.
  edestruct (fold_dispatch choose_syncing step_syncing (group_by_ps old PS_SYNCING) m2)
    as (l3 & F3 & E3); [apply step_syncing_choose|].
  set (m3 := fold_left step_syncing _ _) in *. clearbody m3.
  edestruct (fold_dispatch choose_waiting step_waiting (group_by_ps old PS_WAITING) m3)
    as (l4 & F4 & E4); [apply step_waiting_choose|].
  set (m4 := fold_left step_waiting _ _) in *. clearbody m4.
  edestruct (fold_dispatch choose_waiting step_offline (group_by_ps old PS_OFFLINE) m4)
    as (l5 & F5 & E5); [apply step_offline_choose|].
  set (m5 := fold_left step_offline _ _) in *. clearbody m5.
  assert (L45 : tbp_le m4 m5) by (intros s; rewrite E5; eauto).
  assert (L35 : tbp_le m3 m5) by (eapply tbp_le_trans; [|exact L45]; intros s; rewrite E4; eauto).
  assert (L25 : tbp_le m2 m5) by (eapply tbp_le_trans; [|exact L35]; intros s; rewrite E3; eauto).
  assert (L15 : tbp_le m1 m5) by (eapply tbp_le_trans; [|exact L25]; intros s; rewrite E2; eauto).
  assert (G1 : forall s, m1 s = group_by_ps l1 s) by (intros s; by rewrite E1).
  assert (G2 : forall s, m2 s = group_by_ps (l1 ++ l2) s)
    by (intros s; rewrite E2, G1; unfold group_by_ps; by rewrite filter_app).
  assert (G3 : forall s, m3 s = group_by_ps (l1 ++ l2 ++ l3) s)
    by (intros s; rewrite E3, G2; unfold group_by_ps; by rewrite !filter_app, !app_assoc).
  assert (G4 : forall s, m4 s = group_by_ps (l1 ++ l2 ++ l3 ++ l4) s)
    by (intros s; rewrite E4, G3; unfold group_by_ps; by rewrite !filter_app, !app_assoc).
  exists l1, l2, l3, l4, l5. split.
  - by eapply chosen_le; [exact L15|].
  - eapply Forall2_impl; [eapply chosen_le; [exact L25|exact F2]|].
    intros o n (mid & ? & ? & ?). exists mid. eauto using tbp_le_ext.
  - eapply Forall2_impl; [eapply chosen_le; [exact L35|exact F3]|].
    intros o n (mid & ? & ? & ?). exists mid. eauto using tbp_le_ext.
  - eapply Forall2_impl; [eapply chosen_le; [exact L45|exact F4]|].
    intros o n (mid & ? & ? & ?). exists mid. eauto using tbp_le_ext.
  - eapply Forall2_impl; [exact F5|].
    intros o n (mid & ? & ? & ?). exists mid. eauto using tbp_le_ext.
  - intros s. rewrite E5, G4. unfold group_by_ps. by rewrite !filter_app, !app_assoc.
Qed.
End dispatching.

(** ** From the phases to the new chain *)

Section new_chain.
Implicit Types l L old : list ChainTargetInfoEx.

Definition valid_states l : Prop := Forall (fun t => cte_publicState t <> PS_INVALID) l.

Definition has_state (s : PublicTargetState) l : bool :=
  existsb (fun t => bool_decide (cte_publicState t = s)) l.

Lemma has_state_spec s l : has_state s l = true <-> exists t, t ∈ l /\ cte_publicState t = s.
Proof.
  unfold has_state. rewrite existsb_exists. setoid_rewrite list_elem_of_In.
  split; intros (t & ? & Ht); exists t; split; try done; revert Ht; case_bool_decide; done.
Qed.

Lemma has_state_perm s l l' : l ≡ₚ l' -> has_state s l = has_state s l'.
Proof.
  intros HP. apply eq_true_iff_eq. rewrite !has_state_spec. by setoid_rewrite HP.
Qed.

Lemma has_state_app s l l' : has_state s (l ++ l') = has_state s l || has_state s l'.
Proof. apply existsb_app. Qed.

Lemma group_nonempty L s : tbp_nonempty (group_by_ps L) s = has_state s L.
Proof.
  unfold tbp_nonempty, group_by_ps, has_state. induction L as [|t L IH]; [done|].
  rewrite filter_cons. simpl. case_bool_decide as E; destruct (decide _); try done; congruence.
Qed.

(** Every target, under its chosen state, is in exactly one group. *)
Lemma concat_group_perm L : valid_states L -> concat_by_ps (group_by_ps L) ≡ₚ L.
Proof.
  induction 1 as [|t L Ht HL IH]; [done|].
  rewrite <- IH at 2. unfold concat_by_ps, group_by_ps. rewrite !filter_cons.
  destruct (cte_publicState t) eqn:E; [done|..]; simpl; solve_Permutation.
Qed.

(** The last loop's effect on one target. *)
Definition demote_target (hs : bool) (t : ChainTargetInfoEx) : ChainTargetInfoEx :=
  if hs && bool_decide (cte_publicState t = PS_LASTSRV) then set_cte_publicState PS_OFFLINE t else t.

Lemma demote_group L s :
  let hs := has_state PS_SERVING L in
  demote_lastsrv (group_by_ps L) s =
    if hs then
      if decide (s = PS_LASTSRV) then []
      else if decide (s = PS_OFFLINE)
           then group_by_ps L PS_OFFLINE ++ map (set_cte_publicState PS_OFFLINE) (group_by_ps L PS_LASTSRV)
           else group_by_ps L s
    else group_by_ps L s.
Proof.
  unfold demote_lastsrv. rewrite group_nonempty. simpl. case_match; [|done].
  case_decide; [done|].
  generalize (group_by_ps L) as m. intros m. set (k := m PS_LASTSRV). clearbody k. revert m.
  induction k as [|t k IH]; intros m; simpl.
  - case_decide; subst; [by rewrite app_nil_r|done].
  - rewrite IH. unfold dispatch. repeat case_decide; subst; try congruence. by rewrite <- app_assoc.
Qed.

Lemma demote_target_valid hs L : valid_states L -> valid_states (map (demote_target hs) L).
Proof.
  intros H. apply Forall_map. eapply Forall_impl; [exact H|]. intros t Ht. unfold demote_target.
  by case_match.
Qed.

Lemma concat_demote_perm L :
  valid_states L ->
  concat_by_ps (demote_lastsrv (group_by_ps L)) ≡ₚ map (demote_target (has_state PS_SERVING L)) L.
Proof.
  intros HL. unfold concat_by_ps. rewrite !demote_group. destruct (has_state PS_SERVING L) eqn:Hs; simpl.
  - rewrite <- (concat_group_perm (map _ L)) by by apply demote_target_valid.
    unfold concat_by_ps, group_by_ps.
    assert (Hk : forall s, s <> PS_LASTSRV -> s <> PS_OFFLINE ->
      filter (fun t => cte_publicState t = s) (map (demote_target true) L) = filter (fun t => cte_publicState t = s) L).
    { intros s H1 H2. clear Hs HL. induction L as [|t L IH]; [done|]. simpl. rewrite !filter_cons, IH.
      unfold demote_target. simpl. case_bool_decide as E; simpl; repeat case_decide; try done; congruence. }
    assert (Hl : filter (fun t => cte_publicState t = PS_LASTSRV) (map (demote_target true) L) = []).
    { clear Hs HL Hk. induction L as [|t L IH]; [done|]. simpl. rewrite filter_cons, IH. unfold demote_target. simpl.
      case_bool_decide; simpl; by repeat case_decide. }
    rewrite (Hk PS_SERVING), (Hk PS_SYNCING), (Hk PS_WAITING), Hl by done. simpl. do 3 apply Permutation_app_head.
    clear Hs HL Hk Hl. induction L as [|t L IH]; [done|].
    simpl. destruct (decide (cte_publicState t = PS_LASTSRV)) as [E|E].
    + assert (demote_target true t = set_cte_publicState PS_OFFLINE t) as ->
        by (unfold demote_target; by rewrite bool_decide_true).
      rewrite !filter_cons, E. simpl. rewrite <- Permutation_middle, IH. done.
    + assert (demote_target true t = t) as -> by (unfold demote_target; by rewrite bool_decide_false).
      rewrite !filter_cons, (decide_False (P:=cte_publicState t = PS_LASTSRV)) by done.
      case_decide; simpl; by rewrite IH.
  - replace (map (demote_target false) L) with L; [by apply concat_group_perm|].
    symmetry. by apply map_id.
Qed.

Lemma has_serving_new L :
  valid_states L ->
  has_state PS_SERVING (concat_by_ps (demote_lastsrv (group_by_ps L))) = has_state PS_SERVING L.
Proof.
  intros HL. rewrite (has_state_perm _ _ _ (concat_demote_perm L HL)).
  generalize (has_state PS_SERVING L) at 1. intros b. unfold has_state. induction L as [|t L IH]; [done|]. simpl.
  rewrite IH by by inversion HL. f_equal. unfold demote_target.
  case_bool_decide; destruct b; simpl; case_bool_decide; simpl in *; try congruence; case_bool_decide; congruence.
Qed.

(** ** The states a target may get *)

(** The states among which the table chooses for a public and a local state,
    when all that is known of the rest of the chain is whether the new one has
    a serving target ([hs]).  The table itself is [next_state] of
    [ChainProtocol.v]. *)
Definition next_state_ok (hs : bool) (ps : PublicTargetState) (ls : LocalTargetState) (ps' : PublicTargetState) : bool :=
  match ps with
  | PS_SERVING =>
      if ls_alive ls then bool_decide (ps' = PS_SERVING)
      else bool_decide (ps' = PS_OFFLINE) || (negb hs && bool_decide (ps' = PS_LASTSRV))
  | PS_LASTSRV =>
      if ls_alive ls then bool_decide (ps' = PS_SERVING) || (hs && bool_decide (ps' = PS_OFFLINE))
      else bool_decide (ps' = if hs then PS_OFFLINE else PS_LASTSRV)
  | PS_SYNCING =>
      match ls with
      | LS_UPTODATE => bool_decide (ps' = PS_SERVING)
      | LS_ONLINE => bool_decide (ps' = PS_WAITING) || (hs && bool_decide (ps' = PS_SYNCING))
      | _ => bool_decide (ps' = PS_OFFLINE)
      end
  | PS_WAITING | PS_OFFLINE =>
      match ls with
      | LS_UPTODATE => bool_decide (ps' = PS_WAITING)
      | LS_ONLINE => bool_decide (ps' = PS_WAITING) || (hs && bool_decide (ps' = PS_SYNCING))
      | _ => bool_decide (ps' = PS_OFFLINE)
      end
  | PS_INVALID => false
  end.

Definition target_transition (hs : bool) (o n : ChainTargetInfoEx) : Prop :=
  cte_targetId n = cte_targetId o /\ cte_localState n = cte_localState o /\
  next_state_ok hs (cte_publicState o) (cte_localState o) (cte_publicState n) = true.

Lemma group_ps old s t : t ∈ group_by_ps old s -> cte_publicState t = s.
Proof. unfold group_by_ps. rewrite list_elem_of_filter. tauto. Qed.

(** The state a phase handles determines the states it may choose. *)
Lemma phase_transition choose m0 mf hs old s l :
  Forall2 (chosen choose m0 mf) (group_by_ps old s) l ->
  (forall mid o, tbp_le mid mf -> cte_publicState o = s ->
     target_transition hs o (demote_target hs (set_cte_publicState (choose mid o) o))) ->
  Forall2 (target_transition hs) (group_by_ps old s) (map (demote_target hs) l).
Proof.
  intros HF H. apply Forall2_fmap_r. eapply Forall2_impl_in; [exact HF|].
  intros o n Ho (mid & _ & Hle & ->). apply H; [done|]. by eapply group_ps.
Qed.

Lemma fold_dispatch_ext (m m' : TargetsByPs) k ps :
  (forall s, m s = m' s) ->
  forall s, fold_left (fun m ti => dispatch m ti ps) k m s = fold_left (fun m ti => dispatch m ti ps) k m' s.
Proof.
  revert m m'. induction k as [|t k IH]; intros m m' H s; simpl; [done|].
  apply IH. intros s'. unfold dispatch. by rewrite H.
Qed.

Lemma demote_ext (m m' : TargetsByPs) :
  (forall s, m s = m' s) -> forall s, demote_lastsrv m s = demote_lastsrv m' s.
Proof.
  intros H s. unfold demote_lastsrv, tbp_nonempty. rewrite H. case_match; [|apply H].
  case_decide; [done|]. rewrite (H PS_LASTSRV). by apply fold_dispatch_ext.
Qed.

Lemma chosen_valid choose m0 mf l l' :
  (forall m o, choose m o <> PS_INVALID) -> Forall2 (chosen choose m0 mf) l l' -> valid_states l'.
Proof. intros Hc. induction 1 as [|o n l l' (mid & _ & _ & ->) _ IH]; constructor; [apply Hc|done]. Qed.

(** A run of [generateNewChain] is its five phases followed by the demotion. *)
Lemma generateNewChain_phases old :
  exists mf l1 l2 l3 l4 l5,
    let L := l1 ++ l2 ++ l3 ++ l4 ++ l5 in
    phases old mf l1 l2 l3 l4 l5 /\ valid_states L /\
    tbp_nonempty mf PS_SERVING = has_state PS_SERVING L /\
    generateNewChain old = concat_by_ps (demote_lastsrv (group_by_ps L)).
Proof.
  destruct (dispatch_all_phases old) as (l1 & l2 & l3 & l4 & l5 & Hph).
  exists (dispatch_all old), l1, l2, l3, l4, l5. simpl. split; [done|]. destruct Hph as [H1 H2 H3 H4 H5 Hf]. split; [|split].
  - repeat apply Forall_app_2.
    + eapply chosen_valid; [|exact H1]. intros; unfold choose_serving; by repeat case_match.
    + eapply chosen_valid; [|exact H2]. intros; unfold choose_lastsrv; by repeat case_match.
    + eapply chosen_valid; [|exact H3]. intros; unfold choose_syncing; by repeat case_match.
    + eapply chosen_valid; [|exact H4]. intros; unfold choose_waiting; by repeat case_match.
    + eapply chosen_valid; [|exact H5]. intros; unfold choose_waiting; by repeat case_match.
  - rewrite <- group_nonempty. unfold tbp_nonempty. by rewrite Hf.
  - unfold generateNewChain, concat_by_ps. by rewrite !(demote_ext _ _ Hf).
Qed.

Ltac solve_transition :=
  intros mid o ? Hps;
  match goal with Hle : tbp_le _ _, Hhs : tbp_nonempty ?mf PS_SERVING = ?hs |- _ =>
    pose proof (tbp_le_nonempty _ _ PS_SERVING Hle) as Hsv; rewrite Hhs in Hsv; clear Hhs; destruct hs end;
  unfold target_transition, demote_target, choose_serving, choose_lastsrv, choose_syncing, choose_waiting;
  rewrite Hps; destruct (cte_localState o) eqn:?;
  repeat match goal with |- context [tbp_nonempty ?m ?s] => destruct (tbp_nonempty m s) eqn:? end;
  simpl in *;
  try match goal with H : true = true -> false = true |- _ => by specialize (H eq_refl) end; auto.

Lemma phases_transition old mf l1 l2 l3 l4 l5 hs :
  phases old mf l1 l2 l3 l4 l5 -> tbp_nonempty mf PS_SERVING = hs ->
  Forall2 (target_transition hs) (concat_by_ps (group_by_ps old))
    (map (demote_target hs) (l1 ++ l2 ++ l3 ++ l4 ++ l5)).
Proof.
  intros [H1 H2 H3 H4 H5 Hf] Hhs. unfold concat_by_ps. rewrite !map_app.
  repeat apply Forall2_app.
  - eapply phase_transition; [exact H1|]. solve_transition.
  - eapply phase_transition; [exact H2|]. solve_transition.
  - eapply phase_transition; [exact H3|]. solve_transition.
  - eapply phase_transition; [exact H4|]. solve_transition.
  - eapply phase_transition; [exact H5|]. solve_transition.
Qed.

(** Every target keeps its id and local state and gets one of these states. *)
Lemma generateNewChain_table old :
  valid_states old ->
  exists l', Forall2 (target_transition (has_state PS_SERVING (generateNewChain old))) old l' /\
             generateNewChain old ≡ₚ l'.
Proof.
  intros Hv. destruct (generateNewChain_phases old) as (mf & l1 & l2 & l3 & l4 & l5 & Hph & HL & Hs & Hgen).
  pose proof (phases_transition _ _ _ _ _ _ _ _ Hph Hs) as HF.
  pose proof (concat_demote_perm _ HL) as HP. pose proof (has_serving_new _ HL) as Hhs.
  rewrite <- Hgen in HP, Hhs. rewrite Hhs.
  destruct (Permutation_Forall2 (concat_group_perm _ Hv) HF) as (l' & HP' & HF').
  exists l'. split; [done|]. by rewrite HP, HP'.
Qed.

(** ** Order of the new chain *)

Definition ps_rank (s : PublicTargetState) : nat :=
  match s with
  | PS_SERVING => 0 | PS_LASTSRV => 1 | PS_SYNCING => 2 | PS_WAITING => 3 | PS_OFFLINE => 4 | PS_INVALID => 5
  end.

Definition rank_le (a b : ChainTargetInfoEx) : Prop :=
  (ps_rank (cte_publicState a) <= ps_rank (cte_publicState b))%nat.

Lemma homogeneous_sorted s l : Forall (fun t => cte_publicState t = s) l -> StronglySorted rank_le l.
Proof.
  induction 1 as [|t l Ht HF IH]; constructor; [done|].
  eapply Forall_impl; [exact HF|]. intros x Hx. unfold rank_le. rewrite Ht, Hx. lia.
Qed.

Lemma group_homogeneous L s : Forall (fun t => cte_publicState t = s) (group_by_ps L s).
Proof. apply Forall_forall. intros t Ht. by eapply group_ps. Qed.

Lemma demote_homogeneous L s : Forall (fun t => cte_publicState t = s) (demote_lastsrv (group_by_ps L) s).
Proof.
  rewrite demote_group. simpl. repeat case_match; simplify_eq; try apply group_homogeneous; [constructor|].
  apply Forall_app. split; [apply group_homogeneous|]. apply Forall_map, Forall_true. done.
Qed.

Lemma concat_sorted (m : TargetsByPs) :
  (forall s, Forall (fun t => cte_publicState t = s) (m s)) -> StronglySorted rank_le (concat_by_ps m).
Proof.
  intros H. unfold concat_by_ps.
  assert (Hin : forall s t, t ∈ m s -> cte_publicState t = s)
    by (intros s t Ht; by apply (proj1 (Forall_forall _ _) (H s))).
  repeat (apply StronglySorted_app_le; [by eapply homogeneous_sorted| |]);
    [by eapply homogeneous_sorted|..];
    intros x y Hx Hy; rewrite ?elem_of_app in Hy; unfold rank_le; rewrite (Hin _ _ Hx);
    destruct_or? Hy; rewrite (Hin _ _ Hy); simpl; lia.
Qed.

Lemma generateNewChain_rank_sorted old : StronglySorted rank_le (generateNewChain old).
Proof.
  destruct (generateNewChain_phases old) as (mf & l1 & l2 & l3 & l4 & l5 & _ & _ & _ & ->).
  apply concat_sorted, demote_homogeneous.
Qed.

(** ** Authority: SERVING and LASTSRV targets *)

Lemma generateNewChain_exclusive old :
  ~ (has_state PS_SERVING (generateNewChain old) = true /\ has_state PS_LASTSRV (generateNewChain old) = true).
Proof.
  destruct (generateNewChain_phases old) as (mf & l1 & l2 & l3 & l4 & l5 & _ & HL & _ & Hgen).
  rewrite Hgen, has_serving_new by done. intros [Hs Hl].
  apply has_state_spec in Hl as (t & Ht & Hps). unfold concat_by_ps in Ht.
  rewrite !elem_of_app in Ht.
  assert (Hin : forall s, t ∈ demote_lastsrv (group_by_ps (l1 ++ l2 ++ l3 ++ l4 ++ l5)) s -> s = PS_LASTSRV).
  { intros s Hs'. rewrite <- Hps. symmetry. 
    pose proof (demote_homogeneous (l1 ++ l2 ++ l3 ++ l4 ++ l5) s) as HF.
    rewrite Forall_forall in HF. by apply HF. }
  destruct_or? Ht; specialize (Hin _ Ht) as Hin'; try discriminate.
  rewrite demote_group, Hs in Ht. simpl in Ht. by apply elem_of_nil in Ht.
Qed.

Lemma generateNewChain_authority old t :
  valid_states old -> t ∈ old -> cte_publicState t = PS_SERVING \/ cte_publicState t = PS_LASTSRV ->
  (ls_alive (cte_localState t) = true -> has_state PS_SERVING (generateNewChain old) = true) /\
  (has_state PS_SERVING (generateNewChain old) = true \/ has_state PS_LASTSRV (generateNewChain old) = true).
Proof.
  intros Hv Ht Hps. destruct (generateNewChain_table old Hv) as (l' & HF & HP).
  destruct (elem_of_Forall2_l _ _ _ _ HF Ht) as (n & Hn & Hid & Hls & Hok).
  assert (Hst : forall s, cte_publicState n = s -> has_state s (generateNewChain old) = true).
  { intros s Hs. apply has_state_spec. exists n. by rewrite HP. }
  destruct (has_state PS_SERVING (generateNewChain old)) eqn:Hs; [tauto|].
  destruct (ls_alive (cte_localState t)) eqn:Hal.
  { exfalso. rewrite <- not_true_iff_false in Hs. apply Hs, Hst.
    destruct Hps as [Hps|Hps]; rewrite Hps in Hok; simpl in Hok; rewrite Hal in Hok; simpl in Hok;
      revert Hok; case_bool_decide; done. }
  split; [done|]. right.
  destruct Hps as [Hps|Hps]; rewrite Hps in Hok; simpl in Hok; rewrite Hal in Hok; simpl in Hok.
  2: { apply Hst. revert Hok. by case_bool_decide. }
  destruct (generateNewChain_phases old) as (mf & l1 & l2 & l3 & l4 & l5 & [H1 _ _ _ _ Hf] & HL & _ & Hgen).
  rewrite Hgen in Hs |- *. rewrite has_serving_new in Hs by done.
  rewrite (has_state_perm _ _ _ (concat_demote_perm _ HL)), Hs.
  replace (map (demote_target false) _) with (l1 ++ l2 ++ l3 ++ l4 ++ l5) by (symmetry; by apply map_id).
  assert (Ht1 : t ∈ group_by_ps old PS_SERVING) by (unfold group_by_ps; by apply list_elem_of_filter).
  destruct (elem_of_Forall2_l _ _ _ _ H1 Ht1) as (n1 & Hn1 & mid & _ & Hle & ->).
  rewrite <- group_nonempty.
  destruct (tbp_nonempty mid PS_LASTSRV) eqn:Hm.
  - apply (tbp_le_nonempty _ _ _ Hle) in Hm. unfold tbp_nonempty in *. by rewrite Hf in Hm.
  - rewrite group_nonempty. apply has_state_spec. eexists. split; [apply elem_of_app; left; exact Hn1|].
    unfold choose_serving. by rewrite Hal, Hm.
Qed.

End new_chain.

(** ** Counting targets by state *)

Section counting.
Implicit Types (m : TargetsByPs) (l L old : list ChainTargetInfoEx).

Definition count_state (s : PublicTargetState) l : nat := length (group_by_ps l s).

Lemma count_zero s l : count_state s l = 0%nat <-> has_state s l = false.
Proof.
  unfold count_state. rewrite <- group_nonempty. unfold tbp_nonempty. by destruct (group_by_ps l s).
Qed.

(** The chains the manager keeps: no LASTSRV target next to a SERVING one, and
    at most one target catching up. *)
Record chain_wf l : Prop := {
  wf_valid : valid_states l;
  wf_exclusive : ~ (has_state PS_SERVING l = true /\ has_state PS_LASTSRV l = true);
  wf_syncing : (count_state PS_SYNCING l <= 1)%nat
}.

Lemma fold_bound (step : TargetsByPs -> ChainTargetInfoEx -> TargetsByPs) s b l m0 :
  (forall m ti, (length (m s) <= b)%nat -> (length (step m ti s) <= b)%nat) ->
  (length (m0 s) <= b)%nat -> (length (fold_left step l m0 s) <= b)%nat.
Proof. intros Hstep. revert m0. induction l as [|t l IH]; intros m0 H0; simpl; auto. Qed.

Lemma fold_unchanged (step : TargetsByPs -> ChainTargetInfoEx -> TargetsByPs) s l m0 :
  (forall m ti, step m ti s = m s) -> fold_left step l m0 s = m0 s.
Proof. intros Hstep. revert m0. induction l as [|t l IH]; intros m0; simpl; [done|]. by rewrite IH, Hstep. Qed.

Lemma dispatch_ne m ti ps s : s <> ps -> dispatch m ti ps s = m s.
Proof. intros H. unfold dispatch. by rewrite decide_False. Qed.

Ltac step_cases := unfold step_serving, step_lastsrv, step_syncing, step_waiting, step_offline, dispatch;
  repeat case_match; simplify_eq; try done.

Lemma step_serving_unchanged m ti s : s = PS_SYNCING \/ s = PS_WAITING -> step_serving m ti s = m s.
Proof. intros [->| ->]; step_cases. Qed.
Lemma step_lastsrv_unchanged m ti s : s = PS_SYNCING \/ s = PS_WAITING -> step_lastsrv m ti s = m s.
Proof. intros [->| ->]; step_cases. Qed.
Lemma step_syncing_unchanged m ti : step_syncing m ti PS_LASTSRV = m PS_LASTSRV.
Proof. step_cases. Qed.
Lemma step_waiting_unchanged m ti s : s = PS_SERVING \/ s = PS_LASTSRV -> step_waiting m ti s = m s.
Proof. intros [->| ->]; step_cases. Qed.
Lemma step_offline_unchanged m ti s : s = PS_SERVING \/ s = PS_LASTSRV -> step_offline m ti s = m s.
Proof. intros [->| ->]; step_cases. Qed.

Lemma step_waiting_syncing m ti :
  (length (m PS_SYNCING) <= 1)%nat -> (length (step_waiting m ti PS_SYNCING) <= 1)%nat.
Proof.
  intros H. unfold step_waiting, dispatch, tbp_nonempty.
  destruct (m PS_SYNCING) as [|x [|y k]] eqn:E; simpl in *; repeat case_match; simpl in *; rewrite ?E; simpl; try lia; done.
Qed.
Lemma step_offline_syncing m ti :
  (length (m PS_SYNCING) <= 1)%nat -> (length (step_offline m ti PS_SYNCING) <= 1)%nat.
Proof. apply step_waiting_syncing. Qed.

Lemma step_serving_lastsrv m ti :
  (length (m PS_LASTSRV) <= 1)%nat -> (length (step_serving m ti PS_LASTSRV) <= 1)%nat.
Proof.
  intros H. unfold step_serving, dispatch, tbp_nonempty.
  destruct (m PS_LASTSRV) as [|x [|y k]] eqn:E; simpl in *; repeat case_match; simpl in *; rewrite ?E; simpl; try lia; done.
Qed.

Lemma dispatch_all_syncing old :
  (count_state PS_SYNCING old <= 1)%nat -> (length (dispatch_all old PS_SYNCING) <= 1)%nat.
Proof.
  intros Hc. unfold dispatch_all.
  apply fold_bound; [apply step_offline_syncing|]. apply fold_bound; [apply step_waiting_syncing|].
  set (m2 := fold_left step_lastsrv _ _).
  assert (E2 : m2 PS_SYNCING = []).
  { unfold m2. rewrite fold_unchanged by (intros; apply step_lastsrv_unchanged; auto).
    by rewrite fold_unchanged by (intros; apply step_serving_unchanged; auto). }
  unfold count_state in Hc. destruct (group_by_ps old PS_SYNCING) as [|x [|y k]]; simpl in *; [rewrite E2; simpl; lia| |lia].
  unfold step_syncing, dispatch. repeat case_match; simpl; rewrite ?E2; simpl; try lia; done.
Qed.

Lemma dispatch_all_lastsrv old :
  ~ (has_state PS_SERVING old = true /\ has_state PS_LASTSRV old = true) ->
  (count_state PS_LASTSRV old <= 1)%nat -> (length (dispatch_all old PS_LASTSRV) <= 1)%nat.
Proof.
  intros Hex Hc. unfold dispatch_all.
  rewrite fold_unchanged by (intros; apply step_offline_unchanged; auto).
  rewrite fold_unchanged by (intros; apply step_waiting_unchanged; auto).
  rewrite fold_unchanged by (intros; apply step_syncing_unchanged).
  destruct (has_state PS_LASTSRV old) eqn:Hl.
  - assert (Hs : has_state PS_SERVING old = false) by (destruct (has_state PS_SERVING old); tauto).
    apply count_zero in Hs. unfold count_state in *. apply nil_length_inv in Hs. rewrite Hs. simpl.
    destruct (group_by_ps old PS_LASTSRV) as [|x [|y k]]; simpl in *; [lia| |lia].
    unfold step_lastsrv, dispatch, tbp_empty. simpl. repeat case_match; simpl; done || lia.
  - apply count_zero, nil_length_inv in Hl. rewrite Hl. simpl.
    apply fold_bound; [apply step_serving_lastsrv|]. simpl. lia.
Qed.

Lemma demote_le m s : s <> PS_OFFLINE -> (length (demote_lastsrv m s) <= length (m s))%nat.
Proof.
  intros Hs. unfold demote_lastsrv. case_match; [|lia]. case_decide; [simpl; lia|].
  rewrite fold_unchanged; [lia|]. intros. by apply dispatch_ne.
Qed.

(** The groups of the new chain are the groups the run builds. *)
Lemma group_concat (m : TargetsByPs) s :
  s <> PS_INVALID -> (forall s, Forall (fun t => cte_publicState t = s) (m s)) ->
  group_by_ps (concat_by_ps m) s = m s.
Proof.
  intros Hs H. unfold group_by_ps, concat_by_ps. rewrite !filter_app.
  assert (Hy : forall s', s' = s -> filter (fun t => cte_publicState t = s) (m s') = m s).
  { intros s' ->. clear -H. specialize (H s). induction H as [|t k Ht HF IH]; [done|].
    by rewrite filter_cons, decide_True, IH. }
  assert (Hn : forall s', s' <> s -> filter (fun t => cte_publicState t = s) (m s') = []).
  { intros s' Hne. specialize (H s'). clear -H Hne. induction H as [|t k Ht HF IH]; [done|].
    rewrite filter_cons, decide_False, IH by congruence. done. }
  destruct s; try done; rewrite (Hy _ eq_refl); rewrite ?Hn by done; simpl; by rewrite ?app_nil_r.
Qed.

Lemma generateNewChain_group old s :
  s <> PS_INVALID -> group_by_ps (generateNewChain old) s = demote_lastsrv (dispatch_all old) s.
Proof.
  intros Hs. destruct (dispatch_all_phases old) as (l1 & l2 & l3 & l4 & l5 & Hph).
  unfold generateNewChain. apply group_concat; [done|]. intros s'.
  rewrite (demote_ext _ _ (ph_final _ _ _ _ _ _ _ Hph)). apply demote_homogeneous.
Qed.

Lemma generateNewChain_valid old : valid_states (generateNewChain old).
Proof.
  destruct (generateNewChain_phases old) as (mf & l1 & l2 & l3 & l4 & l5 & _ & HL & _ & ->).
  unfold valid_states. rewrite (concat_demote_perm _ HL). by apply demote_target_valid.
Qed.

Lemma generateNewChain_chain_wf old : chain_wf old -> chain_wf (generateNewChain old).
Proof.
  intros [Hv Hex Hs]. split.
  - apply generateNewChain_valid.
  - apply generateNewChain_exclusive.
  - unfold count_state. rewrite generateNewChain_group by done.
    etransitivity; [by apply demote_le|]. by apply dispatch_all_syncing.
Qed.

Lemma generateNewChain_one_lastsrv old :
  chain_wf old -> (count_state PS_LASTSRV old <= 1)%nat -> (count_state PS_LASTSRV (generateNewChain old) <= 1)%nat.
Proof.
  intros [Hv Hex Hs] Hl. unfold count_state. rewrite generateNewChain_group by done.
  etransitivity; [by apply demote_le|]. by apply dispatch_all_lastsrv.
Qed.
End counting.

(** ** Stability: with unchanged local states one round is enough *)

Section stability.
Implicit Types (m : TargetsByPs) (l old : list ChainTargetInfoEx).

Definition alive (t : ChainTargetInfoEx) : Prop := ls_alive (cte_localState t) = true.
Definition dead (t : ChainTargetInfoEx) : Prop := ls_alive (cte_localState t) = false.
Definition online (t : ChainTargetInfoEx) : Prop := cte_localState t = LS_ONLINE.

(** A map of groups in which no target has a reason to move. *)
Record stable_map m : Prop := {
  sm_serving : Forall alive (m PS_SERVING);
  sm_lastsrv : Forall dead (m PS_LASTSRV);
  sm_syncing : Forall online (m PS_SYNCING);
  sm_syncing_from : tbp_nonempty m PS_SYNCING = true -> tbp_nonempty m PS_SERVING = true;
  sm_waiting : Forall alive (m PS_WAITING);
  sm_waiting_for : tbp_nonempty m PS_SERVING = true -> tbp_nonempty m PS_SYNCING = false ->
    Forall (fun t => ~ online t) (m PS_WAITING);
  sm_offline : Forall dead (m PS_OFFLINE)
}.

Lemma nonempty_dispatch m ti ps s :
  tbp_nonempty (dispatch m ti ps) s = if decide (s = ps) then true else tbp_nonempty m s.
Proof. unfold tbp_nonempty, dispatch. case_decide; [by destruct (m s)|done]. Qed.

Lemma Forall_dispatch (P : ChainTargetInfoEx -> Prop) m ti ps s :
  Forall P (m s) -> (s = ps -> P (set_cte_publicState ps ti)) -> Forall P (dispatch m ti ps s).
Proof. intros HF Ht. unfold dispatch. case_decide; [|done]. apply Forall_app. auto. Qed.

Ltac stable_step m ti :=
  let El := fresh "El" in
  intros [? ? ? ? ? ? ?];
  unfold step_serving, step_lastsrv, step_syncing, step_waiting, step_offline;
  destruct (tbp_nonempty m PS_SERVING) eqn:?; destruct (tbp_nonempty m PS_SYNCING) eqn:?;
  destruct (tbp_nonempty m PS_LASTSRV) eqn:?; destruct (cte_localState ti) eqn:El; simpl;
  split; rewrite ?nonempty_dispatch; simpl; intros; try congruence;
  try apply Forall_dispatch; unfold alive, dead, online in *; simpl; rewrite ?El; auto;
  repeat match goal with H : true = true -> _ |- _ => specialize (H eq_refl) end; try congruence;
  match goal with E : m PS_WAITING = [] |- _ => by rewrite E end.

Lemma stable_serving m ti : m PS_WAITING = [] -> stable_map m -> stable_map (step_serving m ti).
Proof. intros E. stable_step m ti. Qed.

Lemma stable_waiting m ti : stable_map m -> stable_map (step_waiting m ti).
Proof. stable_step m ti. Qed.

Lemma stable_lastsrv m ti :
  m PS_WAITING = [] -> tbp_nonempty m PS_SERVING = false -> stable_map m -> stable_map (step_lastsrv m ti).
Proof. intros E1 E2. stable_step m ti. Qed.

Lemma stable_syncing m ti : m PS_WAITING = [] -> stable_map m -> stable_map (step_syncing m ti).
Proof. intros E. stable_step m ti. Qed.

Lemma fold_inv (P : TargetsByPs -> Prop) (step : TargetsByPs -> ChainTargetInfoEx -> TargetsByPs) l m0 :
  (forall m ti, P m -> P (step m ti)) -> P m0 -> P (fold_left step l m0).
Proof. intros Hstep. revert m0. induction l as [|t l IH]; intros m0 H0; simpl; auto. Qed.

Lemma stable_empty : stable_map tbp_empty.
Proof. split; simpl; try constructor; done. Qed.

Lemma dispatch_all_stable old :
  chain_wf old -> (count_state PS_LASTSRV old <= 1)%nat -> stable_map (dispatch_all old).
Proof.
  intros [Hv Hex Hs] Hl. unfold dispatch_all.
  apply fold_inv; [apply stable_waiting|]. apply fold_inv; [apply stable_waiting|].
  set (m1 := fold_left step_serving _ _).
  assert (W1 : m1 PS_WAITING = [])
    by (unfold m1; by rewrite fold_unchanged by (intros; apply step_serving_unchanged; auto)).
  assert (S1 : stable_map m1).
  { apply (fold_inv (fun m => m PS_WAITING = [] /\ stable_map m)); [|split; [done|apply stable_empty]].
    intros m ti [H1 H2]. split; [|by apply stable_serving]. rewrite step_serving_unchanged; auto. }
  set (m2 := fold_left step_lastsrv _ _).
  assert (W2 : m2 PS_WAITING = [])
    by (unfold m2; by rewrite fold_unchanged by (intros; apply step_lastsrv_unchanged; auto)).
  assert (S2 : stable_map m2).
  { unfold m2. unfold count_state in *. destruct (group_by_ps old PS_LASTSRV) as [|t [|u k]] eqn:E; simpl in *; [done| |lia].
    apply stable_lastsrv; [done| |done]. unfold m1.
    assert (Hns : group_by_ps old PS_SERVING = []).
    { apply nil_length_inv, count_zero, not_true_is_false. intros Hsv. apply Hex. split; [done|].
      rewrite <- group_nonempty. unfold tbp_nonempty. by rewrite E. }
    by rewrite Hns. }
  unfold count_state in Hs. destruct (group_by_ps old PS_SYNCING) as [|t [|u k]]; simpl in *; [done| |lia].
  by apply stable_syncing.
Qed.

Lemma stable_map_ext m m' : (forall s, s <> PS_INVALID -> m s = m' s) -> stable_map m -> stable_map m'.
Proof.
  intros E [H1 H2 H3 H4 H5 H6 H7]. unfold tbp_nonempty in *.
  split; unfold tbp_nonempty; rewrite <- ?E by done; auto.
Qed.

Lemma demote_stable m : stable_map m -> stable_map (demote_lastsrv m).
Proof.
  intros Hm. pose proof Hm as [H1 H2 H3 H4 H5 H6 H7]. unfold demote_lastsrv.
  destruct (tbp_nonempty m PS_SERVING) eqn:Es; [|exact Hm]. clear Hm.
  set (m' := fold_left _ _ _).
  assert (Hne : forall s, s <> PS_OFFLINE -> m' s = m s)
    by (intros s Hs; unfold m'; apply fold_unchanged; intros; by apply dispatch_ne).
  assert (Hoff : Forall dead (m' PS_OFFLINE)).
  { unfold m'. clear -H2 H7. revert H7. generalize m at 1 3 as m0. induction H2 as [|t k Ht HF IH]; intros m0 H7; simpl; [done|].
    apply IH. by apply Forall_dispatch. }
  split; unfold tbp_nonempty in *; simpl; rewrite ?Hne by done; auto.
Qed.

(** A loop that sends every target back to its own group. *)
Lemma fold_const (step : TargetsByPs -> ChainTargetInfoEx -> TargetsByPs) s l m0 :
  Forall (fun t => cte_publicState t = s) l ->
  (forall m ti, ti ∈ l -> (forall s', s' <> s -> m s' = m0 s') -> step m ti = dispatch m ti s) ->
  forall s', fold_left step l m0 s' = if decide (s' = s) then m0 s ++ l else m0 s'.
Proof.
  revert m0. induction l as [|t l IH]; intros m0 HF Hstep s'.
  - simpl. case_decide; subst; [by rewrite app_nil_r|done].
  - apply Forall_cons in HF as [Ht HF]. simpl.
    rewrite (Hstep m0 t) by (try left; done). rewrite IH; [|done|].
    + unfold dispatch. repeat case_decide; simplify_eq; try done. rewrite <- app_assoc. simpl. by destruct t.
    + intros m ti Hti Hm. apply Hstep; [by right|]. intros s'' Hs. rewrite Hm by done. by apply dispatch_ne.
Qed.

Lemma stable_fixpoint l :
  concat_by_ps (group_by_ps l) = l -> stable_map (group_by_ps l) ->
  (has_state PS_SERVING l = true -> has_state PS_LASTSRV l = false) -> generateNewChain l = l.
Proof.
  intros Hc [H1 H2 H3 H4 H5 H6 H7] Hex. rewrite !group_nonempty in *.
  rewrite Forall_forall in H1, H2, H3, H5, H7. unfold alive, dead, online in *.
  unfold generateNewChain, dispatch_all.
  set (m1 := fold_left step_serving _ _).
  assert (E1 : forall s, m1 s = if decide (s = PS_SERVING) then group_by_ps l PS_SERVING else []).
  { intros s. unfold m1. rewrite (fold_const _ PS_SERVING); [done|apply group_homogeneous|].
    intros m ti Hti _. unfold step_serving. by rewrite H1. }
  set (m2 := fold_left step_lastsrv _ _).
  assert (E2 : forall s, m2 s = if decide (s = PS_LASTSRV) then group_by_ps l PS_LASTSRV else m1 s).
  { intros s. unfold m2. rewrite (fold_const _ PS_LASTSRV), E1; [by repeat case_decide|apply group_homogeneous|].
    intros m ti Hti Hm. unfold step_lastsrv. rewrite (H2 _ Hti).
    assert (Hns : tbp_nonempty m PS_SERVING = false); [|by rewrite Hns].
    unfold tbp_nonempty. rewrite Hm, E1 by done. simpl. apply not_true_is_false. intros Hsv.
    change (tbp_nonempty (group_by_ps l) PS_SERVING = true) in Hsv. rewrite group_nonempty in Hsv.
    apply Hex in Hsv. rewrite <- group_nonempty in Hsv. unfold tbp_nonempty in Hsv.
    destruct (group_by_ps l PS_LASTSRV); [by apply elem_of_nil in Hti|done]. }
  set (m3 := fold_left step_syncing _ _).
  assert (E3 : forall s, m3 s = if decide (s = PS_SYNCING) then group_by_ps l PS_SYNCING else m2 s).
  { intros s. unfold m3. rewrite (fold_const _ PS_SYNCING), E2, E1; [by repeat case_decide|apply group_homogeneous|].
    intros m ti Hti Hm. unfold step_syncing. rewrite (H3 _ Hti).
    assert (Hsv : tbp_nonempty m PS_SERVING = true); [|by rewrite Hsv].
    unfold tbp_nonempty. rewrite Hm, E2, E1 by done. simpl.
    change (tbp_nonempty (group_by_ps l) PS_SERVING = true). rewrite group_nonempty. apply H4.
    apply has_state_spec. exists ti. apply list_elem_of_filter in Hti. tauto. }
  assert (Hsv3 : tbp_nonempty m3 PS_SERVING = has_state PS_SERVING l).
  { rewrite <- group_nonempty. unfold tbp_nonempty. by rewrite E3, E2, E1. }
  assert (Hsy3 : tbp_nonempty m3 PS_SYNCING = has_state PS_SYNCING l).
  { rewrite <- group_nonempty. unfold tbp_nonempty. by rewrite E3. }
  set (m4 := fold_left step_waiting _ _).
  assert (E4 : forall s, m4 s = if decide (s = PS_WAITING) then group_by_ps l PS_WAITING else m3 s).
  { intros s. unfold m4. rewrite (fold_const _ PS_WAITING), E3, E2, E1; [by repeat case_decide|apply group_homogeneous|].
    intros m ti Hti Hm. unfold step_waiting.
    assert (tbp_nonempty m PS_SERVING = has_state PS_SERVING l /\ tbp_nonempty m PS_SYNCING = has_state PS_SYNCING l)
      as [-> ->] by (rewrite <- Hsv3, <- Hsy3; unfold tbp_nonempty; by rewrite !Hm).
    rewrite (H5 _ Hti). case_match; [|done].
    repeat match goal with H : _ && _ = true |- _ => apply andb_true_iff in H as [H ?] end.
    rewrite negb_true_iff in *. specialize (H6 H ltac:(done)). rewrite Forall_forall in H6.
    revert H0. case_bool_decide; [|done]. by destruct (H6 _ Hti). }
  set (m5 := fold_left step_offline _ _).
  assert (E5 : forall s, s <> PS_INVALID -> m5 s = group_by_ps l s).
  { intros s Hs. unfold m5. rewrite (fold_const _ PS_OFFLINE);
      [destruct s; try done; simpl; by rewrite ?E4, ?E3, ?E2, ?E1|apply group_homogeneous|].
    intros m ti Hti Hm. unfold step_offline. rewrite (H7 _ Hti), bool_decide_false; [by rewrite andb_false_r|].
    intros Ho. specialize (H7 _ Hti). by rewrite Ho in H7. }
  unfold demote_lastsrv.
  destruct (tbp_nonempty m5 PS_SERVING) eqn:Hsv.
  - assert (Hl : m5 PS_LASTSRV = []).
    { rewrite E5 by done. apply nil_length_inv, count_zero, Hex. rewrite <- group_nonempty.
      unfold tbp_nonempty in *. by rewrite E5 in Hsv. }
    rewrite Hl. simpl. etransitivity; [|exact Hc]. unfold concat_by_ps. simpl. rewrite !E5 by done.
    by rewrite E5 in Hl by done; rewrite Hl.
  - etransitivity; [|exact Hc]. unfold concat_by_ps. by rewrite !E5.
Qed.

Lemma generateNewChain_stable old :
  chain_wf old -> (count_state PS_LASTSRV old <= 1)%nat ->
  generateNewChain (generateNewChain old) = generateNewChain old.
Proof.
  intros Hwf Hl. apply stable_fixpoint.
  - unfold generateNewChain at 2, concat_by_ps. by rewrite !generateNewChain_group.
  - eapply stable_map_ext; [|apply demote_stable, dispatch_all_stable; eassumption].
    intros s Hs. by rewrite generateNewChain_group.
  - intros Hs. pose proof (generateNewChain_exclusive old) as Hex.
    destruct (has_state PS_LASTSRV _); tauto.
Qed.
End stability.
