(* ===== verification/ChainProtocol.v ===== *)
(** * What the chain state machine guarantees

    The administrator's rotations and the shutdown of [UpdateChain.v], the
    life of a chain as a step relation that interleaves them with the manager's
    periodic update and the services' reports, and the theorems about both:
    the transition table, the order of a chain, the fixpoint of an update, and
    the survival of every committed write. *)

From stdpp Require Import base list gmap sets sorting.
From Stdlib Require Import ZArith Lia.
From S2P Require Import Prelude MgmtdTypes UpdateChain.

(** ** The transition table *)

Section table.
Implicit Types (m : TargetsByPs) (o : ChainTargetInfoEx) (l g pre old : list ChainTargetInfoEx).

Definition is_alive o : bool := ls_alive (cte_localState o).
Definition is_online o : bool := bool_decide (cte_localState o = LS_ONLINE).
Definition is_uptodate o : bool := bool_decide (cte_localState o = LS_UPTODATE).

(** Some target of the chain in state [s] is reported as [p]. *)
Definition reported (s : PublicTargetState) (p : ChainTargetInfoEx -> bool) old : bool :=
  existsb p (group_by_ps old s).

(** A serving or last serving target is alive. *)
Definition authority_alive old : bool := reported PS_SERVING is_alive old || reported PS_LASTSRV is_alive old.

(** The new chain serves: an authority is alive, or a target caught up. *)
Definition serves old : bool := authority_alive old || reported PS_SYNCING is_uptodate old.

(** Among the syncing targets [g], an online one follows a source: an alive
    authority ([src]) or a target that caught up before it. *)
Fixpoint online_after (src : bool) g : bool :=
  match g with
  | [] => false
  | o :: g' => src && is_online o || online_after (src || is_uptodate o) g'
  end.

(** A target that is syncing goes on syncing. *)
Definition keeps_syncing old : bool := online_after (authority_alive old) (group_by_ps old PS_SYNCING).

(** The row of a target: its next public state, given the chain and the
    targets in its own state that precede it. *)
Definition next_state old pre o : PublicTargetState :=
  match cte_publicState o, cte_localState o with
  | PS_SERVING, (LS_ONLINE | LS_UPTODATE) => PS_SERVING
  | PS_SERVING, _ => if serves old then PS_OFFLINE else match pre with [] => PS_LASTSRV | _ => PS_OFFLINE end
  | PS_LASTSRV, ls =>
      if negb (serves old) then PS_LASTSRV
      else if negb (reported PS_SERVING is_alive old) && negb (existsb is_alive pre) && ls_alive ls
           then PS_SERVING else PS_OFFLINE
  | PS_SYNCING, LS_UPTODATE => PS_SERVING
  | PS_SYNCING, LS_ONLINE => if authority_alive old || existsb is_uptodate pre then PS_SYNCING else PS_WAITING
  | (PS_WAITING | PS_OFFLINE), LS_UPTODATE => PS_WAITING
  | PS_WAITING, LS_ONLINE =>
      if serves old && negb (keeps_syncing old || existsb is_online pre) then PS_SYNCING else PS_WAITING
  | PS_OFFLINE, LS_ONLINE =>
      if serves old && negb (keeps_syncing old || reported PS_WAITING is_online old || existsb is_online pre)
      then PS_SYNCING else PS_WAITING
  | (PS_SYNCING | PS_WAITING | PS_OFFLINE), _ => PS_OFFLINE
  | PS_INVALID, _ => PS_INVALID
  end.

(** The targets of one state, in their order, each under its next state. *)
Fixpoint next_group old pre g : list ChainTargetInfoEx :=
  match g with
  | [] => []
  | o :: g' => set_cte_publicState (next_state old pre o) o :: next_group old (pre ++ [o]) g'
  end.

Definition next_targets old : list ChainTargetInfoEx :=
  concat (map (fun s => next_group old [] (group_by_ps old s))
    [PS_SERVING; PS_LASTSRV; PS_SYNCING; PS_WAITING; PS_OFFLINE]).

(** The targets a loop places, each under the state chosen for it. *)
Fixpoint table_walk (choose : TargetsByPs -> ChainTargetInfoEx -> PublicTargetState) m l : list ChainTargetInfoEx :=
  match l with
  | [] => []
  | o :: l' => set_cte_publicState (choose m o) o :: table_walk choose (dispatch m o (choose m o)) l'
  end.

Lemma fold_walk choose step l m :
  (forall m o, step m o = dispatch m o (choose m o)) ->
  forall s, fold_left step l m s = m s ++ group_by_ps (table_walk choose m l) s.
Proof.
  intros Hs. revert m. induction l as [|o l IH]; intros m s; simpl; [by rewrite app_nil_r|].
  rewrite IH, Hs. unfold group_by_ps. rewrite filter_cons. unfold dispatch. simpl.
  repeat case_decide; try congruence. by rewrite <- app_assoc.
Qed.

(** A loop over the targets of one state follows the table, when [Inv] says
    what its choices need of the map, and ends in a map [Inv] describes. *)
Lemma walk_group (Inv : list ChainTargetInfoEx -> TargetsByPs -> Prop) choose step old s :
  (forall m o, step m o = dispatch m o (choose m o)) ->
  (forall pre o m, Inv pre m -> o ∈ group_by_ps old s -> pre ⊆ group_by_ps old s -> cte_publicState o = s ->
     Inv (pre ++ [o]) (dispatch m o (choose m o)) /\
     demote_target (serves old) (set_cte_publicState (choose m o) o) = set_cte_publicState (next_state old pre o) o) ->
  forall m, Inv [] m ->
    Inv (group_by_ps old s) (fold_left step (group_by_ps old s) m) /\
    map (demote_target (serves old)) (table_walk choose m (group_by_ps old s)) = next_group old [] (group_by_ps old s).
Proof.
  intros Hst Hstep.
  enough (H : forall g pre m, Inv pre m -> pre ++ g = group_by_ps old s ->
    Inv (pre ++ g) (fold_left step g m) /\
    map (demote_target (serves old)) (table_walk choose m g) = next_group old pre g) by (intros m Hm; by apply (H _ [])).
  induction g as [|o g IH]; intros pre m Hm Hg; simpl; [by rewrite app_nil_r|].
  assert (Ho : o ∈ group_by_ps old s) by (rewrite <- Hg; set_solver).
  destruct (Hstep pre o m Hm Ho) as [Hm' Heq]; [rewrite <- Hg; set_solver|by eapply group_ps|].
  destruct (IH (pre ++ [o]) (step m o)) as [H1 H2]; [by rewrite Hst|by rewrite <- app_assoc|].
  rewrite <- app_assoc in H1. split; [exact H1|]. rewrite Heq. f_equal. by rewrite Hst in H2.
Qed.

Lemma walk_valid choose m l : (forall m o, choose m o <> PS_INVALID) -> valid_states (table_walk choose m l).
Proof. intros Hc. revert m. induction l as [|o l IH]; intros m; constructor; [apply Hc|apply IH]. Qed.

Lemma online_after_snoc src g o :
  online_after src (g ++ [o]) = online_after src g || (src || existsb is_uptodate g) && is_online o.
Proof.
  revert src. induction g as [|x g IH]; intros src; simpl; [by rewrite !orb_false_r|].
  rewrite IH. by destruct src, (is_online x), (is_uptodate x), (existsb is_uptodate g), (is_online o), (online_after _ g).
Qed.

Lemma reported_intro s p old o : o ∈ group_by_ps old s -> p o = true -> reported s p old = true.
Proof. intros Ho Hp. apply existsb_exists. exists o. by rewrite <- list_elem_of_In. Qed.

Lemma existsb_sub (p : ChainTargetInfoEx -> bool) l l' : l ⊆ l' -> existsb p l = true -> existsb p l' = true.
Proof.
  rewrite !existsb_exists. intros Hs (x & Hx & Hp). exists x. split; [|done].
  apply list_elem_of_In, Hs. by apply list_elem_of_In.
Qed.

(** What the loops know of the map, after the targets [pre] of their state. *)
Definition inv_serving pre m : Prop :=
  tbp_nonempty m PS_SERVING = existsb is_alive pre /\
  tbp_nonempty m PS_LASTSRV = existsb (fun o => negb (is_alive o)) pre /\ tbp_nonempty m PS_SYNCING = false.
Definition inv_lastsrv old pre m : Prop :=
  tbp_nonempty m PS_SERVING = reported PS_SERVING is_alive old || existsb is_alive pre /\
  tbp_nonempty m PS_SYNCING = false.
Definition inv_syncing old pre m : Prop :=
  tbp_nonempty m PS_SERVING = authority_alive old || existsb is_uptodate pre /\
  tbp_nonempty m PS_SYNCING = online_after (authority_alive old) pre.
Definition inv_waiting old (b : bool) pre m : Prop :=
  tbp_nonempty m PS_SERVING = serves old /\
  tbp_nonempty m PS_SYNCING = keeps_syncing old || serves old && (b || existsb is_online pre).

Lemma alive_authority old s o :
  s = PS_SERVING \/ s = PS_LASTSRV -> o ∈ group_by_ps old s -> is_alive o = true -> serves old = true.
Proof.
  intros Hs Ho Ha. pose proof (reported_intro s is_alive old o Ho Ha) as H.
  unfold serves, authority_alive. destruct Hs as [-> | ->]; rewrite H; by rewrite ?orb_true_r.
Qed.

Lemma serving_row old pre o m :
  inv_serving pre m -> o ∈ group_by_ps old PS_SERVING -> pre ⊆ group_by_ps old PS_SERVING -> cte_publicState o = PS_SERVING ->
  inv_serving (pre ++ [o]) (dispatch m o (choose_serving m o)) /\
  demote_target (serves old) (set_cte_publicState (choose_serving m o) o) = set_cte_publicState (next_state old pre o) o.
Proof.
  intros (H1 & H2 & H3) Ho Hpre Hps. unfold inv_serving. rewrite !nonempty_dispatch, !existsb_app, H1, H2, H3. simpl.
  pose proof (alive_authority old PS_SERVING) as Hal.
  unfold choose_serving, next_state, demote_target. rewrite Hps, H2.
  assert (Hd : serves old = false -> existsb (fun o => negb (is_alive o)) pre = match pre with [] => false | _ => true end).
  { intros Hs. destruct pre as [|x pre]; [done|]. simpl. destruct (is_alive x) eqn:Hx; [|done].
    rewrite (Hal x) in Hs; [done|by left|set_solver|done]. }
  destruct (is_alive o) eqn:Ha; unfold is_alive in Ha; rewrite Ha; simpl.
  - rewrite !orb_true_r, !orb_false_r. split; [done|]. rewrite andb_false_r. by destruct (cte_localState o).
  - replace (match cte_localState o with LS_ONLINE | LS_UPTODATE => PS_SERVING
      | _ => if serves old then PS_OFFLINE else match pre with [] => PS_LASTSRV | _ :: _ => PS_OFFLINE end end)
      with (if serves old then PS_OFFLINE else match pre with [] => PS_LASTSRV | _ :: _ => PS_OFFLINE end)
      by by destruct (cte_localState o).
    destruct (serves old); [|rewrite Hd by done; destruct pre; simpl; rewrite ?orb_true_r, ?orb_false_r; auto].
    destruct (existsb (fun o => negb (is_alive o)) pre); simpl; rewrite ?orb_true_r, ?orb_false_r; auto.
Qed.

Lemma lastsrv_row old pre o m :
  inv_lastsrv old pre m -> o ∈ group_by_ps old PS_LASTSRV -> pre ⊆ group_by_ps old PS_LASTSRV -> cte_publicState o = PS_LASTSRV ->
  inv_lastsrv old (pre ++ [o]) (dispatch m o (choose_lastsrv m o)) /\
  demote_target (serves old) (set_cte_publicState (choose_lastsrv m o) o) = set_cte_publicState (next_state old pre o) o.
Proof.
  intros (H1 & H2) Ho Hpre Hps. unfold inv_lastsrv. rewrite !nonempty_dispatch, !existsb_app, H1, H2. simpl.
  pose proof (alive_authority old PS_LASTSRV o (or_intror eq_refl) Ho) as Hal.
  assert (Hs : reported PS_SERVING is_alive old = true -> serves old = true)
    by (intros E; unfold serves, authority_alive; by rewrite E).
  assert (Hp : existsb is_alive pre = true -> serves old = true).
  { intros E. unfold serves, authority_alive, reported. rewrite (existsb_sub _ _ _ Hpre E). by rewrite orb_true_r. }
  unfold choose_lastsrv, next_state, demote_target. rewrite Hps, H1. unfold is_alive in *.
  destruct (reported PS_SERVING _ old); [rewrite Hs by done; simpl; auto|].
  destruct (existsb _ pre); [rewrite Hp by done; simpl; auto|]. simpl.
  destruct (ls_alive (cte_localState o)); [rewrite Hal by done; simpl; auto|]. simpl.
  destruct (serves old); simpl; auto.
Qed.

Lemma syncing_row old pre o m :
  inv_syncing old pre m -> cte_publicState o = PS_SYNCING ->
  inv_syncing old (pre ++ [o]) (dispatch m o (choose_syncing m o)) /\
  demote_target (serves old) (set_cte_publicState (choose_syncing m o) o) = set_cte_publicState (next_state old pre o) o.
Proof.
  intros (H1 & H2) Hps. unfold inv_syncing. rewrite !nonempty_dispatch, !existsb_app, online_after_snoc, H1, H2. simpl.
  unfold choose_syncing, next_state, demote_target, is_uptodate, is_online. rewrite Hps, H1.
  destruct (cte_localState o), (authority_alive old), (existsb _ pre), (online_after _ pre), (serves old); simpl; auto.
Qed.

Lemma waiting_row old s b pre o m :
  s = PS_WAITING /\ b = false \/ s = PS_OFFLINE /\ b = reported PS_WAITING is_online old ->
  inv_waiting old b pre m -> cte_publicState o = s ->
  inv_waiting old b (pre ++ [o]) (dispatch m o (choose_waiting m o)) /\
  demote_target (serves old) (set_cte_publicState (choose_waiting m o) o) = set_cte_publicState (next_state old pre o) o.
Proof.
  intros Hs (H1 & H2) Hps. unfold inv_waiting. rewrite !nonempty_dispatch, !existsb_app, H1, H2. simpl.
  unfold choose_waiting, next_state, demote_target, is_online. rewrite Hps, H1, H2.
  destruct Hs as [[-> ->]|[-> ->]]; fold is_online;
  [|generalize (reported PS_WAITING is_online old)]; intros;
  destruct (cte_localState o), (serves old), (keeps_syncing old), (existsb _ pre); simpl; auto;
  try match goal with b : bool |- _ => destruct b; simpl; auto end.
Qed.

(** One loop: the targets it places are the rows of the table. *)
Lemma phase_table (Inv : list ChainTargetInfoEx -> TargetsByPs -> Prop) choose step old s m :
  (forall m o, step m o = dispatch m o (choose m o)) -> (forall m o, choose m o <> PS_INVALID) ->
  (forall pre o m, Inv pre m -> o ∈ group_by_ps old s -> pre ⊆ group_by_ps old s -> cte_publicState o = s ->
     Inv (pre ++ [o]) (dispatch m o (choose m o)) /\
     demote_target (serves old) (set_cte_publicState (choose m o) o) = set_cte_publicState (next_state old pre o) o) ->
  Inv [] m ->
  let m' := fold_left step (group_by_ps old s) m in
  exists w, (forall s, m' s = m s ++ group_by_ps w s) /\ valid_states w /\
    map (demote_target (serves old)) w = next_group old [] (group_by_ps old s) /\ Inv (group_by_ps old s) m'.
Proof.
  intros Hst Hc Hstep Hm. destruct (walk_group Inv choose step old s Hst Hstep m Hm) as [HI HW].
  exists (table_walk choose m (group_by_ps old s)). split_and!; [by apply fold_walk|by apply walk_valid|done..].
Qed.

(** A run of [generateNewChain] places the targets as the table says. *)
Lemma dispatch_all_table old :
  exists L, (forall s, dispatch_all old s = group_by_ps L s) /\ valid_states L /\
    has_state PS_SERVING L = serves old /\ map (demote_target (serves old)) L = next_targets old.
Proof.
  unfold dispatch_all.
  destruct (phase_table inv_serving choose_serving step_serving old PS_SERVING tbp_empty step_serving_choose)
    as (w1 & E1 & V1 & W1 & I1); [intros; unfold choose_serving; by repeat case_match|intros; by apply serving_row|done|].
  set (m1 := fold_left step_serving _ _) in *. clearbody m1.
  destruct (phase_table (inv_lastsrv old) choose_lastsrv step_lastsrv old PS_LASTSRV m1 step_lastsrv_choose)
    as (w2 & E2 & V2 & W2 & I2);
    [intros; unfold choose_lastsrv; by repeat case_match|intros; by apply lastsrv_row|
     destruct I1 as (? & ? & ?); split; [simpl; by rewrite orb_false_r|done]|].
  set (m2 := fold_left step_lastsrv _ _) in *. clearbody m2.
  destruct (phase_table (inv_syncing old) choose_syncing step_syncing old PS_SYNCING m2 step_syncing_choose)
    as (w3 & E3 & V3 & W3 & I3);
    [intros; unfold choose_syncing; by repeat case_match|intros; by apply syncing_row|
     destruct I2; split; [simpl; by rewrite orb_false_r|done]|].
  set (m3 := fold_left step_syncing _ _) in *. clearbody m3.
  destruct (phase_table (inv_waiting old false) choose_waiting step_waiting old PS_WAITING m3 step_waiting_choose)
    as (w4 & E4 & V4 & W4 & I4);
    [intros; unfold choose_waiting; by repeat case_match|intros; eapply waiting_row; eauto|
     destruct I3; split; [done|simpl; by rewrite andb_false_r, orb_false_r]|].
  set (m4 := fold_left step_waiting _ _) in *. clearbody m4.
  destruct (phase_table (inv_waiting old (reported PS_WAITING is_online old)) choose_waiting step_offline old PS_OFFLINE
    m4 step_offline_choose) as (w5 & E5 & V5 & W5 & I5);
    [intros; unfold choose_waiting; by repeat case_match|intros; eapply waiting_row; eauto|
     destruct I4; split; [done|simpl; by rewrite orb_false_r]|].
  set (m5 := fold_left step_offline _ _) in *. clearbody m5.
  assert (Hf : forall s, m5 s = group_by_ps (w1 ++ w2 ++ w3 ++ w4 ++ w5) s).
  { intros s. rewrite E5, E4, E3, E2, E1. unfold group_by_ps. rewrite !filter_app. simpl. by rewrite !app_assoc. }
  exists (w1 ++ w2 ++ w3 ++ w4 ++ w5). split_and!; [done|by repeat apply Forall_app_2|..].
  - rewrite <- group_nonempty. destruct I5 as [<- _]. unfold tbp_nonempty. by rewrite Hf.
  - rewrite !map_app, W1, W2, W3, W4, W5. unfold next_targets. simpl. by rewrite app_nil_r.
Qed.

Lemma demote_group_ne hs L s :
  s <> PS_LASTSRV -> s <> PS_OFFLINE -> group_by_ps (map (demote_target hs) L) s = group_by_ps L s.
Proof.
  intros H1 H2. unfold group_by_ps. induction L as [|t L IH]; [done|]. simpl. rewrite !filter_cons, IH.
  unfold demote_target. destruct (hs && _) eqn:E; [|done]. apply andb_true_iff in E as [_ E].
  apply bool_decide_eq_true in E. simpl. repeat case_decide; congruence.
Qed.

Lemma demote_group_lastsrv hs L :
  group_by_ps (map (demote_target hs) L) PS_LASTSRV = if hs then [] else group_by_ps L PS_LASTSRV.
Proof.
  unfold group_by_ps. induction L as [|t L IH]; [by destruct hs|]. simpl. rewrite !filter_cons, IH.
  unfold demote_target. destruct hs; simpl; [|done]. case_bool_decide; simpl; by repeat case_decide.
Qed.

(** The new chain is the table's targets; in every state but OFFLINE they are
    in the table's order. *)
Lemma generateNewChain_next old :
  generateNewChain old ≡ₚ next_targets old /\
  (forall s, s <> PS_OFFLINE -> group_by_ps (generateNewChain old) s = group_by_ps (next_targets old) s).
Proof.
  destruct (dispatch_all_table old) as (L & HL & Hv & Hs & <-).
  assert (Hn : valid_states (map (demote_target (serves old)) L)) by by apply demote_target_valid.
  split.
  - unfold generateNewChain, concat_by_ps. rewrite !(demote_ext _ _ HL). rewrite <- Hs. by apply concat_demote_perm.
  - intros s Ho. destruct (decide (s = PS_INVALID)) as [->|Hi].
    { assert (Hnil : forall l, valid_states l -> group_by_ps l PS_INVALID = []).
      { unfold group_by_ps. induction 1; [done|]. by rewrite filter_cons_False. }
      by rewrite !Hnil by (done || apply generateNewChain_valid). }
    rewrite generateNewChain_group by done. rewrite (demote_ext _ _ HL), demote_group, Hs. simpl.
    destruct (decide (s = PS_LASTSRV)) as [->|]; [by rewrite demote_group_lastsrv|].
    rewrite demote_group_ne by done. rewrite decide_False by done. by destruct (serves old).
Qed.
End table.

(** ** Rotations and shutdown *)

Section rotations.
Implicit Types (l old : list ChainTargetInfoEx).

Definition target_ids l : list TargetId := map cte_targetId l.

#[export] Instance target_ids_perm : Proper ((≡ₚ) ==> (≡ₚ)) target_ids.
Proof. intros l l' H. by apply Permutation_map. Qed.

#[export] Instance has_state_proper s : Proper ((≡ₚ) ==> eq) (has_state s).
Proof. intros l l' H. by apply has_state_perm. Qed.

#[export] Instance count_state_proper s : Proper ((≡ₚ) ==> eq) (count_state s).
Proof. intros l l' H. unfold count_state, group_by_ps. by rewrite H. Qed.

(** [old_mapping] records a position of each target id. *)
Lemma old_mapping_lookup old tid i t :
  old_mapping old !! tid = Some (i, t) -> old !! i = Some t /\ cte_targetId t = tid.
Proof.
  unfold old_mapping.
  assert (Hz : forall e, e ∈ zip (seq 0 (length old)) old -> old !! fst e = Some (snd e)).
  { intros [j u] Hj. apply list_elem_of_lookup in Hj as [k Hk]. apply lookup_zip_with_Some in Hk as (a & b & E & H1 & H2).
    simplify_eq. simpl. apply lookup_seq in H1 as [-> _]. by rewrite Nat.add_0_l. }
  revert Hz. generalize (zip (seq 0 (length old)) old) as z. intros z Hz.
  assert (G : forall m : gmap TargetId (nat * ChainTargetInfoEx),
    (forall tid e, m !! tid = Some e -> old !! fst e = Some (snd e) /\ cte_targetId (snd e) = tid) ->
    forall tid e, fold_left (fun m e => <[cte_targetId (snd e) := e]> m) z m !! tid = Some e ->
    old !! fst e = Some (snd e) /\ cte_targetId (snd e) = tid).
  { induction z as [|e z IH]; intros m Hm tid' e'; simpl; [apply Hm|].
    apply IH; [intros; apply Hz; by right|].
    intros tid'' e''. rewrite lookup_insert. case_decide; [|apply Hm]. intros [= <-]. split; [|done]. apply Hz. by left. }
  intros H. apply (G ∅ ltac:(by intros) _ _ H).
Qed.

(** The two possible effects of [rotateAsPreferredOrder]: nothing, or the
    target at some position goes to the end as OFFLINE while another target of
    the chain is SERVING. *)
Definition rotated l l' : Prop :=
  exists i j t u, l !! i = Some t /\ l !! j = Some u /\ i <> j /\ cte_publicState u = PS_SERVING /\
    l' = take i l ++ drop (S i) l ++ [set_cte_localState LS_OFFLINE (set_cte_publicState PS_OFFLINE t)].

Lemma rotate_loop_spec old i preferred l' :
  rotate_loop old (old_mapping old) i preferred = Ok l' -> l' = old \/ rotated old l'.
Proof.
  revert i. induction preferred as [|tid preferred IH]; intros i; simpl; [naive_solver|].
  destruct (old_mapping old !! tid) as [[j u]|] eqn:Em; simpl.
  - apply old_mapping_lookup in Em as [Hj _]. repeat case_decide; [by apply IH|naive_solver|].
    case_match; [|done]. intros [= <-]. right. exists i, j, c, u. by split_and!.
  - case_decide; [by apply IH|naive_solver].
Qed.

(** With distinct target ids the mapping is complete, *)
Lemma old_mapping_complete old i t :
  NoDup (target_ids old) -> old !! i = Some t -> old_mapping old !! cte_targetId t = Some (i, t).
Proof.
  intros Hnd Hi. destruct (old_mapping old !! cte_targetId t) as [[j u]|] eqn:E.
  - apply old_mapping_lookup in E as [Hj Hu]. unfold target_ids in Hnd.
    assert (i = j) as ->; [|congruence].
    assert (Hk : forall k v, old !! k = Some v -> map cte_targetId old !! k = Some (cte_targetId v))
      by (intros k v Hk; change (map cte_targetId old) with (cte_targetId <$> old); by rewrite list_lookup_fmap, Hk).
    eapply NoDup_lookup; [exact Hnd|by apply Hk|]. rewrite <- Hu. by apply Hk.
  - exfalso. unfold old_mapping in E. clear Hnd.
    assert (Hin : (i, t) ∈ zip (seq 0 (length old)) old).
    { apply list_elem_of_lookup. exists i. apply lookup_zip_with_Some. exists i, t. split_and!; try done.
      apply lookup_seq. apply lookup_lt_Some in Hi. lia. }
    revert E. generalize (∅ : gmap TargetId (nat * ChainTargetInfoEx)) as m.
    induction (zip (seq 0 (length old)) old) as [|e z IH]; intros m; [by apply elem_of_nil in Hin|]. simpl.
    apply elem_of_cons in Hin as [<-|Hin]; [|by apply IH]. simpl. clear IH.
    assert (G : forall m : gmap TargetId (nat * ChainTargetInfoEx), is_Some (m !! cte_targetId t) ->
      is_Some (fold_left (fun m e => <[cte_targetId (snd e) := e]> m) z m !! cte_targetId t)).
    { clear. induction z as [|e z IH]; intros m Hm; simpl; [done|]. apply IH. rewrite lookup_insert. by case_decide. }
    intros E. destruct (G (<[cte_targetId t := (i, t)]> m)) as [e He]; [rewrite lookup_insert_eq; eauto|congruence].
Qed.

(** so that the loop never reads past the end of the chain, once the positions
    before [i] hold the preferred targets. *)
Lemma rotate_loop_ok old preferred done_ :
  NoDup (target_ids old) -> NoDup (done_ ++ preferred) -> (forall tid, tid ∈ preferred -> tid ∈ target_ids old) ->
  take (length done_) (target_ids old) = done_ ->
  exists l', rotate_loop old (old_mapping old) (length done_) preferred = Ok l'.
Proof.
  intros Hnd. revert done_. induction preferred as [|tid preferred IH]; intros done_ Hnp Hin Hpre; simpl; [eauto|].
  assert (Ht : tid ∈ target_ids old) by (apply Hin; left).
  unfold target_ids in Ht. apply list_elem_of_fmap in Ht as (t & -> & Ht). apply list_elem_of_lookup in Ht as [j Hj].
  rewrite (old_mapping_complete _ _ _ Hnd Hj). simpl.
  assert (Hjid : target_ids old !! j = Some (cte_targetId t)) by (unfold target_ids; by rewrite list_lookup_fmap, Hj).
  case_decide as Ej.
  - specialize (IH (done_ ++ [cte_targetId t])). rewrite length_app in IH. simpl in IH.
    rewrite Nat.add_1_r in IH. apply IH; [by rewrite <- app_assoc|intros; apply Hin; by right|].
    rewrite <- Hpre at 2. subst j. by apply take_S_r.
  - case_decide; [eauto|].
    assert (Hlt : (length done_ < j)%nat).
    { destruct (decide (j < length done_)%nat) as [Hl|]; [|lia]. exfalso.
      apply NoDup_app in Hnp as (_ & Hd & _). apply (Hd (cte_targetId t)); [|left].
      rewrite <- Hpre. apply list_elem_of_lookup. exists j. by rewrite lookup_take_lt. }
    apply lookup_lt_Some in Hj. destruct (lookup_lt_is_Some_2 old (length done_)) as [u ->]; [lia|eauto].
Qed.

Lemma rotated_perm l l' :
  rotated l l' -> exists t k, l ≡ₚ t :: k /\ l' ≡ₚ set_cte_localState LS_OFFLINE (set_cte_publicState PS_OFFLINE t) :: k.
Proof.
  intros (i & j & t & u & Hi & _ & _ & _ & ->). exists t, (take i l ++ drop (S i) l). split.
  - rewrite <- (take_drop_middle l i t Hi) at 1. by rewrite Permutation_middle.
  - solve_Permutation.
Qed.

Lemma rotated_serving l l' : rotated l l' -> has_state PS_SERVING l' = true.
Proof.
  intros (i & j & t & u & Hi & Hj & Hne & Hu & ->). apply has_state_spec. exists u. split; [|done].
  rewrite !elem_of_app. destruct (decide (j < i)%nat).
  - left. apply list_elem_of_lookup. exists j. by rewrite lookup_take_lt.
  - right. left. apply list_elem_of_lookup. exists (j - S i)%nat. rewrite lookup_drop.
    by replace (S i + (j - S i))%nat with j by lia.
Qed.

Lemma rotated_ids l l' : rotated l l' -> target_ids l' ≡ₚ target_ids l.
Proof.
  intros (t & k & -> & ->)%rotated_perm. unfold target_ids. simpl. done.
Qed.

Lemma rotateLastSrv_ids l : target_ids (rotateLastSrv l) ≡ₚ target_ids l.
Proof.
  destruct l as [|t0 [|t1 rest]]; try done. simpl. case_decide; [done|]. unfold target_ids. simpl.
  rewrite map_map, map_app. simpl. solve_Permutation.
Qed.
End rotations.

(** [shutdownChain] succeeds exactly on valid states and leaves every target
    LASTSRV or OFFLINE. *)
Definition shutdown_state (ps : PublicTargetState) : PublicTargetState :=
  match ps with
  | PS_SERVING | PS_LASTSRV => PS_LASTSRV
  | _ => PS_OFFLINE
  end.

Lemma shutdownChain_spec (l : list ChainTargetInfo) :
  shutdownChain l =
    if decide (Forall (fun t => cti_publicState t <> PS_INVALID) l)
    then Ok (map (fun t => mkChainTargetInfo (cti_targetId t) (shutdown_state (cti_publicState t))) l)
    else Fatal.
Proof.
  induction l as [|[tid ps] l IH]; [done|]. simpl. rewrite IH. unfold shutdown_target. simpl.
  destruct ps; simpl; repeat case_decide; rewrite ?Forall_cons in *; simpl in *; try tauto; naive_solver.
Qed.

(** The chain in memory after a shutdown was loaded back: the new public
    states next to the local ones. *)
Definition shutdown_ex (l : list ChainTargetInfoEx) : list ChainTargetInfoEx :=
  map (fun t => set_cte_publicState (shutdown_state (cte_publicState t)) t) l.

(** ** The life of a chain

    A chain with the set of its targets that hold every committed write. *)
Record ChainLife := mkChainLife {
  cl_chain : list ChainTargetInfoEx;
  cl_fresh : gset TargetId
}.

(** Targets that take part in a write: the head forwards it through the SERVING
    targets to the SYNCING one. *)
Definition receives_writes (t : ChainTargetInfoEx) : Prop :=
  cte_publicState t = PS_SERVING \/ cte_publicState t = PS_SYNCING.

(** A service reports local states; a target being synced is reported
    up-to-date only when it holds every committed write. *)
Definition report_of (fresh : gset TargetId) (o n : ChainTargetInfoEx) : Prop :=
  cte_targetId n = cte_targetId o /\ cte_publicState n = cte_publicState o /\
  (cte_publicState n = PS_SYNCING -> cte_localState n = LS_UPTODATE -> cte_targetId n ∈ fresh).

Inductive chain_step : ChainLife -> ChainLife -> Prop :=
| step_report c c' fresh :
    Forall2 (report_of fresh) c c' ->
    chain_step (mkChainLife c fresh) (mkChainLife c' fresh)
| step_update c fresh :
    chain_step (mkChainLife c fresh) (mkChainLife (generateNewChain c) fresh)
| step_rotate c c' preferred fresh :
    rotateAsPreferredOrder c preferred = Ok c' ->
    chain_step (mkChainLife c fresh) (mkChainLife c' fresh)
| step_shutdown c fresh :
    chain_step (mkChainLife c fresh) (mkChainLife (shutdown_ex c) fresh)
| step_write c fresh fresh' :
    has_state PS_SERVING c = true ->
    (forall t, t ∈ c -> receives_writes t -> cte_targetId t ∈ fresh -> cte_targetId t ∈ fresh') ->
    fresh' ⊆ fresh ->
    chain_step (mkChainLife c fresh) (mkChainLife c fresh')
| step_synced c fresh t :
    t ∈ c -> cte_publicState t = PS_SYNCING -> has_state PS_SERVING c = true ->
    chain_step (mkChainLife c fresh) (mkChainLife c ({[cte_targetId t]} ∪ fresh)).

(** The targets whose word the manager takes: serving, last to serve, or synced
    and waiting to serve. *)
Definition trusted (t : ChainTargetInfoEx) : Prop :=
  cte_publicState t = PS_SERVING \/ cte_publicState t = PS_LASTSRV \/
  (cte_publicState t = PS_SYNCING /\ cte_localState t = LS_UPTODATE).

Record life_wf (s : ChainLife) : Prop := {
  lw_chain : chain_wf (cl_chain s);
  lw_authority : has_state PS_SERVING (cl_chain s) = true \/ has_state PS_LASTSRV (cl_chain s) = true;
  lw_fresh : forall t, t ∈ cl_chain s -> trusted t -> cte_targetId t ∈ cl_fresh s
}.

Section life.
Implicit Types (l c : list ChainTargetInfoEx) (s : ChainLife).

(** [has_state], [count_state] and [chain_wf] read public states only. *)
Definition same_ps (o n : ChainTargetInfoEx) : Prop := cte_publicState n = cte_publicState o.

Lemma same_ps_has_state ps c c' : Forall2 same_ps c c' -> has_state ps c' = has_state ps c.
Proof. unfold has_state. induction 1 as [|o n c c' Ho _ IH]; simpl; [done|]. by rewrite Ho, IH. Qed.

Lemma same_ps_count ps c c' : Forall2 same_ps c c' -> count_state ps c' = count_state ps c.
Proof.
  unfold count_state, group_by_ps. induction 1 as [|o n c c' Ho _ IH]; [done|].
  rewrite !filter_cons, Ho. case_decide; simpl; by rewrite IH.
Qed.

Lemma same_ps_wf c c' : Forall2 same_ps c c' -> chain_wf c -> chain_wf c'.
Proof.
  intros HF [Hv Hex Hs]. split.
  - unfold valid_states in *. clear -HF Hv. induction HF as [|o n c c' Ho HF IH]; [constructor|].
    apply Forall_cons in Hv as [H1 H2]. constructor; [by rewrite Ho|auto].
  - by rewrite !(same_ps_has_state _ _ _ HF).
  - by rewrite (same_ps_count _ _ _ HF).
Qed.

#[export] Instance chain_wf_proper : Proper ((≡ₚ) ==> iff) chain_wf.
Proof.
  assert (H : forall l l', l ≡ₚ l' -> chain_wf l -> chain_wf l').
  { intros l l' HP [Hv Hex Hs]. split; unfold valid_states in *; by rewrite <- HP. }
  intros l l' HP. split; apply H; [done|by symmetry].
Qed.

(** Taking one target OFFLINE keeps a chain well-formed. *)
Lemma chain_wf_offline t n k :
  chain_wf (t :: k) -> cte_publicState n = PS_OFFLINE -> chain_wf (n :: k).
Proof.
  intros [Hv Hex Hs] Hn. unfold valid_states, count_state, group_by_ps in *.
  rewrite Forall_cons in Hv. rewrite filter_cons in Hs. split.
  - unfold valid_states. apply Forall_cons. split; [by rewrite Hn|tauto].
  - unfold has_state in *. simpl in *. rewrite Hn. simpl. rewrite !orb_true_iff in Hex. tauto.
  - unfold count_state, group_by_ps. rewrite filter_cons, Hn. simpl. case_decide; simpl in *; lia.
Qed.

Lemma rotated_wf l l' : chain_wf l -> rotated l l' -> chain_wf l'.
Proof. intros Hwf (t & k & HP & ->)%rotated_perm. rewrite HP in Hwf. by eapply chain_wf_offline. Qed.

Lemma shutdown_has_state ps c :
  has_state ps (shutdown_ex c) = existsb (fun t => bool_decide (shutdown_state (cte_publicState t) = ps)) c.
Proof. unfold has_state, shutdown_ex. induction c as [|t c IH]; simpl; [done|]. by rewrite IH. Qed.

Lemma shutdown_none ps c : ps <> PS_LASTSRV -> ps <> PS_OFFLINE -> has_state ps (shutdown_ex c) = false.
Proof.
  intros H1 H2. apply not_true_iff_false. rewrite has_state_spec. intros (t & Ht & Hps).
  unfold shutdown_ex in Ht. apply list_elem_of_fmap in Ht as (u & -> & _). simpl in Hps.
  destruct (cte_publicState u); simpl in Hps; congruence.
Qed.

Lemma shutdown_wf c : chain_wf (shutdown_ex c).
Proof.
  split.
  - apply Forall_map, Forall_true. intros t. simpl. by destruct (cte_publicState t).
  - rewrite shutdown_none by done. by intros [? _].
  - rewrite (proj2 (count_zero _ _)); [lia|]. by apply shutdown_none.
Qed.

Lemma shutdown_authority c :
  has_state PS_SERVING c = true \/ has_state PS_LASTSRV c = true -> has_state PS_LASTSRV (shutdown_ex c) = true.
Proof.
  intros H. assert (Ht : exists t, t ∈ c /\ shutdown_state (cte_publicState t) = PS_LASTSRV).
  { destruct H as [H|H]; apply has_state_spec in H as (t & Ht & Hps); exists t; by rewrite Hps. }
  destruct Ht as (t & Ht & Hps). apply has_state_spec. eexists. split; [by apply list_elem_of_fmap_2|]. done.
Qed.

(** An update trusts a target only if it trusted it before. *)
Lemma generateNewChain_trusted old n :
  valid_states old -> n ∈ generateNewChain old -> trusted n ->
  exists o, o ∈ old /\ cte_targetId o = cte_targetId n /\ cte_localState o = cte_localState n /\ trusted o /\
    (cte_publicState n = PS_SERVING -> ls_alive (cte_localState o) = true) /\
    (cte_publicState n = PS_LASTSRV -> cte_publicState o <> PS_SYNCING).
Proof.
  intros Hv Hn Ht. destruct (generateNewChain_table old Hv) as (l' & HF & HP). rewrite HP in Hn.
  destruct (elem_of_Forall2_r _ _ _ _ HF Hn) as (o & Ho & Hid & Hls & Hok).
  exists o. rewrite Hid, Hls. split_and!; try done; clear -Ht Hls Hok; unfold trusted in *; rewrite Hls in *;
    destruct (cte_publicState o), (cte_localState o), (has_state _ _); simpl in Hok;
    destruct (cte_publicState n); simpl in *; try discriminate; intuition congruence.
Qed.
End life.

Section life_invariant.
Implicit Types (c : list ChainTargetInfoEx) (s : ChainLife).

Lemma report_same_ps fresh c c' : Forall2 (report_of fresh) c c' -> Forall2 same_ps c c'.
Proof. intros HF. eapply Forall2_impl; [exact HF|]. intros o n (_ & ? & _). done. Qed.

Lemma report_ids fresh c c' : Forall2 (report_of fresh) c c' -> target_ids c' = target_ids c.
Proof. unfold target_ids. induction 1 as [|o n c c' (H & _) _ IH]; simpl; [done|]. by rewrite H, IH. Qed.

Lemma update_ids c : valid_states c -> target_ids (generateNewChain c) ≡ₚ target_ids c.
Proof.
  intros Hv. destruct (generateNewChain_table c Hv) as (l' & HF & HP). rewrite HP.
  assert (target_ids l' = target_ids c) as ->; [|done].
  unfold target_ids. clear HP. revert HF. generalize (has_state PS_SERVING (generateNewChain c)) as b. intros b.
  induction 1 as [|o n c' k (H & _) _ IH]; simpl; [done|]. rewrite H, IH; [done|by inversion Hv].
Qed.

Lemma life_step s s' : life_wf s -> chain_step s s' -> life_wf s' /\ target_ids (cl_chain s') ≡ₚ target_ids (cl_chain s).
Proof.
  intros [Hwf Ha Hf]. pose proof (wf_valid _ Hwf) as Hv. inversion 1 as
    [c c' fresh HF|c fresh|c c' preferred fresh Hrot|c fresh|c fresh fresh' Hsv Hkeep Hsub|c fresh t Ht Hps Hsv];
    subst; simpl in *.
  - split; [|by rewrite (report_ids _ _ _ HF)]. pose proof (report_same_ps _ _ _ HF) as Hps. split; simpl.
    + by eapply same_ps_wf.
    + by rewrite !(same_ps_has_state _ _ _ Hps).
    + intros n Hn Ht. destruct (elem_of_Forall2_r _ _ _ _ HF Hn) as (o & Ho & Hid & Hp & Hup).
      destruct Ht as [Ht|[Ht|[Ht1 Ht2]]]; [..|by apply Hup]; rewrite Hid; apply Hf; try done; unfold trusted; rewrite <- Hp; auto.
  - split; [|by apply update_ids]. split; simpl.
    + by apply generateNewChain_chain_wf.
    + destruct Ha as [Ha|Ha]; apply has_state_spec in Ha as (t & Ht & Hps);
        apply (generateNewChain_authority c t Hv Ht); auto.
    + intros n Hn Ht. destruct (generateNewChain_trusted c n Hv Hn Ht) as (o & Ho & <- & _ & Hto & _). auto.
  - apply rotate_loop_spec in Hrot as [->|Hrot]; [done|]. split; [|by apply rotated_ids]. split; simpl.
    + by eapply rotated_wf.
    + left. by eapply rotated_serving.
    + intros n Hn Ht. destruct (rotated_perm _ _ Hrot) as (t & k & HP & HP'). rewrite HP' in Hn.
      apply elem_of_cons in Hn as [->|Hn]; [unfold trusted in Ht; simpl in Ht; naive_solver|].
      apply Hf; [|done]. rewrite HP. by right.
  - split; [split; simpl|].
    + apply shutdown_wf.
    + right. by apply shutdown_authority.
    + intros n Hn Ht. unfold shutdown_ex in Hn. apply list_elem_of_fmap in Hn as (o & -> & Ho). simpl. apply Hf; [done|].
      unfold trusted in *. simpl in Ht. destruct (cte_publicState o); naive_solver.
    + unfold shutdown_ex, target_ids. rewrite map_map. done.
  - split; [|done]. split; simpl; [done..|]. intros t Ht Htr. apply Hkeep; [done| |by apply Hf].
    unfold receives_writes. destruct Htr as [?|[Hl|[? _]]]; [tauto| |tauto].
    exfalso. apply (wf_exclusive _ Hwf). split; [done|]. apply has_state_spec. eauto.
  - split; [|done]. split; simpl; [done..|]. intros u Hu Htr. apply elem_of_union. right. by apply Hf.
Qed.

Lemma life_steps s s' :
  rtc chain_step s s' -> life_wf s -> life_wf s' /\ target_ids (cl_chain s') ≡ₚ target_ids (cl_chain s).
Proof.
  induction 1 as [|s1 s2 s3 H12 H23 IH]; intros Hwf; [done|].
  destruct (life_step _ _ Hwf H12) as [Hwf2 Hids]. destruct (IH Hwf2) as [Hwf3 Hids']. split; [done|]. by rewrite Hids', Hids.
Qed.
End life_invariant.

(** ** Theorems *)


(** C8: whatever sequence of reports, updates, preferred-order rotations,
    shutdowns, writes and completed syncs a chain goes through, it keeps its
    targets, never shows a LASTSRV next to a SERVING target, never syncs two
    targets at once, and always has a SERVING or LASTSRV target holding every
    committed write. *)
Theorem committed_writes_survive (s s' : ChainLife) :
  life_wf s -> rtc chain_step s s' ->
  chain_wf (cl_chain s') /\ target_ids (cl_chain s') ≡ₚ target_ids (cl_chain s) /\
  (exists t, t ∈ cl_chain s' /\ (cte_publicState t = PS_SERVING \/ cte_publicState t = PS_LASTSRV)) /\
  (forall t, t ∈ cl_chain s' -> cte_publicState t = PS_SERVING \/ cte_publicState t = PS_LASTSRV ->
     cte_targetId t ∈ cl_fresh s').
Proof.
  intros Hwf Hr. destruct (life_steps _ _ Hr Hwf) as [[Hc Ha Hf] Hids]. split_and!; [done..| |].
  - destruct Ha as [Ha|Ha]; apply has_state_spec in Ha as (t & Ht & Hps); eauto.
  - intros t Ht Hps. apply Hf; [done|]. unfold trusted. tauto.
Qed.

(** C15: availability: when a serving or last serving target is reported alive,
    the updated chain starts with a SERVING target; when none is alive it
    still keeps a LASTSRV target, and a target that is SERVING afterwards is
    alive and was SERVING, LASTSRV, or SYNCING and up to date. *)
Theorem chain_update_available (old : list ChainTargetInfoEx) (t : ChainTargetInfoEx) :
  valid_states old -> t ∈ old -> cte_publicState t = PS_SERVING \/ cte_publicState t = PS_LASTSRV ->
  (ls_alive (cte_localState t) = true ->
     exists h rest, generateNewChain old = h :: rest /\ cte_publicState h = PS_SERVING) /\
  (has_state PS_SERVING (generateNewChain old) = false -> has_state PS_LASTSRV (generateNewChain old) = true) /\
  (forall n, n ∈ generateNewChain old -> cte_publicState n = PS_SERVING ->
     exists o, o ∈ old /\ cte_targetId o = cte_targetId n /\ trusted o /\ ls_alive (cte_localState o) = true).
Proof.
  intros Hv Ht Hps. destruct (generateNewChain_authority old t Hv Ht Hps) as [H1 H2]. split_and!.
  - intros Hal. specialize (H1 Hal). apply has_state_spec in H1 as (u & Hu & Hsv).
    pose proof (generateNewChain_rank_sorted old) as Hs.
    destruct (generateNewChain old) as [|h rest]; [by apply elem_of_nil in Hu|].
    exists h, rest. split; [done|]. apply elem_of_cons in Hu as [->|Hu]; [done|].
    inversion Hs as [|? ? _ HF]; subst. rewrite Forall_forall in HF. specialize (HF u Hu).
    unfold rank_le in HF. rewrite Hsv in HF. destruct (cte_publicState h); simpl in HF; (done || lia).
  - intros Hn. rewrite Hn in H2. naive_solver.
  - intros n Hn Hsv. destruct (generateNewChain_trusted old n Hv Hn) as (o & ? & ? & ? & ? & ? & ?);
      [by left|]. exists o. auto.
Qed.

(** C16: an update reaches a fixpoint: as long as the services report the same
    local states, updating a well-formed chain with at most one LASTSRV target
    again changes nothing, so its version stops moving. *)
Theorem chain_update_fixpoint (old : list ChainTargetInfoEx) :
  chain_wf old -> (count_state PS_LASTSRV old <= 1)%nat ->
  generateNewChain (generateNewChain old) = generateNewChain old /\
  (count_state PS_LASTSRV (generateNewChain old) <= 1)%nat /\ chain_wf (generateNewChain old).
Proof.
  intros Hwf Hl. split_and!; [by apply generateNewChain_stable|by apply generateNewChain_one_lastsrv|].
  by apply generateNewChain_chain_wf.
Qed.

(** with distinct target ids and a preferred order that lists distinct
    targets of the chain, the rotation returns: the same chain, or the chain
    with one target moved to the end as OFFLINE while another one serves.  It
    keeps the set of targets and a well-formed chain well formed. *)
Theorem rotate_preferred_safe (old : list ChainTargetInfoEx) (preferred : list TargetId) :
  NoDup (target_ids old) -> NoDup preferred -> (forall tid, tid ∈ preferred -> tid ∈ target_ids old) ->
  exists l', rotateAsPreferredOrder old preferred = Ok l' /\
    (l' = old \/ rotated old l' /\ has_state PS_SERVING l' = true) /\
    target_ids l' ≡ₚ target_ids old /\ (chain_wf old -> chain_wf l').
Proof.
  intros Hnd Hnp Hin. destruct (rotate_loop_ok old preferred [] Hnd Hnp Hin eq_refl) as [l' Hl'].
  exists l'. unfold rotateAsPreferredOrder. split; [done|]. apply rotate_loop_spec in Hl' as [->|Hr]; [by split_and!; [left|..]|].
  split_and!; [right; eauto using rotated_serving|by apply rotated_ids|intros; by eapply rotated_wf].
Qed.

(** the last-server rotation changes only a chain headed by a LASTSRV
    target with a successor: the successor becomes the LASTSRV head, every
    other target OFFLINE, and the targets stay the same. *)
Theorem rotate_lastsrv_spec (old : list ChainTargetInfoEx) :
  match old with
  | t0 :: t1 :: rest =>
      if bool_decide (cte_publicState t0 = PS_LASTSRV) then
        exists tl, rotateLastSrv old = set_cte_publicState PS_LASTSRV t1 :: tl /\
          Forall (fun t => cte_publicState t = PS_OFFLINE) tl /\ target_ids tl = target_ids (rest ++ [t0]) /\
          has_state PS_SERVING (rotateLastSrv old) = false /\ count_state PS_LASTSRV (rotateLastSrv old) = 1%nat
      else rotateLastSrv old = old
  | _ => rotateLastSrv old = old
  end.
Proof.
  destruct old as [|t0 [|t1 rest]]; try done. simpl. case_bool_decide as E; case_decide; try done.
  eexists. split; [reflexivity|].
  assert (HF : Forall (fun t => cte_publicState t = PS_OFFLINE) (map (set_cte_publicState PS_OFFLINE) (rest ++ [t0])))
    by by apply Forall_map, Forall_true.
  split_and!; [done| |..].
  - unfold target_ids. by rewrite map_map.
  - unfold has_state. simpl. induction HF as [|x k Hx _ IH]; [done|]. simpl. by rewrite Hx, IH.
  - unfold count_state, group_by_ps. rewrite filter_cons_True by done. simpl. f_equal.
    clear -HF. induction HF as [|x k Hx _ IH]; [done|]. by rewrite filter_cons_False, IH by by rewrite Hx.
Qed.

(** shutting a chain down fails exactly when a public state is INVALID;
    otherwise SERVING and LASTSRV targets become LASTSRV, all others OFFLINE,
    in the same order, so the chain keeps an authoritative target exactly when
    it had one, and shutting it down again changes nothing. *)
Theorem shutdown_chain_spec (l : list ChainTargetInfo) :
  (shutdownChain l = Fatal <-> exists t, t ∈ l /\ cti_publicState t = PS_INVALID) /\
  (forall l', shutdownChain l = Ok l' ->
     map cti_targetId l' = map cti_targetId l /\
     map cti_publicState l' = map (fun t => shutdown_state (cti_publicState t)) l /\
     ((exists t, t ∈ l' /\ cti_publicState t = PS_LASTSRV) <->
      exists t, t ∈ l /\ (cti_publicState t = PS_SERVING \/ cti_publicState t = PS_LASTSRV)) /\
     shutdownChain l' = Ok l').
Proof.
  rewrite shutdownChain_spec. split.
  - destruct (decide (Forall _ l)) as [HF|HF]; split; try done.
    + intros (t & Ht & Hps). rewrite Forall_forall in HF. by destruct (HF t Ht).
    + intros _. apply not_Forall_Exists in HF; [|apply _]. apply Exists_exists in HF as (t & Ht & Hps).
      exists t. split; [done|]. simpl in Hps. destruct (decide (cti_publicState t = PS_INVALID)); tauto.
  - intros l'. case_decide as HF; [|done]. intros [= <-]. split_and!.
    + by rewrite map_map.
    + by rewrite map_map.
    + split.
      * intros (t & Ht & Hps). apply list_elem_of_fmap in Ht as (u & -> & Hu). exists u. split; [done|].
        simpl in Hps. destruct (cti_publicState u); auto; done.
      * intros (u & Hu & Hps). eexists. split; [apply list_elem_of_fmap_2; exact Hu|]. simpl.
        by destruct Hps as [-> | ->].
    + rewrite shutdownChain_spec. rewrite decide_True.
      * rewrite map_map. f_equal. apply map_ext. intros t. simpl. by destruct (cti_publicState t).
      * apply Forall_map, Forall_true. intros t. simpl. by destruct (cti_publicState t).
Qed.

(** two rows of the state-transition table of the design notes that the
    code does not follow: an online target that was OFFLINE goes to SYNCING,
    not to WAITING, when a target serves and none is being synced; an offline
    LASTSRV target goes to OFFLINE, not to LASTSRV, when another one serves. *)
Example design_notes_table_divergence :
  generateNewChain [mkChainTargetInfoEx 1 PS_SERVING LS_UPTODATE; mkChainTargetInfoEx 2 PS_OFFLINE LS_ONLINE] =
    [mkChainTargetInfoEx 1 PS_SERVING LS_UPTODATE; mkChainTargetInfoEx 2 PS_SYNCING LS_ONLINE] /\
  generateNewChain [mkChainTargetInfoEx 1 PS_LASTSRV LS_OFFLINE; mkChainTargetInfoEx 2 PS_LASTSRV LS_UPTODATE] =
    [mkChainTargetInfoEx 2 PS_SERVING LS_UPTODATE; mkChainTargetInfoEx 1 PS_OFFLINE LS_OFFLINE].
Proof. split; reflexivity. Qed.

(** ** Witnesses *)

(** Two servers down of three, one target catching up. *)
Definition sample_chain : list ChainTargetInfoEx :=
  [mkChainTargetInfoEx 1 PS_SERVING LS_OFFLINE; mkChainTargetInfoEx 2 PS_SERVING LS_UPTODATE;
   mkChainTargetInfoEx 3 PS_SYNCING LS_UPTODATE; mkChainTargetInfoEx 4 PS_WAITING LS_ONLINE].

Lemma sample_chain_wf : chain_wf sample_chain.
Proof. split; [repeat constructor; done|by intros [_ ?]|compute; lia]. Qed.

Lemma sample_life : life_wf (mkChainLife sample_chain {[1; 2; 3]}).
Proof.
  split; simpl; [apply sample_chain_wf|by left|].
  intros t Ht Htr. repeat (apply elem_of_cons in Ht as [->|Ht]; [simpl|]); [set_solver..| |by apply elem_of_nil in Ht].
  unfold trusted in Htr. simpl in Htr. naive_solver.
Qed.


(** A write that only the serving and syncing targets take, then an update. *)
Lemma committed_writes_survive_witness :
  exists s', rtc chain_step (mkChainLife sample_chain {[1; 2; 3]}) s' /\ cl_chain s' = generateNewChain sample_chain /\
    exists t, t ∈ cl_chain s' /\ (cte_publicState t = PS_SERVING \/ cte_publicState t = PS_LASTSRV).
Proof.
  assert (Hr : rtc chain_step (mkChainLife sample_chain {[1; 2; 3]}) (mkChainLife (generateNewChain sample_chain) {[1; 2; 3]})).
  { apply rtc_once. apply step_update. }
  eexists. split; [exact Hr|]. split; [done|].
  exact (proj1 (proj2 (proj2 (committed_writes_survive _ _ sample_life Hr)))).
Defined.

Lemma chain_update_available_witness :
  exists h rest, generateNewChain sample_chain = h :: rest /\ cte_publicState h = PS_SERVING.
Proof.
  refine (proj1 (chain_update_available sample_chain (mkChainTargetInfoEx 2 PS_SERVING LS_UPTODATE)
    (wf_valid _ sample_chain_wf) _ _) eq_refl); [right; left|by left].
Defined.

Lemma chain_update_fixpoint_witness :
  generateNewChain (generateNewChain sample_chain) = generateNewChain sample_chain.
Proof. refine (proj1 (chain_update_fixpoint sample_chain sample_chain_wf _)). compute. lia. Defined.

Lemma rotate_preferred_safe_witness :
  exists l', rotateAsPreferredOrder sample_chain [2; 1] = Ok l' /\ target_ids l' ≡ₚ [1; 2; 3; 4].
Proof.
  destruct (rotate_preferred_safe sample_chain [2; 1]) as (l' & H1 & _ & H2 & _).
  - compute. repeat constructor; rewrite ?list_elem_of_In; simpl; lia.
  - repeat constructor; rewrite ?list_elem_of_In; simpl; lia.
  - intros tid Ht. change (target_ids sample_chain) with [1; 2; 3; 4]. set_solver.
  - exists l'. split; [exact H1|exact H2].
Defined.
