(* ===== verification/RoutingInfo.v ===== *)
(** * The routing information in memory ([src/mgmtd/service/RoutingInfo.{h,cc}])

    Nodes, chain tables, chains and targets as the primary manager holds them,
    with the orphan targets reported by services but unknown to any chain. *)

From stdpp Require Import base list gmap sets.
From Stdlib Require Import ZArith Lia.
From S2P Require Import Prelude MgmtdTypes UpdateChain ChainProtocol.

Record RoutingInfo := mkRoutingInfo {
  ri_routingInfoChanged : bool;
  ri_routingInfoVersion : RoutingInfoVersion;
  ri_nodeMap : gmap NodeId NodeInfoWrapper;
  ri_chainTables : gmap ChainTableId (gmap ChainTableVersion ChainTable);
  ri_chains : gmap ChainId ChainInfo;
  ri_newBornChains : gmap ChainId SteadyTime;
  ri_orphanTargetsByTargetId : gmap TargetId FlatTargetInfo;
  ri_orphanTargetsByNodeId : gmap NodeId (gset TargetId);
  ri_targets : gmap TargetId TargetInfo
}.

Definition RoutingInfo_default : RoutingInfo := mkRoutingInfo false 1 ∅ ∅ ∅ ∅ ∅ ∅ ∅.

Definition set_ri_changed v r := mkRoutingInfo v (ri_routingInfoVersion r) (ri_nodeMap r) (ri_chainTables r) (ri_chains r) (ri_newBornChains r) (ri_orphanTargetsByTargetId r) (ri_orphanTargetsByNodeId r) (ri_targets r).
Definition set_ri_version v r := mkRoutingInfo (ri_routingInfoChanged r) v (ri_nodeMap r) (ri_chainTables r) (ri_chains r) (ri_newBornChains r) (ri_orphanTargetsByTargetId r) (ri_orphanTargetsByNodeId r) (ri_targets r).
Definition set_ri_nodeMap v r := mkRoutingInfo (ri_routingInfoChanged r) (ri_routingInfoVersion r) v (ri_chainTables r) (ri_chains r) (ri_newBornChains r) (ri_orphanTargetsByTargetId r) (ri_orphanTargetsByNodeId r) (ri_targets r).
Definition set_ri_chainTables v r := mkRoutingInfo (ri_routingInfoChanged r) (ri_routingInfoVersion r) (ri_nodeMap r) v (ri_chains r) (ri_newBornChains r) (ri_orphanTargetsByTargetId r) (ri_orphanTargetsByNodeId r) (ri_targets r).
Definition set_ri_chains v r := mkRoutingInfo (ri_routingInfoChanged r) (ri_routingInfoVersion r) (ri_nodeMap r) (ri_chainTables r) v (ri_newBornChains r) (ri_orphanTargetsByTargetId r) (ri_orphanTargetsByNodeId r) (ri_targets r).
Definition set_ri_newBorn v r := mkRoutingInfo (ri_routingInfoChanged r) (ri_routingInfoVersion r) (ri_nodeMap r) (ri_chainTables r) (ri_chains r) v (ri_orphanTargetsByTargetId r) (ri_orphanTargetsByNodeId r) (ri_targets r).
Definition set_ri_orphans v w r := mkRoutingInfo (ri_routingInfoChanged r) (ri_routingInfoVersion r) (ri_nodeMap r) (ri_chainTables r) (ri_chains r) (ri_newBornChains r) v w (ri_targets r).
Definition set_ri_targets v r := mkRoutingInfo (ri_routingInfoChanged r) (ri_routingInfoVersion r) (ri_nodeMap r) (ri_chainTables r) (ri_chains r) (ri_newBornChains r) (ri_orphanTargetsByTargetId r) (ri_orphanTargetsByNodeId r) v.

(** ** Operations *)

(** [makeTargetInfo] *)
Definition makeTargetInfo (chainId : ChainId) (info : ChainTargetInfo) : FlatTargetInfo :=
  mkFlatTargetInfo (cti_targetId info) (cti_publicState info) LS_OFFLINE chainId None None 0.

(** [updateTarget]: [targets[tid]] inserts a default entry for an unknown id
    (the [DFATAL] check before it only logs); [now] is the clock reading its
    constructor would take. *)
Definition updateTarget (now : SteadyTime) (tid : TargetId) (func : TargetInfo -> M RoutingInfo TargetInfo)
    : M RoutingInfo unit :=
  ti ← gets (fun r => default (TargetInfo_default now) (ri_targets r !! tid));
  modify (fun r => set_ri_targets (<[tid := ti]> (ri_targets r)) r) ;;
  ti' ← func ti;
  modify (fun r => set_ri_targets (<[tid := ti']> (ri_targets r)) r).

Definition getChain (cid : ChainId) : M RoutingInfo ChainInfo :=
  c ← gets (fun r => ri_chains r !! cid);
  match c with
  | Some chain => mret chain
  | None => fatal
  end.

(** [oldChain = chain] through the reference [getChain] returns. *)
Definition assignChain (cid : ChainId) (chain : ChainInfo) : M RoutingInfo unit :=
  getChain cid ;;
  modify (fun r => set_ri_chains (<[cid := chain]> (ri_chains r)) r).

(** The update of a target's public state the chain operations share. *)
Definition updatePublicState (now : SteadyTime) (cti : ChainTargetInfo) : M RoutingInfo unit :=
  updateTarget now (cti_targetId cti) (fun ti =>
    mret (set_ti_ts now (set_ti_base (set_fti_publicState (cti_publicState cti) (ti_base ti)) ti))).

Definition applyChainTargetChanges (changedChains : list ChainInfo) (now : SteadyTime) : M RoutingInfo unit :=
  for_each (fun chain =>
    assignChain (ci_chainId chain) chain ;;
    for_each (updatePublicState now) (ci_targets chain)) changedChains.

(** The body of [localUpdateTargets]' loop for a target in some chain. *)
Definition localUpdateTarget (ignoreStale : bool) (steadyNow : SteadyTime) (nodeId : NodeId)
    (lti : LocalTargetInfo) (ti : TargetInfo) : M RoutingInfo TargetInfo :=
  let base := ti_base ti in
  shouldIgnore ←
    (if bool_decide (lti_chainVersion lti = 0) || negb ignoreStale then mret false
     else chain ← getChain (fti_chainId base);
          mret (bool_decide (ci_chainVersion chain > lti_chainVersion lti)));
  if (shouldIgnore : bool) then mret ti
  else
    let importantInfoChanged :=
      bool_decide (fti_localState base <> lti_localState lti) || bool_decide (fti_nodeId base <> Some nodeId) in
    let ti := set_ti_ts steadyNow ti in
    let ti := if importantInfoChanged then set_ti_importantInfoChangedTime steadyNow ti else ti in
    mret (set_ti_base
      (set_fti_usedSize (lti_usedSize lti)
        (set_fti_location (Some nodeId) (lti_diskIndex lti)
          (set_fti_localState (lti_localState lti) base))) ti).

(** The same for a target of no chain: it becomes an orphan of the node. *)
Definition addOrphanTarget (nodeId : NodeId) (lti : LocalTargetInfo) : M RoutingInfo unit :=
  modify (fun r =>
    let orphans := default ∅ (ri_orphanTargetsByNodeId r !! nodeId) in
    set_ri_orphans
      (<[lti_targetId lti :=
           mkFlatTargetInfo (lti_targetId lti) PS_INVALID (lti_localState lti) 0 (Some nodeId)
             (lti_diskIndex lti) (lti_usedSize lti)]> (ri_orphanTargetsByTargetId r))
      (<[nodeId := {[lti_targetId lti]} ∪ orphans]> (ri_orphanTargetsByNodeId r)) r).

(** Forgetting the orphans the node reported before. *)
Definition clearOrphanTargets (nodeId : NodeId) : M RoutingInfo unit :=
  modify (fun r =>
    let orphans := default ∅ (ri_orphanTargetsByNodeId r !! nodeId) in
    set_ri_orphans
      (set_fold delete (ri_orphanTargetsByTargetId r) orphans)
      (<[nodeId := ∅]> (ri_orphanTargetsByNodeId r)) r).

Definition localUpdateTargets (ignoreStale : bool) (steadyNow : SteadyTime) (nodeId : NodeId)
    (targets : list LocalTargetInfo) : M RoutingInfo unit :=
  clearOrphanTargets nodeId ;;
  for_each (fun lti =>
    it ← gets (fun r => ri_targets r !! lti_targetId lti);
    match it with
    | Some _ => updateTarget steadyNow (lti_targetId lti) (localUpdateTarget ignoreStale steadyNow nodeId lti)
    | None => addOrphanTarget nodeId lti
    end) targets.

Definition eraseOrphanTarget (tid : TargetId) : M RoutingInfo unit :=
  r ← getS;
  match ri_orphanTargetsByTargetId r !! tid with
  | None => mret tt
  | Some oti =>
      match fti_nodeId oti with
      | None => fatal
      | Some nid =>
          match ri_orphanTargetsByNodeId r !! nid with
          | None => fatal
          | Some set =>
              fatal_if (negb (bool_decide (tid ∈ set))) ;;
              let set' := set ∖ {[tid]} in
              let byNode := if decide (set' = ∅) then delete nid (ri_orphanTargetsByNodeId r)
                            else <[nid := set']> (ri_orphanTargetsByNodeId r) in
              modify (set_ri_orphans (delete tid (ri_orphanTargetsByTargetId r)) byNode)
          end
      end
  end.

Definition insertNewTarget (now : SteadyTime) (cid : ChainId) (cti : ChainTargetInfo) : M RoutingInfo unit :=
  r ← getS;
  fatal_if (bool_decide (is_Some (ri_targets r !! cti_targetId cti))) ;;
  modify (fun r =>
    set_ri_targets (<[cti_targetId cti := TargetInfo_make (makeTargetInfo cid cti) now now]> (ri_targets r)) r) ;;
  eraseOrphanTarget (cti_targetId cti).

Definition insertNewChain (now : SteadyTime) (chain : ChainInfo) : M RoutingInfo unit :=
  r ← getS;
  fatal_if (bool_decide (is_Some (ri_chains r !! ci_chainId chain))) ;;
  modify (fun r => set_ri_chains (<[ci_chainId chain := chain]> (ri_chains r)) r) ;;
  for_each (insertNewTarget now (ci_chainId chain)) (ci_targets chain) ;;
  modify (fun r => set_ri_newBorn (<[ci_chainId chain := now]> (ri_newBornChains r)) r).

Definition removeTarget (cid : ChainId) (tid : TargetId) : M RoutingInfo unit :=
  r ← getS;
  match ri_targets r !! tid with
  | None => fatal
  | Some ti =>
      fatal_if (bool_decide (fti_publicState (ti_base ti) <> PS_OFFLINE)) ;;
      fatal_if (match ri_chains r !! cid with
                | Some chain => bool_decide (tid ∈ map cti_targetId (ci_targets chain))
                | None => false
                end) ;;
      modify (fun r => set_ri_targets (delete tid (ri_targets r)) r)
  end.

(** [reset]: every node gets a fresh timestamp, every chain is newborn. *)
Definition reset (version : RoutingInfoVersion) (allNodes : gmap NodeId NodeInfoWrapper)
    (allChainTables : gmap ChainTableId (gmap ChainTableVersion ChainTable)) (allChains : gmap ChainId ChainInfo)
    (allTargets : gmap TargetId TargetInfo) (steadyNow : SteadyTime) (r : RoutingInfo) : RoutingInfo :=
  mkRoutingInfo (ri_routingInfoChanged r) version
    ((fun sn => NodeInfoWrapper_make (nw_base sn) steadyNow) <$> allNodes)
    allChainTables allChains ((fun _ => steadyNow) <$> allChains) ∅ ∅ allTargets.

(** ** Well-formed chains and routing information *)

Definition chain_ids (c : ChainInfo) : list TargetId := map cti_targetId (ci_targets c).

(** A chain's targets as the state machine sees them; the properties below do
    not depend on the local states. *)
Definition chain_ex (c : ChainInfo) : list ChainTargetInfoEx := map (fun t => cte_make t LS_INVALID) (ci_targets c).

Definition has_authority (l : list ChainTargetInfoEx) : Prop :=
  has_state PS_SERVING l = true \/ has_state PS_LASTSRV l = true.

Record chain_ok (c : ChainInfo) : Prop := {
  co_ids : NoDup (chain_ids c);
  co_preferred : NoDup (ci_preferredTargetOrder c);
  co_preferred_in : forall tid, tid ∈ ci_preferredTargetOrder c -> tid ∈ chain_ids c;
  co_wf : chain_wf (chain_ex c);
  co_authority : has_authority (chain_ex c)
}.

(** The entry of a target in its chain and the target's own record agree. *)
Definition target_of (cid : ChainId) (cti : ChainTargetInfo) (ti : TargetInfo) : Prop :=
  fti_chainId (ti_base ti) = cid /\ fti_publicState (ti_base ti) = cti_publicState cti.

Record ri_wf (r : RoutingInfo) : Prop := {
  rw_chain : forall cid c, ri_chains r !! cid = Some c -> ci_chainId c = cid /\ chain_ok c;
  rw_chain_target : forall cid c cti, ri_chains r !! cid = Some c -> cti ∈ ci_targets c ->
    exists ti, ri_targets r !! cti_targetId cti = Some ti /\ target_of cid cti ti;
  rw_target : forall tid ti, ri_targets r !! tid = Some ti ->
    fti_targetId (ti_base ti) = tid /\
    exists c, ri_chains r !! fti_chainId (ti_base ti) = Some c /\ tid ∈ chain_ids c;
  rw_orphan : forall tid oti, ri_orphanTargetsByTargetId r !! tid = Some oti ->
    ri_targets r !! tid = None /\ fti_targetId oti = tid /\
    exists nid set, fti_nodeId oti = Some nid /\ ri_orphanTargetsByNodeId r !! nid = Some set /\ tid ∈ set;
  rw_newborn : forall cid, is_Some (ri_newBornChains r !! cid) -> is_Some (ri_chains r !! cid);
  rw_node : forall nid n, ri_nodeMap r !! nid = Some n -> app_nodeId (ni_app (nw_base n)) = nid
}.

(** ** Updating targets *)

Lemma runs_updateTarget now tid f r Q :
  match ri_targets r !! tid with
  | Some ti => runs (f ti) r (fun o r' => match o with
      | Ok ti' => Q (Ok tt) (set_ri_targets (<[tid := ti']> (ri_targets r')) r')
      | Err c => Q (Err c) r' | Fatal => Q Fatal r' | Pending => Q Pending r' end)
  | None => False
  end -> runs (updateTarget now tid f) r Q.
Proof.
  destruct (ri_targets r !! tid) as [ti|] eqn:E; [|done]. intros H. unfold updateTarget. msteps. rewrite E. simpl.
  assert (set_ri_targets (<[tid:=ti]> (ri_targets r)) r = r) as ->.
  { rewrite insert_id by done. by destruct r. }
  eapply runs_mono; [exact H|]. intros [a|c| |] r' HQ; mstep; [by mstep|done..].
Qed.

(** A loop that rewrites one target record per element. *)
Lemma runs_update_each {A} now (key : A -> TargetId) (upd : A -> TargetInfo -> TargetInfo) (l : list A) r :
  NoDup (map key l) -> (forall x, x ∈ l -> is_Some (ri_targets r !! key x)) ->
  runs (for_each (fun x => updateTarget now (key x) (fun ti => mret (upd x ti))) l) r (fun o r' =>
    o = Ok tt /\ exists T, r' = set_ri_targets T r /\
      (forall tid, tid ∉ map key l -> T !! tid = ri_targets r !! tid) /\
      (forall x ti, x ∈ l -> ri_targets r !! key x = Some ti -> T !! key x = Some (upd x ti))).
Proof.
  intros Hnd Hin.
  apply (runs_for_each (fun rest r1 => exists pre T, l = pre ++ rest /\ r1 = set_ri_targets T r /\
    (forall tid, tid ∉ map key pre -> T !! tid = ri_targets r !! tid) /\
    (forall x ti, x ∈ pre -> ri_targets r !! key x = Some ti -> T !! key x = Some (upd x ti)))).
  - exists [], (ri_targets r). split_and!; [done|by destruct r|done|]. intros x ti Hx. by apply elem_of_nil in Hx.
  - intros x rest r1 (pre & T & Hl & -> & Hout & Hpre). apply runs_updateTarget. simpl.
    assert (Hxl : x ∈ l) by (rewrite Hl, elem_of_app; right; left).
    assert (Hnx : key x ∉ map key pre).
    { intros Hx. rewrite Hl, map_app in Hnd. simpl in Hnd. apply NoDup_app in Hnd as (_ & Hd & _).
      apply (Hd (key x)); [done|left]. }
    destruct (Hin x Hxl) as [ti Hti]. rewrite (Hout _ Hnx), Hti. mstep.
    exists (pre ++ [x]), (<[key x := upd x ti]> T). split_and!; [by rewrite <- app_assoc|done| |].
    + intros tid Ht. rewrite map_app, not_elem_of_app in Ht. destruct Ht as [Ht1 Ht2].
      rewrite lookup_insert_ne; [by apply Hout|]. intros <-. apply Ht2. left.
    + intros y ti' Hy Hti'. apply elem_of_app in Hy as [Hy|Hy].
      * rewrite lookup_insert_ne; [by apply Hpre|]. intros Ek. apply Hnx. rewrite Ek. by apply list_elem_of_fmap_2.
      * apply list_elem_of_singleton in Hy as ->. rewrite lookup_insert_eq. congruence.
  - intros r1 (pre & T & Hl & -> & Hout & Hpre). rewrite app_nil_r in Hl. subst pre. split; [done|]. eauto.
Qed.

(** ** Replacing a chain *)

(** A new record of the same target. *)
Definition same_target (ti ti' : TargetInfo) : Prop :=
  fti_targetId (ti_base ti') = fti_targetId (ti_base ti) /\ fti_chainId (ti_base ti') = fti_chainId (ti_base ti).

Lemma ri_wf_replace r c old T :
  ri_wf r -> ri_chains r !! ci_chainId c = Some old -> chain_ids c ≡ₚ chain_ids old -> chain_ok c ->
  (forall tid, tid ∉ chain_ids c -> T !! tid = ri_targets r !! tid) ->
  (forall cti ti, cti ∈ ci_targets c -> ri_targets r !! cti_targetId cti = Some ti ->
     exists ti', T !! cti_targetId cti = Some ti' /\ same_target ti ti' /\
       fti_publicState (ti_base ti') = cti_publicState cti) ->
  ri_wf (set_ri_targets T (set_ri_chains (<[ci_chainId c := c]> (ri_chains r)) r)).
Proof.
  intros Hwf Hold Hids Hok Hout Hin.
  assert (Hmem : forall cti, cti ∈ ci_targets c -> exists ti, ri_targets r !! cti_targetId cti = Some ti /\
    fti_chainId (ti_base ti) = ci_chainId c).
  { intros cti Hcti. assert (Hi : cti_targetId cti ∈ chain_ids old)
      by (rewrite <- Hids; by apply list_elem_of_fmap_2).
    unfold chain_ids in Hi. apply list_elem_of_fmap in Hi as (cti' & Hi & Hcti').
    destruct (rw_chain_target _ Hwf _ _ _ Hold Hcti') as (ti & Hti & Hc & _). rewrite Hi. eauto. }
  split; simpl.
  - intros cid c'. rewrite lookup_insert. case_decide; [naive_solver|]. by apply rw_chain.
  - intros cid c' cti. rewrite lookup_insert. case_decide as E.
    + intros [= <-] Hcti. destruct (Hmem _ Hcti) as (ti & Hti & Hc).
      destruct (Hin _ _ Hcti Hti) as (ti' & Hti' & [_ Hc'] & Hps). exists ti'. split; [done|]. split; [congruence|done].
    + intros Hc' Hcti. destruct (rw_chain_target _ Hwf _ _ _ Hc' Hcti) as (ti & Hti & Ht).
      exists ti. split; [|done]. rewrite Hout; [done|]. intros Hi. unfold chain_ids in Hi.
      apply list_elem_of_fmap in Hi as (cti' & Hi & Hcti'). destruct (Hmem _ Hcti') as (ti' & Hti' & Hc'').
      rewrite Hi in Hti. destruct Ht. congruence.
  - intros tid ti' Hti'. destruct (decide (tid ∈ chain_ids c)) as [Hi|Hi].
    + pose proof Hi as Hi2. unfold chain_ids in Hi. apply list_elem_of_fmap in Hi as (cti & -> & Hcti).
      destruct (Hmem _ Hcti) as (ti & Hti & Hc). destruct (Hin _ _ Hcti Hti) as (ti'' & Hti'' & [Ht Hc'] & _).
      assert (ti'' = ti') as -> by congruence. split; [rewrite Ht; by apply (rw_target _ Hwf)|].
      exists c. rewrite Hc', Hc, lookup_insert_eq. done.
    + rewrite Hout in Hti' by done. destruct (rw_target _ Hwf _ _ Hti') as (Ht & c' & Hc' & Hm). split; [done|].
      rewrite lookup_insert. case_decide as E; [|eauto]. exfalso. apply Hi. rewrite Hids. congruence.
  - intros tid oti Ho. destruct (rw_orphan _ Hwf _ _ Ho) as (Hn & Ht & Hs). split; [|done].
    rewrite Hout; [done|]. intros Hi. unfold chain_ids in Hi. apply list_elem_of_fmap in Hi as (cti & -> & Hcti).
    destruct (Hmem _ Hcti) as (ti & Hti & _). congruence.
  - intros cid Hn. rewrite lookup_insert. case_decide; [eauto|]. by apply (rw_newborn _ Hwf).
  - apply (rw_node _ Hwf).
Qed.

(** What the chain operations leave alone. *)
Record ri_same (r r' : RoutingInfo) : Prop := {
  rs_changed : ri_routingInfoChanged r' = ri_routingInfoChanged r;
  rs_version : ri_routingInfoVersion r' = ri_routingInfoVersion r;
  rs_nodes : ri_nodeMap r' = ri_nodeMap r;
  rs_tables : ri_chainTables r' = ri_chainTables r;
  rs_newborn : ri_newBornChains r' = ri_newBornChains r;
  rs_orphan1 : ri_orphanTargetsByTargetId r' = ri_orphanTargetsByTargetId r;
  rs_orphan2 : ri_orphanTargetsByNodeId r' = ri_orphanTargetsByNodeId r
}.

#[export] Instance ri_same_preorder : PreOrder ri_same.
Proof.
  split; [by intros r|]. intros r1 r2 r3 [] []. split; congruence.
Qed.

Lemma runs_assignChain cid c old r (Q : outcome unit -> RoutingInfo -> Prop) :
  ri_chains r !! cid = Some old -> Q (Ok tt) (set_ri_chains (<[cid := c]> (ri_chains r)) r) ->
  runs (assignChain cid c) r Q.
Proof. intros Hold HQ. unfold assignChain, getChain. msteps. rewrite Hold. by msteps. Qed.

Lemma runs_replaceChain now c old r :
  ri_wf r -> ri_chains r !! ci_chainId c = Some old -> chain_ids c ≡ₚ chain_ids old -> chain_ok c ->
  runs (assignChain (ci_chainId c) c ;; for_each (updatePublicState now) (ci_targets c)) r (fun o r' =>
    o = Ok tt /\ ri_wf r' /\ ri_chains r' = <[ci_chainId c := c]> (ri_chains r) /\ ri_same r r').
Proof.
  intros Hwf Hold Hids Hok. apply runs_bind, (runs_assignChain _ _ old); [done|]. mstep.
  set (r1 := set_ri_chains _ r).
  eapply runs_mono; [apply runs_update_each with (key := cti_targetId)
    (upd := fun cti ti => set_ti_ts now (set_ti_base (set_fti_publicState (cti_publicState cti) (ti_base ti)) ti))|].
  - apply (co_ids _ Hok).
  - intros cti Hcti. simpl. assert (Hi : cti_targetId cti ∈ chain_ids old)
      by (rewrite <- Hids; by apply list_elem_of_fmap_2).
    unfold chain_ids in Hi. apply list_elem_of_fmap in Hi as (cti' & -> & Hcti').
    destruct (rw_chain_target _ Hwf _ _ _ Hold Hcti') as (ti & Hti & _). eauto.
  - intros o r' (-> & T & -> & Hout & Hin). split; [done|]. split; [|by split].
    eapply ri_wf_replace; [done|done|done|done|exact Hout|].
    intros cti ti Hcti Hti. eexists. split; [by apply Hin|]. done.
Qed.

(** [applyChainTargetChanges] on chains that replace existing ones. *)
Lemma runs_applyChainTargetChanges now cs r :
  ri_wf r -> NoDup (map ci_chainId cs) ->
  (forall c, c ∈ cs -> exists old, ri_chains r !! ci_chainId c = Some old /\ chain_ids c ≡ₚ chain_ids old /\ chain_ok c) ->
  runs (applyChainTargetChanges cs now) r (fun o r' =>
    o = Ok tt /\ ri_wf r' /\ ri_chains r' = foldl (fun m c => <[ci_chainId c := c]> m) (ri_chains r) cs /\ ri_same r r').
Proof.
  intros Hwf Hnd Hin. unfold applyChainTargetChanges.
  apply (runs_for_each (fun rest r1 => exists pre, cs = pre ++ rest /\ ri_wf r1 /\ ri_same r r1 /\
    ri_chains r1 = foldl (fun m c => <[ci_chainId c := c]> m) (ri_chains r) pre /\
    forall c, c ∈ rest -> ri_chains r1 !! ci_chainId c = ri_chains r !! ci_chainId c)).
  - exists []. split_and!; done.
  - intros c rest r1 (pre & -> & Hwf1 & Hs & Hch & Hrest).
    destruct (Hin c) as (old & Hold & Hids & Hok); [rewrite elem_of_app; right; left|].
    eapply runs_mono; [apply (runs_replaceChain now c old); [done| |done|done]|].
    { rewrite Hrest; [done|left]. }
    intros o r2 (-> & Hwf2 & Hch2 & Hs2). exists (pre ++ [c]). split_and!; [by rewrite <- app_assoc|done|by etransitivity| |].
    + by rewrite Hch2, Hch, foldl_snoc.
    + intros c' Hc'. rewrite Hch2, lookup_insert_ne; [apply Hrest; by right|].
      rewrite map_app in Hnd. simpl in Hnd. apply NoDup_app in Hnd as (_ & _ & Hnd). apply NoDup_cons in Hnd as [Hn _].
      intros E. apply Hn. rewrite E. by apply list_elem_of_fmap_2.
  - intros r1 (pre & -> & Hwf1 & Hs & Hch & _). rewrite app_nil_r. done.
Qed.

(** ** Orphan targets *)

(** Every orphan record is listed by the node it names. *)
Definition orphans_listed (r : RoutingInfo) : Prop :=
  forall tid oti, ri_orphanTargetsByTargetId r !! tid = Some oti ->
    fti_targetId oti = tid /\
    exists nid set, fti_nodeId oti = Some nid /\ ri_orphanTargetsByNodeId r !! nid = Some set /\ tid ∈ set.

Lemma ri_wf_orphans_listed r : ri_wf r -> orphans_listed r.
Proof. intros Hwf tid oti Ho. by destruct (rw_orphan _ Hwf _ _ Ho) as (_ & ? & ?). Qed.

Lemma runs_eraseOrphanTarget tid r :
  orphans_listed r ->
  runs (eraseOrphanTarget tid) r (fun o r' =>
    o = Ok tt /\ exists B, r' = set_ri_orphans (delete tid (ri_orphanTargetsByTargetId r)) B r /\ orphans_listed r').
Proof.
  intros Hol. unfold eraseOrphanTarget. msteps.
  destruct (ri_orphanTargetsByTargetId r !! tid) as [oti|] eqn:Eo.
  2: { mstep. split; [done|]. exists (ri_orphanTargetsByNodeId r). rewrite delete_id by done. by destruct r. }
  destruct (Hol _ _ Eo) as (Ht & nid & set & Hn & Hset & Hin). rewrite Hn, Hset. msteps.
  { apply negb_true_iff, bool_decide_eq_false in H. done. }
  split; [done|]. eexists. split; [reflexivity|].
  intros tid' oti' Ho'. simpl in Ho'. apply lookup_delete_Some in Ho' as [Hne Ho'].
  destruct (Hol _ _ Ho') as (Ht' & nid' & set' & Hn' & Hset' & Hin'). split; [done|].
  exists nid'. simpl. destruct (decide (nid' = nid)) as [->|Hnid].
  - assert (set' = set) as -> by congruence. exists (set ∖ {[tid]}).
    assert (tid' ∈ set ∖ {[tid]}) by set_solver.
    destruct (decide (set ∖ {[tid]} = ∅)); [set_solver|]. by rewrite lookup_insert_eq.
  - exists set'. split; [done|]. split; [|done].
    destruct (decide (set ∖ {[tid]} = ∅)); by rewrite ?lookup_delete_ne, ?lookup_insert_ne by done.
Qed.

Lemma runs_insertNewTarget now cid cti r :
  orphans_listed r -> ri_targets r !! cti_targetId cti = None ->
  runs (insertNewTarget now cid cti) r (fun o r' =>
    o = Ok tt /\ exists B,
      r' = set_ri_orphans (delete (cti_targetId cti) (ri_orphanTargetsByTargetId r)) B
             (set_ri_targets (<[cti_targetId cti := TargetInfo_make (makeTargetInfo cid cti) now now]> (ri_targets r)) r) /\
      orphans_listed r').
Proof.
  intros Hol Hnone. unfold insertNewTarget. msteps.
  { apply bool_decide_eq_true in H. rewrite Hnone in H. by destruct H. }
  eapply runs_mono; [by apply runs_eraseOrphanTarget|]. simpl. intros o r' (-> & B & -> & Hol'). eauto.
Qed.

(** Inserting the targets of a new chain one by one. *)
Lemma runs_insertNewTargets now cid ctis r :
  orphans_listed r -> NoDup (map cti_targetId ctis) ->
  (forall cti, cti ∈ ctis -> ri_targets r !! cti_targetId cti = None) ->
  runs (for_each (insertNewTarget now cid) ctis) r (fun o r' =>
    o = Ok tt /\ orphans_listed r' /\ exists A B T, r' = set_ri_orphans A B (set_ri_targets T r) /\
      (forall tid oti, A !! tid = Some oti -> ri_orphanTargetsByTargetId r !! tid = Some oti /\ tid ∉ map cti_targetId ctis) /\
      (forall tid, tid ∉ map cti_targetId ctis -> T !! tid = ri_targets r !! tid) /\
      (forall cti, cti ∈ ctis -> T !! cti_targetId cti = Some (TargetInfo_make (makeTargetInfo cid cti) now now))).
Proof.
  intros Hol Hnd Hnone.
  apply (runs_for_each (fun rest r1 => exists pre A B T, ctis = pre ++ rest /\
    r1 = set_ri_orphans A B (set_ri_targets T r) /\ orphans_listed r1 /\
    (forall tid oti, A !! tid = Some oti -> ri_orphanTargetsByTargetId r !! tid = Some oti /\ tid ∉ map cti_targetId pre) /\
    (forall tid, tid ∉ map cti_targetId pre -> T !! tid = ri_targets r !! tid) /\
    (forall cti, cti ∈ pre -> T !! cti_targetId cti = Some (TargetInfo_make (makeTargetInfo cid cti) now now)))).
  - exists [], (ri_orphanTargetsByTargetId r), (ri_orphanTargetsByNodeId r), (ri_targets r).
    assert (set_ri_orphans (ri_orphanTargetsByTargetId r) (ri_orphanTargetsByNodeId r) (set_ri_targets (ri_targets r) r) = r)
      as -> by by destruct r.
    split_and!; try done; [|intros ? Hx; by apply elem_of_nil in Hx]. intros. split; [done|]. apply not_elem_of_nil.
  - intros cti rest r1 (pre & A & B & T & Hl & -> & Hol1 & HA & HT & HI).
    assert (Hn : cti_targetId cti ∉ map cti_targetId pre).
    { intros Hx. rewrite Hl, map_app in Hnd. apply NoDup_app in Hnd as (_ & Hd & _).
      apply (Hd (cti_targetId cti)); [done|left]. }
    eapply runs_mono; [apply runs_insertNewTarget; [done|]|].
    { simpl. rewrite HT by done. apply Hnone. rewrite Hl, elem_of_app. right; left. }
    intros o r2 (-> & B2 & -> & Hol2). exists (pre ++ [cti]). simpl in *.
    exists (delete (cti_targetId cti) A), B2, (<[cti_targetId cti := TargetInfo_make (makeTargetInfo cid cti) now now]> T). split; [by rewrite <- app_assoc|]. split; [reflexivity|]. rewrite map_app. split_and!; [done|..].
    + intros tid oti Ho. apply lookup_delete_Some in Ho as [Hne Ho]. destruct (HA _ _ Ho). split; [done|].
      rewrite not_elem_of_app. split; [done|]. simpl. rewrite not_elem_of_cons. split; [congruence|apply not_elem_of_nil].
    + intros tid Ht. rewrite not_elem_of_app in Ht. destruct Ht as [Ht1 Ht2]. rewrite lookup_insert_ne; [by apply HT|].
      intros <-. apply Ht2. left.
    + intros cti' Hc. apply elem_of_app in Hc as [Hc|Hc].
      * rewrite lookup_insert_ne; [by apply HI|]. intros E. apply Hn. rewrite E. by apply list_elem_of_fmap_2.
      * apply list_elem_of_singleton in Hc as ->. by rewrite lookup_insert_eq.
  - intros r1 (pre & A & B & T & Hl & -> & Hol1 & HA & HT & HI). rewrite app_nil_r in Hl. subst pre.
    split; [done|]. split; [done|]. exists A, B, T. done.
Qed.

(** A new chain whose targets are in no other chain. *)
Lemma runs_insertNewChain now c r :
  ri_wf r -> ri_chains r !! ci_chainId c = None -> chain_ok c ->
  (forall tid, tid ∈ chain_ids c -> ri_targets r !! tid = None) ->
  runs (insertNewChain now c) r (fun o r' =>
    o = Ok tt /\ ri_wf r' /\ ri_chains r' = <[ci_chainId c := c]> (ri_chains r) /\
    ri_newBornChains r' = <[ci_chainId c := now]> (ri_newBornChains r) /\
    (forall tid, tid ∉ chain_ids c -> ri_targets r' !! tid = ri_targets r !! tid) /\
    ri_nodeMap r' = ri_nodeMap r /\ ri_chainTables r' = ri_chainTables r /\
    ri_routingInfoVersion r' = ri_routingInfoVersion r /\ ri_routingInfoChanged r' = ri_routingInfoChanged r).
Proof.
  intros Hwf Hnew Hok Hfresh. unfold insertNewChain. msteps.
  { apply bool_decide_eq_true in H. rewrite Hnew in H. by destruct H. }
  eapply runs_mono; [apply runs_insertNewTargets|].
  { intros tid oti Ho. by apply (ri_wf_orphans_listed _ Hwf). }
  { apply (co_ids _ Hok). }
  { intros cti Hcti. apply Hfresh. by apply list_elem_of_fmap_2. }
  intros o r' (-> & Hol & A & B & T & -> & HA & HT & HI). msteps. split; [done|]. split; [|by split_and!].
  split; simpl.
  - intros cid c'. rewrite lookup_insert. case_decide; [naive_solver|]. by apply rw_chain.
  - intros cid c' cti. rewrite lookup_insert. case_decide as E.
    + intros [= <-] Hcti. rewrite (HI _ Hcti). eexists. split; [done|]. by split.
    + intros Hc' Hcti. destruct (rw_chain_target _ Hwf _ _ _ Hc' Hcti) as (ti & Hti & Ht).
      exists ti. split; [|done]. rewrite HT; [done|]. intros Hi. rewrite Hfresh in Hti by done. done.
  - intros tid ti Hti. destruct (decide (tid ∈ chain_ids c)) as [Hi|Hi].
    + pose proof Hi as Hi2. unfold chain_ids in Hi. apply list_elem_of_fmap in Hi as (cti & -> & Hcti).
      rewrite (HI _ Hcti) in Hti. simplify_eq. simpl. split; [done|]. exists c. by rewrite lookup_insert_eq.
    + rewrite HT in Hti by done. destruct (rw_target _ Hwf _ _ Hti) as (Ht & c' & Hc' & Hm). split; [done|].
      exists c'. rewrite lookup_insert_ne; [done|]. intros E. rewrite <- E in Hc'. congruence.
  - intros tid oti Ho. destruct (HA _ _ Ho) as [Ho' Hn]. destruct (Hol _ _ Ho) as (Ht & Hs). split_and!; [|done..].
    rewrite HT by done. by apply (rw_orphan _ Hwf _ _ Ho').
  - intros cid. rewrite !lookup_insert. repeat case_decide; [eauto|]. apply (rw_newborn _ Hwf).
  - apply (rw_node _ Hwf).
Qed.

(** ** Adding and removing one target *)

Lemma runs_addTarget now c old cti r :
  ri_wf r -> ri_chains r !! ci_chainId c = Some old -> ci_targets c = ci_targets old ++ [cti] ->
  ri_targets r !! cti_targetId cti = None -> chain_ok c ->
  runs (assignChain (ci_chainId c) c ;; insertNewTarget now (ci_chainId c) cti) r (fun o r' =>
    o = Ok tt /\ ri_wf r' /\ ri_chains r' = <[ci_chainId c := c]> (ri_chains r) /\
    ri_nodeMap r' = ri_nodeMap r /\ ri_chainTables r' = ri_chainTables r /\
    ri_routingInfoVersion r' = ri_routingInfoVersion r).
Proof.
  intros Hwf Hold Htg Hnone Hok. apply runs_bind, (runs_assignChain _ _ old); [done|]. mstep.
  eapply runs_mono; [apply runs_insertNewTarget; [by apply (ri_wf_orphans_listed _ Hwf)|done]|].
  intros o r' (-> & B & -> & Hol). split; [done|]. split; [|by split_and!]. simpl in *.
  assert (Hne : forall tid ti, ri_targets r !! tid = Some ti -> tid <> cti_targetId cti) by congruence.
  split; simpl.
  - intros cid c'. rewrite lookup_insert. case_decide; [naive_solver|]. by apply rw_chain.
  - intros cid c' cti'. rewrite lookup_insert. case_decide as E.
    + intros [= <-] Hc. rewrite Htg in Hc. apply elem_of_app in Hc as [Hc|Hc].
      * destruct (rw_chain_target _ Hwf _ _ _ Hold Hc) as (ti & Hti & Ht). exists ti.
        rewrite lookup_insert_ne by (symmetry; by eapply Hne). subst. done.
      * apply list_elem_of_singleton in Hc as ->. rewrite lookup_insert_eq. eexists. split; [done|]. by split.
    + intros Hc' Hc. destruct (rw_chain_target _ Hwf _ _ _ Hc' Hc) as (ti & Hti & Ht). exists ti.
      rewrite lookup_insert_ne by (symmetry; by eapply Hne). done.
  - intros tid ti. rewrite lookup_insert. case_decide as E.
    + intros [= <-]. simpl. split; [done|]. exists c. rewrite lookup_insert_eq. split; [done|].
      subst tid. unfold chain_ids. rewrite Htg, map_app, elem_of_app. right. left.
    + intros Hti. destruct (rw_target _ Hwf _ _ Hti) as (Ht & c' & Hc' & Hm). split; [done|].
      rewrite lookup_insert. case_decide as E'; [|eauto]. exists c. split; [done|].
      assert (c' = old) as -> by congruence. unfold chain_ids in *. rewrite Htg, map_app, elem_of_app. by left.
  - intros tid oti Ho. destruct (Hol _ _ Ho) as (Ht & Hs). apply lookup_delete_Some in Ho as [Hn Ho].
    rewrite lookup_insert_ne by done. split_and!; [|done..]. by apply (rw_orphan _ Hwf _ _ Ho).
  - intros cid Hb. rewrite lookup_insert. case_decide; [eauto|]. by apply (rw_newborn _ Hwf).
  - apply (rw_node _ Hwf).
Qed.

Lemma runs_removeTarget c old tid r :
  ri_wf r -> ri_chains r !! ci_chainId c = Some old -> chain_ok c ->
  (exists cti, cti ∈ ci_targets old /\ cti_targetId cti = tid /\ cti_publicState cti = PS_OFFLINE) ->
  tid ∉ chain_ids c -> (forall cti, cti ∈ ci_targets c -> cti ∈ ci_targets old) ->
  (forall tid', tid' ∈ chain_ids old -> tid' = tid \/ tid' ∈ chain_ids c) ->
  runs (assignChain (ci_chainId c) c ;; removeTarget (ci_chainId c) tid) r (fun o r' =>
    o = Ok tt /\ ri_wf r' /\ ri_chains r' = <[ci_chainId c := c]> (ri_chains r) /\ ri_same r r' /\
    ri_targets r' = delete tid (ri_targets r)).
Proof.
  intros Hwf Hold Hok (cti & Hcti & Htid & Hoff) Hnin Hsub Hcov. apply runs_bind, (runs_assignChain _ _ old); [done|]. mstep.
  destruct (rw_chain_target _ Hwf _ _ _ Hold Hcti) as (ti & Hti & Hci & Hps). rewrite Htid in Hti.
  unfold removeTarget. msteps. simpl. rewrite Hti, lookup_insert_eq. msteps.
  { apply bool_decide_eq_true in H. congruence. }
  { apply bool_decide_eq_true in H0. done. }
  clear H H0. split; [done|]. split; [|by split_and!]. split; simpl.
  - intros cid c'. rewrite lookup_insert. case_decide; [naive_solver|]. by apply rw_chain.
  - intros cid c' cti'. rewrite lookup_insert. case_decide as E.
    + intros [= <-] Hc. destruct (rw_chain_target _ Hwf _ _ _ Hold (Hsub _ Hc)) as (ti' & Hti' & Ht). exists ti'.
      rewrite lookup_delete_ne; [by subst|]. intros ->. apply Hnin. by apply list_elem_of_fmap_2.
    + intros Hc' Hc. destruct (rw_chain_target _ Hwf _ _ _ Hc' Hc) as (ti' & Hti' & Ht). exists ti'.
      rewrite lookup_delete_ne; [done|]. intros ->. destruct Ht. congruence.
  - intros tid' ti' Hti'. apply lookup_delete_Some in Hti' as [Hne Hti'].
    destruct (rw_target _ Hwf _ _ Hti') as (Ht & c' & Hc' & Hm). split; [done|].
    rewrite lookup_insert. case_decide as E; [|eauto]. exists c. split; [done|].
    assert (c' = old) as -> by congruence. destruct (Hcov _ Hm); [congruence|done].
  - intros tid' oti Ho. destruct (rw_orphan _ Hwf _ _ Ho) as (Hn & Ht). split; [|done]. by apply lookup_delete_None; right.
  - intros cid Hb. rewrite lookup_insert. case_decide; [eauto|]. by apply (rw_newborn _ Hwf).
  - apply (rw_node _ Hwf).
Qed.

(** ** Heartbeats *)

Lemma ri_wf_update_target r tid ti ti' :
  ri_wf r -> ri_targets r !! tid = Some ti -> same_target ti ti' ->
  fti_publicState (ti_base ti') = fti_publicState (ti_base ti) ->
  ri_wf (set_ri_targets (<[tid := ti']> (ri_targets r)) r).
Proof.
  intros Hwf Hti [H1 H2] Hps. split; simpl.
  - apply (rw_chain _ Hwf).
  - intros cid c cti Hc Hcti. destruct (rw_chain_target _ Hwf _ _ _ Hc Hcti) as (ti0 & Hti0 & Ht & Hp).
    rewrite lookup_insert. case_decide as E; [|unfold target_of; eauto]. exists ti'. split; [done|].
    assert (ti0 = ti) as -> by congruence. split; congruence.
  - intros tid' ti0. rewrite lookup_insert. case_decide as E; [|apply (rw_target _ Hwf)].
    intros [= <-]. rewrite H1, H2. subst tid'. by apply (rw_target _ Hwf).
  - intros tid' oti Ho. destruct (rw_orphan _ Hwf _ _ Ho) as (Hn & Hrest). split; [|done].
    rewrite lookup_insert_ne; [done|congruence].
  - apply (rw_newborn _ Hwf).
  - apply (rw_node _ Hwf).
Qed.

Lemma ri_wf_add_orphan r nodeId lti :
  ri_wf r -> ri_targets r !! lti_targetId lti = None -> 
  runs (addOrphanTarget nodeId lti) r (fun o r' => o = Ok tt /\ ri_wf r' /\ exists A B, r' = set_ri_orphans A B r).
Proof.
  intros Hwf Hnone. unfold addOrphanTarget. mstep. split; [done|]. split; [|eauto].
  destruct Hwf as [H1 H2 H3 H4 H5 H6]. split; simpl; try done.
  intros tid oti. rewrite lookup_insert. case_decide as E.
  - intros [= <-]. subst tid. split_and!; [done..|]. simpl. eexists nodeId, _. rewrite lookup_insert_eq. split_and!; [done..|]. set_solver.
  - intros Ho. destruct (H4 _ _ Ho) as (Hn & Ht & nid & set & Hnid & Hset & Hin). split_and!; [done..|].
    exists nid. rewrite lookup_insert. case_decide as En; [|eauto]. subst nid. rewrite Hset. simpl. eexists. split_and!; [done..|]. set_solver.
Qed.

Lemma lookup_set_fold_delete (X : gset TargetId) (m : gmap TargetId FlatTargetInfo) tid :
  (tid ∈ X -> set_fold delete m X !! tid = None) /\ (tid ∉ X -> set_fold delete m X !! tid = m !! tid).
Proof.
  apply (set_fold_ind_L (fun (m' : gmap TargetId FlatTargetInfo) (X : gset TargetId) =>
    (tid ∈ X -> m' !! tid = None) /\ (tid ∉ X -> m' !! tid = m !! tid))); [set_solver|].
  intros x X' m' Hx [IH1 IH2]. rewrite lookup_delete. case_decide; set_solver.
Qed.

Lemma ri_wf_clear_orphans r nodeId :
  ri_wf r -> runs (clearOrphanTargets nodeId) r (fun o r' => o = Ok tt /\ ri_wf r' /\ exists A B, r' = set_ri_orphans A B r).
Proof.
  intros [H1 H2 H3 H4 H5 H6]. unfold clearOrphanTargets. mstep. split; [done|]. split; [|eauto]. split; simpl; try done.
  intros tid oti Ho. destruct (lookup_set_fold_delete (default ∅ (ri_orphanTargetsByNodeId r !! nodeId))
    (ri_orphanTargetsByTargetId r) tid) as [Hd1 Hd2].
  assert (E : tid ∉ default ∅ (ri_orphanTargetsByNodeId r !! nodeId)) by (intros E; rewrite Hd1 in Ho by done; done).
  rewrite Hd2 in Ho by done.
  destruct (H4 _ _ Ho) as (Hn & Ht & nid & set & Hnid & Hset & Hin). split_and!; [done..|]. exists nid, set.
  rewrite lookup_insert_ne; [done|]. intros ->. rewrite Hset in E. done.
Qed.

(** What a heartbeat leaves alone. *)
Record ri_same_chains (r r' : RoutingInfo) : Prop := {
  rsc_changed : ri_routingInfoChanged r' = ri_routingInfoChanged r;
  rsc_version : ri_routingInfoVersion r' = ri_routingInfoVersion r;
  rsc_nodes : ri_nodeMap r' = ri_nodeMap r;
  rsc_tables : ri_chainTables r' = ri_chainTables r;
  rsc_chains : ri_chains r' = ri_chains r;
  rsc_newborn : ri_newBornChains r' = ri_newBornChains r;
  rsc_dom : dom (ri_targets r') = dom (ri_targets r)
}.

#[export] Instance ri_same_chains_preorder : PreOrder ri_same_chains.
Proof. split; [by intros r|]. intros r1 r2 r3 [] []. split; congruence. Qed.

Lemma runs_localUpdateTarget ig now nodeId lti ti r :
  ri_wf r -> ri_targets r !! lti_targetId lti = Some ti ->
  runs (localUpdateTarget ig now nodeId lti ti) r (fun o r' => r' = r /\ exists ti', o = Ok ti' /\ same_target ti ti' /\
    fti_publicState (ti_base ti') = fti_publicState (ti_base ti)).
Proof.
  intros Hwf Hti. destruct (rw_target _ Hwf _ _ Hti) as (_ & c & Hc & _). unfold localUpdateTarget, getChain.
  mstep. case_match.
  - msteps. split; [done|]. eexists. split; [done|]. by case_match.
  - msteps. rewrite Hc. msteps. case_match; msteps; (split; [done|]); eexists; (split; [done|]); [done|]. by case_match.
Qed.

Lemma runs_localUpdateTargets ig now nodeId ltis r :
  ri_wf r ->
  runs (localUpdateTargets ig now nodeId ltis) r (fun o r' => o = Ok tt /\ ri_wf r' /\ ri_same_chains r r').
Proof.
  intros Hwf. unfold localUpdateTargets. mstep. eapply runs_mono; [by apply ri_wf_clear_orphans|].
  intros o r1 (-> & Hwf1 & A & B & ->). mstep.
  apply (runs_for_each (fun _ r2 => ri_wf r2 /\ ri_same_chains r r2)).
  - split; [done|]. by split.
  - clear Hwf1. intros lti _ r2 [Hwf2 Hs2]. msteps. destruct (ri_targets r2 !! lti_targetId lti) as [ti|] eqn:E.
    + apply runs_updateTarget. rewrite E. eapply runs_mono; [by apply runs_localUpdateTarget|].
      intros o r3 (-> & ti' & -> & Ht & Hps). split; [by eapply ri_wf_update_target|]. etransitivity; [done|].
      split; simpl; try done. rewrite dom_insert_L. apply elem_of_dom_2 in E. set_solver.
    + eapply runs_mono; [by apply ri_wf_add_orphan|]. intros o r3 (-> & Hwf3 & A' & B' & ->).
      split; [done|]. etransitivity; [done|]. by split.
  - intros r2 [Hwf2 Hs2]. done.
Qed.

(** ** What a heartbeat records of a target *)

(** A report about an older version of the target's chain. *)
Definition stale_report (ignoreStale : bool) (r : RoutingInfo) (lti : LocalTargetInfo) (ti : TargetInfo) : bool :=
  negb (bool_decide (lti_chainVersion lti = 0) || negb ignoreStale) &&
  match ri_chains r !! fti_chainId (ti_base ti) with
  | Some c => bool_decide (ci_chainVersion c > lti_chainVersion lti)
  | None => false
  end.

(** A report that counts. *)
Record report_recorded (now : SteadyTime) (nodeId : NodeId) (lti : LocalTargetInfo) (ti ti' : TargetInfo) : Prop := {
  rr_local : fti_localState (ti_base ti') = lti_localState lti;
  rr_node : fti_nodeId (ti_base ti') = Some nodeId;
  rr_disk : fti_diskIndex (ti_base ti') = lti_diskIndex lti;
  rr_used : fti_usedSize (ti_base ti') = lti_usedSize lti;
  rr_ts : ti_ts ti' = now;
  rr_important : ti_importantInfoChangedTime ti' =
    if bool_decide (fti_localState (ti_base ti) = lti_localState lti) && bool_decide (fti_nodeId (ti_base ti) = Some nodeId)
    then ti_importantInfoChangedTime ti else now
}.

Definition heartbeat_effect ig now nodeId r lti ti ti' : Prop :=
  if stale_report ig r lti ti then ti' = ti else report_recorded now nodeId lti ti ti'.

Lemma runs_localUpdateTarget_effect ig now nodeId lti ti r :
  ri_wf r -> ri_targets r !! lti_targetId lti = Some ti ->
  runs (localUpdateTarget ig now nodeId lti ti) r (fun o r' => r' = r /\
    exists ti', o = Ok ti' /\ heartbeat_effect ig now nodeId r lti ti ti').
Proof.
  intros Hwf Hti. destruct (rw_target _ Hwf _ _ Hti) as (_ & c & Hc & _).
  unfold localUpdateTarget, getChain, heartbeat_effect, stale_report. rewrite Hc.
  assert (Hrec : report_recorded now nodeId lti ti
    (set_ti_base (set_fti_usedSize (lti_usedSize lti) (set_fti_location (Some nodeId) (lti_diskIndex lti)
       (set_fti_localState (lti_localState lti) (ti_base ti))))
       (if bool_decide (fti_localState (ti_base ti) <> lti_localState lti) || bool_decide (fti_nodeId (ti_base ti) <> Some nodeId)
        then set_ti_importantInfoChangedTime now (set_ti_ts now ti) else set_ti_ts now ti))).
  { split; try done; repeat case_bool_decide; simpl; done. }
  mstep. destruct (bool_decide (lti_chainVersion lti = 0) || negb ig); simpl.
  - msteps. split; [done|]. eauto.
  - msteps. rewrite Hc. msteps. destruct (bool_decide (ci_chainVersion c > lti_chainVersion lti)); msteps; (split; [done|]); eauto.
Qed.

Lemma runs_localUpdateTargets_effect ig now nodeId ltis r :
  ri_wf r -> NoDup (map lti_targetId ltis) ->
  runs (localUpdateTargets ig now nodeId ltis) r (fun o r' =>
    (forall tid, tid ∉ map lti_targetId ltis -> ri_targets r' !! tid = ri_targets r !! tid) /\
    (forall lti ti, lti ∈ ltis -> ri_targets r !! lti_targetId lti = Some ti ->
       exists ti', ri_targets r' !! lti_targetId lti = Some ti' /\ heartbeat_effect ig now nodeId r lti ti ti')).
Proof.
  intros Hwf Hnd. unfold localUpdateTargets. mstep. eapply runs_mono; [by apply ri_wf_clear_orphans|].
  intros o r1 (-> & Hwf1 & A & B & ->). mstep.
  apply (runs_for_each (fun rest r2 => exists pre, ltis = pre ++ rest /\ ri_wf r2 /\ ri_chains r2 = ri_chains r /\
    (forall tid, tid ∉ map lti_targetId pre -> ri_targets r2 !! tid = ri_targets r !! tid) /\
    (forall lti ti, lti ∈ pre -> ri_targets r !! lti_targetId lti = Some ti ->
       exists ti', ri_targets r2 !! lti_targetId lti = Some ti' /\ heartbeat_effect ig now nodeId r lti ti ti'))).
  - exists []. split_and!; try done. intros lti ti Hx. by apply elem_of_nil in Hx.
  - clear Hwf1. intros lti rest r2 (pre & Hl & Hwf2 & Hch & Hout & Hpre). msteps.
    assert (Hn : lti_targetId lti ∉ map lti_targetId pre).
    { intros Hx. rewrite Hl, map_app in Hnd. apply NoDup_app in Hnd as (_ & Hd & _). apply (Hd (lti_targetId lti)); [done|left]. }
    assert (Hpre' : forall lti', lti' ∈ pre -> lti_targetId lti' <> lti_targetId lti).
    { intros lti' Hx E. apply Hn. rewrite <- E. by apply list_elem_of_fmap_2. }
    destruct (ri_targets r2 !! lti_targetId lti) as [ti|] eqn:E.
    + apply runs_updateTarget. rewrite E. eapply runs_mono; [apply runs_conj; [by apply runs_localUpdateTarget|by apply runs_localUpdateTarget_effect]|].
      intros o r3 [(-> & ti' & -> & Ht & Hps) (_ & ti'' & [= <-] & Heff)].
      exists (pre ++ [lti]). split_and!; [by rewrite <- app_assoc|by eapply ri_wf_update_target|done| |].
      * intros tid Hx. rewrite map_app, not_elem_of_app in Hx. destruct Hx as [Hx1 Hx2]. simpl.
        rewrite lookup_insert_ne; [by apply Hout|]. intros <-. apply Hx2. left.
      * intros lti' ti0 Hx Hti0. simpl. apply elem_of_app in Hx as [Hx|Hx].
        -- rewrite lookup_insert_ne by (symmetry; by apply Hpre'). by apply Hpre.
        -- apply list_elem_of_singleton in Hx as ->. rewrite lookup_insert_eq. exists ti'. split; [done|].
           rewrite Hout, Hti0 in E by done. injection E as ->. unfold heartbeat_effect, stale_report in *. by rewrite Hch in Heff.
    + eapply runs_mono; [by apply ri_wf_add_orphan|]. intros o r3 (-> & Hwf3 & A' & B' & ->). exists (pre ++ [lti]).
      split_and!; [by rewrite <- app_assoc|done..| |].
      * intros tid Hx. rewrite map_app, not_elem_of_app in Hx. destruct Hx as [Hx _]. by apply Hout.
      * intros lti' ti0 Hx Hti0. apply elem_of_app in Hx as [Hx|Hx]; [by apply Hpre|].
        apply list_elem_of_singleton in Hx as ->. simpl in *. rewrite Hout in E by done. congruence.
  - intros r2 (pre & Hl & _ & _ & Hout & Hpre). rewrite app_nil_r in Hl. by subst pre.
Qed.
