(* ===== verification/MgmtdState.v ===== *)
(** * The manager's persistent store ([src/mgmtd/store/MgmtdStore.{h,cc}])

    The key-value store as one table per kind of object: [MgmtdKeys.v] shows
    that different objects have different keys.  A stored object is kept as
    the value it was serialized from.  A transaction's handler is a
    computation [M Store A] on the store it reads. *)

From Stdlib Require Import ZArith Lia.
From stdpp Require Import base list gmap sorting strings.
From S2P Require Import Prelude StatusCode MgmtdTypes UpdateChain ChainProtocol RoutingInfo.

Record Store := mkStore {
  st_lease : option MgmtdLeaseInfo;
  st_version : option RoutingInfoVersion;
  st_nodes : gmap NodeId PersistentNodeInfo;
  st_configs : gmap (NodeType * ConfigVersion) ConfigInfo;
  st_chainTables : gmap (ChainTableId * ChainTableVersion) ChainTable;
  st_chains : gmap ChainId ChainInfo;
  st_tags : gmap string (list TagPair);
  st_targets : gmap TargetId FlatTargetInfo
}.

Definition Store_empty : Store := mkStore None None ∅ ∅ ∅ ∅ ∅ ∅.

Definition set_st_lease v s := mkStore v (st_version s) (st_nodes s) (st_configs s) (st_chainTables s) (st_chains s) (st_tags s) (st_targets s).
Definition set_st_version v s := mkStore (st_lease s) v (st_nodes s) (st_configs s) (st_chainTables s) (st_chains s) (st_tags s) (st_targets s).
Definition set_st_nodes v s := mkStore (st_lease s) (st_version s) v (st_configs s) (st_chainTables s) (st_chains s) (st_tags s) (st_targets s).
Definition set_st_configs v s := mkStore (st_lease s) (st_version s) (st_nodes s) v (st_chainTables s) (st_chains s) (st_tags s) (st_targets s).
Definition set_st_chainTables v s := mkStore (st_lease s) (st_version s) (st_nodes s) (st_configs s) v (st_chains s) (st_tags s) (st_targets s).
Definition set_st_chains v s := mkStore (st_lease s) (st_version s) (st_nodes s) (st_configs s) (st_chainTables s) v (st_tags s) (st_targets s).
Definition set_st_tags v s := mkStore (st_lease s) (st_version s) (st_nodes s) (st_configs s) (st_chainTables s) (st_chains s) v (st_targets s).
Definition set_st_targets v s := mkStore (st_lease s) (st_version s) (st_nodes s) (st_configs s) (st_chainTables s) (st_chains s) (st_tags s) v.

(** ** Nodes, chains, tables *)

Definition storeNodeInfo (info : PersistentNodeInfo) : M Store unit :=
  modify (fun s => set_st_nodes (<[pni_nodeId info := info]> (st_nodes s)) s).
Definition clearNodeInfo (nodeId : NodeId) : M Store unit :=
  modify (fun s => set_st_nodes (delete nodeId (st_nodes s)) s).
Definition loadNodeInfo (nodeId : NodeId) : M Store (option PersistentNodeInfo) :=
  gets (fun s => st_nodes s !! nodeId).

(** [loadAllNodes]: the id in the key must be the one in the value. *)
Definition loadAllNodes : M Store (list PersistentNodeInfo) :=
  s ← getS;
  let l := map_to_list (st_nodes s) in
  err_if (existsb (fun kv => negb (bool_decide (fst kv = pni_nodeId (snd kv)))) l) kDataCorruption ;;
  mret (map snd l).

Definition storeChainTable (t : ChainTable) : M Store unit :=
  modify (fun s => set_st_chainTables (<[(ct_chainTableId t, ct_chainTableVersion t) := t]> (st_chainTables s)) s).
Definition loadAllChainTables : M Store (list ChainTable) := gets (fun s => map snd (map_to_list (st_chainTables s))).

Definition storeChainInfo (c : ChainInfo) : M Store unit :=
  modify (fun s => set_st_chains (<[ci_chainId c := c]> (st_chains s)) s).
Definition loadAllChains : M Store (list ChainInfo) := gets (fun s => map snd (map_to_list (st_chains s))).

(** ** Routing version *)

Definition loadRoutingInfoVersion : M Store RoutingInfoVersion := gets (fun s => default 0 (st_version s)).
Definition storeRoutingInfoVersion (v : RoutingInfoVersion) : M Store unit := modify (set_st_version (Some v)).

(** ** Configurations *)

Definition storeConfig (nodeType : NodeType) (info : ConfigInfo) : M Store unit :=
  modify (fun s => set_st_configs (<[(nodeType, cfg_configVersion info) := info]> (st_configs s)) s).

(** [unpackConfigInfo]: the version in the key must be the one in the value. *)
Definition config_entry_bad (kv : (NodeType * ConfigVersion) * ConfigInfo) : bool :=
  negb (bool_decide (snd (fst kv) = cfg_configVersion (snd kv))).

Definition loadAllConfigs : M Store (list (NodeType * ConfigInfo)) :=
  s ← getS;
  let l := map_to_list (st_configs s) in
  err_if (existsb config_entry_bad l) kDataCorruption ;;
  mret (map (fun kv => (fst (fst kv), snd kv)) l).

(** [loadLatestConfig]: keys of a type are listed latest version first. *)
Definition latest_entry (type : NodeType) (l : list ((NodeType * ConfigVersion) * ConfigInfo))
    : option ((NodeType * ConfigVersion) * ConfigInfo) :=
  foldr (fun kv acc =>
    if decide (fst (fst kv) = type) then
      match acc with
      | Some kv' => if decide (snd (fst kv) < snd (fst kv')) then acc else Some kv
      | None => Some kv
      end
    else acc) None l.

Definition loadLatestConfig (type : NodeType) : M Store (option ConfigInfo) :=
  s ← getS;
  match latest_entry type (map_to_list (st_configs s)) with
  | None => mret None
  | Some kv => err_if (config_entry_bad kv) kDataCorruption ;; mret (Some (snd kv))
  end.

Definition loadConfig (type : NodeType) (version : ConfigVersion) : M Store (option ConfigInfo) :=
  gets (fun s => st_configs s !! (type, version)).

(** ** Universal tags *)

Definition storeUniversalTags (id : string) (tags : list TagPair) : M Store unit :=
  err_if (bool_decide (id = "")) kInvalidArg ;;
  modify (fun s => set_st_tags (<[id := tags]> (st_tags s)) s).
Definition loadUniversalTags (id : string) : M Store (list TagPair) :=
  err_if (bool_decide (id = "")) kInvalidArg ;;
  gets (fun s => default [] (st_tags s !! id)).
Definition loadAllUniversalTags : M Store (list (string * list TagPair)) :=
  s ← getS;
  let l := map_to_list (st_tags s) in
  err_if (existsb (fun kv => bool_decide (fst kv = "")) l) kDataCorruption ;;
  mret l.
Definition clearUniversalTags (id : string) : M Store unit :=
  err_if (bool_decide (id = "")) kInvalidArg ;;
  modify (fun s => set_st_tags (delete id (st_tags s)) s).

(** ** Targets *)

Definition storeTargetInfo (ti : FlatTargetInfo) : M Store unit :=
  modify (fun s => set_st_targets (<[fti_targetId ti := ti]> (st_targets s)) s).
Definition clearTargetInfo (tid : TargetId) : M Store unit :=
  modify (fun s => set_st_targets (delete tid (st_targets s)) s).
Definition loadTargetInfo (tid : TargetId) : M Store (option FlatTargetInfo) := gets (fun s => st_targets s !! tid).

(** Key order: [loadTargetsFrom] reads one page of the targets from [tid] on;
    [page] is how many entries the store returns at once. *)
Definition id_le (a b : TargetId * FlatTargetInfo) : Prop := fst a <= fst b.
#[export] Instance id_le_dec a b : Decision (id_le a b).
Proof. unfold id_le. apply _. Defined.
Definition targets_in_order (s : Store) : list (TargetId * FlatTargetInfo) :=
  merge_sort id_le (map_to_list (st_targets s)).
Definition loadTargetsFrom (page : nat) (tid : TargetId) : M Store (list FlatTargetInfo) :=
  gets (fun s => map snd (take page (filter (fun kv => tid <= fst kv) (targets_in_order s)))).

(** ** Leases *)

Definition loadMgmtdLeaseInfo : M Store (option MgmtdLeaseInfo) := gets st_lease.
Definition storeMgmtdLeaseInfo (l : MgmtdLeaseInfo) : M Store MgmtdLeaseInfo :=
  modify (set_st_lease (Some l)) ;; mret l.

Definition extendLease (nodeInfo : PersistentNodeInfo) (leaseLength : Z) (now : UtcTime) (rv : ReleaseVersion)
    (checkReleaseVersion : bool) : M Store MgmtdLeaseInfo :=
  stored ← loadMgmtdLeaseInfo;
  let newLease := mkMgmtdLeaseInfo nodeInfo now (now + leaseLength) rv in
  match stored with
  | Some l =>
      rollback ← (if checkReleaseVersion then
                    match rv_compare rv (li_releaseVersion l) with
                    | Some c => mret (match c with Lt => true | _ => false end)
                    | None => fatal
                    end
                  else mret false);
      if (rollback : bool) then mret l
      else if bool_decide (li_leaseEnd l >= now + leaseLength) then mret l
      else if bool_decide (li_leaseEnd l < now) then storeMgmtdLeaseInfo newLease
      else if bool_decide (pni_nodeId (li_primary l) = pni_nodeId nodeInfo) then
        storeMgmtdLeaseInfo (mkMgmtdLeaseInfo nodeInfo (li_leaseStart l) (now + leaseLength) rv)
      else mret l
  | None => storeMgmtdLeaseInfo newLease
  end.

Definition ensureLeaseValid (nodeId : NodeId) (now : UtcTime) : M Store unit :=
  stored ← loadMgmtdLeaseInfo;
  match stored with
  | Some l =>
      err_if (bool_decide (pni_nodeId (li_primary l) <> nodeId)) MgmtdCode_kNotPrimary ;;
      err_if (bool_decide (li_leaseEnd l < now)) MgmtdCode_kNotPrimary
  | None => fail MgmtdCode_kNotPrimary
  end.

(** ** Shutting every chain down *)

Definition shutdownAllChains : M Store unit :=
  riv ← loadRoutingInfoVersion;
  storeRoutingInfoVersion (u64 (riv + 1)) ;;
  chains ← loadAllChains;
  for_each (fun ci =>
    newTargets ← lift (shutdownChain (ci_targets ci));
    when (bool_decide (ci_targets ci <> newTargets))
      (storeChainInfo (mkChainInfo (ci_chainId ci) (u32 (ci_chainVersion ci + 1)) newTargets (ci_preferredTargetOrder ci))))
    chains.

(** [storeRoutingInfo], on the parts of [flat::RoutingInfo] it reads. *)
Definition storeRoutingInfo (version : RoutingInfoVersion) (nodes : list NodeInfo)
    (tables : list (list ChainTable)) (chains : list ChainInfo) : M Store unit :=
  storeRoutingInfoVersion version ;;
  for_each (fun n => storeNodeInfo (toPersistentNode n)) nodes ;;
  for_each (fun vm => for_each storeChainTable vm) tables ;;
  for_each storeChainInfo chains.

(** * The state of a manager process and its transactions
    ([src/mgmtd/service/{MgmtdConfig,LeaseInfo,MgmtdData,MgmtdState,helpers}.{h,cc}],
    [src/common/kv/WithTransaction.h], [src/fdb/FDBRetryStrategy.h])

    A manager process holds its data in memory and reaches the shared store
    through transactions that may fail, be retried, or fail with their effect
    applied.  What the environment decides is an argument: clock readings, the
    user store's answer, and the list of transaction attempts. *)

(** ** Data *)

Record MgmtdConfig := mkMgmtdConfig {
  cf_lease_length : Z;
  cf_suspicious_lease_interval : Z;
  cf_heartbeat_timestamp_valid_window : Z;
  cf_allow_heartbeat_from_unregistered : bool;
  cf_heartbeat_fail_interval : Z;
  cf_new_chain_bootstrap_interval : Z;
  cf_client_session_timeout : Z;
  cf_bootstrapping_length : Z;
  cf_validate_lease_on_write : bool;
  cf_heartbeat_ignore_stale_targets : bool;
  cf_retry_times_on_txn_errors : Z;
  cf_target_info_persist_batch : Z;
  cf_try_adjust_target_order_as_preferred : bool;
  cf_extend_lease_check_release_version : bool;
  cf_authenticate : bool;
  cf_max_retry_count : Z;
  cf_enable_routinginfo_cache : bool;
  cf_only_accept_client_uuid : bool
}.

(** The defaults of [MgmtdConfig.h], in microseconds. *)
Definition MgmtdConfig_default : MgmtdConfig :=
  mkMgmtdConfig 60000000 20000000 30000000 false 60000000 120000000 1200000000 120000000 true true (-1) 1000 false true
    false 10 true false.

Record LeaseInfo := mkLeaseInfo {
  le_lease : option MgmtdLeaseInfo;
  le_bootstrapping : bool
}.

(** [flat::RoutingInfo], the copy sent to clients. *)
Record FlatRoutingInfo := mkFlatRoutingInfo {
  fri_routingInfoVersion : RoutingInfoVersion;
  fri_bootstrapping : bool;
  fri_nodes : gmap NodeId NodeInfo;
  fri_chainTables : gmap ChainTableId (gmap ChainTableVersion ChainTable);
  fri_chains : gmap ChainId ChainInfo;
  fri_targets : gmap TargetId FlatTargetInfo
}.

Record MgmtdData := mkMgmtdData {
  md_leaseStartTs : SteadyTime;
  md_routingInfo : RoutingInfo;
  md_configMap : gmap NodeType (gmap ConfigVersion ConfigInfo);
  md_lease : LeaseInfo;
  md_universalTagsMap : gmap string (list TagPair);
  md_routingInfoCache : option FlatRoutingInfo
}.

Definition set_md_routingInfo v d := mkMgmtdData (md_leaseStartTs d) v (md_configMap d) (md_lease d) (md_universalTagsMap d) (md_routingInfoCache d).
Definition set_md_configMap v d := mkMgmtdData (md_leaseStartTs d) (md_routingInfo d) v (md_lease d) (md_universalTagsMap d) (md_routingInfoCache d).
Definition set_md_lease v d := mkMgmtdData (md_leaseStartTs d) (md_routingInfo d) (md_configMap d) v (md_universalTagsMap d) (md_routingInfoCache d).
Definition set_md_tags v d := mkMgmtdData (md_leaseStartTs d) (md_routingInfo d) (md_configMap d) (md_lease d) v (md_routingInfoCache d).
Definition set_md_cache v d := mkMgmtdData (md_leaseStartTs d) (md_routingInfo d) (md_configMap d) (md_lease d) (md_universalTagsMap d) v.

(** [MgmtdState]: one manager process. *)
Record MgmtdState := mkMgmtdState {
  ms_clusterId : string;
  ms_selfId : NodeId;
  ms_selfNodeInfo : NodeInfo;
  ms_selfPersistentNodeInfo : PersistentNodeInfo;
  ms_config : MgmtdConfig;
  ms_data : MgmtdData;
  ms_clientSessionMap : gmap string ClientSession
}.

Definition set_ms_selfNodeInfo v m := mkMgmtdState (ms_clusterId m) (ms_selfId m) v (ms_selfPersistentNodeInfo m) (ms_config m) (ms_data m) (ms_clientSessionMap m).
Definition set_ms_selfPersistent v m := mkMgmtdState (ms_clusterId m) (ms_selfId m) (ms_selfNodeInfo m) v (ms_config m) (ms_data m) (ms_clientSessionMap m).
Definition set_ms_data v m := mkMgmtdState (ms_clusterId m) (ms_selfId m) (ms_selfNodeInfo m) (ms_selfPersistentNodeInfo m) (ms_config m) v (ms_clientSessionMap m).
Definition set_ms_sessions v m := mkMgmtdState (ms_clusterId m) (ms_selfId m) (ms_selfNodeInfo m) (ms_selfPersistentNodeInfo m) (ms_config m) (ms_data m) v.

(** A process and the store it talks to. *)
Record Sys := mkSys { sy_mem : MgmtdState; sy_store : Store }.
Definition set_sy_mem v s := mkSys v (sy_store s).
Definition set_sy_store v s := mkSys (sy_mem s) v.

Definition onMem {A} (m : M MgmtdState A) : M Sys A := zoom sy_mem set_sy_mem m.
Definition onData {A} (m : M MgmtdData A) : M Sys A := onMem (zoom ms_data set_ms_data m).
Definition onRouting {A} (m : M RoutingInfo A) : M Sys A := onData (zoom md_routingInfo set_md_routingInfo m).
Definition getConfigItem {A} (f : MgmtdConfig -> A) : M Sys A := gets (fun s => f (ms_config (sy_mem s))).
Definition sys_ri (s : Sys) : RoutingInfo := md_routingInfo (ms_data (sy_mem s)).

(** ** Transactions *)

Inductive CommitResult :=
| CommitOk
| CommitErr (code : Z) (applied : bool).

(** One attempt: what other clients did to the store since the last one, the
    clock reading the handler takes, the error a read inside the handler meets
    if any, the result of the commit, and, after an error, the verdict of
    FoundationDB's own back-off ([None]: the generic one is used). *)
Record Attempt := mkAttempt {
  at_env : Store -> Store;
  at_utcNow : UtcTime;
  at_readError : option Z;
  at_commit : CommitResult;
  at_fdbBackoff : option bool
}.

(** [FDBRetryStrategy::onError] with [retryMaybeCommitted = true]. *)
Definition strategy_retries (maxRetryCount retry : Z) (a : Attempt) (code : Z) : bool :=
  if bool_decide (retry >= maxRetryCount) then false
  else if negb (isTransactionError code) then false
  else match at_fdbBackoff a with
       | Some verdict => verdict
       | None => isRetryable code true
       end.

(** [WithTransaction::run] on a read-write transaction.  [L] is what the handler
    keeps outside the transaction: it survives a retry. *)
Section WithTransaction.
Context {L A : Type}.
Variable maxRetryCount : Z.
Variable handler : Attempt -> M (L * Store) A.

(** [runAndCommit] *)
Definition runAndCommit (a : Attempt) (ls : L * Store) : outcome A * (L * Store) :=
  let store := at_env a (snd ls) in
  let '(r, (l, written)) :=
    match at_readError a with
    | Some c => (Err c, (fst ls, store))
    | None => handler a (fst ls, store)
    end in
  match r with
  | Ok x =>
      match at_commit a with
      | CommitOk => (Ok x, (l, written))
      | CommitErr c applied => (Err c, (l, if applied then written else store))
      end
  | _ => (r, (l, store))
  end.

Fixpoint WithTransaction_run (attempts : list Attempt) (retry : Z) (ls : L * Store)
    : outcome A * (L * Store) * list Attempt :=
  match attempts with
  | [] => (Pending, ls, [])
  | a :: rest =>
      match runAndCommit a ls with
      | (Err c, ls') =>
          if strategy_retries maxRetryCount retry a c then WithTransaction_run rest (u64 (retry + 1)) ls'
          else (Err c, ls', rest)
      | (r, ls') => (r, ls', rest)
      end
  end.

(** The loop of [withReadWriteTxn]: [i] counts the failed transactions. *)
Fixpoint txn_loop (fuel : nat) (maxRetryTimes i : Z) (attempts : list Attempt) (ls : L * Store) : outcome A * (L * Store) :=
  match fuel with
  | O => (Pending, ls)
  | S fuel' =>
      let '(res, ls', rest) := WithTransaction_run attempts 0 ls in
      match res with
      | Err c =>
          if bool_decide (i = maxRetryTimes) || negb (bool_decide (typeOf c = Transaction)) then (Err c, ls')
          else txn_loop fuel' maxRetryTimes (i + 1) rest ls'
      | _ => (res, ls')
      end
  end.
End WithTransaction.

(** A handler that keeps nothing outside its transaction. *)
Definition inStore {L A} (m : M Store A) : M (L * Store) A := zoom snd (fun s ls => (fst ls, s)) m.

(** One attempt's work: the lease check, then the handler. *)
Definition txn_body {L A} (m : MgmtdState) (expectSelfPrimary : bool) (handler : Attempt -> M (L * Store) A) (a : Attempt)
    : M (L * Store) A :=
  when (expectSelfPrimary && cf_validate_lease_on_write (ms_config m))
    (inStore (ensureLeaseValid (ms_selfId m) (at_utcNow a))) ;;
  handler a.

(** [withReadWriteTxn]: a retry consumes an attempt, so the attempts bound the
    number of rounds.  What the handler keeps outside is returned with any
    outcome. *)
Definition withReadWriteTxn_local {L A} (attempts : list Attempt) (expectSelfPrimary : bool)
    (handler : Attempt -> M (L * Store) A) (l : L) (s : Sys) : outcome A * (L * Sys) :=
  let cfg := ms_config (sy_mem s) in
  let '(res, (l', store)) :=
    txn_loop (cf_max_retry_count cfg) (txn_body (sy_mem s) expectSelfPrimary handler) (S (length attempts))
      (cf_retry_times_on_txn_errors cfg) 0 attempts (l, sy_store s) in
  (res, (l', set_sy_store store s)).

Definition withReadWriteTxn {A} (attempts : list Attempt) (expectSelfPrimary : bool) (handler : Attempt -> M Store A)
    : M Sys A := fun s =>
  let '(res, (_, s')) := withReadWriteTxn_local attempts expectSelfPrimary (fun a => inStore (handler a)) tt s in
  (res, s').

(** ** Checks *)

Definition validateClusterId (clusterId : string) : M Sys unit :=
  s ← getS;
  err_if (bool_decide (clusterId <> ms_clusterId (sy_mem s))) MgmtdCode_kClusterIdMismatch.

(** [validateAdmin]: [getUser] is the user store's answer, whether the user is
    an administrator. *)
Definition validateAdmin (getUser : outcome bool) : M Sys unit :=
  auth ← getConfigItem cf_authenticate;
  when auth
    (admin ← lift getUser;
     err_if (negb admin) MgmtdCode_kNotAdmin).

Definition currentLease (now : UtcTime) (m : MgmtdState) : option MgmtdLeaseInfo :=
  let lease := md_lease (ms_data m) in
  match le_lease lease with
  | Some l =>
      if bool_decide (now + cf_suspicious_lease_interval (ms_config m) < li_leaseEnd l) && negb (le_bootstrapping lease)
      then Some l else None
  | None => None
  end.

Definition ensureSelfIsPrimary (utcNow : UtcTime) : M Sys unit :=
  s ← getS;
  match currentLease utcNow (sy_mem s) with
  | Some l => err_if (bool_decide (pni_nodeId (li_primary l) <> ms_selfId (sy_mem s))) MgmtdCode_kNotPrimary
  | None => fail MgmtdCode_kNotPrimary
  end.

Definition doAsPrimary {A} (utcNow : UtcTime) (handler : M Sys A) : M Sys A := ensureSelfIsPrimary utcNow ;; handler.

(** ** Routing information, in store and memory *)

Definition updateStoredRoutingInfo (attempts : list Attempt) (handler : Attempt -> M Store unit) : M Sys unit :=
  s ← getS;
  let nextv := nextVersion64 (ri_routingInfoVersion (sys_ri s)) in
  withReadWriteTxn attempts true (fun a => storeRoutingInfoVersion nextv ;; handler a).

(** [updateMemoryRoutingInfo(ri, ctx)] *)
Definition bumpMemoryRoutingInfo : M RoutingInfo unit :=
  modify (fun r => set_ri_changed false (set_ri_version (u64 (ri_routingInfoVersion r + 1)) r)).

Definition updateMemoryRoutingInfo (handler : M RoutingInfo unit) : M Sys unit :=
  onRouting (bumpMemoryRoutingInfo ;; handler).

(** ** Configurations *)

(** [versionedMap.rbegin()]: the entry with the greatest version. *)
Definition rbegin {V} (m : gmap Z V) : option (Z * V) :=
  map_fold (fun k v acc => match acc with
    | Some (k', _) => if decide (k' < k) then Some (k, v) else acc
    | None => Some (k, v) end) None m.

(** An empty version map would be undefined behaviour. *)
Definition checkConfigVersion (type : NodeType) (version : ConfigVersion) : M MgmtdData unit :=
  d ← getS;
  match md_configMap d !! type with
  | None => fail kInvalidArg
  | Some vm =>
      match rbegin vm with
      | None => fatal
      | Some (latest, _) => err_if (bool_decide (version > latest)) MgmtdCode_kInvalidConfigVersion
      end
  end.

Definition getConfig (type : NodeType) (version : ConfigVersion) (latest : bool) : M MgmtdData (option ConfigInfo) :=
  d ← getS;
  match md_configMap d !! type with
  | None => fatal
  | Some vm =>
      if latest then
        match rbegin vm with
        | None => fatal
        | Some (_, info) =>
            fatal_if (bool_decide (version > cfg_configVersion info)) ;;
            mret (if bool_decide (version < cfg_configVersion info) then Some info else None)
        end
      else mret (vm !! version)
  end.

Definition getLatestConfigVersion (type : NodeType) : M MgmtdData ConfigVersion :=
  d ← getS;
  match md_configMap d !! type ≫= rbegin with
  | Some (v, _) => mret v
  | None => fatal
  end.

(** ** Routing information for clients *)

Definition checkRoutingInfoVersion (version : RoutingInfoVersion) : M MgmtdData unit :=
  d ← getS;
  err_if (bool_decide (version > ri_routingInfoVersion (md_routingInfo d))) MgmtdCode_kInvalidRoutingInfoVersion.

Definition bootstrapping (bootstrapping_length : Z) (steadyNow : SteadyTime) (d : MgmtdData) : bool :=
  bool_decide (md_leaseStartTs d + bootstrapping_length > steadyNow).

Definition flattenRoutingInfo (boot : bool) (r : RoutingInfo) : FlatRoutingInfo :=
  mkFlatRoutingInfo (ri_routingInfoVersion r) boot (nw_base <$> ri_nodeMap r) (ri_chainTables r) (ri_chains r)
    (ti_base <$> ri_targets r).

Definition getRoutingInfo (version : RoutingInfoVersion) (cfg : MgmtdConfig) (steadyNow : SteadyTime)
    : M MgmtdData (option FlatRoutingInfo) :=
  d ← getS;
  let info := md_routingInfo d in
  let current := ri_routingInfoVersion info in
  if bool_decide (version = current) then mret None
  else
    let cacheOn := cf_enable_routinginfo_cache cfg in
    let hit :=
      if negb (bool_decide (version = 0)) && cacheOn then
        match md_routingInfoCache d with
        | Some c => if bool_decide (fri_routingInfoVersion c = current) then Some c else None
        | None => None
        end
      else None in
    match hit with
    | Some c => mret (Some c)
    | None =>
        let res := flattenRoutingInfo (bootstrapping (cf_bootstrapping_length cfg) steadyNow d) info in
        when (cacheOn && match md_routingInfoCache d with
                         | Some c => bool_decide (fri_routingInfoVersion c < current)
                         | None => true
                         end)
          (modify (set_md_cache (Some res))) ;;
        mret (Some res)
    end.

(** ** Chains to update *)

Definition chainTargetsEx (r : RoutingInfo) (ctis : list ChainTargetInfo) : outcome (list ChainTargetInfoEx) :=
  foldr (fun cti acc =>
    match ri_targets r !! cti_targetId cti, acc with
    | Some ti, Ok l => Ok (cte_make cti (fti_localState (ti_base ti)) :: l)
    | Some _, o => o
    | None, _ => Fatal
    end) (Ok []) ctis.

(** [appendChangedChains]: [targets.at] of an unknown target throws, [back] of
    an empty vector is undefined. *)
Definition appendChangedChains (r : RoutingInfo) (chainId : ChainId) (tryAdjustTargetOrder : bool)
    (changedChains : list ChainInfo) : outcome (list ChainInfo) :=
  match ri_newBornChains r !! chainId with
  | Some _ => Ok changedChains
  | None =>
      match ri_chains r !! chainId with
      | None => Fatal
      | Some oldChain =>
          match chainTargetsEx r (ci_targets oldChain) with
          | Ok oldTargets =>
              let newTargets := generateNewChain oldTargets in
              let adjusted :=
                if tryAdjustTargetOrder && negb (bool_decide (ci_preferredTargetOrder oldChain = [])) then
                  match last newTargets with
                  | None => Fatal
                  | Some t =>
                      if bool_decide (cte_publicState t = PS_SERVING)
                      then rotateAsPreferredOrder newTargets (ci_preferredTargetOrder oldChain)
                      else Ok newTargets
                  end
                else Ok newTargets in
              match adjusted with
              | Ok newTargets =>
                  if bool_decide (oldTargets <> newTargets) then
                    Ok (changedChains ++
                        [mkChainInfo chainId (nextVersion32 (ci_chainVersion oldChain)) (map cte_slice newTargets)
                           (ci_preferredTargetOrder oldChain)])
                  else Ok changedChains
              | Err c => Err c | Fatal => Fatal | Pending => Pending
              end
          | Err c => Err c | Fatal => Fatal | Pending => Pending
          end
      end
  end.

(** An empty configuration at version 0 for every node type, as a new primary
    starts with. *)
Definition initial_configs : gmap NodeType (gmap ConfigVersion ConfigInfo) :=
  list_to_map (map (fun t => (t, {[ 0 := ConfigInfo_default ]})) all_node_types).

(** [MgmtdData::reset] *)
Definition resetData (version : RoutingInfoVersion) (allNodes : gmap NodeId NodeInfoWrapper)
    (allConfigs : gmap NodeType (gmap ConfigVersion ConfigInfo))
    (allChainTables : gmap ChainTableId (gmap ChainTableVersion ChainTable)) (allChains : gmap ChainId ChainInfo)
    (allTargets : gmap TargetId TargetInfo) (allTags : gmap string (list TagPair)) (steadyNow : SteadyTime)
    (d : MgmtdData) : MgmtdData :=
  mkMgmtdData steadyNow (reset version allNodes allChainTables allChains allTargets steadyNow (md_routingInfo d))
    allConfigs (mkLeaseInfo (le_lease (md_lease d)) false) allTags None.

(** ** Tags *)

(** [std::map]: a sorted map; the result lists it in key order. *)
Definition tag_le (a b : string * string) : Prop := String.leb (fst a) (fst b) = true.
#[export] Instance tag_le_dec a b : Decision (tag_le a b).
Proof. unfold tag_le. apply _. Defined.

Definition tags_of_map (m : gmap string string) : list TagPair :=
  map (fun kv => mkTagPair (fst kv) (snd kv)) (merge_sort tag_le (map_to_list m)).

Definition insert_tags (tags : list TagPair) (m : gmap string string) : gmap string string :=
  foldl (fun m tp => <[tp_key tp := tp_value tp]> m) m tags.
Definition try_emplace_tags (tags : list TagPair) (m : gmap string string) : gmap string string :=
  foldl (fun m tp => match m !! tp_key tp with Some _ => m | None => <[tp_key tp := tp_value tp]> m end) m tags.

Definition updateTags (mode : SetTagMode) (oldTags updates : list TagPair) : outcome (list TagPair) :=
  match mode with
  | REPLACE => Ok (tags_of_map (insert_tags updates ∅))
  | UPSERT => Ok (tags_of_map (try_emplace_tags oldTags (insert_tags updates ∅)))
  | REMOVE =>
      if existsb (fun tp => negb (bool_decide (tp_value tp = ""))) updates then Err MgmtdCode_kInvalidTag
      else Ok (tags_of_map (foldl (fun m tp => delete (tp_key tp) m) (insert_tags oldTags ∅) updates))
  end.

(** [updateSelfConfig]: [updater] is the process's configuration updater, if it
    has one, and the answer it gives. *)
Definition updateSelfConfig (updater : option (outcome unit)) (cfg : ConfigInfo) : M Sys unit :=
  s ← getS;
  let current := ni_configVersion (ms_selfNodeInfo (sy_mem s)) in
  fatal_if (bool_decide (current > cfg_configVersion cfg)) ;;
  if bool_decide (current >= cfg_configVersion cfg) then mret tt
  else match updater with
       | None => mret tt
       | Some answer => lift answer
       end.

(** ** The latest version of a map *)

Lemma rbegin_spec {V} (m : gmap Z V) :
  match rbegin m with
  | Some (k, v) => m !! k = Some v /\ forall k', is_Some (m !! k') -> k' <= k
  | None => m = ∅
  end.
Proof.
  unfold rbegin. apply (map_fold_weak_ind (fun acc m => match acc with
    | Some (k, v) => m !! k = Some v /\ forall k', is_Some (m !! k') -> k' <= k
    | None => m = ∅ end)); [done|].
  intros k v m0 [[k0 v0]|] Hn IH.
  - destruct IH as [Hk0 Hmax]. case_decide.
    + rewrite lookup_insert_eq. split; [done|]. intros k'. rewrite lookup_insert. case_decide; [lia|].
      intros Hk'. specialize (Hmax _ Hk'). lia.
    + assert (k <> k0) by (intros ->; congruence). rewrite lookup_insert_ne by done. split; [done|].
      intros k'. rewrite lookup_insert. case_decide; [intros; lia|]. apply Hmax.
  - subst m0. rewrite lookup_insert_eq. split; [done|]. intros k'. rewrite lookup_insert. case_decide; [lia|].
    rewrite lookup_empty. by intros [? ?].
Qed.

Lemma rbegin_nonempty {V} (m : gmap Z V) : m <> ∅ -> exists k v, rbegin m = Some (k, v) /\ m !! k = Some v.
Proof.
  intros Hne. pose proof (rbegin_spec m) as H. destruct (rbegin m) as [[k v]|]; [|done]. exists k, v. by destruct H.
Qed.
