(* ===== verification/ChainOps.v ===== *)
(** * Operations on chains
    ([src/mgmtd/ops/{UpdateChain,SetChains,SetChainTable,RotateAsPreferredOrder,
    RotateLastSrv,SetPreferredTargetOrder}Operation.cc],
    [src/mgmtd/background/MgmtdChainsUpdater.cc])

    Every operation validates its request, runs as the primary, reads memory,
    writes the store in a transaction, and then updates memory.  The writer
    lock makes the operations of one process run one after the other. *)

From stdpp Require Import base list gmap sorting strings.
From Stdlib Require Import ZArith Lia.
From S2P Require Import Prelude StatusCode MgmtdTypes UpdateChain ChainProtocol RoutingInfo MgmtdState.

(** What an operation gets from its environment: the clock readings of the
    lease check, of the operation's own work and of the memory update, the user
    store's answer, and the attempts of its transaction. *)
Record OpEnv := mkOpEnv {
  oe_utcNow : UtcTime;
  oe_utcStart : UtcTime;
  oe_steadyNow : SteadyTime;
  oe_getUser : outcome bool;
  oe_attempts : list Attempt
}.

Definition validateRequest (env : OpEnv) (clusterId : string) : M Sys unit :=
  validateClusterId clusterId ;; validateAdmin (oe_getUser env).

(** ** UpdateChain *)

Inductive UpdateChainMode := UC_ADD | UC_REMOVE | UC_UNKNOWN.
#[export] Instance UpdateChainMode_eq_dec : EqDecision UpdateChainMode.
Proof. solve_decision. Defined.

(** [erase] of the first element that satisfies a test. *)
Fixpoint erase_first {A} (f : A -> bool) (l : list A) : list A :=
  match l with
  | [] => []
  | x :: l' => if f x then l' else x :: erase_first f l'
  end.

Definition chainWithTarget (c : ChainInfo) (tid : TargetId) : ChainInfo :=
  let targets := ci_targets c ++ [mkChainTargetInfo tid PS_OFFLINE] in
  let preferred :=
    if bool_decide (Z.of_nat (length (ci_preferredTargetOrder c)) = Z.of_nat (length targets) - 1)
    then ci_preferredTargetOrder c ++ [tid] else ci_preferredTargetOrder c in
  mkChainInfo (ci_chainId c) (nextVersion32 (ci_chainVersion c)) targets preferred.

Definition chainWithoutTarget (c : ChainInfo) (tid : TargetId) : outcome ChainInfo :=
  match list_find (fun cti => cti_targetId cti = tid) (ci_targets c) with
  | None => Err MgmtdCode_kTargetNotFound
  | Some (_, cti) =>
      if bool_decide (cti_publicState cti <> PS_OFFLINE) then Err kInvalidArg
      else Ok (mkChainInfo (ci_chainId c) (nextVersion32 (ci_chainVersion c))
                 (erase_first (fun cti => bool_decide (cti_targetId cti = tid)) (ci_targets c))
                 (erase_first (fun t => bool_decide (t = tid)) (ci_preferredTargetOrder c)))
  end.

Definition UpdateChainOperation (env : OpEnv) (clusterId : string) (chainId : ChainId) (targetId : TargetId)
    (mode : UpdateChainMode) : M Sys ChainInfo :=
  validateRequest env clusterId ;;
  err_if (bool_decide (chainId = 0)) kInvalidArg ;;
  err_if (bool_decide (targetId = 0)) kInvalidArg ;;
  err_if (bool_decide (mode = UC_UNKNOWN)) kInvalidArg ;;
  let addTarget := bool_decide (mode = UC_ADD) in
  doAsPrimary (oe_utcNow env)
    (ri ← gets sys_ri;
     match ri_chains ri !! chainId with
     | None => fail MgmtdCode_kChainNotFound
     | Some old =>
         err_if (addTarget && bool_decide (is_Some (ri_targets ri !! targetId))) MgmtdCode_kTargetExisted ;;
         chainInfo ← lift (if addTarget then Ok (chainWithTarget old targetId) else chainWithoutTarget old targetId);
         updateStoredRoutingInfo (oe_attempts env) (fun _ =>
           when (negb addTarget) (clearTargetInfo targetId) ;;
           storeChainInfo chainInfo) ;;
         updateMemoryRoutingInfo
           (assignChain chainId chainInfo ;;
            if addTarget then
              match last (ci_targets chainInfo) with
              | Some cti => insertNewTarget (oe_steadyNow env) chainId cti
              | None => fatal
              end
            else removeTarget chainId targetId) ;;
         mret chainInfo
     end).

(** ** SetChains *)

Definition makeChainInfo (setting : ChainSetting) : ChainInfo :=
  mkChainInfo (cs_chainId setting) 1 (map (fun t => mkChainTargetInfo t PS_SERVING) (cs_targets setting))
    (if cs_setPreferredTargetOrder setting then cs_targets setting else []).

Definition ensureChainNotChanged (oldChain : ChainInfo) (newChain : ChainSetting) : outcome unit :=
  if bool_decide (ci_chainId oldChain <> cs_chainId newChain) then Err MgmtdCode_kInvalidChainTable
  else if bool_decide (length (ci_targets oldChain) <> length (cs_targets newChain)) then Err MgmtdCode_kInvalidChainTable
  else if bool_decide (merge_sort Z.le (chain_ids oldChain) <> merge_sort Z.le (cs_targets newChain))
       then Err MgmtdCode_kInvalidChainTable
  else Ok tt.

(** The targets of a new chain: none known, none seen twice. *)
Fixpoint checkNewTargets (ri : RoutingInfo) (tids : list TargetId) (newTargets : gset TargetId) : outcome (gset TargetId) :=
  match tids with
  | [] => Ok newTargets
  | tid :: rest =>
      if bool_decide (is_Some (ri_targets ri !! tid)) || bool_decide (tid ∈ newTargets)
      then Err MgmtdCode_kInvalidChainTable
      else checkNewTargets ri rest ({[tid]} ∪ newTargets)
  end.

Fixpoint checkChains_loop (ri : RoutingInfo) (chains : list ChainSetting) (newChains : list ChainInfo)
    (newTargets : gset TargetId) : outcome (list ChainInfo) :=
  match chains with
  | [] => Ok newChains
  | chain :: rest =>
      if bool_decide (cs_chainId chain = 0) then Err MgmtdCode_kInvalidChainTable
      else if bool_decide (cs_targets chain = []) then Err MgmtdCode_kInvalidChainTable
      else match ri_chains ri !! cs_chainId chain with
           | Some old =>
               match ensureChainNotChanged old chain with
               | Ok _ => checkChains_loop ri rest newChains newTargets
               | Err c => Err c | Fatal => Fatal | Pending => Pending
               end
           | None =>
               match checkNewTargets ri (cs_targets chain) newTargets with
               | Ok newTargets' => checkChains_loop ri rest (newChains ++ [makeChainInfo chain]) newTargets'
               | Err c => Err c | Fatal => Fatal | Pending => Pending
               end
           end
  end.

Definition checkChains (ri : RoutingInfo) (chains : list ChainSetting) : outcome (list ChainInfo) :=
  if bool_decide (chains = []) then Err MgmtdCode_kInvalidChainTable else checkChains_loop ri chains [] ∅.

Definition SetChainsOperation (env : OpEnv) (clusterId : string) (chains : list ChainSetting) : M Sys unit :=
  validateRequest env clusterId ;;
  doAsPrimary (oe_utcNow env)
    (ri ← gets sys_ri;
     newChains ← lift (checkChains ri chains);
     if bool_decide (newChains = []) then mret tt
     else
       updateStoredRoutingInfo (oe_attempts env) (fun _ => for_each storeChainInfo newChains) ;;
       updateMemoryRoutingInfo (for_each (insertNewChain (oe_steadyNow env)) newChains)).

(** ** SetChainTable *)

Fixpoint checkTableChains_loop (ri : RoutingInfo) (chains : list ChainId) (expectedTargets : nat) : outcome unit :=
  match chains with
  | [] => Ok tt
  | cid :: rest =>
      match ri_chains ri !! cid with
      | None => Err MgmtdCode_kChainNotFound
      | Some ci =>
          let n := length (ci_targets ci) in
          if bool_decide (expectedTargets = 0%nat) then checkTableChains_loop ri rest n
          else if bool_decide (n <> expectedTargets) then Err MgmtdCode_kInvalidChainTable
          else checkTableChains_loop ri rest expectedTargets
      end
  end.

Definition checkTableChains (ri : RoutingInfo) (chains : list ChainId) : outcome unit :=
  if bool_decide (chains = []) then Err MgmtdCode_kInvalidChainTable else checkTableChains_loop ri chains 0.

(** The table to store next to the current versions, and whether it differs
    from the latest one. *)
Definition nextChainTable (versions : option (gmap ChainTableVersion ChainTable)) (t : ChainTable)
    : outcome (ChainTable * bool) :=
  match versions with
  | None => Ok (t, true)
  | Some m =>
      match rbegin m with
      | None => Fatal
      | Some (_, current) =>
          let ver := if bool_decide (ct_chains t <> ct_chains current)
                     then nextVersion32 (ct_chainTableVersion current) else ct_chainTableVersion t in
          let desc := if bool_decide (ct_desc t = ""%string) then ct_desc current else ct_desc t in
          let t' := mkChainTable (ct_chainTableId t) ver (ct_chains t) desc in
          Ok (t', negb (bool_decide (t' = current)))
      end
  end.

Definition SetChainTableOperation (env : OpEnv) (clusterId : string) (tableId : ChainTableId) (chains : list ChainId)
    (desc : string) : M Sys ChainTableVersion :=
  validateRequest env clusterId ;;
  doAsPrimary (oe_utcNow env)
    (ri ← gets sys_ri;
     lift (checkTableChains ri chains) ;;
     next ← lift (nextChainTable (ri_chainTables ri !! tableId) (mkChainTable tableId 1 chains desc));
     let '(t, changed) := (next : ChainTable * bool) in
     if changed then
       updateStoredRoutingInfo (oe_attempts env) (fun _ => storeChainTable t) ;;
       updateMemoryRoutingInfo (modify (fun r =>
         let m := default ∅ (ri_chainTables r !! tableId) in
         set_ri_chainTables (<[tableId := <[ct_chainTableVersion t := t]> m]> (ri_chainTables r)) r)) ;;
       mret (ct_chainTableVersion t)
     else mret (ct_chainTableVersion t)).

(** ** Rotations *)

(** The chain's targets with the states of their own records. *)
Definition targetsOfChain (r : RoutingInfo) (ctis : list ChainTargetInfo) : outcome (list ChainTargetInfoEx) :=
  foldr (fun cti acc =>
    match ri_targets r !! cti_targetId cti, acc with
    | Some ti, Ok l => Ok (cte_of_target (ti_base ti) :: l)
    | Some _, o => o
    | None, _ => Fatal
    end) (Ok []) ctis.

(** What the two rotations share: [rotate] computes the new targets. *)
Definition rotateOperation (rotate : list ChainTargetInfoEx -> ChainInfo -> outcome (list ChainTargetInfoEx))
    (env : OpEnv) (clusterId : string) (chainId : ChainId) : M Sys ChainInfo :=
  validateRequest env clusterId ;;
  err_if (bool_decide (chainId = 0)) kInvalidArg ;;
  doAsPrimary (oe_utcNow env)
    (ri ← gets sys_ri;
     match ri_chains ri !! chainId with
     | None => fail MgmtdCode_kChainNotFound
     | Some old =>
         oldTargets ← lift (targetsOfChain ri (ci_targets old));
         newTargets ← lift (rotate oldTargets old);
         if bool_decide (oldTargets = newTargets) then mret old
         else
           let chainInfo := mkChainInfo (ci_chainId old) (nextVersion32 (ci_chainVersion old)) (map cte_slice newTargets)
                              (ci_preferredTargetOrder old) in
           updateStoredRoutingInfo (oe_attempts env) (fun _ => storeChainInfo chainInfo) ;;
           updateMemoryRoutingInfo
             (assignChain (ci_chainId chainInfo) chainInfo ;;
              for_each (updatePublicState (oe_steadyNow env)) (ci_targets chainInfo)) ;;
           mret chainInfo
     end).

Definition RotateAsPreferredOrderOperation : OpEnv -> string -> ChainId -> M Sys ChainInfo :=
  rotateOperation (fun targets c => rotateAsPreferredOrder targets (ci_preferredTargetOrder c)).

Definition RotateLastSrvOperation : OpEnv -> string -> ChainId -> M Sys ChainInfo :=
  rotateOperation (fun targets _ => Ok (rotateLastSrv targets)).

(** ** SetPreferredTargetOrder *)

Definition SetPreferredTargetOrderOperation (env : OpEnv) (clusterId : string) (chainId : ChainId)
    (preferred : list TargetId) : M Sys ChainInfo :=
  validateRequest env clusterId ;;
  err_if (bool_decide (chainId = 0)) kInvalidArg ;;
  err_if (bool_decide (preferred = [])) kInvalidArg ;;
  let uniqueIds := (list_to_set preferred : gset TargetId) in
  err_if (negb (bool_decide (size uniqueIds = length preferred))) kInvalidArg ;;
  doAsPrimary (oe_utcNow env)
    (ri ← gets sys_ri;
     match ri_chains ri !! chainId with
     | None => fail MgmtdCode_kChainNotFound
     | Some old =>
         oldTargets ← lift (targetsOfChain ri (ci_targets old));
         err_if (existsb (fun id => negb (existsb (fun t => bool_decide (cte_targetId t = id)) oldTargets))
                   (elements uniqueIds)) kInvalidArg ;;
         if bool_decide (ci_preferredTargetOrder old = preferred) then mret old
         else
           let chainInfo := mkChainInfo (ci_chainId old) (ci_chainVersion old) (ci_targets old) preferred in
           withReadWriteTxn (oe_attempts env) true (fun _ => storeChainInfo chainInfo) ;;
           onRouting
             (assignChain (ci_chainId chainInfo) chainInfo ;;
              for_each (fun tid => updateTarget (oe_steadyNow env) tid (fun ti => mret (set_ti_ts (oe_steadyNow env) ti)))
                preferred) ;;
           mret chainInfo
     end).

(** ** The periodic update of all chains *)

(** The chains with a target that changed since the last update, and whether a
    target changed enough to bump the version. *)
Definition candidateChains (ri : RoutingInfo) (lastUpdateTs : SteadyTime) (lastFlag adjust : bool) : gset ChainId :=
  list_to_set (map (fun kv => fti_chainId (ti_base (snd kv)))
    (filter (fun kv : TargetId * TargetInfo =>
       bool_decide (ti_ts (snd kv) > lastUpdateTs) || (negb lastFlag && adjust) = true)
       (map_to_list (ri_targets ri)))).

Definition needPromote (ri : RoutingInfo) (lastUpdateTs : SteadyTime) : bool :=
  existsb (fun kv : TargetId * TargetInfo => bool_decide (ti_importantInfoChangedTime (snd kv) > lastUpdateTs))
    (map_to_list (ri_targets ri)).

Fixpoint changedChains_of (ri : RoutingInfo) (adjust : bool) (cids : list ChainId) (acc : list ChainInfo)
    : outcome (list ChainInfo) :=
  match cids with
  | [] => Ok acc
  | cid :: rest =>
      match appendChangedChains ri cid adjust acc with
      | Ok acc' => changedChains_of ri adjust rest acc'
      | Err c => Err c | Fatal => Fatal | Pending => Pending
      end
  end.

(** [MgmtdChainsUpdater]'s [Op::handle] *)
Definition ChainsUpdater_handle (env : OpEnv) (lastUpdateTs : SteadyTime) (lastAdjustTargetOrderFlag : bool)
    : M Sys SteadyTime :=
  adjust ← getConfigItem cf_try_adjust_target_order_as_preferred;
  ri ← gets sys_ri;
  changed ← lift (changedChains_of ri adjust
                    (elements (candidateChains ri lastUpdateTs lastAdjustTargetOrderFlag adjust)) []);
  if bool_decide (changed = []) && negb (needPromote ri lastUpdateTs) then mret (oe_steadyNow env)
  else
    updateStoredRoutingInfo (oe_attempts env) (fun _ => for_each storeChainInfo changed) ;;
    updateMemoryRoutingInfo (applyChainTargetChanges changed (oe_steadyNow env)) ;;
    mret (oe_steadyNow env).

(** [MgmtdChainsUpdater::update]: the last update time and flag advance on
    success only. *)
Definition ChainsUpdater_update (env : OpEnv) (last : SteadyTime * bool) : M Sys (SteadyTime * bool) := fun s =>
  match doAsPrimary (oe_utcNow env) (ChainsUpdater_handle env (fst last) (snd last)) s with
  | (Ok ts, s') => (Ok (ts, cf_try_adjust_target_order_as_preferred (ms_config (sy_mem s'))), s')
  | (Err _, s') => (Ok last, s')
  | (Fatal, s') => (Fatal, s')
  | (Pending, s') => (Pending, s')
  end.
