(* ===== verification/NodeOps.v ===== *)
(** * Operations on nodes
    ([src/mgmtd/ops/{Heartbeat,EnableDisableNode,RegisterNode,UnregisterNode,
    SetNodeTags}Operation.cc], [src/mgmtd/background/MgmtdHeartbeatChecker.cc]) *)

From stdpp Require Import base list gmap sorting strings.
From Stdlib Require Import ZArith Lia.
From S2P Require Import Prelude StatusCode RingBuffer MgmtdTypes UpdateChain ChainProtocol RoutingInfo MgmtdState ChainOps.

(** [nodeMap[nodeId]]: a default entry is inserted for an unknown id. *)
Definition nodeEntry (now : SteadyTime) (nodeId : NodeId) (r : RoutingInfo) : NodeInfoWrapper :=
  default (NodeInfoWrapper_make NodeInfo_default now) (ri_nodeMap r !! nodeId).

Definition updateNode (now : SteadyTime) (nodeId : NodeId) (f : NodeInfoWrapper -> NodeInfoWrapper) : M RoutingInfo unit :=
  modify (fun r => set_ri_nodeMap (<[nodeId := f (nodeEntry now nodeId r)]> (ri_nodeMap r)) r).

(** ** Heartbeat *)

Definition onNewNode (hb : HeartbeatInfo) (now : UtcTime) : NodeInfo :=
  mkNodeInfo (hb_app hb) (hb_type hb) HEARTBEAT_CONNECTED now [] (hb_configVersion hb) CS_NORMAL.

Definition onNodeChanged (oldNodeInfo : NodeInfo) (hb : HeartbeatInfo) : NodeInfo :=
  set_ni_configStatus (hb_configStatus hb)
    (set_ni_configVersion (hb_configVersion hb)
      (set_ni_status HEARTBEAT_CONNECTED (set_ni_app (hb_app hb) oldNodeInfo))).

Definition prepareNewNodeInfo (cfg : MgmtdConfig) (now : UtcTime) (oldNode : option NodeInfoWrapper) (hb : HeartbeatInfo)
    : outcome NodeInfo :=
  match oldNode with
  | None => if cf_allow_heartbeat_from_unregistered cfg then Ok (onNewNode hb now) else Err MgmtdCode_kHeartbeatFail
  | Some old =>
      let base := nw_base old in
      if bool_decide (ni_type base <> hb_type hb) then Err MgmtdCode_kHeartbeatFail
      else if bool_decide (ni_status base = DISABLED) then Err MgmtdCode_kHeartbeatFail
      else if bool_decide (nw_version old >= hb_hbVersion hb) then Err MgmtdCode_kHeartbeatVersionStale
      else Ok (onNodeChanged base hb)
  end.

(** The targets of a storage heartbeat: each at most once, none INVALID. *)
Fixpoint checkReportedTargets (targets : list LocalTargetInfo) (seenTargets : gset TargetId) : outcome unit :=
  match targets with
  | [] => Ok tt
  | lti :: rest =>
      if bool_decide (lti_targetId lti ∈ seenTargets) then Err MgmtdCode_kHeartbeatFail
      else match lti_localState lti with
           | LS_INVALID => Err MgmtdCode_kHeartbeatFail
           | _ => checkReportedTargets rest ({[lti_targetId lti]} ∪ seenTargets)
           end
  end.

(** [hb.asStorage().targets] under [hb.type() == STORAGE] *)
Definition reportedTargets (hb : HeartbeatInfo) : option (list LocalTargetInfo) :=
  match hb_info hb with StorageHeartbeatInfo targets => Some targets | _ => None end.

Definition prepareHandleHeartbeat (now : UtcTime) (hb : HeartbeatInfo) : M Sys (option NodeInfoWrapper * NodeInfo) :=
  onData (checkConfigVersion (hb_type hb) (hb_configVersion hb)) ;;
  ri ← gets sys_ri;
  cfg ← getConfigItem id;
  let oldNode := ri_nodeMap ri !! app_nodeId (hb_app hb) in
  newNode ← lift (prepareNewNodeInfo cfg now oldNode hb);
  match reportedTargets hb with
  | Some targets => lift (checkReportedTargets targets ∅)
  | None => mret tt
  end ;;
  mret (oldNode, newNode).

Definition persistChanged (oldNode : option NodeInfoWrapper) (newNode : NodeInfo) : bool :=
  match oldNode with
  | None => true
  | Some old => negb (bool_decide (toPersistentNode (nw_base old) = toPersistentNode newNode))
  end.

Definition statusChanged (oldNode : option NodeInfoWrapper) (newNode : NodeInfo) : bool :=
  match oldNode with
  | None => true
  | Some old => negb (bool_decide (ni_status (nw_base old) = ni_status newNode))
  end.

(** The part of the handler under the data lock. *)
Definition heartbeatMemory (ignoreStale : bool) (steadyNow : SteadyTime) (now : UtcTime) (hb : HeartbeatInfo)
    (oldNode : option NodeInfoWrapper) (newNode : NodeInfo) : M RoutingInfo unit :=
  let nodeId := app_nodeId (hb_app hb) in
  modify (fun r => set_ri_changed (ri_routingInfoChanged r || statusChanged oldNode newNode) r) ;;
  updateNode steadyNow nodeId (fun info =>
    set_nw_version (hb_hbVersion hb) (set_nw_ts steadyNow (set_nw_base (set_ni_lastHeartbeatTs now newNode) info))) ;;
  match reportedTargets hb with
  | Some targets => localUpdateTargets ignoreStale steadyNow nodeId targets
  | None => mret tt
  end ;;
  when (persistChanged oldNode newNode) bumpMemoryRoutingInfo ;;
  when (statusChanged oldNode newNode) (updateNode steadyNow nodeId (recordStatusChange (ni_status newNode) now)).

Definition HeartbeatOperation (env : OpEnv) (clusterId : string) (hb : HeartbeatInfo) (timestamp : UtcTime)
    : M Sys (option ConfigInfo) :=
  validateClusterId clusterId ;;
  let nodeId := app_nodeId (hb_app hb) in
  let now := oe_utcStart env in
  doAsPrimary (oe_utcNow env)
    (s ← getS;
     err_if (bool_decide (nodeId = ms_selfId (sy_mem s))) MgmtdCode_kHeartbeatFail ;;
     err_if (bool_decide (nodeId = 0)) MgmtdCode_kHeartbeatFail ;;
     let validWindow := cf_heartbeat_timestamp_valid_window (ms_config (sy_mem s)) in
     err_if (negb (bool_decide (validWindow = 0)) &&
             (bool_decide (timestamp + validWindow < now) || bool_decide (now + validWindow < timestamp)))
       MgmtdCode_kHeartbeatFail ;;
     prepared ← prepareHandleHeartbeat now hb;
     let '(oldNode, newNode) := (prepared : option NodeInfoWrapper * NodeInfo) in
     when (persistChanged oldNode newNode)
       (updateStoredRoutingInfo (oe_attempts env) (fun _ => storeNodeInfo (toPersistentNode newNode))) ;;
     onRouting (heartbeatMemory (cf_heartbeat_ignore_stale_targets (ms_config (sy_mem s))) (oe_steadyNow env) now hb oldNode newNode) ;;
     onData (getConfig (hb_type hb) (hb_configVersion hb) true)).

(** ** The heartbeat checker *)

Definition onNodeFailed (oldNodeInfo : NodeInfo) : NodeInfo := set_ni_status HEARTBEAT_FAILED oldNodeInfo.

Definition node_timed_out (interval : Z) (now : SteadyTime) (n : NodeInfoWrapper) : bool :=
  match ni_status (nw_base n) with
  | DISABLED | HEARTBEAT_FAILED | PRIMARY_MGMTD => false
  | _ => bool_decide (nw_ts n + interval < now)
  end.

Definition timeoutedNodes (interval : Z) (now : SteadyTime) (r : RoutingInfo) : list NodeInfo :=
  map (fun kv => onNodeFailed (nw_base (snd kv)))
    (filter (fun kv : NodeId * NodeInfoWrapper => node_timed_out interval now (snd kv) = true) (map_to_list (ri_nodeMap r))).

Definition target_timed_out (interval : Z) (now : SteadyTime) (ti : TargetInfo) : bool :=
  negb (bool_decide (fti_localState (ti_base ti) = LS_OFFLINE)) && bool_decide (ti_ts ti + interval < now).

Definition timeoutedTargets (interval : Z) (now : SteadyTime) (r : RoutingInfo) : list TargetId :=
  map fst (filter (fun kv : TargetId * TargetInfo => target_timed_out interval now (snd kv) = true) (map_to_list (ri_targets r))).

(** [MgmtdHeartbeatChecker]'s [Op::handle]; [later] is its second clock
    reading. *)
Definition HeartbeatChecker_handle (env : OpEnv) (later : SteadyTime) : M Sys unit :=
  interval ← getConfigItem cf_heartbeat_fail_interval;
  ri ← gets sys_ri;
  let nodes := timeoutedNodes interval (oe_steadyNow env) ri in
  let targets := timeoutedTargets interval (oe_steadyNow env) ri in
  if bool_decide (nodes = []) && bool_decide (targets = []) then mret tt
  else
    onRouting
      (for_each (fun tid => updateTarget later tid (fun ti =>
          mret (set_ti_ts later (set_ti_base (set_fti_localState LS_OFFLINE (ti_base ti)) ti)))) targets ;;
       for_each (fun info => updateNode later (app_nodeId (ni_app info)) (set_nw_base info)) nodes ;;
       modify (set_ri_changed true)).

Definition HeartbeatChecker_check (env : OpEnv) (later : SteadyTime) : M Sys unit :=
  doAsPrimary (oe_utcNow env) (HeartbeatChecker_handle env later).

(** ** Enabling and disabling *)

(** The asserts of [onNodeEnabled] and [onNodeDisabled] are not compiled into
    a release build. *)
Definition onNodeEnabled (oldNodeInfo : NodeInfo) : NodeInfo :=
  set_ni_tags (snd (removeTag (ni_tags oldNodeInfo) kDisabledTagKey)) (set_ni_status HEARTBEAT_CONNECTING oldNodeInfo).

Definition onNodeDisabled (oldNodeInfo : NodeInfo) : NodeInfo :=
  set_ni_tags (ni_tags oldNodeInfo ++ [mkTagPair kDisabledTagKey ""]) (set_ni_status DISABLED oldNodeInfo).

Definition changedNode (enable : bool) (old : NodeInfo) : option NodeInfo :=
  if enable && bool_decide (ni_status old = DISABLED) then Some (onNodeEnabled old)
  else if negb enable && negb (bool_decide (ni_status old = DISABLED)) then Some (onNodeDisabled old)
  else None.

Definition changeNodeStatus (env : OpEnv) (nodeId : NodeId) (enable : bool) : M Sys unit :=
  ri ← gets sys_ri;
  match ri_nodeMap ri !! nodeId with
  | None => fail MgmtdCode_kNodeNotFound
  | Some old =>
      match changedNode enable (nw_base old) with
      | None => mret tt
      | Some newNode =>
          updateStoredRoutingInfo (oe_attempts env) (fun _ => storeNodeInfo (toPersistentNode newNode)) ;;
          updateMemoryRoutingInfo (updateNode (oe_steadyNow env) nodeId (fun info =>
            set_nw_ts (oe_steadyNow env) (recordStatusChange (ni_status newNode) (oe_utcStart env) (set_nw_base newNode info))))
      end
  end.

Definition EnableDisableNodeOperation (enable : bool) (env : OpEnv) (clusterId : string) (nodeId : NodeId) : M Sys unit :=
  validateRequest env clusterId ;;
  s ← getS;
  err_if (bool_decide (nodeId = ms_selfId (sy_mem s))) kInvalidArg ;;
  doAsPrimary (oe_utcNow env) (changeNodeStatus env nodeId enable).

Definition EnableNodeOperation : OpEnv -> string -> NodeId -> M Sys unit := EnableDisableNodeOperation true.
Definition DisableNodeOperation : OpEnv -> string -> NodeId -> M Sys unit := EnableDisableNodeOperation false.

(** ** Registering *)

Definition registeredNode (nodeId : NodeId) (type : NodeType) : NodeInfo :=
  set_ni_type type (set_ni_app (mkFbsAppInfo nodeId "" 0 [] ReleaseVersion_default "") NodeInfo_default).

Definition RegisterNodeOperation (env : OpEnv) (clusterId : string) (nodeId : NodeId) (type : NodeType) : M Sys unit :=
  validateRequest env clusterId ;;
  doAsPrimary (oe_utcNow env)
    (err_if (bool_decide (nodeId = 0)) MgmtdCode_kRegisterFail ;;
     ri ← gets sys_ri;
     err_if (bool_decide (is_Some (ri_nodeMap ri !! nodeId))) MgmtdCode_kRegisterFail ;;
     let newNode := registeredNode nodeId type in
     updateStoredRoutingInfo (oe_attempts env) (fun _ => storeNodeInfo (toPersistentNode newNode)) ;;
     updateMemoryRoutingInfo (updateNode (oe_steadyNow env) nodeId (fun node =>
       recordStatusChange (ni_status newNode) (oe_utcStart env) (set_nw_base newNode node)))).

Definition UnregisterNodeOperation (env : OpEnv) (clusterId : string) (nodeId : NodeId) : M Sys unit :=
  validateRequest env clusterId ;;
  doAsPrimary (oe_utcNow env)
    (ri ← gets sys_ri;
     match ri_nodeMap ri !! nodeId with
     | None => fail MgmtdCode_kNodeNotFound
     | Some n =>
         let node := nw_base n in
         err_if (negb (bool_decide (ni_status node = DISABLED)) && negb (bool_decide (ni_status node = HEARTBEAT_FAILED)))
           kInvalidArg ;;
         err_if (bool_decide (ni_type node = NT_STORAGE) &&
                 existsb (fun kv : TargetId * TargetInfo => bool_decide (fti_nodeId (ti_base (snd kv)) = Some nodeId))
                   (map_to_list (ri_targets ri))) kInvalidArg ;;
         updateStoredRoutingInfo (oe_attempts env) (fun _ => clearNodeInfo nodeId) ;;
         updateMemoryRoutingInfo (modify (fun r => set_ri_nodeMap (delete nodeId (ri_nodeMap r)) r))
     end).

(** ** Tags *)

(** The status follows the presence of the Disable tag. *)
Definition retaggedNode (tags : list TagPair) (old : NodeInfo) : NodeInfo :=
  let node := set_ni_tags tags old in
  let node := if bool_decide (findTag tags kDisabledTagKey = -1) && bool_decide (ni_status node = DISABLED)
              then set_ni_status HEARTBEAT_CONNECTING node else node in
  if negb (bool_decide (findTag tags kDisabledTagKey = -1)) && negb (bool_decide (ni_status node = DISABLED))
  then set_ni_status DISABLED node else node.

Definition SetNodeTagsOperation (env : OpEnv) (clusterId : string) (nodeId : NodeId) (mode : SetTagMode) (tags : list TagPair)
    : M Sys NodeInfo :=
  validateRequest env clusterId ;;
  err_if (existsb (fun tp => bool_decide (tp_key tp = "")) tags) MgmtdCode_kInvalidTag ;;
  doAsPrimary (oe_utcNow env)
    (s ← getS;
     match ri_nodeMap (sys_ri s) !! nodeId with
     | None => fail MgmtdCode_kNodeNotFound
     | Some n =>
         let old := nw_base n in
         newTags ← lift (updateTags mode (ni_tags old) tags);
         if bool_decide (ni_tags old = newTags) then mret old
         else
           let node := retaggedNode newTags old in
           updateStoredRoutingInfo (oe_attempts env) (fun _ => storeNodeInfo (toPersistentNode node)) ;;
           updateMemoryRoutingInfo (updateNode (oe_steadyNow env) nodeId (set_nw_base node)) ;;
           when (bool_decide (nodeId = ms_selfId (sy_mem s)))
             (onMem (modify (fun m =>
               set_ms_selfPersistent (set_pni_tags (ni_tags node) (ms_selfPersistentNodeInfo m))
                 (set_ms_selfNodeInfo (set_ni_tags (ni_tags node) (ms_selfNodeInfo m)) m)))) ;;
           mret node
     end).
