(* ===== verification/AdminOps.v ===== *)
(** * Configurations, universal tags, client sessions and queries
    ([src/mgmtd/ops/{SetConfig,SetUniversalTags,ExtendClientSession,GetConfig,
    GetConfigVersions,GetRoutingInfo,GetPrimaryMgmtd,GetClientSession,
    ListClientSessions,ListOrphanTargets,GetUniversalTags}Operation.cc]) *)

From stdpp Require Import base list gmap sorting strings.
From Stdlib Require Import ZArith Lia.
From S2P Require Import Prelude StatusCode RingBuffer MgmtdTypes UpdateChain ChainProtocol RoutingInfo MgmtdState ChainOps NodeOps.

(** ** SetConfig *)

(** The process takes its own new configuration: [updater] is the process's
    configuration updater, if it has one, and the answer it gives. *)
Definition promoteSelfConfig (updater : option (outcome unit)) (steadyNow : SteadyTime) (newVersion : ConfigVersion) : M Sys unit :=
  let promoted := match updater with None => true | Some answer => is_ok answer end in
  when promoted
    (onMem (modify (fun m => set_ms_selfNodeInfo (set_ni_configVersion newVersion (ms_selfNodeInfo m)) m)) ;;
     s ← getS;
     let selfId := ms_selfId (sy_mem s) in
     match ri_nodeMap (sys_ri s) !! selfId with
     | None => fatal
     | Some self =>
         fatal_if (bool_decide (ni_configVersion (nw_base self) >= newVersion)) ;;
         onRouting (updateNode steadyNow selfId (fun w => set_nw_base (set_ni_configVersion newVersion (nw_base w)) w))
     end).

Definition SetConfigOperation (env : OpEnv) (clusterId : string) (nodeType : NodeType) (content desc : string)
    (updater : option (outcome unit)) : M Sys ConfigVersion :=
  validateRequest env clusterId ;;
  doAsPrimary (oe_utcNow env)
    (s ← getS;
     match md_configMap (ms_data (sy_mem s)) !! nodeType with
     | None => fail kInvalidArg
     | Some vm =>
         match rbegin vm with
         | None => fatal
         | Some (oldVersion, _) =>
             let newVersion := nextVersion64 oldVersion in
             let newConfigInfo := mkConfigInfo newVersion content desc in
             withReadWriteTxn (oe_attempts env) true (fun _ => storeConfig nodeType newConfigInfo) ;;
             onData (modify (fun d =>
               let m := default ∅ (md_configMap d !! nodeType) in
               set_md_configMap (<[nodeType := <[newVersion := newConfigInfo]> m]> (md_configMap d)) d)) ;;
             when (bool_decide (nodeType = NT_MGMTD)) (promoteSelfConfig updater (oe_steadyNow env) newVersion) ;;
             mret newVersion
         end
     end).

(** ** SetUniversalTags *)

Definition SetUniversalTagsOperation (env : OpEnv) (clusterId universalId : string) (mode : SetTagMode) (tags : list TagPair)
    : M Sys (list TagPair) :=
  validateRequest env clusterId ;;
  err_if (existsb (fun tp => bool_decide (tp_key tp = "")) tags) MgmtdCode_kInvalidTag ;;
  doAsPrimary (oe_utcNow env)
    (s ← getS;
     let oldTags := default [] (md_universalTagsMap (ms_data (sy_mem s)) !! universalId) in
     newTags ← lift (updateTags mode oldTags tags);
     if bool_decide (oldTags = newTags) then mret oldTags
     else
       updateStoredRoutingInfo (oe_attempts env) (fun _ => storeUniversalTags universalId newTags) ;;
       onData (modify (fun d => set_md_tags (<[universalId := newTags]> (md_universalTagsMap d)) d)) ;;
       mret newTags).

(** ** Client sessions *)

Record ExtendClientSessionReq := mkExtendClientSessionReq {
  ecs_clientId : string;
  ecs_clientSessionVersion : ClientSessionVersion;
  ecs_configVersion : ConfigVersion;
  ecs_data : ClientSessionData;
  ecs_configStatus : ConfigStatus;
  ecs_type : NodeType;
  ecs_clientStart : UtcTime
}.

(** [flat::ClientSession(req, now)] *)
Definition ClientSession_of_req (req : ExtendClientSessionReq) (now : UtcTime) : FlatClientSession :=
  let d := ecs_data req in
  mkFlatClientSession (ecs_clientId req) (ecs_configVersion req) now now (csd_universalId d) (csd_description d)
    (csd_serviceGroups d) (csd_releaseVersion d) (ecs_configStatus req) (ecs_type req) (ecs_clientStart req).

(** [unexpectedChange], empty or not; an unknown release layout is fatal. *)
Definition unexpectedChange (base : FlatClientSession) (req : ExtendClientSessionReq) : outcome bool :=
  let d := ecs_data req in
  if bool_decide (fcs_universalId base <> csd_universalId d) then Ok true
  else if bool_decide (fcs_description base <> csd_description d) then Ok true
  else if bool_decide (fcs_serviceGroups base <> csd_serviceGroups d) then Ok true
  else match rv_equal (fcs_releaseVersion base) (csd_releaseVersion d) with
       | None => Fatal
       | Some false => Ok true
       | Some true =>
           if bool_decide (fcs_type base <> ecs_type req) then Ok true
           else Ok (bool_decide (fcs_clientStart base <> ecs_clientStart req))
       end.

(** The session after an accepted extension. *)
Definition extendedSession (req : ExtendClientSessionReq) (utcNow : UtcTime) (steadyNow : SteadyTime) (cur : ClientSession) : ClientSession :=
  let b := cse_base cur in
  mkClientSession
    (mkFlatClientSession (fcs_clientId b) (ecs_configVersion req) (fcs_start b) utcNow (fcs_universalId b) (fcs_description b)
       (fcs_serviceGroups b) (fcs_releaseVersion b) (ecs_configStatus req) (fcs_type b) (fcs_clientStart b))
    steadyNow (ecs_clientSessionVersion req).

Section client_sessions.
(** Whether the client id is a hexadecimal UUID, as Boost parses it. *)
Variable isHexUuid : string -> bool.

Definition extendSession (req : ExtendClientSessionReq) (utcNow : UtcTime) (steadyNow : SteadyTime) : M Sys unit :=
  s ← getS;
  let sessions := ms_clientSessionMap (sy_mem s) in
  match sessions !! ecs_clientId req with
  | None =>
      onMem (modify (set_ms_sessions
        (<[ecs_clientId req := mkClientSession (ClientSession_of_req req utcNow) steadyNow 0]> sessions)))
  | Some cur =>
      err_if (bool_decide (cse_clientSessionVersion cur >= ecs_clientSessionVersion req)) MgmtdCode_kClientSessionVersionStale ;;
      unexpected ← lift (unexpectedChange (cse_base cur) req);
      err_if unexpected MgmtdCode_kExtendClientSessionMismatch ;;
      onMem (modify (set_ms_sessions (<[ecs_clientId req := extendedSession req utcNow steadyNow cur]> sessions)))
  end.

Definition ExtendClientSessionOperation (env : OpEnv) (clusterId : string) (req : ExtendClientSessionReq)
    : M Sys (option ConfigInfo * list TagPair) :=
  validateClusterId clusterId ;;
  err_if (bool_decide (ecs_clientId req = "")) kInvalidArg ;;
  onlyUuid ← getConfigItem cf_only_accept_client_uuid;
  err_if (negb (isHexUuid (ecs_clientId req)) && onlyUuid) kInvalidArg ;;
  doAsPrimary (oe_utcNow env)
    (err_if (negb (bool_decide (ecs_type req = NT_CLIENT)) && negb (bool_decide (ecs_type req = NT_FUSE))) kInvalidArg ;;
     onData (checkConfigVersion (ecs_type req) (ecs_configVersion req)) ;;
     config ← onData (getConfig (ecs_type req) (ecs_configVersion req) true);
     s ← getS;
     let tags := default [] (md_universalTagsMap (ms_data (sy_mem s)) !! csd_universalId (ecs_data req)) in
     extendSession req (oe_utcStart env) (oe_steadyNow env) ;;
     mret (config, tags)).
End client_sessions.

(** ** Queries *)

Definition GetConfigOperation (env : OpEnv) (clusterId : string) (nodeType : NodeType) (version : ConfigVersion) (exactVersion : bool)
    : M Sys (option ConfigInfo) :=
  validateClusterId clusterId ;;
  doAsPrimary (oe_utcNow env) (onData (getConfig nodeType version (negb exactVersion))).

(** The latest version of every type; an empty version map is fatal. *)
Definition GetConfigVersionsOperation (env : OpEnv) (clusterId : string) : M Sys (list (NodeType * ConfigVersion)) :=
  validateClusterId clusterId ;;
  doAsPrimary (oe_utcNow env)
    (s ← getS;
     let entries := map_to_list (md_configMap (ms_data (sy_mem s))) in
     fatal_if (existsb (fun kv => bool_decide (snd kv = ∅)) entries) ;;
     mret (omap (fun kv => match rbegin (snd kv) with Some (v, _) => Some (fst kv, v) | None => None end) entries)).

Definition GetRoutingInfoOperation (env : OpEnv) (clusterId : string) (version : RoutingInfoVersion) : M Sys (option FlatRoutingInfo) :=
  validateClusterId clusterId ;;
  doAsPrimary (oe_utcNow env)
    (onData (checkRoutingInfoVersion version) ;;
     cfg ← getConfigItem id;
     onData (getRoutingInfo version cfg (oe_steadyNow env))).

(** [readError]: the error the read of the stored lease meets, if any. *)
Definition GetPrimaryMgmtdOperation (env : OpEnv) (clusterId : string) (readError : option Z) : M Sys (option PersistentNodeInfo) :=
  validateClusterId clusterId ;;
  s ← getS;
  match currentLease (oe_utcNow env) (sy_mem s) with
  | Some l => mret (Some (li_primary l))
  | None =>
      match readError with
      | Some c => fail c
      | None => mret (li_primary <$> st_lease (sy_store s))
      end
  end.

Definition GetClientSessionOperation (env : OpEnv) (clusterId clientId : string)
    : M Sys (bool * option FlatClientSession * list TagPair) :=
  validateClusterId clusterId ;;
  err_if (bool_decide (clientId = "")) kInvalidArg ;;
  doAsPrimary (oe_utcNow env)
    (s ← getS;
     let d := ms_data (sy_mem s) in
     let boot := bootstrapping (cf_bootstrapping_length (ms_config (sy_mem s))) (oe_steadyNow env) d in
     match ms_clientSessionMap (sy_mem s) !! clientId with
     | Some session => mret (boot, Some (cse_base session), default [] (md_universalTagsMap d !! fcs_universalId (cse_base session)))
     | None => mret (boot, None, [])
     end).

Definition ListClientSessionsOperation (env : OpEnv) (clusterId : string)
    : M Sys (bool * list FlatClientSession * gmap string (list TagPair)) :=
  validateClusterId clusterId ;;
  doAsPrimary (oe_utcNow env)
    (s ← getS;
     let d := ms_data (sy_mem s) in
     let boot := bootstrapping (cf_bootstrapping_length (ms_config (sy_mem s))) (oe_steadyNow env) d in
     let sessions := map (fun kv => cse_base (snd kv)) (map_to_list (ms_clientSessionMap (sy_mem s))) in
     mret (boot, sessions,
           foldl (fun m session =>
             match m !! fcs_universalId session with
             | Some _ => m
             | None => <[fcs_universalId session := default [] (md_universalTagsMap d !! fcs_universalId session)]> m
             end) ∅ sessions)).

Definition ListOrphanTargetsOperation (env : OpEnv) (clusterId : string) : M Sys (list FlatTargetInfo) :=
  validateClusterId clusterId ;;
  doAsPrimary (oe_utcNow env) (gets (fun s => map snd (map_to_list (ri_orphanTargetsByTargetId (sys_ri s))))).

Definition GetUniversalTagsOperation (env : OpEnv) (clusterId universalId : string) : M Sys (list TagPair) :=
  validateClusterId clusterId ;;
  doAsPrimary (oe_utcNow env) (gets (fun s => default [] (md_universalTagsMap (ms_data (sy_mem s)) !! universalId))).
