(* ===== verification/Background.v ===== *)
(** * Periodic work of the primary
    ([src/mgmtd/background/Mgmtd{NewBornChainsChecker,TargetInfoPersister,
    TargetInfoLoader,RoutingInfoVersionUpdater,ClientSessionsChecker}.cc])

    Except for the version updater these do not take the writer lock: they read
    under one lock and write under a later one.  [between] is what the other
    operations of the process do in the meantime. *)

From stdpp Require Import base list gmap sorting strings.
From Stdlib Require Import ZArith Lia.
From S2P Require Import Prelude StatusCode RingBuffer MgmtdTypes UpdateChain ChainProtocol RoutingInfo MgmtdState ChainOps.

(** ** New-born chains *)

Definition newBornCandidates (interval : Z) (now : SteadyTime) (r : RoutingInfo) : list ChainId :=
  map fst (filter (fun kv : ChainId * SteadyTime => snd kv + interval <= now) (map_to_list (ri_newBornChains r))).

Definition releaseNewBorn (later : SteadyTime) (cid : ChainId) : M RoutingInfo unit :=
  modify (fun r => set_ri_newBorn (delete cid (ri_newBornChains r)) r) ;;
  chain ← getChain cid;
  for_each (fun cti => updateTarget later (cti_targetId cti) (fun ti => mret (set_ti_ts later ti))) (ci_targets chain).

Definition NewBornChainsChecker_handle (env : OpEnv) (later : SteadyTime) (between : Sys -> Sys) : M Sys unit :=
  interval ← getConfigItem cf_new_chain_bootstrap_interval;
  s ← getS;
  let leaseStartTs := md_leaseStartTs (ms_data (sy_mem s)) in
  let candidates := newBornCandidates interval (oe_steadyNow env) (sys_ri s) in
  if bool_decide (candidates = []) then mret tt
  else
    modify between ;;
    s2 ← getS;
    if bool_decide (leaseStartTs <> md_leaseStartTs (ms_data (sy_mem s2))) then mret tt
    else onRouting (for_each (releaseNewBorn later) candidates).

Definition NewBornChainsChecker_check (env : OpEnv) (later : SteadyTime) (between : Sys -> Sys) : M Sys unit :=
  doAsPrimary (oe_utcNow env) (NewBornChainsChecker_handle env later between).

(** ** Persisting where targets are *)

Definition needs_persist (ti : TargetInfo) : bool :=
  ti_locationInitLoaded ti && bool_decide (is_Some (fti_nodeId (ti_base ti))) &&
  (negb (bool_decide (ti_persistedNodeId ti = fti_nodeId (ti_base ti))) ||
   negb (bool_decide (ti_persistedDiskIndex ti = fti_diskIndex (ti_base ti)))).

(** A batch of at least one, of at most the configured size. *)
Definition persistCandidates (batch : Z) (r : RoutingInfo) : list FlatTargetInfo :=
  take (Z.to_nat (Z.max 1 batch))
    (map (fun kv => ti_base (snd kv))
      (filter (fun kv : TargetId * TargetInfo => needs_persist (snd kv) = true) (map_to_list (ri_targets r)))).

Definition TargetInfoPersister_handle (env : OpEnv) (between : Sys -> Sys) : M Sys unit :=
  batch ← getConfigItem cf_target_info_persist_batch;
  ri ← gets sys_ri;
  let candidates := persistCandidates batch ri in
  if bool_decide (candidates = []) then mret tt
  else
    withReadWriteTxn (oe_attempts env) true (fun _ => for_each storeTargetInfo candidates) ;;
    modify between ;;
    onRouting (for_each (fun p => updateTarget (oe_steadyNow env) (fti_targetId p) (fun ti =>
      mret (set_ti_persisted (fti_nodeId p) (fti_diskIndex p) ti))) candidates).

Definition TargetInfoPersister_run (env : OpEnv) (between : Sys -> Sys) : M Sys unit :=
  doAsPrimary (oe_utcNow env) (TargetInfoPersister_handle env between).

(** ** Loading where targets were *)

(** One page: what happened since the last one, how many entries the store
    returns or the error the read meets, what happens before the lock is taken,
    and the clock readings. *)
Record LoaderRound := mkLoaderRound {
  ld_env : Sys -> Sys;
  ld_page : nat;
  ld_error : option Z;
  ld_between : Sys -> Sys;
  ld_utcNow : UtcTime;
  ld_steadyNow : SteadyTime
}.

Definition loadedTarget (loaded : FlatTargetInfo) (ti : TargetInfo) : TargetInfo :=
  let ti := set_ti_persisted (fti_nodeId loaded) (fti_diskIndex loaded) (set_ti_loaded true ti) in
  match fti_nodeId (ti_base ti) with
  | Some _ => ti
  | None => set_ti_base (set_fti_location (fti_nodeId loaded) (fti_diskIndex loaded) (ti_base ti)) ti
  end.

(** Whether the process is still the primary of the lease it loads for. *)
Definition stillLoading (utcNow : UtcTime) (loadedLeaseStart : SteadyTime) (s : Sys) : bool :=
  is_ok (fst (ensureSelfIsPrimary utcNow s)) && negb (bool_decide (loadedLeaseStart < md_leaseStartTs (ms_data (sy_mem s)))).

(** The end: every target that was not found counts as loaded. *)
Definition finishLoading (now : SteadyTime) : M RoutingInfo unit :=
  r ← getS;
  for_each (fun tid => updateTarget now tid (fun ti => mret (if ti_locationInitLoaded ti then ti else set_ti_loaded true ti)))
    (map fst (map_to_list (ri_targets r))).

Fixpoint TargetInfoLoader_loop (rounds : list LoaderRound) (loadedLeaseStart : SteadyTime) (startTid : TargetId) : M Sys unit :=
  match rounds with
  | [] => lift Pending
  | rd :: rest =>
      modify (ld_env rd) ;;
      match ld_error rd with
      | Some c => fail c
      | None =>
          res ← gets (fun s => fst (loadTargetsFrom (ld_page rd) startTid (sy_store s)));
          page ← lift res;
          modify (ld_between rd) ;;
          s ← getS;
          if stillLoading (ld_utcNow rd) loadedLeaseStart s then
            match last page with
            | None => onRouting (finishLoading (ld_steadyNow rd))
            | Some back =>
                onRouting (for_each (fun loaded => updateTarget (ld_steadyNow rd) (fti_targetId loaded) (fun ti =>
                  mret (loadedTarget loaded ti))) page) ;;
                TargetInfoLoader_loop rest loadedLeaseStart (u64 (fti_targetId back + 1))
            end
          else mret tt
      end
  end.

(** [Op::handle]: [loadedLeaseStart_] is set before the first page is read, and
    stays set whatever the outcome. *)
Definition TargetInfoLoader_handle (env : OpEnv) (rounds : list LoaderRound) (loadedLeaseStart : SteadyTime) (s : Sys)
    : SteadyTime * (outcome unit * Sys) :=
  let leaseStartTs := md_leaseStartTs (ms_data (sy_mem s)) in
  if negb (is_ok (fst (ensureSelfIsPrimary (oe_utcNow env) s))) || bool_decide (loadedLeaseStart >= leaseStartTs)
  then (loadedLeaseStart, (Ok tt, s))
  else (leaseStartTs, TargetInfoLoader_loop rounds leaseStartTs 0 s).

(** [MgmtdTargetInfoLoader::run] *)
Definition TargetInfoLoader_run (env : OpEnv) (rounds : list LoaderRound) (loadedLeaseStart : SteadyTime) (s : Sys)
    : SteadyTime * (outcome unit * Sys) :=
  match ensureSelfIsPrimary (oe_utcNow env) s with
  | (Ok _, s') => TargetInfoLoader_handle env rounds loadedLeaseStart s'
  | r => (loadedLeaseStart, r)
  end.

(** ** The routing version *)

Definition RoutingInfoVersionUpdater_update (env : OpEnv) : M Sys unit :=
  doAsPrimary (oe_utcNow env)
    (ri ← gets sys_ri;
     if ri_routingInfoChanged ri then
       updateStoredRoutingInfo (oe_attempts env) (fun _ => mret tt) ;;
       updateMemoryRoutingInfo (mret tt)
     else mret tt).

(** ** Client sessions *)

Definition session_timed_out (timeout : Z) (now : SteadyTime) (session : ClientSession) : bool :=
  bool_decide (cse_ts session + timeout < now).

Definition timeoutedClients (timeout : Z) (now : SteadyTime) (m : MgmtdState) : list string :=
  map fst (filter (fun kv : string * ClientSession => session_timed_out timeout now (snd kv) = true)
    (map_to_list (ms_clientSessionMap m))).

(** [it->second] is read without a check that the session was found. *)
Definition removeTimeouted (timeout : Z) (now : SteadyTime) (clientId : string) : M MgmtdState unit :=
  m ← getS;
  match ms_clientSessionMap m !! clientId with
  | None => fatal
  | Some session =>
      when (session_timed_out timeout now session) (modify (set_ms_sessions (delete clientId (ms_clientSessionMap m))))
  end.

Definition ClientSessionsChecker_check (env : OpEnv) (between : Sys -> Sys) : M Sys unit :=
  doAsPrimary (oe_utcNow env)
    (timeout ← getConfigItem cf_client_session_timeout;
     s ← getS;
     let clients := timeoutedClients timeout (oe_steadyNow env) (sy_mem s) in
     if bool_decide (clients = []) then mret tt
     else modify between ;; onMem (for_each (removeTimeouted timeout (oe_steadyNow env)) clients)).
