(* ===== verification/LeaseExtender.v ===== *)
(** * Getting and keeping the lease
    ([src/mgmtd/background/MgmtdLeaseExtender.cc])

    A manager extends the lease in the store; when it has become the primary it
    reloads everything from the store. *)

From stdpp Require Import base list gmap sorting strings.
From Stdlib Require Import ZArith Lia.
From S2P Require Import Prelude StatusCode RingBuffer MgmtdTypes UpdateChain ChainProtocol RoutingInfo MgmtdState ChainOps NodeOps.

(** ** Loading *)

(** What [onNewLease] accumulates outside its transaction: it is not cleared
    when the transaction is retried. *)
Record NewLeaseData := mkNewLeaseData {
  nl_version : RoutingInfoVersion;
  nl_nodes : gmap NodeId NodeInfoWrapper;
  nl_configs : gmap NodeType (gmap ConfigVersion ConfigInfo);
  nl_chainTables : gmap ChainTableId (gmap ChainTableVersion ChainTable);
  nl_chains : gmap ChainId ChainInfo;
  nl_targets : gmap TargetId TargetInfo;
  nl_tags : gmap string (list TagPair);
  nl_self : NodeInfo;
  nl_selfPersistent : PersistentNodeInfo
}.

Definition set_nl_version v l := mkNewLeaseData v (nl_nodes l) (nl_configs l) (nl_chainTables l) (nl_chains l) (nl_targets l) (nl_tags l) (nl_self l) (nl_selfPersistent l).
Definition set_nl_nodes v l := mkNewLeaseData (nl_version l) v (nl_configs l) (nl_chainTables l) (nl_chains l) (nl_targets l) (nl_tags l) (nl_self l) (nl_selfPersistent l).
Definition set_nl_configs v l := mkNewLeaseData (nl_version l) (nl_nodes l) v (nl_chainTables l) (nl_chains l) (nl_targets l) (nl_tags l) (nl_self l) (nl_selfPersistent l).
Definition set_nl_chainTables v l := mkNewLeaseData (nl_version l) (nl_nodes l) (nl_configs l) v (nl_chains l) (nl_targets l) (nl_tags l) (nl_self l) (nl_selfPersistent l).
Definition set_nl_chains c t l := mkNewLeaseData (nl_version l) (nl_nodes l) (nl_configs l) (nl_chainTables l) c t (nl_tags l) (nl_self l) (nl_selfPersistent l).
Definition set_nl_tags v l := mkNewLeaseData (nl_version l) (nl_nodes l) (nl_configs l) (nl_chainTables l) (nl_chains l) (nl_targets l) v (nl_self l) (nl_selfPersistent l).
Definition set_nl_self v w l := mkNewLeaseData (nl_version l) (nl_nodes l) (nl_configs l) (nl_chainTables l) (nl_chains l) (nl_targets l) (nl_tags l) v w.

Definition onLocal {A} (m : M NewLeaseData A) : M (NewLeaseData * Store) A := zoom fst (fun l ls => (l, snd ls)) m.

Section loading.
(** The clock readings of one attempt. *)
Variables (utcNow : UtcTime) (steadyNow : SteadyTime).

Definition addNode (n : NodeInfo) (allNodes : gmap NodeId NodeInfoWrapper) : gmap NodeId NodeInfoWrapper :=
  let node := default (NodeInfoWrapper_make NodeInfo_default steadyNow) (allNodes !! app_nodeId (ni_app n)) in
  <[app_nodeId (ni_app n) := recordStatusChange (ni_status n) utcNow (set_nw_base n node)]> allNodes.

Definition newLease_loadVersion : M (NewLeaseData * Store) unit :=
  v ← inStore loadRoutingInfoVersion;
  onLocal (modify (set_nl_version (nextVersion64 v))).

Definition newLease_loadNodes : M (NewLeaseData * Store) unit :=
  nodes ← inStore loadAllNodes;
  onLocal (modify (fun l => set_nl_nodes (foldl (fun m pn => addNode (toNode pn) m) (nl_nodes l) nodes) l)).

Definition addConfig (m : gmap NodeType (gmap ConfigVersion ConfigInfo)) (e : NodeType * ConfigInfo)
    : gmap NodeType (gmap ConfigVersion ConfigInfo) :=
  <[fst e := <[cfg_configVersion (snd e) := snd e]> (default ∅ (m !! fst e))]> m.

Definition newLease_loadConfigs : M (NewLeaseData * Store) unit :=
  configs ← inStore loadAllConfigs;
  onLocal (modify (fun l => set_nl_configs (foldl addConfig (nl_configs l) configs) l)).

Definition addChainTable (m : gmap ChainTableId (gmap ChainTableVersion ChainTable)) (t : ChainTable)
    : gmap ChainTableId (gmap ChainTableVersion ChainTable) :=
  <[ct_chainTableId t := <[ct_chainTableVersion t := t]> (default ∅ (m !! ct_chainTableId t))]> m.

Definition newLease_loadChainTables : M (NewLeaseData * Store) unit :=
  tables ← inStore loadAllChainTables;
  onLocal (modify (fun l => set_nl_chainTables (foldl addChainTable (nl_chainTables l) tables) l)).

Definition addChainTargets (m : gmap TargetId TargetInfo) (c : ChainInfo) : gmap TargetId TargetInfo :=
  foldl (fun m t => <[cti_targetId t := TargetInfo_make (makeTargetInfo (ci_chainId c) t) steadyNow steadyNow]> m) m (ci_targets c).

Definition newLease_loadChains : M (NewLeaseData * Store) unit :=
  chains ← inStore loadAllChains;
  onLocal (modify (fun l =>
    set_nl_chains (foldl (fun m c => <[ci_chainId c := c]> m) (nl_chains l) chains)
                  (foldl addChainTargets (nl_targets l) chains) l)).

Definition newLease_loadTags : M (NewLeaseData * Store) unit :=
  tags ← inStore loadAllUniversalTags;
  onLocal (modify (fun l => set_nl_tags (foldl (fun m e => <[fst e := snd e]> m) (nl_tags l) tags) l)).

(** [collectAll]: all run; the first error in order is returned. *)
Fixpoint collectAll (ms : list (M (NewLeaseData * Store) unit)) : M (NewLeaseData * Store) unit := fun s =>
  match ms with
  | [] => (Ok tt, s)
  | m :: rest =>
      let '(o, s1) := m s in
      let '(o', s2) := collectAll rest s1 in
      (match o with Ok _ => o' | _ => o end, s2)
  end.

(** [persistNewVersionAndSelfInfo] *)
Definition persistNewVersionAndSelfInfo : M (NewLeaseData * Store) unit :=
  l ← gets fst;
  inStore (storeRoutingInfoVersion (nl_version l)) ;;
  let selfId := app_nodeId (ni_app (nl_self l)) in
  needPersistSelf ←
    match nl_nodes l !! selfId with
    | Some node =>
        fatal_if (negb (bool_decide (ni_type (nw_base node) = NT_MGMTD))) ;;
        let persisted := toPersistentNode (nw_base node) in
        let selfPersistent := set_pni_tags (pni_tags persisted) (nl_selfPersistent l) in
        onLocal (modify (set_nl_self (set_ni_tags (pni_tags persisted) (nl_self l)) selfPersistent)) ;;
        mret (negb (bool_decide (persisted = selfPersistent)))
    | None => mret true
    end;
  l2 ← gets fst;
  when needPersistSelf (inStore (storeNodeInfo (nl_selfPersistent l2))) ;;
  onLocal (modify (fun l =>
    let node := default (NodeInfoWrapper_make NodeInfo_default steadyNow) (nl_nodes l !! selfId) in
    set_nl_nodes (<[selfId := set_nw_base (nl_self l) node]> (nl_nodes l)) l)).

Definition newLease_handler : M (NewLeaseData * Store) unit :=
  collectAll [newLease_loadVersion; newLease_loadNodes; newLease_loadConfigs; newLease_loadChainTables;
              newLease_loadChains; newLease_loadTags] ;;
  persistNewVersionAndSelfInfo.
End loading.

Definition NewLeaseData_initial (m : MgmtdState) : NewLeaseData :=
  mkNewLeaseData 1 ∅ initial_configs ∅ ∅ ∅ ∅ (ms_selfNodeInfo m) (ms_selfPersistentNodeInfo m).

(** ** A new lease *)

(** Taking the newest configuration of managers, and the data of the lease. *)
Definition installNewLease (steadyNow : SteadyTime) (updater : option (outcome unit)) (l : NewLeaseData) : M Sys unit :=
  match nl_configs l !! NT_MGMTD ≫= rbegin with
  | None => fatal
  | Some (_, cfg) =>
      updated ← (if bool_decide (cfg_configVersion cfg = 0) then mret false
                 else fun s => match updateSelfConfig updater cfg s with
                               | (Ok _, s') => (Ok true, s')
                               | (Err _, s') => (Ok false, s')
                               | (Fatal, s') => (Fatal, s')
                               | (Pending, s') => (Pending, s')
                               end);
      when updated (onMem (modify (fun m => set_ms_selfNodeInfo (set_ni_configVersion (cfg_configVersion cfg) (ms_selfNodeInfo m)) m))) ;;
      s ← getS;
      let selfId := ms_selfId (sy_mem s) in
      let allNodes :=
        if (updated : bool) then
          let node := default (NodeInfoWrapper_make NodeInfo_default steadyNow) (nl_nodes l !! selfId) in
          <[selfId := set_nw_base (set_ni_configVersion (cfg_configVersion cfg) (nw_base node)) node]> (nl_nodes l)
        else nl_nodes l in
      onData (modify (resetData (nl_version l) allNodes (nl_configs l) (nl_chainTables l) (nl_chains l) (nl_targets l) (nl_tags l) steadyNow)) ;;
      onMem (modify (set_ms_sessions ∅))
  end.

(** The handler changes the process's own node information in place: the
    change stays when the transaction fails.  [loadNow] is the steady clock in
    each attempt. *)
Definition onNewLease (attempts : list Attempt) (loadNow : Attempt -> SteadyTime) (steadyNow : SteadyTime)
    (updater : option (outcome unit)) : M Sys unit := fun s =>
  let '(res, (l, s')) :=
    withReadWriteTxn_local attempts true (fun a => newLease_handler (at_utcNow a) (loadNow a)) (NewLeaseData_initial (sy_mem s)) s in
  (onMem (modify (fun m => set_ms_selfPersistent (nl_selfPersistent l) (set_ms_selfNodeInfo (nl_self l) m))) ;;
   lift res ;;
   installNewLease steadyNow updater l) s'.

(** ** Extending *)

(** The transaction of [Op::handle]. *)
Definition extendLease_handler (m : MgmtdState) (rv : ReleaseVersion) (a : Attempt) : M Store (option MgmtdLeaseInfo) :=
  self ← loadNodeInfo (ms_selfId m);
  if match self with Some n => negb (bool_decide (findTag (pni_tags n) kDisabledTagKey = -1)) | None => false end
  then mret None
  else
    l ← extendLease (ms_selfPersistentNodeInfo m) (cf_lease_length (ms_config m)) (at_utcNow a) rv
          (cf_extend_lease_check_release_version (ms_config m));
    mret (Some l).

(** [leaseChangedReason] is not empty. *)
Definition leaseChanged (old : LeaseInfo) (newLease : MgmtdLeaseInfo) : bool :=
  match le_lease old with
  | None => true
  | Some l =>
      negb (bool_decide (pni_nodeId (li_primary l) = pni_nodeId (li_primary newLease))) ||
      negb (bool_decide (li_leaseStart l = li_leaseStart newLease)) ||
      le_bootstrapping old
  end.

(** The rest of [Op::handle], under the writer lock: [None] if the process is
    disabled. *)
Definition installLease (newLease : option MgmtdLeaseInfo) (steadyNow : SteadyTime) (attempts : list Attempt)
    (loadNow : Attempt -> SteadyTime) (updater : option (outcome unit)) : M Sys unit :=
  match newLease with
  | None => onData (modify (fun d => set_md_lease (mkLeaseInfo None (le_bootstrapping (md_lease d))) d))
  | Some l =>
      s ← getS;
      let old := md_lease (ms_data (sy_mem s)) in
      let boot := bool_decide (pni_nodeId (li_primary l) = ms_selfId (sy_mem s)) && leaseChanged old l in
      onData (modify (set_md_lease (mkLeaseInfo (Some l) boot))) ;;
      when boot (onNewLease attempts loadNow steadyNow updater)
  end.

(** [MgmtdLeaseExtender::extend]: [between] is what happens after the
    transaction and before the writer lock is taken; [attempts2] are the
    attempts of the reload. *)
Definition LeaseExtender_extend (env : OpEnv) (rv : ReleaseVersion) (between : Sys -> Sys) (attempts2 : list Attempt)
    (loadNow : Attempt -> SteadyTime) (updater : option (outcome unit)) : M Sys unit :=
  s ← getS;
  newLease ← withReadWriteTxn (oe_attempts env) false (extendLease_handler (sy_mem s) rv);
  modify between ;;
  installLease newLease (oe_steadyNow env) attempts2 loadNow updater.
