(* ===== verification/Transaction.v ===== *)
(** * What a store update guarantees
    ([src/mgmtd/service/helpers.h], [src/common/kv/WithTransaction.h])

    Lemmas on the retry loop around a read-write transaction: atomicity in the
    presence of commits with unknown result, lease fencing, progress. *)

From stdpp Require Import base list gmap sorting strings.
From Stdlib Require Import ZArith Lia.
From S2P Require Import Prelude StatusCode MgmtdTypes UpdateChain ChainProtocol RoutingInfo MgmtdState.

(** ** The retry loop *)

Section loop.
Context {L A : Type}.
Variable maxRetryCount : Z.
Variable handler : Attempt -> M (L * Store) A.

(** [I] holds of every state others can see, [Q] of a committed one, [B] if the
    handler aborts. *)
Variable I : L * Store -> Prop.
Variable Q : A -> L * Store -> Prop.
Variable B : Prop.

Definition attempt_keeps (a : Attempt) : Prop :=
  forall l s, I (l, s) ->
    I (l, at_env a s) /\
    runs (handler a) (l, at_env a s) (fun o ls' => match o with
      | Ok x => I ls' /\ Q x ls' /\ forall c, at_commit a = CommitErr c false -> I (fst ls', at_env a s)
      | Fatal => B /\ I (fst ls', at_env a s)
      | _ => I (fst ls', at_env a s)
      end).

Definition loop_post (o : outcome A) (ls : L * Store) : Prop :=
  I ls /\ match o with Ok x => Q x ls | Fatal => B | _ => True end.

Lemma runAndCommit_keeps a ls o ls' :
  attempt_keeps a -> I ls -> runAndCommit handler a ls = (o, ls') -> loop_post o ls'.
Proof.
  destruct ls as [l s]. intros Ha HI. destruct (Ha _ _ HI) as [He Hh]. unfold runAndCommit, runs in *. simpl.
  destruct (at_readError a) as [c|]; [intros [= <- <-]; by split|].
  destruct (handler a (l, at_env a s)) as [o1 [l' w]].
  destruct o1 as [x|c| |]; simpl in *; [|intros [= <- <-]; by split|intros [= <- <-]; by destruct Hh|intros [= <- <-]; by split].
  destruct Hh as (H1 & H2 & H3). destruct (at_commit a) as [|c []]; intros [= <- <-]; split; eauto.
Qed.

Lemma WithTransaction_run_keeps attempts retry ls o ls' rest :
  Forall attempt_keeps attempts -> I ls ->
  WithTransaction_run maxRetryCount handler attempts retry ls = (o, ls', rest) ->
  loop_post o ls' /\ Forall attempt_keeps rest /\ (length rest <= length attempts)%nat /\
  (attempts <> [] -> (length rest < length attempts)%nat).
Proof.
  intros HF. revert retry ls. induction HF as [|a attempts Ha HF IH]; intros retry ls HI; simpl.
  { intros [= <- <- <-]. by split_and!. }
  destruct (runAndCommit handler a ls) as [o1 ls1] eqn:E. pose proof (runAndCommit_keeps _ _ _ _ Ha HI E) as Hp.
  destruct o1 as [x|c| |]; [intros [= <- <- <-]; split_and!; (done || (intros; lia))| |
    intros [= <- <- <-]; split_and!; (done || (intros; lia))..].
  destruct (strategy_retries _ _ _ _); [|intros [= <- <- <-]; split_and!; (done || (intros; lia))].
  intros Hrun. destruct Hp as [HI1 _]. destruct (IH _ _ HI1 Hrun) as (H1 & H2 & H3 & _). split_and!; [done..| |]; intros; lia.
Qed.

Lemma txn_loop_keeps fuel maxRetryTimes i attempts ls o ls' :
  Forall attempt_keeps attempts -> I ls ->
  txn_loop maxRetryCount handler fuel maxRetryTimes i attempts ls = (o, ls') -> loop_post o ls'.
Proof.
  revert i attempts ls. induction fuel as [|fuel IH]; intros i attempts ls HF HI; simpl; [intros [= <- <-]; by split|].
  destruct (WithTransaction_run maxRetryCount handler attempts 0 ls) as [[o1 ls1] rest] eqn:E.
  destruct (WithTransaction_run_keeps _ _ _ _ _ _ HF HI E) as (Hp & HF' & _).
  destruct o1 as [x|c| |]; [intros [= <- <-]; done| |intros [= <- <-]; done..].
  destruct (_ || _); [intros [= <- <-]; done|]. apply IH; [done|]. apply Hp.
Qed.
End loop.

(** ** Which errors end the loop *)

Section errors.
Context {L A : Type}.
Variable maxRetryCount : Z.
Variable handler : Attempt -> M (L * Store) A.

(** Every error an attempt can meet satisfies [E]. *)
Variable E : Z -> Prop.
Definition attempt_errors (a : Attempt) : Prop :=
  (forall c, at_readError a = Some c -> E c) /\ (forall c b, at_commit a = CommitErr c b -> E c) /\
  (forall ls c, fst (handler a ls) = Err c -> E c).

Lemma runAndCommit_err a ls c :
  attempt_errors a -> fst (runAndCommit handler a ls) = Err c -> E c.
Proof.
  intros (H1 & H2 & H3). unfold runAndCommit. destruct (at_readError a) as [c1|] eqn:Er; simpl; [intros [= <-]; eauto|].
  specialize (H3 (fst ls, at_env a (snd ls))). destruct (handler a _) as [[x|c1| |] [l' w]]; simpl in *; try done; [|intros [= <-]; eauto].
  destruct (at_commit a) as [|c1 b] eqn:Ec; simpl; [done|]. intros [= <-]. eauto.
Qed.

Lemma WithTransaction_run_err attempts retry ls c ls' rest :
  Forall attempt_errors attempts ->
  WithTransaction_run maxRetryCount handler attempts retry ls = (Err c, ls', rest) -> E c.
Proof.
  intros HF. revert retry ls. induction HF as [|a attempts Ha HF IH]; intros retry ls; simpl; [done|].
  pose proof (runAndCommit_err a ls) as He. destruct (runAndCommit handler a ls) as [[x|c1| |] ls1]; try done.
  destruct (strategy_retries _ _ _ _); [apply IH|]. intros [= <- <- <-]. by apply He.
Qed.

Lemma WithTransaction_run_rest attempts retry ls o ls' rest :
  WithTransaction_run maxRetryCount handler attempts retry ls = (o, ls', rest) -> exists pre, attempts = pre ++ rest.
Proof.
  revert retry ls. induction attempts as [|a attempts IH]; intros retry ls; simpl; [intros [= <- <- <-]; by exists []|].
  destruct (runAndCommit handler a ls) as [[x|c1| |] ls1]; try (intros [= <- <- <-]; by exists [a]).
  destruct (strategy_retries _ _ _ _); [|intros [= <- <- <-]; by exists [a]].
  intros Hrun. destruct (IH _ _ Hrun) as [pre ->]. by exists (a :: pre).
Qed.

(** Without a bound on the rounds the loop ends with a non-transaction error. *)
Lemma txn_loop_err fuel i attempts ls c ls' :
  Forall attempt_errors attempts -> 0 <= i ->
  txn_loop maxRetryCount handler fuel (-1) i attempts ls = (Err c, ls') -> E c /\ typeOf c <> Transaction.
Proof.
  intros HF Hi. revert i attempts ls HF Hi. induction fuel as [|fuel IH]; intros i attempts ls HF Hi; simpl; [done|].
  destruct (WithTransaction_run maxRetryCount handler attempts 0 ls) as [[o1 ls1] rest] eqn:Er.
  destruct o1 as [x|c1| |]; try done.
  pose proof (WithTransaction_run_err _ _ _ _ _ _ HF Er) as Hc.
  destruct (WithTransaction_run_rest _ _ _ _ _ _ Er) as [pre ->]. apply Forall_app in HF as [_ HF].
  rewrite bool_decide_eq_false_2 by lia. simpl. case_bool_decide as Et; simpl.
  - apply IH; [done|lia].
  - by intros [= <- <-].
Qed.
End errors.

(** ** Progress: an attempt that meets no trouble ends the loop *)

Section progress.
Context {L A : Type}.
Variable maxRetryCount : Z.
Variable handler : Attempt -> M (L * Store) A.
Hypothesis handler_decides : forall a ls, fst (handler a ls) <> Pending.

Definition clean (a : Attempt) : Prop :=
  at_readError a = None /\ at_commit a = CommitOk /\
  forall ls c, fst (handler a ls) = Err c -> typeOf c <> Transaction.

Lemma WithTransaction_run_progress attempts retry ls o ls' rest :
  WithTransaction_run maxRetryCount handler attempts retry ls = (o, ls', rest) -> Exists clean attempts ->
  match o with Pending => False | Err c => typeOf c <> Transaction \/ Exists clean rest | _ => True end.
Proof.
  revert retry ls. induction attempts as [|a attempts IH]; intros retry ls; simpl; [intros _ He; by inversion He|].
  assert (Hp : fst (runAndCommit handler a ls) <> Pending).
  { unfold runAndCommit. destruct (at_readError a); simpl; [done|]. specialize (handler_decides a (fst ls, at_env a (snd ls))).
    destruct (handler a _) as [[x|c| |] [l' w]]; simpl in *; try done. by destruct (at_commit a). }
  intros Hrun He. apply Exists_cons in He as [(H1 & H2 & H3)|He].
  - specialize (H3 (fst ls, at_env a (snd ls))). unfold runAndCommit in *. rewrite H1, H2 in *.
    destruct (handler a _) as [[x|c| |] [l' w]]; simpl in *; [by injection Hrun as <- _ _| |by injection Hrun as <- _ _|done].
    specialize (H3 c eq_refl). unfold strategy_retries, isTransactionError in Hrun.
    rewrite (bool_decide_eq_false_2 _ H3) in Hrun. simpl in Hrun.
    destruct (bool_decide _) in Hrun; injection Hrun as <- _ _; by left.
  - destruct (runAndCommit handler a ls) as [[x|c| |] ls1]; [by injection Hrun as <- _ _| |by injection Hrun as <- _ _|done].
    destruct (strategy_retries _ _ _ _); [by eapply IH|]. injection Hrun as <- _ <-. by right.
Qed.

(** The attempts left are enough rounds. *)
Lemma txn_loop_progress fuel maxRetryTimes i attempts ls :
  (length attempts < fuel)%nat -> Exists clean attempts ->
  fst (txn_loop maxRetryCount handler fuel maxRetryTimes i attempts ls) <> Pending.
Proof.
  revert i attempts ls. induction fuel as [|fuel IH]; intros i attempts ls Hlen He; [lia|]. simpl.
  destruct (WithTransaction_run maxRetryCount handler attempts 0 ls) as [[o1 ls1] rest] eqn:Er.
  pose proof (WithTransaction_run_progress _ _ _ _ _ _ Er He) as Hp.
  destruct o1 as [x|c| |]; try done. case_bool_decide; simpl; [done|]. case_bool_decide as Ht; simpl; [|done].
  apply IH; [|by destruct Hp].
  destruct (WithTransaction_run_keeps maxRetryCount handler (fun _ => True) (fun _ _ => True) True attempts 0 ls _ _ _
    ltac:(apply Forall_true; intros a l s _; split; [done|by unfold runs; destruct (fst _)]) ltac:(done) Er) as (_ & _ & _ & Hl).
  destruct attempts as [|a attempts]; [by inversion He|]. specialize (Hl ltac:(done)). lia.
Qed.
End progress.

(** ** Updates of the store by the primary *)

(** What only the primary's writer writes: all but the lease and the targets
    (the target persister runs beside the writer). *)
Definition durable (s : Store) : Store :=
  mkStore None (st_version s) (st_nodes s) (st_configs s) (st_chainTables s) (st_chains s) (st_tags s) ∅.
Arguments durable : simpl never.

(** Nobody else writes those between the attempts. *)
Definition quiet (attempts : list Attempt) : Prop :=
  Forall (fun a => forall s, durable (at_env a s) = durable s) attempts.

(** A handler that writes without reading. *)
Definition blind (h : Attempt -> M Store unit) (F : Store -> Store) : Prop :=
  forall a s, exists s', h a s = (Ok tt, s') /\ durable s' = F (durable s) /\ st_lease s' = st_lease s.

Lemma blind_seq h1 F1 h2 F2 : blind h1 F1 -> blind h2 F2 -> blind (fun a => h1 a ;; h2 a) (fun d => F2 (F1 d)).
Proof.
  intros H1 H2 a s. destruct (H1 a s) as (s1 & E1 & D1 & L1), (H2 a s1) as (s2 & E2 & D2 & L2).
  exists s2. rewrite (bind_ok _ _ _ _ _ E1). split_and!; congruence.
Qed.

Lemma blind_skip : blind (fun _ => mret tt) id.
Proof. intros a s. by exists s. Qed.

Lemma blind_for_each {X} (f : X -> M Store unit) (F : X -> Store -> Store) l :
  (forall x, blind (fun _ => f x) (F x)) -> blind (fun _ => for_each f l) (fun d => foldl (fun d x => F x d) d l).
Proof.
  intros Hf. induction l as [|x l IH]; simpl; [apply blind_skip|].
  intros a s. exact (blind_seq _ _ _ _ (Hf x) IH a s).
Qed.

Lemma blind_storeRoutingInfoVersion v : blind (fun _ => storeRoutingInfoVersion v) (set_st_version (Some v)).
Proof. intros a s. eexists. by split_and!. Qed.

Lemma blind_storeChainInfo c :
  blind (fun _ => storeChainInfo c) (fun d => set_st_chains (<[ci_chainId c := c]> (st_chains d)) d).
Proof. intros a s. eexists. by split_and!. Qed.

Lemma blind_storeChainTable t :
  blind (fun _ => storeChainTable t)
    (fun d => set_st_chainTables (<[(ct_chainTableId t, ct_chainTableVersion t) := t]> (st_chainTables d)) d).
Proof. intros a s. eexists. by split_and!. Qed.

Lemma blind_clearTargetInfo tid : blind (fun _ => clearTargetInfo tid) id.
Proof. intros a s. eexists. by split_and!. Qed.

Lemma blind_storeNodeInfo n :
  blind (fun _ => storeNodeInfo n) (fun d => set_st_nodes (<[pni_nodeId n := n]> (st_nodes d)) d).
Proof. intros a s. eexists. by split_and!. Qed.

Lemma blind_clearNodeInfo nid : blind (fun _ => clearNodeInfo nid) (fun d => set_st_nodes (delete nid (st_nodes d)) d).
Proof. intros a s. eexists. by split_and!. Qed.

Lemma blind_storeConfig type info :
  blind (fun _ => storeConfig type info)
    (fun d => set_st_configs (<[(type, cfg_configVersion info) := info]> (st_configs d)) d).
Proof. intros a s. eexists. by split_and!. Qed.

#[export] Hint Resolve blind_skip blind_storeRoutingInfoVersion blind_storeChainInfo blind_storeChainTable
  blind_clearTargetInfo blind_storeNodeInfo blind_clearNodeInfo blind_storeConfig : hf3fs.

(** The stored lease names [self] and has not ended at [now]. *)
Definition lease_valid (self : NodeId) (now : UtcTime) (lease : option MgmtdLeaseInfo) : Prop :=
  exists l, lease = Some l /\ pni_nodeId (li_primary l) = self /\ now <= li_leaseEnd l.

Lemma runs_ensureLeaseValid self now s :
  runs (ensureLeaseValid self now) s (fun o s' => s' = s /\
    ((o = Ok tt /\ lease_valid self now (st_lease s)) \/
     (o = Err MgmtdCode_kNotPrimary /\ ~ lease_valid self now (st_lease s)))).
Proof.
  unfold ensureLeaseValid, loadMgmtdLeaseInfo. msteps. destruct (st_lease s) as [l|] eqn:El; msteps; (split; [done|]).
  - right. split; [done|]. intros (l' & [= <-] & Hp & _). apply bool_decide_eq_true in H. done.
  - right. split; [done|]. intros (l' & [= <-] & _ & Hn). apply bool_decide_eq_true in H0. lia.
  - left. split; [done|]. exists l. apply bool_decide_eq_false in H, H0. split_and!; [done|by apply dec_stable|lia].
  - right. split; [done|]. by intros (l & ? & _).
Qed.

(** What [withReadWriteTxn] returns and leaves, for a blind idempotent write. *)
Record stored (attempts : list Attempt) (F : Store -> Store) (s : Sys) (o : outcome unit) (s' : Sys) : Prop := {
  sd_mem : sy_mem s' = sy_mem s;
  sd_fatal : o <> Fatal;
  sd_atomic : durable (sy_store s') = durable (sy_store s) \/ durable (sy_store s') = F (durable (sy_store s));
  sd_ok : o = Ok tt -> durable (sy_store s') = F (durable (sy_store s));
  sd_fenced : o = Ok tt -> cf_validate_lease_on_write (ms_config (sy_mem s)) = true ->
    exists a, a ∈ attempts /\ lease_valid (ms_selfId (sy_mem s)) (at_utcNow a) (st_lease (sy_store s'))
}.

(** A write seen through [view], which nobody else changes. *)
Lemma runs_withReadWriteTxn_on {V} (view : Store -> V) attempts (h : Attempt -> M Store unit) (F : V -> V) s :
  Forall (fun a => forall st, view (at_env a st) = view st) attempts ->
  (forall a st, exists st', h a st = (Ok tt, st') /\ view st' = F (view st) /\ st_lease st' = st_lease st) ->
  (forall d, F (F d) = F d) ->
  runs (withReadWriteTxn attempts true h) s (fun o s' =>
    sy_mem s' = sy_mem s /\ o <> Fatal /\
    (view (sy_store s') = view (sy_store s) \/ view (sy_store s') = F (view (sy_store s))) /\
    (o = Ok tt -> view (sy_store s') = F (view (sy_store s)) /\
       (cf_validate_lease_on_write (ms_config (sy_mem s)) = true ->
        exists a, a ∈ attempts /\ lease_valid (ms_selfId (sy_mem s)) (at_utcNow a) (st_lease (sy_store s'))))).
Proof.
  intros Hq Hb Hidem. unfold runs, withReadWriteTxn, withReadWriteTxn_local.
  set (d0 := view (sy_store s)). cbv zeta.
  destruct (txn_loop _ _ _ _ _ _ _) as [o [[] st]] eqn:E.
  assert (Hp : loop_post (fun ls => view (snd ls) = d0 \/ view (snd ls) = F d0)
    (fun (_ : unit) ls => view (snd ls) = F d0 /\ (cf_validate_lease_on_write (ms_config (sy_mem s)) = true ->
      exists a, a ∈ attempts /\ lease_valid (ms_selfId (sy_mem s)) (at_utcNow a) (st_lease (snd ls)))) False o (tt, st)).
  { refine (txn_loop_keeps _ _ _ _ _ _ _ _ _ _ _ _ _ _ E); [|by left]. clear E.
    apply Forall_forall. intros a Ha [] st1 HI. rewrite Forall_forall in Hq. specialize (Hq a Ha st1). simpl in *.
    rewrite <- Hq in HI. split; [done|]. unfold txn_body. simpl. mstep.
    assert (Hbody : runs (inStore (L := unit) (h a)) (tt, at_env a st1) (fun o ls' => o = Ok tt /\ view (snd ls') = F d0 /\
      st_lease (snd ls') = st_lease (at_env a st1))).
    { unfold inStore. apply runs_zoom. simpl. destruct (Hb a (at_env a st1)) as (s2 & E2 & D2 & L2).
      eapply runs_of_eq; [exact E2|]. simpl. split_and!; [done| |done]. rewrite D2. destruct HI as [->| ->]; [done|apply Hidem]. }
    destruct (cf_validate_lease_on_write _) eqn:Ev; simpl.
    - unfold inStore at 1. apply runs_zoom. simpl. eapply runs_mono; [apply runs_ensureLeaseValid|].
      intros o1 s1 (-> & [[-> Hv]|[-> Hv]]); mstep; [|done]. eapply runs_mono; [exact Hbody|].
      intros o2 [[] s2] (-> & HD & HL). simpl in *. split; [by right|]. split; [|done]. split; [done|].
      intros _. exists a. rewrite HL. done.
    - msteps. eapply runs_mono; [exact Hbody|].
      intros o2 [[] s2] (-> & HD & HL). simpl in *. split; [by right|]. done. }
  destruct Hp as [HI HQ]. simpl in *. split_and!; [done|by intros ->|done|by intros ->].
Qed.

Lemma runs_withReadWriteTxn attempts h F s :
  quiet attempts -> blind h F -> (forall d, F (F d) = F d) ->
  runs (withReadWriteTxn attempts true h) s (stored attempts F s).
Proof.
  intros Hq Hb Hi. eapply runs_mono; [by apply (runs_withReadWriteTxn_on durable _ _ F)|].
  intros o s' (H1 & H2 & H3 & H4). split; try done; intros Ho; by destruct (H4 Ho).
Qed.

(** The errors of one attempt's work are the lease check's. *)
Lemma txn_body_outcome {L} m b (h : Attempt -> M Store unit) F a (ls : L * Store) :
  blind h F ->
  runs (txn_body m b (fun a => inStore (h a)) a) ls (fun o _ => o = Ok tt \/ o = Err MgmtdCode_kNotPrimary).
Proof.
  intros Hb.
  assert (Hh : forall ls : L * Store, runs (inStore (h a)) ls (fun o _ => o = Ok tt \/ o = Err MgmtdCode_kNotPrimary)).
  { intros ls1. apply runs_zoom. destruct (Hb a (snd ls1)) as (s2 & E2 & _). eapply runs_of_eq; [exact E2|]. by left. }
  unfold txn_body. mstep. mstep; [|mstep; apply Hh]. apply runs_zoom. eapply runs_mono; [apply runs_ensureLeaseValid|].
  intros o s1 (-> & [[-> _]|[-> _]]); mstep; [apply Hh|by right].
Qed.

Lemma txn_loop_settles {L} n (body : Attempt -> M (L * Store) unit) attempts ls :
  (forall a ls, fst (body a ls) = Ok tt \/ fst (body a ls) = Err MgmtdCode_kNotPrimary) ->
  Forall (fun a => forall c, at_readError a = Some c -> typeOf c = Transaction) attempts ->
  Forall (fun a => forall c b, at_commit a = CommitErr c b -> typeOf c = Transaction) attempts ->
  Exists (fun a => at_readError a = None /\ at_commit a = CommitOk) attempts ->
  let o := fst (txn_loop n body (S (length attempts)) (-1) 0 attempts ls) in
  o = Ok tt \/ o = Err MgmtdCode_kNotPrimary.
Proof.
  intros Hb Hread Hcommit Hclean.
  assert (Hnp : typeOf MgmtdCode_kNotPrimary <> Transaction) by by vm_compute.
  pose proof (txn_loop_progress n body ltac:(intros a ls1; destruct (Hb a ls1); congruence)
    (S (length attempts)) (-1) 0 attempts ls ltac:(lia)) as Hp.
  cbv zeta. destruct (txn_loop n body _ _ _ _ _) as [o ls'] eqn:E. cbn [fst] in *.
  assert (Hf : o <> Fatal).
  { pose proof (txn_loop_keeps n body (fun _ => True) (fun _ _ => True) False
      (S (length attempts)) (-1) 0 attempts ls o ls') as Hk.
    intros ->. apply Hk; [|done|exact E]. apply Forall_forall. intros a _ l s _. split; [done|]. unfold runs.
    by destruct (Hb a (l, at_env a s)) as [-> | ->]. }
  destruct o as [[]|c| |]; [by left| |done|].
  - right. assert (HE : Forall (attempt_errors body (fun c => typeOf c = Transaction \/ c = MgmtdCode_kNotPrimary)) attempts).
    { apply Forall_forall. intros a Ha. rewrite Forall_forall in Hread, Hcommit. split_and!; [naive_solver..|].
      intros ls1 c1 Hc. destruct (Hb a ls1); [congruence|]. right. congruence. }
    destruct (txn_loop_err n body _ _ _ _ _ _ _ HE ltac:(done) E) as [[Hc|Hc] Ht]; [done|congruence].
  - exfalso. apply Hp; [|done]. eapply Exists_impl; [exact Hclean|]. intros a [H1 H2]. split_and!; [done..|].
    intros ls1 c Hc. destruct (Hb a ls1); congruence.
Qed.

(** C12: Whatever the attempts of a transaction meet - read errors, failed
    commits, commits that fail with their effect applied - a blind, idempotent
    store update leaves memory alone, never aborts, takes effect entirely or
    not at all, has taken effect when it reports success, and then did so
    while the stored lease named this process and had not ended. *)
Theorem txn_atomic_and_fenced (attempts : list Attempt) (h : Attempt -> M Store unit) (F : Store -> Store) (s : Sys)
    (Hquiet : quiet attempts) (Hblind : blind h F) (Hidem : forall d, F (F d) = F d) :
  let '(o, s') := withReadWriteTxn attempts true h s in
  stored attempts F s o s'.
Proof.
  pose proof (runs_withReadWriteTxn attempts h F s Hquiet Hblind Hidem) as H. unfold runs in H.
  by destruct (withReadWriteTxn attempts true h s).
Qed.

(** With the default unbounded retries, if the key-value store fails with
    transaction errors only and some attempt meets none, a store update
    returns, and its one possible error says that the lease was lost. *)
Theorem txn_settles (attempts : list Attempt) (h : Attempt -> M Store unit) (F : Store -> Store) (s : Sys)
    (Hblind : blind h F) (Hretry : cf_retry_times_on_txn_errors (ms_config (sy_mem s)) = -1)
    (Hread : Forall (fun a => forall c, at_readError a = Some c -> typeOf c = Transaction) attempts)
    (Hcommit : Forall (fun a => forall c b, at_commit a = CommitErr c b -> typeOf c = Transaction) attempts)
    (Hclean : Exists (fun a => at_readError a = None /\ at_commit a = CommitOk) attempts) :
  fst (withReadWriteTxn attempts true h s) = Ok tt \/
  fst (withReadWriteTxn attempts true h s) = Err MgmtdCode_kNotPrimary.
Proof.
  set (body := txn_body (sy_mem s) true (fun a => inStore (L := unit) (h a))).
  assert (Hb : forall a ls, fst (body a ls) = Ok tt \/ fst (body a ls) = Err MgmtdCode_kNotPrimary)
    by (intros a ls; exact (txn_body_outcome (sy_mem s) true h F a ls Hblind)).
  unfold withReadWriteTxn, withReadWriteTxn_local. rewrite Hretry. fold body.
  set (n := cf_max_retry_count (ms_config (sy_mem s))).
  pose proof (txn_loop_settles n body attempts (tt, sy_store s) Hb Hread Hcommit Hclean) as H.
  destruct (txn_loop n body _ _ _ _ _) as [o [l st]]. simpl in *. exact H.
Qed.

(** ** A process with a lease, and attempts that commit or fail *)

Definition sample_self : PersistentNodeInfo := mkPersistentNodeInfo 1 NT_MGMTD [] [] "host1".
Definition sample_lease : MgmtdLeaseInfo := mkMgmtdLeaseInfo sample_self 0 100000000 ReleaseVersion_default.
Definition sample_mem (r : RoutingInfo) : MgmtdState :=
  mkMgmtdState "stage" 1 (toNode sample_self) sample_self MgmtdConfig_default
    (mkMgmtdData 0 r initial_configs (mkLeaseInfo (Some sample_lease) false) ∅ None) ∅.
Definition sample_store (r : RoutingInfo) : Store :=
  mkStore (Some sample_lease) (Some (ri_routingInfoVersion r)) ((fun n => toPersistentNode (nw_base n)) <$> ri_nodeMap r)
    ∅ ∅ (ri_chains r) ∅ ∅.
Definition sample_sys (r : RoutingInfo) : Sys := mkSys (sample_mem r) (sample_store r).
Definition attempt_ok : Attempt := mkAttempt id 1000 None CommitOk None.
Definition attempt_unknown (applied : bool) : Attempt :=
  mkAttempt id 1000 None (CommitErr TransactionCode_kMaybeCommitted applied) None.

Lemma quiet_sample l : Forall (fun a => at_env a = id) l -> quiet l.
Proof. intros H. eapply Forall_impl; [exact H|]. by intros a ->. Qed.

Lemma txn_atomic_and_fenced_witness :
  let s := sample_sys RoutingInfo_default in
  let attempts := [attempt_unknown true; attempt_unknown false; attempt_ok] in
  let '(o, s') := withReadWriteTxn attempts true (fun _ => storeRoutingInfoVersion 7) s in
  stored attempts (set_st_version (Some 7)) s o s' /\ o = Ok tt.
Proof.
  cbv zeta. pose proof (txn_atomic_and_fenced [attempt_unknown true; attempt_unknown false; attempt_ok]
    (fun _ => storeRoutingInfoVersion 7) (set_st_version (Some 7)) (sample_sys RoutingInfo_default)
    ltac:(apply quiet_sample; repeat constructor) ltac:(apply blind_storeRoutingInfoVersion) ltac:(done)) as H.
  destruct (withReadWriteTxn _ _ _ _) as [o s'] eqn:E. split; [exact H|]. clear H. vm_compute in E. by injection E as <- _.
Defined.

Lemma txn_settles_witness :
  fst (withReadWriteTxn [attempt_unknown true; attempt_ok] true (fun _ => storeRoutingInfoVersion 7)
    (sample_sys RoutingInfo_default)) = Ok tt \/
  fst (withReadWriteTxn [attempt_unknown true; attempt_ok] true (fun _ => storeRoutingInfoVersion 7)
    (sample_sys RoutingInfo_default)) = Err MgmtdCode_kNotPrimary.
Proof.
  apply (txn_settles _ _ (set_st_version (Some 7))); [apply blind_storeRoutingInfoVersion|done| | |].
  - repeat constructor; done.
  - repeat constructor; intros c b; [|done]. intros [= <- <-]. by vm_compute.
  - apply Exists_cons_tl, Exists_cons_hd. done.
Defined.
