(* ===== verification/ChainInvariant.v ===== *)
(** * The chain operations keep the chains well-formed

    Each operation's new chain, computed from well-formed routing information,
    is well-formed; memory and store then change together. *)

From stdpp Require Import base list gmap sorting strings.
From Stdlib Require Import ZArith Lia.
From S2P Require Import Prelude StatusCode MgmtdTypes UpdateChain ChainProtocol RoutingInfo MgmtdState Transaction ChainOps.

(** ** New chains from old ones *)

(** The state machine's view [l] of a chain: its targets with local states. *)
Definition views (c : ChainInfo) (l : list ChainTargetInfoEx) : Prop := map cte_slice l = ci_targets c.

Lemma views_same_ps c l : views c l -> Forall2 same_ps (chain_ex c) l.
Proof.
  unfold views, chain_ex. intros <-. rewrite map_map. induction l as [|t l IH]; simpl; constructor; [done|exact IH].
Qed.

Lemma views_ids c l : views c l -> target_ids l = chain_ids c.
Proof. unfold views, chain_ids, target_ids. intros <-. by rewrite map_map. Qed.

Lemma views_wf c l : views c l -> chain_wf (chain_ex c) <-> chain_wf l.
Proof.
  intros Hv. pose proof (views_same_ps _ _ Hv) as HF. split; apply same_ps_wf; [done|].
  apply Forall2_flip. eapply Forall2_impl; [exact HF|]. by intros.
Qed.

Lemma views_authority c l : views c l -> has_authority (chain_ex c) <-> has_authority l.
Proof.
  intros Hv. unfold has_authority. by rewrite !(same_ps_has_state _ _ _ (views_same_ps _ _ Hv)).
Qed.

Lemma chain_ok_new c l v :
  chain_ok c -> chain_wf l -> has_authority l -> target_ids l ≡ₚ chain_ids c ->
  chain_ok (mkChainInfo (ci_chainId c) v (map cte_slice l) (ci_preferredTargetOrder c)).
Proof.
  intros Hok Hwf Ha Hids. set (c' := mkChainInfo _ _ _ _).
  assert (Hv : views c' l) by done. pose proof (views_ids _ _ Hv) as Hi. split.
  - rewrite <- Hi, Hids. apply (co_ids _ Hok).
  - apply (co_preferred _ Hok).
  - intros tid Ht. rewrite <- Hi, Hids. by apply (co_preferred_in _ Hok).
  - by apply (views_wf _ _ Hv).
  - by apply (views_authority _ _ Hv).
Qed.

(** The update of a chain by the state machine. *)
Lemma generateNewChain_keeps c l :
  chain_ok c -> views c l ->
  chain_wf (generateNewChain l) /\ has_authority (generateNewChain l) /\ target_ids (generateNewChain l) ≡ₚ chain_ids c.
Proof.
  intros Hok Hv. assert (Hwf : chain_wf l) by (apply (views_wf _ _ Hv), (co_wf _ Hok)).
  assert (Ha : has_authority l) by (apply (views_authority _ _ Hv), (co_authority _ Hok)).
  split_and!.
  - by apply generateNewChain_chain_wf.
  - destruct Ha as [Ha|Ha]; apply has_state_spec in Ha as (t & Ht & Hps);
      apply (generateNewChain_authority l t); auto using wf_valid.
  - rewrite <- (views_ids _ _ Hv). apply update_ids, (wf_valid _ Hwf).
Qed.

Lemma rotateAsPreferredOrder_keeps c l :
  chain_ok c -> chain_wf l -> has_authority l -> target_ids l ≡ₚ chain_ids c ->
  exists l', rotateAsPreferredOrder l (ci_preferredTargetOrder c) = Ok l' /\
    chain_wf l' /\ has_authority l' /\ target_ids l' ≡ₚ chain_ids c.
Proof.
  intros Hok Hwf Ha Hids. assert (Hnd : NoDup (target_ids l)) by (rewrite Hids; apply (co_ids _ Hok)).
  destruct (rotate_loop_ok l (ci_preferredTargetOrder c) [] Hnd (co_preferred _ Hok)
    ltac:(intros tid Ht; rewrite Hids; by apply (co_preferred_in _ Hok)) eq_refl) as [l' Hl'].
  exists l'. split; [done|]. apply rotate_loop_spec in Hl' as [->|Hr]; [done|].
  split_and!; [by eapply rotated_wf|left; by eapply rotated_serving|by rewrite (rotated_ids _ _ Hr)].
Qed.

Lemma rotateLastSrv_keeps c l :
  chain_ok c -> chain_wf l -> has_authority l -> target_ids l ≡ₚ chain_ids c ->
  chain_wf (rotateLastSrv l) /\ has_authority (rotateLastSrv l) /\ target_ids (rotateLastSrv l) ≡ₚ chain_ids c.
Proof.
  intros Hok Hwf Ha Hids. split_and!; [| |by rewrite rotateLastSrv_ids].
  - destruct l as [|t0 [|t1 rest]]; [done..|]. simpl. case_decide; [done|].
    assert (Hoff : Forall (fun t => cte_publicState t = PS_OFFLINE) (map (set_cte_publicState PS_OFFLINE) (rest ++ [t0])))
      by by apply Forall_map, Forall_true.
    assert (Hno : forall s, s <> PS_OFFLINE -> has_state s (map (set_cte_publicState PS_OFFLINE) (rest ++ [t0])) = false).
    { intros s Hs. apply not_true_iff_false. rewrite has_state_spec. intros (t & Ht & Hps).
      rewrite Forall_forall in Hoff. rewrite (Hoff _ Ht) in Hps. done. }
    split.
    + constructor; [done|]. eapply Forall_impl; [exact Hoff|]. by intros t ->.
    + intros [Hs _]. change (_ :: ?k) with ([set_cte_publicState PS_LASTSRV t1] ++ k) in Hs.
      rewrite has_state_app, Hno in Hs by done. done.
    + rewrite (proj2 (count_zero _ _)); [lia|].
      change (_ :: ?k) with ([set_cte_publicState PS_LASTSRV t1] ++ k). by rewrite has_state_app, Hno.
  - destruct l as [|t0 [|t1 rest]]; [done..|]. simpl. case_decide; [done|]. right. done.
Qed.

(** ** Reading a chain's targets *)

(** A fold that looks every target up succeeds when all are there. *)
Lemma lookup_all_ok (r : RoutingInfo) (f : ChainTargetInfo -> TargetInfo -> ChainTargetInfoEx) ctis :
  (forall cti, cti ∈ ctis -> exists ti, ri_targets r !! cti_targetId cti = Some ti /\ cte_slice (f cti ti) = cti) ->
  exists l, foldr (fun cti acc =>
    match ri_targets r !! cti_targetId cti, acc with
    | Some ti, Ok l => Ok (f cti ti :: l)
    | Some _, o => o
    | None, _ => Fatal
    end) (Ok []) ctis = Ok l /\ map cte_slice l = ctis.
Proof.
  induction ctis as [|cti ctis IH]; intros H; simpl; [by exists []|].
  destruct IH as (l & -> & Hl); [intros; apply H; by right|]. destruct (H cti) as (ti & -> & Hf); [left|].
  exists (f cti ti :: l). split; [done|]. simpl. by rewrite Hf, Hl.
Qed.

Lemma chainTargetsEx_ok r cid c :
  ri_wf r -> ri_chains r !! cid = Some c -> exists l, chainTargetsEx r (ci_targets c) = Ok l /\ views c l.
Proof.
  intros Hwf Hc. apply (lookup_all_ok r (fun cti ti => cte_make cti (fti_localState (ti_base ti)))).
  intros cti Hcti. destruct (rw_chain_target _ Hwf _ _ _ Hc Hcti) as (ti & Hti & _). exists ti. split; [done|]. by destruct cti.
Qed.

Lemma targetsOfChain_ok r cid c :
  ri_wf r -> ri_chains r !! cid = Some c -> exists l, targetsOfChain r (ci_targets c) = Ok l /\ views c l.
Proof.
  intros Hwf Hc. apply (lookup_all_ok r (fun cti ti => cte_of_target (ti_base ti))).
  intros cti Hcti. destruct (rw_chain_target _ Hwf _ _ _ Hc Hcti) as (ti & Hti & _ & Hps). exists ti. split; [done|].
  destruct (rw_target _ Hwf _ _ Hti) as [Hid _]. destruct cti. unfold cte_slice. simpl in *. by f_equal.
Qed.

(** ** [appendChangedChains] *)

(** A chain that replaces the current one. *)
Record replaces (r : RoutingInfo) (old c : ChainInfo) : Prop := {
  rp_old : ri_chains r !! ci_chainId c = Some old;
  rp_ids : chain_ids c ≡ₚ chain_ids old;
  rp_ok : chain_ok c;
  rp_version : ci_chainVersion c = nextVersion32 (ci_chainVersion old);
  rp_preferred : ci_preferredTargetOrder c = ci_preferredTargetOrder old
}.

Lemma replaces_new r c l :
  ri_wf r -> ri_chains r !! ci_chainId c = Some c -> chain_wf l -> has_authority l -> target_ids l ≡ₚ chain_ids c ->
  replaces r c (mkChainInfo (ci_chainId c) (nextVersion32 (ci_chainVersion c)) (map cte_slice l) (ci_preferredTargetOrder c)).
Proof.
  intros Hwf Hc Hl Ha Hids. destruct (rw_chain _ Hwf _ _ Hc) as [_ Hok]. split; simpl; try done.
  - rewrite <- Hids. unfold chain_ids, target_ids. simpl. by rewrite map_map.
  - by apply chain_ok_new.
Qed.

Lemma appendChangedChains_ok r cid adjust acc :
  ri_wf r -> is_Some (ri_chains r !! cid) ->
  exists new, appendChangedChains r cid adjust acc = Ok (acc ++ new) /\
    (new = [] \/ exists old c, new = [c] /\ ci_chainId c = cid /\ replaces r old c).
Proof.
  intros Hwf [c Hc]. unfold appendChangedChains. destruct (ri_newBornChains r !! cid); [exists []; rewrite app_nil_r; auto|].
  rewrite Hc. destruct (rw_chain _ Hwf _ _ Hc) as [Hid Hok].
  destruct (chainTargetsEx_ok _ _ _ Hwf Hc) as (l & -> & Hv).
  destruct (generateNewChain_keeps _ _ Hok Hv) as (Hwf' & Ha' & Hids').
  match goal with |- context [match ?o with Ok _ => _ | Err _ => _ | Fatal => _ | Pending => _ end] =>
    assert (exists l', o = Ok l' /\ chain_wf l' /\ has_authority l' /\ target_ids l' ≡ₚ chain_ids c) as (l' & -> & Hl' & Ha2 & Hids2)
  end.
  { destruct (adjust && _); [|eauto]. destruct (last (generateNewChain l)) as [t|] eqn:El.
    - case_bool_decide; [|eauto]. by apply rotateAsPreferredOrder_keeps.
    - apply last_None in El. rewrite El in Ha'. by destruct Ha'. }
  case_bool_decide; [|exists []; rewrite app_nil_r; auto].
  eexists. split; [reflexivity|]. right. subst cid. exists c. eexists. split; [done|]. split; [done|]. by apply replaces_new.
Qed.

Lemma changedChains_of_ok r adjust cids acc :
  ri_wf r -> NoDup cids -> (forall cid, cid ∈ cids -> is_Some (ri_chains r !! cid)) ->
  exists new, changedChains_of r adjust cids acc = Ok (acc ++ new) /\ NoDup (map ci_chainId new) /\
    forall c, c ∈ new -> ci_chainId c ∈ cids /\ exists old, replaces r old c.
Proof.
  intros Hwf Hnd. revert acc. induction Hnd as [|cid cids Hn Hnd IH]; intros acc Hin; simpl.
  { exists []. rewrite app_nil_r. split_and!; [done|constructor|]. intros c Hc. by apply elem_of_nil in Hc. }
  destruct (appendChangedChains_ok r cid adjust acc Hwf) as (n1 & -> & H1); [apply Hin; left|].
  destruct (IH (acc ++ n1)) as (n2 & -> & Hnd2 & H2); [intros; apply Hin; by right|].
  exists (n1 ++ n2). rewrite app_assoc. split; [done|]. destruct H1 as [->|(old & c & -> & Hid & Hr)]; simpl.
  - split; [done|]. intros c Hc. destruct (H2 _ Hc). split; [by right|done].
  - split.
    + constructor; [|done]. intros Hx. apply list_elem_of_fmap in Hx as (c' & Hx & Hc'). destruct (H2 _ Hc') as [Hx' _]. congruence.
    + intros c' Hc'. apply elem_of_cons in Hc' as [->|Hc']; [split; [rewrite Hid; left|eauto]|].
      destruct (H2 _ Hc'). split; [by right|done].
Qed.

(** ** Adding and removing a target *)

Lemma chain_ex_app c ctis : map (fun t => cte_make t LS_INVALID) (ci_targets c ++ ctis) =
  chain_ex c ++ map (fun t => cte_make t LS_INVALID) ctis.
Proof. apply map_app. Qed.

Lemma chain_wf_add_offline l t :
  cte_publicState t = PS_OFFLINE -> chain_wf (l ++ [t]) <-> chain_wf l.
Proof.
  intros Ht.
  assert (Hs : forall s, s <> PS_OFFLINE -> has_state s [t] = false).
  { intros s Hs. unfold has_state. simpl. rewrite Ht. by case_bool_decide. }
  assert (Hc : count_state PS_SYNCING (l ++ [t]) = count_state PS_SYNCING l).
  { unfold count_state, group_by_ps. rewrite filter_app, length_app, filter_cons, Ht. simpl. lia. }
  split; intros [Hv Hex Hsy].
  - apply Forall_app in Hv as [Hv _]. rewrite !has_state_app, !Hs, !orb_false_r in Hex by done. rewrite Hc in Hsy. done.
  - split; [apply Forall_app; split; [done|]; constructor; [by rewrite Ht|constructor]| |by rewrite Hc].
    by rewrite !has_state_app, !Hs, !orb_false_r by done.
Qed.

Lemma has_authority_add_offline l t :
  cte_publicState t = PS_OFFLINE -> has_authority (l ++ [t]) <-> has_authority l.
Proof.
  intros Ht. unfold has_authority. rewrite !has_state_app. unfold has_state at 2 4. simpl. rewrite Ht. simpl.
  by rewrite !orb_false_r.
Qed.

Lemma chainWithTarget_ok c tid : chain_ok c -> tid ∉ chain_ids c -> chain_ok (chainWithTarget c tid).
Proof.
  intros [H1 H2 H3 H4 H5] Hn. unfold chainWithTarget.
  assert (Hids : chain_ids (chainWithTarget c tid) = chain_ids c ++ [tid]) by (unfold chain_ids; simpl; by rewrite map_app).
  split.
  - change (NoDup (chain_ids (chainWithTarget c tid))). rewrite Hids. apply NoDup_app. split_and!; [done| |apply NoDup_singleton].
    intros x Hx Hx'. apply list_elem_of_singleton in Hx' as ->. done.
  - simpl. case_bool_decide; [|done]. apply NoDup_app. split_and!; [done| |apply NoDup_singleton].
    intros x Hx Hx'. apply list_elem_of_singleton in Hx' as ->. auto.
  - intros x Hx. change (x ∈ chain_ids (chainWithTarget c tid)). rewrite Hids, elem_of_app. simpl in Hx. case_bool_decide; [|auto].
    apply elem_of_app in Hx as [Hx|Hx]; auto.
  - unfold chain_ex. simpl. rewrite chain_ex_app. by apply chain_wf_add_offline.
  - unfold chain_ex. simpl. rewrite chain_ex_app. by apply has_authority_add_offline.
Qed.

Lemma erase_first_middle {A} (f : A -> bool) l1 x l2 :
  Forall (fun y => f y = false) l1 -> f x = true -> erase_first f (l1 ++ x :: l2) = l1 ++ l2.
Proof.
  induction 1 as [|y l1 Hy HF IH]; intros Hx; simpl; [by rewrite Hx|]. rewrite Hy. f_equal. by apply IH.
Qed.

Lemma erase_first_sublist {A} (f : A -> bool) l : sublist (erase_first f l) l.
Proof. induction l as [|x l IH]; simpl; [done|]. destruct (f x); by constructor. Qed.

Lemma erase_first_NoDup (tid : TargetId) l : NoDup l -> tid ∉ erase_first (fun t => bool_decide (t = tid)) l.
Proof.
  induction 1 as [|x l Hx Hnd IH]; simpl; [apply not_elem_of_nil|]. case_bool_decide; [by subst|].
  rewrite not_elem_of_cons. auto.
Qed.

(** Removing an OFFLINE target: where it was, and what is left. *)
Lemma chainWithoutTarget_inv c tid c' :
  chainWithoutTarget c tid = Ok c' ->
  exists l1 l2, ci_targets c = l1 ++ mkChainTargetInfo tid PS_OFFLINE :: l2 /\ ci_targets c' = l1 ++ l2 /\
    ci_chainId c' = ci_chainId c /\ ci_chainVersion c' = nextVersion32 (ci_chainVersion c) /\
    ci_preferredTargetOrder c' = erase_first (fun t => bool_decide (t = tid)) (ci_preferredTargetOrder c).
Proof.
  unfold chainWithoutTarget. destruct (list_find _ _) as [[i cti]|] eqn:E; [|done].
  apply list_find_Some in E as (Hi & Ht & Hbefore). case_bool_decide as Hps; [done|]. intros [= <-]. simpl.
  destruct cti as [t ps]. simpl in *. subst t ps.
  exists (take i (ci_targets c)), (drop (S i) (ci_targets c)).
  assert (Hsplit : ci_targets c = take i (ci_targets c) ++ mkChainTargetInfo tid PS_OFFLINE :: drop (S i) (ci_targets c))
    by (symmetry; by apply take_drop_middle).
  split_and!; try done. rewrite Hsplit at 1. apply erase_first_middle; simpl; [|by rewrite bool_decide_eq_true_2].
  apply Forall_forall. intros y Hy. apply list_elem_of_lookup in Hy as [j Hj]. apply lookup_take_Some in Hj as [Hj Hlt].
  apply bool_decide_eq_false_2. by apply (Hbefore j y).
Qed.

Lemma chainWithoutTarget_ok c tid c' :
  chain_ok c -> chainWithoutTarget c tid = Ok c' -> chain_ok c' /\ tid ∉ chain_ids c' /\ chain_ids c ≡ₚ tid :: chain_ids c'.
Proof.
  intros [H1 H2 H3 H4 H5] Hc. destruct (chainWithoutTarget_inv _ _ _ Hc) as (l1 & l2 & Hl & Hl' & _ & _ & Hp).
  assert (Hids : chain_ids c ≡ₚ tid :: chain_ids c').
  { unfold chain_ids. rewrite Hl, Hl', !map_app. simpl. by rewrite <- Permutation_middle. }
  assert (Hex : chain_ex c ≡ₚ chain_ex c' ++ [mkChainTargetInfoEx tid PS_OFFLINE LS_INVALID]).
  { unfold chain_ex. rewrite Hl, Hl', !map_app. simpl. unfold cte_make at 2. simpl. solve_Permutation. }
  rewrite Hids in H1. apply NoDup_cons in H1 as [Hn H1]. split; [|done]. split; [done|..].
  - rewrite Hp. eapply sublist_NoDup; [done|apply erase_first_sublist].
  - rewrite Hp. intros x Hx. assert (Hx' : x ∈ chain_ids c).
    { apply H3. eapply elem_of_submseteq; [exact Hx|]. apply sublist_submseteq, erase_first_sublist. }
    rewrite Hids in Hx'. apply elem_of_cons in Hx' as [->|]; [|done]. exfalso. by eapply erase_first_NoDup.
  - rewrite Hex in H4. by apply chain_wf_add_offline in H4.
  - assert (H5' : has_authority (chain_ex c' ++ [mkChainTargetInfoEx tid PS_OFFLINE LS_INVALID])).
    { unfold has_authority in *. by rewrite <- !Hex. }
    by apply has_authority_add_offline in H5'.
Qed.

(** ** New chains *)

Lemma makeChainInfo_ok st :
  NoDup (cs_targets st) -> cs_targets st <> [] -> chain_ok (makeChainInfo st) /\ chain_ids (makeChainInfo st) = cs_targets st.
Proof.
  intros Hnd Hne.
  assert (Hids : chain_ids (makeChainInfo st) = cs_targets st).
  { unfold chain_ids. simpl. rewrite map_map. apply map_id. }
  assert (Hs : forall t, t ∈ chain_ex (makeChainInfo st) -> cte_publicState t = PS_SERVING).
  { intros t Ht. unfold chain_ex in Ht. simpl in Ht. rewrite map_map in Ht. by apply list_elem_of_fmap in Ht as (x & -> & _). }
  assert (Hno : forall ps, ps <> PS_SERVING -> has_state ps (chain_ex (makeChainInfo st)) = false).
  { intros ps Hps. apply not_true_iff_false. rewrite has_state_spec. intros (t & Ht & E). rewrite (Hs _ Ht) in E. done. }
  split; [|done]. split.
  - by rewrite Hids.
  - simpl. case_match; [done|constructor].
  - intros tid Ht. rewrite Hids. simpl in Ht. case_match; [done|]. by apply elem_of_nil in Ht.
  - split.
    + apply Forall_forall. intros t Ht. by rewrite (Hs _ Ht).
    + by intros [_ E]; rewrite Hno in E.
    + rewrite (proj2 (count_zero _ _)); [lia|]. by apply Hno.
  - left. apply has_state_spec. unfold chain_ex. simpl. destruct (cs_targets st) as [|t l]; [done|]. simpl.
    eexists. split; [left|done].
Qed.

Lemma checkNewTargets_spec ri tids nt nt' :
  checkNewTargets ri tids nt = Ok nt' ->
  NoDup tids /\ (forall t, t ∈ tids -> ri_targets ri !! t = None /\ t ∉ nt) /\ nt' = list_to_set tids ∪ nt.
Proof.
  revert nt. induction tids as [|t tids IH]; intros nt; simpl.
  { intros [= <-]. split_and!; [constructor| |set_solver]. intros t Ht. by apply elem_of_nil in Ht. }
  case_match eqn:E; [done|]. apply orb_false_iff in E as [E1%bool_decide_eq_false E2%bool_decide_eq_false].
  intros (Hnd & Hf & ->)%IH. split_and!.
  - constructor; [|done]. intros Ht. destruct (Hf _ Ht). set_solver.
  - intros t' Ht'. apply elem_of_cons in Ht' as [->|Ht']; [by split; [apply eq_None_not_Some|]|].
    destruct (Hf _ Ht'). split; [done|set_solver].
  - set_solver.
Qed.

(** What [checkChains] hands over: new chains with fresh, distinct targets. *)
Record new_chains (ri : RoutingInfo) (chains : list ChainSetting) (nt : gset TargetId) (new : list ChainInfo) : Prop := {
  nc_ok : forall c, c ∈ new -> chain_ok c /\ ri_chains ri !! ci_chainId c = None /\ ci_chainVersion c = 1;
  nc_ids : sublist (map ci_chainId new) (map cs_chainId chains);
  nc_distinct : NoDup (concat (map chain_ids new));
  nc_fresh : forall t, t ∈ concat (map chain_ids new) -> ri_targets ri !! t = None /\ t ∉ nt
}.

Lemma checkChains_loop_spec ri chains acc nt out :
  checkChains_loop ri chains acc nt = Ok out -> exists new, out = acc ++ new /\ new_chains ri chains nt new.
Proof.
  revert acc nt. induction chains as [|st chains IH]; intros acc nt; simpl.
  { intros [= <-]. exists []. rewrite app_nil_r. split; [done|].
    split; simpl; [|done|constructor|]; intros ? Hx; by apply elem_of_nil in Hx. }
  case_bool_decide; [done|]. case_bool_decide as Hne; [done|].
  destruct (ri_chains ri !! cs_chainId st) as [old|] eqn:Eold.
  - case_match; try done. intros (new & -> & [N1 N2 N3 N4])%IH. exists new. split; [done|]. split; try done.
    by apply sublist_cons.
  - destruct (checkNewTargets ri (cs_targets st) nt) as [nt'|c| |] eqn:En; try done.
    apply checkNewTargets_spec in En as (Hnd & Hf & ->). intros (new & -> & [N1 N2 N3 N4])%IH.
    destruct (makeChainInfo_ok st Hnd) as [Hok Hids]; [done|].
    exists (makeChainInfo st :: new). rewrite <- app_assoc. split; [done|]. split; simpl; rewrite ?Hids.
    + intros c Hc. apply elem_of_cons in Hc as [->|Hc]; [by split_and!|auto].
    + by apply sublist_skip.
    + apply NoDup_app. split_and!; [done| |done]. intros t Ht Ht'. destruct (N4 _ Ht'). set_solver.
    + intros t Ht. apply elem_of_app in Ht as [Ht|Ht]; [auto|]. destruct (N4 _ Ht). split; [done|set_solver].
Qed.

Lemma checkNewTargets_total ri tids nt : (exists nt', checkNewTargets ri tids nt = Ok nt') \/ exists c, checkNewTargets ri tids nt = Err c.
Proof. revert nt. induction tids as [|t tids IH]; intros nt; simpl; [eauto|]. case_match; eauto. Qed.

Lemma checkChains_total ri chains :
  (exists new, checkChains ri chains = Ok new /\ new_chains ri chains ∅ new) \/ exists c, checkChains ri chains = Err c.
Proof.
  assert (H : forall acc nt, (exists new, checkChains_loop ri chains acc nt = Ok new) \/ exists c, checkChains_loop ri chains acc nt = Err c).
  { induction chains as [|st chains IH]; intros acc nt; simpl; [eauto|]. repeat (case_bool_decide; [eauto|]).
    destruct (ri_chains ri !! cs_chainId st) as [old|].
    - assert (ensureChainNotChanged old st = Ok tt \/ exists c, ensureChainNotChanged old st = Err c) as [->|[c ->]]; [|auto|eauto].
      unfold ensureChainNotChanged. repeat case_bool_decide; eauto.
    - destruct (checkNewTargets_total ri (cs_targets st) nt) as [[nt' ->]|[c ->]]; eauto. }
  unfold checkChains. case_bool_decide; [eauto|]. destruct (H [] ∅) as [[new Hn]|[c Hc]]; [|eauto].
  left. exists new. split; [done|]. by apply checkChains_loop_spec in Hn as (new' & -> & ?).
Qed.

(** Inserting them one by one. *)
Lemma runs_insertNewChains now cs r :
  ri_wf r -> NoDup (map ci_chainId cs) -> NoDup (concat (map chain_ids cs)) ->
  (forall c, c ∈ cs -> chain_ok c /\ ri_chains r !! ci_chainId c = None) ->
  (forall t, t ∈ concat (map chain_ids cs) -> ri_targets r !! t = None) ->
  runs (for_each (insertNewChain now) cs) r (fun o r' => o = Ok tt /\ ri_wf r' /\
    ri_chains r' = foldl (fun m c => <[ci_chainId c := c]> m) (ri_chains r) cs /\
    ri_nodeMap r' = ri_nodeMap r /\ ri_chainTables r' = ri_chainTables r /\
    ri_routingInfoVersion r' = ri_routingInfoVersion r).
Proof.
  intros Hwf. revert r Hwf. induction cs as [|c cs IH]; intros r Hwf Hids Hts Hcs Hf; simpl in *; [by apply runs_ret|].
  apply NoDup_cons in Hids as [Hn Hids]. apply NoDup_app in Hts as (Hnc & Hdis & Hts).
  destruct (Hcs c) as [Hok Hnone]; [left|]. mstep.
  eapply runs_mono; [apply runs_insertNewChain; try done; intros t Ht; apply Hf; rewrite elem_of_app; by left|].
  intros o r1 (-> & Hwf1 & Hch1 & _ & Ht1 & Hn1 & Hct1 & Hv1 & _). mstep.
  eapply runs_mono; [apply IH; try done|].
  - intros c' Hc'. destruct (Hcs c') as [Hok' Hnone']; [by right|]. split; [done|]. rewrite Hch1, lookup_insert_ne; [done|].
    intros E. apply Hn. rewrite E. by apply list_elem_of_fmap_2.
  - intros t Ht. rewrite Ht1; [apply Hf; rewrite elem_of_app; by right|]. intros Hx. by apply (Hdis t).
  - intros o r2 (-> & Hwf2 & Hch2 & Hn2 & Hct2 & Hv2). split_and!; [done..| |congruence|congruence|congruence]. by rewrite Hch2, Hch1.
Qed.

(** ** Idempotence of stored updates *)

Definition insert_chains (m : gmap ChainId ChainInfo) (cs : list ChainInfo) : gmap ChainId ChainInfo :=
  foldl (fun m c => <[ci_chainId c := c]> m) m cs.

Lemma insert_chains_out cs m cid : cid ∉ map ci_chainId cs -> insert_chains m cs !! cid = m !! cid.
Proof.
  revert m. induction cs as [|c cs IH]; intros m Hn; simpl in *; [done|]. apply not_elem_of_cons in Hn as [H1 H2].
  rewrite IH by done. by rewrite lookup_insert_ne.
Qed.

Lemma insert_chains_in cs m m' cid : cid ∈ map ci_chainId cs -> insert_chains m cs !! cid = insert_chains m' cs !! cid.
Proof.
  revert m m'. induction cs as [|c cs IH]; intros m m' Hn; simpl in *; [by apply elem_of_nil in Hn|].
  destruct (decide (cid ∈ map ci_chainId cs)) as [Hi|Hi]; [by apply IH|]. rewrite !insert_chains_out by done.
  apply elem_of_cons in Hn as [->|]; [|done]. by rewrite !lookup_insert_eq.
Qed.

Lemma insert_chains_idem cs m : insert_chains (insert_chains m cs) cs = insert_chains m cs.
Proof.
  apply map_eq. intros cid. destruct (decide (cid ∈ map ci_chainId cs)); [by apply insert_chains_in|].
  by apply insert_chains_out.
Qed.

Lemma foldl_set_chains cs d :
  foldl (fun d c => set_st_chains (<[ci_chainId c := c]> (st_chains d)) d) d cs =
  set_st_chains (insert_chains (st_chains d) cs) d.
Proof. revert d. induction cs as [|c cs IH]; intros d; simpl; [by destruct d|]. by rewrite IH. Qed.
