(* ===== verification/Coherence.v ===== *)
(** * Memory and store agree

    The primary keeps its chains and chain tables in memory and in the store.
    After every successful operation the two agree and the routing information
    is well-formed; a failed operation leaves memory alone. *)

From stdpp Require Import base list gmap sorting strings.
From Stdlib Require Import ZArith Lia.
From S2P Require Import Prelude StatusCode MgmtdTypes UpdateChain ChainProtocol RoutingInfo MgmtdState Transaction ChainOps ChainInvariant.

(** ** The invariant *)

(** The stored version is the one in memory, or the next one when an update
    was stored whose operation does not change the version in memory. *)
Definition version_agrees (stored : option RoutingInfoVersion) (mem : RoutingInfoVersion) : Prop :=
  stored = Some mem \/ stored = Some (nextVersion64 mem).

Definition tables_agree (stored : gmap (ChainTableId * ChainTableVersion) ChainTable)
    (mem : gmap ChainTableId (gmap ChainTableVersion ChainTable)) : Prop :=
  forall t v, stored !! (t, v) = mem !! t ≫= fun m => m !! v.

Definition tables_wf (mem : gmap ChainTableId (gmap ChainTableVersion ChainTable)) : Prop :=
  forall t m, mem !! t = Some m -> m <> ∅ /\
    forall v ct, m !! v = Some ct -> ct_chainTableId ct = t /\ ct_chainTableVersion ct = v.

(** What is stored of a node. *)
Definition persisted (n : NodeInfoWrapper) : PersistentNodeInfo := toPersistentNode (nw_base n).

(** A node is disabled exactly when it has the Disable tag. *)
Record node_ok (n : NodeInfo) : Prop := {
  no_disabled : ni_status n = DISABLED <-> findTag (ni_tags n) kDisabledTagKey <> -1;
  no_tags : NoDup (map tp_key (ni_tags n))
}.

(** The routing information [r] of a process and the durable part [d] of the
    store. *)
Record coherent (r : RoutingInfo) (d : Store) : Prop := {
  ch_wf : ri_wf r;
  ch_nodes : st_nodes d = persisted <$> ri_nodeMap r;
  ch_node_ok : forall nid n, ri_nodeMap r !! nid = Some n -> node_ok (nw_base n);
  ch_chains : st_chains d = ri_chains r;
  ch_tables : tables_agree (st_chainTables d) (ri_chainTables r);
  ch_tables_wf : tables_wf (ri_chainTables r);
  ch_version : version_agrees (st_version d) (ri_routingInfoVersion r)
}.

(** Memory has the stored configurations of every type, and an empty one at
    version 0 if none is stored. *)
Definition configs_agree (stored : gmap (NodeType * ConfigVersion) ConfigInfo)
    (mem : gmap NodeType (gmap ConfigVersion ConfigInfo)) : Prop :=
  forall t, exists m, mem !! t = Some m /\
    forall v, m !! v = match stored !! (t, v) with
                       | Some c => Some c
                       | None => if decide (v = 0) then Some ConfigInfo_default else None
                       end.

Record sys_ok (s : Sys) : Prop := {
  so_ri : coherent (sys_ri s) (durable (sy_store s));
  so_configs : configs_agree (st_configs (durable (sy_store s))) (md_configMap (ms_data (sy_mem s)));
  so_config_versions : forall t v c, st_configs (durable (sy_store s)) !! (t, v) = Some c -> cfg_configVersion c = v;
  so_tags : st_tags (durable (sy_store s)) = md_universalTagsMap (ms_data (sy_mem s));
  so_tag_ids : st_tags (durable (sy_store s)) !! "" = None
}.

Definition with_ri (r : RoutingInfo) (m : MgmtdState) : MgmtdState := set_ms_data (set_md_routingInfo r (ms_data m)) m.

(** Only the routing information changed. *)
Lemma sys_ok_ri s r st d :
  sys_ok s -> durable st = d -> coherent r d -> st_configs d = st_configs (durable (sy_store s)) ->
  st_tags d = st_tags (durable (sy_store s)) -> sys_ok (mkSys (with_ri r (sy_mem s)) st).
Proof. intros [H1 H2 H3 H4 H5] <- Hc Hcf Ht. split; simpl in *; rewrite ?Hcf, ?Ht; done. Qed.

(** What an operation leaves: on success [P], otherwise memory as it was. *)
Definition op_post {A} (s : Sys) (P : A -> Sys -> Prop) (o : outcome A) (s' : Sys) : Prop :=
  match o with
  | Ok a => P a s'
  | Fatal => False
  | _ => sy_mem s' = sy_mem s
  end.

(** The environment of an operation: nobody else writes the primary's part of
    the store, and the user store answers. *)
Record env_ok (env : OpEnv) : Prop := {
  eo_quiet : quiet (oe_attempts env);
  eo_user : exists o, oe_getUser env = o /\ o <> Fatal
}.

(** ** Rules for the operations *)

Section rules.
Context {A : Type} (s : Sys) (P : A -> Sys -> Prop).

Lemma runs_validated env clusterId (m : M Sys A) :
  env_ok env -> runs m s (op_post s P) -> runs (validateRequest env clusterId ;; m) s (op_post s P).
Proof.
  intros [_ (o & Ho & Hf)] Hm. unfold validateRequest, validateClusterId, validateAdmin, getConfigItem. msteps; [done| |done].
  msteps. rewrite Ho. destruct o as [b|c| |]; msteps; done.
Qed.

Lemma runs_asPrimary now (m : M Sys A) : runs m s (op_post s P) -> runs (doAsPrimary now m) s (op_post s P).
Proof.
  intros Hm. unfold doAsPrimary, ensureSelfIsPrimary. msteps. destruct (currentLease _ _); msteps; done.
Qed.

Lemma runs_checked b c (m : M Sys A) : (b = false -> runs m s (op_post s P)) -> runs (err_if b c ;; m) s (op_post s P).
Proof. intros Hm. msteps; [done|auto]. Qed.
End rules.

(** An operation that writes the store and then memory. *)
Definition bumped (r : RoutingInfo) : RoutingInfo :=
  set_ri_changed false (set_ri_version (nextVersion64 (ri_routingInfoVersion r)) r).

Lemma runs_onRouting {A} (g : M RoutingInfo A) s (Q : outcome A -> Sys -> Prop) :
  runs g (sys_ri s) (fun o r => Q o (mkSys (with_ri r (sy_mem s)) (sy_store s))) -> runs (onRouting g) s Q.
Proof. intros H. unfold onRouting, onData, onMem. by do 3 apply runs_zoom. Qed.

Section store_then_memory.
Context {A : Type} (attempts : list Attempt) (h : Attempt -> M Store unit) (F : Store -> Store) (g : M RoutingInfo unit).
Context (s : Sys) (P : A -> Sys -> Prop).
Let F' := fun d => F (set_st_version (Some (nextVersion64 (ri_routingInfoVersion (sys_ri s)))) d).
Hypothesis Hquiet : quiet attempts.
Hypothesis Hblind : blind h F.
Hypothesis Hidem : forall d, F' (F' d) = F' d.

(** Storing, with the rest [k] of the operation. *)
Lemma runs_store_then (k : M Sys A) :
  (forall st, durable st = F' (durable (sy_store s)) -> runs k (mkSys (sy_mem s) st) (op_post s P)) ->
  runs (updateStoredRoutingInfo attempts h ;; k) s (op_post s P).
Proof.
  intros Hk. unfold updateStoredRoutingInfo. mstep. msteps. eapply runs_mono.
  { apply (runs_withReadWriteTxn _ _ F'); [done| |done].
    exact (blind_seq _ _ _ _ (blind_storeRoutingInfoVersion _) Hblind). }
  intros o s' [Hm Hf _ Hd _]. destruct o as [[]|c| |]; cbv beta iota; [|done..].
  specialize (Hd eq_refl). destruct s' as [mem st]. simpl in *. subst mem. by apply Hk.
Qed.

Lemma runs_memory_then (k : M Sys A) st :
  runs g (bumped (sys_ri s)) (fun o r => o = Ok tt /\ runs k (mkSys (with_ri r (sy_mem s)) st) (op_post s P)) ->
  runs (updateMemoryRoutingInfo g ;; k) (mkSys (sy_mem s) st) (op_post s P).
Proof.
  intros Hg. mstep. unfold updateMemoryRoutingInfo. apply runs_onRouting. unfold bumpMemoryRoutingInfo. msteps.
  eapply runs_mono; [exact Hg|]. by intros o r (-> & HP).
Qed.

Lemma runs_store_then_memory (a : A) :
  runs g (bumped (sys_ri s)) (fun o r => o = Ok tt /\ forall st, durable st = F' (durable (sy_store s)) ->
    P a (mkSys (with_ri r (sy_mem s)) st)) ->
  runs (updateStoredRoutingInfo attempts h ;; updateMemoryRoutingInfo g ;; mret a) s (op_post s P).
Proof.
  intros Hg. apply runs_store_then. intros st Hst. apply runs_memory_then. eapply runs_mono; [exact Hg|].
  intros o r (-> & HP). split; [done|]. mstep. by apply HP.
Qed.
End store_then_memory.

(** The same without a value. *)
Lemma runs_store_then_memory_unit attempts h F (g : M RoutingInfo unit) s (P : unit -> Sys -> Prop) :
  let F' := fun d => F (set_st_version (Some (nextVersion64 (ri_routingInfoVersion (sys_ri s)))) d) in
  quiet attempts -> blind h F -> (forall d, F' (F' d) = F' d) ->
  runs g (bumped (sys_ri s)) (fun o r => o = Ok tt /\ forall st, durable st = F' (durable (sy_store s)) ->
    P tt (mkSys (with_ri r (sy_mem s)) st)) ->
  runs (updateStoredRoutingInfo attempts h ;; updateMemoryRoutingInfo g) s (op_post s P).
Proof.
  intros F' Hq Hb Hi Hg. pose proof (runs_store_then_memory attempts h F g s P Hq Hb Hi tt Hg) as H.
  unfold runs in *. unfold mbind, M_bind, mret, M_ret in *.
  destruct (updateStoredRoutingInfo attempts h s) as [[[]|c| |] s1]; try done.
  by destruct (updateMemoryRoutingInfo g s1) as [[[]|c| |] s2].
Qed.

Lemma bumped_wf r : ri_wf r -> ri_wf (bumped r).
Proof. by intros [H1 H2 H3 H4 H5 H6]. Qed.

(** ** One chain replaced *)

Lemma coherent_chains r d r' d' :
  coherent r d -> ri_wf r' -> st_chains d' = ri_chains r' -> st_chainTables d' = st_chainTables d ->
  st_nodes d' = st_nodes d -> ri_chainTables r' = ri_chainTables r -> ri_nodeMap r' = ri_nodeMap r ->
  version_agrees (st_version d') (ri_routingInfoVersion r') -> coherent r' d'.
Proof. intros [H1 Hn Hno H2 H3 H4 H5] Hwf Hc Ht Hsn Ht' Hrn Hv. split; try done; by rewrite ?Ht, ?Ht', ?Hsn, ?Hrn. Qed.

(** [P] for an operation that replaced chain [c] and bumped the version. *)
Record chain_replaced (s : Sys) (c : ChainInfo) (s' : Sys) : Prop := {
  cr_ok : sys_ok s';
  cr_chains : ri_chains (sys_ri s') = <[ci_chainId c := c]> (ri_chains (sys_ri s));
  cr_version : ri_routingInfoVersion (sys_ri s') = nextVersion64 (ri_routingInfoVersion (sys_ri s))
}.

Lemma runs_store_chain env s c (pre : bool) tid (g : M RoutingInfo unit) (P : ChainInfo -> Sys -> Prop) :
  env_ok env -> sys_ok s ->
  runs g (bumped (sys_ri s)) (fun o r => o = Ok tt /\ ri_wf r /\
    ri_chains r = <[ci_chainId c := c]> (ri_chains (sys_ri s)) /\
    ri_nodeMap r = ri_nodeMap (sys_ri s) /\ ri_chainTables r = ri_chainTables (sys_ri s) /\
    ri_routingInfoVersion r = nextVersion64 (ri_routingInfoVersion (sys_ri s))) ->
  (forall s', chain_replaced s c s' -> P c s') ->
  runs (updateStoredRoutingInfo (oe_attempts env) (fun _ => when pre (clearTargetInfo tid) ;; storeChainInfo c) ;;
        updateMemoryRoutingInfo g ;; mret c) s (op_post s P).
Proof.
  intros [Hq _] Hs Hg HP. eapply (runs_store_then_memory _ _ (fun d => set_st_chains (<[ci_chainId c := c]> (st_chains d)) d)).
  - done.
  - refine (blind_seq (fun _ => when pre (clearTargetInfo tid)) id (fun _ => storeChainInfo c) _ _ (blind_storeChainInfo c)).
    destruct pre; [apply blind_clearTargetInfo|apply blind_skip].
  - intros d. unfold set_st_chains, set_st_version. simpl. by rewrite insert_insert_eq.
  - eapply runs_mono; [exact Hg|]. intros o r (-> & Hwf & Hc & Hn & Ht & Hv). split; [done|]. intros st Hst.
    apply HP. split; [|done..]. eapply sys_ok_ri; [done|exact Hst| |done|done].
    eapply coherent_chains; [exact (so_ri _ Hs)|exact Hwf|..]; try done.
    + rewrite Hc, <- (ch_chains _ _ (so_ri _ Hs)). done.
    + left. by rewrite Hv.
Qed.

(** ** UpdateChain *)

(** What the two modes do to the chain [old]. *)
Definition chain_edited (s : Sys) (mode : UpdateChainMode) (old : ChainInfo) (tid : TargetId) (c : ChainInfo) : Prop :=
  match mode with
  | UC_ADD => ri_targets (sys_ri s) !! tid = None /\ c = chainWithTarget old tid
  | UC_REMOVE => chainWithoutTarget old tid = Ok c
  | UC_UNKNOWN => False
  end.

Lemma runs_addTarget_bumped now r old tid :
  ri_wf r -> ri_chains r !! ci_chainId old = Some old -> ri_targets r !! tid = None ->
  let c := chainWithTarget old tid in
  runs (assignChain (ci_chainId old) c ;;
        match last (ci_targets c) with Some cti => insertNewTarget now (ci_chainId old) cti | None => fatal end) (bumped r)
    (fun o r' => o = Ok tt /\ ri_wf r' /\ ri_chains r' = <[ci_chainId c := c]> (ri_chains r) /\
       ri_nodeMap r' = ri_nodeMap r /\ ri_chainTables r' = ri_chainTables r /\
       ri_routingInfoVersion r' = nextVersion64 (ri_routingInfoVersion r)).
Proof.
  intros Hwf Hold Hnone c. destruct (rw_chain _ Hwf _ _ Hold) as [_ Hok].
  assert (Hn : tid ∉ chain_ids old).
  { intros Hi. unfold chain_ids in Hi. apply list_elem_of_fmap in Hi as (cti & -> & Hcti).
    destruct (rw_chain_target _ Hwf _ _ _ Hold Hcti) as (ti & Hti & _). congruence. }
  assert (Hlast : last (ci_targets c) = Some (mkChainTargetInfo tid PS_OFFLINE)) by apply last_snoc.
  rewrite Hlast. eapply runs_mono; [apply (runs_addTarget now c old); try done; [by apply bumped_wf|by apply chainWithTarget_ok]|].
  intros o r' (-> & Hwf' & Hc & Hnm & Ht & Hv). by split_and!.
Qed.

Lemma runs_removeTarget_bumped r old tid c :
  ri_wf r -> ri_chains r !! ci_chainId old = Some old -> chainWithoutTarget old tid = Ok c ->
  runs (assignChain (ci_chainId old) c ;; removeTarget (ci_chainId old) tid) (bumped r)
    (fun o r' => o = Ok tt /\ ri_wf r' /\ ri_chains r' = <[ci_chainId c := c]> (ri_chains r) /\
       ri_nodeMap r' = ri_nodeMap r /\ ri_chainTables r' = ri_chainTables r /\
       ri_routingInfoVersion r' = nextVersion64 (ri_routingInfoVersion r)).
Proof.
  intros Hwf Hold Hc. destruct (rw_chain _ Hwf _ _ Hold) as [_ Hok].
  destruct (chainWithoutTarget_ok _ _ _ Hok Hc) as (Hok' & Hn & Hids).
  destruct (chainWithoutTarget_inv _ _ _ Hc) as (l1 & l2 & Hl & Hl' & Hid & _). rewrite <- Hid.
  eapply runs_mono; [apply (runs_removeTarget c old); try done|].
  - by apply bumped_wf.
  - by rewrite Hid.
  - exists (mkChainTargetInfo tid PS_OFFLINE). rewrite Hl. split; [|done]. rewrite elem_of_app. right; left.
  - intros cti. rewrite Hl, Hl', !elem_of_app, elem_of_cons. tauto.
  - intros tid' Hi. rewrite Hids in Hi. by apply elem_of_cons in Hi.
  - intros o r' (-> & Hwf' & Hch & [] & _). by split_and!.
Qed.

Lemma runs_UpdateChain env clusterId chainId tid mode s :
  env_ok env -> sys_ok s ->
  runs (UpdateChainOperation env clusterId chainId tid mode) s (op_post s (fun c s' =>
    exists old, ri_chains (sys_ri s) !! chainId = Some old /\ chain_edited s mode old tid c /\ chain_replaced s c s')).
Proof.
  intros He Hs. pose proof (ch_wf _ _ (so_ri _ Hs)) as Hwf. unfold UpdateChainOperation. apply runs_validated; [done|].
  do 3 (apply runs_checked; intros ?). apply runs_asPrimary. apply runs_bind, runs_gets. cbv beta iota delta [andThen].
  destruct (ri_chains (sys_ri s) !! chainId) as [old|] eqn:Hold; [|by mstep].
  destruct (rw_chain _ Hwf _ _ Hold) as [Hid _]. subst chainId.
  apply runs_checked. intros Hadd. apply runs_bind, runs_lift. destruct mode; simpl in *; [| |done].
  - apply bool_decide_eq_false, eq_None_not_Some in Hadd. cbv beta iota delta [andThen].
    eapply (runs_store_chain _ _ _ false tid); [done|done|by apply runs_addTarget_bumped|].
    intros s' Hr. exists old. by split_and!.
  - destruct (chainWithoutTarget old tid) as [c|c| |] eqn:Hc; cbv beta iota delta [andThen]; try done.
    + eapply (runs_store_chain _ _ _ true tid); [done|done|by apply runs_removeTarget_bumped|].
      intros s' Hr. exists old. by split_and!.
    + exfalso. unfold chainWithoutTarget in Hc. by repeat case_match.
Qed.

(** ** Rotations *)

Lemma runs_replaceChain_bumped now r old c :
  ri_wf r -> replaces r old c ->
  runs (assignChain (ci_chainId c) c ;; for_each (updatePublicState now) (ci_targets c)) (bumped r)
    (fun o r' => o = Ok tt /\ ri_wf r' /\ ri_chains r' = <[ci_chainId c := c]> (ri_chains r) /\
       ri_nodeMap r' = ri_nodeMap r /\ ri_chainTables r' = ri_chainTables r /\
       ri_routingInfoVersion r' = nextVersion64 (ri_routingInfoVersion r)).
Proof.
  intros Hwf [Hold Hids Hok _ _]. eapply runs_mono; [apply (runs_replaceChain now c old); try done; by apply bumped_wf|].
  intros o r' (-> & Hwf' & Hch & []). by split_and!.
Qed.

(** A rotation that keeps well-formed views well-formed. *)
Definition keeps_views (rotate : list ChainTargetInfoEx -> ChainInfo -> outcome (list ChainTargetInfoEx)) : Prop :=
  forall c l, chain_ok c -> chain_wf l -> has_authority l -> target_ids l ≡ₚ chain_ids c ->
    exists l', rotate l c = Ok l' /\ chain_wf l' /\ has_authority l' /\ target_ids l' ≡ₚ chain_ids c.

Lemma runs_rotateOperation rotate env clusterId chainId s :
  keeps_views rotate -> env_ok env -> sys_ok s ->
  runs (rotateOperation rotate env clusterId chainId) s (op_post s (fun c s' =>
    exists old l l', ri_chains (sys_ri s) !! chainId = Some old /\ views old l /\ rotate l old = Ok l' /\
      ((l' = l /\ c = old /\ s' = s) \/
       (l' <> l /\ views c l' /\ replaces (sys_ri s) old c /\ chain_replaced s c s')))).
Proof.
  intros Hk He Hs. pose proof (ch_wf _ _ (so_ri _ Hs)) as Hwf. unfold rotateOperation. apply runs_validated; [done|].
  apply runs_checked. intros _. apply runs_asPrimary. apply runs_bind, runs_gets. cbv beta iota delta [andThen].
  destruct (ri_chains (sys_ri s) !! chainId) as [old|] eqn:Hold; [|by mstep].
  destruct (rw_chain _ Hwf _ _ Hold) as [Hid Hok]. subst chainId.
  destruct (targetsOfChain_ok _ _ _ Hwf Hold) as (l & Hl & Hv). rewrite Hl.
  apply runs_bind, runs_lift. cbv beta iota delta [andThen].
  destruct (Hk old l Hok) as (l' & Hrot & Hwf' & Ha' & Hids').
  { by apply (views_wf _ _ Hv), (co_wf _ Hok). } { by apply (views_authority _ _ Hv), (co_authority _ Hok). }
  { by rewrite (views_ids _ _ Hv). }
  rewrite Hrot. apply runs_bind, runs_lift. cbv beta iota delta [andThen]. case_bool_decide as E.
  - mstep. exists old, l, l'. split_and!; try done. by left.
  - pose proof (replaces_new _ _ _ Hwf Hold Hwf' Ha' Hids') as Hr.
    eapply (runs_store_chain _ _ _ false 0); [done|done|by eapply runs_replaceChain_bumped|].
    intros s' Hs'. exists old, l, l'. split_and!; try done. right. by split_and!.
Qed.

Lemma keeps_preferred : keeps_views (fun l c => rotateAsPreferredOrder l (ci_preferredTargetOrder c)).
Proof. intros c l. apply rotateAsPreferredOrder_keeps. Qed.

Lemma keeps_lastsrv : keeps_views (fun l _ => Ok (rotateLastSrv l)).
Proof. intros c l Hok Hwf Ha Hids. eexists. split; [done|]. by apply rotateLastSrv_keeps. Qed.

(** ** Several chains at once *)

Record chains_stored (s : Sys) (cs : list ChainInfo) (s' : Sys) : Prop := {
  cst_ok : sys_ok s';
  cst_chains : ri_chains (sys_ri s') = insert_chains (ri_chains (sys_ri s)) cs;
  cst_version : ri_routingInfoVersion (sys_ri s') = nextVersion64 (ri_routingInfoVersion (sys_ri s))
}.

Lemma blind_storeChains cs :
  blind (fun _ => for_each storeChainInfo cs) (fun d => set_st_chains (insert_chains (st_chains d) cs) d).
Proof.
  intros a s. destruct (blind_for_each storeChainInfo _ cs blind_storeChainInfo a s) as (s' & E & D & L).
  exists s'. rewrite D, foldl_set_chains. done.
Qed.

Lemma stored_chains_idem v cs d :
  let F d := set_st_chains (insert_chains (st_chains (set_st_version v d)) cs) (set_st_version v d) in F (F d) = F d.
Proof. unfold set_st_chains, set_st_version. simpl. by rewrite insert_chains_idem. Qed.

(** From the effect on routing information to the effect on the system. *)
Lemma chains_stored_intro s cs r st :
  sys_ok s -> ri_wf r -> ri_chains r = insert_chains (ri_chains (sys_ri s)) cs ->
  ri_nodeMap r = ri_nodeMap (sys_ri s) -> ri_chainTables r = ri_chainTables (sys_ri s) ->
  ri_routingInfoVersion r = nextVersion64 (ri_routingInfoVersion (sys_ri s)) ->
  durable st = set_st_chains (insert_chains (st_chains (durable (sy_store s))) cs)
    (set_st_version (Some (nextVersion64 (ri_routingInfoVersion (sys_ri s)))) (durable (sy_store s))) ->
  chains_stored s cs (mkSys (with_ri r (sy_mem s)) st).
Proof.
  intros Hs Hwf Hc Hn Ht Hv Hst. split; [|done..]. eapply sys_ok_ri; [done|exact Hst| |done|done].
  eapply coherent_chains; [exact (so_ri _ Hs)|exact Hwf|..]; try done.
  - rewrite Hc, <- (ch_chains _ _ (so_ri _ Hs)). done.
  - left. by rewrite Hv.
Qed.

(** ** SetChains *)

Lemma runs_SetChains env clusterId chains s :
  env_ok env -> sys_ok s -> NoDup (map cs_chainId chains) ->
  runs (SetChainsOperation env clusterId chains) s (op_post s (fun _ s' =>
    exists new, checkChains (sys_ri s) chains = Ok new /\ new_chains (sys_ri s) chains ∅ new /\
      ((new = [] /\ s' = s) \/ chains_stored s new s'))).
Proof.
  intros He Hs Hnd. pose proof (ch_wf _ _ (so_ri _ Hs)) as Hwf. unfold SetChainsOperation. apply runs_validated; [done|].
  apply runs_asPrimary. apply runs_bind, runs_gets. cbv beta iota delta [andThen]. apply runs_bind, runs_lift.
  destruct (checkChains_total (sys_ri s) chains) as [(new & Hn & Hnew)|[c Hc]]; [|by rewrite Hc].
  rewrite Hn. cbv beta iota delta [andThen]. case_bool_decide as Enil.
  { mstep. exists new. split_and!; [done..|]. by left. }
  pose proof Hnew as [N1 N2 N3 N4].
  eapply runs_store_then_memory_unit; [apply (eo_quiet _ He)|apply blind_storeChains|apply stored_chains_idem|].
  eapply runs_mono.
  { apply (runs_insertNewChains (oe_steadyNow env) new (bumped (sys_ri s))); [by apply bumped_wf|exact (sublist_NoDup _ _ Hnd N2)|done|..].
    - intros c Hc. destruct (N1 _ Hc) as (? & ? & _). done.
    - intros t Ht. by destruct (N4 _ Ht). }
  intros o r (-> & Hwf' & Hc & Hn' & Ht & Hv). split; [done|]. intros st Hst.
  exists new. split_and!; [done..|]. right. by apply chains_stored_intro.
Qed.

(** ** The periodic update *)

Lemma candidate_known ri last flag adjust cid :
  ri_wf ri -> cid ∈ elements (candidateChains ri last flag adjust) -> is_Some (ri_chains ri !! cid).
Proof.
  intros Hwf Hc. apply elem_of_elements in Hc. unfold candidateChains in Hc. apply elem_of_list_to_set in Hc.
  apply list_elem_of_fmap in Hc as ([tid ti] & -> & Hk). apply list_elem_of_filter in Hk as [_ Hk].
  apply elem_of_map_to_list in Hk. destruct (rw_target _ Hwf _ _ Hk) as (_ & c & Hc & _). eauto.
Qed.

Lemma runs_ChainsUpdater env last flag s :
  env_ok env -> sys_ok s ->
  runs (doAsPrimary (oe_utcNow env) (ChainsUpdater_handle env last flag)) s (op_post s (fun ts s' => ts = oe_steadyNow env /\
    (s' = s \/ exists cs, chains_stored s cs s' /\ NoDup (map ci_chainId cs) /\
       forall c, c ∈ cs -> exists old, replaces (sys_ri s) old c))).
Proof.
  intros He Hs. pose proof (ch_wf _ _ (so_ri _ Hs)) as Hwf. apply runs_asPrimary. unfold ChainsUpdater_handle, getConfigItem.
  apply runs_bind, runs_gets. cbv beta iota delta [andThen]. apply runs_bind, runs_gets. cbv beta iota delta [andThen].
  apply runs_bind, runs_lift.
  match goal with |- context [changedChains_of ?ri ?a ?l []] =>
    destruct (changedChains_of_ok ri a l [] Hwf) as (new & Hn & Hnd & Hin) end.
  { apply NoDup_elements. } { intros cid. by apply candidate_known. }
  rewrite Hn. simpl. cbv beta iota delta [andThen]. destruct (_ && _); [mstep; split; [done|by left]|].
  eapply runs_store_then_memory; [apply (eo_quiet _ He)|apply blind_storeChains|apply stored_chains_idem|].
  eapply runs_mono.
  { apply (runs_applyChainTargetChanges (oe_steadyNow env) new (bumped (sys_ri s))); [by apply bumped_wf|done|].
    intros c Hc. destruct (Hin _ Hc) as (_ & old & [R1 R2 R3 _ _]). eauto. }
  intros o r (-> & Hwf' & Hc & Hsame). split; [done|]. intros st Hst. split; [done|]. right. exists new. split_and!; [|done|].
  - destruct Hsame. by apply chains_stored_intro.
  - intros c Hc'. by destruct (Hin _ Hc') as [_ ?].
Qed.

(** ** Preferred orders *)

Lemma size_list_to_set_NoDup (l : list TargetId) : size (list_to_set l : gset TargetId) = length l -> NoDup l.
Proof.
  induction l as [|x l IH]; intros Hsz; [constructor|]. simpl in Hsz.
  assert (Hle : forall l : list TargetId, (size (list_to_set l : gset TargetId) <= length l)%nat).
  { clear. induction l as [|y l IH]; [done|]; cbn [length list_to_set].
    pose proof (size_union_alt {[y]} (list_to_set l : gset TargetId)) as E.
    pose proof (subseteq_size ((list_to_set l : gset TargetId) ∖ {[y]}) (list_to_set l) ltac:(set_solver)) as E2.
    rewrite size_singleton in E. lia. }
  destruct (decide (x ∈ l)) as [Hx|Hx].
  - assert ({[x]} ∪ (list_to_set l : gset TargetId) = list_to_set l) as E by set_solver. rewrite E in Hsz.
    specialize (Hle l). lia.
  - constructor; [done|]. apply IH. rewrite size_union, size_singleton in Hsz by set_solver. lia.
Qed.

Lemma chain_ok_preferred c v preferred :
  chain_ok c -> NoDup preferred -> (forall tid, tid ∈ preferred -> tid ∈ chain_ids c) ->
  chain_ok (mkChainInfo (ci_chainId c) v (ci_targets c) preferred).
Proof. by intros [H1 H2 H3 H4 H5] Hnd Hin. Qed.

Lemma runs_touch_chain now r old preferred :
  ri_wf r -> ri_chains r !! ci_chainId old = Some old -> NoDup preferred ->
  (forall tid, tid ∈ preferred -> tid ∈ chain_ids old) ->
  let c := mkChainInfo (ci_chainId old) (ci_chainVersion old) (ci_targets old) preferred in
  runs (assignChain (ci_chainId c) c ;;
        for_each (fun tid => updateTarget now tid (fun ti => mret (set_ti_ts now ti))) preferred) r
    (fun o r' => o = Ok tt /\ ri_wf r' /\ ri_chains r' = <[ci_chainId c := c]> (ri_chains r) /\ ri_same r r').
Proof.
  intros Hwf Hold Hnd Hin c. destruct (rw_chain _ Hwf _ _ Hold) as [_ Hok].
  apply runs_bind, (runs_assignChain _ _ old); [done|]. mstep.
  assert (Hkey : map id preferred = preferred) by apply map_id.
  eapply runs_mono; [apply runs_update_each with (key := id) (upd := fun _ ti => set_ti_ts now ti)|].
  - by rewrite Hkey.
  - intros tid Ht. simpl. specialize (Hin tid Ht). unfold chain_ids in Hin. apply list_elem_of_fmap in Hin as (cti & -> & Hcti).
    destruct (rw_chain_target _ Hwf _ _ _ Hold Hcti) as (ti & Hti & _). eauto.
  - rewrite Hkey. simpl. intros o r' (-> & T & -> & Hout & Hupd). split; [done|]. split; [|by split].
    eapply (ri_wf_replace r c old); [done|done|done|by apply chain_ok_preferred|..].
    + intros tid Ht. apply Hout. intros Hp. by apply Ht, Hin.
    + intros cti ti Hcti Hti. destruct (rw_chain_target _ Hwf _ _ _ Hold Hcti) as (ti' & Hti' & _ & Hps).
      assert (ti' = ti) as -> by congruence. destruct (decide (cti_targetId cti ∈ preferred)) as [Hp|Hp].
      * exists (set_ti_ts now ti). split; [by apply Hupd|]. by split.
      * exists ti. rewrite Hout by done. by split_and!.
Qed.

Lemma runs_SetPreferred env clusterId chainId preferred s :
  env_ok env -> sys_ok s ->
  runs (SetPreferredTargetOrderOperation env clusterId chainId preferred) s (op_post s (fun c s' =>
    exists old, ri_chains (sys_ri s) !! chainId = Some old /\ sys_ok s' /\
      c = mkChainInfo chainId (ci_chainVersion old) (ci_targets old) preferred /\ NoDup preferred /\
      ri_chains (sys_ri s') = <[chainId := c]> (ri_chains (sys_ri s)) /\
      ri_routingInfoVersion (sys_ri s') = ri_routingInfoVersion (sys_ri s))).
Proof.
  intros He Hs. pose proof (ch_wf _ _ (so_ri _ Hs)) as Hwf. unfold SetPreferredTargetOrderOperation. apply runs_validated; [done|].
  do 2 (apply runs_checked; intros _). apply runs_checked. intros Hsz.
  apply negb_false_iff, bool_decide_eq_true, size_list_to_set_NoDup in Hsz as Hnd.
  apply runs_asPrimary. apply runs_bind, runs_gets. cbv beta iota delta [andThen].
  destruct (ri_chains (sys_ri s) !! chainId) as [old|] eqn:Hold; [|by mstep].
  destruct (rw_chain _ Hwf _ _ Hold) as [Hid Hok]. subst chainId.
  destruct (targetsOfChain_ok _ _ _ Hwf Hold) as (l & Hl & Hv). rewrite Hl. apply runs_bind, runs_lift. cbv beta iota delta [andThen].
  apply runs_checked. intros Hall.
  assert (Hin : forall tid, tid ∈ preferred -> tid ∈ chain_ids old).
  { intros tid Ht. rewrite <- (views_ids _ _ Hv). apply not_true_iff_false in Hall. rewrite existsb_exists in Hall.
    apply dec_stable. intros Hn. apply Hall. exists tid. rewrite <- list_elem_of_In. split; [set_solver|].
    apply negb_true_iff, not_true_iff_false. rewrite existsb_exists. intros (t & Ht2 & E%bool_decide_eq_true). apply Hn.
    rewrite <- list_elem_of_In in Ht2. rewrite <- E. by apply list_elem_of_fmap_2. }
  case_bool_decide as E.
  { mstep. exists old. subst preferred. split_and!; try done; [by destruct old|]. by rewrite insert_id. }
  set (c := mkChainInfo _ _ _ _). mstep.
  eapply runs_mono; [apply runs_withReadWriteTxn; [apply (eo_quiet _ He)|apply blind_storeChainInfo|]|].
  { intros d. unfold set_st_chains. simpl. by rewrite insert_insert_eq. }
  intros o s1 Hst. destruct o as [[]|c1| |]; mstep; [|exact (sd_mem _ _ _ _ _ Hst)|by destruct (sd_fatal _ _ _ _ _ Hst)|exact (sd_mem _ _ _ _ _ Hst)].
  pose proof (sd_ok _ _ _ _ _ Hst eq_refl) as Hd. pose proof (sd_mem _ _ _ _ _ Hst) as Hm. mstep. apply runs_onRouting.
  assert (Hr : sys_ri s1 = sys_ri s) by (unfold sys_ri; by rewrite Hm). rewrite Hr.
  eapply runs_mono; [by apply (runs_touch_chain (oe_steadyNow env) (sys_ri s) old preferred)|].
  intros o r (-> & Hwf' & Hc & []). mstep. mstep. rewrite Hm. exists old. split_and!; try done.
  eapply sys_ok_ri; [done|exact Hd| |done|done]. eapply coherent_chains; [exact (so_ri _ Hs)|exact Hwf'|..]; try done.
  - rewrite Hc, <- (ch_chains _ _ (so_ri _ Hs)). done.
  - rewrite rs_version. exact (ch_version _ _ (so_ri _ Hs)).
Qed.

(** ** Chain tables *)

Lemma checkTableChains_spec ri chains :
  (exists c, checkTableChains ri chains = Err c) \/
  (checkTableChains ri chains = Ok tt /\ chains <> [] /\
   forall cid, cid ∈ chains -> is_Some (ri_chains ri !! cid)).
Proof.
  unfold checkTableChains. case_bool_decide as Hne; [eauto|].
  assert (H : forall n, (exists c, checkTableChains_loop ri chains n = Err c) \/
    (checkTableChains_loop ri chains n = Ok tt /\ forall cid, cid ∈ chains -> is_Some (ri_chains ri !! cid))).
  { clear Hne. induction chains as [|cid chains IH]; intros n; simpl.
    { right. split; [done|]. intros cid Hc. by apply elem_of_nil in Hc. }
    destruct (ri_chains ri !! cid) as [ci|] eqn:E; [|eauto].
    assert (Hk : forall n, (exists c, checkTableChains_loop ri chains n = Err c) \/
      (checkTableChains_loop ri chains n = Ok tt /\ forall cid', cid' ∈ cid :: chains -> is_Some (ri_chains ri !! cid'))).
    { intros n'. destruct (IH n') as [?|[-> Hin]]; [eauto|]. right. split; [done|]. intros cid' Hc.
      apply elem_of_cons in Hc as [->|Hc]; eauto. }
    repeat case_bool_decide; eauto. }
  destruct (H 0%nat) as [?|[-> Hin]]; [eauto|]. right. by split_and!.
Qed.

(** The table an operation stores, with the version it gets. *)
Lemma nextChainTable_spec mem tableId chains desc :
  tables_wf mem ->
  exists t changed, nextChainTable (mem !! tableId) (mkChainTable tableId 1 chains desc) = Ok (t, changed) /\
    ct_chainTableId t = tableId /\ ct_chains t = chains /\
    (changed = false -> exists m, mem !! tableId = Some m /\ m !! ct_chainTableVersion t = Some t).
Proof.
  intros Hwf. unfold nextChainTable. destruct (mem !! tableId) as [m|] eqn:Em.
  - destruct (Hwf _ _ Em) as [Hne Hk]. destruct (rbegin_nonempty m Hne) as (v & cur & -> & Hcur).
    destruct (Hk _ _ Hcur) as [_ Hv]. eexists _, _. split; [done|]. split_and!; [done..|].
    intros Hf%negb_false_iff%bool_decide_eq_true. exists m. split; [done|]. rewrite Hf. by rewrite Hv.
  - eexists _, true. by split_and!.
Qed.

Record table_stored (s : Sys) (t : ChainTable) (s' : Sys) : Prop := {
  ts_tables : ri_chainTables (sys_ri s') =
    <[ct_chainTableId t := <[ct_chainTableVersion t := t]> (default ∅ (ri_chainTables (sys_ri s) !! ct_chainTableId t))]>
      (ri_chainTables (sys_ri s));
  ts_chains : ri_chains (sys_ri s') = ri_chains (sys_ri s);
  ts_version : ri_routingInfoVersion (sys_ri s') = nextVersion64 (ri_routingInfoVersion (sys_ri s))
}.

Lemma coherent_table r d t v :
  coherent r d ->
  coherent
    (set_ri_chainTables (<[ct_chainTableId t := <[ct_chainTableVersion t := t]> (default ∅ (ri_chainTables r !! ct_chainTableId t))]>
       (ri_chainTables r)) (set_ri_changed false (set_ri_version v r)))
    (set_st_chainTables (<[(ct_chainTableId t, ct_chainTableVersion t) := t]> (st_chainTables d)) (set_st_version (Some v) d)).
Proof.
  intros [H1 Hn Hno H2 H3 H4 H5]. split; simpl; try done.
  - by destruct H1.
  - intros t' v'. rewrite !lookup_insert. destruct (decide (ct_chainTableId t = t')) as [<-|Ht]; simpl.
    + rewrite lookup_insert. destruct (decide (ct_chainTableVersion t = v')) as [<-|Hv]; [by rewrite decide_True|].
      rewrite decide_False by congruence. rewrite (H3 _ _). by destruct (ri_chainTables r !! ct_chainTableId t).
    + rewrite decide_False by congruence. apply H3.
  - intros t' m. rewrite lookup_insert. case_decide as E; [|apply H4]. intros [= <-]. split; [apply insert_non_empty|].
    intros v' ct. rewrite lookup_insert. case_decide; [naive_solver|]. subst t'.
    destruct (ri_chainTables r !! ct_chainTableId t) as [m|] eqn:Em; simpl; [apply (H4 _ _ Em)|by rewrite lookup_empty].
  - by left.
Qed.

Lemma runs_SetChainTable env clusterId tableId chains desc s :
  env_ok env -> sys_ok s ->
  runs (SetChainTableOperation env clusterId tableId chains desc) s (op_post s (fun v s' =>
    chains <> [] /\ (forall cid, cid ∈ chains -> is_Some (ri_chains (sys_ri s) !! cid)) /\ sys_ok s' /\
    exists t changed, nextChainTable (ri_chainTables (sys_ri s) !! tableId) (mkChainTable tableId 1 chains desc) = Ok (t, changed) /\
      ct_chainTableId t = tableId /\ ct_chainTableVersion t = v /\ ct_chains t = chains /\
      (ri_chainTables (sys_ri s') !! tableId ≫= fun m => m !! v) = Some t /\
      if changed then table_stored s t s' else s' = s)).
Proof.
  intros He Hs. pose proof (ch_wf _ _ (so_ri _ Hs)) as Hwf. unfold SetChainTableOperation. apply runs_validated; [done|].
  apply runs_asPrimary. apply runs_bind, runs_gets. cbv beta iota delta [andThen]. apply runs_bind, runs_lift.
  destruct (checkTableChains_spec (sys_ri s) chains) as [[c ->]|(-> & Hne & Hin)]; cbv beta iota delta [andThen]; [done|].
  destruct (nextChainTable_spec _ tableId chains desc (ch_tables_wf _ _ (so_ri _ Hs))) as (t & changed & Hn & Hid & Hch & Hsame).
  rewrite Hn. apply runs_bind, runs_lift. cbv beta iota delta [andThen]. subst tableId. destruct changed.
  - eapply runs_store_then_memory; [apply (eo_quiet _ He)|apply blind_storeChainTable| |].
    { intros d. unfold set_st_chainTables, set_st_version. simpl. by rewrite insert_insert_eq. }
    mstep. split; [done|]. intros st Hst. split_and!; [done..| |exists t, true; split_and!; try done].
    + eapply sys_ok_ri; [done|exact Hst| |done|done]. exact (coherent_table _ _ t _ (so_ri _ Hs)).
    + unfold sys_ri. simpl. by rewrite lookup_insert_eq; simpl; rewrite lookup_insert_eq.
  - mstep. split_and!; [done..|]. exists t, false. split_and!; try done. destruct (Hsame eq_refl) as (m & -> & Hm). done.
Qed.
