(* ===== verification/ChainTheorems.v ===== *)
(** * Correctness of the chain operations

    For every operation on chains, on every branch: the process does not abort;
    an error leaves memory alone; success leaves memory and store in agreement,
    the routing information well-formed, and the chain changed as documented. *)

From stdpp Require Import base list gmap sorting strings.
From Stdlib Require Import ZArith Lia.
From S2P Require Import Prelude StatusCode MgmtdTypes UpdateChain ChainProtocol RoutingInfo MgmtdState Transaction ChainOps ChainInvariant Coherence.

(** [runs] as a statement about the result. *)
Lemma runs_result {S A} (m : M S A) s (Q : outcome A -> S -> Prop) : runs m s Q -> let '(o, s') := m s in Q o s'.
Proof. unfold runs. by destruct (m s). Qed.

(** C19: [UpdateChain] on an agreeing system never aborts; an error leaves
    memory alone; success replaces exactly the named chain, in memory and
    store, by the old one with the target appended OFFLINE or with the
    OFFLINE target removed, and bumps the routing version. *)
Theorem update_chain_correct (env : OpEnv) (clusterId : string) (chainId : ChainId) (tid : TargetId)
    (mode : UpdateChainMode) (s : Sys) (Henv : env_ok env) (Hs : sys_ok s) :
  let '(o, s') := UpdateChainOperation env clusterId chainId tid mode s in
  op_post s (fun c s' => exists old, ri_chains (sys_ri s) !! chainId = Some old /\
    chain_edited s mode old tid c /\ chain_replaced s c s') o s'.
Proof. apply runs_result. by apply runs_UpdateChain. Qed.

(** C20: While memory and store agree and nobody else writes the primary's part of
    the store, [SetChains] with distinct chain ids never aborts; an error leaves
    memory alone; success adds exactly the chains that did not exist, at
    version 1, with targets no other chain has, to memory and store. *)
Theorem set_chains_correct (env : OpEnv) (clusterId : string) (chains : list ChainSetting) (s : Sys)
    (Henv : env_ok env) (Hs : sys_ok s) (Hids : NoDup (map cs_chainId chains)) :
  let '(o, s') := SetChainsOperation env clusterId chains s in
  op_post s (fun _ s' => exists new, checkChains (sys_ri s) chains = Ok new /\ new_chains (sys_ri s) chains ∅ new /\
    ((new = [] /\ s' = s) \/ chains_stored s new s')) o s'.
Proof. apply runs_result. by apply runs_SetChains. Qed.

(** [SetChainTable] never aborts; an error leaves memory alone; success
    returns the version under which memory and store hold a table with the
    requested chains, all of which exist. *)
Theorem set_chain_table_correct (env : OpEnv) (clusterId : string) (tableId : ChainTableId) (chains : list ChainId)
    (desc : string) (s : Sys) (Henv : env_ok env) (Hs : sys_ok s) :
  let '(o, s') := SetChainTableOperation env clusterId tableId chains desc s in
  op_post s (fun v s' =>
    chains <> [] /\ (forall cid, cid ∈ chains -> is_Some (ri_chains (sys_ri s) !! cid)) /\ sys_ok s' /\
    exists t changed, nextChainTable (ri_chainTables (sys_ri s) !! tableId) (mkChainTable tableId 1 chains desc) = Ok (t, changed) /\
      ct_chainTableId t = tableId /\ ct_chainTableVersion t = v /\ ct_chains t = chains /\
      (ri_chainTables (sys_ri s') !! tableId ≫= fun m => m !! v) = Some t /\
      if changed then table_stored s t s' else s' = s) o s'.
Proof. apply runs_result. by apply runs_SetChainTable. Qed.

(** [RotateAsPreferredOrder] and [RotateLastSrv] never abort; an error
    leaves memory alone; success either changes nothing or replaces the chain,
    in memory and store, by the rotation of its targets at the next version,
    with the same targets and still one that serves or served last. *)
Theorem rotations_correct (last : bool) (env : OpEnv) (clusterId : string) (chainId : ChainId) (s : Sys)
    (Henv : env_ok env) (Hs : sys_ok s) :
  let op := if last then RotateLastSrvOperation else RotateAsPreferredOrderOperation in
  let rotate l c := if last then Ok (rotateLastSrv l) else rotateAsPreferredOrder l (ci_preferredTargetOrder c) in
  let '(o, s') := op env clusterId chainId s in
  op_post s (fun c s' => exists old l l', ri_chains (sys_ri s) !! chainId = Some old /\ views old l /\ rotate l old = Ok l' /\
    ((l' = l /\ c = old /\ s' = s) \/
     (l' <> l /\ views c l' /\ replaces (sys_ri s) old c /\ chain_replaced s c s'))) o s'.
Proof.
  destruct last; cbv zeta; apply runs_result.
  - by apply (runs_rotateOperation _ env clusterId chainId s keeps_lastsrv).
  - by apply (runs_rotateOperation _ env clusterId chainId s keeps_preferred).
Qed.

(** [SetPreferredTargetOrder] never aborts; an error leaves memory alone;
    success changes only the chain's preferred order, to the requested list of
    distinct targets of the chain, without a new version. *)
Theorem set_preferred_correct (env : OpEnv) (clusterId : string) (chainId : ChainId) (preferred : list TargetId) (s : Sys)
    (Henv : env_ok env) (Hs : sys_ok s) :
  let '(o, s') := SetPreferredTargetOrderOperation env clusterId chainId preferred s in
  op_post s (fun c s' =>
    exists old, ri_chains (sys_ri s) !! chainId = Some old /\ sys_ok s' /\
      c = mkChainInfo chainId (ci_chainVersion old) (ci_targets old) preferred /\ NoDup preferred /\
      ri_chains (sys_ri s') = <[chainId := c]> (ri_chains (sys_ri s)) /\
      ri_routingInfoVersion (sys_ri s') = ri_routingInfoVersion (sys_ri s)) o s'.
Proof. apply runs_result. by apply runs_SetPreferred. Qed.

(** C21: The periodic chain update, while nobody else writes the primary's part
    of the store, never aborts; an error leaves memory alone, though a commit of
    unknown result may have reached the store; success changes nothing or replaces, in memory and store and under one new
    routing version, chains by permutations of their targets that keep a
    target that serves or served last, each at its next chain version. *)
Theorem chains_updater_correct (env : OpEnv) (last : SteadyTime) (flag : bool) (s : Sys) (Henv : env_ok env) (Hs : sys_ok s) :
  let '(o, s') := doAsPrimary (oe_utcNow env) (ChainsUpdater_handle env last flag) s in
  op_post s (fun ts s' => ts = oe_steadyNow env /\
    (s' = s \/ exists cs, chains_stored s cs s' /\ NoDup (map ci_chainId cs) /\
       forall c, c ∈ cs -> exists old, replaces (sys_ri s) old c)) o s'.
Proof. apply runs_result. by apply runs_ChainsUpdater. Qed.

(** ** A system with one chain *)

Definition two_targets : ChainInfo :=
  mkChainInfo 7 1 [mkChainTargetInfo 101 PS_SERVING; mkChainTargetInfo 102 PS_SERVING] [102; 101].
Definition storage_node : NodeInfo :=
  mkNodeInfo (mkFbsAppInfo 10 "host10" 0 [] ReleaseVersion_default "") NT_STORAGE HEARTBEAT_CONNECTING 0 [] 0 CS_NORMAL.
Definition empty_ri : RoutingInfo :=
  set_ri_nodeMap {[ 1 := NodeInfoWrapper_make (set_ni_status PRIMARY_MGMTD (toNode sample_self)) 5;
                    10 := NodeInfoWrapper_make storage_node 5 ]} RoutingInfo_default.
Definition sample_ri : RoutingInfo := snd (insertNewChain 5 two_targets empty_ri).
Definition sample_env : OpEnv := mkOpEnv 1000 1000 2000 (Ok true) [attempt_unknown true; attempt_ok].

Lemma two_targets_ok : chain_ok two_targets.
Proof.
  split.
  - compute. repeat constructor; rewrite ?list_elem_of_In; simpl; lia.
  - repeat constructor; rewrite ?list_elem_of_In; simpl; lia.
  - intros tid Ht. change (chain_ids two_targets) with [101; 102]. set_solver.
  - split; [by repeat constructor|by intros [_ ?]|by vm_compute; lia].
  - by left.
Qed.

(** The nodes of the sample. *)
Lemma sample_nodes nid n :
  ri_nodeMap empty_ri !! nid = Some n ->
  app_nodeId (ni_app (nw_base n)) = nid /\ ni_tags (nw_base n) = [] /\ ni_status (nw_base n) <> DISABLED.
Proof.
  simpl. rewrite lookup_insert_Some, lookup_singleton_Some. by intros [[<- <-]|[_ [<- <-]]].
Qed.

Lemma empty_ri_wf : ri_wf empty_ri.
Proof.
  split; simpl; intros; try (by rewrite lookup_empty in *); try (rewrite lookup_empty in *; by destruct H).
  by apply sample_nodes.
Qed.

Lemma initial_configs_agree : configs_agree ∅ initial_configs.
Proof.
  intros t. exists {[ 0 := ConfigInfo_default ]}. split; [by destruct t|]. intros v. rewrite lookup_singleton.
  by repeat case_decide.
Qed.

Lemma sample_sys_ok : sys_ok (sample_sys sample_ri).
Proof.
  pose proof (runs_insertNewChain 5 two_targets empty_ri empty_ri_wf eq_refl two_targets_ok
    ltac:(intros; apply lookup_empty)) as H. unfold runs in H. fold sample_ri in H.
  destruct H as (_ & Hwf & Hc & _ & _ & Hn & Ht & Hv & _). split; [|apply initial_configs_agree|done..].
  split; change (sys_ri (sample_sys sample_ri)) with sample_ri; try done.
  - intros nid n. rewrite Hn. intros (_ & Htags & Hst)%sample_nodes. split; rewrite Htags; [done|constructor].
  - by left.
Qed.

Lemma sample_env_ok : env_ok sample_env.
Proof. split; [apply quiet_sample; repeat constructor|]. by eexists. Qed.

Lemma update_chain_correct_witness :
  let s := sample_sys sample_ri in
  let '(o, s') := UpdateChainOperation sample_env "stage" 7 103 UC_ADD s in
  op_post s (fun c s' => exists old, ri_chains (sys_ri s) !! 7 = Some old /\
    chain_edited s UC_ADD old 103 c /\ chain_replaced s c s') o s' /\ is_ok o = true.
Proof.
  cbv zeta. pose proof (update_chain_correct sample_env "stage" 7 103 UC_ADD (sample_sys sample_ri) sample_env_ok sample_sys_ok) as H.
  destruct (UpdateChainOperation _ _ _ _ _ _) as [o s'] eqn:E. split; [exact H|]. clear H.
  vm_compute in E. by injection E as <- _.
Defined.

Lemma set_chains_correct_witness :
  let s := sample_sys sample_ri in
  let chains := [mkChainSetting 7 [102; 101] false; mkChainSetting 8 [201; 202] true] in
  let '(o, s') := SetChainsOperation sample_env "stage" chains s in
  op_post s (fun _ s' => exists new, checkChains (sys_ri s) chains = Ok new /\ new_chains (sys_ri s) chains ∅ new /\
    ((new = [] /\ s' = s) \/ chains_stored s new s')) o s' /\ o = Ok tt.
Proof.
  cbv zeta. set (chains := [mkChainSetting 7 [102; 101] false; mkChainSetting 8 [201; 202] true]).
  pose proof (set_chains_correct sample_env "stage" chains (sample_sys sample_ri) sample_env_ok sample_sys_ok
    ltac:(compute; repeat constructor; rewrite ?list_elem_of_In; simpl; lia)) as H.
  destruct (SetChainsOperation _ _ _ _) as [o s'] eqn:E. split; [exact H|]. clear H. vm_compute in E. by injection E as <- _.
Defined.

Lemma set_chain_table_correct_witness :
  let s := sample_sys sample_ri in
  let '(o, s') := SetChainTableOperation sample_env "stage" 1 [7] "table" s in
  sys_ok s' /\ o = Ok 1.
Proof.
  cbv zeta. pose proof (set_chain_table_correct sample_env "stage" 1 [7] "table" (sample_sys sample_ri) sample_env_ok sample_sys_ok) as H.
  destruct (SetChainTableOperation _ _ _ _ _ _) as [o s'] eqn:E.
  assert (Ho : o = Ok 1) by (vm_compute in E; by injection E as <- _). subst o. simpl in H. split; [exact (proj1 (proj2 (proj2 H)))|done].
Defined.

Lemma rotations_correct_witness :
  let s := sample_sys sample_ri in
  let '(o, s') := RotateAsPreferredOrderOperation sample_env "stage" 7 s in
  (exists c, o = Ok c /\ chain_ids c = [102; 101] /\ sys_ok s').
Proof.
  cbv zeta. pose proof (rotations_correct false sample_env "stage" 7 (sample_sys sample_ri) sample_env_ok sample_sys_ok) as H.
  cbv zeta in H. simpl in H. destruct (RotateAsPreferredOrderOperation _ _ _ _) as [o s'] eqn:E.
  assert (Ho : exists c, o = Ok c /\ chain_ids c = [102; 101] /\ s' <> sample_sys sample_ri).
  { vm_compute in E. injection E as <- <-. eexists. split; [done|]. split; [done|]. intros Hx.
    by apply (f_equal (fun s => ri_routingInfoVersion (sys_ri s))) in Hx. }
  destruct Ho as (c & -> & Hids & Hne). exists c. split_and!; [done..|]. simpl in H.
  destruct H as (old & l & l' & _ & _ & _ & [(_ & _ & ->)|(_ & _ & _ & Hr)]); [done|]. exact (cr_ok _ _ _ Hr).
Defined.

Lemma set_preferred_correct_witness :
  let s := sample_sys sample_ri in
  let '(o, s') := SetPreferredTargetOrderOperation sample_env "stage" 7 [101; 102] s in
  op_post s (fun c s' =>
    exists old, ri_chains (sys_ri s) !! 7 = Some old /\ sys_ok s' /\
      c = mkChainInfo 7 (ci_chainVersion old) (ci_targets old) [101; 102] /\ NoDup [101; 102] /\
      ri_chains (sys_ri s') = <[7 := c]> (ri_chains (sys_ri s)) /\
      ri_routingInfoVersion (sys_ri s') = ri_routingInfoVersion (sys_ri s)) o s' /\ is_ok o = true.
Proof.
  cbv zeta. pose proof (set_preferred_correct sample_env "stage" 7 [101; 102] (sample_sys sample_ri) sample_env_ok sample_sys_ok) as H.
  destruct (SetPreferredTargetOrderOperation _ _ _ _ _) as [o s'] eqn:E. split; [exact H|]. clear H.
  vm_compute in E. by injection E as <- _.
Defined.

(** The chain past its bootstrap, with no service reporting its targets. *)
Definition steady_ri : RoutingInfo := set_ri_newBorn ∅ sample_ri.

Lemma steady_sys_ok : sys_ok (sample_sys steady_ri).
Proof.
  destruct sample_sys_ok as [[[H1 H2 H3 H4 H5 H6] C1 C2 C3 C4 C5 C6] S2 S3 S4 S5]. split; try done. split; try done.
  split; try done. by intros cid [? Hx].
Qed.

Lemma chains_updater_correct_witness :
  let s := sample_sys steady_ri in
  let '(o, s') := doAsPrimary (oe_utcNow sample_env) (ChainsUpdater_handle sample_env 0 false) s in
  op_post s (fun ts s' => ts = oe_steadyNow sample_env /\
    (s' = s \/ exists cs, chains_stored s cs s' /\ NoDup (map ci_chainId cs) /\
       forall c, c ∈ cs -> exists old, replaces (sys_ri s) old c)) o s' /\
  (ri_chains (sys_ri s') !! 7) =
    Some (mkChainInfo 7 2 [mkChainTargetInfo 101 PS_LASTSRV; mkChainTargetInfo 102 PS_OFFLINE] [102; 101]).
Proof.
  cbv zeta. pose proof (chains_updater_correct sample_env 0 false (sample_sys steady_ri) sample_env_ok steady_sys_ok) as H.
  destruct (doAsPrimary _ _ _) as [o s'] eqn:E. split; [exact H|]. clear H.
  vm_compute in E. injection E as _ <-. reflexivity.
Defined.

(** ** Behaviours worth knowing *)

(** [SetChains] does not notice a chain id given twice in one request: the
    chains are committed to the store, the second overwriting the first, and
    the process then aborts when it inserts the second in memory. *)
Example set_chains_duplicate_id_aborts :
  let '(o, s') := SetChainsOperation sample_env "stage" [mkChainSetting 8 [201] false; mkChainSetting 8 [202] false]
                    (sample_sys sample_ri) in
  o = Fatal /\ st_chains (sy_store s') !! 8 = Some (mkChainInfo 8 1 [mkChainTargetInfo 202 PS_SERVING] []).
Proof. vm_compute. split; reflexivity. Qed.

(** Setting a table's latest chains again with a new description does not
    add a version or update the latest one: it overwrites version 1, whose
    chains are lost. *)
Example set_chain_table_overwrites_version_1 :
  let '(o, s') :=
    (SetChainsOperation sample_env "stage" [mkChainSetting 8 [201; 202] false] ;;
     SetChainTableOperation sample_env "stage" 1 [7] "first" ;;
     SetChainTableOperation sample_env "stage" 1 [7; 8] "second" ;;
     SetChainTableOperation sample_env "stage" 1 [7; 8] "third") (sample_sys sample_ri) in
  o = Ok 1 /\
  st_chainTables (sy_store s') !! (1, 1) = Some (mkChainTable 1 1 [7; 8] "third") /\
  st_chainTables (sy_store s') !! (1, 2) = Some (mkChainTable 1 2 [7; 8] "second").
Proof. vm_compute. split_and!; reflexivity. Qed.
