(* ===== verification/LeaseTheorems.v ===== *)
(** * Leases
    ([src/mgmtd/store/MgmtdStore.cc] [extendLease], [ensureLeaseValid])

    The leases that managers obtain from the store follow one another: two of
    different tenures do not overlap. *)

From stdpp Require Import base list gmap sorting strings.
From Stdlib Require Import ZArith Lia.
From S2P Require Import Prelude StatusCode RingBuffer MgmtdTypes UpdateChain ChainProtocol RoutingInfo MgmtdState Transaction ChainOps Coherence ChainTheorems.

(** ** One call *)

(** The lease [extendLease] returns, from the stored one. *)
Inductive lease_next (self : PersistentNodeInfo) (len : Z) (now : UtcTime) (rv : ReleaseVersion) (check : bool)
    : option MgmtdLeaseInfo -> MgmtdLeaseInfo -> Prop :=
| lease_acquired old :
    (forall l, old = Some l -> li_leaseEnd l < now) ->
    lease_next self len now rv check old (mkMgmtdLeaseInfo self now (now + len) rv)
| lease_extended l :
    pni_nodeId (li_primary l) = pni_nodeId self -> now <= li_leaseEnd l < now + len ->
    lease_next self len now rv check (Some l) (mkMgmtdLeaseInfo self (li_leaseStart l) (now + len) rv)
| lease_kept l :
    now + len <= li_leaseEnd l \/ (now <= li_leaseEnd l /\ pni_nodeId (li_primary l) <> pni_nodeId self) \/
      (check = true /\ rv_compare rv (li_releaseVersion l) = Some Lt) ->
    lease_next self len now rv check (Some l) l.

Lemma set_st_lease_id s l : st_lease s = Some l -> set_st_lease (Some l) s = s.
Proof. destruct s. simpl. by intros ->. Qed.

Lemma runs_extendLease self len now rv check s :
  runs (extendLease self len now rv check) s (fun o s' => match o with
    | Ok l => s' = set_st_lease (Some l) s /\ lease_next self len now rv check (st_lease s) l
    | Fatal => s' = s /\ check = true /\ exists l, st_lease s = Some l /\ rv_compare rv (li_releaseVersion l) = None
    | _ => False
    end).
Proof.
  unfold extendLease, loadMgmtdLeaseInfo, storeMgmtdLeaseInfo. msteps.
  destruct (st_lease s) as [l|] eqn:El; [|by msteps; split; [done|]; constructor].
  assert (Hkeep : forall P : Prop, P -> s = set_st_lease (Some l) s /\ P) by (intros; by rewrite set_st_lease_id).
  mstep. assert (Hgo : forall b, (b = true -> check = true /\ rv_compare rv (li_releaseVersion l) = Some Lt) ->
    runs (if (b : bool) then mret l
      else if bool_decide (li_leaseEnd l >= now + len) then mret l
      else if bool_decide (li_leaseEnd l < now) then
        modify (set_st_lease (Some (mkMgmtdLeaseInfo self now (now + len) rv))) ;; mret (mkMgmtdLeaseInfo self now (now + len) rv)
      else if bool_decide (pni_nodeId (li_primary l) = pni_nodeId self) then
        modify (set_st_lease (Some (mkMgmtdLeaseInfo self (li_leaseStart l) (now + len) rv))) ;;
        mret (mkMgmtdLeaseInfo self (li_leaseStart l) (now + len) rv)
      else mret l) s (fun o s' => match o with
    | Ok l' => s' = set_st_lease (Some l') s /\ lease_next self len now rv check (Some l) l'
    | Fatal => s' = s /\ check = true /\ exists l', Some l = Some l' /\ rv_compare rv (li_releaseVersion l') = None
    | _ => False
    end)).
  { intros [] Hb; [mstep; apply Hkeep; constructor; right; right; by apply Hb|].
    case_bool_decide; [mstep; apply Hkeep; constructor; lia|]. case_bool_decide.
    { msteps. split; [done|]. constructor. intros l' [= <-]. done. }
    case_bool_decide; [msteps; split; [done|]; constructor; [done|lia]|].
    mstep. apply Hkeep. constructor. right; left. lia. }
  destruct check.
  - destruct (rv_compare rv (li_releaseVersion l)) as [c|] eqn:Ec.
    + mstep. cbv beta iota delta [andThen]. apply Hgo. by destruct c.
    + unfold runs. simpl. split_and!; [done..|]. by exists l.
  - mstep. exact (Hgo false ltac:(done)).
Qed.

(** ** Histories *)

(** [l2] is obtained after [l1]: the same tenure, not shortened, or one that
    starts after [l1] has ended. *)
Definition lease_after (l1 l2 : MgmtdLeaseInfo) : Prop :=
  (pni_nodeId (li_primary l1) = pni_nodeId (li_primary l2) /\ li_leaseStart l1 = li_leaseStart l2 /\
   li_leaseEnd l1 <= li_leaseEnd l2) \/
  li_leaseEnd l1 < li_leaseStart l2.

Definition lease_wf (l : MgmtdLeaseInfo) : Prop := li_leaseStart l <= li_leaseEnd l.

Lemma lease_after_refl l : lease_after l l.
Proof. by left. Qed.

Lemma lease_after_trans l1 l2 l3 : lease_wf l2 -> lease_after l1 l2 -> lease_after l2 l3 -> lease_after l1 l3.
Proof.
  unfold lease_wf, lease_after. intros Hw [(P1 & S1 & E1)|H1] [(P2 & S2 & E2)|H2].
  - left. split_and!; [congruence|lia|lia].
  - right. lia.
  - right. lia.
  - right. lia.
Qed.

Lemma lease_next_after self len now rv check old l :
  0 <= len -> lease_next self len now rv check old l -> (forall l0, old = Some l0 -> lease_wf l0) ->
  lease_wf l /\ forall l0, old = Some l0 -> lease_after l0 l.
Proof.
  intros Hlen Hn Hw. unfold lease_wf in *. inversion Hn as [old0 Hold|l0 Hid Hnow|l0 Hk]; subst; simpl.
  - split; [lia|]. intros l0 Hl0. right. simpl. by apply Hold.
  - specialize (Hw _ eq_refl). split; [lia|]. intros ? [= <-]. left. simpl. split_and!; [done|done|lia].
  - split; [by apply Hw|]. intros ? [= <-]. apply lease_after_refl.
Qed.

(** The leases returned by successive calls of any managers, with any clocks,
    between other changes to the store. *)
Inductive lease_history : Store -> list MgmtdLeaseInfo -> Prop :=
| lh_start s : st_lease s = None -> lease_history s []
| lh_other s s' ls : st_lease s' = st_lease s -> lease_history s ls -> lease_history s' ls
| lh_extend s s' ls self len now rv check l :
    0 <= len -> lease_history s ls -> extendLease self len now rv check s = (Ok l, s') -> lease_history s' (l :: ls).

(** The most recent lease is the stored one; every earlier one is ordered
    before it. *)
Lemma lease_history_sorted s ls :
  lease_history s ls ->
  Forall lease_wf ls /\ match ls with [] => st_lease s = None | l :: _ => st_lease s = Some l end /\
  forall i j l2 l1, (i <= j)%nat -> ls !! i = Some l2 -> ls !! j = Some l1 -> lease_after l1 l2.
Proof.
  induction 1 as [s Hs|s s' ls Heq _ (IHw & IHl & IHo)|s s' ls self len now rv check l Hlen _ (IHw & IHl & IHo) Hrun].
  - split_and!; [done|done|]. intros i j l2 l1 _ Hi. by rewrite lookup_nil in Hi.
  - split_and!; [done|by rewrite Heq|done].
  - pose proof (runs_extendLease self len now rv check s) as Hx. unfold runs in Hx. rewrite Hrun in Hx. cbn [fst snd] in Hx. destruct Hx as [-> Hn].
    destruct (lease_next_after _ _ _ _ _ _ _ Hlen Hn) as [Hw Ha].
    { intros l0 Hl0. destruct ls as [|l1 ls]; rewrite IHl in Hl0; [done|]. injection Hl0 as ->. by inversion IHw. }
    split_and!; [by constructor|done|]. intros [|i] [|j] l2 l1 Hij; simpl; [| |lia|apply IHo; lia].
    + intros [= ->] [= ->]. apply lease_after_refl.
    + intros [= <-] Hj. destruct ls as [|l0 ls]; [by rewrite lookup_nil in Hj|].
      apply (lease_after_trans _ l0); [by inversion IHw|apply (IHo 0%nat j); [lia|done..]|by apply Ha].
Qed.

(** ** Two primaries *)

Lemma ensureSelfIsPrimary_ok t s s' :
  ensureSelfIsPrimary t s = (Ok tt, s') ->
  exists l, le_lease (md_lease (ms_data (sy_mem s))) = Some l /\ pni_nodeId (li_primary l) = ms_selfId (sy_mem s) /\
    le_bootstrapping (md_lease (ms_data (sy_mem s))) = false /\
    t + cf_suspicious_lease_interval (ms_config (sy_mem s)) < li_leaseEnd l.
Proof.
  unfold ensureSelfIsPrimary, currentLease. unfold_M. destruct (le_lease _) as [l|]; [|done].
  case_bool_decide as Ht; simpl; [|done]. destruct (le_bootstrapping _); simpl; [done|]. case_bool_decide as Hp; [done|].
  intros _. exists l. by split_and!.
Qed.

(** C11: Of all managers whose leases come from one store, at most one passes the
    primary check at any time covered by its lease: whatever the clocks of the
    managers, their lease lengths and release versions, two that pass at time
    [t] are the same node in the same tenure. *)
Theorem primaries_exclusive (st : Store) (ls : list MgmtdLeaseInfo) (t : UtcTime) (s1 s2 s1' s2' : Sys) (l1 l2 : MgmtdLeaseInfo)
    (Hhist : lease_history st ls)
    (Hl1 : le_lease (md_lease (ms_data (sy_mem s1))) = Some l1) (Hin1 : l1 ∈ ls) (Hstart1 : li_leaseStart l1 <= t)
    (Hl2 : le_lease (md_lease (ms_data (sy_mem s2))) = Some l2) (Hin2 : l2 ∈ ls) (Hstart2 : li_leaseStart l2 <= t)
    (Hc1 : 0 <= cf_suspicious_lease_interval (ms_config (sy_mem s1)))
    (Hc2 : 0 <= cf_suspicious_lease_interval (ms_config (sy_mem s2)))
    (Hp1 : ensureSelfIsPrimary t s1 = (Ok tt, s1')) (Hp2 : ensureSelfIsPrimary t s2 = (Ok tt, s2')) :
  ms_selfId (sy_mem s1) = ms_selfId (sy_mem s2) /\ li_leaseStart l1 = li_leaseStart l2.
Proof.
  destruct (ensureSelfIsPrimary_ok _ _ _ Hp1) as (? & E1 & <- & _ & T1).
  destruct (ensureSelfIsPrimary_ok _ _ _ Hp2) as (? & E2 & <- & _ & T2). simplify_eq.
  destruct (lease_history_sorted _ _ Hhist) as (_ & _ & Ho).
  apply list_elem_of_lookup in Hin1 as [i Hi], Hin2 as [j Hj].
  destruct (decide (i <= j)%nat) as [Hij|Hij].
  - destruct (Ho i j l1 l2 Hij Hi Hj) as [(P & S & _)|H]; [done|lia].
  - destruct (Ho j i l2 l1 ltac:(lia) Hj Hi) as [(P & S & _)|H]; [done|lia].
Qed.

(** A second manager takes over when the first one's lease has ended. *)
Definition second_self : PersistentNodeInfo := mkPersistentNodeInfo 2 NT_MGMTD [] [] "host2".
Definition takeover (self : PersistentNodeInfo) (now : UtcTime) : Store -> Store := fun st =>
  snd (extendLease self 60000000 now ReleaseVersion_default true st).

Definition first_lease : MgmtdLeaseInfo := mkMgmtdLeaseInfo sample_self 0 100000000 ReleaseVersion_default.
Definition longer_lease : MgmtdLeaseInfo := mkMgmtdLeaseInfo sample_self 0 120000000 ReleaseVersion_default.

Lemma sample_history : lease_history (set_st_lease (Some longer_lease) Store_empty) [longer_lease; first_lease].
Proof.
  apply (lh_extend (set_st_lease (Some first_lease) Store_empty) _ _ sample_self 60000000 60000000 ReleaseVersion_default true);
    [lia| |by vm_compute].
  apply (lh_extend Store_empty _ _ sample_self 100000000 0 ReleaseVersion_default true); [lia|by apply lh_start|by vm_compute].
Qed.

Lemma primaries_exclusive_witness :
  ms_selfId (sample_mem RoutingInfo_default) = ms_selfId (sample_mem RoutingInfo_default) /\
  li_leaseStart first_lease = li_leaseStart first_lease.
Proof.
  set (s := sample_sys RoutingInfo_default).
  refine (primaries_exclusive _ _ 50000 s s s s first_lease first_lease sample_history eq_refl _ _ eq_refl _ _ _ _ _ _);
    [right; left| |right; left| | | | |]; vm_compute; first [reflexivity|discriminate].
Defined.
