(* ===== verification/NodeInvariant.v ===== *)
(** * The node operations keep memory and store in agreement *)

From Stdlib Require Import ZArith Lia.
From stdpp Require Import base list gmap sorting strings.
From S2P Require Import Prelude StatusCode RingBuffer MgmtdTypes UpdateChain ChainProtocol RoutingInfo MgmtdState ChainOps NodeOps Transaction ChainInvariant Coherence.

(** ** Tags *)

Lemma findTag_None tags k : findTag tags k = -1 <-> k ∉ map tp_key tags.
Proof. by rewrite findTag_spec, list_elem_of_In. Qed.

Lemma removeTag_keys tags k :
  NoDup (map tp_key tags) ->
  NoDup (map tp_key (snd (removeTag tags k))) /\ k ∉ map tp_key (snd (removeTag tags k)) /\
  forall k', k' ∈ map tp_key (snd (removeTag tags k)) -> k' ∈ map tp_key tags.
Proof.
  induction tags as [|t tags IH]; intros Hnd; simpl in *; [split_and!; [done|apply not_elem_of_nil|done]|].
  apply NoDup_cons in Hnd as [Hn Hnd]. case_decide as E; simpl.
  - subst k. split_and!; [done..|]. intros k' Hk'. by right.
  - destruct (IH Hnd) as (H1 & H2 & H3). destruct (removeTag tags k) as [ok r]. simpl in *. split_and!.
    + constructor; [|done]. intros Hx. by apply Hn, H3.
    + rewrite not_elem_of_cons. split; [congruence|done].
    + intros k' Hk'. apply elem_of_cons in Hk' as [->|Hk']; [left|right; auto].
Qed.

Lemma tags_of_map_NoDup m : NoDup (map tp_key (tags_of_map m)).
Proof.
  unfold tags_of_map. rewrite map_map. change (NoDup (map fst (merge_sort tag_le (map_to_list m)))).
  change (map fst ?l) with (fst <$> l). rewrite (merge_sort_Permutation tag_le). apply NoDup_fst_map_to_list.
Qed.

Lemma updateTags_NoDup mode old updates tags : updateTags mode old updates = Ok tags -> NoDup (map tp_key tags).
Proof. unfold updateTags. repeat case_match; try done; intros [= <-]; apply tags_of_map_NoDup. Qed.

Lemma updateTags_total mode old updates : (exists tags, updateTags mode old updates = Ok tags) \/ exists c, updateTags mode old updates = Err c.
Proof. unfold updateTags. repeat case_match; eauto. Qed.

(** ** Nodes *)

Lemma node_ok_enabled n : node_ok n -> node_ok (onNodeEnabled n).
Proof.
  intros [_ Ht]. destruct (removeTag_keys (ni_tags n) kDisabledTagKey Ht) as (H1 & H2 & _). split; simpl; [|done].
  apply findTag_None in H2. split; [done|]. intros H. by rewrite H2 in H.
Qed.

Lemma node_ok_disabled n : node_ok n -> ni_status n <> DISABLED -> node_ok (onNodeDisabled n).
Proof.
  intros [Hd Ht] Hs. assert (Hn : findTag (ni_tags n) kDisabledTagKey = -1) by (apply dec_stable; tauto).
  apply findTag_None in Hn. split; simpl.
  - split; [|done]. intros _. rewrite findTag_app. by right.
  - rewrite map_app. simpl. apply NoDup_app. split_and!; [done| |apply NoDup_singleton].
    intros k Hk Hk'. apply list_elem_of_singleton in Hk' as ->. done.
Qed.

Lemma node_ok_status n st : node_ok n -> ni_status n <> DISABLED -> st <> DISABLED -> node_ok (set_ni_status st n).
Proof. intros [Hd Ht] Hs Hst. split; simpl; [|done]. tauto. Qed.

Lemma node_ok_retagged n tags : NoDup (map tp_key tags) -> node_ok (retaggedNode tags n).
Proof.
  intros Ht. unfold retaggedNode. split; [|by repeat case_match].
  destruct (decide (findTag tags kDisabledTagKey = -1)) as [E|E].
  - rewrite (bool_decide_eq_true_2 _ E). simpl. destruct (decide (ni_status n = DISABLED)) as [Hs|Hs].
    + rewrite (bool_decide_eq_true_2 _ Hs). simpl. done.
    + rewrite (bool_decide_eq_false_2 _ Hs). simpl. tauto.
  - rewrite (bool_decide_eq_false_2 _ E). simpl. destruct (decide (ni_status n = DISABLED)) as [Hs|Hs].
    + rewrite (bool_decide_eq_true_2 _ Hs). simpl. tauto.
    + rewrite (bool_decide_eq_false_2 _ Hs). simpl. done.
Qed.

(** ** A new node map *)

Lemma ri_wf_nodeMap r nm :
  ri_wf r -> (forall nid n, nm !! nid = Some n -> app_nodeId (ni_app (nw_base n)) = nid) -> ri_wf (set_ri_nodeMap nm r).
Proof. by intros [H1 H2 H3 H4 H5 H6] Hn. Qed.

Record nodes_ok (nm : gmap NodeId NodeInfoWrapper) : Prop := {
  nm_id : forall nid n, nm !! nid = Some n -> app_nodeId (ni_app (nw_base n)) = nid;
  nm_ok : forall nid n, nm !! nid = Some n -> node_ok (nw_base n)
}.

Lemma coherent_nodes_ok r d : coherent r d -> nodes_ok (ri_nodeMap r).
Proof. intros H. split; [apply (rw_node _ (ch_wf _ _ H))|apply (ch_node_ok _ _ H)]. Qed.

Lemma nodes_ok_insert nm nid w :
  nodes_ok nm -> app_nodeId (ni_app (nw_base w)) = nid -> node_ok (nw_base w) -> nodes_ok (<[nid := w]> nm).
Proof.
  intros [H1 H2] Hid Hok. split; intros nid' n; rewrite lookup_insert; case_decide; try (intros [= <-]; congruence); eauto.
Qed.

Lemma nodes_ok_delete nm nid : nodes_ok nm -> nodes_ok (delete nid nm).
Proof. intros [H1 H2]. split; intros nid' n Hn; apply lookup_delete_Some in Hn as [_ Hn]; eauto. Qed.

Lemma coherent_nodes r d r' d' :
  coherent r d -> ri_wf r' -> nodes_ok (ri_nodeMap r') -> st_nodes d' = persisted <$> ri_nodeMap r' ->
  ri_chains r' = ri_chains r -> ri_chainTables r' = ri_chainTables r ->
  st_chains d' = st_chains d -> st_chainTables d' = st_chainTables d ->
  version_agrees (st_version d') (ri_routingInfoVersion r') -> coherent r' d'.
Proof.
  intros [H1 Hn Hno H2 H3 H4 H5] Hwf Hnm Hsn Hc Ht Hsc Hst Hv. split; try done; rewrite ?Hc, ?Ht, ?Hsc, ?Hst; try done.
  apply (nm_ok _ Hnm).
Qed.

(** [updateNode] on an entry that exists or is made. *)
Lemma runs_updateNode now nid f r (Q : outcome unit -> RoutingInfo -> Prop) :
  Q (Ok tt) (set_ri_nodeMap (<[nid := f (nodeEntry now nid r)]> (ri_nodeMap r)) r) -> runs (updateNode now nid f) r Q.
Proof. intros H. unfold updateNode. by mstep. Qed.

(** What an operation on nodes leaves: agreement, and chains and tables as
    they were. *)
Record nodes_changed (s : Sys) (nm : gmap NodeId NodeInfoWrapper) (s' : Sys) : Prop := {
  nc_sys : sys_ok s';
  nc_nodes : ri_nodeMap (sys_ri s') = nm;
  nc_chains : ri_chains (sys_ri s') = ri_chains (sys_ri s);
  nc_tables : ri_chainTables (sys_ri s') = ri_chainTables (sys_ri s)
}.

(** Storing node [nid] and replacing its entry by [w]. *)
Lemma nodes_changed_insert s nid w st :
  sys_ok s -> app_nodeId (ni_app (nw_base w)) = nid -> node_ok (nw_base w) ->
  durable st = set_st_nodes (<[nid := persisted w]> (st_nodes (durable (sy_store s))))
    (set_st_version (Some (nextVersion64 (ri_routingInfoVersion (sys_ri s)))) (durable (sy_store s))) ->
  nodes_changed s (<[nid := w]> (ri_nodeMap (sys_ri s)))
    (mkSys (with_ri (set_ri_nodeMap (<[nid := w]> (ri_nodeMap (sys_ri s))) (bumped (sys_ri s))) (sy_mem s)) st).
Proof.
  intros Hs Hid Hok Hst. pose proof (coherent_nodes_ok _ _ (so_ri _ Hs)) as Hnm.
  pose proof (nodes_ok_insert _ _ _ Hnm Hid Hok) as Hnm'. split; [|done..].
  eapply sys_ok_ri; [done|exact Hst| |done|done]. eapply coherent_nodes; [exact (so_ri _ Hs)|..]; try done.
  - apply ri_wf_nodeMap; [apply bumped_wf, (ch_wf _ _ (so_ri _ Hs))|apply (nm_id _ Hnm')].
  - cbn [ri_nodeMap set_ri_nodeMap]. rewrite fmap_insert, <- (ch_nodes _ _ (so_ri _ Hs)). done.
  - by left.
Qed.

Lemma stored_node_idem v p d :
  let F d := set_st_nodes (<[pni_nodeId p := p]> (st_nodes (set_st_version v d))) (set_st_version v d) in F (F d) = F d.
Proof. unfold set_st_nodes, set_st_version. simpl. by rewrite insert_insert_eq. Qed.

(** An operation that stores a node and replaces its entry. *)
Lemma runs_store_node env s nid n (f : NodeInfoWrapper -> NodeInfoWrapper) (P : unit -> Sys -> Prop) :
  env_ok env -> sys_ok s -> app_nodeId (ni_app n) = nid -> node_ok n -> (forall w, nw_base (f w) = n) ->
  (forall s', nodes_changed s (<[nid := f (nodeEntry (oe_steadyNow env) nid (sys_ri s))]> (ri_nodeMap (sys_ri s))) s' -> P tt s') ->
  runs (updateStoredRoutingInfo (oe_attempts env) (fun _ => storeNodeInfo (toPersistentNode n)) ;;
        updateMemoryRoutingInfo (updateNode (oe_steadyNow env) nid f)) s (op_post s P).
Proof.
  intros He Hs Hid Hok Hf HP.
  eapply runs_store_then_memory_unit; [apply (eo_quiet _ He)|apply blind_storeNodeInfo|apply stored_node_idem|].
  apply runs_updateNode. split; [done|]. intros st Hst. apply HP.
  change (nodeEntry (oe_steadyNow env) nid (bumped (sys_ri s))) with (nodeEntry (oe_steadyNow env) nid (sys_ri s)).
  apply nodes_changed_insert; [done|by rewrite Hf|by rewrite Hf|]. rewrite Hst. unfold persisted. rewrite Hf. simpl. by rewrite Hid.
Qed.

(** ** Enabling, disabling, registering *)

(** The entry of an existing node. *)
Lemma nodeEntry_Some now nid r w : ri_nodeMap r !! nid = Some w -> nodeEntry now nid r = w.
Proof. intros H. unfold nodeEntry. by rewrite H. Qed.

Lemma changedNode_ok enable n n' :
  node_ok n -> changedNode enable n = Some n' ->
  node_ok n' /\ app_nodeId (ni_app n') = app_nodeId (ni_app n) /\
  (ni_status n' = DISABLED <-> enable = false) /\ (ni_status n = DISABLED <-> enable = true).
Proof.
  intros Hok. unfold changedNode. destruct enable; simpl; case_bool_decide as Hs; try done; intros [= <-].
  - split; [by apply node_ok_enabled|done].
  - split; [by apply node_ok_disabled|]. done.
Qed.

Lemma runs_EnableDisable enable env clusterId nid s :
  env_ok env -> sys_ok s ->
  runs (EnableDisableNodeOperation enable env clusterId nid) s (op_post s (fun _ s' =>
    nid <> ms_selfId (sy_mem s) /\ exists w, ri_nodeMap (sys_ri s) !! nid = Some w /\
    exists w', nodes_changed s (<[nid := w']> (ri_nodeMap (sys_ri s))) s' /\
      (ni_status (nw_base w') = DISABLED <-> enable = false))).
Proof.
  intros He Hs. unfold EnableDisableNodeOperation. apply runs_validated; [done|]. apply runs_bind, runs_getS. cbv beta iota delta [andThen].
  apply runs_checked. intros Hself%bool_decide_eq_false. apply runs_asPrimary. unfold changeNodeStatus.
  apply runs_bind, runs_gets. cbv beta iota delta [andThen].
  destruct (ri_nodeMap (sys_ri s) !! nid) as [w|] eqn:Hw; [|by mstep].
  pose proof (ch_node_ok _ _ (so_ri _ Hs) _ _ Hw) as Hok. pose proof (rw_node _ (ch_wf _ _ (so_ri _ Hs)) _ _ Hw) as Hid.
  destruct (changedNode enable (nw_base w)) as [n'|] eqn:Ec.
  - destruct (changedNode_ok _ _ _ Hok Ec) as (Hok' & Hid' & Hst & _).
    eapply runs_store_node; [done|done|congruence|done|done|]. intros s' Hs'. split; [done|]. exists w. split; [done|].
    eexists. split; [exact Hs'|done].
  - mstep. split; [done|]. exists w. split; [done|]. exists w. rewrite insert_id by done. split; [by split|].
    unfold changedNode in Ec. destruct enable; simpl in Ec; by case_bool_decide.
Qed.

Lemma registeredNode_ok nid type : node_ok (registeredNode nid type).
Proof. split; simpl; [done|constructor]. Qed.

Lemma runs_RegisterNode env clusterId nid type s :
  env_ok env -> sys_ok s ->
  runs (RegisterNodeOperation env clusterId nid type) s (op_post s (fun _ s' =>
    nid <> 0 /\ ri_nodeMap (sys_ri s) !! nid = None /\
    exists w, nw_base w = registeredNode nid type /\ nodes_changed s (<[nid := w]> (ri_nodeMap (sys_ri s))) s')).
Proof.
  intros He Hs. unfold RegisterNodeOperation. apply runs_validated; [done|]. apply runs_asPrimary.
  apply runs_checked. intros Hz%bool_decide_eq_false. apply runs_bind, runs_gets. cbv beta iota delta [andThen].
  apply runs_checked. intros Hn%bool_decide_eq_false%eq_None_not_Some.
  eapply runs_store_node; [done|done|done|apply registeredNode_ok|done|]. intros s' Hs'. split; [done|]. split; [done|].
  eexists. split; [|exact Hs']. done.
Qed.

Lemma runs_UnregisterNode env clusterId nid s :
  env_ok env -> sys_ok s ->
  runs (UnregisterNodeOperation env clusterId nid) s (op_post s (fun _ s' =>
    nodes_changed s (delete nid (ri_nodeMap (sys_ri s))) s' /\
    exists w, ri_nodeMap (sys_ri s) !! nid = Some w /\
      (ni_status (nw_base w) = DISABLED \/ ni_status (nw_base w) = HEARTBEAT_FAILED) /\
      (ni_type (nw_base w) = NT_STORAGE -> forall tid ti, ri_targets (sys_ri s) !! tid = Some ti -> fti_nodeId (ti_base ti) <> Some nid))).
Proof.
  intros He Hs. unfold UnregisterNodeOperation. apply runs_validated; [done|]. apply runs_asPrimary.
  apply runs_bind, runs_gets. cbv beta iota delta [andThen].
  destruct (ri_nodeMap (sys_ri s) !! nid) as [w|] eqn:Hw; [|by mstep].
  apply runs_checked. intros Hst. apply runs_checked. intros Href.
  eapply runs_store_then_memory_unit; [apply (eo_quiet _ He)|apply blind_clearNodeInfo| |].
  { intros d. unfold set_st_nodes, set_st_version. simpl. by rewrite delete_delete_eq. }
  mstep. split; [done|]. intros st Hd. pose proof (coherent_nodes_ok _ _ (so_ri _ Hs)) as Hnm.
  pose proof (nodes_ok_delete _ nid Hnm) as Hnm'. split.
  - split; [|done..]. eapply sys_ok_ri; [done|exact Hd| |done|done]. eapply coherent_nodes; [exact (so_ri _ Hs)|..]; try done.
    + apply ri_wf_nodeMap; [apply bumped_wf, (ch_wf _ _ (so_ri _ Hs))|apply (nm_id _ Hnm')].
    + cbn [ri_nodeMap set_ri_nodeMap]. change (ri_nodeMap (bumped ?r)) with (ri_nodeMap r).
      rewrite fmap_delete, <- (ch_nodes _ _ (so_ri _ Hs)). done.
    + by left.
  - exists w. split_and!; [done| |].
    + rewrite andb_false_iff, !negb_false_iff, !bool_decide_eq_true in Hst. done.
    + intros Hty tid ti Hti Hn. rewrite (bool_decide_eq_true_2 _ Hty) in Href. simpl in Href.
      apply not_true_iff_false in Href. apply Href, existsb_exists. exists (tid, ti).
      rewrite <- list_elem_of_In, elem_of_map_to_list. split; [done|]. by apply bool_decide_eq_true_2.
Qed.

(** ** Tags of a node *)

Lemma retaggedNode_app tags n : ni_app (retaggedNode tags n) = ni_app n /\ ni_tags (retaggedNode tags n) = tags.
Proof. unfold retaggedNode. by repeat case_match. Qed.

Lemma runs_SetNodeTags env clusterId nid mode tags s :
  env_ok env -> sys_ok s ->
  runs (SetNodeTagsOperation env clusterId nid mode tags) s (op_post s (fun n s' => exists w,
    ri_nodeMap (sys_ri s) !! nid = Some w /\ updateTags mode (ni_tags (nw_base w)) tags = Ok (ni_tags n) /\ node_ok n /\
    nodes_changed s (<[nid := set_nw_base n w]> (ri_nodeMap (sys_ri s))) s')).
Proof.
  intros He Hs. unfold SetNodeTagsOperation. apply runs_validated; [done|]. apply runs_checked. intros _. apply runs_asPrimary.
  apply runs_bind, runs_getS. cbv beta iota delta [andThen].
  destruct (ri_nodeMap (sys_ri s) !! nid) as [w|] eqn:Hw; [|by mstep].
  pose proof (ch_node_ok _ _ (so_ri _ Hs) _ _ Hw) as Hok. pose proof (rw_node _ (ch_wf _ _ (so_ri _ Hs)) _ _ Hw) as Hid.
  apply runs_bind, runs_lift. destruct (updateTags_total mode (ni_tags (nw_base w)) tags) as [[new Hnew]|[c ->]]; [|done].
  rewrite Hnew. cbv beta iota delta [andThen]. case_bool_decide as E.
  { mstep. exists w. subst new. rewrite Hnew. split_and!; try done. rewrite insert_id; [done|]. by destruct w. }
  destruct (retaggedNode_app new (nw_base w)) as [Happ Htags].
  set (n := retaggedNode new (nw_base w)) in *. assert (Hok' : node_ok n) by (eapply node_ok_retagged, updateTags_NoDup; done).
  eapply runs_store_then; [apply (eo_quiet _ He)|apply blind_storeNodeInfo|apply stored_node_idem|].
  intros st Hst. apply runs_memory_then. apply runs_updateNode. split; [done|].
  rewrite (nodeEntry_Some _ _ (bumped (sys_ri s)) w Hw).
  assert (Hs' : nodes_changed s (<[nid := set_nw_base n w]> (ri_nodeMap (sys_ri s)))
    (mkSys (with_ri (set_ri_nodeMap (<[nid := set_nw_base n w]> (ri_nodeMap (sys_ri s))) (bumped (sys_ri s))) (sy_mem s)) st)).
  { apply nodes_changed_insert; [done|simpl; by rewrite Happ|done|]. rewrite Hst. unfold persisted. simpl. by rewrite Happ, Hid. }
  apply runs_bind. unfold onMem. destruct (bool_decide _); simpl; msteps.
  - exists w. rewrite Htags. split_and!; try done. destruct Hs' as [[H1 H2 H3 H4 H8] H5 H6 H7]. by split.
  - exists w. rewrite Htags. by split_and!.
Qed.

(** * Heartbeats keep memory and store in agreement *)

(** ** The latest configuration *)

(** [c] is the latest configuration of type [t]. *)
Definition latest_config (d : MgmtdData) (t : NodeType) (c : ConfigInfo) : Prop :=
  exists m, md_configMap d !! t = Some m /\ rbegin m = Some (cfg_configVersion c, c).

Lemma sys_latest_config s t : sys_ok s -> exists c, latest_config (ms_data (sy_mem s)) t c.
Proof.
  intros Hs. destruct (so_configs _ Hs t) as (m & Hm & Hv). assert (Hne : m <> ∅).
  { intros ->. specialize (Hv 0). rewrite lookup_empty in Hv. by destruct (_ !! _). }
  destruct (rbegin_nonempty m Hne) as (k & c & Hr & Hk). exists c, m. split; [done|]. rewrite Hr. repeat f_equal.
  rewrite Hv in Hk. destruct (st_configs _ !! (t, k)) as [c'|] eqn:E; simpl in Hk.
  - simplify_eq. symmetry. by apply (so_config_versions _ Hs t).
  - case_decide; [|done]. by simplify_eq.
Qed.

Lemma runs_checkConfigVersion d t v c (Q : outcome unit -> MgmtdData -> Prop) :
  latest_config d t c -> (v <= cfg_configVersion c -> Q (Ok tt) d) -> Q (Err MgmtdCode_kInvalidConfigVersion) d ->
  runs (checkConfigVersion t v) d Q.
Proof.
  intros (m & Hm & Hr) H1 H2. unfold checkConfigVersion. msteps. rewrite Hm, Hr. msteps; [done|].
  apply H1. apply bool_decide_eq_false in H. lia.
Qed.

Lemma runs_getConfig_latest d t v c (Q : outcome (option ConfigInfo) -> MgmtdData -> Prop) :
  latest_config d t c -> v <= cfg_configVersion c ->
  Q (Ok (if bool_decide (v < cfg_configVersion c) then Some c else None)) d -> runs (getConfig t v true) d Q.
Proof.
  intros (m & Hm & Hr) Hle HQ. unfold getConfig. msteps. rewrite Hm, Hr. msteps; [|done].
  apply bool_decide_eq_true in H. lia.
Qed.

(** ** The memory update *)

Lemma checkReportedTargets_NoDup ltis seen :
  checkReportedTargets ltis seen = Ok tt ->
  NoDup (map lti_targetId ltis) /\ (forall lti, lti ∈ ltis -> lti_targetId lti ∉ seen /\ lti_localState lti <> LS_INVALID).
Proof.
  revert seen. induction ltis as [|lti ltis IH]; intros seen; simpl.
  { intros _. split; [constructor|]. intros lti Hx. by apply elem_of_nil in Hx. }
  case_bool_decide as Hs; [done|]. destruct (lti_localState lti) eqn:El; try done; intros [Hnd Hin]%IH.
  all: split; [constructor; [|done]; intros Hx; apply list_elem_of_fmap in Hx as (lti' & E & Hx); destruct (Hin _ Hx); set_solver|].
  all: intros lti' Hx; apply elem_of_cons in Hx as [->|Hx]; [by rewrite El|]; destruct (Hin _ Hx); split; [set_solver|done].
Qed.

Lemma checkReportedTargets_total ltis seen :
  checkReportedTargets ltis seen = Ok tt \/ exists c, checkReportedTargets ltis seen = Err c.
Proof. revert seen. induction ltis as [|lti ltis IH]; intros seen; simpl; [by left|]. repeat case_match; eauto. Qed.

(** The entry a heartbeat leaves. *)
Record node_connected (hb : HeartbeatInfo) (now : UtcTime) (steadyNow : SteadyTime) (n : NodeInfo) (w : NodeInfoWrapper) : Prop := {
  nco_base : nw_base w = set_ni_lastHeartbeatTs now n;
  nco_version : nw_version w = hb_hbVersion hb;
  nco_ts : nw_ts w = steadyNow
}.

(** The targets of a heartbeat that reports some. *)
Definition targets_reported ig steadyNow (hb : HeartbeatInfo) (r r' : RoutingInfo) : Prop :=
  match reportedTargets hb with
  | Some ltis =>
      (forall tid, tid ∉ map lti_targetId ltis -> ri_targets r' !! tid = ri_targets r !! tid) /\
      (forall lti ti, lti ∈ ltis -> ri_targets r !! lti_targetId lti = Some ti ->
         exists ti', ri_targets r' !! lti_targetId lti = Some ti' /\
           heartbeat_effect ig steadyNow (app_nodeId (hb_app hb)) r lti ti ti')
  | None => ri_targets r' = ri_targets r
  end.

Record heartbeat_memory ig steadyNow now hb old n (r r' : RoutingInfo) : Prop := {
  hm_wf : ri_wf r';
  hm_chains : ri_chains r' = ri_chains r;
  hm_tables : ri_chainTables r' = ri_chainTables r;
  hm_version : ri_routingInfoVersion r' =
    if persistChanged old n then nextVersion64 (ri_routingInfoVersion r) else ri_routingInfoVersion r;
  hm_node : exists w, ri_nodeMap r' = <[app_nodeId (hb_app hb) := w]> (ri_nodeMap r) /\ node_connected hb now steadyNow n w;
  hm_targets : targets_reported ig steadyNow hb r r'
}.

Lemma runs_report_targets ig steadyNow hb r :
  ri_wf r -> (forall ltis, reportedTargets hb = Some ltis -> NoDup (map lti_targetId ltis)) ->
  runs (match reportedTargets hb with
        | Some targets => localUpdateTargets ig steadyNow (app_nodeId (hb_app hb)) targets
        | None => mret tt end) r
    (fun o r' => o = Ok tt /\ ri_wf r' /\ ri_same_chains r r' /\ targets_reported ig steadyNow hb r r').
Proof.
  intros Hwf Hnd. unfold targets_reported. destruct (reportedTargets hb) as [ltis|]; [|by mstep].
  eapply runs_mono; [apply runs_conj; [by apply runs_localUpdateTargets|by apply runs_localUpdateTargets_effect, Hnd]|].
  by intros o r' [(-> & Hwf' & Hs) Heff].
Qed.

Lemma runs_heartbeatMemory ig steadyNow now hb old n r :
  ri_wf r -> app_nodeId (ni_app n) = app_nodeId (hb_app hb) ->
  (forall ltis, reportedTargets hb = Some ltis -> NoDup (map lti_targetId ltis)) ->
  runs (heartbeatMemory ig steadyNow now hb old n) r (fun o r' => o = Ok tt /\ heartbeat_memory ig steadyNow now hb old n r r').
Proof.
  intros Hwf Hid Hnd. unfold heartbeatMemory. mstep. mstep. mstep. mstep. apply runs_updateNode. mstep.
  set (r0 := set_ri_changed _ r).
  set (w := set_nw_version _ _). set (r1 := set_ri_nodeMap _ r0).
  assert (Hwf1 : ri_wf r1).
  { apply ri_wf_nodeMap; [by destruct Hwf|]. intros nid w'. rewrite lookup_insert. case_decide; [naive_solver|].
    apply (rw_node _ Hwf). }
  mstep. eapply runs_mono; [by apply runs_report_targets|]. intros o r2 (-> & Hwf2 & [] & Htgt). mstep.
  assert (Hmid : runs (when (persistChanged old n) bumpMemoryRoutingInfo) r2 (fun o r3 => o = Ok tt /\ ri_wf r3 /\
    ri_chains r3 = ri_chains r /\ ri_chainTables r3 = ri_chainTables r /\ ri_targets r3 = ri_targets r2 /\
    ri_nodeMap r3 = <[app_nodeId (hb_app hb) := w]> (ri_nodeMap r) /\
    ri_routingInfoVersion r3 = if persistChanged old n then nextVersion64 (ri_routingInfoVersion r) else ri_routingInfoVersion r)).
  { unfold bumpMemoryRoutingInfo. mstep; [mstep|]; rewrite H; simpl; split_and!; try done; [by destruct Hwf2|].
    by rewrite rsc_version. }
  mstep. eapply runs_mono; [exact Hmid|]. intros o r3 (-> & Hwf3 & Hc3 & Ht3 & Htg3 & Hn3 & Hv3). mstep.
  assert (Htgt3 : targets_reported ig steadyNow hb r r3).
  { unfold targets_reported in *. rewrite Htg3. destruct (reportedTargets hb); [|done]. done. }
  mstep.
  - apply runs_updateNode. split; [done|]. unfold nodeEntry. rewrite Hn3, lookup_insert_eq. simpl. split; simpl; try done.
    + apply ri_wf_nodeMap; [done|]. intros nid w'. rewrite insert_insert_eq, lookup_insert. case_decide; [naive_solver|].
      apply (rw_node _ Hwf).
    + eexists. rewrite insert_insert_eq. split; [done|]. done.
  - split; [done|]. split; try done. exists w. done.
Qed.

(** ** The operation *)

Record heartbeat_accepted (env : OpEnv) (hb : HeartbeatInfo) (s : Sys) (s' : Sys) : Prop := {
  ha_ok : sys_ok s';
  ha_chains : ri_chains (sys_ri s') = ri_chains (sys_ri s);
  ha_tables : ri_chainTables (sys_ri s') = ri_chainTables (sys_ri s);
  ha_fresh : forall old, ri_nodeMap (sys_ri s) !! app_nodeId (hb_app hb) = Some old ->
    nw_version old < hb_hbVersion hb /\ ni_type (nw_base old) = hb_type hb /\ ni_status (nw_base old) <> DISABLED;
  ha_node : exists w, ri_nodeMap (sys_ri s') = <[app_nodeId (hb_app hb) := w]> (ri_nodeMap (sys_ri s)) /\
    nw_version w = hb_hbVersion hb /\ nw_ts w = oe_steadyNow env /\
    ni_status (nw_base w) = HEARTBEAT_CONNECTED /\ ni_lastHeartbeatTs (nw_base w) = oe_utcStart env /\
    ni_app (nw_base w) = hb_app hb;
  ha_targets : targets_reported (cf_heartbeat_ignore_stale_targets (ms_config (sy_mem s))) (oe_steadyNow env) hb (sys_ri s) (sys_ri s')
}.

(** What the preparation has checked. *)
Record prepared_ok (s : Sys) (hb : HeartbeatInfo) (old : option NodeInfoWrapper) (n : NodeInfo) : Prop := {
  po_old : old = ri_nodeMap (sys_ri s) !! app_nodeId (hb_app hb);
  po_app : ni_app n = hb_app hb;
  po_status : ni_status n = HEARTBEAT_CONNECTED;
  po_ok : node_ok n;
  po_fresh : forall w, old = Some w -> nw_version w < hb_hbVersion hb /\ ni_type (nw_base w) = hb_type hb /\ ni_status (nw_base w) <> DISABLED;
  po_targets : forall ltis, reportedTargets hb = Some ltis -> NoDup (map lti_targetId ltis)
}.

Lemma prepareNewNodeInfo_ok cfg now r hb n :
  (forall nid w, ri_nodeMap r !! nid = Some w -> node_ok (nw_base w)) ->
  prepareNewNodeInfo cfg now (ri_nodeMap r !! app_nodeId (hb_app hb)) hb = Ok n ->
  ni_app n = hb_app hb /\ ni_status n = HEARTBEAT_CONNECTED /\ node_ok n /\
  forall w, ri_nodeMap r !! app_nodeId (hb_app hb) = Some w ->
    nw_version w < hb_hbVersion hb /\ ni_type (nw_base w) = hb_type hb /\ ni_status (nw_base w) <> DISABLED.
Proof.
  intros Hnm. unfold prepareNewNodeInfo. destruct (ri_nodeMap r !! app_nodeId (hb_app hb)) as [old|] eqn:Eo.
  - repeat (case_bool_decide; [done|]). intros [= <-]. split_and!; [done..| |].
    + destruct (Hnm _ _ Eo) as [Hd Ht]. split; simpl; [|done]. split; [done|]. intros Hx%Hd. done.
    + intros w [= <-]. split_and!; [lia|done|done].
  - case_match; [|done]. intros [= <-]. split_and!; try done. split; [done|constructor].
Qed.

Lemma prepareNewNodeInfo_total cfg now old hb :
  (exists n, prepareNewNodeInfo cfg now old hb = Ok n) \/ exists c, prepareNewNodeInfo cfg now old hb = Err c.
Proof. unfold prepareNewNodeInfo. repeat case_match; eauto. Qed.

Lemma runs_prepareHandleHeartbeat now hb s c :
  sys_ok s -> latest_config (ms_data (sy_mem s)) (hb_type hb) c ->
  runs (prepareHandleHeartbeat now hb) s (fun o s' => s' = s /\ match o with
    | Ok (old, n) => prepared_ok s hb old n /\ hb_configVersion hb <= cfg_configVersion c
    | Err _ => True | _ => False end).
Proof.
  intros Hs Hc. unfold prepareHandleHeartbeat, onData, onMem, getConfigItem. mstep. mstep. mstep.
  assert (Hsame : set_sy_mem (set_ms_data (ms_data (sy_mem s)) (sy_mem s)) s = s) by (by destruct s as [[] ?]).
  eapply runs_checkConfigVersion; [exact Hc| |by mstep; rewrite Hsame]. intros Hle. mstep. rewrite Hsame. msteps.
  destruct (prepareNewNodeInfo_total (id (ms_config (sy_mem s))) now (ri_nodeMap (sys_ri s) !! app_nodeId (hb_app hb)) hb)
    as [[n Hn]|[e ->]]; [|done].
  rewrite Hn. destruct (prepareNewNodeInfo_ok _ _ _ _ _ (ch_node_ok _ _ (so_ri _ Hs)) Hn) as (H1 & H2 & H3 & H4).
  mstep. destruct (reportedTargets hb) as [ltis|] eqn:Er; mstep.
  - destruct (checkReportedTargets_total ltis ∅) as [E|[e ->]]; [|done]. rewrite E. msteps. split; [done|]. split; [|done].
    split; try done. intros ltis' E'. rewrite Er in E'. injection E' as <-. by apply checkReportedTargets_NoDup in E as [? _].
  - msteps. split; [done|]. split; [|done]. split; try done. intros ltis' E'. by rewrite Er in E'.
Qed.

(** Memory and store after the update of memory, whether the node was stored
    or not. *)
Lemma heartbeat_coherent ig steadyNow now hb s old n r st :
  sys_ok s -> prepared_ok s hb old n -> heartbeat_memory ig steadyNow now hb old n (sys_ri s) r ->
  durable st = (if persistChanged old n
    then set_st_nodes (<[app_nodeId (hb_app hb) := toPersistentNode n]> (st_nodes (durable (sy_store s))))
           (set_st_version (Some (nextVersion64 (ri_routingInfoVersion (sys_ri s)))) (durable (sy_store s)))
    else durable (sy_store s)) ->
  sys_ok (mkSys (with_ri r (sy_mem s)) st).
Proof.
  intros Hs [P1 P2 P3 P4 P5 P6] [M1 M2 M3 M4 (w & M5 & [N1 N2 N3]) M6] Hst.
  assert (Hp : persisted w = toPersistentNode n) by (unfold persisted; by rewrite N1).
  assert (Hnok : nodes_ok (ri_nodeMap r)).
  { rewrite M5. apply nodes_ok_insert; [by eapply coherent_nodes_ok, so_ri|by rewrite N1; simpl; rewrite P2|].
    rewrite N1. by destruct P4. }
  assert (Hsn : st_nodes (durable st) = persisted <$> ri_nodeMap r).
  { rewrite Hst, M5, fmap_insert, <- (ch_nodes _ _ (so_ri _ Hs)), Hp. destruct (persistChanged old n) eqn:Ep; [done|].
    unfold persistChanged in Ep. destruct old as [old|]; [|done]. apply negb_false_iff, bool_decide_eq_true in Ep.
    symmetry. apply insert_id. rewrite (ch_nodes _ _ (so_ri _ Hs)), lookup_fmap, <- P1. simpl. unfold persisted. by rewrite Ep. }
  eapply sys_ok_ri; [done|exact Hst| |by case_match|by case_match]. rewrite Hst in Hsn.
  eapply coherent_nodes; [exact (so_ri _ Hs)|..]; try done; [by case_match..|].
  rewrite M4. destruct (persistChanged old n); [by left|]. apply (ch_version _ _ (so_ri _ Hs)).
Qed.

Lemma runs_Heartbeat env clusterId hb timestamp s :
  env_ok env -> sys_ok s ->
  runs (HeartbeatOperation env clusterId hb timestamp) s (op_post s (fun cfg s' =>
    heartbeat_accepted env hb s s' /\
    exists c, latest_config (ms_data (sy_mem s)) (hb_type hb) c /\ hb_configVersion hb <= cfg_configVersion c /\
      cfg = if bool_decide (hb_configVersion hb < cfg_configVersion c) then Some c else None)).
Proof.
  intros He Hs. unfold HeartbeatOperation, validateClusterId. apply runs_bind. msteps; [done|]. apply runs_asPrimary.
  apply runs_bind, runs_getS. cbv beta iota delta [andThen]. do 3 (apply runs_checked; intros ?).
  destruct (sys_latest_config s (hb_type hb) Hs) as [c Hc].
  apply runs_bind. eapply runs_mono; [by apply runs_prepareHandleHeartbeat|].
  intros o s1 (-> & Ho). destruct o as [[old n]|e| |]; cbv beta iota delta [andThen]; try done. destruct Ho as [Hp Hle].
  set (ig := cf_heartbeat_ignore_stale_targets _). set (k := onRouting _ ;; _).
  set (dst := if persistChanged old n
    then set_st_nodes (<[app_nodeId (hb_app hb) := toPersistentNode n]> (st_nodes (durable (sy_store s))))
           (set_st_version (Some (nextVersion64 (ri_routingInfoVersion (sys_ri s)))) (durable (sy_store s)))
    else durable (sy_store s)).
  match goal with |- runs _ _ ?post => assert (Hk : forall st, durable st = dst -> runs k (mkSys (sy_mem s) st) post) end.
  { intros st Hst. unfold k. mstep. apply runs_onRouting.
    eapply runs_mono; [apply (runs_heartbeatMemory ig (oe_steadyNow env) (oe_utcStart env) hb old n);
      [exact (ch_wf _ _ (so_ri _ Hs))|by rewrite (po_app _ _ _ _ Hp)|exact (po_targets _ _ _ _ Hp)]|].
    intros o r (-> & Hm). mstep. unfold onData, onMem. do 2 apply runs_zoom.
    eapply runs_getConfig_latest; [exact Hc|done|]. simpl. split; [|eauto].
    pose proof (heartbeat_coherent _ _ _ _ _ _ _ _ _ Hs Hp Hm Hst) as Hok. destruct Hp as [P1 P2 P3 P4 P5 P6].
    destruct Hm as [M1 M2 M3 M4 (w & M5 & [N1 N2 N3]) M6]. split; try done; [by rewrite <- P1|].
    exists w. rewrite N1. by split_and!. }
  unfold dst in Hk. destruct (persistChanged old n) eqn:Ep; simpl.
  - eapply runs_store_then; [apply (eo_quiet _ He)|apply blind_storeNodeInfo|apply stored_node_idem|].
    intros st Hst. apply Hk. rewrite Hst. simpl. by rewrite (po_app _ _ _ _ Hp).
  - apply runs_bind, runs_ret. cbv beta iota delta [andThen]. specialize (Hk (sy_store s) eq_refl). by destruct s.
Qed.

(** ** The heartbeat checker *)

Definition failedEntry (w : NodeInfoWrapper) : NodeInfoWrapper := set_nw_base (onNodeFailed (nw_base w)) w.

Lemma runs_failNodes later (l : list (NodeId * NodeInfoWrapper)) r :
  NoDup (map fst l) ->
  (forall kv, kv ∈ l -> ri_nodeMap r !! fst kv = Some (snd kv) /\ app_nodeId (ni_app (nw_base (snd kv))) = fst kv) ->
  runs (for_each (fun info => updateNode later (app_nodeId (ni_app info)) (set_nw_base info))
          (map (fun kv => onNodeFailed (nw_base (snd kv))) l)) r
    (fun o r' => o = Ok tt /\ exists nm, r' = set_ri_nodeMap nm r /\
       (forall nid, nid ∉ map fst l -> nm !! nid = ri_nodeMap r !! nid) /\
       (forall kv, kv ∈ l -> nm !! fst kv = Some (failedEntry (snd kv)))).
Proof.
  revert r. induction l as [|[nid w] l IH]; intros r Hnd Hin; simpl in *.
  { mstep. split; [done|]. exists (ri_nodeMap r). split_and!; [by destruct r|done|]. intros kv Hx. by apply elem_of_nil in Hx. }
  apply NoDup_cons in Hnd as [Hn Hnd]. destruct (Hin (nid, w)) as [Hw Hid]; [left|]. simpl in *.
  mstep. apply runs_updateNode. mstep. rewrite Hid. unfold nodeEntry. rewrite Hw. simpl.
  eapply runs_mono; [apply IH; [done|]|].
  - intros kv Hx. destruct (Hin kv) as [H1 H2]; [by right|]. split; [|done]. simpl. rewrite lookup_insert_ne; [done|].
    intros ->. apply Hn. by apply list_elem_of_fmap_2.
  - intros o r' (-> & nm & -> & Hout & Hl). split; [done|]. exists nm. split_and!; [done| |].
    + intros nid' Hx. apply not_elem_of_cons in Hx as [Hx1 Hx2]. rewrite Hout by done. simpl. by rewrite lookup_insert_ne.
    + intros kv Hx. apply elem_of_cons in Hx as [->|Hx]; [|by apply Hl]. simpl. rewrite Hout by done. simpl. by rewrite lookup_insert_eq.
Qed.

(** What the checker leaves of a node and of a target. *)
Definition checkedNode interval now (w : NodeInfoWrapper) : NodeInfoWrapper :=
  if node_timed_out interval now w then failedEntry w else w.
Definition checkedTarget interval now later (ti : TargetInfo) : TargetInfo :=
  if target_timed_out interval now ti
  then set_ti_ts later (set_ti_base (set_fti_localState LS_OFFLINE (ti_base ti)) ti) else ti.

Record checked interval now later (r r' : RoutingInfo) : Prop := {
  ck_nodes : ri_nodeMap r' = checkedNode interval now <$> ri_nodeMap r;
  ck_targets : ri_targets r' = checkedTarget interval now later <$> ri_targets r;
  ck_chains : ri_chains r' = ri_chains r;
  ck_tables : ri_chainTables r' = ri_chainTables r;
  ck_version : ri_routingInfoVersion r' = ri_routingInfoVersion r
}.

Lemma NoDup_map_inj {X Y} (f : X -> Y) (l : list X) x y : NoDup (map f l) -> x ∈ l -> y ∈ l -> f x = f y -> x = y.
Proof.
  intros Hnd Hx Hy E. apply list_elem_of_lookup in Hx as [i Hi], Hy as [j Hj].
  assert (i = j) as ->; [|congruence]. apply (NoDup_lookup (f <$> l) i j (f x)); [done|by rewrite list_lookup_fmap, Hi|].
  by rewrite list_lookup_fmap, Hj, E.
Qed.

Lemma filter_to_list_keys {V} (f : V -> bool) (m : gmap Z V) k :
  k ∈ map fst (filter (fun kv : Z * V => f (snd kv) = true) (map_to_list m)) <-> exists v, m !! k = Some v /\ f v = true.
Proof.
  change (map fst ?l) with (fst <$> l). rewrite list_elem_of_fmap. setoid_rewrite list_elem_of_filter. split.
  - intros ([k' v] & -> & Hf & Hk). apply elem_of_map_to_list in Hk. eauto.
  - intros (v & Hk & Hf). exists (k, v). rewrite elem_of_map_to_list. done.
Qed.

Lemma filter_to_list_NoDup {V} (f : V -> bool) (m : gmap Z V) :
  NoDup (map fst (filter (fun kv : Z * V => f (snd kv) = true) (map_to_list m))).
Proof.
  change (map fst ?l) with (fst <$> l). eapply sublist_NoDup; [apply (NoDup_fst_map_to_list m)|].
  apply fmap_sublist, sublist_filter.
Qed.

Lemma runs_failTargets interval now later r :
  runs (for_each (fun tid => updateTarget later tid (fun ti =>
          mret (set_ti_ts later (set_ti_base (set_fti_localState LS_OFFLINE (ti_base ti)) ti)))) (timeoutedTargets interval now r)) r
    (fun o r' => o = Ok tt /\ r' = set_ri_targets (checkedTarget interval now later <$> ri_targets r) r).
Proof.
  pose proof (filter_to_list_keys (target_timed_out interval now) (ri_targets r)) as Hk.
  pose proof (filter_to_list_NoDup (target_timed_out interval now) (ri_targets r)) as Hnd.
  fold (timeoutedTargets interval now r) in Hk, Hnd.
  eapply runs_mono; [apply runs_update_each with (key := id)
    (upd := fun _ ti => set_ti_ts later (set_ti_base (set_fti_localState LS_OFFLINE (ti_base ti)) ti))|].
  - change (map id ?l) with (id <$> l). by rewrite list_fmap_id.
  - intros tid Ht. apply Hk in Ht as (ti & Hti & _). by exists ti.
  - change (map id ?l) with (id <$> l). rewrite list_fmap_id. intros o r' (-> & T & -> & Hout & Hupd). split; [done|]. f_equal.
    apply map_eq. intros tid. rewrite lookup_fmap. destruct (ri_targets r !! tid) as [ti|] eqn:Hti; simpl.
    + unfold checkedTarget. destruct (target_timed_out interval now ti) eqn:Et.
      * apply Hupd; [|done]. apply Hk. eauto.
      * rewrite Hout; [done|]. intros (ti' & Hti' & Et')%Hk. congruence.
    + rewrite Hout; [done|]. intros (ti' & Hti' & _)%Hk. congruence.
Qed.

Lemma checked_wf interval now later r r' :
  ri_wf r -> checked interval now later r r' -> ri_newBornChains r' = ri_newBornChains r ->
  ri_orphanTargetsByTargetId r' = ri_orphanTargetsByTargetId r -> ri_orphanTargetsByNodeId r' = ri_orphanTargetsByNodeId r ->
  ri_wf r'.
Proof.
  intros [H1 H2 H3 H4 H5 H6] [C1 C2 C3 C4 C5] Hb Ho1 Ho2.
  assert (Hid : forall ti, fti_targetId (ti_base (checkedTarget interval now later ti)) = fti_targetId (ti_base ti) /\
    fti_chainId (ti_base (checkedTarget interval now later ti)) = fti_chainId (ti_base ti) /\
    fti_publicState (ti_base (checkedTarget interval now later ti)) = fti_publicState (ti_base ti))
    by (intros ti; unfold checkedTarget; by case_match).
  split; rewrite ?C1, ?C2, ?C3, ?C4, ?Hb, ?Ho1, ?Ho2; try done.
  - intros cid c cti Hc Hcti. destruct (H2 _ _ _ Hc Hcti) as (ti & Hti & [T1 T2]). rewrite lookup_fmap, Hti. simpl.
    eexists. split; [done|]. destruct (Hid ti) as (I1 & I2 & I3). split; congruence.
  - intros tid ti Hti. apply lookup_fmap_Some in Hti as (ti0 & <- & Hti0). destruct (Hid ti0) as (-> & -> & _). by apply H3.
  - intros tid oti Ho. destruct (H4 _ _ Ho) as (Hn & Hrest). split; [|done]. by rewrite lookup_fmap, Hn.
  - intros nid n Hn. apply lookup_fmap_Some in Hn as (w & <- & Hw). unfold checkedNode. case_match; simpl; by apply H6.
Qed.

Lemma checked_nodes_ok interval now (nm : gmap NodeId NodeInfoWrapper) : nodes_ok nm -> nodes_ok (checkedNode interval now <$> nm).
Proof.
  intros [H1 H2]. split; intros nid n Hn; apply lookup_fmap_Some in Hn as (w & <- & Hw); unfold checkedNode;
    destruct (node_timed_out interval now w) eqn:Et; simpl; eauto.
  apply node_ok_status; [by eapply H2| |done]. intros Hd. unfold node_timed_out in Et. by rewrite Hd in Et.
Qed.

Lemma checked_persisted interval now (nm : gmap NodeId NodeInfoWrapper) : persisted <$> (checkedNode interval now <$> nm) = persisted <$> nm.
Proof.
  rewrite <- map_fmap_compose. apply map_fmap_ext. intros nid w _. simpl. unfold checkedNode. by case_match.
Qed.

Lemma checked_nothing {V} (f : V -> bool) (g : V -> V) (m : gmap Z V) :
  map fst (filter (fun kv : Z * V => f (snd kv) = true) (map_to_list m)) = [] ->
  (fun v => if f v then g v else v) <$> m = m.
Proof.
  intros Hn. rewrite <- (map_fmap_id m) at 2. apply map_fmap_ext. intros k v Hv. simpl. destruct (f v) eqn:E; [|done].
  assert (Hk : k ∈ map fst (filter (fun kv : Z * V => f (snd kv) = true) (map_to_list m))) by (apply filter_to_list_keys; eauto).
  rewrite Hn in Hk. by apply elem_of_nil in Hk.
Qed.

Lemma runs_HeartbeatChecker env later s :
  sys_ok s ->
  runs (HeartbeatChecker_check env later) s (op_post s (fun _ s' => sys_ok s' /\
    checked (cf_heartbeat_fail_interval (ms_config (sy_mem s))) (oe_steadyNow env) later (sys_ri s) (sys_ri s') /\
    sy_store s' = sy_store s)).
Proof.
  intros Hs. unfold HeartbeatChecker_check. apply runs_asPrimary. unfold HeartbeatChecker_handle, getConfigItem. msteps.
  set (interval := cf_heartbeat_fail_interval _). set (now := oe_steadyNow env). destruct (_ && _) eqn:Eb.
  - apply andb_true_iff in Eb as [En%bool_decide_eq_true Et%bool_decide_eq_true]. mstep. split; [done|]. split; [|done].
    split; try done; symmetry; [apply (checked_nothing (node_timed_out interval now) failedEntry)|
      by apply (checked_nothing (target_timed_out interval now))].
    unfold timeoutedNodes in En. apply map_eq_nil in En. by rewrite En.
  - apply runs_onRouting. mstep. eapply runs_mono; [apply runs_failTargets|]. intros o r1 (-> & ->). mstep. mstep.
    eapply runs_mono; [apply runs_failNodes|].
    + apply (filter_to_list_NoDup (node_timed_out interval now)).
    + intros [nid w] Hx. apply list_elem_of_filter in Hx as [_ Hx]. apply elem_of_map_to_list in Hx. split; [done|].
      by apply (rw_node _ (ch_wf _ _ (so_ri _ Hs))).
    + intros o r2 (-> & nm & -> & Hout & Hin). mstep. mstep.
      assert (Hnm : nm = checkedNode interval now <$> ri_nodeMap (sys_ri s)).
      { apply map_eq. intros nid. rewrite lookup_fmap. destruct (ri_nodeMap (sys_ri s) !! nid) as [w|] eqn:Hw; simpl.
        - unfold checkedNode. destruct (node_timed_out interval now w) eqn:Et.
          + apply (Hin (nid, w)). apply list_elem_of_filter. by rewrite elem_of_map_to_list.
          + rewrite Hout; [done|]. intros (w' & Hw' & Et')%(filter_to_list_keys (node_timed_out interval now)). simpl in Hw'. congruence.
        - rewrite Hout; [done|]. intros (w' & Hw' & _)%(filter_to_list_keys (node_timed_out interval now)). simpl in Hw'. congruence. }
      subst nm. set (r' := set_ri_changed _ _).
      assert (Hck : checked interval now later (sys_ri s) r') by done. split; [|done].
      pose proof (checked_nodes_ok interval now _ (coherent_nodes_ok _ _ (so_ri _ Hs))) as Hnok.
      eapply sys_ok_ri; [done|reflexivity| |done|done]. eapply coherent_nodes; [exact (so_ri _ Hs)|..]; try done.
      * by eapply checked_wf; [exact (ch_wf _ _ (so_ri _ Hs))|exact Hck|..].
      * rewrite (ck_nodes _ _ _ _ _ Hck), checked_persisted. apply (ch_nodes _ _ (so_ri _ Hs)).
      * apply (ch_version _ _ (so_ri _ Hs)).
Qed.
