(* ===== verification/NodeTheorems.v ===== *)
(** * Correctness of the node operations and of heartbeats *)

From stdpp Require Import base list gmap sorting strings.
From Stdlib Require Import ZArith Lia.
From S2P Require Import Prelude StatusCode RingBuffer MgmtdTypes UpdateChain ChainProtocol RoutingInfo MgmtdState Transaction ChainOps NodeOps ChainInvariant Coherence ChainTheorems NodeInvariant.

(** ** Administration of nodes *)

Inductive NodeRequest :=
| ReqEnable
| ReqDisable
| ReqRegister (type : NodeType)
| ReqUnregister
| ReqSetTags (mode : SetTagMode) (tags : list TagPair).

Definition node_operation (req : NodeRequest) (env : OpEnv) (clusterId : string) (nid : NodeId) : M Sys unit :=
  match req with
  | ReqEnable => EnableNodeOperation env clusterId nid
  | ReqDisable => DisableNodeOperation env clusterId nid
  | ReqRegister type => RegisterNodeOperation env clusterId nid type
  | ReqUnregister => UnregisterNodeOperation env clusterId nid
  | ReqSetTags mode tags => SetNodeTagsOperation env clusterId nid mode tags ;; mret tt
  end.

(** The entry of the node after a successful request. *)
Definition node_effect (s : Sys) (nid : NodeId) (req : NodeRequest) (old new : option NodeInfoWrapper) : Prop :=
  match req with
  | ReqEnable | ReqDisable =>
      nid <> ms_selfId (sy_mem s) /\ is_Some old /\
      exists w, new = Some w /\ (ni_status (nw_base w) = DISABLED <-> req = ReqDisable)
  | ReqRegister type => nid <> 0 /\ old = None /\ exists w, new = Some w /\ nw_base w = registeredNode nid type
  | ReqUnregister =>
      new = None /\ exists w, old = Some w /\ (ni_status (nw_base w) = DISABLED \/ ni_status (nw_base w) = HEARTBEAT_FAILED) /\
        (ni_type (nw_base w) = NT_STORAGE ->
         forall tid ti, ri_targets (sys_ri s) !! tid = Some ti -> fti_nodeId (ti_base ti) <> Some nid)
  | ReqSetTags mode tags =>
      exists w n, old = Some w /\ new = Some (set_nw_base n w) /\ updateTags mode (ni_tags (nw_base w)) tags = Ok (ni_tags n)
  end.

Record node_done (s : Sys) (nid : NodeId) (req : NodeRequest) (s' : Sys) : Prop := {
  nd_ok : sys_ok s';
  nd_effect : node_effect s nid req (ri_nodeMap (sys_ri s) !! nid) (ri_nodeMap (sys_ri s') !! nid);
  nd_others : forall nid', nid' <> nid -> ri_nodeMap (sys_ri s') !! nid' = ri_nodeMap (sys_ri s) !! nid';
  nd_chains : ri_chains (sys_ri s') = ri_chains (sys_ri s)
}.

Lemma node_done_insert s nid req w s' :
  nodes_changed s (<[nid := w]> (ri_nodeMap (sys_ri s))) s' ->
  node_effect s nid req (ri_nodeMap (sys_ri s) !! nid) (Some w) -> node_done s nid req s'.
Proof.
  intros [H1 H2 H3 H4] He. split; [done|by rewrite H2, lookup_insert_eq| |done].
  intros nid' Hn. by rewrite H2, lookup_insert_ne.
Qed.

Lemma runs_node_operation req env clusterId nid s :
  env_ok env -> sys_ok s -> runs (node_operation req env clusterId nid) s (op_post s (fun _ s' => node_done s nid req s')).
Proof.
  intros He Hs. assert (Hmono : forall A (m : M Sys A) P Q, runs m s (op_post s P) ->
    (forall x s', P x s' -> Q x s') -> runs m s (op_post s Q)).
  { intros A m P Q Hm HPQ. eapply runs_mono; [exact Hm|]. intros [x|c| |] s' Hx; simpl in *; auto. }
  destruct req as [| |type| |mode tags]; simpl.
  - eapply Hmono; [by apply runs_EnableDisable|]. intros _ s' (Hself & w & Hw & w' & Hch & Hst).
    eapply node_done_insert; [done|]. split_and!; [done|by exists w|]. exists w'. split; [done|]. rewrite Hst. split; done.
  - eapply Hmono; [by apply runs_EnableDisable|]. intros _ s' (Hself & w & Hw & w' & Hch & Hst).
    eapply node_done_insert; [done|]. split_and!; [done|by exists w|]. exists w'. split; [done|]. rewrite Hst. split; done.
  - eapply Hmono; [by apply runs_RegisterNode|]. intros _ s' (Hz & Hn & w & Hb & Hch).
    eapply node_done_insert; [done|]. split_and!; [done..|]. by exists w.
  - eapply Hmono; [by apply runs_UnregisterNode|]. intros _ s' ([H1 H2 H3 H4] & w & Hw & Hst & Href). split; [done| | |done].
    + rewrite H2, lookup_delete_eq. split; [done|]. by exists w.
    + intros nid' Hn. by rewrite H2, lookup_delete_ne.
  - apply runs_bind. eapply runs_mono; [by apply runs_SetNodeTags|]. intros [n|c| |] s' Hx; cbv beta iota delta [andThen]; simpl in Hx; [|done..].
    mstep. destruct Hx as (w & Hw & Ht & _ & Hch). eapply node_done_insert; [done|]. exists w, n. by split_and!.
Qed.

(** C23: While memory and store agree and nobody else writes the primary's part
    of the store, enabling, disabling, registering, unregistering and tagging
    a node never abort; an error leaves memory alone; success changes exactly
    that node as asked, in memory and store: only a disabled or failed node
    that holds no target is removed, and a process does not enable or disable
    itself. *)
Theorem node_operations_correct (req : NodeRequest) (env : OpEnv) (clusterId : string) (nid : NodeId) (s : Sys)
    (Henv : env_ok env) (Hs : sys_ok s) :
  let '(o, s') := node_operation req env clusterId nid s in
  op_post s (fun _ s' => node_done s nid req s') o s'.
Proof. apply runs_result. by apply runs_node_operation. Qed.

Lemma node_operations_correct_witness :
  let s := sample_sys sample_ri in
  let '(o, s') := node_operation ReqDisable sample_env "stage" 10 s in
  o = Ok tt /\ node_done s 10 ReqDisable s'.
Proof.
  cbv zeta. pose proof (node_operations_correct ReqDisable sample_env "stage" 10 (sample_sys sample_ri) sample_env_ok sample_sys_ok) as H.
  assert (Ho : fst (node_operation ReqDisable sample_env "stage" 10 (sample_sys sample_ri)) = Ok tt) by (vm_compute; reflexivity).
  destruct (node_operation _ _ _ _ _) as [o s']. simpl in Ho. subst o. split; [reflexivity|exact H].
Defined.

(** ** Heartbeats *)

(** C22: A heartbeat never aborts; an error leaves memory alone.  It is accepted
    only if it is newer than the last one of a node that is not disabled; then
    the node is connected with its new address and version, the reported
    targets are recorded and no others change, memory and store agree, no chain
    changes, and the reply carries the latest configuration exactly if the node
    has an older one. *)
Theorem heartbeat_correct (env : OpEnv) (clusterId : string) (hb : HeartbeatInfo) (timestamp : UtcTime) (s : Sys)
    (Henv : env_ok env) (Hs : sys_ok s) :
  let '(o, s') := HeartbeatOperation env clusterId hb timestamp s in
  op_post s (fun cfg s' =>
    heartbeat_accepted env hb s s' /\
    exists c, latest_config (ms_data (sy_mem s)) (hb_type hb) c /\ hb_configVersion hb <= cfg_configVersion c /\
      cfg = if bool_decide (hb_configVersion hb < cfg_configVersion c) then Some c else None) o s'.
Proof. apply runs_result. by apply runs_Heartbeat. Qed.

(** The heartbeat checker never aborts and writes only memory: exactly the
    connected nodes and alive targets not heard of for longer than the interval
    are marked failed and offline. *)
Theorem heartbeat_checker_correct (env : OpEnv) (later : SteadyTime) (s : Sys) (Hs : sys_ok s) :
  let '(o, s') := HeartbeatChecker_check env later s in
  op_post s (fun _ s' => sys_ok s' /\
    checked (cf_heartbeat_fail_interval (ms_config (sy_mem s))) (oe_steadyNow env) later (sys_ri s) (sys_ri s') /\
    sy_store s' = sy_store s) o s'.
Proof. apply runs_result. by apply runs_HeartbeatChecker. Qed.

(** The storage node of the sample reports its two targets. *)
Definition sample_heartbeat : HeartbeatInfo :=
  mkHeartbeatInfo (StorageHeartbeatInfo [mkLocalTargetInfo 101 LS_UPTODATE (Some 0) 4096 1 false; mkLocalTargetInfo 102 LS_ONLINE (Some 1) 0 1 false])
    (mkFbsAppInfo 10 "host10" 77 [] ReleaseVersion_default "") 1 0 CS_NORMAL.

Lemma heartbeat_correct_witness :
  let s := sample_sys sample_ri in
  let '(o, s') := HeartbeatOperation sample_env "stage" sample_heartbeat 1000 s in
  o = Ok None /\ heartbeat_accepted sample_env sample_heartbeat s s'.
Proof.
  cbv zeta. pose proof (heartbeat_correct sample_env "stage" sample_heartbeat 1000 (sample_sys sample_ri) sample_env_ok sample_sys_ok) as H.
  assert (Ho : fst (HeartbeatOperation sample_env "stage" sample_heartbeat 1000 (sample_sys sample_ri)) = Ok None) by (vm_compute; reflexivity).
  destruct (HeartbeatOperation _ _ _ _ _) as [o s']. simpl in Ho. subst o. split; [reflexivity|exact (proj1 H)].
Defined.

Definition late_env : OpEnv := mkOpEnv 1000 1000 100000000 (Ok true) [].

Lemma heartbeat_checker_correct_witness :
  let s := snd (HeartbeatOperation sample_env "stage" sample_heartbeat 1000 (sample_sys sample_ri)) in
  sys_ok s /\
  let '(o, s') := HeartbeatChecker_check late_env 100000001 s in
  sys_ok s' /\ checked (cf_heartbeat_fail_interval (ms_config (sy_mem s))) 100000000 100000001 (sys_ri s) (sys_ri s') /\
  (ni_status ∘ nw_base) <$> ri_nodeMap (sys_ri s') !! 10 = Some HEARTBEAT_FAILED.
Proof.
  cbv zeta. set (s := snd (HeartbeatOperation _ _ _ _ _)).
  assert (Hs : sys_ok s).
  { pose proof (runs_Heartbeat sample_env "stage" sample_heartbeat 1000 (sample_sys sample_ri) sample_env_ok sample_sys_ok) as H.
    unfold runs in H. fold s in H. assert (Ho : fst (HeartbeatOperation sample_env "stage" sample_heartbeat 1000 (sample_sys sample_ri)) = Ok None)
      by (vm_compute; reflexivity). rewrite Ho in H. apply (ha_ok _ _ _ _ (proj1 H)). }
  split; [exact Hs|]. pose proof (heartbeat_checker_correct late_env 100000001 s Hs) as H.
  assert (Ho : fst (HeartbeatChecker_check late_env 100000001 s) = Ok tt) by (vm_compute; reflexivity).
  assert (Hst : (ni_status ∘ nw_base) <$> ri_nodeMap (sys_ri (snd (HeartbeatChecker_check late_env 100000001 s))) !! 10 = Some HEARTBEAT_FAILED)
    by (vm_compute; reflexivity).
  destruct (HeartbeatChecker_check _ _ _) as [o s']. cbn [fst snd] in *. subst o. destruct H as (H1 & H2 & _).
  split; [exact H1|]. split; [exact H2|exact Hst].
Defined.
