(* ===== verification/AdminTheorems.v ===== *)
(** * Correctness of configurations, universal tags, client sessions and queries *)

From stdpp Require Import base list gmap sorting strings.
From Stdlib Require Import ZArith Lia.
From S2P Require Import Prelude StatusCode RingBuffer MgmtdTypes UpdateChain ChainProtocol RoutingInfo MgmtdState Transaction ChainOps NodeOps AdminOps ChainInvariant Coherence ChainTheorems NodeInvariant.

(** ** Configurations *)

(** A configuration of type [t] added as version [v]. *)
Record config_added (s : Sys) (t : NodeType) (c : ConfigInfo) (s' : Sys) : Prop := {
  ca_ok : sys_ok s';
  ca_latest : latest_config (ms_data (sy_mem s')) t c;
  ca_others : forall t' v, (t', v) <> (t, cfg_configVersion c) ->
    (md_configMap (ms_data (sy_mem s')) !! t' ≫= fun m => m !! v) = (md_configMap (ms_data (sy_mem s)) !! t' ≫= fun m => m !! v);
  ca_chains : ri_chains (sys_ri s') = ri_chains (sys_ri s)
}.

Definition add_config (t : NodeType) (c : ConfigInfo) (configs : gmap NodeType (gmap ConfigVersion ConfigInfo))
    : gmap NodeType (gmap ConfigVersion ConfigInfo) :=
  <[t := <[cfg_configVersion c := c]> (default ∅ (configs !! t))]> configs.

Lemma configs_agree_add stored mem t c :
  configs_agree stored mem -> configs_agree (<[(t, cfg_configVersion c) := c]> stored) (add_config t c mem).
Proof.
  intros Ha t'. unfold add_config. rewrite lookup_insert. case_decide as E.
  - subst t'. destruct (Ha t) as (m & -> & Hm). eexists. split; [done|]. simpl. intros v. rewrite !lookup_insert.
    case_decide as E; [subst v; by rewrite decide_True|]. rewrite decide_False by congruence. apply Hm.
  - destruct (Ha t') as (m & -> & Hm). eexists. split; [done|]. intros v. rewrite lookup_insert_ne by congruence. apply Hm.
Qed.

Lemma add_config_others t c configs t' v :
  (t', v) <> (t, cfg_configVersion c) ->
  (add_config t c configs !! t' ≫= fun m => m !! v) = (configs !! t' ≫= fun m => m !! v).
Proof.
  intros Hne. unfold add_config. rewrite lookup_insert. case_decide as E; [|done]. subst t'. simpl.
  rewrite lookup_insert_ne by congruence. by destruct (configs !! t).
Qed.

Lemma add_config_latest (d : MgmtdData) t c0 c :
  latest_config d t c0 -> cfg_configVersion c0 < cfg_configVersion c ->
  rbegin (<[cfg_configVersion c := c]> (default ∅ (md_configMap d !! t))) = Some (cfg_configVersion c, c).
Proof.
  intros (m & Hm & Hr) Hlt. rewrite Hm. simpl. pose proof (rbegin_spec m) as Hs. rewrite Hr in Hs. destruct Hs as [_ Hmax].
  pose proof (rbegin_spec (<[cfg_configVersion c := c]> m)) as Hs'. destruct (rbegin (<[cfg_configVersion c := c]> m)) as [[k v]|].
  - destruct Hs' as [Hk Hmax']. pose proof (Hmax' (cfg_configVersion c) ltac:(rewrite lookup_insert_eq; by eexists)) as H1.
    rewrite lookup_insert in Hk. case_decide as E; [by simplify_eq|]. specialize (Hmax k ltac:(by eexists)). lia.
  - by apply insert_non_empty in Hs'.
Qed.

(** A manager's own entry, which [SetConfig] for managers updates. *)
Definition self_behind (s : Sys) (v : ConfigVersion) : Prop :=
  exists w, ri_nodeMap (sys_ri s) !! ms_selfId (sy_mem s) = Some w /\ ni_configVersion (nw_base w) < v.

Lemma coherent_self_config r d nid w v :
  coherent r d -> ri_nodeMap r !! nid = Some w ->
  coherent (set_ri_nodeMap (<[nid := set_nw_base (set_ni_configVersion v (nw_base w)) w]> (ri_nodeMap r)) r) d.
Proof.
  intros Hc Hw. pose proof (coherent_nodes_ok _ _ Hc) as Hnm. pose proof (rw_node _ (ch_wf _ _ Hc) _ _ Hw) as Hid.
  pose proof (ch_node_ok _ _ Hc _ _ Hw) as [Hd Ht].
  assert (Hnm' : nodes_ok (<[nid := set_nw_base (set_ni_configVersion v (nw_base w)) w]> (ri_nodeMap r)))
    by (apply nodes_ok_insert; [done|done|by split]).
  eapply coherent_nodes; [exact Hc|..]; try done.
  - apply ri_wf_nodeMap; [apply (ch_wf _ _ Hc)|apply (nm_id _ Hnm')].
  - simpl. rewrite fmap_insert, <- (ch_nodes _ _ Hc). symmetry. apply insert_id. rewrite (ch_nodes _ _ Hc), lookup_fmap, Hw. done.
  - apply (ch_version _ _ Hc).
Qed.

Lemma runs_promoteSelfConfig updater now v s st (Q : outcome unit -> Sys -> Prop) :
  self_behind s v -> sys_ok (mkSys (sy_mem s) st) ->
  (forall s', sys_ok s' -> ms_data (sy_mem s') = ms_data (sy_mem s) \/
     (exists nm, ms_data (sy_mem s') = set_md_routingInfo (set_ri_nodeMap nm (sys_ri s)) (ms_data (sy_mem s))) -> sy_store s' = st -> Q (Ok tt) s') ->
  runs (promoteSelfConfig updater now v) (mkSys (sy_mem s) st) Q.
Proof.
  intros (w & Hw & Hlt) Hs HQ. unfold promoteSelfConfig. mstep; [|by apply HQ; [|left|]]. mstep. unfold onMem. mstep. mstep. mstep. mstep. mstep. mstep.
  cbn [sy_mem ms_selfId set_ms_selfNodeInfo set_sy_mem]. change (ri_nodeMap (sys_ri _)) with (ri_nodeMap (sys_ri s)). rewrite Hw. mstep. mstep.
  { apply bool_decide_eq_true in H0. lia. }
  mstep. apply runs_onRouting. apply runs_updateNode. change (nodeEntry now ?n (sys_ri _)) with (nodeEntry now n (sys_ri s)).
  rewrite (nodeEntry_Some _ _ _ _ Hw). apply HQ; [|by right; eexists|done].
  pose proof (coherent_self_config _ _ _ _ v (so_ri _ Hs) Hw) as Hc. destruct Hs as [H1 H2 H3 H4 H5]. by split.
Qed.

(** What has been stored and put in memory is in agreement. *)
Lemma sys_ok_config s t c c0 st :
  sys_ok s -> latest_config (ms_data (sy_mem s)) t c0 -> cfg_configVersion c0 < cfg_configVersion c ->
  durable st = set_st_configs (<[(t, cfg_configVersion c) := c]> (st_configs (durable (sy_store s)))) (durable (sy_store s)) ->
  config_added s t c (mkSys (set_ms_data (set_md_configMap (add_config t c (md_configMap (ms_data (sy_mem s)))) (ms_data (sy_mem s))) (sy_mem s)) st).
Proof.
  intros [H1 H2 H3 H4 H5] Hl Hlt Hd. split.
  - split; cbn [sy_store sy_mem]; rewrite ?Hd; cbn [st_configs st_tags set_st_configs]; try done.
    + change (sys_ri _) with (sys_ri s). destruct H1 as [C1 C2 C3 C4 C5 C6 C7]. by split.
    + by apply configs_agree_add.
    + intros t' v c'. rewrite lookup_insert. case_decide as E; [|apply H3]. by intros [= <-]; injection E as -> ->.
  - eexists. simpl. unfold add_config. rewrite lookup_insert_eq. split; [done|]. by eapply add_config_latest.
  - intros t' v Hne. simpl. by apply add_config_others.
  - done.
Qed.

Lemma runs_SetConfig env clusterId t content desc updater s :
  env_ok env -> sys_ok s ->
  (forall c, latest_config (ms_data (sy_mem s)) t c -> 0 <= cfg_configVersion c < 2 ^ 64 - 1) ->
  (t = NT_MGMTD -> forall c, latest_config (ms_data (sy_mem s)) t c -> self_behind s (cfg_configVersion c + 1)) ->
  runs (SetConfigOperation env clusterId t content desc updater) s (op_post s (fun v s' =>
    exists c, latest_config (ms_data (sy_mem s)) t c /\ v = cfg_configVersion c + 1 /\ config_added s t (mkConfigInfo v content desc) s')).
Proof.
  intros He Hs Hb Hself. unfold SetConfigOperation. apply runs_validated; [done|]. apply runs_asPrimary.
  apply runs_bind, runs_getS. cbv beta iota delta [andThen].
  destruct (sys_latest_config s t Hs) as [c Hc]. specialize (Hb c Hc). destruct Hc as (m & Hm & Hr). rewrite Hm, Hr. cbv zeta.
  assert (Hv : nextVersion64 (cfg_configVersion c) = cfg_configVersion c + 1)
    by (unfold nextVersion64, u64, wrap; rewrite Z.mod_small; lia).
  rewrite Hv. set (v := cfg_configVersion c + 1) in *. set (info := mkConfigInfo v content desc).
  apply runs_bind. eapply runs_mono.
  { apply (runs_withReadWriteTxn _ _ _ _ (eo_quiet _ He) (blind_storeConfig t info)).
    intros d. unfold set_st_configs. simpl. by rewrite insert_insert_eq. }
  intros o s1 [Hmem Hf _ Hd _]. destruct o as [[]|e| |]; cbv beta iota delta [andThen]; [|done..].
  specialize (Hd eq_refl). destruct s1 as [mem st]. cbn [sy_mem sy_store] in *. subst mem.
  assert (Hl : latest_config (ms_data (sy_mem s)) t c) by (by exists m).
  pose proof (sys_ok_config s t info c st Hs Hl ltac:(simpl; lia) Hd) as [A1 A2 A3 A4].
  unfold onData, onMem. mstep. mstep. mstep. mstep. mstep. cbn [sy_mem sy_store set_sy_mem].
  fold (add_config t info (md_configMap (ms_data (sy_mem s)))).
  set (s2 := mkSys _ st) in *. mstep. mstep; [|mstep; exists c; by split_and!].
  apply bool_decide_eq_true in H. destruct (Hself H c Hl) as (w & Hw & Hlt).
  eapply (runs_promoteSelfConfig updater _ v s2 st); [by exists w|done|]. intros s' Hok Hdata Hst.
  mstep. exists c. split_and!; [done..|]. destruct s' as [mem' st']. simpl in *. unfold sys_ri in *. simpl in *.
  destruct Hdata as [E|[nm E]]; (split; [done|..]); unfold sys_ri, latest_config; simpl; rewrite E; done.
Qed.

(** [SetConfig] never aborts, if a manager's own entry is behind the new
    version when managers are configured; an error leaves memory alone; success
    adds the configuration under the version after the latest one, in memory
    and store, and changes no other version. *)
Theorem set_config_correct (env : OpEnv) (clusterId : string) (t : NodeType) (content desc : string)
    (updater : option (outcome unit)) (s : Sys) (Henv : env_ok env) (Hs : sys_ok s)
    (Hbound : forall c, latest_config (ms_data (sy_mem s)) t c -> 0 <= cfg_configVersion c < 2 ^ 64 - 1)
    (Hself : t = NT_MGMTD -> forall c, latest_config (ms_data (sy_mem s)) t c -> self_behind s (cfg_configVersion c + 1)) :
  let '(o, s') := SetConfigOperation env clusterId t content desc updater s in
  op_post s (fun v s' => exists c, latest_config (ms_data (sy_mem s)) t c /\ v = cfg_configVersion c + 1 /\
    config_added s t (mkConfigInfo v content desc) s') o s'.
Proof. apply runs_result. by apply runs_SetConfig. Qed.

Lemma sample_latest t c : latest_config (ms_data (sample_mem sample_ri)) t c -> c = ConfigInfo_default.
Proof. intros (m & Hm & Hr). destruct t; vm_compute in Hm; injection Hm as <-; vm_compute in Hr; by injection Hr as _ <-. Qed.

Lemma set_config_correct_witness :
  let s := sample_sys sample_ri in
  let '(o, s') := SetConfigOperation sample_env "stage" NT_MGMTD "threads = 4" "first" (Some (Ok tt)) s in
  o = Ok 1 /\ config_added s NT_MGMTD (mkConfigInfo 1 "threads = 4" "first") s'.
Proof.
  cbv zeta. pose proof (set_config_correct sample_env "stage" NT_MGMTD "threads = 4" "first" (Some (Ok tt)) (sample_sys sample_ri)
    sample_env_ok sample_sys_ok) as H.
  lapply H; [clear H; intros H|intros c ->%sample_latest; vm_compute; by split].
  lapply H; [clear H; intros H|intros _ c ->%sample_latest; by eexists].
  assert (Ho : fst (SetConfigOperation sample_env "stage" NT_MGMTD "threads = 4" "first" (Some (Ok tt)) (sample_sys sample_ri)) = Ok 1)
    by (vm_compute; reflexivity).
  destruct (SetConfigOperation _ _ _ _ _ _ _) as [o s']. cbn [fst] in Ho. subst o. destruct H as (c & _ & _ & H). by split.
Defined.

(** ** Universal tags *)

(** A transaction whose handler always fails. *)
Lemma runs_failing_txn attempts (h : Attempt -> M Store unit) s :
  (forall a st, exists c, fst (h a st) = Err c) ->
  runs (withReadWriteTxn attempts true h) s (fun o s' => sy_mem s' = sy_mem s /\ o <> Ok tt /\ o <> Fatal).
Proof.
  intros Hh. unfold runs, withReadWriteTxn, withReadWriteTxn_local. cbv zeta.
  destruct (txn_loop _ _ _ _ _ _ _) as [o [[] st]] eqn:E.
  assert (Hp : loop_post (fun _ => True) (fun (_ : unit) _ => False) False o (tt, st)).
  { refine (txn_loop_keeps _ _ _ _ _ _ _ _ _ _ _ _ _ _ E); [|done]. clear E.
    apply Forall_forall. intros a _ [] st1 _. split; [done|]. unfold txn_body. mstep.
    assert (Hbody : forall st, runs (inStore (L := unit) (h a)) (tt, st) (fun o ls' => match o with
      | Ok x => True /\ False /\ forall c, at_commit a = CommitErr c false -> True | Fatal => False /\ True | _ => True end)).
    { intros st2. apply runs_zoom. unfold runs. cbn [snd]. by destruct (Hh a st2) as [c ->]. }
    mstep; [|mstep; apply Hbody]. apply runs_zoom. eapply runs_mono; [apply runs_ensureLeaseValid|].
    intros o1 s1 (-> & [[-> _]|[-> _]]); mstep; [apply Hbody|done]. }
  destruct Hp as [_ HQ]. destruct o; by simpl in *.
Qed.

Lemma runs_SetUniversalTags env clusterId id mode tags s :
  env_ok env -> sys_ok s ->
  runs (SetUniversalTagsOperation env clusterId id mode tags) s (op_post s (fun new s' =>
    sys_ok s' /\ sys_ri s' = sys_ri s /\
    updateTags mode (default [] (md_universalTagsMap (ms_data (sy_mem s)) !! id)) tags = Ok new /\
    default [] (md_universalTagsMap (ms_data (sy_mem s')) !! id) = new /\
    forall id', id' <> id -> md_universalTagsMap (ms_data (sy_mem s')) !! id' = md_universalTagsMap (ms_data (sy_mem s)) !! id')).
Proof.
  intros He Hs. unfold SetUniversalTagsOperation. apply runs_validated; [done|]. apply runs_checked. intros _. apply runs_asPrimary.
  apply runs_bind, runs_getS. cbv beta iota delta [andThen]. set (old := default [] _).
  apply runs_bind, runs_lift. destruct (updateTags_total mode old tags) as [[new Hnew]|[c ->]]; [|done].
  rewrite Hnew. cbv beta iota delta [andThen]. case_bool_decide as E.
  { mstep. by subst new. }
  destruct (decide (id = "")) as [Hid|Hid].
  - apply runs_bind. unfold updateStoredRoutingInfo. mstep. mstep. mstep.
    eapply runs_mono; [apply runs_failing_txn|].
    + intros a st. exists kInvalidArg. unfold storeUniversalTags, storeRoutingInfoVersion. unfold_M. by rewrite (bool_decide_eq_true_2 _ Hid).
    + intros [[]|c| |] s' (Hm & Ho & Hf); done.
  - eapply (runs_store_then _ _ (fun d => set_st_tags (<[id := new]> (st_tags d)) d)); [apply (eo_quiet _ He)| | |].
    + intros a st. unfold storeUniversalTags. unfold_M. rewrite (bool_decide_eq_false_2 _ Hid). eexists. by split_and!.
    + intros d. unfold set_st_tags, set_st_version. simpl. by rewrite insert_insert_eq.
    + intros st Hst. unfold onData, onMem. mstep. mstep. mstep. mstep. mstep. mstep.
      split_and!; [|done|done|simpl; by rewrite lookup_insert_eq|intros id' Hn; simpl; by rewrite lookup_insert_ne].
      destruct Hs as [[C1 C2 C3 C4 C5 C6 C7] H2 H3 H4 H5]. split; cbn [sy_store sy_mem set_sy_mem]; rewrite Hst; try done.
      * change (sys_ri _) with (sys_ri s). split; try done. by right.
      * cbn [st_tags set_st_tags set_st_version]. by rewrite H4.
      * cbn [st_tags set_st_tags set_st_version]. by rewrite lookup_insert_ne.
Qed.

(** [SetUniversalTags] never aborts; an error, which an empty id always
    gives when it would change something, leaves memory alone; success sets the
    tags of that id, in memory and store, to the old ones updated in the
    requested mode. *)
Theorem set_universal_tags_correct (env : OpEnv) (clusterId id : string) (mode : SetTagMode) (tags : list TagPair) (s : Sys)
    (Henv : env_ok env) (Hs : sys_ok s) :
  let '(o, s') := SetUniversalTagsOperation env clusterId id mode tags s in
  op_post s (fun new s' =>
    sys_ok s' /\ sys_ri s' = sys_ri s /\
    updateTags mode (default [] (md_universalTagsMap (ms_data (sy_mem s)) !! id)) tags = Ok new /\
    default [] (md_universalTagsMap (ms_data (sy_mem s')) !! id) = new /\
    forall id', id' <> id -> md_universalTagsMap (ms_data (sy_mem s')) !! id' = md_universalTagsMap (ms_data (sy_mem s)) !! id') o s'.
Proof. apply runs_result. by apply runs_SetUniversalTags. Qed.

Lemma set_universal_tags_correct_witness :
  let s := sample_sys sample_ri in
  let '(o, s') := SetUniversalTagsOperation sample_env "stage" "host7" UPSERT [mkTagPair "zone" "a"] s in
  o = Ok [mkTagPair "zone" "a"] /\ sys_ok s'.
Proof.
  cbv zeta. pose proof (set_universal_tags_correct sample_env "stage" "host7" UPSERT [mkTagPair "zone" "a"] (sample_sys sample_ri)
    sample_env_ok sample_sys_ok) as H.
  assert (Ho : fst (SetUniversalTagsOperation sample_env "stage" "host7" UPSERT [mkTagPair "zone" "a"] (sample_sys sample_ri)) = Ok [mkTagPair "zone" "a"])
    by (vm_compute; reflexivity).
  destruct (SetUniversalTagsOperation _ _ _ _ _ _) as [o s']. cbn [fst] in Ho. subst o. split; [reflexivity|exact (proj1 H)].
Defined.

(** ** Client sessions *)

(** The reply to a client with configuration [v]. *)
Definition config_reply (d : MgmtdData) (t : NodeType) (v : ConfigVersion) (cfg : option ConfigInfo) : Prop :=
  exists c, latest_config d t c /\ v <= cfg_configVersion c /\ cfg = if bool_decide (v < cfg_configVersion c) then Some c else None.

Definition session_extended (req : ExtendClientSessionReq) (utcNow : UtcTime) (steadyNow : SteadyTime)
    (old : option ClientSession) (new : ClientSession) : Prop :=
  cse_ts new = steadyNow /\ fcs_lastExtend (cse_base new) = utcNow /\ fcs_configVersion (cse_base new) = ecs_configVersion req /\
  match old with
  | None => cse_base new = ClientSession_of_req req utcNow
  | Some cur =>
      cse_clientSessionVersion cur < cse_clientSessionVersion new /\ cse_clientSessionVersion new = ecs_clientSessionVersion req /\
      fcs_start (cse_base new) = fcs_start (cse_base cur) /\
      fcs_universalId (cse_base cur) = csd_universalId (ecs_data req) /\ fcs_clientStart (cse_base cur) = ecs_clientStart req /\
      fcs_type (cse_base cur) = ecs_type req
  end.

Lemma unexpectedChange_false base req :
  unexpectedChange base req = Ok false ->
  fcs_universalId base = csd_universalId (ecs_data req) /\ fcs_clientStart base = ecs_clientStart req /\ fcs_type base = ecs_type req.
Proof.
  unfold unexpectedChange. repeat (case_bool_decide; [done|]). destruct (rv_equal _ _) as [[]|]; try done.
  case_bool_decide; [done|]. intros [= E]. by apply bool_decide_eq_false, dec_stable in E.
Qed.

Lemma unexpectedChange_cases base req :
  (exists b, unexpectedChange base req = Ok b) \/
  (unexpectedChange base req = Fatal /\ rv_equal (fcs_releaseVersion base) (csd_releaseVersion (ecs_data req)) = None).
Proof. unfold unexpectedChange. repeat case_match; eauto. Qed.

Lemma runs_extendSession req utcNow steadyNow s :
  let sessions := ms_clientSessionMap (sy_mem s) in
  runs (extendSession req utcNow steadyNow) s (fun o s' => match o with
    | Ok _ => sy_store s' = sy_store s /\ ms_data (sy_mem s') = ms_data (sy_mem s) /\
        exists new, ms_clientSessionMap (sy_mem s') = <[ecs_clientId req := new]> sessions /\
          session_extended req utcNow steadyNow (sessions !! ecs_clientId req) new
    | Err _ => s' = s
    | Fatal => exists cur, sessions !! ecs_clientId req = Some cur /\
        rv_equal (fcs_releaseVersion (cse_base cur)) (csd_releaseVersion (ecs_data req)) = None
    | Pending => False
    end).
Proof.
  intros sessions. unfold extendSession, onMem. mstep. mstep. mstep. fold sessions. destruct (sessions !! ecs_clientId req) as [cur|] eqn:Ec.
  - mstep. mstep; [done|]. apply bool_decide_eq_false in H. mstep. mstep. mstep.
    destruct (unexpectedChange_cases (cse_base cur) req) as [[b Eb]|[Eb Er]]; rewrite Eb; [|by exists cur]. mstep. mstep. mstep; [done|]. subst b.
    apply unexpectedChange_false in Eb as (U1 & U2 & U3). mstep. mstep. mstep. split_and!; [done..|]. eexists. split; [done|].
    unfold session_extended. simpl. split_and!; [done..|lia|done|done|done|done|done].
  - mstep. mstep. split_and!; [done..|]. eexists. split; [done|]. by split_and!.
Qed.

Lemma runs_ExtendClientSession isHexUuid env clusterId req s :
  sys_ok s -> let sessions := ms_clientSessionMap (sy_mem s) in
  runs (ExtendClientSessionOperation isHexUuid env clusterId req) s (fun o s' => match o with
    | Ok (cfg, tags) =>
        sy_store s' = sy_store s /\ ms_data (sy_mem s') = ms_data (sy_mem s) /\
        config_reply (ms_data (sy_mem s)) (ecs_type req) (ecs_configVersion req) cfg /\
        exists new, ms_clientSessionMap (sy_mem s') = <[ecs_clientId req := new]> sessions /\
          session_extended req (oe_utcStart env) (oe_steadyNow env) (sessions !! ecs_clientId req) new
    | Err _ => s' = s
    | Fatal => exists cur, sessions !! ecs_clientId req = Some cur /\
        rv_equal (fcs_releaseVersion (cse_base cur)) (csd_releaseVersion (ecs_data req)) = None
    | Pending => False
    end).
Proof.
  intros Hs sessions. unfold ExtendClientSessionOperation, validateClusterId, getConfigItem, doAsPrimary, ensureSelfIsPrimary.
  msteps; try done. destruct (currentLease _ _) as [l|]; msteps; try done.
  destruct (sys_latest_config s (ecs_type req) Hs) as [c Hc]. unfold onData, onMem. mstep. mstep.
  assert (Hsame : set_sy_mem (set_ms_data (ms_data (sy_mem s)) (sy_mem s)) s = s) by (by destruct s as [[] ?]).
  eapply runs_checkConfigVersion; [exact Hc| |by mstep; rewrite Hsame]. intros Hle. mstep. rewrite Hsame. mstep. mstep. mstep.
  eapply runs_getConfig_latest; [exact Hc|done|]. mstep. rewrite Hsame. mstep. mstep. mstep. mstep.
  eapply runs_mono; [apply runs_extendSession|]. intros [[]|e| |] s' Hx; mstep; try done.
  mstep. destruct Hx as (H1' & H2' & new & H3' & H4'). split_and!; [done|done| |by exists new]. by exists c.
Qed.

(** Extending a client session changes only that session: a new one is made
    from the request; a known one is extended only by a request with a newer
    version and the same identity, whose version it takes.  An error changes
    nothing, and the only abort is a release version of unknown layout. *)
Theorem extend_client_session_correct (isHexUuid : string -> bool) (env : OpEnv) (clusterId : string)
    (req : ExtendClientSessionReq) (s : Sys) (Hs : sys_ok s) :
  let sessions := ms_clientSessionMap (sy_mem s) in
  let '(o, s') := ExtendClientSessionOperation isHexUuid env clusterId req s in
  match o with
  | Ok (cfg, tags) =>
      sy_store s' = sy_store s /\ ms_data (sy_mem s') = ms_data (sy_mem s) /\
      config_reply (ms_data (sy_mem s)) (ecs_type req) (ecs_configVersion req) cfg /\
      exists new, ms_clientSessionMap (sy_mem s') = <[ecs_clientId req := new]> sessions /\
        session_extended req (oe_utcStart env) (oe_steadyNow env) (sessions !! ecs_clientId req) new
  | Err _ => s' = s
  | Fatal => exists cur, sessions !! ecs_clientId req = Some cur /\
      rv_equal (fcs_releaseVersion (cse_base cur)) (csd_releaseVersion (ecs_data req)) = None
  | Pending => False
  end.
Proof. cbv zeta. apply runs_result. by apply runs_ExtendClientSession. Qed.

Definition sample_request (version : ClientSessionVersion) : ExtendClientSessionReq :=
  mkExtendClientSessionReq "client-1" version 0 (mkClientSessionData "host7" "fuse" [] ReleaseVersion_default) CS_NORMAL NT_FUSE 5.

Lemma extend_client_session_correct_witness :
  let s := sample_sys sample_ri in
  let '(o, s') := ExtendClientSessionOperation (fun _ => false) sample_env "stage" (sample_request 5) s in
  is_ok o = true /\ exists new, ms_clientSessionMap (sy_mem s') = <["client-1" := new]> (ms_clientSessionMap (sy_mem s)).
Proof.
  cbv zeta. pose proof (extend_client_session_correct (fun _ => false) sample_env "stage" (sample_request 5) (sample_sys sample_ri) sample_sys_ok) as H.
  cbv zeta in H. assert (Ho : is_ok (fst (ExtendClientSessionOperation (fun _ => false) sample_env "stage" (sample_request 5) (sample_sys sample_ri))) = true)
    by (vm_compute; reflexivity).
  destruct (ExtendClientSessionOperation _ _ _ _ _) as [[[cfg tags]|e| |] s']; cbn [fst is_ok] in Ho; try discriminate.
  split; [reflexivity|]. destruct H as (_ & _ & _ & new & H & _). exists new. exact H.
Defined.

(** The first request of a client does not leave its version in the session, so
    the same request is accepted a second time, and only the third is stale. *)
Example first_session_version_not_recorded :
  let extend s := ExtendClientSessionOperation (fun _ => false) sample_env "stage" (sample_request 5) s in
  let '(o1, s1) := extend (sample_sys sample_ri) in
  let '(o2, s2) := extend s1 in
  let '(o3, s3) := extend s2 in
  is_ok o1 = true /\ is_ok o2 = true /\ o3 = Err MgmtdCode_kClientSessionVersionStale.
Proof. vm_compute. split_and!; reflexivity. Qed.

(** ** Routing information for clients *)

(** Whether the reply is a copy made now. *)
Definition reply_fresh (cfg : MgmtdConfig) (version : RoutingInfoVersion) (d : MgmtdData) : Prop :=
  version = 0 \/ cf_enable_routinginfo_cache cfg = false \/
  forall c, md_routingInfoCache d = Some c -> fri_routingInfoVersion c <> ri_routingInfoVersion (md_routingInfo d).

Lemma runs_getRoutingInfo version cfg now d :
  version <= ri_routingInfoVersion (md_routingInfo d) ->
  runs (getRoutingInfo version cfg now) d (fun o d' =>
    (exists c, d' = set_md_cache c d /\ forall c', c = Some c' -> md_routingInfoCache d = Some c' \/ fri_routingInfoVersion c' = ri_routingInfoVersion (md_routingInfo d)) /\
    ((o = Ok None /\ version = ri_routingInfoVersion (md_routingInfo d)) \/
     (exists info, o = Ok (Some info) /\ version < ri_routingInfoVersion (md_routingInfo d) /\
        fri_routingInfoVersion info = ri_routingInfoVersion (md_routingInfo d) /\
        (reply_fresh cfg version d -> info = flattenRoutingInfo (bootstrapping (cf_bootstrapping_length cfg) now d) (md_routingInfo d))))).
Proof.
  intros Hle. unfold getRoutingInfo. mstep. mstep. mstep.
  assert (Hid : forall P : Prop, P -> (exists c, d = set_md_cache c d /\ forall c', c = Some c' -> md_routingInfoCache d = Some c' \/
    fri_routingInfoVersion c' = ri_routingInfoVersion (md_routingInfo d)) /\ P).
  { intros P HP. split; [|done]. exists (md_routingInfoCache d). split; [by destruct d|]. intros c' ->. by left. }
  case_bool_decide as Ev; [mstep; apply Hid; by left|].
  set (hit := if _ && _ then _ else None).
  assert (Hhit : match hit with
    | Some c => md_routingInfoCache d = Some c /\ fri_routingInfoVersion c = ri_routingInfoVersion (md_routingInfo d) /\ ~ reply_fresh cfg version d
    | None => True end).
  { unfold hit. case_bool_decide as Ez; simpl; [done|]. destruct (cf_enable_routinginfo_cache cfg) eqn:Ec; [|done].
    destruct (md_routingInfoCache d) as [c|] eqn:Ed; [|done]. case_bool_decide as Ex; [|done]. split_and!; [done|done|].
    intros [Hf|[Hf|Hf]]; [done|congruence|]. by apply (Hf c). }
  destruct hit as [c|].
  - mstep. apply Hid. right. exists c. split_and!; [done|lia|by apply Hhit|]. intros Hf. by apply Hhit in Hf.
  - mstep. mstep; [mstep|]; mstep; mstep.
    + split; [|right; eexists; split_and!; [done|lia|done|done]]. eexists. split; [done|]. intros c' [= <-]. by right.
    + apply Hid. right. eexists. by split_and!; [done|lia|..].
Qed.

Lemma runs_GetRoutingInfo env clusterId version s :
  let current := ri_routingInfoVersion (sys_ri s) in
  runs (GetRoutingInfoOperation env clusterId version) s (fun o s' =>
  match o with
  | Ok reply =>
      sy_store s' = sy_store s /\ (exists c, ms_data (sy_mem s') = set_md_cache c (ms_data (sy_mem s))) /\
      match reply with
      | None => version = current
      | Some info => version < current /\ fri_routingInfoVersion info = current /\
          (reply_fresh (ms_config (sy_mem s)) version (ms_data (sy_mem s)) ->
           info = flattenRoutingInfo (bootstrapping (cf_bootstrapping_length (ms_config (sy_mem s))) (oe_steadyNow env) (ms_data (sy_mem s))) (sys_ri s))
      end
  | Err c => s' = s /\ (version <= current -> c = MgmtdCode_kClusterIdMismatch \/ c = MgmtdCode_kNotPrimary)
  | _ => False
  end).
Proof.
  intros current. unfold GetRoutingInfoOperation, validateClusterId, getConfigItem, doAsPrimary, ensureSelfIsPrimary.
  msteps; [by auto|]. destruct (currentLease _ _) as [l|]; msteps; try (by auto).
  unfold onData, onMem, checkRoutingInfoVersion. mstep. mstep. mstep. mstep. mstep.
  assert (Hsame : set_sy_mem (set_ms_data (ms_data (sy_mem s)) (sy_mem s)) s = s) by (by destruct s as [[] ?]).
  mstep; [|].
  { rewrite Hsame. split; [done|]. apply bool_decide_eq_true in H1. unfold current, sys_ri. lia. }
  rewrite Hsame. apply bool_decide_eq_false in H1. mstep. mstep. mstep. mstep. mstep.
  eapply runs_mono; [apply runs_getRoutingInfo; lia|]. intros o d' ((c & -> & _) & [[-> Hv]|(info & -> & Hlt & Hv & Hf)]); simpl.
  - split_and!; [done|by exists c|done].
  - split_and!; [done|by exists c|done|done|done].
Qed.

(** [GetRoutingInfo] reports an error for a version that does not exist yet,
    nothing to a client that is up to date, and otherwise a copy that carries
    the current version; the copy is made from the current routing information
    for a client without any, without the cache, or when the cached one is of
    another version.  Nothing but the cache changes. *)
Theorem get_routing_info_correct (env : OpEnv) (clusterId : string) (version : RoutingInfoVersion) (s : Sys) :
  let current := ri_routingInfoVersion (sys_ri s) in
  let '(o, s') := GetRoutingInfoOperation env clusterId version s in
  match o with
  | Ok reply =>
      sy_store s' = sy_store s /\ (exists c, ms_data (sy_mem s') = set_md_cache c (ms_data (sy_mem s))) /\
      match reply with
      | None => version = current
      | Some info => version < current /\ fri_routingInfoVersion info = current /\
          (reply_fresh (ms_config (sy_mem s)) version (ms_data (sy_mem s)) ->
           info = flattenRoutingInfo (bootstrapping (cf_bootstrapping_length (ms_config (sy_mem s))) (oe_steadyNow env) (ms_data (sy_mem s))) (sys_ri s))
      end
  | Err c => s' = s /\ (version <= current -> c = MgmtdCode_kClusterIdMismatch \/ c = MgmtdCode_kNotPrimary)
  | _ => False
  end.
Proof. cbv zeta. apply runs_result. apply runs_GetRoutingInfo. Qed.

(** A request for the latest configuration is not checked against the versions
    that exist: one with a newer version stops the process. *)
Example get_config_of_newer_version_aborts :
  fst (GetConfigOperation sample_env "stage" NT_META 1 false (sample_sys sample_ri)) = Fatal.
Proof. vm_compute. reflexivity. Qed.
