(* ===== verification/Failover.v ===== *)
(** * A new primary reloads the store
    ([src/mgmtd/background/MgmtdLeaseExtender.cc] [onNewLease])

    From the store an earlier primary left, the reload of a new primary gives a
    memory that agrees with the store and has the same chains, tables,
    configurations and tags. *)

From stdpp Require Import base list gmap sorting strings.
From Stdlib Require Import ZArith Lia.
From S2P Require Import Prelude StatusCode RingBuffer MgmtdTypes UpdateChain ChainProtocol RoutingInfo MgmtdState Transaction ChainOps NodeOps LeaseExtender ChainInvariant Coherence ChainTheorems LeaseTheorems NodeInvariant.

(** ** Well-formed stores *)

Record store_wf (d : Store) : Prop := {
  sw_nodes : forall nid n, st_nodes d !! nid = Some n -> pni_nodeId n = nid /\ NoDup (map tp_key (pni_tags n));
  sw_chains : forall cid c, st_chains d !! cid = Some c -> ci_chainId c = cid /\ chain_ok c;
  sw_disjoint : forall cid1 c1 cid2 c2 tid, st_chains d !! cid1 = Some c1 -> st_chains d !! cid2 = Some c2 ->
    tid ∈ chain_ids c1 -> tid ∈ chain_ids c2 -> cid1 = cid2;
  sw_tables : forall t v ct, st_chainTables d !! (t, v) = Some ct -> ct_chainTableId ct = t /\ ct_chainTableVersion ct = v;
  sw_configs : forall t v c, st_configs d !! (t, v) = Some c -> cfg_configVersion c = v;
  sw_tags : st_tags d !! "" = None
}.

(** What a primary leaves is well-formed. *)
Lemma sys_ok_store_wf s : sys_ok s -> store_wf (durable (sy_store s)).
Proof.
  intros [[Hwf Hn Hno Hc Ht Htw Hv] Hcf Hcv Htg Hti]. split; try done.
  - rewrite Hn. intros nid n Hx. apply lookup_fmap_Some in Hx as (w & <- & Hw). split; [by apply (rw_node _ Hwf)|].
    apply (no_tags _ (Hno _ _ Hw)).
  - rewrite Hc. apply (rw_chain _ Hwf).
  - rewrite Hc. intros cid1 c1 cid2 c2 tid H1 H2 Hi1 Hi2. unfold chain_ids in *.
    apply list_elem_of_fmap in Hi1 as (t1 & -> & Hi1), Hi2 as (t2 & E & Hi2).
    destruct (rw_chain_target _ Hwf _ _ _ H1 Hi1) as (ti1 & Hti1 & T1), (rw_chain_target _ Hwf _ _ _ H2 Hi2) as (ti2 & Hti2 & T2).
    rewrite E, Hti2 in Hti1. injection Hti1 as ->. by destruct T1, T2; congruence.
  - intros t v ct. rewrite (Ht t v). destruct (ri_chainTables (sys_ri s) !! t) as [m|] eqn:Em; simpl; [|done].
    by apply (proj2 (Htw _ _ Em)).
Qed.

(** ** Loading *)

(** A fold that collects: [Inv] is kept, and what was collected stays. *)
Lemma foldl_collect {A X} (f : A -> X -> A) (Inv : A -> Prop) (Done : X -> A -> Prop) l a :
  Inv a -> (forall a x, x ∈ l -> Inv a -> Inv (f a x) /\ Done x (f a x)) ->
  (forall a x y, x ∈ l -> y ∈ l -> Inv a -> Done y a -> Done y (f a x)) ->
  Inv (foldl f a l) /\ forall x, x ∈ l -> Done x (foldl f a l).
Proof.
  intros Ha Hstep Hstay.
  assert (H : forall pre post a, l = pre ++ post -> Inv a -> (forall x, x ∈ pre -> Done x a) ->
    Inv (foldl f a post) /\ forall x, x ∈ l -> Done x (foldl f a post)).
  { intros pre post. revert pre. induction post as [|x post IH]; intros pre a0 -> Hi Hd; simpl.
    - split; [done|]. rewrite app_nil_r. done.
    - assert (Hx : x ∈ pre ++ x :: post) by (rewrite elem_of_app; right; left).
      destruct (Hstep a0 x Hx Hi) as [Hi' Hx']. apply (IH (pre ++ [x])); [by rewrite <- app_assoc|done|].
      intros y Hy. apply elem_of_app in Hy as [Hy|Hy]; [|by apply list_elem_of_singleton in Hy as ->].
      apply Hstay; [done| |done|by apply Hd]. rewrite elem_of_app. by left. }
  apply (H [] l a); [done|done|]. intros x Hx. by apply elem_of_nil in Hx.
Qed.

Lemma elem_of_values {K V} `{Countable K} (m : gmap K V) v : v ∈ map snd (map_to_list m) <-> exists k, m !! k = Some v.
Proof.
  change (map snd ?l) with (snd <$> l). rewrite list_elem_of_fmap. split.
  - intros ([k v'] & -> & Hk). exists k. by apply elem_of_map_to_list.
  - intros [k Hk]. exists (k, v). by rewrite elem_of_map_to_list.
Qed.

(** Chains. *)
Lemma load_chains (d : Store) (m : gmap ChainId ChainInfo) :
  store_wf d -> m ⊆ st_chains d ->
  foldl (fun m c => <[ci_chainId c := c]> m) m (map snd (map_to_list (st_chains d))) = st_chains d.
Proof.
  intros Hw Hm. destruct (foldl_collect (fun m c => <[ci_chainId c := c]> m) (fun m => m ⊆ st_chains d)
    (fun c m => m !! ci_chainId c = Some c) (map snd (map_to_list (st_chains d))) m Hm) as [H1 H2].
  - intros m0 c [cid Hc]%elem_of_values Hi. destruct (sw_chains _ Hw _ _ Hc) as [Hid _]. rewrite lookup_insert_eq. split; [|done].
    apply insert_subseteq_l; [by rewrite Hid|done].
  - intros m0 c c' [cid Hc]%elem_of_values [cid' Hc']%elem_of_values _ Hd. rewrite lookup_insert. case_decide as E; [|done].
    destruct (sw_chains _ Hw _ _ Hc), (sw_chains _ Hw _ _ Hc'). congruence.
  - apply (anti_symm (⊆)); [done|]. apply map_subseteq_spec. intros cid c Hc.
    destruct (sw_chains _ Hw _ _ Hc) as [<- _]. apply H2, elem_of_values. eauto.
Qed.

(** Tags. *)
Lemma load_tags (d : Store) (m : gmap string (list TagPair)) :
  m ⊆ st_tags d -> foldl (fun m e => <[fst e := snd e]> m) m (map_to_list (st_tags d)) = st_tags d.
Proof.
  intros Hm. destruct (foldl_collect (fun m (e : string * list TagPair) => <[fst e := snd e]> m) (fun m => m ⊆ st_tags d)
    (fun e m => m !! fst e = Some (snd e)) (map_to_list (st_tags d)) m Hm) as [H1 H2].
  - intros m0 [k v] Hk%elem_of_map_to_list Hi. simpl. rewrite lookup_insert_eq. split; [|done]. by apply insert_subseteq_l.
  - intros m0 [k v] [k' v'] Hk%elem_of_map_to_list Hk'%elem_of_map_to_list _ Hd. simpl in *. rewrite lookup_insert.
    case_decide; [congruence|done].
  - apply (anti_symm (⊆)); [done|]. apply map_subseteq_spec. intros k v Hk. apply (H2 (k, v)). by apply elem_of_map_to_list.
Qed.

(** Tables. *)
Definition tables_sound (stored : gmap (ChainTableId * ChainTableVersion) ChainTable)
    (mem : gmap ChainTableId (gmap ChainTableVersion ChainTable)) : Prop :=
  forall t m, mem !! t = Some m -> m <> ∅ /\ forall v ct, m !! v = Some ct -> stored !! (t, v) = Some ct.

Lemma load_tables (d : Store) mem :
  store_wf d -> tables_sound (st_chainTables d) mem ->
  let mem' := foldl addChainTable mem (map snd (map_to_list (st_chainTables d))) in
  tables_sound (st_chainTables d) mem' /\ tables_agree (st_chainTables d) mem' /\ tables_wf mem'.
Proof.
  intros Hw Hm mem'. destruct (foldl_collect addChainTable (tables_sound (st_chainTables d))
    (fun ct mem => mem !! ct_chainTableId ct ≫= (fun m => m !! ct_chainTableVersion ct) = Some ct)
    (map snd (map_to_list (st_chainTables d))) mem Hm) as [H1 H2].
  - intros m0 ct [[t v] Hct]%elem_of_values Hi. destruct (sw_tables _ Hw _ _ _ Hct) as [<- <-]. unfold addChainTable.
    rewrite lookup_insert_eq. simpl. rewrite lookup_insert_eq. split; [|done]. intros t m. rewrite lookup_insert.
    case_decide as E; [|apply Hi]. subst t. intros [= <-]. split; [apply insert_non_empty|]. intros v ct'. rewrite lookup_insert.
    case_decide; [naive_solver|]. destruct (m0 !! ct_chainTableId ct) as [m|] eqn:Em; simpl; [by apply (proj2 (Hi _ _ Em))|done].
  - intros m0 ct ct' [[t v] Hct]%elem_of_values [[t' v'] Hct']%elem_of_values _ Hd.
    destruct (sw_tables _ Hw _ _ _ Hct) as [<- <-], (sw_tables _ Hw _ _ _ Hct') as [<- <-]. unfold addChainTable.
    rewrite lookup_insert. case_decide as E; [|done]. simpl. rewrite lookup_insert. case_decide as E2; [simpl in *; congruence|].
    rewrite E. by destruct (m0 !! ct_chainTableId ct').
  - split; [done|]. split.
    + intros t v. apply option_eq. intros ct. split.
      * intros Hct. destruct (sw_tables _ Hw _ _ _ Hct) as [<- <-]. apply H2, elem_of_values. eauto.
      * unfold mem'. destruct (foldl _ _ _ !! t) as [m|] eqn:Em; simpl; [|done]. by apply (proj2 (H1 _ _ Em)).
    + intros t m Em. destruct (H1 _ _ Em) as [Hne Hs]. split; [done|]. intros v ct Hct. by eapply sw_tables, Hs.
Qed.

(** Configurations. *)
Definition configs_sound (stored : gmap (NodeType * ConfigVersion) ConfigInfo)
    (mem : gmap NodeType (gmap ConfigVersion ConfigInfo)) : Prop :=
  forall t, exists m, mem !! t = Some m /\ is_Some (m !! 0) /\
    forall v c, m !! v = Some c -> stored !! (t, v) = Some c \/ (v = 0 /\ c = ConfigInfo_default).

Lemma initial_configs_sound stored : configs_sound stored initial_configs.
Proof.
  intros t. exists {[ 0 := ConfigInfo_default ]}. split; [by destruct t|]. split; [by eexists|].
  intros v c Hv. right. by apply lookup_singleton_Some in Hv as [<- <-].
Qed.

Lemma load_configs (d : Store) mem :
  store_wf d -> configs_sound (st_configs d) mem ->
  let mem' := foldl addConfig mem (map (fun kv => (fst (fst kv), snd kv)) (map_to_list (st_configs d))) in
  configs_sound (st_configs d) mem' /\ configs_agree (st_configs d) mem'.
Proof.
  intros Hw Hm mem'.
  assert (Hin : forall e, e ∈ map (fun kv : NodeType * ConfigVersion * ConfigInfo => (fst (fst kv), snd kv)) (map_to_list (st_configs d)) <->
    st_configs d !! (fst e, cfg_configVersion (snd e)) = Some (snd e)).
  { intros [t c]. change (map ?f ?l) with (f <$> l). rewrite list_elem_of_fmap. simpl. split.
    - intros ([[t' v] c'] & [= -> ->] & Hk). apply elem_of_map_to_list in Hk. by rewrite (sw_configs _ Hw _ _ _ Hk).
    - intros Hk. exists (t, cfg_configVersion c, c). by rewrite elem_of_map_to_list. }
  destruct (foldl_collect addConfig (configs_sound (st_configs d))
    (fun e mem => exists m, mem !! fst e = Some m /\ m !! cfg_configVersion (snd e) = Some (snd e))
    (map (fun kv => (fst (fst kv), snd kv)) (map_to_list (st_configs d))) mem Hm) as [H1 H2].
  - intros m0 [t c] Hx%Hin Hi. simpl in *. unfold addConfig. simpl. split.
    + intros t'. rewrite lookup_insert. case_decide as E; [|apply Hi]. subst t'. destruct (Hi t) as (m & Hmt & H0 & Hs).
      rewrite Hmt. simpl. eexists. split; [done|]. split.
      * rewrite lookup_insert. case_decide; [by eexists|done].
      * intros v c'. rewrite lookup_insert. case_decide; [|apply Hs]. intros [= <-]. left. by subst v.
    + eexists. split; [apply lookup_insert_eq|]. apply lookup_insert_eq.
  - intros m0 [t c] [t' c'] Hx%Hin Hy%Hin _ (m & Hmt & Hmc). simpl in *. unfold addConfig. simpl.
    rewrite lookup_insert. case_decide as E; [|by eauto]. subst t'. rewrite Hmt. simpl. eexists. split; [done|].
    rewrite lookup_insert. case_decide as E; [|done]. rewrite E in Hx. congruence.
  - split; [done|]. intros t. destruct (H1 t) as (m & Hmt & [c0 H0] & Hs). exists m. split; [done|]. intros v.
    destruct (st_configs d !! (t, v)) as [c|] eqn:Ec.
    + destruct (H2 (t, c)) as (m' & Hm' & Hc). { apply Hin. simpl. by rewrite (sw_configs _ Hw _ _ _ Ec). }
      simpl in *. rewrite (sw_configs _ Hw _ _ _ Ec) in Hc. unfold mem' in Hmt. congruence.
    + case_decide as E.
      * subst v. destruct (Hs _ _ H0) as [Hx|[_ ->]]; [congruence|done].
      * destruct (m !! v) as [c|] eqn:Ev; [|done]. by destruct (Hs _ _ Ev) as [Hx|[Hx _]]; [congruence|].
Qed.

(** Targets. *)
Definition fresh_target (cid : ChainId) (cti : ChainTargetInfo) (ti : TargetInfo) : Prop :=
  exists ts, ti = TargetInfo_make (makeTargetInfo cid cti) ts ts.

Definition targets_sound (d : Store) (T : gmap TargetId TargetInfo) : Prop :=
  forall tid ti, T !! tid = Some ti ->
    exists cid c cti, st_chains d !! cid = Some c /\ cti ∈ ci_targets c /\ cti_targetId cti = tid /\ fresh_target cid cti ti.

Lemma same_target_id d cid1 c1 t1 cid2 c2 t2 :
  store_wf d -> st_chains d !! cid1 = Some c1 -> st_chains d !! cid2 = Some c2 -> t1 ∈ ci_targets c1 -> t2 ∈ ci_targets c2 ->
  cti_targetId t1 = cti_targetId t2 -> cid1 = cid2 /\ t1 = t2.
Proof.
  intros Hw H1 H2 Hi1 Hi2 E.
  assert (cid1 = cid2) as ->.
  { eapply (sw_disjoint _ Hw _ c1 _ c2 (cti_targetId t1)); [done..| |]; unfold chain_ids;
      [by apply list_elem_of_fmap_2|rewrite E; by apply list_elem_of_fmap_2]. }
  split; [done|]. rewrite H1 in H2. injection H2 as ->. destruct (sw_chains _ Hw _ _ H1) as [_ Hok].
  apply (NoDup_map_inj cti_targetId (ci_targets c2)); [apply (co_ids _ Hok)|done..].
Qed.

(** [cti] of chain [cid] has its entry. *)
Definition target_loaded (e : ChainId * ChainTargetInfo) (T : gmap TargetId TargetInfo) : Prop :=
  exists ti, T !! cti_targetId (snd e) = Some ti /\ fresh_target (fst e) (snd e) ti.

(** The targets of all chains, one after another. *)
Definition flat_targets (cs : list ChainInfo) : list (ChainId * ChainTargetInfo) :=
  concat (map (fun c => map (pair (ci_chainId c)) (ci_targets c)) cs).

Lemma addChainTargets_flat now cs T :
  foldl (addChainTargets now) T cs =
  foldl (fun T e => <[cti_targetId (snd e) := TargetInfo_make (makeTargetInfo (fst e) (snd e)) now now]> T) T (flat_targets cs).
Proof.
  revert T. induction cs as [|c cs IH]; intros T; simpl; [done|]. unfold flat_targets. simpl. rewrite foldl_app, IH. f_equal.
  unfold addChainTargets. generalize (ci_targets c). intros ts. revert T. induction ts as [|t ts IHt]; intros T; simpl; [done|].
  apply IHt.
Qed.

Lemma elem_of_flat_targets d e :
  store_wf d -> e ∈ flat_targets (map snd (map_to_list (st_chains d))) <->
  exists c, st_chains d !! fst e = Some c /\ snd e ∈ ci_targets c.
Proof.
  intros Hw. unfold flat_targets. rewrite list_elem_of_In, in_concat. setoid_rewrite in_map_iff. setoid_rewrite <- list_elem_of_In. split.
  - intros (l & (c & <- & [cid Hc]%elem_of_values) & He). destruct (sw_chains _ Hw _ _ Hc) as [Hid _].
    change (map ?f ?l) with (f <$> l) in He. apply list_elem_of_fmap in He as (t & -> & Ht). simpl. rewrite Hid. eauto.
  - destruct e as [cid t]. simpl. intros (c & Hc & Ht). destruct (sw_chains _ Hw _ _ Hc) as [Hid _]. eexists. split.
    + exists c. split; [done|]. apply elem_of_values. eauto.
    + change (map ?f ?l) with (f <$> l). apply list_elem_of_fmap. exists t. by rewrite Hid.
Qed.

Lemma load_targets now (d : Store) T :
  store_wf d -> targets_sound d T ->
  let T' := foldl (addChainTargets now) T (map snd (map_to_list (st_chains d))) in
  targets_sound d T' /\ forall cid c cti, st_chains d !! cid = Some c -> cti ∈ ci_targets c -> target_loaded (cid, cti) T'.
Proof.
  intros Hw HT T'. unfold T'. rewrite addChainTargets_flat.
  destruct (foldl_collect (fun T (e : ChainId * ChainTargetInfo) =>
      <[cti_targetId (snd e) := TargetInfo_make (makeTargetInfo (fst e) (snd e)) now now]> T)
    (targets_sound d) target_loaded (flat_targets (map snd (map_to_list (st_chains d)))) T HT) as [H1 H2].
  - intros T0 [cid t] (c & Hc & Ht)%(elem_of_flat_targets d) Hi; [|done]. simpl in *. split.
    + intros tid ti. rewrite lookup_insert. case_decide; [|apply Hi]. intros [= <-]. exists cid, c, t. split_and!; [done..|]. by eexists.
    + eexists. simpl. rewrite lookup_insert_eq. split; [done|]. by eexists.
  - intros T0 [cid t] [cid' t'] (c & Hc & Ht)%(elem_of_flat_targets d) (c' & Hc' & Ht')%(elem_of_flat_targets d) _ (ti & Hti & Hf); [|done..].
    unfold target_loaded. simpl in *. rewrite lookup_insert. case_decide as E; [|by eauto].
    destruct (same_target_id d _ _ _ _ _ _ Hw Hc Hc' Ht Ht' E) as [-> ->]. eexists. split; [done|]. by eexists.
  - split; [done|]. intros cid c cti Hc Hi. apply (H2 (cid, cti)), elem_of_flat_targets; [done|]. simpl. eauto.
Qed.

(** Nodes: [self] is the process's own. *)
Definition nodes_sound (stored : gmap NodeId PersistentNodeInfo) (self : NodeId) (nm : gmap NodeId NodeInfoWrapper) : Prop :=
  forall nid w, nm !! nid = Some w -> nid <> self -> exists pn, stored !! nid = Some pn /\ nw_base w = toNode pn.

Lemma load_nodes utcNow now (d : Store) self nm :
  store_wf d -> nodes_sound (st_nodes d) self nm ->
  let nm' := foldl (fun m pn => addNode utcNow now (toNode pn) m) nm (map snd (map_to_list (st_nodes d))) in
  nodes_sound (st_nodes d) self nm' /\
  (forall nid pn, st_nodes d !! nid = Some pn -> exists w, nm' !! nid = Some w /\ nw_base w = toNode pn) /\
  (is_Some (nm' !! self) <-> is_Some (nm !! self) \/ is_Some (st_nodes d !! self)).
Proof.
  intros Hw Hn nm'. destruct (foldl_collect (fun m pn => addNode utcNow now (toNode pn) m)
    (fun m => nodes_sound (st_nodes d) self m /\ (is_Some (m !! self) -> is_Some (nm !! self) \/ is_Some (st_nodes d !! self)) /\
       (is_Some (nm !! self) -> is_Some (m !! self)))
    (fun pn m => exists w, m !! pni_nodeId pn = Some w /\ nw_base w = toNode pn)
    (map snd (map_to_list (st_nodes d))) nm) as [(H1 & H2 & H3) H4].
  - split_and!; [done|by left|done].
  - intros m0 pn [nid Hpn]%elem_of_values (I1 & I2 & I3). destruct (sw_nodes _ Hw _ _ Hpn) as [<- _]. unfold addNode. simpl.
    split_and!.
    + intros nid w. rewrite lookup_insert. case_decide; [|apply I1]. subst nid. intros [= <-] _. eauto.
    + rewrite lookup_insert. case_decide as E; [|done]. rewrite <- E. intros _. right. eauto.
    + rewrite lookup_insert. case_decide; [by eexists|done].
    + rewrite lookup_insert_eq. by eexists.
  - intros m0 pn pn' [nid Hpn]%elem_of_values [nid' Hpn']%elem_of_values _ (w & Hw' & Hb).
    destruct (sw_nodes _ Hw _ _ Hpn) as [<- _], (sw_nodes _ Hw _ _ Hpn') as [<- _]. unfold addNode. simpl.
    rewrite lookup_insert. case_decide as E; [|by eauto]. eexists. split; [done|]. simpl. rewrite E in Hpn. congruence.
  - assert (Hall : forall nid pn, st_nodes d !! nid = Some pn -> exists w, nm' !! nid = Some w /\ nw_base w = toNode pn).
    { intros nid pn Hpn. destruct (sw_nodes _ Hw _ _ Hpn) as [<- _]. apply H4, elem_of_values. eauto. }
    split_and!; [done|done|]. split; [apply H2|]. intros [Hs|[pn Hs]]; [by apply H3|]. destruct (Hall _ _ Hs) as (w & Hw' & _). by exists w.
Qed.

(** ** One attempt *)

Lemma store_wf_durable s : store_wf (durable s) <-> store_wf s.
Proof. split; intros [H1 H2 H3 H4 H5 H6]; by split. Qed.

(** What the loads make of the accumulators. *)
Definition loaded (utcNow : UtcTime) (now : SteadyTime) (st : Store) (l : NewLeaseData) : NewLeaseData :=
  mkNewLeaseData (nextVersion64 (default 0 (st_version st)))
    (foldl (fun m pn => addNode utcNow now (toNode pn) m) (nl_nodes l) (map snd (map_to_list (st_nodes st))))
    (foldl addConfig (nl_configs l) (map (fun kv => (fst (fst kv), snd kv)) (map_to_list (st_configs st))))
    (foldl addChainTable (nl_chainTables l) (map snd (map_to_list (st_chainTables st))))
    (foldl (fun m c => <[ci_chainId c := c]> m) (nl_chains l) (map snd (map_to_list (st_chains st))))
    (foldl (addChainTargets now) (nl_targets l) (map snd (map_to_list (st_chains st))))
    (foldl (fun m e => <[fst e := snd e]> m) (nl_tags l) (map_to_list (st_tags st)))
    (nl_self l) (nl_selfPersistent l).

Lemma existsb_map_to_list {K V} `{Countable K} (f : K * V -> bool) (m : gmap K V) :
  (forall k v, m !! k = Some v -> f (k, v) = false) -> existsb f (map_to_list m) = false.
Proof.
  intros Hf. apply not_true_iff_false. intros ([k v] & Hin & Ht)%existsb_exists.
  rewrite <- list_elem_of_In, elem_of_map_to_list in Hin. by rewrite (Hf _ _ Hin) in Ht.
Qed.

Lemma newLease_loads_run utcNow now l st :
  store_wf st ->
  collectAll [newLease_loadVersion; newLease_loadNodes utcNow now; newLease_loadConfigs; newLease_loadChainTables;
              newLease_loadChains now; newLease_loadTags] (l, st) = (Ok tt, (loaded utcNow now st l, st)).
Proof.
  intros Hw.
  assert (E1 : existsb (fun kv => negb (bool_decide (fst kv = pni_nodeId (snd kv)))) (map_to_list (st_nodes st)) = false).
  { apply existsb_map_to_list. intros nid n Hn. destruct (sw_nodes _ Hw _ _ Hn) as [<- _]. simpl. by rewrite bool_decide_eq_true_2. }
  assert (E2 : existsb config_entry_bad (map_to_list (st_configs st)) = false).
  { apply existsb_map_to_list. intros [t v] c Hc. unfold config_entry_bad. simpl. rewrite (sw_configs _ Hw _ _ _ Hc). by rewrite bool_decide_eq_true_2. }
  assert (E3 : existsb (fun kv => bool_decide (fst kv = "")) (map_to_list (st_tags st)) = false).
  { apply existsb_map_to_list. intros k v Hk. simpl. apply bool_decide_eq_false_2. intros ->. by rewrite (sw_tags _ Hw) in Hk. }
  unfold newLease_loadVersion, newLease_loadNodes, newLease_loadConfigs, newLease_loadChainTables, newLease_loadChains, newLease_loadTags,
    onLocal, inStore, loadRoutingInfoVersion, loadAllNodes, loadAllConfigs, loadAllChainTables, loadAllChains, loadAllUniversalTags.
  unfold collectAll. unfold_M. cbn [fst snd]. rewrite E1. cbn beta iota zeta. cbn [fst snd].
  rewrite E2. cbn beta iota zeta. cbn [fst snd]. rewrite E3. reflexivity.
Qed.

(** ** The reload *)

(** What the process must bring: it is registered as a manager or not at all,
    is not disabled, and its configuration is stored. *)
Record self_ok (m : MgmtdState) (d : Store) : Prop := {
  sf_id : app_nodeId (ni_app (ms_selfNodeInfo m)) = ms_selfId m;
  sf_type : ni_type (ms_selfNodeInfo m) = NT_MGMTD;
  sf_status : ni_status (ms_selfNodeInfo m) <> DISABLED;
  sf_persistent : ms_selfPersistentNodeInfo m = toPersistentNode (ms_selfNodeInfo m);
  sf_stored : forall pn, st_nodes d !! ms_selfId m = Some pn ->
    pni_type pn = NT_MGMTD /\ findTag (pni_tags pn) kDisabledTagKey = -1;
  sf_tags : NoDup (map tp_key (ni_tags (ms_selfNodeInfo m))) /\ findTag (ni_tags (ms_selfNodeInfo m)) kDisabledTagKey = -1;
  sf_config : ni_configVersion (ms_selfNodeInfo m) = 0 \/
    is_Some (st_configs d !! (NT_MGMTD, ni_configVersion (ms_selfNodeInfo m)))
}.

Section reload.
Variables (m0 : MgmtdState) (d0 : Store).
Hypothesis Hwf : store_wf d0.
Hypothesis Hself : self_ok m0 d0.
Let self := ms_selfId m0.

(** The process's own node: with the stored tags if it is stored. *)
Definition reloaded_tags : list TagPair :=
  match st_nodes d0 !! self with Some pn => pni_tags pn | None => ni_tags (ms_selfNodeInfo m0) end.
Definition reloaded_self : NodeInfo := set_ni_tags reloaded_tags (ms_selfNodeInfo m0).
Definition reloaded_nodes : gmap NodeId PersistentNodeInfo := <[self := toPersistentNode reloaded_self]> (st_nodes d0).

(** What others can see while the reload is under way. *)
Record reload_inv (ls : NewLeaseData * Store) : Prop := {
  rv_configs : st_configs (snd ls) = st_configs d0;
  rv_tables : st_chainTables (snd ls) = st_chainTables d0;
  rv_chains : st_chains (snd ls) = st_chains d0;
  rv_tags : st_tags (snd ls) = st_tags d0;
  rv_nodes : st_nodes (snd ls) = st_nodes d0 \/ st_nodes (snd ls) = reloaded_nodes;
  rv_version : exists k, default 0 (st_version (snd ls)) = Nat.iter k nextVersion64 (default 0 (st_version d0));
  rv_self : (nl_self (fst ls) = ms_selfNodeInfo m0 /\ nl_selfPersistent (fst ls) = ms_selfPersistentNodeInfo m0) \/
            (nl_self (fst ls) = reloaded_self /\ nl_selfPersistent (fst ls) = toPersistentNode reloaded_self);
  rv_acc_nodes : nodes_sound (st_nodes d0) self (nl_nodes (fst ls));
  rv_acc_self : is_Some (nl_nodes (fst ls) !! self) -> is_Some (st_nodes (snd ls) !! self);
  rv_acc_configs : configs_sound (st_configs d0) (nl_configs (fst ls));
  rv_acc_tables : tables_sound (st_chainTables d0) (nl_chainTables (fst ls));
  rv_acc_chains : nl_chains (fst ls) ⊆ st_chains d0;
  rv_acc_targets : targets_sound d0 (nl_targets (fst ls));
  rv_acc_tags : nl_tags (fst ls) ⊆ st_tags d0
}.

(** What a committed reload has read and written. *)
Record reloaded (ls : NewLeaseData * Store) : Prop := {
  rl_version : st_version (snd ls) = Some (nl_version (fst ls));
  rl_bumped : exists k, nl_version (fst ls) = Nat.iter (S k) nextVersion64 (default 0 (st_version d0));
  rl_stored : st_nodes (snd ls) = reloaded_nodes;
  rl_self : nl_self (fst ls) = reloaded_self /\ nl_selfPersistent (fst ls) = toPersistentNode reloaded_self;
  rl_nodes : forall nid, nid <> self -> match st_nodes d0 !! nid with
    | Some pn => exists w, nl_nodes (fst ls) !! nid = Some w /\ nw_base w = toNode pn
    | None => nl_nodes (fst ls) !! nid = None end;
  rl_self_node : exists w, nl_nodes (fst ls) !! self = Some w /\ nw_base w = reloaded_self;
  rl_configs : configs_agree (st_configs d0) (nl_configs (fst ls));
  rl_tables : tables_agree (st_chainTables d0) (nl_chainTables (fst ls)) /\ tables_wf (nl_chainTables (fst ls));
  rl_chains : nl_chains (fst ls) = st_chains d0;
  rl_targets : targets_sound d0 (nl_targets (fst ls));
  rl_targets_all : forall cid c cti, st_chains d0 !! cid = Some c -> cti ∈ ci_targets c -> target_loaded (cid, cti) (nl_targets (fst ls));
  rl_tags : nl_tags (fst ls) = st_tags d0
}.

Lemma reloaded_self_id : pni_nodeId (toPersistentNode reloaded_self) = self.
Proof. apply (sf_id _ _ Hself). Qed.

Lemma reloaded_tags_ok : NoDup (map tp_key reloaded_tags) /\ findTag reloaded_tags kDisabledTagKey = -1.
Proof.
  unfold reloaded_tags. destruct (st_nodes d0 !! self) as [pn|] eqn:E; [|apply (sf_tags _ _ Hself)].
  split; [apply (sw_nodes _ Hwf _ _ E)|apply (sf_stored _ _ Hself _ E)].
Qed.

Lemma reload_inv_wf l st : reload_inv (l, st) -> store_wf st.
Proof.
  intros [R1 R2 R3 R4 R5 R6 R7 R8 R9 R10 R11 R12 R13 R14]. simpl in *. destruct Hwf as [H1 H2 H3 H4 H5 H6].
  split; rewrite ?R1, ?R2, ?R3, ?R4; try done. intros nid n. destruct R5 as [-> | ->]; [apply H1|].
  unfold reloaded_nodes. rewrite lookup_insert. case_decide as E; [|apply H1]. intros [= <-]. split; [by rewrite reloaded_self_id|].
  apply reloaded_tags_ok.
Qed.

Lemma reloaded_nodes_other nid : nid <> self -> reloaded_nodes !! nid = st_nodes d0 !! nid.
Proof. intros H. unfold reloaded_nodes. by rewrite lookup_insert_ne. Qed.

Lemma reload_inv_nodes l st nid : reload_inv (l, st) -> nid <> self -> st_nodes st !! nid = st_nodes d0 !! nid.
Proof. intros [_ _ _ _ [R|R] _ _ _ _ _ _ _ _ _] Hn; simpl in R; rewrite R; [done|by apply reloaded_nodes_other]. Qed.

(** What the loads have done. *)
Record load_done (l : NewLeaseData) (st : Store) : Prop := {
  ld_inv : reload_inv (l, st);
  ld_version : nl_version l = nextVersion64 (default 0 (st_version st));
  ld_nodes : forall nid pn, st_nodes st !! nid = Some pn -> exists w, nl_nodes l !! nid = Some w /\ nw_base w = toNode pn;
  ld_configs : configs_agree (st_configs d0) (nl_configs l);
  ld_tables : tables_agree (st_chainTables d0) (nl_chainTables l) /\ tables_wf (nl_chainTables l);
  ld_chains : nl_chains l = st_chains d0;
  ld_targets : forall cid c cti, st_chains d0 !! cid = Some c -> cti ∈ ci_targets c -> target_loaded (cid, cti) (nl_targets l);
  ld_tags : nl_tags l = st_tags d0
}.

Lemma loaded_done utcNow now l st : reload_inv (l, st) -> load_done (loaded utcNow now st l) st.
Proof.
  intros R. pose proof (reload_inv_wf _ _ R) as Hst. pose proof (reload_inv_nodes l st) as Hother.
  destruct R as [R1 R2 R3 R4 R5 R6 R7 R8 R9 R10 R11 R12 R13 R14] eqn:ER. clear ER. simpl in *.
  assert (Hs : nodes_sound (st_nodes st) self (nl_nodes l)).
  { intros nid w Hw Hn. rewrite (Hother nid R Hn). by apply R8. }
  destruct (load_nodes utcNow now st self (nl_nodes l) Hst Hs) as (N1 & N2 & N3).
  destruct (load_configs d0 _ Hwf R10) as [C1 C2]. destruct (load_tables d0 _ Hwf R11) as (T1 & T2 & T3).
  destruct (load_targets now d0 _ Hwf R13) as [G1 G2].
  pose proof (load_chains d0 _ Hwf R12) as Hc. pose proof (load_tags d0 _ R14) as Ht.
  unfold loaded. rewrite R1, R2, R3, R4, Hc, Ht. split; simpl; try done. split; simpl; try done.
  - intros nid w Hw Hn. rewrite <- (Hother nid R Hn). by apply N1.
  - intros Hx. apply N3 in Hx as [Hx|Hx]; [by apply R9|done].
Qed.

Lemma set_ni_tags_id n : set_ni_tags (ni_tags n) n = n.
Proof. by destruct n. Qed.

(** The process's own node, as stored. *)
Lemma stored_self l st pn :
  reload_inv (l, st) -> st_nodes st !! self = Some pn -> pni_type pn = NT_MGMTD /\ pni_tags pn = reloaded_tags.
Proof.
  intros R Hpn. pose proof (rv_nodes _ R) as [E|E]; simpl in E; rewrite E in Hpn.
  - split; [apply (sf_stored _ _ Hself _ Hpn)|]. unfold reloaded_tags. by rewrite Hpn.
  - unfold reloaded_nodes in Hpn. rewrite lookup_insert_eq in Hpn. injection Hpn as <-. split; [apply (sf_type _ _ Hself)|done].
Qed.

Lemma unstored_self l st :
  reload_inv (l, st) -> st_nodes st !! self = None -> st_nodes st = st_nodes d0 /\ reloaded_self = ms_selfNodeInfo m0.
Proof.
  intros R Hn. pose proof (rv_nodes _ R) as [E|E]; simpl in E; rewrite E in Hn.
  - split; [done|]. unfold reloaded_self, reloaded_tags. rewrite Hn. apply set_ni_tags_id.
  - unfold reloaded_nodes in Hn. by rewrite lookup_insert_eq in Hn.
Qed.

(** The two forms of the process's own information have the same tags once the
    stored ones are copied. *)
Lemma self_with_tags l st tags :
  reload_inv (l, st) -> tags = reloaded_tags ->
  set_ni_tags tags (nl_self l) = reloaded_self /\ set_pni_tags tags (nl_selfPersistent l) = toPersistentNode reloaded_self /\
  app_nodeId (ni_app (nl_self l)) = self.
Proof.
  intros R ->. pose proof (sf_id _ _ Hself) as Hid.
  destruct (rv_self _ R) as [[E1 E2]|[E1 E2]]; simpl in *; rewrite E1, E2; split_and!; try done.
  by rewrite (sf_persistent _ _ Hself).
Qed.

(** The end of an attempt: what is written. *)
Lemma persisted_done now l st l' st' :
  load_done l st ->
  l' = set_nl_nodes (<[self := set_nw_base reloaded_self (default (NodeInfoWrapper_make NodeInfo_default now) (nl_nodes l !! self))]> (nl_nodes l))
         (set_nl_self reloaded_self (toPersistentNode reloaded_self) l) ->
  st' = set_st_nodes reloaded_nodes (set_st_version (Some (nl_version l)) st) ->
  reload_inv (l', st') /\ reloaded (l', st') /\ (is_Some (st_nodes d0 !! self) -> reload_inv (l', st)).
Proof.
  intros [R L1 L2 L3 L4 L5 L6 L7] -> ->. pose proof (fun nid => reload_inv_nodes _ _ nid R) as Hother.
  assert (Hd0 : is_Some (st_nodes d0 !! self) -> is_Some (st_nodes st !! self)).
  { intros Hx. pose proof (rv_nodes _ R) as [E|E]; simpl in E; rewrite E; [done|]. unfold reloaded_nodes. by rewrite lookup_insert_eq. }
  destruct R as [R1 R2 R3 R4 R5 [k R6] R7 R8 R9 R10 R11 R12 R13 R14] eqn:ER. clear ER. simpl in *.
  assert (Hver : nl_version l = Nat.iter (S k) nextVersion64 (default 0 (st_version d0))) by (rewrite L1, R6; done).
  assert (Hns : forall w, nodes_sound (st_nodes d0) self (<[self := w]> (nl_nodes l))).
  { intros w nid w' Hw Hn. rewrite lookup_insert_ne in Hw by done. by apply R8. }
  split_and!.
  - split; simpl; try done; [by right|by exists (S k)|by right|]. intros _. unfold reloaded_nodes. by rewrite lookup_insert_eq.
  - split; simpl; try done; [by exists k| |by eexists; rewrite lookup_insert_eq].
    intros nid Hn. rewrite lookup_insert_ne by done. destruct (st_nodes d0 !! nid) as [pn|] eqn:E.
    + apply L2. by rewrite Hother.
    + destruct (nl_nodes l !! nid) as [w|] eqn:Ew; [|done]. destruct (R8 _ _ Ew Hn) as (pn & Hpn & _). congruence.
  - intros Hx. split; simpl; try done; [by exists k|by right|]. intros _. by apply Hd0.
Qed.

Definition reload_end (st : Store) (o : outcome unit) (ls' : NewLeaseData * Store) : Prop :=
  o = Ok tt /\ reload_inv ls' /\ reloaded ls' /\ (is_Some (st_nodes d0 !! self) -> reload_inv (fst ls', st)).

Lemma runs_persistNewVersionAndSelfInfo now l st :
  load_done l st -> runs (persistNewVersionAndSelfInfo now) (l, st) (reload_end st).
Proof.
  intros Hd. pose proof (ld_inv _ _ Hd) as R. unfold persistNewVersionAndSelfInfo, storeRoutingInfoVersion, onLocal, inStore. msteps.
  destruct (self_with_tags l st reloaded_tags R eq_refl) as (S1 & S2 & S3). cbn [fst snd]. rewrite S3.
  assert (Hend : forall l' st', l' = set_nl_nodes (<[self := set_nw_base reloaded_self
      (default (NodeInfoWrapper_make NodeInfo_default now) (nl_nodes l !! self))]> (nl_nodes l))
         (set_nl_self reloaded_self (toPersistentNode reloaded_self) l) ->
    st' = set_st_nodes reloaded_nodes (set_st_version (Some (nl_version l)) st) -> reload_end st (Ok tt) (l', st')).
  { intros l' st' E1 E2. split; [done|]. by apply (persisted_done now l st). }
  destruct (st_nodes st !! self) as [pn|] eqn:Epn.
  - destruct (stored_self _ _ _ R Epn) as [Hty Htags]. destruct (ld_nodes _ _ Hd _ _ Epn) as (w & Hw & Hb).
    rewrite Hw, Hb, toNode_roundtrip, Htags, S1, S2. unfold storeNodeInfo. msteps.
    + apply negb_true_iff, bool_decide_eq_false in H. done.
    + apply Hend; simpl; [by rewrite Hw|]. rewrite (sf_id _ _ Hself). f_equal.
      pose proof (rv_nodes _ R) as [E|E]; simpl in E; rewrite E; [done|]. unfold reloaded_nodes. apply insert_insert_eq.
    + apply negb_false_iff, bool_decide_eq_true in H0. apply Hend; simpl; [by rewrite Hw|].
      pose proof (rv_nodes _ R) as [E|E]; simpl in E; [|by rewrite <- E; destruct st]. unfold reloaded_nodes.
      rewrite <- E, insert_id by congruence. by destruct st.
  - destruct (unstored_self _ _ R Epn) as [E Es].
    assert (Hn : nl_nodes l !! self = None).
    { apply eq_None_not_Some. intros Hx. apply (rv_acc_self _ R) in Hx. simpl in Hx. rewrite Epn in Hx. by destruct Hx. }
    assert (Hl : nl_self l = reloaded_self /\ nl_selfPersistent l = toPersistentNode reloaded_self).
    { destruct (rv_self _ R) as [[E1 E2]|H]; [|done]. cbn [fst] in *. by rewrite E1, E2, (sf_persistent _ _ Hself), Es. }
    destruct Hl as [Hl1 Hl2]. simpl. rewrite Hn. unfold storeNodeInfo. msteps; [|done]. apply Hend; simpl.
    + destruct l; simpl in *. subst. by rewrite Hn.
    + rewrite Hl2, E. simpl. by rewrite (sf_id _ _ Hself).
Qed.

Lemma runs_newLease_handler utcNow now l st :
  reload_inv (l, st) -> runs (newLease_handler utcNow now) (l, st) (reload_end st).
Proof.
  intros R. unfold newLease_handler. apply runs_bind. eapply runs_of_eq.
  - apply newLease_loads_run. by eapply reload_inv_wf.
  - cbv beta iota delta [andThen]. apply runs_persistNewVersionAndSelfInfo. by apply loaded_done.
Qed.

Lemma reload_inv_initial st : durable st = d0 -> reload_inv (NewLeaseData_initial m0, st).
Proof.
  intros Hd. split; simpl; try done; try (by rewrite <- Hd).
  - left. by rewrite <- Hd.
  - exists 0%nat. by rewrite <- Hd.
  - by left.
  - intros [? Hx]. done.
  - apply initial_configs_sound.
  - apply map_empty_subseteq.
  - apply map_empty_subseteq.
Qed.

(** The transaction of the reload: it fails with memory's own node information
    in one of two forms, or it has loaded and stored everything.  [attempts]
    none of which ends with a failed commit are needed if the process is not
    yet registered. *)
Lemma reload_txn attempts loadNow s :
  sy_mem s = m0 -> durable (sy_store s) = d0 -> quiet attempts ->
  is_Some (st_nodes d0 !! self) \/ Forall (fun a => forall c, at_commit a <> CommitErr c false) attempts ->
  let '(o, (l, s')) := withReadWriteTxn_local attempts true (fun a => newLease_handler (at_utcNow a) (loadNow a))
                         (NewLeaseData_initial m0) s in
  sy_mem s' = m0 /\ reload_inv (l, sy_store s') /\ o <> Fatal /\ (o = Ok tt -> reloaded (l, sy_store s')).
Proof.
  intros Hm Hd Hq Hcommit. unfold withReadWriteTxn_local. cbv zeta.
  destruct (txn_loop _ _ _ _ _ _ _) as [o [l st]] eqn:E.
  assert (Hp : loop_post reload_inv (fun _ => reloaded) False o (l, st)).
  { refine (txn_loop_keeps _ _ _ _ _ _ _ _ _ _ _ _ _ _ E); [|by apply reload_inv_initial]. clear E.
    apply Forall_forall. intros a Ha l1 st1 HI. unfold quiet in Hq. rewrite Forall_forall in Hq. specialize (Hq a Ha st1).
    assert (HI' : reload_inv (l1, at_env a st1)).
    { unfold durable in Hq. injection Hq as Q1 Q2 Q3 Q4 Q5 Q6.
      destruct HI as [R1 R2 R3 R4 R5 R6 R7 R8 R9 R10 R11 R12 R13 R14]. simpl in *.
      split; simpl; rewrite ?Q1, ?Q2, ?Q3, ?Q4, ?Q5, ?Q6; done. }
    split; [done|]. unfold txn_body. mstep.
    assert (Hrun : runs (newLease_handler (at_utcNow a) (loadNow a)) (l1, at_env a st1) (fun o ls' => match o with
      | Ok x => reload_inv ls' /\ reloaded ls' /\ forall c, at_commit a = CommitErr c false -> reload_inv (fst ls', at_env a st1)
      | Fatal => False /\ reload_inv (fst ls', at_env a st1)
      | _ => reload_inv (fst ls', at_env a st1) end)).
    { eapply runs_mono; [by apply runs_newLease_handler|]. intros o1 ls' (-> & H1 & H2 & H3). split_and!; [done..|].
      intros c Hc. destruct Hcommit as [Hs|Hf]; [by apply H3|]. rewrite Forall_forall in Hf. by destruct (Hf a Ha c). }
    mstep; [|mstep; exact Hrun]. apply runs_zoom. eapply runs_mono; [apply runs_ensureLeaseValid|].
    intros o1 s1 (-> & [[-> _]|[-> _]]); mstep; done. }
  destruct Hp as [HI HQ]. simpl. split_and!; [done|done|by intros ->|by intros ->].
Qed.
End reload.

(** ** The new memory *)

Lemma rbegin_config (d : Store) configs t :
  store_wf d -> configs_agree (st_configs d) configs ->
  exists m c, configs !! t = Some m /\ rbegin m = Some (cfg_configVersion c, c) /\
    forall v, is_Some (m !! v) -> v <= cfg_configVersion c.
Proof.
  intros Hw Hc. destruct (Hc t) as (m & Hm & Hv).
  assert (Hne : m <> ∅). { intros ->. specialize (Hv 0). rewrite lookup_empty in Hv. by destruct (_ !! _). }
  destruct (rbegin_nonempty m Hne) as (k & c & Hr & Hk). pose proof (rbegin_spec m) as Hmax. rewrite Hr in Hmax.
  assert (Hk' : cfg_configVersion c = k).
  { rewrite Hv in Hk. destruct (st_configs d !! (t, k)) as [c'|] eqn:E; simpl in Hk.
    - simplify_eq. by apply (sw_configs _ Hw t).
    - case_decide; [|done]. by simplify_eq. }
  exists m, c. rewrite Hk'. by destruct Hmax.
Qed.

(** The routing information of the reload. *)
Lemma reset_coherent d0 d m0 l nodes now r :
  store_wf d0 -> self_ok m0 d0 -> reloaded m0 d0 (l, d) ->
  st_chains d = st_chains d0 -> st_chainTables d = st_chainTables d0 ->
  (forall nid, nid <> ms_selfId m0 -> nodes !! nid = nl_nodes l !! nid) ->
  (exists w, nodes !! ms_selfId m0 = Some w /\ exists v, nw_base w = set_ni_configVersion v (reloaded_self m0 d0)) ->
  coherent (reset (nl_version l) nodes (nl_chainTables l) (nl_chains l) (nl_targets l) now r) d.
Proof.
  intros Hw Hself [L1 L2 L3 L4 L5 L6 L7 [L8 L8'] L9 L10 L11 L12] Hc Ht Hother (w & Hw0 & v & Hb). simpl in *.
  destruct (reloaded_tags_ok m0 d0 Hw Hself) as [Hnd Hdis].
  assert (Hnode : forall nid n, ((fun sn => NodeInfoWrapper_make (nw_base sn) now) <$> nodes) !! nid = Some n ->
    app_nodeId (ni_app (nw_base n)) = nid /\ node_ok (nw_base n) /\ reloaded_nodes m0 d0 !! nid = Some (persisted n)).
  { intros nid n Hn. apply lookup_fmap_Some in Hn as (w' & <- & Hw'). unfold persisted. simpl.
    destruct (decide (nid = ms_selfId m0)) as [->|Hne].
    - rewrite Hw0 in Hw'. injection Hw' as <-. rewrite Hb. simpl. split_and!; [apply (sf_id _ _ Hself)| |].
      + split; simpl; [|done]. split; [intros Hx; by destruct (sf_status _ _ Hself)|]. intros Hx. by rewrite Hdis in Hx.
      + unfold reloaded_nodes. by rewrite lookup_insert_eq.
    - rewrite Hother in Hw' by done. specialize (L5 _ Hne). destruct (st_nodes d0 !! nid) as [pn|] eqn:Epn; [|congruence].
      destruct L5 as (w1 & Hw1 & Hb1). rewrite Hw1 in Hw'. injection Hw' as <-. rewrite Hb1.
      destruct (sw_nodes _ Hw _ _ Epn) as [Hid Htg]. split_and!; [done| |].
      + split; simpl; [|done]. by case_decide.
      + rewrite toNode_roundtrip, reloaded_nodes_other by done. done. }
  split.
  - split; simpl.
    + rewrite L9. apply (sw_chains _ Hw).
    + rewrite L9. intros cid c cti Hcid Hi. destruct (L11 _ _ _ Hcid Hi) as (ti & Hti & ts & ->). eexists. split; [done|]. by split.
    + intros tid ti Hti. destruct (L10 _ _ Hti) as (cid & c & cti & Hcid & Hi & <- & ts & ->). split; [done|].
      exists c. rewrite L9. split; [done|]. unfold chain_ids. by apply list_elem_of_fmap_2.
    + done.
    + intros cid Hn. rewrite lookup_fmap in Hn. by apply fmap_is_Some in Hn.
    + intros nid n Hn. by apply Hnode.
  - simpl. rewrite L3. apply map_eq. intros nid. rewrite lookup_fmap.
    destruct (((fun sn => NodeInfoWrapper_make (nw_base sn) now) <$> nodes) !! nid) as [n|] eqn:En; simpl; [by apply Hnode|].
    rewrite lookup_fmap, fmap_None in En. destruct (decide (nid = ms_selfId m0)) as [->|Hne]; [congruence|].
    rewrite reloaded_nodes_other by done. rewrite Hother in En by done. specialize (L5 _ Hne).
    destruct (st_nodes d0 !! nid); [|done]. destruct L5 as (? & ? & _). congruence.
  - intros nid n Hn. by apply (Hnode nid n).
  - simpl. congruence.
  - simpl. by rewrite Ht.
  - done.
  - simpl. left. done.
Qed.

Record failover_done (prev s s' : Sys) (steadyNow : SteadyTime) : Prop := {
  fo_ok : sys_ok s';
  fo_chains : ri_chains (sys_ri s') = ri_chains (sys_ri prev);
  fo_tables : forall t v, (ri_chainTables (sys_ri s') !! t ≫= fun m => m !! v) = (ri_chainTables (sys_ri prev) !! t ≫= fun m => m !! v);
  fo_configs : forall t v, (md_configMap (ms_data (sy_mem s')) !! t ≫= fun m => m !! v) =
                           (md_configMap (ms_data (sy_mem prev)) !! t ≫= fun m => m !! v);
  fo_tags : md_universalTagsMap (ms_data (sy_mem s')) = md_universalTagsMap (ms_data (sy_mem prev));
  fo_nodes : forall nid, nid <> ms_selfId (sy_mem s) ->
    persisted <$> ri_nodeMap (sys_ri s') !! nid = persisted <$> ri_nodeMap (sys_ri prev) !! nid;
  fo_self : exists w, ri_nodeMap (sys_ri s') !! ms_selfId (sy_mem s) = Some w /\ ni_status (nw_base w) = ni_status (ms_selfNodeInfo (sy_mem s));
  fo_version : exists k v, st_version (sy_store prev) = Some v /\ ri_routingInfoVersion (sys_ri s') = Nat.iter (S k) nextVersion64 v;
  fo_newborn : forall cid, is_Some (ri_chains (sys_ri s') !! cid) -> ri_newBornChains (sys_ri s') !! cid = Some steadyNow;
  fo_lease : md_lease (ms_data (sy_mem s')) = mkLeaseInfo (le_lease (md_lease (ms_data (sy_mem s)))) false;
  fo_sessions : ms_clientSessionMap (sy_mem s') = ∅
}.

(** Two maps that agree with one store are the same at every version. *)
Lemma configs_agree_same stored a b t v :
  configs_agree stored a -> configs_agree stored b -> (a !! t ≫= fun m : gmap ConfigVersion ConfigInfo => m !! v) = (b !! t ≫= fun m => m !! v).
Proof. intros Ha Hb. destruct (Ha t) as (m & -> & Hm), (Hb t) as (m' & -> & Hm'). simpl. by rewrite Hm, Hm'. Qed.

Lemma coherent_durable r st : coherent r st -> coherent r (durable st).
Proof. intros [H1 H2 H3 H4 H5 H6 H7]. by split. Qed.

(** The store after a committed reload. *)
Lemma reloaded_sys_ok prev s mem st l nodes now :
  sys_ok prev -> durable (sy_store s) = durable (sy_store prev) -> self_ok (sy_mem s) (durable (sy_store prev)) ->
  reload_inv (sy_mem s) (durable (sy_store prev)) (l, st) -> reloaded (sy_mem s) (durable (sy_store prev)) (l, st) ->
  (forall nid, nid <> ms_selfId (sy_mem s) -> nodes !! nid = nl_nodes l !! nid) ->
  (exists w, nodes !! ms_selfId (sy_mem s) = Some w /\
     exists v, nw_base w = set_ni_configVersion v (reloaded_self (sy_mem s) (durable (sy_store prev)))) ->
  ms_data mem = resetData (nl_version l) nodes (nl_configs l) (nl_chainTables l) (nl_chains l) (nl_targets l) (nl_tags l) now (ms_data (sy_mem s)) ->
  ms_clientSessionMap mem = ∅ ->
  failover_done prev s (mkSys mem st) now.
Proof.
  intros Hp Hd Hself HI HR Ho Hw Hdata Hsess. pose proof (sys_ok_store_wf _ Hp) as Hwf.
  pose proof (coherent_durable _ _ (reset_coherent _ st _ _ _ now (md_routingInfo (ms_data (sy_mem s))) Hwf Hself HR
    (rv_chains _ _ _ HI) (rv_tables _ _ _ HI) Ho Hw)) as Hco.
  assert (Hri : sys_ri (mkSys mem st) = reset (nl_version l) nodes (nl_chainTables l) (nl_chains l) (nl_targets l) now (md_routingInfo (ms_data (sy_mem s))))
    by (unfold sys_ri; simpl; by rewrite Hdata).
  destruct Hp as [[P1 P2 P3 P4 P5 P6 P7] P8 P9 P10 P11]. destruct HR as [L1 [k L2] L3 L4 L5 L6 L7 [L8 L8'] L9 L10 L11 L12].
  destruct HI as [R1 R2 R3 R4 _ _ _ _ _ _ _ _ _ _]. cbn [fst snd] in *.
  split; rewrite ?Hri; cbn [sy_mem sy_store]; try done.
  - split; rewrite ?Hri; cbn [sy_mem sy_store]; [done|..]; rewrite ?Hdata; cbn [md_configMap md_universalTagsMap resetData].
    + change (st_configs (durable st)) with (st_configs st). by rewrite R1.
    + change (st_configs (durable st)) with (st_configs st). by rewrite R1.
    + change (st_tags (durable st)) with (st_tags st). by rewrite R4, L12.
    + change (st_tags (durable st)) with (st_tags st). by rewrite R4.
  - simpl. by rewrite L9, P4.
  - intros t v. simpl. rewrite <- (L8 t v). apply P5.
  - intros t v. rewrite Hdata. by apply (configs_agree_same (st_configs (durable (sy_store prev)))).
  - rewrite Hdata. simpl. by rewrite L12, P10.
  - intros nid Hn. simpl. rewrite lookup_fmap, Ho by done. specialize (L5 _ Hn). rewrite P2, lookup_fmap in L5.
    destruct (ri_nodeMap (sys_ri prev) !! nid) as [w|]; simpl in *; [|by rewrite L5].
    destruct L5 as (w' & -> & Hb). simpl. unfold persisted at 1. simpl. by rewrite Hb, toNode_roundtrip.
  - destruct Hw as (w & Hw & v & Hb). simpl. rewrite lookup_fmap, Hw. eexists. split; [done|]. simpl. by rewrite Hb.
  - assert (Hv : exists v, st_version (sy_store prev) = Some v).
    { change (st_version (sy_store prev)) with (st_version (durable (sy_store prev))). destruct P7 as [-> | ->]; eauto. }
    destruct Hv as [v Hv]. exists k, v. split; [done|]. simpl. rewrite L2.
    change (st_version (durable (sy_store prev))) with (st_version (sy_store prev)). by rewrite Hv.
  - intros cid [c Hc]. simpl in *. by rewrite lookup_fmap, Hc.
  - by rewrite Hdata.
Qed.

Lemma runs_updateSelfConfig updater cfg s :
  (forall o, updater = Some o -> o = Ok tt \/ exists c, o = Err c) ->
  ni_configVersion (ms_selfNodeInfo (sy_mem s)) <= cfg_configVersion cfg ->
  runs (updateSelfConfig updater cfg) s (fun o s' => s' = s /\ (o = Ok tt \/ exists c, o = Err c)).
Proof.
  intros Hu Hle. unfold updateSelfConfig. msteps; [apply bool_decide_eq_true in H; lia|].
  clear H. case_bool_decide; [mstep; eauto|]. destruct updater as [o|]; mstep; eauto.
Qed.

(** The end of the reload. *)
Lemma runs_installNewLease prev s st l now updater :
  sys_ok prev -> durable (sy_store s) = durable (sy_store prev) -> self_ok (sy_mem s) (durable (sy_store prev)) ->
  (forall o, updater = Some o -> o = Ok tt \/ exists c, o = Err c) ->
  reload_inv (sy_mem s) (durable (sy_store prev)) (l, st) -> reloaded (sy_mem s) (durable (sy_store prev)) (l, st) ->
  let mem := set_ms_selfPersistent (nl_selfPersistent l) (set_ms_selfNodeInfo (nl_self l) (sy_mem s)) in
  runs (installNewLease now updater l) (mkSys mem st) (fun o s' => o = Ok tt /\ failover_done prev s s' now).
Proof.
  intros Hp Hd Hself Hu HI HR mem. pose proof (sys_ok_store_wf _ Hp) as Hwf. unfold installNewLease.
  destruct (rbegin_config _ _ NT_MGMTD Hwf (rl_configs _ _ _ HR)) as (m & cfg & Hm & Hr & Hmax). cbn [fst] in Hm. rewrite Hm. cbn [mbind option_bind]. rewrite Hr.
  destruct (rl_self_node _ _ _ HR) as (w & Hw & Hb). cbn [fst] in Hw.
  destruct (rl_self _ _ _ HR) as [Hl _]. cbn [fst] in Hl.
  assert (Hle : ni_configVersion (nl_self l) <= cfg_configVersion cfg).
  { rewrite Hl. simpl. apply Hmax. destruct (rl_configs _ _ _ HR NT_MGMTD) as (m' & Hm' & Hv). cbn [fst] in Hm'. rewrite Hm in Hm'.
    injection Hm' as <-. rewrite Hv. destruct (sf_config _ _ Hself) as [E|[c ->]]; [|by eexists]. rewrite E. destruct (st_configs _ !! _); by eexists. }
  apply runs_bind. eapply (runs_mono _ _ (fun o s' => s' = mkSys mem st /\ exists b, o = Ok b)).
  - case_bool_decide; [mstep; eauto|]. pose proof (runs_updateSelfConfig updater cfg (mkSys mem st) Hu Hle) as Hrun.
    unfold runs in *. destruct (updateSelfConfig updater cfg (mkSys mem st)) as [o1 s1]. cbn [fst snd] in Hrun.
    destruct Hrun as [-> [-> |[c ->]]]; cbn; eauto.
  - intros o s1 (-> & b & ->). cbv beta iota delta [andThen]. destruct b; unfold onMem, onData; msteps; try done.
    + split; [done|]. apply (reloaded_sys_ok prev s _ _ l (<[ms_selfId (sy_mem s) := set_nw_base (set_ni_configVersion (cfg_configVersion cfg)
        (nw_base w)) w]> (nl_nodes l))); try done.
      * intros nid Hn. by rewrite lookup_insert_ne.
      * eexists. rewrite lookup_insert_eq. split; [done|]. simpl. rewrite Hb. by eexists.
      * simpl. by rewrite Hw.
    + split; [done|]. apply (reloaded_sys_ok prev s _ _ l (nl_nodes l)); try done.
      exists w. split; [done|]. rewrite Hb. exists (ni_configVersion (reloaded_self (sy_mem s) (durable (sy_store prev)))). by destruct (reloaded_self _ _).
Qed.

(** What a failed reload leaves: the data in memory and the store's contents
    are as they were, so the next round can try again. *)
Record failover_failed (prev s s' : Sys) : Prop := {
  ff_data : ms_data (sy_mem s') = ms_data (sy_mem s);
  ff_wf : store_wf (sy_store s');
  ff_chains : st_chains (sy_store s') = ri_chains (sys_ri prev)
}.

(** The environment of a reload by [s] of the store that [prev] left. *)
Record reload_env (prev s : Sys) (attempts : list Attempt) (updater : option (outcome unit)) : Prop := {
  re_prev : sys_ok prev;
  re_store : durable (sy_store s) = durable (sy_store prev);
  re_self : self_ok (sy_mem s) (durable (sy_store prev));
  re_quiet : quiet attempts;
  re_updater : forall o, updater = Some o -> o = Ok tt \/ exists c, o = Err c;
  re_commit : is_Some (st_nodes (durable (sy_store prev)) !! ms_selfId (sy_mem s)) \/
              Forall (fun a => forall c, at_commit a <> CommitErr c false) attempts
}.

Lemma runs_onNewLease prev s attempts loadNow steadyNow updater :
  reload_env prev s attempts updater ->
  runs (onNewLease attempts loadNow steadyNow updater) s (fun o s' => match o with
    | Ok _ => failover_done prev s s' steadyNow
    | Fatal => False
    | _ => failover_failed prev s s'
    end).
Proof.
  intros [Hprev Hstore Hself Hquiet Hupdater Hcommit]. pose proof (sys_ok_store_wf _ Hprev) as Hwf.
  pose proof (reload_txn (sy_mem s) (durable (sy_store prev)) Hwf Hself attempts loadNow s eq_refl Hstore Hquiet Hcommit) as Ht.
  unfold runs at 1, onNewLease. destruct (withReadWriteTxn_local _ _ _ _ _) as [o [l s1]]. destruct Ht as (Hm & HI & Hf & HR).
  match goal with |- context [?m s1] => change (runs m s1 (fun o s' => match o with Ok _ => failover_done prev s s' steadyNow | Fatal => False | _ => failover_failed prev s s' end)) end.
  unfold onMem. mstep. mstep. mstep. mstep. mstep. mstep. destruct s1 as [mem st]. cbn [sy_mem sy_store] in *. subst mem.
  assert (Hfail : failover_failed prev s (mkSys (set_ms_selfPersistent (nl_selfPersistent l) (set_ms_selfNodeInfo (nl_self l) (sy_mem s))) st)).
  { split; [done|by eapply reload_inv_wf|]. cbn [sy_store]. pose proof (rv_chains _ _ _ HI) as Hc. cbn [snd] in Hc. rewrite Hc.
    apply (ch_chains _ _ (so_ri _ Hprev)). }
  destruct o as [[]|c| |]; cbv beta iota delta [andThen]; try done.
  eapply runs_mono; [by apply (runs_installNewLease prev s st l steadyNow updater); auto|]. by intros o s' [-> H].
Qed.


(** ** Acting as primary *)

Definition with_lease (l : LeaseInfo) (s : Sys) : Sys := set_sy_mem (set_ms_data (set_md_lease l (ms_data (sy_mem s))) (sy_mem s)) s.

(** The process was primary in the same tenure before, and nothing but the end
    of the lease changed. *)
Definition lease_prolonged (s s' : Sys) : Prop :=
  exists l0 l1, md_lease (ms_data (sy_mem s)) = mkLeaseInfo (Some l0) false /\ s' = with_lease (mkLeaseInfo (Some l1) false) s /\
    pni_nodeId (li_primary l0) = pni_nodeId (li_primary l1) /\ li_leaseStart l0 = li_leaseStart l1.

Lemma leaseChanged_false old l :
  leaseChanged old l = false -> exists l0, old = mkLeaseInfo (Some l0) false /\
    pni_nodeId (li_primary l0) = pni_nodeId (li_primary l) /\ li_leaseStart l0 = li_leaseStart l.
Proof.
  unfold leaseChanged. destruct old as [[l0|] b]; simpl; [|done].
  rewrite !orb_false_iff, !negb_false_iff, !bool_decide_eq_true. intros [[H1 H2] ->]. eauto.
Qed.

Lemma not_primary_without_lease t s : le_lease (md_lease (ms_data (sy_mem s))) = None -> fst (ensureSelfIsPrimary t s) <> Ok tt.
Proof. intros H. unfold ensureSelfIsPrimary, currentLease. unfold_M. by rewrite H. Qed.

Lemma not_primary_bootstrapping t s : le_bootstrapping (md_lease (ms_data (sy_mem s))) = true -> fst (ensureSelfIsPrimary t s) <> Ok tt.
Proof. intros H. unfold ensureSelfIsPrimary, currentLease. unfold_M. rewrite H. destruct (le_lease _); [|done]. by rewrite andb_false_r. Qed.

Lemma not_primary_other t s l :
  le_lease (md_lease (ms_data (sy_mem s))) = Some l -> pni_nodeId (li_primary l) <> ms_selfId (sy_mem s) ->
  fst (ensureSelfIsPrimary t s) <> Ok tt.
Proof.
  intros H Hn. unfold ensureSelfIsPrimary, currentLease. unfold_M. rewrite H. destruct (_ && _); [|done]. by rewrite (bool_decide_eq_true_2 _ Hn).
Qed.

(** C13: Whatever lease the extender obtained, a process that afterwards passes
    the primary check was primary in the same tenure already, or has reloaded
    the store left by its predecessor; a failed reload, a lost lease or a
    disabled process does not pass the check. *)
Theorem acts_only_after_reload (prev s : Sys) (newLease : option MgmtdLeaseInfo) (steadyNow : SteadyTime) (attempts : list Attempt)
    (loadNow : Attempt -> SteadyTime) (updater : option (outcome unit)) (t : UtcTime)
    (Henv : reload_env prev s attempts updater) :
  let '(o, s') := installLease newLease steadyNow attempts loadNow updater s in
  o <> Fatal /\
  (fst (ensureSelfIsPrimary t s') = Ok tt ->
   lease_prolonged s s' \/ exists l, newLease = Some l /\ failover_done prev (with_lease (mkLeaseInfo (Some l) true) s) s' steadyNow).
Proof.
  apply runs_result. unfold installLease, onData, onMem. destruct newLease as [l|].
  2: { msteps. split; [done|]. intros Hx. by apply not_primary_without_lease in Hx. }
  mstep. mstep. mstep. mstep. mstep. mstep. mstep. mstep.
  match goal with |- context [when ?b _] => destruct b eqn:Eb end; simpl.
  - apply andb_true_iff in Eb as [Eid%bool_decide_eq_true _]. set (s1 := set_sy_mem _ _).
    assert (Hs1 : s1 = with_lease (mkLeaseInfo (Some l) true) s) by done.
    assert (Henv1 : reload_env prev s1 attempts updater) by (by destruct Henv as [? ? [] ? ? ?]).
    eapply runs_mono; [by apply (runs_onNewLease prev s1)|]. intros o s' Ho.
    destruct o as [[]|c| |]; [| |by destruct Ho|].
    { split; [done|]. intros _. right. exists l. by rewrite <- Hs1. }
    all: split; [done|]; destruct Ho as [Hd _ _]; intros Hx; exfalso; revert Hx; apply not_primary_bootstrapping; by rewrite Hd.
  - mstep. split; [done|]. intros Hx. left. apply andb_false_iff in Eb as [Eid%bool_decide_eq_false|Ech].
    + exfalso. by eapply not_primary_other in Hx.
    + apply leaseChanged_false in Ech as (l0 & E1 & E2 & E3). exists l0, l. split_and!; try done.
Qed.

(** ** A second manager takes over from the sample one *)

Definition second_lease : MgmtdLeaseInfo := mkMgmtdLeaseInfo second_self 200000000 260000000 ReleaseVersion_default.
Definition second_mem (lease : LeaseInfo) : MgmtdState :=
  mkMgmtdState "stage" 2 (set_ni_status PRIMARY_MGMTD (toNode second_self)) second_self MgmtdConfig_default
    (mkMgmtdData 0 RoutingInfo_default ∅ lease ∅ None) ∅.
Definition second_sys : Sys :=
  mkSys (second_mem (mkLeaseInfo None false)) (set_st_lease (Some second_lease) (sample_store sample_ri)).
Definition attempt_at (now : UtcTime) (readError : option Z) (commit : CommitResult) : Attempt := mkAttempt id now readError commit None.
Definition second_attempts : list Attempt :=
  [attempt_at 200000000 (Some TransactionCode_kRetryable) CommitOk; attempt_at 200000100 None CommitOk].

Lemma second_reload_env : reload_env (sample_sys sample_ri) second_sys second_attempts None.
Proof.
  split; [apply sample_sys_ok|done| |apply quiet_sample; by repeat constructor|done|].
  - split; [done|done|done|done|intros pn; vm_compute; discriminate|split; [constructor|done]|by left].
  - right. by repeat constructor.
Qed.


Lemma acts_only_after_reload_witness :
  let '(o, s') := installLease (Some second_lease) 9 second_attempts (fun _ => 7) None second_sys in
  o <> Fatal /\ fst (ensureSelfIsPrimary 200001000 s') = Ok tt /\
  (lease_prolonged second_sys s' \/ exists l, Some second_lease = Some l /\
    failover_done (sample_sys sample_ri) (with_lease (mkLeaseInfo (Some l) true) second_sys) s' 9).
Proof.
  pose proof (acts_only_after_reload _ _ (Some second_lease) 9 _ (fun _ => 7) _ 200001000 second_reload_env) as H.
  assert (Hp : let '(o, s') := installLease (Some second_lease) 9 second_attempts (fun _ => 7) None second_sys in
    fst (ensureSelfIsPrimary 200001000 s') = Ok tt) by (vm_compute; reflexivity).
  destruct (installLease _ _ _ _ _ _) as [o s']. destruct H as [Hf H]. split; [exact Hf|]. split; [exact Hp|exact (H Hp)].
Defined.

(** ** Behaviours worth knowing *)

(** The nodes loaded by an attempt of the reload are kept when it is retried.
    A manager that is not registered yet, and whose first commit fails, then
    finds itself among the nodes it believes it has read and does not store
    itself: it is in memory but not in the store. *)
Example reload_retry_forgets_self :
  let attempts := [attempt_at 200000000 None (CommitErr TransactionCode_kRetryable false); attempt_at 200000100 None CommitOk] in
  let '(o, s') := onNewLease attempts (fun _ => 7) 9 None second_sys in
  o = Ok tt /\ is_Some (ri_nodeMap (sys_ri s') !! 2) /\ st_nodes (sy_store s') !! 2 = None.
Proof. vm_compute. split_and!; [reflexivity|by eexists|reflexivity]. Qed.

(** What the second manager does while an operation of the first is retried:
    it takes the lease after it has ended, sets the preferred order of chain 7,
    and lets its lease end; then the first manager gets a new one. *)
Definition meanwhile (st : Store) : Store :=
  let st1 := takeover second_self 200000000 st in
  let sys2 := snd (onNewLease [attempt_at 200000000 None CommitOk] (fun _ => 7) 9 None
                     (mkSys (second_mem (mkLeaseInfo (st_lease st1) false)) st1)) in
  let env2 := mkOpEnv 200001000 200001000 10 (Ok true) [attempt_at 200001000 None CommitOk] in
  takeover sample_self 400000000 (sy_store (snd (UpdateChainOperation env2 "stage" 7 103 UC_ADD sys2))).

(** The lease check inside a transaction compares the node and the end of the
    lease but not its start: an operation that began in an earlier tenure
    commits in a later one, and overwrites what another primary stored in
    between (here the target added to chain 7 is lost, and the routing version
    goes back). *)
Example stale_operation_passes_lease_check :
  let env := mkOpEnv 1000 1000 2000 (Ok true)
               [attempt_at 1000 None (CommitErr TransactionCode_kRetryable false); mkAttempt meanwhile 400001000 None CommitOk None] in
  let before := meanwhile (sample_store sample_ri) in
  let '(o, s') := RotateAsPreferredOrderOperation env "stage" 7 (sample_sys sample_ri) in
  is_ok o = true /\ st_version before = Some 3 /\ chain_ids <$> st_chains before !! 7 = Some [101; 102; 103] /\
  st_version (sy_store s') = Some 2 /\ chain_ids <$> st_chains (sy_store s') !! 7 = Some [102; 101].
Proof. vm_compute. split_and!; reflexivity. Qed.
