(* ===== verification/BackgroundTheorems.v ===== *)
(** * Correctness of the primary's periodic work *)

From stdpp Require Import base list gmap sorting strings.
From Stdlib Require Import ZArith Lia.
From S2P Require Import Prelude StatusCode RingBuffer MgmtdTypes UpdateChain ChainProtocol RoutingInfo MgmtdState Transaction ChainOps NodeOps Background ChainInvariant Coherence ChainTheorems NodeInvariant.

(** ** Updates of target records *)

(** [ti'] is the record of the same target in the same chain and state. *)
Definition record_kept (ti ti' : TargetInfo) : Prop :=
  fti_targetId (ti_base ti') = fti_targetId (ti_base ti) /\ fti_chainId (ti_base ti') = fti_chainId (ti_base ti) /\
  fti_publicState (ti_base ti') = fti_publicState (ti_base ti).

Lemma sys_ok_retarget s (f : TargetId -> TargetInfo -> TargetInfo) nb st :
  sys_ok s -> durable st = durable (sy_store s) -> (forall tid ti, record_kept ti (f tid ti)) ->
  (forall cid, is_Some (nb !! cid) -> is_Some (ri_newBornChains (sys_ri s) !! cid)) ->
  sys_ok (mkSys (with_ri (set_ri_newBorn nb (set_ri_targets (map_imap (fun tid ti => Some (f tid ti)) (ri_targets (sys_ri s))) (sys_ri s))) (sy_mem s)) st).
Proof.
  intros Hs Hd Hf Hnb. eapply sys_ok_ri; [done|exact Hd| |done|done].
  destruct (so_ri _ Hs) as [[W1 W2 W3 W4 W5 W6] C2 C3 C4 C5 C6 C7]. split; try done. split; cbn; try done.
  - intros cid c cti Hc Hi. destruct (W2 _ _ _ Hc Hi) as (ti & Hti & [T1 T2]). exists (f (cti_targetId cti) ti). rewrite map_lookup_imap, Hti. split; [done|].
    destruct (Hf (cti_targetId cti) ti) as (F1 & F2 & F3). split; congruence.
  - intros tid ti Hti. rewrite map_lookup_imap in Hti. apply bind_Some in Hti as (ti0 & Hti0 & [= <-]).
    destruct (Hf tid ti0) as (-> & -> & _). by apply W3.
  - intros tid oti Ho. destruct (W4 _ _ Ho) as (Hn & Hrest). split; [|done]. by rewrite map_lookup_imap, Hn.
  - intros cid Hx. by apply W5, Hnb.
Qed.

(** ** New-born chains *)

(** The record of a target whose chain has been released. *)
Definition released (later : SteadyTime) (cids : list ChainId) (ti : TargetInfo) : TargetInfo :=
  if bool_decide (fti_chainId (ti_base ti) ∈ cids) then set_ti_ts later ti else ti.

Lemma released_kept later cids ti : record_kept ti (released later cids ti).
Proof. unfold released. by case_match. Qed.

Lemma released_snoc later cids cid ti : released later [cid] (released later cids ti) = released later (cids ++ [cid]) ti.
Proof.
  unfold released. repeat case_bool_decide; try done; simpl in *; rewrite ?elem_of_app in *; exfalso; tauto.
Qed.

(** The state after [cids] have been released. *)
Definition release (later : SteadyTime) (cids : list ChainId) (r : RoutingInfo) : RoutingInfo :=
  set_ri_newBorn (foldl (fun m cid => delete cid m) (ri_newBornChains r) cids)
    (set_ri_targets (released later cids <$> ri_targets r) r).

Lemma runs_releaseNewBorn later pre cid c r :
  ri_wf r -> ri_chains r !! cid = Some c ->
  runs (releaseNewBorn later cid) (release later pre r) (fun o r' => o = Ok tt /\ r' = release later (pre ++ [cid]) r).
Proof.
  intros Hwf Hc. destruct (rw_chain _ Hwf _ _ Hc) as [Hid Hok]. unfold releaseNewBorn, getChain. msteps.
  change (ri_chains _) with (ri_chains r). rewrite Hc. mstep.
  set (r1 := set_ri_newBorn _ _).
  eapply runs_mono; [apply (runs_update_each later cti_targetId (fun _ ti => set_ti_ts later ti))|].
  - apply (co_ids _ Hok).
  - intros cti Hi. destruct (rw_chain_target _ Hwf _ _ _ Hc Hi) as (ti & Hti & _). cbn. rewrite lookup_fmap, Hti. by eexists.
  - intros o r' (-> & T & -> & Hout & Hin). split; [done|].
    cut (T = released later (pre ++ [cid]) <$> ri_targets r); [intros ->; unfold release; by rewrite foldl_app|].
    apply map_eq. intros tid. rewrite lookup_fmap. destruct (ri_targets r !! tid) as [ti|] eqn:Hti; cbn.
    + rewrite <- released_snoc. assert (Hk := released_kept later pre ti).
      destruct (rw_target _ Hwf _ _ Hti) as (Htid & c' & Hc' & Hic).
      destruct (decide (tid ∈ chain_ids c)) as [Hi|Hi].
      * pose proof Hi as Hi'. unfold chain_ids in Hi. apply list_elem_of_fmap in Hi as (cti & -> & Hi).
        erewrite Hin; [|exact Hi|cbn; by rewrite lookup_fmap, Hti]. f_equal. unfold released at 2.
        destruct (rw_chain_target _ Hwf _ _ _ Hc Hi) as (ti' & Hti' & [T1 _]). destruct Hk as (_ & Hk & _). rewrite Hk.
        rewrite bool_decide_eq_true_2; [done|]. apply list_elem_of_singleton. congruence.
      * rewrite Hout by done. cbn. rewrite lookup_fmap, Hti. cbn. f_equal. unfold released at 2. destruct Hk as (_ & Hk & _). rewrite Hk.
        rewrite bool_decide_eq_false_2; [done|]. rewrite list_elem_of_singleton. intros E. rewrite E, Hc in Hc'. by injection Hc' as <-.
    + rewrite Hout; [cbn; by rewrite lookup_fmap, Hti|]. unfold chain_ids. intros Hx. change (map ?f ?l) with (f <$> l) in Hx.
      apply list_elem_of_fmap in Hx as (cti & -> & Hi). destruct (rw_chain_target _ Hwf _ _ _ Hc Hi) as (ti' & Hti' & _). congruence.
Qed.

Lemma runs_releaseAll later cids r :
  ri_wf r -> (forall cid, cid ∈ cids -> is_Some (ri_chains r !! cid)) ->
  runs (for_each (releaseNewBorn later) cids) r (fun o r' => o = Ok tt /\ r' = release later cids r).
Proof.
  intros Hwf Hin. apply (runs_for_each (fun rest r1 => exists pre, cids = pre ++ rest /\ r1 = release later pre r)).
  - exists []. split; [done|]. unfold release. cbn [foldl].
    rewrite (map_fmap_ext _ id), map_fmap_id; [by destruct r|]. intros tid ti _. unfold released.
    rewrite bool_decide_eq_false_2; [done|apply not_elem_of_nil].
  - intros cid rest r1 (pre & -> & ->). destruct (Hin cid) as [c Hc]; [rewrite elem_of_app; right; left|].
    eapply runs_mono; [by apply (runs_releaseNewBorn later pre cid c)|]. intros o r' (-> & ->).
    exists (pre ++ [cid]). by rewrite <- app_assoc.
  - intros r' (pre & E & ->). rewrite app_nil_r in E. by subst.
Qed.

Lemma foldl_delete_lookup {V} (m : gmap Z V) ks k :
  foldl (fun m k => delete k m) m ks !! k = if bool_decide (k ∈ ks) then None else m !! k.
Proof.
  revert m. induction ks as [|k' ks IH]; intros m; cbn [foldl].
  - rewrite bool_decide_eq_false_2; [done|apply not_elem_of_nil].
  - rewrite IH, lookup_delete. destruct (decide (k = k')) as [->|Hne].
    + rewrite (bool_decide_eq_true_2 (k' ∈ k' :: ks)) by left. case_bool_decide; [done|]. by rewrite decide_True.
    + rewrite (decide_False (P := k' = k)) by congruence. apply (f_equal (fun b : bool => if b then None else m !! k)).
      apply bool_decide_ext. rewrite elem_of_cons. tauto.
Qed.

(** What the checker has done to the state [s1] it found under the lock. *)
Definition newborn_released (later : SteadyTime) (cids : list ChainId) (s1 s' : Sys) : Prop :=
  s' = mkSys (with_ri (release later cids (sys_ri s1)) (sy_mem s1)) (sy_store s1).

Lemma runs_NewBornChainsChecker env later between s :
  sys_ok s -> sys_ok (between s) ->
  (md_leaseStartTs (ms_data (sy_mem (between s))) = md_leaseStartTs (ms_data (sy_mem s)) ->
   forall cid, is_Some (ri_chains (sys_ri s) !! cid) -> is_Some (ri_chains (sys_ri (between s)) !! cid)) ->
  runs (NewBornChainsChecker_check env later between) s (fun o s' => sys_ok s' /\ match o with
    | Ok _ =>
        let cids := newBornCandidates (cf_new_chain_bootstrap_interval (ms_config (sy_mem s))) (oe_steadyNow env) (sys_ri s) in
        (cids = [] /\ s' = s) \/
        (md_leaseStartTs (ms_data (sy_mem (between s))) <> md_leaseStartTs (ms_data (sy_mem s)) /\ s' = between s) \/
        newborn_released later cids (between s) s'
    | Err _ => s' = s
    | _ => False
    end).
Proof.
  intros Hs Hb Hkept. unfold NewBornChainsChecker_check, doAsPrimary, ensureSelfIsPrimary. msteps.
  destruct (currentLease _ _) as [l|]; [|done]. msteps; [done|]. unfold NewBornChainsChecker_handle, getConfigItem. msteps. clear H.
  set (cids := newBornCandidates _ _ _). case_bool_decide as Ec; [mstep; split; [done|]; by left|]. msteps.
  case_bool_decide as El; [mstep; split; [done|]; right; left; by split|]. apply runs_onRouting.
  assert (Hcids : forall cid, cid ∈ cids -> is_Some (ri_newBornChains (sys_ri s) !! cid)).
  { intros cid Hx. unfold cids, newBornCandidates in Hx. change (map ?f ?l) with (f <$> l) in Hx.
    apply list_elem_of_fmap in Hx as ([k v] & -> & Hx). apply list_elem_of_filter in Hx as [_ Hx]. apply elem_of_map_to_list in Hx. by eexists. }
  eapply runs_mono; [apply runs_releaseAll; [apply (ch_wf _ _ (so_ri _ Hb))|]|].
  - intros cid Hx. apply Hkept; [congruence|]. apply (rw_newborn _ (ch_wf _ _ (so_ri _ Hs))), Hcids, Hx.
  - intros o r' (-> & ->). split; [|by right; right]. unfold release.
    replace (released later cids <$> ri_targets (sys_ri (between s))) with
      (map_imap (fun _ ti => Some (released later cids ti)) (ri_targets (sys_ri (between s))));
      [|apply map_eq; intros tid; rewrite map_lookup_imap, lookup_fmap; by destruct (_ !! _)].
    apply (sys_ok_retarget _ (fun _ => released later cids)); [done|done|intros _; apply released_kept|]. intros cid Hx. rewrite foldl_delete_lookup in Hx. by case_bool_decide; [destruct Hx|].
Qed.

(** The check of new-born chains runs beside the other operations: if those
    keep the invariant and do not remove chains, it never aborts and keeps it
    too.  It releases exactly the chains whose time is over, and restarts the
    clock of their targets; it does nothing if a new lease began meanwhile. *)
Theorem newborn_checker_correct (env : OpEnv) (later : SteadyTime) (between : Sys -> Sys) (s : Sys)
    (Hs : sys_ok s) (Hbetween : sys_ok (between s))
    (Hkept : md_leaseStartTs (ms_data (sy_mem (between s))) = md_leaseStartTs (ms_data (sy_mem s)) ->
       forall cid, is_Some (ri_chains (sys_ri s) !! cid) -> is_Some (ri_chains (sys_ri (between s)) !! cid)) :
  let '(o, s') := NewBornChainsChecker_check env later between s in
  sys_ok s' /\ match o with
    | Ok _ =>
        let cids := newBornCandidates (cf_new_chain_bootstrap_interval (ms_config (sy_mem s))) (oe_steadyNow env) (sys_ri s) in
        (cids = [] /\ s' = s) \/
        (md_leaseStartTs (ms_data (sy_mem (between s))) <> md_leaseStartTs (ms_data (sy_mem s)) /\ s' = between s) \/
        newborn_released later cids (between s) s'
    | Err _ => s' = s
    | _ => False
    end.
Proof. apply runs_result. by apply runs_NewBornChainsChecker. Qed.

Lemma newborn_checker_correct_witness :
  let env := mkOpEnv 1000 1000 200000000 (Ok true) [] in
  let '(o, s') := NewBornChainsChecker_check env 200000001 id (sample_sys sample_ri) in
  sys_ok s' /\ o = Ok tt /\ ri_newBornChains (sys_ri s') = ∅.
Proof.
  cbv zeta. set (env := mkOpEnv 1000 1000 200000000 (Ok true) []).
  pose proof (newborn_checker_correct env 200000001 id (sample_sys sample_ri) sample_sys_ok sample_sys_ok ltac:(done)) as H.
  assert (Ho : fst (NewBornChainsChecker_check env 200000001 id (sample_sys sample_ri)) = Ok tt) by (vm_compute; reflexivity).
  assert (Hn : ri_newBornChains (sys_ri (snd (NewBornChainsChecker_check env 200000001 id (sample_sys sample_ri)))) = ∅) by (vm_compute; reflexivity).
  destruct (NewBornChainsChecker_check _ _ _ _) as [o s']. cbn [fst snd] in *. subst o. destruct H as [H _]. by split_and!.
Defined.

(** ** Persisting where targets are *)

Lemma elem_of_persistCandidates batch r p :
  p ∈ persistCandidates batch r -> exists tid ti, ri_targets r !! tid = Some ti /\ p = ti_base ti /\ needs_persist ti = true.
Proof.
  unfold persistCandidates. generalize (Z.to_nat (Z.max 1 batch)). intros n Hp.
  match type of Hp with _ ∈ take n ?l => assert (Hi : p ∈ l) by (rewrite <- (take_drop n l), elem_of_app; by left) end. clear Hp.
  change (map ?f ?l) with (f <$> l) in Hi. apply list_elem_of_fmap in Hi as ([tid ti] & -> & Hx).
  apply list_elem_of_filter in Hx as [Hn Hx]. apply elem_of_map_to_list in Hx. eauto.
Qed.

Lemma persistCandidates_NoDup batch r : ri_wf r -> NoDup (map fti_targetId (persistCandidates batch r)).
Proof.
  intros Hwf. unfold persistCandidates. change (map ?f ?l) with (f <$> l). rewrite fmap_take. eapply sublist_NoDup; [|apply sublist_take].
  rewrite <- list_fmap_compose.
  rewrite (list_fmap_ext _ fst).
  - apply (filter_to_list_NoDup needs_persist (ri_targets r)).
  - intros i [tid ti] Hi. apply list_elem_of_lookup_2, list_elem_of_filter in Hi as [_ Hi]. apply elem_of_map_to_list in Hi. cbn.
    apply (rw_target _ Hwf _ _ Hi).
Qed.

(** The stored targets after a batch. *)
Definition insert_targets (m : gmap TargetId FlatTargetInfo) (ps : list FlatTargetInfo) : gmap TargetId FlatTargetInfo :=
  foldl (fun m p => <[fti_targetId p := p]> m) m ps.

Lemma storeTargets_run ps st :
  for_each storeTargetInfo ps st = (Ok tt, set_st_targets (insert_targets (st_targets st) ps) st).
Proof.
  revert st. induction ps as [|p ps IH]; intros st; [by destruct st|].
  cbn [for_each]. unfold mbind, M_bind. unfold storeTargetInfo at 1. unfold modify. rewrite IH. done.
Qed.

Lemma insert_targets_lookup m ps p :
  NoDup (map fti_targetId ps) -> p ∈ ps -> insert_targets m ps !! fti_targetId p = Some p.
Proof.
  intros Hnd Hp. revert m. induction ps as [|q ps IH]; intros m; [by apply elem_of_nil in Hp|]. cbn.
  apply NoDup_cons in Hnd as [Hq Hnd]. apply elem_of_cons in Hp as [->|Hp]; [|by apply IH].
  clear IH. assert (Hout : forall l m, fti_targetId q ∉ map fti_targetId l -> insert_targets m l !! fti_targetId q = m !! fti_targetId q).
  { induction l as [|x l IHl]; intros m' Hn; cbn; [done|]. apply not_elem_of_cons in Hn as [Hn1 Hn2]. rewrite IHl by done. by rewrite lookup_insert_ne. }
  rewrite Hout by done. apply lookup_insert_eq.
Qed.

Lemma insert_targets_others m ps tid : tid ∉ map fti_targetId ps -> insert_targets m ps !! tid = m !! tid.
Proof.
  revert m. induction ps as [|x l IHl]; intros m Hn; cbn; [done|]. apply not_elem_of_cons in Hn as [Hn1 Hn2].
  rewrite IHl by done. by rewrite lookup_insert_ne.
Qed.

Lemma insert_targets_idem m ps : NoDup (map fti_targetId ps) -> insert_targets (insert_targets m ps) ps = insert_targets m ps.
Proof.
  intros Hnd. apply map_eq. intros tid. destruct (decide (tid ∈ map fti_targetId ps)) as [Hx|Hx].
  - change (map ?f ?l) with (f <$> l) in Hx. apply list_elem_of_fmap in Hx as (p & -> & Hp). by rewrite !insert_targets_lookup.
  - by rewrite !insert_targets_others.
Qed.

(** Memory after the batch: the records of [ps] say where they are stored. *)
Definition marked_persisted (ps : list FlatTargetInfo) (tid : TargetId) (ti : TargetInfo) : TargetInfo :=
  match list_find (fun p => fti_targetId p = tid) ps with
  | Some (_, p) => set_ti_persisted (fti_nodeId p) (fti_diskIndex p) ti
  | None => ti
  end.

Lemma marked_persisted_kept ps tid ti : record_kept ti (marked_persisted ps tid ti).
Proof. unfold marked_persisted. by destruct (list_find _ _) as [[]|]. Qed.

Lemma runs_markPersisted now ps r :
  NoDup (map fti_targetId ps) -> (forall p, p ∈ ps -> is_Some (ri_targets r !! fti_targetId p)) ->
  runs (for_each (fun p => updateTarget now (fti_targetId p) (fun ti => mret (set_ti_persisted (fti_nodeId p) (fti_diskIndex p) ti))) ps) r
    (fun o r' => o = Ok tt /\ r' = set_ri_targets (map_imap (fun tid ti => Some (marked_persisted ps tid ti)) (ri_targets r)) r).
Proof.
  intros Hnd Hin. eapply runs_mono.
  { by apply (runs_update_each now fti_targetId (fun p ti => set_ti_persisted (fti_nodeId p) (fti_diskIndex p) ti)). }
  intros o r' (-> & T & -> & Hout & Hupd). split; [done|]. f_equal. apply map_eq. intros tid. rewrite map_lookup_imap. unfold marked_persisted.
  destruct (list_find (fun p => fti_targetId p = tid) ps) as [[i p]|] eqn:El.
  - apply list_find_Some in El as (Hi & <- & _). apply list_elem_of_lookup_2 in Hi. destruct (Hin p Hi) as [ti Hti].
    by rewrite (Hupd p ti Hi Hti), Hti.
  - apply list_find_None in El. rewrite Forall_forall in El. rewrite Hout; [by destruct (ri_targets r !! tid)|].
    intros Hx. change (map ?f ?l) with (f <$> l) in Hx. apply list_elem_of_fmap in Hx as (p & -> & Hp). by apply (El p Hp).
Qed.

(** The batch [ps] was stored in [st], and then recorded in the state found
    under the lock. *)
Record batch_persisted (s : Sys) (between : Sys -> Sys) (ps : list FlatTargetInfo) (s' : Sys) (st : Store) : Prop := {
  bp_durable : durable st = durable (sy_store s);
  bp_stored : st_targets st = insert_targets (st_targets (sy_store s)) ps;
  bp_ok : sys_ok s';
  bp_store : sy_store s' = sy_store (between (mkSys (sy_mem s) st));
  bp_each : forall p, p ∈ ps -> st_targets st !! fti_targetId p = Some p /\
    exists ti, ri_targets (sys_ri s') !! fti_targetId p = Some ti /\ ti_persistedNodeId ti = fti_nodeId p /\ ti_persistedDiskIndex ti = fti_diskIndex p
}.

Lemma marked_in ps p tid ti :
  NoDup (map fti_targetId ps) -> p ∈ ps -> fti_targetId p = tid ->
  marked_persisted ps tid ti = set_ti_persisted (fti_nodeId p) (fti_diskIndex p) ti.
Proof.
  intros Hnd Hp <-. unfold marked_persisted. destruct (list_find _ ps) as [[i q]|] eqn:El.
  - apply list_find_Some in El as (Hi & E & _). apply list_elem_of_lookup_2 in Hi. by rewrite (NoDup_map_inj fti_targetId ps q p).
  - apply list_find_None in El. rewrite Forall_forall in El. by destruct (El p Hp).
Qed.

Lemma runs_TargetInfoPersister env between s :
  sys_ok s ->
  Forall (fun a => forall st, durable (at_env a st) = durable st /\ st_targets (at_env a st) = st_targets st) (oe_attempts env) ->
  (forall st, durable st = durable (sy_store s) -> sys_ok (between (mkSys (sy_mem s) st)) /\
     forall tid, is_Some (ri_targets (sys_ri s) !! tid) -> is_Some (ri_targets (sys_ri (between (mkSys (sy_mem s) st))) !! tid)) ->
  runs (TargetInfoPersister_run env between) s (op_post s (fun _ s' =>
    let ps := persistCandidates (cf_target_info_persist_batch (ms_config (sy_mem s))) (sys_ri s) in
    (ps = [] /\ s' = s) \/ exists st, batch_persisted s between ps s' st)).
Proof.
  intros Hs Hq Hb. unfold TargetInfoPersister_run. apply runs_asPrimary. unfold TargetInfoPersister_handle, getConfigItem. msteps.
  pose proof (ch_wf _ _ (so_ri _ Hs)) as Hwf. set (ps := persistCandidates _ _). case_bool_decide as Ep; [mstep; by left|].
  pose proof (persistCandidates_NoDup (cf_target_info_persist_batch (ms_config (sy_mem s))) (sys_ri s) Hwf) as Hnd. fold ps in Hnd.
  mstep. eapply runs_mono.
  { apply (runs_withReadWriteTxn_on (fun st => (durable st, st_targets st)) _ _ (fun v => (fst v, insert_targets (snd v) ps))).
    - eapply Forall_impl; [exact Hq|]. intros a Ha st. by destruct (Ha st) as [-> ->].
    - intros a st. rewrite storeTargets_run. by eexists.
    - intros [d t]. cbn. by rewrite insert_targets_idem. }
  intros o [mem st] (Hm & Hf & _ & Ho). cbn [sy_mem sy_store] in *. subst mem. destruct o as [[]|c| |]; cbv beta iota delta [andThen]; [|done..].
  destruct (Ho eq_refl) as [Hv _]. pose proof (f_equal fst Hv) as Hd. pose proof (f_equal snd Hv) as Ht. cbn [fst snd] in Hd, Ht. destruct (Hb st Hd) as [Hok Hkept].
  mstep. mstep. mstep. apply runs_onRouting. eapply runs_mono; [apply runs_markPersisted; [done|]|].
  - intros p Hp. apply elem_of_persistCandidates in Hp as (tid & ti & Hti & -> & _). apply Hkept.
    destruct (rw_target _ Hwf _ _ Hti) as [-> _]. by eexists.
  - intros o r' (-> & ->). right. exists st. split; [done|done| |done|].
    + pose proof (sys_ok_retarget _ (marked_persisted ps) (ri_newBornChains (sys_ri (between (mkSys (sy_mem s) st)))) (sy_store (between (mkSys (sy_mem s) st)))
        Hok eq_refl (marked_persisted_kept ps) ltac:(done)) as H. exact H.
    + intros p Hp. split; [rewrite Ht; by apply insert_targets_lookup|]. destruct (elem_of_persistCandidates _ _ _ Hp) as (tid & ti & Hti & E & _).
      destruct (rw_target _ Hwf _ _ Hti) as [Htid _]. destruct (Hkept tid) as [ti1 Hti1]; [by eexists|].
      assert (fti_targetId p = tid) as <- by congruence. cbn. rewrite map_lookup_imap, Hti1. eexists. split; [done|]. by rewrite (marked_in ps p).
Qed.
