(* ===== verification/LoaderTheorems.v ===== *)
(** * Loading and persisting where targets are *)

From stdpp Require Import base list gmap sorting strings.
From Stdlib Require Import ZArith Lia.
From S2P Require Import Prelude StatusCode RingBuffer MgmtdTypes UpdateChain ChainProtocol RoutingInfo MgmtdState Transaction ChainOps NodeOps Background ChainInvariant Coherence ChainTheorems NodeInvariant BackgroundTheorems.

(** ** Pages of the stored targets *)

Definition key_lt (a b : TargetId * FlatTargetInfo) : Prop := fst a < fst b.

Lemma targets_sorted st : StronglySorted key_lt (targets_in_order st).
Proof.
  unfold targets_in_order.
  assert (Htot : Total id_le) by (intros x y; unfold id_le; lia).
  assert (Htr : Transitive id_le) by (intros x y z; unfold id_le; lia).
  pose proof (Sorted_StronglySorted _ _ (Sorted_merge_sort id_le (map_to_list (st_targets st)))) as Hs.
  assert (Hnd : NoDup (merge_sort id_le (map_to_list (st_targets st))).*1)
    by (rewrite (merge_sort_Permutation id_le); apply NoDup_fst_map_to_list).
  revert Hs Hnd. generalize (merge_sort id_le (map_to_list (st_targets st))). intros l. induction l as [|x l IH]; [constructor|].
  intros Hs Hnd. inversion Hs as [|? ? Hs' Hx]; subst. cbn in Hnd. apply NoDup_cons in Hnd as [Hn Hnd]. constructor; [by apply IH|].
  apply Forall_forall. intros y Hy. rewrite Forall_forall in Hx. specialize (Hx y Hy). unfold id_le, key_lt in *.
  assert (fst x <> fst y) by (intros E; apply Hn; rewrite E; by apply list_elem_of_fmap_2). lia.
Qed.

Lemma elem_of_targets_in_order st kv : kv ∈ targets_in_order st <-> st_targets st !! fst kv = Some (snd kv).
Proof. unfold targets_in_order. rewrite (merge_sort_Permutation id_le). destruct kv. by rewrite elem_of_map_to_list. Qed.

(** The entries from [start] on. *)
Definition from_key (start : TargetId) (l : list (TargetId * FlatTargetInfo)) : list (TargetId * FlatTargetInfo) :=
  filter (fun kv => start <= fst kv) l.

Lemma from_key_sorted start l : StronglySorted key_lt l -> StronglySorted key_lt (from_key start l).
Proof.
  induction 1 as [|x l Hs IH Hx]; [constructor|]. unfold from_key. rewrite filter_cons. case_decide; [|done]. constructor; [done|].
  apply Forall_forall. intros y Hy. apply list_elem_of_filter in Hy as [_ Hy]. rewrite Forall_forall in Hx. by apply Hx.
Qed.

Lemma filter_all {A} (P : A -> Prop) `{forall x, Decision (P x)} (l : list A) : (forall x, x ∈ l -> P x) -> filter P l = l.
Proof.
  induction l as [|x l IH]; intros Hl; [done|]. rewrite filter_cons, decide_True by (apply Hl; left). f_equal. apply IH. intros y Hy. apply Hl. by right.
Qed.

Lemma filter_none {A} (P : A -> Prop) `{forall x, Decision (P x)} (l : list A) : (forall x, x ∈ l -> ~ P x) -> filter P l = [].
Proof.
  induction l as [|x l IH]; intros Hl; [done|]. rewrite filter_cons, decide_False by (apply Hl; left). apply IH. intros y Hy. apply Hl. by right.
Qed.

Lemma sorted_NoDup l : StronglySorted key_lt l -> NoDup l.*1.
Proof.
  induction 1 as [|x l Hl IH Hx]; cbn; [constructor|]. constructor; [|done]. intros Hk.
  apply list_elem_of_fmap in Hk as (y & E & Hy). rewrite Forall_forall in Hx. specialize (Hx y Hy). unfold key_lt in Hx. lia.
Qed.

(** The last entry of a page separates it from the rest. *)
Lemma sorted_split pre x post :
  StronglySorted key_lt (pre ++ x :: post) ->
  (forall kv, kv ∈ pre -> fst kv < fst x) /\ (forall kv, kv ∈ post -> fst x < fst kv).
Proof.
  induction pre as [|y pre IH]; cbn; intros Hs; inversion Hs as [|? ? H1 H2]; subst; rewrite Forall_forall in H2.
  - split; [intros kv Hk; by apply elem_of_nil in Hk|exact H2].
  - destruct (IH H1) as [I1 I2]. split; [|done]. intros kv Hk. apply elem_of_cons in Hk as [->|Hk]; [|by apply I1].
    apply H2. rewrite elem_of_app. right. left.
Qed.

Lemma sorted_page n l x :
  StronglySorted key_lt l -> last (take n l) = Some x ->
  x ∈ l /\ (forall kv, kv ∈ take n l -> fst kv <= fst x) /\ (forall kv, kv ∈ drop n l -> fst x < fst kv).
Proof.
  intros Hs [pre Hpre]%last_Some. pose proof (take_drop n l) as Hl. rewrite Hpre, <- app_assoc in Hl. cbn in Hl.
  rewrite <- Hl in Hs. destruct (sorted_split _ _ _ Hs) as [H1 H2]. split_and!; [|rewrite Hpre|done].
  - rewrite <- Hl, elem_of_app. right. left.
  - intros kv Hk. apply elem_of_app in Hk as [Hk|Hk]; [specialize (H1 kv Hk); lia|]. apply list_elem_of_singleton in Hk as ->. lia.
Qed.

(** What follows a page is what comes after its last key. *)
Lemma from_key_next start l n x :
  StronglySorted key_lt l -> last (take n (from_key start l)) = Some x ->
  from_key (fst x + 1) l = drop n (from_key start l).
Proof.
  intros Hs Hl. destruct (sorted_page _ _ _ (from_key_sorted start l Hs) Hl) as (Hx & H1 & H2).
  assert (Hge : start <= fst x) by (unfold from_key in Hx; apply list_elem_of_filter in Hx; tauto).
  assert (E : from_key (fst x + 1) l = from_key (fst x + 1) (from_key start l)).
  { unfold from_key. rewrite list_filter_filter. apply list_filter_iff. intros kv. lia. }
  rewrite E. rewrite <- (take_drop n (from_key start l)) at 1. unfold from_key at 1. rewrite filter_app.
  rewrite filter_none, filter_all; [done|..].
  - intros kv Hk. specialize (H2 kv Hk). lia.
  - intros kv Hk. specialize (H1 kv Hk). lia.
Qed.

(** ** The rounds *)

(** A round that meets no error, in which nothing else happens, at a time when
    the process is primary. *)
Record plain_round (s : Sys) (rd : LoaderRound) : Prop := {
  pr_env : ld_env rd = id;
  pr_between : ld_between rd = id;
  pr_error : ld_error rd = None;
  pr_page : (0 < ld_page rd)%nat;
  pr_primary : fst (ensureSelfIsPrimary (ld_utcNow rd) s) = Ok tt
}.

(** The stored targets are known, and their ids are not the greatest one. *)
Record stored_targets_ok (s : Sys) : Prop := {
  to_id : forall tid f, st_targets (sy_store s) !! tid = Some f -> fti_targetId f = tid /\ 0 <= tid < 2 ^ 64 - 1;
  to_known : forall tid, is_Some (st_targets (sy_store s) !! tid) -> is_Some (ri_targets (sys_ri s) !! tid)
}.

(** Memory when the stored targets below [start] have been loaded. *)
Definition loaded_below (stored : gmap TargetId FlatTargetInfo) (start : TargetId) (tid : TargetId) (ti : TargetInfo) : TargetInfo :=
  if bool_decide (tid < start) then match stored !! tid with Some f => loadedTarget f ti | None => ti end else ti.

(** Memory at the end. *)
Definition load_result (stored : gmap TargetId FlatTargetInfo) (tid : TargetId) (ti : TargetInfo) : TargetInfo :=
  match stored !! tid with
  | Some f => loadedTarget f ti
  | None => if ti_locationInitLoaded ti then ti else set_ti_loaded true ti
  end.

Definition with_targets (f : TargetId -> TargetInfo -> TargetInfo) (r : RoutingInfo) : RoutingInfo :=
  set_ri_targets (map_imap (fun tid ti => Some (f tid ti)) (ri_targets r)) r.

Definition retargeted (f : TargetId -> TargetInfo -> TargetInfo) (s : Sys) : Sys :=
  mkSys (with_ri (with_targets f (sys_ri s)) (sy_mem s)) (sy_store s).

Lemma loadedTarget_kept f ti : record_kept ti (loadedTarget f ti).
Proof. unfold loadedTarget. by case_match. Qed.

Lemma loadedTarget_loaded f ti : ti_locationInitLoaded (loadedTarget f ti) = true.
Proof. unfold loadedTarget. by case_match. Qed.

Lemma load_result_kept stored tid ti : record_kept ti (load_result stored tid ti).
Proof. unfold load_result. case_match; [apply loadedTarget_kept|]. by case_match. Qed.

Lemma ensureSelfIsPrimary_retargeted f t s : fst (ensureSelfIsPrimary t (retargeted f s)) = fst (ensureSelfIsPrimary t s).
Proof. unfold ensureSelfIsPrimary. unfold_M. change (currentLease t (sy_mem (retargeted f s))) with (currentLease t (sy_mem s)). by destruct (currentLease _ _). Qed.

Lemma retargeted_ext f g s :
  (forall tid ti, ri_targets (sys_ri s) !! tid = Some ti -> f tid ti = g tid ti) -> retargeted f s = retargeted g s.
Proof.
  intros H. unfold retargeted, with_targets.
  cut (map_imap (fun tid ti => Some (f tid ti)) (ri_targets (sys_ri s)) = map_imap (fun tid ti => Some (g tid ti)) (ri_targets (sys_ri s)));
    [by intros ->|]. apply map_eq. intros tid. rewrite !map_lookup_imap.
  destruct (ri_targets (sys_ri s) !! tid) eqn:E; [|done]. cbn. by rewrite H.
Qed.

Lemma retargeted_id s : retargeted (fun _ ti => ti) s = s.
Proof.
  unfold retargeted, with_targets.
  replace (map_imap (fun _ ti => Some ti) (ri_targets (sys_ri s))) with (ri_targets (sys_ri s));
    [|apply map_eq; intros tid; rewrite map_lookup_imap; by destruct (_ !! _)].
  by destruct s as [[] st], ms_data, md_routingInfo.
Qed.

(** One page. *)
Lemma runs_load_page now page r :
  NoDup (map fti_targetId page) -> (forall f, f ∈ page -> is_Some (ri_targets r !! fti_targetId f)) ->
  runs (for_each (fun loaded => updateTarget now (fti_targetId loaded) (fun ti => mret (loadedTarget loaded ti))) page) r
    (fun o r' => o = Ok tt /\ exists T, r' = set_ri_targets T r /\
       (forall tid, tid ∉ map fti_targetId page -> T !! tid = ri_targets r !! tid) /\
       (forall f ti, f ∈ page -> ri_targets r !! fti_targetId f = Some ti -> T !! fti_targetId f = Some (loadedTarget f ti))).
Proof. intros H1 H2. by apply (runs_update_each now fti_targetId loadedTarget). Qed.

(** The last round. *)
Lemma runs_finishLoading now r :
  runs (finishLoading now) r (fun o r' => o = Ok tt /\
    r' = with_targets (fun _ ti => if ti_locationInitLoaded ti then ti else set_ti_loaded true ti) r).
Proof.
  unfold finishLoading. mstep. mstep. mstep.
  eapply runs_mono; [apply (runs_update_each now id (fun _ ti => if ti_locationInitLoaded ti then ti else set_ti_loaded true ti))|].
  - change (map ?f ?l) with (f <$> l). rewrite list_fmap_id. apply NoDup_fst_map_to_list.
  - intros tid Hx. change (map ?f ?l) with (f <$> l) in Hx. apply list_elem_of_fmap in Hx as ([k ti] & -> & Hx).
    apply elem_of_map_to_list in Hx. by eexists.
  - change (map ?f ?l) with (f <$> l). rewrite list_fmap_id. intros o r' (-> & T & -> & Hout & Hin). split; [done|]. unfold with_targets. f_equal.
    apply map_eq. intros tid. rewrite map_lookup_imap. destruct (ri_targets r !! tid) as [ti|] eqn:Hti; cbn.
    + apply (Hin tid ti); [|done]. change (map ?f ?l) with (f <$> l). apply list_elem_of_fmap. exists (tid, ti). by rewrite elem_of_map_to_list.
    + rewrite Hout; [done|]. intros Hx. apply list_elem_of_fmap in Hx as ([k ti] & -> & Hx). apply elem_of_map_to_list in Hx. cbn in Hti. congruence.
Qed.

(** Two updates of the records in one. *)
Lemma with_targets_with f g r : with_targets g (with_targets f r) = with_targets (fun tid ti => g tid (f tid ti)) r.
Proof.
  unfold with_targets. cbn [ri_targets set_ri_targets].
  replace (map_imap (fun tid ti => Some (g tid ti)) (map_imap (fun tid ti => Some (f tid ti)) (ri_targets r)))
    with (map_imap (fun tid ti => Some (g tid (f tid ti))) (ri_targets r)); [done|].
  apply map_eq. intros tid. rewrite !map_lookup_imap. by destruct (ri_targets r !! tid).
Qed.

Section rounds.
Variable s : Sys.
Hypothesis Hs : sys_ok s.
Hypothesis Ht : stored_targets_ok s.
Let stored := st_targets (sy_store s).
Let entries := targets_in_order (sy_store s).

Lemma page_targets start n :
  let page := map snd (take n (from_key start entries)) in
  NoDup (map fti_targetId page) /\
  (forall f, f ∈ page -> stored !! fti_targetId f = Some f /\ start <= fti_targetId f /\ fti_targetId f < 2 ^ 64 - 1).
Proof.
  intros page. assert (Hin : forall kv, kv ∈ take n (from_key start entries) -> stored !! fst kv = Some (snd kv) /\ start <= fst kv).
  { intros kv Hk. assert (Hk' : kv ∈ from_key start entries) by (rewrite <- (take_drop n (from_key start entries)), elem_of_app; by left).
    apply list_elem_of_filter in Hk' as [Hge Hk']. by apply elem_of_targets_in_order in Hk'. }
  split.
  - unfold page. change (map ?f (map ?g ?l)) with (f <$> (g <$> l)). rewrite <- list_fmap_compose.
    rewrite (list_fmap_ext _ fst).
    + rewrite fmap_take. eapply sublist_NoDup; [|apply sublist_take].
      apply sorted_NoDup, from_key_sorted, targets_sorted.
    + intros i kv Hi. apply list_elem_of_lookup_2, Hin in Hi as [Hi _]. cbn. apply (to_id _ Ht _ _ Hi).
  - intros f Hf. unfold page in Hf. change (map ?g ?l) with (g <$> l) in Hf. apply list_elem_of_fmap in Hf as (kv & -> & Hk).
    apply Hin in Hk as [Hk Hge]. destruct (to_id _ Ht _ _ Hk) as [-> Hb]. split_and!; [done|done|lia].
Qed.

(** The ids of a page. *)
Lemma page_ids start n back tid :
  last (take n (from_key start entries)) = Some back ->
  tid ∈ map fti_targetId (map snd (take n (from_key start entries))) <-> is_Some (stored !! tid) /\ start <= tid <= fst back.
Proof.
  intros Hlast. destruct (sorted_page _ _ _ (from_key_sorted start _ (targets_sorted _)) Hlast) as (_ & H1 & H2).
  change (map ?f (map ?g ?l)) with (f <$> (g <$> l)). rewrite <- list_fmap_compose, list_elem_of_fmap.
  assert (Hin : forall kv, kv ∈ from_key start entries <-> stored !! fst kv = Some (snd kv) /\ start <= fst kv)
    by (intros kv; unfold from_key; rewrite list_elem_of_filter; unfold entries; rewrite elem_of_targets_in_order; tauto).
  split.
  - intros (kv & -> & Hk). specialize (H1 kv Hk).
    assert (Hk' : kv ∈ from_key start entries) by (rewrite <- (take_drop n (from_key start entries)), elem_of_app; by left).
    apply Hin in Hk' as [Hk' Hge]. cbn. destruct (to_id _ Ht _ _ Hk') as [-> _]. split; [by eexists|lia].
  - intros ([f Hf] & Hb). destruct (to_id _ Ht _ _ Hf) as [Hid _]. exists (tid, f). split; [done|].
    assert (Hk : (tid, f) ∈ from_key start entries) by (apply Hin; cbn; split; [done|lia]).
    rewrite <- (take_drop n (from_key start entries)), elem_of_app in Hk. destruct Hk as [Hk|Hk]; [done|]. specialize (H2 _ Hk). cbn in H2. lia.
Qed.

(** Loading one page moves [start] past its last entry. *)
Lemma load_page_step start n back T :
  last (take n (from_key start entries)) = Some back ->
  let page := map snd (take n (from_key start entries)) in
  let r := with_targets (loaded_below stored start) (sys_ri s) in
  (forall tid, tid ∉ map fti_targetId page -> T !! tid = ri_targets r !! tid) ->
  (forall f ti, f ∈ page -> ri_targets r !! fti_targetId f = Some ti -> T !! fti_targetId f = Some (loadedTarget f ti)) ->
  set_ri_targets T r = with_targets (loaded_below stored (fst back + 1)) (sys_ri s).
Proof.
  intros Hlast page r Hout Hin. destruct (page_targets start n) as [_ Hpage]. fold page in Hpage.
  pose proof (fun tid => page_ids start n back tid Hlast) as Hmem. fold page in Hmem.
  destruct (sorted_page _ _ _ (from_key_sorted start _ (targets_sorted _)) Hlast) as (Hback & _ & _).
  unfold from_key in Hback. apply list_elem_of_filter in Hback as [Hback _].
  cut (T = map_imap (fun tid ti => Some (loaded_below stored (fst back + 1) tid ti)) (ri_targets (sys_ri s))); [by intros ->|].
  assert (Hr : forall tid, ri_targets r !! tid = (loaded_below stored start tid) <$> ri_targets (sys_ri s) !! tid)
    by (intros tid; unfold r, with_targets; cbn; rewrite map_lookup_imap; by destruct (_ !! _)).
  apply map_eq. intros tid. rewrite map_lookup_imap. destruct (decide (tid ∈ map fti_targetId page)) as [Hx|Hx].
  - pose proof Hx as Hx'. apply Hmem in Hx' as (Hsome & Hb). destruct (to_known _ Ht tid Hsome) as [ti Hti].
    change (map ?g ?l) with (g <$> l) in Hx. apply list_elem_of_fmap in Hx as (f & -> & Hf). destruct (Hpage f Hf) as (Hf' & _).
    rewrite (Hin f (loaded_below stored start (fti_targetId f) ti) Hf) by (by rewrite Hr, Hti). rewrite Hti. cbn. f_equal.
    unfold loaded_below. rewrite bool_decide_eq_false_2, bool_decide_eq_true_2 by lia. by rewrite Hf'.
  - rewrite Hout, Hr by done. destruct (ri_targets (sys_ri s) !! tid) as [ti|]; [|done]. cbn. f_equal.
    unfold loaded_below. rewrite Hmem in Hx. destruct (stored !! tid) as [f|] eqn:Hf; [|by repeat case_bool_decide].
    assert (~ (start <= tid <= fst back)) by (intros Hb; apply Hx; split; [by eexists|done]).
    case_bool_decide; [by rewrite bool_decide_eq_true_2 by lia|]. by rewrite bool_decide_eq_false_2 by lia.
Qed.

Lemma stillLoading_retargeted f t lease s1 :
  stillLoading t lease (retargeted f s1) = stillLoading t lease s1.
Proof. unfold stillLoading. by rewrite ensureSelfIsPrimary_retargeted. Qed.

Lemma runs_TargetInfoLoader_loop rounds lease start :
  Forall (plain_round s) rounds -> lease = md_leaseStartTs (ms_data (sy_mem s)) ->
  (length (from_key start entries) < length rounds)%nat ->
  runs (TargetInfoLoader_loop rounds lease start) (retargeted (loaded_below stored start) s)
    (fun o s' => o = Ok tt /\ s' = retargeted (load_result stored) s).
Proof.
  intros Hr Hlease. revert start. induction Hr as [|rd rounds [R1 R2 R3 R4 R5] Hr IH]; intros start Hlen; cbn in Hlen; [lia|].
  cbn [TargetInfoLoader_loop]. rewrite R1, R3. mstep. mstep. mstep. mstep. mstep. mstep. mstep. mstep.
  change (fst (loadTargetsFrom (ld_page rd) start _)) with (Ok (map snd (take (ld_page rd) (from_key start entries)))).
  mstep. rewrite R2. mstep. mstep. mstep. mstep. mstep. mstep. unfold id.
  assert (Hstill : stillLoading (ld_utcNow rd) lease (retargeted (loaded_below stored start) s) = true).
  { rewrite stillLoading_retargeted. unfold stillLoading. rewrite R5, Hlease. cbn. by rewrite bool_decide_eq_false_2 by lia. }
  rewrite Hstill. change (map snd ?l) with (snd <$> l). rewrite fmap_last.
  destruct (last (take (ld_page rd) (from_key start entries))) as [back|] eqn:Hlast; cbn [fmap option_fmap option_map].
  - destruct (page_targets start (ld_page rd)) as [Hnd Hpage].
    destruct (sorted_page _ _ _ (from_key_sorted start _ (targets_sorted _)) Hlast) as (Hback & _ & _). fold entries in Hback.
    pose proof (from_key_next start entries (ld_page rd) back (targets_sorted _) Hlast) as Hnext.
    apply list_elem_of_filter in Hback as [_ Hback]. apply elem_of_targets_in_order in Hback. destruct (to_id _ Ht _ _ Hback) as [Hid Hb].
    mstep. apply runs_onRouting. eapply runs_mono; [apply runs_load_page; [exact Hnd|]|].
    + intros f Hf. destruct (Hpage f Hf) as (Hf' & _). destruct (to_known _ Ht (fti_targetId f)) as [ti Hti]; [by eexists|].
      change (sys_ri (retargeted ?f s)) with (with_targets f (sys_ri s)). unfold with_targets. cbn. rewrite map_lookup_imap, Hti. by eexists.
    + intros o r' (-> & T & -> & Hout & Hin). mstep.
      change (sys_ri (retargeted ?f s)) with (with_targets f (sys_ri s)) in *.
      rewrite (load_page_step start (ld_page rd) back T Hlast Hout Hin), Hid.
      replace (u64 (fst back + 1)) with (fst back + 1) by (unfold u64, wrap; rewrite Z.mod_small; lia).
      eapply runs_mono; [apply (IH (fst back + 1))|done]. rewrite Hnext, length_drop. assert (from_key start entries <> []) by (intros E; by rewrite E, take_nil in Hlast).
      destruct (from_key start entries); [done|]. cbn in *. lia.
  - assert (Hempty : from_key start entries = []).
    { apply last_None in Hlast. destruct (from_key start entries) as [|x l]; [done|]. by destruct (ld_page rd); [lia|]. }
    apply runs_onRouting. eapply runs_mono; [apply runs_finishLoading|]. intros o r' (-> & ->). split; [done|].
    change (sys_ri (retargeted ?f s)) with (with_targets f (sys_ri s)). rewrite with_targets_with.
    transitivity (retargeted (fun tid ti => if ti_locationInitLoaded (loaded_below stored start tid ti) then loaded_below stored start tid ti
      else set_ti_loaded true (loaded_below stored start tid ti)) s); [reflexivity|]. apply retargeted_ext.
    intros tid ti Hti. unfold load_result, loaded_below. destruct (stored !! tid) as [f|] eqn:Hf; [|by case_bool_decide].
    rewrite bool_decide_eq_true_2, loadedTarget_loaded; [done|].
    destruct (decide (tid < start)) as [|Hge]; [done|]. exfalso. eapply (not_elem_of_nil (tid, f)). rewrite <- Hempty.
    apply list_elem_of_filter. split; [cbn; lia|]. by apply elem_of_targets_in_order.
Qed.
End rounds.


(** The two targets of the sample, one of them with a stored location. *)
Definition located (tid : TargetId) : FlatTargetInfo := mkFlatTargetInfo tid PS_SERVING LS_UPTODATE 7 (Some 10) (Some 3) 0.
Definition loader_sys : Sys :=
  mkSys (sample_mem sample_ri) (set_st_targets {[ 101 := located 101 ]} (sample_store sample_ri)).
Definition loader_round : LoaderRound := mkLoaderRound id 5 None id 1000 6.

Lemma loader_sys_ok : sys_ok loader_sys.
Proof. destruct sample_sys_ok as [H1 H2 H3 H4 H5]. by split. Qed.

Lemma loader_targets_ok : stored_targets_ok loader_sys.
Proof.
  split; cbn; intros tid.
  - intros f Hf. apply lookup_singleton_Some in Hf as [<- <-]. cbn. lia.
  - intros [f Hf]. apply lookup_singleton_Some in Hf as [<- <-]. vm_compute. by eexists.
Qed.


(** A read error ends the loading for good: the lease counts as loaded, so the
    next run does nothing and the targets stay unloaded, and are therefore never
    persisted. *)
Example loader_gives_up_after_read_error :
  let failing := mkLoaderRound id 5 (Some kDataCorruption) id 1000 6 in
  let '(lease, (o1, s1)) := TargetInfoLoader_run sample_env [failing] (-1) loader_sys in
  let '(_, (o2, s2)) := TargetInfoLoader_run sample_env [loader_round; loader_round] lease s1 in
  o1 = Err kDataCorruption /\ o2 = Ok tt /\
  ti_locationInitLoaded <$> ri_targets (sys_ri s2) !! 101 = Some false.
Proof. vm_compute. split_and!; reflexivity. Qed.

(** ** Persisting *)

(** Persisting the locations of targets never aborts, if the operations that
    run beside it keep the invariant and remove no target; an error leaves
    memory alone; success has stored the batch, marks exactly its targets as
    persisted with what was stored, and keeps the invariant. *)
Theorem target_persister_correct (env : OpEnv) (between : Sys -> Sys) (s : Sys) (Hs : sys_ok s)
    (Hquiet : Forall (fun a => forall st, durable (at_env a st) = durable st /\ st_targets (at_env a st) = st_targets st) (oe_attempts env))
    (Hbetween : forall st, durable st = durable (sy_store s) -> sys_ok (between (mkSys (sy_mem s) st)) /\
       forall tid, is_Some (ri_targets (sys_ri s) !! tid) -> is_Some (ri_targets (sys_ri (between (mkSys (sy_mem s) st))) !! tid)) :
  let '(o, s') := TargetInfoPersister_run env between s in
  op_post s (fun _ s' =>
    let ps := persistCandidates (cf_target_info_persist_batch (ms_config (sy_mem s))) (sys_ri s) in
    (ps = [] /\ s' = s) \/ exists st, batch_persisted s between ps s' st) o s'.
Proof. apply runs_result. by apply runs_TargetInfoPersister. Qed.

(** A chain with an OFFLINE target, whose targets have reported where they are. *)
Definition offline_chain : ChainInfo :=
  mkChainInfo 7 1 [mkChainTargetInfo 101 PS_SERVING; mkChainTargetInfo 102 PS_OFFLINE] [].
Definition reported (ti : TargetInfo) : TargetInfo :=
  set_ti_loaded true (set_ti_base (set_fti_location (Some 10) (Some 0) (ti_base ti)) ti).
Definition offline_ri : RoutingInfo :=
  with_targets (fun _ => reported) (set_ri_newBorn ∅ (snd (insertNewChain 5 offline_chain empty_ri))).

Lemma offline_chain_ok : chain_ok offline_chain.
Proof.
  split.
  - compute. repeat constructor; rewrite ?list_elem_of_In; simpl; lia.
  - constructor.
  - intros tid Hx. by apply elem_of_nil in Hx.
  - split; [by repeat constructor|by intros [_ ?]|by vm_compute; lia].
  - by left.
Qed.

Lemma offline_sys_ok : sys_ok (sample_sys offline_ri).
Proof.
  pose proof (runs_insertNewChain 5 offline_chain empty_ri empty_ri_wf eq_refl offline_chain_ok
    ltac:(intros; apply lookup_empty)) as H. unfold runs in H. set (r := snd (insertNewChain 5 offline_chain empty_ri)) in *.
  destruct H as (_ & Hwf & Hc & _ & _ & Hn & Ht & Hv & _).
  assert (H0 : sys_ok (sample_sys r)).
  { split; [|apply initial_configs_agree|done..]. split; change (sys_ri (sample_sys r)) with r; try done.
    - intros nid n. rewrite Hn. intros (_ & Htags & Hst)%sample_nodes. split; rewrite Htags; [done|constructor].
    - by left. }
  exact (sys_ok_retarget (sample_sys r) (fun _ => reported) ∅ (sample_store r) H0 eq_refl ltac:(done) ltac:(by intros cid [? ?])).
Qed.

Lemma target_persister_correct_witness :
  let '(o, s') := TargetInfoPersister_run sample_env id (sample_sys offline_ri) in
  o = Ok tt /\ exists st, batch_persisted (sample_sys offline_ri) id
    (persistCandidates 1000 offline_ri) s' st.
Proof.
  pose proof (target_persister_correct sample_env id (sample_sys offline_ri) offline_sys_ok ltac:(by repeat constructor)) as H.
  lapply H; [clear H; intros H|].
  2: { intros st Hst. split; [|done]. destruct offline_sys_ok as [H1 H2 H3 H4 H5]. split; unfold id; cbn [sy_mem sy_store] in *; by rewrite ?Hst. }
  assert (Ho : fst (TargetInfoPersister_run sample_env id (sample_sys offline_ri)) = Ok tt) by (vm_compute; reflexivity).
  assert (Hne : persistCandidates 1000 offline_ri <> []) by (vm_compute; discriminate).
  destruct (TargetInfoPersister_run _ _ _) as [o s']. cbn [fst] in Ho. subst o. split; [reflexivity|].
  destruct H as [[H _]|H]; [by destruct Hne|exact H].
Defined.

(** The persister does not hold the writer lock between its transaction and
    the update of memory.  A target that an administrator removes from its
    chain in between comes back in memory as an entry of chain 0, and the next
    chain update, which looks for that chain, stops the process. *)
Example persister_resurrects_removed_target :
  let remove s := snd (UpdateChainOperation sample_env "stage" 7 102 UC_REMOVE s) in
  let '(o, s1) := TargetInfoPersister_run sample_env remove (sample_sys offline_ri) in
  o = Ok tt /\ chain_ids <$> ri_chains (sys_ri s1) !! 7 = Some [101] /\
  (fti_chainId ∘ ti_base) <$> ri_targets (sys_ri s1) !! 102 = Some 0 /\
  fst (doAsPrimary (oe_utcNow sample_env) (ChainsUpdater_handle sample_env 0 false) s1) = Fatal.
Proof. vm_compute. split_and!; reflexivity. Qed.

(** ** Client sessions *)

(** The check of client sessions reads a session it found before without
    looking whether it is still there: if a new lease cleared the sessions
    meanwhile, the process stops. *)
Example sessions_checker_aborts_after_new_lease :
  let session := mkClientSession (mkFlatClientSession "client-1" 0 5 5 "host7" "fuse" [] ReleaseVersion_default CS_NORMAL NT_FUSE 5) 5 0 in
  let s := mkSys (set_ms_sessions {[ "client-1" := session ]} (sample_mem sample_ri)) (sample_store sample_ri) in
  let env := mkOpEnv 1000 1000 2000000000 (Ok true) [] in
  fst (ClientSessionsChecker_check env id s) = Ok tt /\
  fst (ClientSessionsChecker_check env (fun s => set_sy_mem (set_ms_sessions ∅ (sy_mem s)) s) s) = Fatal.
Proof. vm_compute. split; reflexivity. Qed.
