(* ===== verification/Primary.v ===== *)
(** * The primary at work

    The operations of the primary, in any order, keep memory and store in
    agreement and the routing information well-formed. *)

From stdpp Require Import base list gmap sorting strings.
From stdpp Require Import relations.
From Stdlib Require Import ZArith Lia.
From S2P Require Import Prelude StatusCode RingBuffer MgmtdTypes UpdateChain ChainProtocol RoutingInfo MgmtdState Transaction ChainOps NodeOps AdminOps Background LeaseExtender ChainInvariant Coherence ChainTheorems LeaseTheorems NodeInvariant NodeTheorems AdminTheorems Failover BackgroundTheorems LoaderTheorems.

(** ** Two more periodic checks *)

Lemma runs_RoutingInfoVersionUpdater env s :
  env_ok env -> sys_ok s ->
  runs (RoutingInfoVersionUpdater_update env) s (op_post s (fun _ s' => sys_ok s' /\
    sys_ri s' = if ri_routingInfoChanged (sys_ri s) then bumped (sys_ri s) else sys_ri s)).
Proof.
  intros He Hs. unfold RoutingInfoVersionUpdater_update. apply runs_asPrimary. apply runs_bind, runs_gets. cbv beta iota delta [andThen].
  destruct (ri_routingInfoChanged (sys_ri s)) eqn:E; [|by mstep].
  eapply runs_store_then_memory_unit; [apply (eo_quiet _ He)|apply blind_skip|done|]. mstep. split; [done|]. intros st Hst. split; [|done].
  eapply sys_ok_ri; [done|exact Hst| |done|done]. destruct (so_ri _ Hs) as [C1 C2 C3 C4 C5 C6 C7]. split; try done; [by apply bumped_wf|by left].
Qed.

Lemma runs_removeTimeouted timeout now l m :
  NoDup l -> (forall k, k ∈ l -> is_Some (ms_clientSessionMap m !! k)) ->
  runs (for_each (removeTimeouted timeout now) l) m (fun o m' => o = Ok tt /\ m' = set_ms_sessions (ms_clientSessionMap m') m /\
    forall k, ms_clientSessionMap m' !! k = match ms_clientSessionMap m !! k with
      | Some session => if bool_decide (k ∈ l) && session_timed_out timeout now session then None else Some session
      | None => None end).
Proof.
  revert m. induction l as [|k l IH]; intros m Hnd Hin; cbn [for_each].
  - mstep. split_and!; [done|by destruct m|]. intros k. destruct (ms_clientSessionMap m !! k); [|done].
    by rewrite bool_decide_eq_false_2 by apply not_elem_of_nil.
  - apply NoDup_cons in Hnd as [Hk Hnd]. destruct (Hin k) as [session Hsess]; [left|]. mstep. unfold removeTimeouted at 1. mstep. mstep. mstep.
    rewrite Hsess. destruct (session_timed_out timeout now session) eqn:Et.
    + mstep; [|done]. mstep. eapply runs_mono; [apply IH; [done|]|].
      * intros k' Hk'. cbn. rewrite lookup_delete_ne by congruence. apply Hin. by right.
      * intros o m' (-> & Hm & Hl). split_and!; [done|by rewrite Hm|]. intros k'. rewrite Hl. cbn. rewrite lookup_delete.
        case_decide as E; [subst k'; rewrite Hsess, bool_decide_eq_true_2 by left; cbn; by rewrite Et|].
        destruct (ms_clientSessionMap m !! k'); [|done]. rewrite (bool_decide_ext (k' ∈ k :: l) (k' ∈ l)); [done|].
        rewrite elem_of_cons. intuition congruence.
    + mstep; [done|]. eapply runs_mono; [apply IH; [done|]|].
      * intros k' Hk'. apply Hin. by right.
      * intros o m' (-> & Hm & Hl). split_and!; [done..|]. intros k'. rewrite Hl. destruct (decide (k' = k)) as [->|Hne].
        { rewrite Hsess, Et. by rewrite !andb_false_r. }
        destruct (ms_clientSessionMap m !! k'); [|done]. rewrite (bool_decide_ext (k' ∈ k :: l) (k' ∈ l)); [done|].
        rewrite elem_of_cons. intuition congruence.
Qed.

(** Nothing else touching the sessions meanwhile, exactly the timed-out ones are
    removed. *)
Lemma runs_ClientSessionsChecker env s :
  runs (ClientSessionsChecker_check env id) s (op_post s (fun _ s' => sy_store s' = sy_store s /\ ms_data (sy_mem s') = ms_data (sy_mem s) /\
    forall k, ms_clientSessionMap (sy_mem s') !! k = match ms_clientSessionMap (sy_mem s) !! k with
      | Some session => if session_timed_out (cf_client_session_timeout (ms_config (sy_mem s))) (oe_steadyNow env) session then None else Some session
      | None => None end)).
Proof.
  unfold ClientSessionsChecker_check. apply runs_asPrimary. unfold getConfigItem. msteps.
  set (timeout := cf_client_session_timeout _). set (now := oe_steadyNow env).
  assert (Hin : forall k, k ∈ timeoutedClients timeout now (sy_mem s) <->
    exists session, ms_clientSessionMap (sy_mem s) !! k = Some session /\ session_timed_out timeout now session = true).
  { intros k. unfold timeoutedClients. change (map ?f ?l) with (f <$> l). rewrite list_elem_of_fmap. setoid_rewrite list_elem_of_filter. split.
    - intros ([k' v] & -> & Hf & Hk). apply elem_of_map_to_list in Hk. eauto.
    - intros (v & Hk & Hf). exists (k, v). by rewrite elem_of_map_to_list. }
  case_bool_decide as E.
  - mstep. split_and!; [done..|]. intros k. destruct (ms_clientSessionMap (sy_mem s) !! k) as [session|] eqn:Ek; [|done].
    destruct (session_timed_out timeout now session) eqn:Et; [|done]. assert (Hx : k ∈ timeoutedClients timeout now (sy_mem s)) by (apply Hin; eauto).
    rewrite E in Hx. by apply elem_of_nil in Hx.
  - mstep. mstep. mstep. unfold onMem. mstep. eapply runs_mono; [apply runs_removeTimeouted|].
    + unfold timeoutedClients. change (map ?f ?l) with (f <$> l). eapply sublist_NoDup; [apply (NoDup_fst_map_to_list (ms_clientSessionMap (sy_mem s)))|].
      apply fmap_sublist, sublist_filter.
    + intros k Hk. apply Hin in Hk as (session & Hk & _). by eexists.
    + intros o m' (-> & Hm & Hl). cbn. split_and!; [done|by rewrite Hm|]. intros k. rewrite Hl. cbn. change (sy_mem (id s)) with (sy_mem s).
      destruct (ms_clientSessionMap (sy_mem s) !! k) as [session|] eqn:Ek; [|done].
      destruct (session_timed_out timeout now session) eqn:Et; [|by rewrite andb_false_r]. by rewrite bool_decide_eq_true_2 by (apply Hin; eauto).
Qed.

(** ** The operations *)

Inductive PrimaryOp :=
| OpUpdateChain (chainId : ChainId) (tid : TargetId) (mode : UpdateChainMode)
| OpSetChains (chains : list ChainSetting)
| OpSetChainTable (tableId : ChainTableId) (chains : list ChainId) (desc : string)
| OpRotateAsPreferredOrder (chainId : ChainId)
| OpRotateLastSrv (chainId : ChainId)
| OpSetPreferredTargetOrder (chainId : ChainId) (preferred : list TargetId)
| OpNode (req : NodeRequest) (nid : NodeId)
| OpHeartbeat (hb : HeartbeatInfo) (timestamp : UtcTime)
| OpSetConfig (t : NodeType) (content desc : string) (updater : option (outcome unit))
| OpSetUniversalTags (id : string) (mode : SetTagMode) (tags : list TagPair)
| OpExtendClientSession (isHexUuid : string -> bool) (req : ExtendClientSessionReq)
| OpGetRoutingInfo (version : RoutingInfoVersion)
| OpGetConfig (t : NodeType) (version : ConfigVersion) (exactVersion : bool)
| OpGetConfigVersions
| OpGetPrimaryMgmtd (readError : option Z)
| OpGetClientSession (clientId : string)
| OpListClientSessions
| OpListOrphanTargets
| OpGetUniversalTags (id : string)
| OpUpdateChains (lastUpdate : SteadyTime) (adjust : bool)
| OpCheckHeartbeats (later : SteadyTime)
| OpCheckNewBornChains (later : SteadyTime) (between : Sys -> Sys)
| OpCheckClientSessions
| OpUpdateVersion
| OpPersistTargets (between : Sys -> Sys)
| OpProlongLease (l : MgmtdLeaseInfo).

Definition run_op (op : PrimaryOp) (env : OpEnv) (clusterId : string) : M Sys unit :=
  match op with
  | OpUpdateChain chainId tid mode => UpdateChainOperation env clusterId chainId tid mode ;; mret tt
  | OpSetChains chains => SetChainsOperation env clusterId chains
  | OpSetChainTable tableId chains desc => SetChainTableOperation env clusterId tableId chains desc ;; mret tt
  | OpRotateAsPreferredOrder chainId => RotateAsPreferredOrderOperation env clusterId chainId ;; mret tt
  | OpRotateLastSrv chainId => RotateLastSrvOperation env clusterId chainId ;; mret tt
  | OpSetPreferredTargetOrder chainId preferred => SetPreferredTargetOrderOperation env clusterId chainId preferred ;; mret tt
  | OpNode req nid => node_operation req env clusterId nid
  | OpHeartbeat hb timestamp => HeartbeatOperation env clusterId hb timestamp ;; mret tt
  | OpSetConfig t content desc updater => SetConfigOperation env clusterId t content desc updater ;; mret tt
  | OpSetUniversalTags id mode tags => SetUniversalTagsOperation env clusterId id mode tags ;; mret tt
  | OpExtendClientSession isHexUuid req => ExtendClientSessionOperation isHexUuid env clusterId req ;; mret tt
  | OpGetRoutingInfo version => GetRoutingInfoOperation env clusterId version ;; mret tt
  | OpGetConfig t version exactVersion => GetConfigOperation env clusterId t version exactVersion ;; mret tt
  | OpGetConfigVersions => GetConfigVersionsOperation env clusterId ;; mret tt
  | OpGetPrimaryMgmtd readError => GetPrimaryMgmtdOperation env clusterId readError ;; mret tt
  | OpGetClientSession clientId => GetClientSessionOperation env clusterId clientId ;; mret tt
  | OpListClientSessions => ListClientSessionsOperation env clusterId ;; mret tt
  | OpListOrphanTargets => ListOrphanTargetsOperation env clusterId ;; mret tt
  | OpGetUniversalTags id => GetUniversalTagsOperation env clusterId id ;; mret tt
  | OpUpdateChains lastUpdate adjust => doAsPrimary (oe_utcNow env) (ChainsUpdater_handle env lastUpdate adjust) ;; mret tt
  | OpCheckHeartbeats later => HeartbeatChecker_check env later
  | OpCheckNewBornChains later between => NewBornChainsChecker_check env later between
  | OpCheckClientSessions => ClientSessionsChecker_check env id
  | OpUpdateVersion => RoutingInfoVersionUpdater_update env
  | OpPersistTargets between => TargetInfoPersister_run env between
  | OpProlongLease l => doAsPrimary (oe_utcNow env) (installLease (Some l) (oe_steadyNow env) [] (fun _ => 0) None)
  end.

(** What an operation must satisfy for the process not to abort, and what other
    operations ([between]) must keep while the lock is not held. *)
Definition op_pre (op : PrimaryOp) (env : OpEnv) (s : Sys) : Prop :=
  match op with
  | OpSetChains chains => NoDup (map cs_chainId chains)
  | OpSetConfig t _ _ _ =>
      (forall c, latest_config (ms_data (sy_mem s)) t c -> 0 <= cfg_configVersion c < 2 ^ 64 - 1) /\
      (t = NT_MGMTD -> forall c, latest_config (ms_data (sy_mem s)) t c -> self_behind s (cfg_configVersion c + 1))
  | OpExtendClientSession _ req => forall cur, ms_clientSessionMap (sy_mem s) !! ecs_clientId req = Some cur ->
      rv_equal (fcs_releaseVersion (cse_base cur)) (csd_releaseVersion (ecs_data req)) <> None
  | OpGetConfig t version exactVersion =>
      exactVersion = false -> forall c, latest_config (ms_data (sy_mem s)) t c -> version <= cfg_configVersion c
  | OpCheckNewBornChains _ between => sys_ok (between s) /\
      (md_leaseStartTs (ms_data (sy_mem (between s))) = md_leaseStartTs (ms_data (sy_mem s)) ->
       forall cid, is_Some (ri_chains (sys_ri s) !! cid) -> is_Some (ri_chains (sys_ri (between s)) !! cid))
  | OpPersistTargets between =>
      Forall (fun a => forall st, durable (at_env a st) = durable st /\ st_targets (at_env a st) = st_targets st) (oe_attempts env) /\
      forall st, durable st = durable (sy_store s) -> sys_ok (between (mkSys (sy_mem s) st)) /\
        forall tid, is_Some (ri_targets (sys_ri s) !! tid) -> is_Some (ri_targets (sys_ri (between (mkSys (sy_mem s) st))) !! tid)
  | OpProlongLease l => leaseChanged (md_lease (ms_data (sy_mem s))) l = false
  | _ => True
  end.

(** Operations that leave the invariant's part of the data alone. *)
Lemma sys_ok_data s s' :
  sys_ok s -> durable (sy_store s') = durable (sy_store s) -> sys_ri s' = sys_ri s ->
  md_configMap (ms_data (sy_mem s')) = md_configMap (ms_data (sy_mem s)) ->
  md_universalTagsMap (ms_data (sy_mem s')) = md_universalTagsMap (ms_data (sy_mem s)) -> sys_ok s'.
Proof. intros [H1 H2 H3 H4 H5] Hd Hr Hc Ht. split; by rewrite Hd, ?Hr, ?Hc, ?Ht. Qed.

Lemma op_post_weaken {A} s (P Q : A -> Sys -> Prop) (m : M Sys A) :
  runs m s (op_post s P) -> (forall a s', P a s' -> Q a s') -> runs m s (op_post s Q).
Proof. intros Hm HPQ. eapply runs_mono; [exact Hm|]. intros [x|c| |] s' Hx; simpl in *; auto. Qed.

(** Forgetting the result. *)
Lemma op_post_forget {A} s (P : A -> Sys -> Prop) (Q : Sys -> Prop) (m : M Sys A) :
  runs m s (op_post s P) -> (forall a s', P a s' -> Q s') -> runs (m ;; mret tt) s (op_post s (fun _ => Q)).
Proof.
  intros Hm HPQ. apply runs_bind. eapply runs_mono; [exact Hm|]. intros [x|c| |] s' Hx; cbv beta iota delta [andThen]; simpl in *; [|done..].
  mstep. simpl. eauto.
Qed.

Lemma runs_clusterId {A} s (P : A -> Sys -> Prop) clusterId (m : M Sys A) :
  runs m s (op_post s P) -> runs (validateClusterId clusterId ;; m) s (op_post s P).
Proof. intros Hm. unfold validateClusterId. by msteps. Qed.

(** Queries leave the process as it is. *)
Lemma runs_GetConfig env clusterId t version exactVersion s :
  sys_ok s -> (exactVersion = false -> forall c, latest_config (ms_data (sy_mem s)) t c -> version <= cfg_configVersion c) ->
  runs (GetConfigOperation env clusterId t version exactVersion) s (op_post s (fun _ s' => s' = s)).
Proof.
  intros Hs Hv. unfold GetConfigOperation. apply runs_clusterId, runs_asPrimary.
  destruct (sys_latest_config s t Hs) as [c Hc]. pose proof Hc as (m & Hm & Hr).
  assert (Hsame : set_sy_mem (set_ms_data (ms_data (sy_mem s)) (sy_mem s)) s = s) by (by destruct s as [[] ?]).
  unfold onData, onMem. do 2 mstep. destruct exactVersion; cbn [negb].
  - unfold getConfig. do 3 mstep. rewrite Hm. by mstep.
  - eapply runs_getConfig_latest; [exact Hc|by apply Hv|]. done.
Qed.

Lemma runs_GetConfigVersions env clusterId s :
  sys_ok s -> runs (GetConfigVersionsOperation env clusterId) s (op_post s (fun _ s' => s' = s)).
Proof.
  intros Hs. unfold GetConfigVersionsOperation. apply runs_clusterId, runs_asPrimary. do 3 mstep.
  match goal with |- context [existsb ?f ?l] => case_eq (existsb f l); [|intros _; by msteps] end.
  intros ([t m] & Hin & He%bool_decide_eq_true)%existsb_exists. cbn in He. subst m. exfalso.
  apply list_elem_of_In, elem_of_map_to_list in Hin. destruct (so_configs _ Hs t) as (m & Hm & Hv). rewrite Hm in Hin. injection Hin as ->.
  specialize (Hv 0). rewrite lookup_empty in Hv. by destruct (st_configs _ !! _).
Qed.

Lemma runs_GetPrimaryMgmtd env clusterId readError s :
  runs (GetPrimaryMgmtdOperation env clusterId readError) s (op_post s (fun _ s' => s' = s)).
Proof.
  unfold GetPrimaryMgmtdOperation. apply runs_clusterId. do 3 mstep. destruct (currentLease _ _); [by mstep|].
  destruct readError; by mstep.
Qed.

Lemma runs_GetClientSession env clusterId clientId s :
  runs (GetClientSessionOperation env clusterId clientId) s (op_post s (fun _ s' => s' = s)).
Proof.
  unfold GetClientSessionOperation. apply runs_clusterId, runs_checked. intros _. apply runs_asPrimary.
  do 3 mstep. case_match; by mstep.
Qed.

Lemma run_op_post op env clusterId s :
  env_ok env -> sys_ok s -> op_pre op env s -> runs (run_op op env clusterId) s (op_post s (fun _ => sys_ok)).
Proof.
  intros He Hs Hpre. destruct op; cbn [run_op op_pre] in *.
  - eapply op_post_forget; [by apply runs_UpdateChain|]. intros ? s' (old & _ & _ & H). apply (cr_ok _ _ _ H).
  - eapply op_post_weaken; [by apply runs_SetChains|]. intros ? s' (new & _ & _ & [[_ ->]|H]); [done|apply (cst_ok _ _ _ H)].
  - eapply op_post_forget; [by apply runs_SetChainTable|]. intros ? s' (_ & _ & H & _). exact H.
  - eapply op_post_forget; [by apply (runs_rotateOperation _ env clusterId _ s keeps_preferred)|].
    intros ? s' (old & l & l' & _ & _ & _ & [(_ & _ & ->)|(_ & _ & _ & H)]); [done|apply (cr_ok _ _ _ H)].
  - eapply op_post_forget; [by apply (runs_rotateOperation _ env clusterId _ s keeps_lastsrv)|].
    intros ? s' (old & l & l' & _ & _ & _ & [(_ & _ & ->)|(_ & _ & _ & H)]); [done|apply (cr_ok _ _ _ H)].
  - eapply op_post_forget; [by apply runs_SetPreferred|]. intros ? s' (old & _ & H & _). exact H.
  - eapply op_post_weaken; [by apply runs_node_operation|]. intros ? s' H. apply (nd_ok _ _ _ _ H).
  - eapply op_post_forget; [by apply runs_Heartbeat|]. intros ? s' [H _]. apply (ha_ok _ _ _ _ H).
  - destruct Hpre as [Hp1 Hp2]. eapply op_post_forget; [by apply runs_SetConfig|]. intros ? s' (c & _ & _ & H). apply (ca_ok _ _ _ _ H).
  - eapply op_post_forget; [by apply runs_SetUniversalTags|]. intros ? s' (H & _). exact H.
  - apply (op_post_forget _ (fun _ s' => sys_ok s')); [|done]. eapply runs_mono; [by apply runs_ExtendClientSession|].
    intros [[cfg tags]|c| |] s'; cbn; [|by intros ->|by intros (cur & H1 & H2); destruct (Hpre cur H1)|done].
    intros (H1 & H2 & _). eapply sys_ok_data; [done|..]; unfold sys_ri; by rewrite ?H1, ?H2.
  - apply (op_post_forget _ (fun _ s' => sys_ok s')); [|done]. eapply runs_mono; [apply runs_GetRoutingInfo|].
    intros [reply|c| |] s'; cbn; [|by intros [-> _]|done|done]. intros (H1 & [c H2] & _).
    eapply sys_ok_data; [done|..]; unfold sys_ri; by rewrite ?H1, ?H2.
  - eapply op_post_forget; [by apply runs_GetConfig|]. by intros ? s' ->.
  - eapply op_post_forget; [by apply runs_GetConfigVersions|]. by intros ? s' ->.
  - eapply op_post_forget; [by apply runs_GetPrimaryMgmtd|]. by intros ? s' ->.
  - eapply op_post_forget; [by apply runs_GetClientSession|]. by intros ? s' ->.
  - apply (op_post_forget _ (fun _ s' => s' = s)); [|by intros ? s' ->]. unfold ListClientSessionsOperation.
    apply runs_clusterId, runs_asPrimary. by do 4 mstep.
  - apply (op_post_forget _ (fun _ s' => s' = s)); [|by intros ? s' ->]. unfold ListOrphanTargetsOperation.
    apply runs_clusterId, runs_asPrimary. by mstep.
  - apply (op_post_forget _ (fun _ s' => s' = s)); [|by intros ? s' ->]. unfold GetUniversalTagsOperation.
    apply runs_clusterId, runs_asPrimary. by mstep.
  - eapply op_post_forget; [by apply runs_ChainsUpdater|]. intros ? s' (_ & [->|(cs & H & _)]); [done|apply (cst_ok _ _ _ H)].
  - eapply op_post_weaken; [by apply runs_HeartbeatChecker|]. intros ? s' (H & _). exact H.
  - destruct Hpre as [Hp1 Hp2]. eapply runs_mono; [by apply runs_NewBornChainsChecker|]. intros [x|c| |] s' [H1 H2]; cbn; [done|by rewrite H2|done|done].
  - eapply op_post_weaken; [apply runs_ClientSessionsChecker|]. intros ? s' (H1 & H2 & _).
    eapply sys_ok_data; [done|..]; unfold sys_ri; by rewrite ?H1, ?H2.
  - eapply op_post_weaken; [by apply runs_RoutingInfoVersionUpdater|]. intros ? s' (H & _). exact H.
  - destruct Hpre as [Hp1 Hp2]. eapply op_post_weaken; [by apply runs_TargetInfoPersister|].
    intros ? s' [[_ ->]|(st & H)]; [done|apply (bp_ok _ _ _ _ _ H)].
  - apply runs_asPrimary. unfold installLease, onData, onMem. mstep. mstep. mstep. mstep. mstep. mstep. mstep. mstep. rewrite Hpre, andb_false_r.
    mstep; [done|]. by eapply sys_ok_data.
Qed.

(** ** Runs of the primary *)

(** One operation that succeeds, or fails without effect on the store. *)
Definition primary_step (s s' : Sys) : Prop :=
  exists op env clusterId o, env_ok env /\ op_pre op env s /\ run_op op env clusterId s = (o, s') /\
    (is_ok o = true \/ durable (sy_store s') = durable (sy_store s)).

Lemma primary_step_ok s s' : sys_ok s -> primary_step s s' -> sys_ok s'.
Proof.
  intros Hs (op & env & cl & o & He & Hpre & Hrun & Ho). pose proof (run_op_post op env cl s He Hs Hpre) as H.
  unfold runs in H. rewrite Hrun in H. cbn [fst snd] in H. destruct o as [x|c| |]; cbn in H; [done| |done|];
    (destruct Ho as [Ho|Ho]; [done|]); (eapply sys_ok_data; [done|done|..]); unfold sys_ri; by rewrite H.
Qed.


