(* ===== verification/StorageTypes.v ===== *)
(** * Data of the storage service ([src/fbs/storage/Common.{h,cc}])

    Chunk identifiers and their text form, checksums, chunk metadata and the
    requests that act on chunks.  A field [x] of struct [S] is the projection
    [s_x], with [s] an abbreviation of [S], and [set_s_x] assigns it. *)

From Stdlib Require Import ZArith Lia.
From stdpp Require Import base gmap list.
From S2P Require Import Prelude StatusCode Bytes KvRange MgmtdTypes.

Abbreviation ChunkVer := Z (only parsing).
Abbreviation ChainVer := Z (only parsing).
Abbreviation RequestId := Z (only parsing).
Abbreviation ChannelId := Z (only parsing).
Abbreviation ChannelSeqNum := Z (only parsing).

(** ** Enumerations *)

Inductive UpdateType := UT_INVALID | UT_WRITE | UT_REMOVE | UT_TRUNCATE | UT_EXTEND | UT_COMMIT.
Inductive ChunkState := CHUNK_COMMIT | CHUNK_DIRTY | CHUNK_CLEAN.
Inductive ChecksumType := CHECKSUM_NONE | CHECKSUM_CRC32C | CHECKSUM_CRC32.
Inductive RecycleState := RECYCLE_NORMAL | REMOVAL_IN_PROGRESS | REMOVAL_IN_RETRYING.

#[export] Instance UpdateType_eq_dec : EqDecision UpdateType.
Proof. solve_decision. Defined.
#[export] Instance ChunkState_eq_dec : EqDecision ChunkState.
Proof. solve_decision. Defined.
#[export] Instance ChecksumType_eq_dec : EqDecision ChecksumType.
Proof. solve_decision. Defined.
#[export] Instance RecycleState_eq_dec : EqDecision RecycleState.
Proof. solve_decision. Defined.

(** [FeatureFlags] and [BITFLAGS_CONTAIN]. *)
Definition BYPASS_DISKIO : Z := 1.
Definition BYPASS_RDMAXMIT : Z := 2.
Definition SEND_DATA_INLINE : Z := 4.
Definition ALLOW_READ_UNCOMMITTED : Z := 8.
Definition BITFLAGS_CONTAIN (x bits : Z) : bool := Z.land x bits =? bits.
Definition BITFLAGS_SET (x bits : Z) : Z := Z.lor x bits.
Definition BITFLAGS_CLEAR (x bits : Z) : Z := Z.ldiff x bits.

Definition kAIOAlignSize : Z := 4096.

(** ** Chunk identifiers: byte strings in lexicographic order *)

Abbreviation ChunkId := bytes (only parsing).

(** [ChunkId(high, low)]: 128 bits, big endian. *)
Definition ChunkId_of_words (high low : Z) : ChunkId := le_bytes 8 (big64 high) ++ le_bytes 8 (big64 low).

(** [ChunkId(baseChunkId, chunkIndex)]: adds to the last eight bytes; a shorter
    identifier is padded and the index is not added. *)
Definition ChunkId_at (base : ChunkId) (chunkIndex : Z) : ChunkId :=
  let n := length base in
  if bool_decide (n < 8)%nat then replicate (8 - n) 0 ++ base
  else take (n - 8) base ++ le_bytes 8 (big64 (u64 (big64 (le_value (drop (n - 8) base)) + chunkIndex))).

(** [nextChunkId]: increments the bytes from the right until one does not
    wrap to zero. *)
Fixpoint next_rev (rdata : bytes) : bytes :=
  match rdata with
  | [] => []
  | b :: r => let b' := u8 (b + 1) in if b' =? 0 then b' :: next_rev r else b' :: r
  end.
Definition nextChunkId (id : ChunkId) : ChunkId := rev (next_rev (rev id)).

Definition rangeEndForCurrentChunk (id : ChunkId) : ChunkId := id ++ [0].

Definition hex_digit (v : Z) : Z := if v <? 10 then 48 + v else 55 + v.

(** [describe]: two upper-case digits a byte, a dash after each four bytes. *)
Fixpoint describe_from (i : Z) (data : bytes) : bytes :=
  match data with
  | [] => []
  | b :: data' =>
      (if negb (i =? 0) && (i mod 4 =? 0) then [45] else [])
      ++ [hex_digit (b / 16); hex_digit (b mod 16)] ++ describe_from (i + 1) data'
  end.
Definition describe (id : ChunkId) : bytes := describe_from 0 id.

(** The value of a digit of either case. *)
Definition digit_value (ch : Z) : option Z :=
  if (48 <=? ch) && (ch <=? 57) then Some (ch - 48)
  else if (65 <=? ch) && (ch <=? 70) then Some (ch - 65 + 10)
  else if (97 <=? ch) && (ch <=? 102) then Some (ch - 97 + 10)
  else None.

(** The loop of [fromString]: [half] is the pending high digit. *)
Fixpoint fromString_loop (str : bytes) (half : option Z) (out : bytes) : outcome ChunkId :=
  match str with
  | [] => if bool_decide (length out = 16%nat) then Ok out else Err kInvalidFormat
  | ch :: str' =>
      match digit_value ch with
      | Some value =>
          match half with
          | Some h => fromString_loop str' None (out ++ [u8 (h * 16 + value)])
          | None => fromString_loop str' (Some value) out
          end
      | None => if ch =? 45 then fromString_loop str' half out else Err kInvalidFormat
      end
  end.
Definition fromString (str : bytes) : outcome ChunkId :=
  match str with [] => Ok [] | _ => fromString_loop str None [] end.

(** ** Checksums

    [folly::crc32c], [folly::crc32] and their combinations are library code:
    functions of the class [Crc], with what is documented of them in
    [CrcLaws]. *)

Definition max32 : Z := 2 ^ 32 - 1.
Definition not32 (v : Z) : Z := max32 - v.

Class Crc := {
  crc32c : bytes -> Z -> Z;
  crc32 : bytes -> Z -> Z;
  crc32c_combine : Z -> Z -> Z -> Z;
  crc32_combine : Z -> Z -> Z -> Z
}.

(** One checksum function and its combination. *)
Record crc_laws (crc : bytes -> Z -> Z) (combine : Z -> Z -> Z -> Z) : Prop := {
  crc_nil : forall s, crc [] s = s;
  crc_app : forall a b s, crc (a ++ b) s = crc b (crc a s);
  crc_range : forall a s, 0 <= s <= max32 -> 0 <= crc a s <= max32;
  crc_combine_spec : forall a b,
    combine (not32 (crc a max32)) (crc b max32) (Z.of_nat (length b)) = crc (a ++ b) max32
}.
Class CrcLaws `{Crc} : Prop := {
  crc32c_laws : crc_laws crc32c crc32c_combine;
  crc32_laws : crc_laws crc32 crc32_combine
}.

Record ChecksumInfo := mkChecksumInfo { ci_type : ChecksumType; ci_value : Z }.
#[export] Instance ChecksumInfo_eq_dec : EqDecision ChecksumInfo.
Proof. solve_decision. Defined.
Definition no_checksum : ChecksumInfo := mkChecksumInfo CHECKSUM_NONE 0.

(** [ChecksumInfo::kChunkSize] *)
Definition kChecksumChunkSize : Z := 1048576.

(** The buffers [MemoryDataIterator::next] yields before the null pointer. *)
Fixpoint memory_pieces (fuel : nat) (buffer : bytes) : list bytes :=
  match fuel, buffer with
  | S fuel', _ :: _ =>
      let size := Z.to_nat (Z.min (Z.of_nat (length buffer)) kChecksumChunkSize) in
      take size buffer :: memory_pieces fuel' (drop size buffer)
  | _, _ => []
  end.

Section checksums.
Context `{Crc}.

Definition crc_step (type : ChecksumType) (data : bytes) (value : Z) : Z :=
  match type with
  | CHECKSUM_NONE => value
  | CHECKSUM_CRC32C => crc32c data value
  | CHECKSUM_CRC32 => crc32 data value
  end.

(** The loop of [create] over the buffers the iterator yields. *)
Fixpoint create_loop (type : ChecksumType) (pieces : list bytes) (length : Z) (iterBytes value : Z) : Z * Z :=
  match pieces with
  | data :: pieces' =>
      if iterBytes <? length
      then create_loop type pieces' length (iterBytes + Z.of_nat (base.length data)) (crc_step type data value)
      else (iterBytes, value)
  | [] => (iterBytes, value)
  end.

(** [ChecksumInfo::create] *)
Definition checksum_create (type : ChecksumType) (pieces : list bytes) (length : Z) : ChecksumInfo :=
  if bool_decide (type = CHECKSUM_NONE) then no_checksum
  else let '(iterBytes, value) := create_loop type pieces length 0 max32 in
       if iterBytes =? length then mkChecksumInfo type value else no_checksum.

(** [create] on a buffer in memory. *)
Definition checksum_of_buffer (type : ChecksumType) (buffer : bytes) : ChecksumInfo :=
  checksum_create type (memory_pieces (length buffer) buffer) (Z.of_nat (length buffer)).

(** [ChecksumInfo::combine] *)
Definition checksum_combine (c o : ChecksumInfo) (length : Z) : outcome ChecksumInfo :=
  if bool_decide (ci_type c <> CHECKSUM_NONE) && bool_decide (ci_type c <> ci_type o)
  then Err StorageCode_kChecksumMismatch
  else if length =? 0 then Ok c
  else match ci_type c with
       | CHECKSUM_NONE => Ok o
       | CHECKSUM_CRC32C => Ok (mkChecksumInfo (ci_type c) (crc32c_combine (not32 (ci_value c)) (ci_value o) length))
       | CHECKSUM_CRC32 => Ok (mkChecksumInfo (ci_type c) (crc32_combine (not32 (ci_value c)) (ci_value o) length))
       end.
End checksums.

(** ** Results and keys *)

Record IOResult := mkIOResult {
  io_lengthInfo : outcome Z;
  io_commitVer : ChunkVer;
  io_updateVer : ChunkVer;
  io_checksum : ChecksumInfo;
  io_commitChainVer : ChainVer
}.

(** The default result, and [IOResult(makeError(code))]. *)
Definition IOResult_error (code : Z) : IOResult := mkIOResult (Err code) 0 0 no_checksum 0.
Definition IOResult_default : IOResult := IOResult_error StorageClientCode_kNotInitialized.
Definition set_io_lengthInfo v r := mkIOResult v (io_commitVer r) (io_updateVer r) (io_checksum r) (io_commitChainVer r).
Definition set_io_commitVer v r := mkIOResult (io_lengthInfo r) v (io_updateVer r) (io_checksum r) (io_commitChainVer r).
Definition set_io_updateVer v r := mkIOResult (io_lengthInfo r) (io_commitVer r) v (io_checksum r) (io_commitChainVer r).
Definition set_io_checksum v r := mkIOResult (io_lengthInfo r) (io_commitVer r) (io_updateVer r) v (io_commitChainVer r).
Definition set_io_commitChainVer v r := mkIOResult (io_lengthInfo r) (io_commitVer r) (io_updateVer r) (io_checksum r) v.

Record VersionedChainId := mkVersionedChainId {
  vc_chainId : ChainId;
  vc_chainVer : ChainVer
}.
#[export] Instance VersionedChainId_eq_dec : EqDecision VersionedChainId.
Proof. solve_decision. Defined.

Record GlobalKey := mkGlobalKey {
  gk_vChainId : VersionedChainId;
  gk_chunkId : ChunkId
}.
#[export] Instance GlobalKey_eq_dec : EqDecision GlobalKey.
Proof. solve_decision. Defined.

(** [GlobalKey::fromFileOffset]: [None] is an access outside [chainIds] or a
    division by zero. *)
Definition GlobalKey_default : GlobalKey := mkGlobalKey (mkVersionedChainId 0 0) [].
Definition fromFileOffset (chainIds : list VersionedChainId) (baseChunkId : ChunkId) (chunkSize fileOffset : Z)
    : option GlobalKey :=
  if chunkSize =? 0 then None
  else let chunkIndex := fileOffset / chunkSize in
       if chunkIndex >? max32 then Some GlobalKey_default
       else c ← chainIds !! Z.to_nat chunkIndex; Some (mkGlobalKey c (ChunkId_at baseChunkId chunkIndex)).

Record UpdateChannel := mkUpdateChannel {
  ch_id : ChannelId;
  ch_seqnum : ChannelSeqNum
}.
#[export] Instance UpdateChannel_eq_dec : EqDecision UpdateChannel.
Proof. solve_decision. Defined.

(** The client identifier is a 128-bit number. *)
Record MessageTag := mkMessageTag {
  tag_clientId : Z;
  tag_requestId : RequestId;
  tag_channel : UpdateChannel
}.
#[export] Instance MessageTag_eq_dec : EqDecision MessageTag.
Proof. solve_decision. Defined.

(** ** Requests *)

(** The remote buffer of a read is its size. *)
Record ReadIO := mkReadIO {
  rio_offset : Z;
  rio_length : Z;
  rio_key : GlobalKey;
  rio_rdmabuf : Z
}.
#[export] Instance ReadIO_eq_dec : EqDecision ReadIO.
Proof. solve_decision. Defined.

(** The remote buffer of an update is the bytes that a transfer from it yields. *)
Record UpdateIO := mkUpdateIO {
  uio_offset : Z;
  uio_length : Z;
  uio_chunkSize : Z;
  uio_key : GlobalKey;
  uio_rdmabuf : bytes;
  uio_updateVer : ChunkVer;
  uio_updateType : UpdateType;
  uio_checksum : ChecksumInfo;
  uio_inlinebuf : bytes
}.
#[export] Instance UpdateIO_eq_dec : EqDecision UpdateIO.
Proof. solve_decision. Defined.
Definition set_uio_offset v r := mkUpdateIO v (uio_length r) (uio_chunkSize r) (uio_key r) (uio_rdmabuf r) (uio_updateVer r) (uio_updateType r) (uio_checksum r) (uio_inlinebuf r).
Definition set_uio_length v r := mkUpdateIO (uio_offset r) v (uio_chunkSize r) (uio_key r) (uio_rdmabuf r) (uio_updateVer r) (uio_updateType r) (uio_checksum r) (uio_inlinebuf r).
Definition set_uio_key v r := mkUpdateIO (uio_offset r) (uio_length r) (uio_chunkSize r) v (uio_rdmabuf r) (uio_updateVer r) (uio_updateType r) (uio_checksum r) (uio_inlinebuf r).
Definition set_uio_rdmabuf v r := mkUpdateIO (uio_offset r) (uio_length r) (uio_chunkSize r) (uio_key r) v (uio_updateVer r) (uio_updateType r) (uio_checksum r) (uio_inlinebuf r).
Definition set_uio_updateVer v r := mkUpdateIO (uio_offset r) (uio_length r) (uio_chunkSize r) (uio_key r) (uio_rdmabuf r) v (uio_updateType r) (uio_checksum r) (uio_inlinebuf r).
Definition set_uio_updateType v r := mkUpdateIO (uio_offset r) (uio_length r) (uio_chunkSize r) (uio_key r) (uio_rdmabuf r) (uio_updateVer r) v (uio_checksum r) (uio_inlinebuf r).
Definition set_uio_checksum v r := mkUpdateIO (uio_offset r) (uio_length r) (uio_chunkSize r) (uio_key r) (uio_rdmabuf r) (uio_updateVer r) (uio_updateType r) v (uio_inlinebuf r).
Definition set_uio_inlinebuf v r := mkUpdateIO (uio_offset r) (uio_length r) (uio_chunkSize r) (uio_key r) (uio_rdmabuf r) (uio_updateVer r) (uio_updateType r) (uio_checksum r) v.

Definition isWrite (io : UpdateIO) : bool := bool_decide (uio_updateType io = UT_WRITE).
Definition isTruncate (io : UpdateIO) : bool := bool_decide (uio_updateType io = UT_TRUNCATE).
Definition isRemove (io : UpdateIO) : bool := bool_decide (uio_updateType io = UT_REMOVE).
Definition isExtend (io : UpdateIO) : bool := bool_decide (uio_updateType io = UT_EXTEND).
Definition isWriteTruncateExtend (io : UpdateIO) : bool := isWrite io || isTruncate io || isExtend io.

Record CommitIO := mkCommitIO {
  cio_key : GlobalKey;
  cio_commitVer : ChunkVer;
  cio_isSyncing : bool;
  cio_commitChainVer : ChainVer;
  cio_isRemove : bool;
  cio_isForce : bool
}.
#[export] Instance CommitIO_eq_dec : EqDecision CommitIO.
Proof. solve_decision. Defined.
Definition CommitIO_default : CommitIO := mkCommitIO GlobalKey_default 0 false 0 false false.
Definition set_cio_key v r := mkCommitIO v (cio_commitVer r) (cio_isSyncing r) (cio_commitChainVer r) (cio_isRemove r) (cio_isForce r).
Definition set_cio_commitVer v r := mkCommitIO (cio_key r) v (cio_isSyncing r) (cio_commitChainVer r) (cio_isRemove r) (cio_isForce r).
Definition set_cio_isSyncing v r := mkCommitIO (cio_key r) (cio_commitVer r) v (cio_commitChainVer r) (cio_isRemove r) (cio_isForce r).
Definition set_cio_commitChainVer v r := mkCommitIO (cio_key r) (cio_commitVer r) (cio_isSyncing r) v (cio_isRemove r) (cio_isForce r).
Definition set_cio_isRemove v r := mkCommitIO (cio_key r) (cio_commitVer r) (cio_isSyncing r) (cio_commitChainVer r) v (cio_isForce r).
Definition set_cio_isForce v r := mkCommitIO (cio_key r) (cio_commitVer r) (cio_isSyncing r) (cio_commitChainVer r) (cio_isRemove r) v.

Record UpdateOptions := mkUpdateOptions {
  uo_isSyncing : bool;
  uo_fromClient : bool;
  uo_commitChainVer : ChainVer
}.
#[export] Instance UpdateOptions_eq_dec : EqDecision UpdateOptions.
Proof. solve_decision. Defined.
Definition UpdateOptions_default : UpdateOptions := mkUpdateOptions false false 0.
Definition set_uo_isSyncing v r := mkUpdateOptions v (uo_fromClient r) (uo_commitChainVer r).
Definition set_uo_fromClient v r := mkUpdateOptions (uo_isSyncing r) v (uo_commitChainVer r).
Definition set_uo_commitChainVer v r := mkUpdateOptions (uo_isSyncing r) (uo_fromClient r) v.

Record UpdateReq := mkUpdateReq {
  ur_payload : UpdateIO;
  ur_options : UpdateOptions;
  ur_tag : MessageTag;
  ur_retryCount : Z;
  ur_featureFlags : Z
}.
#[export] Instance UpdateReq_eq_dec : EqDecision UpdateReq.
Proof. solve_decision. Defined.
Definition set_ur_payload v r := mkUpdateReq v (ur_options r) (ur_tag r) (ur_retryCount r) (ur_featureFlags r).
Definition set_ur_options v r := mkUpdateReq (ur_payload r) v (ur_tag r) (ur_retryCount r) (ur_featureFlags r).
Definition set_ur_retryCount v r := mkUpdateReq (ur_payload r) (ur_options r) (ur_tag r) v (ur_featureFlags r).
Definition set_ur_featureFlags v r := mkUpdateReq (ur_payload r) (ur_options r) (ur_tag r) (ur_retryCount r) v.

Record ChunkIdRange := mkChunkIdRange {
  cr_begin : ChunkId;
  cr_end : ChunkId;
  cr_maxNumChunkIdsToProcess : Z
}.
#[export] Instance ChunkIdRange_eq_dec : EqDecision ChunkIdRange.
Proof. solve_decision. Defined.

(** ** Chunk metadata *)

Record ChunkFileId := mkChunkFileId {
  cf_chunkSize : Z;
  cf_chunkIdx : Z
}.
#[export] Instance ChunkFileId_eq_dec : EqDecision ChunkFileId.
Proof. solve_decision. Defined.
#[export] Instance ChunkFileId_countable : Countable ChunkFileId.
Proof.
  refine (inj_countable' (fun f => (cf_chunkSize f, cf_chunkIdx f)) (fun p => mkChunkFileId p.1 p.2) _). by intros [].
Defined.

(** [lastNodeId] is never read or written by the modelled code. *)
Record ChunkMetadata := mkChunkMetadata {
  cm_commitVer : ChunkVer;
  cm_updateVer : ChunkVer;
  cm_chainVer : ChainVer;
  cm_size : Z;
  cm_chunkState : ChunkState;
  cm_recycleState : RecycleState;
  cm_checksumType : ChecksumType;
  cm_checksumValue : Z;
  cm_lastRequestId : RequestId;
  cm_innerOffset : Z;
  cm_innerFileId : ChunkFileId;
  cm_lastClientUuid : Z;
  cm_timestamp : UtcTime
}.
#[export] Instance ChunkMetadata_eq_dec : EqDecision ChunkMetadata.
Proof. solve_decision. Defined.
Definition ChunkMetadata_default : ChunkMetadata :=
  mkChunkMetadata 0 0 0 0 CHUNK_COMMIT RECYCLE_NORMAL CHECKSUM_NONE 0 0 0 (mkChunkFileId 0 0) 0 0.
Definition set_cm_commitVer v r := mkChunkMetadata v (cm_updateVer r) (cm_chainVer r) (cm_size r) (cm_chunkState r) (cm_recycleState r) (cm_checksumType r) (cm_checksumValue r) (cm_lastRequestId r) (cm_innerOffset r) (cm_innerFileId r) (cm_lastClientUuid r) (cm_timestamp r).
Definition set_cm_updateVer v r := mkChunkMetadata (cm_commitVer r) v (cm_chainVer r) (cm_size r) (cm_chunkState r) (cm_recycleState r) (cm_checksumType r) (cm_checksumValue r) (cm_lastRequestId r) (cm_innerOffset r) (cm_innerFileId r) (cm_lastClientUuid r) (cm_timestamp r).
Definition set_cm_chainVer v r := mkChunkMetadata (cm_commitVer r) (cm_updateVer r) v (cm_size r) (cm_chunkState r) (cm_recycleState r) (cm_checksumType r) (cm_checksumValue r) (cm_lastRequestId r) (cm_innerOffset r) (cm_innerFileId r) (cm_lastClientUuid r) (cm_timestamp r).
Definition set_cm_size v r := mkChunkMetadata (cm_commitVer r) (cm_updateVer r) (cm_chainVer r) v (cm_chunkState r) (cm_recycleState r) (cm_checksumType r) (cm_checksumValue r) (cm_lastRequestId r) (cm_innerOffset r) (cm_innerFileId r) (cm_lastClientUuid r) (cm_timestamp r).
Definition set_cm_chunkState v r := mkChunkMetadata (cm_commitVer r) (cm_updateVer r) (cm_chainVer r) (cm_size r) v (cm_recycleState r) (cm_checksumType r) (cm_checksumValue r) (cm_lastRequestId r) (cm_innerOffset r) (cm_innerFileId r) (cm_lastClientUuid r) (cm_timestamp r).
Definition set_cm_recycleState v r := mkChunkMetadata (cm_commitVer r) (cm_updateVer r) (cm_chainVer r) (cm_size r) (cm_chunkState r) v (cm_checksumType r) (cm_checksumValue r) (cm_lastRequestId r) (cm_innerOffset r) (cm_innerFileId r) (cm_lastClientUuid r) (cm_timestamp r).
Definition set_cm_checksumType v r := mkChunkMetadata (cm_commitVer r) (cm_updateVer r) (cm_chainVer r) (cm_size r) (cm_chunkState r) (cm_recycleState r) v (cm_checksumValue r) (cm_lastRequestId r) (cm_innerOffset r) (cm_innerFileId r) (cm_lastClientUuid r) (cm_timestamp r).
Definition set_cm_checksumValue v r := mkChunkMetadata (cm_commitVer r) (cm_updateVer r) (cm_chainVer r) (cm_size r) (cm_chunkState r) (cm_recycleState r) (cm_checksumType r) v (cm_lastRequestId r) (cm_innerOffset r) (cm_innerFileId r) (cm_lastClientUuid r) (cm_timestamp r).
Definition set_cm_lastRequestId v r := mkChunkMetadata (cm_commitVer r) (cm_updateVer r) (cm_chainVer r) (cm_size r) (cm_chunkState r) (cm_recycleState r) (cm_checksumType r) (cm_checksumValue r) v (cm_innerOffset r) (cm_innerFileId r) (cm_lastClientUuid r) (cm_timestamp r).
Definition set_cm_innerOffset v r := mkChunkMetadata (cm_commitVer r) (cm_updateVer r) (cm_chainVer r) (cm_size r) (cm_chunkState r) (cm_recycleState r) (cm_checksumType r) (cm_checksumValue r) (cm_lastRequestId r) v (cm_innerFileId r) (cm_lastClientUuid r) (cm_timestamp r).
Definition set_cm_innerFileId v r := mkChunkMetadata (cm_commitVer r) (cm_updateVer r) (cm_chainVer r) (cm_size r) (cm_chunkState r) (cm_recycleState r) (cm_checksumType r) (cm_checksumValue r) (cm_lastRequestId r) (cm_innerOffset r) v (cm_lastClientUuid r) (cm_timestamp r).
Definition set_cm_lastClientUuid v r := mkChunkMetadata (cm_commitVer r) (cm_updateVer r) (cm_chainVer r) (cm_size r) (cm_chunkState r) (cm_recycleState r) (cm_checksumType r) (cm_checksumValue r) (cm_lastRequestId r) (cm_innerOffset r) (cm_innerFileId r) v (cm_timestamp r).
Definition set_cm_timestamp v r := mkChunkMetadata (cm_commitVer r) (cm_updateVer r) (cm_chainVer r) (cm_size r) (cm_chunkState r) (cm_recycleState r) (cm_checksumType r) (cm_checksumValue r) (cm_lastRequestId r) (cm_innerOffset r) (cm_innerFileId r) (cm_lastClientUuid r) v.

Definition readyToRemove (m : ChunkMetadata) : bool := negb (bool_decide (cm_recycleState m = RECYCLE_NORMAL)).
Definition cm_checksum (m : ChunkMetadata) : ChecksumInfo := mkChecksumInfo (cm_checksumType m) (cm_checksumValue m).

Record ChunkMeta := mkChunkMeta {
  cmeta_chunkId : ChunkId;
  cmeta_updateVer : ChunkVer;
  cmeta_commitVer : ChunkVer;
  cmeta_chainVer : ChainVer;
  cmeta_chunkState : ChunkState;
  cmeta_checksum : ChecksumInfo;
  cmeta_length : Z
}.
#[export] Instance ChunkMeta_eq_dec : EqDecision ChunkMeta.
Proof. solve_decision. Defined.

Record ChunkPosition := mkChunkPosition {
  pos_fileIdx : Z;
  pos_offset : Z
}.
#[export] Instance ChunkPosition_eq_dec : EqDecision ChunkPosition.
Proof. solve_decision. Defined.
#[export] Instance ChunkPosition_countable : Countable ChunkPosition.
Proof.
  refine (inj_countable' (fun f => (pos_fileIdx f, pos_offset f)) (fun p => mkChunkPosition p.1 p.2) _). by intros [].
Defined.

(** [kMaxChunkSize] *)
Definition kMaxChunkSize : Z := 67108864.

(** * Chunk identifiers ([ChunkId], [src/fbs/storage/Common.{h,cc}])

    Identifiers of one length are ordered as big-endian numbers; [nextChunkId]
    is the successor, the index of a chunk is added to the number, and the text
    form reads back. *)

(** The number a big-endian byte string stands for. *)
Definition be_value (id : bytes) : Z := le_value (rev id).

Lemma be_value_range id : Forall is_byte id -> 0 <= be_value id < 2 ^ (8 * Z.of_nat (length id)).
Proof. intros H. rewrite <-(length_rev id). apply le_value_range, Forall_rev, H. Qed.

Lemma be_value_compare a b :
  Forall is_byte a -> Forall is_byte b -> length a = length b ->
  bytes_compare a b = (be_value a ?= be_value b).
Proof.
  intros Ha Hb Hlen.
  assert (forall x, Forall is_byte x -> rev (le_bytes (length x) (be_value x)) = x) as E.
  { intros x Hx. unfold be_value. rewrite <-(length_rev x), le_bytes_value by by apply Forall_rev. apply rev_involutive. }
  rewrite <-(E a Ha), <-(E b Hb), Hlen at 1. apply be_compare; [rewrite <-Hlen|]; by apply be_value_range.
Qed.

Lemma be_value_inj a b :
  Forall is_byte a -> Forall is_byte b -> length a = length b -> be_value a = be_value b -> a = b.
Proof. intros Ha Hb Hlen E. apply bytes_compare_eq. by rewrite be_value_compare, E, Z.compare_refl. Qed.

(** ** Successors *)

Lemma next_rev_spec r :
  Forall is_byte r ->
  Forall is_byte (next_rev r) /\ length (next_rev r) = length r
  /\ le_value (next_rev r) = (le_value r + 1) mod 2 ^ (8 * Z.of_nat (length r)).
Proof.
  induction 1 as [|b r Hb Hr (IHb & IHl & IHv)]; [done|]. cbn [next_rev]. unfold u8, wrap, is_byte in *.
  pose proof (le_value_range r Hr) as Hrange. set (n := 8 * Z.of_nat (length r)) in *.
  replace (8 * Z.of_nat (length (b :: r))) with (8 + n) by (simpl; lia). rewrite Z.pow_add_r by lia.
  change (2 ^ 8) with 256. destruct (decide (b = 255)) as [->|Hne].
  - change ((255 + 1) mod 256) with 0. simpl Z.eqb. cbn iota. split; [by constructor|]. split; [simpl; lia|].
    simpl le_value. rewrite IHv.
    replace (255 + 256 * le_value r + 1) with (256 * (le_value r + 1)) by lia. by rewrite Z.mul_mod_distr_l by lia.
  - rewrite Z.mod_small by lia. rewrite (proj2 (Z.eqb_neq _ _)) by lia.
    split; [constructor; [unfold is_byte; lia|done]|]. split; [done|]. simpl le_value. rewrite Z.mod_small by lia. lia.
Qed.

Lemma nextChunkId_spec id :
  Forall is_byte id ->
  Forall is_byte (nextChunkId id) /\ length (nextChunkId id) = length id
  /\ be_value (nextChunkId id) = (be_value id + 1) mod 2 ^ (8 * Z.of_nat (length id)).
Proof.
  intros H. destruct (next_rev_spec (rev id)) as (Hb & Hl & Hv); [by apply Forall_rev|].
  unfold nextChunkId, be_value. rewrite length_rev in *. rewrite rev_involutive. split; [by apply Forall_rev|]. done.
Qed.

Lemma be_value_max n : be_value (replicate n 255) = 2 ^ (8 * Z.of_nat n) - 1.
Proof.
  unfold be_value. assert (rev (replicate n 255) = replicate n 255) as ->.
  { induction n as [|n IH]; [done|]. cbn [replicate rev]. rewrite IH. symmetry. apply replicate_cons_app. }
  induction n as [|n IH]; [done|]. cbn [replicate le_value].
  rewrite IH. replace (8 * Z.of_nat (S n)) with (8 + 8 * Z.of_nat n) by lia. rewrite Z.pow_add_r by lia. lia.
Qed.

(** Unless all bytes are 255, [nextChunkId] is the least identifier of its
    length above the given one. *)
Theorem chunk_id_successor (id : ChunkId) :
  Forall is_byte id -> id <> replicate (length id) 255 ->
  bytes_lt id (nextChunkId id)
  /\ (forall x, Forall is_byte x -> length x = length id -> bytes_lt id x ->
      x = nextChunkId id \/ bytes_lt (nextChunkId id) x).
Proof.
  intros Hb Hmax. destruct (nextChunkId_spec id Hb) as (Hnb & Hnl & Hnv). pose proof (be_value_range id Hb) as Hr.
  assert (be_value id + 1 < 2 ^ (8 * Z.of_nat (length id))) as Hlt.
  { assert (be_value (replicate (length id) 255) = 2 ^ (8 * Z.of_nat (length id)) - 1) as Emax
      by apply be_value_max.
    destruct (decide (be_value id + 1 = 2 ^ (8 * Z.of_nat (length id)))); [|lia].
    exfalso. apply Hmax, be_value_inj; [done|by apply Forall_replicate; unfold is_byte; lia|by rewrite length_replicate|lia]. }
  rewrite Z.mod_small in Hnv by lia. unfold bytes_lt. split.
  - rewrite be_value_compare by done. rewrite Hnv. apply Z.compare_lt_iff. lia.
  - intros x Hx Hxl. rewrite !be_value_compare by (done || lia). rewrite !Z.compare_lt_iff, Hnv. intros Hxv.
    destruct (decide (be_value x = be_value id + 1)); [left|right; lia].
    apply be_value_inj; [done|done|lia|lia].
Qed.

(** ** Indices of the chunks of a file *)

Lemma be_value_app a b : be_value (a ++ b) = be_value a * 2 ^ (8 * Z.of_nat (length b)) + be_value b.
Proof.
  unfold be_value. rewrite rev_app_distr. rewrite <-(length_rev b). generalize (rev b) as l. intros l.
  induction l as [|x l IH]; [simpl; lia|]. cbn [app le_value length].
  rewrite IH. replace (8 * Z.of_nat (S (length l))) with (8 + 8 * Z.of_nat (length l)) by lia.
  rewrite Z.pow_add_r by lia. change (2 ^ 8) with 256. lia.
Qed.

Lemma ChunkId_at_spec base i :
  Forall is_byte base -> (8 <= length base)%nat ->
  be_value (drop (length base - 8) base) + i < 2 ^ 64 -> 0 <= i ->
  Forall is_byte (ChunkId_at base i) /\ length (ChunkId_at base i) = length base
  /\ be_value (ChunkId_at base i) = be_value base + i.
Proof.
  intros Hb Hlen Hov Hi. unfold ChunkId_at. rewrite bool_decide_eq_false_2 by lia.
  set (p := take _ _). set (q := drop _ _) in *.
  assert (length q = 8%nat) as Hq by (unfold q; rewrite length_drop; lia).
  assert (Forall is_byte q) as Hqb by by apply Forall_drop.
  assert (big64 (le_value q) = be_value q) as ->.
  { unfold big64, be_value. by rewrite <-Hq, le_bytes_value. }
  pose proof (be_value_range q Hqb) as Hqr. rewrite Hq in Hqr. change (8 * Z.of_nat 8) with 64 in Hqr.
  rewrite u64_small by lia. rewrite le_bytes_big64. split; [|split].
  - apply Forall_app. split; [by apply Forall_take|apply Forall_rev, le_bytes_byte].
  - rewrite length_app, length_rev, le_bytes_length. unfold p. rewrite length_take. lia.
  - rewrite be_value_app. rewrite <-(take_drop (length base - 8) base) at 1. fold p q. rewrite be_value_app, Hq.
    rewrite length_rev, le_bytes_length. unfold be_value at 2. rewrite rev_involutive, le_value_bytes, Z.mod_small; [lia|].
    change (8 * Z.of_nat 8) with 64. lia.
Qed.

(** ** Text form *)

Lemma digit_of_hex v : 0 <= v < 16 -> digit_value (hex_digit v) = Some v.
Proof.
  intros Hv.
  assert (v = 0 \/ v = 1 \/ v = 2 \/ v = 3 \/ v = 4 \/ v = 5 \/ v = 6 \/ v = 7 \/ v = 8 \/ v = 9 \/ v = 10 \/ v = 11
          \/ v = 12 \/ v = 13 \/ v = 14 \/ v = 15) as Hin by lia.
  by destruct_or! Hin; subst.
Qed.

Lemma fromString_describe i data out :
  Forall is_byte data ->
  fromString_loop (describe_from i data) None out = fromString_loop [] None (out ++ data).
Proof.
  intros H. revert i out. induction H as [|b data Hb Hd IH]; intros i out; [by rewrite app_nil_r|].
  cbn [describe_from]. unfold is_byte in Hb.
  assert (0 <= b / 16 < 16) by (split; [apply Z.div_pos; lia|apply Z.div_lt_upper_bound; lia]).
  pose proof (Z.mod_pos_bound b 16 ltac:(lia)).
  assert (fromString_loop ([hex_digit (b / 16); hex_digit (b mod 16)] ++ describe_from (i + 1) data) None out
          = fromString_loop [] None (out ++ b :: data)) as E.
  { change (out ++ b :: data) with (out ++ [b] ++ data). rewrite app_assoc, <-(IH (i + 1)).
    cbn [app fromString_loop]. rewrite !digit_of_hex by done.
    pose proof (Z.div_mod b 16 ltac:(lia)). unfold u8, wrap. rewrite Z.mod_small by lia.
    by replace (b / 16 * 16 + b mod 16) with b by lia. }
  destruct (_ && _); [|exact E]. exact E.
Qed.

(** Reading back the text form of a 16-byte identifier gives the identifier. *)
Theorem chunk_id_text_roundtrip (id : ChunkId) :
  Forall is_byte id -> length id = 16%nat -> fromString (describe id) = Ok id.
Proof.
  intros Hb Hlen. unfold fromString, describe. destruct id as [|b id]; [done|].
  assert (describe_from 0 (b :: id) <> []) as Hne by done.
  transitivity (fromString_loop (describe_from 0 (b :: id)) None []); [by destruct (describe_from 0 (b :: id))|].
  rewrite fromString_describe by done. cbn [fromString_loop app]. by rewrite bool_decide_eq_true_2.
Qed.

(** A last lone digit is dropped without an error. *)
Example fromString_drops_half_digit : fromString (describe (replicate 16 171) ++ [70]) = Ok (replicate 16 171).
Proof. vm_compute. reflexivity. Qed.

(** An index is not added to a short base identifier: all chunks of the file
    get the same identifier. *)
Example short_base_ignores_index : ChunkId_at [1;2;3] 7 = ChunkId_at [1;2;3] 8.
Proof. vm_compute. reflexivity. Qed.
