(* ===== verification/Checksums.v ===== *)
(** * Checksums of chunk data ([ChecksumInfo], [src/fbs/storage/Common.h])

    [create] does not depend on how an iterator splits the data, and
    [combine] of the checksums of two pieces is the checksum of both together.
    The laws assumed of the checksum functions hold of CRC-32C and CRC-32. *)

From stdpp Require Import base list.
From Stdlib Require Import ZArith Lia.
From S2P Require Import Prelude StatusCode Bytes StorageTypes.

Section create.
Context `{!Crc} `{!CrcLaws}.

(** The checksum of some data, independent of how it is computed. *)
Definition checksum_ref (t : ChecksumType) (data : bytes) : ChecksumInfo := mkChecksumInfo t (crc_step t data max32).

Lemma crc_step_nil t s : crc_step t [] s = s.
Proof. destruct t; simpl; [done|apply crc32c_laws|apply crc32_laws]. Qed.

Lemma crc_step_app t a b s : crc_step t (a ++ b) s = crc_step t b (crc_step t a s).
Proof. destruct t; simpl; [done|apply crc32c_laws|apply crc32_laws]. Qed.

Lemma create_loop_pieces t pieces len n s :
  Forall (fun p => p <> []) pieces ->
  n + Z.of_nat (length (concat pieces)) <= len ->
  create_loop t pieces len n s = (n + Z.of_nat (length (concat pieces)), crc_step t (concat pieces) s).
Proof.
  revert n s. induction pieces as [|p pieces IH]; intros n s HF Hlen; simpl.
  - by rewrite crc_step_nil, Z.add_0_r.
  - apply Forall_cons in HF as [Hp HF]. simpl in Hlen. rewrite length_app, Nat2Z.inj_add in *.
    assert (0 < Z.of_nat (length p)) by (destruct p; simpl; [done|lia]).
    rewrite (proj2 (Z.ltb_lt _ _)) by lia. rewrite IH by (done || lia). rewrite crc_step_app. f_equal. lia.
Qed.

(** An iterator that yields all the data. *)
Lemma create_of_pieces t pieces len :
  t <> CHECKSUM_NONE -> Forall (fun p => p <> []) pieces -> Z.of_nat (length (concat pieces)) = len ->
  checksum_create t pieces len = checksum_ref t (concat pieces).
Proof.
  intros Ht HF Hlen. unfold checksum_create. rewrite bool_decide_eq_false_2 by done.
  rewrite create_loop_pieces by (done || lia). simpl. rewrite Hlen, Z.eqb_refl. done.
Qed.

(** An iterator that stops early, for example because a read failed. *)
Lemma create_of_short t pieces len :
  Forall (fun p => p <> []) pieces -> Z.of_nat (length (concat pieces)) < len ->
  checksum_create t pieces len = no_checksum.
Proof.
  intros HF Hlen. unfold checksum_create. case_bool_decide; [done|].
  rewrite create_loop_pieces by (done || lia). simpl. rewrite (proj2 (Z.eqb_neq _ _)) by lia. done.
Qed.

Lemma memory_pieces_spec fuel buffer :
  (length buffer <= fuel)%nat ->
  concat (memory_pieces fuel buffer) = buffer /\ Forall (fun p => p <> []) (memory_pieces fuel buffer).
Proof.
  revert buffer. induction fuel as [|fuel IH]; intros buffer Hlen; destruct buffer as [|b buffer]; try done.
  - by (simpl in Hlen; lia).
  - cbn [memory_pieces]. set (size := Z.to_nat _).
    assert (1 <= size <= length (b :: buffer))%nat as Hsize.
    { unfold size, kChecksumChunkSize. cbn [length] in *. lia. }
    destruct (IH (drop size (b :: buffer))) as [Hc HF]; [rewrite length_drop; cbn [length] in *; lia|].
    cbn [concat]. rewrite Hc, take_drop. split; [done|]. apply Forall_cons. split; [|done].
    destruct size; [lia|done].
Qed.

Lemma checksum_of_buffer_ref t data :
  t <> CHECKSUM_NONE -> checksum_of_buffer t data = checksum_ref t data.
Proof.
  intros Ht. unfold checksum_of_buffer. destruct (memory_pieces_spec (length data) data) as [Hc HF]; [lia|].
  rewrite create_of_pieces; rewrite ?Hc; done.
Qed.

Lemma checksum_combine_ref t a b n :
  t <> CHECKSUM_NONE -> n = Z.of_nat (length b) ->
  checksum_combine (checksum_ref t a) (checksum_ref t b) n = Ok (checksum_ref t (a ++ b)).
Proof.
  intros Ht ->. unfold checksum_combine, checksum_ref. simpl. rewrite (bool_decide_eq_false_2 (t <> t)) by naive_solver.
  rewrite andb_false_r. case_match eqn:E.
  - destruct b; [|simpl in E; lia]. by rewrite app_nil_r.
  - destruct t; [done|..]; do 2 f_equal; [apply crc32c_laws|apply crc32_laws].
Qed.

(** A piece of length zero is not looked at. *)
Lemma checksum_combine_zero c o : ci_type o = ci_type c -> checksum_combine c o 0 = Ok c.
Proof.
  intros E. unfold checksum_combine. rewrite E. rewrite (bool_decide_eq_false_2 (ci_type c <> ci_type c)) by naive_solver.
  by rewrite andb_false_r.
Qed.

(** C38: Splitting data at any points and combining the checksums of the pieces,
    as updates and reads of parts of a chunk do, gives the checksum of the
    whole. *)
Theorem checksum_split_independent (t : ChecksumType) (a b : bytes) :
  t <> CHECKSUM_NONE ->
  checksum_of_buffer t (a ++ b) = checksum_ref t (a ++ b)
  /\ checksum_combine (checksum_of_buffer t a) (checksum_of_buffer t b) (Z.of_nat (length b))
     = Ok (checksum_of_buffer t (a ++ b)).
Proof. intros Ht. rewrite !checksum_of_buffer_ref by done. split; [done|]. by apply checksum_combine_ref. Qed.
End create.

(** ** The polynomial checksums

    A register is shifted right one bit at a time, and the reflected
    polynomial is added when a one falls out. *)
Section polynomial.
Variable poly : Z.
Hypothesis Hpoly : 0 <= poly < 2 ^ 32.

Definition crc_bit (r : Z) : Z := Z.lxor (Z.shiftr r 1) (if Z.odd r then poly else 0).
Definition crc_byte (r : Z) : Z := Nat.iter 8 crc_bit r.
Definition crc_poly (data : bytes) (s : Z) : Z := fold_left (fun r b => crc_byte (Z.lxor r (b mod 256))) data s.
(** Appending [n] zero bytes to the message of the first checksum. *)
Definition crc_poly_combine (c1 c2 n : Z) : Z := Z.lxor (Nat.iter (Z.to_nat n) crc_byte c1) c2.

Lemma crc_bit_lxor x y : crc_bit (Z.lxor x y) = Z.lxor (crc_bit x) (crc_bit y).
Proof.
  unfold crc_bit. rewrite Z.shiftr_lxor.
  replace (Z.odd (Z.lxor x y)) with (xorb (Z.odd x) (Z.odd y)) by (by rewrite <-!Z.bit0_odd, Z.lxor_spec).
  destruct (Z.odd x), (Z.odd y); simpl; rewrite ?Z.lxor_0_r.
  - rewrite <-!Z.lxor_assoc, (Z.lxor_assoc (Z.shiftr x 1)), (Z.lxor_comm poly), <-!Z.lxor_assoc, Z.lxor_assoc, Z.lxor_nilpotent.
    by rewrite Z.lxor_0_r.
  - rewrite !Z.lxor_assoc. f_equal. apply Z.lxor_comm.
  - by rewrite Z.lxor_assoc.
  - done.
Qed.

Lemma iter_lxor (f : Z -> Z) n x y :
  (forall x y, f (Z.lxor x y) = Z.lxor (f x) (f y)) ->
  Nat.iter n f (Z.lxor x y) = Z.lxor (Nat.iter n f x) (Nat.iter n f y).
Proof. intros Hf. induction n as [|n IH]; [done|]. rewrite !Nat.iter_succ, IH. apply Hf. Qed.

Lemma crc_byte_lxor x y : crc_byte (Z.lxor x y) = Z.lxor (crc_byte x) (crc_byte y).
Proof. apply iter_lxor, crc_bit_lxor. Qed.

Lemma fold_start (f : Z -> Z) data s t :
  (forall x y, f (Z.lxor x y) = Z.lxor (f x) (f y)) ->
  fold_left (fun r b => f (Z.lxor r (b mod 256))) data (Z.lxor s t)
  = Z.lxor (fold_left (fun r b => f (Z.lxor r (b mod 256))) data s) (Nat.iter (length data) f t).
Proof.
  intros Hf. revert s t. induction data as [|b data IH]; intros s t; [done|]. cbn [fold_left length].
  rewrite Nat.iter_succ_r, <-IH, <-Hf, !Z.lxor_assoc, (Z.lxor_comm t). done.
Qed.

(** The effect of the starting value is separate from that of the data. *)
Lemma crc_poly_start data s t :
  crc_poly data (Z.lxor s t) = Z.lxor (crc_poly data s) (Nat.iter (length data) crc_byte t).
Proof. apply (fold_start crc_byte), crc_byte_lxor. Qed.

Lemma lxor_range n x y : 0 <= n -> 0 <= x < 2 ^ n -> 0 <= y < 2 ^ n -> 0 <= Z.lxor x y < 2 ^ n.
Proof.
  intros Hn Hx Hy. assert (Z.land (Z.lxor x y) (Z.ones n) = Z.lxor x y) as E.
  { apply Z.bits_inj'. intros i Hi. rewrite Z.land_spec, Z.lxor_spec.
    destruct (decide (i < n)) as [Hlt|Hge]; [by rewrite Z.ones_spec_low, andb_true_r by lia|].
    rewrite Z.ones_spec_high, andb_false_r by lia.
    assert (forall z, 0 <= z < 2 ^ n -> Z.testbit z i = false) as Hz.
    { intros z Hz. destruct (decide (z = 0)) as [->|]; [apply Z.testbit_0_l|].
      apply Z.bits_above_log2; [lia|]. assert (Z.log2 z < n); [apply Z.log2_lt_pow2; lia|lia]. }
    by rewrite !Hz. }
  rewrite Z.land_ones in E by done. rewrite <-E. apply Z.mod_pos_bound. lia.
Qed.

Lemma crc_bit_range r : 0 <= r < 2 ^ 32 -> 0 <= crc_bit r < 2 ^ 32.
Proof.
  intros Hr. apply lxor_range; [lia| |destruct (Z.odd r); lia].
  rewrite Z.shiftr_div_pow2 by lia. change (2 ^ 1) with 2. split; [apply Z.div_pos; lia|].
  apply Z.div_lt_upper_bound; lia.
Qed.

Lemma crc_poly_range data s : 0 <= s < 2 ^ 32 -> 0 <= crc_poly data s < 2 ^ 32.
Proof.
  revert s. induction data as [|b data IH]; intros s Hs; [done|]. unfold crc_poly in *. cbn [fold_left]. apply IH.
  assert (forall n r, 0 <= r < 2 ^ 32 -> 0 <= Nat.iter n crc_bit r < 2 ^ 32) as Hiter.
  { intros n. induction n as [|n IHn]; intros r Hr; [done|]. rewrite Nat.iter_succ. by apply crc_bit_range, IHn. }
  apply Hiter. apply lxor_range; [lia|done|]. pose proof (Z.mod_pos_bound b 256). lia.
Qed.

Lemma not32_lxor v : 0 <= v < 2 ^ 32 -> not32 v = Z.lxor v max32.
Proof.
  intros Hv. unfold not32, max32. change (2 ^ 32 - 1) with (Z.ones 32).
  rewrite Z.sub_nocarry_ldiff.
  - apply Z.bits_inj'. intros i Hi. rewrite Z.ldiff_spec, Z.lxor_spec.
    destruct (decide (i < 32)); [rewrite Z.ones_spec_low by lia; by destruct (Z.testbit v i)|].
    rewrite Z.ones_spec_high by lia. destruct (decide (v = 0)) as [->|]; [by rewrite Z.testbit_0_l|].
    rewrite Z.bits_above_log2; [done|lia|]. assert (Z.log2 v < 32); [apply Z.log2_lt_pow2; lia|lia].
  - apply Z.bits_inj'. intros i Hi. rewrite Z.ldiff_spec, Z.testbit_0_l.
    destruct (decide (i < 32)); [rewrite Z.ones_spec_low by lia; by rewrite andb_false_r|].
    destruct (decide (v = 0)) as [->|]; [by rewrite Z.testbit_0_l|].
    rewrite Z.bits_above_log2; [done|lia|]. assert (Z.log2 v < 32); [apply Z.log2_lt_pow2; lia|lia].
Qed.

Lemma crc_poly_laws : crc_laws crc_poly crc_poly_combine.
Proof.
  split.
  - done.
  - intros a b s. unfold crc_poly. apply fold_left_app.
  - intros a s Hs. unfold max32 in *. pose proof (crc_poly_range a s). lia.
  - intros a b. unfold crc_poly_combine. rewrite Nat2Z.id. unfold crc_poly at 3. rewrite fold_left_app.
    fold (crc_poly a max32). fold (crc_poly b (crc_poly a max32)).
    assert (0 <= crc_poly a max32 < 2 ^ 32) as Ha by (apply crc_poly_range; unfold max32; lia).
    rewrite not32_lxor by done. set (va := crc_poly a max32) in *.
    replace (crc_poly b va) with (crc_poly b (Z.lxor max32 (Z.lxor va max32)));
      [rewrite crc_poly_start; apply Z.lxor_comm|].
    f_equal. rewrite Z.lxor_comm, Z.lxor_assoc, Z.lxor_nilpotent. apply Z.lxor_0_r.
Qed.
End polynomial.

(** CRC-32C and CRC-32. *)
Definition crc32c_poly : Z := 2197175160.
Definition crc32_poly : Z := 3988292384.
Definition Crc_real : Crc :=
  {| crc32c := crc_poly crc32c_poly; crc32 := crc_poly crc32_poly;
     crc32c_combine := crc_poly_combine crc32c_poly; crc32_combine := crc_poly_combine crc32_poly |}.
Lemma Crc_real_laws : @CrcLaws Crc_real.
Proof. split; apply crc_poly_laws; unfold crc32c_poly, crc32_poly; lia. Qed.

(** The published check value of CRC-32C for the digits 1 to 9. *)
Example crc32c_check_value : not32 (@crc32c Crc_real [49;50;51;52;53;54;55;56;57] max32) = 3808858755.
Proof. vm_compute. reflexivity. Qed.

Lemma checksum_split_independent_witness :
  @checksum_of_buffer Crc_real CHECKSUM_CRC32C ([1; 2] ++ [3]) = @checksum_ref Crc_real CHECKSUM_CRC32C ([1; 2] ++ [3])
  /\ @checksum_combine Crc_real (@checksum_of_buffer Crc_real CHECKSUM_CRC32C [1; 2]) (@checksum_of_buffer Crc_real CHECKSUM_CRC32C [3]) 1
     = Ok (@checksum_of_buffer Crc_real CHECKSUM_CRC32C ([1; 2] ++ [3])).
Proof. apply (@checksum_split_independent Crc_real Crc_real_laws CHECKSUM_CRC32C [1; 2] [3]). discriminate. Defined.
