(* ===== verification/ChunkFiles.v ===== *)
(** * Chunk files ([src/storage/store/ChunkFile{View,Store}], [GlobalFileStore])

    The physical files that hold the bytes of chunks, and the device under
    them.  A file is a sparse array of bytes with a size; bytes never written,
    or punched out, read as zero.  The device also holds the key-value store of
    a target, abstract here ([K]).  Every access takes its fate from a queue:
    the next read fails when the head of [d_rfaults] is [Some n], an iteration
    over keys after [n] of them; the next write fails when the head of
    [d_wfaults] is [Some n], after [n] bytes.  An empty queue is a device
    without further faults. *)

From stdpp Require Import base gmap list.
From Stdlib Require Import ZArith Lia.
From S2P Require Import Prelude StatusCode Bytes StorageTypes.

Record FileData := mkFileData { fd_bytes : gmap Z Z; fd_size : Z }.
Definition FileData_empty : FileData := mkFileData ∅ 0.

Definition file_get (f : FileData) (i : Z) : Z := default 0 (fd_bytes f !! i).

Fixpoint bytes_at (offset : Z) (data : bytes) (m : gmap Z Z) : gmap Z Z :=
  match data with [] => m | b :: data' => <[offset := b]> (bytes_at (offset + 1) data' m) end.

(** [pwrite] of [data]. *)
Definition file_write (offset : Z) (data : bytes) (f : FileData) : FileData :=
  match data with
  | [] => f
  | _ => mkFileData (bytes_at offset data (fd_bytes f)) (Z.max (fd_size f) (offset + Z.of_nat (length data)))
  end.

(** [pread]: short at the end of the file. *)
Definition file_read (offset size : Z) (f : FileData) : bytes :=
  (fun i => file_get f (offset + i)) <$> seqZ 0 (Z.min size (fd_size f - offset)).

(** [fallocate] without and with [FALLOC_FL_PUNCH_HOLE | FALLOC_FL_KEEP_SIZE]. *)
Definition file_allocate (offset size : Z) (f : FileData) : FileData :=
  mkFileData (fd_bytes f) (Z.max (fd_size f) (offset + size)).
Definition file_punch (offset size : Z) (f : FileData) : FileData :=
  mkFileData (filter (fun kv => kv.1 < offset \/ offset + size <= kv.1) (fd_bytes f)) (fd_size f).

Record Disk (K : Type) := mkDisk {
  d_kv : K;
  d_files : gmap ChunkFileId FileData;
  d_rfaults : list (option nat);
  d_wfaults : list (option nat);
  d_now : Z
}.
Arguments mkDisk {K} _ _ _ _ _.
Arguments d_kv {K} _.
Arguments d_files {K} _.
Arguments d_rfaults {K} _.
Arguments d_wfaults {K} _.
Arguments d_now {K} _.

Section disk.
Context {K : Type}.

Definition set_d_kv (kv : K) (d : Disk K) : Disk K := mkDisk kv (d_files d) (d_rfaults d) (d_wfaults d) (d_now d).
Definition set_d_files files (d : Disk K) : Disk K := mkDisk (d_kv d) files (d_rfaults d) (d_wfaults d) (d_now d).

(** The fate of the next read and of the next write. *)
Definition next_read : M (Disk K) (option nat) := fun d =>
  match d_rfaults d with
  | [] => (Ok None, d)
  | x :: q => (Ok x, mkDisk (d_kv d) (d_files d) q (d_wfaults d) (d_now d))
  end.
Definition next_write : M (Disk K) (option nat) := fun d =>
  match d_wfaults d with
  | [] => (Ok None, d)
  | x :: q => (Ok x, mkDisk (d_kv d) (d_files d) (d_rfaults d) q (d_now d))
  end.

Definition disk_file (d : Disk K) (fileId : ChunkFileId) : FileData := default FileData_empty (d_files d !! fileId).
Definition update_file (fileId : ChunkFileId) (f : FileData -> FileData) (d : Disk K) : Disk K :=
  set_d_files (<[fileId := f (disk_file d fileId)]> (d_files d)) d.

(** [ChunkFileStore::openInnerFile]; a descriptor found in the cache of the
    thread is an open that does not fail. *)
Definition openInnerFile (fileId : ChunkFileId) (createFile : bool) : M (Disk K) ChunkFileId :=
  fault ← next_read;
  err_if (bool_decide (is_Some fault)) StorageCode_kChunkOpenFailed ;;
  d ← getS;
  match d_files d !! fileId with
  | Some _ => mret fileId
  | None =>
      if createFile then modify (update_file fileId (fun f => f)) ;; mret fileId
      else fail StorageCode_kChunkOpenFailed
  end.

(** [ChunkFileStore::open]: the view is the file it is open on. *)
Definition file_open (fileId : ChunkFileId) : M (Disk K) ChunkFileId := openInnerFile fileId false.

Definition file_punchHole (fileId : ChunkFileId) (offset : Z) : M (Disk K) unit :=
  openInnerFile fileId false ;;
  fault ← next_write;
  err_if (bool_decide (is_Some fault)) StorageCode_kPunchHoleFailed ;;
  modify (update_file fileId (file_punch offset (cf_chunkSize fileId))).

(** [ChunkFileStore::allocate]; a range beyond the greatest file offset is
    refused by [fallocate]. *)
Definition store_allocate (fileId : ChunkFileId) (offset size : Z) : M (Disk K) unit :=
  openInnerFile fileId false ;;
  fault ← next_write;
  err_if (bool_decide (is_Some fault) || (offset + size >=? 2 ^ 63)) StorageCode_kPunchHoleFailed ;;
  modify (update_file fileId (file_allocate offset size)).

(** [ChunkFileStore::createInnerFile] *)
Definition createInnerFile (physicalFileCount chunkSize : Z) : M (Disk K) unit :=
  err_if (chunkSize <? kAIOAlignSize) StorageCode_kChunkStoreInitFailed ;;
  err_if (negb (chunkSize mod kAIOAlignSize =? 0)) StorageCode_kChunkStoreInitFailed ;;
  err_if (chunkSize >? kMaxChunkSize) StorageCode_kChunkStoreInitFailed ;;
  fault ← next_write;
  err_if (bool_decide (is_Some fault)) StorageCode_kChunkOpenFailed ;;
  for_each (fun i => openInnerFile (mkChunkFileId chunkSize i) true ;; mret tt) (seqZ 0 physicalFileCount).

(** [ChunkFileStore::create], [ChunkFileStore::addChunkSize] and
    [ChunkFileStore::load], the last with the sizes opened in advance. *)
Definition fileStore_create (physicalFileCount : Z) (sizes : list Z) : M (Disk K) unit :=
  for_each (createInnerFile physicalFileCount) sizes.
Definition fileStore_load (physicalFileCount : Z) (preopen : list Z) (sizes : list Z) : M (Disk K) unit :=
  for_each (fun chunkSize =>
    when (bool_decide (chunkSize ∈ preopen))
      (for_each (fun i => openInnerFile (mkChunkFileId chunkSize i) false ;; mret tt) (seqZ 0 physicalFileCount))) sizes.

(** [ChunkFileView::read]: the bytes read. *)
Definition view_read (view : ChunkFileId) (size offset : Z) : M (Disk K) bytes :=
  if size =? 0 then mret []
  else
    fault ← next_read;
    err_if (bool_decide (is_Some fault)) StorageCode_kChunkReadFailed ;;
    d ← getS;
    mret (file_read offset size (disk_file d view)).

(** [ChunkFileView::write]: retries until the whole buffer is written or the
    time for retries is over. *)
Definition view_write (view : ChunkFileId) (buf : bytes) (offset : Z) (meta : ChunkMetadata) : M (Disk K) Z :=
  let size := Z.of_nat (length buf) in
  err_if (size + offset >? cf_chunkSize (cm_innerFileId meta)) kInvalidArg ;;
  let offset' := offset + cm_innerOffset meta in
  if size =? 0 then mret 0
  else
    fault ← next_write;
    match fault with
    | Some n => modify (update_file view (file_write offset' (take n buf))) ;; fail StorageCode_kChunkWriteFailed
    | None => modify (update_file view (file_write offset' buf)) ;; mret (u32 size)
    end.

(** The buffers [ChunkDataIterator::next] yields before the null pointer. *)
Fixpoint iterator_pieces (fuel : nat) (view : ChunkFileId) (length offset : Z) : M (Disk K) (list bytes) :=
  match fuel with
  | O => mret []
  | S fuel' =>
      if length =? 0 then mret []
      else
        let readSize := Z.min length kChecksumChunkSize in
        fun d =>
          match view_read view readSize offset d with
          | (Ok data, d') =>
              if Z.of_nat (base.length data) =? readSize
              then (rest ← iterator_pieces fuel' view (length - readSize) (offset + readSize); mret (data :: rest)) d'
              else (Ok [], d')
          | (_, d') => (Ok [], d')
          end
  end.

Context `{Crc}.

(** [ChunkFileView::checksum] *)
Definition view_checksum (view : ChunkFileId) (type : ChecksumType) (size offset : Z) (meta : ChunkMetadata)
    : M (Disk K) ChecksumInfo :=
  err_if (size + offset >? cf_chunkSize (cm_innerFileId meta)) kInvalidArg ;;
  pieces ← iterator_pieces (S (Z.to_nat (size / kChecksumChunkSize))) view size (offset + cm_innerOffset meta);
  let checksum := checksum_create type pieces size in
  err_if (bool_decide (ci_type checksum = CHECKSUM_NONE)) StorageCode_kChunkReadFailed ;;
  mret checksum.
End disk.

(** ** Contents of files *)

Lemma bytes_at_lookup offset data m i :
  bytes_at offset data m !! i
  = if bool_decide (offset <= i < offset + Z.of_nat (length data)) then data !! Z.to_nat (i - offset) else m !! i.
Proof.
  revert offset. induction data as [|b data IH]; intros offset; cbn [bytes_at length].
  - rewrite bool_decide_eq_false_2 by lia. done.
  - destruct (decide (i = offset)) as [->|Hne].
    + rewrite lookup_insert_eq, bool_decide_eq_true_2 by lia. by rewrite Z.sub_diag.
    + rewrite lookup_insert_ne, IH by done. do 2 case_bool_decide; try lia; [|done].
      replace (Z.to_nat (i - offset)) with (S (Z.to_nat (i - (offset + 1)))) by lia. done.
Qed.

Lemma file_get_write offset data f i :
  file_get (file_write offset data f) i
  = if bool_decide (offset <= i < offset + Z.of_nat (length data)) then default 0 (data !! Z.to_nat (i - offset))
    else file_get f i.
Proof.
  unfold file_write, file_get. destruct data as [|b data]; [by rewrite bool_decide_eq_false_2 by (simpl; lia)|].
  cbn [fd_bytes]. rewrite bytes_at_lookup. by case_bool_decide.
Qed.

Lemma file_get_punch offset size f i :
  file_get (file_punch offset size f) i = if bool_decide (offset <= i < offset + size) then 0 else file_get f i.
Proof.
  unfold file_punch, file_get. cbn [fd_bytes]. rewrite map_lookup_filter.
  destruct (fd_bytes f !! i) as [b|]; simpl; [|by case_bool_decide].
  case_bool_decide; case_guard; simpl in *; (done || lia).
Qed.

Lemma file_get_allocate offset size f i : file_get (file_allocate offset size f) i = file_get f i.
Proof. done. Qed.

(** The bytes of a range within the file. *)
Definition file_range (f : FileData) (offset size : Z) : bytes := (fun i => file_get f (offset + i)) <$> seqZ 0 size.

Lemma file_range_length f offset size : 0 <= size -> Z.of_nat (length (file_range f offset size)) = size.
Proof. intros. unfold file_range. rewrite length_fmap, length_seqZ. lia. Qed.

Lemma file_range_lookup f offset size i :
  file_range f offset size !! i = if bool_decide (Z.of_nat i < size) then Some (file_get f (offset + Z.of_nat i)) else None.
Proof.
  unfold file_range. rewrite list_lookup_fmap. case_bool_decide.
  - rewrite lookup_seqZ_lt by lia. done.
  - rewrite lookup_seqZ_ge by lia. done.
Qed.

Lemma file_range_ext f g offset offset' size :
  (forall i, 0 <= i < size -> file_get f (offset + i) = file_get g (offset' + i)) ->
  file_range f offset size = file_range g offset' size.
Proof.
  intros Hext. apply list_eq. intros i. rewrite !file_range_lookup. case_bool_decide; [|done]. f_equal. apply Hext. lia.
Qed.

Lemma file_range_app f offset n m :
  0 <= n -> 0 <= m -> file_range f offset (n + m) = file_range f offset n ++ file_range f (offset + n) m.
Proof.
  intros Hn Hm. unfold file_range. rewrite seqZ_app, fmap_app by lia. f_equal. apply list_eq. intros i.
  rewrite !list_lookup_fmap. destruct (decide (Z.of_nat i < m)) as [Hi|Hi].
  - rewrite !lookup_seqZ_lt by lia. simpl. do 2 f_equal. lia.
  - by rewrite !lookup_seqZ_ge by lia.
Qed.

Lemma file_read_range offset size f :
  0 <= size -> offset + size <= fd_size f -> file_read offset size f = file_range f offset size.
Proof. intros. unfold file_read, file_range. by rewrite Z.min_l by lia. Qed.

(** Writing and reading the same range. *)
Lemma file_range_written f offset data :
  file_range (file_write offset data f) offset (Z.of_nat (length data)) = data.
Proof.
  apply list_eq. intros i. rewrite file_range_lookup. case_bool_decide as Hi.
  - rewrite file_get_write, bool_decide_eq_true_2 by lia.
    replace (Z.to_nat (offset + Z.of_nat i - offset)) with i by lia.
    destruct (lookup_lt_is_Some_2 data i ltac:(lia)) as [b ->]. done.
  - symmetry. apply lookup_ge_None. lia.
Qed.

Lemma file_range_write_disjoint f offset data o n :
  o + n <= offset \/ offset + Z.of_nat (length data) <= o ->
  file_range (file_write offset data f) o n = file_range f o n.
Proof. intros Hd. apply file_range_ext. intros i Hi. rewrite file_get_write. case_bool_decide; [lia|done]. Qed.
