(* ===== verification/ChunkMetaStore.v ===== *)
(** * Metadata store of a target ([src/storage/store/ChunkMetaStore.{h,cc}])

    The key-value store of a target maps chunk identifiers to metadata and
    keeps the positions that no chunk holds: created (never used), removed and
    recycled (ready for use again).  Memory keeps, for each chunk size, the
    created and recycled positions, the counts and the sizes of the files.

    Keys are typed here: one table for each kind of key; [MetaKeys.v] shows
    that the byte keys of the code tell the tables and their elements apart.
    A batch is the list of its changes, applied together or not at all.

    The critical sections of [createChunk], [allocateChunks] and
    [recycleRemovedChunks] are separate definitions, composed as in the code. *)

From stdpp Require Import base gmap list sorting.
From Stdlib Require Import ZArith Lia.
From S2P Require Import Prelude StatusCode Bytes MgmtdTypes StorageTypes ChunkFiles.

(** ** Keys *)

Inductive MetaKeyType :=
| KEY_METADATA | KEY_FILESIZE | KEY_CREATEDSIZE | KEY_REMOVEDSIZE | KEY_UNCOMMITTED | KEY_SYNCDUMMY
| KEY_REMOVED | KEY_RECYCLED | KEY_CREATED | KEY_CREATEDCOUNT | KEY_USEDCOUNT | KEY_REMOVEDCOUNT
| KEY_RECYCLEDCOUNT | KEY_REUSEDCOUNT | KEY_HOLECOUNT | KEY_ALLOCATEINDEX | KEY_ALLOCATESTART | KEY_VERSION | KEY_MAX.
#[export] Instance MetaKeyType_eq_dec : EqDecision MetaKeyType.
Proof. solve_decision. Defined.

Definition MetaKeyType_value (t : MetaKeyType) : Z :=
  match t with
  | KEY_METADATA => 0 | KEY_FILESIZE => 2 | KEY_CREATEDSIZE => 4 | KEY_REMOVEDSIZE => 5 | KEY_UNCOMMITTED => 6
  | KEY_SYNCDUMMY => 8 | KEY_REMOVED => 12 | KEY_RECYCLED => 13 | KEY_CREATED => 14 | KEY_CREATEDCOUNT => 16
  | KEY_USEDCOUNT => 17 | KEY_REMOVEDCOUNT => 18 | KEY_RECYCLEDCOUNT => 19 | KEY_REUSEDCOUNT => 20
  | KEY_HOLECOUNT => 21 | KEY_ALLOCATEINDEX => 22 | KEY_ALLOCATESTART => 23 | KEY_VERSION => 24 | KEY_MAX => 255
  end.
#[export] Instance MetaKeyType_countable : Countable MetaKeyType.
Proof.
  refine (inj_countable MetaKeyType_value
    (fun v => find (fun t => MetaKeyType_value t =? v)
       [KEY_METADATA; KEY_FILESIZE; KEY_CREATEDSIZE; KEY_REMOVEDSIZE; KEY_UNCOMMITTED; KEY_SYNCDUMMY;
        KEY_REMOVED; KEY_RECYCLED; KEY_CREATED; KEY_CREATEDCOUNT; KEY_USEDCOUNT; KEY_REMOVEDCOUNT;
        KEY_RECYCLEDCOUNT; KEY_REUSEDCOUNT; KEY_HOLECOUNT; KEY_ALLOCATEINDEX; KEY_ALLOCATESTART; KEY_VERSION; KEY_MAX]) _).
  by intros [].
Defined.

(** [ChunkKey]: a prefix and the complement of the bytes of the identifier. *)
Definition reverseBits (view : bytes) : bytes := (fun ch => 255 - ch) <$> view.
Definition ChunkKey (prefix : MetaKeyType) (id : ChunkId) : bytes := MetaKeyType_value prefix :: reverseBits id.
Definition ChunkKey_chunkId (view : bytes) : ChunkId := match view with [] => [] | _ :: v => reverseBits v end.

(** [serializeKey] of [ChunkSizePrefix], of a [ChunkPosition] inside a key, and
    of the keys of positions; a table of fields is preceded by its length. *)
Definition ChunkSizePrefix (type : MetaKeyType) (chunkSize : Z) : bytes :=
  MetaKeyType_value type :: 4 :: le_bytes 4 chunkSize.
Definition ChunkPosition_bytes (pos : ChunkPosition) : bytes :=
  12 :: le_bytes 4 (pos_fileIdx pos) ++ le_bytes 8 (big64 (pos_offset pos)).
Definition PositionKey (type : MetaKeyType) (chunkSize : Z) (pos : ChunkPosition) : bytes :=
  ChunkSizePrefix type chunkSize ++ 13 :: ChunkPosition_bytes pos.
Definition RemovedKey (chunkSize microsecond : Z) (pos : ChunkPosition) : bytes :=
  ChunkSizePrefix KEY_REMOVED chunkSize ++ 21 :: le_bytes 8 (big64 microsecond) ++ ChunkPosition_bytes pos.
(** These two are serialized without the leading type. *)
Definition FileSizeKey (fileId : ChunkFileId) : bytes :=
  10 :: MetaKeyType_value KEY_FILESIZE :: 8 :: le_bytes 4 (cf_chunkSize fileId) ++ le_bytes 4 (cf_chunkIdx fileId).
Definition VersionKey_raw (chunkSize : Z) : bytes := 4 :: le_bytes 4 chunkSize.

(** ** The key-value store *)

(** [kv_number]: the counts, the index and start of allocation and the version of a
    chunk size.  A sentinel is the identifier of its target. *)
Record MetaKV := mkMetaKV {
  kv_metadata : gmap ChunkId ChunkMetadata;
  kv_uncommitted : gset ChunkId;
  kv_fileSize : gmap ChunkFileId Z;
  kv_createdSize : option Z;
  kv_removedSize : option Z;
  kv_created : gset (Z * ChunkPosition);
  kv_recycled : gset (Z * ChunkPosition);
  kv_removed : gset (Z * Z * ChunkPosition);
  kv_number : gmap (MetaKeyType * Z) Z;
  kv_rawVersion : gmap Z Z;
  kv_minKey : option Z;
  kv_maxKey : option Z
}.

Definition set_kv_metadata v r := mkMetaKV v (kv_uncommitted r) (kv_fileSize r) (kv_createdSize r) (kv_removedSize r) (kv_created r) (kv_recycled r) (kv_removed r) (kv_number r) (kv_rawVersion r) (kv_minKey r) (kv_maxKey r).
Definition set_kv_uncommitted v r := mkMetaKV (kv_metadata r) v (kv_fileSize r) (kv_createdSize r) (kv_removedSize r) (kv_created r) (kv_recycled r) (kv_removed r) (kv_number r) (kv_rawVersion r) (kv_minKey r) (kv_maxKey r).
Definition set_kv_fileSize v r := mkMetaKV (kv_metadata r) (kv_uncommitted r) v (kv_createdSize r) (kv_removedSize r) (kv_created r) (kv_recycled r) (kv_removed r) (kv_number r) (kv_rawVersion r) (kv_minKey r) (kv_maxKey r).
Definition set_kv_createdSize v r := mkMetaKV (kv_metadata r) (kv_uncommitted r) (kv_fileSize r) v (kv_removedSize r) (kv_created r) (kv_recycled r) (kv_removed r) (kv_number r) (kv_rawVersion r) (kv_minKey r) (kv_maxKey r).
Definition set_kv_removedSize v r := mkMetaKV (kv_metadata r) (kv_uncommitted r) (kv_fileSize r) (kv_createdSize r) v (kv_created r) (kv_recycled r) (kv_removed r) (kv_number r) (kv_rawVersion r) (kv_minKey r) (kv_maxKey r).
Definition set_kv_created v r := mkMetaKV (kv_metadata r) (kv_uncommitted r) (kv_fileSize r) (kv_createdSize r) (kv_removedSize r) v (kv_recycled r) (kv_removed r) (kv_number r) (kv_rawVersion r) (kv_minKey r) (kv_maxKey r).
Definition set_kv_recycled v r := mkMetaKV (kv_metadata r) (kv_uncommitted r) (kv_fileSize r) (kv_createdSize r) (kv_removedSize r) (kv_created r) v (kv_removed r) (kv_number r) (kv_rawVersion r) (kv_minKey r) (kv_maxKey r).
Definition set_kv_removed v r := mkMetaKV (kv_metadata r) (kv_uncommitted r) (kv_fileSize r) (kv_createdSize r) (kv_removedSize r) (kv_created r) (kv_recycled r) v (kv_number r) (kv_rawVersion r) (kv_minKey r) (kv_maxKey r).
Definition set_kv_number v r := mkMetaKV (kv_metadata r) (kv_uncommitted r) (kv_fileSize r) (kv_createdSize r) (kv_removedSize r) (kv_created r) (kv_recycled r) (kv_removed r) v (kv_rawVersion r) (kv_minKey r) (kv_maxKey r).
Definition set_kv_rawVersion v r := mkMetaKV (kv_metadata r) (kv_uncommitted r) (kv_fileSize r) (kv_createdSize r) (kv_removedSize r) (kv_created r) (kv_recycled r) (kv_removed r) (kv_number r) v (kv_minKey r) (kv_maxKey r).
Definition set_kv_minKey v r := mkMetaKV (kv_metadata r) (kv_uncommitted r) (kv_fileSize r) (kv_createdSize r) (kv_removedSize r) (kv_created r) (kv_recycled r) (kv_removed r) (kv_number r) (kv_rawVersion r) v (kv_maxKey r).
Definition set_kv_maxKey v r := mkMetaKV (kv_metadata r) (kv_uncommitted r) (kv_fileSize r) (kv_createdSize r) (kv_removedSize r) (kv_created r) (kv_recycled r) (kv_removed r) (kv_number r) (kv_rawVersion r) (kv_minKey r) v.

Definition MetaKV_empty : MetaKV := mkMetaKV ∅ ∅ ∅ None None ∅ ∅ ∅ ∅ ∅ None None.

(** The changes of a batch. *)
Abbreviation KvOp := (MetaKV -> MetaKV) (only parsing).
Definition put_metadata id m : KvOp := fun kv => set_kv_metadata (<[id := m]> (kv_metadata kv)) kv.
Definition del_metadata id : KvOp := fun kv => set_kv_metadata (delete id (kv_metadata kv)) kv.
Definition put_uncommitted id : KvOp := fun kv => set_kv_uncommitted ({[id]} ∪ kv_uncommitted kv) kv.
Definition del_uncommitted id : KvOp := fun kv => set_kv_uncommitted (kv_uncommitted kv ∖ {[id]}) kv.
Definition put_fileSize f v : KvOp := fun kv => set_kv_fileSize (<[f := v]> (kv_fileSize kv)) kv.
Definition put_created k : KvOp := fun kv => set_kv_created ({[k]} ∪ kv_created kv) kv.
Definition del_created k : KvOp := fun kv => set_kv_created (kv_created kv ∖ {[k]}) kv.
Definition put_recycled k : KvOp := fun kv => set_kv_recycled ({[k]} ∪ kv_recycled kv) kv.
Definition del_recycled k : KvOp := fun kv => set_kv_recycled (kv_recycled kv ∖ {[k]}) kv.
Definition put_removed k : KvOp := fun kv => set_kv_removed ({[k]} ∪ kv_removed kv) kv.
Definition del_removed k : KvOp := fun kv => set_kv_removed (kv_removed kv ∖ {[k]}) kv.
Definition put_number t cs v : KvOp := fun kv => set_kv_number (<[(t, cs) := v]> (kv_number kv)) kv.
Definition apply_batch (batch : list KvOp) (kv : MetaKV) : MetaKV := foldl (fun kv op => op kv) kv batch.

(** [KVStore::get], its use with a default for a missing key, [BatchOperations::commit]
    (and [put], a batch of one) and [iterateKeysWithPrefix] over the keys of a prefix in order. *)
Definition kv_get {A} (f : MetaKV -> option A) : M (Disk MetaKV) A :=
  fault ← next_read;
  err_if (bool_decide (is_Some fault)) kKVStoreGetError ;;
  d ← getS;
  match f (d_kv d) with Some v => mret v | None => fail kKVStoreNotFound end.
Definition kv_find {A} (f : MetaKV -> option A) : M (Disk MetaKV) (option A) :=
  r ← attempt (kv_get f);
  match r with
  | inl v => mret (Some v)
  | inr code => if code =? kKVStoreNotFound then mret None else fail code
  end.
Definition kv_commit (batch : list KvOp) : M (Disk MetaKV) unit :=
  fault ← next_write;
  err_if (bool_decide (is_Some fault)) kKVStoreSetError ;;
  modify (fun d => set_d_kv (apply_batch batch (d_kv d)) d).

(** Keys of one prefix in the order of their bytes. *)
Definition sort_keys {A} (key : A -> bytes) (l : list A) : list A :=
  merge_sort (fun a b => bytes_compare (key a) (key b) <> Gt) l.
Definition created_keys (kv : MetaKV) (cs : Z) : list ChunkPosition :=
  sort_keys (PositionKey KEY_CREATED cs) ((omap (fun k => if k.1 =? cs then Some k.2 else None) (elements (kv_created kv)))).
Definition recycled_keys (kv : MetaKV) (cs : Z) : list ChunkPosition :=
  sort_keys (PositionKey KEY_RECYCLED cs) ((omap (fun k => if k.1 =? cs then Some k.2 else None) (elements (kv_recycled kv)))).
Definition removed_keys (kv : MetaKV) (cs : Z) : list (Z * ChunkPosition) :=
  sort_keys (fun k => RemovedKey cs k.1 k.2)
    (omap (fun k => if k.1.1 =? cs then Some (k.1.2, k.2) else None) (elements (kv_removed kv))).
Definition uncommitted_keys (kv : MetaKV) : list ChunkId :=
  sort_keys (ChunkKey KEY_UNCOMMITTED) (elements (kv_uncommitted kv)).

(** ** State in memory *)

Record AllocateState := mkAllocateState {
  as_loaded : bool;
  as_allocating : bool;
  as_recycling : bool;
  as_chunkSize : Z;
  as_allocateIndex : Z;
  as_startingPoint : Z;
  as_createdCount : Z;
  as_usedCount : Z;
  as_removedCount : Z;
  as_recycledCount : Z;
  as_reusedCount : Z;
  as_holeCount : Z;
  as_oldestRemovedTimestamp : UtcTime;
  as_createdChunks : list ChunkPosition;
  as_recycledChunks : list ChunkPosition;
  as_fileSize : gmap Z Z
}.

Definition set_as_loaded v r := mkAllocateState v (as_allocating r) (as_recycling r) (as_chunkSize r) (as_allocateIndex r) (as_startingPoint r) (as_createdCount r) (as_usedCount r) (as_removedCount r) (as_recycledCount r) (as_reusedCount r) (as_holeCount r) (as_oldestRemovedTimestamp r) (as_createdChunks r) (as_recycledChunks r) (as_fileSize r).
Definition set_as_allocating v r := mkAllocateState (as_loaded r) v (as_recycling r) (as_chunkSize r) (as_allocateIndex r) (as_startingPoint r) (as_createdCount r) (as_usedCount r) (as_removedCount r) (as_recycledCount r) (as_reusedCount r) (as_holeCount r) (as_oldestRemovedTimestamp r) (as_createdChunks r) (as_recycledChunks r) (as_fileSize r).
Definition set_as_recycling v r := mkAllocateState (as_loaded r) (as_allocating r) v (as_chunkSize r) (as_allocateIndex r) (as_startingPoint r) (as_createdCount r) (as_usedCount r) (as_removedCount r) (as_recycledCount r) (as_reusedCount r) (as_holeCount r) (as_oldestRemovedTimestamp r) (as_createdChunks r) (as_recycledChunks r) (as_fileSize r).
Definition set_as_allocateIndex v r := mkAllocateState (as_loaded r) (as_allocating r) (as_recycling r) (as_chunkSize r) v (as_startingPoint r) (as_createdCount r) (as_usedCount r) (as_removedCount r) (as_recycledCount r) (as_reusedCount r) (as_holeCount r) (as_oldestRemovedTimestamp r) (as_createdChunks r) (as_recycledChunks r) (as_fileSize r).
Definition set_as_startingPoint v r := mkAllocateState (as_loaded r) (as_allocating r) (as_recycling r) (as_chunkSize r) (as_allocateIndex r) v (as_createdCount r) (as_usedCount r) (as_removedCount r) (as_recycledCount r) (as_reusedCount r) (as_holeCount r) (as_oldestRemovedTimestamp r) (as_createdChunks r) (as_recycledChunks r) (as_fileSize r).
Definition set_as_createdCount v r := mkAllocateState (as_loaded r) (as_allocating r) (as_recycling r) (as_chunkSize r) (as_allocateIndex r) (as_startingPoint r) v (as_usedCount r) (as_removedCount r) (as_recycledCount r) (as_reusedCount r) (as_holeCount r) (as_oldestRemovedTimestamp r) (as_createdChunks r) (as_recycledChunks r) (as_fileSize r).
Definition set_as_usedCount v r := mkAllocateState (as_loaded r) (as_allocating r) (as_recycling r) (as_chunkSize r) (as_allocateIndex r) (as_startingPoint r) (as_createdCount r) v (as_removedCount r) (as_recycledCount r) (as_reusedCount r) (as_holeCount r) (as_oldestRemovedTimestamp r) (as_createdChunks r) (as_recycledChunks r) (as_fileSize r).
Definition set_as_removedCount v r := mkAllocateState (as_loaded r) (as_allocating r) (as_recycling r) (as_chunkSize r) (as_allocateIndex r) (as_startingPoint r) (as_createdCount r) (as_usedCount r) v (as_recycledCount r) (as_reusedCount r) (as_holeCount r) (as_oldestRemovedTimestamp r) (as_createdChunks r) (as_recycledChunks r) (as_fileSize r).
Definition set_as_recycledCount v r := mkAllocateState (as_loaded r) (as_allocating r) (as_recycling r) (as_chunkSize r) (as_allocateIndex r) (as_startingPoint r) (as_createdCount r) (as_usedCount r) (as_removedCount r) v (as_reusedCount r) (as_holeCount r) (as_oldestRemovedTimestamp r) (as_createdChunks r) (as_recycledChunks r) (as_fileSize r).
Definition set_as_reusedCount v r := mkAllocateState (as_loaded r) (as_allocating r) (as_recycling r) (as_chunkSize r) (as_allocateIndex r) (as_startingPoint r) (as_createdCount r) (as_usedCount r) (as_removedCount r) (as_recycledCount r) v (as_holeCount r) (as_oldestRemovedTimestamp r) (as_createdChunks r) (as_recycledChunks r) (as_fileSize r).
Definition set_as_holeCount v r := mkAllocateState (as_loaded r) (as_allocating r) (as_recycling r) (as_chunkSize r) (as_allocateIndex r) (as_startingPoint r) (as_createdCount r) (as_usedCount r) (as_removedCount r) (as_recycledCount r) (as_reusedCount r) v (as_oldestRemovedTimestamp r) (as_createdChunks r) (as_recycledChunks r) (as_fileSize r).
Definition set_as_oldestRemovedTimestamp v r := mkAllocateState (as_loaded r) (as_allocating r) (as_recycling r) (as_chunkSize r) (as_allocateIndex r) (as_startingPoint r) (as_createdCount r) (as_usedCount r) (as_removedCount r) (as_recycledCount r) (as_reusedCount r) (as_holeCount r) v (as_createdChunks r) (as_recycledChunks r) (as_fileSize r).
Definition set_as_createdChunks v r := mkAllocateState (as_loaded r) (as_allocating r) (as_recycling r) (as_chunkSize r) (as_allocateIndex r) (as_startingPoint r) (as_createdCount r) (as_usedCount r) (as_removedCount r) (as_recycledCount r) (as_reusedCount r) (as_holeCount r) (as_oldestRemovedTimestamp r) v (as_recycledChunks r) (as_fileSize r).
Definition set_as_recycledChunks v r := mkAllocateState (as_loaded r) (as_allocating r) (as_recycling r) (as_chunkSize r) (as_allocateIndex r) (as_startingPoint r) (as_createdCount r) (as_usedCount r) (as_removedCount r) (as_recycledCount r) (as_reusedCount r) (as_holeCount r) (as_oldestRemovedTimestamp r) (as_createdChunks r) v (as_fileSize r).
Definition set_as_fileSize v r := mkAllocateState (as_loaded r) (as_allocating r) (as_recycling r) (as_chunkSize r) (as_allocateIndex r) (as_startingPoint r) (as_createdCount r) (as_usedCount r) (as_removedCount r) (as_recycledCount r) (as_reusedCount r) (as_holeCount r) (as_oldestRemovedTimestamp r) (as_createdChunks r) (as_recycledChunks r) v.

Definition AllocateState_new (chunkSize : Z) : AllocateState :=
  mkAllocateState false false false chunkSize 0 0 0 0 0 0 0 0 0 [] [] ∅.

(** [ChunkMetaStore::Config]; times in microseconds. *)
Record MetaConfig := mkMetaConfig {
  mc_allocate_size : Z;
  mc_recycle_batch_size : Z;
  mc_punch_hole_batch_size : Z;
  mc_removed_chunk_expiration_time : Z;
  mc_removed_chunk_force_recycled_time : Z
}.

(** The part of [PhysicalConfig] the stores read. *)
Record PhysicalConfig := mkPhysicalConfig {
  pc_target_id : Z;
  pc_physical_file_count : Z;
  pc_chunk_size_list : list Z;
  pc_has_sentinel : bool;
  pc_kv_store_name : Z
}.

(** Jobs given to the thread pool. *)
Inductive MetaJob := JOB_RECYCLE (chunkSize : Z) | JOB_ALLOCATE (chunkSize : Z).


(** The store: the device, the fields of the class and the jobs not yet run. *)
Record ChunkMetaStore := mkChunkMetaStore {
  ms_disk : Disk MetaKV;
  ms_sentinel : Z;
  ms_kvName : Z;
  ms_hasSentinel : bool;
  ms_physicalFileCount : Z;
  ms_createdSize : Z;
  ms_removedSize : Z;
  ms_uncommitted : list ChunkId;
  ms_emergencyRecycling : bool;
  ms_allocateState : gmap Z AllocateState;
  ms_jobs : list MetaJob
}.

Definition set_ms_disk v r := mkChunkMetaStore v (ms_sentinel r) (ms_kvName r) (ms_hasSentinel r) (ms_physicalFileCount r) (ms_createdSize r) (ms_removedSize r) (ms_uncommitted r) (ms_emergencyRecycling r) (ms_allocateState r) (ms_jobs r).
Definition set_ms_sentinel v r := mkChunkMetaStore (ms_disk r) v (ms_kvName r) (ms_hasSentinel r) (ms_physicalFileCount r) (ms_createdSize r) (ms_removedSize r) (ms_uncommitted r) (ms_emergencyRecycling r) (ms_allocateState r) (ms_jobs r).
Definition set_ms_kvName v r := mkChunkMetaStore (ms_disk r) (ms_sentinel r) v (ms_hasSentinel r) (ms_physicalFileCount r) (ms_createdSize r) (ms_removedSize r) (ms_uncommitted r) (ms_emergencyRecycling r) (ms_allocateState r) (ms_jobs r).
Definition set_ms_hasSentinel v r := mkChunkMetaStore (ms_disk r) (ms_sentinel r) (ms_kvName r) v (ms_physicalFileCount r) (ms_createdSize r) (ms_removedSize r) (ms_uncommitted r) (ms_emergencyRecycling r) (ms_allocateState r) (ms_jobs r).
Definition set_ms_physicalFileCount v r := mkChunkMetaStore (ms_disk r) (ms_sentinel r) (ms_kvName r) (ms_hasSentinel r) v (ms_createdSize r) (ms_removedSize r) (ms_uncommitted r) (ms_emergencyRecycling r) (ms_allocateState r) (ms_jobs r).
Definition set_ms_createdSize v r := mkChunkMetaStore (ms_disk r) (ms_sentinel r) (ms_kvName r) (ms_hasSentinel r) (ms_physicalFileCount r) v (ms_removedSize r) (ms_uncommitted r) (ms_emergencyRecycling r) (ms_allocateState r) (ms_jobs r).
Definition set_ms_removedSize v r := mkChunkMetaStore (ms_disk r) (ms_sentinel r) (ms_kvName r) (ms_hasSentinel r) (ms_physicalFileCount r) (ms_createdSize r) v (ms_uncommitted r) (ms_emergencyRecycling r) (ms_allocateState r) (ms_jobs r).
Definition set_ms_uncommitted v r := mkChunkMetaStore (ms_disk r) (ms_sentinel r) (ms_kvName r) (ms_hasSentinel r) (ms_physicalFileCount r) (ms_createdSize r) (ms_removedSize r) v (ms_emergencyRecycling r) (ms_allocateState r) (ms_jobs r).
Definition set_ms_emergencyRecycling v r := mkChunkMetaStore (ms_disk r) (ms_sentinel r) (ms_kvName r) (ms_hasSentinel r) (ms_physicalFileCount r) (ms_createdSize r) (ms_removedSize r) (ms_uncommitted r) v (ms_allocateState r) (ms_jobs r).
Definition set_ms_allocateState v r := mkChunkMetaStore (ms_disk r) (ms_sentinel r) (ms_kvName r) (ms_hasSentinel r) (ms_physicalFileCount r) (ms_createdSize r) (ms_removedSize r) (ms_uncommitted r) (ms_emergencyRecycling r) v (ms_jobs r).
Definition set_ms_jobs v r := mkChunkMetaStore (ms_disk r) (ms_sentinel r) (ms_kvName r) (ms_hasSentinel r) (ms_physicalFileCount r) (ms_createdSize r) (ms_removedSize r) (ms_uncommitted r) (ms_emergencyRecycling r) (ms_allocateState r) v.

Definition ChunkMetaStore_new (disk : Disk MetaKV) : ChunkMetaStore :=
  mkChunkMetaStore disk 0 0 false 256 0 0 [] false ∅ [].

Definition onDisk {A} (m : M (Disk MetaKV) A) : M ChunkMetaStore A := zoom ms_disk set_ms_disk m.

(** The state a pointer into [allocateState_] stands for, and its update. *)
Definition stateOf (s : ChunkMetaStore) (cs : Z) : AllocateState :=
  default (AllocateState_new cs) (ms_allocateState s !! cs).
Definition getState (cs : Z) : M ChunkMetaStore AllocateState := gets (fun s => stateOf s cs).
Definition modState (cs : Z) (f : AllocateState -> AllocateState) : M ChunkMetaStore unit :=
  modify (fun s => set_ms_allocateState (<[cs := f (stateOf s cs)]> (ms_allocateState s)) s).
Definition addJob (j : MetaJob) : M ChunkMetaStore unit := modify (fun s => set_ms_jobs (ms_jobs s ++ [j]) s).

(** [std::vector::back] and [pop_back]. *)
Definition pop_back {A} (l : list A) : option (A * list A) :=
  match rev l with [] => None | x :: r => Some (x, rev r) end.

(** [iterateKeysWithPrefix]: [func] on at most [limit] of [keys]; returns the
    next key. *)
Definition iterateKeys {A} (keys : MetaKV -> list A) (limit : Z) (func : A -> M ChunkMetaStore unit)
    : M ChunkMetaStore (option A) :=
  fault ← onDisk next_read;
  s ← getS;
  let all := keys (d_kv (ms_disk s)) in
  let l := take_z limit all in
  for_each func (match fault with Some n => take n l | None => l end) ;;
  err_if (bool_decide (is_Some fault)) kKVStoreGetError ;;
  mret (head (drop_z limit all)).
(** The keys an iteration that only collects them visits. *)
Definition collectKeys {A} (keys : MetaKV -> list A) (limit : Z) : M ChunkMetaStore (list A * option A) :=
  fault ← onDisk next_read;
  err_if (bool_decide (is_Some fault)) kKVStoreGetError ;;
  s ← getS;
  let all := keys (d_kv (ms_disk s)) in
  mret (take_z limit all, head (drop_z limit all)).

Definition no_limit : Z := 2 ^ 32 - 1.
Definition kTargetVersion : Z := 1.

(** ** Opening *)

(** [getSize] *)
Definition getSize (f : MetaKV -> option Z) : M ChunkMetaStore Z :=
  v ← onDisk (kv_find f); mret (default 0 v).

Definition checkSentinel (f : MetaKV -> option Z) : M ChunkMetaStore unit :=
  v ← onDisk (kv_get f);
  s ← getS;
  err_if (negb (v =? ms_sentinel s)) StorageCode_kMetaStoreOpenFailed.

(** [createAllocateState]: [emplace] keeps a state that is there. *)
Definition createAllocateState (cs : Z) : M ChunkMetaStore unit :=
  modify (fun s => match ms_allocateState s !! cs with
                   | Some _ => s
                   | None => set_ms_allocateState (<[cs := AllocateState_new cs]> (ms_allocateState s)) s
                   end).

(** The result of the iteration over the uncommitted chunks is not checked. *)
Definition load_uncommitted : M ChunkMetaStore unit :=
  modify (set_ms_uncommitted []) ;;
  attempt (iterateKeys uncommitted_keys no_limit
             (fun id => modify (fun s => set_ms_uncommitted (ms_uncommitted s ++ [id]) s))) ;;
  mret tt.

Definition meta_load (config : PhysicalConfig) : M ChunkMetaStore unit :=
  modify (fun s => set_ms_sentinel (pc_target_id config) (set_ms_hasSentinel (pc_has_sentinel config)
                     (set_ms_kvName (pc_kv_store_name config) s))) ;;
  fault ← onDisk next_read;
  err_if (bool_decide (is_Some fault)) StorageCode_kChunkStoreInitFailed ;;
  modify (set_ms_physicalFileCount (pc_physical_file_count config)) ;;
  when (pc_has_sentinel config) (checkSentinel kv_minKey ;; checkSentinel kv_maxKey) ;;
  created ← getSize kv_createdSize;
  modify (set_ms_createdSize created) ;;
  removed ← getSize kv_removedSize;
  modify (set_ms_removedSize removed) ;;
  load_uncommitted ;;
  for_each createAllocateState (pc_chunk_size_list config).

Definition put_version (cs : Z) : M ChunkMetaStore unit :=
  onDisk (kv_commit [put_number KEY_VERSION cs kTargetVersion]).

Definition put_sentinels : M ChunkMetaStore unit :=
  s ← getS;
  onDisk (kv_commit [set_kv_minKey (Some (ms_sentinel s))]) ;;
  onDisk (kv_commit [set_kv_maxKey (Some (ms_sentinel s))]).

Definition meta_create (config : PhysicalConfig) : M ChunkMetaStore unit :=
  meta_load (mkPhysicalConfig (pc_target_id config) (pc_physical_file_count config) (pc_chunk_size_list config)
               false (pc_kv_store_name config)) ;;
  for_each put_version (pc_chunk_size_list config) ;;
  when (pc_has_sentinel config) put_sentinels.

Definition meta_addChunkSize (sizeList : list Z) : M ChunkMetaStore unit :=
  for_each (fun cs => put_version cs ;; createAllocateState cs) sizeList.

(** [migrate]: the new store, empty, takes all pairs and is compared with the
    old one; a failure in between leaves the old store in use.  The renaming of
    an existing directory and the copy are one access each. *)
Definition meta_migrate (config : PhysicalConfig) : M ChunkMetaStore unit :=
  s ← getS;
  err_if (pc_kv_store_name config =? ms_kvName s) StorageCode_kMetaStoreInvalidIterator ;;
  rename ← onDisk next_write;
  err_if (bool_decide (is_Some rename)) StorageCode_kMetaStoreInvalidIterator ;;
  scan ← onDisk next_read;
  copy ← onDisk next_write;
  err_if (bool_decide (is_Some copy)) kKVStoreSetError ;;
  err_if (bool_decide (is_Some scan)) kKVStoreGetError ;;
  check ← onDisk next_read;
  err_if (bool_decide (is_Some check)) kKVStoreGetError ;;
  when (negb (ms_hasSentinel s) && pc_has_sentinel config)
    (minFault ← onDisk next_write;
     err_if (bool_decide (is_Some minFault)) kKVStoreSetError ;;
     maxFault ← onDisk next_write;
     err_if (bool_decide (is_Some maxFault)) kKVStoreSetError ;;
     modify (fun s => set_ms_hasSentinel true
       (set_ms_disk (set_d_kv (set_kv_minKey (Some (ms_sentinel s)) (set_kv_maxKey (Some (ms_sentinel s))
          (d_kv (ms_disk s)))) (ms_disk s)) s))) ;;
  modify (set_ms_kvName (pc_kv_store_name config)).

(** ** Allocation states *)

(** Version 0 to 1: removed and recycled positions below the starting point
    are forgotten and the others counted again. *)
Definition upgrade_batch (kv : MetaKV) (cs startingPoint : Z) : list KvOp :=
  let removed := removed_keys kv cs in
  let recycled := recycled_keys kv cs in
  let oldRemoved := filter (fun k => pos_offset k.2 < startingPoint) removed in
  let oldRecycled := filter (fun p => pos_offset p < startingPoint) recycled in
  let recycledCount := Z.of_nat (length recycled - length oldRecycled) in
  let removedCount := Z.of_nat (length removed - length oldRemoved) + recycledCount in
  ((fun k => del_removed (cs, k.1, k.2)) <$> oldRemoved)
  ++ ((fun p => del_recycled (cs, p)) <$> oldRecycled)
  ++ [put_number KEY_REMOVEDCOUNT cs removedCount; put_number KEY_RECYCLEDCOUNT cs recycledCount;
      put_number KEY_REUSEDCOUNT cs 0; put_number KEY_HOLECOUNT cs 0].

Definition put_rawVersion (cs v : Z) : KvOp := fun kv => set_kv_rawVersion (<[cs := v]> (kv_rawVersion kv)) kv.

Section operations.
Context (config : MetaConfig).

Definition load_startingPoint (cs : Z) : M ChunkMetaStore unit :=
  start ← onDisk (kv_find (fun kv => kv_number kv !! (KEY_ALLOCATESTART, cs)));
  match start with
  | Some v => modState cs (set_as_startingPoint v)
  | None =>
      size ← onDisk (kv_find (fun kv => kv_fileSize kv !! mkChunkFileId cs 0));
      let fileSize := default 0 size in
      let startingPoint := u64 (u64 (fileSize + mc_allocate_size config - 1) / mc_allocate_size config * mc_allocate_size config) in
      modState cs (set_as_startingPoint startingPoint) ;;
      onDisk (kv_commit [put_number KEY_ALLOCATESTART cs startingPoint])
  end.

(** The upgrade, whose two scans may fail. *)
Definition upgrade_version (cs : Z) : M ChunkMetaStore unit :=
  st ← getState cs;
  if as_startingPoint st >? 0
  then
    collectKeys (fun kv => removed_keys kv cs) no_limit ;;
    collectKeys (fun kv => recycled_keys kv cs) no_limit ;;
    s ← getS;
    onDisk (kv_commit (put_rawVersion cs 1 :: upgrade_batch (d_kv (ms_disk s)) cs (as_startingPoint st)))
  else onDisk (kv_commit [put_rawVersion cs 1]).

Definition loadAllocateState (cs : Z) : M ChunkMetaStore unit :=
  s ← getS;
  match ms_allocateState s !! cs with
  | None => fail StorageCode_kChunkInvalidChunkSize
  | Some st =>
      if as_loaded st then mret tt
      else
        version ← onDisk (kv_find (fun kv => kv_rawVersion kv !! cs));
        index ← onDisk (kv_find (fun kv => kv_number kv !! (KEY_ALLOCATEINDEX, cs)));
        modState cs (fun st => set_as_allocateIndex (default (as_allocateIndex st) index) st) ;;
        load_startingPoint cs ;;
        when (default 0 version =? 0) (upgrade_version cs) ;;
        created ← collectKeys (fun kv => created_keys kv cs) no_limit;
        recycled ← collectKeys (fun kv => recycled_keys kv cs) no_limit;
        createdCount ← getSize (fun kv => kv_number kv !! (KEY_CREATEDCOUNT, cs));
        modState cs (set_as_createdCount createdCount) ;;
        usedCount ← getSize (fun kv => kv_number kv !! (KEY_USEDCOUNT, cs));
        modState cs (set_as_usedCount usedCount) ;;
        removedCount ← getSize (fun kv => kv_number kv !! (KEY_REMOVEDCOUNT, cs));
        modState cs (set_as_removedCount removedCount) ;;
        recycledCount ← getSize (fun kv => kv_number kv !! (KEY_RECYCLEDCOUNT, cs));
        modState cs (set_as_recycledCount recycledCount) ;;
        reusedCount ← getSize (fun kv => kv_number kv !! (KEY_REUSEDCOUNT, cs));
        modState cs (set_as_reusedCount reusedCount) ;;
        holeCount ← getSize (fun kv => kv_number kv !! (KEY_HOLECOUNT, cs));
        modState cs (set_as_holeCount holeCount) ;;
        oldest ← collectKeys (fun kv => removed_keys kv cs) 0;
        modState cs (fun st =>
          set_as_recycledChunks recycled.1 (set_as_createdChunks (rev created.1)
            (set_as_oldestRemovedTimestamp (default 0 (fst <$> oldest.2)) (set_as_loaded true st))))
  end.

(** The loop of [allocateChunks] over offsets; [None]: not done after [fuel]
    rounds.  The loop compares with [!=]. *)
Fixpoint created_offsets (fuel : nat) (offset newFileSize chunkSize : Z) : option (list Z) :=
  if offset =? newFileSize then Some []
  else match fuel with
       | O => None
       | S fuel' => cons offset <$> created_offsets fuel' (u64 (offset + chunkSize)) newFileSize chunkSize
       end.

Record Allocated := mkAllocated {
  al_nextIndex : Z; al_index : Z; al_newFileSize : Z; al_createdCount : Z; al_chunks : list ChunkPosition }.

(** The size of a file from memory, or from the key-value store the first time. *)
Definition load_fileSize (cs index : Z) : M ChunkMetaStore unit :=
  st ← getState cs;
  match as_fileSize st !! index with
  | Some _ => mret tt
  | None =>
      modState cs (fun st => set_as_fileSize (<[index := 0]> (as_fileSize st)) st) ;;
      size ← onDisk (kv_find (fun kv => kv_fileSize kv !! mkChunkFileId cs index));
      match size with
      | Some v => modState cs (fun st =>
          set_as_fileSize (<[index := if v <? as_startingPoint st then as_startingPoint st else v]> (as_fileSize st)) st)
      | None => mret tt
      end
  end.

(** [allocateChunks] up to the commit, under [allocateMutex].  The loop runs
    until memory is exhausted when it steps over the end. *)
Definition allocate_commit (cs : Z) : M ChunkMetaStore Allocated :=
  s ← getS;
  let st := stateOf s cs in
  let index := as_allocateIndex st in
  let fileId := mkChunkFileId cs index in
  let nextAllocateIndex := u32 (index + 1) mod ms_physicalFileCount s in
  load_fileSize cs index ;;
  st ← getState cs;
  let fileSize := default 0 (as_fileSize st !! index) in
  err_if (negb (fileSize mod cs =? 0)) StorageCode_kChunkMetadataGetError ;;
  let allocateSize := mc_allocate_size config in
  let newFileSize := u64 ((fileSize / allocateSize + 1) * allocateSize) in
  onDisk (store_allocate fileId fileSize (u64 (newFileSize - fileSize))) ;;
  match created_offsets (S (Z.to_nat ((newFileSize - fileSize) / cs))) fileSize newFileSize cs with
  | None => fatal
  | Some offsets =>
      let chunks := mkChunkPosition index <$> offsets in
      let createdCount := u64 (as_createdCount st + Z.of_nat (length chunks)) in
      onDisk (kv_commit (
        [put_number KEY_ALLOCATEINDEX cs nextAllocateIndex; put_fileSize fileId newFileSize]
        ++ ((fun p => put_created (cs, p)) <$> chunks)
        ++ [put_number KEY_CREATEDCOUNT cs createdCount])) ;;
      mret (mkAllocated nextAllocateIndex index newFileSize createdCount (rev chunks))
  end.

(** The rest, under [createMutex] too. *)
Definition allocate_publish (cs : Z) (a : Allocated) : M ChunkMetaStore unit :=
  modState cs (fun st =>
    set_as_fileSize (<[al_index a := al_newFileSize a]> (as_fileSize st))
      (set_as_createdCount (al_createdCount a)
        (set_as_createdChunks (as_createdChunks st ++ al_chunks a) (set_as_allocateIndex (al_nextIndex a) st)))).

Definition allocateChunks (cs : Z) (withLock : bool) : M ChunkMetaStore unit :=
  fun s =>
    match allocate_commit cs s with
    | (Ok a, s') => (allocate_publish cs a ;; when (negb withLock) (modState cs (set_as_allocating false))) s'
    | (Err code, s') => (when (negb withLock) (modState cs (set_as_allocating false)) ;; fail code) s'
    | (Fatal, s') => (Fatal, s')
    | (Pending, s') => (Pending, s')
    end.

Definition needRecycleRemovedChunks (s : ChunkMetaStore) (cs : Z) : bool :=
  let st := stateOf s cs in
  if as_recycling st then false
  else if 10 * Z.of_nat (length (as_recycledChunks st)) >=? 6 * mc_recycle_batch_size config then false
  else
    let recycledAndHoleCount := u64 (as_recycledCount st + as_holeCount st) in
    (u64 (recycledAndHoleCount + mc_recycle_batch_size config) <=? as_removedCount st)
    || (recycledAndHoleCount <? as_removedCount st)
       && (as_oldestRemovedTimestamp st + mc_removed_chunk_force_recycled_time config <? d_now (ms_disk s)).

(** [recycleRemovedChunks] up to the commit, under [recycleMutex]; [None]:
    nothing to recycle. *)
Definition recycle_commit (cs : Z) : M ChunkMetaStore (option (list ChunkPosition)) :=
  keys ← collectKeys (fun kv => removed_keys kv cs) (mc_recycle_batch_size config);
  let chunks := keys.1.*2 in
  match chunks with
  | [] => mret None
  | _ =>
      st ← getState cs;
      let recycledCount := u64 (as_recycledCount st + Z.of_nat (length chunks)) in
      modState cs (set_as_recycledCount recycledCount) ;;
      r ← attempt (onDisk (kv_commit (
            (keys.1 ≫= fun k => [del_removed (cs, k.1, k.2); put_recycled (cs, k.2)])
            ++ [put_number KEY_RECYCLEDCOUNT cs recycledCount])));
      match r with
      | inr _ =>
          modState cs (fun st => set_as_recycledCount (u64 (as_recycledCount st - Z.of_nat (length chunks))) st) ;;
          fail StorageCode_kChunkMetadataSetError
      | inl _ =>
          modState cs (set_as_oldestRemovedTimestamp (default 0 (fst <$> keys.2))) ;;
          mret (Some chunks)
      end
  end.

Definition recycle_publish (cs : Z) (chunks : list ChunkPosition) : M ChunkMetaStore unit :=
  modState cs (fun st => set_as_recycledChunks (as_recycledChunks st ++ chunks) st).

Definition recycleRemovedChunks (cs : Z) (withLock : bool) : M ChunkMetaStore unit :=
  fun s =>
    match recycle_commit cs s with
    | (Ok r, s') =>
        (match r with Some chunks => recycle_publish cs chunks | None => mret tt end ;;
         when (negb withLock) (modState cs (set_as_recycling false))) s'
    | (Err code, s') => (when (negb withLock) (modState cs (set_as_recycling false)) ;; fail code) s'
    | (Fatal, s') => (Fatal, s')
    | (Pending, s') => (Pending, s')
    end.

(** A job of the thread pool. *)
Definition run_job (j : MetaJob) : M ChunkMetaStore unit :=
  match j with
  | JOB_RECYCLE cs => attempt (recycleRemovedChunks cs false) ;; mret tt
  | JOB_ALLOCATE cs => attempt (allocateChunks cs false) ;; mret tt
  end.

(** ** Metadata *)

Definition meta_get (chunkId : ChunkId) : M ChunkMetaStore ChunkMetadata :=
  r ← attempt (onDisk (kv_get (fun kv => kv_metadata kv !! chunkId)));
  match r with
  | inl meta => mret meta
  | inr code => if code =? kKVStoreNotFound then fail StorageCode_kChunkMetadataNotFound
                else fail StorageCode_kChunkMetadataGetError
  end.

Definition meta_set (chunkId : ChunkId) (meta : ChunkMetadata) : M ChunkMetaStore unit :=
  r ← attempt (onDisk (kv_commit [put_metadata chunkId meta;
        if bool_decide (cm_chunkState meta = CHUNK_COMMIT) then del_uncommitted chunkId else put_uncommitted chunkId]));
  match r with inl _ => mret tt | inr _ => fail StorageCode_kChunkMetadataSetError end.

Definition cm_position (meta : ChunkMetadata) : ChunkPosition :=
  mkChunkPosition (cf_chunkIdx (cm_innerFileId meta)) (cm_innerOffset meta).

Definition meta_remove (chunkId : ChunkId) (meta : ChunkMetadata) : M ChunkMetaStore unit :=
  let cs := cf_chunkSize (cm_innerFileId meta) in
  loadAllocateState cs ;;
  s ← getS;
  let st := stateOf s cs in
  let now := d_now (ms_disk s) in
  let doPunchHole := cm_innerOffset meta <? as_startingPoint st in
  (if doPunchHole then onDisk (file_punchHole (cm_innerFileId meta) (cm_innerOffset meta))
   else modState cs (fun st => set_as_removedCount (u64 (as_removedCount st + 1)) st)) ;;
  modify (fun s => set_ms_removedSize (u64 (ms_removedSize s + cs)) s) ;;
  s' ← getS;
  r ← attempt (onDisk (kv_commit (
        [del_metadata chunkId; del_uncommitted chunkId]
        ++ (if doPunchHole then []
            else [put_removed (cs, now, cm_position meta);
                  put_number KEY_REMOVEDCOUNT cs (as_removedCount (stateOf s' cs))])
        ++ [set_kv_removedSize (Some (ms_removedSize s'))])));
  match r with
  | inr _ =>
      when (negb doPunchHole) (modState cs (fun st => set_as_removedCount (u64 (as_removedCount st - 1)) st)) ;;
      modify (fun s => set_ms_removedSize (u64 (ms_removedSize s - cs)) s) ;;
      fail StorageCode_kChunkMetadataSetError
  | inl _ =>
      modState cs (fun st => if as_oldestRemovedTimestamp st =? 0 then set_as_oldestRemovedTimestamp now st else st)
  end.

(** ** Creating chunks *)

(** A position taken for a chunk, whether it was recycled, and the count that
    goes with it. *)
Record Taken := mkTaken { tk_pos : ChunkPosition; tk_recycled : bool; tk_count : Z }.

(** The first critical section; returns whether to recycle here. *)
Definition create_enter (cs : Z) : M ChunkMetaStore bool :=
  s ← getS;
  if needRecycleRemovedChunks s cs
  then
    when (negb (as_recycling (stateOf s cs))) (modState cs (set_as_recycling true) ;; addJob (JOB_RECYCLE cs)) ;;
    mret (bool_decide (as_recycledChunks (stateOf s cs) = []))
  else mret false.

(** Under [recycleMutex] and [createMutex]. *)
Definition create_recycle (cs : Z) : M ChunkMetaStore unit :=
  st ← getState cs;
  when (bool_decide (as_recycledChunks st = [])) (recycleRemovedChunks cs true).

(** Takes a recycled position, or a created one; [None]: wait for
    [allocateMutex]. *)
Definition take_created (cs : Z) : M ChunkMetaStore (option Taken) :=
  st ← getState cs;
  match pop_back (as_createdChunks st) with
  | None => mret None
  | Some (pos, rest) =>
      let usedCount := u64 (as_usedCount st + 1) in
      modState cs (fun st => set_as_usedCount usedCount (set_as_createdChunks rest st)) ;;
      mret (Some (mkTaken pos false usedCount))
  end.
Definition create_take (cs : Z) (allowToAllocate : bool) : M ChunkMetaStore (option Taken) :=
  st ← getState cs;
  match pop_back (as_recycledChunks st) with
  | Some (pos, rest) =>
      let reusedCount := u64 (as_reusedCount st + 1) in
      modState cs (fun st => set_as_reusedCount reusedCount (set_as_recycledChunks rest st)) ;;
      mret (Some (mkTaken pos true reusedCount))
  | None =>
      err_if (negb allowToAllocate) StorageClientCode_kNoSpace ;;
      when ((u64 (Z.of_nat (length (as_createdChunks st)) * cs) <=? mc_allocate_size config / 2)
            && negb (as_allocating st))
        (modState cs (set_as_allocating true) ;; addJob (JOB_ALLOCATE cs)) ;;
      take_created cs
  end.

(** Under [allocateMutex] and [createMutex]. *)
Definition create_allocate (cs : Z) : M ChunkMetaStore Taken :=
  st ← getState cs;
  when (bool_decide (as_createdChunks st = [])) (allocateChunks cs true) ;;
  t ← take_created cs;
  match t with Some t => mret t | None => fatal end.

(** Commit of the new chunk; on failure the position goes back. *)
Definition create_commit (chunkId : ChunkId) (cs : Z) (meta : ChunkMetadata) (t : Taken)
    : M ChunkMetaStore ChunkMetadata :=
  let meta' := set_cm_innerOffset (pos_offset (tk_pos t))
                 (set_cm_innerFileId (mkChunkFileId cs (pos_fileIdx (tk_pos t))) meta) in
  modify (fun s => set_ms_createdSize (u64 (ms_createdSize s + cs)) s) ;;
  s ← getS;
  r ← attempt (onDisk (kv_commit (
        (if tk_recycled t
         then [put_number KEY_REUSEDCOUNT cs (tk_count t); del_recycled (cs, tk_pos t)]
         else [put_number KEY_USEDCOUNT cs (tk_count t); del_created (cs, tk_pos t)])
        ++ [put_metadata chunkId meta'; set_kv_createdSize (Some (ms_createdSize s))])));
  match r with
  | inl _ => mret meta'
  | inr _ =>
      modify (fun s => set_ms_createdSize (u64 (ms_createdSize s - cs)) s) ;;
      modState cs (fun st =>
        if tk_recycled t
        then set_as_reusedCount (u64 (as_reusedCount st - 1)) (set_as_recycledChunks (as_recycledChunks st ++ [tk_pos t]) st)
        else set_as_usedCount (u64 (as_usedCount st - 1)) (set_as_createdChunks (as_createdChunks st ++ [tk_pos t]) st)) ;;
      fail StorageCode_kChunkMetadataSetError
  end.

(** [createChunk]: returns the metadata with the position of the chunk. *)
Definition meta_createChunk (chunkId : ChunkId) (meta : ChunkMetadata) (cs : Z) (allowToAllocate : bool)
    : M ChunkMetaStore ChunkMetadata :=
  loadAllocateState cs ;;
  recycleHere ← create_enter cs;
  when recycleHere (create_recycle cs) ;;
  taken ← create_take cs allowToAllocate;
  t ← match taken with Some t => mret t | None => create_allocate cs end;
  create_commit chunkId cs meta t.

(** ** Holes *)

(** The callback of [punchHoleRemovedChunks]: [Err kOK] stops the iteration.
    The state is the batch, the count and the oldest time left. *)
Definition punchHoleRemovedChunks (cs expirationUs : Z) : M ChunkMetaStore bool :=
  fault ← onDisk next_read;
  s ← getS;
  let keys := removed_keys (d_kv (ms_disk s)) cs in
  let visible := match fault with Some n => take n keys | None => keys end in
  let due := take_z (mc_punch_hole_batch_size config) (take_while (fun k => k.1 <=? expirationUs) visible) in
  let stopped := bool_decide (length due < length visible)%nat in
  for_each (fun k => onDisk (file_punchHole (mkChunkFileId cs (pos_fileIdx k.2)) (pos_offset k.2))) due ;;
  err_if (bool_decide (is_Some fault) && negb stopped) kKVStoreGetError ;;
  let oldest := default 0 (fst <$> visible !! length due) in
  if bool_decide (due = [])
  then modState cs (set_as_oldestRemovedTimestamp oldest) ;; mret true
  else
    st ← getState cs;
    let holeCount := u64 (as_holeCount st + Z.of_nat (length due)) in
    modState cs (set_as_holeCount holeCount) ;;
    r ← attempt (onDisk (kv_commit (((fun k => del_removed (cs, k.1, k.2)) <$> due) ++ [put_number KEY_HOLECOUNT cs holeCount])));
    match r with
    | inr _ =>
        modState cs (fun st => set_as_holeCount (u64 (as_holeCount st - Z.of_nat (length due))) st) ;;
        fail StorageCode_kChunkMetadataSetError
    | inl _ =>
        modState cs (set_as_oldestRemovedTimestamp oldest) ;;
        mret (oldest =? 0)
    end.

Fixpoint punchHole_loop (sizes : list Z) (expirationUs : Z) (punchAll : bool) : M ChunkMetaStore bool :=
  match sizes with
  | [] => mret punchAll
  | cs :: sizes' =>
      loadAllocateState cs ;;
      st ← getState cs;
      if (as_oldestRemovedTimestamp st =? 0) || (as_oldestRemovedTimestamp st >=? expirationUs)
      then punchHole_loop sizes' expirationUs punchAll
      else
        all ← punchHoleRemovedChunks cs (u64 expirationUs);
        punchHole_loop sizes' expirationUs (punchAll && all)
  end.
Definition meta_punchHole : M ChunkMetaStore bool :=
  s ← getS;
  let expirationUs := if ms_emergencyRecycling s then d_now (ms_disk s)
                      else d_now (ms_disk s) - mc_removed_chunk_expiration_time config in
  punchHole_loop (map_to_list (ms_allocateState s)).*1 expirationUs true.

(** ** Sizes *)

Definition meta_sync : M ChunkMetaStore unit := onDisk (kv_commit []).

(** The difference of the atomics, as a signed number. *)
Definition i64 (v : Z) : Z := let w := u64 v in if w <? 2 ^ 63 then w else w - 2 ^ 64.
Definition usedSize (s : ChunkMetaStore) : Z := Z.max (i64 (ms_createdSize s - ms_removedSize s)) 0.

Fixpoint unusedSize_loop (sizes : list Z) (reserved unrecycled : Z) : M ChunkMetaStore (Z * Z) :=
  match sizes with
  | [] => mret (reserved, unrecycled)
  | cs :: sizes' =>
      loadAllocateState cs ;;
      st ← getState cs;
      let reservedCount := Z.max 0 (as_createdCount st - as_usedCount st)
                           + Z.max 0 (as_recycledCount st - as_reusedCount st) in
      let unrecycledCount := Z.max 0 (as_removedCount st - as_recycledCount st - as_holeCount st) in
      unusedSize_loop sizes' (reserved + cs * reservedCount) (unrecycled + cs * unrecycledCount)
  end.
Definition unusedSize (reservedSize unrecycledSize : Z) : M ChunkMetaStore (Z * Z) :=
  s ← getS; unusedSize_loop (map_to_list (ms_allocateState s)).*1 reservedSize unrecycledSize.
End operations.

(** ** Iteration over metadata *)

(** The entries an iterator opened on a prefix visits: keys not below the key
    of the prefix, in order; the least sentinel is skipped. *)
Definition iterator_entries (kv : MetaKV) (chunkIdPrefix : bytes) : list (ChunkId * ChunkMetadata) :=
  filter (fun e => e.1 <> [] /\ bytes_compare (ChunkKey KEY_METADATA chunkIdPrefix) (ChunkKey KEY_METADATA e.1) <> Gt)
    (sort_keys (fun e => ChunkKey KEY_METADATA e.1) (map_to_list (kv_metadata kv))).
