(* ===== verification/MetaKeys.v ===== *)
(** * Keys of the metadata store

    The byte keys of [ChunkMetaStore.cc] tell all typed keys apart, the prefix
    of an iteration selects exactly the keys of one table and chunk size, and
    removed positions are visited oldest first. *)

From stdpp Require Import base gmap list sorting.
From Stdlib Require Import ZArith Lia.
From S2P Require Import Prelude StatusCode Bytes KvRange StorageTypes ChunkFiles ChunkMetaStore.

(** The typed keys: the tables of [MetaKV]. *)
Inductive MetaKey :=
| K_metadata (id : ChunkId)
| K_uncommitted (id : ChunkId)
| K_fileSize (f : ChunkFileId)
| K_createdSize | K_removedSize | K_syncDummy
| K_created (cs : Z) (p : ChunkPosition)
| K_recycled (cs : Z) (p : ChunkPosition)
| K_removed (cs us : Z) (p : ChunkPosition)
| K_number (t : MetaKeyType) (cs : Z)
| K_rawVersion (cs : Z)
| K_min | K_max.

Definition MetaKey_bytes (k : MetaKey) : bytes :=
  match k with
  | K_metadata id => ChunkKey KEY_METADATA id
  | K_uncommitted id => ChunkKey KEY_UNCOMMITTED id
  | K_fileSize f => FileSizeKey f
  | K_createdSize => [MetaKeyType_value KEY_CREATEDSIZE]
  | K_removedSize => [MetaKeyType_value KEY_REMOVEDSIZE]
  | K_syncDummy => [MetaKeyType_value KEY_SYNCDUMMY]
  | K_created cs p => PositionKey KEY_CREATED cs p
  | K_recycled cs p => PositionKey KEY_RECYCLED cs p
  | K_removed cs us p => RemovedKey cs us p
  | K_number t cs => ChunkSizePrefix t cs
  | K_rawVersion cs => VersionKey_raw cs
  | K_min => [MetaKeyType_value KEY_METADATA]
  | K_max => [MetaKeyType_value KEY_MAX]
  end.

(** Fields in the range of their types; an identifier is not empty. *)
Definition is_u32 (v : Z) : Prop := 0 <= v < 2 ^ 32.
Definition is_u64 (v : Z) : Prop := 0 <= v < 2 ^ 64.
Definition pos_ok (p : ChunkPosition) : Prop := is_u32 (pos_fileIdx p) /\ is_u64 (pos_offset p).
Definition number_type (t : MetaKeyType) : bool := (16 <=? MetaKeyType_value t) && (MetaKeyType_value t <=? 24).
Definition MetaKey_ok (k : MetaKey) : Prop :=
  match k with
  | K_metadata id | K_uncommitted id => id <> []
  | K_fileSize f => is_u32 (cf_chunkSize f) /\ is_u32 (cf_chunkIdx f)
  | K_created cs p | K_recycled cs p => is_u32 cs /\ pos_ok p
  | K_removed cs us p => is_u32 cs /\ is_u64 us /\ pos_ok p
  | K_number t cs => number_type t = true /\ is_u32 cs
  | K_rawVersion cs => is_u32 cs
  | _ => True
  end.

Lemma reverseBits_involutive v : reverseBits (reverseBits v) = v.
Proof. induction v as [|b v IH]; [done|]. unfold reverseBits in *. cbn [fmap list_fmap]. f_equal; [lia|exact IH]. Qed.

Lemma ChunkKey_roundtrip t id : ChunkKey_chunkId (ChunkKey t id) = id.
Proof. apply reverseBits_involutive. Qed.

(** Drop the first bytes of an equation. *)
Ltac pop_cons E := apply (f_equal (@tail Z)) in E; cbn [tail] in E.

Lemma app_inv_len {A} (a b c d : list A) : length a = length b -> a ++ c = b ++ d -> a = b /\ c = d.
Proof. intros Hlen E. by apply app_inj_1. Qed.

Lemma le_bytes_inj_at n a b x y :
  0 <= a < 2 ^ (8 * Z.of_nat n) -> 0 <= b < 2 ^ (8 * Z.of_nat n) ->
  le_bytes n a ++ x = le_bytes n b ++ y -> a = b /\ x = y.
Proof.
  intros Ha Hb E. apply app_inv_len in E as [E ->]; [|by rewrite !le_bytes_length].
  split; [|done]. by apply (le_bytes_inj n).
Qed.

Lemma le4_inj a b x y : is_u32 a -> is_u32 b -> le_bytes 4 a ++ x = le_bytes 4 b ++ y -> a = b /\ x = y.
Proof. apply (le_bytes_inj_at 4). Qed.

Lemma be8_inj a b x y :
  is_u64 a -> is_u64 b -> le_bytes 8 (big64 a) ++ x = le_bytes 8 (big64 b) ++ y -> a = b /\ x = y.
Proof.
  intros Ha Hb E. rewrite !le_bytes_big64 in E. apply app_inv_len in E as [E ->]; [|by rewrite !length_rev, !le_bytes_length].
  split; [|done]. apply (f_equal (@rev Z)) in E. rewrite !rev_involutive in E. by apply (le_bytes_inj 8).
Qed.

Lemma ChunkPosition_bytes_inj p q x y :
  pos_ok p -> pos_ok q -> ChunkPosition_bytes p ++ x = ChunkPosition_bytes q ++ y -> p = q /\ x = y.
Proof.
  intros [Hp1 Hp2] [Hq1 Hq2] E. unfold ChunkPosition_bytes in E. rewrite <-!app_comm_cons, <-!app_assoc in E.
  pop_cons E. apply le4_inj in E as [E1 E]; [|done..]. apply be8_inj in E as [E2 ->]; [|done..].
  destruct p, q; simpl in *. by subst.
Qed.

Lemma ChunkSizePrefix_inj t t' cs cs' x y :
  is_u32 cs -> is_u32 cs' -> ChunkSizePrefix t cs ++ x = ChunkSizePrefix t' cs' ++ y -> t = t' /\ cs = cs' /\ x = y.
Proof.
  intros Hcs Hcs' E. unfold ChunkSizePrefix in E. rewrite <-!app_comm_cons in E.
  assert (MetaKeyType_value t = MetaKeyType_value t') as Et by exact (f_equal (hd 0) E). pop_cons E. pop_cons E.
  apply le4_inj in E as [-> ->]; [|done..]. split; [|done]. by destruct t, t'.
Qed.

Lemma ChunkSizePrefix_inj0 t t' cs cs' :
  is_u32 cs -> is_u32 cs' -> ChunkSizePrefix t cs = ChunkSizePrefix t' cs' -> t = t' /\ cs = cs'.
Proof.
  intros Hcs Hcs' E. destruct (ChunkSizePrefix_inj t t' cs cs' [] [] Hcs Hcs') as (-> & -> & _); [by rewrite !app_nil_r|done].
Qed.

Lemma PositionKey_inj t t' cs cs' p q :
  is_u32 cs -> is_u32 cs' -> pos_ok p -> pos_ok q -> PositionKey t cs p = PositionKey t' cs' q -> t = t' /\ cs = cs' /\ p = q.
Proof.
  intros Hcs Hcs' Hp Hq E. apply ChunkSizePrefix_inj in E as (-> & -> & E); [|done..]. pop_cons E.
  destruct (ChunkPosition_bytes_inj p q [] []) as [-> _]; [done|done|by rewrite !app_nil_r, E|done].
Qed.

Lemma RemovedKey_inj cs cs' us us' p q :
  is_u32 cs -> is_u32 cs' -> is_u64 us -> is_u64 us' -> pos_ok p -> pos_ok q ->
  RemovedKey cs us p = RemovedKey cs' us' q -> cs = cs' /\ us = us' /\ p = q.
Proof.
  intros Hcs Hcs' Hus Hus' Hp Hq E. apply ChunkSizePrefix_inj in E as (_ & -> & E); [|done..].
  pop_cons E. apply be8_inj in E as [-> E]; [|done..].
  destruct (ChunkPosition_bytes_inj p q [] []) as [-> _]; [done|done|by rewrite !app_nil_r, E|done].
Qed.

Lemma reverseBits_inj v w : reverseBits v = reverseBits w -> v = w.
Proof. intros E. by rewrite <-(reverseBits_involutive v), E, reverseBits_involutive. Qed.

Lemma FileSizeKey_inj f g :
  is_u32 (cf_chunkSize f) -> is_u32 (cf_chunkIdx f) -> is_u32 (cf_chunkSize g) -> is_u32 (cf_chunkIdx g) ->
  FileSizeKey f = FileSizeKey g -> f = g.
Proof.
  intros ? ? ? ? E. unfold FileSizeKey in E. do 3 pop_cons E.
  apply le4_inj in E as [E1 E]; [|done..]. apply (le_bytes_inj 4) in E; [|done..]. destruct f, g; simpl in *. by subst.
Qed.

(** Two keys of different tables differ in their first byte or their length. *)
Definition key_class (k : MetaKey) : Z * nat :=
  match MetaKey_bytes k with [] => (0, 0%nat) | b :: l => (b, match l with [] => 0%nat | _ => 1%nat end) end.

Lemma number_type_range t : number_type t = true -> 16 <= MetaKeyType_value t <= 24.
Proof. unfold number_type. rewrite andb_true_iff, !Z.leb_le. lia. Qed.

Ltac key_clash E :=
  exfalso; apply (f_equal (fun l : bytes => match l with [] => (0, 0%nat) | b :: l => (b, match l with [] => 0%nat | _ => 1%nat end) end)) in E;
  simpl in E; repeat match goal with H : number_type _ = true /\ _ |- _ => destruct H as [H%number_type_range _] end;
  first [discriminate E | injection E; intros; lia].

(** Distinct keys have distinct bytes. *)
Theorem meta_key_bytes_injective (k k' : MetaKey) :
  MetaKey_ok k -> MetaKey_ok k' -> MetaKey_bytes k = MetaKey_bytes k' -> k = k'.
Proof.
  intros Hk Hk' E. destruct k, k'; simpl in Hk, Hk'; try reflexivity; unfold MetaKey_bytes in E;
    first
    [ (* keys of one table *)
      match goal with
      | |- K_metadata _ = K_metadata _ => unfold ChunkKey in E; pop_cons E; f_equal; by apply reverseBits_inj
      | |- K_uncommitted _ = K_uncommitted _ => unfold ChunkKey in E; pop_cons E; f_equal; by apply reverseBits_inj
      | |- K_fileSize _ = K_fileSize _ => f_equal; destruct Hk, Hk'; by apply FileSizeKey_inj
      | |- K_created _ _ = K_created _ _ => destruct Hk, Hk'; apply PositionKey_inj in E as (_ & -> & ->); done
      | |- K_recycled _ _ = K_recycled _ _ => destruct Hk, Hk'; apply PositionKey_inj in E as (_ & -> & ->); done
      | |- K_removed _ _ _ = K_removed _ _ _ =>
          destruct Hk as (? & ? & ?), Hk' as (? & ? & ?); apply RemovedKey_inj in E as (-> & -> & ->); done
      | |- K_number _ _ = K_number _ _ => destruct Hk, Hk'; apply ChunkSizePrefix_inj0 in E as (-> & ->); done
      | |- K_rawVersion _ = K_rawVersion _ => unfold VersionKey_raw in E; pop_cons E; f_equal; by apply (le_bytes_inj 4)
      end
    | key_clash E
    | match type of E with ChunkKey _ ?id = _ => destruct id | _ = ChunkKey _ ?id => destruct id end; by try discriminate E ].
Qed.

(** ** Prefixes *)

(** The table of positions a key belongs to. *)
Definition key_table (k : MetaKey) : option (MetaKeyType * Z) :=
  match k with
  | K_created cs _ => Some (KEY_CREATED, cs)
  | K_recycled cs _ => Some (KEY_RECYCLED, cs)
  | K_removed cs _ _ => Some (KEY_REMOVED, cs)
  | _ => None
  end.

(** The prefix of an iteration selects exactly the keys of its table and chunk size. *)
Theorem meta_prefix_selects (k : MetaKey) (t : MetaKeyType) (cs : Z) :
  MetaKey_ok k -> is_u32 cs -> t = KEY_CREATED \/ t = KEY_RECYCLED \/ t = KEY_REMOVED ->
  ChunkSizePrefix t cs `prefix_of` MetaKey_bytes k <-> key_table k = Some (t, cs).
Proof.
  intros Hk Hcs Ht. split.
  - intros [l E]. assert (hd 0 (MetaKey_bytes k) = MetaKeyType_value t) as Hhd by by rewrite E.
    destruct k; simpl in Hk; simpl in Hhd;
      try (exfalso; destruct_or! Ht; subst t; simpl in Hhd; try discriminate Hhd;
           destruct Hk as [Hk%number_type_range _]; lia).
    all: unfold MetaKey_bytes, PositionKey, RemovedKey in E;
      apply ChunkSizePrefix_inj in E as (<- & <- & _); [done|apply Hk|done].
  - destruct k; simpl; intros E; simplify_eq; eexists; reflexivity.
Qed.

(** ** Order of removed positions *)

Lemma RemovedKey_compare cs us us' p q :
  is_u64 us -> is_u64 us' -> us < us' -> bytes_compare (RemovedKey cs us p) (RemovedKey cs us' q) = Lt.
Proof.
  intros Hus Hus' Hlt. unfold RemovedKey. rewrite bytes_compare_app.
  rewrite !le_bytes_big64. cbn [bytes_compare]. rewrite Z.compare_refl.
  rewrite bytes_compare_app_len by by rewrite !length_rev, !le_bytes_length. rewrite (be_compare 8) by done.
  by apply Z.compare_lt_iff in Hlt as ->.
Qed.

Section sort_keys.
Context {A : Type} (key : A -> bytes).
Let R (a b : A) : Prop := bytes_compare (key a) (key b) <> Gt.

#[local] Instance sort_keys_total : Total R.
Proof. intros a b. unfold R. rewrite (bytes_compare_opp (key a) (key b)). destruct (bytes_compare _ _); simpl; auto. Qed.

#[local] Instance sort_keys_trans : Transitive R.
Proof.
  intros a b c. unfold R. intros Hab Hbc.
  destruct (bytes_compare (key a) (key b)) eqn:E1; [apply bytes_compare_eq in E1 as ->; done| |done].
  destruct (bytes_compare (key b) (key c)) eqn:E2; [apply bytes_compare_eq in E2 as <-; by rewrite E1| |done].
  by rewrite (bytes_lt_trans _ _ _ E1 E2).
Qed.

Lemma sort_keys_perm l : sort_keys key l ≡ₚ l.
Proof. apply merge_sort_Permutation. Qed.

Lemma sort_keys_sorted l : StronglySorted R (sort_keys key l).
Proof. apply (StronglySorted_merge_sort R). Qed.
End sort_keys.

Lemma elem_of_created_keys kv cs p : p ∈ created_keys kv cs <-> (cs, p) ∈ kv_created kv.
Proof.
  unfold created_keys. rewrite sort_keys_perm, list_elem_of_omap. split.
  - intros ([cs' p'] & Hin & E). simpl in E. destruct (Z.eqb_spec cs' cs); [|done]. simplify_eq. by apply elem_of_elements.
  - intros Hin. exists (cs, p). rewrite elem_of_elements. simpl. by rewrite Z.eqb_refl.
Qed.

Lemma elem_of_recycled_keys kv cs p : p ∈ recycled_keys kv cs <-> (cs, p) ∈ kv_recycled kv.
Proof.
  unfold recycled_keys. rewrite sort_keys_perm, list_elem_of_omap. split.
  - intros ([cs' p'] & Hin & E). simpl in E. destruct (Z.eqb_spec cs' cs); [|done]. simplify_eq. by apply elem_of_elements.
  - intros Hin. exists (cs, p). rewrite elem_of_elements. simpl. by rewrite Z.eqb_refl.
Qed.

Lemma elem_of_removed_keys kv cs us p : (us, p) ∈ removed_keys kv cs <-> (cs, us, p) ∈ kv_removed kv.
Proof.
  unfold removed_keys. rewrite sort_keys_perm, list_elem_of_omap. split.
  - intros ([[cs' us'] p'] & Hin & E). simpl in E. destruct (Z.eqb_spec cs' cs); [|done]. simplify_eq. by apply elem_of_elements.
  - intros Hin. exists (cs, us, p). rewrite elem_of_elements. simpl. by rewrite Z.eqb_refl.
Qed.

Lemma NoDup_omap_inj {A B} (f : A -> option B) (l : list A) :
  (forall x y b, f x = Some b -> f y = Some b -> x = y) -> NoDup l -> NoDup (omap f l).
Proof.
  intros Hinj. induction 1 as [|x l Hx Hl IH]; [constructor|]. cbn [omap list_omap]. destruct (f x) as [b|] eqn:E; [|done].
  constructor; [|done]. rewrite list_elem_of_omap. intros (y & Hy & E'). by rewrite (Hinj x y b E E') in Hx.
Qed.

Lemma NoDup_created_keys kv cs : NoDup (created_keys kv cs).
Proof.
  unfold created_keys. rewrite sort_keys_perm. apply NoDup_omap_inj; [|apply NoDup_elements].
  intros [a p] [b q] r. simpl. destruct (Z.eqb_spec a cs), (Z.eqb_spec b cs); intros; simplify_eq. done.
Qed.

Lemma NoDup_recycled_keys kv cs : NoDup (recycled_keys kv cs).
Proof.
  unfold recycled_keys. rewrite sort_keys_perm. apply NoDup_omap_inj; [|apply NoDup_elements].
  intros [a p] [b q] r. simpl. destruct (Z.eqb_spec a cs), (Z.eqb_spec b cs); intros; simplify_eq. done.
Qed.

Lemma NoDup_removed_keys kv cs : NoDup (removed_keys kv cs).
Proof.
  unfold removed_keys. rewrite sort_keys_perm. apply NoDup_omap_inj; [|apply NoDup_elements].
  intros [[a u] p] [[b v] q] r. simpl. destruct (Z.eqb_spec a cs), (Z.eqb_spec b cs); intros; simplify_eq. done.
Qed.

(** Iteration over the removed positions visits them in the order of their removal. *)
Theorem removed_keys_oldest_first (kv : MetaKV) (cs : Z) :
  (forall cs us p, (cs, us, p) ∈ kv_removed kv -> is_u64 us) ->
  StronglySorted (fun k k' => k.1 <= k'.1) (removed_keys kv cs).
Proof.
  intros Hok. pose proof (sort_keys_sorted (fun k => RemovedKey cs k.1 k.2)
    (omap (fun k => if k.1.1 =? cs then Some (k.1.2, k.2) else None) (elements (kv_removed kv)))) as Hs.
  fold (removed_keys kv cs) in Hs.
  assert (Forall (fun k => is_u64 k.1) (removed_keys kv cs)) as HF.
  { apply Forall_forall. intros [us p] Hin%elem_of_removed_keys. by eapply Hok. }
  induction Hs as [|k l Hs IH Hk]; [constructor|]. inversion HF as [|? ? Hk1 HF1]; subst. constructor; [by apply IH|].
  rewrite Forall_forall in *. intros k' Hk'. destruct (decide (k.1 <= k'.1)) as [|Hgt]; [done|]. exfalso.
  apply (Hk k' Hk'). rewrite bytes_compare_opp, RemovedKey_compare; [done|by apply HF1|done|lia].
Qed.
