(* ===== verification/MetaSpace.v ===== *)
(** * Positions of chunks are exclusive

    Every position of a chunk file is held by at most one owner: a chunk, or
    one of the pools of created, recycled and removed positions.  The
    invariant is shown for every interleaving of the critical sections of
    [ChunkMetaStore], with failures of the device and restarts. *)

From stdpp Require Import base gmap list sorting.
From Stdlib Require Import ZArith Lia.
From S2P Require Import Prelude StatusCode Bytes MgmtdTypes StorageTypes ChunkFiles ChunkMetaStore MetaKeys.

(** ** Runs of the device *)

(** Some of the queue of reads may be used up. *)
Definition d_later {K} (d d' : Disk K) : Prop := d_now d' = d_now d /\ d_rfaults d' `suffix_of` d_rfaults d.
(** The disk up to the queues of faults. *)
Definition d_same {K} (d d' : Disk K) : Prop := d_kv d' = d_kv d /\ d_files d' = d_files d /\ d_later d d'.

Lemma d_later_refl {K} (d : Disk K) : d_later d d.
Proof. split; [done|]. by exists []. Qed.

Lemma d_later_trans {K} (d1 d2 d3 : Disk K) : d_later d1 d2 -> d_later d2 d3 -> d_later d1 d3.
Proof. intros [? ?] [? ?]. split; [congruence|]. by etrans. Qed.

Lemma d_same_refl {K} (d : Disk K) : d_same d d.
Proof. split_and!; [done|done|apply d_later_refl]. Qed.

Lemma d_same_trans {K} (d1 d2 d3 : Disk K) : d_same d1 d2 -> d_same d2 d3 -> d_same d1 d3.
Proof. intros (? & ? & ?) (? & ? & ?). split_and!; [congruence|congruence|by eapply d_later_trans]. Qed.

(** Only the size of files may have changed, and grown. *)
Definition grown {K} (d d' : Disk K) : Prop :=
  d_later d d'
  /\ (forall f, is_Some (d_files d !! f) -> is_Some (d_files d' !! f))
  /\ (forall f, fd_bytes (disk_file d' f) = fd_bytes (disk_file d f)
               /\ fd_size (disk_file d f) <= fd_size (disk_file d' f)).

Lemma grown_files {K} (d d' : Disk K) : d_files d' = d_files d -> d_later d d' -> grown d d'.
Proof. intros E En. split; [done|]. rewrite E. split; [done|]. intros f. unfold disk_file. by rewrite E. Qed.

Lemma grown_same {K} (d d' : Disk K) : d_same d d' -> grown d d'.
Proof. intros (_ & E & En). by apply grown_files. Qed.

Lemma grown_trans {K} (d1 d2 d3 : Disk K) : grown d1 d2 -> grown d2 d3 -> grown d1 d3.
Proof.
  intros (E1 & F1 & G1) (E2 & F2 & G2). split; [by eapply d_later_trans|]. split; [auto|]. intros f. specialize (G1 f). specialize (G2 f).
  destruct G1 as [? ?], G2 as [? ?]. split; [congruence|lia].
Qed.

Lemma disk_file_update {K} fileId g (d : Disk K) f :
  disk_file (update_file fileId g d) f = if bool_decide (f = fileId) then g (disk_file d fileId) else disk_file d f.
Proof.
  unfold disk_file at 1. unfold update_file, set_d_files. cbn [d_files].
  case_bool_decide as E; [subst; by rewrite lookup_insert_eq|by rewrite lookup_insert_ne].
Qed.

Lemma grown_allocate {K} fileId offset size (d : Disk K) : grown d (update_file fileId (file_allocate offset size) d).
Proof.
  split; [exact (d_later_refl d)|]. split.
  - intros f Hf. cbn [d_files update_file set_d_files]. destruct (decide (f = fileId)) as [->|];
      [by rewrite lookup_insert_eq|by rewrite lookup_insert_ne].
  - intros f. rewrite disk_file_update. case_bool_decide; subst; simpl; split; (done || lia).
Qed.

Section disk_runs.
Context {K : Type}.
Implicit Types d : Disk K.

Lemma runs_next_read d (Q : outcome (option nat) -> Disk K -> Prop) :
  (forall x d', d_same d d' -> Q (Ok x) d') -> runs next_read d Q.
Proof.
  intros HQ. unfold runs, next_read. destruct (d_rfaults d) eqn:E; apply HQ; [apply d_same_refl|].
  split_and!; [done|done|]. split; [done|]. rewrite E. by exists [o].
Qed.

Lemma runs_next_write d (Q : outcome (option nat) -> Disk K -> Prop) :
  (forall x d', d_same d d' -> Q (Ok x) d') -> runs next_write d Q.
Proof.
  intros HQ. unfold runs, next_write. destruct (d_wfaults d) eqn:E; apply HQ; [apply d_same_refl|].
  split_and!; [done|done|exact (d_later_refl d)].
Qed.

Lemma runs_openInnerFile fileId d (Q : outcome ChunkFileId -> Disk K -> Prop) :
  (forall d', d_same d d' -> Q (Ok fileId) d') -> (forall c d', d_same d d' -> Q (Err c) d') ->
  runs (openInnerFile fileId false) d Q.
Proof.
  intros HQ HE. unfold openInnerFile. mstep. apply runs_next_read. intros x d' Hd. msteps; [by apply HE|].
  destruct (d_files d' !! fileId); mstep; auto.
Qed.
End disk_runs.

Lemma runs_kv_get {A} (f : MetaKV -> option A) d (Q : outcome A -> Disk MetaKV -> Prop) :
  (forall d' a, d_same d d' -> f (d_kv d) = Some a -> Q (Ok a) d') ->
  (forall d', d_same d d' -> f (d_kv d) = None -> Q (Err kKVStoreNotFound) d') ->
  (forall d', d_same d d' -> Q (Err kKVStoreGetError) d') ->
  runs (kv_get f) d Q.
Proof.
  intros H1 H2 H3. unfold kv_get. mstep. apply runs_next_read. intros x d' Hd. msteps; [by apply H3|].
  destruct Hd as (E & ? & ?). destruct (f (d_kv d')) eqn:Ef; rewrite E in Ef; mstep; [apply H1|apply H2]; done.
Qed.

Lemma runs_kv_find {A} (f : MetaKV -> option A) d (Q : outcome (option A) -> Disk MetaKV -> Prop) :
  (forall d', d_same d d' -> Q (Ok (f (d_kv d))) d') -> (forall c d', d_same d d' -> Q (Err c) d') ->
  runs (kv_find f) d Q.
Proof.
  intros HQ HE. unfold kv_find. mstep. mstep. apply runs_kv_get; intros d' *; intros Hd; [intros E|intros E|]; msteps.
  - rewrite E in HQ. by apply HQ.
  - rewrite Z.eqb_refl. mstep. rewrite E in HQ. by apply HQ.
  - by apply HE.
Qed.

(** The next read does not fail. *)
Definition readable {K} (d : Disk K) : Prop := match d_rfaults d with Some _ :: _ => False | _ => True end.

Lemma runs_kv_find_readable {A} (f : MetaKV -> option A) d (Q : outcome (option A) -> Disk MetaKV -> Prop) :
  readable d -> (forall d', d_same d d' -> Q (Ok (f (d_kv d))) d') -> runs (kv_find f) d Q.
Proof.
  intros Hr HQ.
  assert (exists d', next_read d = (Ok None, d') /\ d_same d d') as (d' & Ed & Hd).
  { unfold next_read, readable in *. destruct (d_rfaults d) as [|[n|] q] eqn:Eq; [exists d; split; [done|apply d_same_refl]|done|].
    eexists. split; [done|]. split_and!; [done|done|]. split; [done|]. rewrite Eq. by exists [None]. }
  unfold kv_find. mstep. mstep. unfold kv_get. mstep. eapply runs_of_eq; [exact Ed|]. msteps; [done|].
  assert (E : d_kv d' = d_kv d) by apply Hd. rewrite E. specialize (HQ d' Hd). destruct (f (d_kv d)); msteps; [done|].
  rewrite Z.eqb_refl. by mstep.
Qed.

Lemma runs_kv_commit batch d (Q : outcome unit -> Disk MetaKV -> Prop) :
  (forall d', d_same (set_d_kv (apply_batch batch (d_kv d)) d) d' -> Q (Ok tt) d') ->
  (forall d', d_same d d' -> Q (Err kKVStoreSetError) d') ->
  runs (kv_commit batch) d Q.
Proof.
  intros HQ HE. unfold kv_commit. mstep. apply runs_next_write. intros x d' Hd. msteps; [by apply HE|].
  apply HQ. destruct Hd as (E1 & E2 & E3). unfold d_same, set_d_kv. simpl. by rewrite E1, E2.
Qed.

Lemma runs_file_punchHole fileId offset d (Q : outcome unit -> Disk MetaKV -> Prop) :
  (forall d', d_kv d' = d_kv d -> grown (update_file fileId (file_punch offset (cf_chunkSize fileId)) d) d' -> Q (Ok tt) d') ->
  (forall c d', d_same d d' -> Q (Err c) d') ->
  runs (file_punchHole fileId offset) d Q.
Proof.
  intros HQ HE. unfold file_punchHole. mstep. apply runs_openInnerFile.
  - intros d1 Hd1. mstep. mstep. apply runs_next_write. intros x d2 Hd2.
    pose proof (d_same_trans _ _ _ Hd1 Hd2) as Hd. msteps; [by apply HE|].
    destruct Hd as (E1 & E2 & E3). apply HQ; [done|]. apply grown_same.
    unfold d_same, update_file, set_d_files, disk_file. simpl. by rewrite E1, E2.
  - intros c d1 Hd1. mstep. by apply HE.
Qed.

Lemma runs_store_allocate fileId offset size d (Q : outcome unit -> Disk MetaKV -> Prop) :
  (forall d', d_kv d' = d_kv d -> grown d d' -> offset + size < 2 ^ 63 -> Q (Ok tt) d') ->
  (forall c d', d_same d d' -> Q (Err c) d') ->
  runs (store_allocate fileId offset size) d Q.
Proof.
  intros HQ HE. unfold store_allocate. mstep. apply runs_openInnerFile.
  - intros d1 Hd1. mstep. mstep. apply runs_next_write. intros x d2 Hd2.
    pose proof (d_same_trans _ _ _ Hd1 Hd2) as Hd. msteps; [by apply HE|].
    match goal with H : _ || _ = false |- _ => apply orb_false_iff in H as [_ Hlt] end.
    rewrite Z.geb_leb in Hlt. apply Z.leb_gt in Hlt.
    apply HQ; [apply Hd| |done]. eapply grown_trans; [apply (grown_same _ _ Hd)|apply grown_allocate].
  - intros c d1 Hd1. mstep. by apply HE.
Qed.

(** ** Owners of positions *)

Inductive Owner := OLive (id : ChunkId) | OCreated | ORecycled | ORemoved (us : Z).

Definition holds (kv : MetaKV) (w : Owner) (cs : Z) (p : ChunkPosition) : Prop :=
  match w with
  | OLive id => exists m, kv_metadata kv !! id = Some m /\ cf_chunkSize (cm_innerFileId m) = cs /\ cm_position m = p
  | OCreated => (cs, p) ∈ kv_created kv
  | ORecycled => (cs, p) ∈ kv_recycled kv
  | ORemoved us => (cs, us, p) ∈ kv_removed kv
  end.

Definition kv_fileSize_of (kv : MetaKV) (cs i : Z) : Z := default 0 (kv_fileSize kv !! mkChunkFileId cs i).

Record kv_ok (kv : MetaKV) : Prop := {
  ok_exclusive : forall w w' cs p, holds kv w cs p -> holds kv w' cs p -> w = w';
  ok_bounded : forall w cs p, holds kv w cs p ->
    0 < cs /\ 0 <= pos_offset p /\ pos_offset p mod cs = 0 /\ pos_offset p + cs <= kv_fileSize_of kv cs (pos_fileIdx p);
  ok_sizes : forall cs i, 0 <= kv_fileSize_of kv cs i
}.

(** Owners may disappear, and files grow. *)
Lemma kv_ok_sub kv kv' :
  kv_ok kv -> (forall w cs p, holds kv' w cs p -> holds kv w cs p) ->
  (forall cs i, kv_fileSize_of kv cs i <= kv_fileSize_of kv' cs i) -> kv_ok kv'.
Proof.
  intros [He Hb Hs] Hsub Hgrow. split.
  - intros w w' cs p H1 H2. by apply (He w w' cs p); apply Hsub.
  - intros w cs p H. destruct (Hb w cs p (Hsub _ _ _ H)) as (? & ? & ? & ?). specialize (Hgrow cs (pos_fileIdx p)). lia.
  - intros cs i. specialize (Hs cs i). specialize (Hgrow cs i). lia.
Qed.

(** A position moves from one owner to another. *)
Lemma kv_ok_move kv kv' wo wn cs p :
  kv_ok kv -> holds kv wo cs p -> ~ holds kv' wo cs p ->
  (forall w c q, holds kv' w c q -> holds kv w c q \/ w = wn /\ c = cs /\ q = p) ->
  (forall c i, kv_fileSize_of kv' c i = kv_fileSize_of kv c i) -> kv_ok kv'.
Proof.
  intros [He Hb Hs] Ho Hno Hsub Hsz. split.
  - intros w w' c q H1 H2. destruct (Hsub _ _ _ H1) as [H1'|(-> & -> & ->)], (Hsub _ _ _ H2) as [H2'|(-> & E1 & E2)]; subst.
    + by apply (He w w' c q).
    + exfalso. apply Hno. by rewrite <-(He _ _ _ _ H1' Ho).
    + exfalso. apply Hno. by rewrite <-(He _ _ _ _ H2' Ho).
    + done.
  - intros w c q H. rewrite Hsz. destruct (Hsub _ _ _ H) as [H'|(-> & -> & ->)]; eauto.
  - intros. rewrite Hsz. done.
Qed.

(** Positions beyond the end of their file get an owner and the file grows. *)
Lemma kv_ok_fresh kv kv' wn cs i size (P : ChunkPosition -> Prop) :
  kv_ok kv -> 0 < cs -> kv_fileSize_of kv cs i <= size ->
  (forall p, P p -> pos_fileIdx p = i /\ kv_fileSize_of kv cs i <= pos_offset p /\ pos_offset p mod cs = 0
                    /\ pos_offset p + cs <= size) ->
  (forall w c q, holds kv' w c q -> holds kv w c q \/ w = wn /\ c = cs /\ P q) ->
  (forall c j, kv_fileSize_of kv' c j = if bool_decide (c = cs /\ j = i) then size else kv_fileSize_of kv c j) ->
  kv_ok kv'.
Proof.
  intros [He Hb Hs] Hcs Hgrow HP Hsub Hsz.
  assert (forall w p, P p -> ~ holds kv w cs p) as Hfresh.
  { intros w p Hp Hw. destruct (Hb _ _ _ Hw) as (? & ? & ? & Hle). destruct (HP p Hp) as (Ei & ? & ? & ?). rewrite Ei in Hle. lia. }
  split.
  - intros w w' c q H1 H2. destruct (Hsub _ _ _ H1) as [H1'|(-> & -> & H1')], (Hsub _ _ _ H2) as [H2'|(-> & E1 & H2')]; subst;
      [by apply (He w w' c q)|by destruct (Hfresh w q)|by destruct (Hfresh w' q)|done].
  - intros w c q H. rewrite Hsz. destruct (Hsub _ _ _ H) as [H'|(-> & -> & H')].
    + destruct (Hb _ _ _ H') as (? & ? & ? & Hle). repeat split; try done. case_bool_decide as E; [|done].
      destruct E as [-> E]. rewrite E in Hle. lia.
    + destruct (HP q H') as (Ei & ? & ? & ?). specialize (Hs cs i). rewrite bool_decide_eq_true_2 by done. lia.
  - intros c j. rewrite Hsz. specialize (Hs cs i) as Hi. case_bool_decide as E; [lia|done].
Qed.

(** ** Positions in memory *)

(** Work of threads between two critical sections: positions taken for new
    chunks, positions allocated or recycled in the key-value store and not yet
    listed in memory. *)
Record Flight := mkFlight { fl_taken : list Taken; fl_alloc : option Allocated; fl_recycled : list ChunkPosition }.
Definition no_flight : Flight := mkFlight [] None [].
Definition flight (fl : gmap Z Flight) (cs : Z) : Flight := default no_flight (fl !! cs).

Definition taken_of (b : bool) (f : Flight) : list ChunkPosition := tk_pos <$> filter (fun t => tk_recycled t = b) (fl_taken f).
Definition alloc_chunks (f : Flight) : list ChunkPosition := match fl_alloc f with Some a => al_chunks a | None => [] end.

(** Each position is listed once, and is in the pool. *)
Definition pool_ok (l : list ChunkPosition) (pool : gset (Z * ChunkPosition)) (cs : Z) : Prop :=
  NoDup l /\ forall p, p ∈ l -> (cs, p) ∈ pool.

Definition created_list (st : AllocateState) (f : Flight) := as_createdChunks st ++ taken_of false f ++ alloc_chunks f.
Definition recycled_list (st : AllocateState) (f : Flight) := as_recycledChunks st ++ taken_of true f ++ fl_recycled f.

Record size_ok (kv : MetaKV) (cs : Z) (st : AllocateState) (f : Flight) : Prop := {
  so_pos : 0 < cs < 2 ^ 32;
  so_created : as_loaded st = true -> pool_ok (created_list st f) (kv_created kv) cs;
  so_recycled : as_loaded st = true -> pool_ok (recycled_list st f) (kv_recycled kv) cs;
  so_unloaded : as_loaded st = false -> f = no_flight;
  so_fileSize : forall i v, as_fileSize st !! i = Some v ->
    kv_fileSize_of kv cs i <= v \/ exists a, fl_alloc f = Some a /\ al_index a = i;
  so_alloc : forall a, fl_alloc f = Some a -> kv_fileSize_of kv cs (al_index a) <= al_newFileSize a
}.

Abbreviation ms_kv s := (d_kv (ms_disk s)).

Record Inv (s : ChunkMetaStore) (fl : gmap Z Flight) : Prop := {
  inv_kv : kv_ok (ms_kv s);
  inv_size : forall cs st, ms_allocateState s !! cs = Some st -> size_ok (ms_kv s) cs st (flight fl cs);
  inv_none : forall cs, ms_allocateState s !! cs = None -> flight fl cs = no_flight
}.

(** What a state of another chunk size depends on. *)
Lemma size_ok_other kv kv' cs st f :
  size_ok kv cs st f ->
  (forall p, (cs, p) ∈ kv_created kv -> (cs, p) ∈ kv_created kv') ->
  (forall p, (cs, p) ∈ kv_recycled kv -> (cs, p) ∈ kv_recycled kv') ->
  (forall i, kv_fileSize_of kv' cs i = kv_fileSize_of kv cs i) -> size_ok kv' cs st f.
Proof.
  intros [H1 H2 H3 H4 H5 H6] Hc Hr Hs. split; try done.
  - intros Hl. destruct (H2 Hl) as [? ?]. split; auto.
  - intros Hl. destruct (H3 Hl) as [? ?]. split; auto.
  - intros i v Hi. rewrite Hs. auto.
  - intros a Ha. rewrite Hs. auto.
Qed.

(** A change that concerns one chunk size. *)
Lemma Inv_update s s' fl fl' cs :
  Inv s fl -> kv_ok (ms_kv s') ->
  (forall c, c <> cs -> ms_allocateState s' !! c = ms_allocateState s !! c) ->
  (forall c, c <> cs -> flight fl' c = flight fl c) ->
  (forall c p, c <> cs -> (c, p) ∈ kv_created (ms_kv s) -> (c, p) ∈ kv_created (ms_kv s')) ->
  (forall c p, c <> cs -> (c, p) ∈ kv_recycled (ms_kv s) -> (c, p) ∈ kv_recycled (ms_kv s')) ->
  (forall c i, c <> cs -> kv_fileSize_of (ms_kv s') c i = kv_fileSize_of (ms_kv s) c i) ->
  match ms_allocateState s' !! cs with
  | Some st => size_ok (ms_kv s') cs st (flight fl' cs)
  | None => flight fl' cs = no_flight
  end -> Inv s' fl'.
Proof.
  intros [H1 H2 H3] Hkv Hst Hfl Hc Hr Hsz Hcs. split; [done|..].
  - intros c st Hlook. destruct (decide (c = cs)) as [->|Hne]; [by rewrite Hlook in Hcs|].
    rewrite Hst in Hlook by done. rewrite Hfl by done. eapply size_ok_other; eauto.
  - intros c Hlook. destruct (decide (c = cs)) as [->|Hne]; [by rewrite Hlook in Hcs|].
    rewrite Hst in Hlook by done. rewrite Hfl by done. auto.
Qed.

(** ** Changes that keep all metadata *)

Record quiet (s s' : ChunkMetaStore) : Prop := {
  q_grown : grown (ms_disk s) (ms_disk s');
  q_metadata : kv_metadata (ms_kv s') = kv_metadata (ms_kv s);
  q_uncommitted : kv_uncommitted (ms_kv s') = kv_uncommitted (ms_kv s);
  q_states : forall cs, is_Some (ms_allocateState s !! cs) -> is_Some (ms_allocateState s' !! cs)
}.

Lemma quiet_refl s : quiet s s.
Proof. split; try done; by apply grown_same. Qed.

Lemma quiet_trans s1 s2 s3 : quiet s1 s2 -> quiet s2 s3 -> quiet s1 s3.
Proof.
  intros [G1 M1 U1 S1] [G2 M2 U2 S2]. split; [by eapply grown_trans|congruence|congruence|auto].
Qed.

(** ** Steps of the operations *)

Definition upd (cs : Z) (f : AllocateState -> AllocateState) (s : ChunkMetaStore) : ChunkMetaStore :=
  set_ms_allocateState (<[cs := f (stateOf s cs)]> (ms_allocateState s)) s.

Lemma runs_modState cs f s (Q : outcome unit -> ChunkMetaStore -> Prop) : Q (Ok tt) (upd cs f s) -> runs (modState cs f) s Q.
Proof. done. Qed.

Lemma runs_getState cs s (Q : outcome AllocateState -> ChunkMetaStore -> Prop) :
  Q (Ok (stateOf s cs)) s -> runs (getState cs) s Q.
Proof. done. Qed.

Lemma stateOf_eq s cs st : ms_allocateState s !! cs = Some st -> stateOf s cs = st.
Proof. intros E. unfold stateOf. by rewrite E. Qed.

Lemma stateOf_upd s cs f : stateOf (upd cs f s) cs = f (stateOf s cs).
Proof. unfold stateOf at 1, upd. cbn [ms_allocateState set_ms_allocateState]. by rewrite lookup_insert_eq. Qed.

Lemma stateOf_disk s d cs : stateOf (set_ms_disk d s) cs = stateOf s cs.
Proof. done. Qed.

Lemma upd_lookup s cs f : ms_allocateState (upd cs f s) !! cs = Some (f (stateOf s cs)).
Proof. unfold upd. cbn [ms_allocateState set_ms_allocateState]. by rewrite lookup_insert_eq. Qed.

Lemma quiet_upd cs f s : quiet s (upd cs f s).
Proof.
  split; [by apply grown_same|done|done|]. intros c Hc. unfold upd. cbn [ms_allocateState set_ms_allocateState].
  destruct (decide (c = cs)) as [->|]; [by rewrite lookup_insert_eq|by rewrite lookup_insert_ne].
Qed.

Lemma quiet_disk s d' : d_same (ms_disk s) d' -> quiet s (set_ms_disk d' s).
Proof. intros Hd. split; simpl; [by apply grown_same|by destruct Hd as [-> _]..|done]. Qed.

Lemma Inv_same s s' fl :
  Inv s fl -> ms_kv s' = ms_kv s -> ms_allocateState s' = ms_allocateState s -> Inv s' fl.
Proof. intros [H1 H2 H3] E1 E2. split; rewrite ?E1, ?E2; done. Qed.

Lemma Inv_disk s d' fl : Inv s fl -> d_same (ms_disk s) d' -> Inv (set_ms_disk d' s) fl.
Proof. intros HI [E _]. by apply (Inv_same s). Qed.

(** A change of the state of one chunk size. *)
Lemma Inv_upd s fl fl' cs f st :
  Inv s fl -> ms_allocateState s !! cs = Some st ->
  (forall c, c <> cs -> flight fl' c = flight fl c) ->
  size_ok (ms_kv s) cs (f st) (flight fl' cs) -> Inv (upd cs f s) fl'.
Proof.
  intros HI Hst Hfl Hso. apply (Inv_update s _ fl fl' cs); [done|apply HI| |done|done|done|done|].
  - intros c Hc. unfold upd. cbn [ms_allocateState set_ms_allocateState]. by rewrite lookup_insert_ne.
  - rewrite upd_lookup, (stateOf_eq _ _ _ Hst). done.
Qed.

(** A change of the fields that the invariant does not read. *)
Lemma Inv_upd_other s fl cs f :
  Inv s fl -> is_Some (ms_allocateState s !! cs) ->
  (forall st, as_loaded (f st) = as_loaded st /\ as_createdChunks (f st) = as_createdChunks st
     /\ as_recycledChunks (f st) = as_recycledChunks st /\ as_fileSize (f st) = as_fileSize st) ->
  Inv (upd cs f s) fl.
Proof.
  intros HI [st Hst] Hf. apply (Inv_upd s fl fl cs f st); [done|done|done|].
  destruct (Hf st) as (El & Ec & Er & Ef). destruct (inv_size _ _ HI _ _ Hst) as [H1 H2 H3 H4 H5 H6].
  split; rewrite ?El, ?Ef; auto; unfold created_list, recycled_list; rewrite ?Ec, ?Er; auto.
Qed.

Lemma runs_find {A} (f : MetaKV -> option A) s (Q : outcome (option A) -> ChunkMetaStore -> Prop) :
  (forall d', d_same (ms_disk s) d' -> Q (Ok (f (ms_kv s))) (set_ms_disk d' s)) ->
  (forall c d', d_same (ms_disk s) d' -> Q (Err c) (set_ms_disk d' s)) ->
  runs (onDisk (kv_find f)) s Q.
Proof. intros H1 H2. apply runs_zoom, runs_kv_find; auto. Qed.

Lemma runs_commit batch s (Q : outcome unit -> ChunkMetaStore -> Prop) :
  (forall d', d_same (set_d_kv (apply_batch batch (ms_kv s)) (ms_disk s)) d' -> Q (Ok tt) (set_ms_disk d' s)) ->
  (forall d', d_same (ms_disk s) d' -> Q (Err kKVStoreSetError) (set_ms_disk d' s)) ->
  runs (onDisk (kv_commit batch)) s Q.
Proof. intros H1 H2. apply runs_zoom, runs_kv_commit; auto. Qed.

Lemma runs_collectKeys {A} (keys : MetaKV -> list A) limit s (Q : outcome (list A * option A) -> ChunkMetaStore -> Prop) :
  (forall d', d_same (ms_disk s) d' ->
     Q (Ok (take_z limit (keys (ms_kv s)), head (drop_z limit (keys (ms_kv s))))) (set_ms_disk d' s)) ->
  (forall c d', d_same (ms_disk s) d' -> Q (Err c) (set_ms_disk d' s)) ->
  runs (collectKeys keys limit) s Q.
Proof.
  intros H1 H2. unfold collectKeys. mstep. apply runs_zoom, runs_next_read. intros x d' Hd. msteps; [by apply H2|].
  specialize (H1 d' Hd). destruct Hd as [E _]. cbn [ms_disk set_ms_disk]. by rewrite E.
Qed.

Lemma runs_getSize f s (Q : outcome Z -> ChunkMetaStore -> Prop) :
  (forall v d', d_same (ms_disk s) d' -> Q (Ok v) (set_ms_disk d' s)) ->
  (forall c d', d_same (ms_disk s) d' -> Q (Err c) (set_ms_disk d' s)) ->
  runs (getSize f) s Q.
Proof. intros H1 H2. unfold getSize. mstep. apply runs_find; intros; mstep; [mstep|]; auto. Qed.

(** A batch that changes no position. *)
Definition same_space (kv kv' : MetaKV) : Prop :=
  kv_metadata kv' = kv_metadata kv /\ kv_uncommitted kv' = kv_uncommitted kv /\ kv_fileSize kv' = kv_fileSize kv
  /\ kv_created kv' = kv_created kv /\ kv_recycled kv' = kv_recycled kv /\ kv_removed kv' = kv_removed kv.

Lemma holds_same_space kv kv' w cs p : same_space kv kv' -> holds kv' w cs p <-> holds kv w cs p.
Proof. intros (E1 & E2 & E3 & E4 & E5 & E6). destruct w; simpl; by rewrite ?E1, ?E4, ?E5, ?E6. Qed.

Lemma fileSize_same_space kv kv' cs i : same_space kv kv' -> kv_fileSize_of kv' cs i = kv_fileSize_of kv cs i.
Proof. intros (E1 & E2 & E3 & E4 & E5 & E6). unfold kv_fileSize_of. by rewrite E3. Qed.

Lemma Inv_commit_same batch s d' fl :
  Inv s fl -> same_space (ms_kv s) (apply_batch batch (ms_kv s)) ->
  d_same (set_d_kv (apply_batch batch (ms_kv s)) (ms_disk s)) d' ->
  Inv (set_ms_disk d' s) fl /\ quiet s (set_ms_disk d' s).
Proof.
  intros [H1 H2 H3] Hsp (Ekv & Ef & En). simpl in Ekv, Ef, En.
  assert (kv_ok (d_kv d')) as Hok.
  { rewrite Ekv. apply (kv_ok_sub (ms_kv s)); [done|by intros w cs p ?%(holds_same_space _ _ _ _ _ Hsp)|].
    intros cs i. by rewrite (fileSize_same_space _ _ _ _ Hsp). }
  split; [split; cbn [ms_disk set_ms_disk ms_allocateState]|split; cbn [ms_disk set_ms_disk ms_allocateState]]; try done.
  - intros cs st Hst. apply (size_ok_other (ms_kv s)); [by apply H2|..]; rewrite Ekv; intros *.
    + destruct Hsp as (_ & _ & _ & -> & _). done.
    + destruct Hsp as (_ & _ & _ & _ & -> & _). done.
    + by apply fileSize_same_space.
  - by apply grown_files.
  - rewrite Ekv. apply Hsp.
  - rewrite Ekv. apply Hsp.
Qed.
