(* ===== verification/MetaSteps.v ===== *)
(** * Critical sections of the metadata store keep positions exclusive *)

From Stdlib Require Import ZArith Lia.
From stdpp Require Import base gmap list sorting.
From S2P Require Import Prelude StatusCode Bytes MgmtdTypes StorageTypes ChunkFiles ChunkMetaStore MetaKeys MetaSpace.

(** ** Batches *)

Lemma apply_batch_app b1 b2 kv : apply_batch (b1 ++ b2) kv = apply_batch b2 (apply_batch b1 kv).
Proof. unfold apply_batch. by rewrite foldl_app. Qed.

Lemma apply_batch_cons op b kv : apply_batch (op :: b) kv = apply_batch b (op kv).
Proof. done. Qed.

Lemma apply_del_removed {A} (g : A -> Z * Z * ChunkPosition) l kv :
  apply_batch ((fun k => del_removed (g k)) <$> l) kv = set_kv_removed (kv_removed kv ∖ list_to_set (g <$> l)) kv.
Proof.
  revert kv. induction l as [|x l IH]; intros kv.
  - destruct kv. unfold set_kv_removed. simpl. f_equal. set_solver.
  - rewrite !fmap_cons, apply_batch_cons, IH. destruct kv. unfold set_kv_removed, del_removed. simpl. f_equal. set_solver.
Qed.

Lemma apply_del_recycled {A} (g : A -> Z * ChunkPosition) l kv :
  apply_batch ((fun k => del_recycled (g k)) <$> l) kv = set_kv_recycled (kv_recycled kv ∖ list_to_set (g <$> l)) kv.
Proof.
  revert kv. induction l as [|x l IH]; intros kv.
  - destruct kv. unfold set_kv_recycled. simpl. f_equal. set_solver.
  - rewrite !fmap_cons, apply_batch_cons, IH. destruct kv. unfold set_kv_recycled, del_recycled. simpl. f_equal. set_solver.
Qed.

Lemma apply_put_created {A} (g : A -> Z * ChunkPosition) l kv :
  apply_batch ((fun k => put_created (g k)) <$> l) kv = set_kv_created (list_to_set (g <$> l) ∪ kv_created kv) kv.
Proof.
  revert kv. induction l as [|x l IH]; intros kv.
  - destruct kv. unfold set_kv_created. simpl. f_equal. set_solver.
  - rewrite !fmap_cons, apply_batch_cons, IH. destruct kv. unfold set_kv_created, put_created. simpl. f_equal. set_solver.
Qed.

Lemma apply_recycle cs (l : list (Z * ChunkPosition)) kv :
  apply_batch (l ≫= fun k => [del_removed (cs, k.1, k.2); put_recycled (cs, k.2)]) kv
  = set_kv_removed (kv_removed kv ∖ list_to_set ((fun k => (cs, k.1, k.2)) <$> l))
      (set_kv_recycled (list_to_set ((fun k => (cs, k.2)) <$> l) ∪ kv_recycled kv) kv).
Proof.
  revert kv. induction l as [|x l IH]; intros kv.
  - destruct kv. unfold set_kv_removed, set_kv_recycled. simpl. f_equal; set_solver.
  - rewrite !fmap_cons. change ((x :: l) ≫= ?f) with (f x ++ (l ≫= f)). rewrite apply_batch_app, IH. destruct kv.
    unfold set_kv_removed, set_kv_recycled, put_recycled, del_removed. simpl. f_equal; set_solver.
Qed.

(** ** Loading the state of a chunk size *)

Section steps.
Context (config : MetaConfig).

Record loading (cs : Z) (fl : gmap Z Flight) (s s' : ChunkMetaStore) : Prop := {
  ld_inv : Inv s' fl;
  ld_quiet : quiet s s';
  ld_state : exists st, ms_allocateState s' !! cs = Some st /\ as_loaded st = false
}.

Lemma loading_disk cs fl s s' d' : loading cs fl s s' -> d_same (ms_disk s') d' -> loading cs fl s (set_ms_disk d' s').
Proof.
  intros [H1 H2 H3] Hd. split; [by apply Inv_disk| |done]. eapply quiet_trans; [done|by apply quiet_disk].
Qed.

Lemma loading_upd cs fl s s' f :
  loading cs fl s s' -> (forall st, as_loaded (f st) = as_loaded st /\ as_fileSize (f st) = as_fileSize st) ->
  loading cs fl s (upd cs f s').
Proof.
  intros [H1 H2 (st & Hst & Hl)] Hf. destruct (Hf st) as [El Ef]. split.
  - apply (Inv_upd s' fl fl cs f st); [done..|]. destruct (inv_size _ _ H1 _ _ Hst) as [G1 G2 G3 G4 G5 G6].
    split; rewrite ?El, ?Ef, ?Hl; auto; discriminate.
  - eapply quiet_trans; [done|apply quiet_upd].
  - exists (f st). rewrite upd_lookup, (stateOf_eq _ _ _ Hst), El. done.
Qed.

Lemma loading_commit cs fl s s' batch d' :
  loading cs fl s s' -> same_space (ms_kv s') (apply_batch batch (ms_kv s')) ->
  d_same (set_d_kv (apply_batch batch (ms_kv s')) (ms_disk s')) d' -> loading cs fl s (set_ms_disk d' s').
Proof.
  intros [H1 H2 H3] Hsp Hd. destruct (Inv_commit_same batch s' d' fl H1 Hsp Hd) as [H4 H5].
  split; [done|by eapply quiet_trans|done].
Qed.

Lemma loading_upgrade cs fl s s' d' start :
  loading cs fl s s' ->
  d_same (set_d_kv (apply_batch (put_rawVersion cs 1 :: upgrade_batch (ms_kv s') cs start) (ms_kv s')) (ms_disk s')) d' ->
  loading cs fl s (set_ms_disk d' s').
Proof.
  intros [H1 H2 (st & Hst & Hl)] (Ekv & Ef & En). cbn [set_d_kv d_kv d_files] in Ekv, Ef.
  revert Ekv. unfold upgrade_batch. rewrite apply_batch_cons, !apply_batch_app, apply_del_removed, apply_del_recycled.
  set (R := list_to_set _) at 1. set (Y := list_to_set _) at 1.
  assert (forall c p, c <> cs -> (c, p) ∈ kv_recycled (ms_kv s') -> (c, p) ∉ Y) as HY.
  { intros c p Hc _ Hin. subst Y. apply elem_of_list_to_set, list_elem_of_fmap in Hin as (q & [= -> ->] & _). done. }
  clearbody R Y. cbn. intros Ekv.
  assert (kv_ok (d_kv d')) as Hok.
  { apply (kv_ok_sub (ms_kv s')); [apply H1| |].
    - intros w c p. rewrite Ekv. destruct w; simpl; set_solver.
    - intros c i. rewrite Ekv. done. }
  split; [|split; cbn; [|by rewrite Ekv; apply H2..|apply H2]|by exists st].
  - apply (Inv_update s' _ fl fl cs); cbn; rewrite ?Hst; try done; rewrite Ekv; try done.
    + intros c p Hc Hin. cbn. set_solver.
    + destruct (inv_size _ _ H1 _ _ Hst) as [G1 G2 G3 G4 G5 G6]. split; rewrite ?Hl; auto; discriminate.
  - eapply grown_trans; [apply H2|by apply grown_files].
Qed.

Lemma load_startingPoint_ok cs fl s s' :
  loading cs fl s s' -> runs (load_startingPoint config cs) s' (fun _ s2 => loading cs fl s s2).
Proof.
  intros H. unfold load_startingPoint. mstep. apply runs_find; intros * Hd; mstep; [|by apply loading_disk].
  pose proof (loading_disk _ _ _ _ _ H Hd) as H1. destruct (kv_number _ !! _).
  - apply runs_modState, loading_upd; [done|]. done.
  - mstep. apply runs_find; intros * Hd1; mstep; [|by apply loading_disk].
    pose proof (loading_disk _ _ _ _ _ H1 Hd1) as H2. mstep.
    match goal with |- runs (modState _ ?f) _ _ => pose proof (loading_upd _ _ _ _ f H2 ltac:(done)) as H3 end.
    apply runs_modState. mstep. apply runs_commit; intros * Hd2.
    + eapply loading_commit; [done| |done]. by repeat split.
    + by apply loading_disk.
Qed.

Lemma upgrade_version_ok cs fl s s' :
  loading cs fl s s' -> runs (upgrade_version cs) s' (fun _ s2 => loading cs fl s s2).
Proof.
  intros H. unfold upgrade_version. mstep. apply runs_getState. mstep. destruct (_ >? _).
  - mstep. apply runs_collectKeys; intros * Hd; mstep; [|by apply loading_disk].
    pose proof (loading_disk _ _ _ _ _ H Hd) as H1. mstep. apply runs_collectKeys; intros * Hd1; mstep; [|by apply loading_disk].
    pose proof (loading_disk _ _ _ _ _ H1 Hd1) as H2. mstep. mstep. mstep.
    apply runs_commit; intros * Hd2; [by eapply loading_upgrade|by apply loading_disk].
  - apply runs_commit; intros * Hd; [|by apply loading_disk]. eapply loading_commit; [done| |done]. by repeat split.
Qed.

(** The last part of loading: positions are listed and the state is usable. *)
Lemma loading_done cs fl s s' (created recycled : list ChunkPosition) f :
  loading cs fl s s' ->
  NoDup created -> (forall p, p ∈ created -> (cs, p) ∈ kv_created (ms_kv s')) ->
  NoDup recycled -> (forall p, p ∈ recycled -> (cs, p) ∈ kv_recycled (ms_kv s')) ->
  (forall st, as_createdChunks (f st) = created /\ as_recycledChunks (f st) = recycled /\ as_fileSize (f st) = as_fileSize st) ->
  Inv (upd cs f s') fl /\ quiet s (upd cs f s').
Proof.
  intros [H1 H2 (st & Hst & Hl)] Hc1 Hc2 Hr1 Hr2 Hf. destruct (Hf st) as (Ec & Er & Ef).
  destruct (inv_size _ _ H1 _ _ Hst) as [G1 G2 G3 G4 G5 G6]. split; [|eapply quiet_trans; [done|apply quiet_upd]].
  apply (Inv_upd s' fl fl cs f st); [done..|]. rewrite (G4 Hl) in *.
  split; unfold created_list, recycled_list; rewrite ?Ec, ?Er, ?Ef; simpl; rewrite ?app_nil_r; auto; done.
Qed.

Lemma take_z_NoDup {A} n (l : list A) : NoDup l -> NoDup (take_z n l).
Proof. rewrite <-(take_drop_z n l) at 1. by intros [? _]%NoDup_app. Qed.

Lemma take_z_elem {A} n (l : list A) x : x ∈ take_z n l -> x ∈ l.
Proof. rewrite <-(take_drop_z n l) at 2. rewrite elem_of_app. auto. Qed.

Definition loaded (cs : Z) (s : ChunkMetaStore) : Prop :=
  exists st, ms_allocateState s !! cs = Some st /\ as_loaded st = true.

Lemma loading_getSize cs fl s s' f g (k : M ChunkMetaStore unit) (Q : outcome unit -> ChunkMetaStore -> Prop) :
  loading cs fl s s' ->
  (forall v st, as_loaded (g v st) = as_loaded st /\ as_fileSize (g v st) = as_fileSize st) ->
  (forall c s2, loading cs fl s s2 -> Q (Err c) s2) ->
  (forall s2, loading cs fl s s2 -> ms_kv s2 = ms_kv s' -> runs k s2 Q) ->
  runs (v ← getSize f; modState cs (g v) ;; k) s' Q.
Proof.
  intros H Hg HE HQ. mstep. apply runs_getSize; intros * Hd; mstep; [|by apply HE, loading_disk].
  mstep. apply runs_modState. mstep. apply HQ; [apply loading_upd; [by apply loading_disk|done]|].
  by destruct Hd as [E _].
Qed.

Lemma loadAllocateState_ok cs fl s :
  Inv s fl ->
  runs (loadAllocateState config cs) s (fun o s' => Inv s' fl /\ quiet s s' /\ (o = Ok tt -> loaded cs s')).
Proof.
  intros HI. unfold loadAllocateState. mstep. mstep. mstep. destruct (ms_allocateState s !! cs) as [st|] eqn:Hst;
    [|mstep; by split_and!; [|apply quiet_refl|]].
  destruct (as_loaded st) eqn:Hl; [mstep; split_and!; [done|apply quiet_refl|]; by exists st|].
  assert (loading cs fl s s) as H0 by (split; [done|apply quiet_refl|eauto]).
  assert (forall s', loading cs fl s s' -> forall c, Inv s' fl /\ quiet s s' /\ (Err c = Ok tt -> loaded cs s')) as HE
    by (intros s' [? ? _] c; done).
  mstep. apply runs_find; intros * Hd; mstep; [|by apply HE, loading_disk].
  pose proof (loading_disk _ _ _ _ _ H0 Hd) as H1. clear Hd. mstep.
  apply runs_find; intros * Hd; mstep; [|by apply HE, loading_disk].
  pose proof (loading_disk _ _ _ _ _ H1 Hd) as H2. clear Hd. mstep. apply runs_modState. mstep. mstep.
  match goal with |- runs _ (upd _ ?f _) _ => pose proof (loading_upd _ _ _ _ f H2 ltac:(done)) as H3 end.
  revert H3. generalize (upd cs (fun st => set_as_allocateIndex (default (as_allocateIndex st)
     (kv_number (ms_kv (set_ms_disk d' s)) !! (KEY_ALLOCATEINDEX, cs))) st) (set_ms_disk d'0 (set_ms_disk d' s))).
  intros s3 H3. eapply runs_mono; [apply (load_startingPoint_ok _ _ _ _ H3)|]. intros [[]|c| |] s4 H4; simpl;
    [|by apply HE|by split_and!; [apply H4|apply H4|]..]. mstep. mstep.
  assert (runs (when (default 0 (kv_rawVersion (ms_kv s) !! cs) =? 0) (upgrade_version cs)) s4
    (fun _ s5 => loading cs fl s s5)) as Hup by (mstep; [by apply upgrade_version_ok|done]).
  eapply runs_mono; [apply Hup|]. intros [[]|c| |] s5 H5; simpl; [|by apply HE|by split_and!; [apply H5|apply H5|]..].
  clear Hup. mstep. mstep. apply runs_collectKeys; intros * Hd; mstep; [|by apply HE, loading_disk].
  pose proof (loading_disk _ _ _ _ _ H5 Hd) as H6. assert (Ekv : ms_kv (set_ms_disk d'1 s5) = ms_kv s5) by apply Hd. clear Hd.
  set (created := take_z _ _) at 1. mstep. apply runs_collectKeys; intros * Hd; mstep; [|by apply HE, loading_disk].
  pose proof (loading_disk _ _ _ _ _ H6 Hd) as H7.
  assert (Ekv2 : ms_kv (set_ms_disk d'2 (set_ms_disk d'1 s5)) = ms_kv s5) by (rewrite <-Ekv; apply Hd). clear Hd.
  set (recycled := take_z _ _) at 1.
  do 6 (eapply loading_getSize; [eassumption|done|intros; by apply HE|]; intros ? ? ?).
  mstep. apply runs_collectKeys; intros * Hd; mstep; [|by apply HE, loading_disk]. apply runs_modState.
  match goal with H : loading cs fl s ?s' |- context [set_ms_disk _ ?s'] => pose proof (loading_disk _ _ _ _ _ H Hd) as Hlast end.
  match goal with |- context [upd cs ?f ?s'] =>
    assert (ms_kv s' = ms_kv s5) as Ekvl by (destruct Hd as [Hd _]; cbn [ms_disk set_ms_disk]; rewrite Hd; congruence);
    destruct (loading_done cs fl s s' (rev created) recycled f Hlast) as [? ?]; [| | | |done|] end; rewrite ?Ekvl.
  - rewrite <-Permutation_rev. apply take_z_NoDup, NoDup_created_keys.
  - intros p. rewrite <-Permutation_rev. intros Hp%take_z_elem. by apply elem_of_created_keys.
  - apply take_z_NoDup, NoDup_recycled_keys.
  - intros p Hp%take_z_elem. apply elem_of_recycled_keys. by rewrite <-Ekv.
  - split_and!; [done|done|]. intros _. eexists. rewrite upd_lookup. done.
Qed.

(** ** Flights *)

Definition set_taken l (f : Flight) : Flight := mkFlight l (fl_alloc f) (fl_recycled f).
Definition set_alloc a (f : Flight) : Flight := mkFlight (fl_taken f) a (fl_recycled f).
Definition set_recycled l (f : Flight) : Flight := mkFlight (fl_taken f) (fl_alloc f) l.
Definition fl_upd (cs : Z) (g : Flight -> Flight) (fl : gmap Z Flight) : gmap Z Flight := <[cs := g (flight fl cs)]> fl.

Lemma flight_upd cs g fl : flight (fl_upd cs g fl) cs = g (flight fl cs).
Proof. unfold flight at 1, fl_upd. by rewrite lookup_insert_eq. Qed.

Lemma flight_upd_ne cs g fl c : c <> cs -> flight (fl_upd cs g fl) c = flight fl c.
Proof. intros Hc. unfold flight at 1, fl_upd. by rewrite lookup_insert_ne. Qed.

Lemma pool_ok_perm l l' pool cs : l ≡ₚ l' -> pool_ok l pool cs -> pool_ok l' pool cs.
Proof. intros HP [H1 H2]. split; [by rewrite <-HP|]. intros p Hp. apply H2. by rewrite HP. Qed.

#[export] Instance pool_ok_proper : Proper (Permutation ==> eq ==> eq ==> iff) pool_ok.
Proof. intros l l' HP pool ? <- cs ? <-. split; by apply pool_ok_perm. Qed.

Lemma pool_ok_app l l' pool pool' cs :
  pool_ok l pool cs -> NoDup l' -> (forall p, p ∈ l' -> (cs, p) ∉ pool /\ (cs, p) ∈ pool') ->
  (forall p, (cs, p) ∈ pool -> (cs, p) ∈ pool') -> pool_ok (l ++ l') pool' cs.
Proof.
  intros [H1 H2] Hl Hnew Hsub. split.
  - apply NoDup_app. split_and!; [done| |done]. intros p Hp Hp'. by apply (Hnew p Hp'), H2.
  - intros p [Hp|Hp]%elem_of_app; [by apply Hsub, H2|by apply Hnew].
Qed.

Lemma pool_ok_cons_del x l pool cs : pool_ok (x :: l) pool cs -> pool_ok l (pool ∖ {[(cs, x)]}) cs.
Proof.
  intros [[Hx Hl]%NoDup_cons H2]. split; [done|]. intros p Hp. apply elem_of_difference. split; [apply H2; by right|].
  rewrite elem_of_singleton. intros [= ->]. done.
Qed.

Lemma pop_back_spec {A} (l : list A) x r : pop_back l = Some (x, r) -> l = r ++ [x].
Proof.
  unfold pop_back. destruct (rev l) as [|y r'] eqn:E; [done|]. intros [= -> <-].
  by rewrite <-(rev_involutive l), E.
Qed.

Lemma pop_back_None {A} (l : list A) : pop_back l = None -> l = [].
Proof. unfold pop_back. destruct (rev l) eqn:E; [|done]. intros _. by rewrite <-(rev_involutive l), E. Qed.

(** ** Recycling *)

Lemma kv_ok_recycle cs (l : list (Z * ChunkPosition)) kv :
  kv_ok kv -> NoDup l -> (forall k, k ∈ l -> (cs, k.1, k.2) ∈ kv_removed kv) ->
  kv_ok (apply_batch (l ≫= fun k => [del_removed (cs, k.1, k.2); put_recycled (cs, k.2)]) kv).
Proof.
  revert kv. induction l as [|[us p] l IH]; intros kv Hok Hnd Hin; [done|]. apply NoDup_cons in Hnd as [Hx Hl].
  change (((us, p) :: l) ≫= ?f) with (f (us, p) ++ (l ≫= f)). rewrite apply_batch_app. cbn [apply_batch foldl fst snd].
  apply IH; [|done|].
  - apply (kv_ok_move kv _ (ORemoved us) ORecycled cs p); [done|by apply (Hin (us, p)); left|..]; simpl.
    + set_solver.
    + intros [] c q; simpl; set_solver.
    + done.
  - intros [us' p'] Hk. simpl. apply elem_of_difference. split; [by apply (Hin (us', p')); right|].
    rewrite elem_of_singleton. intros [= -> ->]. done.
Qed.

Lemma kv_ok_same_space kv kv' : kv_ok kv -> same_space kv kv' -> kv_ok kv'.
Proof.
  intros Hok Hsp. apply (kv_ok_sub kv); [done|by intros w cs p ?%(holds_same_space _ _ _ _ _ Hsp)|].
  intros cs i. by rewrite (fileSize_same_space _ _ _ _ Hsp).
Qed.

Lemma recycled_chunks_fresh kv cs (l : list (Z * ChunkPosition)) :
  kv_ok kv -> NoDup l -> (forall k, k ∈ l -> (cs, k.1, k.2) ∈ kv_removed kv) ->
  NoDup l.*2 /\ (forall p, p ∈ l.*2 -> (cs, p) ∉ kv_recycled kv).
Proof.
  intros [He _ _] Hnd Hin. split.
  - induction Hnd as [|[us p] l Hx Hl IH]; [constructor|]. cbn [fmap list_fmap snd]. constructor.
    + intros ([us' p'] & -> & Hk)%list_elem_of_fmap. cbn [snd] in *.
      assert (ORemoved us = ORemoved us') as E.
      { apply (He _ _ cs p'); [apply (Hin (us, p')); left|apply (Hin (us', p')); by right]. }
      injection E as ->. done.
    + apply IH. intros k Hk. apply Hin. by right.
  - intros p ([us p'] & -> & Hk)%list_elem_of_fmap Hr. specialize (Hin _ Hk). cbn [fst snd] in *.
    assert (ORemoved us = ORecycled) by (by apply (He _ _ cs p')). done.
Qed.

Lemma recycle_commit_ok cs fl s :
  Inv s fl -> loaded cs s -> fl_recycled (flight fl cs) = [] ->
  runs (recycle_commit config cs) s (fun o s' =>
    quiet s s' /\ loaded cs s' /\
    Inv s' (match o with Ok (Some chunks) => fl_upd cs (set_recycled chunks) fl | _ => fl end)).
Proof.
  intros HI (st & Hst & Hl) Hfl. unfold recycle_commit. mstep. apply runs_collectKeys; intros * Hd; mstep;
    [|by split_and!; [apply quiet_disk|exists st|apply Inv_disk]].
  assert (Ekv : d_kv d' = ms_kv s) by apply Hd.
  set (keys := take_z _ _). cbn [fst snd].
  assert (NoDup keys) as Hnd by apply take_z_NoDup, NoDup_removed_keys.
  assert (forall k, k ∈ keys -> (cs, k.1, k.2) ∈ kv_removed (ms_kv s)) as Hin.
  { intros [us p] Hk%take_z_elem. by apply elem_of_removed_keys. }
  clearbody keys. destruct (keys.*2) as [|p0 l0] eqn:Echunks.
  { mstep. split_and!; [by apply quiet_disk|by exists st|by apply Inv_disk]. }
  rewrite <-Echunks. clear p0 l0 Echunks. mstep. apply runs_getState. mstep. mstep. apply runs_modState. mstep. mstep. mstep.
  set (s1 := upd cs _ (set_ms_disk d' s)).
  assert (quiet s s1) as Hq1 by (eapply quiet_trans; [by apply quiet_disk|apply quiet_upd]).
  assert (exists st1, ms_allocateState s1 !! cs = Some st1 /\ as_loaded st1 = true) as Hst1.
  { eexists. unfold s1. rewrite upd_lookup, (stateOf_eq _ _ st) by done. done. }
  assert (Inv s1 fl) as HI1 by (apply Inv_upd_other; [by apply Inv_disk|by exists st|done]).
  assert (ms_kv s1 = ms_kv s) as Ekv1 by done. clearbody s1.
  apply runs_commit; intros * Hd1; mstep.
  - destruct Hst1 as (st1 & Hst1 & Hl1). mstep. apply runs_modState. mstep. mstep.
    assert (d_kv d'0 = apply_batch ((keys ≫= fun k => [del_removed (cs, k.1, k.2); put_recycled (cs, k.2)])
       ++ [put_number KEY_RECYCLEDCOUNT cs (u64 (as_recycledCount (stateOf (set_ms_disk d' s) cs) + Z.of_nat (length keys.*2)))])
       (ms_kv s)) as Ekv2 by (destruct Hd1 as [-> _]; by rewrite Ekv1).
    pose proof (kv_ok_recycle cs keys (ms_kv s) ltac:(apply HI) Hnd Hin) as Hok.
    pose proof (recycled_chunks_fresh (ms_kv s) cs keys ltac:(apply HI) Hnd Hin) as [Hnd2 Hfresh].
    rewrite apply_batch_app in Ekv2. rewrite apply_recycle in Ekv2, Hok. cbn [apply_batch foldl] in Ekv2.
    assert (kv_ok (d_kv d'0)) as Hok2 by (rewrite Ekv2; eapply kv_ok_same_space; [exact Hok|by repeat split]).
    split_and!.
    + eapply quiet_trans; [done|]. eapply quiet_trans; [|apply quiet_upd]. split; cbn; [|by rewrite Ekv2, Ekv1..|done].
      destruct Hd1 as (_ & ? & ?). by apply grown_files.
    + eexists. rewrite upd_lookup, (stateOf_eq _ _ st1) by done. done.
    + destruct (inv_size _ _ HI1 _ _ Hst1) as [G1 G2 G3 G4 G5 G6]. rewrite Ekv1 in *.
      apply (Inv_update s1 _ fl _ cs); cbn [ms_disk upd set_ms_allocateState set_ms_disk]; [done|done|..].
      * intros c Hc. unfold upd. cbn [ms_allocateState set_ms_allocateState set_ms_disk]. by rewrite lookup_insert_ne.
      * intros c Hc. by apply flight_upd_ne.
      * intros c p _. by rewrite Ekv2, Ekv1.
      * intros c p _. rewrite Ekv2, Ekv1. cbn. set_solver.
      * intros c i _. by rewrite Ekv2, Ekv1.
      * rewrite upd_lookup, (stateOf_eq _ _ st1), flight_upd by done. rewrite Ekv2. split; cbn; auto; intros Hlx; [|congruence].
        unfold recycled_list in *. cbn. rewrite Hfl, app_nil_r in G3. rewrite app_assoc.
        eapply pool_ok_app; [by apply G3|done| |set_solver].
        intros p Hp. split; [by apply Hfresh|]. apply elem_of_union_l, elem_of_list_to_set.
        apply list_elem_of_fmap in Hp as (k & -> & Hk). apply list_elem_of_fmap. by exists k.
  - mstep. apply runs_modState. mstep. mstep. split_and!.
    + eapply quiet_trans; [done|]. eapply quiet_trans; [by apply quiet_disk|apply quiet_upd].
    + destruct Hst1 as (st1 & Hst1 & Hl1). eexists. rewrite upd_lookup, (stateOf_eq _ _ st1) by done. done.
    + apply Inv_upd_other; [by apply Inv_disk|destruct Hst1 as (st1 & Hst1 & _); by exists st1|done].
Qed.

Lemma recycle_publish_ok cs fl s :
  Inv s fl -> loaded cs s ->
  runs (recycle_publish cs (fl_recycled (flight fl cs))) s (fun o s' =>
    o = Ok tt /\ quiet s s' /\ loaded cs s' /\ Inv s' (fl_upd cs (set_recycled []) fl)).
Proof.
  intros HI (st & Hst & Hl). apply runs_modState. split_and!; [done|apply quiet_upd|..].
  - eexists. rewrite upd_lookup, (stateOf_eq _ _ st) by done. done.
  - destruct (inv_size _ _ HI _ _ Hst) as [G1 G2 G3 G4 G5 G6]. eapply Inv_upd; [done|done|by intros; apply flight_upd_ne|].
    rewrite flight_upd. split; cbn; auto; [|congruence].
    intros Hlx. specialize (G3 Hlx). eapply pool_ok_perm; [|exact G3]. unfold recycled_list. cbn.
    rewrite app_nil_r, <-app_assoc. apply Permutation_app_head, Permutation_app_comm.
Qed.
End steps.

(** * Allocation of positions *)

(** The offsets from [fileSize] on, one for each chunk. *)
Definition offsets_from (fileSize cs n : Z) : list Z := (fun k => fileSize + cs * k) <$> seqZ 0 n.

Lemma offsets_from_cons fileSize cs n : 0 < n -> offsets_from fileSize cs n = fileSize :: offsets_from (fileSize + cs) cs (n - 1).
Proof.
  intros Hn. unfold offsets_from. rewrite seqZ_cons by lia. rewrite fmap_cons. f_equal; [lia|].
  replace (Z.pred n) with (n - 1) by lia. apply list_eq. intros i. rewrite !list_lookup_fmap.
  destruct (decide (Z.of_nat i < n - 1)) as [Hi|Hi].
  - rewrite !lookup_seqZ_lt by lia. simpl. f_equal. lia.
  - by rewrite !lookup_seqZ_ge by lia.
Qed.

Lemma created_offsets_S fuel offset newFileSize cs :
  created_offsets (S fuel) offset newFileSize cs
  = if offset =? newFileSize then Some [] else cons offset <$> created_offsets fuel (u64 (offset + cs)) newFileSize cs.
Proof. done. Qed.

(** The loop of [allocateChunks] ends exactly when the chunk size divides the
    space, and then yields every offset. *)
Lemma created_offsets_spec fuel offset newFileSize cs :
  0 <= offset <= newFileSize -> newFileSize < 2 ^ 63 -> 0 < cs < 2 ^ 63 ->
  fuel = S (Z.to_nat ((newFileSize - offset) / cs)) ->
  created_offsets fuel offset newFileSize cs
  = if (newFileSize - offset) mod cs =? 0 then Some (offsets_from offset cs ((newFileSize - offset) / cs)) else None.
Proof.
  intros Ho Hn Hcs. remember (Z.to_nat ((newFileSize - offset) / cs)) as n eqn:En. intros ->.
  revert offset Ho En. induction n as [|n IH]; intros offset Ho En; rewrite created_offsets_S.
  - assert ((newFileSize - offset) / cs = 0) as Hd.
    { pose proof (Z.div_pos (newFileSize - offset) cs ltac:(lia) ltac:(lia)). lia. }
    assert (newFileSize - offset < cs) as Hlt.
    { pose proof (Z.div_mod (newFileSize - offset) cs ltac:(lia)). pose proof (Z.mod_pos_bound (newFileSize - offset) cs ltac:(lia)). lia. }
    rewrite Z.mod_small by lia. rewrite Hd. destruct (Z.eqb_spec offset newFileSize) as [->|Hne].
    + by rewrite Z.sub_diag.
    + rewrite (proj2 (Z.eqb_neq (newFileSize - offset) 0)) by lia.
      rewrite u64_small by lia. cbn [created_offsets]. by rewrite (proj2 (Z.eqb_neq (offset + cs) newFileSize)) by lia.
  - assert (1 <= (newFileSize - offset) / cs) as Hd by lia.
    assert (cs <= newFileSize - offset) as Hge.
    { pose proof (Z.mul_div_le (newFileSize - offset) cs ltac:(lia)). nia. }
    rewrite (proj2 (Z.eqb_neq offset newFileSize)) by lia. rewrite u64_small by lia.
    assert ((newFileSize - (offset + cs)) = (newFileSize - offset) + (-1) * cs) as E by lia.
    assert ((newFileSize - (offset + cs)) / cs = (newFileSize - offset) / cs - 1) as Ed.
    { rewrite E, Z.div_add by lia. lia. }
    rewrite IH by lia. rewrite Ed. rewrite E, Z.mod_add by lia. destruct (_ =? 0); [|done]. simpl. f_equal.
    symmetry. apply offsets_from_cons. lia.
Qed.

Lemma elem_of_offsets_from fileSize cs n o :
  o ∈ offsets_from fileSize cs n <-> exists k, 0 <= k < n /\ o = fileSize + cs * k.
Proof.
  unfold offsets_from. rewrite list_elem_of_fmap. setoid_rewrite elem_of_seqZ. split; intros (k & H1 & H2); exists k; split; (done || lia).
Qed.

Lemma NoDup_offsets_from fileSize cs n : 0 < cs -> NoDup (offsets_from fileSize cs n).
Proof. intros Hcs. apply NoDup_fmap_2; [|apply NoDup_seqZ]. intros a b E. nia. Qed.

Section alloc.
Context (config : MetaConfig) (Hsize : 0 < mc_allocate_size config < 2 ^ 63).

Lemma load_fileSize_ok cs i fl s :
  Inv s fl -> loaded cs s -> fl_alloc (flight fl cs) = None -> readable (ms_disk s) ->
  runs (load_fileSize cs i) s (fun o s' => o = Ok tt /\ quiet s s' /\ Inv s' fl /\ ms_kv s' = ms_kv s /\
    exists st st' v, ms_allocateState s !! cs = Some st /\ ms_allocateState s' !! cs = Some st' /\ as_loaded st' = true
      /\ as_createdChunks st' = as_createdChunks st /\ as_recycledChunks st' = as_recycledChunks st
      /\ as_fileSize st' !! i = Some v /\ kv_fileSize_of (ms_kv s') cs i <= v).
Proof.
  intros HI (st & Hst & Hl) Hfl Hr. unfold load_fileSize. mstep. apply runs_getState. rewrite (stateOf_eq _ _ _ Hst). mstep.
  destruct (inv_size _ _ HI _ _ Hst) as [G1 G2 G3 G4 G5 G6].
  destruct (as_fileSize st !! i) as [v|] eqn:Ev.
  { mstep. split_and!; [done|apply quiet_refl|done|done|]. exists st, st, v. split_and!; try done.
    destruct (G5 _ _ Ev) as [?|(a & Ha & _)]; [done|congruence]. }
  mstep. apply runs_modState. mstep. mstep. apply runs_zoom, runs_kv_find_readable; [done|]. intros d' Hd. mstep.
  assert (forall v st', kv_fileSize_of (ms_kv s) cs i <= v -> as_loaded st' = as_loaded st ->
     as_createdChunks st' = as_createdChunks st -> as_recycledChunks st' = as_recycledChunks st ->
     as_fileSize st' = <[i := v]> (as_fileSize st) -> size_ok (ms_kv s) cs st' (flight fl cs)) as Hso.
  { intros v st' Hv E1 E2 E3 Ef. split; rewrite ?E1; auto.
    - intros Hx. unfold created_list. rewrite E2. by apply G2.
    - intros Hx. unfold recycled_list. rewrite E3. by apply G3.
    - intros j w. rewrite Ef. destruct (decide (j = i)) as [->|]; [rewrite lookup_insert_eq; intros [= <-]; by left|].
      rewrite lookup_insert_ne by done. apply G5. }
  cbn [ms_disk upd set_ms_allocateState]. assert (Ekv : d_kv d' = ms_kv s) by apply Hd.
  unfold kv_fileSize_of in *. destruct (kv_fileSize (ms_kv s) !! mkChunkFileId cs i) as [v|] eqn:Ekvs; simpl in Hso.
  - set (w := if v <? as_startingPoint st then as_startingPoint st else v).
    assert (v <= w) as Hvw by (unfold w; destruct (Z.ltb_spec v (as_startingPoint st)); lia).
    apply runs_modState. cbn beta. set (s1 := upd _ _ _).
    assert (Inv s1 fl) as HI1.
    { apply (Inv_update s _ fl fl cs); try done.
      - unfold s1. cbn. rewrite Ekv. apply HI.
      - intros c Hc. unfold s1. cbn [upd set_ms_allocateState ms_allocateState set_ms_disk]. by rewrite !lookup_insert_ne.
      - unfold s1. cbn. by rewrite Ekv.
      - unfold s1. cbn. by rewrite Ekv.
      - unfold s1, kv_fileSize_of. cbn. by rewrite Ekv.
      - unfold s1 at 1. rewrite upd_lookup, stateOf_disk, stateOf_upd, (stateOf_eq _ _ _ Hst).
        replace (ms_kv s1) with (ms_kv s) by done. apply (Hso w); try done. cbn. by rewrite insert_insert_eq. }
    split_and!; [done| |done|done|].
    + unfold s1. eapply quiet_trans; [apply quiet_upd|]. eapply quiet_trans; [|apply quiet_upd]. by apply quiet_disk.
    + eexists st, _, w. unfold s1. rewrite upd_lookup, stateOf_disk, stateOf_upd, (stateOf_eq _ _ _ Hst). split_and!; try done; cbn; [by rewrite lookup_insert_eq|]. rewrite Ekv, Ekvs. done.
  - mstep. set (s1 := set_ms_disk _ _).
    split_and!; [done| | |done|].
    + eapply quiet_trans; [apply quiet_upd|by apply quiet_disk].
    + apply (Inv_same (upd cs (fun st => set_as_fileSize (<[i := 0]> (as_fileSize st)) st) s)); [|done|done].
      eapply Inv_upd; [done|done|done|]. by apply (Hso 0).
    + eexists st, _, 0. unfold s1. cbn [set_ms_disk ms_allocateState]. rewrite upd_lookup, (stateOf_eq _ _ _ Hst).
      split_and!; try done; cbn; [by rewrite lookup_insert_eq|]. by rewrite Ekv, Ekvs.
Qed.

(** The positions an allocation creates. *)
Definition new_positions (i fileSize cs newFileSize : Z) : list ChunkPosition :=
  mkChunkPosition i <$> offsets_from fileSize cs ((newFileSize - fileSize) / cs).

Lemma new_positions_spec i fileSize cs newFileSize p :
  0 < cs -> fileSize mod cs = 0 -> (newFileSize - fileSize) mod cs = 0 ->
  p ∈ new_positions i fileSize cs newFileSize ->
  pos_fileIdx p = i /\ fileSize <= pos_offset p /\ pos_offset p mod cs = 0 /\ pos_offset p + cs <= newFileSize.
Proof.
  intros Hcs Hal Hdiv (o & -> & (k & Hk & ->)%elem_of_offsets_from)%list_elem_of_fmap. cbn [pos_fileIdx pos_offset].
  pose proof (Z.div_mod (newFileSize - fileSize) cs ltac:(lia)) as E. rewrite Hdiv in E.
  split_and!; [done|nia| |nia]. rewrite (Z.mul_comm cs k), Z.mod_add by lia. done.
Qed.

Lemma NoDup_new_positions i fileSize cs newFileSize : 0 < cs -> NoDup (new_positions i fileSize cs newFileSize).
Proof. intros Hcs. apply NoDup_fmap_2; [by intros a b [= ->]|by apply NoDup_offsets_from]. Qed.

(** A successful [fallocate] bounds the new size. *)
Lemma newFileSize_bound fileSize size :
  0 <= fileSize -> 0 < size < 2 ^ 63 ->
  let newFileSize := u64 ((fileSize / size + 1) * size) in
  fileSize + u64 (newFileSize - fileSize) < 2 ^ 63 ->
  fileSize < newFileSize < 2 ^ 63 /\ newFileSize = (fileSize / size + 1) * size.
Proof.
  intros Hf Hs n Hlt. assert (0 <= n < 2 ^ 64) as Hn by (apply wrap_range; lia).
  assert (0 <= u64 (n - fileSize)) by (apply wrap_range; lia).
  assert (fileSize < 2 ^ 63) by lia.
  assert (n - fileSize >= 0) as Hge.
  { destruct (decide (n - fileSize < 0)) as [Hneg|]; [|lia]. exfalso.
    unfold u64 at 1, wrap in Hlt. rewrite <-(Z.mod_add _ 1) in Hlt by lia. rewrite Z.mod_small in Hlt by lia. lia. }
  rewrite u64_small in Hlt by lia.
  pose proof (Z.div_mod fileSize size ltac:(lia)) as E. pose proof (Z.mod_pos_bound fileSize size ltac:(lia)).
  assert ((fileSize / size + 1) * size = fileSize + (size - fileSize mod size)) as E2 by nia.
  assert (n = (fileSize / size + 1) * size) as En by (unfold n; apply u64_small; lia). lia.
Qed.

Lemma allocate_commit_ok cs fl s :
  Inv s fl -> loaded cs s -> fl_alloc (flight fl cs) = None -> readable (ms_disk s) ->
  runs (allocate_commit config cs) s (fun o s' =>
    quiet s s' /\ loaded cs s' /\
    Inv s' (match o with Ok a => fl_upd cs (set_alloc (Some a)) fl | _ => fl end)
    /\ (forall a, o = Ok a -> al_chunks a <> [] /\ as_createdChunks (stateOf s' cs) = as_createdChunks (stateOf s cs))).
Proof.
  intros HI Hld Hfl Hr. unfold allocate_commit. mstep. mstep. mstep. mstep.
  set (i := as_allocateIndex (stateOf s cs)). set (next := _ mod _).
  eapply runs_mono; [by apply (load_fileSize_ok cs i fl s)|].
  intros o s1 (-> & Hq1 & HI1 & Ekv1 & st & st1 & v & Hst & Hst1 & Hl1 & Ec1 & Er1 & Ev & Hv). mstep. mstep.
  apply runs_getState. mstep. rewrite (stateOf_eq _ _ _ Hst1), Ev. cbn [default from_option id]. mstep. mstep.
  - mstep. split_and!; [done|by exists st1|done|done].
  - match goal with H : negb _ = false |- _ => apply negb_false_iff, Z.eqb_eq in H as Hal end. mstep. mstep.
    set (n := u64 ((v / mc_allocate_size config + 1) * mc_allocate_size config)). apply runs_zoom, runs_store_allocate.
    + intros d1 Ed1 Hg1 Hlt. mstep. set (s2 := set_ms_disk d1 s1).
      assert (quiet s1 s2) as Hq2 by (split; cbn; [done|by rewrite Ed1..|done]).
      assert (Inv s2 fl) as HI2 by (by apply (Inv_same s1)).
      destruct (inv_size _ _ HI1 _ _ Hst1) as [G1 G2 G3 G4 G5 G6].
      pose proof (ok_sizes _ (inv_kv _ _ HI1) cs i) as Hkvs.
      destruct (newFileSize_bound v (mc_allocate_size config)) as [Hn _]; [lia|done|exact Hlt|]. fold n in Hn.
      rewrite created_offsets_spec by (done || lia). destruct (Z.eqb_spec ((n - v) mod cs) 0) as [Hdiv|Hdiv].
      * fold (new_positions i v cs n). set (l := new_positions i v cs n). mstep. apply runs_commit; intros * Hd2; mstep.
        -- mstep. set (a := mkAllocated _ _ _ _ _).
           assert (exists num, d_kv d' = set_kv_number num (set_kv_created (list_to_set ((fun p => (cs, p)) <$> l) ∪ kv_created (ms_kv s1))
               (set_kv_fileSize (<[mkChunkFileId cs i := n]> (kv_fileSize (ms_kv s1))) (ms_kv s1)))) as (num & Ekv2).
           { destruct Hd2 as [E _]. rewrite E. cbn [d_kv set_d_kv]. rewrite !apply_batch_app, apply_put_created.
             unfold s2. cbn [ms_disk set_ms_disk]. rewrite Ed1. eexists. cbn. reflexivity. }
           assert (forall c j, kv_fileSize_of (d_kv d') c j = if bool_decide (c = cs /\ j = i) then n else kv_fileSize_of (ms_kv s1) c j) as Hsz.
           { intros c j. rewrite Ekv2. unfold kv_fileSize_of. cbn [kv_fileSize set_kv_number set_kv_created set_kv_fileSize].
             case_bool_decide as E; [destruct E as [-> ->]; by rewrite lookup_insert_eq|].
             rewrite lookup_insert_ne; [done|]. intros [= E1 E2]. by apply E. }
           assert (kv_ok (d_kv d')) as Hok.
           { apply (kv_ok_fresh (ms_kv s1) _ OCreated cs i n (fun p => p ∈ l)); [apply HI1|lia|lia| | |done].
             - intros p Hp. destruct (new_positions_spec i v cs n p) as (? & ? & ? & ?); [lia|done..|]. split_and!; (done || lia).
             - intros w c q. rewrite Ekv2. destruct w; cbn; auto.
               intros [Hq|Hq]%elem_of_union; [|by left]. right. apply elem_of_list_to_set, list_elem_of_fmap in Hq as (p & [= -> ->] & Hp). done. }
           assert (quiet s2 (set_ms_disk d' s2)) as Hq3.
           { split; cbn; [|rewrite Ekv2, Ed1; done..|done]. destruct Hd2 as (_ & ? & ?). by apply grown_files. }
           assert (n - v > 0) as Hpos by lia.
           split_and!.
           ++ eapply quiet_trans; [exact Hq1|]. by eapply quiet_trans.
           ++ by exists st1.
           ++ apply (Inv_update s1 _ fl _ cs); cbn [ms_disk set_ms_disk ms_allocateState]; try done.
              ** intros c Hc. by apply flight_upd_ne.
              ** intros c p _. rewrite Ekv2. cbn. set_solver.
              ** intros c p _. by rewrite Ekv2.
              ** intros c j Hc. rewrite Hsz, bool_decide_eq_false_2; naive_solver.
              ** unfold s2. cbn [ms_allocateState set_ms_disk]. rewrite Hst1, flight_upd. split; cbn; auto.
                 --- intros _. specialize (G2 Hl1). unfold created_list, alloc_chunks in *. rewrite Hfl, app_nil_r in G2. cbn.
                     rewrite app_assoc, <-Permutation_rev. rewrite Ekv2. cbn. eapply pool_ok_app; [exact G2|apply NoDup_new_positions; lia|..].
                     +++ intros p Hp. destruct (new_positions_spec i v cs n p) as (Ei & ? & ? & ?); [lia|done..|]. split.
                         *** intros Hin. destruct (ok_bounded _ (inv_kv _ _ HI1) OCreated cs p Hin) as (_ & _ & _ & Hle). rewrite Ei in Hle. lia.
                         *** apply elem_of_union_l, elem_of_list_to_set, list_elem_of_fmap. by exists p.
                     +++ intros p Hp. by apply elem_of_union_r.
                 --- intros _. rewrite Ekv2. cbn. apply (G3 Hl1).
                 --- congruence.
                 --- intros j w Hj. rewrite Hsz. destruct (decide (j = i)) as [->|Hji]; [right; by exists a|].
                     left. rewrite bool_decide_eq_false_2 by naive_solver. destruct (G5 _ _ Hj) as [?|(a' & Ha' & _)]; [done|congruence].
                 --- intros a' [= <-]. cbn. rewrite Hsz, bool_decide_eq_true_2 by done. lia.
           ++ intros a' [= <-]. cbn [al_chunks a]. split.
              ** intros Hnil. apply (f_equal (@length ChunkPosition)) in Hnil. rewrite length_rev in Hnil. unfold l, new_positions, offsets_from in Hnil.
                 rewrite !length_fmap, length_seqZ in Hnil. cbn [length] in Hnil.
                 pose proof (Z.div_mod (n - v) cs ltac:(lia)) as E. rewrite Hdiv in E.
                 assert (0 < (n - v) / cs) by nia. lia.
              ** unfold s2. rewrite !stateOf_disk, (stateOf_eq _ _ _ Hst1), (stateOf_eq _ _ _ Hst). done.
        -- split_and!; [eapply quiet_trans; [exact Hq1|]; eapply quiet_trans; [exact Hq2|by apply quiet_disk]|by exists st1|by apply Inv_disk|done].
      * split_and!; [by eapply quiet_trans|by exists st1|done|done].
    + intros c d1 Hd1. mstep. split_and!; [eapply quiet_trans; [exact Hq1|by apply quiet_disk]|by exists st1|by apply Inv_disk|done].
Qed.
End alloc.
