(* ===== verification/MetaCreate.v ===== *)
(** * Creating and removing chunks keeps positions exclusive *)

From stdpp Require Import base gmap list sorting.
From Stdlib Require Import ZArith Lia.
From S2P Require Import Prelude StatusCode Bytes MgmtdTypes StorageTypes ChunkFiles ChunkMetaStore MetaKeys MetaSpace MetaSteps.

Lemma loaded_disk cs s d : loaded cs s -> loaded cs (set_ms_disk d s).
Proof. done. Qed.

Lemma loaded_upd cs c f s : loaded cs s -> (forall st, as_loaded (f st) = as_loaded st) -> loaded cs (upd c f s).
Proof.
  intros (st & Hst & Hl) Hf. destruct (decide (cs = c)) as [->|Hne].
  - eexists. rewrite upd_lookup, (stateOf_eq _ _ _ Hst), Hf. done.
  - exists st. unfold upd. cbn [ms_allocateState set_ms_allocateState]. by rewrite lookup_insert_ne.
Qed.

Lemma loaded_Some cs s : loaded cs s -> is_Some (ms_allocateState s !! cs).
Proof. intros (st & Hst & _). by exists st. Qed.

(** What an operation on one chunk size keeps. *)
Record steady (cs : Z) (s s' : ChunkMetaStore) (fl' : gmap Z Flight) : Prop := {
  sy_inv : Inv s' fl';
  sy_quiet : quiet s s';
  sy_loaded : loaded cs s'
}.

Lemma steady_refl cs s fl : Inv s fl -> loaded cs s -> steady cs s s fl.
Proof. intros. split; [done|apply quiet_refl|done]. Qed.

Lemma steady_trans cs s1 s2 s3 fl2 fl3 : steady cs s1 s2 fl2 -> steady cs s2 s3 fl3 -> steady cs s1 s3 fl3.
Proof. intros [? ? ?] [? ? ?]. split; [done|by eapply quiet_trans|done]. Qed.

Lemma steady_disk cs s1 s d fl : steady cs s1 s fl -> d_same (ms_disk s) d -> steady cs s1 (set_ms_disk d s) fl.
Proof. intros [? ? ?] ?. split; [by apply Inv_disk|eapply quiet_trans; [done|by apply quiet_disk]|done]. Qed.

Lemma steady_upd cs s1 s f fl :
  steady cs s1 s fl ->
  (forall st, as_loaded (f st) = as_loaded st /\ as_createdChunks (f st) = as_createdChunks st
     /\ as_recycledChunks (f st) = as_recycledChunks st /\ as_fileSize (f st) = as_fileSize st) ->
  steady cs s1 (upd cs f s) fl.
Proof.
  intros [? ? ?] Hf. split.
  - apply Inv_upd_other; [done|by apply loaded_Some|done].
  - eapply quiet_trans; [done|apply quiet_upd].
  - apply loaded_upd; [done|]. intros st. apply Hf.
Qed.

Lemma steady_jobs cs s1 s fl jobs : steady cs s1 s fl -> steady cs s1 (set_ms_jobs jobs s) fl.
Proof. intros [? [? ? ? ?] ?]. split; [by apply (Inv_same s)|by split|done]. Qed.

Lemma flight_idle fl cs g c : g (flight fl cs) = flight fl cs -> flight (fl_upd cs g fl) c = flight fl c.
Proof. intros E. destruct (decide (c = cs)) as [->|]; [by rewrite flight_upd|by rewrite flight_upd_ne]. Qed.

Lemma Inv_flight s fl fl' : Inv s fl -> (forall c, flight fl' c = flight fl c) -> Inv s fl'.
Proof. intros [H1 H2 H3] E. split; [done|..]; intros; rewrite E; auto. Qed.

Section create.
Context (config : MetaConfig) (Hsize : 0 < mc_allocate_size config < 2 ^ 63).

(** ** Background work *)

Lemma allocate_publish_ok cs fl s a :
  Inv s fl -> loaded cs s -> fl_alloc (flight fl cs) = Some a ->
  runs (allocate_publish cs a) s (fun o s' => o = Ok tt /\ steady cs s s' (fl_upd cs (set_alloc None) fl)
    /\ as_createdChunks (stateOf s' cs) = as_createdChunks (stateOf s cs) ++ al_chunks a).
Proof.
  intros HI (st & Hst & Hl) Ha. apply runs_modState. split_and!; [done| |by rewrite stateOf_upd].
  split; [|apply quiet_upd|by apply loaded_upd; [exists st|]].
  destruct (inv_size _ _ HI _ _ Hst) as [G1 G2 G3 G4 G5 G6]. eapply Inv_upd; [done|done|by intros; apply flight_upd_ne|].
  rewrite flight_upd. split; cbn; auto; try congruence.
  - intros Hlx. specialize (G2 Hlx). unfold created_list, alloc_chunks in *. rewrite Ha in G2. cbn. rewrite app_nil_r.
    rewrite <-app_assoc, (Permutation_app_comm (al_chunks a)). done.
  - intros i v. destruct (decide (i = al_index a)) as [->|Hne].
    + rewrite lookup_insert_eq. intros [= <-]. left. by apply G6.
    + rewrite lookup_insert_ne by done. intros Hi. destruct (G5 _ _ Hi) as [?|(a' & Ha' & <-)]; [by left|]. congruence.
Qed.

Lemma allocateChunks_ok cs fl s withLock :
  Inv s fl -> loaded cs s -> fl_alloc (flight fl cs) = None -> readable (ms_disk s) ->
  runs (allocateChunks config cs withLock) s (fun o s' => steady cs s s' fl
    /\ (o = Ok tt -> as_createdChunks (stateOf s' cs) <> [])).
Proof.
  intros HI Hld Hfl Hr. pose proof (allocate_commit_ok config Hsize cs fl s HI Hld Hfl Hr) as H.
  unfold runs in H. unfold runs, allocateChunks. destruct (allocate_commit config cs s) as [[a|c| |] s1]; cbn [fst snd] in H |- *;
    destruct H as (Hq & Hl1 & HI1 & Hch).
  - destruct (Hch a eq_refl) as [Hne Ec]. clear Hch.
    match goal with |- context [(?m ≫= ?k) s1] => change (runs (m ≫= k) s1 (fun o s' => steady cs s s' fl
      /\ (o = Ok tt -> as_createdChunks (stateOf s' cs) <> []))) end.
    mstep. eapply runs_mono; [apply (allocate_publish_ok cs _ s1 a HI1 Hl1); by rewrite flight_upd|].
    intros o s2 (-> & H2 & Ec2). mstep.
    assert (steady cs s s2 fl) as Hs2.
    { destruct H2 as [? ? ?]. split; [|by eapply quiet_trans|done]. eapply Inv_flight; [done|].
      intros c'. destruct (decide (c' = cs)) as [->|]; [|by rewrite !flight_upd_ne]. rewrite !flight_upd. destruct (flight fl cs).
      cbn in *. by subst. }
    assert (as_createdChunks (stateOf s2 cs) <> []) as Hne2 by (rewrite Ec2; by intros [_ ?]%app_nil).
    mstep; [|done]. apply runs_modState. split; [by apply steady_upd|]. intros _. by rewrite stateOf_upd.
  - match goal with |- context [(?m ≫= ?k) s1] => change (runs (m ≫= k) s1 (fun o s' => steady cs s s' fl
      /\ (o = Ok tt -> as_createdChunks (stateOf s' cs) <> []))) end.
    assert (steady cs s s1 fl) by (by split). mstep. mstep; [apply runs_modState|]; mstep; mstep; (split; [|done]); [by apply steady_upd|done].
  - split; [by split|done].
  - split; [by split|done].
Qed.

Lemma recycleRemovedChunks_ok cs fl s withLock :
  Inv s fl -> loaded cs s -> fl_recycled (flight fl cs) = [] ->
  runs (recycleRemovedChunks config cs withLock) s (fun o s' => steady cs s s' fl).
Proof.
  intros HI Hld Hfl. pose proof (recycle_commit_ok config cs fl s HI Hld Hfl) as H.
  unfold runs in H. unfold runs, recycleRemovedChunks. destruct (recycle_commit config cs s) as [[[chunks|]|c| |] s1]; cbn [fst snd] in H |- *;
    destruct H as (Hq & Hl1 & HI1).
  - match goal with |- context [(?m ≫= ?k) s1] => change (runs (m ≫= k) s1 (fun o s' => steady cs s s' fl)) end.
    mstep. pose proof (recycle_publish_ok cs _ s1 HI1 Hl1) as Hp. rewrite flight_upd in Hp. cbn [set_recycled fl_recycled] in Hp.
    eapply runs_mono; [exact Hp|]. intros o s2 (-> & Hq2 & Hl2 & HI2). mstep.
    assert (steady cs s s2 fl) as Hs2.
    { split; [|by eapply quiet_trans|done]. eapply Inv_flight; [done|].
      intros c'. destruct (decide (c' = cs)) as [->|]; [|by rewrite !flight_upd_ne]. rewrite !flight_upd. destruct (flight fl cs).
      cbn in *. by subst. }
    mstep; [|done]. apply runs_modState. by apply steady_upd.
  - match goal with |- context [(?m ≫= ?k) s1] => change (runs (m ≫= k) s1 (fun o s' => steady cs s s' fl)) end.
    assert (steady cs s s1 fl) by (by split). mstep. mstep. mstep. mstep; [apply runs_modState; by apply steady_upd|done].
  - match goal with |- context [(?m ≫= ?k) s1] => change (runs (m ≫= k) s1 (fun o s' => steady cs s s' fl)) end.
    assert (steady cs s s1 fl) by (by split). mstep. mstep; [apply runs_modState|]; mstep; mstep; [by apply steady_upd|done].
  - by split.
  - by split.
Qed.

(** ** Creation *)

Lemma create_enter_ok cs fl s :
  Inv s fl -> loaded cs s ->
  runs (create_enter config cs) s (fun o s' => steady cs s s' fl /\ exists b, o = Ok b).
Proof.
  intros HI Hl. pose proof (steady_refl cs s fl HI Hl) as H. unfold create_enter, addJob. msteps.
  destruct (needRecycleRemovedChunks config s cs); [|mstep; eauto]. msteps; [|eauto].
  apply runs_modState. msteps. split; [|eauto]. apply steady_jobs. by apply steady_upd.
Qed.

Lemma create_recycle_ok cs fl s :
  Inv s fl -> loaded cs s -> fl_recycled (flight fl cs) = [] ->
  runs (create_recycle config cs) s (fun o s' => steady cs s s' fl).
Proof.
  intros HI Hl Hfl. unfold create_recycle. mstep. apply runs_getState. mstep. mstep.
  - by apply recycleRemovedChunks_ok.
  - by apply steady_refl.
Qed.

Definition add_taken (t : Taken) (f : Flight) : Flight := set_taken (t :: fl_taken f) f.

(** The flight after an attempt to take a position. *)
Definition taken_flight (cs : Z) (o : outcome (option Taken)) (fl : gmap Z Flight) : gmap Z Flight :=
  match o with Ok (Some t) => fl_upd cs (add_taken t) fl | _ => fl end.

Lemma take_created_ok cs fl s1 s :
  steady cs s1 s fl ->
  runs (take_created cs) s (fun o s' => steady cs s1 s' (taken_flight cs o fl)
    /\ match o with Ok (Some t) => tk_recycled t = false | Ok None => as_createdChunks (stateOf s cs) = [] | _ => False end).
Proof.
  intros [HI Hq (st & Hst & Hl)]. unfold take_created. mstep. apply runs_getState. rewrite (stateOf_eq _ _ _ Hst). mstep.
  destruct (pop_back (as_createdChunks st)) as [[pos rest]|] eqn:Epop; [|mstep; split; [by split; [..|exists st]|by apply pop_back_None]].
  apply pop_back_spec in Epop. mstep. apply runs_modState. mstep. mstep. split; [|done].
  split; [|eapply quiet_trans; [done|apply quiet_upd]|by apply loaded_upd; [exists st|]].
  destruct (inv_size _ _ HI _ _ Hst) as [G1 G2 G3 G4 G5 G6]. eapply Inv_upd; [done|done|by intros; apply flight_upd_ne|].
  cbn [taken_flight]. rewrite flight_upd. split; cbn; auto; [|congruence].
  intros Hlx. specialize (G2 Hlx). unfold created_list, taken_of in *. rewrite Epop, <-app_assoc in G2. done.
Qed.

Lemma create_take_ok cs fl s allow :
  Inv s fl -> loaded cs s ->
  runs (create_take config cs allow) s (fun o s' => steady cs s s' (taken_flight cs o fl)
    /\ (o = Ok None -> as_createdChunks (stateOf s cs) = [])).
Proof.
  intros HI Hld. pose proof (steady_refl cs s fl HI Hld) as H. destruct Hld as (st & Hst & Hl).
  unfold create_take. mstep. apply runs_getState. rewrite (stateOf_eq _ _ _ Hst). mstep.
  destruct (pop_back (as_recycledChunks st)) as [[pos rest]|] eqn:Epop.
  - apply pop_back_spec in Epop. mstep. apply runs_modState. mstep. mstep. split; [|done].
    split; [|apply quiet_upd|by apply loaded_upd; [exists st|]].
    destruct (inv_size _ _ HI _ _ Hst) as [G1 G2 G3 G4 G5 G6]. eapply Inv_upd; [done|done|by intros; apply flight_upd_ne|].
    cbn [taken_flight]. rewrite flight_upd. split; cbn; auto; [|congruence].
    intros Hlx. specialize (G3 Hlx). unfold recycled_list, taken_of in *. rewrite Epop, <-app_assoc in G3. done.
  - unfold addJob. mstep. mstep; [done|]. msteps.
    + apply runs_modState. msteps.
      eapply runs_mono; [apply (take_created_ok cs fl s); by apply steady_jobs, steady_upd|].
      intros o s' [? Ho]. split; [done|]. intros ->. revert Ho.
      match goal with |- context [set_ms_jobs ?j ?x] => change (stateOf (set_ms_jobs j x) cs) with (stateOf x cs) end.
      by rewrite stateOf_upd, (stateOf_eq _ _ _ Hst).
    + eapply runs_mono; [by apply (take_created_ok cs fl s)|]. intros o s' [? Ho]. split; [done|]. intros ->. by rewrite (stateOf_eq _ _ _ Hst) in Ho.
Qed.

Lemma create_allocate_ok cs fl s :
  Inv s fl -> loaded cs s -> fl_alloc (flight fl cs) = None -> readable (ms_disk s) ->
  runs (create_allocate config cs) s (fun o s' => steady cs s s' (taken_flight cs (omap_outcome Some o) fl)).
Proof.
  intros HI Hld Hfl Hr. unfold create_allocate. mstep. apply runs_getState. mstep. mstep.
  assert (runs (when (bool_decide (as_createdChunks (stateOf s cs) = [])) (allocateChunks config cs true)) s
    (fun o s' => steady cs s s' fl)) as Hw.
  { mstep; [|by apply steady_refl]. eapply runs_mono; [by apply (allocateChunks_ok cs fl s)|]. by intros ? ? [? _]. }
  eapply runs_mono; [exact Hw|]. intros [[]|c| |] s1 H1; cbv beta iota delta [andThen]; [|done..].
  mstep. eapply runs_mono; [by apply (take_created_ok cs fl s)|].
  intros [[t|]|c| |] s2 [H2 _]; cbv beta iota delta [andThen]; done.
Qed.

(** The metadata of a new chunk. *)
Definition placed (cs : Z) (t : Taken) (meta : ChunkMetadata) : ChunkMetadata :=
  set_cm_innerOffset (pos_offset (tk_pos t)) (set_cm_innerFileId (mkChunkFileId cs (pos_fileIdx (tk_pos t))) meta).

Lemma placed_position cs t meta : cm_position (placed cs t meta) = tk_pos t.
Proof. by destruct t as [[? ?] ? ?]. Qed.

Lemma taken_in_pool s fl cs st t :
  Inv s fl -> ms_allocateState s !! cs = Some st -> as_loaded st = true -> t ∈ fl_taken (flight fl cs) ->
  (cs, tk_pos t) ∈ (if tk_recycled t then kv_recycled (ms_kv s) else kv_created (ms_kv s)).
Proof.
  intros HI Hst Hl Ht. destruct (inv_size _ _ HI _ _ Hst) as [G1 G2 G3 G4 G5 G6].
  assert (tk_pos t ∈ taken_of (tk_recycled t) (flight fl cs)) as Hin.
  { apply list_elem_of_fmap. exists t. split; [done|]. by apply list_elem_of_filter. }
  destruct (tk_recycled t).
  - apply (G3 Hl). unfold recycled_list. rewrite !elem_of_app. auto.
  - apply (G2 Hl). unfold created_list. rewrite !elem_of_app. auto.
Qed.

Lemma taken_of_perm b f t l :
  fl_taken f ≡ₚ t :: l ->
  taken_of b f ≡ₚ (if bool_decide (tk_recycled t = b) then [tk_pos t] else []) ++ (tk_pos <$> filter (fun t => tk_recycled t = b) l).
Proof.
  intros HP. unfold taken_of. rewrite HP, filter_cons. case_bool_decide; case_decide; done.
Qed.

(** The key-value store after a chunk took its position. *)
Definition created_kv (kv : MetaKV) (id : ChunkId) (m : ChunkMetadata) (t : Taken) (cs num : Z) (size : option Z) : MetaKV :=
  set_kv_createdSize size (put_metadata id m
    (if tk_recycled t then del_recycled (cs, tk_pos t) (put_number KEY_REUSEDCOUNT cs num kv)
     else del_created (cs, tk_pos t) (put_number KEY_USEDCOUNT cs num kv))).

Lemma created_kv_ok kv id meta t cs num size :
  kv_ok kv -> (cs, tk_pos t) ∈ (if tk_recycled t then kv_recycled kv else kv_created kv) ->
  kv_ok (created_kv kv id (placed cs t meta) t cs num size).
Proof.
  intros Hok Hin.
  apply (kv_ok_move kv _ (if tk_recycled t then ORecycled else OCreated) (OLive id) cs (tk_pos t)); [done|by destruct (tk_recycled t)|..].
  - unfold created_kv. destruct (tk_recycled t); simpl; set_solver.
  - intros [id'| | |us] c q; unfold created_kv; destruct (tk_recycled t) eqn:Et; simpl; try set_solver.
    + destruct (decide (id' = id)) as [->|]; [|rewrite lookup_insert_ne by done; auto].
      rewrite lookup_insert_eq. intros (m & [= <-] & <- & <-). right. by rewrite placed_position.
    + destruct (decide (id' = id)) as [->|]; [|rewrite lookup_insert_ne by done; auto].
      rewrite lookup_insert_eq. intros (m & [= <-] & <- & <-). right. by rewrite placed_position.
  - intros c i. unfold created_kv. by destruct (tk_recycled t).
Qed.

(** The states of memory after the commit. *)
Lemma created_kv_size kv id m t cs num size st f l :
  size_ok kv cs st f -> as_loaded st = true -> fl_taken f ≡ₚ t :: l ->
  size_ok (created_kv kv id m t cs num size) cs st (set_taken l f).
Proof.
  intros [G1 G2 G3 G4 G5 G6] Hl HP. specialize (G2 Hl). specialize (G3 Hl). unfold created_list, recycled_list in *.
  rewrite (taken_of_perm false _ _ _ HP) in G2. rewrite (taken_of_perm true _ _ _ HP) in G3.
  split; auto; try congruence.
  - intros _. unfold created_list, taken_of. cbn [set_taken fl_taken]. change (alloc_chunks (set_taken l f)) with (alloc_chunks f).
    unfold created_kv. destruct (tk_recycled t) eqn:Et.
    + rewrite bool_decide_eq_false_2 in G2 by congruence. done.
    + rewrite bool_decide_eq_true_2 in G2 by congruence. cbn. apply pool_ok_cons_del. revert G2. apply pool_ok_perm.
      cbn [app]. by rewrite <-Permutation_middle.
  - intros _. unfold recycled_list, taken_of. cbn [set_taken fl_taken fl_recycled]. unfold created_kv. destruct (tk_recycled t) eqn:Et.
    + rewrite bool_decide_eq_true_2 in G3 by congruence. cbn. apply pool_ok_cons_del. revert G3. apply pool_ok_perm.
      cbn [app]. by rewrite <-Permutation_middle.
    + rewrite bool_decide_eq_false_2 in G3 by congruence. done.
  - intros i v Hi. assert (kv_fileSize_of (created_kv kv id m t cs num size) cs i = kv_fileSize_of kv cs i) as ->
      by (unfold created_kv; by destruct (tk_recycled t)). apply (G5 _ _ Hi).
  - intros a Ha. assert (kv_fileSize_of (created_kv kv id m t cs num size) cs (al_index a) = kv_fileSize_of kv cs (al_index a)) as ->
      by (unfold created_kv; by destruct (tk_recycled t)). apply (G6 _ Ha).
Qed.

(** The position goes back to its list when the commit fails. *)
Definition give_back (t : Taken) (st : AllocateState) : AllocateState :=
  if tk_recycled t
  then set_as_reusedCount (u64 (as_reusedCount st - 1)) (set_as_recycledChunks (as_recycledChunks st ++ [tk_pos t]) st)
  else set_as_usedCount (u64 (as_usedCount st - 1)) (set_as_createdChunks (as_createdChunks st ++ [tk_pos t]) st).

Lemma give_back_size kv t cs st f l :
  size_ok kv cs st f -> as_loaded st = true -> fl_taken f ≡ₚ t :: l -> size_ok kv cs (give_back t st) (set_taken l f).
Proof.
  intros [G1 G2 G3 G4 G5 G6] Hl HP. specialize (G2 Hl). specialize (G3 Hl). unfold created_list, recycled_list in *.
  rewrite (taken_of_perm false _ _ _ HP) in G2. rewrite (taken_of_perm true _ _ _ HP) in G3.
  unfold give_back. destruct (tk_recycled t) eqn:Et.
  - rewrite bool_decide_eq_false_2 in G2 by congruence. rewrite bool_decide_eq_true_2 in G3 by congruence.
    split; cbn; auto; try congruence. intros _. unfold recycled_list. cbn. rewrite <-app_assoc. done.
  - rewrite bool_decide_eq_true_2 in G2 by congruence. rewrite bool_decide_eq_false_2 in G3 by congruence.
    split; cbn; auto; try congruence. intros _. unfold created_list. cbn. rewrite <-app_assoc. done.
Qed.

(** What a change of the metadata of chunks leaves. *)
Record framed (s s' : ChunkMetaStore) : Prop := {
  fr_grown : grown (ms_disk s) (ms_disk s');
  fr_states : forall cs, is_Some (ms_allocateState s !! cs) -> is_Some (ms_allocateState s' !! cs)
}.

Lemma quiet_framed s s' : quiet s s' -> framed s s'.
Proof. intros [? ? ? ?]. by split. Qed.

Lemma framed_trans s1 s2 s3 : framed s1 s2 -> framed s2 s3 -> framed s1 s3.
Proof. intros [? ?] [? ?]. split; [by eapply grown_trans|auto]. Qed.

Lemma create_commit_ok id cs meta t fl s l :
  Inv s fl -> loaded cs s -> fl_taken (flight fl cs) ≡ₚ t :: l ->
  runs (create_commit id cs meta t) s (fun o s' =>
    Inv s' (fl_upd cs (set_taken l) fl) /\ loaded cs s' /\ framed s s'
    /\ kv_uncommitted (ms_kv s') = kv_uncommitted (ms_kv s)
    /\ match o with
       | Ok m => m = placed cs t meta /\ kv_metadata (ms_kv s') = <[id := m]> (kv_metadata (ms_kv s))
       | Err _ => kv_metadata (ms_kv s') = kv_metadata (ms_kv s)
       | _ => False
       end).
Proof.
  intros HI Hld HP. pose proof Hld as (st & Hst & Hl). unfold create_commit. fold (placed cs t meta). msteps.
  set (s1 := set_ms_createdSize _ s).
  assert (Inv s1 fl) as HI1 by (by apply (Inv_same s)). change (ms_allocateState s1 !! cs = Some st) in Hst.
  apply runs_commit; intros * Hd; mstep.
  - mstep. assert (exists size, d_kv d' = created_kv (ms_kv s) id (placed cs t meta) t cs (tk_count t) size) as (size & Ekv).
    { destruct Hd as [-> _]. unfold created_kv. eexists. destruct (tk_recycled t); cbn; reflexivity. }
    destruct Hd as (_ & Ef & En). cbn [set_d_kv d_files] in Ef.
    assert (same_kv : forall kv num size, kv_uncommitted (created_kv kv id (placed cs t meta) t cs num size) = kv_uncommitted kv
       /\ kv_metadata (created_kv kv id (placed cs t meta) t cs num size) = <[id := placed cs t meta]> (kv_metadata kv)
       /\ (forall c i, kv_fileSize_of (created_kv kv id (placed cs t meta) t cs num size) c i = kv_fileSize_of kv c i)
       /\ (forall c p, c <> cs -> (c, p) ∈ kv_created kv -> (c, p) ∈ kv_created (created_kv kv id (placed cs t meta) t cs num size))
       /\ (forall c p, c <> cs -> (c, p) ∈ kv_recycled kv -> (c, p) ∈ kv_recycled (created_kv kv id (placed cs t meta) t cs num size))).
    { intros. unfold created_kv. destruct (tk_recycled t); split_and!; try done; cbn; set_solver. }
    destruct (same_kv (ms_kv s) (tk_count t) size) as (E1 & E2 & E3 & E4 & E5).
    split_and!.
    + apply (Inv_update s1 _ fl _ cs); cbn [ms_disk set_ms_disk ms_allocateState]; try done; try rewrite Ekv; try done.
      * apply created_kv_ok; [apply HI|]. apply (taken_in_pool s fl cs st); [done..|]. rewrite HP. left.
      * intros c Hc. by apply flight_upd_ne.
      * rewrite Hst, flight_upd. apply created_kv_size; [by apply (inv_size _ _ HI)|done|done].
    + by exists st.
    + split; [by apply grown_files|done].
    + cbn. by rewrite Ekv, E1.
    + done.
    + cbn. by rewrite Ekv, E2.
  - msteps. apply runs_modState. fold (give_back t). msteps.
    set (s2 := set_ms_createdSize _ _).
    assert (E : d_kv d' = ms_kv s) by apply Hd.
    split_and!; try (cbn; by rewrite E).
    + eapply (Inv_upd s2 fl); [by apply (Inv_same s)|exact Hst|by intros; apply flight_upd_ne|]. rewrite flight_upd.
      cbn. rewrite E. apply give_back_size; [by apply (inv_size _ _ HI)|done|done].
    + apply loaded_upd; [by exists st|]. intros st'. unfold give_back. by destruct (tk_recycled t).
    + apply quiet_framed. eapply quiet_trans; [|apply quiet_upd]. split; cbn; [by apply grown_same|by rewrite E..|done].
Qed.


(** ** A whole creation *)

Definition no_read_faults (d : Disk MetaKV) : Prop := Forall (fun x => x = None) (d_rfaults d).

Lemma no_read_faults_later d d' : no_read_faults d -> d_later d d' -> no_read_faults d'.
Proof. unfold no_read_faults. intros H [_ [l E]]. rewrite E in H. by apply Forall_app in H as [_ H]. Qed.

Lemma no_read_faults_readable d : no_read_faults d -> readable d.
Proof. unfold no_read_faults, readable. by destruct 1 as [|[]]. Qed.

Lemma flight_empty cs : flight ∅ cs = no_flight.
Proof. unfold flight. by rewrite lookup_empty. Qed.

Lemma meta_createChunk_ok id meta cs allow s :
  Inv s ∅ -> no_read_faults (ms_disk s) ->
  runs (meta_createChunk config id meta cs allow) s (fun o s' =>
    Inv s' ∅ /\ framed s s' /\ kv_uncommitted (ms_kv s') = kv_uncommitted (ms_kv s)
    /\ match o with
       | Ok m => (exists t, m = placed cs t meta) /\ kv_metadata (ms_kv s') = <[id := m]> (kv_metadata (ms_kv s))
       | _ => kv_metadata (ms_kv s') = kv_metadata (ms_kv s)
       end).
Proof.
  intros HI Hnf. unfold meta_createChunk. mstep. eapply runs_mono; [by apply loadAllocateState_ok|].
  intros o s1 (HI1 & Hq1 & Hl1).
  assert (forall s', Inv s' ∅ -> quiet s s' ->
    Inv s' ∅ /\ framed s s' /\ kv_uncommitted (ms_kv s') = kv_uncommitted (ms_kv s)
    /\ kv_metadata (ms_kv s') = kv_metadata (ms_kv s)) as HE.
  { intros s' HI' Hq'. split_and!; [done|by apply quiet_framed|apply Hq'|apply Hq']. }
  destruct o as [[]|c| |]; cbv beta iota delta [andThen]; [|by apply HE..]. specialize (Hl1 eq_refl).
  mstep. eapply runs_mono; [by apply (create_enter_ok cs ∅)|]. intros o s2 [[HI2 Hq2 Hl2] [b ->]]. mstep. mstep.
  assert (runs (when b (create_recycle config cs)) s2 (fun o s' => steady cs s s' ∅)) as Hw.
  { assert (quiet s s2) by (by eapply quiet_trans). mstep; [|by split].
    eapply runs_mono; [apply (create_recycle_ok cs ∅ s2 HI2 Hl2); by rewrite flight_empty|].
    intros ? ? [? ? ?]. split; [done|by eapply quiet_trans|done]. }
  eapply runs_mono; [exact Hw|]. clear Hw HI1 Hq1 Hl1 HI2 Hq2 Hl2 s1 s2 b.
  intros [[]|c| |] s3 [HI3 Hq3 Hl3]; cbv beta iota delta [andThen]; [|by apply HE..].
  mstep. eapply runs_mono; [by apply (create_take_ok cs ∅)|]. intros o s4 [[HI4 Hq4 Hl4] _].
  assert (quiet s s4) as Hq4' by (by eapply quiet_trans).
  destruct o as [taken|c| |]; cbv beta iota delta [andThen]; [|by apply HE..]. mstep.
  assert (runs match taken with Some t => mret t | None => create_allocate config cs end s4
    (fun o s' => quiet s s' /\ loaded cs s' /\ Inv s' (taken_flight cs (omap_outcome Some o) ∅))) as Ht.
  { destruct taken as [t|]; [by mstep|]. eapply runs_mono; [apply (create_allocate_ok cs ∅ s4)|].
    - done.
    - done.
    - by rewrite flight_empty.
    - apply no_read_faults_readable. eapply no_read_faults_later; [done|]. apply Hq4'.
    - intros o s5 [? ? ?]. split_and!; [by eapply quiet_trans|done|done]. }
  eapply runs_mono; [exact Ht|]. intros [t|c| |] s5 (Hq5 & Hl5 & HI5); cbv beta iota delta [andThen]; [|by apply HE..].
  cbn [omap_outcome taken_flight] in HI5.
  eapply runs_mono; [apply (create_commit_ok id cs meta t (fl_upd cs (add_taken t) ∅) s5 []); [done|done|by rewrite flight_upd, flight_empty]|].
  intros o s6 (HI6 & Hl6 & Hf6 & Hu6 & Ho). split_and!.
  - eapply Inv_flight; [exact HI6|]. intros c. rewrite flight_empty.
    destruct (decide (c = cs)) as [->|]; [by rewrite !flight_upd, flight_empty|by rewrite !flight_upd_ne, flight_empty].
  - eapply framed_trans; [by apply quiet_framed|done].
  - rewrite Hu6. apply Hq5.
  - destruct o as [m|c| |]; [|rewrite Ho; apply Hq5|done|done]. destruct Ho as [-> ->]. split; [by exists t|]. f_equal. apply Hq5.
Qed.
End create.
