(* ===== verification/MetaTheorems.v ===== *)
(** * The space of chunk files

    The remaining operations of the metadata store keep positions exclusive. *)

From stdpp Require Import base gmap list sorting.
From Stdlib Require Import ZArith Lia.
From S2P Require Import Prelude StatusCode Bytes MgmtdTypes StorageTypes ChunkFiles ChunkMetaStore MetaKeys MetaSpace MetaSteps MetaCreate.

(** ** Bytes of files *)

(** Files do not shrink and bytes are kept except in [hole]. *)
Definition keeps_but (hole : ChunkFileId -> Z -> Prop) (d d' : Disk MetaKV) : Prop :=
  (forall f i, ~ hole f i -> file_get (disk_file d' f) i = file_get (disk_file d f) i)
  /\ forall f, fd_size (disk_file d f) <= fd_size (disk_file d' f).

Definition no_hole : ChunkFileId -> Z -> Prop := fun _ _ => False.
Definition hole_at (f : ChunkFileId) (offset : Z) : ChunkFileId -> Z -> Prop :=
  fun g i => g = f /\ offset <= i < offset + cf_chunkSize f.

Lemma keeps_grown d d' : grown d d' -> keeps_but no_hole d d'.
Proof. intros (_ & _ & H). split; [|intros f; apply H]. intros f i _. unfold file_get. by destruct (H f) as [-> _]. Qed.

Lemma keeps_trans h d1 d2 d3 : keeps_but h d1 d2 -> keeps_but h d2 d3 -> keeps_but h d1 d3.
Proof. intros [H1 S1] [H2 S2]. split; [|intros f; specialize (S1 f); specialize (S2 f); lia]. intros f i Hi. by rewrite H2, H1. Qed.

Lemma keeps_weaken (h h' : ChunkFileId -> Z -> Prop) d d' : keeps_but h d d' -> (forall f i, h f i -> h' f i) -> keeps_but h' d d'.
Proof. intros [H S] Hh. split; [|done]. intros f i Hi. apply H. intros ?. by apply Hi, Hh. Qed.

Lemma keeps_punch f offset d :
  keeps_but (hole_at f offset) d (update_file f (file_punch offset (cf_chunkSize f)) d).
Proof.
  split; intros g; [intros i Hi|]; rewrite disk_file_update; case_bool_decide as E; try done; subst g; [|done].
  rewrite file_get_punch. case_bool_decide; [|done]. exfalso. by apply Hi.
Qed.

(** ** Metadata *)

Definition same_place (m m' : ChunkMetadata) : Prop :=
  cm_innerFileId m' = cm_innerFileId m /\ cm_innerOffset m' = cm_innerOffset m.

Lemma same_place_position m m' : same_place m m' -> cm_position m' = cm_position m.
Proof. intros [E1 E2]. unfold cm_position. by rewrite E1, E2. Qed.

Lemma Inv_kv s d' fl kv' :
  Inv s fl -> d_kv d' = kv' -> kv_ok kv' ->
  kv_created kv' = kv_created (ms_kv s) -> kv_recycled kv' = kv_recycled (ms_kv s) -> kv_fileSize kv' = kv_fileSize (ms_kv s) ->
  Inv (set_ms_disk d' s) fl.
Proof.
  intros [H1 H2 H3] <- Hok Ec Er Ef. split; cbn; [done| |done]. intros cs st Hst.
  apply (size_ok_other (ms_kv s)); [by apply H2|by rewrite Ec|by rewrite Er|unfold kv_fileSize_of; by rewrite Ef].
Qed.

Lemma runs_meta_get id s (Q : outcome ChunkMetadata -> ChunkMetaStore -> Prop) :
  (forall d' m, d_same (ms_disk s) d' -> kv_metadata (ms_kv s) !! id = Some m -> Q (Ok m) (set_ms_disk d' s)) ->
  (forall d', d_same (ms_disk s) d' -> kv_metadata (ms_kv s) !! id = None ->
     Q (Err StorageCode_kChunkMetadataNotFound) (set_ms_disk d' s)) ->
  (forall d', d_same (ms_disk s) d' -> Q (Err StorageCode_kChunkMetadataGetError) (set_ms_disk d' s)) ->
  runs (meta_get id) s Q.
Proof.
  intros H1 H2 H3. unfold meta_get. mstep. mstep. apply runs_zoom, runs_kv_get; intros; msteps; [by apply H1|by apply H2|by apply H3].
Qed.

(** The table of uncommitted chunks after a chunk is stored. *)
Definition uncommitted_after (m : ChunkMetadata) (id : ChunkId) (l : gset ChunkId) : gset ChunkId :=
  if bool_decide (cm_chunkState m = CHUNK_COMMIT) then l ∖ {[id]} else {[id]} ∪ l.

Lemma meta_set_ok id m0 meta fl s :
  Inv s fl -> kv_metadata (ms_kv s) !! id = Some m0 -> same_place m0 meta ->
  runs (meta_set id meta) s (fun o s' => exists d', s' = set_ms_disk d' s /\ Inv s' fl /\ grown (ms_disk s) d' /\
    match o with
    | Ok _ => kv_metadata (d_kv d') = <[id := meta]> (kv_metadata (ms_kv s))
              /\ kv_uncommitted (d_kv d') = uncommitted_after meta id (kv_uncommitted (ms_kv s))
    | Err c => c = StorageCode_kChunkMetadataSetError /\ d_same (ms_disk s) d'
    | _ => False
    end).
Proof.
  intros HI Hm Hp. unfold meta_set. mstep. mstep. apply runs_commit; intros d' Hd; mstep; mstep; exists d'.
  - assert (d_kv d' = (if bool_decide (cm_chunkState meta = CHUNK_COMMIT) then del_uncommitted id else put_uncommitted id)
                        (put_metadata id meta (ms_kv s))) as Ekv by apply Hd.
    destruct Hd as (_ & Ef & En). split_and!; [done| |by apply grown_files|..].
    + eapply (Inv_kv s d' fl _ HI Ekv); [|by case_bool_decide..].
      apply (kv_ok_sub (ms_kv s)); [apply HI| |by case_bool_decide].
      intros w cs p. case_bool_decide; destruct w as [id'| | |us]; cbn; try done;
        (destruct (decide (id' = id)) as [->|]; [|by rewrite lookup_insert_ne]); rewrite lookup_insert_eq;
        intros (m & [= <-] & E1 & E2); exists m0; destruct Hp as [Hp1 Hp2]; rewrite <-Hp1, <-E2; split_and!; try done;
        unfold cm_position; by rewrite Hp1, Hp2.
    + rewrite Ekv. by case_bool_decide.
    + rewrite Ekv. unfold uncommitted_after. by case_bool_decide.
  - split_and!; [done|by apply Inv_disk|by apply grown_same|done|done].
Qed.

(** The key-value store without a chunk; its position is removed or a hole. *)
Definition removed_kv (kv : MetaKV) (id : ChunkId) (m : ChunkMetadata) (punched : bool) (now num : Z) (size : option Z) : MetaKV :=
  let cs := cf_chunkSize (cm_innerFileId m) in
  set_kv_removedSize size
    ((fun kv => if punched then kv else put_number KEY_REMOVEDCOUNT cs num (put_removed (cs, now, cm_position m) kv))
       (del_uncommitted id (del_metadata id kv))).

Lemma removed_kv_ok kv id m0 m punched now num size :
  kv_ok kv -> kv_metadata kv !! id = Some m0 -> same_place m0 m -> kv_ok (removed_kv kv id m punched now num size).
Proof.
  intros Hok Hm Hp. unfold removed_kv. set (cs := cf_chunkSize (cm_innerFileId m)).
  assert (forall id' c q, holds (set_kv_removedSize size (del_uncommitted id (del_metadata id kv))) (OLive id') c q -> id' <> id /\ holds kv (OLive id') c q) as Hl.
  { intros id' c q. cbn. destruct (decide (id' = id)) as [->|]; [rewrite lookup_delete_eq; by intros (? & ? & _)|].
    rewrite lookup_delete_ne by done. done. }
  destruct punched; cbn beta iota.
  - apply (kv_ok_sub kv); [done| |done]. intros [id'| | |us] c q; [|done..]. intros H. by apply (Hl id').
  - apply (kv_ok_move kv _ (OLive id) (ORemoved now) cs (cm_position m)); [done|..].
    + exists m0. destruct Hp as [Hp1 Hp2]. unfold cs, cm_position. by rewrite Hp1, Hp2.
    + intros H. by destruct (Hl id cs (cm_position m)).
    + intros [id'| | |us] c q; [intros H; left; by apply (Hl id')|by left|by left|]. cbn.
      intros [[= -> -> ->]%elem_of_singleton|?]%elem_of_union; [by right|by left].
    + done.
Qed.

Section remove.
Context (config : MetaConfig).

Record removal (id : ChunkId) (m : ChunkMetadata) (hole : ChunkFileId -> Z -> Prop) (fl : gmap Z Flight)
    (s : ChunkMetaStore) (o : outcome unit) (s' : ChunkMetaStore) : Prop := {
  rm_inv : Inv s' fl;
  rm_keeps : keeps_but hole (ms_disk s) (ms_disk s');
  rm_later : d_later (ms_disk s) (ms_disk s');
  rm_states : forall cs, is_Some (ms_allocateState s !! cs) -> is_Some (ms_allocateState s' !! cs);
  rm_kv : match o with
    | Ok _ => kv_metadata (ms_kv s') = delete id (kv_metadata (ms_kv s))
              /\ kv_uncommitted (ms_kv s') = kv_uncommitted (ms_kv s) ∖ {[id]}
    | _ => kv_metadata (ms_kv s') = kv_metadata (ms_kv s) /\ kv_uncommitted (ms_kv s') = kv_uncommitted (ms_kv s)
    end
}.

Lemma quiet_removal id m hole fl s s' o : is_ok o = false -> quiet s s' -> Inv s' fl -> removal id m hole fl s o s'.
Proof.
  intros Ho [G M U S] HI. split; try done; [|apply G|by destruct o]. eapply keeps_weaken; [by apply keeps_grown|]. by intros ? ? [].
Qed.

Lemma removal_trans id m hole fl s1 s2 o s3 : quiet s1 s2 -> removal id m hole fl s2 o s3 -> removal id m hole fl s1 o s3.
Proof.
  intros [G M U S] [H1 H2 H3 H4 H5]. split; [done| |by eapply d_later_trans; [apply G|]|auto|by rewrite <-M, <-U].
  eapply keeps_trans; [|done]. eapply keeps_weaken; [by apply keeps_grown|]. by intros ? ? [].
Qed.

(** The last part: the commit. *)
Lemma remove_commit_ok id m0 meta punched fl s0 s hole :
  let cs := cf_chunkSize (cm_innerFileId meta) in
  Inv s fl -> loaded cs s -> kv_metadata (ms_kv s) !! id = Some m0 -> same_place m0 meta ->
  keeps_but hole (ms_disk s0) (ms_disk s) -> d_later (ms_disk s0) (ms_disk s) ->
  (forall c, is_Some (ms_allocateState s0 !! c) -> is_Some (ms_allocateState s !! c)) ->
  kv_metadata (ms_kv s) = kv_metadata (ms_kv s0) -> kv_uncommitted (ms_kv s) = kv_uncommitted (ms_kv s0) ->
  runs (r ← attempt (onDisk (kv_commit (
          [del_metadata id; del_uncommitted id]
          ++ (if punched then []
              else [put_removed (cs, d_now (ms_disk s0), cm_position meta);
                    put_number KEY_REMOVEDCOUNT cs (as_removedCount (stateOf s cs))])
          ++ [set_kv_removedSize (Some (ms_removedSize s))])));
        match r with
        | inr _ =>
            when (negb punched) (modState cs (fun st => set_as_removedCount (u64 (as_removedCount st - 1)) st)) ;;
            modify (fun s => set_ms_removedSize (u64 (ms_removedSize s - cs)) s) ;;
            fail StorageCode_kChunkMetadataSetError
        | inl _ =>
            modState cs (fun st => if as_oldestRemovedTimestamp st =? 0 then set_as_oldestRemovedTimestamp (d_now (ms_disk s0)) st else st)
        end) s (removal id meta hole fl s0).
Proof.
  intros cs HI Hld Hm Hp Hk Hlater Hst EM EU. mstep. mstep. apply runs_commit; intros d' Hd; mstep.
  - assert (exists num size, d_kv d' = removed_kv (ms_kv s) id meta punched (d_now (ms_disk s0)) num size) as (num & size & Ekv).
    { destruct Hd as [-> _]. cbn [d_kv set_d_kv]. unfold removed_kv. do 2 eexists. destruct punched; cbn; reflexivity. }
    pose proof (removed_kv_ok (ms_kv s) id m0 meta punched (d_now (ms_disk s0)) num size ltac:(apply HI) Hm Hp) as Hok.
    destruct Hd as (_ & Ef & En). apply runs_modState. split.
    + apply Inv_upd_other; [|by apply loaded_Some|intros st; by destruct (_ =? _)].
      eapply (Inv_kv s d' fl _ HI Ekv Hok); by destruct punched.
    + eapply keeps_trans; [exact Hk|]. eapply keeps_weaken; [apply keeps_grown; by apply (grown_files (ms_disk s) d')|]. by intros ? ? [].
    + eapply d_later_trans; [exact Hlater|exact En].
    + intros c Hc%Hst. unfold upd. cbn [ms_allocateState set_ms_allocateState set_ms_disk].
      destruct (decide (c = cs)) as [->|]; [by rewrite lookup_insert_eq|by rewrite lookup_insert_ne].
    + cbn. rewrite Ekv, <-EM, <-EU. by destruct punched.
  - assert (E : d_kv d' = ms_kv s) by apply Hd.
    assert (keeps_but hole (ms_disk s0) d') as Hk'.
    { eapply keeps_trans; [exact Hk|]. eapply keeps_weaken; [apply keeps_grown; by apply (grown_same (ms_disk s) d')|]. by intros ? ? []. }
    assert (d_later (ms_disk s0) d') as Hl' by (eapply d_later_trans; [exact Hlater|apply Hd]).
    msteps; [apply runs_modState; msteps|].
    + split; cbn; rewrite ?E, ?EM, ?EU; try done.
      * apply (Inv_same (upd cs (fun st => set_as_removedCount (u64 (as_removedCount st - 1)) st) (set_ms_disk d' s))); [|done|done].
        apply Inv_upd_other; [by apply Inv_disk|by apply loaded_Some|done].
      * intros c Hc%Hst. destruct (decide (c = cs)) as [->|]; [by rewrite lookup_insert_eq|by rewrite lookup_insert_ne].
    + split; cbn; rewrite ?E, ?EM, ?EU; try done. by apply (Inv_same s).
Qed.

Lemma meta_remove_ok id m0 meta fl s :
  Inv s fl -> kv_metadata (ms_kv s) !! id = Some m0 -> same_place m0 meta ->
  runs (meta_remove config id meta) s (removal id meta (hole_at (cm_innerFileId meta) (cm_innerOffset meta)) fl s).
Proof.
  intros HI Hm Hp. unfold meta_remove. set (cs := cf_chunkSize (cm_innerFileId meta)). mstep.
  eapply runs_mono; [by apply loadAllocateState_ok|]. intros o s1 (HI1 & Hq1 & Hl1).
  destruct o as [[]|c| |]; cbv beta iota delta [andThen]; [|by apply quiet_removal..]. specialize (Hl1 eq_refl).
  assert (Hm1 : kv_metadata (ms_kv s1) !! id = Some m0) by (by rewrite (q_metadata _ _ Hq1)).
  mstep. mstep. mstep. apply (runs_mono _ _ (removal id meta (hole_at (cm_innerFileId meta) (cm_innerOffset meta)) fl s1));
    [|intros; by eapply removal_trans].
  clear dependent s. rename s1 into s, Hl1 into Hld, HI1 into HI, Hm1 into Hm. mstep.
  destruct (cm_innerOffset meta <? as_startingPoint (stateOf s cs)).
  - apply runs_zoom, runs_file_punchHole.
    + intros d' Ekv Hg. do 7 mstep. set (s2 := set_ms_removedSize _ _).
      apply (remove_commit_ok id m0 meta true fl s s2 _); try done.
      * by apply (Inv_same s).
      * cbn. by rewrite Ekv.
      * eapply keeps_trans; [apply keeps_punch|]. eapply keeps_weaken; [by apply keeps_grown|]. by intros ? ? [].
      * apply Hg.
      * cbn. by rewrite Ekv.
      * cbn. by rewrite Ekv.
    + intros c d' Hd. mstep. apply quiet_removal; [done|by apply quiet_disk|by apply Inv_disk].
  - apply runs_modState. do 7 mstep. set (s2 := set_ms_removedSize _ _).
    apply (remove_commit_ok id m0 meta false fl s s2 _); try done.
    + apply (Inv_same (upd cs (fun st => set_as_removedCount (u64 (as_removedCount st + 1)) st) s)); [|done|done].
      apply Inv_upd_other; [done|by apply loaded_Some|done].
    + by apply (loaded_upd cs cs).
    + apply (quiet_upd cs (fun st => set_as_removedCount (u64 (as_removedCount st + 1)) st) s).
Qed.
End remove.

(** ** Holes *)

(** The bytes of the removed positions of a chunk size. *)
Definition removed_hole (kv : MetaKV) (cs : Z) : ChunkFileId -> Z -> Prop := fun f i =>
  exists us p, (cs, us, p) ∈ kv_removed kv /\ hole_at (mkChunkFileId cs (pos_fileIdx p)) (pos_offset p) f i.

(** Owners of distinct positions have disjoint bytes. *)
Lemma holds_disjoint kv w w' cs p cs' p' f i :
  kv_ok kv -> holds kv w cs p -> holds kv w' cs' p' ->
  hole_at (mkChunkFileId cs (pos_fileIdx p)) (pos_offset p) f i ->
  hole_at (mkChunkFileId cs' (pos_fileIdx p')) (pos_offset p') f i -> w = w' /\ cs = cs' /\ p = p'.
Proof.
  intros Hok Hw Hw' [-> Hi] [E Hi']. injection E as <- Ei. cbn in Hi, Hi'.
  destruct (ok_bounded _ Hok _ _ _ Hw) as (Hcs & Hp & Hal & _), (ok_bounded _ Hok _ _ _ Hw') as (_ & Hp' & Hal' & _).
  assert (pos_offset p = pos_offset p') as Eo.
  { apply Z.mod_divide in Hal as [k Ek], Hal' as [k' Ek']; [|lia..]. rewrite Ek, Ek' in *. assert (k = k') as -> by nia. done. }
  assert (p = p') as <- by (destruct p, p'; cbn in *; congruence). split_and!; [|done|done]. by apply (ok_exclusive _ Hok w w' cs p).
Qed.

Lemma take_while_elem {A} (f : A -> bool) l x : x ∈ take_while f l -> x ∈ l.
Proof.
  induction l as [|y l IH]; simpl; [done|]. destruct (f y); [|by intros ?%elem_of_nil]. rewrite !elem_of_cons. naive_solver.
Qed.

Section holes.
Context (config : MetaConfig).

Record punched (cs : Z) (fl : gmap Z Flight) (s s' : ChunkMetaStore) : Prop := {
  pu_inv : Inv s' fl;
  pu_keeps : keeps_but (removed_hole (ms_kv s) cs) (ms_disk s) (ms_disk s');
  pu_later : d_later (ms_disk s) (ms_disk s');
  pu_loaded : loaded cs s';
  pu_metadata : kv_metadata (ms_kv s') = kv_metadata (ms_kv s);
  pu_uncommitted : kv_uncommitted (ms_kv s') = kv_uncommitted (ms_kv s)
}.

Lemma punched_upd cs fl s s' f :
  punched cs fl s s' ->
  (forall st, as_loaded (f st) = as_loaded st /\ as_createdChunks (f st) = as_createdChunks st
     /\ as_recycledChunks (f st) = as_recycledChunks st /\ as_fileSize (f st) = as_fileSize st) ->
  punched cs fl s (upd cs f s').
Proof.
  intros [? ? ? ? ? ?] Hf. split; try done; [apply Inv_upd_other; [done|by apply loaded_Some|done]|].
  apply loaded_upd; [done|]. intros st. apply Hf.
Qed.

Lemma punchHoleRemovedChunks_ok cs expirationUs fl s :
  Inv s fl -> loaded cs s ->
  runs (punchHoleRemovedChunks config cs expirationUs) s (fun _ s' => punched cs fl s s').
Proof.
  intros HI Hld. unfold punchHoleRemovedChunks. mstep. apply runs_zoom, runs_next_read. intros fault d1 Hd1. do 4 mstep.
  set (due := take_z _ _). set (nothing := bool_decide (due = [])). set (oldest := default 0 _).
  assert (Ekv1 : d_kv d1 = ms_kv s) by apply Hd1.
  assert (forall k, k ∈ due -> (cs, k.1, k.2) ∈ kv_removed (ms_kv s)) as Hdue.
  { intros [us p] Hk%take_z_elem%take_while_elem. rewrite <-Ekv1. apply elem_of_removed_keys. destruct fault; [|done].
    by eapply elem_of_take in Hk as (j & Hj & _); apply list_elem_of_lookup_2 in Hj. }
  clearbody nothing due oldest.
  assert (forall d, d_kv d = ms_kv s -> keeps_but (removed_hole (ms_kv s) cs) (ms_disk s) d -> d_later (ms_disk s) d ->
    punched cs fl s (set_ms_disk d s)) as Hpd.
  { intros d Ed Hk Hl. split; cbn; rewrite ?Ed; try done. by apply (Inv_same s). }
  assert (runs (for_each (fun k => onDisk (file_punchHole (mkChunkFileId cs (pos_fileIdx k.2)) (pos_offset k.2))) due) (set_ms_disk d1 s)
    (fun _ s' => punched cs fl s s' /\ ms_kv s' = ms_kv s)) as Hloop.
  { apply (runs_for_each (fun l s' => l ⊆ due /\ exists d, s' = set_ms_disk d s /\ d_kv d = ms_kv s
        /\ keeps_but (removed_hole (ms_kv s) cs) (ms_disk s) d /\ d_later (ms_disk s) d)).
    - split; [done|]. exists d1. split_and!; [done|done| |apply Hd1].
      eapply keeps_weaken; [by apply keeps_grown, grown_same|]. by intros ? ? [].
    - intros k l s1 (Hsub & d & -> & Ed & Hk & Hl). apply runs_zoom, runs_file_punchHole.
      + intros d' Ed' Hg. split; [set_solver|]. exists d'. split_and!; [done|by rewrite Ed'| |eapply d_later_trans; [exact Hl|apply Hg]].
        eapply keeps_trans; [exact Hk|]. eapply keeps_trans.
        * eapply keeps_weaken; [apply keeps_punch|]. intros f i Hi. exists k.1, k.2. split; [apply Hdue; set_solver|exact Hi].
        * eapply keeps_weaken; [by apply keeps_grown|]. by intros ? ? [].
      + intros c d' Hd'. assert (d_kv d' = ms_kv s) as Ed' by (destruct Hd' as [-> _]; done). split; [|done].
        apply Hpd; [done| |eapply d_later_trans; [exact Hl|apply Hd']].
        eapply keeps_trans; [exact Hk|]. eapply keeps_weaken; [by apply keeps_grown, grown_same|]. by intros ? ? [].
    - intros s' (_ & d & -> & Ed & Hk & Hl). split; [by apply Hpd|done]. }
  mstep. eapply runs_mono; [exact Hloop|]. intros [[]|c| |] s2 [H2 E2]; cbv beta iota delta [andThen]; [|done..].
  mstep. mstep; [done|]. mstep. destruct nothing; [mstep; apply runs_modState; msteps; by apply punched_upd|].
  mstep. apply runs_getState. mstep. mstep. apply runs_modState. mstep. mstep. mstep. set (s3 := upd cs _ s2).
  assert (punched cs fl s s3) as H3 by (by apply punched_upd). assert (E3 : ms_kv s3 = ms_kv s) by done. clearbody s3.
  apply runs_commit; intros d' Hd; mstep.
  - mstep. apply runs_modState. msteps. apply punched_upd; [|done].
    assert (exists num, d_kv d' = set_kv_number num (set_kv_removed (kv_removed (ms_kv s)
       ∖ list_to_set ((fun k => (cs, k.1, k.2)) <$> due)) (ms_kv s))) as (num & Ekv).
    { destruct Hd as [-> _]. cbn [d_kv set_d_kv]. rewrite apply_batch_app, apply_del_removed, E3. eexists. cbn. reflexivity. }
    destruct H3 as [H31 H32 H33 H34 H35 H36]. destruct Hd as (_ & Ef & En). split; cbn; rewrite ?Ekv; try done.
    + eapply (Inv_kv s3 d' fl _ H31 Ekv); [|by rewrite E3..].
      apply (kv_ok_sub (ms_kv s)); [apply HI| |done]. intros [] c q; cbn; try done. set_solver.
    + eapply keeps_trans; [exact H32|]. eapply keeps_weaken; [apply keeps_grown; by apply (grown_files (ms_disk s3) d')|]. by intros ? ? [].
    + eapply d_later_trans; [exact H33|exact En].
  - mstep. apply runs_modState. msteps. apply punched_upd; [|done].
    destruct H3 as [H31 H32 H33 H34 H35 H36]. assert (E : d_kv d' = ms_kv s3) by apply Hd.
    split; cbn; rewrite ?E; try done; [by apply Inv_disk| |eapply d_later_trans; [exact H33|apply Hd]].
    eapply keeps_trans; [exact H32|]. eapply keeps_weaken; [by apply keeps_grown, grown_same|]. by intros ? ? [].
Qed.
End holes.

(** ** Opening a store *)

Definition sizes_ok (l : list Z) : Prop := Forall (fun cs => 0 < cs < 2 ^ 32) l.

(** What opening keeps. *)
Record opening (d : Disk MetaKV) (s' : ChunkMetaStore) : Prop := {
  op_inv : Inv s' ∅;
  op_kv : ms_kv s' = d_kv d;
  op_grown : grown d (ms_disk s')
}.

Lemma opening_fields d s' s2 :
  opening d s' -> ms_disk s2 = ms_disk s' -> ms_allocateState s2 = ms_allocateState s' -> opening d s2.
Proof. intros [? ? ?] E1 E2. split; [by apply (Inv_same s'); rewrite ?E1|by rewrite E1..]. Qed.

Lemma opening_disk d s' d' : opening d s' -> d_same (ms_disk s') d' -> opening d (set_ms_disk d' s').
Proof.
  intros [? ? ?] Hd. split; [by apply Inv_disk|cbn; destruct Hd as [-> _]; done|].
  eapply grown_trans; [done|by apply grown_same].
Qed.

Lemma opening_createAllocateState d s' cs :
  opening d s' -> 0 < cs < 2 ^ 32 -> runs (createAllocateState cs) s' (fun o s2 => o = Ok tt /\ opening d s2).
Proof.
  intros [HI Ekv Hg] Hcs. unfold createAllocateState. mstep. split; [done|].
  destruct (ms_allocateState s' !! cs) eqn:E; [by split|]. split; [|done|done].
  destruct HI as [H1 H2 H3]. split; cbn; [done|..].
  - intros c st. destruct (decide (c = cs)) as [->|]; [|rewrite lookup_insert_ne by done; apply H2].
    rewrite lookup_insert_eq. intros [= <-]. rewrite (H3 _ E). split; cbn; done.
  - intros c. destruct (decide (c = cs)) as [->|]; [by rewrite lookup_insert_eq|rewrite lookup_insert_ne by done; apply H3].
Qed.

Lemma checkSentinel_ok d s' f : opening d s' -> runs (checkSentinel f) s' (fun _ s2 => opening d s2).
Proof.
  intros H. unfold checkSentinel. mstep. apply runs_zoom, runs_kv_get; intros; msteps; by apply opening_disk.
Qed.

Lemma load_uncommitted_ok d s' : opening d s' -> runs load_uncommitted s' (fun _ s2 => opening d s2).
Proof.
  intros H. unfold load_uncommitted, iterateKeys. do 6 mstep. apply runs_zoom, runs_next_read. intros fault d' Hd. do 4 mstep.
  set (s1 := set_ms_disk d' _). assert (opening d s1) as H1 by (apply opening_disk; [by eapply opening_fields|done]). clearbody s1.
  mstep. apply (runs_for_each (fun _ s2 => opening d s2)); [done| |].
  - intros id l s2 H2. mstep. by eapply opening_fields.
  - intros s2 H2. msteps; done.
Qed.

Lemma meta_load_ok pc d :
  kv_ok (d_kv d) -> sizes_ok (pc_chunk_size_list pc) ->
  runs (meta_load pc) (ChunkMetaStore_new d) (fun _ s' => opening d s').
Proof.
  intros Hok Hsz. assert (opening d (ChunkMetaStore_new d)) as H0.
  { split; [|done|apply grown_same, d_same_refl]. split; cbn; [done|by intros cs st; rewrite lookup_empty|].
    intros cs _. apply flight_empty. }
  unfold meta_load. do 4 mstep. apply runs_zoom, runs_next_read. intros fault d1 Hd1. do 3 mstep;
    [mstep; apply opening_disk; [by eapply opening_fields|done]|]. do 5 mstep.
  set (s1 := set_ms_physicalFileCount _ _).
  assert (opening d s1) as H1 by (eapply opening_fields; [apply (opening_disk d _ d1 (opening_fields d _ _ H0 eq_refl eq_refl) Hd1)|done|done]).
  clearbody s1. clear H0 Hd1.
  assert (runs (when (pc_has_sentinel pc) (checkSentinel kv_minKey ;; checkSentinel kv_maxKey)) s1 (fun _ s2 => opening d s2)) as Hs.
  { mstep; [|done]. mstep. eapply runs_mono; [by apply checkSentinel_ok|]. intros [] ? ?; cbv beta iota delta [andThen]; try done.
    by apply checkSentinel_ok. }
  eapply runs_mono; [exact Hs|]. clear Hs H1 s1. intros [[]|c| |] s1 H1; cbv beta iota delta [andThen]; [|done..].
  mstep. apply runs_getSize; intros * Hd; mstep; [|by apply opening_disk]. do 3 mstep. mstep.
  set (s2 := set_ms_createdSize _ _).
  assert (opening d s2) as H2 by (eapply opening_fields; [apply (opening_disk d s1 _ H1 Hd)|done|done]). clearbody s2. clear dependent s1.
  apply runs_getSize; intros * Hd; mstep; [|by apply opening_disk]. do 4 mstep.
  set (s3 := set_ms_removedSize _ _).
  assert (opening d s3) as H3 by (eapply opening_fields; [apply (opening_disk d s2 _ H2 Hd)|done|done]). clearbody s3. clear dependent s2.
  eapply runs_mono; [by apply load_uncommitted_ok|]. intros [[]|c| |] s4 H4; cbv beta iota delta [andThen]; [|done..].
  apply (runs_for_each (fun l s5 => sizes_ok l /\ opening d s5)); [done| |by intros ? [_ ?]].
  intros cs l s5 [Hl H5]. inversion Hl; subst. eapply runs_mono; [by apply opening_createAllocateState|].
  by intros o s6 [-> ?].
Qed.
