(* ===== verification/MetaSystem.v ===== *)
(** * Interleavings of the metadata store

    The critical sections of [ChunkMetaStore] as events of a system: threads
    that create, remove and update chunks, the jobs of the thread pool, the
    worker that punches holes, writes of data, failures of the device and
    restarts, in any order the locks allow. *)

From stdpp Require Import base gmap list sorting.
From Stdlib Require Import ZArith Lia.
From S2P Require Import Prelude StatusCode Bytes MgmtdTypes StorageTypes ChunkFiles ChunkMetaStore MetaKeys MetaSpace MetaSteps MetaCreate MetaTheorems.

Record MetaSys := mkMetaSys { sys_store : ChunkMetaStore; sys_flight : gmap Z Flight }.

Inductive MetaEvent :=
| EvLoad (cs : Z)
| EvEnter (cs : Z)
| EvRecycleHere (cs : Z)
| EvTake (cs : Z) (allowToAllocate : bool)
| EvAllocateHere (cs : Z)
| EvCommit (cs : Z) (n : nat) (id : ChunkId) (meta : ChunkMetadata)
| EvAllocate (cs : Z)
| EvAllocatePublish (cs : Z)
| EvRecycle (cs : Z)
| EvRecyclePublish (cs : Z)
| EvSet (id : ChunkId) (meta : ChunkMetadata)
| EvRemove (id : ChunkId) (meta : ChunkMetadata)
| EvPunch (cs expirationUs : Z)
| EvWrite (id : ChunkId) (offset : Z) (data : bytes)
| EvDevice (now : Z) (rfaults wfaults : list (option nat))
| EvAddChunkSize (sizeList : list Z)
| EvRestart.

Definition isLoaded (cs : Z) (s : ChunkMetaStore) : bool :=
  match ms_allocateState s !! cs with Some st => as_loaded st | None => false end.
Definition isReadable (d : Disk MetaKV) : bool := match d_rfaults d with Some _ :: _ => false | _ => true end.
Definition allocateFree (cs : Z) (fl : gmap Z Flight) : bool := match fl_alloc (flight fl cs) with None => true | Some _ => false end.
Definition recycleFree (cs : Z) (fl : gmap Z Flight) : bool := match fl_recycled (flight fl cs) with [] => true | _ => false end.
(** The argument is where the chunk is stored. *)
Definition isPlaced (s : ChunkMetaStore) (id : ChunkId) (meta : ChunkMetadata) : bool :=
  match kv_metadata (ms_kv s) !! id with
  | Some m => bool_decide (cm_innerFileId meta = cm_innerFileId m) && (cm_innerOffset meta =? cm_innerOffset m)
  | None => false
  end.

Definition guarded (b : bool) (sys : MetaSys) : option MetaSys := if b then Some sys else None.

(** [ChunkFileView::write] inside the space of a chunk. *)
Definition write_data (m : ChunkMetadata) (offset : Z) (data : bytes) (s : ChunkMetaStore) : ChunkMetaStore :=
  set_ms_disk (update_file (cm_innerFileId m) (file_write (offset + cm_innerOffset m) data) (ms_disk s)) s.

Lemma kv_ok_empty : kv_ok MetaKV_empty.
Proof.
  split; [| |done]; intros w; destruct w; cbn; try set_solver; intros *; try (intros *); by intros (? & ? & _).
Qed.

Section system.
Context (config : MetaConfig) (pc : PhysicalConfig).

(** The state after an event; [None]: the event cannot happen. *)
Definition meta_event (e : MetaEvent) (sys : MetaSys) : option MetaSys :=
  let s := sys_store sys in
  let fl := sys_flight sys in
  match e with
  | EvLoad cs => Some (mkMetaSys (loadAllocateState config cs s).2 fl)
  | EvEnter cs => guarded (isLoaded cs s) (mkMetaSys (create_enter config cs s).2 fl)
  | EvRecycleHere cs =>
      guarded (isLoaded cs s && recycleFree cs fl) (mkMetaSys (create_recycle config cs s).2 fl)
  | EvTake cs allow =>
      let r := create_take config cs allow s in
      guarded (isLoaded cs s) (mkMetaSys r.2 (taken_flight cs r.1 fl))
  | EvAllocateHere cs =>
      let r := create_allocate config cs s in
      guarded (isLoaded cs s && allocateFree cs fl)
        (mkMetaSys r.2 (taken_flight cs (omap_outcome Some r.1) fl))
  | EvCommit cs n id meta =>
      t ← fl_taken (flight fl cs) !! n;
      guarded (isLoaded cs s)
        (mkMetaSys (create_commit id cs meta t s).2 (fl_upd cs (fun f => set_taken (delete n (fl_taken f)) f) fl))
  | EvAllocate cs =>
      let r := allocate_commit config cs s in
      guarded (isLoaded cs s && allocateFree cs fl)
        (match r.1 with
         | Ok a => mkMetaSys r.2 (fl_upd cs (set_alloc (Some a)) fl)
         | _ => mkMetaSys (modState cs (set_as_allocating false) r.2).2 fl
         end)
  | EvAllocatePublish cs =>
      a ← fl_alloc (flight fl cs);
      guarded (isLoaded cs s)
        (mkMetaSys ((allocate_publish cs a ;; modState cs (set_as_allocating false)) s).2 (fl_upd cs (set_alloc None) fl))
  | EvRecycle cs =>
      let r := recycle_commit config cs s in
      guarded (isLoaded cs s && recycleFree cs fl)
        (match r.1 with
         | Ok (Some chunks) => mkMetaSys r.2 (fl_upd cs (set_recycled chunks) fl)
         | _ => mkMetaSys (modState cs (set_as_recycling false) r.2).2 fl
         end)
  | EvRecyclePublish cs =>
      guarded (isLoaded cs s)
        (mkMetaSys ((recycle_publish cs (fl_recycled (flight fl cs)) ;; modState cs (set_as_recycling false)) s).2
           (fl_upd cs (set_recycled []) fl))
  | EvSet id meta => guarded (isPlaced s id meta) (mkMetaSys (meta_set id meta s).2 fl)
  | EvRemove id meta => guarded (isPlaced s id meta) (mkMetaSys (meta_remove config id meta s).2 fl)
  | EvPunch cs expirationUs =>
      guarded (isLoaded cs s && recycleFree cs fl) (mkMetaSys (punchHoleRemovedChunks config cs expirationUs s).2 fl)
  | EvWrite id offset data =>
      m ← kv_metadata (ms_kv s) !! id;
      guarded ((0 <=? offset) && (offset + Z.of_nat (length data) <=? cf_chunkSize (cm_innerFileId m)))
        (mkMetaSys (write_data m offset data s) fl)
  | EvDevice now rfaults wfaults =>
      Some (mkMetaSys (set_ms_disk (mkDisk (ms_kv s) (d_files (ms_disk s)) rfaults wfaults now) s) fl)
  | EvAddChunkSize sizeList =>
      guarded (forallb (fun cs => (0 <? cs) && (cs <? 2 ^ 32)) sizeList) (mkMetaSys (meta_addChunkSize sizeList s).2 fl)
  | EvRestart => Some (mkMetaSys (meta_load pc (ChunkMetaStore_new (ms_disk s))).2 ∅)
  end.

Fixpoint meta_run (es : list MetaEvent) (sys : MetaSys) : option MetaSys :=
  match es with [] => Some sys | e :: es' => meta_event e sys ≫= meta_run es' end.

(** The key-value store answers when [allocateChunks] asks for the size of a
    file; all other reads and all writes may fail. *)
Definition size_answered (e : MetaEvent) (sys : MetaSys) : bool :=
  match e with EvAllocateHere _ | EvAllocate _ => isReadable (ms_disk (sys_store sys)) | _ => true end.
Fixpoint sizes_answered (es : list MetaEvent) (sys : MetaSys) : bool :=
  match es with
  | [] => true
  | e :: es' => size_answered e sys && match meta_event e sys with Some sys' => sizes_answered es' sys' | None => true end
  end.

(** A new target: the key-value store is empty before [create]. *)
Definition meta_initial (files : gmap ChunkFileId FileData) : MetaSys :=
  mkMetaSys (meta_create pc (ChunkMetaStore_new (mkDisk MetaKV_empty files [] [] 0))).2 ∅.

Hypothesis Hsize : 0 < mc_allocate_size config < 2 ^ 63.
Hypothesis Hpc : sizes_ok (pc_chunk_size_list pc).

Definition SysInv (sys : MetaSys) : Prop := Inv (sys_store sys) (sys_flight sys).

Lemma isLoaded_spec cs s : isLoaded cs s = true -> loaded cs s.
Proof. unfold isLoaded, loaded. destruct (_ !! _); [|done]. eauto. Qed.

Lemma isReadable_spec d : isReadable d = true -> readable d.
Proof. unfold isReadable, readable. by destruct (d_rfaults d) as [|[] ?]. Qed.

Lemma allocateFree_spec cs fl : allocateFree cs fl = true -> fl_alloc (flight fl cs) = None.
Proof. unfold allocateFree. by destruct (fl_alloc _). Qed.

Lemma recycleFree_spec cs fl : recycleFree cs fl = true -> fl_recycled (flight fl cs) = [].
Proof. unfold recycleFree. by destruct (fl_recycled _). Qed.

Lemma isPlaced_spec s id meta :
  isPlaced s id meta = true -> exists m0, kv_metadata (ms_kv s) !! id = Some m0 /\ same_place m0 meta.
Proof.
  unfold isPlaced. destruct (_ !! _) as [m0|]; [|done]. intros [H1%bool_decide_eq_true H2%Z.eqb_eq]%andb_true_iff. by exists m0.
Qed.

Lemma guarded_Some b sys sys' : guarded b sys = Some sys' -> b = true /\ sys' = sys.
Proof. destruct b; [|done]. by intros [= ->]. Qed.

Lemma runs_snd {A} (m : M ChunkMetaStore A) s (Q : outcome A -> ChunkMetaStore -> Prop) : runs m s Q -> Q (m s).1 (m s).2.
Proof. done. Qed.

Lemma addChunkSize_ok sizeList fl s :
  sizes_ok sizeList -> Inv s fl ->
  runs (meta_addChunkSize sizeList) s (fun _ s' => Inv s' fl /\ grown (ms_disk s) (ms_disk s')
    /\ kv_metadata (ms_kv s') = kv_metadata (ms_kv s)).
Proof.
  intros Hl HI. apply (runs_for_each (fun l s' => sizes_ok l /\ Inv s' fl /\ grown (ms_disk s) (ms_disk s')
    /\ kv_metadata (ms_kv s') = kv_metadata (ms_kv s))); [|clear Hl HI|by intros s' (_ & ? & ? & ?)].
  { split_and!; [done|done|apply grown_same, d_same_refl|done]. }
  intros cs l s1 (Hl & HI & Hg & HM). inversion Hl as [|? ? Hcs Hl']; subst. mstep. unfold put_version.
  apply runs_commit; intros d' Hd; mstep.
  - destruct (Inv_commit_same [put_number KEY_VERSION cs kTargetVersion] s1 d' fl HI) as [HI2 Hq2]; [by repeat split|exact Hd|].
    unfold createAllocateState. mstep. destruct (ms_allocateState _ !! cs) eqn:E; cbn.
    + split_and!; [done|done|eapply grown_trans; [done|apply Hq2]|rewrite <-HM; apply Hq2].
    + split_and!; [done| |eapply grown_trans; [done|apply Hq2]|rewrite <-HM; apply Hq2].
      destruct HI2 as [H1 H2 H3]. split; cbn; [done|..].
      * intros c st. destruct (decide (c = cs)) as [->|]; [|rewrite lookup_insert_ne by done; apply H2].
        rewrite lookup_insert_eq. intros [= <-]. rewrite (H3 _ E). split; cbn; done.
      * intros c. destruct (decide (c = cs)) as [->|]; [by rewrite lookup_insert_eq|rewrite lookup_insert_ne by done; apply H3].
  - split_and!; [by apply Inv_disk|eapply grown_trans; [done|by apply grown_same]|cbn; destruct Hd as [-> _]; done].
Qed.

(** The bytes an event may change. *)
Definition event_hole (e : MetaEvent) (sys : MetaSys) : ChunkFileId -> Z -> Prop :=
  match e with
  | EvRemove id meta => hole_at (cm_innerFileId meta) (cm_innerOffset meta)
  | EvPunch cs _ => removed_hole (ms_kv (sys_store sys)) cs
  | EvWrite id offset data => fun f i =>
      exists m, kv_metadata (ms_kv (sys_store sys)) !! id = Some m /\ hole_at (cm_innerFileId m) (cm_innerOffset m) f i
  | _ => no_hole
  end.

Lemma keeps_write m offset data s :
  0 <= offset -> offset + Z.of_nat (length data) <= cf_chunkSize (cm_innerFileId m) ->
  keeps_but (hole_at (cm_innerFileId m) (cm_innerOffset m)) (ms_disk s) (ms_disk (write_data m offset data s)).
Proof.
  intros H1 H2. unfold write_data. cbn [ms_disk set_ms_disk].
  split; intros f; [intros i Hi|]; rewrite disk_file_update; case_bool_decide as E; try done; subst f.
  - rewrite file_get_write. case_bool_decide; [|done]. exfalso. apply Hi. split; [done|lia].
  - destruct data; cbn; lia.
Qed.

Lemma delete_middle {A} (l : list A) n x : l !! n = Some x -> l ≡ₚ x :: delete n l.
Proof. intros H. by apply delete_Permutation. Qed.

Lemma meta_event_ok e sys sys' :
  SysInv sys -> size_answered e sys = true -> meta_event e sys = Some sys' ->
  SysInv sys' /\ keeps_but (event_hole e sys) (ms_disk (sys_store sys)) (ms_disk (sys_store sys')).
Proof.
  destruct sys as [s fl]. unfold SysInv. cbn [sys_store sys_flight]. intros HI Hsa He.
  assert (forall s', grown (ms_disk s) (ms_disk s') -> keeps_but no_hole (ms_disk s) (ms_disk s')) as Hg
    by (intros; by apply keeps_grown).
  destruct e; cbn [meta_event event_hole size_answered sys_store sys_flight] in *.
  - simplify_eq. destruct (runs_snd _ _ _ (loadAllocateState_ok config cs fl s HI)) as (? & Hq & _). split; [done|]. apply Hg, Hq.
  - apply guarded_Some in He as [Hl%isLoaded_spec ->]. destruct (runs_snd _ _ _ (create_enter_ok config cs fl s HI Hl)) as [[? Hq ?] _].
    split; [done|]. apply Hg, Hq.
  - apply guarded_Some in He as [[Hl%isLoaded_spec Hr%recycleFree_spec]%andb_true_iff ->].
    destruct (runs_snd _ _ _ (create_recycle_ok config cs fl s HI Hl Hr)) as [? Hq ?]. split; [done|]. apply Hg, Hq.
  - apply guarded_Some in He as [Hl%isLoaded_spec ->].
    destruct (runs_snd _ _ _ (create_take_ok config cs fl s allowToAllocate HI Hl)) as [[? Hq ?] _]. split; [done|]. apply Hg, Hq.
  - apply guarded_Some in He as [[Hl%isLoaded_spec Ha%allocateFree_spec]%andb_true_iff ->]. apply isReadable_spec in Hsa as Hr.
    destruct (runs_snd _ _ _ (create_allocate_ok config Hsize cs fl s HI Hl Ha Hr)) as [? Hq ?]. split; [done|]. apply Hg, Hq.
  - destruct (fl_taken (flight fl cs) !! n) as [t|] eqn:Et; [|done]. cbn [mbind option_bind] in He.
    apply guarded_Some in He as [Hl%isLoaded_spec ->].
    destruct (runs_snd _ _ _ (create_commit_ok config Hsize id cs meta t fl s _ HI Hl (delete_middle _ _ _ Et))) as (? & _ & Hf & _).
    split; [done|]. apply Hg, Hf.
  - apply guarded_Some in He as [[Hl%isLoaded_spec Ha%allocateFree_spec]%andb_true_iff ->]. apply isReadable_spec in Hsa as Hr.
    destruct (runs_snd _ _ _ (allocate_commit_ok config Hsize cs fl s HI Hl Ha Hr)) as (Hq & Hl' & HI' & _).
    destruct (allocate_commit config cs s) as [[a|c| |] s1]; cbn [fst snd] in *; (split; [|apply Hg, Hq]); [done|..];
      (apply Inv_upd_other; [done|by apply loaded_Some|done]).
  - destruct (fl_alloc (flight fl cs)) as [a|] eqn:Ea; [|done]. cbn [mbind option_bind] in He.
    apply guarded_Some in He as [Hl%isLoaded_spec ->].
    assert (runs (allocate_publish cs a ;; modState cs (set_as_allocating false)) s
      (fun _ s' => steady cs s s' (fl_upd cs (set_alloc None) fl))) as H.
    { mstep. eapply runs_mono; [by apply allocate_publish_ok|]. intros o s1 (-> & H1 & _). mstep. apply runs_modState. by apply steady_upd. }
    destruct H as [? Hq ?]. split; [done|]. apply Hg, Hq.
  - apply guarded_Some in He as [[Hl%isLoaded_spec Hr%recycleFree_spec]%andb_true_iff ->].
    destruct (runs_snd _ _ _ (recycle_commit_ok config cs fl s HI Hl Hr)) as (Hq & Hl' & HI').
    destruct (recycle_commit config cs s) as [[[chunks|]|c| |] s1]; cbn [fst snd] in *; (split; [|apply Hg, Hq]); [done|..];
      (apply Inv_upd_other; [done|by apply loaded_Some|done]).
  - apply guarded_Some in He as [Hl%isLoaded_spec ->].
    assert (runs (recycle_publish cs (fl_recycled (flight fl cs)) ;; modState cs (set_as_recycling false)) s
      (fun _ s' => steady cs s s' (fl_upd cs (set_recycled []) fl))) as H.
    { mstep. eapply runs_mono; [by apply recycle_publish_ok|]. intros o s1 (-> & ? & ? & ?). mstep. apply runs_modState.
      apply steady_upd; [by split|done]. }
    destruct H as [? Hq ?]. split; [done|]. apply Hg, Hq.
  - apply guarded_Some in He as [(m0 & Hm & Hp)%isPlaced_spec ->].
    destruct (runs_snd _ _ _ (meta_set_ok id m0 meta fl s HI Hm Hp)) as (d' & E & ? & ? & _). split; [done|]. cbn. rewrite E. by apply Hg; rewrite ?E.
  - apply guarded_Some in He as [(m0 & Hm & Hp)%isPlaced_spec ->].
    destruct (runs_snd _ _ _ (meta_remove_ok config id m0 meta fl s HI Hm Hp)) as [? ? _ _ _]. done.
  - apply guarded_Some in He as [[Hl%isLoaded_spec _]%andb_true_iff ->].
    destruct (runs_snd _ _ _ (punchHoleRemovedChunks_ok config cs expirationUs fl s HI Hl)) as [? ? _ _ _ _]. done.
  - destruct (kv_metadata (ms_kv s) !! id) as [m|] eqn:Em; [|done]. cbn [mbind option_bind] in He.
    apply guarded_Some in He as [[H1%Z.leb_le H2%Z.leb_le]%andb_true_iff ->]. split; [by apply (Inv_same s)|].
    eapply keeps_weaken; [by apply keeps_write|]. intros f i Hi. by exists m.
  - simplify_eq. split; [by apply (Inv_same s)|]. by split.
  - apply guarded_Some in He as [Hf ->].
    assert (sizes_ok sizeList) as Hs.
    { apply Forall_forall. intros cs Hcs%list_elem_of_In. apply (proj1 (forallb_forall _ _) Hf), andb_true_iff in Hcs as [?%Z.ltb_lt ?%Z.ltb_lt].
      done. }
    destruct (runs_snd _ _ _ (addChunkSize_ok sizeList fl s Hs HI)) as (? & ? & _). split; [done|]. by apply Hg.
  - simplify_eq. destruct (runs_snd _ _ _ (meta_load_ok pc (ms_disk s) (inv_kv _ _ HI) Hpc)) as [? _ ?]. split; [done|]. by apply Hg.
Qed.

Lemma commit_keeps_inv batch s fl :
  (forall kv, same_space kv (apply_batch batch kv)) -> Inv s fl ->
  runs (onDisk (kv_commit batch)) s (fun _ s' => Inv s' fl /\ kv_metadata (ms_kv s') = kv_metadata (ms_kv s)).
Proof.
  intros Hsp HI. apply runs_commit; intros d' Hd.
  - destruct (Inv_commit_same batch s d' fl HI (Hsp _) Hd) as [? Hq]. split; [done|apply Hq].
  - split; [by apply Inv_disk|cbn; by rewrite (proj1 Hd)].
Qed.

(** A target created on an empty key-value store. *)
Lemma meta_create_ok d :
  d_kv d = MetaKV_empty -> runs (meta_create pc) (ChunkMetaStore_new d) (fun _ s => Inv s ∅ /\ kv_metadata (ms_kv s) = ∅).
Proof.
  intros Ed. unfold meta_create. mstep.
  eapply runs_mono; [apply meta_load_ok; [rewrite Ed; apply kv_ok_empty|exact Hpc]|].
  intros o s1 [HI1 Ekv _]. assert (Inv s1 ∅ /\ kv_metadata (ms_kv s1) = ∅) as H1 by (by rewrite Ekv, Ed).
  destruct o as [[]|c| |]; cbv beta iota delta [andThen]; [|done..]. mstep.
  apply (runs_for_each (fun _ s => Inv s ∅ /\ kv_metadata (ms_kv s) = ∅)); [done|..].
  - intros cs l s2 [HI2 Em2]. eapply runs_mono; [by apply commit_keeps_inv|]. rewrite Em2. by intros [] ? ?.
  - intros s2 [HI2 Em2]. mstep. mstep; [|done]. unfold put_sentinels. mstep. mstep. mstep. mstep.
    eapply runs_mono; [by apply commit_keeps_inv|]. rewrite Em2. intros [] s3 [HI3 Em3]; cbv beta iota delta [andThen]; try done.
    eapply runs_mono; [by apply commit_keeps_inv|]. rewrite Em3. by intros ? ? [? ?].
Qed.

Lemma meta_initial_ok files : SysInv (meta_initial files).
Proof. by apply (runs_snd _ _ _ (meta_create_ok (mkDisk MetaKV_empty files [] [] 0) eq_refl)). Qed.

Lemma meta_run_ok es sys sys' : SysInv sys -> sizes_answered es sys = true -> meta_run es sys = Some sys' -> SysInv sys'.
Proof.
  revert sys. induction es as [|e es IH]; intros sys HI; cbn [meta_run sizes_answered]; [by intros _ [= <-]|].
  intros [Ha Hs]%andb_true_iff. destruct (meta_event e sys) as [sys1|] eqn:He; [|done]. cbn. apply IH; [|done].
  by destruct (meta_event_ok e sys sys1 HI Ha He).
Qed.
End system.

(** ** Properties of all runs *)

(** The byte [i] of file [f] is in the space of a chunk. *)
Definition in_chunk (m : ChunkMetadata) (f : ChunkFileId) (i : Z) : Prop := hole_at (cm_innerFileId m) (cm_innerOffset m) f i.

Lemma in_chunk_hole m f i :
  in_chunk m f i <-> hole_at (mkChunkFileId (cf_chunkSize (cm_innerFileId m)) (pos_fileIdx (cm_position m))) (pos_offset (cm_position m)) f i.
Proof. unfold in_chunk, cm_position. by destruct (cm_innerFileId m). Qed.

Lemma live_holds kv id m : kv_metadata kv !! id = Some m -> holds kv (OLive id) (cf_chunkSize (cm_innerFileId m)) (cm_position m).
Proof. intros H. by exists m. Qed.

(** The byte [i] of file [f] is in the space at position [p] of the files for
    chunks of size [cs]. *)
Definition at_position (cs : Z) (p : ChunkPosition) (f : ChunkFileId) (i : Z) : Prop :=
  hole_at (mkChunkFileId cs (pos_fileIdx p)) (pos_offset p) f i.

(** The positions for new chunks of a size: listed in memory, taken by a thread
    that creates a chunk, or allocated or recycled by a job and not yet
    listed. *)
Definition open_positions (sys : MetaSys) (cs : Z) (st : AllocateState) : list ChunkPosition :=
  created_list st (flight (sys_flight sys) cs) ++ recycled_list st (flight (sys_flight sys) cs).

Lemma open_holds sys cs st p :
  SysInv sys -> ms_allocateState (sys_store sys) !! cs = Some st -> as_loaded st = true -> p ∈ open_positions sys cs st ->
  exists w, (w = OCreated \/ w = ORecycled) /\ holds (ms_kv (sys_store sys)) w cs p.
Proof.
  intros [_ Hsz _] Hst Hl [Hp|Hp]%elem_of_app; destruct (Hsz _ _ Hst) as [_ G2 G3 _ _ _];
    [exists OCreated|exists ORecycled]; split; auto; [by apply G2|by apply G3].
Qed.

(** C30: In every run of the metadata store, with threads that interleave,
    failing writes, failing reads except that of the size of a file when space
    is allocated, and restarts: no two chunks share a byte; the positions for
    new chunks of a size, free, taken by a thread or still in a job, are
    pairwise different and share no byte with each other or with a chunk. *)
Theorem chunk_space_exclusive (config : MetaConfig) (pc : PhysicalConfig) files es sys :
  0 < mc_allocate_size config < 2 ^ 63 -> sizes_ok (pc_chunk_size_list pc) ->
  sizes_answered config pc es (meta_initial pc files) = true -> meta_run config pc es (meta_initial pc files) = Some sys ->
  (forall id m id' m' f i,
     kv_metadata (ms_kv (sys_store sys)) !! id = Some m -> kv_metadata (ms_kv (sys_store sys)) !! id' = Some m' ->
     in_chunk m f i -> in_chunk m' f i -> id = id')
  /\ (forall cs st, ms_allocateState (sys_store sys) !! cs = Some st -> as_loaded st = true ->
     NoDup (open_positions sys cs st)
     /\ (forall p q f i, p ∈ open_positions sys cs st -> q ∈ open_positions sys cs st ->
           at_position cs p f i -> at_position cs q f i -> p = q)
     /\ (forall p id m f i, p ∈ open_positions sys cs st -> kv_metadata (ms_kv (sys_store sys)) !! id = Some m ->
           in_chunk m f i -> ~ at_position cs p f i)).
Proof.
  intros Hsize Hpc Ha Hrun. pose proof (meta_run_ok config pc Hsize Hpc es _ _ (meta_initial_ok pc Hpc files) Ha Hrun) as HI.
  pose proof HI as [Hok Hsz _]. split.
  - intros id m id' m' f i Hm Hm' Hi%in_chunk_hole Hi'%in_chunk_hole.
    destruct (holds_disjoint _ _ _ _ _ _ _ _ _ Hok (live_holds _ _ _ Hm) (live_holds _ _ _ Hm') Hi Hi') as ([= <-] & _ & _). done.
  - intros cs st Hst Hl. split_and!.
    + destruct (Hsz _ _ Hst) as [_ G2 G3 _ _ _]. destruct (G2 Hl) as [N2 P2], (G3 Hl) as [N3 P3]. apply NoDup_app.
      split_and!; [done| |done]. intros p Hp2%P2 Hp3%P3. by assert (OCreated = ORecycled) by (by eapply (ok_exclusive _ Hok)).
    + intros p q f i Hp Hq Hi Hi'. destruct (open_holds _ _ _ _ HI Hst Hl Hp) as (w & _ & Hw), (open_holds _ _ _ _ HI Hst Hl Hq) as (w' & _ & Hw').
      by destruct (holds_disjoint _ _ _ _ _ _ _ _ _ Hok Hw Hw' Hi Hi') as (_ & _ & ->).
    + intros p id m f i Hp Hm Hi%in_chunk_hole Hi'. destruct (open_holds _ _ _ _ HI Hst Hl Hp) as (w & Hne & Hw).
      destruct (holds_disjoint _ _ _ _ _ _ _ _ _ Hok (live_holds _ _ _ Hm) Hw Hi Hi') as (<- & _). by destruct Hne.
Qed.

(** An event of the store on another chunk. *)
Definition event_target (e : MetaEvent) : option ChunkId :=
  match e with EvWrite id _ _ | EvRemove id _ => Some id | _ => None end.

(** C31: In every run of the metadata store in which no read of the size of a
    file fails while space is allocated, a step of the store, of its jobs and of
    the worker that punches holes, a write to another chunk, a failure or a
    restart changes no byte of a chunk: these change only by writes to it and by
    its own removal. *)
Theorem chunk_bytes_isolated (config : MetaConfig) (pc : PhysicalConfig) files es e sys sys' id m f i :
  0 < mc_allocate_size config < 2 ^ 63 -> sizes_ok (pc_chunk_size_list pc) ->
  sizes_answered config pc es (meta_initial pc files) = true -> meta_run config pc es (meta_initial pc files) = Some sys ->
  size_answered e sys = true -> meta_event config pc e sys = Some sys' -> event_target e <> Some id ->
  kv_metadata (ms_kv (sys_store sys)) !! id = Some m -> in_chunk m f i ->
  file_get (disk_file (ms_disk (sys_store sys')) f) i = file_get (disk_file (ms_disk (sys_store sys)) f) i.
Proof.
  intros Hsize Hpc Ha Hrun Hae He Ht Hm Hi. pose proof (meta_run_ok config pc Hsize Hpc es _ _ (meta_initial_ok pc Hpc files) Ha Hrun) as HI.
  destruct (meta_event_ok config pc Hsize Hpc e sys sys' HI Hae He) as [_ Hk]. apply Hk. destruct HI as [Hok _ _].
  apply in_chunk_hole in Hi. pose proof (live_holds _ _ _ Hm) as Hlive.
  destruct e; cbn [event_hole event_target] in *; try (by intros []); intros Hh.
  - cbn [meta_event] in He. apply guarded_Some in He as [(m0 & Hm0 & [Hp1 Hp2])%isPlaced_spec _].
    rewrite Hp1, Hp2 in Hh. apply in_chunk_hole in Hh.
    destruct (holds_disjoint _ _ _ _ _ _ _ _ _ Hok Hlive (live_holds _ _ _ Hm0) Hi Hh) as ([= <-] & _). done.
  - destruct Hh as (us & p & Hin & Hh). destruct (holds_disjoint _ _ (ORemoved us) _ _ _ _ _ _ Hok Hlive Hin Hi Hh) as [? _]. done.
  - destruct Hh as (m0 & Hm0 & Hh). apply in_chunk_hole in Hh.
    destruct (holds_disjoint _ _ _ _ _ _ _ _ _ Hok Hlive (live_holds _ _ _ Hm0) Hi Hh) as ([= <-] & _). done.
Qed.

(** ** Sample runs *)

Definition sample_config : MetaConfig := mkMetaConfig 8192 2 4 1000 1000.
Definition sample_pc : PhysicalConfig := mkPhysicalConfig 7 1 [4096] false 1.
Definition sample_files : gmap ChunkFileId FileData := {[ mkChunkFileId 4096 0 := FileData_empty ]}.
Definition sample_meta : ChunkMetadata := set_cm_chunkState CHUNK_CLEAN ChunkMetadata_default.

(** Two chunks are created, one is written and one removed and its position
    recycled for a third; the second position is taken in between. *)
Definition sample_events : list MetaEvent :=
  [EvLoad 4096; EvEnter 4096; EvTake 4096 true; EvAllocateHere 4096; EvCommit 4096 0 [1] sample_meta;
   EvTake 4096 true; EvWrite [1] 10 [5; 6; 7]; EvCommit 4096 0 [2] sample_meta;
   EvDevice 50 [] []; EvRemove [1] (set_cm_innerFileId (mkChunkFileId 4096 0) sample_meta);
   EvDevice 2000 [] []; EvEnter 4096; EvRecycleHere 4096; EvTake 4096 false; EvCommit 4096 0 [3] sample_meta;
   EvWrite [3] 0 [9]].
Definition sample_sys : MetaSys :=
  default (meta_initial sample_pc sample_files) (meta_run sample_config sample_pc sample_events (meta_initial sample_pc sample_files)).

Lemma sample_run : meta_run sample_config sample_pc sample_events (meta_initial sample_pc sample_files) = Some sample_sys.
Proof. vm_compute. reflexivity. Qed.

Lemma sample_answered : sizes_answered sample_config sample_pc sample_events (meta_initial sample_pc sample_files) = true.
Proof. vm_compute. reflexivity. Qed.

Lemma sample_sizes : sizes_ok (pc_chunk_size_list sample_pc).
Proof. repeat constructor. Qed.

Lemma chunk_space_exclusive_witness :
  (cm_position <$> kv_metadata (ms_kv (sys_store sample_sys)) !! [2]) = Some (mkChunkPosition 0 4096)
  /\ (cm_position <$> kv_metadata (ms_kv (sys_store sample_sys)) !! [3]) = Some (mkChunkPosition 0 0)
  /\ (forall id m id' m' f i,
     kv_metadata (ms_kv (sys_store sample_sys)) !! id = Some m -> kv_metadata (ms_kv (sys_store sample_sys)) !! id' = Some m' ->
     in_chunk m f i -> in_chunk m' f i -> id = id').
Proof.
  split_and!; [vm_compute; reflexivity..|].
  refine (proj1 (chunk_space_exclusive sample_config sample_pc sample_files sample_events sample_sys _ sample_sizes sample_answered sample_run)).
  vm_compute. split; reflexivity.
Defined.

Definition sample_next : MetaSys :=
  default sample_sys (meta_event sample_config sample_pc (EvWrite [3] 4000 [8; 8]) sample_sys).

Lemma chunk_bytes_isolated_witness :
  file_get (disk_file (ms_disk (sys_store sample_next)) (mkChunkFileId 4096 0)) 4001 = 8
  /\ file_get (disk_file (ms_disk (sys_store sample_next)) (mkChunkFileId 4096 0)) 5000
     = file_get (disk_file (ms_disk (sys_store sample_sys)) (mkChunkFileId 4096 0)) 5000.
Proof.
  split; [vm_compute; reflexivity|].
  destruct (kv_metadata (ms_kv (sys_store sample_sys)) !! [2]) as [m|] eqn:Em; [|exfalso; vm_compute in Em; discriminate Em].
  refine (chunk_bytes_isolated sample_config sample_pc sample_files sample_events (EvWrite [3] 4000 [8; 8]) sample_sys sample_next
            [2] m (mkChunkFileId 4096 0) 5000 _ sample_sizes sample_answered sample_run eq_refl _ _ Em _).
  - vm_compute. split; reflexivity.
  - vm_compute. reflexivity.
  - discriminate.
  - vm_compute in Em. injection Em as <-. vm_compute. repeat split; discriminate.
Defined.

(** A read that fails in [allocateChunks] leaves size 0 for the file in memory
    ([emplace] comes before the read): after a restart, the next allocation
    hands out the position of a chunk that exists, and the two chunks share
    their bytes. *)
Definition overlap_store : ChunkMetaStore :=
  let create id s := (meta_createChunk sample_config id sample_meta 4096 true s).2 in
  let device rf s := set_ms_disk (mkDisk (ms_kv s) (d_files (ms_disk s)) rf [] 0) s in
  let s1 := create [2] (create [1] (sys_store (meta_initial sample_pc sample_files))) in
  let s2 := (meta_load sample_pc (ChunkMetaStore_new (ms_disk s1))).2 in
  let s3 := (loadAllocateState sample_config 4096 s2).2 in
  let s4 := create [3] (device [Some O] s3) in
  create [3] (device [] s4).

(** After a failed read of the size of a file, a later allocation takes the
    file as empty: two chunks get the same position. *)
Example failed_read_shares_position :
  cm_position <$> kv_metadata (ms_kv overlap_store) !! [1] = Some (mkChunkPosition 0 0)
  /\ cm_position <$> kv_metadata (ms_kv overlap_store) !! [3] = Some (mkChunkPosition 0 0).
Proof. vm_compute. split; reflexivity. Qed.
