(* ===== verification/ChunkReplica.v ===== *)
(** * Chunk store and chunk replica ([src/storage/store/Chunk{Store,Replica}.cc], [StorageTarget.cc], [src/storage/aio/BatchReadJob.cc])

    [ChunkStore] puts a cache of metadata before the metadata store;
    [ChunkReplica] updates, commits and reads the chunks of a target.  The
    result of a job is part of the state: the code fills it in before it
    returns an error. *)

From stdpp Require Import base gmap list.
From Stdlib Require Import ZArith Lia.
From S2P Require Import Prelude StatusCode Bytes MgmtdTypes StorageTypes ChunkFiles ChunkMetaStore.

(** ** Chunk store *)

(** [ChunkInfo]: the view is the file it is open on. *)
Record ChunkInfo := mkChunkInfo { info_meta : ChunkMetadata; info_view : ChunkFileId }.
Definition set_info_meta m i := mkChunkInfo m (info_view i).
Definition ChunkInfo_default : ChunkInfo := mkChunkInfo ChunkMetadata_default (mkChunkFileId 0 0).

Record ChunkStore := mkChunkStore { cst_meta : ChunkMetaStore; cst_map : gmap ChunkId ChunkInfo }.
Definition set_cst_meta m s := mkChunkStore m (cst_map s).
Definition set_cst_map m s := mkChunkStore (cst_meta s) m.

Inductive PointQueryStrategy := PQS_NONE | PQS_CLASSIC | PQS_MODERN.
#[export] Instance PointQueryStrategy_eq_dec : EqDecision PointQueryStrategy.
Proof. solve_decision. Defined.

(** [ChunkStore::Config] *)
Record StoreConfig := mkStoreConfig {
  sc_meta_store : MetaConfig;
  sc_preopen_chunk_size_list : list Z;
  sc_force_persist : bool;
  sc_point_query_strategy : PointQueryStrategy
}.

Definition onMeta {A} (m : M ChunkMetaStore A) : M ChunkStore A := zoom cst_meta set_cst_meta m.
Definition onFiles {A} (m : M (Disk MetaKV) A) : M ChunkStore A := onMeta (onDisk m).

Section store.
Context (config : StoreConfig).

Definition store_create (pc : PhysicalConfig) : M ChunkStore unit :=
  onFiles (fileStore_create (pc_physical_file_count pc) (pc_chunk_size_list pc)) ;;
  onMeta (meta_create pc).
Definition store_load (pc : PhysicalConfig) : M ChunkStore unit :=
  onFiles (fileStore_load (pc_physical_file_count pc) (sc_preopen_chunk_size_list config) (pc_chunk_size_list pc)) ;;
  onMeta (meta_load pc).
Definition store_addChunkSize (physicalFileCount : Z) (sizeList : list Z) : M ChunkStore unit :=
  onFiles (fileStore_create physicalFileCount sizeList) ;;
  onMeta (meta_addChunkSize sizeList).

Definition store_get (chunkId : ChunkId) : M ChunkStore ChunkInfo :=
  s ← getS;
  match cst_map s !! chunkId with
  | Some info => mret info
  | None =>
      meta ← onMeta (meta_get chunkId);
      view ← onFiles (file_open (cm_innerFileId meta));
      let info := mkChunkInfo meta view in
      modify (fun s => set_cst_map (<[chunkId := info]> (cst_map s)) s) ;;
      mret info
  end.

(** Returns the info with the position of the new chunk. *)
Definition store_createChunk (chunkId : ChunkId) (chunkSize : Z) (info : ChunkInfo) (allowToAllocate : bool)
    : M ChunkStore ChunkInfo :=
  meta ← onMeta (meta_createChunk (sc_meta_store config) chunkId (info_meta info) chunkSize allowToAllocate);
  view ← onFiles (file_open (cm_innerFileId meta));
  let info' := mkChunkInfo meta view in
  modify (fun s => set_cst_map (<[chunkId := info']> (cst_map s)) s) ;;
  mret info'.

Definition store_set (chunkId : ChunkId) (info : ChunkInfo) (persist : bool) : M ChunkStore unit :=
  when (persist || sc_force_persist config) (onMeta (meta_set chunkId (info_meta info))) ;;
  modify (fun s => set_cst_map (<[chunkId := info]> (cst_map s)) s).

Definition store_remove (chunkId : ChunkId) (info : ChunkInfo) : M ChunkStore unit :=
  err_if (negb (readyToRemove (info_meta info))) StorageCode_kChunkNotReadyToRemove ;;
  store_get chunkId ;;
  onMeta (meta_remove (sc_meta_store config) chunkId (info_meta info)) ;;
  modify (fun s => set_cst_map (delete chunkId (cst_map s)) s).

(** The loop of [queryChunks] over the entries of the iterator. *)
Fixpoint query_loop (range : ChunkIdRange) (entries : list (ChunkId * ChunkMetadata)) (chunkIds : list (ChunkId * ChunkMetadata))
    : list (ChunkId * ChunkMetadata) :=
  match entries with
  | [] => chunkIds
  | (chunkId, meta) :: entries' =>
      if Z.of_nat (length chunkIds) <? cr_maxNumChunkIdsToProcess range
      then if bool_decide (chunkId = cr_end range) then query_loop range entries' chunkIds
           else if bytes_ltb chunkId (cr_begin range) then chunkIds
           else query_loop range entries' (chunkIds ++ [(chunkId, meta)])
      else chunkIds
  end.
(** A failing iteration stops early and its status is checked at the end. *)
Definition store_queryChunks (range : ChunkIdRange) : M ChunkStore (list (ChunkId * ChunkMetadata)) :=
  fault ← onFiles next_read;
  s ← getS;
  err_if (bool_decide (is_Some fault)) kKVStoreGetError ;;
  mret (query_loop range (iterator_entries (d_kv (ms_disk (cst_meta s))) (cr_end range)) []).

Definition ChunkMeta_of (e : ChunkId * ChunkMetadata) : ChunkMeta :=
  mkChunkMeta e.1 (cm_updateVer e.2) (cm_commitVer e.2) (cm_chainVer e.2) (cm_chunkState e.2) (cm_checksum e.2) (cm_size e.2).
Definition store_getAllMetadata : M ChunkStore (list ChunkMeta) :=
  fault ← onFiles next_read;
  s ← getS;
  err_if (bool_decide (is_Some fault)) kKVStoreGetError ;;
  mret (ChunkMeta_of <$> iterator_entries (d_kv (ms_disk (cst_meta s))) []).

(** [StorageTarget::queryChunk] and [StorageTarget::queryChunks], of a target
    without chunk engine. *)
Definition target_queryChunk (chunkId : ChunkId) : M ChunkStore ChunkMetadata :=
  info ← store_get chunkId; mret (info_meta info).
Definition target_queryChunks (range : ChunkIdRange) : M ChunkStore (list (ChunkId * ChunkMetadata)) :=
  let strategy := sc_point_query_strategy config in
  if (bool_decide (strategy = PQS_CLASSIC) && bool_decide (nextChunkId (cr_begin range) = cr_end range))
     || (bool_decide (strategy = PQS_MODERN) && bool_decide (rangeEndForCurrentChunk (cr_begin range) = cr_end range))
  then
    r ← attempt (target_queryChunk (cr_begin range));
    match r with
    | inl meta => mret [(cr_begin range, meta)]
    | inr code => if code =? StorageCode_kChunkMetadataNotFound then mret [] else fail code
    end
  else store_queryChunks range.
End store.

(** ** Chunk replica *)

(** [UpdateJob]: the tag of the request is reduced to what is stored; [job_data]
    is the buffer [state.data] points to. *)
Record UpdateJob := mkUpdateJob {
  job_requestId : RequestId;
  job_clientUuid : Z;
  job_type : UpdateType;
  job_updateIO : UpdateIO;
  job_commitIO : CommitIO;
  job_options : UpdateOptions;
  job_data : bytes;
  job_allowToAllocate : bool
}.

(** The store and the result of the job. *)
Record JobState := mkJobState {
  js_store : ChunkStore;
  js_result : IOResult
}.

Definition set_js_store v r := mkJobState v (js_result r).
Definition set_js_result v r := mkJobState (js_store r) v.


Definition onStore {A} (m : M ChunkStore A) : M JobState A := zoom js_store set_js_store m.
Definition onResult (f : IOResult -> IOResult) : M JobState unit := modify (fun s => set_js_result (f (js_result s)) s).

(** [UpdateJob::commitChainVer] *)
Definition commitChainVer (job : UpdateJob) : ChainVer :=
  if uo_isSyncing (job_options job) then uo_commitChainVer (job_options job)
  else if bool_decide (job_type job = UT_COMMIT) then cio_commitChainVer (job_commitIO job)
  else vc_chainVer (gk_vChainId (uio_key (job_updateIO job))).

Definition job_now : M JobState UtcTime := gets (fun s => d_now (ms_disk (cst_meta (js_store s)))).

(** Bytes of a buffer; reading past its end is undefined. *)
Definition buffer_read (data : bytes) (length : Z) : M JobState bytes :=
  if Z.of_nat (base.length data) <? length then fatal else mret (take (Z.to_nat length) data).

Section replica.
Context (config : StoreConfig) `{Crc}.

(** [doRealWrite]: the bytes written and the metadata after the write. *)
Definition doRealWrite (info : ChunkInfo) (writeData : bytes) (writeOffset : Z) : M JobState (Z * ChunkInfo) :=
  let meta := info_meta info in
  w ← onStore (onFiles (view_write (info_view info) writeData writeOffset meta));
  mret (w, set_info_meta (set_cm_size (Z.max (cm_size meta) (u32 (writeOffset + w))) meta) info).

(** [updateChecksum]; a truncation or extension counts as an empty write at the
    end. *)
Definition checksum_io (meta : ChunkMetadata) (writeIO : UpdateIO) : UpdateIO :=
  if isTruncate writeIO || isExtend writeIO
  then set_uio_length 0 (set_uio_offset (cm_size meta)
         (set_uio_checksum (checksum_create (cm_checksumType meta) [] 0) writeIO))
  else writeIO.
Definition updateChecksum (info : ChunkInfo) (writeIO : UpdateIO) (chunkSizeBeforeWrite : Z) (isAppendWrite : bool)
    : M JobState ChunkInfo :=
  let meta := info_meta info in
  let chunkChecksum := cm_checksum meta in
  let combineChecksum := (0 <? chunkSizeBeforeWrite) && isAppendWrite in
  let io := checksum_io meta writeIO in
  let type := ci_type (uio_checksum io) in
  value ←
    (if bool_decide (type = CHECKSUM_NONE) || (cm_size meta =? 0) then mret 0
     else if (uio_offset io =? 0) && (uio_length io =? cm_size meta) then mret (ci_value (uio_checksum io))
     else if bool_decide (type = ci_type chunkChecksum) && combineChecksum then
       c ← lift (checksum_combine chunkChecksum (uio_checksum io) (uio_length io));
       mret (ci_value c)
     else
       prefix ← onStore (onFiles (view_checksum (info_view info) type (uio_offset io) 0 meta));
       let suffixStart := Z.min (u32 (uio_offset io + uio_length io)) (cm_size meta) in
       let suffixLength := u32 (cm_size meta - suffixStart) in
       suffix ← onStore (onFiles (view_checksum (info_view info) type suffixLength suffixStart meta));
       let c1 := match checksum_combine prefix (uio_checksum io) (uio_length io) with Ok c => c | _ => prefix end in
       let c2 := match checksum_combine c1 suffix suffixLength with Ok c => c | _ => c1 end in
       mret (ci_value c2));
  mret (set_info_meta (set_cm_checksumType type (set_cm_checksumValue value meta)) info).

(** The check of the versions, part 2 of [update]: the metadata for the write. *)
Definition update_versions (job : UpdateJob) (meta : ChunkMetadata) : M JobState ChunkMetadata :=
  let updateVer := uio_updateVer (job_updateIO job) in
  if uo_isSyncing (job_options job) then
    mret (set_cm_recycleState RECYCLE_NORMAL (set_cm_commitVer (u32 (updateVer - 1)) (set_cm_updateVer updateVer meta)))
  else if updateVer >? 0 then
    if updateVer <=? cm_commitVer meta then fail StorageCode_kChunkCommittedUpdate
    else if updateVer <=? cm_updateVer meta then fail StorageCode_kChunkStaleUpdate
    else if updateVer >? u32 (cm_updateVer meta + 1) then fail StorageCode_kChunkMissingUpdate
    else mret (set_cm_updateVer updateVer meta)
  else
    let meta' := set_cm_updateVer (u32 (cm_updateVer meta + 1)) meta in
    err_if (cm_updateVer meta' >? u32 (cm_commitVer meta' + 1)) StorageCode_kChunkAdvanceUpdate ;;
    mret meta'.

(** The fields both [update] and [commit] fill in. *)
Definition stamp (job : UpdateJob) (now : UtcTime) (meta : ChunkMetadata) : ChunkMetadata :=
  set_cm_timestamp now (set_cm_lastClientUuid (job_clientUuid job) (set_cm_lastRequestId (job_requestId job) meta)).

(** Part 3 of [update]: the change of the data.  The length is checked by
    [ChunkFileView::write], before it touches the buffer; zeros are as many as
    the chunk size, at most [kMaxChunkSize]. *)
Definition update_data (job : UpdateJob) (info : ChunkInfo) : M JobState (Z * ChunkInfo) :=
  let io := job_updateIO job in
  let meta := info_meta info in
  if isTruncate io || isExtend io then
    if uio_length io <=? cm_size meta then
      if isTruncate io then mret (uio_length io, set_info_meta (set_cm_size (uio_length io) meta) info)
      else mret (cm_size meta, info)
    else
      r ← doRealWrite info (replicate (Z.to_nat (uio_length io - cm_size meta)) 0) (cm_size meta);
      mret (cm_size (info_meta r.2), r.2)
  else if isRemove io then
    mret (0, if readyToRemove meta then info else set_info_meta (set_cm_recycleState REMOVAL_IN_PROGRESS meta) info)
  else
    when (cm_size meta <? uio_offset io)
      (onStore (onFiles (view_write (info_view info) (replicate (Z.to_nat (uio_offset io - cm_size meta)) 0) (cm_size meta) meta)) ;;
       mret tt) ;;
    err_if (uio_length io + uio_offset io >? cf_chunkSize (cm_innerFileId meta)) kInvalidArg ;;
    data ← buffer_read (job_data job) (uio_length io);
    r ← doRealWrite info data (uio_offset io);
    mret (r.1, if uo_isSyncing (job_options job) then set_info_meta (set_cm_size (uio_length io) (info_meta r.2)) r.2 else r.2).

(** The checks at the start of part 2. *)
Definition update_guards (job : UpdateJob) (meta : ChunkMetadata) (chunkSize : Z) : M JobState unit :=
  let io := job_updateIO job in
  onResult (fun r => set_io_commitChainVer (cm_chainVer meta) (set_io_checksum (cm_checksum meta)
    (set_io_updateVer (cm_updateVer meta) (set_io_commitVer (cm_commitVer meta) r)))) ;;
  err_if (negb (cf_chunkSize (cm_innerFileId meta) =? chunkSize)) StorageCode_kChunkSizeMismatch ;;
  err_if (bool_decide (cm_chunkState meta = CHUNK_DIRTY) && negb (uo_isSyncing (job_options job))) StorageCode_kChunkNotClean ;;
  err_if ((commitChainVer job <? cm_chainVer meta) && bool_decide (cm_chunkState meta = CHUNK_COMMIT))
    StorageCode_kChainVersionMismatch ;;
  when (bool_decide (ci_type (uio_checksum io) <> CHECKSUM_NONE) && negb (uio_length io =? 0))
    (data ← buffer_read (job_data job) (uio_length io);
     err_if (bool_decide (checksum_of_buffer (ci_type (uio_checksum io)) data <> uio_checksum io)) StorageCode_kChecksumMismatch).

(** Parts 3 and 4, once the chunk is marked dirty. *)
Definition update_apply (job : UpdateJob) (info : ChunkInfo) (isAppendWrite skipPersist : bool) : M JobState Z :=
  let io := job_updateIO job in
  onResult (fun r => set_io_updateVer (cm_updateVer (info_meta info)) (set_io_commitChainVer (cm_chainVer (info_meta info)) r)) ;;
  let chunkSizeBeforeWrite := cm_size (info_meta info) in
  r ← update_data job info;
  info' ← updateChecksum r.2 io chunkSizeBeforeWrite isAppendWrite;
  let info'' := set_info_meta (set_cm_chunkState CHUNK_CLEAN (info_meta info')) info' in
  onStore (store_set config (gk_chunkId (uio_key io)) info'' (negb skipPersist)) ;;
  onResult (fun r => set_io_commitChainVer (cm_chainVer (info_meta info'')) (set_io_commitVer (cm_commitVer (info_meta info''))
    (set_io_checksum (cm_checksum (info_meta info'')) r))) ;;
  mret r.1.

(** Parts 2 to 4 of [update], on the metadata found or new. *)
Definition update_chunk (job : UpdateJob) (info : ChunkInfo) (needCreateChunk : bool) : M JobState Z :=
  let io := job_updateIO job in
  let chunkId := gk_chunkId (uio_key io) in
  let meta := info_meta info in
  let chunkSize := if isRemove io then cf_chunkSize (cm_innerFileId meta) else uio_chunkSize io in
  update_guards job meta chunkSize ;;
  meta1 ← update_versions job meta;
  now ← job_now;
  let meta2 := stamp job now (set_cm_chainVer (commitChainVer job) (set_cm_chunkState CHUNK_DIRTY meta1)) in
  let isAppendWrite := uio_offset io =? cm_size meta2 in
  let skipPersist := (isWrite io && isAppendWrite) || isTruncate io || isExtend io in
  info2 ← (if needCreateChunk
           then onStore (store_createChunk config chunkId chunkSize (set_info_meta meta2 info) (job_allowToAllocate job))
           else onStore (store_set config chunkId (set_info_meta meta2 info) (negb skipPersist)) ;; mret (set_info_meta meta2 info));
  update_apply job info2 isAppendWrite skipPersist.

(** [ChunkReplica::update] *)
Definition replica_update (job : UpdateJob) : M JobState Z :=
  let io := job_updateIO job in
  err_if (negb (isRemove io) && ((uio_offset io >=? uio_chunkSize io) || (u32 (uio_offset io + uio_length io) >? uio_chunkSize io)))
    kInvalidArg ;;
  r ← attempt (onStore (store_get (gk_chunkId (uio_key io))));
  match r with
  | inl info => update_chunk job info false
  | inr code =>
      if code =? StorageCode_kChunkMetadataNotFound then
        if isRemove io then
          onResult (fun r => set_io_commitChainVer (commitChainVer job)
            (set_io_commitVer (uio_updateVer io) (set_io_updateVer (uio_updateVer io) r))) ;;
          mret 0
        else
          update_chunk job (set_info_meta (set_cm_innerFileId (mkChunkFileId (uio_chunkSize io) 0)
            (set_cm_chunkState CHUNK_CLEAN (set_cm_chainVer (commitChainVer job) ChunkMetadata_default))) ChunkInfo_default) true
      else fail code
  end.

(** The new versions and state of [commit]. *)
Definition commit_versions (commitIO : CommitIO) (meta : ChunkMetadata) : M JobState ChunkMetadata :=
  if cio_isForce commitIO then mret (set_cm_commitVer (cio_commitVer commitIO) (set_cm_chunkState CHUNK_CLEAN meta))
  else if bool_decide (cm_chunkState meta = CHUNK_DIRTY) then fail StorageCode_kChunkNotClean
  else if cm_commitVer meta <? cio_commitVer commitIO then mret (set_cm_commitVer (cio_commitVer commitIO) meta)
  else
    onResult (fun r => set_io_commitChainVer (cm_chainVer meta) (set_io_commitVer (cm_commitVer meta) r)) ;;
    fail StorageCode_kChunkStaleCommit.

(** [ChunkReplica::commit] *)
Definition replica_commit (job : UpdateJob) : M JobState Z :=
  let commitIO := job_commitIO job in
  let chunkId := gk_chunkId (cio_key commitIO) in
  r ← attempt (onStore (store_get chunkId));
  match r with
  | inr code =>
      if cio_isRemove commitIO && (code =? StorageCode_kChunkMetadataNotFound) then
        onResult (fun r => set_io_commitChainVer (cio_commitChainVer commitIO)
          (set_io_commitVer (cio_commitVer commitIO) (set_io_updateVer (cio_commitVer commitIO) r))) ;;
        mret 0
      else fail code
  | inl info =>
      let meta := info_meta info in
      onResult (fun r => set_io_commitChainVer (cm_chainVer meta) (set_io_updateVer (cm_updateVer meta)
        (set_io_commitVer (cm_commitVer meta) r))) ;;
      err_if (commitChainVer job <? cm_chainVer meta) StorageCode_kChainVersionMismatch ;;
      err_if (cio_commitVer commitIO >? cm_updateVer meta) StorageCode_kChunkVersionMismatch ;;
      meta1 ← commit_versions commitIO meta;
      let meta2 := if cm_commitVer meta1 =? cm_updateVer meta1
                   then set_cm_chainVer (commitChainVer job) (set_cm_chunkState CHUNK_COMMIT meta1) else meta1 in
      now ← job_now;
      let meta3 := stamp job now meta2 in
      let info3 := set_info_meta meta3 info in
      (if readyToRemove meta3 then onStore (store_remove config chunkId info3)
       else onStore (store_set config chunkId info3 true)) ;;
      onResult (fun r => set_io_commitChainVer (cm_chainVer meta3) (set_io_commitVer (cm_commitVer meta3) r)) ;;
      mret 0
  end.

(** [StorageTarget::updateChunk], of a target without chunk engine: the store
    and the result of the job. *)
Definition updateChunk (job : UpdateJob) (s : JobState) : JobState :=
  let '(o, s') := (if bool_decide (job_type job = UT_COMMIT) then replica_commit job else replica_update job) s in
  set_js_result (set_io_lengthInfo o (js_result s')) s'.

(** [ChunkStore::resetUncommitted] *)
Definition reset_job (chunkId : ChunkId) (commitVer : ChunkVer) (chainVer : ChainVer) : UpdateJob :=
  mkUpdateJob 0 (2 ^ 128 - 1) UT_COMMIT
    (mkUpdateIO 0 0 0 GlobalKey_default [] 0 UT_INVALID no_checksum [])
    (mkCommitIO (mkGlobalKey (mkVersionedChainId 0 0) chunkId) commitVer false chainVer false true)
    UpdateOptions_default [] true.
(** A commit whose result only goes to the log. *)
Definition reset_commit (job : UpdateJob) : M ChunkStore unit := fun s =>
  let '(o, s') := replica_commit job (mkJobState s IOResult_default) in
  (match o with Ok _ | Err _ => Ok tt | Fatal => Fatal | Pending => Pending end, js_store s').
Definition reset_one (chainVer : ChainVer) (chunkId : ChunkId) : M ChunkStore unit :=
  r ← attempt (store_get chunkId);
  match r with
  | inr _ => mret tt
  | inl info => reset_commit (reset_job chunkId (cm_updateVer (info_meta info)) chainVer)
  end.
Definition resetUncommitted (chainVer : ChainVer) : M ChunkStore unit :=
  s ← getS;
  for_each (reset_one chainVer) (ms_uncommitted (cst_meta s)) ;;
  onMeta (modify (set_ms_uncommitted [])).
End replica.

(** ** Reads *)

(** [AioReadJob::State], [localbuf] once it is filled. *)

Record AioReadState := mkAioReadState {
  rs_headLength : Z;
  rs_tailLength : Z;
  rs_readLength : Z;
  rs_readFd : ChunkFileId;
  rs_readOffset : Z;
  rs_chunkLen : Z;
  rs_chunkChecksum : ChecksumInfo;
  rs_readUncommitted : bool;
  rs_localbuf : bytes
}.

Definition set_rs_readLength v r := mkAioReadState (rs_headLength r) (rs_tailLength r) v (rs_readFd r) (rs_readOffset r) (rs_chunkLen r) (rs_chunkChecksum r) (rs_readUncommitted r) (rs_localbuf r).
Definition set_rs_readFd v r := mkAioReadState (rs_headLength r) (rs_tailLength r) (rs_readLength r) v (rs_readOffset r) (rs_chunkLen r) (rs_chunkChecksum r) (rs_readUncommitted r) (rs_localbuf r).
Definition set_rs_readOffset v r := mkAioReadState (rs_headLength r) (rs_tailLength r) (rs_readLength r) (rs_readFd r) v (rs_chunkLen r) (rs_chunkChecksum r) (rs_readUncommitted r) (rs_localbuf r).
Definition set_rs_chunkLen v r := mkAioReadState (rs_headLength r) (rs_tailLength r) (rs_readLength r) (rs_readFd r) (rs_readOffset r) v (rs_chunkChecksum r) (rs_readUncommitted r) (rs_localbuf r).
Definition set_rs_chunkChecksum v r := mkAioReadState (rs_headLength r) (rs_tailLength r) (rs_readLength r) (rs_readFd r) (rs_readOffset r) (rs_chunkLen r) v (rs_readUncommitted r) (rs_localbuf r).
Definition set_rs_localbuf v r := mkAioReadState (rs_headLength r) (rs_tailLength r) (rs_readLength r) (rs_readFd r) (rs_readOffset r) (rs_chunkLen r) (rs_chunkChecksum r) (rs_readUncommitted r) v.


(** [AioReadJob::AioReadJob] *)
Definition AioReadState_new (readIO : ReadIO) (readUncommitted : bool) : AioReadState :=
  mkAioReadState (rio_offset readIO mod kAIOAlignSize)
    ((kAIOAlignSize - u32 (rio_offset readIO + rio_length readIO) mod kAIOAlignSize) mod kAIOAlignSize)
    0 (mkChunkFileId 0 0) 0 0 no_checksum readUncommitted [].
Definition alignedOffset (readIO : ReadIO) (st : AioReadState) : Z := u32 (rio_offset readIO - rs_headLength st).
Definition alignedLength (readIO : ReadIO) (st : AioReadState) : Z :=
  u32 (rio_length readIO + rs_headLength st + rs_tailLength st).

(** [ChunkReplica::aioPrepareRead]: the state of the read and its result. *)
Definition aioPrepareRead (readIO : ReadIO) (st : AioReadState) : M JobState AioReadState :=
  info ← onStore (store_get (gk_chunkId (rio_key readIO)));
  let meta := info_meta info in
  onResult (fun r => set_io_commitChainVer (cm_chainVer meta) (set_io_updateVer (cm_updateVer meta)
    (set_io_commitVer (cm_commitVer meta) r))) ;;
  err_if (negb (cm_commitVer meta =? cm_updateVer meta) && negb (rs_readUncommitted st)) StorageCode_kChunkNotCommit ;;
  mret (set_rs_readOffset (u64 (cm_innerOffset meta + alignedOffset readIO st)) (set_rs_readFd (info_view info)
    (set_rs_readLength (alignedLength readIO st) (set_rs_chunkChecksum (cm_checksum meta) (set_rs_chunkLen (cm_size meta) st))))).

(** [ChunkReplica::aioFinishRead] *)
Definition aioFinishRead (readIO : ReadIO) : M JobState unit :=
  info ← onStore (store_get (gk_chunkId (rio_key readIO)));
  s ← getS;
  err_if (negb (io_updateVer (js_result s) =? cm_updateVer (info_meta info))) StorageCode_kChunkNotCommit.

(** The read of the device between the two. *)
Definition aio_pread (st : AioReadState) : M JobState AioReadState :=
  data ← onStore (onFiles (view_read (rs_readFd st) (rs_readLength st) (rs_readOffset st)));
  mret (set_rs_localbuf data st).

(** The length [setReadJobResult] computes from the bytes read. *)
Definition read_length (readIO : ReadIO) (st : AioReadState) : Z :=
  let res := Z.of_nat (length (rs_localbuf st)) in
  Z.min (Z.min (Z.max 0 (res - rs_headLength st)) (rio_length readIO)) (Z.max 0 (rs_chunkLen st - rio_offset readIO)).
(** The bytes returned to the reader. *)
Definition read_bytes (readIO : ReadIO) (st : AioReadState) : bytes :=
  take (Z.to_nat (read_length readIO st)) (drop (Z.to_nat (rs_headLength st)) (rs_localbuf st)).

Section reads.
Context `{Crc}.

(** [AioReadJob::setResult] of a read that filled the buffer.  The length is
    read after [aioFinishRead] may have replaced it by an error. *)
Definition aio_setResult (checksumType : ChecksumType) (recalculateChecksum : bool) (readIO : ReadIO) (st : AioReadState)
    : M JobState Z :=
  let length := read_length readIO st in
  onResult (fun r => set_io_checksum
    (if bool_decide (checksumType = CHECKSUM_NONE) then no_checksum
     else if bool_decide (checksumType = ci_type (rs_chunkChecksum st)) && (rio_offset readIO =? 0) && (length =? rs_chunkLen st)
          then rs_chunkChecksum st
     else checksum_of_buffer checksumType (read_bytes readIO st)) r) ;;
  r ← attempt (aioFinishRead readIO);
  match r with
  | inr code => if recalculateChecksum && (rio_offset readIO =? 0) then fatal else fail code
  | inl _ =>
      err_if (recalculateChecksum && (rio_offset readIO =? 0) && (length =? rs_chunkLen st)
              && bool_decide (checksum_of_buffer (ci_type (rs_chunkChecksum st)) (take (Z.to_nat length) (rs_localbuf st))
                              <> rs_chunkChecksum st)) StorageCode_kChecksumMismatch ;;
      mret length
  end.

(** A read of a target: preparation, device, result; returns the length and the
    bytes. *)
Definition aio_read (checksumType : ChecksumType) (recalculateChecksum readUncommitted : bool) (readIO : ReadIO)
    : M JobState (Z * bytes) :=
  st ← aioPrepareRead readIO (AioReadState_new readIO readUncommitted);
  st' ← aio_pread st;
  length ← aio_setResult checksumType recalculateChecksum readIO st';
  mret (length, read_bytes readIO st').
End reads.
