(* ===== verification/TargetMap.v ===== *)
(** * Storage targets ([src/storage/store/StorageTarget.{h,cc}])

    A storage target, and below the map of the targets of a service.  A target
    owns a chunk store and a configuration file on its disk.  Targets that use
    the chunk engine are not modelled.  The file is replaced by writing a
    temporary file and renaming it, except when a target is created or its
    metadata migrated, where a failed write leaves a damaged file. *)

From Stdlib Require Import ZArith Lia.
From stdpp Require Import base gmap list strings sorting.
From S2P Require Import Prelude StatusCode Bytes MgmtdTypes RoutingInfo MgmtdState StorageTypes ChunkFiles ChunkMetaStore ChunkReplica.

(** [PhysicalConfig]: the part of the metadata store and the rest. *)
Record TargetConfig := mkTargetConfig {
  tc_phys : PhysicalConfig;
  tc_path : list string;
  tc_chain_id : ChainId;
  tc_block_device_uuid : string;
  tc_allow_disk_without_uuid : bool;
  tc_allow_existing_targets : bool;
  tc_kv_store_type : Z
}.
Definition set_tc_phys v c := mkTargetConfig v (tc_path c) (tc_chain_id c) (tc_block_device_uuid c) (tc_allow_disk_without_uuid c) (tc_allow_existing_targets c) (tc_kv_store_type c).
Definition set_tc_chain_id v c := mkTargetConfig (tc_phys c) (tc_path c) v (tc_block_device_uuid c) (tc_allow_disk_without_uuid c) (tc_allow_existing_targets c) (tc_kv_store_type c).
Definition set_tc_block_device_uuid v c := mkTargetConfig (tc_phys c) (tc_path c) (tc_chain_id c) v (tc_allow_disk_without_uuid c) (tc_allow_existing_targets c) (tc_kv_store_type c).
Definition set_tc_kv_store_type v c := mkTargetConfig (tc_phys c) (tc_path c) (tc_chain_id c) (tc_block_device_uuid c) (tc_allow_disk_without_uuid c) (tc_allow_existing_targets c) v.
Definition set_pc_chunk_size_list v c := mkPhysicalConfig (pc_target_id c) (pc_physical_file_count c) v (pc_has_sentinel c) (pc_kv_store_name c).
Definition set_pc_has_sentinel v c := mkPhysicalConfig (pc_target_id c) (pc_physical_file_count c) (pc_chunk_size_list c) v (pc_kv_store_name c).
Definition set_pc_kv_store_name v c := mkPhysicalConfig (pc_target_id c) (pc_physical_file_count c) (pc_chunk_size_list c) (pc_has_sentinel c) v.

Inductive ConfigFile := NoFile | DamagedFile | HasConfig (c : TargetConfig).

Record StorageTarget := mkStorageTarget {
  sto_config : TargetConfig;
  sto_file : ConfigFile;
  sto_store : ChunkStore;
  sto_chunkSizeList : gset Z;
  sto_diskIndex : Z;
  sto_generationId : Z
}.
Definition set_sto_config v t := mkStorageTarget v (sto_file t) (sto_store t) (sto_chunkSizeList t) (sto_diskIndex t) (sto_generationId t).
Definition set_sto_file v t := mkStorageTarget (sto_config t) v (sto_store t) (sto_chunkSizeList t) (sto_diskIndex t) (sto_generationId t).
Definition set_sto_store v t := mkStorageTarget (sto_config t) (sto_file t) v (sto_chunkSizeList t) (sto_diskIndex t) (sto_generationId t).
Definition set_sto_chunkSizeList v t := mkStorageTarget (sto_config t) (sto_file t) (sto_store t) v (sto_diskIndex t) (sto_generationId t).

Definition sto_targetId (t : StorageTarget) : TargetId := pc_target_id (tc_phys (sto_config t)).
Definition sto_chainId (t : StorageTarget) : ChainId := tc_chain_id (sto_config t).

Definition onTargetStore {A} (m : M ChunkStore A) : M StorageTarget A := zoom sto_store set_sto_store m.

(** Replacing the file, through a temporary file, and writing it in place. *)
Definition replace_file (config : TargetConfig) : M StorageTarget unit :=
  fault ← onTargetStore (onFiles next_write);
  err_if (bool_decide (is_Some fault)) StorageCode_kStorageInitFailed ;;
  modify (set_sto_file (HasConfig config)).
Definition write_file (config : TargetConfig) : M StorageTarget unit :=
  fault ← onTargetStore (onFiles next_write);
  when (bool_decide (is_Some fault)) (modify (set_sto_file DamagedFile)) ;;
  err_if (bool_decide (is_Some fault)) StorageCode_kStorageInitFailed ;;
  modify (set_sto_file (HasConfig config)).
Definition read_file : M StorageTarget TargetConfig :=
  fault ← onTargetStore (onFiles next_read);
  err_if (bool_decide (is_Some fault)) kSerdeInvalidToml ;;
  t ← getS;
  match sto_file t with HasConfig c => mret c | _ => fail kSerdeInvalidToml end.

Section target.
Context (config : StoreConfig) (migrate_kv_store : bool) (kv_store_type kv_name : Z).

(** [load] of a target at [path] on a device with an identifier. *)
Definition target_load (path : list string) (deviceUUID : outcome string) : M StorageTarget unit :=
  c ← read_file;
  modify (set_sto_config c) ;;
  err_if (negb (bool_decide (path = tc_path c))) StorageCode_kStorageInitFailed ;;
  uuid ← (match deviceUUID with
          | Ok uuid => mret uuid
          | o => if tc_allow_disk_without_uuid c then mret EmptyString else lift o
          end);
  err_if (negb (bool_decide (tc_block_device_uuid c = uuid))) StorageCode_kStorageUUIDMismatch ;;
  onTargetStore (store_load config (tc_phys c)) ;;
  when (migrate_kv_store && negb (kv_store_type =? tc_kv_store_type c))
    (let c' := set_tc_kv_store_type kv_store_type (set_tc_phys
                 (set_pc_has_sentinel true (set_pc_kv_store_name kv_name (tc_phys c))) c) in
     modify (set_sto_config c') ;;
     onTargetStore (onMeta (meta_migrate (tc_phys c'))) ;;
     write_file c') ;;
  modify (fun t => set_sto_chunkSizeList (list_to_set (pc_chunk_size_list (tc_phys (sto_config t)))) t).

(** [addChunkSize]: sizes not known yet. *)
Definition target_addChunkSize (sizeList : list Z) : M StorageTarget unit :=
  t ← getS;
  let newSizeList := filter (fun size => size ∉ sto_chunkSizeList t) sizeList in
  if bool_decide (newSizeList = []) then mret tt
  else
    onTargetStore (store_addChunkSize (pc_physical_file_count (tc_phys (sto_config t))) newSizeList) ;;
    let all := merge_sort Z.le (newSizeList ++ elements (sto_chunkSizeList t)) in
    replace_file (set_tc_phys (set_pc_chunk_size_list all (tc_phys (sto_config t))) (sto_config t)) ;;
    modify (fun t => set_sto_chunkSizeList (list_to_set sizeList ∪ sto_chunkSizeList t) t).

(** [create]; an existing target is loaded and gets the new sizes. *)
Definition target_create (c : TargetConfig) (deviceUUID : outcome string) : M StorageTarget unit :=
  t ← getS;
  match sto_file t with
  | NoFile =>
      let c1 := set_tc_phys (set_pc_has_sentinel true (tc_phys c)) c in
      modify (set_sto_config c1) ;;
      onTargetStore (store_create (tc_phys c1)) ;;
      uuid ← (match deviceUUID with
              | Ok uuid => mret uuid
              | o => if tc_allow_disk_without_uuid c then mret EmptyString else lift o
              end);
      let c2 := set_tc_block_device_uuid uuid c1 in
      modify (set_sto_config c2) ;;
      write_file c2 ;;
      modify (set_sto_chunkSizeList (list_to_set (pc_chunk_size_list (tc_phys c2))))
  | _ =>
      err_if (negb (tc_allow_existing_targets c)) StorageCode_kStorageInitFailed ;;
      target_load (tc_path c) deviceUUID ;;
      t' ← getS;
      err_if (negb (sto_targetId t' =? pc_target_id (tc_phys c))) StorageCode_kStorageInitFailed ;;
      err_if (negb (pc_physical_file_count (tc_phys (sto_config t')) =? pc_physical_file_count (tc_phys c)))
        StorageCode_kStorageInitFailed ;;
      target_addChunkSize (pc_chunk_size_list (tc_phys c))
  end.

(** [setChainId]: a target joins a chain once. *)
Definition target_setChainId (chainId : ChainId) : M StorageTarget unit :=
  t ← getS;
  if negb (tc_chain_id (sto_config t) =? 0) then mret tt
  else
    let c := set_tc_chain_id chainId (sto_config t) in
    replace_file c ;;
    modify (set_sto_config c).

Context `{Crc}.

Definition target_resetUncommitted (chainVer : ChainVer) : M StorageTarget unit :=
  onTargetStore (resetUncommitted config chainVer).
End target.

(** ** A configuration file that loses chunk sizes

    [addChunkSize] writes the new sizes to the file but leaves [targetConfig_]
    as it was, and [setChainId] writes [targetConfig_]: a target that gets a new
    size before it joins its chain has lost the size after a restart, and with
    it the space of its chunks. *)
Definition sample_target_config : TargetConfig :=
  mkTargetConfig (mkPhysicalConfig 1 2 [4096] false 0) ["disk0"%string; "1"%string] 0 "uuid" false true 0.
Definition sample_sconfig : StoreConfig := mkStoreConfig (mkMetaConfig 8192 4 4 0 0) [] true PQS_NONE.
Definition blank_target : StorageTarget :=
  mkStorageTarget sample_target_config NoFile (mkChunkStore (ChunkMetaStore_new (mkDisk MetaKV_empty ∅ [] [] 1)) ∅) ∅ 0 1.

Definition joined_target : StorageTarget :=
  ((target_create sample_sconfig false 0 0 sample_target_config (Ok "uuid"%string) ;;
   target_addChunkSize [4096; 8192] ;;
   target_setChainId 7) blank_target).2.

(** A new process on the disk of the target. *)
Definition restarted (t : StorageTarget) : StorageTarget :=
  mkStorageTarget (sto_config t) (sto_file t) (mkChunkStore (ChunkMetaStore_new (ms_disk (cst_meta (sto_store t)))) ∅) ∅
    (sto_diskIndex t) (sto_generationId t + 1).

Example joining_forgets_chunk_sizes :
  bool_decide (8192 ∈ sto_chunkSizeList joined_target) = true
  /\ (let '(o, t) := target_load sample_sconfig false 0 0 ["disk0"%string; "1"%string] (Ok "uuid"%string) (restarted joined_target) in
      o = Ok tt /\ bool_decide (8192 ∈ sto_chunkSizeList t) = false
      /\ (onTargetStore (store_createChunk sample_sconfig [1] 8192 ChunkInfo_default true) t).1
         = Err StorageCode_kChunkInvalidChunkSize).
Proof. vm_compute. repeat split. Qed.

(** * The targets of a storage service ([src/storage/service/TargetMap.{h,cc}])

    A storage service keeps the targets on its disks, what the last routing
    information says of each, and which chain each belongs to.  A modifier works
    on a copy of the map, which replaces the map only when it succeeds; its
    effects on the targets themselves stay.  Targets are objects shared with
    running requests; a [Handle] stands for a pointer to one. *)

Definition Handle := Z.

Record Successor := mkSuccessor { su_nodeInfo : NodeInfo; su_targetInfo : FlatTargetInfo }.

Record Target := mkTarget {
  tg_storageTarget : option Handle;
  tg_weakStorageTarget : option Handle;
  tg_targetId : TargetId;
  tg_path : list string;
  tg_diskError : bool;
  tg_lowSpace : bool;
  tg_rejectCreateChunk : bool;
  tg_isHead : bool;
  tg_isTail : bool;
  tg_vChainId : VersionedChainId;
  tg_localState : LocalTargetState;
  tg_publicState : PublicTargetState;
  tg_successor : option Successor;
  tg_diskIndex : Z;
  tg_chainId : ChainId;
  tg_offlineUponUserRequest : bool
}.
Definition set_tg_storageTarget v r := mkTarget v (tg_weakStorageTarget r) (tg_targetId r) (tg_path r) (tg_diskError r) (tg_lowSpace r) (tg_rejectCreateChunk r) (tg_isHead r) (tg_isTail r) (tg_vChainId r) (tg_localState r) (tg_publicState r) (tg_successor r) (tg_diskIndex r) (tg_chainId r) (tg_offlineUponUserRequest r).
Definition set_tg_weakStorageTarget v r := mkTarget (tg_storageTarget r) v (tg_targetId r) (tg_path r) (tg_diskError r) (tg_lowSpace r) (tg_rejectCreateChunk r) (tg_isHead r) (tg_isTail r) (tg_vChainId r) (tg_localState r) (tg_publicState r) (tg_successor r) (tg_diskIndex r) (tg_chainId r) (tg_offlineUponUserRequest r).
Definition set_tg_diskError v r := mkTarget (tg_storageTarget r) (tg_weakStorageTarget r) (tg_targetId r) (tg_path r) v (tg_lowSpace r) (tg_rejectCreateChunk r) (tg_isHead r) (tg_isTail r) (tg_vChainId r) (tg_localState r) (tg_publicState r) (tg_successor r) (tg_diskIndex r) (tg_chainId r) (tg_offlineUponUserRequest r).
Definition set_tg_lowSpace v r := mkTarget (tg_storageTarget r) (tg_weakStorageTarget r) (tg_targetId r) (tg_path r) (tg_diskError r) v (tg_rejectCreateChunk r) (tg_isHead r) (tg_isTail r) (tg_vChainId r) (tg_localState r) (tg_publicState r) (tg_successor r) (tg_diskIndex r) (tg_chainId r) (tg_offlineUponUserRequest r).
Definition set_tg_rejectCreateChunk v r := mkTarget (tg_storageTarget r) (tg_weakStorageTarget r) (tg_targetId r) (tg_path r) (tg_diskError r) (tg_lowSpace r) v (tg_isHead r) (tg_isTail r) (tg_vChainId r) (tg_localState r) (tg_publicState r) (tg_successor r) (tg_diskIndex r) (tg_chainId r) (tg_offlineUponUserRequest r).
Definition set_tg_isHead v r := mkTarget (tg_storageTarget r) (tg_weakStorageTarget r) (tg_targetId r) (tg_path r) (tg_diskError r) (tg_lowSpace r) (tg_rejectCreateChunk r) v (tg_isTail r) (tg_vChainId r) (tg_localState r) (tg_publicState r) (tg_successor r) (tg_diskIndex r) (tg_chainId r) (tg_offlineUponUserRequest r).
Definition set_tg_isTail v r := mkTarget (tg_storageTarget r) (tg_weakStorageTarget r) (tg_targetId r) (tg_path r) (tg_diskError r) (tg_lowSpace r) (tg_rejectCreateChunk r) (tg_isHead r) v (tg_vChainId r) (tg_localState r) (tg_publicState r) (tg_successor r) (tg_diskIndex r) (tg_chainId r) (tg_offlineUponUserRequest r).
Definition set_tg_vChainId v r := mkTarget (tg_storageTarget r) (tg_weakStorageTarget r) (tg_targetId r) (tg_path r) (tg_diskError r) (tg_lowSpace r) (tg_rejectCreateChunk r) (tg_isHead r) (tg_isTail r) v (tg_localState r) (tg_publicState r) (tg_successor r) (tg_diskIndex r) (tg_chainId r) (tg_offlineUponUserRequest r).
Definition set_tg_localState v r := mkTarget (tg_storageTarget r) (tg_weakStorageTarget r) (tg_targetId r) (tg_path r) (tg_diskError r) (tg_lowSpace r) (tg_rejectCreateChunk r) (tg_isHead r) (tg_isTail r) (tg_vChainId r) v (tg_publicState r) (tg_successor r) (tg_diskIndex r) (tg_chainId r) (tg_offlineUponUserRequest r).
Definition set_tg_publicState v r := mkTarget (tg_storageTarget r) (tg_weakStorageTarget r) (tg_targetId r) (tg_path r) (tg_diskError r) (tg_lowSpace r) (tg_rejectCreateChunk r) (tg_isHead r) (tg_isTail r) (tg_vChainId r) (tg_localState r) v (tg_successor r) (tg_diskIndex r) (tg_chainId r) (tg_offlineUponUserRequest r).
Definition set_tg_successor v r := mkTarget (tg_storageTarget r) (tg_weakStorageTarget r) (tg_targetId r) (tg_path r) (tg_diskError r) (tg_lowSpace r) (tg_rejectCreateChunk r) (tg_isHead r) (tg_isTail r) (tg_vChainId r) (tg_localState r) (tg_publicState r) v (tg_diskIndex r) (tg_chainId r) (tg_offlineUponUserRequest r).
Definition set_tg_offlineUponUserRequest v r := mkTarget (tg_storageTarget r) (tg_weakStorageTarget r) (tg_targetId r) (tg_path r) (tg_diskError r) (tg_lowSpace r) (tg_rejectCreateChunk r) (tg_isHead r) (tg_isTail r) (tg_vChainId r) (tg_localState r) (tg_publicState r) (tg_successor r) (tg_diskIndex r) (tg_chainId r) v.

Definition unrecoverableOffline (t : Target) : bool := tg_diskError t || tg_offlineUponUserRequest t.
Definition upToDate (t : Target) : bool :=
  bool_decide (tg_localState t = LS_UPTODATE) && bool_decide (tg_publicState t = PS_SERVING).

(** [Target::getSuccessorAddr] *)
Definition getSuccessorAddr (t : Target) : outcome Z :=
  match tg_successor t with
  | None => Err StorageCode_kNoSuccessorTarget
  | Some su =>
      match app_serviceGroups (ni_app (su_nodeInfo su)) with
      | [] => Err StorageCode_kNoSuccessorAddr
      | group :: _ => match sgi_endpoints group with [] => Err StorageCode_kNoSuccessorAddr | a :: _ => Ok a end
      end
  end.

Record TargetMap := mkTargetMap {
  tm_targets : gmap TargetId Target;
  tm_routingInfoVersion : RoutingInfoVersion;
  tm_chainToTarget : gmap ChainId TargetId;
  tm_syncingChains : list VersionedChainId
}.
Definition set_tm_targets v r := mkTargetMap v (tm_routingInfoVersion r) (tm_chainToTarget r) (tm_syncingChains r).
Definition set_tm_routingInfoVersion v r := mkTargetMap (tm_targets r) v (tm_chainToTarget r) (tm_syncingChains r).
Definition set_tm_chainToTarget v r := mkTargetMap (tm_targets r) (tm_routingInfoVersion r) v (tm_syncingChains r).
Definition set_tm_syncingChains v r := mkTargetMap (tm_targets r) (tm_routingInfoVersion r) (tm_chainToTarget r) v.
Definition TargetMap_empty : TargetMap := mkTargetMap ∅ 0 ∅ [].

(** The map and the objects its targets point to. *)
Record Storage := mkStorage {
  sg_map : TargetMap;
  sg_objects : gmap Handle StorageTarget
}.
Definition set_sg_map v r := mkStorage v (sg_objects r).
Definition set_sg_objects v r := mkStorage (sg_map r) v.

Definition VersionedChainId_zero : VersionedChainId := mkVersionedChainId 0 0.

(** ** Observers *)

Definition tm_getTargetId (tm : TargetMap) (chainId : ChainId) : outcome TargetId :=
  match tm_chainToTarget tm !! chainId with Some t => Ok t | None => Err StorageClientCode_kRoutingError end.
Definition tm_getTarget (tm : TargetMap) (targetId : TargetId) : outcome Target :=
  match tm_targets tm !! targetId with Some t => Ok t | None => Err StorageClientCode_kRoutingError end.

Definition tm_getByChainId (tm : TargetMap) (vChainId : VersionedChainId) (allowOutdatedChainVer : bool) : outcome Target :=
  match tm_getTargetId tm (vc_chainId vChainId) with
  | Ok targetId =>
      match tm_getTarget tm targetId with
      | Ok target =>
          if negb (bool_decide (tg_vChainId target = vChainId))
             && (negb allowOutdatedChainVer || (vc_chainVer vChainId >? vc_chainVer (tg_vChainId target)))
          then Err StorageClientCode_kRoutingVersionMismatch
          else if bool_decide (tg_localState target = LS_OFFLINE) then Err StorageCode_kTargetOffline
          else if bool_decide (tg_storageTarget target = None) then Err StorageCode_kTargetOffline
          else Ok target
      | o => o
      end
  | Err c => Err c
  | Fatal => Fatal
  | Pending => Pending
  end.

(** ** Modifiers *)

Definition onMap (f : TargetMap -> TargetMap) : M Storage unit := modify (fun s => set_sg_map (f (sg_map s)) s).
(** Change of a target that is in the map. *)
Definition modTarget (targetId : TargetId) (f : Target -> Target) : M Storage unit :=
  onMap (fun tm => set_tm_targets (alter f targetId (tm_targets tm)) tm).
Definition getMutableTarget (targetId : TargetId) : M Storage Target :=
  s ← getS; lift (tm_getTarget (sg_map s) targetId).
(** A call of a method of a target. *)
Definition onObject {A} (h : Handle) (m : M StorageTarget A) : M Storage A := fun s =>
  match sg_objects s !! h with
  | Some t => let '(o, t') := m t in (o, set_sg_objects (<[h := t']> (sg_objects s)) s)
  | None => (Fatal, s)
  end.
Definition getObject (h : Handle) : M Storage StorageTarget := fun s =>
  match sg_objects s !! h with Some t => (Ok t, s) | None => (Fatal, s) end.

(** [addStorageTarget]: the target replaces one that is offline. *)
Definition tm_addStorageTarget (h : Handle) : M Storage unit :=
  o ← getObject h;
  s ← getS;
  let targetId := sto_targetId o in
  let target := mkTarget (Some h) None targetId (tc_path (sto_config o)) false false false false false
                  VersionedChainId_zero LS_ONLINE PS_INVALID None (sto_diskIndex o) (sto_chainId o) false in
  match tm_targets (sg_map s) !! targetId with
  | Some old => err_if (negb (bool_decide (tg_localState old = LS_OFFLINE))) StorageCode_kTargetStateInvalid
  | None => mret tt
  end ;;
  onMap (fun tm => set_tm_targets (<[targetId := target]> (tm_targets tm)) tm).

Definition tm_syncReceiveDone (vChainId : VersionedChainId) : M Storage unit :=
  s ← getS;
  target ← lift (tm_getByChainId (sg_map s) vChainId false);
  modTarget (tg_targetId target) (set_tg_localState LS_UPTODATE).

Definition updateLocalState (localState : LocalTargetState) (publicState : PublicTargetState) : LocalTargetState :=
  if bool_decide (localState = LS_UPTODATE)
     && (bool_decide (publicState = PS_OFFLINE) || bool_decide (publicState = PS_LASTSRV) || bool_decide (publicState = PS_WAITING))
  then LS_OFFLINE
  else if bool_decide (localState = LS_ONLINE) && bool_decide (publicState = PS_SERVING) then LS_UPTODATE
  else localState.

(** The first target of a chain that is in the map: whether it is the first of
    the chain, and the targets after it. *)
Fixpoint find_local (targets : gmap TargetId Target) (l : list ChainTargetInfo) (first : bool)
    : option (bool * TargetId * list ChainTargetInfo) :=
  match l with
  | [] => None
  | c :: l' =>
      if bool_decide (is_Some (targets !! cti_targetId c)) then Some (first, cti_targetId c, l')
      else find_local targets l' false
  end.

Definition is_serving (ps : PublicTargetState) : bool := bool_decide (ps = PS_SERVING) || bool_decide (ps = PS_SYNCING).

(** Part 6 of [updateRouting]: the successor, from the target after this one. *)
Definition routing_successor (r : FlatRoutingInfo) (chain : ChainInfo) (targetId : TargetId) (rest : list ChainTargetInfo) : M Storage unit :=
  match rest with
  | [] => mret tt
  | next :: _ =>
      match fri_targets r !! cti_targetId next with
      | None => fail StorageClientCode_kRoutingError
      | Some info =>
          when (is_serving (fti_publicState info))
            (when (bool_decide (fti_publicState info = PS_SYNCING))
               (onMap (fun tm => set_tm_syncingChains
                  (tm_syncingChains tm ++ [mkVersionedChainId (ci_chainId chain) (ci_chainVersion chain)]) tm)) ;;
             let node := match fti_nodeId info with Some n => default NodeInfo_default (fri_nodes r !! n) | None => NodeInfo_default end in
             modTarget targetId (set_tg_successor (Some (mkSuccessor node info))))
      end
  end.

(** The check of the chain of a target, which joins the chain if it has none. *)
Definition routing_join (chainId : ChainId) (target : Target) : M Storage unit :=
  match tg_storageTarget target with
  | None => mret tt
  | Some h =>
      o ← getObject h;
      when (sto_chainId o =? 0) (onObject h (target_setChainId chainId)) ;;
      o' ← getObject h;
      err_if (negb (sto_chainId o' =? chainId)) StorageClientCode_kRoutingError
  end.

(** Parts 3 to 6 for one chain. *)
Definition routing_chain (r : FlatRoutingInfo) (chain : ChainInfo) : M Storage unit :=
  s ← getS;
  match find_local (tm_targets (sg_map s)) (ci_targets chain) true with
  | None => mret tt
  | Some (first, targetId, rest) =>
      match fri_targets r !! targetId with
      | None => fail StorageClientCode_kRoutingError
      | Some info =>
          target ← getMutableTarget targetId;
          let serving := is_serving (fti_publicState info) in
          let previous := tg_localState target in
          modTarget targetId (fun t => set_tg_vChainId (mkVersionedChainId (ci_chainId chain) (ci_chainVersion chain))
                                         (set_tg_isHead (serving && first) t)) ;;
          routing_join (ci_chainId chain) target ;;
          let localState := updateLocalState previous (fti_publicState info) in
          modTarget targetId (fun t => set_tg_publicState (fti_publicState info) (set_tg_localState localState t)) ;;
          s' ← getS;
          err_if (bool_decide (is_Some (tm_chainToTarget (sg_map s') !! ci_chainId chain))) StorageClientCode_kRoutingError ;;
          onMap (fun tm => set_tm_chainToTarget (<[ci_chainId chain := targetId]> (tm_chainToTarget tm)) tm) ;;
          if negb (bool_decide (previous = LS_OFFLINE)) && bool_decide (localState = LS_OFFLINE) then
            match tg_storageTarget target with
            | None => fatal
            | Some h => modTarget targetId (fun t => set_tg_storageTarget None (set_tg_weakStorageTarget (Some h) t))
            end
          else
            when serving (routing_successor r chain targetId rest) ;;
            modTarget targetId (fun t => set_tg_isTail (serving && bool_decide (tg_successor t = None)) t)
      end
  end.

(** Part 1: nothing is known of a target. *)
Definition routing_reset (t : Target) : Target :=
  set_tg_successor None (set_tg_publicState PS_INVALID (set_tg_vChainId VersionedChainId_zero
    (set_tg_isTail false (set_tg_isHead false t)))).

Section map.
Context (config : StoreConfig) `{Crc}.

(** The last loop: a target that served last and serves again publishes what it
    has; a failure is ignored. *)
Definition routing_restore (lastSrv : gset TargetId) (e : TargetId * Target) : M Storage unit :=
  let '(targetId, target) := e in
  match tg_storageTarget target with
  | Some h =>
      when (bool_decide (targetId ∈ lastSrv) && (is_serving (tg_publicState target) || bool_decide (tg_publicState target = PS_WAITING)))
        (attempt (onObject h (target_resetUncommitted config (vc_chainVer (tg_vChainId target)))) ;; mret tt)
  | None => mret tt
  end.

Definition tm_updateRouting (r : option FlatRoutingInfo) : M Storage unit :=
  match r with
  | None => fail StorageClientCode_kRoutingError
  | Some r =>
      s ← getS;
      let tm := sg_map s in
      err_if (tm_routingInfoVersion tm >? fri_routingInfoVersion r) StorageClientCode_kRoutingError ;;
      let lastSrv : gset TargetId := list_to_set
        (tg_targetId <$> filter (fun t => tg_publicState t = PS_LASTSRV) (map_to_list (tm_targets tm)).*2) in
      onMap (fun tm => mkTargetMap (routing_reset <$> tm_targets tm) (fri_routingInfoVersion r) ∅ []) ;;
      for_each (routing_chain r) (map_to_list (fri_chains r)).*2 ;;
      s' ← getS;
      for_each (routing_restore lastSrv) (map_to_list (tm_targets (sg_map s')))
  end.
End map.

Definition tm_removeTarget (targetId : TargetId) : M Storage unit :=
  getMutableTarget targetId ;;
  onMap (fun tm => set_tm_targets (delete targetId (tm_targets tm)) tm).

Definition tm_offlineTarget (targetId : TargetId) : M Storage unit :=
  target ← getMutableTarget targetId;
  err_if (unrecoverableOffline target) StorageCode_kTargetOffline ;;
  modTarget targetId (fun t => set_tg_localState LS_OFFLINE (set_tg_offlineUponUserRequest true t)).

(** The targets of a disk. *)
Definition on_disk (path : list string) (t : Target) : bool :=
  bool_decide (path = removelast (tg_path t)) && negb (unrecoverableOffline t).
Definition tm_offlineTargets (path : list string) : M Storage unit :=
  onMap (fun tm => set_tm_targets
    ((fun t => if on_disk path t then set_tg_localState LS_OFFLINE (set_tg_diskError true t) else t) <$> tm_targets tm) tm).
Definition tm_updateDiskState (path : list string) (lowSpace rejectCreateChunk : bool) : M Storage unit :=
  onMap (fun tm => set_tm_targets
    ((fun t => if on_disk path t then set_tg_rejectCreateChunk rejectCreateChunk (set_tg_lowSpace lowSpace t) else t) <$> tm_targets tm) tm).

(** [AtomicallyTargetMap::updateTargetMap]: a failed change of the map is
    dropped. *)
Definition updateTargetMap (f : M Storage unit) : M Storage unit := fun s =>
  match f s with
  | (Ok u, s') => (Ok u, s')
  | (o, s') => (o, set_sg_map (sg_map s) s')
  end.
