(* ===== verification/TargetMapTheorems.v ===== *)
(** * Theorems on the targets of a storage service *)

From stdpp Require Import base gmap list strings sorting.
From Stdlib Require Import ZArith Lia.
From S2P Require Import Prelude StatusCode Bytes MgmtdTypes RoutingInfo MgmtdState StorageTypes ChunkFiles ChunkMetaStore ChunkReplica TargetMap.

(** ** Calls that do not abort the process *)

Definition settled {A} (o : outcome A) : Prop := match o with Ok _ | Err _ => True | _ => False end.
Definition never_fatal {S A} (m : M S A) : Prop := forall s, settled (m s).1.

Section never_fatal.
Context {S : Type}.

Lemma nf_bind {A B} (m : M S A) (k : A -> M S B) : never_fatal m -> (forall a, never_fatal (k a)) -> never_fatal (m ≫= k).
Proof. intros Hm Hk s. unfold mbind, M_bind. specialize (Hm s). destruct (m s) as [[a|c| |] s']; try done. apply Hk. Qed.
Lemma nf_err_if b c : @never_fatal S unit (err_if b c).
Proof. intros s. unfold err_if. by destruct b. Qed.
Lemma nf_when b (m : M S unit) : never_fatal m -> never_fatal (when b m).
Proof. unfold when. by destruct b. Qed.
Lemma nf_attempt {A} (m : M S A) : never_fatal m -> never_fatal (attempt m).
Proof. intros Hm s. unfold attempt. specialize (Hm s). by destruct (m s) as [[a|c| |] s']. Qed.
Lemma nf_for_each {A} (f : A -> M S unit) l : (forall a, never_fatal (f a)) -> never_fatal (for_each f l).
Proof. intros Hf. induction l as [|x l IH]; cbn; [done|]. apply nf_bind; [apply Hf|done]. Qed.
Lemma nf_zoom {T A} (get : S -> T) put (m : M T A) : never_fatal m -> never_fatal (zoom get put m).
Proof. intros Hm s. unfold zoom. specialize (Hm (get s)). by destruct (m (get s)). Qed.
End never_fatal.

(** Follows the statements of a computation. *)
Ltac nf_step :=
  lazymatch goal with
  | |- never_fatal (_ ≫= _) => apply nf_bind; [|intros ?]
  | |- never_fatal (err_if _ _) => apply nf_err_if
  | |- never_fatal (when _ _) => apply nf_when
  | |- never_fatal (attempt _) => apply nf_attempt
  | |- never_fatal (for_each _ _) => apply nf_for_each; intros ?
  | |- never_fatal (zoom _ _ _) => apply nf_zoom
  | |- never_fatal (mret _) => done
  | |- never_fatal (fail _) => done
  | |- never_fatal getS => done
  | |- never_fatal (gets _) => done
  | |- never_fatal (modify _) => done
  | |- never_fatal (match ?x with _ => _ end) => destruct x
  | |- never_fatal (if ?x then _ else _) => destruct x
  end.
Ltac nf := repeat nf_step.

(** ** The invariant of the map *)

(** Pointers are valid, and a target without object is offline. *)
Record tm_ok (s : Storage) : Prop := {
  to_id : forall id t, tm_targets (sg_map s) !! id = Some t -> tg_targetId t = id;
  to_object : forall id t h, tm_targets (sg_map s) !! id = Some t -> tg_storageTarget t = Some h -> is_Some (sg_objects s !! h);
  to_online : forall id t, tm_targets (sg_map s) !! id = Some t -> tg_localState t <> LS_OFFLINE -> is_Some (tg_storageTarget t)
}.

(** Objects stay. *)
Definition objects_stay (s s' : Storage) : Prop := forall h, is_Some (sg_objects s !! h) -> is_Some (sg_objects s' !! h).

Lemma objects_stay_refl s : objects_stay s s.
Proof. by intros h. Qed.
Lemma objects_stay_trans s1 s2 s3 : objects_stay s1 s2 -> objects_stay s2 s3 -> objects_stay s1 s3.
Proof. intros H1 H2 h Hh. auto. Qed.

Lemma tm_ok_stay s s' : tm_ok s -> sg_map s' = sg_map s -> objects_stay s s' -> tm_ok s'.
Proof. intros [H1 H2 H3] E Ho. split; rewrite E; [done| |done]. intros id t h Ht Hh. eapply Ho, H2; eauto. Qed.

(** A call of a method of a valid object. *)
Lemma onObject_ok {A} h (m : M StorageTarget A) s :
  is_Some (sg_objects s !! h) -> never_fatal m ->
  runs (onObject h m) s (fun o s' => sg_map s' = sg_map s /\ objects_stay s s' /\ settled o).
Proof.
  intros [t Ht] Hm. unfold runs, onObject. rewrite Ht. specialize (Hm t). destruct (m t) as [o t']. cbn in *. split_and!; [done| |done].
  intros h' Hh'. cbn. destruct (decide (h' = h)) as [->|]; [by rewrite lookup_insert_eq|by rewrite lookup_insert_ne].
Qed.

Lemma getObject_ok h s : is_Some (sg_objects s !! h) -> runs (getObject h) s (fun o s' => s' = s /\ exists t, o = Ok t /\ sg_objects s !! h = Some t).
Proof. intros [t Ht]. unfold runs, getObject. rewrite Ht. cbn. eauto. Qed.

(** ** What routing information says of one target *)

Definition successor_of (r : FlatRoutingInfo) (rest : list ChainTargetInfo) : option Successor :=
  match rest with
  | [] => None
  | next :: _ =>
      info ← fri_targets r !! cti_targetId next;
      if is_serving (fti_publicState info)
      then Some (mkSuccessor (match fti_nodeId info with Some n => default NodeInfo_default (fri_nodes r !! n) | None => NodeInfo_default end) info)
      else None
  end.

(** A target that has to shut down. *)
Definition shut_down (info : FlatTargetInfo) (t : Target) : bool :=
  negb (bool_decide (tg_localState t = LS_OFFLINE))
  && bool_decide (updateLocalState (tg_localState t) (fti_publicState info) = LS_OFFLINE).

(** The target after the routing information of its chain. *)
Definition routed_target (r : FlatRoutingInfo) (chain : ChainInfo) (info : FlatTargetInfo) (first : bool) (rest : list ChainTargetInfo) (t : Target) : Target :=
  let serving := is_serving (fti_publicState info) in
  let t1 := set_tg_publicState (fti_publicState info) (set_tg_localState (updateLocalState (tg_localState t) (fti_publicState info))
              (set_tg_vChainId (mkVersionedChainId (ci_chainId chain) (ci_chainVersion chain)) (set_tg_isHead (serving && first) t))) in
  if shut_down info t then set_tg_storageTarget None (set_tg_weakStorageTarget (tg_storageTarget t) t1)
  else
    let successor := if serving then successor_of r rest else None in
    set_tg_isTail (serving && bool_decide (successor = None)) (set_tg_successor successor t1).

Lemma find_local_spec targets l first first' tid rest :
  find_local targets l first = Some (first', tid, rest) ->
  is_Some (targets !! tid) /\ exists pre c, l = pre ++ c :: rest /\ cti_targetId c = tid
    /\ first' = (first && bool_decide (pre = [])) /\ (forall x, x ∈ pre -> targets !! cti_targetId x = None).
Proof.
  revert first. induction l as [|c l IH]; intros first; cbn; [done|]. case_bool_decide as Hc.
  - intros [= <- <- <-]. split; [done|]. exists [], c. split_and!; [done|done| |by intros x ?%elem_of_nil].
    by rewrite bool_decide_eq_true_2, andb_true_r.
  - intros Hf. destruct (IH _ Hf) as (Ht & pre & c' & -> & Hid & -> & Hpre). split; [done|]. exists (c :: pre), c'.
    split_and!; [done|done|by rewrite andb_false_r|]. intros x [->|Hx]%elem_of_cons; [|by apply Hpre].
    by apply eq_None_not_Some.
Qed.

(** Only whether targets are in the map matters. *)
Lemma find_local_dom targets targets' l first :
  (forall id, is_Some (targets !! id) <-> is_Some (targets' !! id)) -> find_local targets l first = find_local targets' l first.
Proof.
  intros Hd. revert first. induction l as [|c l IH]; intros first; cbn; [done|]. rewrite IH.
  by rewrite (bool_decide_ext _ _ (Hd (cti_targetId c))).
Qed.

Lemma setChainId_safe chainId t : settled (target_setChainId chainId t).1.
Proof. revert t. change (never_fatal (target_setChainId chainId)). unfold target_setChainId, replace_file, onTargetStore, onFiles, onMeta, onDisk. nf. intros s. unfold next_write. by case_match. Qed.

Lemma routing_join_ok chainId target s :
  (forall h, tg_storageTarget target = Some h -> is_Some (sg_objects s !! h)) ->
  runs (routing_join chainId target) s (fun o s' => sg_map s' = sg_map s /\ objects_stay s s' /\ settled o).
Proof.
  intros Hh. unfold routing_join. destruct (tg_storageTarget target) as [h|]; [|mstep; split_and!; [done|apply objects_stay_refl|done]].
  specialize (Hh h eq_refl). mstep. eapply runs_mono; [by apply getObject_ok|]. intros o s1 (-> & t & -> & Ht).
  cbv beta iota delta [andThen]. mstep.
  assert (runs (when (sto_chainId t =? 0) (onObject h (target_setChainId chainId))) s
            (fun o s' => sg_map s' = sg_map s /\ objects_stay s s' /\ settled o)) as Hset.
  { mstep; [apply onObject_ok; [done|intros t0; apply setChainId_safe]|split_and!; [done|apply objects_stay_refl|done]]. }
  eapply runs_mono; [exact Hset|]. intros [[]|c| |] s2 (Em & Ho & Hf); cbv beta iota delta [andThen]; try done.
  mstep. eapply runs_mono; [apply getObject_ok; by apply Ho|]. intros o s3 (-> & t' & -> & Ht').
  cbv beta iota delta [andThen]. mstep; (split_and!; [done|done|done]).
Qed.

(** What [routing_chain] does. *)
Definition chain_routed (r : FlatRoutingInfo) (chain : ChainInfo) (tm tm' : TargetMap) : Prop :=
  match find_local (tm_targets tm) (ci_targets chain) true with
  | None => tm' = tm
  | Some (first, tid, rest) =>
      exists info t, fri_targets r !! tid = Some info /\ tm_targets tm !! tid = Some t
        /\ tm_targets tm' = <[tid := routed_target r chain info first rest t]> (tm_targets tm)
        /\ tm_chainToTarget tm !! ci_chainId chain = None
        /\ tm_chainToTarget tm' = <[ci_chainId chain := tid]> (tm_chainToTarget tm)
        /\ tm_routingInfoVersion tm' = tm_routingInfoVersion tm
  end.

Lemma alter_lookup (f : Target -> Target) id (m : gmap TargetId Target) t : m !! id = Some t -> alter f id m = <[id := f t]> m.
Proof.
  intros Hm. apply map_eq. intros i. destruct (decide (i = id)) as [->|].
  - by rewrite lookup_alter_eq, lookup_insert_eq, Hm.
  - by rewrite lookup_alter_ne, lookup_insert_ne.
Qed.

Lemma routing_successor_ok r chain tid rest s :
  runs (routing_successor r chain tid rest) s (fun o s' => sg_objects s' = sg_objects s /\
    match o with
    | Ok _ => tm_targets (sg_map s') = match successor_of r rest with
                                       | Some su => alter (set_tg_successor (Some su)) tid (tm_targets (sg_map s))
                                       | None => tm_targets (sg_map s) end
              /\ tm_chainToTarget (sg_map s') = tm_chainToTarget (sg_map s)
              /\ tm_routingInfoVersion (sg_map s') = tm_routingInfoVersion (sg_map s)
    | Err _ => True
    | _ => False
    end).
Proof.
  unfold routing_successor, successor_of. destruct rest as [|next rest]; [by mstep|].
  destruct (fri_targets r !! cti_targetId next) as [info|]; [|by mstep]. cbn.
  mstep; match goal with H : is_serving _ = _ |- _ => rewrite H end; [|done].
  unfold modTarget, onMap. msteps; done.
Qed.

Lemma set_successor_id t : tg_successor t = None -> set_tg_successor None t = t.
Proof. destruct t. cbn. by intros ->. Qed.

Lemma routing_chain_ok r chain s :
  tm_ok s ->
  (forall first id rest t, find_local (tm_targets (sg_map s)) (ci_targets chain) true = Some (first, id, rest) ->
     tm_targets (sg_map s) !! id = Some t -> tg_successor t = None) ->
  runs (routing_chain r chain) s (fun o s' => objects_stay s s' /\
    match o with Ok _ => chain_routed r chain (sg_map s) (sg_map s') | Err _ => True | _ => False end).
Proof.
  intros Hok Hsu. unfold routing_chain, chain_routed. msteps.
  destruct (find_local _ _ _) as [[[first tid] rest]|] eqn:Ef; [|mstep; split; [apply objects_stay_refl|done]].
  destruct (find_local_spec _ _ _ _ _ _ Ef) as ([t Ht] & _). specialize (Hsu _ _ _ _ eq_refl Ht).
  destruct (fri_targets r !! tid) as [info|] eqn:Ei; [|mstep; split; [apply objects_stay_refl|done]].
  unfold getMutableTarget, tm_getTarget, modTarget, onMap. msteps. rewrite Ht. msteps.
  eapply runs_mono; [apply routing_join_ok; intros h Hh; by apply (to_object _ Hok _ _ _ Ht Hh)|].
  intros [[]|c| |] s1 (Em & Ho & Hf); cbv beta iota delta [andThen]; try done.
  msteps; [done|]. fold (shut_down info t).
  match goal with H : bool_decide _ = false |- _ => apply bool_decide_eq_false_1, eq_None_not_Some in H; cbn in H; rename H into Hc end.
  rewrite Em in Hc |- *. cbn [sg_map set_sg_map tm_chainToTarget tm_targets set_tm_targets] in Hc |- *.
  rewrite (alter_lookup _ tid (tm_targets (sg_map s)) t Ht), (alter_lookup _ tid (<[tid := _]> _) _ (lookup_insert_eq _ _ _)), insert_insert_eq.
  assert (objects_stay s s1) as Hst by exact Ho.
  set (t1 := set_tg_publicState _ _). destruct (shut_down info t) eqn:Esd.
  - assert (is_Some (tg_storageTarget t)) as [h Hh].
    { apply (to_online _ Hok _ _ Ht). intros E. unfold shut_down in Esd. by rewrite E, bool_decide_eq_true_2 in Esd. }
    rewrite Hh. msteps. split; [done|]. exists info, t. cbn. unfold routed_target. rewrite Esd.
    rewrite (alter_lookup _ tid (<[tid := _]> _) _ (lookup_insert_eq _ _ _)), insert_insert_eq, Hh. done.
  - mstep. match goal with |- runs _ ?st _ => set (s2 := st) end.
    assert (runs (when (is_serving (fti_publicState info)) (routing_successor r chain tid rest)) s2 (fun o s' => sg_objects s' = sg_objects s2 /\
      match o with
      | Ok _ => tm_targets (sg_map s') = <[tid := set_tg_successor (if is_serving (fti_publicState info) then successor_of r rest else None) t1]> (tm_targets (sg_map s))
                /\ tm_chainToTarget (sg_map s') = tm_chainToTarget (sg_map s2) /\ tm_routingInfoVersion (sg_map s') = tm_routingInfoVersion (sg_map s2)
      | Err _ => True | _ => False end)) as Hr.
    { assert (set_tg_successor None t1 = t1) as Et1 by (by apply set_successor_id).
      mstep; match goal with H : is_serving _ = _ |- _ => rewrite H end; [|rewrite Et1; done].
      eapply runs_mono; [apply routing_successor_ok|]. intros [[]|c| |] s' [E1 H1]; try done. split; [done|]. destruct H1 as (-> & -> & ->).
      split_and!; [|done|done]. destruct (successor_of r rest) as [su|]; [|by rewrite Et1].
      cbn. by rewrite (alter_lookup _ tid (<[tid := _]> _) _ (lookup_insert_eq _ _ _)), insert_insert_eq. }
    eapply runs_mono; [exact Hr|]. intros [[]|c| |] s3 [E3 H3]; cbv beta iota delta [andThen]; try done; [|split; [intros h Hh; rewrite E3; by apply Hst|done]].
    destruct H3 as (E4 & E5 & E6). mstep. split; [intros h Hh; cbn; rewrite E3; by apply Hst|]. exists info, t. cbn. rewrite E4, E5, E6.
    split_and!; [done|done| |done|done|done]. unfold routed_target. rewrite Esd.
    by rewrite (alter_lookup _ tid (<[tid := _]> _) _ (lookup_insert_eq _ _ _)), insert_insert_eq.
Qed.

(** ** The reset of uncommitted chunks *)

Lemma nf_next_read {K} : never_fatal (@next_read K).
Proof. intros s. unfold next_read. by case_match. Qed.
Lemma nf_next_write {K} : never_fatal (@next_write K).
Proof. intros s. unfold next_write. by case_match. Qed.

Ltac nf_store := repeat first [nf_step | apply nf_next_read | apply nf_next_write | progress unfold
  onStore, onResult, onMeta, onFiles, onDisk, onTargetStore, store_get, meta_get, file_open, openInnerFile, store_set, meta_set, store_remove, meta_remove, job_now,
  commit_versions, kv_find, kv_get, kv_commit, getSize, modState, getState, collectKeys, iterateKeys, file_punchHole, loadAllocateState, load_startingPoint, upgrade_version].

Lemma replica_commit_safe config job : never_fatal (replica_commit config job).
Proof. unfold replica_commit. nf_store. Qed.

Lemma resetUncommitted_safe config chainVer : never_fatal (target_resetUncommitted config chainVer).
Proof.
  unfold target_resetUncommitted, resetUncommitted, reset_one. nf_store.
  intros s. unfold reset_commit. pose proof (replica_commit_safe config (reset_job a0 (cm_updateVer (info_meta c)) chainVer) (mkJobState s IOResult_default)).
  destruct (replica_commit _ _ _) as [[]]; done.
Qed.

(** ** Routing information as a whole *)

(** A target is in one chain. *)
Record fri_ok (r : FlatRoutingInfo) : Prop := {
  fo_chain : forall cid c, fri_chains r !! cid = Some c -> ci_chainId c = cid;
  fo_unique : forall cid cid' c c' tid, fri_chains r !! cid = Some c -> fri_chains r !! cid' = Some c' ->
    tid ∈ chain_ids c -> tid ∈ chain_ids c' -> cid = cid'
}.

(** What the manager sends. *)
Lemma flatten_ok boot ri : ri_wf ri -> fri_ok (flattenRoutingInfo boot ri).
Proof.
  intros [W1 W2 W3 _ _ _]. split; cbn.
  - intros cid c Hc. by apply W1.
  - intros cid cid' c c' tid Hc Hc' Ht Ht'. unfold chain_ids in *. apply list_elem_of_fmap in Ht as (x & Ex & Hx), Ht' as (x' & Ex' & Hx').
    destruct (W2 _ _ _ Hc Hx) as (ti & Hti & <- & _), (W2 _ _ _ Hc' Hx') as (ti' & Hti' & <- & _). congruence.
Qed.

Lemma find_local_in targets c first tid rest : find_local targets (ci_targets c) true = Some (first, tid, rest) -> tid ∈ chain_ids c.
Proof.
  intros Hf. destruct (find_local_spec _ _ _ _ _ _ Hf) as (_ & pre & x & E & <- & _). unfold chain_ids. rewrite E. apply list_elem_of_fmap.
  exists x. split; [done|]. set_solver.
Qed.

Definition chain_placed (r : FlatRoutingInfo) (tm0 tm : TargetMap) (c : ChainInfo) : Prop :=
  match find_local (tm_targets tm0) (ci_targets c) true with
  | None => tm_chainToTarget tm !! ci_chainId c = None
  | Some (first, tid, rest) =>
      exists info t0, fri_targets r !! tid = Some info /\ tm_targets tm0 !! tid = Some t0
        /\ tm_targets tm !! tid = Some (routed_target r c info first rest (routing_reset t0))
        /\ tm_chainToTarget tm !! ci_chainId c = Some tid
  end.

(** The map when some chains are done. *)
Record routing_done (r : FlatRoutingInfo) (tm0 : TargetMap) (l : list ChainInfo) (tm : TargetMap) : Prop := {
  rd_placed : forall c, c ∈ l -> chain_placed r tm0 tm c;
  rd_rest : forall tid, (forall c first rest, c ∈ l -> find_local (tm_targets tm0) (ci_targets c) true = Some (first, tid, rest) -> False) ->
    tm_targets tm !! tid = routing_reset <$> tm_targets tm0 !! tid;
  rd_dom : forall tid, is_Some (tm_targets tm !! tid) <-> is_Some (tm_targets tm0 !! tid);
  rd_chains : forall cid, is_Some (tm_chainToTarget tm !! cid) -> exists c, c ∈ l /\ ci_chainId c = cid
}.

Definition fresh_chain (l : list ChainInfo) (c : ChainInfo) : Prop :=
  forall c', c' ∈ l -> ci_chainId c' <> ci_chainId c /\ forall tid, tid ∈ chain_ids c -> tid ∈ chain_ids c' -> False.

Lemma routing_done_start r tm0 v : routing_done r tm0 [] (mkTargetMap (routing_reset <$> tm_targets tm0) v ∅ []).
Proof.
  split; cbn.
  - by intros c ?%elem_of_nil.
  - intros tid _. by rewrite lookup_fmap.
  - intros tid. rewrite lookup_fmap. by rewrite fmap_is_Some.
  - intros cid [? ?]. by rewrite lookup_empty in *.
Qed.

Lemma routing_done_step r tm0 l c tm tm' :
  routing_done r tm0 l tm -> fresh_chain l c -> chain_routed r c tm tm' -> routing_done r tm0 (l ++ [c]) tm'.
Proof.
  intros [D1 D2 D3 D4] Hfr Hr. unfold chain_routed in Hr. rewrite (find_local_dom _ (tm_targets tm0)) in Hr by done.
  assert (tm_chainToTarget tm !! ci_chainId c = None) as Hno.
  { apply eq_None_not_Some. intros Hs. destruct (D4 _ Hs) as (c' & Hc' & E). by destruct (Hfr _ Hc'). }
  destruct (find_local (tm_targets tm0) (ci_targets c) true) as [[[first tid] rest]|] eqn:Ef.
  - destruct Hr as (info & t & Hi & Ht & E1 & _ & E2 & _).
    assert (forall c' first' rest', c' ∈ l -> find_local (tm_targets tm0) (ci_targets c') true = Some (first', tid, rest') -> False) as Hnew.
    { intros c' first' rest' Hc' Hf'. destruct (Hfr _ Hc') as [_ Hd]. eapply Hd; eapply find_local_in; eauto. }
    pose proof (D2 _ Hnew) as Ht0. rewrite Ht in Ht0. destruct (tm_targets tm0 !! tid) as [t0|] eqn:Et0; [|done]. injection Ht0 as ->.
    split.
    + intros c' [Hc'| ->%list_elem_of_singleton]%elem_of_app.
      * specialize (D1 _ Hc'). unfold chain_placed in *. destruct (Hfr _ Hc') as [Hne _].
        destruct (find_local (tm_targets tm0) (ci_targets c') true) as [[[first' tid'] rest']|] eqn:Ef'; rewrite E2, lookup_insert_ne by done; [|done].
        destruct D1 as (info' & t' & ? & ? & ? & ?). exists info', t'. rewrite E1, lookup_insert_ne; [done|]. intros ->. by eapply Hnew.
      * unfold chain_placed. rewrite Ef, E1, E2, !lookup_insert_eq. eauto 10.
    + intros tid' Hn. rewrite E1, lookup_insert_ne; [|intros ->; eapply (Hn c); [set_solver|done]]. apply D2. intros c' f' r' Hc'. apply Hn. set_solver.
    + intros tid'. rewrite E1. destruct (decide (tid' = tid)) as [->|]; [rewrite lookup_insert_eq, Et0; by split|]. by rewrite lookup_insert_ne.
    + intros cid. rewrite E2. destruct (decide (cid = ci_chainId c)) as [->|]; [intros _; exists c; set_solver|]. rewrite lookup_insert_ne by done.
      intros Hs. destruct (D4 _ Hs) as (c' & ? & ?). exists c'. set_solver.
  - subst tm'. split; [|intros tid' Hn; apply D2; intros c' f' r' Hc'; apply Hn; set_solver|done|intros cid Hs; destruct (D4 _ Hs) as (c' & ? & ?); exists c'; set_solver].
    intros c' [Hc'| ->%list_elem_of_singleton]%elem_of_app; [by apply D1|]. unfold chain_placed. by rewrite Ef.
Qed.

Lemma routed_target_ok r c info first rest t :
  let t' := routed_target r c info first rest t in
  tg_targetId t' = tg_targetId t
  /\ (forall h, tg_storageTarget t' = Some h -> tg_storageTarget t = Some h)
  /\ ((tg_localState t <> LS_OFFLINE -> is_Some (tg_storageTarget t)) -> tg_localState t' <> LS_OFFLINE -> is_Some (tg_storageTarget t')).
Proof.
  intros t'. unfold t', routed_target. destruct (shut_down info t) eqn:Es; cbn; (split_and!; [done|done|]).
  - unfold shut_down in Es. apply andb_true_iff in Es as [_ E%bool_decide_eq_true]. done.
  - intros Ht Hn. apply Ht. intros E. rewrite E in Hn. by apply Hn.
Qed.

Lemma tm_ok_routed r c s s' : tm_ok s -> objects_stay s s' -> chain_routed r c (sg_map s) (sg_map s') -> tm_ok s'.
Proof.
  intros Hok Hst Hr. unfold chain_routed in Hr. destruct (find_local _ _ _) as [[[first tid] rest]|]; [|by eapply tm_ok_stay].
  destruct Hr as (info & t & _ & Ht & E & _). destruct (routed_target_ok r c info first rest t) as (R1 & R2 & R3).
  split; intros id x; rewrite E; (destruct (decide (id = tid)) as [->|]; [rewrite lookup_insert_eq|rewrite lookup_insert_ne by done]).
  - intros [= <-]. rewrite R1. by apply (to_id _ Hok).
  - by apply (to_id _ Hok).
  - intros h [= <-] Hh. by eapply Hst, (to_object _ Hok), R2.
  - intros h Hx Hh. by eapply Hst, (to_object _ Hok).
  - intros [= <-]. apply R3. by apply (to_online _ Hok _ _ Ht).
  - by apply (to_online _ Hok).
Qed.

Lemma tm_ok_reset s v : tm_ok s -> tm_ok (set_sg_map (mkTargetMap (routing_reset <$> tm_targets (sg_map s)) v ∅ []) s).
Proof.
  intros Hok. split; cbn; intros id x; rewrite lookup_fmap; (destruct (tm_targets (sg_map s) !! id) as [t|] eqn:Et; [|done]); cbn.
  - intros [= <-]. exact (to_id _ Hok _ _ Et).
  - intros h [= <-]. exact (to_object _ Hok _ _ _ Et).
  - intros [= <-]. exact (to_online _ Hok _ _ Et).
Qed.

Lemma routing_restore_ok config lastSrv l s :
  (forall id t h, (id, t) ∈ l -> tg_storageTarget t = Some h -> is_Some (sg_objects s !! h)) ->
  runs (for_each (routing_restore config lastSrv) l) s (fun o s' => sg_map s' = sg_map s /\ objects_stay s s' /\ o = Ok tt).
Proof.
  intros Hl. apply (runs_for_each (fun l' s' => (forall e, e ∈ l' -> e ∈ l) /\ sg_map s' = sg_map s /\ objects_stay s s')).
  - split_and!; [done|done|apply objects_stay_refl].
  - intros [id t] l' s1 (Hin & E & Hst). cbn. assert (forall e, e ∈ l' -> e ∈ l) as Hin' by (intros e He; apply Hin; set_solver).
    destruct (tg_storageTarget t) as [h|] eqn:Eh; [|mstep; by split_and!]. mstep; [|by split_and!].
    mstep. mstep. eapply runs_mono; [apply onObject_ok; [|apply resetUncommitted_safe]|].
    + eapply Hst, (Hl id t); [|done]. apply Hin. left.
    + intros o s2 (E2 & Hst2 & Ho). assert (sg_map s2 = sg_map s /\ objects_stay s s2) as [? ?]
        by (split; [congruence|by eapply objects_stay_trans]). destruct o; try done; cbv beta iota delta [andThen]; mstep; by split_and!.
  - intros s' (_ & E & Hst). by split_and!.
Qed.

Lemma chains_fresh r p c l : fri_ok r -> p ++ c :: l = (map_to_list (fri_chains r)).*2 -> fresh_chain p c.
Proof.
  intros [F1 F2] E c' Hc'. set (C := (map_to_list (fri_chains r)).*2) in *.
  assert (forall x, x ∈ C -> fri_chains r !! ci_chainId x = Some x) as HC.
  { intros x Hx. unfold C in Hx. apply list_elem_of_fmap in Hx as ([cid y] & -> & Hy). apply elem_of_map_to_list in Hy. cbn. by rewrite (F1 _ _ Hy). }
  assert (ci_chainId c' <> ci_chainId c) as Hne.
  { assert (NoDup (ci_chainId <$> C)) as Hnd.
    { unfold C. rewrite <-list_fmap_compose. replace (fmap _ _) with (map_to_list (fri_chains r)).*1; [apply NoDup_fst_map_to_list|].
      apply list_fmap_ext. intros i [cid x] Hi. cbn. symmetry. apply F1, elem_of_map_to_list. by eapply list_elem_of_lookup_2. }
    rewrite <-E, fmap_app, fmap_cons in Hnd. apply NoDup_app in Hnd as (_ & Hd & _). intros Eid. apply (Hd (ci_chainId c')).
    - by apply list_elem_of_fmap_2.
    - rewrite Eid. left. }
  split; [done|]. intros tid Ht Ht'. apply Hne. apply (F2 _ _ c' c tid); [apply HC|apply HC|done|done]; rewrite <-E; set_solver.
Qed.

(** A target after the routing information [info] of its place in a chain. *)
Record target_routed (r : FlatRoutingInfo) (c : ChainInfo) (info : FlatTargetInfo) (first : bool) (rest : list ChainTargetInfo) (t t' : Target) : Prop := {
  tr_chain : tg_vChainId t' = mkVersionedChainId (ci_chainId c) (ci_chainVersion c);
  tr_public : tg_publicState t' = fti_publicState info;
  tr_local : tg_localState t' = updateLocalState (tg_localState t) (fti_publicState info);
  tr_head : tg_isHead t' = is_serving (fti_publicState info) && first;
  tr_shut : shut_down info t = true -> tg_storageTarget t' = None;
  tr_open : shut_down info t = false -> tg_storageTarget t' = tg_storageTarget t
    /\ tg_successor t' = (if is_serving (fti_publicState info) then successor_of r rest else None)
    /\ tg_isTail t' = is_serving (fti_publicState info) && bool_decide (tg_successor t' = None)
}.

Lemma routed_target_spec r c info first rest t :
  target_routed r c info first rest t (routed_target r c info first rest (routing_reset t)).
Proof.
  unfold routed_target. change (shut_down info (routing_reset t)) with (shut_down info t).
  destruct (shut_down info t) eqn:Es; split; cbn; try done; by rewrite Es.
Qed.

(** The target of a chain in the map. *)
Definition local_of (targets : gmap TargetId Target) (c : ChainInfo) : option TargetId :=
  (fun x => x.1.2) <$> find_local targets (ci_targets c) true.

(** The map after a successful update. *)
Definition routed (r : FlatRoutingInfo) (tm tm' : TargetMap) : Prop :=
  tm_routingInfoVersion tm' = fri_routingInfoVersion r
  /\ (forall cid c, fri_chains r !! cid = Some c ->
        match find_local (tm_targets tm) (ci_targets c) true with
        | None => tm_chainToTarget tm' !! cid = None
        | Some (first, tid, rest) =>
            tm_chainToTarget tm' !! cid = Some tid
            /\ exists info t t', fri_targets r !! tid = Some info /\ tm_targets tm !! tid = Some t
               /\ tm_targets tm' !! tid = Some t' /\ target_routed r c info first rest t t'
        end)
  /\ (forall cid, is_Some (tm_chainToTarget tm' !! cid) -> is_Some (fri_chains r !! cid))
  /\ (forall tid, (forall cid c, fri_chains r !! cid = Some c -> local_of (tm_targets tm) c <> Some tid) ->
        tm_targets tm' !! tid = routing_reset <$> tm_targets tm !! tid).

Lemma updateRouting_ok config r s :
  tm_ok s -> fri_ok r ->
  runs (tm_updateRouting config (Some r)) s (fun o s' => objects_stay s s' /\
    match o with Ok _ => tm_ok s' /\ routed r (sg_map s) (sg_map s') | Err _ => True | _ => False end).
Proof.
  intros Hok Hr. unfold tm_updateRouting. mstep. mstep. mstep. mstep. mstep; [split; [apply objects_stay_refl|done]|]. mstep.
  set (lastSrv := list_to_set _). mstep. unfold onMap. mstep. mstep. mstep.
  set (C := (map_to_list (fri_chains r)).*2).
  apply (runs_for_each (fun l s1 => tm_ok s1 /\ objects_stay s s1 /\ tm_routingInfoVersion (sg_map s1) = fri_routingInfoVersion r
    /\ exists p, p ++ l = C /\ routing_done r (sg_map s) p (sg_map s1))).
  - split_and!; [by apply tm_ok_reset|by intros h|done|]. exists []. split; [done|apply routing_done_start].
  - intros c l s1 (Hok1 & Hst1 & Hv1 & p & Ep & Hd). pose proof (chains_fresh _ _ _ _ Hr Ep) as Hfr.
    eapply runs_mono; [apply routing_chain_ok; [done|]|].
    + intros first tid rest t Hf Ht. rewrite (find_local_dom _ (tm_targets (sg_map s))) in Hf by apply Hd.
      rewrite (rd_rest _ _ _ _ Hd) in Ht; [by destruct (tm_targets (sg_map s) !! tid); simplify_eq/=|].
      intros c' f' r' Hc' Hf'. destruct (Hfr _ Hc') as [_ Hu]. eapply Hu; eapply find_local_in; eauto.
    + intros [[]|e| |] s2 [Hst2 H2]; try done; [|split; [by eapply objects_stay_trans|done]].
      split_and!; [by eapply tm_ok_routed|by eapply objects_stay_trans| |].
      * unfold chain_routed in H2. destruct (find_local _ _ _) as [[[first tid] rest]|]; [|congruence]. destruct H2 as (? & ? & ? & ? & ? & ? & ? & ->). done.
      * exists (p ++ [c]). split; [by rewrite <-app_assoc|by eapply routing_done_step].
  - intros s1 (Hok1 & Hst1 & Hv1 & p & Ep & Hd). rewrite app_nil_r in Ep. subst p. mstep. mstep. mstep. mstep.
    eapply runs_mono; [apply routing_restore_ok|].
    + intros id t h Hin%elem_of_map_to_list Hh. by apply (to_object _ Hok1 _ _ _ Hin).
    + intros o s2 (E & Hst2 & ->). split; [by eapply objects_stay_trans|]. split; [by eapply tm_ok_stay|]. rewrite E.
      split; [done|]. split_and!.
      * intros cid c Hc. pose proof (fo_chain _ Hr _ _ Hc) as <-.
        assert (c ∈ C) as HcC by (apply list_elem_of_fmap; exists (ci_chainId c, c); split; [done|by apply elem_of_map_to_list]).
        pose proof (rd_placed _ _ _ _ Hd _ HcC) as Hp. unfold chain_placed in Hp.
        destruct (find_local _ _ _) as [[[first tid] rest]|]; [|done]. destruct Hp as (info & t0 & ? & ? & ? & ?). split; [done|].
        exists info, t0, (routed_target r c info first rest (routing_reset t0)). split_and!; [done|done|done|apply routed_target_spec].
      * intros cid Hs. destruct (rd_chains _ _ _ _ Hd _ Hs) as (c & Hc & <-). apply list_elem_of_fmap in Hc as ([cid' c'] & -> & Hin%elem_of_map_to_list).
        cbn. rewrite (fo_chain _ Hr _ _ Hin). by eexists.
      * intros tid Hn. apply (rd_rest _ _ _ _ Hd). intros c first rest Hc Hf.
        apply list_elem_of_fmap in Hc as ([cid c'] & -> & Hin%elem_of_map_to_list). apply (Hn _ _ Hin). unfold local_of. cbn in Hf. by rewrite Hf.
Qed.

(** Every target of the new map comes from the old one. *)
Lemma routed_local r tm tm' id t' :
  fri_ok r -> routed r tm tm' -> tm_targets tm' !! id = Some t' ->
  exists t, tm_targets tm !! id = Some t /\ (tg_localState t' = tg_localState t \/ exists p, tg_localState t' = updateLocalState (tg_localState t) p).
Proof.
  intros Hr (_ & H1 & _ & H2) Ht'.
  destruct (decide (Exists (fun c => local_of (tm_targets tm) c = Some id) (map_to_list (fri_chains r)).*2)) as [He|Hn].
  - apply Exists_exists in He as (c & Hc & El). apply list_elem_of_fmap in Hc as ([cid c'] & -> & Hin%elem_of_map_to_list).
    specialize (H1 _ _ Hin). cbn in *. unfold local_of in El. destruct (find_local _ _ _) as [[[first tid] rest]|]; [|done]. injection El as ->.
    destruct H1 as (_ & info & t & t1 & _ & Ht & Ht1 & Htr). rewrite Ht1 in Ht'. injection Ht' as ->. exists t. split; [done|]. right. eexists. apply Htr.
  - rewrite H2 in Ht'; [destruct (tm_targets tm !! id) as [t|]; [|done]; injection Ht' as <-; exists t; by split; [|left]|].
    intros cid c Hc El. apply Hn, Exists_exists. exists c. split; [|done]. apply list_elem_of_fmap. exists (cid, c). by rewrite elem_of_map_to_list.
Qed.

(** Routing information of the manager is taken over as a whole or not at all:
    on success each chain has the target of this service that is first in it,
    with its version, states, head, tail and successor; on an error the map is
    the old one; the process never aborts. *)
Theorem update_routing_correct (config : StoreConfig) (boot : bool) (ri : RoutingInfo) (s : Storage) :
  tm_ok s -> ri_wf ri ->
  let r := flattenRoutingInfo boot ri in
  let '(o, s') := updateTargetMap (tm_updateRouting config (Some r)) s in
  tm_ok s' /\ match o with Ok _ => routed r (sg_map s) (sg_map s') | Err _ => sg_map s' = sg_map s | _ => False end.
Proof.
  intros Hok Hri r. pose proof (updateRouting_ok config r s Hok (flatten_ok boot ri Hri)) as H. unfold runs in H. unfold updateTargetMap.
  destruct (tm_updateRouting config (Some r) s) as [[[]|c| |] s']; cbn [fst snd] in H; destruct H as [Hst H]; try done.
  split; [|done]. by eapply tm_ok_stay.
Qed.

(** ** Runs of the map *)

(** Every change of the map, and of the objects by running requests. *)
Inductive tm_step (config : StoreConfig) : Storage -> Storage -> Prop :=
| step_add h s : is_Some (sg_objects s !! h) -> tm_step config s (updateTargetMap (tm_addStorageTarget h) s).2
| step_syncDone v s : tm_step config s (updateTargetMap (tm_syncReceiveDone v) s).2
| step_routing r s : fri_ok r -> tm_step config s (updateTargetMap (tm_updateRouting config (Some r)) s).2
| step_remove id s : tm_step config s (updateTargetMap (tm_removeTarget id) s).2
| step_offline id s : tm_step config s (updateTargetMap (tm_offlineTarget id) s).2
| step_offlineDisk path s : tm_step config s (updateTargetMap (tm_offlineTargets path) s).2
| step_diskState path low reject s : tm_step config s (updateTargetMap (tm_updateDiskState path low reject) s).2
| step_objects objects s : (forall h, is_Some (sg_objects s !! h) -> is_Some (objects !! h)) ->
    tm_step config s (set_sg_objects objects s).

Definition Storage_empty : Storage := mkStorage TargetMap_empty ∅.

Lemma updateTargetMap_ok (m : M Storage unit) s (P : Storage -> Prop) :
  runs m s (fun o s' => objects_stay s s' /\ match o with Ok _ => P s' | _ => True end) ->
  (forall s', sg_map s' = sg_map s -> objects_stay s s' -> P s') -> P (updateTargetMap m s).2.
Proof.
  unfold runs, updateTargetMap. intros H Hsame. destruct (m s) as [[[]|c| |] s']; cbn [fst snd] in *; destruct H as [Hst H]; [done|by apply Hsame..].
Qed.

(** A change of the targets one by one. *)
Lemma tm_ok_map (f : Target -> Target) s :
  (forall t, tg_targetId (f t) = tg_targetId t /\ tg_storageTarget (f t) = tg_storageTarget t
             /\ (tg_localState (f t) = LS_OFFLINE \/ tg_localState (f t) = tg_localState t)) ->
  tm_ok s -> tm_ok (set_sg_map (set_tm_targets (f <$> tm_targets (sg_map s)) (sg_map s)) s).
Proof.
  intros Hf Hok. split; cbn; intros id x; rewrite lookup_fmap; (destruct (tm_targets (sg_map s) !! id) as [t|] eqn:Et; [|done]); cbn;
    destruct (Hf t) as (F1 & F2 & F3).
  - intros [= <-]. rewrite F1. by apply (to_id _ Hok).
  - intros h [= <-]. rewrite F2. by apply (to_object _ Hok _ _ _ Et).
  - intros [= <-] Hn. rewrite F2. apply (to_online _ Hok _ _ Et). by destruct F3 as [|<-].
Qed.

Lemma tm_ok_alter (f : Target -> Target) tid s :
  (forall t, tm_targets (sg_map s) !! tid = Some t -> tg_targetId (f t) = tg_targetId t /\ tg_storageTarget (f t) = tg_storageTarget t
             /\ (tg_localState (f t) = LS_OFFLINE \/ is_Some (tg_storageTarget t))) ->
  tm_ok s -> tm_ok (set_sg_map (set_tm_targets (alter f tid (tm_targets (sg_map s))) (sg_map s)) s).
Proof.
  intros Hf Hok. split; cbn; intros id x; (destruct (decide (id = tid)) as [->|]; [rewrite lookup_alter_eq|rewrite lookup_alter_ne by done; by apply Hok]);
    (destruct (tm_targets (sg_map s) !! tid) as [t|] eqn:Et; [|done]); cbn; destruct (Hf t eq_refl) as (F1 & F2 & F3).
  - intros [= <-]. rewrite F1. by apply (to_id _ Hok).
  - intros h [= <-]. rewrite F2. by apply (to_object _ Hok _ _ _ Et).
  - intros [= <-] Hn. rewrite F2. by destruct F3.
Qed.

(** The moves of local states: a target shuts down, comes back, or has caught
    up. *)
Definition local_move (a b : LocalTargetState) : bool :=
  bool_decide (a = b) || bool_decide (b = LS_OFFLINE)
  || (bool_decide (a = LS_OFFLINE) && bool_decide (b = LS_ONLINE)) || (bool_decide (a = LS_ONLINE) && bool_decide (b = LS_UPTODATE)).

Definition states_move (s s' : Storage) : Prop :=
  forall id t t', tm_targets (sg_map s) !! id = Some t -> tm_targets (sg_map s') !! id = Some t' ->
    local_move (tg_localState t) (tg_localState t') = true.
Definition states_known (s : Storage) : Prop := forall id t, tm_targets (sg_map s) !! id = Some t -> tg_localState t <> LS_INVALID.

Lemma local_move_refl a : local_move a a = true.
Proof. unfold local_move. by rewrite bool_decide_eq_true_2. Qed.
Lemma local_move_offline a : local_move a LS_OFFLINE = true.
Proof. by destruct a. Qed.
Lemma updateLocalState_move l p : local_move l (updateLocalState l p) = true.
Proof. by destruct l, p. Qed.

Definition tm_good (s0 s : Storage) : Prop := tm_ok s /\ states_known s /\ states_move s0 s.

Lemma good_same s s' : tm_ok s -> states_known s -> sg_map s' = sg_map s -> objects_stay s s' -> tm_good s s'.
Proof.
  intros Hok Hk E Hst. split_and!; [by eapply tm_ok_stay|unfold states_known; by rewrite E|].
  intros id t t' Ht. rewrite E, Ht. intros [= <-]. apply local_move_refl.
Qed.

Lemma good_map (f : Target -> Target) s :
  (forall t, tg_targetId (f t) = tg_targetId t /\ tg_storageTarget (f t) = tg_storageTarget t
             /\ (tg_localState (f t) = LS_OFFLINE \/ tg_localState (f t) = tg_localState t)) ->
  tm_ok s -> states_known s -> tm_good s (set_sg_map (set_tm_targets (f <$> tm_targets (sg_map s)) (sg_map s)) s).
Proof.
  intros Hf Hok Hk. split_and!; [by apply tm_ok_map| |]; intros id; cbn.
  - intros t'. rewrite lookup_fmap. destruct (tm_targets (sg_map s) !! id) as [t|] eqn:Et; [|done]. intros [= <-].
    destruct (Hf t) as (_ & _ & [-> | ->]); [done|by apply (Hk id)].
  - intros t t' Ht. rewrite lookup_fmap, Ht. intros [= <-]. destruct (Hf t) as (_ & _ & [-> | ->]); [apply local_move_offline|apply local_move_refl].
Qed.

Lemma good_alter (f : Target -> Target) tid s :
  (forall t, tm_targets (sg_map s) !! tid = Some t -> tg_targetId (f t) = tg_targetId t /\ tg_storageTarget (f t) = tg_storageTarget t
             /\ (tg_localState (f t) = LS_OFFLINE
                 \/ is_Some (tg_storageTarget t) /\ tg_localState t <> LS_OFFLINE /\ tg_localState (f t) = LS_UPTODATE)) ->
  tm_ok s -> states_known s -> tm_good s (set_sg_map (set_tm_targets (alter f tid (tm_targets (sg_map s))) (sg_map s)) s).
Proof.
  intros Hf Hok Hk. split_and!.
  - apply tm_ok_alter; [|done]. intros t Ht. destruct (Hf t Ht) as (F1 & F2 & [F3|(F3 & _)]); auto.
  - intros id t'. cbn. destruct (decide (id = tid)) as [->|]; [rewrite lookup_alter_eq|rewrite lookup_alter_ne by done; by apply Hk].
    destruct (tm_targets (sg_map s) !! tid) as [t|] eqn:Et; [|done]. intros [= <-]. by destruct (Hf t eq_refl) as (_ & _ & [->|(_ & _ & ->)]).
  - intros id t t' Ht. cbn. destruct (decide (id = tid)) as [->|]; [rewrite lookup_alter_eq, Ht|rewrite lookup_alter_ne, Ht by done; intros [= <-]; apply local_move_refl].
    intros [= <-]. specialize (Hk _ _ Ht). destruct (Hf t Ht) as (_ & _ & [->|(_ & Hn & ->)]); [apply local_move_offline|].
    by destruct (tg_localState t).
Qed.

Lemma getByChainId_inv tm v allow t :
  tm_getByChainId tm v allow = Ok t ->
  exists tid, tm_chainToTarget tm !! vc_chainId v = Some tid /\ tm_targets tm !! tid = Some t /\ tg_localState t <> LS_OFFLINE
    /\ is_Some (tg_storageTarget t)
    /\ (tg_vChainId t = v \/ allow = true /\ vc_chainVer v <= vc_chainVer (tg_vChainId t)).
Proof.
  unfold tm_getByChainId, tm_getTargetId, tm_getTarget. destruct (tm_chainToTarget tm !! _) as [tid|] eqn:Ec; [|done].
  destruct (tm_targets tm !! tid) as [t0|] eqn:Et; [|done]. destruct (negb (bool_decide (tg_vChainId t0 = v)) && _) eqn:Ev; [done|].
  destruct (bool_decide (tg_localState t0 = LS_OFFLINE)) eqn:Hl; [done|]. destruct (bool_decide (tg_storageTarget t0 = None)) eqn:Hs; [done|].
  apply bool_decide_eq_false in Hl, Hs.
  intros [= ->]. exists tid. split_and!; [done|done|done|by destruct (tg_storageTarget t)|].
  apply andb_false_iff in Ev as [E|E]; [left; by apply negb_false_iff, bool_decide_eq_true in E|].
  apply orb_false_iff in E as [E1 E2]. right. split; [by apply negb_false_iff|]. rewrite Z.gtb_ltb in E2. by apply Z.ltb_ge.
Qed.

Lemma add_ok h s : tm_ok s -> states_known s -> is_Some (sg_objects s !! h) ->
  runs (tm_addStorageTarget h) s (fun o s' => objects_stay s s' /\ match o with Ok _ => tm_good s s' | _ => True end).
Proof.
  intros Hok Hk Hh. unfold tm_addStorageTarget. mstep. eapply runs_mono; [by apply getObject_ok|]. intros o s1 (-> & t & -> & Ht).
  cbv beta iota delta [andThen]. do 3 mstep. set (tid := sto_targetId t). set (nt := mkTarget _ _ _ _ _ _ _ _ _ _ _ _ _ _ _ _). mstep.
  assert (tm_targets (sg_map s) !! tid = None \/ (exists old, tm_targets (sg_map s) !! tid = Some old /\ tg_localState old = LS_OFFLINE) ->
    tm_good s (set_sg_map (set_tm_targets (<[tid := nt]> (tm_targets (sg_map s))) (sg_map s)) s)) as Hgood.
  { intros Hold. split_and!.
    - split; cbn; intros id x; (destruct (decide (id = tid)) as [->|]; [rewrite lookup_insert_eq|rewrite lookup_insert_ne by done; by apply Hok]).
      + by intros [= <-]. + intros h' [= <-] [= <-]. done. + intros [= <-] _. by eexists.
    - intros id x. cbn. destruct (decide (id = tid)) as [->|]; [rewrite lookup_insert_eq; by intros [= <-]|rewrite lookup_insert_ne by done; apply Hk].
    - intros id x x' Hx. cbn. destruct (decide (id = tid)) as [->|]; [rewrite lookup_insert_eq; intros [= <-]|rewrite lookup_insert_ne, Hx by done; intros [= <-]; apply local_move_refl].
      destruct Hold as [Hn|(old & Hold & E)]; [congruence|]. rewrite Hold in Hx. injection Hx as <-. by rewrite E. }
  destruct (tm_targets (sg_map s) !! tid) as [old|] eqn:Eold.
  - mstep; [split; [apply objects_stay_refl|done]|]. unfold onMap. msteps. split; [by intros h'|]. apply Hgood. right. exists old. split; [done|].
    match goal with H : negb _ = false |- _ => by apply negb_false_iff, bool_decide_eq_true in H end.
  - unfold onMap. msteps. split; [by intros h'|]. apply Hgood. by left.
Qed.

Lemma updateLocalState_known l p : l <> LS_INVALID -> updateLocalState l p <> LS_INVALID.
Proof. by destruct l, p. Qed.

Lemma routing_good config r s :
  tm_ok s -> states_known s -> fri_ok r ->
  runs (tm_updateRouting config (Some r)) s (fun o s' => objects_stay s s' /\ match o with Ok _ => tm_good s s' | _ => True end).
Proof.
  intros Hok Hk Hr. eapply runs_mono; [by apply updateRouting_ok|]. intros [[]|c| |] s' [Hst H]; try done. split; [done|]. destruct H as [Hok' Hrt].
  split_and!; [done| |].
  - intros id t' Ht'. destruct (routed_local _ _ _ _ _ Hr Hrt Ht') as (t & Ht & [->|[p ->]]); [by apply (Hk id)|apply updateLocalState_known; by apply (Hk id)].
  - intros id t t' Ht Ht'. destruct (routed_local _ _ _ _ _ Hr Hrt Ht') as (t0 & Ht0 & E). rewrite Ht in Ht0. injection Ht0 as ->.
    destruct E as [->|[p ->]]; [apply local_move_refl|apply updateLocalState_move].
Qed.

Lemma tm_step_ok config s s' : tm_ok s -> states_known s -> tm_step config s s' -> tm_good s s'.
Proof.
  intros Hok Hk Hs. destruct Hs as [h s Hh|v s|r s Hr|id s|id s|path s|path low reject s|objects s Hobj];
    (assert (forall x, sg_map x = sg_map s -> objects_stay s x -> tm_good s x) as Hsame by (intros; by apply good_same));
    assert (objects_stay s s) as Hrefl by apply objects_stay_refl; [apply updateTargetMap_ok; [|done]..|by apply Hsame].
  - by apply add_ok.
  - unfold tm_syncReceiveDone. do 5 mstep. destruct (tm_getByChainId _ _ _) as [t|c| |] eqn:Eg; cbv beta iota delta [andThen]; [|by split..].
    apply getByChainId_inv in Eg as (tid & _ & Ht & Hn & Hst & _). unfold modTarget, onMap. mstep. split; [done|].
    apply good_alter; [|done|done]. intros t0 Ht0. split_and!; [done|done|]. right. rewrite (to_id _ Hok _ _ Ht), Ht in Ht0. by injection Ht0 as <-.
  - by apply routing_good.
  - unfold tm_removeTarget, getMutableTarget, tm_getTarget, onMap. msteps. destruct (tm_targets (sg_map s) !! id); [|by split].
    msteps. split; [done|]. split_and!.
    + split; cbn; intros id' x; [|intros h|]; intros [_ Hx]%lookup_delete_Some; [by apply (to_id _ Hok)|by apply (to_object _ Hok _ _ _ Hx)|by apply (to_online _ Hok _ _ Hx)].
    + intros id' x. cbn. rewrite lookup_delete_Some. intros [_ Hx]. by apply (Hk id').
    + intros id' x x' Hx. cbn. rewrite lookup_delete_Some, Hx. intros [_ [= <-]]. apply local_move_refl.
  - unfold tm_offlineTarget, getMutableTarget, tm_getTarget, modTarget, onMap. msteps. destruct (tm_targets (sg_map s) !! id) as [t|] eqn:Et; [|by split].
    msteps; [by split|]. split; [done|]. apply good_alter; [|done|done]. intros t0 _. split_and!; [done|done|by left].
  - unfold tm_offlineTargets, onMap. mstep. split; [done|]. apply good_map; [|done|done]. intros t. case_match; split_and!; try done; [by left|by right].
  - unfold tm_updateDiskState, onMap. mstep. split; [done|]. apply good_map; [|done|done]. intros t. case_match; split_and!; try done; by right.
Qed.

(** C39: In every run of a service, whatever routing information it gets and
    whatever fails, pointers stay valid, a target without object is offline,
    and local states move only as the life of a target allows. *)
Theorem target_map_invariant (config : StoreConfig) (s s' : Storage) :
  rtc (tm_step config) Storage_empty s -> tm_step config s s' ->
  tm_ok s' /\ forall id t t', tm_targets (sg_map s) !! id = Some t -> tm_targets (sg_map s') !! id = Some t' ->
    local_move (tg_localState t) (tg_localState t') = true.
Proof.
  intros Hrun Hs. assert (tm_ok s /\ states_known s) as [Hok Hk].
  { clear Hs. apply (rtc_ind_r (R := tm_step config) (fun x => tm_ok x /\ states_known x) Storage_empty); [|intros y z _ Hyz [Hy Hky]; by destruct (tm_step_ok _ _ _ Hy Hky Hyz) as (? & ? & _)|done].
    split; [split|]; intros id t; cbn; by rewrite lookup_empty. }
  destruct (tm_step_ok _ _ _ Hok Hk Hs) as (? & _ & ?). done.
Qed.

(** A target is added and then taken offline by a user. *)
Definition map_object : StorageTarget :=
  mkStorageTarget (mkTargetConfig (mkPhysicalConfig 101 1 [4096] false 1) ["data"; "target"] 7 "" true true 0) NoFile
    (mkChunkStore (ChunkMetaStore_new (mkDisk MetaKV_empty ∅ [] [] 0)) ∅) {[ 4096 ]} 0 3.
Definition map_config : StoreConfig := mkStoreConfig (mkMetaConfig 8192 2 4 1000 1000) [] true PQS_NONE.
Definition map_created : Storage := mkStorage TargetMap_empty {[ 0 := map_object ]}.
Definition map_added : Storage := (updateTargetMap (tm_addStorageTarget 0) map_created).2.

Lemma map_added_reached : rtc (tm_step map_config) Storage_empty map_added.
Proof.
  eapply rtc_l; [apply (step_objects map_config {[ 0 := map_object ]} Storage_empty); intros h [? H]; cbn in H; by rewrite lookup_empty in H|].
  apply rtc_once. apply (step_add map_config 0 map_created). by exists map_object.
Qed.

Lemma target_map_invariant_witness :
  let s' := (updateTargetMap (tm_offlineTarget 101) map_added).2 in
  (tg_localState <$> tm_targets (sg_map s') !! 101) = Some LS_OFFLINE
  /\ tm_ok s' /\ forall id t t', tm_targets (sg_map map_added) !! id = Some t -> tm_targets (sg_map s') !! id = Some t' ->
       local_move (tg_localState t) (tg_localState t') = true.
Proof.
  intros s'. split; [vm_compute; reflexivity|]. exact (target_map_invariant map_config map_added s' map_added_reached (step_offline map_config 101 map_added)).
Defined.
