(* ===== verification/StorageService.v ===== *)
(** * Updates of a storage service ([src/storage/service/{StorageOperator,ReliableUpdate,ReliableForwarding}.cc])

    A request to update a chunk is checked, applied to the local target,
    forwarded to the next target of the chain, and committed when the rest of
    the chain has committed it.  The coroutine [handleUpdate] waits for the lock
    of the chunk, for the answer of the next service, and between two attempts
    to reach it.  Its parts between these points are the definitions
    [update_begin], [handle_locked], [forward_attempt], [forward_reply],
    [wait_round] and [handle_finish]; a [Handler] holds its local variables.  Every part is one step of the service.

    Results travel as [IOResult]s whose length may be an error, as in the code.
    The transfer of the data, the allocation of buffers, the time left for
    retries and the clock come from outside ([Env]).  Targets use no chunk
    engine. *)

From stdpp Require Import base gmap list strings sorting.
From Stdlib Require Import ZArith Lia.
From S2P Require Import Prelude StatusCode Bytes MgmtdTypes StorageTypes ChunkFiles ChunkMetaStore ChunkReplica TargetMap.

(** ** State *)

Record ReqResult := mkReqResult {
  rr_channelSeqnum : ChannelSeqNum;
  rr_requestId : RequestId;
  rr_updateResult : IOResult;
  rr_succUpdateVer : ChunkVer;
  rr_generationId : Z
}.
Definition ReqResult_default : ReqResult := mkReqResult 0 0 IOResult_default 0 0.

Record ClientStatus := mkClientStatus {
  cs_channelMap : gmap (ChainId * ChannelId) ReqResult;
  cs_lastUsedTime : UtcTime
}.
Definition set_cs_channelMap v r := mkClientStatus v (cs_lastUsedTime r).
Definition set_cs_lastUsedTime v r := mkClientStatus (cs_channelMap r) v.
Definition ClientStatus_new : ClientStatus := mkClientStatus ∅ 0.

Record ServiceConfig := mkServiceConfig {
  svc_store : StoreConfig;
  svc_read_only : bool;
  svc_max_inline_forward_bytes : Z;
  svc_clean_up_expired_clients : bool;
  svc_expired_clients_timeout : Z;
  svc_batch_read_ignore_chain_version : bool
}.

(** A service; locks are kept as the sets of what is locked. *)
Record Server := mkServer {
  sv_storage : Storage;
  sv_clients : gmap Z ClientStatus;
  sv_stopped : bool;
  sv_chunkLocks : gset (Handle * ChunkId);
  sv_channelLocks : gset (Handle * (Z * ChannelId))
}.
Definition set_sv_storage v r := mkServer v (sv_clients r) (sv_stopped r) (sv_chunkLocks r) (sv_channelLocks r).
Definition set_sv_clients v r := mkServer (sv_storage r) v (sv_stopped r) (sv_chunkLocks r) (sv_channelLocks r).
Definition set_sv_stopped v r := mkServer (sv_storage r) (sv_clients r) v (sv_chunkLocks r) (sv_channelLocks r).
Definition set_sv_chunkLocks v r := mkServer (sv_storage r) (sv_clients r) (sv_stopped r) v (sv_channelLocks r).
Definition set_sv_channelLocks v r := mkServer (sv_storage r) (sv_clients r) (sv_stopped r) (sv_chunkLocks r) v.

(** The local variables of [handleUpdate] and [forwardWithRetry]. *)
Record Handler := mkHandler {
  hd_req : UpdateReq;
  hd_target : Target;
  hd_reliable : bool;
  hd_channelLock : option (Handle * (Z * ChannelId));
  hd_chunkLock : option (Handle * ChunkId);
  hd_remoteBuf : bytes;
  hd_updateResult : IOResult;
  hd_commitIO : CommitIO;
  hd_retryCount : Z;
  hd_sent : UpdateReq
}.
Definition set_hd_req v r := mkHandler v (hd_target r) (hd_reliable r) (hd_channelLock r) (hd_chunkLock r) (hd_remoteBuf r) (hd_updateResult r) (hd_commitIO r) (hd_retryCount r) (hd_sent r).
Definition set_hd_target v r := mkHandler (hd_req r) v (hd_reliable r) (hd_channelLock r) (hd_chunkLock r) (hd_remoteBuf r) (hd_updateResult r) (hd_commitIO r) (hd_retryCount r) (hd_sent r).
Definition set_hd_reliable v r := mkHandler (hd_req r) (hd_target r) v (hd_channelLock r) (hd_chunkLock r) (hd_remoteBuf r) (hd_updateResult r) (hd_commitIO r) (hd_retryCount r) (hd_sent r).
Definition set_hd_channelLock v r := mkHandler (hd_req r) (hd_target r) (hd_reliable r) v (hd_chunkLock r) (hd_remoteBuf r) (hd_updateResult r) (hd_commitIO r) (hd_retryCount r) (hd_sent r).
Definition set_hd_chunkLock v r := mkHandler (hd_req r) (hd_target r) (hd_reliable r) (hd_channelLock r) v (hd_remoteBuf r) (hd_updateResult r) (hd_commitIO r) (hd_retryCount r) (hd_sent r).
Definition set_hd_remoteBuf v r := mkHandler (hd_req r) (hd_target r) (hd_reliable r) (hd_channelLock r) (hd_chunkLock r) v (hd_updateResult r) (hd_commitIO r) (hd_retryCount r) (hd_sent r).
Definition set_hd_updateResult v r := mkHandler (hd_req r) (hd_target r) (hd_reliable r) (hd_channelLock r) (hd_chunkLock r) (hd_remoteBuf r) v (hd_commitIO r) (hd_retryCount r) (hd_sent r).
Definition set_hd_commitIO v r := mkHandler (hd_req r) (hd_target r) (hd_reliable r) (hd_channelLock r) (hd_chunkLock r) (hd_remoteBuf r) (hd_updateResult r) v (hd_retryCount r) (hd_sent r).
Definition set_hd_retryCount v r := mkHandler (hd_req r) (hd_target r) (hd_reliable r) (hd_channelLock r) (hd_chunkLock r) (hd_remoteBuf r) (hd_updateResult r) (hd_commitIO r) v (hd_sent r).
Definition set_hd_sent v r := mkHandler (hd_req r) (hd_target r) (hd_reliable r) (hd_channelLock r) (hd_chunkLock r) (hd_remoteBuf r) (hd_updateResult r) (hd_commitIO r) (hd_retryCount r) v.

(** What the environment decides in a step: the bytes in the buffer after the
    transfer, the allocation of a buffer, whether the time for retries is over,
    and the clock. *)
Record Env := mkEnv { env_transfer : outcome bytes; env_alloc : outcome unit; env_last : bool; env_now : UtcTime }.

Definition onStorage {A} (m : M Storage A) : M Server A := zoom sv_storage set_sv_storage m.
Definition getTargetOf (vChainId : VersionedChainId) (allowOutdatedChainVer : bool) : M Server (outcome Target) :=
  gets (fun s => tm_getByChainId (sg_map (sv_storage s)) vChainId allowOutdatedChainVer).

(** The error of an [outcome] that is not a value. *)
Definition error_of {A} (o : outcome A) : Z := match o with Err c => c | _ => 0 end.
Definition result_code (r : IOResult) : Z := match io_lengthInfo r with Err c => c | _ => 0 end.
Definition result_ok (r : IOResult) : bool := match io_lengthInfo r with Ok _ => true | _ => false end.

(** The object of a target; a null pointer is undefined behaviour. *)
Definition handle_of (t : Target) : M Server Handle := match tg_storageTarget t with Some h => mret h | None => fatal end.

Definition payload_chain (req : UpdateReq) : VersionedChainId := gk_vChainId (uio_key (ur_payload req)).
Definition payload_chunk (req : UpdateReq) : ChunkId := gk_chunkId (uio_key (ur_payload req)).
Definition set_updateVer (v : ChunkVer) (req : UpdateReq) : UpdateReq := set_ur_payload (set_uio_updateVer v (ur_payload req)) req.

(** ** The local target *)

Section service.
Context (config : ServiceConfig) `{Crc}.

Definition update_job (req : UpdateReq) (commitIO : CommitIO) (type : UpdateType) (data : bytes) (allowToAllocate : bool) : UpdateJob :=
  mkUpdateJob (tag_requestId (ur_tag req)) (tag_clientId (ur_tag req)) type (ur_payload req) commitIO (ur_options req) data allowToAllocate.

(** [StorageTarget::updateChunk] on the object of a target. *)
Definition runJob (h : Handle) (job : UpdateJob) : M Server IOResult :=
  onStorage (onObject h (fun t =>
    let js := updateChunk (svc_store config) job (mkJobState (sto_store t) IOResult_default) in
    (match io_lengthInfo (js_result js) with Fatal => Fatal | Pending => Pending | _ => Ok (js_result js) end,
     set_sto_store (js_store js) t))).

(** [StorageOperator::doUpdate]: the result, and the buffer that is forwarded. *)
Definition doUpdate (env : Env) (req : UpdateReq) (target : Target) (allowToAllocate : bool) : M Server (IOResult * bytes) :=
  let io := ur_payload req in
  let inline := BITFLAGS_CONTAIN (ur_featureFlags req) SEND_DATA_INLINE in
  let run (data remoteBuf : bytes) : M Server (IOResult * bytes) :=
    if BITFLAGS_CONTAIN (ur_featureFlags req) BYPASS_DISKIO
    then mret (set_io_lengthInfo (Ok (uio_length io)) IOResult_default, remoteBuf)
    else
      h ← handle_of target;
      r ← runJob h (update_job req CommitIO_default (uio_updateType io) data allowToAllocate);
      when ((result_code r =? StorageCode_kChunkWriteFailed) || (result_code r =? StorageCode_kChunkMetadataSetError))
        (onStorage (updateTargetMap (tm_offlineTargets (removelast (tg_path target))))) ;;
      mret (r, remoteBuf) in
  if inline then
    if negb (Z.of_nat (length (uio_inlinebuf io)) =? uio_length io) then mret (IOResult_error StorageClientCode_kFoundBug, [])
    else run (uio_inlinebuf io) []
  else if isWrite io then
    match env_transfer env with
    | Ok data => run data data
    | o => mret (IOResult_error (error_of o), [])
    end
  else run [] [].

(** [StorageOperator::doCommit] *)
Definition doCommit (req : UpdateReq) (commitIO : CommitIO) (target : Target) : M Server IOResult :=
  if BITFLAGS_CONTAIN (ur_featureFlags req) BYPASS_DISKIO
  then mret (set_io_commitChainVer (cio_commitChainVer commitIO) (set_io_commitVer (cio_commitVer commitIO)
               (set_io_lengthInfo (Ok 0) IOResult_default)))
  else
    h ← handle_of target;
    runJob h (mkUpdateJob (tag_requestId (ur_tag req)) (tag_clientId (ur_tag req)) UT_COMMIT
                (mkUpdateIO 0 0 0 GlobalKey_default [] 0 UT_INVALID no_checksum []) commitIO (ur_options req) [] true).

(** ** Requests *)

(** The end of [ReliableUpdate::update]: the result is kept for duplicates, the
    channel unlocked. *)
Definition getReqResult (s : Server) (req : UpdateReq) : ReqResult :=
  default ReqResult_default (st ← sv_clients s !! tag_clientId (ur_tag req);
    cs_channelMap st !! (vc_chainId (payload_chain req), ch_id (tag_channel (ur_tag req)))).
Definition setReqResult (req : UpdateReq) (f : ReqResult -> ReqResult) (now : option UtcTime) : M Server unit :=
  modify (fun s =>
    let st := default ClientStatus_new (sv_clients s !! tag_clientId (ur_tag req)) in
    let key := (vc_chainId (payload_chain req), ch_id (tag_channel (ur_tag req))) in
    let st' := mkClientStatus (<[key := f (getReqResult s req)]> (cs_channelMap st)) (default (cs_lastUsedTime st) now) in
    set_sv_clients (<[tag_clientId (ur_tag req) := st']> (sv_clients s)) s).
Definition unlockChannel (lock : option (Handle * (Z * ChannelId))) : M Server unit :=
  match lock with
  | Some l => modify (fun s => set_sv_channelLocks (sv_channelLocks s ∖ {[l]}) s)
  | None => mret tt
  end.
Definition reliable_end (req : UpdateReq) (target : Target) (lock : option (Handle * (Z * ChannelId))) (result : IOResult) : M Server unit :=
  h ← handle_of target;
  o ← onStorage (getObject h);
  setReqResult req (fun _ => mkReqResult (ch_seqnum (tag_channel (ur_tag req))) (tag_requestId (ur_tag req)) result
                               (uio_updateVer (ur_payload req)) (sto_generationId o)) None ;;
  unlockChannel lock.

(** Part 1 of [handleUpdate]. *)
Definition handle_checks (req : UpdateReq) (target : Target) : option Z :=
  if uo_fromClient (ur_options req) && negb (tg_isHead target) then Some StorageClientCode_kRoutingError
  else if uo_fromClient (ur_options req) && svc_read_only config then Some kReadOnlyMode
  else if bool_decide (payload_chunk req = []) then Some kInvalidArg
  else None.

Definition Handler_new (req : UpdateReq) (target : Target) (reliable : bool) (lock : option (Handle * (Z * ChannelId))) : Handler :=
  mkHandler req target reliable lock None [] IOResult_default CommitIO_default 0 req.

Definition handle_begin (req : UpdateReq) (target : Target) (reliable : bool) (lock : option (Handle * (Z * ChannelId)))
    : M Server (IOResult + Handler) :=
  match handle_checks req target with
  | Some code =>
      when reliable (reliable_end req target lock (IOResult_error code)) ;;
      mret (inl (IOResult_error code))
  | None => mret (inr (Handler_new req target reliable lock))
  end.

(** The cached result of a request, with its length corrected. *)
Definition cached_result (req : UpdateReq) (r : ReqResult) : IOResult :=
  match io_lengthInfo (rr_updateResult r) with
  | Ok n => if negb (n =? uio_length (ur_payload req)) && negb (isExtend (ur_payload req))
            then set_io_lengthInfo (Ok (uio_length (ur_payload req))) (rr_updateResult r) else rr_updateResult r
  | _ => rr_updateResult r
  end.

(** [ReliableUpdate::update] up to [handleUpdate]. *)
Definition reliable_begin (env : Env) (req : UpdateReq) (target : Target) : M Server (IOResult + Handler) :=
  s ← getS;
  if sv_stopped s then mret (inl (IOResult_error RPCCode_kRequestRefused))
  else if ch_id (tag_channel (ur_tag req)) =? 0 then mret (inl (IOResult_error StorageClientCode_kFoundBug))
  else
    setReqResult req (fun r => r) (Some (env_now env)) ;;
    h ← handle_of target;
    let lock := (h, (tag_clientId (ur_tag req), ch_id (tag_channel (ur_tag req)))) in
    if bool_decide (lock ∈ sv_channelLocks s) then mret (inl (IOResult_error StorageCode_kChannelIsLocked))
    else
      o ← onStorage (getObject h);
      let cached := getReqResult s req in
      let seqnum := ch_seqnum (tag_channel (ur_tag req)) in
      let updateVer := uio_updateVer (ur_payload req) in
      let start (req : UpdateReq) : M Server (IOResult + Handler) :=
        modify (fun s => set_sv_channelLocks ({[lock]} ∪ sv_channelLocks s) s) ;;
        handle_begin req target true (Some lock) in
      if seqnum <? rr_channelSeqnum cached then mret (inl (IOResult_error StorageClientCode_kDuplicateUpdate))
      else if (seqnum =? rr_channelSeqnum cached) && (sto_generationId o =? rr_generationId cached) then
        if negb (tag_requestId (ur_tag req) =? rr_requestId cached) then mret (inl (IOResult_error StorageClientCode_kFoundBug))
        else if result_ok (rr_updateResult cached) then
          if (updateVer =? 0) || (updateVer =? io_updateVer (rr_updateResult cached))
          then mret (inl (cached_result req cached))
          else start req
        else if (updateVer =? 0) && negb (rr_succUpdateVer cached =? 0) then start (set_updateVer (rr_succUpdateVer cached) req)
        else start req
      else start req.

(** [StorageOperator::update], and with [fromClient] set [write]. *)
Definition update_begin (env : Env) (req : UpdateReq) : M Server (IOResult + Handler) :=
  target ← getTargetOf (payload_chain req) false;
  match target with
  | Ok target =>
      if isRemove (ur_payload req) && (ch_id (tag_channel (ur_tag req)) =? 0)
      then handle_begin req target false None
      else reliable_begin env req target
  | o => mret (inl (IOResult_error (error_of o)))
  end.

(** The chunk lock of a handler. *)
Definition chunk_lock (h : Handler) : M Server (Handle * ChunkId) :=
  o ← handle_of (hd_target h); mret (o, payload_chunk (hd_req h)).
Definition chunk_free (h : Handler) (s : Server) : bool :=
  match tg_storageTarget (hd_target h) with
  | Some o => bool_decide ((o, payload_chunk (hd_req h)) ∉ sv_chunkLocks s)
  | None => false
  end.

(** The end of a request, which may hold the lock of its chunk. *)
Definition handle_end (h : Handler) (result : IOResult) : M Server IOResult :=
  match hd_chunkLock h with
  | Some lock => modify (fun s => set_sv_chunkLocks (sv_chunkLocks s ∖ {[lock]}) s)
  | None => mret tt
  end ;;
  when (hd_reliable h) (reliable_end (hd_req h) (hd_target h) (hd_channelLock h) result) ;;
  mret result.

(** Part 3: the outcome of the local update, for the next part or for the
    caller. *)
Definition update_outcome (req : UpdateReq) (r : IOResult) : IOResult + UpdateReq * IOResult :=
  let v := uio_updateVer (ur_payload req) in
  match io_lengthInfo r with
  | Ok _ =>
      if v =? 0 then inr (set_updateVer (io_updateVer r) req, r)
      else if v =? io_updateVer r then inr (req, r)
      else inl (IOResult_error StorageCode_kChunkVersionMismatch)
  | _ =>
      if result_code r =? StorageCode_kChunkCommittedUpdate then
        inl (set_io_commitVer v (set_io_updateVer v (set_io_lengthInfo (Ok (uio_length (ur_payload req))) r)))
      else if result_code r =? StorageCode_kChunkStaleUpdate then
        inr (req, set_io_updateVer v (set_io_lengthInfo (Ok (uio_length (ur_payload req))) r))
      else inl r
  end.

(** Parts 2 and 3: the lock of the chunk is free. *)
Definition handle_locked (env : Env) (h : Handler) : M Server (IOResult + Handler) :=
  lock ← chunk_lock h;
  modify (fun s => set_sv_chunkLocks ({[lock]} ∪ sv_chunkLocks s) s) ;;
  let h := set_hd_chunkLock (Some lock) h in
  let req := hd_req h in
  target ← getTargetOf (payload_chain req) false;
  match target with
  | Ok target =>
      let h' := set_hd_target target h in
      r ← doUpdate env req target (negb (uo_fromClient (ur_options req) && tg_rejectCreateChunk target));
      match update_outcome req r.1 with
      | inl result => r' ← handle_end h' result; mret (inl r')
      | inr (req', result) =>
          let commitIO := mkCommitIO (uio_key (ur_payload req')) (io_updateVer result) false 0 (isRemove (ur_payload req')) false in
          mret (inr (set_hd_commitIO commitIO (set_hd_updateResult result (set_hd_remoteBuf r.2 (set_hd_req req' h')))))
      end
  | o => r' ← handle_end h (IOResult_error (error_of o)); mret (inl r')
  end.

(** ** Forwarding *)

(** The whole chunk, read for a successor that is being synchronized: the
    request that replaces the chunk. *)
Definition read_for_syncing (env : Env) (req updateReq : UpdateReq) (target : Target) : M Server (outcome UpdateReq) :=
  match env_alloc env with
  | Ok _ =>
      h ← handle_of target;
      let readIO := mkReadIO 0 (uio_chunkSize (ur_payload req)) (uio_key (ur_payload updateReq)) (uio_chunkSize (ur_payload req)) in
      r ← attempt (onStorage (onObject h (fun t =>
        let '(o, js) := (st ← aioPrepareRead readIO (AioReadState_new readIO true);
                         st' ← aio_pread st;
                         n ← aio_setResult (ci_type (uio_checksum (ur_payload req))) true readIO st';
                         mret (n, st')) (mkJobState (sto_store t) IOResult_default) in
        (match o with Ok (n, st) => Ok (n, st, js_result js) | Err c => Err c | Fatal => Fatal | Pending => Pending end,
         set_sto_store (js_store js) t))));
      match r with
      | inr code => mret (Err code)
      | inl (n, st, result) =>
          let data := take (Z.to_nat n) (rs_localbuf st) in
          let inline := n <=? svc_max_inline_forward_bytes config in
          let flags := BITFLAGS_CLEAR (ur_featureFlags updateReq) SEND_DATA_INLINE in
          let options := if uo_isSyncing (ur_options req)
                         then set_uo_commitChainVer (io_commitChainVer result) (ur_options updateReq) else ur_options updateReq in
          let payload := set_uio_updateType UT_WRITE (set_uio_checksum (rs_chunkChecksum st) (set_uio_rdmabuf data
                           (set_uio_length n (set_uio_offset 0 (set_uio_updateVer (io_updateVer result)
                             (set_uio_inlinebuf (if inline then data else if BITFLAGS_CONTAIN (ur_featureFlags updateReq) SEND_DATA_INLINE then []
                                                 else uio_inlinebuf (ur_payload updateReq)) (ur_payload updateReq))))))) in
          mret (Ok (set_ur_featureFlags (if inline then BITFLAGS_SET flags SEND_DATA_INLINE else flags)
                      (set_ur_options options (set_ur_payload payload updateReq))))
      end
  | o => mret (Err (error_of o))
  end.

(** [doForward] up to the call: whether the successor is synchronized, and the
    address and the request. *)
Definition doForward_begin (env : Env) (req : UpdateReq) (remoteBuf : bytes) (retryCount : Z) (target : Target) (su : Successor)
    : M Server (bool * outcome (Z * UpdateReq)) :=
  let isSyncing := bool_decide (fti_publicState (su_targetInfo su) = PS_SYNCING) in
  let io := ur_payload req in
  let options := set_uo_fromClient false (ur_options req) in
  let options := if isSyncing then set_uo_commitChainVer (vc_chainVer (tg_vChainId target)) (set_uo_isSyncing true options) else options in
  let key := mkGlobalKey (mkVersionedChainId (vc_chainId (payload_chain req)) (vc_chainVer (tg_vChainId target))) (payload_chunk req) in
  let updateReq := set_ur_retryCount retryCount (set_ur_options options (set_ur_payload (set_uio_key key (set_uio_rdmabuf remoteBuf io)) req)) in
  let readForSyncing := isWriteTruncateExtend io && isSyncing && (uo_isSyncing (ur_options req) || negb (uio_length io =? uio_chunkSize io)) in
  prepared ←
    (if readForSyncing then read_for_syncing env req updateReq target
     else if isSyncing && negb (isRemove io) then
       h ← handle_of target;
       r ← attempt (onStorage (onObject h (onTargetStore (target_queryChunk (payload_chunk req)))));
       mret (match r with inl meta => Ok (set_updateVer (cm_updateVer meta) updateReq) | inr code => Err code end)
     else mret (Ok updateReq));
  mret (isSyncing, match prepared with
                   | Ok updateReq => match getSuccessorAddr target with Ok a => Ok (a, updateReq) | o => Err (error_of o) end
                   | o => Err (error_of o)
                   end).

(** [doForward] from the answer on.  After a checksum mismatch the service
    reads the buffer it sent and stops itself if that is damaged. *)
Definition doForward_end (req sent : UpdateReq) (target : Target) (isSyncing : bool) (reply : outcome IOResult) : outcome IOResult :=
  match reply with
  | Ok r =>
      if result_ok r then
        if vc_chainVer (tg_vChainId target) <? io_commitChainVer r then Ok (IOResult_error StorageCode_kChainVersionMismatch)
        else Ok (if isSyncing then set_io_updateVer (uio_updateVer (ur_payload req)) r else r)
      else if result_code r =? StorageCode_kChecksumMismatch then
        let io := ur_payload sent in
        if negb (bool_decide (ci_type (uio_checksum io) = CHECKSUM_NONE)) && (Z.of_nat (length (uio_rdmabuf io)) <? uio_length io) then Fatal
        else if bool_decide (checksum_of_buffer (ci_type (uio_checksum io)) (take (Z.to_nat (uio_length io)) (uio_rdmabuf io)) = uio_checksum io)
        then Ok r else Fatal
      else Ok r
  | o => Ok (IOResult_error (error_of o))
  end.

(** The end of [forward]. *)
Definition forward_commitIO (target : Target) (r : IOResult) (commitIO : CommitIO) : CommitIO * IOResult :=
  if result_ok r then
    (set_cio_commitChainVer (io_commitChainVer r) (set_cio_commitVer (io_commitVer r) commitIO),
     if vc_chainVer (tg_vChainId target) <? io_commitChainVer r then IOResult_error StorageCode_kChainVersionMismatch else r)
  else (commitIO, r).

(** ** Commit *)

(** Parts 4 and 5 of [handleUpdate], once forwarding has a result. *)
Definition commit_outcome (h : Handler) (forwardResult : IOResult) : option IOResult :=
  let updateResult := hd_updateResult h in
  let commitIO := hd_commitIO h in
  if negb (cio_commitVer commitIO =? io_updateVer updateResult) then Some (IOResult_error StorageCode_kChunkVersionMismatch)
  else if result_ok forwardResult then
    if cio_isRemove commitIO && (bool_decide (ci_type (io_checksum forwardResult) = CHECKSUM_NONE)
                                 || bool_decide (ci_type (io_checksum updateResult) = CHECKSUM_NONE) || cio_isSyncing commitIO)
    then None
    else if bool_decide (io_checksum forwardResult = io_checksum updateResult) then None
    else Some (IOResult_error StorageClientCode_kChecksumMismatch)
  else if result_code forwardResult =? StorageCode_kNoSuccessorTarget then None
  else Some forwardResult.

Definition handle_finish (h : Handler) (forwardResult : IOResult) : M Server IOResult :=
  let updateResult := hd_updateResult h in
  match commit_outcome h forwardResult with
  | Some result => handle_end h result
  | None =>
      r ← doCommit (hd_req h) (hd_commitIO h) (hd_target h);
      let done (r : IOResult) := handle_end h (set_io_checksum (io_checksum updateResult) (set_io_lengthInfo (io_lengthInfo updateResult) r)) in
      if result_ok r then done r
      else if result_code r =? StorageCode_kChunkStaleCommit then done (set_io_commitVer (io_updateVer updateResult) r)
      else handle_end h r
  end.

(** ** Retries *)

(** An attempt ends the request, sends a message, or has failed and waits
    before the next one. *)
Inductive Progress :=
| Done (result : IOResult)
| Send (address : Z) (req : UpdateReq) (h : Handler)
| Wait (h : Handler)
| Retry (h : Handler).

Definition finish (h : Handler) (forwardResult : IOResult) : M Server Progress :=
  r ← handle_finish h forwardResult; mret (Done r).

Definition next_attempt (h : Handler) : Handler := set_hd_retryCount (u32 (hd_retryCount h + 1)) h.

(** One round of the wait between two attempts: the wait is over after its
    time ([elapsed]), when the service stops, or when the target has no
    successor any more. *)
Definition wait_round (elapsed : bool) (h : Handler) : M Server Progress :=
  s ← getS;
  if elapsed || sv_stopped s then mret (Retry (next_attempt h))
  else
    target ← getTargetOf (payload_chain (hd_req h)) true;
    match target with
    | Ok target =>
        let h := set_hd_target target h in
        mret (match tg_successor target with None => Retry (next_attempt h) | Some _ => Wait h end)
    | o => finish h (IOResult_error (error_of o))
    end.

(** A failed attempt: the request is given up or tried again. *)
Definition attempt_failed (env : Env) (h : Handler) (r : IOResult) : M Server Progress :=
  if result_code r =? StorageCode_kNoSuccessorTarget then finish h r
  else if env_last env then finish h r
  else if result_code r =? RPCCode_kTimeout then mret (Retry (next_attempt h))
  else wait_round false h.

(** One iteration of [forwardWithRetry] up to the call. *)
Definition forward_attempt (env : Env) (h : Handler) : M Server Progress :=
  s ← getS;
  if sv_stopped s then finish h (IOResult_error RPCCode_kRequestRefused)
  else
    target ← getTargetOf (payload_chain (hd_req h)) true;
    match target with
    | Ok target =>
        let h := set_hd_target target h in
        match tg_successor target with
        | None =>
            finish (set_hd_commitIO (set_cio_commitChainVer (vc_chainVer (tg_vChainId target)) (hd_commitIO h)) h)
              (IOResult_error StorageCode_kNoSuccessorTarget)
        | Some su =>
            r ← doForward_begin env (hd_req h) (hd_remoteBuf h) (hd_retryCount h) target su;
            let h := set_hd_commitIO (set_cio_isSyncing r.1 (hd_commitIO h)) h in
            match r.2 with
            | Ok (address, updateReq) => mret (Send address updateReq (set_hd_sent updateReq h))
            | o => attempt_failed env h (IOResult_error (error_of o))
            end
        end
    | o => finish h (IOResult_error (error_of o))
    end.

(** The rest of the iteration, with the answer or the error of the call. *)
Definition forward_reply (env : Env) (h : Handler) (reply : outcome IOResult) : M Server Progress :=
  r ← lift (doForward_end (hd_req h) (hd_sent h) (hd_target h) (cio_isSyncing (hd_commitIO h)) reply);
  let '(commitIO, r) := forward_commitIO (hd_target h) r (hd_commitIO h) in
  let h := set_hd_commitIO commitIO h in
  if result_ok r then finish h r else attempt_failed env h r.

(** ** Requests of clients *)

Definition write_request (payload : UpdateIO) (tag : MessageTag) (retryCount featureFlags : Z) : UpdateReq :=
  mkUpdateReq payload (set_uo_fromClient true UpdateOptions_default) tag retryCount featureFlags.
(** [doTruncate] and [doRemove]. *)
Definition truncate_request (vChainId : VersionedChainId) (chunkId : ChunkId) (chunkLen chunkSize : Z) (onlyExtendChunk : bool)
    (tag : MessageTag) (retryCount featureFlags : Z) : UpdateReq :=
  write_request (mkUpdateIO 0 chunkLen chunkSize (mkGlobalKey vChainId chunkId) [] 0
    (if onlyExtendChunk then UT_EXTEND else UT_TRUNCATE) no_checksum []) tag retryCount featureFlags.
Definition remove_request (vChainId : VersionedChainId) (chunkId : ChunkId) (tag : MessageTag) (retryCount featureFlags : Z) : UpdateReq :=
  write_request (mkUpdateIO 0 0 0 (mkGlobalKey vChainId chunkId) [] 0 UT_REMOVE no_checksum []) tag retryCount featureFlags.

(** ** Reads *)

(** The handle and the checks of one read of a batch. *)
Definition read_target (tm : TargetMap) (readIO : ReadIO) : outcome Handle :=
  match tm_getByChainId tm (gk_vChainId (rio_key readIO)) (svc_batch_read_ignore_chain_version config) with
  | Ok target =>
      if negb (upToDate target) then Err StorageCode_kTargetStateInvalid
      else if rio_length readIO >? rio_rdmabuf readIO then Err kInvalidArg
      else match tg_storageTarget target with Some h => Ok h | None => Fatal end
  | o => Err (error_of o)
  end.
Fixpoint read_targets (tm : TargetMap) (payloads : list ReadIO) : outcome (list (Handle * ReadIO)) :=
  match payloads with
  | [] => Ok []
  | readIO :: payloads' =>
      match read_target tm readIO with
      | Ok h => omap_outcome (cons (h, readIO)) (read_targets tm payloads')
      | Err c => Err c
      | Fatal => Fatal
      | Pending => Pending
      end
  end.

(** One job of the workers: its result and the bytes in its buffer. *)
Definition read_job (checksumType : ChecksumType) (readUncommitted : bool) (job : Handle * ReadIO) : M Server (IOResult * bytes) :=
  onStorage (onObject job.1 (fun t =>
    let '(o, js) := aio_read checksumType false readUncommitted job.2 (mkJobState (sto_store t) IOResult_default) in
    (match o with
     | Ok (n, data) => Ok (set_io_lengthInfo (Ok n) (js_result js), data)
     | Err c => Ok (set_io_lengthInfo (Err c) (js_result js), [])
     | Fatal => Fatal
     | Pending => Pending
     end, set_sto_store (js_store js) t))).
Fixpoint read_jobs (checksumType : ChecksumType) (readUncommitted : bool) (jobs : list (Handle * ReadIO))
    : M Server (list (IOResult * bytes)) :=
  match jobs with
  | [] => mret []
  | job :: jobs' =>
      r ← read_job checksumType readUncommitted job;
      rest ← read_jobs checksumType readUncommitted jobs';
      mret (r :: rest)
  end.

Record BatchReadReq := mkBatchReadReq { br_payloads : list ReadIO; br_featureFlags : Z; br_checksumType : ChecksumType }.

(** What the transfer makes of a result: an error of its own, or that of the
    whole batch. *)
Definition transferred (post : outcome unit) (r : IOResult * bytes) (added : outcome unit) : IOResult * bytes :=
  match post with
  | Ok _ => if result_ok r.1
            then match added with Ok _ => r | o => (set_io_lengthInfo (Err (error_of o)) r.1, []) end
            else r
  | o => (set_io_lengthInfo (Err (error_of o)) r.1, [])
  end.

(** [batchRead]: [alloc] is the result of the allocation of buffers, [junk] what
    they hold when the disks are bypassed; [link] is the socket and its device,
    [added] and [post] are the results of the transfer. *)
Definition batchRead (alloc link : outcome unit) (junk : list bytes) (added : list (outcome unit)) (post : outcome unit) (req : BatchReadReq)
    : M Server (outcome (list (IOResult * bytes))) :=
  s ← getS;
  match read_targets (sg_map (sv_storage s)) (br_payloads req) with
  | Ok jobs =>
      match alloc with
      | Ok _ =>
          results ← (if BITFLAGS_CONTAIN (br_featureFlags req) BYPASS_DISKIO
                     then mret (zip_with (fun readIO data => (set_io_lengthInfo (Ok (rio_length readIO)) IOResult_default, data)) (br_payloads req) junk)
                     else read_jobs (br_checksumType req) (BITFLAGS_CONTAIN (br_featureFlags req) ALLOW_READ_UNCOMMITTED) jobs);
          if BITFLAGS_CONTAIN (br_featureFlags req) SEND_DATA_INLINE || BITFLAGS_CONTAIN (br_featureFlags req) BYPASS_RDMAXMIT
          then mret (Ok results)
          else match link with
               | Ok _ => mret (Ok (zip_with (transferred post) results added))
               | o => mret (Err (error_of o))
               end
      | _ => mret (Err RPCCode_kRDMANoBuf)
      end
  | Err c => mret (Err c)
  | Fatal => fatal
  | Pending => mret Pending
  end.

(** [cleanUpExpiredClients] *)
Definition cleanUpExpiredClients (activeClients : gset Z) (now : UtcTime) : M Server unit :=
  if negb (svc_clean_up_expired_clients config) || bool_decide (activeClients = ∅) then mret tt
  else modify (fun s => set_sv_clients (filter (fun e => ~ (~ e.1 ∈ activeClients /\ e.1 <> 0
         /\ cs_lastUsedTime e.2 + svc_expired_clients_timeout config <= now)) (sv_clients s)) s).
End service.
