(* ===== verification/ReplicaInv.v ===== *)
(** * The invariant of a chunk store

    What a reader of a target relies on: the cache agrees with the key-value
    store on where a chunk is, versions are ordered, a chunk fits its space,
    and the stored checksum of a chunk that is not dirty is the checksum of its
    bytes.  Nothing is said of the bytes of a chunk that is being removed. *)

From stdpp Require Import base gmap list.
From Stdlib Require Import ZArith Lia.
From S2P Require Import Prelude StatusCode Bytes MgmtdTypes StorageTypes Checksums ChunkFiles ChunkMetaStore MetaKeys MetaSpace MetaSteps MetaCreate MetaTheorems ChunkReplica.

Abbreviation cst_disk s := (ms_disk (cst_meta s)).
Abbreviation cst_kv s := (d_kv (ms_disk (cst_meta s))).

(** The metadata of a chunk: the cache comes first. *)
Definition cur (s : ChunkStore) (id : ChunkId) : option ChunkMetadata :=
  match cst_map s !! id with Some i => Some (info_meta i) | None => kv_metadata (cst_kv s) !! id end.

(** The bytes of a chunk. *)
Definition chunk_data (d : Disk MetaKV) (m : ChunkMetadata) : bytes :=
  file_range (disk_file d (cm_innerFileId m)) (cm_innerOffset m) (cm_size m).
Definition content (s : ChunkStore) (id : ChunkId) : option bytes := chunk_data (cst_disk s) <$> cur s id.

(** The setting [force_persist]: every change goes to the key-value store. *)
Class Persist := always_persist : bool.

Section inv.
Context {HCrc : Crc} {HPersist : Persist}.

(** The stored metadata [m] of a chunk cached as [m']. *)
Definition agrees (m m' : ChunkMetadata) : Prop := same_place m m' /\ (always_persist = true -> m = m').

(** The stored checksum of some bytes: zero without type or bytes. *)
Definition stored_checksum (t : ChecksumType) (data : bytes) : ChecksumInfo :=
  if bool_decide (t = CHECKSUM_NONE) || bool_decide (data = []) then mkChecksumInfo t 0 else checksum_ref t data.

Lemma stored_checksum_eta t data :
  mkChecksumInfo (ci_type (stored_checksum t data)) (ci_value (stored_checksum t data))
  = stored_checksum (ci_type (stored_checksum t data)) data.
Proof. assert (ci_type (stored_checksum t data) = t) as -> by (unfold stored_checksum; by case_match). unfold stored_checksum. by case_match. Qed.

Record meta_sound (d : Disk MetaKV) (m : ChunkMetadata) : Prop := {
  so_size : 0 <= cm_size m <= cf_chunkSize (cm_innerFileId m);
  so_chunkSize : cf_chunkSize (cm_innerFileId m) < 2 ^ 32;
  so_file : 0 < cm_size m -> cm_innerOffset m + cm_size m <= fd_size (disk_file d (cm_innerFileId m));
  so_version : 0 <= cm_commitVer m <= cm_updateVer m;
  so_updateVer : cm_updateVer m < 2 ^ 32;
  so_commit : cm_chunkState m = CHUNK_COMMIT <-> cm_commitVer m = cm_updateVer m;
  so_normal : cm_chunkState m = CHUNK_COMMIT -> cm_recycleState m = RECYCLE_NORMAL;
  so_checksum : cm_chunkState m <> CHUNK_DIRTY -> cm_recycleState m = RECYCLE_NORMAL ->
    cm_checksum m = stored_checksum (cm_checksumType m) (chunk_data d m)
}.

Record SInv (s : ChunkStore) : Prop := {
  si_space : Inv (cst_meta s) ∅;
  si_cache : forall id i, cst_map s !! id = Some i ->
    info_view i = cm_innerFileId (info_meta i)
    /\ exists m, kv_metadata (cst_kv s) !! id = Some m /\ agrees m (info_meta i);
  si_sound : forall id m, cur s id = Some m -> meta_sound (cst_disk s) m
}.

Lemma chunk_data_length d m : 0 <= cm_size m -> Z.of_nat (length (chunk_data d m)) = cm_size m.
Proof. apply file_range_length. Qed.

(** The chunk with an identifier holds its position. *)
Lemma cur_holds s id m :
  SInv s -> cur s id = Some m -> holds (cst_kv s) (OLive id) (cf_chunkSize (cm_innerFileId m)) (cm_position m).
Proof.
  intros [_ Hc _]. unfold cur. destruct (cst_map s !! id) as [i|] eqn:E; [intros [= <-]|intros H; by exists m].
  destruct (Hc _ _ E) as (_ & m0 & Hm0 & [[E1 E2] _]). exists m0. unfold cm_position. by rewrite E1, E2.
Qed.

Lemma cm_fileId_eq m : mkChunkFileId (cf_chunkSize (cm_innerFileId m)) (pos_fileIdx (cm_position m)) = cm_innerFileId m.
Proof. unfold cm_position. by destruct (cm_innerFileId m). Qed.

(** Another chunk is not touched by what happens in the space of a chunk. *)
Lemma other_chunk s id m id' m' f i :
  SInv s -> cur s id = Some m -> cur s id' = Some m' -> id <> id' ->
  hole_at (cm_innerFileId m) (cm_innerOffset m) f i -> hole_at (cm_innerFileId m') (cm_innerOffset m') f i -> False.
Proof.
  intros HS Hm Hm' Hne Hh Hh'. rewrite <-cm_fileId_eq in Hh, Hh'.
  destruct (holds_disjoint _ _ _ _ _ _ _ f i (inv_kv _ _ (si_space _ HS)) (cur_holds _ _ _ HS Hm) (cur_holds _ _ _ HS Hm') Hh Hh') as [E _].
  congruence.
Qed.

Lemma chunk_data_keep hole d d' m :
  keeps_but hole d d' -> 0 <= cm_size m <= cf_chunkSize (cm_innerFileId m) ->
  (forall f i, hole f i -> hole_at (cm_innerFileId m) (cm_innerOffset m) f i -> False) ->
  chunk_data d' m = chunk_data d m.
Proof.
  intros [Hk _] Hs Hd. apply file_range_ext. intros i Hi. apply Hk. intros Hh. eapply Hd; [done|]. split; [done|lia].
Qed.

Lemma meta_sound_keep hole d d' m :
  keeps_but hole d d' -> (forall f i, hole f i -> hole_at (cm_innerFileId m) (cm_innerOffset m) f i -> False) ->
  meta_sound d m -> meta_sound d' m.
Proof.
  intros Hk Hd [H1 H2 H3 H4 H5 H6 H7 H8]. split; try done.
  - intros Hp. specialize (H3 Hp). destruct Hk as [_ Hk]. specialize (Hk (cm_innerFileId m)). lia.
  - intros Hn Hr. rewrite (chunk_data_keep hole d d' m) by done. auto.
Qed.

(** Operations on one chunk leave the others alone. *)
Definition others_kept (id : ChunkId) (s s' : ChunkStore) : Prop :=
  forall id', id' <> id -> cur s' id' = cur s id' /\ content s' id' = content s id'.

Lemma others_refl id s : others_kept id s s.
Proof. by intros id' _. Qed.

Lemma others_trans id s1 s2 s3 : others_kept id s1 s2 -> others_kept id s2 s3 -> others_kept id s1 s3.
Proof. intros H1 H2 id' Hne. destruct (H2 id' Hne) as [-> ->]. by apply H1. Qed.

(** A change of one chunk. *)
Record touches (id : ChunkId) (hole : ChunkFileId -> Z -> Prop) (s s' : ChunkStore) : Prop := {
  to_space : Inv (cst_meta s') ∅;
  to_kv : forall id', id' <> id -> kv_metadata (cst_kv s') !! id' = kv_metadata (cst_kv s) !! id';
  to_map : forall id', id' <> id -> cst_map s' !! id' = cst_map s !! id';
  to_keeps : keeps_but hole (cst_disk s) (cst_disk s');
  to_hole : forall f i, hole f i -> exists m, cur s id = Some m /\ hole_at (cm_innerFileId m) (cm_innerOffset m) f i
}.

Lemma cur_other id hole s s' id' : touches id hole s s' -> id' <> id -> cur s' id' = cur s id'.
Proof. intros [_ Hk Hm _ _] Hne. unfold cur. by rewrite Hk, Hm. Qed.

Lemma touches_hole id hole s s' id' m' :
  SInv s -> touches id hole s s' -> id' <> id -> cur s id' = Some m' ->
  forall f i, hole f i -> hole_at (cm_innerFileId m') (cm_innerOffset m') f i -> False.
Proof. intros HS Ht Hne Hm' f i Hh. destruct (to_hole _ _ _ _ Ht _ _ Hh) as (m & Hm & Hh'). by eapply (other_chunk s id m id'). Qed.

Lemma touches_others id hole s s' : SInv s -> touches id hole s s' -> others_kept id s s'.
Proof.
  intros HS Ht id' Hne. assert (cur s' id' = cur s id') as E by (by eapply cur_other). split; [done|].
  unfold content. rewrite E. destruct (cur s id') as [m'|] eqn:Em; [|done]. cbn. f_equal.
  apply (chunk_data_keep hole); [apply Ht|apply (si_sound _ HS _ _ Em)|by eapply touches_hole].
Qed.

Lemma SInv_touch id hole s s' :
  SInv s -> touches id hole s s' ->
  (forall i, cst_map s' !! id = Some i -> info_view i = cm_innerFileId (info_meta i)
     /\ exists m, kv_metadata (cst_kv s') !! id = Some m /\ agrees m (info_meta i)) ->
  (forall m, cur s' id = Some m -> meta_sound (cst_disk s') m) -> SInv s'.
Proof.
  intros HS Ht Hc Hm. split; [apply Ht|..].
  - intros id' i Hi. destruct (decide (id' = id)) as [->|Hne]; [by apply Hc|].
    rewrite (to_map _ _ _ _ Ht) in Hi by done. rewrite (to_kv _ _ _ _ Ht) by done. by apply HS.
  - intros id' m' Hm'. destruct (decide (id' = id)) as [->|Hne]; [by apply Hm|].
    rewrite (cur_other _ _ _ _ _ Ht Hne) in Hm'.
    apply (meta_sound_keep hole (cst_disk s)); [apply Ht|by eapply touches_hole|by apply (si_sound _ HS id')].
Qed.

(** ** Runs of the store that change nothing to be seen *)

Record calm (s s' : ChunkStore) : Prop := {
  ca_inv : SInv s';
  ca_cur : forall id, cur s' id = cur s id;
  ca_kv : cst_kv s' = cst_kv s;
  ca_disk : d_same (cst_disk s) (cst_disk s')
}.

Lemma calm_refl s : SInv s -> calm s s.
Proof. intros. split; [done|done|done|apply d_same_refl]. Qed.

Lemma calm_trans s1 s2 s3 : calm s1 s2 -> calm s2 s3 -> calm s1 s3.
Proof. intros [? E1 ? ?] [? E2 ? ?]. split; [done|intros; by rewrite E2|congruence|by eapply d_same_trans]. Qed.

Lemma calm_grown s s' : calm s s' -> grown (cst_disk s) (cst_disk s').
Proof. intros [_ _ _ H]. by apply grown_same. Qed.

Lemma chunk_data_grown d d' m : grown d d' -> chunk_data d' m = chunk_data d m.
Proof. intros (_ & _ & G). apply file_range_ext. intros i _. unfold file_get. by destruct (G (cm_innerFileId m)) as [-> _]. Qed.

Lemma calm_content s s' id : calm s s' -> content s' id = content s id.
Proof. intros [_ E _ Hd]. unfold content. rewrite E. destruct (cur s id); [|done]. cbn. f_equal. by apply chunk_data_grown, grown_same. Qed.

Lemma calm_others id s s' : calm s s' -> others_kept id s s'.
Proof. intros Hc id' _. split; [apply Hc|by apply calm_content]. Qed.

Lemma meta_sound_grown d d' m : grown d d' -> meta_sound d m -> meta_sound d' m.
Proof. intros Hg. apply (meta_sound_keep no_hole); [by apply keeps_grown|done]. Qed.

Definition with_disk (d : Disk MetaKV) (s : ChunkStore) : ChunkStore := set_cst_meta (set_ms_disk d (cst_meta s)) s.

Lemma calm_disk s d' : SInv s -> d_same (cst_disk s) d' -> calm s (with_disk d' s).
Proof.
  intros [H1 H2 H3] Hd. assert (d_kv d' = cst_kv s) as E by apply Hd.
  split; [|intros id; unfold cur; cbn; by rewrite E|done|done].
  split; cbn; [by apply Inv_disk|by rewrite E|]. intros id m. unfold cur. cbn. rewrite E. intros Hm.
  apply (meta_sound_grown (cst_disk s)); [by apply grown_same|by apply (H3 id)].
Qed.

(** The files and the key-value store are the same. *)
Lemma SInv_disk s d' : SInv s -> d_kv d' = cst_kv s -> d_files d' = d_files (cst_disk s) -> SInv (with_disk d' s).
Proof.
  intros [H1 H2 H3] E Ef. split; cbn; [by apply (Inv_same (cst_meta s))|by rewrite E|].
  intros id m. unfold cur. cbn. rewrite E. intros Hm. specialize (H3 id m Hm). destruct H3 as [G1 G2 G3 G4 G5 G6 G7 G8].
  assert (forall f, disk_file d' f = disk_file (cst_disk s) f) as Efile by (intros f; unfold disk_file; by rewrite Ef).
  split; unfold chunk_data in *; rewrite ?Efile; done.
Qed.

(** Loading a chunk into the cache. *)
Lemma calm_cache s id m :
  SInv s -> cur s id = Some m -> cst_map s !! id = None ->
  calm s (set_cst_map (<[id := mkChunkInfo m (cm_innerFileId m)]> (cst_map s)) s).
Proof.
  intros [H1 H2 H3] Hm Hn. assert (Hkv : kv_metadata (cst_kv s) !! id = Some m) by (unfold cur in Hm; by rewrite Hn in Hm).
  assert (Hcur : forall id', cur (set_cst_map (<[id := mkChunkInfo m (cm_innerFileId m)]> (cst_map s)) s) id' = cur s id').
  { intros id'. unfold cur. cbn. destruct (decide (id' = id)) as [->|]; [|by rewrite lookup_insert_ne].
    by rewrite lookup_insert_eq, Hn, Hkv. }
  split; [|done|done|apply d_same_refl]. split; cbn; [done| |].
  - intros id' i. destruct (decide (id' = id)) as [->|]; [|rewrite lookup_insert_ne by done; apply H2].
    rewrite lookup_insert_eq. intros [= <-]. split; [done|]. by exists m.
  - intros id' m'. rewrite Hcur. apply H3.
Qed.

Lemma runs_file_open fileId d (Q : outcome ChunkFileId -> Disk MetaKV -> Prop) :
  (forall d', d_same d d' -> Q (Ok fileId) d') -> (forall d', d_same d d' -> Q (Err StorageCode_kChunkOpenFailed) d') ->
  runs (file_open fileId) d Q.
Proof.
  intros HQ HE. unfold file_open, openInnerFile. mstep. apply runs_next_read. intros x d' Hd. msteps; [by apply HE|].
  destruct (d_files d' !! fileId); mstep; auto.
Qed.

Lemma store_get_ok id s :
  SInv s ->
  runs (store_get id) s (fun o s' => calm s s' /\
    match o with
    | Ok i => cst_map s' !! id = Some i /\ cur s id = Some (info_meta i)
    | Err c => c = StorageCode_kChunkMetadataNotFound -> cur s id = None
    | _ => False
    end).
Proof.
  intros HS. unfold store_get. do 3 mstep. destruct (cst_map s !! id) as [i|] eqn:Ei.
  { mstep. split_and!; [by apply calm_refl|done|unfold cur; by rewrite Ei]. }
  assert (cur s id = kv_metadata (cst_kv s) !! id) as Ec by (unfold cur; by rewrite Ei).
  mstep. apply runs_zoom, runs_meta_get.
  - intros d1 m Hd1 Hm. pose proof (calm_disk s d1 HS Hd1) as C1. mstep. mstep. apply runs_zoom, runs_zoom, runs_file_open.
    + intros d2 Hd2. pose proof (calm_disk _ d2 (ca_inv _ _ C1) Hd2) as C2. pose proof (calm_trans _ _ _ C1 C2) as C. msteps.
      rewrite Ec. split; [|cbn; by rewrite lookup_insert_eq].
      eapply calm_trans; [exact C|]. apply (calm_cache (with_disk d2 (with_disk d1 s))); [apply C| |done].
      rewrite (ca_cur _ _ C), Ec. done.
    + intros d2 Hd2. mstep. split; [eapply calm_trans; [exact C1|by apply (calm_disk _ d2 (ca_inv _ _ C1))]|done].
  - intros d1 Hd1 Hm. mstep. split; [by apply calm_disk|]. by rewrite Ec.
  - intros d1 Hd1. mstep. split; [by apply calm_disk|done].
Qed.

(** ** Changes of metadata *)

(** The chunk is cached with this information. *)
Record cached (id : ChunkId) (i : ChunkInfo) (s : ChunkStore) : Prop := {
  cd_inv : SInv s;
  cd_map : cst_map s !! id = Some i
}.

Lemma cached_cur id i s : cached id i s -> cur s id = Some (info_meta i).
Proof. intros [_ E]. unfold cur. by rewrite E. Qed.

Lemma cached_sound id i s : cached id i s -> meta_sound (cst_disk s) (info_meta i).
Proof. intros H. by apply (si_sound _ (cd_inv _ _ _ H) id), cached_cur. Qed.

Lemma cached_view id i s : cached id i s -> info_view i = cm_innerFileId (info_meta i).
Proof. intros [HS E]. by destruct (si_cache _ HS _ _ E). Qed.

Lemma calm_cached id i s s' : cached id i s -> calm s s' -> cst_map s' = cst_map s -> cached id i s'.
Proof. intros [HS E] [HS' _ _ _] Em. split; [done|by rewrite Em]. Qed.

Section store_ops.
Context (config : StoreConfig) (Hconfig : always_persist = sc_force_persist config).

Lemma store_set_ok id i0 i persist s :
  cached id i0 s -> same_place (info_meta i0) (info_meta i) -> info_view i = info_view i0 ->
  meta_sound (cst_disk s) (info_meta i) ->
  runs (store_set config id i persist) s (fun o s' => grown (cst_disk s) (cst_disk s') /\ others_kept id s s' /\
    match o with Ok _ => cached id i s' | Err c => cached id i0 s' | _ => False end).
Proof.
  intros Hc Hp Hv Hms. pose proof (cd_inv _ _ _ Hc) as HS.
  destruct (si_cache _ HS _ _ (cd_map _ _ _ Hc)) as (Hv0 & m0 & Hm0 & Hp0 & Hag).
  assert (same_place m0 (info_meta i)) as Hp1 by (destruct Hp, Hp0; split; congruence).
  assert (info_view i = cm_innerFileId (info_meta i)) as Hvi by (destruct Hp; congruence).
  assert (forall d' , Inv (set_ms_disk d' (cst_meta s)) ∅ -> grown (cst_disk s) d' ->
    (forall id', id' <> id -> kv_metadata (d_kv d') !! id' = kv_metadata (cst_kv s) !! id') ->
    (exists m, kv_metadata (d_kv d') !! id = Some m /\ agrees m (info_meta i)) ->
    let s' := set_cst_map (<[id := i]> (cst_map s)) (with_disk d' s) in others_kept id s s' /\ cached id i s') as Hput.
  { intros d' HI Hg Hkv Hm s'.
    assert (touches id no_hole s s') as Ht.
    { split; [done|done| |by apply keeps_grown|by intros ? ? []]. intros id' Hne. unfold s'. cbn. by rewrite lookup_insert_ne. }
    split; [by eapply touches_others|]. split; [|unfold s'; cbn; by rewrite lookup_insert_eq].
    apply (SInv_touch id no_hole s); [done|done|..]; unfold s', cur; cbn; rewrite lookup_insert_eq.
    - intros ? [= <-]. done.
    - intros ? [= <-]. by apply (meta_sound_grown (cst_disk s)). }
  unfold store_set. mstep. mstep.
  - apply runs_zoom. eapply runs_mono; [apply (meta_set_ok id m0 (info_meta i) ∅); [apply HS|done|done]|].
    intros o ms' (d' & -> & HI & Hg & Ho). destruct o as [[]|c| |]; [|..|done|done]; cbv beta iota delta [andThen].
    + mstep. destruct Ho as [Ekv _]. split; [done|]. apply Hput; [done|done|..]; rewrite Ekv.
      * intros id' Hne. by rewrite lookup_insert_ne.
      * rewrite lookup_insert_eq. by exists (info_meta i).
    + destruct Ho as [_ Hd]. pose proof (calm_disk s d' HS Hd) as C.
      split_and!; [done|by apply calm_others|by apply (calm_cached id i0 s)].
  - do 2 mstep. pose proof (Hput (cst_disk s)) as Hp2. cbv zeta in Hp2. split; [apply grown_same, d_same_refl|].
    destruct s as [[] ?]. apply Hp2; [apply HS|apply grown_same, d_same_refl|done|]. exists m0. split; [done|]. split; [done|].
    intros E. rewrite Hconfig in E. by rewrite E, orb_true_r in *.
Qed.

(** Metadata for a chunk that does not exist yet. *)
Record fresh_meta (m : ChunkMetadata) : Prop := {
  fm_size : cm_size m = 0;
  fm_state : cm_chunkState m = CHUNK_DIRTY;
  fm_version : 0 <= cm_commitVer m < cm_updateVer m;
  fm_updateVer : cm_updateVer m < 2 ^ 32
}.

Lemma fresh_sound d m cs t : fresh_meta m -> 0 <= cs < 2 ^ 32 -> meta_sound d (placed cs t m).
Proof.
  intros [H1 H2 H3 H4] Hcs. split; cbn; rewrite ?H1, ?H2; try done; try lia. split; [done|lia].
Qed.

Hypothesis Hsize : 0 < mc_allocate_size (sc_meta_store config) < 2 ^ 63.

Lemma store_createChunk_ok id cs i allow s :
  SInv s -> cur s id = None -> no_read_faults (cst_disk s) -> fresh_meta (info_meta i) -> 0 <= cs < 2 ^ 32 ->
  runs (store_createChunk config id cs i allow) s (fun o s' => grown (cst_disk s) (cst_disk s') /\ others_kept id s s' /\
    match o with
    | Ok i' => cached id i' s' /\ exists t, info_meta i' = placed cs t (info_meta i)
    | _ => SInv s' /\ forall m, cur s' id = Some m -> cm_chunkState m = CHUNK_DIRTY /\ cm_commitVer m = cm_commitVer (info_meta i)
    end).
Proof.
  intros HS Hn Hnf Hf Hcs. assert (cst_map s !! id = None) as Hnm by (unfold cur in Hn; by destruct (cst_map s !! id)).
  unfold store_createChunk. mstep. apply runs_zoom.
  eapply runs_mono; [apply (meta_createChunk_ok (sc_meta_store config) Hsize id (info_meta i) cs allow); [apply HS|done]|].
  intros o ms' (HI & [Hg _] & _ & Ho). set (s1 := set_cst_meta ms' s).
  assert (touches id no_hole s s1) as Ht.
  { split; [done| |done|by apply keeps_grown|by intros ? ? []]. intros id' Hne. unfold s1. cbn. destruct o; try by rewrite Ho.
    destruct Ho as [_ ->]. by rewrite lookup_insert_ne. }
  assert (others_kept id s s1) as Hoth by (by eapply touches_others).
  assert (SInv s1) as HS1.
  { apply (SInv_touch id no_hole s); [done|done|unfold s1; cbn; by rewrite Hnm|]. intros m. unfold cur, s1. cbn. rewrite Hnm.
    destruct o; try (rewrite Ho; unfold cur in Hn; rewrite Hnm in Hn; by rewrite Hn).
    destruct Ho as [[t ->] ->]. rewrite lookup_insert_eq. intros [= <-]. by apply fresh_sound. }
  assert (kv_metadata (ms_kv ms') = kv_metadata (cst_kv s) -> forall m, cur s1 id = Some m -> cm_chunkState m = CHUNK_DIRTY /\ cm_commitVer m = cm_commitVer (info_meta i)) as HE.
  { intros E m. unfold cur, s1. cbn. rewrite Hnm, E. unfold cur in Hn. rewrite Hnm in Hn. by rewrite Hn. }
  destruct o as [m|c| |]; cbv beta iota delta [andThen]; [|by split_and!; [..|apply HE]..]. clear HE.
  destruct Ho as [[t Em] Ekv]. assert (cur s1 id = Some m) as Hm by (unfold cur, s1; cbn; by rewrite Hnm, Ekv, lookup_insert_eq).
  mstep. apply runs_zoom, runs_zoom, runs_file_open; intros d2 Hd2; pose proof (calm_disk s1 d2 HS1 Hd2) as C2; mstep.
  - assert (calm (with_disk d2 s1) (set_cst_map (<[id := mkChunkInfo m (cm_innerFileId m)]> (cst_map s)) (with_disk d2 s1))) as C3.
    { apply (calm_cache (with_disk d2 s1)); [apply C2|by rewrite (ca_cur _ _ C2)|done]. }
    pose proof (calm_trans _ _ _ C2 C3) as C. msteps. split_and!.
    + eapply grown_trans; [exact Hg|by apply grown_same].
    + eapply others_trans; [exact Hoth|by apply calm_others].
    + split; [apply C|cbn; by rewrite lookup_insert_eq].
    + by exists t.
  - split_and!.
    + eapply grown_trans; [exact Hg|by apply grown_same].
    + eapply others_trans; [exact Hoth|by apply calm_others].
    + apply C2.
    + intros m'. change (cur (with_disk d2 s1) id = Some m' -> cm_chunkState m' = CHUNK_DIRTY /\ cm_commitVer m' = cm_commitVer (info_meta i)).
      rewrite (ca_cur _ _ C2), Hm. intros [= <-]. subst m. split; [apply Hf|done].
Qed.

Lemma store_remove_ok id i0 i s :
  cached id i0 s -> same_place (info_meta i0) (info_meta i) -> cm_recycleState (info_meta i0) <> RECYCLE_NORMAL ->
  runs (store_remove config id i) s (fun o s' => SInv s' /\ others_kept id s s' /\
    match o with Ok _ => cur s' id = None | _ => cur s' id = cur s id end).
Proof.
  intros Hc Hp Hr. pose proof (cd_inv _ _ _ Hc) as HS. unfold store_remove. mstep. mstep; [by split_and!|]. do 2 mstep.
  eapply runs_mono; [by apply store_get_ok|]. intros o s1 [C1 Ho].
  destruct o as [i1|c| |]; cbv beta iota delta [andThen]; [|by split_and!; [apply C1|apply calm_others|apply C1]..].
  destruct Ho as [Em1 Ecur]. rewrite (cached_cur _ _ _ Hc) in Ecur. injection Ecur as Ei.
  destruct (si_cache _ (ca_inv _ _ C1) _ _ Em1) as (Hv1 & m0 & Hm0 & Hp0 & _). rewrite <-Ei in Hv1, Hp0.
  assert (same_place m0 (info_meta i)) as Hp1 by (destruct Hp, Hp0; split; congruence).
  mstep. apply runs_zoom. eapply runs_mono; [apply (meta_remove_ok _ id m0 (info_meta i) ∅); [apply C1|done|done]|].
  intros o ms' [HI Hk _ _ Hkv]. set (s2 := set_cst_meta ms' s1).
  assert (cur s1 id = Some (info_meta i0)) as Hcur1 by (by rewrite (ca_cur _ _ C1), (cached_cur _ _ _ Hc)).
  assert (forall s', cst_meta s' = ms' -> (forall id', id' <> id -> cst_map s' !! id' = cst_map s1 !! id') ->
    touches id (hole_at (cm_innerFileId (info_meta i)) (cm_innerOffset (info_meta i))) s1 s') as Ht.
  { intros s' E1 E2. split; rewrite ?E1; try done.
    - intros id' Hne. destruct o; [destruct Hkv as [-> _]; by rewrite lookup_delete_ne|by destruct Hkv as [-> _]..].
    - intros f j Hh. exists (info_meta i0). split; [done|]. destruct Hp as [<- <-]. done. }
  destruct o as [[]|c| |]; cbv beta iota delta [andThen]; destruct Hkv as [Hkv _].
  { mstep. set (s3 := set_cst_map _ _). assert (touches id (hole_at (cm_innerFileId (info_meta i)) (cm_innerOffset (info_meta i))) s1 s3) as Ht3.
    { apply Ht; [done|]. intros id' Hne. unfold s3. cbn. by rewrite lookup_delete_ne. }
    assert (cst_map s3 !! id = None) as Hn3 by (unfold s3; cbn; apply lookup_delete_eq).
    assert (cur s3 id = None) as Hc3 by (unfold cur; rewrite Hn3; unfold s3; cbn; rewrite Hkv; apply lookup_delete_eq).
    split_and!; [|eapply others_trans; [by apply calm_others|eapply touches_others; [apply C1|done]]|done].
    eapply SInv_touch; [apply C1|done|by rewrite Hn3|by rewrite Hc3]. }
  all: assert (touches id (hole_at (cm_innerFileId (info_meta i)) (cm_innerOffset (info_meta i))) s1 s2) as Ht2 by (by apply Ht).
  all: assert (cur s2 id = cur s id) as Hc2 by (rewrite <-(ca_cur _ _ C1); unfold cur, s2; cbn; by rewrite Hkv).
  all: split_and!; [|eapply others_trans; [by apply calm_others|eapply touches_others; [apply C1|done]]|done].
  all: eapply SInv_touch; [apply C1|done|unfold s2; cbn; rewrite Hkv; apply (si_cache _ (ca_inv _ _ C1))|].
  all: rewrite Hc2, (cached_cur _ _ _ Hc); intros ? [= <-].
  all: pose proof (cached_sound _ _ _ Hc) as [G1 G2 G3 G4 G5 G6 G7 G8]; split; try done.
  all: intros Hpos; specialize (G3 Hpos); destruct (calm_grown _ _ C1) as (_ & _ & Hg); destruct Hk as [_ Hk].
  all: specialize (Hk (cm_innerFileId (info_meta i0))); specialize (Hg (cm_innerFileId (info_meta i0))); unfold s2; cbn in *; lia.
Qed.
End store_ops.
End inv.
