(* ===== verification/ReplicaData.v ===== *)
(** * Bytes and checksums of a chunk

    What writes to a chunk do to its bytes, compared with the reference
    functions on lists, and how the stored checksum follows them without
    reading the whole chunk. *)

From stdpp Require Import base gmap list.
From Stdlib Require Import ZArith Lia.
From S2P Require Import Prelude StatusCode Bytes MgmtdTypes StorageTypes Checksums ChunkFiles ChunkMetaStore MetaKeys MetaSpace MetaSteps MetaCreate MetaTheorems ChunkReplica ReplicaInv.

(** ** Reference functions *)

(** Bytes up to a length, missing ones as zeros. *)
Definition pad (n : Z) (l : bytes) : bytes := l ++ replicate (Z.to_nat (n - Z.of_nat (length l))) 0.
(** A write of [data] at [offset]. *)
Definition splice (offset : Z) (data l : bytes) : bytes :=
  let p := pad offset l in
  take (Z.to_nat offset) p ++ data ++ drop (Z.to_nat offset + length data) p.
(** What an update does to the bytes of a chunk. *)
Definition apply_update (io : UpdateIO) (syncing : bool) (data l : bytes) : bytes :=
  let d := take (Z.to_nat (uio_length io)) data in
  if isTruncate io then take (Z.to_nat (uio_length io)) (pad (uio_length io) l)
  else if isExtend io then pad (uio_length io) l
  else if isRemove io then l
  else if syncing then d
  else splice (uio_offset io) d l.

Lemma pad_length n l : length (pad n l) = Nat.max (length l) (Z.to_nat n).
Proof. unfold pad. rewrite length_app, length_replicate. lia. Qed.

Lemma splice_length offset data l :
  0 <= offset -> Z.of_nat (length (splice offset data l)) = Z.max (Z.of_nat (length l)) (offset + Z.of_nat (length data)).
Proof.
  intros Ho. unfold splice. rewrite !length_app, length_take, length_drop, pad_length. lia.
Qed.

Lemma pad_short n l : n <= Z.of_nat (length l) -> pad n l = l.
Proof. intros Hn. unfold pad. replace (Z.to_nat _) with 0%nat by lia. apply app_nil_r. Qed.

Lemma splice_pad offset data l : splice offset data (pad offset l) = splice offset data l.
Proof. unfold splice. rewrite (pad_short offset (pad offset l)); [done|]. rewrite pad_length. lia. Qed.

(** ** Writes *)

(** [data] is written to one file. *)
Record wrote (v : ChunkFileId) (offset : Z) (data : bytes) (d d' : Disk MetaKV) : Prop := {
  wr_kv : d_kv d' = d_kv d;
  wr_later : d_later d d';
  wr_file : forall f, disk_file d' f = if bool_decide (f = v) then file_write offset data (disk_file d v) else disk_file d f
}.

Lemma wrote_nil v offset d d' : d_same d d' -> wrote v offset [] d d'.
Proof.
  intros (E1 & E2 & E3). split; [done|done|]. intros f. unfold disk_file. rewrite E2. case_bool_decide; by subst.
Qed.

Lemma wrote_update v offset data d d' :
  d_same d d' -> wrote v offset data d (update_file v (file_write offset data) d').
Proof.
  intros (E1 & E2 & E3). split; [done|done|]. intros f. rewrite disk_file_update. unfold disk_file. by rewrite E2.
Qed.

Lemma file_write_size offset data f : fd_size f <= fd_size (file_write offset data f).
Proof. destruct data; cbn; lia. Qed.

Lemma file_write_end offset data f :
  data <> [] -> offset + Z.of_nat (length data) <= fd_size (file_write offset data f).
Proof. destruct data; cbn; [done|lia]. Qed.

(** A write inside the space of a chunk. *)
Lemma wrote_keeps m offset data d d' :
  wrote (cm_innerFileId m) (offset + cm_innerOffset m) data d d' ->
  0 <= offset -> data = [] \/ offset + Z.of_nat (length data) <= cf_chunkSize (cm_innerFileId m) ->
  keeps_but (hole_at (cm_innerFileId m) (cm_innerOffset m)) d d'.
Proof.
  intros [_ _ Hf] Ho Hl. split; intros f; rewrite Hf; [intros i Hi|]; case_bool_decide as E; try done; subst f.
  - rewrite file_get_write. case_bool_decide as Hin; [|done]. exfalso. apply Hi. destruct Hl as [->|Hl]; [cbn in Hin; lia|].
    split; [done|lia].
  - apply file_write_size.
Qed.

Lemma view_write_ok view buf offset meta d :
  runs (view_write view buf offset meta) d (fun o d' =>
    match o with
    | Ok w => offset + Z.of_nat (length buf) <= cf_chunkSize (cm_innerFileId meta) /\ w = u32 (Z.of_nat (length buf))
              /\ wrote view (offset + cm_innerOffset meta) buf d d'
    | Err _ => exists data, (data = [] \/ offset + Z.of_nat (length data) <= cf_chunkSize (cm_innerFileId meta))
              /\ wrote view (offset + cm_innerOffset meta) data d d'
    | _ => False
    end).
Proof.
  unfold view_write. mstep. mstep.
  { exists []. split; [by left|]. apply wrote_nil, d_same_refl. }
  match goal with H : (_ >? _) = false |- _ => rewrite Z.gtb_ltb in H; apply Z.ltb_ge in H end. mstep.
  destruct (Z.of_nat (length buf) =? 0) eqn:El.
  - apply Z.eqb_eq in El. destruct buf; [|done]. mstep. split_and!; [lia|done|]. apply wrote_nil, d_same_refl.
  - mstep. apply runs_next_write. intros fault d' Hd. mstep. destruct fault as [n|].
    + do 4 mstep. exists (take n buf). split; [right; rewrite length_take; lia|by apply wrote_update].
    + do 4 mstep. split_and!; [lia|done|by apply wrote_update].
Qed.

(** ** Contents after writes *)

Section contents.
Context (f : FileData) (o : Z).

(** Zeros fill the gap before the data. *)
Lemma range_write offset data n :
  0 <= n -> 0 <= offset <= n ->
  file_range (file_write (offset + o) data f) o (Z.max n (offset + Z.of_nat (length data))) = splice offset data (file_range f o n).
Proof.
  intros Hn Ho. set (len := Z.of_nat (length data)).
  assert (Hlen : 0 <= len) by lia.
  replace (Z.max n (offset + len)) with (offset + (len + (Z.max n (offset + len) - offset - len))) by lia.
  rewrite !file_range_app by lia. unfold splice. rewrite pad_short by (rewrite file_range_length; lia). f_equal; [|f_equal].
  - rewrite file_range_write_disjoint by lia. replace n with (offset + (n - offset)) by lia.
    rewrite file_range_app by lia. rewrite take_app_length'; [done|]. pose proof (file_range_length f o offset). lia.
  - rewrite Z.add_comm. apply file_range_written.
  - rewrite file_range_write_disjoint by lia. destruct (decide (offset + len <= n)) as [Hle|Hgt].
    + replace n with (offset + len + (n - offset - len)) by lia. rewrite (file_range_app f o (offset + len)) by lia.
      rewrite drop_app_length'; [f_equal; lia|]. pose proof (file_range_length f o (offset + len)). lia.
    + rewrite drop_ge by (pose proof (file_range_length f o n); lia).
      replace (Z.max n (offset + len) - offset - len) with 0 by lia. done.
Qed.

Lemma range_extend n m :
  0 <= n <= m -> file_range (file_write (n + o) (replicate (Z.to_nat (m - n)) 0) f) o m = pad m (file_range f o n).
Proof.
  intros Hn. set (zs := replicate _ _). assert (n + Z.of_nat (length zs) = m) as E by (unfold zs; rewrite length_replicate; lia).
  pose proof (range_write n zs n ltac:(lia) ltac:(lia)) as Hw. rewrite Z.max_r, E in Hw by lia. rewrite Hw. unfold splice.
  pose proof (file_range_length f o n). rewrite pad_short by lia. rewrite take_ge, drop_ge by lia. rewrite app_nil_r.
  unfold pad, zs. do 3 f_equal. lia.
Qed.
End contents.

(** ** Checksums of ranges *)

Lemma runs_view_read view size offset d (Q : outcome bytes -> Disk MetaKV -> Prop) :
  (forall d', d_same d d' -> Q (Ok (if size =? 0 then [] else file_read offset size (disk_file d view))) d') ->
  (forall d', d_same d d' -> Q (Err StorageCode_kChunkReadFailed) d') ->
  runs (view_read view size offset) d Q.
Proof.
  intros HQ HE. unfold view_read. destruct (size =? 0); [mstep; apply HQ, d_same_refl|]. mstep. apply runs_next_read.
  intros fault d' Hd. msteps; [by apply HE|]. specialize (HQ d' Hd). unfold disk_file in *.
  assert (d_files d' = d_files d) as -> by apply Hd. done.
Qed.

Lemma file_read_full offset size f data :
  data = file_read offset size f -> Z.of_nat (length data) = size -> 0 < size -> data = file_range f offset size.
Proof.
  intros -> Hl Hs. unfold file_read, file_range in *. rewrite length_fmap, length_seqZ in Hl. do 2 f_equal. lia.
Qed.

Lemma iterator_pieces_ok fuel view len offset (d : Disk MetaKV) :
  0 <= len -> len <= Z.of_nat fuel * kChecksumChunkSize ->
  runs (iterator_pieces fuel view len offset) d (fun o d' => d_same d d' /\ exists pieces, o = Ok pieces
    /\ Forall (fun p => p <> []) pieces
    /\ (concat pieces = file_range (disk_file d view) offset len \/ Z.of_nat (length (concat pieces)) < len)).
Proof.
  revert len offset d. induction fuel as [|fuel IH]; intros len offset d Hl Hf.
  { assert (len = 0) as -> by lia. change (iterator_pieces 0 view 0 offset) with (mret [] : M (Disk MetaKV) (list bytes)). mstep. split; [apply d_same_refl|]. exists []. split_and!; [done|constructor|by left]. }
  cbn [iterator_pieces]. destruct (len =? 0) eqn:El.
  { apply Z.eqb_eq in El. subst. mstep. split; [apply d_same_refl|]. exists []. split_and!; [done|constructor|by left]. }
  apply Z.eqb_neq in El. set (readSize := Z.min len kChecksumChunkSize).
  assert (0 < readSize <= len) as Hr by (unfold readSize, kChecksumChunkSize; lia).
  assert (runs (view_read view readSize offset) d (fun o d' => d_same d d' /\
    match o with Ok data => data = file_read offset readSize (disk_file d view) | Err _ => True | _ => False end)) as Hread.
  { apply runs_view_read; [|done]. intros d' Hd. split; [done|]. by rewrite (proj2 (Z.eqb_neq _ _)) by lia. }
  unfold runs in Hread |- *. destruct (view_read view readSize offset d) as [[data|c| |] d1]; cbn [fst snd] in *;
    destruct Hread as [Hd1 Hdata]; try done.
  - destruct (Z.of_nat (length data) =? readSize) eqn:Hlen; [apply Z.eqb_eq in Hlen|
      split; [done|]; exists []; split_and!; [done|constructor|right; cbn; lia]].
    apply file_read_full in Hdata; [|done|lia]. change (runs (rest ← iterator_pieces fuel view (len - readSize) (offset + readSize); mret (data :: rest)) d1
      (fun o d' => d_same d d' /\ exists pieces, o = Ok pieces /\ Forall (fun p => p <> []) pieces
        /\ (concat pieces = file_range (disk_file d view) offset len \/ Z.of_nat (length (concat pieces)) < len))).
    assert (disk_file d1 view = disk_file d view) as Ef by (unfold disk_file; by destruct Hd1 as (_ & -> & _)).
    mstep. eapply runs_mono; [apply IH|].
    + lia.
    + unfold readSize, kChecksumChunkSize in *. lia.
    + intros o d2 (Hd2 & rest & -> & HF & Hc). rewrite Ef in Hc. mstep. mstep. split; [by eapply d_same_trans|].
      exists (data :: rest). split_and!; [done|constructor; [by intros ->; cbn in Hlen; lia|done]|]. cbn [concat].
      destruct Hc as [Hc|Hc]; [left|right; rewrite length_app; lia]. rewrite Hc, Hdata, <-file_range_app by lia. f_equal. lia.
  - split; [done|]. exists []. split_and!; [done|constructor|]. right. cbn. lia.
Qed.

Section checksum.
Context {HCrc : Crc} {HLaws : CrcLaws} {HPersist : Persist}.

Lemma view_checksum_ok view type size offset meta (d : Disk MetaKV) :
  0 <= size ->
  runs (view_checksum view type size offset meta) d (fun o d' => d_same d d' /\
    match o with
    | Ok c => c = checksum_ref type (file_range (disk_file d view) (offset + cm_innerOffset meta) size)
    | Err _ => True | _ => False
    end).
Proof.
  intros Hs. unfold view_checksum. mstep. mstep; [by split; [apply d_same_refl|]|]. mstep. mstep.
  eapply runs_mono; [apply iterator_pieces_ok|].
  - done.
  - unfold kChecksumChunkSize. pose proof (Z.mul_succ_div_gt size 1048576). pose proof (Z.div_pos size 1048576). lia.
  - intros o d' (Hd & pieces & -> & HF & Hc). mstep. set (checksum := checksum_create _ _ _). mstep. mstep; [done|]. do 2 mstep.
    split; [done|]. match goal with H : bool_decide _ = false |- _ => apply bool_decide_eq_false in H; rename H into Hn end.
    unfold checksum in *. destruct Hc as [Hc|Hc]; [|by rewrite create_of_short in Hn].
    destruct (decide (type = CHECKSUM_NONE)) as [->|Ht]; [by unfold checksum_create in Hn|].
    rewrite create_of_pieces, Hc; [done|done|done|]. rewrite Hc. by apply file_range_length.
Qed.

(** Only the queue of reads changes. *)
Record reads_only (js js' : JobState) : Prop := {
  ro_result : js_result js' = js_result js;
  ro_store : exists d', d_same (cst_disk (js_store js)) d' /\ js_store js' = with_disk d' (js_store js)
}.

Lemma reads_only_refl js : reads_only js js.
Proof. split; [done|]. exists (cst_disk (js_store js)). split; [apply d_same_refl|]. by destruct js as [[[] ?] ?]. Qed.

Lemma reads_only_trans js1 js2 js3 : reads_only js1 js2 -> reads_only js2 js3 -> reads_only js1 js3.
Proof.
  intros [E1 (d1 & H1 & S1)] [E2 (d2 & H2 & S2)]. split; [congruence|]. exists d2. rewrite S2, S1 in *.
  split; [by eapply d_same_trans|done].
Qed.

Lemma reads_only_same js js' : reads_only js js' -> d_same (cst_disk (js_store js)) (cst_disk (js_store js')).
Proof. intros [_ (d' & Hd & ->)]. done. Qed.

Lemma reads_only_file js js' f :
  reads_only js js' -> disk_file (cst_disk (js_store js')) f = disk_file (cst_disk (js_store js)) f.
Proof. intros H%reads_only_same. unfold disk_file. by destruct H as (_ & -> & _). Qed.

Lemma onFiles_reads {A} (m : M (Disk MetaKV) A) js (Q : outcome A -> Prop) :
  runs m (cst_disk (js_store js)) (fun o d' => d_same (cst_disk (js_store js)) d' /\ Q o) ->
  runs (onStore (onFiles m)) js (fun o js' => reads_only js js' /\ Q o).
Proof.
  intros Hm. apply runs_zoom, runs_zoom, runs_zoom. eapply runs_mono; [exact Hm|]. intros o d' [Hd HQ]. split; [|done].
  split; [done|]. by exists d'.
Qed.

(** What [updateChecksum] is told of the write: the checksum of the bytes
    written, and, when it may combine, the checksum of the bytes before. *)
Record described (f : FileData) (m : ChunkMetadata) (io : UpdateIO) (combine : bool) : Prop := {
  de_range : 0 <= uio_offset io /\ 0 <= uio_length io /\ uio_offset io + uio_length io <= cm_size m;
  de_data : uio_length io <> 0 ->
    uio_checksum io = checksum_ref (ci_type (uio_checksum io)) (file_range f (cm_innerOffset m + uio_offset io) (uio_length io));
  de_combine : combine = true -> ci_type (uio_checksum io) = cm_checksumType m ->
    uio_offset io + uio_length io = cm_size m
    /\ cm_checksum m = checksum_ref (cm_checksumType m) (file_range f (cm_innerOffset m) (uio_offset io))
}.

Lemma combine_data t pre f o n io :
  t <> CHECKSUM_NONE -> 0 <= n -> ci_type io = t -> (n <> 0 -> io = checksum_ref t (file_range f o n)) ->
  checksum_combine (checksum_ref t pre) io n = Ok (checksum_ref t (pre ++ file_range f o n)).
Proof.
  intros Ht Hn Et Hio. destruct (decide (n = 0)) as [->|Hne].
  - rewrite checksum_combine_zero by done. change (file_range f o 0) with (@nil Z). by rewrite app_nil_r.
  - rewrite Hio by done. apply checksum_combine_ref; [done|]. by rewrite file_range_length.
Qed.

(** Whatever the request, only the checksum in hand changes. *)
Lemma updateChecksum_shape info writeIO b isAppend js :
  let m := info_meta info in
  0 <= cm_size m -> 0 <= uio_offset writeIO ->
  runs (updateChecksum info writeIO b isAppend) js (fun o js' => reads_only js js' /\
    match o with
    | Ok info' => exists t v, info' = set_info_meta (set_cm_checksumType t (set_cm_checksumValue v m)) info
    | Err _ => True | _ => False
    end).
Proof.
  intros m Hs Ho. unfold updateChecksum. fold m. cbv zeta. set (io := checksum_io m writeIO).
  assert (0 <= uio_offset io) as Ho' by (unfold io, checksum_io; by destruct (_ || _)). mstep.
  case_match; [msteps; split; [apply reads_only_refl|eauto]|]. case_match; [msteps; split; [apply reads_only_refl|eauto]|]. case_match.
  { do 2 mstep. unfold checksum_combine. repeat case_match; msteps; (split; [apply reads_only_refl|eauto]). }
  mstep. eapply runs_mono; [apply onFiles_reads, (view_checksum_ok _ _ (uio_offset io) 0 m); done|].
  intros [prefix|c| |] js1 [Hr1 Ho1]; cbv beta iota delta [andThen]; [|done..]. mstep.
  eapply runs_mono; [apply onFiles_reads, view_checksum_ok; apply wrap_range; lia|].
  intros [suffix|c| |] js2 [Hr2 Ho2]; cbv beta iota delta [andThen]; pose proof (reads_only_trans _ _ _ Hr1 Hr2) as Hr; [|done..].
  msteps. split; [done|eauto].
Qed.

Lemma updateChecksum_ok info writeIO b isAppend js :
  let m := info_meta info in
  let f := disk_file (cst_disk (js_store js)) (cm_innerFileId m) in
  let io := checksum_io m writeIO in
  info_view info = cm_innerFileId m -> 0 <= cm_size m < 2 ^ 32 ->
  (ci_type (uio_checksum io) <> CHECKSUM_NONE -> cm_size m <> 0 -> described f m io ((0 <? b) && isAppend)) ->
  runs (updateChecksum info writeIO b isAppend) js (fun o js' => reads_only js js' /\
    match o with
    | Ok info' => exists c, info' = set_info_meta (set_cm_checksumType (ci_type c) (set_cm_checksumValue (ci_value c) m)) info
                  /\ c = stored_checksum (ci_type (uio_checksum io)) (file_range f (cm_innerOffset m) (cm_size m))
    | Err _ => True | _ => False
    end).
Proof.
  intros m f io Hv Hs Hd. unfold updateChecksum. fold m. cbv zeta. fold io. set (t := ci_type (uio_checksum io)) in *.
  assert (forall v js', reads_only js js' -> mkChecksumInfo t v = stored_checksum t (file_range f (cm_innerOffset m) (cm_size m)) ->
    reads_only js js' /\ exists c, set_info_meta (set_cm_checksumType t (set_cm_checksumValue v m)) info
       = set_info_meta (set_cm_checksumType (ci_type c) (set_cm_checksumValue (ci_value c) m)) info
       /\ c = stored_checksum t (file_range f (cm_innerOffset m) (cm_size m))) as Hdone.
  { intros v js' Hr Ev. split; [done|]. by exists (mkChecksumInfo t v). }
  assert (cm_size m <> 0 -> file_range f (cm_innerOffset m) (cm_size m) <> []) as Hne.
  { intros Hz E. pose proof (file_range_length f (cm_innerOffset m) (cm_size m)) as Hl. rewrite E in Hl. cbn in Hl. lia. }
  mstep. destruct (bool_decide (t = CHECKSUM_NONE) || (cm_size m =? 0)) eqn:Ez.
  { do 3 mstep. apply Hdone; [apply reads_only_refl|]. unfold stored_checksum. apply orb_true_iff in Ez as [->|Ez%Z.eqb_eq]; [done|].
    rewrite Ez. by rewrite orb_true_r. }
  apply orb_false_iff in Ez as [Ht%bool_decide_eq_false Hz%Z.eqb_neq]. specialize (Hd Ht Hz). destruct Hd as [(H1 & H2 & H3) Hdata Hcomb].
  assert (stored_checksum t (file_range f (cm_innerOffset m) (cm_size m)) = checksum_ref t (file_range f (cm_innerOffset m) (cm_size m))) as Est.
  { unfold stored_checksum. rewrite !bool_decide_eq_false_2 by auto. done. }
  rewrite Est in Hdone |- *.
  destruct ((uio_offset io =? 0) && (uio_length io =? cm_size m)) eqn:Er.
  { apply andb_true_iff in Er as [E1%Z.eqb_eq E2%Z.eqb_eq]. do 3 mstep. apply Hdone; [apply reads_only_refl|].
    rewrite (Hdata ltac:(lia)). rewrite E1, E2, Z.add_0_r. done. }
  destruct (bool_decide (t = ci_type (cm_checksum m)) && _) eqn:Ec.
  { apply andb_true_iff in Ec as [Et%bool_decide_eq_true Ec]. destruct (Hcomb Ec Et) as [Hend Hold]. do 2 mstep. rewrite Hold.
    cbn in Et. rewrite <-Et. rewrite (combine_data t _ f (cm_innerOffset m + uio_offset io) (uio_length io)) by done.
    rewrite <-file_range_app, Hend by lia. msteps. apply Hdone; [apply reads_only_refl|]. done. }
  clear Ec Er Hcomb. mstep.
  eapply runs_mono; [apply (onFiles_reads _ js (fun o => match o with Ok c => c = checksum_ref t (file_range f (0 + cm_innerOffset m) (uio_offset io)) | Err _ => True | _ => False end))|].
  { rewrite Hv. apply (view_checksum_ok (cm_innerFileId m) t (uio_offset io) 0 m). lia. }
  intros [prefix|c| |] js1 [Hr1 Ho1]; cbv beta iota delta [andThen]; [|done..]. subst prefix. mstep.
  rewrite (u32_small (uio_offset io + uio_length io)), Z.min_l, (u32_small (cm_size m - _)) by lia. set (start := uio_offset io + uio_length io).
  eapply runs_mono; [apply (onFiles_reads _ js1 (fun o => match o with Ok c => c = checksum_ref t (file_range f (start + cm_innerOffset m) (cm_size m - start)) | Err _ => True | _ => False end))|].
  { rewrite Hv. unfold f. rewrite <-(reads_only_file js js1) by done. apply view_checksum_ok. unfold start. lia. }
  intros [suffix|c| |] js2 [Hr2 Ho2]; cbv beta iota delta [andThen]; pose proof (reads_only_trans _ _ _ Hr1 Hr2) as Hr; [|done..].
  subst suffix. rewrite (combine_data t _ f (cm_innerOffset m + uio_offset io) (uio_length io)) by done.
  rewrite Z.add_0_l, <-file_range_app by lia. fold start.
  rewrite checksum_combine_ref by (done || (rewrite file_range_length; unfold start; lia)).
  rewrite (Z.add_comm start), <-file_range_app by (unfold start; lia). msteps. apply Hdone; [done|].
  replace (start + (cm_size m - start)) with (cm_size m) by lia. done.
Qed.
End checksum.
