(* ===== verification/ReplicaUpdate.v ===== *)
(** * Updates of chunks

    [ChunkReplica::update] against its reference: a successful update does to
    the bytes of the chunk what [apply_update] does, moves the version by one
    and keeps the checksum right; a failed one changes nothing, or leaves the
    chunk dirty; other chunks are never touched. *)

From stdpp Require Import base gmap list.
From Stdlib Require Import ZArith Lia.
From S2P Require Import Prelude StatusCode Bytes MgmtdTypes StorageTypes Checksums ChunkFiles ChunkMetaStore MetaKeys MetaSpace MetaSteps MetaCreate MetaTheorems ChunkReplica ReplicaInv ReplicaData.

(** Requests as [StorageOperator] builds them: fields in range, the buffer of a
    write is as long as the request says, only writes have a checksum, a
    truncation starts at 0, and a write of a resync replaces the chunk. *)
Record job_wf (job : UpdateJob) : Prop := {
  jw_type : isWrite (job_updateIO job) || isTruncate (job_updateIO job) || isExtend (job_updateIO job) || isRemove (job_updateIO job) = true;
  jw_offset : 0 <= uio_offset (job_updateIO job) < 2 ^ 32;
  jw_length : 0 <= uio_length (job_updateIO job) < 2 ^ 32;
  jw_chunkSize : 0 <= uio_chunkSize (job_updateIO job) < 2 ^ 32;
  jw_updateVer : 0 <= uio_updateVer (job_updateIO job) < 2 ^ 32;
  jw_data : isWrite (job_updateIO job) = true -> uio_length (job_updateIO job) <= Z.of_nat (length (job_data job));
  jw_checksum : isWrite (job_updateIO job) = false -> ci_type (uio_checksum (job_updateIO job)) = CHECKSUM_NONE;
  jw_start : isWrite (job_updateIO job) = false -> uio_offset (job_updateIO job) = 0;
  jw_sync : uo_isSyncing (job_options job) = true ->
    0 < uio_updateVer (job_updateIO job) /\ (isWrite (job_updateIO job) = true -> uio_offset (job_updateIO job) = 0)
}.

Abbreviation job_id job := (gk_chunkId (uio_key (job_updateIO job))).
Abbreviation syncing job := (uo_isSyncing (job_options job)).
Definition written (job : UpdateJob) : bytes := take (Z.to_nat (uio_length (job_updateIO job))) (job_data job).

(** The metadata for the write, when the versions fit. *)
Definition next_meta (job : UpdateJob) (m : ChunkMetadata) : ChunkMetadata :=
  let v := uio_updateVer (job_updateIO job) in
  if syncing job then set_cm_recycleState RECYCLE_NORMAL (set_cm_commitVer (v - 1) (set_cm_updateVer v m))
  else set_cm_updateVer (cm_updateVer m + 1) m.

(** The version of a request: none for a client, which needs the last update to
    be committed, or the next one. *)
Definition versions_fit (job : UpdateJob) (old : Z * Z) : Prop :=
  let v := uio_updateVer (job_updateIO job) in (v = 0 -> old.1 = old.2) /\ (0 < v -> v = old.1 + 1).

Lemma update_versions_ok job m js :
  job_wf job -> 0 <= cm_commitVer m <= cm_updateVer m -> (syncing job = false -> cm_updateVer m + 1 < 2 ^ 32) ->
  runs (update_versions job m) js (fun o js' => js' = js /\
    match o with
    | Ok m' => m' = next_meta job m /\ (0 <= cm_commitVer m' < cm_updateVer m' /\ cm_updateVer m' < 2 ^ 32)
               /\ (syncing job = false -> versions_fit job (cm_updateVer m, cm_commitVer m))
    | Err _ => True | _ => False
    end).
Proof.
  intros Hw Hv Hu. pose proof (jw_updateVer _ Hw) as Hr. pose proof (jw_sync _ Hw) as Hs. unfold update_versions, next_meta.
  set (v := uio_updateVer (job_updateIO job)) in *. destruct (syncing job).
  { mstep. destruct (Hs eq_refl) as [Hs1 _]. rewrite u32_small by lia. split_and!; [done|done|cbn; lia..|done]. }
  specialize (Hu eq_refl). rewrite u32_small by lia. destruct (v >? 0) eqn:E0.
  - destruct (v <=? cm_commitVer m) eqn:E1; [by mstep|]. destruct (v <=? cm_updateVer m) eqn:E2; [by mstep|].
    destruct (v >? cm_updateVer m + 1) eqn:E3; [by mstep|]. mstep. rewrite Z.gtb_ltb in E3.
    apply Z.leb_gt in E1, E2. apply Z.ltb_ge in E3. assert (v = cm_updateVer m + 1) as Ev by lia. split_and!; [done|by rewrite Ev|cbn; lia..|]. intros _. unfold versions_fit. fold v. cbn. rewrite Z.gtb_ltb in E0. apply Z.ltb_lt in E0. lia.
  - mstep. mstep; [done|]. do 2 mstep. split_and!; [done|done|cbn; lia..|]. intros _. unfold versions_fit. fold v. cbn.
    match goal with H : (_ >? _) = false |- _ => rewrite Z.gtb_ltb in H; apply Z.ltb_ge in H; cbn in H end. rewrite u32_small in * by lia.
    rewrite Z.gtb_ltb in E0. apply Z.ltb_ge in E0. lia.
Qed.

Lemma same_place_next job m : same_place m (next_meta job m).
Proof. unfold next_meta. by destruct (syncing job). Qed.

Section update.
Context {HCrc : Crc} {HLaws : CrcLaws} {HPersist : Persist} (config : StoreConfig) (Hconfig : always_persist = sc_force_persist config).

(** ** Writes to a dirty chunk *)

Lemma dirty_write id i s offset data d' :
  cached id i s -> cm_chunkState (info_meta i) = CHUNK_DIRTY ->
  wrote (cm_innerFileId (info_meta i)) (offset + cm_innerOffset (info_meta i)) data (cst_disk s) d' -> 0 <= offset ->
  data = [] \/ offset + Z.of_nat (length data) <= cf_chunkSize (cm_innerFileId (info_meta i)) ->
  cached id i (with_disk d' s) /\ others_kept id s (with_disk d' s).
Proof.
  intros Hc Hd Hw Ho Hl. pose proof (cd_inv _ _ _ Hc) as HS. set (m := info_meta i) in *.
  assert (touches id (hole_at (cm_innerFileId m) (cm_innerOffset m)) s (with_disk d' s)) as Ht.
  { split; [|by intros; cbn; rewrite (wr_kv _ _ _ _ _ Hw)|done|by eapply wrote_keeps|].
    - apply (Inv_same (cst_meta s)); [apply HS|apply Hw|done].
    - intros f j Hh. exists m. split; [by apply (cached_cur id i)|done]. }
  split; [|by eapply touches_others]. split; [|apply Hc].
  eapply SInv_touch; [done|exact Ht|cbn; rewrite (wr_kv _ _ _ _ _ Hw); apply HS|].
  intros m'. unfold cur. cbn. rewrite (cd_map _ _ _ Hc). intros [= <-]. fold m.
  destruct (cached_sound _ _ _ Hc) as [G1 G2 G3 G4 G5 G6 G7 G8]. fold m in G1, G2, G3, G4, G5, G6, G7, G8. split; try done.
  intros Hp. specialize (G3 Hp). destruct (to_keeps _ _ _ _ Ht) as [_ Hk]. specialize (Hk (cm_innerFileId m)). cbn in Hk |- *. lia.
Qed.

(** What a step of the change of data keeps. *)
Record writing (id : ChunkId) (i : ChunkInfo) (js js' : JobState) : Prop := {
  wi_cached : cached id i (js_store js');
  wi_others : others_kept id (js_store js) (js_store js');
  wi_result : js_result js' = js_result js
}.

Lemma writing_refl id i js : cached id i (js_store js) -> writing id i js js.
Proof. intros. split; [done|apply others_refl|done]. Qed.

Lemma writing_trans id i js1 js2 js3 : writing id i js1 js2 -> writing id i js2 js3 -> writing id i js1 js3.
Proof. intros [? ? ?] [? ? ?]. split; [done|by eapply others_trans|congruence]. Qed.

(** The write of a view in the middle of an update; the metadata in hand may
    have another size. *)
Lemma chunk_write_ok id i m buf offset js :
  cached id i (js_store js) -> cm_chunkState (info_meta i) = CHUNK_DIRTY -> same_place (info_meta i) m -> 0 <= offset ->
  runs (onStore (onFiles (view_write (info_view i) buf offset m))) js (fun o js' => writing id i js js' /\
    match o with
    | Ok w => offset + Z.of_nat (length buf) <= cf_chunkSize (cm_innerFileId m) /\ w = Z.of_nat (length buf)
        /\ wrote (cm_innerFileId m) (offset + cm_innerOffset m) buf (cst_disk (js_store js)) (cst_disk (js_store js'))
    | Err _ => True | _ => False
    end).
Proof.
  intros Hc Hd [Hp1 Hp2] Ho. apply runs_zoom, runs_zoom, runs_zoom. eapply runs_mono; [apply view_write_ok|].
  intros o d' H. rewrite (cached_view _ _ _ Hc) in H.
  assert (forall data, (data = [] \/ offset + Z.of_nat (length data) <= cf_chunkSize (cm_innerFileId m)) ->
    wrote (cm_innerFileId (info_meta i)) (offset + cm_innerOffset m) data (cst_disk (js_store js)) d' ->
    writing id i js (set_js_store (with_disk d' (js_store js)) js)) as Hwr.
  { intros data Hl Hw. rewrite Hp1 in Hl. rewrite Hp2 in Hw. destruct (dirty_write id i (js_store js) offset data d') as [? ?]; try done. }
  destruct o as [w|c| |]; try done.
  - destruct H as (Hl & -> & Hw). split; [eapply Hwr; eauto|]. pose proof (so_chunkSize _ _ (cached_sound _ _ _ Hc)) as Hcs.
    rewrite Hp1 in Hl |- *. split_and!; [done|rewrite u32_small; lia|exact Hw].
  - destruct H as (data & Hl & Hw). split; [by eapply Hwr|done].
Qed.

Lemma doRealWrite_ok id i buf offset js :
  cached id i (js_store js) -> cm_chunkState (info_meta i) = CHUNK_DIRTY -> 0 <= offset ->
  runs (doRealWrite i buf offset) js (fun o js' => writing id i js js' /\
    match o with
    | Ok r => offset + Z.of_nat (length buf) <= cf_chunkSize (cm_innerFileId (info_meta i))
        /\ r = (Z.of_nat (length buf), set_info_meta (set_cm_size (Z.max (cm_size (info_meta i)) (offset + Z.of_nat (length buf))) (info_meta i)) i)
        /\ wrote (cm_innerFileId (info_meta i)) (offset + cm_innerOffset (info_meta i)) buf (cst_disk (js_store js)) (cst_disk (js_store js'))
    | Err _ => True | _ => False
    end).
Proof.
  intros Hc Hd Ho. unfold doRealWrite. mstep. eapply runs_mono; [by apply (chunk_write_ok id i)|].
  intros [w|c| |] js' [Hw H]; cbv beta iota delta [andThen]; try done. destruct H as (Hl & -> & Hwr). mstep.
  pose proof (so_chunkSize _ _ (cached_sound _ _ _ Hc)). rewrite u32_small by lia. split_and!; done.
Qed.

(** ** The change of the data *)

Record data_done (job : UpdateJob) (m : ChunkMetadata) (js js' : JobState) (r : Z * ChunkInfo) (i : ChunkInfo) : Prop := {
  dd_view : info_view r.2 = info_view i;
  dd_meta : exists size, info_meta r.2 = set_cm_size size
    (if isRemove (job_updateIO job) && negb (readyToRemove m) then set_cm_recycleState REMOVAL_IN_PROGRESS m else m);
  dd_data : chunk_data (cst_disk (js_store js')) (info_meta r.2)
            = apply_update (job_updateIO job) (syncing job) (job_data job) (chunk_data (cst_disk (js_store js)) m);
  dd_size : 0 <= cm_size (info_meta r.2) <= cf_chunkSize (cm_innerFileId m);
  dd_file : 0 < cm_size (info_meta r.2) ->
    cm_innerOffset m + cm_size (info_meta r.2) <= fd_size (disk_file (cst_disk (js_store js')) (cm_innerFileId m));
  dd_written : isWrite (job_updateIO job) = true ->
    let f := disk_file (cst_disk (js_store js')) (cm_innerFileId m) in
    let io := job_updateIO job in
    uio_offset io + uio_length io <= cm_size (info_meta r.2)
    /\ file_range f (cm_innerOffset m + uio_offset io) (uio_length io) = written job
    /\ (uio_offset io = cm_size m -> 0 < cm_size m -> uio_offset io + uio_length io = cm_size (info_meta r.2)
        /\ file_range f (cm_innerOffset m) (uio_offset io) = chunk_data (cst_disk (js_store js)) m);
  dd_length : r.1 = if isWrite (job_updateIO job) then uio_length (job_updateIO job)
                    else if isRemove (job_updateIO job) then 0 else cm_size (info_meta r.2)
}.

Lemma is_cases io :
  isWrite io || isTruncate io || isExtend io || isRemove io = true ->
  (isTruncate io = true /\ isWrite io = false /\ isExtend io = false /\ isRemove io = false)
  \/ (isExtend io = true /\ isWrite io = false /\ isTruncate io = false /\ isRemove io = false)
  \/ (isRemove io = true /\ isWrite io = false /\ isTruncate io = false /\ isExtend io = false)
  \/ (isWrite io = true /\ isTruncate io = false /\ isExtend io = false /\ isRemove io = false).
Proof. unfold isWrite, isTruncate, isExtend, isRemove. destruct (uio_updateType io); cbn; tauto. Qed.

Lemma set_cm_size_id m : set_cm_size (cm_size m) m = m.
Proof. by destruct m. Qed.

Lemma written_length job : job_wf job -> isWrite (job_updateIO job) = true -> Z.of_nat (length (written job)) = uio_length (job_updateIO job).
Proof. intros Hw Ht. pose proof (jw_data _ Hw Ht). pose proof (jw_length _ Hw). unfold written. rewrite length_take. lia. Qed.

Lemma wrote_file v offset data d d' : wrote v offset data d d' -> disk_file d' v = file_write offset data (disk_file d v).
Proof. intros [_ _ H]. rewrite H. by rewrite bool_decide_eq_true_2. Qed.

(** Truncation and extension. *)
Lemma update_resize_ok job id i js :
  job_wf job -> isTruncate (job_updateIO job) || isExtend (job_updateIO job) = true ->
  cached id i (js_store js) -> cm_chunkState (info_meta i) = CHUNK_DIRTY ->
  runs (update_data job i) js (fun o js' => writing id i js js' /\
    match o with Ok r => data_done job (info_meta i) js js' r i | Err _ => True | _ => False end).
Proof.
  intros Hw Ht Hc Hd. unfold update_data. rewrite Ht. set (io := job_updateIO job) in *. set (m := info_meta i) in *.
  destruct (cached_sound _ _ _ Hc) as [G1 G2 G3 _ _ _ _ _]. fold m in G1, G2, G3. pose proof (jw_length _ Hw) as Hl. fold io in Hl.
  assert (isWrite io = false /\ isRemove io = false /\ (isTruncate io = false -> isExtend io = true)) as (Ew & Er & Ee).
  { destruct (is_cases io (jw_type _ Hw)) as [(?&?&?&?)|[(?&?&?&?)|[(?&?&?&?)|(?&?&?&?)]]]; split_and!; destruct (isTruncate io), (isExtend io); cbn in Ht; congruence. }
  pose proof (chunk_data_length (cst_disk (js_store js)) m ltac:(lia)) as Hlen.
  destruct (uio_length io <=? cm_size m) eqn:El.
  - apply Z.leb_le in El. destruct (isTruncate io) eqn:Et; mstep; (split; [by apply writing_refl|]).
    + split; fold io; rewrite ?Ew, ?Er; cbn; try done; try lia; [by exists (uio_length io)|].
      unfold apply_update. fold io. rewrite Et, pad_short by lia. unfold chunk_data. cbn.
      replace (cm_size m) with (uio_length io + (cm_size m - uio_length io)) at 1 by lia. rewrite file_range_app by lia.
      rewrite take_app_length'; [done|].
      pose proof (file_range_length (disk_file (cst_disk (js_store js)) (cm_innerFileId m)) (cm_innerOffset m) (uio_length io)). lia.
    + split; fold io; rewrite ?Ew, ?Er; cbn; try done; try lia; [exists (cm_size m); by rewrite set_cm_size_id|].
      unfold apply_update. fold io. rewrite Et, (Ee eq_refl), pad_short by lia. done.
  - apply Z.leb_gt in El. mstep. eapply runs_mono; [apply (doRealWrite_ok id i); [done|done|lia]|].
    intros [r|c| |] js' [Hwr H]; cbv beta iota delta [andThen]; try done. destruct H as (Hle & -> & Hf).
    rewrite length_replicate in *. fold m in Hle, Hf. replace (cm_size m + Z.of_nat (Z.to_nat (uio_length io - cm_size m))) with (uio_length io) in * by lia.
    fold m. rewrite Z.max_r by lia. mstep. split; [done|]. pose proof (wrote_file _ _ _ _ _ Hf) as Ef.
    split; fold io; rewrite ?Ew, ?Er; cbn; try done; try lia; [by exists (uio_length io)|..].
    + assert (chunk_data (cst_disk (js_store js')) (set_cm_size (uio_length io) m) = pad (uio_length io) (chunk_data (cst_disk (js_store js)) m)) as ->.
      { unfold chunk_data. cbn. rewrite Ef. apply range_extend. lia. }
      unfold apply_update. fold io. destruct (isTruncate io); [|by rewrite Ee].
      rewrite take_ge; [done|]. rewrite pad_length. lia.
    + intros _. rewrite Ef. etrans; [|apply file_write_end]; [rewrite length_replicate; lia|].
      intros E. apply (f_equal length) in E. rewrite length_replicate in E. cbn in E. lia.
Qed.

Lemma update_remove_ok job id i js :
  job_wf job -> isRemove (job_updateIO job) = true -> cached id i (js_store js) ->
  runs (update_data job i) js (fun o js' => writing id i js js' /\
    match o with Ok r => data_done job (info_meta i) js js' r i | Err _ => True | _ => False end).
Proof.
  intros Hw Ht Hc. unfold update_data. set (io := job_updateIO job) in *. set (m := info_meta i) in *.
  destruct (cached_sound _ _ _ Hc) as [G1 G2 G3 _ _ _ _ _]. fold m in G1, G2, G3.
  assert (isWrite io = false /\ isTruncate io = false /\ isExtend io = false) as (Ew & Et & Ee).
  { destruct (is_cases io (jw_type _ Hw)) as [(?&?&?&?)|[(?&?&?&?)|[(?&?&?&?)|(?&?&?&?)]]]; split_and!; congruence. }
  rewrite Et, Ee, Ht. cbn [orb]. mstep. split; [by apply writing_refl|].
  destruct (readyToRemove m) eqn:Er; split; fold io; rewrite ?Ew, ?Ht, ?Er; cbn; try done;
    try (exists (cm_size m); by rewrite ?set_cm_size_id); try (by destruct m);
    unfold apply_update; fold io; by rewrite Et, Ee, Ht.
Qed.

(** The zeros before a write beyond the end. *)
Lemma update_gap_ok id i offset js :
  cached id i (js_store js) -> cm_chunkState (info_meta i) = CHUNK_DIRTY -> 0 <= offset ->
  let m := info_meta i in
  runs (when (cm_size m <? offset)
          (onStore (onFiles (view_write (info_view i) (replicate (Z.to_nat (offset - cm_size m)) 0) (cm_size m) m)) ;; mret tt)) js
    (fun o js' => writing id i js js' /\
    match o with
    | Ok _ => let f := disk_file (cst_disk (js_store js')) (cm_innerFileId m) in
        file_range f (cm_innerOffset m) (Z.max (cm_size m) offset) = pad offset (chunk_data (cst_disk (js_store js)) m)
        /\ (0 < Z.max (cm_size m) offset -> cm_innerOffset m + Z.max (cm_size m) offset <= fd_size f)
    | Err _ => True | _ => False
    end).
Proof.
  intros Hc Hd Ho m. destruct (cached_sound _ _ _ Hc) as [G1 G2 G3 _ _ _ _ _]. fold m in G1, G2, G3.
  pose proof (chunk_data_length (cst_disk (js_store js)) m ltac:(lia)) as Hlen. mstep.
  - mstep. match goal with H : (_ <? _) = true |- _ => apply Z.ltb_lt in H; rename H into Hlt end.
    eapply runs_mono; [apply (chunk_write_ok id i m); [done|done|done|lia]|].
    intros [w|c| |] js' [Hwr H]; cbv beta iota delta [andThen]; try done. destruct H as (Hle & -> & Hf). mstep. split; [done|].
    rewrite Z.max_r by lia. rewrite (wrote_file _ _ _ _ _ Hf). split; [apply range_extend; lia|]. intros _.
    etrans; [|apply file_write_end]; [rewrite length_replicate; lia|].
    intros E. apply (f_equal length) in E. rewrite length_replicate in E. cbn in E. lia.
  - match goal with H : (_ <? _) = false |- _ => apply Z.ltb_ge in H; rename H into Hlt end.
    split; [by apply writing_refl|]. rewrite Z.max_l by lia. rewrite pad_short by lia. done.
Qed.

Lemma update_write_ok job id i js :
  job_wf job -> isWrite (job_updateIO job) = true -> cached id i (js_store js) -> cm_chunkState (info_meta i) = CHUNK_DIRTY ->
  runs (update_data job i) js (fun o js' => writing id i js js' /\
    match o with Ok r => data_done job (info_meta i) js js' r i | Err _ => True | _ => False end).
Proof.
  intros Hw Ht Hc Hd. unfold update_data. set (io := job_updateIO job) in *. set (m := info_meta i) in *.
  destruct (cached_sound _ _ _ Hc) as [G1 G2 G3 _ _ _ _ _]. fold m in G1, G2, G3.
  assert (isRemove io = false /\ isTruncate io = false /\ isExtend io = false) as (Er & Et & Ee).
  { destruct (is_cases io (jw_type _ Hw)) as [(?&?&?&?)|[(?&?&?&?)|[(?&?&?&?)|(?&?&?&?)]]]; split_and!; congruence. }
  rewrite Et, Ee, Er. cbn [orb]. pose proof (jw_offset _ Hw) as Ho. fold io in Ho.
  mstep. eapply runs_mono; [apply (update_gap_ok id i (uio_offset io)); [done|done|lia]|].
  intros [[]|c| |] js1 [W1 H1]; cbv beta iota delta [andThen]; try done. cbv zeta in H1. fold m in H1. destruct H1 as [Hr1 Hf1].
  mstep. mstep; [done|]. mstep. mstep. unfold buffer_read. rewrite (proj2 (Z.ltb_ge _ _)) by (apply (jw_data _ Hw Ht)).
  do 3 mstep. change (take (Z.to_nat (uio_length io)) (job_data job)) with (written job).
  eapply runs_mono; [apply (doRealWrite_ok id i); [apply W1|done|lia]|]. fold m.
  intros [r|c| |] js2 [W2 H2]; cbv beta iota delta [andThen]; pose proof (writing_trans _ _ _ _ _ W1 W2) as W; try done.
  pose proof (written_length job Hw Ht) as Hwl. fold io in Hwl. destruct H2 as (Hle & -> & Hf). rewrite Hwl in *. cbn [fst snd]. fold io. mstep. split; [done|].
  pose proof (wrote_file _ _ _ _ _ Hf) as Ef. pose proof (jw_length _ Hw) as Hl. fold io in Hl.
  set (f1 := disk_file (cst_disk (js_store js1)) (cm_innerFileId m)) in *.
  assert (file_range (disk_file (cst_disk (js_store js2)) (cm_innerFileId m)) (cm_innerOffset m + uio_offset io) (uio_length io) = written job) as Hdat.
  { rewrite Ef, <-Hwl, Z.add_comm. apply file_range_written. }
  pose proof (range_write f1 (cm_innerOffset m) (uio_offset io) (written job) (Z.max (cm_size m) (uio_offset io)) ltac:(lia) ltac:(lia)) as Hrw.
  rewrite Hr1, splice_pad, Hwl, <-Ef in Hrw.
  replace (Z.max (Z.max (cm_size m) (uio_offset io)) (uio_offset io + uio_length io)) with (Z.max (cm_size m) (uio_offset io + uio_length io)) in Hrw by lia.
  assert (forall n, 0 < n -> n <= Z.max (cm_size m) (uio_offset io + uio_length io) ->
    cm_innerOffset m + n <= fd_size (disk_file (cst_disk (js_store js2)) (cm_innerFileId m))) as Hsz.
  { intros n Hn Hn'. rewrite Ef. pose proof (file_write_size (uio_offset io + cm_innerOffset m) (written job) f1).
    destruct (decide (written job = [])) as [E|E].
    - rewrite E in Hwl. cbn in Hwl. lia.
    - pose proof (file_write_end (uio_offset io + cm_innerOffset m) (written job) f1 E) as He. lia. }
  pose proof (jw_sync _ Hw) as Hs. fold io in Hs.
  destruct (syncing job) eqn:Es.
  - destruct (Hs eq_refl) as [_ H0]. specialize (H0 Ht). split; fold io; rewrite ?Ht, ?Er; cbn; try done; try lia.
    + by exists (uio_length io).
    + unfold apply_update. fold io. rewrite Et, Ee, Er, Es. rewrite H0, Z.add_0_r in Hdat. exact Hdat.
    + intros Hp. apply Hsz; lia.
    + intros _. split_and!; [lia|done|lia].
  - split; fold io; rewrite ?Ht, ?Er; cbn; try done; try lia.
    + by eexists.
    + unfold apply_update. fold io. rewrite Et, Ee, Er, Es. exact Hrw.
    + intros Hp. apply Hsz; lia.
    + intros _. split_and!; [lia|done|]. intros E Hp. split; [lia|].
      rewrite Ef. rewrite file_range_write_disjoint by lia. rewrite Z.max_r in Hr1 by lia. rewrite Hr1.
      apply pad_short. rewrite chunk_data_length; lia.
Qed.

Lemma update_data_ok job id i js :
  job_wf job -> cached id i (js_store js) -> cm_chunkState (info_meta i) = CHUNK_DIRTY ->
  runs (update_data job i) js (fun o js' => writing id i js js' /\
    match o with Ok r => data_done job (info_meta i) js js' r i | Err _ => True | _ => False end).
Proof.
  intros Hw Hc Hd. destruct (is_cases _ (jw_type _ Hw)) as [(E&_)|[(E&_)|[(E&_)|(E&_)]]].
  - apply update_resize_ok; try done. by rewrite E.
  - apply update_resize_ok; try done. by rewrite E, orb_true_r.
  - by apply update_remove_ok.
  - by apply update_write_ok.
Qed.

(** ** The whole update *)

(** What the state must be before the data is changed: the chunk is dirty, the
    buffer has the checksum of the request, and the stored checksum is right
    when the write may build on it. *)
Record ready (job : UpdateJob) (i : ChunkInfo) (js : JobState) : Prop := {
  re_wf : job_wf job;
  re_cached : cached (job_id job) i (js_store js);
  re_dirty : cm_chunkState (info_meta i) = CHUNK_DIRTY;
  re_verified : isWrite (job_updateIO job) = true -> ci_type (uio_checksum (job_updateIO job)) <> CHECKSUM_NONE ->
    uio_length (job_updateIO job) <> 0 -> uio_checksum (job_updateIO job) = checksum_ref (ci_type (uio_checksum (job_updateIO job))) (written job);
  re_old : syncing job = false -> cm_recycleState (info_meta i) = RECYCLE_NORMAL ->
    cm_checksum (info_meta i) = stored_checksum (cm_checksumType (info_meta i)) (chunk_data (cst_disk (js_store js)) (info_meta i))
}.

(** The checksum of the new bytes, unless the chunk is being removed. *)
Lemma update_checksum_ok job i js js' r :
  ready job i js -> writing (job_id job) i js js' -> data_done job (info_meta i) js js' r i ->
  let m := info_meta r.2 in
  runs (updateChecksum r.2 (job_updateIO job) (cm_size (info_meta i)) (uio_offset (job_updateIO job) =? cm_size (info_meta i))) js'
    (fun o js2 => reads_only js' js2 /\
    match o with
    | Ok i2 => exists t v, i2 = set_info_meta (set_cm_checksumType t (set_cm_checksumValue v m)) r.2
        /\ (cm_recycleState m = RECYCLE_NORMAL -> mkChecksumInfo t v = stored_checksum t (chunk_data (cst_disk (js_store js')) m))
    | Err _ => True | _ => False
    end).
Proof.
  intros [Hw Hc Hdy Hver Hold] Hwr [Hv [size Hm] Hdat Hsz Hfile Hwrt _] m. set (m0 := info_meta i) in *. set (io := job_updateIO job) in *.
  pose proof (jw_offset _ Hw) as Ho. fold io in Ho. fold m in Hm, Hdat, Hsz, Hfile, Hwrt.
  destruct (cached_sound _ _ _ Hc) as [G1 G2 _ _ _ _ _ _]. fold m0 in G1, G2.
  destruct (decide (cm_recycleState m = RECYCLE_NORMAL)) as [Hn|Hn].
  2: { eapply runs_mono; [apply updateChecksum_shape; [apply Hsz|lia]|]. intros [i2|c| |] js2 [Hr Hs]; (split; [done|]); try done.
       destruct Hs as (t & v & ->). exists t, v. done. }
  assert (m = set_cm_size size m0) as Em.
  { rewrite Hm. destruct (isRemove io && _); [|done]. rewrite Hm in Hn. done. }
  eapply runs_mono; [apply updateChecksum_ok|].
  - fold m. rewrite Hv, (cached_view _ _ _ Hc). fold m0. by rewrite Em.
  - fold m. lia.
  - fold m. intros Ht Hz. unfold checksum_io in *. fold io in Ht |- *. destruct (isTruncate io || isExtend io) eqn:Ete.
    + split; cbn; [lia|done|]. assert (isWrite io = false) as Ew.
      { destruct (is_cases io (jw_type _ Hw)) as [(?&?&?&?)|[(?&?&?&?)|[(?&?&?&?)|(?&?&?&?)]]]; try done. by destruct (isTruncate io), (isExtend io). }
      pose proof (jw_start _ Hw Ew) as E0. fold io in E0. rewrite E0. intros [?%Z.ltb_lt ?%Z.eqb_eq]%andb_true_iff. lia.
    + assert (isWrite io = true) as Ew by (destruct (isWrite io) eqn:Ew; [done|by destruct Ht; apply (jw_checksum _ Hw)]).
      destruct (Hwrt Ew) as (Hle & Hd & Happ). pose proof (jw_length _ Hw) as Hl. fold io in Hl.
      assert (cm_innerFileId m = cm_innerFileId m0 /\ cm_innerOffset m = cm_innerOffset m0 /\ cm_checksum m = cm_checksum m0
        /\ cm_checksumType m = cm_checksumType m0 /\ cm_recycleState m = cm_recycleState m0) as (-> & Eo & Eck & Ect & Er) by (by rewrite Em).
      split; [lia|intros Hnz; rewrite Eo, Hd; by apply Hver|]. rewrite Eo, Eck, Ect.
      intros [Hp%Z.ltb_lt Ha%Z.eqb_eq]%andb_true_iff Et. destruct (Happ Ha Hp) as [He Hpre]. split; [done|]. rewrite Hpre.
      rewrite Hold; [|destruct (syncing job) eqn:Es; [|done]; destruct (jw_sync _ Hw Es) as [_ H0]; specialize (H0 Ew); fold io in H0; lia|congruence].
      unfold stored_checksum. rewrite !bool_decide_eq_false_2; [done| |by rewrite <-Et].
      intros E. pose proof (chunk_data_length (cst_disk (js_store js)) m0 ltac:(lia)) as Hlen. rewrite E in Hlen. cbn in Hlen. lia.
  - intros [i2|c| |] js2 [Hr Hs]; (split; [done|]); try done. destruct Hs as (c & -> & Ec). exists (ci_type c), (ci_value c). split; [done|].
    intros _. fold m in Ec. change (file_range _ _ _) with (chunk_data (cst_disk (js_store js')) m) in Ec. rewrite Ec. apply stored_checksum_eta.
Qed.
Lemma reads_only_calm js js' :
  reads_only js js' -> SInv (js_store js) -> calm (js_store js) (js_store js') /\ cst_map (js_store js') = cst_map (js_store js).
Proof. intros [_ (d' & Hd & ->)] HS. split; [by apply calm_disk|done]. Qed.

(** The chunk after a successful update of a chunk with metadata [m]. *)
Record applied (job : UpdateJob) (m : ChunkMetadata) (old : bytes) (js' : JobState) (n : Z) (i' : ChunkInfo) : Prop := {
  ap_cached : cached (job_id job) i' (js_store js');
  ap_state : cm_chunkState (info_meta i') = CHUNK_CLEAN;
  ap_versions : cm_updateVer (info_meta i') = cm_updateVer m /\ cm_commitVer (info_meta i') = cm_commitVer m
                /\ cm_chainVer (info_meta i') = cm_chainVer m;
  ap_data : chunk_data (cst_disk (js_store js')) (info_meta i') = apply_update (job_updateIO job) (syncing job) (job_data job) old;
  ap_recycle : isRemove (job_updateIO job) = true -> readyToRemove (info_meta i') = true;
  ap_stays : isRemove (job_updateIO job) = false -> cm_recycleState (info_meta i') = cm_recycleState m;
  ap_length : n = if isWrite (job_updateIO job) then uio_length (job_updateIO job)
                  else if isRemove (job_updateIO job) then 0 else cm_size (info_meta i');
  ap_result : io_updateVer (js_result js') = cm_updateVer m /\ io_commitVer (js_result js') = cm_commitVer m
              /\ io_commitChainVer (js_result js') = cm_chainVer m /\ io_checksum (js_result js') = cm_checksum (info_meta i')
}.

(** The metadata [update] stores at the end. *)
Lemma final_sound job i js js' r t v :
  ready job i js -> writing (job_id job) i js js' -> data_done job (info_meta i) js js' r i ->
  (cm_recycleState (info_meta r.2) = RECYCLE_NORMAL -> mkChecksumInfo t v = stored_checksum t (chunk_data (cst_disk (js_store js')) (info_meta r.2))) ->
  meta_sound (cst_disk (js_store js')) (set_cm_chunkState CHUNK_CLEAN (set_cm_checksumType t (set_cm_checksumValue v (info_meta r.2)))).
Proof.
  intros [Hw Hc Hdy Hver Hold] Hwr [Hv [size Hm] Hdat Hsz Hfile Hwrt _] Hck.
  destruct (cached_sound _ _ _ Hc) as [_ G2 _ G4 G5 G6 _ _]. rewrite Hdy in G6.
  assert (exists r', info_meta r.2 = set_cm_size size (set_cm_recycleState r' (info_meta i))) as [r' Em].
  { rewrite Hm. case_match; eauto. }
  clear Hm. split; cbn; rewrite ?Em in *; cbn in *; try done.
  split; [done|]. intros E. by apply G6 in E.
Qed.

Lemma update_apply_ok job i skip js :
  ready job i js ->
  runs (update_apply config job i (uio_offset (job_updateIO job) =? cm_size (info_meta i)) skip) js (fun o js' =>
    others_kept (job_id job) (js_store js) (js_store js') /\
    match o with
    | Ok n => exists i', applied job (info_meta i) (chunk_data (cst_disk (js_store js)) (info_meta i)) js' n i'
    | Err _ => cached (job_id job) i (js_store js')
    | _ => False
    end).
Proof.
  intros Hr. unfold update_apply. mstep. unfold onResult at 1. mstep. mstep. set (js0 := set_js_result _ _). mstep.
  assert (ready job i js0) as Hr0 by (by destruct Hr; split).
  change (js_store js) with (js_store js0).
  assert (io_updateVer (js_result js0) = cm_updateVer (info_meta i) /\ io_commitChainVer (js_result js0) = cm_chainVer (info_meta i)) as Hres by done.
  clearbody js0. eapply runs_mono; [apply (update_data_ok job (job_id job) i); apply Hr0|].
  intros [r|c| |] js1 [W1 D1]; cbv beta iota delta [andThen]; try done; [|by split; apply W1]. mstep.
  eapply runs_mono; [by apply (update_checksum_ok job i js0 js1 r)|].
  intros o js2 [R2 H2]. destruct (reads_only_calm _ _ R2 (cd_inv _ _ _ (wi_cached _ _ _ _ W1))) as [C2 Emap].
  assert (cached (job_id job) i (js_store js2)) as Hc2 by (eapply calm_cached; [apply W1|done|done]).
  assert (others_kept (job_id job) (js_store js0) (js_store js2)) as Ho2 by (eapply others_trans; [apply W1|by apply calm_others]).
  destruct o as [i2|c| |]; cbv beta iota delta [andThen]; try done. destruct H2 as (t & v & -> & Hck).
  pose proof (final_sound _ _ _ _ _ _ _ Hr0 W1 D1 Hck) as Hfs. destruct D1 as [Hv [size Hm] Hdat Hsz Hfile Hwrt Hlen].
  set (m' := set_cm_chunkState CHUNK_CLEAN _) in *. cbv zeta. mstep. apply runs_zoom.
  assert (cm_innerFileId m' = cm_innerFileId (info_meta i) /\ cm_innerOffset m' = cm_innerOffset (info_meta i) /\
    cm_updateVer m' = cm_updateVer (info_meta i) /\ cm_commitVer m' = cm_commitVer (info_meta i) /\ cm_chainVer m' = cm_chainVer (info_meta i)
    /\ cm_size m' = cm_size (info_meta r.2)
    /\ (isRemove (job_updateIO job) = true -> readyToRemove m' = true)
    /\ (isRemove (job_updateIO job) = false -> cm_recycleState m' = cm_recycleState (info_meta i))) as (E1 & E2 & E3 & E4 & E5 & E6 & E7 & E8).
  { unfold m'. cbn. rewrite Hm. destruct (isRemove _); [|by split_and!]. cbn [andb].
    destruct (readyToRemove (info_meta i)) eqn:Erc; cbn [negb]; by split_and!. }
  change (info_meta (set_info_meta _ _)) with m'.
  eapply runs_mono; [apply (store_set_ok config Hconfig (job_id job) i _ _ (js_store js2)); [done|by split|done|by apply (meta_sound_grown _ _ _ (calm_grown _ _ C2))]|].
  intros [[]|c| |] s3 (Hg3 & Ho3 & H3); cbv beta iota delta [andThen]; try done;
    pose proof (others_trans _ _ _ _ Ho2 Ho3) as Ho; [|done].
  unfold onResult. msteps. split; [done|]. eexists. split; [exact H3|done|done| |done|exact E8|exact Hlen|].
  - change (info_meta (set_info_meta _ _)) with m'. cbn [js_store set_js_store set_js_result].
    rewrite (chunk_data_grown _ _ _ Hg3), (chunk_data_grown _ _ _ (calm_grown _ _ C2)). rewrite <-Hdat. done.
  - cbn. rewrite (ro_result _ _ R2), (wi_result _ _ _ _ W1). destruct Hres as [-> _]. by split_and!.
Qed.
Lemma update_guards_ok job m cs js :
  job_wf job ->
  runs (update_guards job m cs) js (fun o js' => js_store js' = js_store js /\
    match o with
    | Ok _ => cf_chunkSize (cm_innerFileId m) = cs /\ (cm_chunkState m = CHUNK_DIRTY -> syncing job = true)
        /\ (isWrite (job_updateIO job) = true -> ci_type (uio_checksum (job_updateIO job)) <> CHECKSUM_NONE ->
            uio_length (job_updateIO job) <> 0 ->
            uio_checksum (job_updateIO job) = checksum_ref (ci_type (uio_checksum (job_updateIO job))) (written job))
    | Err _ => True | _ => False
    end).
Proof.
  intros Hw. unfold update_guards, onResult. do 3 mstep. set (js0 := set_js_result _ _). mstep. mstep; [done|]. do 2 mstep. mstep; [done|].
  do 2 mstep. mstep; [done|]. mstep.
  match goal with H : negb _ = false, H' : _ && negb (uo_isSyncing _) = false |- _ => apply negb_false_iff, Z.eqb_eq in H; rename H into Hcs; rename H' into Hd end.
  assert (cm_chunkState m = CHUNK_DIRTY -> syncing job = true) as Hsync.
  { intros E. rewrite E in Hd. cbn in Hd. by destruct (syncing job). }
  mstep.
  - match goal with H : _ && _ = true |- _ => apply andb_true_iff in H as [Ht%bool_decide_eq_true _] end.
    assert (isWrite (job_updateIO job) = true) as Ew by (destruct (isWrite (job_updateIO job)) eqn:Ew; [done|by destruct Ht; apply (jw_checksum _ Hw)]).
    mstep. unfold buffer_read. rewrite (proj2 (Z.ltb_ge _ _)) by (by apply (jw_data _ Hw)). fold (written job). do 2 mstep. mstep; [done|].
    split_and!; [done|done|done|]. intros _ _ _.
    match goal with H : bool_decide _ = false |- _ => apply bool_decide_eq_false, dec_stable in H; rewrite <-H end.
    rewrite checksum_of_buffer_ref by done. done.
  - match goal with H : _ && _ = false |- _ => rename H into Hn end. split_and!; [done|done|done|]. intros _ Ht Hl.
    apply andb_false_iff in Hn as [Hn|Hn]; [by apply bool_decide_eq_false in Hn|].
    apply negb_false_iff, Z.eqb_eq in Hn. done.
Qed.

(** ** Outcomes of an update *)

Definition old_version (s : ChunkStore) (id : ChunkId) : Z * Z :=
  match cur s id with Some m => (cm_updateVer m, cm_commitVer m) | None => (0, 0) end.

(** Nothing changed, or the chunk is dirty. *)
Definition failed (job : UpdateJob) (s s' : ChunkStore) : Prop :=
  SInv s' /\ (cur s' (job_id job) = cur s (job_id job) /\ content s' (job_id job) = content s (job_id job)
              \/ exists m, cur s' (job_id job) = Some m /\ cm_chunkState m = CHUNK_DIRTY
                   /\ (syncing job = false -> cm_commitVer m = (old_version s (job_id job)).2)).

Lemma failed_calm job s s' : calm s s' -> failed job s s'.
Proof. intros C. split; [apply C|]. left. split; [apply C|by apply calm_content]. Qed.

(** The chunk is there and in use, or absent. *)
Definition in_use (s : ChunkStore) (id : ChunkId) : Prop := forall m, cur s id = Some m -> cm_recycleState m = RECYCLE_NORMAL.
Definition not_dirty (s : ChunkStore) (id : ChunkId) : Prop := forall m, cur s id = Some m -> cm_chunkState m <> CHUNK_DIRTY.

(** The chunk was updated and its version moved by one, or set by a resync. *)
Definition updated (job : UpdateJob) (s : ChunkStore) (js' : JobState) (n : Z) : Prop :=
  exists m i', applied job m (default [] (content s (job_id job))) js' n i'
    /\ (cm_updateVer m, cm_commitVer m)
       = (if syncing job then (uio_updateVer (job_updateIO job), uio_updateVer (job_updateIO job) - 1)
          else ((old_version s (job_id job)).1 + 1, (old_version s (job_id job)).2))
    /\ cm_chainVer m = commitChainVer job
    /\ (syncing job = false -> not_dirty s (job_id job) /\ versions_fit job (old_version s (job_id job))
        /\ (in_use s (job_id job) -> cm_recycleState m = RECYCLE_NORMAL)).

(** The metadata with which a chunk is marked dirty. *)
Definition dirty_meta (job : UpdateJob) (now : UtcTime) (m : ChunkMetadata) : ChunkMetadata :=
  stamp job now (set_cm_chainVer (commitChainVer job) (set_cm_chunkState CHUNK_DIRTY (next_meta job m))).

Lemma dirty_meta_sound job now m d :
  meta_sound d m -> 0 <= cm_commitVer (next_meta job m) < cm_updateVer (next_meta job m) -> cm_updateVer (next_meta job m) < 2 ^ 32 ->
  meta_sound d (dirty_meta job now m).
Proof.
  intros [G1 G2 G3 G4 G5 G6 G7 G8] Hv Hu. unfold dirty_meta. revert Hv Hu. unfold next_meta.
  destruct (syncing job); cbn; intros Hv Hu; split; cbn; try done; try lia; (split; [done|lia]).
Qed.

Lemma update_existing_ok job i js :
  job_wf job -> cached (job_id job) i (js_store js) -> (syncing job = false -> cm_updateVer (info_meta i) + 1 < 2 ^ 32) ->
  runs (update_chunk config job i false) js (fun o js' => others_kept (job_id job) (js_store js) (js_store js') /\
    match o with Ok n => updated job (js_store js) js' n | Err _ => failed job (js_store js) (js_store js') | _ => False end).
Proof.
  intros Hw Hc Hu. set (id := job_id job) in *. set (m := info_meta i). pose proof (cached_sound _ _ _ Hc) as Hms. fold m in Hms.
  assert (forall js', js_store js' = js_store js -> others_kept id (js_store js) (js_store js') /\ failed job (js_store js) (js_store js')) as Hno.
  { intros js' ->. split; [apply others_refl|]. apply failed_calm, calm_refl, Hc. }
  unfold update_chunk. mstep. eapply runs_mono; [by apply update_guards_ok|].
  intros [[]|c| |] js1 [E1 H1]; cbv beta iota delta [andThen]; try done; [|by apply Hno]. destruct H1 as (_ & Hsync & Hver).
  mstep. eapply runs_mono; [apply update_versions_ok; [done|apply Hms|done]|]. fold m.
  intros [m1|c| |] js2 [-> H2]; cbv beta iota delta [andThen]; try done; [|by apply Hno]. destruct H2 as (-> & [Hv Hvu] & Hvf).
  mstep. unfold job_now. mstep. mstep. set (now := d_now _). change (stamp job now _) with (dirty_meta job now m). set (m2 := dirty_meta job now m).
  assert (same_place m m2) as Hp by (unfold m2, dirty_meta, next_meta; by destruct (syncing job)).
  assert (forall d, chunk_data d m2 = chunk_data d m) as Hcd by (intros d; unfold m2, dirty_meta, next_meta; by destruct (syncing job)).
  mstep. mstep. apply runs_zoom. rewrite E1. fold id.
  eapply runs_mono; [apply (store_set_ok config Hconfig id i (set_info_meta m2 i)); [done|done|done|by apply dirty_meta_sound]|].
  intros [[]|c| |] s3 (Hg3 & Ho3 & H3); cbv beta iota delta [andThen]; try done.
  2: { split; [done|]. cbn. split; [apply H3|]. left. fold id. rewrite (cached_cur _ _ _ H3), (cached_cur _ _ _ Hc). split; [done|].
       unfold content. rewrite (cached_cur _ _ _ H3), (cached_cur _ _ _ Hc). cbn. by rewrite (chunk_data_grown _ _ _ Hg3). }
  mstep. eapply runs_mono; [apply (update_apply_ok job (set_info_meta m2 i))|].
  { split; [done|done|done|done|]. intros Es Hn. cbn [info_meta set_info_meta js_store set_js_store] in *. rewrite Hcd, (chunk_data_grown _ _ _ Hg3).
    assert (cm_checksum m2 = cm_checksum m /\ cm_checksumType m2 = cm_checksumType m /\ cm_recycleState m2 = cm_recycleState m) as (Ek & Et & E)
      by (unfold m2, dirty_meta, next_meta; by rewrite Es). rewrite Ek, Et.
    apply (so_checksum _ _ Hms); [|congruence]. intros E'. apply Hsync in E'. congruence. }
  cbn [info_meta set_info_meta js_store set_js_store]. rewrite Hcd, (chunk_data_grown _ _ _ Hg3).
  intros [n|c| |] js4 [Ho4 H4]; try done; (split; [eapply others_trans; [exact Ho3|exact Ho4]|]).
  - destruct H4 as [i' Hap]. exists m2, i'. unfold content, old_version. fold id. rewrite (cached_cur _ _ _ Hc). split; [done|]. cbn.
    unfold m2, dirty_meta, next_meta. destruct (syncing job) eqn:Es; (split_and!; [done|done|]); [done|]. intros _.
    split_and!; [|by apply Hvf|]; unfold not_dirty, in_use; fold id; rewrite (cached_cur _ _ _ Hc); [intros ? [= <-] E; apply Hsync in E; congruence|intros Hi; exact (Hi _ eq_refl)].
  - split; [apply H4|]. right. exists m2. split; [by apply (cached_cur _ _ _ H4)|]. split; [by unfold m2, dirty_meta, next_meta; destruct (syncing job)|].
    intros Es. unfold old_version. fold id. rewrite (cached_cur _ _ _ Hc). unfold m2, dirty_meta, next_meta. by rewrite Es.
Qed.

(** ** Creation *)

Hypothesis Hsize : 0 < mc_allocate_size (sc_meta_store config) < 2 ^ 63.

Definition new_info (job : UpdateJob) : ChunkInfo :=
  set_info_meta (set_cm_innerFileId (mkChunkFileId (uio_chunkSize (job_updateIO job)) 0)
    (set_cm_chunkState CHUNK_CLEAN (set_cm_chainVer (commitChainVer job) ChunkMetadata_default))) ChunkInfo_default.

Lemma update_new_ok job js :
  job_wf job -> isRemove (job_updateIO job) = false -> SInv (js_store js) -> cur (js_store js) (job_id job) = None ->
  no_read_faults (cst_disk (js_store js)) ->
  runs (update_chunk config job (new_info job) true) js (fun o js' => others_kept (job_id job) (js_store js) (js_store js') /\
    match o with Ok n => updated job (js_store js) js' n | _ => failed job (js_store js) (js_store js') end).
Proof.
  intros Hw Er HS Hn Hnf. set (id := job_id job) in *. set (m := info_meta (new_info job)).
  assert (forall js', js_store js' = js_store js -> others_kept id (js_store js) (js_store js') /\ failed job (js_store js) (js_store js')) as Hno.
  { intros js' ->. split; [apply others_refl|]. by apply failed_calm, calm_refl. }
  unfold update_chunk. mstep. eapply runs_mono; [by apply update_guards_ok|].
  intros [[]|c| |] js1 [E1 H1]; cbv beta iota delta [andThen]; try done; [|by apply Hno]. destruct H1 as (_ & _ & Hver).
  mstep. eapply runs_mono; [apply update_versions_ok; [done|done|done]|]. fold m.
  intros [m1|c| |] js2 [-> H2]; cbv beta iota delta [andThen]; try done; [|by apply Hno]. destruct H2 as (-> & [Hv Hvu] & Hvf).
  mstep. unfold job_now. mstep. mstep. set (now := d_now _). change (stamp job now _) with (dirty_meta job now m). set (m2 := dirty_meta job now m).
  assert (cm_size m2 = 0 /\ cm_checksum m2 = no_checksum /\ cm_updateVer m2 = cm_updateVer (next_meta job m)
    /\ cm_commitVer m2 = cm_commitVer (next_meta job m)) as (Hsz & Hck & Euv & Ecv) by (unfold m2, dirty_meta, next_meta; by destruct (syncing job)).
  rewrite Er. mstep. apply runs_zoom. rewrite E1. fold id.
  eapply runs_mono; [apply (store_createChunk_ok config Hsize id); [done|done|done| |apply (jw_chunkSize _ Hw)]|].
  { split; [done|done|..]; cbn [info_meta set_info_meta]; rewrite Euv, ?Ecv; done. }
  intros o s3 (Hg3 & Ho3 & H3).
  assert (is_ok o = false -> failed job (js_store js) s3) as HE.
  { intros Eo. assert (SInv s3 /\ forall m, cur s3 id = Some m -> cm_chunkState m = CHUNK_DIRTY /\ cm_commitVer m = cm_commitVer m2) as [HS3 Hd] by (by destruct o).
    split; [done|]. fold id. destruct (cur s3 id) as [m3|] eqn:Em.
    - right. exists m3. destruct (Hd m3 eq_refl) as [Hd1 Hd2]. split_and!; [done|done|]. intros Es. unfold old_version. fold id. rewrite Hn, Hd2, Ecv.
      unfold next_meta. by rewrite Es.
    - left. unfold content. by rewrite Em, Hn. }
  destruct o as [i'|c| |]; cbv beta iota delta [andThen]; [|by split; [done|apply HE]..]. clear HE. destruct H3 as [Hc3 [t Et]].
  cbn [info_meta set_info_meta] in Et. replace (cm_size m2) with (cm_size (info_meta i')) by (by rewrite Et).
  eapply runs_mono; [apply (update_apply_ok job i')|].
  { split; [done|done|by rewrite Et|done|]. intros _ _. change (cm_checksum (info_meta i') = stored_checksum (ci_type (cm_checksum (info_meta i'))) (chunk_data (cst_disk s3) (info_meta i'))).
    assert (cm_checksum (info_meta i') = no_checksum) as -> by (by rewrite Et). done. }
  cbn [js_store set_js_store]. assert (chunk_data (cst_disk s3) (info_meta i') = []) as ->.
  { unfold chunk_data. replace (cm_size (info_meta i')) with 0 by (by rewrite Et). done. }
  intros [n|c| |] js4 [Ho4 H4]; try done; (split; [eapply others_trans; [exact Ho3|exact Ho4]|]).
  - destruct H4 as [i4 Hap]. exists (info_meta i'), i4. unfold content, old_version. fold id. rewrite Hn. split; [done|]. rewrite Et. cbn.
    unfold m2, dirty_meta, next_meta. destruct (syncing job) eqn:Es; (split_and!; [done|done|]); [done|]. intros _.
    split_and!; [|by apply Hvf|done]. unfold not_dirty. fold id. by rewrite Hn.
  - split; [apply H4|]. right. exists (info_meta i'). split; [by apply (cached_cur _ _ _ H4)|]. rewrite Et. split; [by unfold m2, dirty_meta, next_meta; destruct (syncing job)|].
    intros Es. unfold old_version. fold id. rewrite Hn. cbn. unfold m2, dirty_meta, next_meta. by rewrite Es.
Qed.

(** ** [ChunkReplica::update] *)

Lemma replica_update_ok job s res :
  job_wf job -> SInv s ->
  (forall m, cur s (job_id job) = Some m -> syncing job = false -> cm_updateVer m + 1 < 2 ^ 32) ->
  (cur s (job_id job) = None -> no_read_faults (cst_disk s)) ->
  runs (replica_update config job) (mkJobState s res) (fun o js' => others_kept (job_id job) s (js_store js') /\
    match o with
    | Ok n => updated job s js' n \/ isRemove (job_updateIO job) = true /\ cur s (job_id job) = None /\ calm s (js_store js') /\ n = 0
    | _ => failed job s (js_store js')
    end).
Proof.
  intros Hw HS Hu Hnf. set (id := job_id job) in *. unfold replica_update. mstep.
  mstep; [split; [apply others_refl|by apply failed_calm, calm_refl]|]. do 3 mstep. apply runs_zoom. fold id.
  eapply runs_mono; [by apply store_get_ok|]. cbn [js_store]. intros o s1 [C1 Ho]. pose proof (calm_others id _ _ C1) as Hoth.
  assert (forall js' n, updated job s1 js' n -> updated job s js' n) as Hup.
  { intros js' n (m & i' & Hap & Hrest). exists m, i'. unfold not_dirty, in_use, old_version in *. fold id in Hap, Hrest |- *.
    by rewrite (calm_content _ _ id C1), (ca_cur _ _ C1) in *. }
  assert (forall s2, failed job s1 s2 -> failed job s s2) as Hfl.
  { intros s2 [HS2 H2]. split; [done|]. unfold old_version in *. fold id in H2 |- *. by rewrite (calm_content _ _ id C1), (ca_cur _ _ C1) in H2. }
  destruct o as [i|c| |]; cbv beta iota delta [andThen]; try done.
  - destruct Ho as [Em Ec]. eapply runs_mono; [apply (update_existing_ok job i); [done|split; [apply C1|done]|by apply Hu]|].
    cbn [js_store set_js_store]. intros [n|c| |] js2 [Ho2 H2]; try done; (split; [eapply others_trans; [exact Hoth|exact Ho2]|]); auto.
  - destruct (c =? StorageCode_kChunkMetadataNotFound) eqn:Ecode; [|mstep; split; [done|by apply failed_calm]].
    apply Z.eqb_eq in Ecode. specialize (Ho Ecode). destruct (isRemove (job_updateIO job)) eqn:Er.
    + unfold onResult. msteps. split; [done|]. right. done.
    + eapply runs_mono; [apply (update_new_ok job)|].
      * done.
      * done.
      * apply C1.
      * cbn. fold id. by rewrite (ca_cur _ _ C1).
      * eapply no_read_faults_later; [by apply Hnf|apply (calm_grown _ _ C1)].
      * cbn [js_store set_js_store]. intros [n|c'| |] js2 [Ho2 H2]; (split; [eapply others_trans; [exact Hoth|exact Ho2]|]); auto.
Qed.
End update.
