(* ===== verification/ReplicaCommit.v ===== *)
(** * Commits and reads of chunks

    [ChunkReplica::commit] publishes a version or removes the chunk, and never
    changes bytes; a read returns a slice of the bytes of a committed chunk
    with their checksum, and fails when the chunk was updated meanwhile. *)

From Stdlib Require Import ZArith Lia.
From stdpp Require Import base gmap list.
From S2P Require Import Prelude StatusCode Bytes MgmtdTypes StorageTypes Checksums ChunkFiles ChunkMetaStore MetaKeys MetaSpace MetaSteps MetaCreate MetaTheorems ChunkReplica ReplicaInv ReplicaData ReplicaUpdate.

Abbreviation commit_id job := (gk_chunkId (cio_key (job_commitIO job))).

Section commit.
Context {HCrc : Crc} {HPersist : Persist} (config : StoreConfig) (Hconfig : always_persist = sc_force_persist config).

Lemma commit_versions_ok cio m js :
  0 <= cio_commitVer cio <= cm_updateVer m -> (cio_isForce cio = true -> cm_chunkState m <> CHUNK_DIRTY) ->
  runs (commit_versions cio m) js (fun o js' => js_store js' = js_store js /\
    match o with
    | Ok m' => js' = js /\ exists st, m' = set_cm_commitVer (cio_commitVer cio) (set_cm_chunkState st m) /\ cm_chunkState m <> CHUNK_DIRTY
        /\ (st = CHUNK_CLEAN \/ st = cm_chunkState m /\ cm_commitVer m < cio_commitVer cio)
    | Err c => c = StorageCode_kChunkStaleCommit -> cio_commitVer cio <= cm_commitVer m
    | _ => False
    end).
Proof.
  intros Hv Hf. unfold commit_versions, onResult. destruct (cio_isForce cio); [mstep; split_and!; [done|done|]; exists CHUNK_CLEAN; auto|].
  case_bool_decide as Hd; [by mstep|]. destruct (cm_commitVer m <? cio_commitVer cio) eqn:El; [|by msteps; split; [done|]; intros _; apply Z.ltb_ge].
  apply Z.ltb_lt in El. mstep. split_and!; [done|done|]. exists (cm_chunkState m). split_and!; [by destruct m|done|auto].
Qed.

(** The metadata stored by a commit. *)
Definition committed_meta (job : UpdateJob) (now : UtcTime) (st : ChunkState) (m : ChunkMetadata) : ChunkMetadata :=
  let m1 := set_cm_commitVer (cio_commitVer (job_commitIO job)) (set_cm_chunkState st m) in
  stamp job now (if cm_commitVer m1 =? cm_updateVer m1
                 then set_cm_chainVer (commitChainVer job) (set_cm_chunkState CHUNK_COMMIT m1) else m1).

Lemma committed_sound job now st m d :
  meta_sound d m -> cm_recycleState m = RECYCLE_NORMAL -> 0 <= cio_commitVer (job_commitIO job) <= cm_updateVer m ->
  cm_chunkState m <> CHUNK_DIRTY -> st = CHUNK_CLEAN \/ st = cm_chunkState m /\ cm_commitVer m < cio_commitVer (job_commitIO job) ->
  meta_sound d (committed_meta job now st m).
Proof.
  intros [G1 G2 G3 G4 G5 G6 G7 G8] Hn Hv Hd Hst. unfold committed_meta. cbn [cm_commitVer cm_updateVer set_cm_commitVer set_cm_chunkState].
  destruct (cio_commitVer (job_commitIO job) =? cm_updateVer m) eqn:E.
  - apply Z.eqb_eq in E. split; cbn; try done; try lia. intros _ _. by apply G8.
  - apply Z.eqb_neq in E. split; cbn; try done; try lia; [|intros _ _; by apply G8].
    split; [|done]. intros ->. destruct Hst as [?|[? ?]]; [done|]. assert (cm_commitVer m = cm_updateVer m) by (by apply G6). lia.
Qed.

Definition committed (job : UpdateJob) (s s' : ChunkStore) : Prop :=
  exists m, cur s (commit_id job) = Some m /\ cm_chunkState m <> CHUNK_DIRTY /\ cio_commitVer (job_commitIO job) <= cm_updateVer m /\
    if readyToRemove m then cur s' (commit_id job) = None
    else exists m', cur s' (commit_id job) = Some m' /\ cm_commitVer m' = cio_commitVer (job_commitIO job)
           /\ cm_updateVer m' = cm_updateVer m /\ content s' (commit_id job) = content s (commit_id job)
           /\ cm_chunkState m' <> CHUNK_DIRTY /\ cm_recycleState m' = RECYCLE_NORMAL.

Lemma replica_commit_ok job s res :
  SInv s -> 0 <= cio_commitVer (job_commitIO job) ->
  (cio_isForce (job_commitIO job) = true -> forall m, cur s (commit_id job) = Some m -> cm_chunkState m <> CHUNK_DIRTY) ->
  runs (replica_commit config job) (mkJobState s res) (fun o js' => SInv (js_store js') /\ others_kept (commit_id job) s (js_store js') /\
    match o with
    | Ok _ => committed job s (js_store js')
                /\ io_updateVer (js_result js') = (old_version s (commit_id job)).1
                /\ io_commitVer (js_result js') = cio_commitVer (job_commitIO job)
              \/ cio_isRemove (job_commitIO job) = true /\ cur s (commit_id job) = None /\ calm s (js_store js')
    | _ => cur (js_store js') (commit_id job) = cur s (commit_id job)
           /\ (in_use s (commit_id job) -> content (js_store js') (commit_id job) = content s (commit_id job))
    end).
Proof.
  intros HS Hv Hforce. set (id := commit_id job) in *. unfold replica_commit. fold id. do 2 mstep. apply runs_zoom.
  eapply runs_mono; [by apply store_get_ok|]. cbn [js_store]. intros o s1 [C1 Ho]. pose proof (calm_others id _ _ C1) as Hoth.
  assert (forall js', js_store js' = s1 -> SInv (js_store js') /\ others_kept id s (js_store js') /\ cur (js_store js') id = cur s id
    /\ (in_use s id -> content (js_store js') id = content s id)) as Hno.
  { intros js' ->. split_and!; [apply C1|done|apply C1|]. intros _. by apply calm_content. }
  destruct o as [i|c| |]; cbv beta iota delta [andThen]; try done.
  2: { case_match eqn:Ec; [|mstep; by apply Hno]. apply andb_true_iff in Ec as [Er Ec%Z.eqb_eq]. unfold onResult. msteps.
       split_and!; [apply C1|done|]. right. auto. }
  destruct Ho as [Em Ecur]. set (m := info_meta i) in *. assert (cached id i s1) as Hc by (by split; [apply C1|]).
  unfold onResult. do 4 mstep. mstep; [by apply Hno|]. do 2 mstep. mstep; [by apply Hno|]. mstep.
  match goal with H : (_ >? cm_updateVer m) = false |- _ => rewrite Z.gtb_ltb in H; apply Z.ltb_ge in H; rename H into Hle end.
  mstep. eapply runs_mono; [apply commit_versions_ok; [done|intros; by apply Hforce]|].
  intros [m1|c| |] js2 [E2 H2]; cbv beta iota delta [andThen]; try done; [|apply Hno; by rewrite E2].
  destruct H2 as (Ejs & st & -> & Hd & Hst). assert ((old_version s id).1 = cm_updateVer m) as Hold by (unfold old_version; by rewrite Ecur). unfold job_now. do 3 mstep. set (now := d_now _).
  change (stamp job now _) with (committed_meta job now st m). set (m3 := committed_meta job now st m).
  assert (same_place m m3 /\ cm_recycleState m3 = cm_recycleState m /\ (forall d, chunk_data d m3 = chunk_data d m)
    /\ cm_commitVer m3 = cio_commitVer (job_commitIO job) /\ cm_updateVer m3 = cm_updateVer m) as (Hp & Er & Hcd & Ecv & Euv).
  { unfold m3, committed_meta. by case_match. }
  assert (cm_chunkState m3 <> CHUNK_DIRTY) as Hd3.
  { unfold m3, committed_meta. case_match; [done|]. cbn. destruct Hst as [->|[-> _]]; done. }
  assert (readyToRemove m3 = readyToRemove m) as Erd by (unfold readyToRemove; by rewrite Er).
  mstep. rewrite Erd. destruct (readyToRemove m) eqn:Erm.
  - apply runs_zoom. rewrite E2. eapply runs_mono; [apply (store_remove_ok config id i (set_info_meta m3 i)); [done|done|]|].
    { intros E. unfold readyToRemove in Erm. fold m in E. by rewrite E in Erm. }
    intros o s3 (HS3 & Ho3 & H3). pose proof (others_trans _ _ _ _ Hoth Ho3) as Ho.
    assert (in_use s id -> False) as Hnu.
    { intros Hi. specialize (Hi _ Ecur). unfold readyToRemove in Erm. by rewrite Hi in Erm. }
    destruct o as [[]|c| |]; cbv beta iota delta [andThen]; [|by split_and!; [..|cbn; rewrite H3; apply C1|]..].
    msteps. split_and!; [done|done|]. left. split_and!; [|by rewrite Hold, Ejs|done]. exists m. fold id. by rewrite Erm.
  - apply runs_zoom. rewrite E2. eapply runs_mono; [apply (store_set_ok config Hconfig id i (set_info_meta m3 i)); [done|done|done|]|].
    { apply committed_sound; [by apply (cached_sound id)| |done|done|done].
      unfold readyToRemove in Erm. by apply negb_false_iff, bool_decide_eq_true in Erm. }
    intros [[]|c| |] s3 (Hg3 & Ho3 & H3); pose proof (others_trans _ _ _ _ Hoth Ho3) as Ho; cbv beta iota delta [andThen]; try done.
    + msteps. split_and!; [apply H3|done|]. left. pose proof (cached_cur _ _ _ H3) as Hc3. cbn in Hc3.
      split_and!; [|by rewrite Hold, Ejs|done]. exists m. fold id. rewrite Erm. split_and!; [done..|]. exists m3. split_and!; [done|done|done| |done|].
      2: { rewrite Er. unfold readyToRemove in Erm. by apply negb_false_iff, bool_decide_eq_true in Erm. }
      unfold content. cbn. rewrite Hc3, Ecur. cbn. by rewrite Hcd, (chunk_data_grown _ _ _ Hg3), (chunk_data_grown _ _ _ (calm_grown _ _ C1)).
    + split_and!; [apply H3|done|..]; cbn; [by rewrite (cached_cur _ _ _ H3), Ecur|]. intros _. unfold content. cbn.
      rewrite (cached_cur _ _ _ H3), Ecur. cbn. fold m. by rewrite (chunk_data_grown _ _ _ Hg3), (chunk_data_grown _ _ _ (calm_grown _ _ C1)).
Qed.
End commit.

(** ** Reads *)

Lemma file_range_slice f o size offset len :
  0 <= size -> 0 <= offset -> 0 <= len ->
  file_range f (o + offset) (Z.min len (Z.max 0 (size - offset))) = take (Z.to_nat len) (drop (Z.to_nat offset) (file_range f o size)).
Proof.
  intros Hs Ho Hl. apply list_eq. intros j. rewrite lookup_take, lookup_drop, !file_range_lookup.
  destruct (decide (Z.of_nat j < len)) as [Hj|Hj].
  - destruct (decide (Z.of_nat j < size - offset)).
    + rewrite !bool_decide_eq_true_2 by lia. rewrite decide_True by lia. do 2 f_equal. lia.
    + rewrite !bool_decide_eq_false_2 by lia. by case_decide.
  - rewrite bool_decide_eq_false_2 by lia. by rewrite decide_False by lia.
Qed.

(** An aligned read of the device, cut to the range asked for. *)
Lemma read_bytes_spec f start head len have n :
  0 <= head -> 0 <= n -> n <= len -> n <= have - head ->
  take (Z.to_nat n) (drop (Z.to_nat head) ((fun i => file_get f (start + i)) <$> seqZ 0 have))
  = file_range f (start + head) n.
Proof.
  intros Hh Hn Hl Hv. apply list_eq. intros j. rewrite lookup_take, lookup_drop, list_lookup_fmap, file_range_lookup.
  destruct (decide (Z.of_nat j < n)).
  - rewrite decide_True, bool_decide_eq_true_2 by lia. rewrite lookup_seqZ_lt by lia. cbn. do 2 f_equal. lia.
  - by rewrite decide_False, bool_decide_eq_false_2 by lia.
Qed.

(** The ranges for which the 32-bit arithmetic of a read does not wrap. *)
Definition read_wf (readIO : ReadIO) : Prop :=
  0 <= rio_offset readIO /\ 0 <= rio_length readIO /\ rio_offset readIO + rio_length readIO + kAIOAlignSize <= 2 ^ 32.

(** What a read of a chunk with metadata [m] knows after the preparation. *)
Record prepared (readIO : ReadIO) (m : ChunkMetadata) (st : AioReadState) : Prop := {
  pr_head : rs_headLength st = rio_offset readIO mod kAIOAlignSize;
  pr_fd : rs_readFd st = cm_innerFileId m;
  pr_offset : rs_readOffset st = u64 (cm_innerOffset m + (rio_offset readIO - rs_headLength st));
  pr_length : rio_length readIO + rs_headLength st <= rs_readLength st;
  pr_chunk : rs_chunkLen st = cm_size m /\ rs_chunkChecksum st = cm_checksum m
}.

Section reads.
Context {HCrc : Crc} {HLaws : CrcLaws} {HPersist : Persist}.

Abbreviation read_id readIO := (gk_chunkId (rio_key readIO)).

Lemma aioPrepareRead_ok readIO ru js :
  SInv (js_store js) -> read_wf readIO ->
  runs (aioPrepareRead readIO (AioReadState_new readIO ru)) js (fun o js' => calm (js_store js) (js_store js') /\
    match o with
    | Ok st => exists i, cached (read_id readIO) i (js_store js') /\ cur (js_store js) (read_id readIO) = Some (info_meta i)
        /\ prepared readIO (info_meta i) st /\ io_updateVer (js_result js') = cm_updateVer (info_meta i)
        /\ (ru = false -> cm_commitVer (info_meta i) = cm_updateVer (info_meta i))
    | Err _ => True | _ => False
    end).
Proof.
  intros HS (Ho & Hl & Hw). unfold aioPrepareRead. mstep. apply runs_zoom. eapply runs_mono; [by apply store_get_ok|].
  intros [i|c| |] s1 [C1 H1]; cbv beta iota delta [andThen]; try done. destruct H1 as [Em Ecur]. unfold onResult. do 4 mstep.
  mstep; [done|]. do 2 mstep.
  match goal with H : negb _ && negb _ = false |- _ => rename H into Hru end.
  split; [done|]. exists i. assert (cached (read_id readIO) i s1) as Hc by (by split; [apply C1|]).
  split_and!; [done|done| |done|].
  - unfold AioReadState_new, alignedOffset, alignedLength in *. unfold kAIOAlignSize in *.
    pose proof (Z.mod_pos_bound (rio_offset readIO) 4096 ltac:(lia)) as Hm.
    pose proof (Z.mod_le (rio_offset readIO) 4096 ltac:(lia) ltac:(lia)) as Hm2.
    set (tail := (4096 - _) mod 4096). pose proof (Z.mod_pos_bound (4096 - u32 (rio_offset readIO + rio_length readIO) mod 4096) 4096 ltac:(lia)) as Ht.
    fold tail in Ht. split; cbn; fold tail; [done|by apply (cached_view _ _ _ Hc)| | |done].
    + rewrite u32_small by lia. done.
    + rewrite u32_small by lia. lia.
  - intros ->. cbn in Hru. rewrite andb_true_r in Hru. apply negb_false_iff, Z.eqb_eq in Hru. done.
Qed.

(** The bytes of a prepared read are the slice asked for. *)
Lemma prepared_bytes readIO m st d :
  meta_sound d m -> read_wf readIO -> prepared readIO m st -> 0 <= cm_innerOffset m ->
  fd_size (disk_file d (cm_innerFileId m)) < 2 ^ 63 ->
  let st' := set_rs_localbuf (if rs_readLength st =? 0 then [] else file_read (rs_readOffset st) (rs_readLength st) (disk_file d (rs_readFd st))) st in
  read_bytes readIO st' = take (Z.to_nat (rio_length readIO)) (drop (Z.to_nat (rio_offset readIO)) (chunk_data d m))
  /\ read_length readIO st' = Z.of_nat (length (read_bytes readIO st')).
Proof.
  intros [G1 G2 G3 _ _ _ _ _] (Ho & Hl & Hw) [P1 P2 P3 P4 [P5 _]] Hio Hfd st'. set (f := disk_file d (cm_innerFileId m)) in *.
  unfold kAIOAlignSize in *. pose proof (Z.mod_pos_bound (rio_offset readIO) 4096 ltac:(lia)) as Hm.
  pose proof (Z.mod_le (rio_offset readIO) 4096 ltac:(lia) ltac:(lia)) as Hm2. rewrite <-P1 in Hm, Hm2.
  set (head := rs_headLength st) in *. set (n := Z.min (rio_length readIO) (Z.max 0 (cm_size m - rio_offset readIO))).
  assert (Hn : 0 < n -> cm_innerOffset m + cm_size m <= fd_size f) by (intros; apply G3; lia).
  assert (n = 0 \/ rs_readOffset st = cm_innerOffset m + (rio_offset readIO - head)) as Hoff.
  { destruct (decide (n = 0)); [by left|right]. rewrite P3, u64_small; [done|]. lia. }
  assert (read_length readIO st' = n) as En.
  { unfold read_length, st'. cbn. rewrite P5. fold head.
    assert (0 < n -> n <= Z.of_nat (length (if rs_readLength st =? 0 then [] else file_read (rs_readOffset st) (rs_readLength st) (disk_file d (rs_readFd st)))) - head) as Hres.
    { intros Hp. destruct Hoff as [?|Hoff]; [lia|]. rewrite (proj2 (Z.eqb_neq _ _)) by lia. unfold file_read. rewrite length_fmap, length_seqZ.
      rewrite P2. fold f. specialize (Hn Hp). lia. }
    lia. }
  assert (read_bytes readIO st' = file_range f (cm_innerOffset m + rio_offset readIO) n) as Eb.
  { unfold read_bytes. rewrite En. destruct (decide (n = 0)) as [->|Hne]; [done|]. destruct Hoff as [?|Hoff]; [done|].
    unfold st'. cbn. rewrite (proj2 (Z.eqb_neq _ _)) by lia. fold head. rewrite P2. fold f. unfold file_read. rewrite Hoff.
    rewrite (read_bytes_spec f _ head (rio_length readIO)); [f_equal; lia|lia..|]. specialize (Hn ltac:(lia)). lia. }
  split; [|rewrite En, Eb, file_range_length by lia; done]. rewrite Eb. apply file_range_slice; lia.
Qed.

Lemma cur_offset s id m : SInv s -> cur s id = Some m -> 0 <= cm_innerOffset m.
Proof.
  intros HS Hm. destruct (ok_bounded _ (inv_kv _ _ (si_space _ HS)) _ _ _ (cur_holds _ _ _ HS Hm)) as (_ & H & _). done.
Qed.

(** The check at the end of a read. *)
Lemma aioFinishRead_ok readIO i js :
  cached (read_id readIO) i (js_store js) ->
  runs (aioFinishRead readIO) js (fun o js' => js' = js /\
    match o with
    | Ok _ => io_updateVer (js_result js) = cm_updateVer (info_meta i)
    | Err c => c = StorageCode_kChunkNotCommit /\ io_updateVer (js_result js) <> cm_updateVer (info_meta i)
    | _ => False
    end).
Proof.
  intros [HS Em]. unfold aioFinishRead. mstep. apply runs_zoom. unfold store_get. do 3 mstep. rewrite Em. do 5 mstep.
  all: split; [by destruct js|].
  - match goal with H : negb _ = true |- _ => apply negb_true_iff, Z.eqb_neq in H end. done.
  - match goal with H : negb _ = false |- _ => apply negb_false_iff, Z.eqb_eq in H end. done.
Qed.

(** What a successful read returns. *)
Record read_result (ct : ChecksumType) (ru : bool) (readIO : ReadIO) (s : ChunkStore) (js' : JobState) (n : Z) (data : bytes) : Prop := {
  rr_data : exists l, content s (read_id readIO) = Some l
    /\ data = take (Z.to_nat (rio_length readIO)) (drop (Z.to_nat (rio_offset readIO)) l);
  rr_length : n = Z.of_nat (length data);
  rr_committed : ru = false -> exists m, cur s (read_id readIO) = Some m /\ cm_chunkState m = CHUNK_COMMIT
    /\ cm_commitVer m = cm_updateVer m /\ io_updateVer (js_result js') = cm_updateVer m;
  rr_checksum : ru = false -> ct <> CHECKSUM_NONE -> data <> [] -> io_checksum (js_result js') = checksum_ref ct data
}.

Lemma take_drop_whole (l : bytes) off len n :
  off = 0 -> n = Z.of_nat (length l) -> Z.of_nat (length (take (Z.to_nat len) (drop (Z.to_nat off) l))) = n ->
  take (Z.to_nat len) (drop (Z.to_nat off) l) = l.
Proof. intros -> -> E. rewrite drop_0 in *. rewrite length_take in E. apply take_ge. lia. Qed.

Lemma aio_read_ok ct recalc ru readIO s res :
  SInv s -> read_wf readIO -> (forall f, fd_size (disk_file (cst_disk s) f) < 2 ^ 63) ->
  runs (aio_read ct recalc ru readIO) (mkJobState s res) (fun o js' => calm s (js_store js') /\
    match o with
    | Ok (n, data) => read_result ct ru readIO s js' n data
    | Err _ => True | _ => False
    end).
Proof.
  intros HS Hw Hfd. unfold aio_read. mstep. eapply runs_mono; [by apply aioPrepareRead_ok|]. cbn [js_store].
  intros [st|c| |] js1 [C1 H1]; cbv beta iota delta [andThen]; try done. destruct H1 as (i & Hc & Ecur & Hp & Huv & Hru).
  set (m := info_meta i) in *. mstep. unfold aio_pread. mstep.
  apply runs_zoom, runs_zoom, runs_zoom, runs_view_read; intros d2 Hd2; pose proof (calm_disk _ d2 (cd_inv _ _ _ Hc) Hd2) as C2;
    pose proof (calm_trans _ _ _ C1 C2) as C; mstep; [|done]. mstep. mstep.
  set (st' := set_rs_localbuf _ st). set (js2 := set_js_store _ js1).
  pose proof (cached_sound _ _ _ Hc) as Hms. fold m in Hms.
  destruct (prepared_bytes readIO m st (cst_disk (js_store js1)) Hms Hw Hp) as [Hb Hlen].
  { eapply cur_offset; [apply HS|exact Ecur]. }
  { unfold disk_file. rewrite (proj1 (proj2 (ca_disk _ _ C1))). apply Hfd. }
  assert (cached (read_id readIO) i (js_store js2)) as Hc2 by (by eapply calm_cached). fold st' in Hb, Hlen.
  unfold aio_setResult, onResult. do 4 mstep. set (js3 := set_js_result _ js2). mstep.
  eapply runs_mono; [by apply (aioFinishRead_ok readIO i js3)|]. intros o js4 [-> H4].
  assert (io_updateVer (js_result js3) = cm_updateVer m) as Hres by done.
  destruct o as [[]|c| |]; [|by destruct H4 as [_ []]|done|done]. mstep. mstep. mstep; [done|]. msteps. split; [done|].
  split; [|done|..].
  - exists (chunk_data (cst_disk s) m). unfold content. rewrite Ecur. split; [done|]. rewrite Hb.
    by rewrite (chunk_data_grown _ _ _ (calm_grown _ _ C1)).
  - intros Er. exists m. split_and!; [done|by apply (so_commit _ _ Hms), Hru|by apply Hru|done].
  - intros Er Hct Hne. cbn. rewrite (bool_decide_eq_false_2 (ct = _)) by done. case_match eqn:Ew; [|by apply checksum_of_buffer_ref].
    apply andb_true_iff in Ew as [[Et%bool_decide_eq_true E0%Z.eqb_eq]%andb_true_iff El%Z.eqb_eq].
    destruct (pr_chunk _ _ _ Hp) as [P5 P6]. rewrite P6 in Et |- *. rewrite P5, Hlen in El.
    assert (read_bytes readIO st' = chunk_data (cst_disk (js_store js1)) m) as Ed.
    { rewrite Hb. apply (take_drop_whole _ _ _ (cm_size m)); [done|by rewrite chunk_data_length by apply Hms|by rewrite <-Hb]. }
    assert (cm_chunkState m = CHUNK_COMMIT) as Est by (by apply (so_commit _ _ Hms), Hru).
    rewrite (so_checksum _ _ Hms); [|by rewrite Est|by apply (so_normal _ _ Hms)].
    cbn in Et. rewrite <-Et, <-Ed. unfold stored_checksum. by rewrite !bool_decide_eq_false_2.
Qed.
End reads.

(** * Error codes of updates and commits

    A service treats four error codes as more than failures: an update that was
    already committed or applied, a commit that was already done, and a target
    without successor.  The first three mean what they say of the versions of
    the chunk, and a local store never returns the last one. *)

(** ** Codes a computation may fail with *)

Definition errs {S A} (P : Z -> Prop) (m : M S A) : Prop := forall s, match (m s).1 with Err c => P c | _ => True end.

Section errs.
Context {S : Type} (P : Z -> Prop).

Lemma errs_bind {A B} (m : M S A) (k : A -> M S B) : errs P m -> (forall a, errs P (k a)) -> errs P (m ≫= k).
Proof. intros Hm Hk s. unfold mbind, M_bind. specialize (Hm s). destruct (m s) as [[a|c| |] s']; try done. apply Hk. Qed.
Lemma errs_err_if b c : P c -> errs P (err_if b c : M S unit).
Proof. intros Hc s. unfold err_if. by destruct b. Qed.
Lemma errs_when b (m : M S unit) : errs P m -> errs P (when b m).
Proof. unfold when. by destruct b. Qed.
Lemma errs_attempt_bind {A B} (m : M S A) (k : A + Z -> M S B) :
  errs P m -> (forall a, errs P (k (inl a))) -> (forall c, P c -> errs P (k (inr c))) -> errs P (attempt m ≫= k).
Proof.
  intros Hm Hk Hc s. unfold mbind, M_bind, attempt. specialize (Hm s). destruct (m s) as [[a|c| |] s']; try done; [apply Hk|by apply Hc].
Qed.
Lemma errs_for_each {A} (f : A -> M S unit) l : (forall a, errs P (f a)) -> errs P (for_each f l).
Proof. intros Hf. induction l as [|x l IH]; cbn; [done|]. apply errs_bind; [apply Hf|done]. Qed.
Lemma errs_zoom {T A} (get : S -> T) put (m : M T A) : errs P m -> errs P (zoom get put m).
Proof. intros Hm s. unfold zoom. specialize (Hm (get s)). by destruct (m (get s)). Qed.
Lemma errs_runs {A} (m : M S A) s : errs P m -> runs m s (fun o _ => match o with Err c => P c | _ => True end).
Proof. intros Hm. apply Hm. Qed.
End errs.

(** The codes without a meaning of their own. *)
Definition plain (c : Z) : bool :=
  negb (c =? StorageCode_kChunkCommittedUpdate) && negb (c =? StorageCode_kChunkStaleUpdate)
  && negb (c =? StorageCode_kChunkStaleCommit) && negb (c =? StorageCode_kNoSuccessorTarget).

Abbreviation plain_errs := (errs (fun c => plain c = true)).

Lemma plain_left {S A} (P : Z -> S -> Prop) (o : outcome A) (s : S) :
  match o with Err c => plain c = true | _ => True end -> match o with Err c => plain c = true \/ P c s | _ => True end.
Proof. destruct o; auto. Qed.

Lemma errs_next_read {K} P : errs P (@next_read K).
Proof. intros s. unfold next_read. by destruct (d_rfaults s). Qed.
Lemma errs_next_write {K} P : errs P (@next_write K).
Proof. intros s. unfold next_write. by destruct (d_wfaults s). Qed.
Lemma errs_checksum_combine `{Crc} {S} a b n : plain_errs (lift (checksum_combine a b n) : M S ChecksumInfo).
Proof. intros s. cbn. unfold checksum_combine.
  destruct (bool_decide _ && _); [done|]. destruct (n =? 0); [done|]. by destruct (ci_type a). Qed.
Lemma errs_iterator_pieces {K} P fuel view len off : errs P (@iterator_pieces K fuel view len off).
Proof.
  revert len off. induction fuel as [|fuel IH]; intros len off; cbn [iterator_pieces]; [done|].
  destruct (len =? 0); [done|]. intros d. destruct (view_read _ _ _ d) as [[data|c| |] d']; try done.
  destruct (_ =? _); [|done]. by apply errs_bind; [apply IH|intros ? ?].
Qed.

Ltac errs_step :=
  lazymatch goal with
  | |- errs _ (attempt _ ≫= _) => apply errs_attempt_bind; [|intros ?|intros ? ?]
  | |- errs _ (_ ≫= _) => apply errs_bind; [|intros ?]
  | |- errs _ (err_if _ _) => apply errs_err_if; reflexivity
  | |- errs _ (when _ _) => apply errs_when
  | |- errs _ (for_each _ _) => apply errs_for_each; intros ?
  | |- errs _ (zoom _ _ _) => apply errs_zoom
  | |- errs _ (mret _) => done
  | |- errs _ (fail _) => intros ?; first [assumption | reflexivity]
  | |- errs _ fatal => done
  | |- errs _ getS => done
  | |- errs _ (gets _) => done
  | |- errs _ (modify _) => done
  | |- errs _ next_read => apply errs_next_read
  | |- errs _ next_write => apply errs_next_write
  | |- errs _ (iterator_pieces _ _ _ _) => apply errs_iterator_pieces
  | |- errs _ (lift (checksum_combine _ _ _)) => apply errs_checksum_combine
  | |- errs _ (match ?x with _ => _ end) => destruct x
  | |- errs _ (if ?x then _ else _) => destruct x
  end.
Ltac errs_store := repeat first [errs_step | progress unfold
  onStore, onResult, onMeta, onFiles, onDisk, store_get, meta_get, file_open, openInnerFile, store_set, meta_set, store_remove, meta_remove, job_now,
  kv_find, kv_get, kv_commit, getSize, modState, getState, collectKeys, iterateKeys, file_punchHole, loadAllocateState, load_startingPoint, upgrade_version,
  view_write, view_read, view_checksum, buffer_read, doRealWrite, updateChecksum, update_data, update_guards].

Section codes.
Context {HCrc : Crc} {HLaws : CrcLaws} {HPersist : Persist} (config : StoreConfig).

Lemma store_get_codes id : plain_errs (store_get id).
Proof. errs_store. Qed.
Lemma store_set_codes id i persist : plain_errs (store_set config id i persist).
Proof. errs_store. Qed.
Lemma store_remove_codes id i : plain_errs (store_remove config id i).
Proof. errs_store. Qed.
Lemma update_guards_codes job m cs : plain_errs (update_guards job m cs).
Proof. errs_store. Qed.
Lemma update_apply_codes job i b1 b2 : plain_errs (update_apply config job i b1 b2).
Proof. unfold update_apply. errs_store. Qed.

Lemma recycle_codes cs b : plain_errs (recycleRemovedChunks (sc_meta_store config) cs b).
Proof.
  intros s. unfold recycleRemovedChunks. assert (plain_errs (recycle_commit (sc_meta_store config) cs)) as H by (unfold recycle_commit; errs_store).
  specialize (H s). destruct (recycle_commit _ cs s) as [[r|c| |] s']; try done.
  - clear H. revert s'. change (plain_errs (match r with Some chunks => recycle_publish cs chunks | None => mret tt end ;; when (negb b) (modState cs (set_as_recycling false)))).
    unfold recycle_publish. errs_store.
  - cbn in H. revert s'. change (plain_errs (when (negb b) (modState cs (set_as_recycling false)) ;; (fail c : M ChunkMetaStore unit))). errs_store.
Qed.

Lemma allocate_codes cs b : plain_errs (allocateChunks (sc_meta_store config) cs b).
Proof.
  intros s. unfold allocateChunks.
  assert (plain_errs (allocate_commit (sc_meta_store config) cs)) as H by (unfold allocate_commit, load_fileSize, store_allocate; errs_store).
  specialize (H s). destruct (allocate_commit _ cs s) as [[r|c| |] s']; try done.
  { clear H. revert s'. change (plain_errs (allocate_publish cs r ;; when (negb b) (modState cs (set_as_allocating false)))). unfold allocate_publish. errs_store. }
  cbn in H. revert s'. change (plain_errs (when (negb b) (modState cs (set_as_allocating false)) ;; (fail c : M ChunkMetaStore unit))). errs_store.
Qed.

Lemma take_created_codes cs : plain_errs (take_created cs).
Proof. unfold take_created. errs_store. Qed.

Lemma createChunk_codes id cs i allow : plain_errs (store_createChunk config id cs i allow).
Proof.
  unfold store_createChunk, meta_createChunk, create_enter, create_recycle, create_take, create_allocate, create_commit, addJob.
  repeat first [apply take_created_codes | apply recycle_codes | apply allocate_codes | errs_store].
Qed.

(** ** What the codes mean *)

(** The code of a failed update. *)
Definition update_code (job : UpdateJob) (s : ChunkStore) (c : Z) (s' : ChunkStore) : Prop :=
  plain c = true
  \/ calm s s' /\ not_dirty s (job_id job) /\ syncing job = false /\ 0 < uio_updateVer (job_updateIO job)
     /\ (c = StorageCode_kChunkCommittedUpdate /\ uio_updateVer (job_updateIO job) <= (old_version s (job_id job)).2
         \/ c = StorageCode_kChunkStaleUpdate
            /\ (old_version s (job_id job)).2 < uio_updateVer (job_updateIO job) <= (old_version s (job_id job)).1).

Lemma update_versions_codes job m js :
  runs (update_versions job m) js (fun o js' => js_store js' = js_store js /\
    match o with
    | Err c => plain c = true \/ syncing job = false /\ 0 < uio_updateVer (job_updateIO job)
        /\ (c = StorageCode_kChunkCommittedUpdate /\ uio_updateVer (job_updateIO job) <= cm_commitVer m
            \/ c = StorageCode_kChunkStaleUpdate /\ cm_commitVer m < uio_updateVer (job_updateIO job) <= cm_updateVer m)
    | _ => True
    end).
Proof.
  unfold update_versions. set (v := uio_updateVer (job_updateIO job)). destruct (syncing job) eqn:Es; [by mstep|].
  destruct (v >? 0) eqn:E0; [|mstep; mstep; [split; [done|by left]|by msteps]].
  rewrite Z.gtb_ltb in E0. apply Z.ltb_lt in E0.
  destruct (v <=? cm_commitVer m) eqn:E1; [apply Z.leb_le in E1; mstep; split; [done|]; right; auto|apply Z.leb_gt in E1].
  destruct (v <=? cm_updateVer m) eqn:E2; [apply Z.leb_le in E2; mstep; split; [done|]; right; auto 6|].
  destruct (v >? _); mstep; [split; [done|by left]|done].
Qed.

Lemma update_chunk_codes job i new js :
  job_wf job ->
  runs (update_chunk config job i new) js (fun o js' =>
    match o with
    | Err c => plain c = true \/ js_store js' = js_store js /\ cm_chunkState (info_meta i) <> CHUNK_DIRTY
        /\ syncing job = false /\ 0 < uio_updateVer (job_updateIO job)
        /\ (c = StorageCode_kChunkCommittedUpdate /\ uio_updateVer (job_updateIO job) <= cm_commitVer (info_meta i)
            \/ c = StorageCode_kChunkStaleUpdate /\ cm_commitVer (info_meta i) < uio_updateVer (job_updateIO job) <= cm_updateVer (info_meta i))
    | _ => True
    end).
Proof.
  intros Hw. unfold update_chunk. set (m := info_meta i). mstep.
  eapply runs_mono; [apply runs_conj; [by apply update_guards_ok|apply errs_runs, update_guards_codes]|].
  intros [[]|c| |] js1 [[E1 H1] Hp]; cbv beta iota delta [andThen]; try done; [|by left]. destruct H1 as (_ & Hd & _).
  mstep. eapply runs_mono; [apply update_versions_codes|].
  intros [m1|c| |] js2 [E2 H2]; cbv beta iota delta [andThen]; try done.
  - eapply runs_mono; [apply errs_runs|apply plain_left].
    unfold job_now. repeat first [apply update_apply_codes | apply createChunk_codes | apply store_set_codes | errs_step | progress unfold onStore].
  - destruct H2 as [H2|(Hs & H0 & H2)]; [by left|]. right. split_and!; [congruence| |done|done|done]. intros E. apply Hd in E. congruence.
Qed.

Lemma replica_update_codes job s res :
  job_wf job -> SInv s ->
  runs (replica_update config job) (mkJobState s res) (fun o js' =>
    match o with Err c => update_code job s c (js_store js') | _ => True end).
Proof.
  intros Hw HS. unfold replica_update. mstep. mstep; [by left|]. do 3 mstep. apply runs_zoom.
  eapply runs_mono; [apply runs_conj; [by apply store_get_ok|apply errs_runs, store_get_codes]|]. cbn [js_store].
  intros o s1 [[C1 Ho] Hp]. destruct o as [i|c| |]; cbv beta iota delta [andThen]; try done.
  - destruct Ho as [_ Ecur]. eapply runs_mono; [by apply update_chunk_codes|]. intros [n|c| |] js2 H2; try done.
    destruct H2 as [H2|(E2 & Hd & Hs & H0 & H2)]; [by left|]. right. unfold not_dirty, old_version. rewrite Ecur, E2. cbn.
    split_and!; [done| |done|done|done]. by intros ? [= <-].
  - destruct (c =? StorageCode_kChunkMetadataNotFound); [|mstep; by left]. destruct (isRemove _); [unfold onResult; by msteps|].
    eapply runs_mono; [by apply update_chunk_codes|]. intros [n|c'| |] js2 H2; try done.
    destruct H2 as [H2|(_ & _ & _ & H0 & [[_ H2]|[_ H2]])]; [by left|cbn in H2; lia..].
Qed.

(** The code of a failed commit. *)
Lemma replica_commit_codes job s res :
  SInv s ->
  runs (replica_commit config job) (mkJobState s res) (fun o js' =>
    match o with
    | Err c => plain c = true \/ c = StorageCode_kChunkStaleCommit /\ cio_commitVer (job_commitIO job) <= (old_version s (commit_id job)).2
    | _ => True
    end).
Proof.
  intros HS. unfold replica_commit, onResult. do 2 mstep. apply runs_zoom.
  eapply runs_mono; [apply runs_conj; [by apply store_get_ok|apply errs_runs, store_get_codes]|]. cbn [js_store].
  intros o s1 [[C1 Ho] Hp]. destruct o as [i|c| |]; cbv beta iota delta [andThen]; try done.
  2: { destruct (cio_isRemove _ && _); [by msteps|]. mstep. by left. }
  destruct Ho as [_ Ecur]. unfold old_version. rewrite Ecur. cbn [snd]. do 4 mstep. mstep; [by left|]. do 2 mstep. mstep; [by left|]. do 2 mstep.
  unfold commit_versions, onResult. destruct (cio_isForce _).
  { mstep. eapply runs_mono; [apply errs_runs|apply plain_left].
    unfold job_now. repeat first [apply store_remove_codes | apply store_set_codes | errs_step | progress unfold onStore]. }
  case_bool_decide; [mstep; by left|]. destruct (cm_commitVer (info_meta i) <? _) eqn:El.
  - mstep. eapply runs_mono; [apply errs_runs|apply plain_left].
    unfold job_now. repeat first [apply store_remove_codes | apply store_set_codes | errs_step | progress unfold onStore].
  - apply Z.ltb_ge in El. msteps. right. done.
Qed.
End codes.
