(* ===== verification/ReplicaTheorems.v ===== *)
(** * Theorems on chunk replicas

    The operations of a target against what they promise, and the invariant of
    every run of a target: updates, commits, reads, holes punched in removed
    chunks, failures of the device and restarts. *)

From stdpp Require Import base gmap list relations.
From Stdlib Require Import ZArith Lia.
From S2P Require Import Prelude StatusCode Bytes MgmtdTypes StorageTypes Checksums ChunkFiles ChunkMetaStore MetaKeys MetaSpace MetaSteps MetaCreate MetaTheorems MetaSystem ChunkReplica ReplicaInv ReplicaData ReplicaUpdate ReplicaCommit.

(** The invariant of a store with a configuration. *)
Definition store_ok `{Crc} (config : StoreConfig) (s : ChunkStore) : Prop := @SInv _ (sc_force_persist config) s.

Definition sizes_fit (config : StoreConfig) : Prop := 0 < mc_allocate_size (sc_meta_store config) < 2 ^ 63.

(** The version of the chunk can still grow, and a chunk is only created while
    the device answers reads. *)
Definition room (job : UpdateJob) (s : ChunkStore) : Prop :=
  (forall m, cur s (job_id job) = Some m -> syncing job = false -> cm_updateVer m + 1 < 2 ^ 32)
  /\ (cur s (job_id job) = None -> no_read_faults (cst_disk s)).

Section theorems.
Context {HCrc : Crc} {HLaws : CrcLaws} (config : StoreConfig).
#[local] Instance store_persist : Persist := sc_force_persist config.

(** ** Updates *)

(** C28: An update that succeeds does to the bytes of its chunk what the reference
    does, moves its version by one or, from a resync, sets it, and reports it;
    one that fails leaves the chunk as it was or dirty; no other chunk is
    touched, and the invariant is kept.  The version of the chunk is below the
    last 32-bit number unless the update is part of a resync, and the device
    answers reads when the chunk has to be created; writes and other reads may
    fail. *)
Theorem replica_update_refines (job : UpdateJob) (s : ChunkStore) (res : IOResult) :
  sizes_fit config -> store_ok config s -> job_wf job -> room job s ->
  let '(o, js') := replica_update config job (mkJobState s res) in
  store_ok config (js_store js')
  /\ others_kept (job_id job) s (js_store js')
  /\ match o with
     | Ok n => updated job s js' n
               \/ isRemove (job_updateIO job) = true /\ cur s (job_id job) = None /\ cur (js_store js') (job_id job) = None /\ n = 0
     | _ => cur (js_store js') (job_id job) = cur s (job_id job) /\ content (js_store js') (job_id job) = content s (job_id job)
            \/ exists m, cur (js_store js') (job_id job) = Some m /\ cm_chunkState m = CHUNK_DIRTY
                 /\ (syncing job = false -> cm_commitVer m = (old_version s (job_id job)).2)
     end.
Proof.
  intros Hsize HS Hw [Hr1 Hr2]. pose proof (replica_update_ok config eq_refl Hsize job s res Hw HS Hr1 Hr2) as Hok.
  unfold runs in Hok. destruct (replica_update config job (mkJobState s res)) as [o js']. cbn [fst snd] in Hok. destruct Hok as [Ho Hok].
  destruct o as [n|c| |]; try (by destruct Hok as [? ?]). destruct Hok as [Hu|(Hr & Hn & Hc & ->)].
  - split_and!; [|done|by left]. destruct Hu as (m & i' & Hap & _). apply (ap_cached _ _ _ _ _ _ Hap).
  - split_and!; [apply Hc|done|]. right. split_and!; [done|done|by rewrite (ca_cur _ _ Hc)|done].
Qed.

(** ** Commits *)

(** C34: A commit, unless it is forced on a dirty chunk, publishes the version it
    names, which is not beyond the last one, or removes a chunk whose removal
    was requested; bytes and other chunks stay as they are.  A commit that fails
    changes neither the metadata of the chunk nor, unless the chunk was to be
    removed, its bytes. *)
Theorem replica_commit_publishes (job : UpdateJob) (s : ChunkStore) (res : IOResult) :
  store_ok config s -> 0 <= cio_commitVer (job_commitIO job) ->
  (cio_isForce (job_commitIO job) = true -> not_dirty s (commit_id job)) ->
  let '(o, js') := replica_commit config job (mkJobState s res) in
  store_ok config (js_store js')
  /\ others_kept (commit_id job) s (js_store js')
  /\ match o with
     | Ok _ => committed job s (js_store js') \/ cur s (commit_id job) = None /\ cur (js_store js') (commit_id job) = None
     | _ => cur (js_store js') (commit_id job) = cur s (commit_id job)
            /\ (in_use s (commit_id job) -> content (js_store js') (commit_id job) = content s (commit_id job))
     end.
Proof.
  intros HS Hv Hf. pose proof (replica_commit_ok config eq_refl job s res HS Hv Hf) as Hok.
  unfold runs in Hok. destruct (replica_commit config job (mkJobState s res)) as [o js']. cbn [fst snd] in Hok.
  destruct Hok as (HS' & Ho & Hok). split_and!; [done|done|]. destruct o; try done. destruct Hok as [[? _]|(_ & Hn & Hc)]; [by left|right].
  by rewrite (ca_cur _ _ Hc).
Qed.

(** ** Reads *)

Definition files_bounded (s : ChunkStore) : Prop := forall f, fd_size (disk_file (cst_disk s) f) < 2 ^ 63.

(** C35: A read that succeeds returns exactly the bytes asked for, cut at the end of
    the chunk; unless it may read uncommitted data the chunk is committed and
    the checksum returned is that of the bytes returned. *)
Theorem committed_read_exact (ct : ChecksumType) (recalc ru : bool) (readIO : ReadIO) (s : ChunkStore) (res : IOResult) :
  store_ok config s -> read_wf readIO -> files_bounded s ->
  let '(o, js') := aio_read ct recalc ru readIO (mkJobState s res) in
  store_ok config (js_store js') /\ (forall id, cur (js_store js') id = cur s id /\ content (js_store js') id = content s id)
  /\ match o with
     | Ok (n, data) => read_result ct ru readIO s js' n data
     | Err _ => True
     | _ => False
     end.
Proof.
  intros HS Hw Hf. pose proof (aio_read_ok ct recalc ru readIO s res HS Hw Hf) as Hok.
  unfold runs in Hok. destruct (aio_read ct recalc ru readIO (mkJobState s res)) as [o js']. cbn [fst snd] in Hok. destruct Hok as [Hc Hok].
  split_and!; [apply Hc| |done]. intros id. split; [apply Hc|by apply calm_content].
Qed.

Lemma slice_splice offset data l : 0 <= offset -> take (length data) (drop (Z.to_nat offset) (splice offset data l)) = data.
Proof.
  intros Ho. unfold splice. rewrite drop_app_length'; [|rewrite length_take, pad_length; lia]. by rewrite take_app_length.
Qed.

(** C29: What is written and committed is what is read. *)
Theorem write_commit_read (w c : UpdateJob) (ct : ChecksumType) (recalc : bool) (readIO : ReadIO) (s : ChunkStore)
    r0 r1 r2 n k l data js1 js2 js3 :
  sizes_fit config -> store_ok config s -> job_wf w -> room w s -> isWrite (job_updateIO w) = true -> syncing w = false ->
  replica_update config w (mkJobState s r0) = (Ok n, js1) ->
  commit_id c = job_id w -> cio_commitVer (job_commitIO c) = io_updateVer (js_result js1) -> cio_isForce (job_commitIO c) = false ->
  replica_commit config c (mkJobState (js_store js1) r1) = (Ok k, js2) ->
  gk_chunkId (rio_key readIO) = job_id w -> rio_offset readIO = uio_offset (job_updateIO w) -> rio_length readIO = uio_length (job_updateIO w) ->
  read_wf readIO -> files_bounded (js_store js2) ->
  aio_read ct recalc false readIO (mkJobState (js_store js2) r2) = (Ok (l, data), js3) ->
  data = written w /\ l = uio_length (job_updateIO w)
  /\ (ct <> CHECKSUM_NONE -> data <> [] -> io_checksum (js_result js3) = checksum_ref ct (written w)).
Proof.
  intros Hsize HS Hw [Hr1 Hr2] Ht Hsy E1 Ec Ecv Ef E2 Er Eo El Hrw Hfb E3.
  assert (isRemove (job_updateIO w) = false /\ isTruncate (job_updateIO w) = false /\ isExtend (job_updateIO w) = false) as (Tr & Tt & Te).
  { destruct (is_cases _ (jw_type _ Hw)) as [(?&?&?&?)|[(?&?&?&?)|[(?&?&?&?)|(?&?&?&?)]]]; split_and!; congruence. }
  pose proof (replica_update_ok config eq_refl Hsize w s r0 Hw HS Hr1 Hr2) as H1. unfold runs in H1. rewrite E1 in H1. cbn [fst snd] in H1.
  destruct H1 as [_ [(m1 & i1 & Hap & _)|(? & _)]]; [|congruence]. pose proof (ap_cached _ _ _ _ _ _ Hap) as Hc1.
  assert (0 <= cio_commitVer (job_commitIO c)) as Hcv.
  { rewrite Ecv. destruct (ap_result _ _ _ _ _ _ Hap) as (-> & _). destruct (ap_versions _ _ _ _ _ _ Hap) as (<- & _).
    pose proof (so_version _ _ (cached_sound _ _ _ Hc1)). lia. }
  pose proof (replica_commit_ok config eq_refl c (js_store js1) r1 (cd_inv _ _ _ Hc1) Hcv ltac:(by rewrite Ef)) as H2.
  unfold runs in H2. rewrite E2 in H2. cbn [fst snd] in H2. destruct H2 as (HS2 & _ & H2). rewrite Ec in H2.
  pose proof (aio_read_ok ct recalc false readIO (js_store js2) r2 HS2 Hrw Hfb) as H3.
  unfold runs in H3. rewrite E3 in H3. cbn [fst snd] in H3. destruct H3 as [_ [(l3 & Hl3 & Hd3) Hn3 _ Hck]].
  rewrite Er in Hl3.
  assert (content (js_store js2) (job_id w) = Some (splice (uio_offset (job_updateIO w)) (written w) (default [] (content s (job_id w))))) as Hct.
  { assert (content (js_store js2) (job_id w) = content (js_store js1) (job_id w)) as ->.
    { destruct H2 as [((m & Hm & _ & _ & H2) & _)|(_ & Hn & _)]; [|by rewrite (cached_cur _ _ _ Hc1) in Hn].
      rewrite Ec in H2. destruct (readyToRemove m); [|by destruct H2 as (? & _ & _ & _ & ? & _)]. unfold content in Hl3. by rewrite H2 in Hl3. }
    unfold content at 1. rewrite (cached_cur _ _ _ Hc1). cbn. rewrite (ap_data _ _ _ _ _ _ Hap). unfold apply_update. by rewrite Tt, Te, Tr, Hsy. }
  rewrite Hct in Hl3. injection Hl3 as <-.
  assert (data = written w) as ->.
  { rewrite Hd3, Eo, El. pose proof (written_length w Hw Ht) as Hwl. pose proof (jw_offset _ Hw).
    replace (Z.to_nat (uio_length (job_updateIO w))) with (length (written w)) by lia. apply slice_splice. lia. }
  split_and!; [done|by rewrite Hn3, written_length|]. intros. by apply Hck.
Qed.

(** ** Dirty chunks *)

Definition is_err {A} (o : outcome A) : bool := match o with Err _ => true | _ => false end.

Lemma dirty_update_refused job s res m :
  store_ok config s -> cur s (job_id job) = Some m -> cm_chunkState m = CHUNK_DIRTY -> syncing job = false ->
  runs (replica_update config job) (mkJobState s res) (fun o js' => is_err o = true /\ calm s (js_store js')).
Proof.
  intros HS Hm Hd Hs. unfold replica_update. mstep. mstep; [by split; [|apply calm_refl]|]. do 3 mstep. apply runs_zoom.
  eapply runs_mono; [by apply store_get_ok|]. cbn [js_store]. intros [i|c| |] s1 [C1 Ho]; cbv beta iota delta [andThen]; try done.
  - destruct Ho as [_ Ecur]. rewrite Hm in Ecur. injection Ecur as ->. unfold update_chunk. mstep. unfold update_guards, onResult.
    do 4 mstep. mstep; [done|]. do 2 mstep. mstep; [done|]. exfalso.
    match goal with E : _ && negb (uo_isSyncing _) = false |- _ => by rewrite Hs, Hd in E end.
  - destruct (c =? StorageCode_kChunkMetadataNotFound) eqn:Ec; [|by mstep]. apply Z.eqb_eq in Ec. by rewrite Ho in Hm.
Qed.

Lemma dirty_commit_refused job s res m :
  store_ok config s -> cur s (commit_id job) = Some m -> cm_chunkState m = CHUNK_DIRTY -> cio_isForce (job_commitIO job) = false ->
  runs (replica_commit config job) (mkJobState s res) (fun o js' => is_err o = true /\ calm s (js_store js')).
Proof.
  intros HS Hm Hd Hf. unfold replica_commit. do 2 mstep. apply runs_zoom. eapply runs_mono; [by apply store_get_ok|]. cbn [js_store].
  intros [i|c| |] s1 [C1 Ho]; cbv beta iota delta [andThen]; try done.
  - destruct Ho as [_ Ecur]. rewrite Hm in Ecur. injection Ecur as ->. unfold onResult. do 4 mstep. mstep; [done|]. do 2 mstep. mstep; [done|].
    do 2 mstep. unfold commit_versions. rewrite Hf, Hd. rewrite bool_decide_eq_true_2 by done. by mstep.
  - case_match eqn:Ec; [|by mstep]. apply andb_true_iff in Ec as [_ Ec%Z.eqb_eq]. by rewrite Ho in Hm.
Qed.

(** C37: A chunk that a failed update left dirty takes no update but one of a
    resync, no commit but a forced one, and no read of committed data. *)
Theorem dirty_chunk_refused (u c : UpdateJob) (ct : ChecksumType) (recalc : bool) (readIO : ReadIO) (s : ChunkStore) (res : IOResult)
    (m : ChunkMetadata) :
  store_ok config s -> cur s (job_id u) = Some m -> cm_chunkState m = CHUNK_DIRTY ->
  commit_id c = job_id u -> gk_chunkId (rio_key readIO) = job_id u ->
  syncing u = false -> cio_isForce (job_commitIO c) = false -> read_wf readIO -> files_bounded s ->
  is_err (replica_update config u (mkJobState s res)).1 = true
  /\ is_err (replica_commit config c (mkJobState s res)).1 = true
  /\ is_err (aio_read ct recalc false readIO (mkJobState s res)).1 = true.
Proof.
  intros HS Hm Hd Ec Er Hs Hf Hw Hfb. split_and!.
  - apply (dirty_update_refused u s res m HS Hm Hd Hs).
  - apply (dirty_commit_refused c s res m); [done|by rewrite Ec|done|done].
  - pose proof (aio_read_ok ct recalc false readIO s res HS Hw Hfb) as Hok. unfold runs in Hok.
    destruct (aio_read ct recalc false readIO (mkJobState s res)) as [[[n data]|c'| |] js']; cbn [fst snd] in *; destruct Hok as [_ Hok]; try done.
    destruct (rr_committed _ _ _ _ _ _ _ Hok eq_refl) as (m' & Hm' & Hc & _). rewrite Er, Hm in Hm'. congruence.
Qed.

(** ** Races of reads and updates *)

(** C36: A read whose chunk is updated with success, not by a resync, between the
    preparation and the end fails, whatever bytes the device returned.  The
    version of the chunk is below the last 32-bit number. *)
Theorem read_races_update (readIO : ReadIO) (ru : bool) (job : UpdateJob) (s : ChunkStore) r0 r1 st js1 n js2
    (st' : AioReadState) (ct : ChecksumType) (recalc : bool) :
  sizes_fit config -> store_ok config s -> read_wf readIO -> job_wf job -> room job s -> syncing job = false ->
  gk_chunkId (rio_key readIO) = job_id job ->
  aioPrepareRead readIO (AioReadState_new readIO ru) (mkJobState s r0) = (Ok st, js1) ->
  replica_update config job (mkJobState (js_store js1) r1) = (Ok n, js2) ->
  is_ok (aio_setResult ct recalc readIO st' (mkJobState (js_store js2) (js_result js1))).1 = false.
Proof.
  intros Hsize HS Hrw Hw [Hr1 Hr2] Hsy Eid E1 E2.
  pose proof (aioPrepareRead_ok readIO ru (mkJobState s r0) HS Hrw) as H1. unfold runs in H1. rewrite E1 in H1. cbn [fst snd js_store] in H1.
  destruct H1 as (C1 & i & Hc1 & Ecur & _ & Huv & _). rewrite Eid in Hc1, Ecur.
  assert (room job (js_store js1)) as [Hr3 Hr4].
  { split; [intros m; rewrite (ca_cur _ _ C1); apply Hr1|]. by rewrite (cached_cur _ _ _ Hc1). }
  pose proof (replica_update_ok config eq_refl Hsize job (js_store js1) r1 Hw (ca_inv _ _ C1) Hr3 Hr4) as H2.
  unfold runs in H2. rewrite E2 in H2. cbn [fst snd] in H2.
  destruct H2 as [_ [(m & i2 & Hap & Hv & _)|(_ & Hn & _)]]; [|by rewrite (cached_cur _ _ _ Hc1) in Hn].
  rewrite Hsy in Hv. unfold old_version in Hv. rewrite (cached_cur _ _ _ Hc1) in Hv. cbn in Hv. injection Hv as Huv2 _.
  pose proof (ap_cached _ _ _ _ _ _ Hap) as Hc2. destruct (ap_versions _ _ _ _ _ _ Hap) as (Huv3 & _).
  change (runs (aio_setResult ct recalc readIO st') (mkJobState (js_store js2) (js_result js1)) (fun o _ => is_ok o = false)).
  unfold aio_setResult, onResult. do 5 mstep. set (js3 := set_js_result _ _).
  eapply runs_mono; [apply (aioFinishRead_ok readIO i2 js3); by rewrite Eid|]. intros [[]|c| |] js4 [-> H4]; try done.
  - exfalso. cbn in H4. lia.
  - mstep. by case_match.
Qed.
End theorems.

(** ** Versions at the end of their range *)

(** The 32-bit version of a chunk wraps to 0; the chunk then takes no further
    update but those of a resync, as long as its committed version is not reset
    by force. *)
Lemma version_wraparound_stalls (job : UpdateJob) (m : ChunkMetadata) (js : JobState) :
  syncing job = false -> uio_updateVer (job_updateIO job) = 0 ->
  cm_updateVer m = 2 ^ 32 - 1 -> cm_commitVer m = 2 ^ 32 - 1 ->
  exists m', update_versions job m js = (Ok m', js) /\ cm_updateVer m' = 0 /\ cm_commitVer m' = 2 ^ 32 - 1
    /\ forall job' js', syncing job' = false -> 0 <= uio_updateVer (job_updateIO job') < 2 ^ 32 ->
         is_err (update_versions job' m' js').1 = true.
Proof.
  intros Hs Hv Hu Hc. exists (set_cm_updateVer 0 m). split_and!; [|done|done|].
  - unfold update_versions. rewrite Hs, Hv, Hu. cbn. unfold_M. cbn. rewrite Hc. done.
  - intros job' js' Hs' Hv'. unfold update_versions. rewrite Hs'. cbn [cm_updateVer set_cm_updateVer cm_commitVer]. rewrite Hc.
    destruct (uio_updateVer (job_updateIO job') >? 0) eqn:E.
    + by rewrite (proj2 (Z.leb_le _ _)) by lia.
    + done.
Qed.

(** ** Runs of a target *)

(** A process that starts on the disk of another one. *)
Definition store_on (d : Disk MetaKV) : ChunkStore := mkChunkStore (ChunkMetaStore_new d) ∅.
Definition store_initial (pc : PhysicalConfig) : ChunkStore :=
  (store_create pc (store_on (mkDisk MetaKV_empty ∅ [] [] 0))).2.

Section runs.
Context {HCrc : Crc} {HLaws : CrcLaws} (config : StoreConfig) (pc : PhysicalConfig).
#[local] Instance run_persist : Persist := sc_force_persist config.

Inductive store_step : ChunkStore -> ChunkStore -> Prop :=
| step_update job res s :
    job_wf job -> room job s -> store_step s (js_store (replica_update config job (mkJobState s res)).2)
| step_commit job res s :
    0 <= cio_commitVer (job_commitIO job) -> (cio_isForce (job_commitIO job) = true -> not_dirty s (commit_id job)) ->
    store_step s (js_store (replica_commit config job (mkJobState s res)).2)
| step_reset chainVer s :
    Forall (not_dirty s) (ms_uncommitted (cst_meta s)) -> store_step s (resetUncommitted config chainVer s).2
| step_read ct recalc ru readIO res s :
    read_wf readIO -> files_bounded s -> store_step s (js_store (aio_read ct recalc ru readIO (mkJobState s res)).2)
| step_query range s :
    store_step s (target_queryChunks config range s).2
| step_punch cs expirationUs s :
    isLoaded cs (cst_meta s) = true ->
    store_step s (onMeta (punchHoleRemovedChunks (sc_meta_store config) cs expirationUs) s).2
| step_device now rfaults wfaults s :
    store_step s (with_disk (mkDisk (cst_kv s) (d_files (cst_disk s)) rfaults wfaults now) s)
| step_restart s :
    sc_force_persist config = true -> store_step s (store_load config pc (store_on (cst_disk s))).2.

Hypothesis Hsize : sizes_fit config.
Hypothesis Hpc : sizes_ok (pc_chunk_size_list pc).

Lemma fileStore_load_ok n preopen sizes (d : Disk MetaKV) :
  runs (fileStore_load n preopen sizes) d (fun _ d' => d_same d d').
Proof.
  apply (runs_for_each (fun _ d' => d_same d d')); [apply d_same_refl| |done]. intros cs l d1 Hd1. mstep; [|done].
  apply (runs_for_each (fun _ d' => d_same d d')); [done| |done]. intros i l' d2 Hd2. mstep.
  apply runs_openInnerFile; intros; msteps; by eapply d_same_trans.
Qed.

(** Chunks are all there after a restart. *)
Lemma restart_ok s :
  sc_force_persist config = true -> SInv s ->
  let s' := (store_load config pc (store_on (cst_disk s))).2 in
  SInv s' /\ forall id, cur s' id = cur s id /\ content s' id = content s id.
Proof.
  intros Hf HS. cbv zeta.
  assert (forall ms, Inv ms ∅ -> ms_kv ms = cst_kv s -> grown (cst_disk s) (ms_disk ms) ->
    SInv (mkChunkStore ms ∅) /\ forall id, cur (mkChunkStore ms ∅) id = cur s id /\ content (mkChunkStore ms ∅) id = content s id) as Hms.
  { intros ms HI Ekv Hg.
    assert (forall id, cur (mkChunkStore ms ∅) id = cur s id) as Hcur.
    { intros id. unfold cur. cbn. rewrite lookup_empty, Ekv. destruct (cst_map s !! id) as [i|] eqn:E; [|done].
      destruct (si_cache _ HS _ _ E) as (_ & m & Hm & _ & Hag). rewrite Hm. by rewrite (Hag Hf). }
    assert (forall id, content (mkChunkStore ms ∅) id = content s id) as Hct.
    { intros id. unfold content. rewrite Hcur. destruct (cur s id); [|done]. cbn. f_equal. by apply chunk_data_grown. }
    split; [|done]. split; [done|by intros id i; cbn; rewrite lookup_empty|].
    intros id m. rewrite Hcur. intros Hm. by apply (meta_sound_grown (cst_disk s)), (si_sound _ HS id). }
  change (runs (store_load config pc) (store_on (cst_disk s)) (fun _ s' => SInv s' /\ forall id, cur s' id = cur s id /\ content s' id = content s id)).
  unfold store_load. mstep. apply runs_zoom, runs_zoom. eapply runs_mono; [apply fileStore_load_ok|]. cbn [cst_meta store_on ms_disk ChunkMetaStore_new].
  intros o d1 Hd1. assert (set_ms_disk d1 (ChunkMetaStore_new (cst_disk s)) = ChunkMetaStore_new d1) as E1 by done.
  assert (kv_ok (d_kv d1)) as Hkv by (rewrite (proj1 Hd1); apply HS).
  assert (SInv (mkChunkStore (ChunkMetaStore_new d1) ∅) /\ forall id, cur (mkChunkStore (ChunkMetaStore_new d1) ∅) id = cur s id
    /\ content (mkChunkStore (ChunkMetaStore_new d1) ∅) id = content s id) as H1.
  { apply Hms; [|apply Hd1|by apply grown_same]. split; cbn; [done|by intros cs st; rewrite lookup_empty|]. intros cs _. apply flight_empty. }
  destruct o as [[]|c| |]; cbv beta iota delta [andThen]; try exact H1.
  apply runs_zoom. eapply runs_mono; [by apply (meta_load_ok pc d1)|]. intros o s2 [HI2 Ekv2 Hg2]. apply Hms; [done|by rewrite Ekv2; apply Hd1|].
  eapply grown_trans; [by apply grown_same|exact Hg2].
Qed.

(** Punching holes into removed chunks. *)
Lemma punch_ok cs expirationUs s :
  SInv s -> isLoaded cs (cst_meta s) = true ->
  let s' := (onMeta (punchHoleRemovedChunks (sc_meta_store config) cs expirationUs) s).2 in
  SInv s' /\ forall id, cur s' id = cur s id /\ content s' id = content s id.
Proof.
  intros HS Hl%isLoaded_spec. cbv zeta.
  change (runs (onMeta (punchHoleRemovedChunks (sc_meta_store config) cs expirationUs)) s
    (fun _ s' => SInv s' /\ forall id, cur s' id = cur s id /\ content s' id = content s id)).
  apply runs_zoom. eapply runs_mono; [apply punchHoleRemovedChunks_ok; [apply HS|done]|].
  intros o ms [HI Hk _ _ Hm _]. set (s' := set_cst_meta ms s).
  assert (forall id, cur s' id = cur s id) as Hcur by (intros id; unfold cur, s'; cbn; by rewrite Hm).
  assert (forall id m, cur s id = Some m -> forall f i, removed_hole (cst_kv s) cs f i -> hole_at (cm_innerFileId m) (cm_innerOffset m) f i -> False) as Hd.
  { intros id m Hc f i (us & p & Hin & Hh) Hh'. rewrite <-cm_fileId_eq in Hh'.
    destruct (holds_disjoint _ (ORemoved us) (OLive id) _ _ _ _ f i (inv_kv _ _ (si_space _ HS)) Hin (cur_holds _ _ _ HS Hc) Hh Hh') as [? _]. done. }
  split.
  - split; [done| |].
    + intros id i Hi. unfold s' in *. cbn in *. rewrite Hm. by apply HS.
    + intros id m. rewrite Hcur. intros Hc. apply (meta_sound_keep (removed_hole (cst_kv s) cs) (cst_disk s)); [done|by eapply Hd|by apply (si_sound _ HS id)].
  - intros id. split; [done|]. unfold content. rewrite Hcur. destruct (cur s id) as [m|] eqn:Hc; [|done]. cbn. f_equal.
    apply (chunk_data_keep (removed_hole (cst_kv s) cs)); [done|by apply (si_sound _ HS id)|by eapply Hd].
Qed.

(** A commit forced on every chunk that the last process left uncommitted. *)
Lemma reset_one_ok chainVer id s :
  SInv s -> not_dirty s id ->
  runs (reset_one config chainVer id) s (fun o s' => SInv s' /\ (forall id', not_dirty s id' -> not_dirty s' id')).
Proof.
  intros HS Hd. unfold reset_one. do 2 mstep. eapply runs_mono; [by apply store_get_ok|].
  intros [i|c| |] s1 [C1 Ho]; cbv beta iota delta [andThen]; try done; [|mstep; split; [apply C1|]; unfold not_dirty; by setoid_rewrite (ca_cur _ _ C1)].
  destruct Ho as [_ Ecur]. set (job := reset_job id _ chainVer). unfold reset_commit.
  assert (not_dirty s1 id) as Hd1 by (unfold not_dirty; by rewrite (ca_cur _ _ C1)).
  assert (0 <= cio_commitVer (job_commitIO job)) as Hv by (pose proof (so_version _ _ (si_sound _ HS _ _ Ecur)); cbn; lia).
  pose proof (replica_commit_ok config eq_refl job s1 IOResult_default (ca_inv _ _ C1) Hv (fun _ => Hd1)) as Hok.
  unfold runs in Hok |- *. cbv beta. destruct (replica_commit config job (mkJobState s1 IOResult_default)) as [o js']. cbn [fst snd] in Hok |- *.
  destruct Hok as (HS' & Hoth & Hok). split; [done|]. intros id' Hn. destruct (decide (id' = id)) as [->|Hne].
  - change (commit_id job) with id in Hok. destruct o as [k|c| |].
    + destruct Hok as [[(m & _ & _ & _ & Hm) _]|(_ & Hn' & Hc)]; [|intros m; by rewrite (ca_cur _ _ Hc), Hn'].
      change (commit_id job) with id in Hm. destruct (readyToRemove m); [intros m'; by rewrite Hm|].
      destruct Hm as (m' & Hm' & _ & _ & _ & Hd' & _). intros m2. rewrite Hm'. by intros [= <-].
    + destruct Hok as [E _]. intros m. rewrite E. apply Hd1.
    + destruct Hok as [E _]. intros m. rewrite E. apply Hd1.
    + destruct Hok as [E _]. intros m. rewrite E. apply Hd1.
  - destruct (Hoth id' Hne) as [E _]. intros m. rewrite E, (ca_cur _ _ C1). apply Hn.
Qed.

Lemma uncommitted_ok l s : SInv s -> SInv (set_cst_meta (set_ms_uncommitted l (cst_meta s)) s).
Proof. intros [[H1 H2 H3] H4 H5]. split; [split|done|]; done. Qed.

Lemma reset_ok chainVer s :
  SInv s -> Forall (not_dirty s) (ms_uncommitted (cst_meta s)) -> SInv (resetUncommitted config chainVer s).2.
Proof.
  intros HS Hu. change (runs (resetUncommitted config chainVer) s (fun _ s' => SInv s')). unfold resetUncommitted. do 4 mstep.
  apply (runs_for_each (fun l s1 => SInv s1 /\ Forall (not_dirty s1) l)); [done| |].
  - intros id l s1 [HS1 [Hd Hl]%Forall_cons]. eapply runs_mono; [by apply reset_one_ok|]. intros [[]|c| |] s2 [HS2 Hk]; try done.
    split; [done|]. eapply Forall_impl; [exact Hl|]. apply Hk.
  - intros s1 [HS1 _]. cbv beta iota delta [andThen]. apply runs_zoom. mstep. by apply uncommitted_ok.
Qed.

Lemma query_ok range s : SInv s -> calm s (target_queryChunks config range s).2.
Proof.
  intros HS. change (runs (target_queryChunks config range) s (fun _ s' => calm s s')).
  unfold target_queryChunks. case_match.
  - do 2 mstep. unfold target_queryChunk. mstep. eapply runs_mono; [by apply store_get_ok|].
    intros [i|c| |] s1 [C1 _]; cbv beta iota delta [andThen]; msteps; try done. case_match; by mstep.
  - unfold store_queryChunks. mstep. apply runs_zoom, runs_zoom, runs_next_read. intros fault d' Hd.
    pose proof (calm_disk s d' HS Hd) as C. by msteps.
Qed.

Lemma fileStore_create_kv n sizes (d : Disk MetaKV) : runs (fileStore_create n sizes) d (fun _ d' => d_kv d' = d_kv d).
Proof.
  apply (runs_for_each (fun _ d' => d_kv d' = d_kv d)); [done| |done]. intros cs l d1 Hd1. unfold createInnerFile.
  mstep. mstep; [done|]. do 2 mstep. mstep; [done|]. do 2 mstep. mstep; [done|]. do 2 mstep.
  apply runs_next_write. intros fault d2 Hd2. assert (d_kv d2 = d_kv d) as E2 by (by rewrite (proj1 Hd2)). do 2 mstep. mstep; [done|]. mstep.
  apply (runs_for_each (fun _ d' => d_kv d' = d_kv d)); [done| |done]. intros i l' d3 Hd3. mstep. unfold openInnerFile. mstep.
  apply runs_next_read. intros fault3 d4 Hd4. assert (d_kv d4 = d_kv d) as E4 by (by rewrite (proj1 Hd4)). do 2 mstep. mstep; [done|]. do 2 mstep.
  mstep. mstep. destruct (d_files d4 !! _); by msteps.
Qed.

Lemma initial_ok : SInv (store_initial pc).
Proof.
  unfold store_initial. change (runs (store_create pc) (store_on (mkDisk MetaKV_empty ∅ [] [] 0)) (fun _ s => SInv s)).
  assert (forall ms, Inv ms ∅ -> kv_metadata (ms_kv ms) = ∅ -> SInv (mkChunkStore ms ∅)) as Hms.
  { intros ms HI Em. split; [done|by intros id i; cbn; rewrite lookup_empty|]. intros id m. unfold cur. cbn. by rewrite Em, !lookup_empty. }
  unfold store_create. mstep. apply runs_zoom, runs_zoom. eapply runs_mono; [apply fileStore_create_kv|].
  intros o d1 Ed. cbn in Ed.
  destruct o as [[]|c| |]; cbv beta iota delta [andThen].
  1: apply runs_zoom; eapply runs_mono; [by apply (meta_create_ok pc Hpc d1)|]; intros o s2 [HI2 Em2]; by apply Hms.
  all: apply Hms; [|cbn; by rewrite Ed]. all: split; cbn; [rewrite Ed; apply kv_ok_empty|by intros cs st; rewrite lookup_empty|].
  all: intros cs _; apply flight_empty.
Qed.

Lemma store_step_ok s s' : SInv s -> store_step s s' -> SInv s'.
Proof.
  intros HS Hs. destruct Hs as [job res s Hw [Hr1 Hr2]|job res s Hv Hf|ver s Hu|ct recalc ru readIO res s Hw Hb|range s|cs e s Hl|now rf wf s|s Hf].
  - pose proof (replica_update_ok config eq_refl Hsize job s res Hw HS Hr1 Hr2) as Hok. unfold runs in Hok.
    destruct (replica_update config job (mkJobState s res)) as [[n|c| |] js']; destruct Hok as [_ Hok]; try (apply Hok).
    destruct Hok as [(m & i' & Hap & _)|(_ & _ & Hc & _)]; [apply (ap_cached _ _ _ _ _ _ Hap)|apply Hc].
  - by apply (replica_commit_ok config eq_refl job s res HS Hv).
  - by apply reset_ok.
  - apply (aio_read_ok ct recalc ru readIO s res HS Hw Hb).
  - by apply query_ok.
  - by apply punch_ok.
  - by apply SInv_disk.
  - by apply restart_ok.
Qed.

Lemma reachable_ok s : rtc store_step (store_initial pc) s -> SInv s.
Proof. apply (rtc_ind_r (fun s => SInv s)); [apply initial_ok|]. intros s1 s2 _ Hst H1. by eapply store_step_ok. Qed.
End runs.

(** C32: In every run of a target from its creation (updates, resyncs, commits,
    resets of uncommitted chunks, reads, queries, holes punched in removed
    chunks, failures of the device, and restarts with [force_persist]) in which
    no commit is forced on a dirty chunk, no version reaches the end of its 32
    bits and no read fails while a chunk is created, each chunk fits its space,
    its committed version does not pass its last version and is equal to it
    exactly when the chunk is committed, and its checksum is the checksum of
    its bytes, unless it is dirty or being removed. *)
Theorem reachable_chunks_sound {HCrc : Crc} {HLaws : CrcLaws} (config : StoreConfig) (pc : PhysicalConfig) (s : ChunkStore) (id : ChunkId)
    (m : ChunkMetadata) :
  sizes_fit config -> sizes_ok (pc_chunk_size_list pc) -> rtc (store_step config pc) (store_initial pc) s -> cur s id = Some m ->
  0 <= cm_size m <= cf_chunkSize (cm_innerFileId m)
  /\ 0 <= cm_commitVer m <= cm_updateVer m
  /\ (cm_chunkState m = CHUNK_COMMIT <-> cm_commitVer m = cm_updateVer m)
  /\ (cm_chunkState m <> CHUNK_DIRTY -> cm_recycleState m = RECYCLE_NORMAL ->
      cm_checksum m = stored_checksum (cm_checksumType m) (chunk_data (cst_disk s) m)).
Proof.
  intros Hsize Hpc Hrun Hm. pose proof (reachable_ok config pc Hsize Hpc s Hrun) as HS.
  destruct (si_sound _ HS _ _ Hm). done.
Qed.

(** C33: With [force_persist], a restart loses no chunk, no version and no byte. *)
Theorem restart_keeps_chunks {HCrc : Crc} {HLaws : CrcLaws} (config : StoreConfig) (pc : PhysicalConfig) (s : ChunkStore) (id : ChunkId) :
  sizes_fit config -> sizes_ok (pc_chunk_size_list pc) -> sc_force_persist config = true ->
  rtc (store_step config pc) (store_initial pc) s ->
  let s' := (store_load config pc (store_on (cst_disk s))).2 in
  cur s' id = cur s id /\ content s' id = content s id.
Proof.
  intros Hsize Hpc Hf Hrun. pose proof (reachable_ok config pc Hsize Hpc s Hrun) as HS.
  destruct (restart_ok config pc Hpc s Hf HS) as [_ H]. apply H.
Qed.

(** ** Samples *)

#[local] Existing Instance Crc_real.
#[local] Existing Instance Crc_real_laws.

Definition sample_store_config : StoreConfig := mkStoreConfig sample_config [] true PQS_NONE.
Definition sample_key : GlobalKey := mkGlobalKey (mkVersionedChainId 1 1) [1].
Definition sample_update (type : UpdateType) (offset length : Z) (checksum : ChecksumInfo) (data : bytes) : UpdateJob :=
  mkUpdateJob 1 7 type (mkUpdateIO offset length 4096 sample_key [] 0 type checksum []) CommitIO_default UpdateOptions_default data true.
Definition sample_commit (ver : ChunkVer) : UpdateJob :=
  mkUpdateJob 1 7 UT_COMMIT (mkUpdateIO 0 0 0 GlobalKey_default [] 0 UT_INVALID no_checksum [])
    (mkCommitIO sample_key ver false 1 false false) UpdateOptions_default [] true.
Definition sample_write : UpdateJob := sample_update UT_WRITE 10 3 (checksum_of_buffer CHECKSUM_CRC32C [5; 6; 7]) [5; 6; 7].
Definition sample_read : ReadIO := mkReadIO 10 3 sample_key 3.

Definition sample_s0 : ChunkStore := Eval vm_compute in store_initial sample_pc.
Definition sample_js1 : JobState := Eval vm_compute in (replica_update sample_store_config sample_write (mkJobState sample_s0 IOResult_default)).2.
Definition sample_js2 : JobState := Eval vm_compute in
  (replica_commit sample_store_config (sample_commit 1) (mkJobState (js_store sample_js1) IOResult_default)).2.

Lemma sample_fit : sizes_fit sample_store_config.
Proof. unfold sizes_fit. cbn. lia. Qed.

Lemma sample_s0_eq : sample_s0 = store_initial sample_pc.
Proof. vm_cast_no_check (eq_refl sample_s0). Qed.

Lemma sample_s0_ok : store_ok sample_store_config sample_s0.
Proof. rewrite sample_s0_eq. apply (initial_ok sample_store_config sample_pc sample_sizes). Qed.

Lemma sample_write_wf : job_wf sample_write.
Proof. split; vm_compute; try (split; congruence); congruence. Qed.

Lemma sample_room : room sample_write sample_s0.
Proof. split; [intros m Hm; vm_compute in Hm; discriminate|]. intros _. constructor. Qed.

Lemma sample_run1 : replica_update sample_store_config sample_write (mkJobState sample_s0 IOResult_default) = (Ok 3, sample_js1).
Proof. vm_compute. reflexivity. Qed.

Lemma sample_run2 :
  replica_commit sample_store_config (sample_commit 1) (mkJobState (js_store sample_js1) IOResult_default) = (Ok 0, sample_js2).
Proof. vm_compute. reflexivity. Qed.

#[local] Instance sample_persist : Persist := sc_force_persist sample_store_config.

Lemma sample_s1_ok : store_ok sample_store_config (js_store sample_js1).
Proof.
  destruct sample_room as [Hr1 Hr2].
  pose proof (replica_update_ok sample_store_config eq_refl sample_fit sample_write sample_s0 IOResult_default sample_write_wf sample_s0_ok Hr1 Hr2) as Hok.
  unfold runs in Hok. rewrite sample_run1 in Hok. destruct Hok as [_ [(m & i' & Hap & _)|(_ & _ & Hc & _)]]; [apply (ap_cached _ _ _ _ _ _ Hap)|apply Hc].
Qed.

Lemma sample_s2_ok : store_ok sample_store_config (js_store sample_js2).
Proof.
  pose proof (replica_commit_ok sample_store_config eq_refl (sample_commit 1) (js_store sample_js1) IOResult_default sample_s1_ok
    ltac:(cbn; lia) ltac:(by intros ?)) as Hok.
  unfold runs in Hok. rewrite sample_run2 in Hok. apply Hok.
Qed.

Lemma sample_read_wf : read_wf sample_read.
Proof. unfold read_wf, kAIOAlignSize. cbn. lia. Qed.

Lemma sample_bounded : files_bounded (js_store sample_js2).
Proof.
  intros f. destruct (decide (f = mkChunkFileId 4096 0)) as [->|Hne]; [vm_compute; congruence|].
  unfold disk_file. change (d_files (cst_disk (js_store sample_js2))) with (<[mkChunkFileId 4096 0 := disk_file (cst_disk (js_store sample_js2)) (mkChunkFileId 4096 0)]> (∅ : gmap ChunkFileId FileData)).
  rewrite lookup_insert_ne, lookup_empty by done. cbn. lia.
Qed.

Lemma replica_update_refines_witness :
  (replica_update sample_store_config sample_write (mkJobState sample_s0 IOResult_default)).1 = Ok 3
  /\ let '(o, js') := replica_update sample_store_config sample_write (mkJobState sample_s0 IOResult_default) in
     store_ok sample_store_config (js_store js') /\ others_kept [1] sample_s0 (js_store js')
     /\ match o with
        | Ok n => updated sample_write sample_s0 js' n \/ false = true /\ cur sample_s0 [1] = None /\ cur (js_store js') [1] = None /\ n = 0
        | _ => cur (js_store js') [1] = cur sample_s0 [1] /\ content (js_store js') [1] = content sample_s0 [1]
               \/ exists m, cur (js_store js') [1] = Some m /\ cm_chunkState m = CHUNK_DIRTY
                    /\ (false = false -> cm_commitVer m = (old_version sample_s0 [1]).2)
        end.
Proof.
  split; [vm_compute; reflexivity|].
  exact (replica_update_refines sample_store_config sample_write sample_s0 IOResult_default sample_fit sample_s0_ok sample_write_wf sample_room).
Defined.

Lemma replica_commit_publishes_witness :
  let '(o, js') := replica_commit sample_store_config (sample_commit 1) (mkJobState (js_store sample_js1) IOResult_default) in
  store_ok sample_store_config (js_store js') /\ others_kept [1] (js_store sample_js1) (js_store js')
  /\ match o with
     | Ok _ => committed (sample_commit 1) (js_store sample_js1) (js_store js')
               \/ cur (js_store sample_js1) [1] = None /\ cur (js_store js') [1] = None
     | _ => cur (js_store js') [1] = cur (js_store sample_js1) [1]
            /\ (in_use (js_store sample_js1) [1] -> content (js_store js') [1] = content (js_store sample_js1) [1])
     end.
Proof.
  refine (replica_commit_publishes sample_store_config (sample_commit 1) (js_store sample_js1) IOResult_default sample_s1_ok _ _); [cbn; lia|discriminate].
Defined.

Lemma committed_read_exact_witness :
  (aio_read CHECKSUM_CRC32C true false sample_read (mkJobState (js_store sample_js2) IOResult_default)).1 = Ok (3, [5; 6; 7])
  /\ let '(o, js') := aio_read CHECKSUM_CRC32C true false sample_read (mkJobState (js_store sample_js2) IOResult_default) in
     store_ok sample_store_config (js_store js')
     /\ (forall id, cur (js_store js') id = cur (js_store sample_js2) id /\ content (js_store js') id = content (js_store sample_js2) id)
     /\ match o with
        | Ok (n, data) => read_result CHECKSUM_CRC32C false sample_read (js_store sample_js2) js' n data
        | Err _ => True
        | _ => False
        end.
Proof.
  split; [vm_compute; reflexivity|].
  exact (committed_read_exact sample_store_config CHECKSUM_CRC32C true false sample_read (js_store sample_js2) IOResult_default
           sample_s2_ok sample_read_wf sample_bounded).
Defined.

Lemma write_commit_read_witness :
  [5; 6; 7] = written sample_write /\ 3 = uio_length (job_updateIO sample_write)
  /\ (CHECKSUM_CRC32C <> CHECKSUM_NONE -> [5; 6; 7] <> [] ->
      io_checksum (js_result (aio_read CHECKSUM_CRC32C true false sample_read (mkJobState (js_store sample_js2) IOResult_default)).2)
      = checksum_ref CHECKSUM_CRC32C (written sample_write)).
Proof.
  refine (write_commit_read sample_store_config sample_write (sample_commit 1) CHECKSUM_CRC32C true sample_read sample_s0
    IOResult_default IOResult_default IOResult_default 3 0 3 [5; 6; 7] sample_js1 sample_js2 _
    sample_fit sample_s0_ok sample_write_wf sample_room eq_refl eq_refl sample_run1 eq_refl eq_refl eq_refl sample_run2
    eq_refl eq_refl eq_refl sample_read_wf sample_bounded _).
  vm_compute. reflexivity.
Defined.

(** A write of the second version fails after one byte. *)
Definition sample_overwrite : UpdateJob := sample_update UT_WRITE 0 2 no_checksum [8; 9].
Definition with_faults (rfaults wfaults : list (option nat)) (s : ChunkStore) : ChunkStore :=
  with_disk (mkDisk (cst_kv s) (d_files (cst_disk s)) rfaults wfaults (d_now (cst_disk s))) s.
Definition sample_torn : JobState := Eval vm_compute in
  (replica_update sample_store_config sample_overwrite
     (mkJobState (with_faults [] [None; Some 1%nat] (js_store sample_js2)) IOResult_default)).2.
Definition sample_dirty : ChunkMetadata := Eval vm_compute in default ChunkMetadata_default (cur (js_store sample_torn) [1]).

Lemma sample_overwrite_wf : job_wf sample_overwrite.
Proof. split; vm_compute; try (split; congruence); congruence. Qed.

Lemma sample_torn_ok : store_ok sample_store_config (js_store sample_torn).
Proof.
  assert (store_ok sample_store_config (with_faults [] [None; Some 1%nat] (js_store sample_js2))) as HS by (by apply SInv_disk; [apply sample_s2_ok|..]).
  assert (replica_update sample_store_config sample_overwrite (mkJobState (with_faults [] [None; Some 1%nat] (js_store sample_js2)) IOResult_default)
    = (Err StorageCode_kChunkWriteFailed, sample_torn)) as E by (vm_compute; reflexivity).
  pose proof (replica_update_ok sample_store_config eq_refl sample_fit sample_overwrite _ IOResult_default sample_overwrite_wf HS) as Hok.
  unfold runs in Hok. rewrite E in Hok. apply Hok.
  - intros m Hm. vm_compute in Hm. injection Hm as <-. cbn. lia.
  - intros Hn. vm_compute in Hn. discriminate.
Qed.

Lemma torn_bounded : files_bounded (js_store sample_torn).
Proof.
  intros f. destruct (decide (f = mkChunkFileId 4096 0)) as [->|Hne]; [vm_compute; congruence|].
  unfold disk_file. change (d_files (cst_disk (js_store sample_torn))) with (<[mkChunkFileId 4096 0 := disk_file (cst_disk (js_store sample_torn)) (mkChunkFileId 4096 0)]> (∅ : gmap ChunkFileId FileData)).
  rewrite lookup_insert_ne, lookup_empty by done. cbn. lia.
Qed.

Lemma dirty_chunk_refused_witness :
  is_err (replica_update sample_store_config sample_overwrite (mkJobState (js_store sample_torn) IOResult_default)).1 = true
  /\ is_err (replica_commit sample_store_config (sample_commit 2) (mkJobState (js_store sample_torn) IOResult_default)).1 = true
  /\ is_err (aio_read CHECKSUM_NONE false false sample_read (mkJobState (js_store sample_torn) IOResult_default)).1 = true.
Proof.
  exact (dirty_chunk_refused sample_store_config sample_overwrite (sample_commit 2) CHECKSUM_NONE false sample_read (js_store sample_torn)
    IOResult_default sample_dirty sample_torn_ok eq_refl eq_refl eq_refl eq_refl eq_refl eq_refl sample_read_wf torn_bounded).
Defined.

(** A read of the first version that ends after the second one is written. *)
Definition sample_prepared : AioReadState * JobState := Eval vm_compute in
  match aioPrepareRead sample_read (AioReadState_new sample_read false) (mkJobState (js_store sample_js2) IOResult_default) with
  | (Ok st, js) => (st, js)
  | (_, js) => (AioReadState_new sample_read false, js)
  end.
Definition sample_js3 : JobState := Eval vm_compute in
  (replica_update sample_store_config sample_overwrite (mkJobState (js_store sample_prepared.2) IOResult_default)).2.

Lemma read_races_update_witness :
  is_ok (aio_setResult CHECKSUM_CRC32C true sample_read sample_prepared.1 (mkJobState (js_store sample_js3) (js_result sample_prepared.2))).1 = false.
Proof.
  refine (read_races_update sample_store_config sample_read false sample_overwrite (js_store sample_js2) IOResult_default IOResult_default
    sample_prepared.1 sample_prepared.2 2 sample_js3 sample_prepared.1 CHECKSUM_CRC32C true
    sample_fit sample_s2_ok sample_read_wf sample_overwrite_wf _ eq_refl eq_refl _ _).
  - split; [intros m Hm; vm_compute in Hm; injection Hm as <-; cbn; lia|intros Hn; vm_compute in Hn; discriminate].
  - vm_compute. reflexivity.
  - vm_compute. reflexivity.
Defined.

Lemma sample_reachable : rtc (store_step sample_store_config sample_pc) (store_initial sample_pc) (js_store sample_js2).
Proof.
  rewrite <-sample_s0_eq. apply (rtc_l _ _ (js_store sample_js1)).
  - pose proof (step_update sample_store_config sample_pc sample_write IOResult_default sample_s0 sample_write_wf sample_room) as Hst.
    rewrite sample_run1 in Hst. exact Hst.
  - apply rtc_once. assert (0 <= cio_commitVer (job_commitIO (sample_commit 1))) as Hv by (cbn; lia).
    pose proof (step_commit sample_store_config sample_pc (sample_commit 1) IOResult_default (js_store sample_js1) Hv ltac:(discriminate)) as Hst.
    rewrite sample_run2 in Hst. exact Hst.
Qed.

Definition sample_meta1 : ChunkMetadata := Eval vm_compute in default ChunkMetadata_default (cur (js_store sample_js2) [1]).

Lemma reachable_chunks_sound_witness :
  0 <= cm_size sample_meta1 <= cf_chunkSize (cm_innerFileId sample_meta1)
  /\ 0 <= cm_commitVer sample_meta1 <= cm_updateVer sample_meta1
  /\ (cm_chunkState sample_meta1 = CHUNK_COMMIT <-> cm_commitVer sample_meta1 = cm_updateVer sample_meta1)
  /\ (cm_chunkState sample_meta1 <> CHUNK_DIRTY -> cm_recycleState sample_meta1 = RECYCLE_NORMAL ->
      cm_checksum sample_meta1 = stored_checksum (cm_checksumType sample_meta1) (chunk_data (cst_disk (js_store sample_js2)) sample_meta1)).
Proof.
  refine (reachable_chunks_sound sample_store_config sample_pc (js_store sample_js2) [1] sample_meta1 sample_fit sample_sizes sample_reachable _).
  vm_compute. reflexivity.
Defined.

Lemma restart_keeps_chunks_witness :
  let s' := (store_load sample_store_config sample_pc (store_on (cst_disk (js_store sample_js2)))).2 in
  cur s' [1] = cur (js_store sample_js2) [1] /\ content s' [1] = content (js_store sample_js2) [1].
Proof. refine (restart_keeps_chunks sample_store_config sample_pc (js_store sample_js2) [1] sample_fit sample_sizes eq_refl sample_reachable). Defined.

(** The check of a request adds offset and length in 32 bits.  A write whose
    end wraps around passes it, is refused only after the chunk was marked
    dirty, and leaves a committed chunk that takes no more updates. *)
Theorem wrapped_write_leaves_dirty :
  let wrapped := sample_update UT_WRITE 4095 (2 ^ 32 - 4000) no_checksum [] in
  let '(o, js') := replica_update sample_store_config wrapped (mkJobState (js_store sample_js2) IOResult_default) in
  o = Err kInvalidArg
  /\ cm_chunkState <$> cur (js_store sample_js2) [1] = Some CHUNK_COMMIT
  /\ cm_chunkState <$> cur (js_store js') [1] = Some CHUNK_DIRTY
  /\ (replica_update sample_store_config sample_overwrite js').1 = Err StorageCode_kChunkNotClean.
Proof. vm_compute. repeat split. Qed.
