(* ===== verification/ReplicationSpec.v ===== *)
(** * The specification of chain replication

    What a chain of replicas promises, without services, messages or disks.  A
    chunk has a history of updates; the state of each replica is how much of it
    is applied and how much is committed.  The first replica appends to the
    history, the others apply what their predecessor applied, and a replica
    commits what its successor has committed.  [linearized] says what clients
    may rely on: a log of their requests, of the answers and of what reads
    returned is explained by one history. *)

From stdpp Require Import base gmap functions list.
From Stdlib Require Import ZArith Lia.
From S2P Require Import Prelude StatusCode Bytes MgmtdTypes StorageTypes ChunkFiles ChunkMetaStore ChunkReplica TargetMap StorageService ReplicaData.

(** ** Updates *)

Record Op := mkOp {
  op_chunk : ChunkId;
  op_type : UpdateType;
  op_offset : Z;
  op_length : Z;
  op_chunkSize : Z;
  op_checksum : ChecksumInfo;
  op_data : bytes;
  op_tag : MessageTag
}.

(** Client, channel and sequence number. *)
Definition OpKey : Type := Z * ChannelId * ChannelSeqNum.
Definition tag_key (t : MessageTag) : OpKey := (tag_clientId t, ch_id (tag_channel t), ch_seqnum (tag_channel t)).
Definition op_key (op : Op) : OpKey := tag_key (op_tag op).

(** The bytes a request carries, in the message or in the buffer of the sender. *)
Definition inline (req : UpdateReq) : bool := BITFLAGS_CONTAIN (ur_featureFlags req) SEND_DATA_INLINE.
Definition req_data (req : UpdateReq) : bytes :=
  if inline req then uio_inlinebuf (ur_payload req) else uio_rdmabuf (ur_payload req).

(** The update a request asks for. *)
Definition op_of (req : UpdateReq) : Op :=
  let io := ur_payload req in
  mkOp (payload_chunk req) (uio_updateType io) (uio_offset io) (uio_length io) (uio_chunkSize io) (uio_checksum io)
    (if isWrite io then take (Z.to_nat (uio_length io)) (req_data req) else []) (ur_tag req).

Definition apply_op (op : Op) (l : bytes) : bytes :=
  match op_type op with
  | UT_TRUNCATE => take (Z.to_nat (op_length op)) (pad (op_length op) l)
  | UT_EXTEND => pad (op_length op) l
  | UT_WRITE => splice (op_offset op) (op_data op) l
  | _ => l
  end.

(** The bytes of a chunk after some updates. *)
Definition replay (ops : list Op) : bytes := foldl (fun l op => apply_op op l) [] ops.

Lemma replay_snoc ops op : replay (ops ++ [op]) = apply_op op (replay ops).
Proof. unfold replay. by rewrite foldl_app. Qed.

(** ** The replicas of a chunk *)

Record Spec := mkSpec {
  sp_hist : list Op;
  sp_applied : nat -> nat;
  sp_committed : nat -> nat
}.
Definition Spec_init : Spec := mkSpec [] (fun _ => O) (fun _ => O).

Definition spec_append (op : Op) (sp : Spec) : Spec :=
  mkSpec (sp_hist sp ++ [op]) (<[O := S (length (sp_hist sp))]> (sp_applied sp)) (sp_committed sp).
Definition spec_apply (i : nat) (sp : Spec) : Spec :=
  mkSpec (sp_hist sp) (<[i := S (sp_applied sp i)]> (sp_applied sp)) (sp_committed sp).
Definition spec_commit (i : nat) (sp : Spec) : Spec :=
  mkSpec (sp_hist sp) (sp_applied sp) (<[i := sp_applied sp i]> (sp_committed sp)).

(** The steps of [n] replicas. *)
Inductive spec_step (n : nat) (sp : Spec) : Spec -> Prop :=
| ss_append op :
    sp_applied sp O = sp_committed sp O -> op_key op ∉ (op_key <$> sp_hist sp) ->
    spec_step n sp (spec_append op sp)
| ss_apply i :
    (S i < n)%nat -> (sp_applied sp (S i) < sp_applied sp i)%nat ->
    spec_step n sp (spec_apply (S i) sp)
| ss_commit i :
    (i < n)%nat -> (sp_committed sp i < sp_applied sp i)%nat ->
    ((S i < n)%nat -> (sp_applied sp i <= sp_committed sp (S i))%nat) ->
    spec_step n sp (spec_commit i sp).

Record spec_inv (n : nat) (sp : Spec) : Prop := {
  sv_length : length (sp_hist sp) = sp_applied sp O;
  sv_order : forall i, (i < n)%nat -> (sp_committed sp i <= sp_applied sp i)%nat;
  sv_applied : forall i, (S i < n)%nat -> (sp_applied sp (S i) <= sp_applied sp i)%nat;
  sv_committed : forall i, (S i < n)%nat -> (sp_committed sp i <= sp_committed sp (S i))%nat;
  sv_one : (sp_applied sp O <= S (sp_committed sp O))%nat;
  sv_once : NoDup (op_key <$> sp_hist sp)
}.

Lemma spec_inv_init n : spec_inv n Spec_init.
Proof. split; cbn; try lia. apply NoDup_nil_2. Qed.

(** Updates of one place of a function. *)
Ltac fn_cases := repeat match goal with
  | |- context [@insert nat nat (nat -> nat) _ ?i ?v ?f ?j] =>
      destruct (decide (i = j)) as [?|?]; [try (exfalso; lia); simplify_eq; rewrite fn_lookup_insert|rewrite fn_lookup_insert_ne by done]
  end.

Lemma spec_inv_step n sp sp' : spec_inv n sp -> spec_step n sp sp' -> spec_inv n sp'.
Proof.
  intros [H1 H2 H3 H4 H5 H6] Hs. destruct Hs as [op Ea Hk|i Hi Ha|i Hi Hc Hsucc].
  - split; cbn.
    + rewrite length_app, fn_lookup_insert. cbn. lia.
    + intros j Hj. specialize (H2 j Hj). fn_cases; lia.
    + intros j Hj. specialize (H3 j Hj). fn_cases; lia.
    + done.
    + rewrite fn_lookup_insert. lia.
    + rewrite fmap_app. cbn. apply NoDup_app. split_and!; [done| |apply NoDup_singleton]. intros k Hk1 Hk2%list_elem_of_singleton. by subst.
  - split; cbn; [fn_cases; lia|..|fn_cases; lia|done].
    + intros j Hj. specialize (H2 j Hj). fn_cases; lia.
    + intros j Hj. pose proof (H3 j Hj). fn_cases; lia.
    + done.
  - split; cbn; [done|..|done].
    + intros j Hj. pose proof (H2 j Hj). fn_cases; lia.
    + done.
    + intros j Hj. pose proof (H4 j Hj). pose proof (H2 j ltac:(lia)). fn_cases; lia.
    + pose proof (H2 O). fn_cases; lia.
Qed.

Section facts.
Context (n : nat) (sp : Spec) (Hsp : spec_inv n sp).

Lemma committed_mono i j : (i <= j)%nat -> (j < n)%nat -> (sp_committed sp i <= sp_committed sp j)%nat.
Proof. intros Hij Hj. induction Hij as [|j Hij IH]; [done|]. pose proof (sv_committed _ _ Hsp j Hj). specialize (IH ltac:(lia)). lia. Qed.

Lemma applied_mono i j : (i <= j)%nat -> (j < n)%nat -> (sp_applied sp j <= sp_applied sp i)%nat.
Proof. intros Hij Hj. induction Hij as [|j Hij IH]; [done|]. pose proof (sv_applied _ _ Hsp j Hj). specialize (IH ltac:(lia)). lia. Qed.

Lemma applied_length i : (i < n)%nat -> (sp_applied sp i <= length (sp_hist sp))%nat.
Proof. intros Hi. rewrite (sv_length _ _ Hsp). apply applied_mono; [lia|done]. Qed.

(** At most one update is not committed everywhere. *)
Lemma applied_committed i j : (i < n)%nat -> (j < n)%nat -> (sp_applied sp i <= S (sp_committed sp j))%nat.
Proof.
  intros Hi Hj. pose proof (applied_mono O i ltac:(lia) Hi). pose proof (committed_mono O j ltac:(lia) Hj). pose proof (sv_one _ _ Hsp). lia.
Qed.

(** A replica that has committed what it applied knows every version committed
    anywhere. *)
Lemma readable_latest i j : (i < n)%nat -> (j < n)%nat -> sp_committed sp i = sp_applied sp i -> (sp_committed sp j <= sp_committed sp i)%nat.
Proof.
  intros Hi Hj E. destruct (decide (j <= i)%nat); [by apply committed_mono|].
  pose proof (applied_mono i j ltac:(lia) Hj). pose proof (sv_order _ _ Hsp j Hj). lia.
Qed.
End facts.

(** ** What clients see *)

Inductive Event :=
| EInvoke (req : UpdateReq)
| EAnswer (req : UpdateReq) (result : IOResult)
| ERead (readIO : ReadIO) (version : Z) (data : bytes).

(** The version an event shows of a chunk. *)
Definition event_version (e : Event) : option (ChunkId * Z) :=
  match e with
  | EInvoke _ => None
  | EAnswer req r => if result_ok r then Some (payload_chunk req, io_updateVer r) else None
  | ERead rio v _ => Some (gk_chunkId (rio_key rio), v)
  end.

Definition invoked (log : list Event) (key : OpKey) : Prop := exists req, EInvoke req ∈ log /\ tag_key (ur_tag req) = key.

(** A history for each chunk explains a log: no request is applied twice; the
    version of an answered request is its place in the history; a read returns
    the bytes at its version; a version seen by anyone is seen by every later
    read; and a request sent after a version was seen comes after that
    version. *)
Record linearized (log : list Event) (hist : ChunkId -> list Op) : Prop := {
  ln_once : forall id id' i j op op', hist id !! i = Some op -> hist id' !! j = Some op' -> op_key op = op_key op' -> id = id' /\ i = j;
  ln_answer : forall req r, EAnswer req r ∈ log -> result_ok r = true ->
    1 <= io_updateVer r /\ hist (payload_chunk req) !! Z.to_nat (io_updateVer r - 1) = Some (op_of req);
  ln_read : forall rio v data, ERead rio v data ∈ log ->
    0 <= v <= Z.of_nat (length (hist (gk_chunkId (rio_key rio))))
    /\ data = take (Z.to_nat (rio_length rio)) (drop (Z.to_nat (rio_offset rio)) (replay (take (Z.to_nat v) (hist (gk_chunkId (rio_key rio))))));
  ln_latest : forall l1 e l2 id ver rio v data, log = l1 ++ e :: l2 -> event_version e = Some (id, ver) ->
    ERead rio v data ∈ l2 -> gk_chunkId (rio_key rio) = id -> ver <= v;
  ln_realtime : forall l1 e l2 id ver req r, log = l1 ++ e :: l2 -> event_version e = Some (id, ver) ->
    EAnswer req r ∈ l2 -> result_ok r = true -> payload_chunk req = id ->
    (forall req', EInvoke req' ∈ l1 -> tag_key (ur_tag req') <> tag_key (ur_tag req)) -> ver < io_updateVer r
}.
