(* ===== verification/ReplicationWorld.v ===== *)
(** * Services that replicate the chunks of a chain

    The services of a chain, the requests they are working on, and the messages
    between them.  A message, once sent, may be delivered at any time, any
    number of times or never; the answer to a message may be lost, and the
    sender may give up at any time.  Requests run the code of [StorageService]
    part by part, in any order.  Clients send requests and read chunks; devices
    may fail.  The routing does not change while the world runs: changes of the
    chain are the subject of [ChainProtocol] and [TargetMapTheorems].  [issued]
    are the requests of clients. *)

From Stdlib Require Import ZArith Lia.
From stdpp Require Import base gmap list.
From S2P Require Import Prelude StatusCode Bytes MgmtdTypes StorageTypes ChunkFiles ChunkMetaStore MetaCreate ChunkReplica TargetMap StorageService ReplicaInv ReplicaUpdate ReplicaCommit ReplicaTheorems ReplicationSpec.

(** What a request waits for: the lock of its chunk, its turn, the time of the
    next attempt, the answer to a message. *)
Inductive Phase := PhLock | PhForward | PhWait | PhReply (message : nat).
(** Who gets the result. *)
Inductive Origin := FromClient (req : UpdateReq) | FromMessage (message : nat).

Record Task := mkTask { tk_address : Z; tk_handler : Handler; tk_phase : Phase; tk_origin : Origin }.

Record World := mkWorld {
  w_servers : gmap Z Server;
  w_tasks : gmap nat Task;
  w_messages : list (Z * UpdateReq);
  w_replies : list (nat * IOResult);
  w_log : list Event
}.
Definition set_w_servers v w := mkWorld v (w_tasks w) (w_messages w) (w_replies w) (w_log w).
Definition set_w_tasks v w := mkWorld (w_servers w) v (w_messages w) (w_replies w) (w_log w).
Definition set_w_messages v w := mkWorld (w_servers w) (w_tasks w) v (w_replies w) (w_log w).
Definition set_w_replies v w := mkWorld (w_servers w) (w_tasks w) (w_messages w) v (w_log w).
Definition set_w_log v w := mkWorld (w_servers w) (w_tasks w) (w_messages w) (w_replies w) v.

Definition on_server (a : Z) (sv : Server) (w : World) : World := set_w_servers (<[a := sv]> (w_servers w)) w.
Definition put_task (tid : nat) (t : Task) (w : World) : World := set_w_tasks (<[tid := t]> (w_tasks w)) w.
Definition record (e : Event) (w : World) : World := set_w_log (w_log w ++ [e]) w.

Definition deliver (o : Origin) (r : IOResult) (w : World) : World :=
  match o with
  | FromClient req => record (EAnswer req r) w
  | FromMessage k => set_w_replies (w_replies w ++ [(k, r)]) w
  end.

(** A request has begun, or is already answered. *)
Definition begun (tid : nat) (a : Z) (o : Origin) (res : IOResult + Handler) (w : World) : World :=
  match res with
  | inl r => deliver o r w
  | inr h => put_task tid (mkTask a h PhLock o) w
  end.
(** A request has updated its chunk, or is answered. *)
Definition updated_local (tid : nat) (t : Task) (res : IOResult + Handler) (w : World) : World :=
  match res with
  | inl r => deliver (tk_origin t) r (set_w_tasks (delete tid (w_tasks w)) w)
  | inr h => put_task tid (mkTask (tk_address t) h PhForward (tk_origin t)) w
  end.
(** A request has gone on with its forwarding. *)
Definition progressed (tid : nat) (t : Task) (p : Progress) (w : World) : World :=
  match p with
  | Done r => deliver (tk_origin t) r (set_w_tasks (delete tid (w_tasks w)) w)
  | Send a req h => put_task tid (mkTask (tk_address t) h (PhReply (length (w_messages w))) (tk_origin t))
                      (set_w_messages (w_messages w ++ [(a, req)]) w)
  | Wait h => put_task tid (mkTask (tk_address t) h PhWait (tk_origin t)) w
  | Retry h => put_task tid (mkTask (tk_address t) h PhForward (tk_origin t)) w
  end.

(** Codes that come from outside of a service. *)
Definition outside_code (c : Z) : Prop := 0 < c < 4000.

(** A transfer yields the bytes of the sender or fails. *)
Definition transfer_ok (req : UpdateReq) (o : outcome bytes) : Prop :=
  match o with Ok data => data = uio_rdmabuf (ur_payload req) | Err c => outside_code c | _ => False end.

(** The version can still grow, and a chunk is created while the device answers
    reads. *)
Definition roomy (id : ChunkId) (s : ChunkStore) : Prop :=
  (forall m, cur s id = Some m -> cm_updateVer m + 1 < 2 ^ 32) /\ (cur s id = None -> no_read_faults (cst_disk s)).
Definition has_room (sv : Server) (h : Handler) : Prop :=
  forall x o, tg_storageTarget (hd_target h) = Some x -> sg_objects (sv_storage sv) !! x = Some o -> roomy (payload_chunk (hd_req h)) (sto_store o).

(** Other faults and another time of the device of a target. *)
Definition new_device (x : Handle) (rfaults wfaults : list (option nat)) (now : UtcTime) (sv : Server) : Server :=
  let st := sv_storage sv in
  set_sv_storage (set_sg_objects (alter (fun o =>
    let s := sto_store o in
    set_sto_store (with_disk (mkDisk (cst_kv s) (d_files (cst_disk s)) rfaults wfaults now) s) o) x (sg_objects st)) st) sv.

Definition committed_read (flags : Z) : Prop :=
  BITFLAGS_CONTAIN flags BYPASS_DISKIO = false /\ BITFLAGS_CONTAIN flags BYPASS_RDMAXMIT = false
  /\ BITFLAGS_CONTAIN flags ALLOW_READ_UNCOMMITTED = false.
Definition servable (sv : Server) : Prop :=
  forall x o, sg_objects (sv_storage sv) !! x = Some o -> files_bounded (sto_store o).
(** The log after a read. *)
Definition read_done (readIO : ReadIO) (r : IOResult) (data : bytes) (w : World) : World :=
  if result_ok r then record (ERead readIO (io_updateVer r) data) w else w.

Section world.
Context (config : ServiceConfig) `{Crc} (chainId : ChainId) (issued : UpdateReq -> Prop).

Inductive world_step (w : World) : World -> Prop :=
| ws_request tid a req env sv res sv' :
    issued req -> w_tasks w !! tid = None -> w_servers w !! a = Some sv ->
    update_begin config env req sv = (Ok res, sv') ->
    world_step w (begun tid a (FromClient req) res (on_server a sv' (record (EInvoke req) w)))
| ws_deliver tid k a req env sv res sv' :
    w_messages w !! k = Some (a, req) -> w_tasks w !! tid = None -> w_servers w !! a = Some sv ->
    update_begin config env req sv = (Ok res, sv') ->
    world_step w (begun tid a (FromMessage k) res (on_server a sv' w))
| ws_lock tid t env sv res sv' :
    w_tasks w !! tid = Some t -> tk_phase t = PhLock -> w_servers w !! tk_address t = Some sv ->
    chunk_free (tk_handler t) sv = true -> has_room sv (tk_handler t) -> transfer_ok (hd_req (tk_handler t)) (env_transfer env) ->
    handle_locked config env (tk_handler t) sv = (Ok res, sv') ->
    world_step w (updated_local tid t res (on_server (tk_address t) sv' w))
| ws_forward tid t env sv p sv' :
    w_tasks w !! tid = Some t -> tk_phase t = PhForward -> w_servers w !! tk_address t = Some sv ->
    forward_attempt config env (tk_handler t) sv = (Ok p, sv') ->
    world_step w (progressed tid t p (on_server (tk_address t) sv' w))
| ws_wait tid t elapsed sv p sv' :
    w_tasks w !! tid = Some t -> tk_phase t = PhWait -> w_servers w !! tk_address t = Some sv ->
    wait_round config elapsed (tk_handler t) sv = (Ok p, sv') ->
    world_step w (progressed tid t p (on_server (tk_address t) sv' w))
| ws_reply tid t k r env sv p sv' :
    w_tasks w !! tid = Some t -> tk_phase t = PhReply k -> (k, r) ∈ w_replies w -> w_servers w !! tk_address t = Some sv ->
    forward_reply config env (tk_handler t) (Ok r) sv = (Ok p, sv') ->
    world_step w (progressed tid t p (on_server (tk_address t) sv' w))
| ws_giveUp tid t k c env sv p sv' :
    w_tasks w !! tid = Some t -> tk_phase t = PhReply k -> outside_code c -> w_servers w !! tk_address t = Some sv ->
    forward_reply config env (tk_handler t) (Err c) sv = (Ok p, sv') ->
    world_step w (progressed tid t p (on_server (tk_address t) sv' w))
| ws_read a readIO flags ct alloc link added post sv r data sv' :
    w_servers w !! a = Some sv -> servable sv -> read_wf readIO -> vc_chainId (gk_vChainId (rio_key readIO)) = chainId -> committed_read flags ->
    batchRead config alloc link [] [added] post (mkBatchReadReq [readIO] flags ct) sv = (Ok (Ok [(r, data)]), sv') ->
    world_step w (read_done readIO r data (on_server a sv' w))
| ws_device a x rfaults wfaults now sv :
    w_servers w !! a = Some sv ->
    world_step w (on_server a (new_device x rfaults wfaults now sv) w)
| ws_stop a sv :
    w_servers w !! a = Some sv ->
    world_step w (on_server a (set_sv_stopped true sv) w).
End world.

(** * Running a chain of services

    [world_exec] computes the steps of [world_step], so that a schedule of
    requests, messages, reads and faults can be run. *)

Inductive Action :=
| ARequest (tid : nat) (a : Z) (req : UpdateReq) (env : Env)
| ADeliver (tid k : nat) (env : Env)
| ALock (tid : nat) (env : Env)
| AForward (tid : nat) (env : Env)
| AWait (tid : nat) (elapsed : bool)
| AReply (tid : nat) (j : nat) (env : Env)
| AGiveUp (tid : nat) (c : Z) (env : Env)
| ARead (a : Z) (readIO : ReadIO) (flags : Z) (ct : ChecksumType) (alloc link added post : outcome unit)
| ADevice (a : Z) (x : Handle) (rfaults wfaults : list (option nat)) (now : UtcTime)
| AStop (a : Z).

Definition ok_of {T} (o : outcome T) : option T := match o with Ok v => Some v | _ => None end.

#[export] Instance no_read_faults_dec d : Decision (no_read_faults d).
Proof. unfold no_read_faults. apply _. Defined.
#[export] Instance read_wf_dec readIO : Decision (read_wf readIO).
Proof. unfold read_wf. apply _. Defined.
#[export] Instance committed_read_dec flags : Decision (committed_read flags).
Proof. unfold committed_read. apply _. Defined.
#[export] Instance outside_code_dec c : Decision (outside_code c).
Proof. unfold outside_code. apply _. Defined.
#[export] Instance transfer_ok_dec req o : Decision (transfer_ok req o).
Proof. unfold transfer_ok. destruct o; apply _. Defined.

Definition roomyb (id : ChunkId) (s : ChunkStore) : bool :=
  match cur s id with Some m => bool_decide (cm_updateVer m + 1 < 2 ^ 32) | None => bool_decide (no_read_faults (cst_disk s)) end.
Definition has_roomb (sv : Server) (h : Handler) : bool :=
  match tg_storageTarget (hd_target h) with
  | Some x => match sg_objects (sv_storage sv) !! x with Some o => roomyb (payload_chunk (hd_req h)) (sto_store o) | None => true end
  | None => true
  end.
Definition files_boundedb (s : ChunkStore) : bool :=
  bool_decide (map_Forall (fun _ f => fd_size f < 2 ^ 63) (d_files (cst_disk s))).
Definition servableb (sv : Server) : bool := bool_decide (map_Forall (fun _ o => files_boundedb (sto_store o) = true) (sg_objects (sv_storage sv))).

Lemma roomyb_ok id s : roomyb id s = true -> roomy id s.
Proof.
  unfold roomyb, roomy. destruct (cur s id) as [m|]; intros H%bool_decide_eq_true; split; try done. by intros m' [= <-].
Qed.

Lemma has_roomb_ok sv h : has_roomb sv h = true -> has_room sv h.
Proof. unfold has_roomb. intros H x o Hx Ho. rewrite Hx, Ho in H. by apply roomyb_ok. Qed.

Lemma servableb_ok sv : servableb sv = true -> servable sv.
Proof.
  intros H%bool_decide_eq_true x o Ho f. specialize (H x o Ho). apply bool_decide_eq_true in H. unfold disk_file.
  destruct (d_files (cst_disk (sto_store o)) !! f) as [fd|] eqn:E; cbn; [by apply (H f)|lia].
Qed.

Section exec.
Context (config : ServiceConfig) `{Crc} (chainId : ChainId) (requests : list UpdateReq).

Definition world_exec (act : Action) (w : World) : option World :=
  match act with
  | ARequest tid a req env =>
      guard (req ∈ requests);; guard (w_tasks w !! tid = None);;
      sv ← w_servers w !! a;
      let '(out, sv') := update_begin config env req sv in
      res ← ok_of out; Some (begun tid a (FromClient req) res (on_server a sv' (record (EInvoke req) w)))
  | ADeliver tid k env =>
      guard (w_tasks w !! tid = None);;
      am ← w_messages w !! k;
      sv ← w_servers w !! am.1;
      let '(out, sv') := update_begin config env am.2 sv in
      res ← ok_of out; Some (begun tid am.1 (FromMessage k) res (on_server am.1 sv' w))
  | ALock tid env =>
      t ← w_tasks w !! tid;
      sv ← w_servers w !! tk_address t;
      match tk_phase t with
      | PhLock =>
          guard (chunk_free (tk_handler t) sv = true);; guard (has_roomb sv (tk_handler t) = true);;
          guard (transfer_ok (hd_req (tk_handler t)) (env_transfer env));;
          let '(out, sv') := handle_locked config env (tk_handler t) sv in
          res ← ok_of out; Some (updated_local tid t res (on_server (tk_address t) sv' w))
      | _ => None
      end
  | AForward tid env =>
      t ← w_tasks w !! tid;
      sv ← w_servers w !! tk_address t;
      match tk_phase t with
      | PhForward =>
          let '(out, sv') := forward_attempt config env (tk_handler t) sv in
          p ← ok_of out; Some (progressed tid t p (on_server (tk_address t) sv' w))
      | _ => None
      end
  | AWait tid elapsed =>
      t ← w_tasks w !! tid;
      sv ← w_servers w !! tk_address t;
      match tk_phase t with
      | PhWait =>
          let '(out, sv') := wait_round config elapsed (tk_handler t) sv in
          p ← ok_of out; Some (progressed tid t p (on_server (tk_address t) sv' w))
      | _ => None
      end
  | AReply tid j env =>
      t ← w_tasks w !! tid;
      sv ← w_servers w !! tk_address t;
      kr ← w_replies w !! j;
      match tk_phase t with
      | PhReply k =>
          guard (k = kr.1);;
          let '(out, sv') := forward_reply config env (tk_handler t) (Ok kr.2) sv in
          p ← ok_of out; Some (progressed tid t p (on_server (tk_address t) sv' w))
      | _ => None
      end
  | AGiveUp tid c env =>
      guard (outside_code c);;
      t ← w_tasks w !! tid;
      sv ← w_servers w !! tk_address t;
      match tk_phase t with
      | PhReply _ =>
          let '(out, sv') := forward_reply config env (tk_handler t) (Err c) sv in
          p ← ok_of out; Some (progressed tid t p (on_server (tk_address t) sv' w))
      | _ => None
      end
  | ARead a readIO flags ct alloc link added post =>
      sv ← w_servers w !! a;
      guard (servableb sv = true);; guard (read_wf readIO);; guard (vc_chainId (gk_vChainId (rio_key readIO)) = chainId);; guard (committed_read flags);;
      match batchRead config alloc link [] [added] post (mkBatchReadReq [readIO] flags ct) sv with
      | (Ok (Ok [(r, data)]), sv') => Some (read_done readIO r data (on_server a sv' w))
      | _ => None
      end
  | ADevice a x rfaults wfaults now => sv ← w_servers w !! a; Some (on_server a (new_device x rfaults wfaults now sv) w)
  | AStop a => sv ← w_servers w !! a; Some (on_server a (set_sv_stopped true sv) w)
  end.

(** A schedule. *)
Fixpoint world_run (acts : list Action) (w : World) : option World :=
  match acts with [] => Some w | act :: acts' => w' ← world_exec act w; world_run acts' w' end.

Lemma ok_of_Some {T} (o : outcome T) v : ok_of o = Some v -> o = Ok v.
Proof. destruct o; cbn; congruence. Qed.

Ltac exec_inv := repeat match goal with
  | H : (guard ?P;; _) = Some _ |- _ => apply bind_Some in H as (? & _ & H)
  | H : (_ ≫= _) = Some _ |- _ => apply bind_Some in H as (? & ? & H)
  | H : ok_of _ = Some _ |- _ => apply ok_of_Some in H
  | H : Some _ = Some _ |- _ => injection H as <-
  | H : (let '(_, _) := ?m in _) = Some _ |- _ => destruct m as [? ?] eqn:?
  | x : Z * UpdateReq |- _ => destruct x as [? ?]
  | x : nat * IOResult |- _ => destruct x as [? ?]
  end; cbn [fst snd] in *; subst.

Lemma world_exec_sound act w w' :
  world_exec act w = Some w' -> world_step config chainId (fun r => r ∈ requests) w w'.
Proof.
  intros Hex. destruct act; unfold world_exec in Hex.
  - exec_inv. by eapply ws_request.
  - exec_inv. by eapply ws_deliver.
  - apply bind_Some in Hex as (t & Ht & Hex). apply bind_Some in Hex as (sv & Hsv & Hex). destruct (tk_phase t) eqn:Ep; [|done..].
    exec_inv. eapply ws_lock; try done. by apply has_roomb_ok.
  - apply bind_Some in Hex as (t & Ht & Hex). apply bind_Some in Hex as (sv & Hsv & Hex). destruct (tk_phase t) eqn:Ep; [done| |done|done].
    exec_inv. by eapply ws_forward.
  - apply bind_Some in Hex as (t & Ht & Hex). apply bind_Some in Hex as (sv & Hsv & Hex). destruct (tk_phase t) eqn:Ep; [done|done| |done].
    exec_inv. by eapply ws_wait.
  - apply bind_Some in Hex as (t & Ht & Hex). apply bind_Some in Hex as (sv & Hsv & Hex). apply bind_Some in Hex as (kr & Hkr & Hex).
    destruct (tk_phase t) eqn:Ep; [done|done|done|]. exec_inv. eapply ws_reply; try done. by eapply list_elem_of_lookup_2.
  - apply bind_Some in Hex as (? & _ & Hex). apply bind_Some in Hex as (t & Ht & Hex). apply bind_Some in Hex as (sv & Hsv & Hex).
    destruct (tk_phase t) eqn:Ep; [done|done|done|]. exec_inv. by eapply ws_giveUp.
  - exec_inv. match goal with o : outcome (outcome (list (IOResult * bytes))) |- _ => destruct o as [[[|[r data] [|]]| | |]| | |]; try done end. exec_inv. eapply ws_read; try done. by apply servableb_ok.
  - exec_inv. by eapply ws_device.
  - exec_inv. by eapply ws_stop.
Qed.

Lemma world_run_sound acts w w' : world_run acts w = Some w' -> rtc (world_step config chainId (fun r => r ∈ requests)) w w'.
Proof.
  revert w. induction acts as [|act acts IH]; intros w; cbn; [by intros [= ->]|]. intros (w1 & H1 & H2)%bind_Some.
  eapply rtc_l; [by eapply world_exec_sound|by apply IH].
Qed.
End exec.
