(* ===== verification/ServiceLemmas.v ===== *)
(** * Parts of an update of a storage service

    What each part of [StorageService] does to the service, for a service whose
    target in the chain is fixed. *)

From stdpp Require Import base gmap list.
From Stdlib Require Import ZArith Lia.
From S2P Require Import Prelude StatusCode Bytes MgmtdTypes StorageTypes Checksums ChunkFiles ChunkMetaStore ChunkReplica TargetMap TargetMapTheorems StorageService MetaCreate ReplicaInv ReplicaData ReplicaUpdate ReplicaCommit ReplicaTheorems ReplicationSpec ReplicationWorld.

(** ** Requests *)

(** The requests the chain is specified for: writes, truncations and extensions
    of its chunks, without the flags of benchmarks. *)
Record sane (chainId : ChainId) (req : UpdateReq) : Prop := {
  sn_chain : vc_chainId (payload_chain req) = chainId;
  sn_sync : uo_isSyncing (ur_options req) = false;
  sn_bypass : BITFLAGS_CONTAIN (ur_featureFlags req) BYPASS_DISKIO = false;
  sn_type : isWriteTruncateExtend (ur_payload req) = true;
  sn_offset : 0 <= uio_offset (ur_payload req) < 2 ^ 32;
  sn_length : 0 <= uio_length (ur_payload req) < 2 ^ 32;
  sn_chunkSize : 0 <= uio_chunkSize (ur_payload req) < 2 ^ 32;
  sn_version : 0 <= uio_updateVer (ur_payload req) < 2 ^ 32;
  sn_buffer : isWrite (ur_payload req) = true -> inline req = false -> uio_length (ur_payload req) <= Z.of_nat (length (uio_rdmabuf (ur_payload req)));
  sn_resize : isWrite (ur_payload req) = false -> ci_type (uio_checksum (ur_payload req)) = CHECKSUM_NONE /\ uio_offset (ur_payload req) = 0;
  sn_seqnum : 0 < ch_seqnum (tag_channel (ur_tag req))
}.

Lemma sane_not_remove C req : sane C req -> isRemove (ur_payload req) = false.
Proof.
  intros Hs. pose proof (sn_type _ _ Hs) as Ht. unfold isWriteTruncateExtend, isWrite, isTruncate, isExtend, isRemove in *.
  by destruct (uio_updateType (ur_payload req)).
Qed.

Lemma op_of_version v req : op_of (set_updateVer v req) = op_of req.
Proof. done. Qed.

(** The update of a request is that of its job. *)
Lemma apply_update_op C req data old :
  sane C req -> (isWrite (ur_payload req) = true -> data = req_data req) ->
  apply_update (ur_payload req) false data old = apply_op (op_of req) old.
Proof.
  intros Hs Hd. pose proof (sn_type _ _ Hs) as Ht. unfold apply_update, apply_op, op_of, isWriteTruncateExtend, isWrite, isTruncate, isExtend, isRemove in *.
  cbn. destruct (uio_updateType (ur_payload req)); cbn in *; try done. by rewrite Hd.
Qed.

(** ** The state of a service *)

Definition store_of (sv : Server) (x : Handle) : option ChunkStore := sto_store <$> sg_objects (sv_storage sv) !! x.

(** Lookups of the target of a chain, as far as they succeed, give the object
    [x], and its place in the chain. *)
Definition routed_as (chainId : ChainId) (x : Handle) (head : bool) (next : option Z) (sv : Server) : Prop :=
  forall v allow t, tm_getByChainId (sg_map (sv_storage sv)) v allow = Ok t -> vc_chainId v = chainId ->
    tg_storageTarget t = Some x /\ (tg_isHead t = true -> head = true)
    /\ match next with
       | None => tg_successor t = None
       | Some a => exists su, tg_successor t = Some su /\ fti_publicState (su_targetInfo su) <> PS_SYNCING
                   /\ forall a', getSuccessorAddr t = Ok a' -> a' = a
       end.

(** The routes of [sv'] are among those of [sv]. *)
Definition fewer_routes (sv sv' : Server) : Prop :=
  forall v allow t, tm_getByChainId (sg_map (sv_storage sv')) v allow = Ok t -> tm_getByChainId (sg_map (sv_storage sv)) v allow = Ok t.

Lemma fewer_routes_refl sv : fewer_routes sv sv.
Proof. by intros v allow t. Qed.
Lemma routed_fewer C x head next sv sv' : routed_as C x head next sv -> fewer_routes sv sv' -> routed_as C x head next sv'.
Proof. intros Hr Hf v allow t Ht. apply (Hr v allow). by apply Hf. Qed.

(** Only the chunks of target [x] changed, and routes were lost at most. *)
Record store_changed (x : Handle) (s' : ChunkStore) (sv sv' : Server) : Prop := {
  sc_store : exists o, sg_objects (sv_storage sv) !! x = Some o
    /\ sg_objects (sv_storage sv') = <[x := set_sto_store s' o]> (sg_objects (sv_storage sv));
  sc_routes : fewer_routes sv sv';
  sc_clients : sv_clients sv' = sv_clients sv;
  sc_stopped : sv_stopped sv' = sv_stopped sv;
  sc_chunkLocks : sv_chunkLocks sv' = sv_chunkLocks sv;
  sc_channelLocks : sv_channelLocks sv' = sv_channelLocks sv
}.

Lemma offline_routes path sv :
  fewer_routes sv (set_sv_storage (updateTargetMap (tm_offlineTargets path) (sv_storage sv)).2 sv).
Proof.
  intros v allow t. unfold updateTargetMap, tm_offlineTargets, onMap, modify. cbn.
  unfold tm_getByChainId, tm_getTargetId, tm_getTarget. cbn. destruct (tm_chainToTarget _ !! _) as [tid|]; [|done].
  rewrite lookup_fmap. destruct (tm_targets _ !! tid) as [t0|]; [|done]. cbn.
  match goal with |- context [if ?b then set_tg_localState _ _ else _] => destruct b end; [|done].
  cbn. destruct (negb _ && _); [done|]. done.
Qed.

(** ** The local update *)

(** The chunk after the update of a request. *)
Record wrote (req : UpdateReq) (s s' : ChunkStore) (v : Z) : Prop := {
  wr_clean : not_dirty s (payload_chunk req);
  wr_version : v = (old_version s (payload_chunk req)).1 + 1;
  wr_bound : 0 < v < 2 ^ 32;
  wr_fits : (uio_updateVer (ur_payload req) = 0 -> (old_version s (payload_chunk req)).1 = (old_version s (payload_chunk req)).2)
            /\ (0 < uio_updateVer (ur_payload req) -> uio_updateVer (ur_payload req) = v);
  wr_new : old_version s' (payload_chunk req) = (v, (old_version s (payload_chunk req)).2);
  wr_after : not_dirty s' (payload_chunk req);
  wr_in_use : in_use s (payload_chunk req) -> in_use s' (payload_chunk req);
  wr_bytes : content s' (payload_chunk req) = Some (apply_op (op_of req) (default [] (content s (payload_chunk req))))
}.

(** The chunk is as before or dirty, and what was committed stays. *)
Definition unwritten (id : ChunkId) (s s' : ChunkStore) : Prop :=
  cur s' id = cur s id /\ content s' id = content s id
  \/ exists m, cur s' id = Some m /\ cm_chunkState m = CHUNK_DIRTY /\ cm_commitVer m = (old_version s id).2.

(** An update that was done before: committed, or only applied. *)
Definition done_before (req : UpdateReq) (s : ChunkStore) (c : Z) (s' : ChunkStore) : Prop :=
  cur s' (payload_chunk req) = cur s (payload_chunk req) /\ not_dirty s (payload_chunk req) /\ 0 < uio_updateVer (ur_payload req)
  /\ (c = StorageCode_kChunkCommittedUpdate /\ uio_updateVer (ur_payload req) <= (old_version s (payload_chunk req)).2
      \/ c = StorageCode_kChunkStaleUpdate
         /\ (old_version s (payload_chunk req)).2 < uio_updateVer (ur_payload req) <= (old_version s (payload_chunk req)).1).

Section local.
Context {HCrc : Crc} {HLaws : CrcLaws} (config : StoreConfig) (chainId : ChainId).
#[local] Instance service_persist : Persist := sc_force_persist config.

Lemma update_job_wf req data allow :
  sane chainId req -> (isWrite (ur_payload req) = true -> uio_length (ur_payload req) <= Z.of_nat (length data)) ->
  job_wf (update_job req CommitIO_default (uio_updateType (ur_payload req)) data allow).
Proof.
  intros [S1 S2 S3 S4 S5 S6 S7 S8 S9 S10 S11] Hd. split; cbn; try done.
  - unfold isWriteTruncateExtend in S4. by rewrite S4.
  - intros E. by apply S10.
  - intros E. by apply S10.
  - by rewrite S2.
Qed.

Lemma local_update_ok req data allow s :
  sizes_fit config -> sane chainId req -> SInv s -> roomy (payload_chunk req) s ->
  (isWrite (ur_payload req) = true -> data = req_data req /\ uio_length (ur_payload req) <= Z.of_nat (length data)) ->
  let js := updateChunk config (update_job req CommitIO_default (uio_updateType (ur_payload req)) data allow) (mkJobState s IOResult_default) in
  SInv (js_store js) /\ others_kept (payload_chunk req) s (js_store js) /\
  match io_lengthInfo (js_result js) with
  | Ok _ => wrote req s (js_store js) (io_updateVer (js_result js))
  | Err c => unwritten (payload_chunk req) s (js_store js) /\ (plain c = true \/ done_before req s c (js_store js))
  | _ => True
  end.
Proof.
  intros Hsize Hs HS [Hr1 Hr2] Hd. set (job := update_job _ _ _ _ _). set (id := payload_chunk req) in *.
  assert (job_wf job) as Hw by (apply update_job_wf; [done|by intros E; apply Hd]).
  assert (syncing job = false) as Hsy by apply Hs. assert (isRemove (job_updateIO job) = false) as Hnr by (by eapply sane_not_remove).
  pose proof (runs_conj _ _ _ _ (replica_update_ok config eq_refl Hsize job s IOResult_default Hw HS (fun m Hm _ => Hr1 m Hm) Hr2)
    (replica_update_codes config job s IOResult_default Hw HS)) as Hok.
  assert (bool_decide (job_type job = UT_COMMIT) = false) as Et.
  { apply bool_decide_eq_false_2. cbn. pose proof (sn_type _ _ Hs) as Ht. unfold isWriteTruncateExtend, isWrite, isTruncate, isExtend in Ht.
    by destruct (uio_updateType (ur_payload req)). }
  unfold updateChunk. rewrite Et. unfold runs in Hok. destruct (replica_update config job _) as [o js']. cbn [fst snd] in Hok.
  cbn [js_store js_result set_js_result io_lengthInfo set_io_lengthInfo io_updateVer].
  destruct Hok as [[Ho Hok] Hcode]. change (job_id job) with id in *.
  destruct o as [n|c| |]; [|destruct Hok as [HS' Hf]..].
  - destruct Hok as [(m & i' & Hap & Hv & _ & Hns)|(? & _)]; [|congruence]. specialize (Hns Hsy) as (Hnd & Hfit & Hiu). rewrite Hsy in Hv.
    change (job_id job) with id in *. pose proof (ap_cached _ _ _ _ _ _ Hap) as Hc. change (job_id job) with id in Hc.
    pose proof (cached_cur _ _ _ Hc) as Hcur. pose proof (cached_sound _ _ _ Hc) as Hso.
    destruct (ap_versions _ _ _ _ _ _ Hap) as (Ev1 & Ev2 & _). destruct (ap_result _ _ _ _ _ _ Hap) as (Er & _). injection Hv as Eu Ec.
    split_and!; [apply Hc|done|]. rewrite Er, Eu. fold id. split; fold id; try done.
    + pose proof (so_version _ _ Hso). pose proof (so_updateVer _ _ Hso). rewrite Ev1, Eu in *.
      assert (0 <= (old_version s id).1).
      { unfold old_version. destruct (cur s id) as [m0|] eqn:E0; cbn; [|lia]. pose proof (so_version _ _ (si_sound _ HS _ _ E0)). lia. }
      lia.
    + unfold old_version at 1. rewrite Hcur. congruence.
    + intros m0. rewrite Hcur. intros [= <-]. by rewrite (ap_state _ _ _ _ _ _ Hap).
    + intros Hi m0. rewrite Hcur. intros [= <-]. rewrite (ap_stays _ _ _ _ _ _ Hap Hnr). by apply Hiu.
    + unfold content. rewrite Hcur. cbn. rewrite (ap_data _ _ _ _ _ _ Hap), Hsy. f_equal.
      apply (apply_update_op chainId req); [done|]. intros E. by apply Hd.
  - split_and!; [done|done| |].
    + destruct Hf as [Hf|(m & ? & ? & Hcv)]; [by left|]. right. exists m. auto.
    + destruct Hcode as [|(H1 & H2 & _ & H4 & H5)]; [by left|right]. split_and!; [apply H1|done..].
  - done.
  - done.
Qed.

(** ** The local commit *)

(** The chunk after a commit of its last version. *)
Lemma local_commit_ok req commitIO s v :
  SInv s -> gk_chunkId (cio_key commitIO) = payload_chunk req -> cio_isForce commitIO = false -> cio_isRemove commitIO = false ->
  cio_commitVer commitIO = v -> not_dirty s (payload_chunk req) -> in_use s (payload_chunk req) ->
  old_version s (payload_chunk req) = (v, v - 1) -> 0 < v ->
  let job := mkUpdateJob (tag_requestId (ur_tag req)) (tag_clientId (ur_tag req)) UT_COMMIT
               (mkUpdateIO 0 0 0 GlobalKey_default [] 0 UT_INVALID no_checksum []) commitIO (ur_options req) [] true in
  let js := updateChunk config job (mkJobState s IOResult_default) in
  SInv (js_store js) /\ others_kept (payload_chunk req) s (js_store js)
  /\ content (js_store js) (payload_chunk req) = content s (payload_chunk req)
  /\ match io_lengthInfo (js_result js) with
     | Ok _ => old_version (js_store js) (payload_chunk req) = (v, v) /\ not_dirty (js_store js) (payload_chunk req)
               /\ in_use (js_store js) (payload_chunk req) /\ io_updateVer (js_result js) = v
     | o => cur (js_store js) (payload_chunk req) = cur s (payload_chunk req) /\ (forall c, o = Err c -> plain c = true)
     end.
Proof.
  intros HS Eid Ef Erm Ev Hnd Hiu Hov Hv job js. set (id := payload_chunk req) in *.
  pose proof (runs_conj _ _ _ _ (replica_commit_ok config eq_refl job s IOResult_default HS ltac:(cbn; lia) ltac:(cbn; by rewrite Ef))
    (replica_commit_codes config job s IOResult_default HS)) as Hok.
  subst js. unfold updateChunk. cbn [job_type job bool_decide]. rewrite bool_decide_eq_true_2 by done.
  unfold runs in Hok. destruct (replica_commit config job _) as [o js']. cbn [fst snd] in Hok.
  cbn [js_store js_result set_js_result io_lengthInfo set_io_lengthInfo io_updateVer]. cbn [job_commitIO job] in Hok. rewrite Eid in *. rewrite Ev in Hok.
  destruct Hok as [(HS' & Ho & Hok) Hcode]. destruct o as [n|c| |].
  - destruct Hok as [((m & Hm & Hd & Hle & Hc) & Eu & _)|(? & _)]; [|congruence]. cbn [job_commitIO job] in Hm, Hc, Hle. rewrite Eid, Ev in *. fold id in Hm, Hc.
    assert (readyToRemove m = false) as Er by (unfold readyToRemove; by rewrite (Hiu _ Hm)). rewrite Er in Hc.
    destruct Hc as (m' & Hm' & E1 & E2 & Ect & Hd' & Hn'). split_and!; [done|done|done| | | |].
    + unfold old_version in *. rewrite Hm in Hov. rewrite Hm'. congruence.
    + intros m0. rewrite Hm'. by intros [= <-].
    + intros m0. rewrite Hm'. by intros [= <-].
    + by rewrite Eu, Hov.
  - destruct Hok as [E1 E2]. split_and!; [done|done|by apply E2|done|]. intros c' [= <-]. destruct Hcode as [|[_ Hle]]; [done|].
    rewrite Hov in Hle. cbn in Hle. lia.
  - destruct Hok as [E1 E2]. split_and!; [done|done|by apply E2|done|done].
  - destruct Hok as [E1 E2]. split_and!; [done|done|by apply E2|done|done].
Qed.
End local.
