(* ===== verification/ChainWiring.v ===== *)
(** * From the routing information of the manager to the chain of services

    The services that took over the same routing information form the chain it
    describes: each knows its own target, whether it is the head, and the
    address of the next service. *)

From stdpp Require Import base gmap list.
From Stdlib Require Import ZArith Lia.
From S2P Require Import Prelude StatusCode Bytes MgmtdTypes RoutingInfo MgmtdState StorageTypes ChunkReplica TargetMap TargetMapTheorems StorageService ServiceLemmas.

(** The address the routing information gives for a target. *)
Definition target_address (ri : RoutingInfo) (tid : TargetId) : option Z :=
  ti ← ri_targets ri !! tid;
  nid ← fti_nodeId (ti_base ti);
  node ← ri_nodeMap ri !! nid;
  group ← head (app_serviceGroups (ni_app (nw_base node)));
  head (sgi_endpoints group).

(** [chain] lists the addresses of the targets of [c] that serve, which are the
    first ones; the target after them neither serves nor is being synced. *)
Record wired (ri : RoutingInfo) (c : ChainInfo) (chain : list Z) : Prop := {
  wi_length : (length chain <= length (ci_targets c))%nat;
  wi_address : forall j cti a a', ci_targets c !! j = Some cti -> chain !! j = Some a -> target_address ri (cti_targetId cti) = Some a' -> a' = a;
  wi_serving : forall j cti, (j < length chain)%nat -> ci_targets c !! j = Some cti -> cti_publicState cti = PS_SERVING;
  wi_rest : forall cti, ci_targets c !! length chain = Some cti -> cti_publicState cti <> PS_SERVING /\ cti_publicState cti <> PS_SYNCING
}.

(** A service that holds the [i]-th target of a chain, as object [h], and no
    other. *)
Record holds_target (c : ChainInfo) (i : nat) (h : Handle) (tm : TargetMap) : Prop := {
  ht_own : exists cti t, ci_targets c !! i = Some cti /\ tm_targets tm !! cti_targetId cti = Some t /\ tg_storageTarget t = Some h;
  ht_others : forall j cti, ci_targets c !! j = Some cti -> j <> i -> tm_targets tm !! cti_targetId cti = None
}.

Lemma find_local_index targets l i first cti :
  l !! i = Some cti -> is_Some (targets !! cti_targetId cti) ->
  (forall j c, (j < i)%nat -> l !! j = Some c -> targets !! cti_targetId c = None) ->
  find_local targets l first = Some (bool_decide (i = O) && first, cti_targetId cti, drop (S i) l).
Proof.
  revert i first. induction l as [|c l IH]; intros i first Hi Hs Hn; [done|]. cbn. destruct i as [|i].
  - injection Hi as ->. rewrite bool_decide_eq_true_2 by done. by rewrite drop_0.
  - rewrite (bool_decide_eq_false_2 (is_Some _)); [|rewrite (Hn O c); [by intros []|lia|done]]. rewrite (IH i false Hi Hs); [by rewrite andb_false_r|].
    intros j c' Hj Hc'. apply (Hn (S j)); [lia|done].
Qed.

(** The target after one that is routed. *)
Lemma successor_wired boot ri cid c chain i :
  ri_wf ri -> ri_chains ri !! cid = Some c -> wired ri c chain -> (i < length chain)%nat ->
  let su := successor_of (flattenRoutingInfo boot ri) (drop (S i) (ci_targets c)) in
  match chain !! S i with
  | None => su = None
  | Some a => exists s, su = Some s /\ fti_publicState (su_targetInfo s) = PS_SERVING
      /\ forall t a', tg_successor t = su -> getSuccessorAddr t = Ok a' -> a' = a
  end.
Proof.
  intros Hwf Hc [Hlen Haddr Hserv Hrest] Hlt su. destruct (chain !! S i) as [a|] eqn:Ha.
  - apply lookup_lt_Some in Ha as Hb. destruct (lookup_lt_is_Some_2 (ci_targets c) (S i)) as [next En]; [lia|].
    destruct (rw_chain_target _ Hwf _ _ next Hc (list_elem_of_lookup_2 _ _ _ En)) as (ti & Hti & Hof).
    unfold su, successor_of. rewrite (drop_S _ next) by done. cbn. rewrite lookup_fmap, Hti. cbn.
    assert (fti_publicState (ti_base ti) = PS_SERVING) as Eps.
    { destruct Hof as [_ ->]. by apply (Hserv (S i)). }
    unfold is_serving. rewrite Eps, (bool_decide_eq_true_2 (PS_SERVING = PS_SERVING)) by done. cbn. eexists. split; [done|]. split; [done|]. intros t a' Ht. unfold getSuccessorAddr. rewrite Ht. cbn.
    intros Haddr'. eapply (Haddr (S i) next); [done|done|]. unfold target_address. rewrite Hti. cbn. destruct (fti_nodeId (ti_base ti)) as [nid|]; [|done]. cbn.
    rewrite lookup_fmap in Haddr'. destruct (ri_nodeMap ri !! nid) as [node|]; [|done]. cbn in Haddr' |- *. revert Haddr'.
    destruct (app_serviceGroups _) as [|group groups]; [done|]. cbn. destruct (sgi_endpoints group); [done|]. by intros [= ->].
  - apply lookup_ge_None in Ha. assert (S i = length chain) as Ei by lia. unfold su, successor_of.
    destruct (ci_targets c !! S i) as [next|] eqn:En; [|by rewrite drop_ge by (by apply lookup_ge_None)].
    rewrite (drop_S _ next) by done. rewrite Ei in En. destruct (Hrest next En) as [H1 H2].
    destruct (rw_chain_target _ Hwf _ _ next Hc (list_elem_of_lookup_2 _ _ _ En)) as (ti & Hti & [_ Hof]).
    cbn. rewrite lookup_fmap, Hti. cbn. unfold is_serving. rewrite Hof. by rewrite !bool_decide_eq_false_2.
Qed.

Lemma updateRouting_wires (config : StoreConfig) (boot : bool) (ri : RoutingInfo) (cid : ChainId) (c : ChainInfo) (chain : list Z) (i : nat) (h : Handle)
    `{Crc} (sv : Server) :
  ri_wf ri -> ri_chains ri !! cid = Some c -> wired ri c chain -> (i < length chain)%nat -> tm_ok (sv_storage sv) -> holds_target c i h (sg_map (sv_storage sv)) ->
  let '(o, st') := updateTargetMap (tm_updateRouting config (Some (flattenRoutingInfo boot ri))) (sv_storage sv) in
  match o with
  | Ok _ => routed_as cid h (bool_decide (i = O)) (chain !! S i) (set_sv_storage st' sv)
  | Err _ => sg_map st' = sg_map (sv_storage sv)
  | _ => False
  end.
Proof.
  intros Hwf Hc Hw Hlt Hok [(cti & t & Hi & Ht & Hh) Hoth]. set (r := flattenRoutingInfo boot ri).
  pose proof (updateRouting_ok config r (sv_storage sv) Hok (flatten_ok boot ri Hwf)) as Hrun. unfold runs in Hrun. unfold updateTargetMap.
  destruct (tm_updateRouting config (Some r) (sv_storage sv)) as [[[]|e| |] st']; cbn [fst snd] in Hrun; destruct Hrun as [_ Hrun]; try done.
  destruct Hrun as [_ (_ & Hchains & _ & _)]. specialize (Hchains cid c Hc).
  rewrite (find_local_index _ _ i true cti Hi) in Hchains; [|by eexists|intros j c' Hj Hc'; apply (Hoth j c' Hc'); lia].
  destruct Hchains as (Hto & info & t0 & t' & Hinfo & Ht0 & Ht' & [R1 R2 R3 R4 R5 R6]). rewrite Ht in Ht0. injection Ht0 as <-.
  intros v allow tg Hg Hv. apply getByChainId_inv in Hg as (tid & Htid & Htg & _ & Hsome & _). cbn in Htid, Htg. rewrite Hv, Hto in Htid. injection Htid as <-.
  rewrite Ht' in Htg. injection Htg as <-.
  destruct (shut_down info t) eqn:Es; [rewrite (R5 eq_refl) in Hsome; by destruct Hsome|]. destruct (R6 eq_refl) as (E1 & E2 & _).
  split_and!; [by rewrite E1|rewrite R4, andb_true_r; by intros [_ ?]%andb_true_iff|].
  destruct (rw_chain_target _ Hwf _ _ cti Hc (list_elem_of_lookup_2 _ _ _ Hi)) as (ti & Hti & Hof).
  assert (fti_publicState info = PS_SERVING) as Eps.
  { unfold r in Hinfo. cbn in Hinfo. rewrite lookup_fmap, Hti in Hinfo. injection Hinfo as <-. destruct Hof as [_ ->]. by apply (wi_serving _ _ _ Hw i). }
  unfold is_serving in E2. rewrite Eps, (bool_decide_eq_true_2 (PS_SERVING = PS_SERVING)) in E2 by done. cbn [orb] in E2. pose proof (successor_wired boot ri cid c chain i Hwf Hc Hw Hlt) as Hsu. cbv zeta in Hsu. fold r in Hsu.
  destruct (chain !! S i) as [a|]; [|congruence]. destruct Hsu as (s & Es' & Hs & Ha). exists s. split_and!; [congruence|by rewrite Hs|]. intros a'. by apply Ha.
Qed.

(** C6: The routing information of the manager wires a chain: the chain lists
    its serving targets first and the one after them, if any, is not being
    synced.  A service that holds one of the serving targets, and no other
    target of the chain, and takes over this information then finds its own
    target for the chain whenever the look-up succeeds, is the head only if it
    holds the first target, forwards to the service of the next serving target,
    and to nobody from the last one.  If the take-over fails, the map of
    targets is the old one. *)
Theorem chain_wiring (config : StoreConfig) (boot : bool) (ri : RoutingInfo) (cid : ChainId) (c : ChainInfo) (chain : list Z) (i : nat) (h : Handle)
    `{Crc} (sv : Server) :
  ri_wf ri -> ri_chains ri !! cid = Some c -> wired ri c chain -> (i < length chain)%nat -> tm_ok (sv_storage sv) -> holds_target c i h (sg_map (sv_storage sv)) ->
  let '(o, st') := updateTargetMap (tm_updateRouting config (Some (flattenRoutingInfo boot ri))) (sv_storage sv) in
  match o with
  | Ok _ => routed_as cid h (bool_decide (i = O)) (chain !! S i) (set_sv_storage st' sv)
  | Err _ => sg_map st' = sg_map (sv_storage sv)
  | _ => False
  end.
Proof. intros. by apply (updateRouting_wires config boot ri cid c chain i h). Qed.
