(* ===== verification/ServiceParts.v ===== *)
(** * Parts of an update of a storage service, continued

    The parts of [handleUpdate] as steps between states of a service. *)

From Stdlib Require Import ZArith Lia.
From stdpp Require Import base gmap list.
From S2P Require Import Prelude StatusCode Bytes MgmtdTypes StorageTypes Checksums ChunkFiles ChunkMetaStore MetaCreate ChunkReplica TargetMap TargetMapTheorems StorageService ReplicaInv ReplicaData ReplicaUpdate ReplicaCommit ReplicaTheorems ReplicationSpec ReplicationWorld ServiceLemmas.

(** ** What a part leaves alone *)

(** The cached result of a channel. *)
Definition ChanKey : Type := Z * ChannelId.
Definition chan_key (req : UpdateReq) : ChanKey := (tag_clientId (ur_tag req), ch_id (tag_channel (ur_tag req))).
Definition cached_at (chainId : ChainId) (sv : Server) (k : ChanKey) : ReqResult :=
  default ReqResult_default (st ← sv_clients sv !! k.1; cs_channelMap st !! (chainId, k.2)).

Lemma getReqResult_at C sv req : vc_chainId (payload_chain req) = C -> getReqResult sv req = cached_at C sv (chan_key req).
Proof. unfold getReqResult, cached_at. by intros ->. Qed.

Lemma setReqResult_at C req f now sv k :
  vc_chainId (payload_chain req) = C ->
  cached_at C (setReqResult req f now sv).2 k = if bool_decide (k = chan_key req) then f (cached_at C sv (chan_key req)) else cached_at C sv k.
Proof.
  intros E. unfold setReqResult, modify. cbn [snd]. rewrite (getReqResult_at C) by done.
  set (e := f (cached_at C sv (chan_key req))). unfold cached_at at 1. rewrite E. unfold chan_key at 1. cbn [sv_clients set_sv_clients].
  destruct k as [cl ch]. cbn [fst snd]. destruct (decide (cl = tag_clientId (ur_tag req))) as [->|Hne].
  - rewrite lookup_insert_eq. cbn. destruct (decide (ch = ch_id (tag_channel (ur_tag req)))) as [->|Hne].
    + by rewrite lookup_insert_eq, bool_decide_eq_true_2.
    + rewrite lookup_insert_ne by congruence. rewrite bool_decide_eq_false_2 by (unfold chan_key; congruence).
      unfold cached_at. cbn. by destruct (sv_clients sv !! _).
  - rewrite lookup_insert_ne by done. rewrite bool_decide_eq_false_2 by (unfold chan_key; congruence). done.
Qed.

(** Equal except for the times of clients. *)
Record idle (chainId : ChainId) (sv sv' : Server) : Prop := {
  id_storage : sv_storage sv' = sv_storage sv;
  id_stopped : sv_stopped sv' = sv_stopped sv;
  id_chunkLocks : sv_chunkLocks sv' = sv_chunkLocks sv;
  id_channelLocks : sv_channelLocks sv' = sv_channelLocks sv;
  id_cache : forall k, cached_at chainId sv' k = cached_at chainId sv k
}.
Lemma idle_refl C sv : idle C sv sv.
Proof. done. Qed.

(** A request takes its channel. *)
Record started (chainId : ChainId) (x : Handle) (req : UpdateReq) (sv sv' : Server) : Prop := {
  st_storage : sv_storage sv' = sv_storage sv;
  st_stopped : sv_stopped sv' = sv_stopped sv;
  st_chunkLocks : sv_chunkLocks sv' = sv_chunkLocks sv;
  st_free : (x, chan_key req) ∉ sv_channelLocks sv;
  st_channelLocks : sv_channelLocks sv' = {[(x, chan_key req)]} ∪ sv_channelLocks sv;
  st_cache : forall k, cached_at chainId sv' k = cached_at chainId sv k
}.

(** A request ends: its result is cached and its locks are free. *)
Definition entry_of (req : UpdateReq) (gen : Z) (r : IOResult) : ReqResult :=
  mkReqResult (ch_seqnum (tag_channel (ur_tag req))) (tag_requestId (ur_tag req)) r (uio_updateVer (ur_payload req)) gen.
Definition unlocked (lock : option (Handle * ChunkId)) (l : gset (Handle * ChunkId)) : gset (Handle * ChunkId) :=
  match lock with Some k => l ∖ {[k]} | None => l end.
Record finished (chainId : ChainId) (x : Handle) (req : UpdateReq) (lock : option (Handle * ChunkId)) (gen : Z) (r : IOResult) (sv sv' : Server) : Prop := {
  fi_storage : sv_storage sv' = sv_storage sv;
  fi_stopped : sv_stopped sv' = sv_stopped sv;
  fi_chunkLocks : sv_chunkLocks sv' = unlocked lock (sv_chunkLocks sv);
  fi_channelLocks : sv_channelLocks sv' = sv_channelLocks sv ∖ {[(x, chan_key req)]};
  fi_cache : forall k, cached_at chainId sv' k = if bool_decide (k = chan_key req) then entry_of req gen r else cached_at chainId sv k
}.

(** The version a request starts with, given the cached result of its channel. *)
Definition start_version (e : ReqResult) (gen : Z) (req : UpdateReq) (v : Z) : Prop :=
  rr_channelSeqnum e <= ch_seqnum (tag_channel (ur_tag req))
  /\ (v = uio_updateVer (ur_payload req)
      /\ (v <> 0 \/ rr_channelSeqnum e < ch_seqnum (tag_channel (ur_tag req)) \/ gen <> rr_generationId e
          \/ result_ok (rr_updateResult e) = false /\ rr_succUpdateVer e = 0)
      \/ v = rr_succUpdateVer e /\ v <> 0 /\ uio_updateVer (ur_payload req) = 0
         /\ rr_channelSeqnum e = ch_seqnum (tag_channel (ur_tag req))).

(** The cached result answers the request. *)
Definition replayed (e : ReqResult) (req : UpdateReq) (r : IOResult) : Prop :=
  rr_channelSeqnum e = ch_seqnum (tag_channel (ur_tag req)) /\ result_ok (rr_updateResult e) = true
  /\ io_updateVer r = io_updateVer (rr_updateResult e)
  /\ (uio_updateVer (ur_payload req) = 0 \/ uio_updateVer (ur_payload req) = io_updateVer r).

(** An error that means nothing more. *)
Definition refused (r : IOResult) : Prop := result_ok r = false /\ result_code r <> StorageCode_kNoSuccessorTarget.

Section parts.
Context {HCrc : Crc} {HLaws : CrcLaws} (config : ServiceConfig) (chainId : ChainId).
#[local] Instance parts_persist : Persist := sc_force_persist (svc_store config).

Lemma runs_object x o sv (Q : outcome StorageTarget -> Server -> Prop) :
  sg_objects (sv_storage sv) !! x = Some o -> Q (Ok o) sv -> runs (onStorage (getObject x)) sv Q.
Proof. intros Ho HQ. apply runs_zoom. unfold runs, getObject. rewrite Ho. cbn. by destruct sv. Qed.

Lemma reliable_end_ok req target x o r sv :
  vc_chainId (payload_chain req) = chainId -> tg_storageTarget target = Some x -> sg_objects (sv_storage sv) !! x = Some o ->
  runs (reliable_end req target (Some (x, chan_key req)) r) sv (fun out sv' => out = Ok tt
    /\ finished chainId x req None (sto_generationId o) r sv sv').
Proof.
  intros Hc Hx Ho. unfold reliable_end, handle_of. rewrite Hx. do 4 mstep. apply (runs_object _ o); [done|].
  mstep. mstep. unfold setReqResult at 1. mstep. mstep. unfold unlockChannel. mstep. split; [done|].
  split; cbn; try done. intros k. pose proof (setReqResult_at chainId req (fun _ => entry_of req (sto_generationId o) r) None sv k Hc) as E.
  unfold setReqResult, modify in E. cbn [snd] in E. rewrite <-E. done.
Qed.

Lemma handle_end_ok h x o r sv :
  vc_chainId (payload_chain (hd_req h)) = chainId -> tg_storageTarget (hd_target h) = Some x -> sg_objects (sv_storage sv) !! x = Some o ->
  hd_reliable h = true -> hd_channelLock h = Some (x, chan_key (hd_req h)) ->
  runs (handle_end h r) sv (fun out sv' => out = Ok r /\ finished chainId x (hd_req h) (hd_chunkLock h) (sto_generationId o) r sv sv').
Proof.
  intros Hc Hx Ho Hr Hl. unfold handle_end. rewrite Hr, Hl. mstep.
  assert (exists sv1, sv1 = set_sv_chunkLocks (unlocked (hd_chunkLock h) (sv_chunkLocks sv)) sv) as [sv1 E1] by eauto.
  assert (runs (match hd_chunkLock h with Some lock => modify (fun s => set_sv_chunkLocks (sv_chunkLocks s ∖ {[lock]}) s) | None => mret tt end) sv
    (fun out s => out = Ok tt /\ s = sv1)) as H1.
  { subst sv1. destruct (hd_chunkLock h); mstep; [done|]. split; [done|]. by destruct sv. }
  eapply runs_mono; [exact H1|]. intros ? ? [-> ->]. mstep. mstep. mstep; [|done]. 
  eapply runs_mono; [apply (reliable_end_ok _ _ x o); [done|done|by subst sv1]|]. intros ? sv2 [-> [F1 F2 F3 F4 F5]]. cbn in *. subst sv1.
  msteps. split; [done|]. split; [done..|]. intros k. by rewrite F5.
Qed.

Lemma fewer_handle sv v allow t C x head next :
  routed_as C x head next sv -> tm_getByChainId (sg_map (sv_storage sv)) v allow = Ok t -> vc_chainId v = C -> tg_storageTarget t = Some x.
Proof. intros Hr Ht Hv. by destruct (Hr _ _ _ Ht Hv). Qed.

(** *** The begin of a request *)

Lemma handle_begin_ok req target x o sv :
  vc_chainId (payload_chain req) = chainId -> tg_storageTarget target = Some x -> sg_objects (sv_storage sv) !! x = Some o ->
  runs (handle_begin config req target true (Some (x, chan_key req))) sv (fun out sv' =>
    match out with
    | Ok (inl r) => refused r /\ finished chainId x req None (sto_generationId o) r sv sv'
    | Ok (inr h) => sv' = sv /\ h = Handler_new req target true (Some (x, chan_key req))
                    /\ (uo_fromClient (ur_options req) = true -> tg_isHead target = true)
    | _ => False
    end).
Proof.
  intros Hc Hx Ho. unfold handle_begin. destruct (handle_checks config req target) as [code|] eqn:Ehc.
  - assert (plain code = true) as Hp by (unfold handle_checks in Ehc; repeat case_match; by simplify_eq).
    mstep. mstep; [|done]. eapply runs_mono; [by apply (reliable_end_ok _ _ x o)|]. intros ? sv1 [-> [F1 F2 F3 F4 F5]].
    cbn in *. msteps. split; [split; [done|]; cbn; intros ->; done|]. by split.
  - mstep. split_and!; [done|done|]. intros Hf. unfold handle_checks in Ehc. rewrite Hf in Ehc. by destruct (tg_isHead target).
Qed.

(** The result of the begin of a request: answered at once, refused after it
    took its channel, or waiting for its chunk. *)
Definition begin_post (req : UpdateReq) (x : Handle) (head : bool) (sv : Server) (out : outcome (IOResult + Handler)) (sv' : Server) : Prop :=
  match out with
  | Ok (inl r) =>
      idle chainId sv sv' /\ (refused r \/ result_ok r = true /\ replayed (cached_at chainId sv (chan_key req)) req r)
      \/ exists o v sv1, sg_objects (sv_storage sv) !! x = Some o
           /\ start_version (cached_at chainId sv (chan_key req)) (sto_generationId o) req v /\ refused r
           /\ started chainId x req sv sv1 /\ finished chainId x (set_updateVer v req) None (sto_generationId o) r sv1 sv'
  | Ok (inr h) => exists o v target, sg_objects (sv_storage sv) !! x = Some o
           /\ start_version (cached_at chainId sv (chan_key req)) (sto_generationId o) req v
           /\ started chainId x req sv sv' /\ h = Handler_new (set_updateVer v req) target true (Some (x, chan_key req))
           /\ tg_storageTarget target = Some x /\ (uo_fromClient (ur_options req) = true -> head = true)
  | Err _ => False
  | _ => True
  end.

Lemma start_ok req v target x o head sv sv1 :
  vc_chainId (payload_chain req) = chainId -> tg_storageTarget target = Some x -> sg_objects (sv_storage sv) !! x = Some o ->
  (tg_isHead target = true -> head = true) -> (x, chan_key req) ∉ sv_channelLocks sv -> idle chainId sv sv1 ->
  start_version (cached_at chainId sv (chan_key req)) (sto_generationId o) req v ->
  runs (modify (fun s => set_sv_channelLocks ({[(x, chan_key req)]} ∪ sv_channelLocks s) s) ;;
        handle_begin config (set_updateVer v req) target true (Some (x, chan_key req))) sv1 (begin_post req x head sv).
Proof.
  intros Hc Hx Ho Hh Hf [I1 I2 I3 I4 I5] Hv. do 3 mstep. set (sv2 := set_sv_channelLocks _ sv1).
  assert (started chainId x req sv sv2) as Hst by (split; cbn; try done; by rewrite I4).
  eapply runs_mono; [apply (handle_begin_ok (set_updateVer v req) target x o sv2); [done|done|by rewrite <-Ho; cbn; rewrite I1]|].
  intros [[r|h]|c| |] sv3 Hpost; try done; cbn.
  - destruct Hpost as [Hr Hfin]. right. exists o, v, sv2. done.
  - destruct Hpost as (-> & -> & Hfc). exists o, v, target. split_and!; try done. intros E. by apply Hh, Hfc.
Qed.

Lemma update_begin_ok env req x head next sv :
  sane chainId req -> routed_as chainId x head next sv -> runs (update_begin config env req) sv (begin_post req x head sv).
Proof.
  intros Hs Hrt. unfold update_begin, getTargetOf. do 3 mstep. pose proof (sn_chain _ _ Hs) as Hc.
  destruct (tm_getByChainId _ _ _) as [target|c| |] eqn:Et.
  2-4: mstep; left; split; [done|left; split; [done|]; cbn].
  2: { unfold tm_getByChainId, tm_getTargetId, tm_getTarget in Et. repeat case_match; by simplify_eq. }
  2-3: done.
  destruct (Hrt _ _ _ Et Hc) as (Hx & Hhead & _). rewrite (sane_not_remove _ _ Hs). cbn [andb].
  unfold reliable_begin. do 3 mstep.
  destruct (sv_stopped sv); [mstep; left; split; [done|by left]|].
  destruct (ch_id _ =? 0); [mstep; left; split; [done|by left]|].
  mstep. set (sv1 := (setReqResult req (fun r => r) (Some (env_now env)) sv).2).
  assert (idle chainId sv sv1) as Hidle.
  { split; [done..|]. intros k. unfold sv1. rewrite (setReqResult_at chainId) by done. by case_bool_decide as E; [rewrite E|]. }
  apply (runs_of_eq _ _ (Ok tt) sv1); [done|]. cbv beta iota delta [andThen]. unfold handle_of. rewrite Hx. do 3 mstep.
  fold (chan_key req).
  match goal with |- runs (if ?b then _ else _) _ _ => destruct b eqn:El end; [mstep; left; split; [done|by left]|apply bool_decide_eq_false in El].
  mstep. destruct (sg_objects (sv_storage sv) !! x) as [o|] eqn:Ho.
  2: { apply runs_zoom. unfold runs, getObject. rewrite (id_storage _ _ _ Hidle), Ho. done. }
  apply (runs_object _ o); [by rewrite (id_storage _ _ _ Hidle)|]. mstep. rewrite (getReqResult_at chainId) by done.
  set (e := cached_at chainId sv (chan_key req)).
  assert (req = set_updateVer (uio_updateVer (ur_payload req)) req) as Ereq by (by destruct req as [[] ? ? ? ?]).
  assert (forall v, start_version e (sto_generationId o) req v -> runs _ sv1 (begin_post req x head sv)) as Hstart
    by (intros v Hv; exact (start_ok req v target x o head sv sv1 Hc Hx Ho Hhead El Hidle Hv)).
  pose proof (Hstart (uio_updateVer (ur_payload req))) as Hstart0. rewrite <-Ereq in Hstart0.
  destruct (_ <? rr_channelSeqnum e) eqn:E1; [mstep; left; split; [done|by left]|apply Z.ltb_ge in E1].
  destruct ((_ =? rr_channelSeqnum e) && _) eqn:E2.
  2: { apply Hstart0. split; [done|]. left. split; [done|]. apply andb_false_iff in E2 as [E2|E2]; apply Z.eqb_neq in E2; lia. }
  apply andb_true_iff in E2 as [E2%Z.eqb_eq E3%Z.eqb_eq].
  destruct (negb _); [mstep; left; split; [done|by left]|].
  destruct (result_ok (rr_updateResult e)) eqn:E4.
  - destruct ((uio_updateVer (ur_payload req) =? 0) || _) eqn:E5.
    + mstep. left. split; [done|]. right.
      assert (result_ok (cached_result req e) = true /\ io_updateVer (cached_result req e) = io_updateVer (rr_updateResult e)) as [Hr1 Hr2].
      { unfold cached_result, result_ok in *. destruct (io_lengthInfo (rr_updateResult e)) eqn:El2; [|done..]. destruct (negb _ && _); cbn; by rewrite ?El2. }
      split; [done|]. split_and!; [done|done|done|]. rewrite Hr2. apply orb_true_iff in E5 as [?%Z.eqb_eq|?%Z.eqb_eq]; auto.
    + apply orb_false_iff in E5 as [E5%Z.eqb_neq _]. apply Hstart0. split; [lia|]. left. split; [done|]. by left.
  - destruct ((uio_updateVer (ur_payload req) =? 0) && _) eqn:E5.
    + apply andb_true_iff in E5 as [E5%Z.eqb_eq E6%negb_true_iff%Z.eqb_neq]. apply Hstart. split; [lia|]. right. done.
    + apply Hstart0. split; [lia|]. left. split; [done|]. apply andb_false_iff in E5 as [E5%Z.eqb_neq|E5%negb_false_iff%Z.eqb_eq]; auto.
Qed.

(** *** The local update *)

(** The buffer that is sent on. *)
Definition forward_buffer (req : UpdateReq) : bytes :=
  if inline req then [] else if isWrite (ur_payload req) then uio_rdmabuf (ur_payload req) else [].

Lemma store_unchanged x o sv : sg_objects (sv_storage sv) !! x = Some o -> store_changed x (sto_store o) sv sv.
Proof.
  intros Ho. split; [|apply fewer_routes_refl|done..]. exists o. split; [done|]. rewrite insert_id; [done|]. by rewrite Ho; destruct o.
Qed.

Lemma outside_plain c : outside_code c -> plain c = true.
Proof.
  unfold outside_code, plain, StorageCode_kChunkCommittedUpdate, StorageCode_kChunkStaleUpdate, StorageCode_kChunkStaleCommit, StorageCode_kNoSuccessorTarget.
  intros. rewrite !(proj2 (Z.eqb_neq _ _)) by lia. done.
Qed.

Lemma plain_refused r c : io_lengthInfo r = Err c -> plain c = true -> refused r.
Proof.
  intros E Hp. unfold refused, result_ok, result_code. rewrite E. split; [done|]. intros ->. done.
Qed.

Lemma runJob_eq x job sv o :
  sg_objects (sv_storage sv) !! x = Some o ->
  let js := updateChunk (svc_store config) job (mkJobState (sto_store o) IOResult_default) in
  runJob config x job sv
  = (match io_lengthInfo (js_result js) with Fatal => Fatal | Pending => Pending | _ => Ok (js_result js) end,
     set_sv_storage (set_sg_objects (<[x := set_sto_store (js_store js) o]> (sg_objects (sv_storage sv))) (sv_storage sv)) sv).
Proof. intros Ho js. unfold runJob, onStorage, zoom, onObject. rewrite Ho. done. Qed.

Definition update_post (req : UpdateReq) (s s' : ChunkStore) (r : IOResult) (buf : bytes) : Prop :=
  SInv s' /\ others_kept (payload_chunk req) s s' /\
  match io_lengthInfo r with
  | Ok _ => wrote req s s' (io_updateVer r) /\ buf = forward_buffer req
  | Err c => unwritten (payload_chunk req) s s' /\ (plain c = true \/ done_before req s c s' /\ buf = forward_buffer req)
  | _ => False
  end.

Lemma doUpdate_ok env req target x o allow sv :
  sizes_fit (svc_store config) -> sane chainId req -> tg_storageTarget target = Some x -> sg_objects (sv_storage sv) !! x = Some o ->
  SInv (sto_store o) -> roomy (payload_chunk req) (sto_store o) -> transfer_ok req (env_transfer env) ->
  runs (doUpdate config env req target allow) sv (fun out sv' =>
    match out with
    | Ok (r, buf) => exists s', store_changed x s' sv sv' /\ update_post req (sto_store o) s' r buf
    | Err _ => False
    | _ => True
    end).
Proof.
  intros Hsize Hs Hx Ho HS Hroom Htr.
  assert (forall c buf, plain c = true -> exists s', store_changed x s' sv sv /\ update_post req (sto_store o) s' (IOResult_error c) buf) as Hfail.
  { intros c buf Hp. exists (sto_store o). split; [by apply store_unchanged|]. split_and!; [done|apply others_refl|]. cbn. split; [by left|by left]. }
  unfold doUpdate. rewrite (sn_bypass _ _ Hs).
  assert (forall data, (isWrite (ur_payload req) = true -> data = req_data req /\ uio_length (ur_payload req) <= Z.of_nat (length data)) ->
    runs (h ← handle_of target;
      r ← runJob config h (update_job req CommitIO_default (uio_updateType (ur_payload req)) data allow);
      when ((result_code r =? StorageCode_kChunkWriteFailed) || (result_code r =? StorageCode_kChunkMetadataSetError))
        (onStorage (updateTargetMap (tm_offlineTargets (removelast (tg_path target))))) ;;
      mret (r, forward_buffer req)) sv (fun out sv' =>
    match out with
    | Ok (r, buf) => exists s', store_changed x s' sv sv' /\ update_post req (sto_store o) s' r buf
    | Err _ => False
    | _ => True
    end)) as Hrun.
  { intros data Hd. unfold handle_of. rewrite Hx. do 4 mstep.
    pose proof (local_update_ok (svc_store config) chainId req data allow (sto_store o) Hsize Hs HS Hroom Hd) as Hok.
    eapply runs_of_eq; [by apply (runJob_eq _ _ _ o)|]. cbv zeta in *. set (js := updateChunk _ _ _) in *. destruct Hok as (HS' & Hoth & Hok).
    set (sv1 := set_sv_storage _ sv).
    assert (store_changed x (js_store js) sv sv1) as Hch by (split; [exists o; done|by intros v a t|done..]).
    destruct (io_lengthInfo (js_result js)) as [n|c| |] eqn:El; cbv beta iota delta [andThen]; try done.
    - mstep. mstep; [match goal with H : _ || _ = true |- _ => unfold result_code in H; rewrite El in H; done end|].
      do 2 mstep. exists (js_store js). split; [done|]. unfold update_post. by rewrite El.
    - mstep. mstep.
      + apply runs_zoom. unfold runs. set (st := updateTargetMap _ _). assert (st.1 = Ok tt) as -> by done. mstep. mstep. exists (js_store js).
        split; [|unfold update_post; rewrite El; split_and!; [done|done|apply Hok|destruct Hok as [_ [|]]; auto]].
        destruct Hch as [[o1 [E1 E2]] R1 C1 C2 C3 C4]. split; [exists o1; done|..]; try done.
        apply (offline_routes (removelast (tg_path target)) sv1).
      + mstep. mstep. exists (js_store js). split; [done|]. unfold update_post. rewrite El. split_and!; [done|done|apply Hok|destruct Hok as [_ [|]]; auto]. }
  fold (inline req). unfold forward_buffer in Hrun. destruct (inline req) eqn:Ei.
  - destruct (negb _) eqn:En; [mstep; by apply Hfail|]. apply negb_false_iff, Z.eqb_eq in En.
    apply Hrun. intros _. unfold req_data. rewrite Ei. split; [done|lia].
  - destruct (isWrite (ur_payload req)) eqn:Ew; [|by apply Hrun].
    unfold transfer_ok in Htr. destruct (env_transfer env) as [data|c| |]; try done.
    + subst data. apply Hrun. intros _. unfold req_data. rewrite Ei. split; [done|]. by apply (sn_buffer _ _ Hs).
    + mstep. apply Hfail. by apply outside_plain.
Qed.

(** A request that has updated its chunk, with version [v]. *)
Record carried (h h' : Handler) (x : Handle) (v : Z) : Prop := {
  cy_req : hd_req h' = set_updateVer v (hd_req h);
  cy_target : tg_storageTarget (hd_target h') = Some x;
  cy_reliable : hd_reliable h' = hd_reliable h;
  cy_channel : hd_channelLock h' = hd_channelLock h;
  cy_lock : hd_chunkLock h' = Some (x, payload_chunk (hd_req h));
  cy_buffer : hd_remoteBuf h' = forward_buffer (hd_req h);
  cy_result : result_ok (hd_updateResult h') = true /\ io_updateVer (hd_updateResult h') = v;
  cy_commit : hd_commitIO h' = mkCommitIO (uio_key (ur_payload (hd_req h))) v false 0 false false
}.

(** The chunk already has the version of the request, not committed. *)
Definition stale (req : UpdateReq) (s s' : ChunkStore) (v : Z) : Prop :=
  cur s' (payload_chunk req) = cur s (payload_chunk req) /\ content s' (payload_chunk req) = content s (payload_chunk req)
  /\ not_dirty s (payload_chunk req) /\ v = uio_updateVer (ur_payload req) /\ 0 < v
  /\ (old_version s (payload_chunk req)).2 < v <= (old_version s (payload_chunk req)).1.

Definition chunk_locked (x : Handle) (req : UpdateReq) (sv : Server) : Server :=
  set_sv_chunkLocks ({[(x, payload_chunk req)]} ∪ sv_chunkLocks sv) sv.

Definition locked_post (h : Handler) (x : Handle) (o : StorageTarget) (sv : Server) (out : outcome (IOResult + Handler)) (sv' : Server) : Prop :=
  let req := hd_req h in
  let s := sto_store o in
  match out with
  | Ok (inr h') => exists s' v, store_changed x s' (chunk_locked x req sv) sv' /\ SInv s' /\ others_kept (payload_chunk req) s s'
      /\ (wrote req s s' v \/ stale req s s' v) /\ carried h h' x v
  | Ok (inl r) => exists s' sv1, store_changed x s' (chunk_locked x req sv) sv1 /\ SInv s' /\ others_kept (payload_chunk req) s s'
      /\ unwritten (payload_chunk req) s s'
      /\ finished chainId x req (Some (x, payload_chunk req)) (sto_generationId o) r sv1 sv'
      /\ (refused r \/ result_ok r = true /\ io_updateVer r = uio_updateVer (ur_payload req)
          /\ 0 < uio_updateVer (ur_payload req) <= (old_version s (payload_chunk req)).2 /\ not_dirty s (payload_chunk req))
  | Err _ => False
  | _ => True
  end.

Lemma changed_object x s' sv sv' o :
  store_changed x s' sv sv' -> sg_objects (sv_storage sv) !! x = Some o -> sg_objects (sv_storage sv') !! x = Some (set_sto_store s' o).
Proof. intros [(o1 & E1 & ->) _ _ _ _ _] E. rewrite E in E1. injection E1 as ->. apply lookup_insert_eq. Qed.

Lemma handle_locked_ok env h x o head next sv :
  sizes_fit (svc_store config) -> sane chainId (hd_req h) -> routed_as chainId x head next sv ->
  tg_storageTarget (hd_target h) = Some x -> hd_reliable h = true -> hd_channelLock h = Some (x, chan_key (hd_req h)) ->
  sg_objects (sv_storage sv) !! x = Some o -> SInv (sto_store o) -> roomy (payload_chunk (hd_req h)) (sto_store o) ->
  transfer_ok (hd_req h) (env_transfer env) ->
  runs (handle_locked config env h) sv (locked_post h x o sv).
Proof.
  intros Hsize Hs Hrt Hx Hrel Hch Ho HS Hroom Htr. unfold handle_locked, chunk_lock, handle_of. rewrite Hx. do 5 mstep. cbn [hd_req set_hd_chunkLock]. set (req := hd_req h) in *.
  do 2 mstep. fold (chunk_locked x req sv). set (sv0 := chunk_locked x req sv). unfold getTargetOf. do 3 mstep.
  pose proof (sn_chain _ _ Hs) as Hc. fold req in Hc.
  change (tm_getByChainId (sg_map (sv_storage sv0))) with (tm_getByChainId (sg_map (sv_storage sv))).
  assert (forall h1 s' sv1 r, hd_req h1 = req -> tg_storageTarget (hd_target h1) = Some x -> hd_reliable h1 = true ->
    hd_channelLock h1 = Some (x, chan_key req) -> hd_chunkLock h1 = Some (x, payload_chunk req) ->
    store_changed x s' sv0 sv1 -> SInv s' -> others_kept (payload_chunk req) (sto_store o) s' -> unwritten (payload_chunk req) (sto_store o) s' ->
    (refused r \/ result_ok r = true /\ io_updateVer r = uio_updateVer (ur_payload req)
          /\ 0 < uio_updateVer (ur_payload req) <= (old_version (sto_store o) (payload_chunk req)).2 /\ not_dirty (sto_store o) (payload_chunk req)) ->
    runs (r' ← handle_end h1 r; mret (inl r')) sv1 (locked_post h x o sv)) as Hend.
  { intros h1 s' sv1 r E1 E2 E3 E4 E5 Hsc HS' Hoth Hun Hr. mstep. eapply runs_mono.
    - apply (handle_end_ok h1 x (set_sto_store s' o)); [by rewrite E1|done|by apply (changed_object _ _ sv0)|done|by rewrite E1].
    - intros ? sv2 [-> Hfin]. rewrite E1, E5 in Hfin. msteps. exists s', sv1. done. }
  destruct (tm_getByChainId _ _ _) as [target|c| |] eqn:Et.
  2-4: apply (Hend _ (sto_store o)); try done; [by apply store_unchanged|by left|left].
  2: { apply plain_refused with c; [done|]. unfold tm_getByChainId, tm_getTargetId, tm_getTarget in Et. repeat case_match; by simplify_eq. }
  2-3: done.
  destruct (Hrt _ _ _ Et Hc) as (Hxt & _). msteps. eapply runs_mono; [by apply (doUpdate_ok _ _ _ x o)|].
  intros [[r buf]|c| |] sv1 Hpost; cbv beta iota delta [andThen]; try done. destruct Hpost as (s' & Hsc & HS' & Hoth & Hpost).
  cbn [fst snd]. unfold update_outcome. destruct (io_lengthInfo r) as [n|c| |] eqn:El; try done.
  - destruct Hpost as [Hw ->]. destruct (uio_updateVer (ur_payload req) =? 0) eqn:E0; [|destruct (_ =? io_updateVer r) eqn:E1].
    + mstep. exists s', (io_updateVer r). split_and!; [done|done|done|by left|]. split; cbn; try done; [by unfold result_ok; rewrite El|].
      unfold isRemove at 1. cbn. fold (isRemove (ur_payload req)). by rewrite (sane_not_remove _ _ Hs).
    + apply Z.eqb_eq in E1. mstep. exists s', (io_updateVer r). split_and!; [done|done|done|by left|]. rewrite <-E1.
      assert (req = set_updateVer (uio_updateVer (ur_payload req)) req) as Ereq by (by destruct req as [[] ? ? ? ?]).
      split; cbn; try done; [by unfold result_ok; rewrite El|]. by rewrite (sane_not_remove _ _ Hs).
    + destruct (wr_fits _ _ _ _ Hw) as [_ Hf]. apply Z.eqb_neq in E0, E1. pose proof (sn_version _ _ Hs) as Hsv. fold req in Hsv. lia.
  - unfold result_code. rewrite El. destruct Hpost as [Hun Hcode]. destruct (c =? StorageCode_kChunkCommittedUpdate) eqn:E1.
    + apply Z.eqb_eq in E1. subst c. destruct Hcode as [?|[(Hcur & Hnd & Hv & [[_ Hle]|[? _]]) _]]; [done| |done].
      apply (Hend _ s'); try done. right. done.
    + destruct (c =? StorageCode_kChunkStaleUpdate) eqn:E2.
      * apply Z.eqb_eq in E2. subst c. destruct Hcode as [?|[(Hcur & Hnd & Hv & [[? _]|[_ Hle]]) ->]]; [done|done|].
        mstep. exists s', (uio_updateVer (ur_payload req)).
        assert (content s' (payload_chunk req) = content (sto_store o) (payload_chunk req)) as Hct.
        { destruct Hun as [[_ ?]|(m & Hm & Hd & _)]; [done|]. rewrite Hcur in Hm. by apply Hnd in Hm. }
        split_and!; [done|done|done|right; done|].
        assert (req = set_updateVer (uio_updateVer (ur_payload req)) req) as Ereq by (by destruct req as [[] ? ? ? ?]).
        split; cbn; try done. by rewrite (sane_not_remove _ _ Hs).
      * apply Z.eqb_neq in E1, E2. apply (Hend _ s'); try done. left. apply (plain_refused r c); [done|].
        destruct Hcode as [|[(_ & _ & _ & [[? _]|[? _]]) _]]; done.
Qed.

(** *** Reads *)

Lemma read_job_eq x ct ru readIO sv o :
  sg_objects (sv_storage sv) !! x = Some o ->
  let res := aio_read ct false ru readIO (mkJobState (sto_store o) IOResult_default) in
  read_job ct ru (x, readIO) sv
  = (match res.1 with
     | Ok (n, data) => Ok (set_io_lengthInfo (Ok n) (js_result res.2), data)
     | Err c => Ok (set_io_lengthInfo (Err c) (js_result res.2), [])
     | Fatal => Fatal
     | Pending => Pending
     end, set_sv_storage (set_sg_objects (<[x := set_sto_store (js_store res.2) o]> (sg_objects (sv_storage sv))) (sv_storage sv)) sv).
Proof.
  intros Ho res. unfold read_job, onStorage, zoom, onObject. cbn [fst snd]. rewrite Ho. fold res. by destruct res as [out js].
Qed.

(** What a read that succeeds shows: the bytes of a committed version. *)
Definition read_shows (readIO : ReadIO) (s : ChunkStore) (r : IOResult) (data : bytes) : Prop :=
  exists m, cur s (gk_chunkId (rio_key readIO)) = Some m /\ cm_chunkState m = CHUNK_COMMIT /\ cm_commitVer m = cm_updateVer m
    /\ io_updateVer r = cm_updateVer m
    /\ data = take (Z.to_nat (rio_length readIO)) (drop (Z.to_nat (rio_offset readIO)) (default [] (content s (gk_chunkId (rio_key readIO))))).

Lemma batchRead_ok readIO flags ct alloc link added post x o head next sv :
  routed_as chainId x head next sv -> sg_objects (sv_storage sv) !! x = Some o -> SInv (sto_store o) ->
  servable sv -> read_wf readIO -> vc_chainId (gk_vChainId (rio_key readIO)) = chainId -> committed_read flags ->
  runs (batchRead config alloc link [] [added] post (mkBatchReadReq [readIO] flags ct)) sv (fun out sv' =>
    match out with
    | Ok res => exists s', store_changed x s' sv sv' /\ calm (sto_store o) s'
        /\ forall r data, res = Ok [(r, data)] -> result_ok r = true -> read_shows readIO (sto_store o) r data
    | _ => True
    end).
Proof.
  intros Hrt Ho HS Hsv Hw Hc (Hf1 & Hf2 & Hf3). unfold batchRead. do 3 mstep. cbn [br_payloads br_featureFlags br_checksumType read_targets].
  assert (forall res, (forall r data, res <> Ok [(r, data)]) -> exists s', store_changed x s' sv sv /\ calm (sto_store o) s'
        /\ forall r data, res = Ok [(r, data)] -> result_ok r = true -> read_shows readIO (sto_store o) r data) as Hnone.
  { intros res Hres. exists (sto_store o). split_and!; [by apply store_unchanged|by apply calm_refl|]. intros r data E. by apply Hres in E. }
  destruct (read_target config _ readIO) as [x'|c| |] eqn:Et; cbn [omap_outcome]; [|mstep; by apply Hnone|done|mstep; by apply Hnone].
  assert (x' = x) as ->.
  { unfold read_target in Et. destruct (tm_getByChainId _ _ _) as [t|c| |] eqn:Eg; try done.
    destruct (Hrt _ _ _ Eg Hc) as (Hx & _). rewrite Hx in Et. repeat case_match; by simplify_eq. }
  destruct alloc as [u|c| |]; [|mstep; by apply Hnone..]. mstep. rewrite Hf1, Hf2, Hf3, orb_false_r. cbn [read_jobs]. mstep.
  eapply runs_of_eq; [by apply (read_job_eq _ _ _ _ _ o)|]. pose proof (aio_read_ok ct false false readIO (sto_store o) IOResult_default HS Hw (Hsv _ _ Ho)) as Hok.
  unfold runs in Hok. destruct (aio_read _ _ _ _ _) as [out js]. cbn [fst snd] in *. destruct Hok as [Hcalm Hok].
  set (sv1 := set_sv_storage _ sv). assert (store_changed x (js_store js) sv sv1) as Hch by (split; [exists o; done|by intros v a t|done..]).
  assert (forall r0 r data, result_ok r0.1 = false -> transferred post r0 added = (r, data) -> result_ok r = false) as Htr.
  { intros [r0 d0] r data Hr0. unfold transferred. rewrite Hr0. by destruct post; intros [= <- <-]. }
  assert (forall r0 r data, transferred post r0 added = (r, data) -> result_ok r = true -> (r, data) = r0) as Htr'.
  { intros r0 r data. unfold transferred. destruct post as [| | |]; [|by intros [= <- <-]..]. destruct (result_ok r0.1); [|congruence].
    destruct added; [congruence|by intros [= <- <-]..]. }
  destruct out as [[n data]|c| |]; cbv beta iota delta [andThen]; try done; do 3 mstep.
  - assert (read_shows readIO (sto_store o) (set_io_lengthInfo (Ok n) (js_result js)) data) as Hs.
    { destruct Hok as [(l & Hl & Hd) _ Hcm _]. destruct (Hcm eq_refl) as (m & Hm & Hst & Hv & Hu). exists m. split_and!; try done. by rewrite Hl. }
    destruct (BITFLAGS_CONTAIN flags SEND_DATA_INLINE); [|destruct link]; mstep; exists (js_store js); split_and!; try done; intros r data' E Hr.
    + by injection E as <- <-.
    + cbn in E. injection E as E. apply Htr' in E as [= -> ->]; done.
  - destruct (BITFLAGS_CONTAIN flags SEND_DATA_INLINE); [|destruct link]; mstep; exists (js_store js); split_and!; try done; intros r data' E Hr.
    + injection E as <- <-. done.
    + cbn in E. injection E as E. apply Htr in E; [congruence|done].
Qed.
End parts.

(** * Forwarding and commit of an update of a storage service

    The parts of [handleUpdate] after the local update: attempts to forward the
    request, answers, and the commit. *)

(** A request that has updated its chunk to version [v] and holds its locks. *)
Record in_progress (x : Handle) (v : Z) (h : Handler) : Prop := {
  ip_version : uio_updateVer (ur_payload (hd_req h)) = v;
  ip_target : tg_storageTarget (hd_target h) = Some x;
  ip_reliable : hd_reliable h = true;
  ip_channel : hd_channelLock h = Some (x, chan_key (hd_req h));
  ip_lock : hd_chunkLock h = Some (x, payload_chunk (hd_req h));
  ip_buffer : hd_remoteBuf h = forward_buffer (hd_req h);
  ip_result : result_ok (hd_updateResult h) = true /\ io_updateVer (hd_updateResult h) = v;
  ip_key : gk_chunkId (cio_key (hd_commitIO h)) = payload_chunk (hd_req h);
  ip_flags : cio_isForce (hd_commitIO h) = false /\ cio_isRemove (hd_commitIO h) = false /\ cio_isSyncing (hd_commitIO h) = false
}.

(** The message that carries a request on. *)
Record message_of (chainId : ChainId) (req m : UpdateReq) : Prop := {
  mo_sane : sane chainId m;
  mo_op : op_of m = op_of req;
  mo_version : uio_updateVer (ur_payload m) = uio_updateVer (ur_payload req);
  mo_client : uo_fromClient (ur_options m) = false
}.

Section forward.
Context {HCrc : Crc} {HLaws : CrcLaws} (config : ServiceConfig) (chainId : ChainId).
#[local] Instance forward_persist : Persist := sc_force_persist (svc_store config).
Context (h : Handler) (x : Handle) (v : Z) (o : StorageTarget) (head : bool) (next : option Z) (sv : Server).
Hypothesis Hs : sane chainId (hd_req h).
Hypothesis Hv : 0 < v.
Hypothesis Hrt : routed_as chainId x head next sv.
Hypothesis Ho : sg_objects (sv_storage sv) !! x = Some o.
Hypothesis HS : SInv (sto_store o).
Hypothesis Hnd : not_dirty (sto_store o) (payload_chunk (hd_req h)).
Hypothesis Hiu : in_use (sto_store o) (payload_chunk (hd_req h)).
Hypothesis Hov : old_version (sto_store o) (payload_chunk (hd_req h)) = (v, v - 1).

(** The end of a request: it committed its version, if [may_commit], or not. *)
Definition end_post (may_commit : Prop) (r : IOResult) (sv' : Server) : Prop :=
  let id := payload_chunk (hd_req h) in
  exists s' sv1, store_changed x s' sv sv1 /\ SInv s' /\ others_kept id (sto_store o) s' /\ content s' id = content (sto_store o) id
    /\ finished chainId x (hd_req h) (Some (x, id)) (sto_generationId o) r sv1 sv'
    /\ (refused r /\ cur s' id = cur (sto_store o) id
        \/ may_commit /\ result_ok r = true /\ io_updateVer r = v /\ old_version s' id = (v, v) /\ not_dirty s' id /\ in_use s' id).

Definition progress_post (may_commit : Prop) (out : outcome Progress) (sv' : Server) : Prop :=
  match out with
  | Ok (Done r) => end_post may_commit r sv'
  | Ok (Send a m h') => sv' = sv /\ next = Some a /\ message_of chainId (hd_req h) m /\ in_progress x v h' /\ hd_req h' = hd_req h
  | Ok (Wait h' | Retry h') => sv' = sv /\ in_progress x v h' /\ hd_req h' = hd_req h
  | Err _ => False
  | _ => True
  end.

Lemma end_ok may_commit h1 r s' sv1 :
  in_progress x v h1 -> hd_req h1 = hd_req h -> store_changed x s' sv sv1 -> SInv s' -> others_kept (payload_chunk (hd_req h)) (sto_store o) s' ->
  content s' (payload_chunk (hd_req h)) = content (sto_store o) (payload_chunk (hd_req h)) ->
  (refused r /\ cur s' (payload_chunk (hd_req h)) = cur (sto_store o) (payload_chunk (hd_req h))
   \/ may_commit /\ result_ok r = true /\ io_updateVer r = v /\ old_version s' (payload_chunk (hd_req h)) = (v, v)
      /\ not_dirty s' (payload_chunk (hd_req h)) /\ in_use s' (payload_chunk (hd_req h))) ->
  runs (handle_end h1 r) sv1 (fun out sv' => match out with Ok r => end_post may_commit r sv' | _ => False end).
Proof.
  intros Hp Er Hsc HS' Hoth Hct Hr. eapply runs_mono.
  - apply (handle_end_ok chainId h1 x (set_sto_store s' o)); [rewrite Er; apply Hs|apply Hp|by eapply changed_object|apply Hp|apply Hp].
  - intros ? sv2 [-> Hfin]. rewrite (ip_lock _ _ _ Hp), Er in Hfin. exists s', sv1. done.
Qed.

Lemma handle_finish_ok h1 fr :
  in_progress x v h1 -> hd_req h1 = hd_req h ->
  runs (finish config h1 fr) sv (progress_post (result_ok fr = true \/ result_code fr = StorageCode_kNoSuccessorTarget)).
Proof.
  intros Hp Er. unfold finish, handle_finish. mstep. set (id := payload_chunk (hd_req h)) in *.
  set (may := result_ok fr = true \/ _).
  assert (forall m : M Server IOResult, runs m sv (fun out sv' => match out with Ok r => end_post may r sv' | Err _ => False | _ => True end) ->
    runs m sv (andThen (fun r => mret (Done r)) (progress_post may))) as Hbind.
  { intros m Hm. eapply runs_mono; [exact Hm|]. by intros [r|c| |] sv' H. }
  assert (forall r, refused r -> runs (handle_end h1 r) sv (fun out sv' => match out with Ok r => end_post may r sv' | Err _ => False | _ => True end)) as Hfail.
  { intros r Hr. eapply runs_mono; [apply (end_ok may h1 r (sto_store o)); try done; [by apply store_unchanged|by left]|]. by intros []. }
  apply Hbind. unfold commit_outcome. destruct (negb (cio_commitVer (hd_commitIO h1) =? io_updateVer (hd_updateResult h1))) eqn:Ev; [by apply Hfail|].
  apply negb_false_iff, Z.eqb_eq in Ev. rewrite (proj2 (ip_result _ _ _ Hp)) in Ev. destruct (ip_flags _ _ _ Hp) as (Hf1 & Hf2 & Hf3). rewrite Hf2. cbn [andb].
  assert (may -> runs (r ← doCommit config (hd_req h1) (hd_commitIO h1) (hd_target h1);
      let done (r : IOResult) := handle_end h1 (set_io_checksum (io_checksum (hd_updateResult h1)) (set_io_lengthInfo (io_lengthInfo (hd_updateResult h1)) r)) in
      if result_ok r then done r
      else if result_code r =? StorageCode_kChunkStaleCommit then done (set_io_commitVer (io_updateVer (hd_updateResult h1)) r)
      else handle_end h1 r) sv (fun out sv' => match out with Ok r => end_post may r sv' | Err _ => False | _ => True end)) as Hcommit.
  { intros Hmay. mstep. unfold doCommit. rewrite Er, (sn_bypass _ _ Hs). unfold handle_of. rewrite (ip_target _ _ _ Hp). do 3 mstep.
    eapply runs_of_eq; [by apply (runJob_eq _ _ _ _ o)|]. cbv zeta.
    pose proof (local_commit_ok (svc_store config) (hd_req h) (hd_commitIO h1) (sto_store o) v HS ltac:(by rewrite (ip_key _ _ _ Hp), Er) Hf1 Hf2 Ev Hnd Hiu Hov Hv) as Hok.
    cbv zeta in Hok. set (js := updateChunk _ _ _) in *. destruct Hok as (HS' & Hoth & Hct & Hok). set (sv1 := set_sv_storage _ sv).
    assert (store_changed x (js_store js) sv sv1) as Hch by (split; [exists o; done|by intros w a t|done..]).
    destruct (io_lengthInfo (js_result js)) as [n|c| |] eqn:El; cbv beta iota delta [andThen]; try done.
    - unfold result_ok at 1. rewrite El. destruct Hok as (Hov' & Hnd' & Hiu' & Euv).
      eapply runs_mono; [apply (end_ok may h1 _ (js_store js)); try done|by intros []]. right. split_and!; try done. cbn.
      unfold result_ok. cbn. fold (result_ok (hd_updateResult h1)). apply Hp.
    - destruct Hok as [Hcur Hpl]. specialize (Hpl c eq_refl). unfold result_ok at 1, result_code. rewrite El.
      destruct (c =? StorageCode_kChunkStaleCommit) eqn:Es; [apply Z.eqb_eq in Es; by subst c|].
      eapply runs_mono; [apply (end_ok may h1 _ (js_store js)); try done|by intros []]. left. split; [by apply (plain_refused _ c)|done]. }
  destruct (result_ok fr) eqn:Efr.
  - destruct (bool_decide (io_checksum fr = _)); [apply Hcommit; by left|by apply Hfail].
  - destruct (result_code fr =? StorageCode_kNoSuccessorTarget) eqn:Ec; [apply Hcommit; right; by apply Z.eqb_eq|].
    apply Hfail. split; [done|]. by apply Z.eqb_neq.
Qed.

Lemma post_weaken (P Q : Prop) out sv' : (P -> Q) -> progress_post P out sv' -> progress_post Q out sv'.
Proof.
  intros HPQ. destruct out as [[r|a m h'|h'|h']|c| |]; cbn; try done. intros (s' & sv1 & ? & ? & ? & ? & ? & Hr). exists s', sv1. split_and!; try done.
  destruct Hr as [?|(? & ?)]; [by left|right; split; [by apply HPQ|done]].
Qed.

Lemma finish_refused (P : Prop) h1 r :
  in_progress x v h1 -> hd_req h1 = hd_req h -> refused r -> runs (finish config h1 r) sv (progress_post P).
Proof.
  intros Hp Er [Hr1 Hr2]. eapply runs_mono; [by apply handle_finish_ok|]. intros out sv' Hpost. eapply post_weaken; [|exact Hpost].
  intros [E|E]; congruence.
Qed.

Lemma retry_progress h1 n : in_progress x v h1 -> in_progress x v (set_hd_retryCount n h1).
Proof. by intros []. Qed.
Lemma target_progress h1 target : in_progress x v h1 -> tg_storageTarget target = Some x -> in_progress x v (set_hd_target target h1).
Proof. by intros [] ?. Qed.

Lemma routing_refused vc allow c : tm_getByChainId (sg_map (sv_storage sv)) vc allow = Err c -> refused (IOResult_error c).
Proof.
  intros E. apply (plain_refused _ c); [done|]. unfold tm_getByChainId, tm_getTargetId, tm_getTarget in E. repeat case_match; by simplify_eq.
Qed.

Lemma wait_round_ok (P : Prop) elapsed h1 :
  in_progress x v h1 -> hd_req h1 = hd_req h -> runs (wait_round config elapsed h1) sv (progress_post P).
Proof.
  intros Hp Er. unfold wait_round. do 3 mstep. destruct (elapsed || sv_stopped sv); [mstep; split_and!; [done|by apply retry_progress|done]|].
  unfold getTargetOf. do 3 mstep. destruct (tm_getByChainId _ _ _) as [target|c| |] eqn:Et.
  - mstep. assert (in_progress x v (set_hd_target target h1)) as Ht.
    { apply target_progress; [done|]. eapply fewer_handle; [done|exact Et|rewrite Er; apply Hs]. }
    destruct (tg_successor target); [done|]. split_and!; [done|by apply retry_progress|done].
  - apply finish_refused; [done|done|by eapply routing_refused].
  - by apply finish_refused.
  - by apply finish_refused.
Qed.

Lemma attempt_failed_ok (P : Prop) env h1 r :
  in_progress x v h1 -> hd_req h1 = hd_req h -> refused r -> runs (attempt_failed config env h1 r) sv (progress_post P).
Proof.
  intros Hp Er Hr. unfold attempt_failed. rewrite (proj2 (Z.eqb_neq _ _) (proj2 Hr)). destruct (env_last env); [by apply finish_refused|].
  pose proof (retry_progress h1 (u32 (hd_retryCount h1 + 1)) Hp) as Hp1.
  destruct (result_code r =? _); [mstep; done|]. by apply wait_round_ok.
Qed.

Lemma forward_attempt_ok env h1 :
  in_progress x v h1 -> hd_req h1 = hd_req h -> runs (forward_attempt config env h1) sv (progress_post (next = None)).
Proof.
  intros Hp Er. unfold forward_attempt. do 3 mstep. destruct (sv_stopped sv); [by apply finish_refused|].
  unfold getTargetOf. do 3 mstep. destruct (tm_getByChainId _ _ _) as [target|c| |] eqn:Et.
  2: { apply finish_refused; [done|done|by eapply routing_refused]. }
  2-3: by apply finish_refused.
  destruct (Hrt _ _ _ Et ltac:(rewrite Er; apply Hs)) as (Hx & _ & Hnext). pose proof (target_progress h1 target Hp Hx) as Hp1.
  assert (next = None /\ tg_successor target = None \/ exists a su, next = Some a /\ tg_successor target = Some su
    /\ fti_publicState (su_targetInfo su) <> PS_SYNCING /\ forall a', getSuccessorAddr target = Ok a' -> a' = a) as Hcases.
  { clear -Hnext. destruct next as [a|]; [right|by left]. destruct Hnext as (su & ? & ? & ?). eauto 10. }
  destruct (tg_successor target) as [su|] eqn:Esu.
  2: { destruct Hcases as [[En _]|(a & su & _ & ? & _)]; [|done]. eapply runs_mono.
       - apply handle_finish_ok; [|done]. by destruct Hp1.
       - intros out sv' Hpost. eapply post_weaken; [|exact Hpost]. done. }
  destruct Hcases as [[_ ?]|(a & su' & En & [= <-] & Hns & Haddr)]; [done|]. mstep. unfold doForward_begin.
  rewrite (bool_decide_eq_false_2 (fti_publicState _ = _)) by done. cbn [andb]. rewrite andb_false_r. cbn [andb]. do 4 mstep. cbn [fst snd].
  set (h2 := set_hd_commitIO _ (set_hd_target target h1)). assert (in_progress x v h2) as Hp2.
  { destruct Hp1 as [? ? ? ? ? ? ? ? (?&?&?)]. split; try done. }
  cbn [hd_req set_hd_target hd_remoteBuf hd_retryCount]. rewrite Er.
  set (m := set_ur_retryCount _ _). assert (message_of chainId (hd_req h) m) as Hm.
  { destruct Hs as [S1 S2 S3 S4 S5 S6 S7 S8 S9 S10 S11]. assert (hd_remoteBuf h1 = forward_buffer (hd_req h)) as Hb by (rewrite <-Er; apply Hp).
    split; [| |done|done].
    - split; cbn; try done. intros Hw Hi. rewrite Hb. unfold forward_buffer. change (inline (hd_req h) = false) in Hi. rewrite Hi.
      change (isWrite (ur_payload (hd_req h)) = true) in Hw. rewrite Hw. by apply S9.
    - unfold op_of. cbn. f_equal. change (isWrite (set_uio_key _ _)) with (isWrite (ur_payload (hd_req h))). destruct (isWrite (ur_payload (hd_req h))) eqn:Ew; [|done].
      f_equal. unfold req_data, inline. cbn. rewrite Hb. unfold forward_buffer, inline. rewrite Ew. by destruct (BITFLAGS_CONTAIN (ur_featureFlags (hd_req h)) SEND_DATA_INLINE). }
  destruct (getSuccessorAddr target) as [a'|c| |] eqn:Ea.
  - mstep. rewrite (Haddr _ eq_refl). split_and!; [done|done|done| |done]. by destruct Hp2.
  - apply attempt_failed_ok; [done|done|]. apply (plain_refused _ c); [done|]. unfold getSuccessorAddr in Ea. rewrite Esu in Ea. repeat case_match; by simplify_eq.
  - by apply attempt_failed_ok.
  - by apply attempt_failed_ok.
Qed.

Lemma forward_reply_ok env h1 reply :
  in_progress x v h1 -> hd_req h1 = hd_req h ->
  match reply with Ok r => result_ok r = false -> refused r | Err c => outside_code c | _ => False end ->
  runs (forward_reply config env h1 reply) sv (progress_post (exists r, reply = Ok r /\ result_ok r = true)).
Proof.
  intros Hp Er Hreply. unfold forward_reply. mstep. mstep. destruct (ip_flags _ _ _ Hp) as (Hf1 & Hf2 & Hf3). rewrite Hf3.
  assert (forall r (P : Prop), (result_ok r = false -> refused r) -> (result_ok r = true -> P) ->
    runs (let '(commitIO, r) := forward_commitIO (hd_target h1) r (hd_commitIO h1) in
          if result_ok r then finish config (set_hd_commitIO commitIO h1) r else attempt_failed config env (set_hd_commitIO commitIO h1) r) sv
      (progress_post P)) as Hgo.
  { intros r P Hr HP. unfold forward_commitIO. destruct (result_ok r) eqn:Eok.
    - set (h2 := set_hd_commitIO _ h1). assert (in_progress x v h2) as Hp2 by (destruct Hp; by split).
      destruct (_ <? _); [by apply attempt_failed_ok|]. rewrite Eok. eapply runs_mono; [by apply (handle_finish_ok h2)|].
      intros out sv' Hpost. eapply post_weaken; [|exact Hpost]. intros _. by apply HP.
    - rewrite Eok. apply attempt_failed_ok; [destruct Hp; by split|done|by apply Hr]. }
  destruct reply as [r|c| |]; try done; cbn [doForward_end].
  - destruct (result_ok r) eqn:Eok.
    + mstep. destruct (_ <? _); [apply Hgo; [by intros _|by cbn]|]. apply Hgo; [congruence|]. intros _. eauto.
    + specialize (Hreply eq_refl). destruct (result_code r =? _); [|mstep; apply Hgo; [done|congruence]].
      destruct (negb _ && _); [by mstep|]. destruct (bool_decide _); [|by mstep]. mstep. apply Hgo; [done|congruence].
  - mstep. apply Hgo; [|by cbn]. intros _. apply (plain_refused _ c); [done|by apply outside_plain].
Qed.
End forward.
