(* ===== verification/ReplicationInv.v ===== *)
(** * The state of a chain of services and its specification

    [Rel] relates the services of a chain, the requests in them, the messages
    and the log of the clients to the specification of every chunk. *)

From Stdlib Require Import ZArith Lia.
From stdpp Require Import base gmap functions list.
From S2P Require Import Prelude StatusCode Bytes MgmtdTypes StorageTypes Checksums ChunkFiles ChunkMetaStore MetaCreate ChunkReplica TargetMap StorageService ReplicaInv ReplicaData ReplicaUpdate ReplicaCommit ReplicaTheorems ReplicationSpec ReplicationWorld ServiceLemmas ServiceParts.

Abbreviation Specs := (ChunkId -> Spec).

(** Update [op] has version [v]. *)
Definition hist_at (A : Specs) (v : Z) (op : Op) : Prop := 0 < v /\ sp_hist (A (op_chunk op)) !! Z.to_nat (v - 1) = Some op.

(** Specifications only grow. *)
Definition grows (A A' : Specs) : Prop :=
  forall id, sp_hist (A id) `prefix_of` sp_hist (A' id)
    /\ forall j, (sp_applied (A id) j <= sp_applied (A' id) j)%nat /\ (sp_committed (A id) j <= sp_committed (A' id) j)%nat.

Lemma grows_refl A : grows A A.
Proof. by intros id. Qed.

Lemma hist_grows A A' v op : grows A A' -> hist_at A v op -> hist_at A' v op.
Proof. intros Hg [Hv H]. split; [done|]. destruct (Hg (op_chunk op)) as [Hp _]. by eapply prefix_lookup_Some. Qed.

(** The chunk of a replica is what the specification says of replica [i]. *)
Definition chunk_rel (i : nat) (s : ChunkStore) (id : ChunkId) (sp : Spec) : Prop :=
  (old_version s id).2 = Z.of_nat (sp_committed sp i)
  /\ (not_dirty s id -> (old_version s id).1 = Z.of_nat (sp_applied sp i)
      /\ default [] (content s id) = replay (take (sp_applied sp i) (sp_hist sp)) /\ in_use s id).

Section rel.
Context {HCrc : Crc} {HLaws : CrcLaws} (config : ServiceConfig) (chainId : ChainId) (chain : list Z) (x : nat -> Handle) (gen : nat -> Z).
Context (issued : UpdateReq -> Prop).
#[local] Instance rel_persist : Persist := sc_force_persist (svc_store config).

Abbreviation n := (length chain).

(** The request of an update was sent by a client. *)
Definition issued_op (log : list Event) (op : Op) : Prop := exists r, EInvoke r ∈ log /\ op_of r = op.

Record server_ok (A : Specs) (i : nat) (sv : Server) : Prop := {
  so_routed : routed_as chainId (x i) (bool_decide (i = O)) (chain !! S i) sv;
  so_store : exists o, sg_objects (sv_storage sv) !! x i = Some o /\ sto_generationId o = gen i /\ SInv (sto_store o)
    /\ forall id, chunk_rel i (sto_store o) id (A id)
}.

(** A cached result belongs to an update of its channel. *)
Definition cache_ok (A : Specs) (i : nat) (sv : Server) : Prop :=
  forall k, let e := cached_at chainId sv k in 0 < rr_channelSeqnum e ->
    rr_generationId e = gen i
    /\ (result_ok (rr_updateResult e) = true -> exists op, op_key op = (k, rr_channelSeqnum e) /\ hist_at A (io_updateVer (rr_updateResult e)) op
          /\ io_updateVer (rr_updateResult e) <= Z.of_nat (sp_committed (A (op_chunk op)) i))
    /\ (rr_succUpdateVer e <> 0 -> exists op, op_key op = (k, rr_channelSeqnum e) /\ hist_at A (rr_succUpdateVer e) op).

(** A request that waits for its chunk: new, or with a version. *)
Definition waiting (A : Specs) (i : nat) (req : UpdateReq) : Prop :=
  let v := uio_updateVer (ur_payload req) in
  v = 0 /\ i = O /\ (forall id, op_key (op_of req) ∉ (op_key <$> sp_hist (A id)))
  \/ hist_at A v (op_of req) /\ forall j, i = S j -> v <= Z.of_nat (sp_applied (A (payload_chunk req)) j).

(** A request that has applied its update and not committed it. *)
Definition working (A : Specs) (i : nat) (sv : Server) (h : Handler) : Prop :=
  let v := uio_updateVer (ur_payload (hd_req h)) in
  let id := payload_chunk (hd_req h) in
  in_progress (x i) v h /\ hist_at A v (op_of (hd_req h))
  /\ Z.of_nat (sp_applied (A id) i) = v /\ Z.of_nat (sp_committed (A id) i) = v - 1
  /\ (x i, id) ∈ sv_chunkLocks sv /\ forall s, store_of sv (x i) = Some s -> not_dirty s id.

Definition phase_ok (A : Specs) (i : nat) (sv : Server) (messages : list (Z * UpdateReq)) (h : Handler) (ph : Phase) : Prop :=
  match ph with
  | PhLock => hd_chunkLock h = None /\ waiting A i (hd_req h)
  | PhForward | PhWait => working A i sv h
  | PhReply k => working A i sv h /\ exists a m, messages !! k = Some (a, m) /\ chain !! S i = Some a /\ message_of chainId (hd_req h) m
  end.

Definition origin_ok (i : nat) (messages : list (Z * UpdateReq)) (log : list Event) (req : UpdateReq) (origin : Origin) : Prop :=
  match origin with
  | FromClient r => op_of r = op_of req /\ EInvoke r ∈ log
  | FromMessage k => exists a m j, messages !! k = Some (a, m) /\ chain !! i = Some a /\ i = S j /\ op_of m = op_of req
                      /\ 0 < uio_updateVer (ur_payload m) /\ uio_updateVer (ur_payload m) = uio_updateVer (ur_payload req)
  end.

Record task_ok (A : Specs) (i : nat) (sv : Server) (messages : list (Z * UpdateReq)) (log : list Event) (t : Task) : Prop := {
  to_sane : sane chainId (hd_req (tk_handler t));
  to_issued : issued_op log (op_of (hd_req (tk_handler t)));
  to_reliable : hd_reliable (tk_handler t) = true;
  to_target : tg_storageTarget (hd_target (tk_handler t)) = Some (x i);
  to_channel : hd_channelLock (tk_handler t) = Some (x i, chan_key (hd_req (tk_handler t)));
  to_locked : (x i, chan_key (hd_req (tk_handler t))) ∈ sv_channelLocks sv;
  to_seqnum : rr_channelSeqnum (cached_at chainId sv (chan_key (hd_req (tk_handler t)))) <= ch_seqnum (tag_channel (ur_tag (hd_req (tk_handler t))));
  to_phase : phase_ok A i sv messages (tk_handler t) (tk_phase t);
  to_origin : origin_ok i messages log (hd_req (tk_handler t)) (tk_origin t)
}.

Definition message_ok (A : Specs) (log : list Event) (am : Z * UpdateReq) : Prop :=
  exists j, chain !! S j = Some am.1 /\ sane chainId am.2 /\ uo_fromClient (ur_options am.2) = false /\ issued_op log (op_of am.2)
    /\ hist_at A (uio_updateVer (ur_payload am.2)) (op_of am.2)
    /\ uio_updateVer (ur_payload am.2) <= Z.of_nat (sp_applied (A (payload_chunk am.2)) j).

(** The answer to message [k]. *)
Definition reply_ok (A : Specs) (messages : list (Z * UpdateReq)) (kr : nat * IOResult) : Prop :=
  exists a m j, messages !! kr.1 = Some (a, m) /\ chain !! S j = Some a
    /\ (result_ok kr.2 = true -> uio_updateVer (ur_payload m) <= Z.of_nat (sp_committed (A (payload_chunk m)) (S j)))
    /\ (result_ok kr.2 = false -> refused kr.2).

(** ** The log *)

(** An event of the log fits the histories. *)
Definition event_ok (A : Specs) (e : Event) : Prop :=
  match e with
  | EInvoke req => issued req
  | EAnswer req r => result_ok r = true -> hist_at A (io_updateVer r) (op_of req)
  | ERead rio v data => 0 <= v <= Z.of_nat (length (sp_hist (A (gk_chunkId (rio_key rio)))))
      /\ data = take (Z.to_nat (rio_length rio)) (drop (Z.to_nat (rio_offset rio)) (replay (take (Z.to_nat v) (sp_hist (A (gk_chunkId (rio_key rio)))))))
  end.

Record log_ok (A : Specs) (log : list Event) : Prop := {
  lo_events : forall e, e ∈ log -> event_ok A e;
  lo_seen : forall e id ver, e ∈ log -> event_version e = Some (id, ver) -> exists j, (j < n)%nat /\ ver <= Z.of_nat (sp_committed (A id) j);
  lo_latest : forall l1 e l2 id ver rio v data, log = l1 ++ e :: l2 -> event_version e = Some (id, ver) ->
    ERead rio v data ∈ l2 -> gk_chunkId (rio_key rio) = id -> ver <= v;
  lo_before : forall l1 e l2 id ver v op, log = l1 ++ e :: l2 -> event_version e = Some (id, ver) ->
    hist_at A v op -> op_chunk op = id -> v <= ver -> exists r, EInvoke r ∈ l1 /\ op_of r = op
}.

(** ** The relation *)

Record Rel (A : Specs) (w : World) : Prop := {
  rl_spec : forall id, spec_inv n (A id);
  rl_bound : forall id, Z.of_nat (length (sp_hist (A id))) < 2 ^ 32;
  rl_hist : forall id op, op ∈ sp_hist (A id) -> op_chunk op = id /\ issued_op (w_log w) op;
  rl_places : forall a sv, w_servers w !! a = Some sv -> exists i, chain !! i = Some a;
  rl_servers : forall i a, chain !! i = Some a -> exists sv, w_servers w !! a = Some sv /\ server_ok A i sv /\ cache_ok A i sv;
  rl_tasks : forall tid t, w_tasks w !! tid = Some t -> exists i sv, chain !! i = Some (tk_address t) /\ w_servers w !! tk_address t = Some sv
    /\ task_ok A i sv (w_messages w) (w_log w) t;
  rl_channels : forall tid tid' t t', w_tasks w !! tid = Some t -> w_tasks w !! tid' = Some t' -> tk_address t = tk_address t' ->
    chan_key (hd_req (tk_handler t)) = chan_key (hd_req (tk_handler t')) -> tid = tid';
  rl_chunks : forall tid tid' t t', w_tasks w !! tid = Some t -> w_tasks w !! tid' = Some t' -> tk_address t = tk_address t' ->
    tk_phase t <> PhLock -> tk_phase t' <> PhLock -> payload_chunk (hd_req (tk_handler t)) = payload_chunk (hd_req (tk_handler t')) -> tid = tid';
  rl_messages : forall am, am ∈ w_messages w -> message_ok A (w_log w) am;
  rl_replies : forall kr, kr ∈ w_replies w -> reply_ok A (w_messages w) kr;
  rl_log : log_ok A (w_log w);
  rl_once : forall a sv v op, chain !! O = Some a -> w_servers w !! a = Some sv -> hist_at A v op ->
    let e := cached_at chainId sv (op_key op).1 in
    (op_key op).2 < rr_channelSeqnum e \/ (op_key op).2 = rr_channelSeqnum e /\ rr_succUpdateVer e = v
    \/ exists tid t, w_tasks w !! tid = Some t /\ tk_address t = a /\ op_of (hd_req (tk_handler t)) = op
         /\ uio_updateVer (ur_payload (hd_req (tk_handler t))) = v
}.
End rel.

Arguments so_routed {_ _ _ _ _ _ _ _ _}.
Arguments so_store {_ _ _ _ _ _ _ _ _}.
Arguments to_sane {_ _ _ _ _ _ _ _ _}.
Arguments to_issued {_ _ _ _ _ _ _ _ _}.
Arguments to_reliable {_ _ _ _ _ _ _ _ _}.
Arguments to_target {_ _ _ _ _ _ _ _ _}.
Arguments to_channel {_ _ _ _ _ _ _ _ _}.
Arguments to_locked {_ _ _ _ _ _ _ _ _}.
Arguments to_seqnum {_ _ _ _ _ _ _ _ _}.
Arguments to_phase {_ _ _ _ _ _ _ _ _}.
Arguments to_origin {_ _ _ _ _ _ _ _ _}.
Arguments lo_events {_ _ _ _}.
Arguments lo_seen {_ _ _ _}.
Arguments lo_latest {_ _ _ _}.
Arguments lo_before {_ _ _ _}.
Arguments rl_spec {_ _ _ _ _ _ _ _ _}.
Arguments rl_bound {_ _ _ _ _ _ _ _ _}.
Arguments rl_places {_ _ _ _ _ _ _ _ _}.
Arguments rl_hist {_ _ _ _ _ _ _ _ _}.
Arguments rl_servers {_ _ _ _ _ _ _ _ _}.
Arguments rl_tasks {_ _ _ _ _ _ _ _ _}.
Arguments rl_channels {_ _ _ _ _ _ _ _ _}.
Arguments rl_chunks {_ _ _ _ _ _ _ _ _}.
Arguments rl_messages {_ _ _ _ _ _ _ _ _}.
Arguments rl_replies {_ _ _ _ _ _ _ _ _}.
Arguments rl_log {_ _ _ _ _ _ _ _ _}.
Arguments rl_once {_ _ _ _ _ _ _ _ _}.

(** * One step of one service of a chain

    What a step of one service has to keep so that [Rel] holds again: the other
    services, the other requests, the messages and the log are covered here. *)

Section frame.
Context {HCrc : Crc} {HLaws : CrcLaws} (config : ServiceConfig) (chainId : ChainId) (chain : list Z) (x : nat -> Handle) (gen : nat -> Z).
Context (issued : UpdateReq -> Prop).
#[local] Instance frame_persist : Persist := sc_force_persist (svc_store config).

Abbreviation n := (length chain).
Abbreviation Rel := (Rel config chainId chain x gen issued).
Abbreviation server_ok := (server_ok config chainId chain x gen).
Abbreviation cache_ok := (cache_ok chainId gen).
Abbreviation task_ok := (task_ok chainId chain x).
Abbreviation working := (working x).
Abbreviation log_ok := (log_ok chain issued).
Abbreviation message_ok := (message_ok chainId chain).
Abbreviation reply_ok := (reply_ok chain).

Hypothesis Hnodup : NoDup chain.
Hypothesis Hsame : forall r r', issued r -> issued r' -> tag_key (ur_tag r) = tag_key (ur_tag r') -> op_of r = op_of r'.

Lemma chain_index i j a : chain !! i = Some a -> chain !! j = Some a -> i = j.
Proof. intros H1 H2. by eapply NoDup_lookup. Qed.

Lemma chain_lt i a : chain !! i = Some a -> (i < n)%nat.
Proof. apply lookup_lt_Some. Qed.

(** A step of the specification of chunk [id] at replica [i]. *)
Record spec_move (i : nat) (id : option ChunkId) (chan : option ChanKey) (A A' : Specs) : Prop := {
  mv_step : forall id', A' id' = A id' \/ Some id' = id /\ spec_step n (A id') (A' id');
  mv_others : forall id' j, j <> i -> sp_applied (A' id') j = sp_applied (A id') j /\ sp_committed (A' id') j = sp_committed (A id') j;
  mv_grows : grows A A';
  mv_hist : forall id', sp_hist (A' id') = sp_hist (A id')
    \/ i = O /\ exists op, sp_hist (A' id') = sp_hist (A id') ++ [op] /\ Some (op_key op).1 = chan /\ op_chunk op = id'
}.

#[local] Arguments mv_step {_ _ _ _ _}.
#[local] Arguments mv_others {_ _ _ _ _}.
#[local] Arguments mv_grows {_ _ _ _ _}.
#[local] Arguments mv_hist {_ _ _ _ _}.

Lemma move_refl i id chan A : spec_move i id chan A A.
Proof. split; auto using grows_refl. Qed.

Lemma issued_issued A log op : log_ok A log -> issued_op log op -> exists r, issued r /\ op_of r = op.
Proof. intros Hl (r & Hr & <-). exists r. split; [|done]. apply (lo_events Hl _ Hr). Qed.

Lemma issued_key A log op op' : log_ok A log -> issued_op log op -> issued_op log op' -> op_key op = op_key op' -> op = op'.
Proof. intros Hl (r & Hr & <-)%(issued_issued A) (r' & Hr' & <-)%(issued_issued A) E; [|done..]. by apply Hsame. Qed.

Lemma hist_elem A v op : hist_at A v op -> op ∈ sp_hist (A (op_chunk op)).
Proof. intros [_ H]. by eapply list_elem_of_lookup_2. Qed.

(** A request has one version. *)
Lemma hist_once A w v v' op op' : Rel A w -> hist_at A v op -> hist_at A v' op' -> op_key op = op_key op' -> op = op' /\ v = v'.
Proof.
  intros HR H H' E. pose proof (rl_hist HR _ _ (hist_elem _ _ _ H)) as [_ Hi].
  pose proof (rl_hist HR _ _ (hist_elem _ _ _ H')) as [_ Hi'].
  assert (op = op') as <- by (eapply issued_key; [apply HR|done..]). split; [done|].
  pose proof (sv_once _ _ (rl_spec HR (op_chunk op))) as Hnd. destruct H as [Hv H], H' as [Hv' H'].
  assert (Z.to_nat (v - 1) = Z.to_nat (v' - 1)) as Ev.
  { eapply (NoDup_lookup (op_key <$> sp_hist (A (op_chunk op)))); [done|rewrite list_lookup_fmap, ?H, ?H'; done..]. }
  lia.
Qed.

Lemma hist_bound A v op : hist_at A v op -> 0 < v <= Z.of_nat (length (sp_hist (A (op_chunk op)))).
Proof. intros [Hv H%lookup_lt_Some]. lia. Qed.

Section step.
Context (i : nat) (id : option ChunkId) (chan : option ChanKey) (A A' : Specs) (Hmv : spec_move i id chan A A').

Lemma move_inv : (forall id', spec_inv n (A id')) -> forall id', spec_inv n (A' id').
Proof. intros H id'. destruct (mv_step Hmv id') as [->|[_ Hs]]; [done|]. by eapply spec_inv_step. Qed.

Lemma move_back v op : hist_at A' v op -> hist_at A v op
  \/ i = O /\ Some (op_key op).1 = chan /\ v = Z.of_nat (S (length (sp_hist (A (op_chunk op))))).
Proof.
  intros [Hv H]. destruct (mv_hist Hmv (op_chunk op)) as [E|(-> & op' & E & Hc & _)]; rewrite E in H; [by left|].
  apply lookup_app_Some in H as [H|[Hl H]]; [by left|right]. apply list_lookup_singleton_Some in H as [H ->]. split_and!; [done|done|lia].
Qed.

(** Another replica does not notice. *)
Lemma move_chunk_rel j s id' : (forall id', spec_inv n (A id')) -> (j < n)%nat -> j <> i -> chunk_rel j s id' (A id') -> chunk_rel j s id' (A' id').
Proof.
  intros Hsp Hj Hne [H1 H2]. destruct (mv_others Hmv id' j Hne) as [E1 E2]. split; [by rewrite E2|]. rewrite E1.
  intros Hd. destruct (H2 Hd) as (? & Hb & ?). split_and!; try done. rewrite Hb. f_equal.
  destruct (mv_grows Hmv id') as [[k ->] _]. rewrite take_app_le; [done|]. by apply (applied_length n).
Qed.

Lemma move_server j sv : (forall id', spec_inv n (A id')) -> (j < n)%nat -> j <> i -> server_ok A j sv -> server_ok A' j sv.
Proof.
  intros Hsp Hj Hne [Hr (o & Ho & Hg & HS & Hc)]. split; [done|]. exists o. split_and!; try done. intros id'. by apply move_chunk_rel.
Qed.

Lemma move_cache j sv : cache_ok A j sv -> cache_ok A' j sv.
Proof.
  intros Hc k e He. destruct (Hc k He) as (H1 & H2 & H3). split_and!; [done| |].
  - intros Hr. destruct (H2 Hr) as (op & E & Hh & Hle). exists op. split_and!; [done|by apply (hist_grows A); [apply Hmv|]|].
    destruct (mv_grows Hmv (op_chunk op)) as [_ Hm]. specialize (Hm j). fold e in Hle |- *. lia.
  - intros Hs. destruct (H3 Hs) as (op & E & Hh). exists op. split; [done|]. by apply (hist_grows A); [apply Hmv|].
Qed.

Lemma move_message log el am : message_ok A log am -> message_ok A' (log ++ el) am.
Proof.
  intros (j & H1 & H2 & H3 & (r & Hr & Er) & H4 & H5). exists j. split_and!; try done.
  - exists r. split; [|done]. apply elem_of_app. by left.
  - apply (hist_grows A); [apply Hmv|done].
  - destruct (mv_grows Hmv (payload_chunk am.2)) as [_ Hm]. specialize (Hm j). lia.
Qed.

Lemma move_reply messages em kr : reply_ok A messages kr -> reply_ok A' (messages ++ em) kr.
Proof.
  intros (a & m & j & H1 & H2 & H3 & H4). exists a, m, j. split_and!; try done; [by apply lookup_app_l_Some|].
  intros Hr. specialize (H3 Hr). destruct (mv_grows Hmv (payload_chunk m)) as [_ Hm]. specialize (Hm (S j)). lia.
Qed.

Lemma move_log log : (forall id', spec_inv n (A id')) -> log_ok A log -> log_ok A' log.
Proof.
  intros Hsp [L1 L2 L3 L4]. split; [| |done|].
  - intros e He. specialize (L1 e He). destruct e as [req|req r|rio v data]; cbn in *; [done| |].
    + intros Hr. apply (hist_grows A); [apply Hmv|by apply L1].
    + destruct (mv_grows Hmv (gk_chunkId (rio_key rio))) as [[k E] _]. rewrite E, length_app. destruct L1 as [L1 ->].
      split; [lia|]. by rewrite take_app_le by lia.
  - intros e id' ver He Hv. destruct (L2 e id' ver He Hv) as (j & Hj & Hle). exists j. split; [done|].
    destruct (mv_grows Hmv id') as [_ Hm]. specialize (Hm j). lia.
  - intros l1 e l2 id' ver v op E Hv Hh Hid Hle. apply move_back in Hh as [Hh|(_ & _ & Ev)]; [by eapply L4|].
    destruct (L2 e id' ver ltac:(subst log; apply elem_of_app; right; left) Hv) as (j & Hj & Hle').
    pose proof (sv_order _ _ (Hsp id') j Hj). pose proof (applied_length n _ (Hsp id') j Hj). subst id'. lia.
Qed.

(** The requests of other services and of other channels. *)
Lemma move_waiting j req :
  (j <> i \/ Some (chan_key req) <> chan) -> waiting A j req -> waiting A' j req.
Proof.
  intros Hne [(Hv & Hj & Hk)|[Hh Hle]].
  - left. split_and!; [done|done|]. intros id'. destruct (mv_hist Hmv id') as [->|(-> & op & -> & Hc & _)]; [done|].
    rewrite fmap_app, not_elem_of_app. split; [done|]. cbn. rewrite list_elem_of_singleton. intros E.
    destruct Hne as [Hne|Hne]; [done|]. apply Hne. rewrite <-Hc, <-E. done.
  - right. split; [apply (hist_grows A); [apply Hmv|done]|]. intros l El. specialize (Hle l El).
    destruct (mv_grows Hmv (payload_chunk req)) as [_ Hm]. specialize (Hm l). lia.
Qed.

Lemma move_working j sv sv' h :
  (j <> i /\ sv' = sv \/ Some (payload_chunk (hd_req h)) <> id
    /\ (x j, payload_chunk (hd_req h)) ∈ sv_chunkLocks sv'
    /\ (forall s', store_of sv' (x j) = Some s' -> not_dirty s' (payload_chunk (hd_req h)))) ->
  working A j sv h -> working A' j sv' h.
Proof.
  intros Hc (Hp & Hh & Ha & Hcm & Hl & Hnd).
  assert (Hhg : hist_at A' (uio_updateVer (ur_payload (hd_req h))) (op_of (hd_req h))) by (apply (hist_grows A); [apply Hmv|done]).
  destruct Hc as [[Hne ->]|(Hne & Hl' & Hnd')].
  - destruct (mv_others Hmv (payload_chunk (hd_req h)) j Hne) as [E1 E2]. split_and!; [done|done|by rewrite E1|by rewrite E2|done|done].
  - assert (A' (payload_chunk (hd_req h)) = A (payload_chunk (hd_req h))) as E by (by destruct (mv_step Hmv (payload_chunk (hd_req h))) as [|[? _]]).
    split_and!; [done|done|by rewrite E|by rewrite E|done|done].
Qed.

Lemma move_task j sv sv' messages em log el t :
  let k := chan_key (hd_req (tk_handler t)) in
  let c := payload_chunk (hd_req (tk_handler t)) in
  (j <> i /\ sv' = sv
   \/ Some k <> chan /\ ((x j, k) ∈ sv_channelLocks sv -> (x j, k) ∈ sv_channelLocks sv') /\ cached_at chainId sv' k = cached_at chainId sv k
      /\ (tk_phase t <> PhLock -> Some c <> id /\ ((x j, c) ∈ sv_chunkLocks sv -> (x j, c) ∈ sv_chunkLocks sv')
          /\ (forall s s', store_of sv (x j) = Some s -> store_of sv' (x j) = Some s' -> not_dirty s c -> not_dirty s' c)
          /\ is_Some (store_of sv (x j)))) ->
  task_ok A j sv messages log t -> task_ok A' j sv' (messages ++ em) (log ++ el) t.
Proof.
  intros k c Hc [T1 (r & Hr & Er) T3 T4 T5 T6 T7 T8 T9].
  assert (working A j sv (tk_handler t) -> tk_phase t <> PhLock -> working A' j sv' (tk_handler t)) as Hw.
  { intros Hw Hph. apply (move_working j sv); [|done]. destruct Hc as [|(_ & _ & _ & Hc)]; [by left|right].
    destruct (Hc Hph) as (H1 & H2 & H3 & [s Hs]). destruct Hw as (_ & _ & _ & _ & Hl & Hnd). split_and!; [done|by apply H2|].
    intros s' Hs'. by apply (H3 s s'), Hnd. }
  split; try done.
  - exists r. split; [|done]. apply elem_of_app. by left.
  - destruct Hc as [[_ ->]|(_ & Hl & _)]; [done|]. by apply Hl.
  - destruct Hc as [[_ ->]|(_ & _ & E & _)]; [done|]. fold k. by rewrite E.
  - destruct (tk_phase t) as [| | |m]; cbn in T8 |- *; [| | |].
    + split; [apply T8|]. apply move_waiting; [|apply T8]. destruct Hc as [[? _]|[? _]]; auto.
    + by apply Hw.
    + by apply Hw.
    + destruct T8 as [T8 (a & mm & Hm & ?)]. split; [by apply Hw|]. exists a, mm. split; [|done]. by apply lookup_app_l_Some.
  - destruct (tk_origin t) as [req|m]; cbn in T9 |- *.
    + destruct T9 as (? & ?). split; [done|]. apply elem_of_app. by left.
    + destruct T9 as (a & mm & j' & Hm & ?). exists a, mm, j'. split; [by apply lookup_app_l_Some|done].
Qed.
End step.

(** *** A step of the world at one service *)

(** What a step of request [tid] in chunk [id] and channel [chan] at service [i]
    has to show. *)
Record local_step (A A' : Specs) (w w' : World) (i : nat) (a : Z) (sv sv' : Server) (tid : nat) (chan : option ChanKey) (id : option ChunkId)
    (em : list (Z * UpdateReq)) (er : list (nat * IOResult)) (el : list Event) : Prop := {
  ls_move : spec_move i id chan A A';
  ls_place : chain !! i = Some a /\ w_servers w !! a = Some sv;
  ls_servers : w_servers w' = <[a := sv']> (w_servers w);
  ls_messages : w_messages w' = w_messages w ++ em /\ w_replies w' = w_replies w ++ er /\ w_log w' = w_log w ++ el;
  ls_tasks : forall tid', tid' <> tid -> w_tasks w' !! tid' = w_tasks w !! tid';
  ls_server : server_ok A' i sv' /\ cache_ok A' i sv';
  ls_old : forall t, w_tasks w !! tid = Some t -> tk_address t = a /\ Some (chan_key (hd_req (tk_handler t))) = chan;
  ls_new : forall t, w_tasks w' !! tid = Some t -> tk_address t = a /\ Some (chan_key (hd_req (tk_handler t))) = chan
    /\ (tk_phase t <> PhLock -> Some (payload_chunk (hd_req (tk_handler t))) = id)
    /\ task_ok A' i sv' (w_messages w') (w_log w') t;
  ls_free : forall tid' t, tid' <> tid -> w_tasks w !! tid' = Some t -> tk_address t = a ->
    Some (chan_key (hd_req (tk_handler t))) <> chan /\ (tk_phase t <> PhLock -> Some (payload_chunk (hd_req (tk_handler t))) <> id);
  ls_channelLocks : forall k, Some k <> chan -> (x i, k) ∈ sv_channelLocks sv -> (x i, k) ∈ sv_channelLocks sv';
  ls_entries : forall k, Some k <> chan -> cached_at chainId sv' k = cached_at chainId sv k;
  ls_chunkLocks : forall c, Some c <> id -> (x i, c) ∈ sv_chunkLocks sv -> (x i, c) ∈ sv_chunkLocks sv';
  ls_clean : forall c s s', Some c <> id -> store_of sv (x i) = Some s -> store_of sv' (x i) = Some s' -> not_dirty s c -> not_dirty s' c;
  ls_new_messages : forall am, am ∈ em -> message_ok A' (w_log w') am;
  ls_new_replies : forall kr, kr ∈ er -> reply_ok A' (w_messages w') kr;
  ls_log : log_ok A' (w_log w');
  ls_bound : forall id', Z.of_nat (length (sp_hist (A' id'))) < 2 ^ 32;
  ls_hist : forall op id', op ∈ sp_hist (A' id') -> op ∈ sp_hist (A id') \/ issued_op (w_log w') op;
  ls_once : i = O -> forall v op, hist_at A' v op -> Some (op_key op).1 = chan ->
    let e := cached_at chainId sv' (op_key op).1 in
    (op_key op).2 < rr_channelSeqnum e \/ (op_key op).2 = rr_channelSeqnum e /\ rr_succUpdateVer e = v
    \/ exists t, w_tasks w' !! tid = Some t /\ op_of (hd_req (tk_handler t)) = op /\ uio_updateVer (ur_payload (hd_req (tk_handler t))) = v
}.

#[local] Arguments ls_move {_ _ _ _ _ _ _ _ _ _ _ _ _ _}.
#[local] Arguments ls_place {_ _ _ _ _ _ _ _ _ _ _ _ _ _}.
#[local] Arguments ls_servers {_ _ _ _ _ _ _ _ _ _ _ _ _ _}.
#[local] Arguments ls_messages {_ _ _ _ _ _ _ _ _ _ _ _ _ _}.
#[local] Arguments ls_tasks {_ _ _ _ _ _ _ _ _ _ _ _ _ _}.
#[local] Arguments ls_server {_ _ _ _ _ _ _ _ _ _ _ _ _ _}.
#[local] Arguments ls_old {_ _ _ _ _ _ _ _ _ _ _ _ _ _}.
#[local] Arguments ls_new {_ _ _ _ _ _ _ _ _ _ _ _ _ _}.
#[local] Arguments ls_free {_ _ _ _ _ _ _ _ _ _ _ _ _ _}.
#[local] Arguments ls_channelLocks {_ _ _ _ _ _ _ _ _ _ _ _ _ _}.
#[local] Arguments ls_entries {_ _ _ _ _ _ _ _ _ _ _ _ _ _}.
#[local] Arguments ls_chunkLocks {_ _ _ _ _ _ _ _ _ _ _ _ _ _}.
#[local] Arguments ls_clean {_ _ _ _ _ _ _ _ _ _ _ _ _ _}.
#[local] Arguments ls_new_messages {_ _ _ _ _ _ _ _ _ _ _ _ _ _}.
#[local] Arguments ls_new_replies {_ _ _ _ _ _ _ _ _ _ _ _ _ _}.
#[local] Arguments ls_log {_ _ _ _ _ _ _ _ _ _ _ _ _ _}.
#[local] Arguments ls_bound {_ _ _ _ _ _ _ _ _ _ _ _ _ _}.
#[local] Arguments ls_hist {_ _ _ _ _ _ _ _ _ _ _ _ _ _}.
#[local] Arguments ls_once {_ _ _ _ _ _ _ _ _ _ _ _ _ _}.

Section rel_step.
Context (A A' : Specs) (w w' : World) (i : nat) (a : Z) (sv sv' : Server) (tid : nat) (chan : option ChanKey) (id : option ChunkId).
Context (em : list (Z * UpdateReq)) (er : list (nat * IOResult)) (el : list Event).
Hypothesis HR : Rel A w.
Hypothesis HL : local_step A A' w w' i a sv sv' tid chan id em er el.

Lemma step_server j b : chain !! j = Some b -> exists svb, w_servers w' !! b = Some svb /\ server_ok A' j svb /\ cache_ok A' j svb.
Proof.
  intros Hb. destruct HL as [Hmv [Ha Hsv] Hss _ _ Hok _ _ _ _ _ _ _ _ _ _ _ _ _]. rewrite Hss. destruct (decide (b = a)) as [->|Hne].
  - assert (j = i) as -> by (by eapply chain_index). exists sv'. by rewrite lookup_insert_eq.
  - rewrite lookup_insert_ne by done. destruct (rl_servers HR j b Hb) as (svb & E & H1 & H2). exists svb. split; [done|].
    assert (j <> i) by (intros ->; congruence). split; [|by eapply move_cache].
    eapply move_server; [done|apply HR|by eapply chain_lt|done|done].
Qed.

Lemma step_other tid' t : tid' <> tid -> w_tasks w !! tid' = Some t ->
  exists j svb, chain !! j = Some (tk_address t) /\ w_servers w' !! tk_address t = Some svb /\ task_ok A' j svb (w_messages w') (w_log w') t.
Proof.
  intros Hne Ht. destruct (rl_tasks HR tid' t Ht) as (j & svb & Hj & Hb & Hok). destruct (ls_messages HL) as (-> & _ & ->).
  destruct (ls_place HL) as [Ha Hsv]. rewrite (ls_servers HL).
  destruct (decide (tk_address t = a)) as [E|Hna].
  - rewrite E in *. assert (j = i) as -> by (by eapply chain_index). rewrite Hsv in Hb. injection Hb as <-. exists i, sv'. rewrite lookup_insert_eq. split_and!; [done|done|].
    destruct (ls_free HL tid' t Hne Ht E) as [Hk Hc].
    eapply (move_task _ _ _ _ _ (ls_move HL)); [|exact Hok]. right.
    split_and!; [done|by apply HL|by apply (ls_entries HL)|]. intros Hph. specialize (Hc Hph).
    split_and!; [done|by apply HL|intros s s'; by apply (ls_clean HL)|].
    destruct (rl_servers HR i a Ha) as (sv0 & E0 & [_ (o & Ho & _)] & _). rewrite Hsv in E0. injection E0 as <-. unfold store_of. rewrite Ho. by eexists.
  - rewrite lookup_insert_ne by done. exists j, svb. split_and!; [done|done|].
    eapply (move_task _ _ _ _ _ (ls_move HL)); [|exact Hok]. left. split; [|done]. intros ->. congruence.
Qed.

Lemma step_once b svb v op : chain !! O = Some b -> w_servers w' !! b = Some svb -> hist_at A' v op ->
    let e := cached_at chainId svb (op_key op).1 in
    (op_key op).2 < rr_channelSeqnum e \/ (op_key op).2 = rr_channelSeqnum e /\ rr_succUpdateVer e = v
    \/ exists tid t, w_tasks w' !! tid = Some t /\ tk_address t = b /\ op_of (hd_req (tk_handler t)) = op
         /\ uio_updateVer (ur_payload (hd_req (tk_handler t))) = v.
Proof.
  intros Hb Hsvb Hh e. destruct (ls_place HL) as [Ha Hsv]. rewrite (ls_servers HL) in Hsvb.
  destruct (decide (i = O /\ Some (op_key op).1 = chan)) as [[-> Hc]|Hnc].
  - assert (b = a) as -> by congruence. rewrite lookup_insert_eq in Hsvb. injection Hsvb as <-.
    destruct (ls_once HL eq_refl v op Hh Hc) as [?|[?|(t & Ht & E)]]; [by left|by right; left|].
    right; right. exists tid, t. split_and!; [done| |apply E..]. by apply (ls_new HL).
  - destruct (move_back _ _ _ _ _ (ls_move HL) v op Hh) as [Hh0|(-> & ? & _)]; [|tauto].
    assert (exists sv0, w_servers w !! b = Some sv0 /\ cached_at chainId sv0 (op_key op).1 = e) as (sv0 & Hsv0 & Ee).
    { destruct (decide (b = a)) as [->|Hne].
      - rewrite lookup_insert_eq in Hsvb. injection Hsvb as <-. exists sv. split; [done|]. symmetry. apply (ls_entries HL).
        intros E. apply Hnc. split; [by eapply chain_index|done].
      - rewrite lookup_insert_ne in Hsvb by done. by exists svb. }
    pose proof (rl_once HR b sv0 v op Hb Hsv0 Hh0) as Hon. cbv zeta in Hon. rewrite Ee in Hon.
    destruct Hon as [?|[?|(tid0 & t & Ht & Eb & Eo & Ev)]]; [by left|by right; left|]. right; right. exists tid0, t. split_and!; try done.
    rewrite (ls_tasks HL); [done|]. intros ->. destruct (ls_old HL t Ht) as [E1 E2].
    apply Hnc. split; [eapply chain_index; [done|congruence]|]. rewrite <-E2, <-Eo. done.
Qed.

Lemma step_pair tid1 tid2 t1 t2 (P : Task -> Task -> Prop) :
  (forall t t', P t t' -> P t' t) ->
  (forall tid1 tid2 t1 t2, w_tasks w !! tid1 = Some t1 -> w_tasks w !! tid2 = Some t2 -> P t1 t2 -> tid1 = tid2) ->
  (forall tid' t t', tid' <> tid -> w_tasks w !! tid' = Some t -> w_tasks w' !! tid = Some t' -> ~ P t t') ->
  w_tasks w' !! tid1 = Some t1 -> w_tasks w' !! tid2 = Some t2 -> P t1 t2 -> tid1 = tid2.
Proof.
  intros Hsym Hold Hnew H1 H2 HP. destruct (decide (tid1 = tid)) as [->|N1], (decide (tid2 = tid)) as [->|N2]; [done|..].
  - rewrite (ls_tasks HL) in H2 by done. exfalso. by eapply (Hnew tid2 t2 t1); [..|apply Hsym].
  - rewrite (ls_tasks HL) in H1 by done. exfalso. by eapply (Hnew tid1 t1 t2).
  - rewrite (ls_tasks HL) in H1, H2 by done. by eapply Hold.
Qed.

Lemma Rel_step : Rel A' w'.
Proof.
  pose proof (ls_move HL) as Hmv.
  destruct (ls_messages HL) as (Em & Er & El). split.
  - eapply move_inv; [done|apply HR].
  - apply (ls_bound HL).
  - intros id' op Hop. assert (op_chunk op = id') as Eid.
    { destruct (mv_hist Hmv id') as [E|(_ & op' & E & _ & Hid)]; rewrite E in Hop; [by apply HR|].
      apply elem_of_app in Hop as [Hop|Hop%list_elem_of_singleton]; [by apply HR|by subst op]. }
    split; [done|]. destruct (ls_hist HL op id' Hop) as [Ho|]; [|done].
    apply (rl_hist HR) in Ho as [_ (r & Hr & ?)]. exists r. rewrite El. split; [|done]. apply elem_of_app. by left.
  - intros b svb. rewrite (ls_servers HL). destruct (decide (b = a)) as [->|Hne]; [intros _; exists i; apply (ls_place HL)|].
    rewrite lookup_insert_ne by done. apply (rl_places HR).
  - intros j b. apply step_server.
  - intros tid' t Ht. destruct (decide (tid' = tid)) as [->|Hne].
    + destruct (ls_new HL t Ht) as (-> & _ & _ & Hok). exists i, sv'. destruct (ls_place HL) as [Ha _].
      split_and!; [done| |done]. rewrite (ls_servers HL). apply lookup_insert_eq.
    + apply (step_other tid'); [done|]. by rewrite (ls_tasks HL) in Ht.
  - intros tid1 tid2 t1 t2 H1 H2 Ea Ek. eapply (step_pair tid1 tid2 t1 t2 (fun t t' => tk_address t = tk_address t' /\ chan_key (hd_req (tk_handler t)) = chan_key (hd_req (tk_handler t')))); [..|done|done|done].
    + by intros t t' [? ?].
    + intros ? ? ? ? ? ? [? ?]. by eapply (rl_channels HR).
    + intros tid' t t' Hne Ht Ht' [E1 E2]. destruct (ls_new HL t' Ht') as (E3 & E4 & _).
      destruct (ls_free HL tid' t Hne Ht ltac:(congruence)) as [Hk _]. by rewrite E2 in Hk.
  - intros tid1 tid2 t1 t2 H1 H2 Ea P1 P2 Ek. eapply (step_pair tid1 tid2 t1 t2 (fun t t' => tk_address t = tk_address t' /\ (tk_phase t <> PhLock /\ tk_phase t' <> PhLock) /\ payload_chunk (hd_req (tk_handler t)) = payload_chunk (hd_req (tk_handler t')))); [..|done|done|done].
    + by intros t t' (? & [? ?] & ?).
    + intros ? ? ? ? ? ? (? & [? ?] & ?). by eapply (rl_chunks HR).
    + intros tid' t t' Hne Ht Ht' (E1 & [Q1 Q2] & E2). destruct (ls_new HL t' Ht') as (E3 & _ & E4 & _).
      destruct (ls_free HL tid' t Hne Ht ltac:(congruence)) as [_ Hk]. specialize (Hk Q1). specialize (E4 Q2). by rewrite E2 in Hk.
  - intros am. rewrite Em. intros [Ham|Ham]%elem_of_app; [|by apply HL]. rewrite El. eapply move_message; [done|]. by apply HR.
  - intros kr. rewrite Er. intros [Hkr|Hkr]%elem_of_app; [|by apply HL]. rewrite Em. eapply move_reply; [done|]. by apply HR.
  - apply HL.
  - intros b svb v op. apply step_once.
Qed.
End rel_step.
End frame.

Arguments mv_step {_ _ _ _ _ _}.
Arguments mv_others {_ _ _ _ _ _}.
Arguments mv_grows {_ _ _ _ _ _}.
Arguments mv_hist {_ _ _ _ _ _}.
Arguments ls_move {_ _ _ _ _ _ _ _ _ _ _ _ _ _ _ _ _ _ _ _ _}.
Arguments ls_place {_ _ _ _ _ _ _ _ _ _ _ _ _ _ _ _ _ _ _ _ _}.
Arguments ls_servers {_ _ _ _ _ _ _ _ _ _ _ _ _ _ _ _ _ _ _ _ _}.
Arguments ls_messages {_ _ _ _ _ _ _ _ _ _ _ _ _ _ _ _ _ _ _ _ _}.
Arguments ls_tasks {_ _ _ _ _ _ _ _ _ _ _ _ _ _ _ _ _ _ _ _ _}.
Arguments ls_server {_ _ _ _ _ _ _ _ _ _ _ _ _ _ _ _ _ _ _ _ _}.
Arguments ls_old {_ _ _ _ _ _ _ _ _ _ _ _ _ _ _ _ _ _ _ _ _}.
Arguments ls_new {_ _ _ _ _ _ _ _ _ _ _ _ _ _ _ _ _ _ _ _ _}.
Arguments ls_free {_ _ _ _ _ _ _ _ _ _ _ _ _ _ _ _ _ _ _ _ _}.
Arguments ls_channelLocks {_ _ _ _ _ _ _ _ _ _ _ _ _ _ _ _ _ _ _ _ _}.
Arguments ls_entries {_ _ _ _ _ _ _ _ _ _ _ _ _ _ _ _ _ _ _ _ _}.
Arguments ls_chunkLocks {_ _ _ _ _ _ _ _ _ _ _ _ _ _ _ _ _ _ _ _ _}.
Arguments ls_clean {_ _ _ _ _ _ _ _ _ _ _ _ _ _ _ _ _ _ _ _ _}.
Arguments ls_new_messages {_ _ _ _ _ _ _ _ _ _ _ _ _ _ _ _ _ _ _ _ _}.
Arguments ls_new_replies {_ _ _ _ _ _ _ _ _ _ _ _ _ _ _ _ _ _ _ _ _}.
Arguments ls_log {_ _ _ _ _ _ _ _ _ _ _ _ _ _ _ _ _ _ _ _ _}.
Arguments ls_bound {_ _ _ _ _ _ _ _ _ _ _ _ _ _ _ _ _ _ _ _ _}.
Arguments ls_hist {_ _ _ _ _ _ _ _ _ _ _ _ _ _ _ _ _ _ _ _ _}.
Arguments ls_once {_ _ _ _ _ _ _ _ _ _ _ _ _ _ _ _ _ _ _ _ _}.
