(* ===== verification/ReplicationSteps.v ===== *)
(** * The steps of a chain of services keep its relation to the specification

    Each part of a request, a message, a read or a fault is a step of the
    specification of at most one chunk. *)

From stdpp Require Import base gmap functions list.
From Stdlib Require Import ZArith Lia.
From S2P Require Import Prelude StatusCode Bytes MgmtdTypes StorageTypes Checksums ChunkFiles ChunkMetaStore ChunkReplica TargetMap StorageService MetaCreate ReplicaInv ReplicaData ReplicaUpdate ReplicaCommit ReplicaTheorems ReplicationSpec ReplicationWorld ServiceLemmas ServiceParts ReplicationInv.

(** ** Logs *)

Lemma snoc_split {T} (l l1 l2 : list T) (e e' : T) :
  l ++ [e] = l1 ++ e' :: l2 -> l2 = [] /\ l1 = l /\ e' = e \/ exists l2', l2 = l2' ++ [e] /\ l = l1 ++ e' :: l2'.
Proof.
  destruct l2 as [|y l2 _] using rev_ind.
  - intros [-> [= ->]]%app_inj_2; [by left|done].
  - rewrite app_comm_cons, app_assoc. intros [-> [= ->]]%app_inj_2; [|done]. right. by exists l2.
Qed.

(** ** Chunks *)

Lemma chunk_rel_same i s s' id sp :
  cur s' id = cur s id -> content s' id = content s id -> chunk_rel i s id sp -> chunk_rel i s' id sp.
Proof. unfold chunk_rel, old_version, not_dirty, in_use. by intros -> ->. Qed.

Lemma chunk_rel_unwritten i s s' id sp : unwritten id s s' -> chunk_rel i s id sp -> chunk_rel i s' id sp.
Proof.
  intros [[E1 E2]|(m & Hm & Hd & Hc)] H; [by eapply chunk_rel_same|]. destruct H as [H _]. split.
  - unfold old_version at 1. rewrite Hm. cbn. by rewrite Hc.
  - intros Hnd. by apply Hnd in Hm.
Qed.

Lemma chunk_rel_append i s s' req sp v :
  i = O -> length (sp_hist sp) = sp_applied sp O -> wrote req s s' v -> chunk_rel i s (payload_chunk req) sp ->
  v = Z.of_nat (S (length (sp_hist sp))) /\ chunk_rel i s' (payload_chunk req) (spec_append (op_of req) sp).
Proof.
  intros -> Hl [W1 W2 W3 W4 W5 W6 W7 W8] [H1 H2]. destruct (H2 W1) as (E1 & E2 & E3). split; [lia|]. split; cbn.
  - by rewrite W5.
  - intros _. rewrite fn_lookup_insert, W5. split_and!; [cbn; lia| |by apply W7]. rewrite W8. cbn.
    rewrite take_ge by (rewrite length_app; cbn; lia). rewrite replay_snoc, E2, (take_ge (sp_hist sp)) by lia. done.
Qed.

Lemma chunk_rel_apply i s s' req sp v :
  sp_hist sp !! Z.to_nat (v - 1) = Some (op_of req) -> wrote req s s' v -> chunk_rel i s (payload_chunk req) sp ->
  v = Z.of_nat (S (sp_applied sp i)) /\ chunk_rel i s' (payload_chunk req) (spec_apply i sp).
Proof.
  intros Hop [W1 W2 W3 W4 W5 W6 W7 W8] [H1 H2]. destruct (H2 W1) as (E1 & E2 & E3). split; [lia|]. split; cbn.
  - by rewrite W5.
  - intros _. rewrite fn_lookup_insert, W5. split_and!; [cbn; lia| |by apply W7]. rewrite W8. cbn.
    rewrite (take_S_r _ _ (op_of req)), replay_snoc, E2; [done|]. rewrite <-Hop. f_equal. lia.
Qed.

Lemma chunk_rel_commit i s s' id sp v :
  old_version s' id = (v, v) -> content s' id = content s id -> in_use s' id -> not_dirty s id ->
  Z.of_nat (sp_applied sp i) = v -> chunk_rel i s id sp -> chunk_rel i s' id (spec_commit i sp).
Proof.
  intros Hov Hct Hiu Hnd Hv [H1 H2]. destruct (H2 Hnd) as (E1 & E2 & E3). split; cbn.
  - rewrite fn_lookup_insert, Hov. done.
  - intros _. rewrite Hov, Hct. split_and!; [by rewrite Hv|done|done].
Qed.

(** ** Specifications *)

Lemma specs_grow (A : Specs) id sp :
  sp_hist (A id) `prefix_of` sp_hist sp -> (forall j, (sp_applied (A id) j <= sp_applied sp j)%nat /\ (sp_committed (A id) j <= sp_committed sp j)%nat) ->
  grows A (<[id := sp]> A).
Proof.
  intros H1 H2 id'. destruct (decide (id = id')) as [<-|Hne]; [by rewrite fn_lookup_insert|]. by rewrite fn_lookup_insert_ne.
Qed.

Ltac specs_cases id' := match goal with |- context [@insert ChunkId Spec _ _ ?id ?sp ?A] =>
  destruct (decide (id = id')) as [<-|?]; [rewrite !fn_lookup_insert|rewrite !fn_lookup_insert_ne by done] end.

Section moves.
Context (chain : list Z).
Abbreviation n := (length chain).

Lemma move_append (A : Specs) op i chan :
  i = O -> spec_inv n (A (op_chunk op)) -> sp_applied (A (op_chunk op)) O = sp_committed (A (op_chunk op)) O ->
  op_key op ∉ (op_key <$> sp_hist (A (op_chunk op))) -> chan = Some (op_key op).1 ->
  spec_move chain i (Some (op_chunk op)) chan A (<[op_chunk op := spec_append op (A (op_chunk op))]> A).
Proof.
  intros -> Hinv Ha Hk ->. split.
  - intros id'. specs_cases id'; [|by left]. right. split; [done|]. by constructor.
  - intros id' j Hj. specs_cases id'; [|done]. cbn. by rewrite fn_lookup_insert_ne.
  - apply specs_grow; [by apply prefix_app_r|]. intros j. cbn. split; [|done]. pose proof (sv_length _ _ Hinv). fn_cases; lia.
  - intros id'. specs_cases id'; [|by left]. right. split; [done|]. exists op. done.
Qed.

Lemma move_apply (A : Specs) id i j chan :
  i = S j -> (i < n)%nat -> (sp_applied (A id) i < sp_applied (A id) j)%nat ->
  spec_move chain i (Some id) chan A (<[id := spec_apply i (A id)]> A).
Proof.
  intros -> Hj Ha. split.
  - intros id'. specs_cases id'; [|by left]. right. split; [done|]. by constructor.
  - intros id' j' Hj'. specs_cases id'; [|done]. cbn. by rewrite fn_lookup_insert_ne.
  - apply specs_grow; [done|]. intros j'. cbn. split; [|done]. fn_cases; lia.
  - intros id'. specs_cases id'; by left.
Qed.

Lemma move_commit (A : Specs) id i chan :
  (i < n)%nat -> (sp_committed (A id) i < sp_applied (A id) i)%nat ->
  ((S i < n)%nat -> (sp_applied (A id) i <= sp_committed (A id) (S i))%nat) ->
  spec_move chain i (Some id) chan A (<[id := spec_commit i (A id)]> A).
Proof.
  intros Hi Hc Hs. split.
  - intros id'. specs_cases id'; [|by left]. right. split; [done|]. by constructor.
  - intros id' j' Hj'. specs_cases id'; [|done]. cbn. by rewrite fn_lookup_insert_ne.
  - apply specs_grow; [done|]. intros j'. cbn. split; [done|]. fn_cases; lia.
  - intros id'. specs_cases id'; by left.
Qed.
End moves.

Definition answer_replies (o : Origin) (r : IOResult) : list (nat * IOResult) :=
  match o with FromClient _ => [] | FromMessage k => [(k, r)] end.
Definition answer_events (o : Origin) (r : IOResult) : list Event :=
  match o with FromClient req => [EAnswer req r] | FromMessage _ => [] end.

Lemma deliver_fields o r w :
  w_servers (deliver o r w) = w_servers w /\ w_tasks (deliver o r w) = w_tasks w /\ w_messages (deliver o r w) = w_messages w
  /\ w_replies (deliver o r w) = w_replies w ++ answer_replies o r /\ w_log (deliver o r w) = w_log w ++ answer_events o r.
Proof. destruct o; cbn; by rewrite ?app_nil_r. Qed.

Section steps.
Context {HCrc : Crc} {HLaws : CrcLaws} (config : ServiceConfig) (chainId : ChainId) (chain : list Z) (x : nat -> Handle) (gen : nat -> Z).
Context (issued : UpdateReq -> Prop).
#[local] Instance steps_persist : Persist := sc_force_persist (svc_store config).

Abbreviation n := (length chain).
Abbreviation Rel := (Rel config chainId chain x gen issued).
Abbreviation server_ok := (server_ok config chainId chain x gen).
Abbreviation cache_ok := (cache_ok chainId gen).
Abbreviation task_ok := (task_ok chainId chain x).
Abbreviation log_ok := (log_ok chain issued).
Abbreviation reply_ok := (reply_ok chain).

Hypothesis Hsize : sizes_fit (svc_store config).
Hypothesis Hnodup : NoDup chain.
Hypothesis Hissued : forall r, issued r -> sane chainId r /\ uio_updateVer (ur_payload r) = 0 /\ uo_fromClient (ur_options r) = true.
Hypothesis Hsame : forall r r', issued r -> issued r' -> tag_key (ur_tag r) = tag_key (ur_tag r') -> op_of r = op_of r'.

Lemma log_snoc A log e :
  log_ok A log -> event_ok issued A e ->
  (forall id ver, event_version e = Some (id, ver) -> (exists j, (j < n)%nat /\ ver <= Z.of_nat (sp_committed (A id) j))
    /\ forall op, op ∈ sp_hist (A id) -> issued_op log op) ->
  (forall rio v data e' ver, e = ERead rio v data -> e' ∈ log -> event_version e' = Some (gk_chunkId (rio_key rio), ver) -> ver <= v) ->
  log_ok A (log ++ [e]).
Proof.
  intros [L1 L2 L3 L4] He Hv Hr. split.
  - intros e' [?|Hs%list_elem_of_singleton]%elem_of_app; [by apply L1|by subst e'].
  - intros e' id ver [?|Hs%list_elem_of_singleton]%elem_of_app Ev; [by eapply L2|subst e']. by apply Hv.
  - intros l1 e' l2 id ver rio v data [(-> & -> & ->)|(l2' & -> & El)]%snoc_split Ev Hin Hid; [by apply elem_of_nil in Hin|].
    apply elem_of_app in Hin as [Hin|Hs%list_elem_of_singleton]; [by eapply L3|]. subst log id. eapply (Hr rio v data e'); [done| |done].
    apply elem_of_app. right. left.
  - intros l1 e' l2 id ver v op [(-> & -> & ->)|(l2' & -> & El)]%snoc_split Ev Hh Hid Hle; [|by eapply L4].
    apply Hv in Ev as [_ Hop]. apply Hop. subst id. by eapply hist_elem.
Qed.

(** The answer of a request at replica [i]. *)
Definition answers (A : Specs) (i : nat) (req : UpdateReq) (r : IOResult) : Prop :=
  (result_ok r = true -> hist_at A (io_updateVer r) (op_of req) /\ io_updateVer r <= Z.of_nat (sp_committed (A (payload_chunk req)) i)
    /\ (uio_updateVer (ur_payload req) <> 0 -> io_updateVer r = uio_updateVer (ur_payload req)))
  /\ (result_ok r = false -> refused r).

Lemma refused_answers A i req r : refused r -> answers A i req r.
Proof. intros Hr. split; [|done]. destruct Hr as [Hr _]. congruence. Qed.

Lemma answers_ok A i a messages log req o r :
  log_ok A log -> (forall id op, op ∈ sp_hist (A id) -> issued_op log op) -> chain !! i = Some a ->
  origin_ok chain i messages log req o -> answers A i req r ->
  log_ok A (log ++ answer_events o r) /\ forall kr, kr ∈ answer_replies o r -> reply_ok A messages kr.
Proof.
  intros Hl Hh Ha Ho [Hok Href]. destruct o as [r0|k]; cbn in *.
  - split; [|by intros kr ?%elem_of_nil]. destruct Ho as (E & _). assert (payload_chunk r0 = payload_chunk req) as Ec by (by apply (f_equal op_chunk) in E).
    apply log_snoc; [done| | |done].
    + cbn. intros Hr. rewrite E. by apply Hok.
    + intros id ver. cbn. destruct (result_ok r); [|done]. intros [= <- <-]. split; [|by apply Hh]. exists i. split; [by eapply chain_lt|].
      rewrite Ec. by apply Hok.
  - rewrite app_nil_r. split; [done|]. intros kr ->%list_elem_of_singleton. destruct Ho as (b & m & j & Hk & Hb & -> & E & Hpos & Ev).
    exists b, m, j. cbn. split_and!; [done|done| |done]. intros Hr. destruct (Hok Hr) as (_ & Hle & Hv).
    assert (payload_chunk m = payload_chunk req) as -> by (by apply (f_equal op_chunk) in E). rewrite Ev in *. rewrite <-Hv by lia. done.
Qed.

(** *** A service after a step *)

Lemma changed_server A A' i sv sv0 sv1 sv' s' o id :
  server_ok A i sv -> sg_objects (sv_storage sv) !! x i = Some o -> sv_storage sv0 = sv_storage sv -> store_changed (x i) s' sv0 sv1 ->
  sv_storage sv' = sv_storage sv1 -> SInv s' -> others_kept id (sto_store o) s' ->
  (forall id', id' <> id -> A' id' = A id') -> chunk_rel i s' id (A' id) -> server_ok A' i sv'.
Proof.
  intros [Hr (o1 & Ho1 & Hg & HS & Hc)] Ho E0 Hsc E1 HS' Hoth HA Hid. rewrite Ho in Ho1. injection Ho1 as <-. split.
  - intros v allow t Ht Hv. apply (Hr v allow t); [|done]. rewrite E1 in Ht. apply (sc_routes _ _ _ _ Hsc) in Ht. by rewrite E0 in Ht.
  - exists (set_sto_store s' o). split_and!; [|done|done|].
    + rewrite E1. eapply changed_object; [done|by rewrite E0].
    + cbn. intros id'. destruct (decide (id' = id)) as [->|Hne]; [done|]. rewrite HA by done. destruct (Hoth id' Hne) as [E2 E3].
      by eapply chunk_rel_same.
Qed.

Lemma changed_clean i sv sv0 sv1 sv' s' o id c s1 s2 :
  sg_objects (sv_storage sv) !! x i = Some o -> sv_storage sv0 = sv_storage sv -> store_changed (x i) s' sv0 sv1 ->
  sv_storage sv' = sv_storage sv1 -> others_kept id (sto_store o) s' -> c <> id ->
  store_of sv (x i) = Some s1 -> store_of sv' (x i) = Some s2 -> not_dirty s1 c -> not_dirty s2 c.
Proof.
  intros Ho E0 Hsc E1 Hoth Hne. unfold store_of. rewrite E1, (changed_object _ _ _ _ o Hsc) by (by rewrite E0). rewrite Ho. intros [= <-] [= <-].
  unfold not_dirty. cbn. by destruct (Hoth c Hne) as [-> _].
Qed.

Lemma finished_cache A i sv sv1 sv' req lock r :
  cache_ok A i sv -> sv_clients sv1 = sv_clients sv -> finished chainId (x i) req lock (gen i) r sv1 sv' ->
  (uio_updateVer (ur_payload req) <> 0 -> hist_at A (uio_updateVer (ur_payload req)) (op_of req)) -> answers A i req r ->
  cache_ok A i sv'.
Proof.
  intros Hc Ecl Hf Hv [Hok _] k. cbv zeta. rewrite (fi_cache _ _ _ _ _ _ _ _ Hf k).
  case_bool_decide as Ek; [|unfold cached_at; rewrite Ecl; apply Hc]. subst k. intros _. cbn. split_and!; [done| |].
  - intros Hr. destruct (Hok Hr) as (H1 & H2 & _). exists (op_of req). done.
  - intros Hne. exists (op_of req). split; [done|]. by apply Hv.
Qed.

(** The version of a request that holds its channel. *)
Lemma task_version A i sv messages log t :
  task_ok A i sv messages log t ->
  let req := hd_req (tk_handler t) in
  uio_updateVer (ur_payload req) = 0 /\ i = O /\ tk_phase t = PhLock /\ (forall id, op_key (op_of req) ∉ (op_key <$> sp_hist (A id)))
  \/ hist_at A (uio_updateVer (ur_payload req)) (op_of req).
Proof.
  intros [_ _ _ _ _ _ _ Hp _] req. destruct (tk_phase t); cbn in Hp.
  - destruct Hp as [_ [(? & ? & ?)|[? _]]]; [by left|by right].
  - right. apply Hp.
  - right. apply Hp.
  - right. apply Hp.
Qed.

(** The updates of a channel are not newer than the request that holds it. *)
Lemma channel_order A w a sv tid t v op :
  Rel A w -> chain !! O = Some a -> w_servers w !! a = Some sv -> w_tasks w !! tid = Some t -> tk_address t = a ->
  task_ok A O sv (w_messages w) (w_log w) t -> hist_at A v op -> (op_key op).1 = chan_key (hd_req (tk_handler t)) ->
  (op_key op).2 <= ch_seqnum (tag_channel (ur_tag (hd_req (tk_handler t)))).
Proof.
  intros HR Ha Hsv Ht Et Hok Hh Hk. pose proof (to_seqnum Hok) as Hs. pose proof (rl_once HR a sv v op Ha Hsv Hh) as Hon. cbv zeta in Hon.
  rewrite Hk in Hon. destruct Hon as [?|[[? _]|(tid' & t' & Ht' & Et' & <- & _)]]; [lia|lia|].
  assert (tid' = tid) as -> by (eapply (rl_channels HR); [done|done|congruence|done]). rewrite Ht in Ht'. injection Ht' as <-. done.
Qed.

Lemma entry_once A w v v' op req g r :
  Rel A w -> hist_at A v op -> (op_key op).1 = chan_key req -> (op_key op).2 <= ch_seqnum (tag_channel (ur_tag req)) ->
  (v' = 0 /\ op_key (op_of req) ∉ (op_key <$> sp_hist (A (op_chunk op))) \/ hist_at A v' (op_of req)) -> v' = uio_updateVer (ur_payload req) ->
  let e := entry_of req g r in
  (op_key op).2 < rr_channelSeqnum e \/ (op_key op).2 = rr_channelSeqnum e /\ rr_succUpdateVer e = v.
Proof.
  intros HR Hh Hk Hle Hv ->. cbn. destruct (Z.eq_dec (op_key op).2 (ch_seqnum (tag_channel (ur_tag req)))) as [E|Hne]; [right|left; apply Z.le_neq; done].
  assert (op_key op = op_key (op_of req)) as Eop. { destruct (op_key op) as [k sq]. cbn in *. by rewrite Hk, E. }
  split; [done|]. destruct Hv as [[_ Hn]|Hv].
  - exfalso. apply Hn. rewrite <-Eop. apply list_elem_of_fmap. exists op. split; [done|]. by eapply hist_elem.
  - by eapply (hist_once config chainId chain x gen issued Hsame A w).
Qed.
End steps.
