(* ===== verification/ReplicationRequests.v ===== *)
(** * Requests of a chain of services

    The begin, the local update, the forwarding and the end of a request. *)

From stdpp Require Import base gmap functions list.
From Stdlib Require Import ZArith Lia.
From S2P Require Import Prelude StatusCode Bytes MgmtdTypes StorageTypes Checksums ChunkFiles ChunkMetaStore ChunkReplica TargetMap StorageService MetaCreate ReplicaInv ReplicaData ReplicaUpdate ReplicaCommit ReplicaTheorems ReplicationSpec ReplicationWorld ServiceLemmas ServiceParts ReplicationInv ReplicationSteps.

Section requests.
Context {HCrc : Crc} {HLaws : CrcLaws} (config : ServiceConfig) (chainId : ChainId) (chain : list Z) (x : nat -> Handle) (gen : nat -> Z).
Context (issued : UpdateReq -> Prop).
#[local] Instance requests_persist : Persist := sc_force_persist (svc_store config).

Abbreviation n := (length chain).
Abbreviation Rel := (Rel config chainId chain x gen issued).
Abbreviation server_ok := (server_ok config chainId chain x gen).
Abbreviation cache_ok := (cache_ok chainId gen).
Abbreviation task_ok := (task_ok chainId chain x).

Hypothesis Hsize : sizes_fit (svc_store config).
Hypothesis Hnodup : NoDup chain.
Hypothesis Hissued : forall r, issued r -> sane chainId r /\ uio_updateVer (ur_payload r) = 0 /\ uo_fromClient (ur_options r) = true.
Hypothesis Hsame : forall r r', issued r -> issued r' -> tag_key (ur_tag r) = tag_key (ur_tag r') -> op_of r = op_of r'.

Lemma Rel_server A w i a sv : Rel A w -> chain !! i = Some a -> w_servers w !! a = Some sv -> server_ok A i sv /\ cache_ok A i sv.
Proof. intros HR Ha Hsv. destruct (rl_servers HR i a Ha) as (sv0 & E & H). rewrite Hsv in E. by injection E as <-. Qed.

Lemma Rel_task A w tid t sv : Rel A w -> w_tasks w !! tid = Some t -> w_servers w !! tk_address t = Some sv ->
  exists i, chain !! i = Some (tk_address t) /\ task_ok A i sv (w_messages w) (w_log w) t /\ server_ok A i sv /\ cache_ok A i sv.
Proof.
  intros HR Ht Hsv. destruct (rl_tasks HR tid t Ht) as (i & sv0 & Hi & E & Hok). rewrite Hsv in E. injection E as <-. exists i.
  split_and!; [done|done|..]; by eapply Rel_server.
Qed.

(** The state in which a request runs: the service, or the service with the
    lock of the chunk. *)
Definition with_lock (i : nat) (req : UpdateReq) (sv sv0 : Server) : Prop := sv0 = sv \/ sv0 = chunk_locked (x i) req sv.

Lemma with_lock_same i req sv sv0 : with_lock i req sv sv0 ->
  sv_storage sv0 = sv_storage sv /\ sv_clients sv0 = sv_clients sv /\ sv_channelLocks sv0 = sv_channelLocks sv
  /\ forall c, (x i, c) ∈ sv_chunkLocks sv -> (x i, c) ∈ sv_chunkLocks sv0.
Proof. intros [->| ->]; cbn; [done|]. split_and!; try done. intros c Hc. set_solver. Qed.

(** Nobody else works on the chunk of a request. *)
Definition alone (w : World) (tid : nat) (t : Task) : Prop :=
  forall tid' t', tid' <> tid -> w_tasks w !! tid' = Some t' -> tk_address t' = tk_address t -> tk_phase t' <> PhLock ->
    payload_chunk (hd_req (tk_handler t')) <> payload_chunk (hd_req (tk_handler t)).

Lemma alone_free A w tid t : Rel A w -> w_tasks w !! tid = Some t -> alone w tid t ->
  forall tid' t', tid' <> tid -> w_tasks w !! tid' = Some t' -> tk_address t' = tk_address t ->
    Some (chan_key (hd_req (tk_handler t'))) <> Some (chan_key (hd_req (tk_handler t)))
    /\ (tk_phase t' <> PhLock -> Some (payload_chunk (hd_req (tk_handler t'))) <> Some (payload_chunk (hd_req (tk_handler t)))).
Proof.
  intros HR Ht Hal tid' t' Hne Ht' Ea. split.
  - intros [= E1 E2]. apply Hne. eapply (rl_channels HR); [done|done|done|]. unfold chan_key. congruence.
  - intros Hph [= E]. by eapply Hal.
Qed.

Section task.
Context (A : Specs) (w : World) (tid : nat) (t : Task) (i : nat) (sv : Server) (o : StorageTarget).
Hypothesis HR : Rel A w.
Hypothesis Ht : w_tasks w !! tid = Some t.
Hypothesis Hsv : w_servers w !! tk_address t = Some sv.
Hypothesis Hi : chain !! i = Some (tk_address t).
Hypothesis Hok : task_ok A i sv (w_messages w) (w_log w) t.
Hypothesis Hserver : server_ok A i sv.
Hypothesis Hcache : cache_ok A i sv.
Hypothesis Ho : sg_objects (sv_storage sv) !! x i = Some o.
Hypothesis Hgen : sto_generationId o = gen i.
Hypothesis Halone : alone w tid t.

Abbreviation req := (hd_req (tk_handler t)).

(** The end of a request that holds the lock of its chunk. *)
Lemma finish_step A' sv0 sv1 sv' s' r :
  spec_move chain i (Some (payload_chunk req)) (Some (chan_key req)) A A' -> (forall id, sp_hist (A' id) = sp_hist (A id)) ->
  with_lock i req sv sv0 -> store_changed (x i) s' sv0 sv1 -> SInv s' -> others_kept (payload_chunk req) (sto_store o) s' ->
  chunk_rel i s' (payload_chunk req) (A' (payload_chunk req)) ->
  finished chainId (x i) req (Some (x i, payload_chunk req)) (sto_generationId o) r sv1 sv' -> answers A' i req r ->
  Rel A' (deliver (tk_origin t) r (set_w_tasks (delete tid (w_tasks (on_server (tk_address t) sv' w))) (on_server (tk_address t) sv' w))).
Proof.
  intros Hmv Hh Hwl Hsc HS' Hoth Hrel Hfin Hans. rewrite Hgen in Hfin.
  destruct (with_lock_same _ _ _ _ Hwl) as (E1 & E2 & E3 & E4). destruct (deliver_fields (tk_origin t) r
    (set_w_tasks (delete tid (w_tasks (on_server (tk_address t) sv' w))) (on_server (tk_address t) sv' w))) as (F1 & F2 & F3 & F4 & F5).
  set (w' := deliver _ _ _) in *. cbn in F1, F2, F3, F4, F5.
  assert (forall v op, hist_at A' v op <-> hist_at A v op) as Hha by (intros v op; unfold hist_at; by rewrite Hh).
  assert (forall id, id <> payload_chunk req -> A' id = A id) as HA.
  { intros id Hne. destruct (mv_step Hmv id) as [|[[= ?] _]]; done. }
  pose proof (move_log chain issued i _ _ A A' Hmv (w_log w) (rl_spec HR) (rl_log HR)) as Hlog.
  destruct (answers_ok chain issued A' i (tk_address t) (w_messages w) (w_log w) req (tk_origin t) r) as [Hl Hrep].
  { done. } { intros id op. rewrite Hh. intros Hop. by apply (rl_hist HR) in Hop as [_ ?]. } { done. } { apply (to_origin Hok). } { done. }
  eapply (Rel_step config chainId chain x gen issued Hnodup A A' w w' i (tk_address t) sv sv' tid (Some (chan_key req)) (Some (payload_chunk req))
    [] (answer_replies (tk_origin t) r) (answer_events (tk_origin t) r)); [done|].
  split; try done.
  - rewrite app_nil_r. done.
  - intros tid' Hne. rewrite F2. by apply lookup_delete_ne.
  - split; [eapply (changed_server config chainId chain x gen A A' i sv sv0 sv1 sv' s' o (payload_chunk req)); try done; apply Hfin|]. eapply (finished_cache chainId x gen); [by eapply move_cache| |done|..].
    + rewrite (sc_clients _ _ _ _ Hsc). done.
    + intros Hne. apply Hha. by destruct (task_version _ _ _ _ _ _ _ _ _ Hok) as [[? _]|].
    + done.
  - intros t'. rewrite Ht. by intros [= <-].
  - intros t'. rewrite F2, lookup_delete_eq. done.
  - intros tid' t' Hne Ht' Ea. by eapply alone_free.
  - intros k Hk Hin. rewrite (fi_channelLocks _ _ _ _ _ _ _ _ Hfin), (sc_channelLocks _ _ _ _ Hsc), E3. set_solver.
  - intros k Hk. rewrite (fi_cache _ _ _ _ _ _ _ _ Hfin k), bool_decide_eq_false_2 by congruence. unfold cached_at.
    by rewrite (sc_clients _ _ _ _ Hsc), E2.
  - intros c Hc Hin. rewrite (fi_chunkLocks _ _ _ _ _ _ _ _ Hfin), (sc_chunkLocks _ _ _ _ Hsc). cbn. apply E4 in Hin. set_solver.
  - intros c s1 s2 Hc. eapply (changed_clean x i sv sv0 sv1 sv' s' o (payload_chunk req)); try done; [apply Hfin|congruence].
  - by intros am ?%elem_of_nil.
  - by rewrite F3.
  - by rewrite F5.
  - intros id'. rewrite Hh. apply (rl_bound HR).
  - intros op id' Hop. rewrite Hh in Hop. by left.
  - intros -> v op Hv Hk e. apply Hha in Hv. apply (inj Some) in Hk. pose proof (fi_cache _ _ _ _ _ _ _ _ Hfin (op_key op).1) as Ee.
    rewrite Hk, bool_decide_eq_true_2 in Ee by done. subst e. rewrite Hk, Ee.
    destruct (entry_once config chainId chain x gen issued Hsame A w v (uio_updateVer (ur_payload req)) op req (gen O) r) as [?|?]; [done..| | | | |].
    + by eapply (channel_order config chainId chain x gen issued A w).
    + destruct (task_version _ _ _ _ _ _ _ _ _ Hok) as [(? & _ & _ & ?)|]; [left|by right]. done.
    + done.
    + by left.
    + by right; left.
Qed.

(** A request that goes on, with a message or without. *)
Lemma stay_step w' h' ph em :
  w_servers w' = <[tk_address t := sv]> (w_servers w) -> w_messages w' = w_messages w ++ em -> w_replies w' = w_replies w -> w_log w' = w_log w ->
  w_tasks w' = <[tid := mkTask (tk_address t) h' ph (tk_origin t)]> (w_tasks w) ->
  tk_phase t <> PhLock -> ph <> PhLock -> hd_req h' = req -> in_progress (x i) (uio_updateVer (ur_payload req)) h' ->
  (forall am, am ∈ em -> message_ok chainId chain A (w_log w) am) ->
  (forall k, ph = PhReply k -> exists a m, (w_messages w ++ em) !! k = Some (a, m) /\ chain !! S i = Some a /\ message_of chainId req m) ->
  Rel A w'.
Proof.
  intros W1 W2 W3 W4 W5 Hph Hph' Er Hp Hem Hk.
  assert (task_ok A i sv (w_messages w ++ em) (w_log w) (mkTask (tk_address t) h' ph (tk_origin t))) as Hnew.
  { assert (working x A i sv (tk_handler t)) as (_ & K2 & K3 & K4 & K5 & K6).
    { pose proof (to_phase Hok) as Hw. destruct (tk_phase t); [done|done|done|by destruct Hw]. }
    assert (working x A i sv h') as Hw' by (unfold working; rewrite Er; by split_and!).
    destruct Hok as [T1 T2 T3 T4 T5 T6 T7 _ T9]. split; cbn [tk_handler tk_phase tk_origin]; rewrite ?Er; try done; [apply Hp|apply Hp|rewrite <-Er; apply Hp|..].
    - destruct ph as [| | |k]; [done|done|done|]. split; [done|]. rewrite Er. by apply Hk.
    - destruct (tk_origin t) as [|k]; cbn in T9 |- *; [done|]. destruct T9 as (a & m & j & ? & ?). exists a, m, j. split; [by apply lookup_app_l_Some|done]. }
  eapply (Rel_step config chainId chain x gen issued Hnodup A A w w' i (tk_address t) sv sv tid (Some (chan_key req)) (Some (payload_chunk req))
    em [] []); [done|].
  split; rewrite ?app_nil_r; try done.
  - apply move_refl.
  - intros tid' Hne. rewrite W5. by apply lookup_insert_ne.
  - intros t'. rewrite Ht. by intros [= <-].
  - intros t'. rewrite W5, lookup_insert_eq. intros [= <-]. cbn. rewrite Er. split_and!; [done|done|done|by rewrite W2, W4].
  - intros tid' t' Hne Ht' Ea. by eapply alone_free.
  - intros c s1 s2 _ E1 E2. rewrite E1 in E2. by injection E2 as <-.
  - intros am Ham. rewrite W4. by apply Hem.
  - by intros kr ?%elem_of_nil.
  - rewrite W4. apply HR.
  - apply (rl_bound HR).
  - intros op id' Hop. by left.
  - intros -> v op Hv Hc e. pose proof (rl_once HR _ sv v op Hi Hsv Hv) as Hon. cbv zeta in Hon. fold e in Hon.
    destruct Hon as [?|[?|(tid' & t' & Ht' & Et' & Eo & Ev)]]; [by left|by right; left|]. right; right.
    assert (tid' = tid) as ->. { eapply (rl_channels HR); [done|done|done|]. apply (inj Some) in Hc. rewrite <-Hc, <-Eo. done. }
    rewrite Ht in Ht'. injection Ht' as <-. exists (mkTask (tk_address t) h' ph (tk_origin t)). rewrite W5, lookup_insert_eq. cbn. by rewrite Er.
Qed.

Abbreviation version := (uio_updateVer (ur_payload req)).

(** The facts of a request past its local update. *)
Lemma working_facts : tk_phase t <> PhLock ->
  in_progress (x i) version (tk_handler t) /\ hist_at A version (op_of req)
  /\ Z.of_nat (sp_applied (A (payload_chunk req)) i) = version /\ Z.of_nat (sp_committed (A (payload_chunk req)) i) = version - 1
  /\ not_dirty (sto_store o) (payload_chunk req) /\ in_use (sto_store o) (payload_chunk req)
  /\ old_version (sto_store o) (payload_chunk req) = (version, version - 1) /\ SInv (sto_store o)
  /\ chunk_rel i (sto_store o) (payload_chunk req) (A (payload_chunk req)).
Proof.
  intros Hph. assert (working x A i sv (tk_handler t)) as (K1 & K2 & K3 & K4 & K5 & K6).
  { pose proof (to_phase Hok) as Hw. destruct (tk_phase t); [done|done|done|by destruct Hw]. }
  destruct (so_store Hserver) as (o1 & Ho1 & _ & HS & Hc). rewrite Ho in Ho1. injection Ho1 as <-.
  assert (not_dirty (sto_store o) (payload_chunk req)) as Hnd by (apply K6; unfold store_of; by rewrite Ho).
  destruct (Hc (payload_chunk req)) as [C1 C2]. destruct (C2 Hnd) as (C3 & C4 & C5). split_and!; try done.
  destruct (old_version (sto_store o) (payload_chunk req)). cbn in *. congruence.
Qed.

Lemma done_step may r sv' :
  tk_phase t <> PhLock -> (may -> (S i < n)%nat -> (sp_applied (A (payload_chunk req)) i <= sp_committed (A (payload_chunk req)) (S i))%nat) ->
  end_post config chainId (tk_handler t) (x i) version o sv may r sv' ->
  exists A', (forall id, A' id = A id \/ spec_step n (A id) (A' id))
    /\ Rel A' (deliver (tk_origin t) r (set_w_tasks (delete tid (w_tasks (on_server (tk_address t) sv' w))) (on_server (tk_address t) sv' w))).
Proof.
  intros Hph Hmay (s' & sv1 & Hsc & HS' & Hoth & Hct & Hfin & Hr). destruct (working_facts Hph) as (K1 & K2 & K3 & K4 & K5 & K6 & K7 & K8 & K9).
  destruct Hr as [[Href Hcur]|(Hm & Hr & Huv & Hov & Hnd & Hiu)].
  - exists A. split; [by left|]. eapply (finish_step A sv sv1 sv' s'); try done; [apply move_refl|by left|by eapply chunk_rel_same|by apply refused_answers].
  - set (id := payload_chunk req) in *. set (A' := <[id := spec_commit i (A id)]> A : Specs).
    assert (spec_move chain i (Some id) (Some (chan_key req)) A A') as Hmv.
    { apply move_commit; [by eapply chain_lt|lia|by apply Hmay]. }
    assert (A' id = spec_commit i (A id)) as EA by (unfold A'; by rewrite fn_lookup_insert).
    exists A'. split; [intros id'; destruct (mv_step Hmv id') as [|[_ ?]]; auto|].
    eapply (finish_step A' sv sv1 sv' s'); try done; [| by left|..].
    + intros id'. unfold A'. by specs_cases id'.
    + fold id. rewrite EA. by eapply chunk_rel_commit.
    + split; [|congruence]. intros _. rewrite Huv. fold id. rewrite EA. cbn. rewrite fn_lookup_insert. split_and!; [|lia|done].
      eapply hist_grows; [apply Hmv|done].
Qed.

Lemma progress_step may p sv' :
  tk_phase t <> PhLock -> (may -> (S i < n)%nat -> (sp_applied (A (payload_chunk req)) i <= sp_committed (A (payload_chunk req)) (S i))%nat) ->
  progress_post config chainId (tk_handler t) (x i) version o (chain !! S i) sv may (Ok p) sv' ->
  exists A', (forall id, A' id = A id \/ spec_step n (A id) (A' id)) /\ Rel A' (progressed tid t p (on_server (tk_address t) sv' w)).
Proof.
  intros Hph Hmay Hpost. destruct p as [r|a m h'|h'|h']; cbn in Hpost.
  - by eapply done_step.
  - destruct Hpost as (-> & Ha & Hm & Hp & Er). destruct (working_facts Hph) as (K1 & K2 & K3 & K4 & _).
    exists A. split; [by left|]. eapply (stay_step _ h' (PhReply (length (w_messages w))) [(a, m)]); try done.
    + intros am ->%list_elem_of_singleton. exists i. cbn. destruct Hm as [M1 M2 M3 M4]. assert (payload_chunk m = payload_chunk req) as Ec by (by apply (f_equal op_chunk) in M2).
      rewrite M2, M3, Ec. split_and!; [done|done|done|apply (to_issued Hok)|done|lia].
    + intros k [= <-]. exists a, m. split; [by rewrite lookup_app_r, Nat.sub_diag by lia|done].
  - destruct Hpost as (-> & Hp & Er). exists A. split; [by left|]. eapply (stay_step _ h' PhWait []); try done; cbn; [by rewrite app_nil_r|].
    by intros am ?%elem_of_nil.
  - destruct Hpost as (-> & Hp & Er). exists A. split; [by left|]. eapply (stay_step _ h' PhForward []); try done; cbn; [by rewrite app_nil_r|].
    by intros am ?%elem_of_nil.
Qed.

(** A request that has the lock of its chunk and goes on with version [v]. *)
Lemma carried_step A' s' sv' h' v :
  spec_move chain i (Some (payload_chunk req)) (Some (chan_key req)) A A' -> tk_phase t = PhLock ->
  store_changed (x i) s' (chunk_locked (x i) req sv) sv' -> SInv s' -> others_kept (payload_chunk req) (sto_store o) s' ->
  chunk_rel i s' (payload_chunk req) (A' (payload_chunk req)) -> not_dirty s' (payload_chunk req) -> 0 <= v < 2 ^ 32 ->
  carried (tk_handler t) h' (x i) v -> hist_at A' v (op_of req) -> Z.of_nat (sp_applied (A' (payload_chunk req)) i) = v ->
  Z.of_nat (sp_committed (A' (payload_chunk req)) i) = v - 1 -> (version = 0 \/ version = v) ->
  (forall op id, op ∈ sp_hist (A' id) -> op ∈ sp_hist (A id) \/ op = op_of req) -> (forall id, Z.of_nat (length (sp_hist (A' id))) < 2 ^ 32) ->
  Rel A' (put_task tid (mkTask (tk_address t) h' PhForward (tk_origin t)) (on_server (tk_address t) sv' w)).
Proof.
  intros Hmv Hph Hsc HS' Hoth Hrel Hnd Hv Hcy Hh Ha Hc Hver Hops Hlen. set (w' := put_task _ _ _). pose proof (cy_req _ _ _ _ Hcy) as Er.
  assert (with_lock i req sv (chunk_locked (x i) req sv)) as Hwl by (by right).
  destruct (with_lock_same _ _ _ _ Hwl) as (E1 & E2 & E3 & E4).
  assert (forall id, id <> payload_chunk req -> A' id = A id) as HA.
  { intros id Hne. destruct (mv_step Hmv id) as [|[[= ?] _]]; done. }
  assert (forall k, cached_at chainId sv' k = cached_at chainId sv k) as Hca by (intros k; unfold cached_at; by rewrite (sc_clients _ _ _ _ Hsc), E2).
  assert (working x A' i sv' h') as Hw.
  { unfold working. rewrite Er. split_and!; try done.
    - destruct Hcy as [C1 C2 C3 C4 C5 C6 C7 C8]. split; rewrite ?Er; try done; [by rewrite C3; apply Hok|by rewrite C4; apply Hok|by rewrite C8|by rewrite C8].
    - rewrite (sc_chunkLocks _ _ _ _ Hsc). cbn. set_solver.
    - intros s. unfold store_of. rewrite (changed_object _ _ _ _ o Hsc Ho). by intros [= <-]. }
  assert (task_ok A' i sv' (w_messages w) (w_log w) (mkTask (tk_address t) h' PhForward (tk_origin t))) as Hnew.
  { destruct Hok as [T1 T2 T3 T4 T5 T6 T7 _ T9]. split; cbn [tk_handler tk_phase tk_origin]; rewrite ?Er; try done.
    - by destruct T1.
    - by rewrite (cy_reliable _ _ _ _ Hcy).
    - apply Hcy.
    - by rewrite (cy_channel _ _ _ _ Hcy).
    - by rewrite (sc_channelLocks _ _ _ _ Hsc).
    - by rewrite Hca.
    - destruct (tk_origin t) as [|k]; [done|]. destruct T9 as (a & m & j & ? & ? & Ej & ? & ? & Em). exists a, m, j. split_and!; try done. cbn. rewrite Em.
      destruct Hver as [Hv0|]; [|done]. destruct (task_version _ _ _ _ _ _ _ _ _ Hok) as [(_ & E0 & _)|[? _]]; [congruence|lia]. }
  eapply (Rel_step config chainId chain x gen issued Hnodup A A' w w' i (tk_address t) sv sv' tid (Some (chan_key req)) (Some (payload_chunk req))
    [] [] []); [done|].
  split; rewrite ?app_nil_r; try done.
  - intros tid' Hne. by apply lookup_insert_ne.
  - split; [by eapply (changed_server config chainId chain x gen A A' i sv (chunk_locked (x i) req sv) sv' sv' s' o (payload_chunk req))|].
    intros k. cbv zeta. rewrite Hca. by eapply move_cache.
  - intros t'. rewrite Ht. by intros [= <-].
  - intros t'. unfold w'. cbn. rewrite lookup_insert_eq. intros [= <-]. cbn. rewrite Er. done.
  - intros tid' t' Hne Ht' Ea. by eapply alone_free.
  - intros k Hk Hin. by rewrite (sc_channelLocks _ _ _ _ Hsc), E3.
  - intros c Hc' Hin. rewrite (sc_chunkLocks _ _ _ _ Hsc). by apply E4.
  - intros c s1 s2 Hc'. eapply (changed_clean x i sv (chunk_locked (x i) req sv) sv' sv' s' o (payload_chunk req)); try done. congruence.
  - by intros am ?%elem_of_nil.
  - by intros kr ?%elem_of_nil.
  - eapply move_log; [done|apply HR|apply HR].
  - intros op id' [?|Hop]%Hops; [by left|right]. subst op. apply (to_issued Hok).
  - intros -> v' op Hh' Hk. cbv zeta. rewrite Hca. cbn [w' put_task w_tasks set_w_tasks]. rewrite lookup_insert_eq. apply (inj Some) in Hk.
    assert (op_key op = op_key (op_of req) -> op = op_of req /\ v' = v) as Hsame'.
    { intros Ek. assert (op = op_of req) as ->.
      { pose proof (rl_log HR) as Hl. eapply (issued_key chain issued Hsame A (w_log w)); [done| |apply (to_issued Hok)|done].
        destruct (Hops op (op_chunk op)) as [Hop| ->]; [by eapply hist_elem| |apply (to_issued Hok)]. by apply (rl_hist HR) in Hop as [_ ?]. }
      split; [done|]. pose proof (sv_once _ _ (move_inv chain _ _ _ A A' Hmv (rl_spec HR) (op_chunk (op_of req)))) as Hno.
      destruct Hh as [? Hh], Hh' as [? Hh']. assert (Z.to_nat (v' - 1) = Z.to_nat (v - 1)).
      { eapply (NoDup_lookup _ _ _ (op_key (op_of req)) Hno); by rewrite list_lookup_fmap, ?Hh, ?Hh'. }
      lia. }
    destruct (move_back chain _ _ _ A A' Hmv v' op Hh') as [Hold|(_ & _ & Ev')].
    + pose proof (rl_once HR _ sv v' op Hi Hsv Hold) as Hon. cbv zeta in Hon.
      destruct Hon as [?|[?|(tid' & t' & Ht' & Et' & Eo & Ev)]]; [by left|by right; left|]. right; right. eexists; split; [done|]. cbn. rewrite Er.
      assert (tid' = tid) as ->. { eapply (rl_channels HR); [done|done|done|]. rewrite <-Hk, <-Eo. done. }
      rewrite Ht in Ht'. injection Ht' as <-. split; [done|]. symmetry. apply Hsame'. by rewrite Eo.
    + right; right. eexists; split; [done|]. cbn. rewrite Er. destruct (Hops op (op_chunk op) (hist_elem _ _ _ Hh')) as [Hop| ->].
      * exfalso. pose proof (sv_once _ _ (move_inv chain _ _ _ A A' Hmv (rl_spec HR) (op_chunk op))) as Hno. destruct Hh' as [_ Hh'].
        apply list_elem_of_lookup in Hop as [k Hop]. pose proof (lookup_lt_Some _ _ _ Hop). destruct (mv_grows Hmv (op_chunk op)) as [Hp _].
        pose proof (prefix_lookup_Some _ _ _ _ Hop Hp) as Hop'.
        assert (Z.to_nat (v' - 1) = k) by (eapply (NoDup_lookup _ _ _ (op_key op) Hno); by rewrite list_lookup_fmap, ?Hop', ?Hh'). lia.
      * split; [done|]. symmetry. by apply Hsame'.
Qed.

(** A request that updates its chunk: the first replica appends to the history,
    the others apply the next update of it. *)
Lemma wrote_step s' sv' h' v :
  tk_phase t = PhLock -> store_changed (x i) s' (chunk_locked (x i) req sv) sv' -> SInv s' -> others_kept (payload_chunk req) (sto_store o) s' ->
  wrote req (sto_store o) s' v -> carried (tk_handler t) h' (x i) v ->
  exists A', (forall id, A' id = A id \/ spec_step n (A id) (A' id))
    /\ Rel A' (put_task tid (mkTask (tk_address t) h' PhForward (tk_origin t)) (on_server (tk_address t) sv' w)).
Proof.
  intros Hph Hsc HS' Hoth Hw Hcy. set (id := payload_chunk req) in *. pose proof (rl_spec HR id) as Hinv.
  destruct (so_store Hserver) as (o1 & Ho1 & _ & HS & Hc). rewrite Ho in Ho1. injection Ho1 as <-. specialize (Hc id).
  destruct Hc as [C1 C2]. destruct (C2 (wr_clean _ _ _ _ Hw)) as (C3 & C4 & C5).
  pose proof (wr_fits _ _ _ _ Hw) as [Hf0 Hf1]. pose proof (wr_version _ _ _ _ Hw) as Hv. pose proof (wr_bound _ _ _ _ Hw) as Hb. fold id in Hf0, Hv.
  pose proof (to_phase Hok) as Hwait. rewrite Hph in Hwait. destruct Hwait as [_ [(E0 & Ei & Hk)|[Hh Hpred]]].
  - specialize (Hf0 E0). pose proof (sv_length _ _ Hinv) as Hlen.
    destruct (chunk_rel_append i (sto_store o) s' req (A id) v Ei Hlen Hw (conj C1 C2)) as [Ev Hrel].
    set (A' := <[id := spec_append (op_of req) (A id)]> A : Specs). assert (A' id = spec_append (op_of req) (A id)) as EA by (unfold A'; by rewrite fn_lookup_insert).
    assert (sp_applied (A id) O = sp_committed (A id) O) as Hall by (rewrite Ei in C1, C3; lia).
    assert (spec_move chain i (Some id) (Some (chan_key req)) A A') as Hmv by (apply (move_append chain A (op_of req)); [done..|apply Hk|done]).
    exists A'. split; [intros id'; destruct (mv_step Hmv id') as [|[_ ?]]; auto|].
    assert (sp_applied (A' id) i = S (length (sp_hist (A id))) /\ sp_committed (A' id) i = sp_applied (A id) O) as [Ea Ec].
    { rewrite EA, Hall. cbn. rewrite Ei, fn_lookup_insert. done. }
    eapply (carried_step A' s' sv' h' v); try done; fold id; [by rewrite EA|apply Hw|lia| |lia|lia|by left| |].
    + split; [lia|]. change (op_chunk (op_of req)) with id. rewrite EA. cbn. rewrite lookup_app_r by lia. by replace (Z.to_nat (v - 1) - _)%nat with O by lia.
    + intros op id'. unfold A'. specs_cases id'; [|by left]. cbn. intros [?|Hs%list_elem_of_singleton]%elem_of_app; auto.
    + intros id'. unfold A'. specs_cases id'; [|apply (rl_bound HR)]. cbn. rewrite length_app. cbn. lia.
  - specialize (Hf1 (proj1 Hh)). pose proof (hist_bound _ _ _ Hh) as Hbound. change (op_chunk (op_of req)) with id in Hbound.
    rewrite Hf1 in Hh, Hbound, Hpred. pose proof (sv_length _ _ Hinv) as Hlen. pose proof (chain_lt _ _ _ Hi) as Hj.
    assert (exists j, i = S j) as [j Ej]. { destruct (decide (i = O)) as [Ei|]; [rewrite Ei in C3; lia|]. exists (pred i). lia. }
    specialize (Hpred j Ej). fold id in Hpred.
    destruct (chunk_rel_apply i (sto_store o) s' req (A id) v (proj2 Hh) Hw (conj C1 C2)) as [Ev Hrel].
    set (A' := <[id := spec_apply i (A id)]> A : Specs). assert (A' id = spec_apply i (A id)) as EA by (unfold A'; by rewrite fn_lookup_insert).
    assert (spec_move chain i (Some id) (Some (chan_key req)) A A') as Hmv by (apply (move_apply chain A id i j); [done|done|lia]).
    exists A'. split; [intros id'; destruct (mv_step Hmv id') as [|[_ ?]]; auto|].
    pose proof (applied_committed n _ Hinv j i ltac:(lia) Hj). pose proof (sv_order _ _ Hinv i Hj).
    eapply (carried_step A' s' sv' h' v); try done; fold id; rewrite ?EA; cbn; rewrite ?fn_lookup_insert; try done; [apply Hw|lia| |lia|by right| |].
    + eapply hist_grows; [apply Hmv|done].
    + intros op id'. unfold A'. specs_cases id'; by left.
    + intros id'. unfold A'. specs_cases id'; apply (rl_bound HR).
Qed.

Lemma stale_step s' sv' h' v :
  tk_phase t = PhLock -> store_changed (x i) s' (chunk_locked (x i) req sv) sv' -> SInv s' -> others_kept (payload_chunk req) (sto_store o) s' ->
  stale req (sto_store o) s' v -> carried (tk_handler t) h' (x i) v ->
  Rel A (put_task tid (mkTask (tk_address t) h' PhForward (tk_origin t)) (on_server (tk_address t) sv' w)).
Proof.
  intros Hph Hsc HS' Hoth (E1 & E2 & Hnd & Ev & Hv & Hle) Hcy. pose proof (rl_spec HR (payload_chunk req)) as Hinv.
  destruct (so_store Hserver) as (o1 & Ho1 & _ & HS & Hc). rewrite Ho in Ho1. injection Ho1 as <-. specialize (Hc (payload_chunk req)).
  pose proof Hc as [C1 C2]. destruct (C2 Hnd) as (C3 & _ & _). pose proof (chain_lt _ _ _ Hi) as Hj.
  pose proof (applied_committed n _ Hinv i i Hj Hj). pose proof (sn_version _ _ (to_sane Hok)).
  destruct (task_version _ _ _ _ _ _ _ _ _ Hok) as [[? _]|Hh]; [lia|].
  eapply (carried_step A s' sv' h' v); try done; [apply move_refl|by eapply chunk_rel_same|unfold not_dirty; by rewrite E1|lia|by rewrite Ev|lia|lia|by right|by left|apply (rl_bound HR)].
Qed.

Lemma locked_step res sv' :
  tk_phase t = PhLock -> locked_post config chainId (tk_handler t) (x i) o sv (Ok res) sv' ->
  exists A', (forall id, A' id = A id \/ spec_step n (A id) (A' id)) /\ Rel A' (updated_local tid t res (on_server (tk_address t) sv' w)).
Proof.
  intros Hph Hpost. destruct res as [r|h']; cbn in Hpost.
  - destruct Hpost as (s' & sv1 & Hsc & HS' & Hoth & Hun & Hfin & Hr). exists A. split; [by left|].
    destruct (so_store Hserver) as (o1 & Ho1 & _ & HS & Hc). rewrite Ho in Ho1. injection Ho1 as <-. specialize (Hc (payload_chunk req)).
    eapply (finish_step A (chunk_locked (x i) req sv) sv1 sv' s'); try done; [apply move_refl|by right|by eapply chunk_rel_unwritten|].
    destruct Hr as [Hr|(Hr & Ev & Hle & Hnd)]; [by apply refused_answers|]. split; [|congruence]. intros _. rewrite Ev.
    destruct Hc as [C1 _]. destruct (task_version _ _ _ _ _ _ _ _ _ Hok) as [[? _]|Hh]; [lia|]. split_and!; [done|lia|done].
  - destruct Hpost as (s' & v & Hsc & HS' & Hoth & [Hw|Hst] & Hcy); [by eapply wrote_step|]. exists A. split; [by left|]. by eapply stale_step.
Qed.
End task.

(** *** The begin of a request *)

(** A request of a client, or a message. *)
Definition arrives (A : Specs) (w : World) (i : nat) (a : Z) (req : UpdateReq) (origin : Origin) : Prop :=
  sane chainId req /\ issued_op (w_log w) (op_of req)
  /\ match origin with
     | FromClient r => r = req /\ EInvoke req ∈ w_log w /\ uio_updateVer (ur_payload req) = 0 /\ uo_fromClient (ur_options req) = true
     | FromMessage k => w_messages w !! k = Some (a, req) /\ exists j, i = S j /\ hist_at A (uio_updateVer (ur_payload req)) (op_of req)
         /\ uio_updateVer (ur_payload req) <= Z.of_nat (sp_applied (A (payload_chunk req)) j)
     end.

Section begin.
Context (A : Specs) (w : World) (tid : nat) (i : nat) (a : Z) (sv : Server) (req : UpdateReq) (origin : Origin).
Hypothesis HR : Rel A w.
Hypothesis Ht : w_tasks w !! tid = None.
Hypothesis Hi : chain !! i = Some a.
Hypothesis Hsv : w_servers w !! a = Some sv.
Hypothesis Harr : arrives A w i a req origin.

Lemma begin_origin v : (v = uio_updateVer (ur_payload req) \/ uio_updateVer (ur_payload req) = 0) ->
  origin_ok chain i (w_messages w) (w_log w) (set_updateVer v req) origin.
Proof.
  intros Hv. destruct Harr as (Hs & Hop & Ho). destruct origin as [r|k]; cbn.
  - destruct Ho as (-> & ? & _). done.
  - destruct Ho as (Hk & j & -> & [Hp _] & _). exists a, req, j. split_and!; try done. destruct Hv; [done|lia].
Qed.

(** Nobody holds the channel. *)
Lemma begin_free sv1 : started chainId (x i) req sv sv1 ->
  forall tid' t, w_tasks w !! tid' = Some t -> tk_address t = a -> chan_key (hd_req (tk_handler t)) <> chan_key req.
Proof.
  intros Hst tid' t Ht' Ea E. apply (st_free _ _ _ _ _ Hst). destruct (rl_tasks HR tid' t Ht') as (j & sv0 & Hj & Hsv0 & Hok).
  rewrite Ea in Hj, Hsv0. assert (j = i) as -> by (by eapply chain_index). rewrite Hsv in Hsv0. injection Hsv0 as <-. rewrite <-E. apply (to_locked Hok).
Qed.

(** The version a request begins with. *)
Lemma begin_version v sv1 : started chainId (x i) req sv sv1 -> start_version (cached_at chainId sv (chan_key req)) (gen i) req v ->
  (v = 0 /\ uio_updateVer (ur_payload req) = 0 /\ (i = O -> forall id, op_key (op_of req) ∉ (op_key <$> sp_hist (A id)))
   \/ hist_at A v (op_of req)) /\ (v = uio_updateVer (ur_payload req) \/ uio_updateVer (ur_payload req) = 0).
Proof.
  intros Hst [Hle Hv]. destruct (Rel_server A w i a sv HR Hi Hsv) as [Hserver Hcache]. destruct Harr as (Hs & Hop & Horig).
  pose proof (sn_seqnum _ _ Hs) as Hseq. set (e := cached_at chainId sv (chan_key req)) in *.
  destruct Hv as [[-> Hv]|(-> & Hne & E0 & Eseq)].
  - split; [|by left]. destruct (decide (uio_updateVer (ur_payload req) = 0)) as [E0|Hne].
    + left. split_and!; [done|done|]. intros Ei id Hin. apply list_elem_of_fmap in Hin as (op & Ek & Hin).
      pose proof (rl_hist HR id op Hin) as [Eid _]. apply list_elem_of_lookup in Hin as [k Hk].
      assert (hist_at A (Z.of_nat k + 1) op) as Hh. { split; [lia|]. rewrite Eid, <-Hk. f_equal. lia. }
      assert ((op_key op).1 = chan_key req /\ (op_key op).2 = ch_seqnum (tag_channel (ur_tag req))) as [Ek1 Ek2] by (rewrite <-Ek; done).
      pose proof Hi as Hi0. rewrite Ei in Hi0. pose proof (rl_once HR a sv _ op Hi0 Hsv Hh) as Hon. cbv zeta in Hon. rewrite Ek1, Ek2 in Hon. fold e in Hon.
      destruct Hon as [?|[[Es Eu]|(tid' & t & Ht' & Ea & Eo & _)]]; [lia| |].
      * destruct (Hcache (chan_key req) ltac:(fold e; lia)) as (Hg & _). fold e in Hg.
        destruct Hv as [?|[?|[?|[_ ?]]]]; [done|lia|done|lia].
      * apply (begin_free sv1 Hst tid' t Ht' Ea). rewrite <-Ek1, <-Eo. done.
    + right. destruct origin as [r|k]; [destruct Horig as (-> & _ & ? & _); done|]. by destruct Horig as (_ & j & _ & ? & _).
  - split; [|by right]. right. destruct (Hcache (chan_key req) ltac:(fold e; lia)) as (_ & _ & Hsucc). fold e in Hsucc.
    destruct (Hsucc Hne) as (op & Ek & Hh). assert (op = op_of req) as <-; [|done].
    eapply (issued_key chain issued Hsame A (w_log w)); [apply HR| |done|]; [by apply hist_elem, (rl_hist HR) in Hh as [_ ?]|].
    rewrite Ek, Eseq. done.
Qed.

Lemma begin_channel_order sv1 v op : started chainId (x i) req sv sv1 -> i = O -> hist_at A v op -> (op_key op).1 = chan_key req ->
  rr_channelSeqnum (cached_at chainId sv (chan_key req)) <= ch_seqnum (tag_channel (ur_tag req)) ->
  (op_key op).2 <= ch_seqnum (tag_channel (ur_tag req)).
Proof.
  intros Hst Ei Hh Hk Hle. pose proof Hi as Hi0. rewrite Ei in Hi0. pose proof (rl_once HR a sv v op Hi0 Hsv Hh) as Hon. cbv zeta in Hon. rewrite Hk in Hon.
  destruct Hon as [?|[[? _]|(tid' & t' & Ht' & Et' & <- & _)]]; [lia|lia|]. exfalso. by eapply (begin_free sv1 Hst).
Qed.

Lemma storage_server sv' : sv_storage sv' = sv_storage sv -> server_ok A i sv'.
Proof. intros E. destruct (Rel_server A w i a sv HR Hi Hsv) as [[Hr Hs] _]. split; rewrite ?E; [|done]. intros v allow t. rewrite E. apply Hr. Qed.

Lemma replayed_answers r : replayed (cached_at chainId sv (chan_key req)) req r -> result_ok r = true -> answers A i req r.
Proof.
  intros (E1 & E2 & E3 & E4) Hr. split; [|congruence]. intros _. destruct (Rel_server A w i a sv HR Hi Hsv) as [_ Hcache].
  destruct Harr as (Hs & Hop & _). pose proof (sn_seqnum _ _ Hs) as Hseq.
  destruct (Hcache (chan_key req) ltac:(lia)) as (_ & Hc & _). destruct (Hc E2) as (op & Ek & Hh & Hle).
  assert (op = op_of req) as ->.
  { eapply (issued_key chain issued Hsame A (w_log w)); [apply HR| |done|]; [by apply hist_elem, (rl_hist HR) in Hh as [_ ?]|].
    rewrite Ek, E1. done. }
  rewrite E3. split_and!; [done|done|]. intros Hne. destruct E4; congruence.
Qed.

Lemma answered_step r sv' :
  idle chainId sv sv' -> refused r \/ result_ok r = true /\ replayed (cached_at chainId sv (chan_key req)) req r ->
  Rel A (deliver origin r (on_server a sv' w)).
Proof.
  intros [I1 I2 I3 I4 I5] Hr. destruct (deliver_fields origin r (on_server a sv' w)) as (F1 & F2 & F3 & F4 & F5).
  set (w' := deliver _ _ _) in *. cbn in F1, F2, F3, F4, F5.
  assert (answers A i req r) as Hans by (destruct Hr as [?|[? ?]]; [by apply refused_answers|by apply replayed_answers]).
  destruct (answers_ok chain issued A i a (w_messages w) (w_log w) (set_updateVer (uio_updateVer (ur_payload req)) req) origin r) as [Hl Hrep].
  { apply HR. } { intros id op Hop. by apply (rl_hist HR) in Hop as [_ ?]. } { done. } { apply begin_origin. by left. } { done. }
  eapply (Rel_step config chainId chain x gen issued Hnodup A A w w' i a sv sv' tid None None [] (answer_replies origin r) (answer_events origin r)); [done|].
  split; try done.
  - apply move_refl.
  - by rewrite app_nil_r.
  - intros tid' _. by rewrite F2.
  - split; [by apply storage_server|]. intros k. cbv zeta. rewrite I5. by apply (Rel_server A w i a sv).
  - intros t. by rewrite Ht.
  - intros t. by rewrite F2, Ht.
  - intros k _. by rewrite I4.
  - intros c _. by rewrite I3.
  - intros c s1 s2 _. unfold store_of. rewrite I1. intros E1 E2. rewrite E1 in E2. by injection E2 as <-.
  - by intros am ?%elem_of_nil.
  - by rewrite F3.
  - by rewrite F5.
  - apply (rl_bound HR).
  - by left.
Qed.

Lemma begin_refused_step r sv1 sv' v :
  started chainId (x i) req sv sv1 -> start_version (cached_at chainId sv (chan_key req)) (gen i) req v -> refused r ->
  finished chainId (x i) (set_updateVer v req) None (gen i) r sv1 sv' -> Rel A (deliver origin r (on_server a sv' w)).
Proof.
  intros Hst Hv Hr Hfin. destruct (begin_version v sv1 Hst Hv) as [Hver Hv0]. destruct (deliver_fields origin r (on_server a sv' w)) as (F1 & F2 & F3 & F4 & F5).
  set (w' := deliver _ _ _) in *. cbn in F1, F2, F3, F4, F5. destruct (Rel_server A w i a sv HR Hi Hsv) as [Hserver Hcache].
  destruct (answers_ok chain issued A i a (w_messages w) (w_log w) (set_updateVer v req) origin r) as [Hl Hrep].
  { apply HR. } { intros id op Hop. by apply (rl_hist HR) in Hop as [_ ?]. } { done. } { by apply begin_origin. } { by apply refused_answers. }
  eapply (Rel_step config chainId chain x gen issued Hnodup A A w w' i a sv sv' tid (Some (chan_key req)) None [] (answer_replies origin r) (answer_events origin r)); [done|].
  split; try done.
  - apply move_refl.
  - by rewrite app_nil_r.
  - intros tid' _. by rewrite F2.
  - split; [apply storage_server; by rewrite (fi_storage _ _ _ _ _ _ _ _ Hfin), (st_storage _ _ _ _ _ Hst)|].
    intros k. cbv zeta. rewrite (fi_cache _ _ _ _ _ _ _ _ Hfin k). case_bool_decide as Ek; [|rewrite (st_cache _ _ _ _ _ Hst k); apply Hcache]. subst k.
    intros _. cbn. destruct Hr as [Hr _]. split_and!; [done|congruence|]. intros Hne. destruct Hver as [[? _]|Hh]; [done|]. by exists (op_of req).
  - intros t. by rewrite Ht.
  - intros t. by rewrite F2, Ht.
  - intros tid' t _ Ht' Ea. split; [|done]. intros E%(inj Some). by eapply (begin_free sv1 Hst).
  - intros k Hk Hin. rewrite (fi_channelLocks _ _ _ _ _ _ _ _ Hfin), (st_channelLocks _ _ _ _ _ Hst). change (chan_key (set_updateVer v req)) with (chan_key req). set_solver.
  - intros k Hk. rewrite (fi_cache _ _ _ _ _ _ _ _ Hfin k). change (chan_key (set_updateVer v req)) with (chan_key req). rewrite bool_decide_eq_false_2 by congruence. apply Hst.
  - intros c _. rewrite (fi_chunkLocks _ _ _ _ _ _ _ _ Hfin). cbn. by rewrite (st_chunkLocks _ _ _ _ _ Hst).
  - intros c s1 s2 _. unfold store_of. rewrite (fi_storage _ _ _ _ _ _ _ _ Hfin), (st_storage _ _ _ _ _ Hst). intros E1 E2. rewrite E1 in E2. by injection E2 as <-.
  - by intros am ?%elem_of_nil.
  - by rewrite F3.
  - by rewrite F5.
  - apply (rl_bound HR).
  - by left.
  - intros Ei v' op Hh Hk%(inj Some). cbv zeta. rewrite (fi_cache _ _ _ _ _ _ _ _ Hfin). change (chan_key (set_updateVer v req)) with (chan_key req).
    rewrite bool_decide_eq_true_2 by done.
    destruct (entry_once config chainId chain x gen issued Hsame A w v' v op (set_updateVer v req) (gen i) r) as [?|?]; [done..| | | | |]; [| |done|by left|by right; left].
    + eapply (begin_channel_order sv1); [done..|]. apply Hv.
    + destruct Hver as [(? & _ & Hn)|]; [left|by right]. split; [done|]. by apply Hn.
Qed.

Lemma begin_task_step sv' v target :
  started chainId (x i) req sv sv' -> start_version (cached_at chainId sv (chan_key req)) (gen i) req v -> tg_storageTarget target = Some (x i) ->
  (uo_fromClient (ur_options req) = true -> i = O) ->
  Rel A (put_task tid (mkTask a (Handler_new (set_updateVer v req) target true (Some (x i, chan_key req))) PhLock origin) (on_server a sv' w)).
Proof.
  intros Hst Hv Hx Hhead. destruct (begin_version v sv' Hst Hv) as [Hver Hv0]. set (t := mkTask a _ PhLock origin). set (w' := put_task _ _ _).
  destruct (Rel_server A w i a sv HR Hi Hsv) as [Hserver Hcache]. destruct Harr as (Hs & Hop & Horig).
  assert (task_ok A i sv' (w_messages w) (w_log w) t) as Hnew.
  { split; cbn [tk_handler tk_phase tk_origin t hd_req hd_reliable hd_target hd_channelLock Handler_new]; try done.
    - destruct Hs as [S1 S2 S3 S4 S5 S6 S7 S8 S9 S10 S11]. split; try done. cbn. destruct Hver as [(-> & _)|Hh]; [lia|].
      pose proof (hist_bound _ _ _ Hh). pose proof (rl_bound HR (op_chunk (op_of req))). lia.
    - rewrite (st_channelLocks _ _ _ _ _ Hst). change (chan_key (set_updateVer v req)) with (chan_key req). set_solver.
    - change (chan_key (set_updateVer v req)) with (chan_key req). rewrite (st_cache _ _ _ _ _ Hst). apply Hv.
    - split; [done|]. destruct Hver as [(E0 & E1 & Hn)|Hh].
      + left. assert (i = O) as Ei; [|split_and!; [done|done|by apply Hn]]. apply Hhead.
        destruct origin as [r|k]; [apply Horig|]. destruct Horig as (_ & j & _ & [Hp _] & _). lia.
      + right. split; [done|]. intros j Ej. destruct origin as [r|k]; [destruct Horig as (_ & _ & _ & ?); naive_solver|].
        destruct Horig as (_ & j' & Ej' & [Hp _] & Hle). assert (j' = j) as -> by congruence. cbn. destruct Hv0 as [-> |?]; [done|lia].
    - by apply begin_origin. }
  eapply (Rel_step config chainId chain x gen issued Hnodup A A w w' i a sv sv' tid (Some (chan_key req)) None [] [] []); [done|].
  split; rewrite ?app_nil_r; try done.
  - apply move_refl.
  - intros tid' Hne. by apply lookup_insert_ne.
  - split; [apply storage_server; apply Hst|]. intros k. cbv zeta. rewrite (st_cache _ _ _ _ _ Hst). apply Hcache.
  - intros t'. by rewrite Ht.
  - intros t'. cbn [w' put_task w_tasks set_w_tasks]. rewrite lookup_insert_eq. intros [= <-]. done.
  - intros tid' t' _ Ht' Ea. split; [|done]. intros E%(inj Some). by eapply (begin_free sv' Hst).
  - intros k Hk Hin. rewrite (st_channelLocks _ _ _ _ _ Hst). set_solver.
  - intros k _. apply Hst.
  - intros c _. by rewrite (st_chunkLocks _ _ _ _ _ Hst).
  - intros c s1 s2 _. unfold store_of. rewrite (st_storage _ _ _ _ _ Hst). intros E1 E2. rewrite E1 in E2. by injection E2 as <-.
  - by intros am ?%elem_of_nil.
  - by intros kr ?%elem_of_nil.
  - apply HR.
  - apply (rl_bound HR).
  - by left.
  - intros Ei v' op Hh Hk%(inj Some). cbv zeta. rewrite (st_cache _ _ _ _ _ Hst). pose proof Hi as Hi0. rewrite Ei in Hi0.
    pose proof (rl_once HR a sv v' op Hi0 Hsv Hh) as Hon. cbv zeta in Hon.
    destruct Hon as [?|[?|(tid' & t' & Ht' & Et' & Eo & Ev)]]; [by left|by right; left|]. exfalso. eapply (begin_free sv' Hst); [done|done|].
    by rewrite <-Hk, <-Eo.
Qed.

Lemma begin_step res sv' :
  begin_post chainId req (x i) (bool_decide (i = O)) sv (Ok res) sv' -> Rel A (begun tid a origin res (on_server a sv' w)).
Proof.
  destruct (Rel_server A w i a sv HR Hi Hsv) as [Hserver _]. destruct (so_store Hserver) as (o & Ho & Hg & _).
  destruct res as [r|h]; cbn.
  - intros [[Hid Hr]|(o1 & v & sv1 & Ho1 & Hv & Hr & Hst & Hfin)]; [by apply answered_step|]. rewrite Ho in Ho1. injection Ho1 as <-. rewrite Hg in *.
    by eapply begin_refused_step.
  - intros (o1 & v & target & Ho1 & Hv & Hst & -> & Hx & Hh). rewrite Ho in Ho1. injection Ho1 as <-. rewrite Hg in *.
    apply begin_task_step; [done|done|done|]. intros E. by apply Hh, bool_decide_eq_true in E.
Qed.
End begin.
End requests.
