(* ===== verification/ReplicationSimulation.v ===== *)
(** * A chain of services follows its specification

    Reads, faults and requests that are recorded change no chunk; with the steps
    of requests, every step of the world is at most one step of the
    specification of each chunk. *)

From stdpp Require Import base gmap functions list.
From Stdlib Require Import ZArith Lia Relations.
From S2P Require Import Prelude StatusCode Bytes MgmtdTypes StorageTypes Checksums ChunkFiles ChunkMetaStore ChunkReplica TargetMap StorageService MetaCreate ReplicaInv ReplicaData ReplicaUpdate ReplicaCommit ReplicaTheorems ReplicationSpec ReplicationWorld ServiceLemmas ServiceParts ReplicationInv ReplicationSteps ReplicationRequests.

Section calm_steps.
Context {HCrc : Crc} {HLaws : CrcLaws} (config : ServiceConfig) (chainId : ChainId) (chain : list Z) (x : nat -> Handle) (gen : nat -> Z).
Context (issued : UpdateReq -> Prop).
#[local] Instance calm_persist : Persist := sc_force_persist (svc_store config).

Abbreviation n := (length chain).
Abbreviation Rel := (Rel config chainId chain x gen issued).
Abbreviation server_ok := (server_ok config chainId chain x gen).

Hypothesis Hsize : sizes_fit (svc_store config).
Hypothesis Hnodup : NoDup chain.
Hypothesis Hissued : forall r, issued r -> sane chainId r /\ uio_updateVer (ur_payload r) = 0 /\ uo_fromClient (ur_options r) = true.
Hypothesis Hsame : forall r r', issued r -> issued r' -> tag_key (ur_tag r) = tag_key (ur_tag r') -> op_of r = op_of r'.

(** A service that changed nothing a request relies on. *)
Record calm_server (i : nat) (sv sv' : Server) : Prop := {
  cs_routes : fewer_routes sv sv';
  cs_clients : sv_clients sv' = sv_clients sv;
  cs_chunkLocks : sv_chunkLocks sv' = sv_chunkLocks sv;
  cs_channelLocks : sv_channelLocks sv' = sv_channelLocks sv;
  cs_store : forall o, sg_objects (sv_storage sv) !! x i = Some o -> SInv (sto_store o) ->
    exists s', sg_objects (sv_storage sv') !! x i = Some (set_sto_store s' o) /\ SInv s'
      /\ forall id, cur s' id = cur (sto_store o) id /\ content s' id = content (sto_store o) id
}.

Lemma calm_step A w i a sv sv' el :
  Rel A w -> chain !! i = Some a -> w_servers w !! a = Some sv -> calm_server i sv sv' -> log_ok chain issued A (w_log w ++ el) ->
  Rel A (set_w_log (w_log w ++ el) (on_server a sv' w)).
Proof.
  intros HR Hi Hsv [C1 C2 C3 C4 C5] Hl. set (w' := set_w_log _ _). destruct (Rel_server config chainId chain x gen issued A w i a sv HR Hi Hsv) as [[Hr (o & Ho & Hg & HS & Hc)] Hcache].
  destruct (C5 o Ho HS) as (s' & Ho' & HS' & Hcalm).
  assert (forall k, cached_at chainId sv' k = cached_at chainId sv k) as Hca by (intros k; unfold cached_at; by rewrite C2).
  set (tid := fresh (dom (w_tasks w) : gset nat)). assert (w_tasks w !! tid = None) as Ht by (apply not_elem_of_dom, is_fresh).
  eapply (Rel_step config chainId chain x gen issued Hnodup A A w w' i a sv sv' tid None None [] [] el); [done|].
  split; rewrite ?app_nil_r; try done.
  - apply move_refl.
  - split.
    + split; [by eapply routed_fewer|]. exists (set_sto_store s' o). split_and!; [done..|]. cbn. intros id.
      eapply chunk_rel_same; [apply Hcalm..|apply Hc].
    + intros k. cbv zeta. rewrite Hca. apply Hcache.
  - intros t. by rewrite Ht.
  - intros t. cbn. by rewrite Ht.
  - intros k _. by rewrite C4.
  - intros c _. by rewrite C3.
  - intros c s1 s2 _. unfold store_of. rewrite Ho, Ho'. intros [= <-] [= <-]. unfold not_dirty. by rewrite (proj1 (Hcalm c)).
  - by intros am ?%elem_of_nil.
  - by intros kr ?%elem_of_nil.
  - apply (rl_bound HR).
  - by left.
Qed.

Lemma calm_silent A w i a sv sv' :
  Rel A w -> chain !! i = Some a -> w_servers w !! a = Some sv -> calm_server i sv sv' -> Rel A (on_server a sv' w).
Proof.
  intros HR Hi Hsv Hc. pose proof (calm_step A w i a sv sv' [] HR Hi Hsv Hc) as H. rewrite app_nil_r in H. apply H, HR.
Qed.

Lemma stop_calm i sv : calm_server i sv (set_sv_stopped true sv).
Proof. split; [by intros v allow t|done..|]. intros o Ho HS. exists (sto_store o). split; [cbn; rewrite Ho; by destruct o|done]. Qed.

Lemma device_calm i y rfaults wfaults now sv : calm_server i sv (new_device y rfaults wfaults now sv).
Proof.
  split; [by intros v allow t|done..|]. intros o Ho HS. cbn. destruct (decide (y = x i)) as [->|Hne].
  - rewrite lookup_alter_eq, Ho. eexists. split; [done|]. split; [by apply SInv_disk|]. intros id. done.
  - rewrite lookup_alter_ne by done. exists (sto_store o). split; [cbn; rewrite Ho; by destruct o|done].
Qed.

Lemma read_calm i sv sv' o s' : store_changed (x i) s' sv sv' -> sg_objects (sv_storage sv) !! x i = Some o -> calm (sto_store o) s' -> calm_server i sv sv'.
Proof.
  intros Hsc Ho Hc. split; try apply Hsc. intros o1 Ho1 _. rewrite Ho in Ho1. injection Ho1 as <-. exists s'. split; [by eapply changed_object|].
  split; [apply Hc|]. intros id. split; [apply Hc|by apply calm_content].
Qed.

(** A request of a client is recorded. *)
Lemma invoke_step A w i a sv req : Rel A w -> chain !! i = Some a -> w_servers w !! a = Some sv -> issued req -> Rel A (record (EInvoke req) w).
Proof.
  intros HR Hi Hsv Hreq. assert (on_server a sv w = w) as Ew.
  { unfold on_server, set_w_servers. rewrite insert_id by done. by destruct w. }
  pose proof (calm_step A w i a sv sv [EInvoke req] HR Hi Hsv) as H. rewrite Ew in H. apply H.
  - split; [by intros v allow t|done..|]. intros o Ho HS. exists (sto_store o). split; [cbn; rewrite Ho; by destruct o|done].
  - apply log_snoc; [apply HR|done|done|done].
Qed.

(** A read that shows a version shows the latest one. *)
Lemma read_log A w i a sv o readIO r data :
  Rel A w -> chain !! i = Some a -> w_servers w !! a = Some sv -> sg_objects (sv_storage sv) !! x i = Some o ->
  read_shows readIO (sto_store o) r data -> log_ok chain issued A (w_log w ++ [ERead readIO (io_updateVer r) data]).
Proof.
  intros HR Hi Hsv Ho (m & Hm & Hst & Hcv & Hu & Hd). set (id := gk_chunkId (rio_key readIO)) in *.
  destruct (Rel_server config chainId chain x gen issued A w i a sv HR Hi Hsv) as [[_ (o1 & Ho1 & _ & _ & Hc)] _]. rewrite Ho in Ho1. injection Ho1 as <-.
  assert (not_dirty (sto_store o) id) as Hnd by (intros m' Hm'; congruence).
  destruct (Hc id) as [H1 H2]. destruct (H2 Hnd) as (H3 & H4 & _). unfold old_version in H1, H3. rewrite Hm in H1, H3. cbn in H1, H3.
  pose proof (rl_spec HR id) as Hinv. pose proof (chain_lt _ _ _ Hi) as Hlt. pose proof (applied_length n _ Hinv i Hlt) as Hlen.
  apply log_snoc; [apply HR|..].
  - cbn. fold id. rewrite Hu. split; [lia|]. rewrite Hd, H4. by replace (Z.to_nat (cm_updateVer m)) with (sp_applied (A id) i) by lia.
  - intros id' ver [= <- <-]. fold id. split; [exists i; split; [done|lia]|]. intros op Hop. by apply (rl_hist HR) in Hop as [_ ?].
  - intros rio v d e ver [= <- <- <-] He Hev. destruct (lo_seen (rl_log HR) e _ _ He Hev) as (j & Hj & Hle). fold id in Hle.
    pose proof (readable_latest n _ Hinv i j Hlt Hj ltac:(lia)). lia.
Qed.

(** *** Every step of the world *)

Lemma free_alone A w tid t sv i : Rel A w -> w_tasks w !! tid = Some t -> w_servers w !! tk_address t = Some sv -> chain !! i = Some (tk_address t) ->
  tg_storageTarget (hd_target (tk_handler t)) = Some (x i) -> chunk_free (tk_handler t) sv = true -> alone w tid t.
Proof.
  intros HR Ht Hsv Hi Hx Hf tid' t' Hne Ht' Ea Hph E. unfold chunk_free in Hf. rewrite Hx in Hf. apply bool_decide_eq_true in Hf.
  apply Hf. destruct (Rel_task config chainId chain x gen issued A w tid' t' sv HR Ht' ltac:(by rewrite Ea)) as (j & Hj & Hok & _).
  assert (j = i) as -> by (eapply chain_index; [done|exact Hj|by rewrite Ea]). pose proof (to_phase Hok) as Hp.
  assert (working x A i sv (tk_handler t')) as Hw by (destruct (tk_phase t'); [done|done|done|by destruct Hp]). rewrite <-E. apply Hw.
Qed.

Lemma past_alone A w tid t : Rel A w -> w_tasks w !! tid = Some t -> tk_phase t <> PhLock -> alone w tid t.
Proof. intros HR Ht Hp tid' t' Hne Ht' Ea Hp' E. apply Hne. by eapply (rl_chunks HR). Qed.

Definition simulates (A A' : Specs) : Prop := forall id, A' id = A id \/ spec_step n (A id) (A' id).

Lemma forward_world_step A w tid t sv env reply p sv' (may : Prop) :
  Rel A w -> w_tasks w !! tid = Some t -> tk_phase t <> PhLock -> w_servers w !! tk_address t = Some sv ->
  (forall i, chain !! i = Some (tk_address t) -> task_ok chainId chain x A i sv (w_messages w) (w_log w) t ->
    (may -> (S i < n)%nat -> (sp_applied (A (payload_chunk (hd_req (tk_handler t)))) i <= sp_committed (A (payload_chunk (hd_req (tk_handler t)))) (S i))%nat)) ->
  match reply with
  | None => forward_attempt config env (tk_handler t) sv = (Ok p, sv') /\ (forall i, chain !! i = Some (tk_address t) -> chain !! S i = None -> may)
  | Some reply => forward_reply config env (tk_handler t) reply sv = (Ok p, sv')
      /\ match reply with Ok r => (result_ok r = false -> refused r) /\ (result_ok r = true -> may) | Err c => outside_code c | _ => False end
  end ->
  exists A', simulates A A' /\ Rel A' (progressed tid t p (on_server (tk_address t) sv' w)).
Proof.
  intros HR Ht Hph Hsv Hmay Hrun. destruct (Rel_task config chainId chain x gen issued A w tid t sv HR Ht Hsv) as (i & Hi & Hok & Hserver & Hcache).
  destruct (so_store Hserver) as (o & Ho & Hg & _). pose proof (past_alone A w tid t HR Ht Hph) as Hal.
  destruct (working_facts config chainId chain x gen A w t i sv o Hok Hserver Ho Hph) as (K1 & [K2 _] & _ & _ & K5 & K6 & K7 & K8 & _).
  eapply (progress_step config chainId chain x gen issued Hsize Hnodup Hissued Hsame A w tid t i sv o HR Ht Hsv Hi Hok Hserver Hcache Ho Hg Hal may); [done|by apply Hmay|].
  destruct reply as [reply|].
  - destruct Hrun as [Hrun Hrep]. pose proof (forward_reply_ok config chainId (tk_handler t) (x i) _ o _ (chain !! S i) sv (to_sane Hok) K2 (so_routed Hserver) Ho K8 K5 K6 K7
      env (tk_handler t) reply K1 eq_refl) as Hpost. unfold runs in Hpost. rewrite Hrun in Hpost. eapply post_weaken; [|apply Hpost].
    + intros (r & -> & Hr). by apply Hrep.
    + destruct reply; [by apply Hrep|done..].
  - destruct Hrun as [Hrun Hnone]. pose proof (forward_attempt_ok config chainId (tk_handler t) (x i) _ o _ (chain !! S i) sv (to_sane Hok) K2 (so_routed Hserver) Ho K8 K5 K6 K7
      env (tk_handler t) K1 eq_refl) as Hpost. unfold runs in Hpost. rewrite Hrun in Hpost. eapply post_weaken; [|apply Hpost]. by apply Hnone.
Qed.

Lemma wait_world_step A w tid t sv elapsed p sv' :
  Rel A w -> w_tasks w !! tid = Some t -> tk_phase t = PhWait -> w_servers w !! tk_address t = Some sv ->
  wait_round config elapsed (tk_handler t) sv = (Ok p, sv') ->
  exists A', simulates A A' /\ Rel A' (progressed tid t p (on_server (tk_address t) sv' w)).
Proof.
  intros HR Ht Hph Hsv Hrun. assert (tk_phase t <> PhLock) as Hne by congruence.
  destruct (Rel_task config chainId chain x gen issued A w tid t sv HR Ht Hsv) as (i & Hi & Hok & Hserver & Hcache).
  destruct (so_store Hserver) as (o & Ho & Hg & _). pose proof (past_alone A w tid t HR Ht Hne) as Hal.
  destruct (working_facts config chainId chain x gen A w t i sv o Hok Hserver Ho Hne) as (K1 & [K2 _] & _ & _ & K5 & K6 & K7 & K8 & _).
  eapply (progress_step config chainId chain x gen issued Hsize Hnodup Hissued Hsame A w tid t i sv o HR Ht Hsv Hi Hok Hserver Hcache Ho Hg Hal False); [done|done|].
  pose proof (wait_round_ok config chainId (tk_handler t) (x i) _ o _ (chain !! S i) sv (to_sane Hok) K2 (so_routed Hserver) Ho K8 K5 K6 K7
    False elapsed (tk_handler t) K1 eq_refl) as Hpost. unfold runs in Hpost. by rewrite Hrun in Hpost.
Qed.

Lemma request_world_step A w tid a req env sv res sv' :
  Rel A w -> issued req -> w_tasks w !! tid = None -> w_servers w !! a = Some sv -> update_begin config env req sv = (Ok res, sv') ->
  Rel A (begun tid a (FromClient req) res (on_server a sv' (record (EInvoke req) w))).
Proof.
  intros HR Hreq Ht Hsv Hrun. destruct (rl_places HR a sv Hsv) as [i Hi]. destruct (Hissued req Hreq) as (Hs & Hv & Hf).
  pose proof (invoke_step A w i a sv req HR Hi Hsv Hreq) as HR1. destruct (Rel_server config chainId chain x gen issued A w i a sv HR Hi Hsv) as [Hserver _].
  assert (EInvoke req ∈ w_log (record (EInvoke req) w)) as Hin by (cbn; apply elem_of_app; right; left).
  eapply (begin_step config chainId chain x gen issued Hsize Hnodup Hissued Hsame A _ tid i a sv req (FromClient req) HR1 Ht Hi Hsv).
  - split_and!; [done| |done..]. by exists req.
  - pose proof (update_begin_ok config chainId env req (x i) _ _ sv Hs (so_routed Hserver)) as Hpost. unfold runs in Hpost. by rewrite Hrun in Hpost.
Qed.

Lemma deliver_world_step A w tid k a req env sv res sv' :
  Rel A w -> w_messages w !! k = Some (a, req) -> w_tasks w !! tid = None -> w_servers w !! a = Some sv -> update_begin config env req sv = (Ok res, sv') ->
  Rel A (begun tid a (FromMessage k) res (on_server a sv' w)).
Proof.
  intros HR Hk Ht Hsv Hrun. destruct (rl_messages HR (a, req) (list_elem_of_lookup_2 _ _ _ Hk)) as (j & Hj & Hs & Hf & Hop & Hh & Hle). cbn in *.
  destruct (Rel_server config chainId chain x gen issued A w (S j) a sv HR Hj Hsv) as [Hserver _].
  eapply (begin_step config chainId chain x gen issued Hsize Hnodup Hissued Hsame A w tid (S j) a sv req (FromMessage k) HR Ht Hj Hsv).
  - split_and!; [done..|]. by exists j.
  - pose proof (update_begin_ok config chainId env req (x (S j)) _ _ sv Hs (so_routed Hserver)) as Hpost. unfold runs in Hpost. by rewrite Hrun in Hpost.
Qed.

Lemma lock_world_step A w tid t env sv res sv' :
  Rel A w -> w_tasks w !! tid = Some t -> tk_phase t = PhLock -> w_servers w !! tk_address t = Some sv ->
  chunk_free (tk_handler t) sv = true -> has_room sv (tk_handler t) -> transfer_ok (hd_req (tk_handler t)) (env_transfer env) ->
  handle_locked config env (tk_handler t) sv = (Ok res, sv') ->
  exists A', simulates A A' /\ Rel A' (updated_local tid t res (on_server (tk_address t) sv' w)).
Proof.
  intros HR Ht Hph Hsv Hfree Hroom Htr Hrun.
  destruct (Rel_task config chainId chain x gen issued A w tid t sv HR Ht Hsv) as (i & Hi & Hok & Hserver & Hcache).
  destruct (so_store Hserver) as (o & Ho & Hg & HS & _).
  pose proof (free_alone A w tid t sv i HR Ht Hsv Hi (to_target Hok) Hfree) as Hal.
  eapply (locked_step config chainId chain x gen issued Hsize Hnodup Hissued Hsame A w tid t i sv o HR Ht Hsv Hi Hok Hserver Hcache Ho Hg Hal); [done|].
  pose proof (handle_locked_ok config chainId env (tk_handler t) (x i) o _ _ sv Hsize (to_sane Hok) (so_routed Hserver) (to_target Hok)
    (to_reliable Hok) (to_channel Hok) Ho HS (Hroom _ _ (to_target Hok) Ho) Htr) as Hpost. unfold runs in Hpost. by rewrite Hrun in Hpost.
Qed.

Lemma reply_committed A w tid t k r i sv :
  Rel A w -> w_tasks w !! tid = Some t -> tk_phase t = PhReply k -> (k, r) ∈ w_replies w -> chain !! i = Some (tk_address t) ->
  task_ok chainId chain x A i sv (w_messages w) (w_log w) t -> result_ok r = true ->
  (sp_applied (A (payload_chunk (hd_req (tk_handler t)))) i <= sp_committed (A (payload_chunk (hd_req (tk_handler t)))) (S i))%nat.
Proof.
  intros HR Ht Hph Hr Hi Hok Hres. pose proof (to_phase Hok) as Hp. rewrite Hph in Hp.
  destruct Hp as [(_ & _ & Ha & _) (a & m & Hm & Hsucc & [_ Eo Ev _])].
  destruct (rl_replies HR _ Hr) as (a' & m' & j & Hm' & Hj & Hc & _). cbn in *. rewrite Hm in Hm'. injection Hm' as <- <-.
  assert (S j = S i) as [= ->] by (by eapply chain_index). assert (payload_chunk m = payload_chunk (hd_req (tk_handler t))) as Ec by (by apply (f_equal op_chunk) in Eo).
  specialize (Hc Hres). rewrite Ev, Ec in Hc. lia.
Qed.

Lemma read_world_step A w a readIO flags ct alloc link added post sv r data sv' :
  Rel A w -> w_servers w !! a = Some sv -> servable sv -> read_wf readIO -> vc_chainId (gk_vChainId (rio_key readIO)) = chainId -> committed_read flags ->
  batchRead config alloc link [] [added] post (mkBatchReadReq [readIO] flags ct) sv = (Ok (Ok [(r, data)]), sv') ->
  Rel A (read_done readIO r data (on_server a sv' w)).
Proof.
  intros HR Hsv Hb Hw Hc Hf Hrun. destruct (rl_places HR a sv Hsv) as [i Hi].
  destruct (Rel_server config chainId chain x gen issued A w i a sv HR Hi Hsv) as [Hserver _]. destruct (so_store Hserver) as (o & Ho & _ & HS & _).
  pose proof (batchRead_ok config chainId readIO flags ct alloc link added post (x i) o _ _ sv (so_routed Hserver) Ho HS Hb Hw Hc Hf) as Hpost.
  unfold runs in Hpost. rewrite Hrun in Hpost. destruct Hpost as (s' & Hsc & Hcalm & Hshow). cbn in Hsc. specialize (Hshow r data eq_refl).
  pose proof (read_calm i sv sv' o s' Hsc Ho Hcalm) as Hcs. unfold read_done. destruct (result_ok r) eqn:Er.
  - eapply (calm_step A w i a sv sv' [ERead readIO (io_updateVer r) data] HR Hi Hsv Hcs). eapply read_log; try done. by apply Hshow.
  - by eapply calm_silent.
Qed.

Lemma world_step_sim A w w' :
  Rel A w -> world_step config chainId issued w w' -> exists A', simulates A A' /\ Rel A' w'.
Proof.
  intros HR Hst. assert (forall w'', Rel A w'' -> exists A', simulates A A' /\ Rel A' w'') as Hstay by (intros w'' H; exists A; split; [by left|done]).
  destruct Hst.
  - by eapply Hstay, request_world_step.
  - by eapply Hstay, deliver_world_step.
  - by eapply lock_world_step.
  - eapply (forward_world_step A w tid t sv env None p sv' (forall i, chain !! i = Some (tk_address t) -> chain !! S i = None)); try done; [congruence| |].
    + intros i Hi _ Hm Hlt. apply Hm in Hi. apply lookup_ge_None in Hi. lia.
    + split; [done|]. intros i Hi Hnone j Hj. assert (j = i) as -> by (by eapply chain_index). done.
  - by eapply wait_world_step.
  - destruct (decide (result_ok r = true)) as [Er|Er].
    + eapply (forward_world_step A w tid t sv env (Some (Ok r)) p sv' True); try done; [congruence| |].
      * intros i Hi Hok _ _. by eapply reply_committed.
      * split; [done|]. split; [congruence|done].
    + eapply (forward_world_step A w tid t sv env (Some (Ok r)) p sv' False); try done; [congruence|].
      split; [done|]. split; [|done]. match goal with H : (k, r) ∈ _ |- _ => destruct (rl_replies HR _ H) as (_ & _ & _ & _ & _ & _ & Href) end. exact Href.
  - eapply (forward_world_step A w tid t sv env (Some (Err c)) p sv' False); try done. congruence.
  - by eapply Hstay, read_world_step.
  - match goal with H : w_servers w !! _ = Some _ |- _ => destruct (rl_places HR _ _ H) as [i Hi] end. eapply Hstay, calm_silent; [done..|apply device_calm].
  - match goal with H : w_servers w !! _ = Some _ |- _ => destruct (rl_places HR _ _ H) as [i Hi] end. eapply Hstay, calm_silent; [done..|apply stop_calm].
Qed.
End calm_steps.
