(* ===== verification/ReplicationTheorems.v ===== *)
(** * Chain replication is linearizable

    The services of a chain, with messages that are lost, repeated and
    reordered, requests that are retried and devices that fail, refine the
    specification of [ReplicationSpec]; what clients see is linearizable. *)

From Stdlib Require Import ZArith Lia.
From stdpp Require Import base gmap functions list strings.
From S2P Require Import Prelude StatusCode Bytes MgmtdTypes RoutingInfo MgmtdState ChainTheorems StorageTypes Checksums ChunkFiles ChunkMetaStore MetaCreate MetaSystem ChunkReplica TargetMap TargetMapTheorems StorageService ReplicaInv ReplicaData ReplicaUpdate ReplicaCommit ReplicaTheorems ReplicationSpec ReplicationWorld ServiceLemmas ChainWiring ServiceParts ReplicationInv ReplicationSteps ReplicationRequests ReplicationSimulation.

(** Clients: well-formed requests, and one request for each sequence number of a
    channel. *)
Record clients_ok (chainId : ChainId) (issued : UpdateReq -> Prop) : Prop := {
  cl_sane : forall r, issued r -> sane chainId r /\ uio_updateVer (ur_payload r) = 0 /\ uo_fromClient (ur_options r) = true;
  cl_once : forall r r', issued r -> issued r' -> tag_key (ur_tag r) = tag_key (ur_tag r') -> op_of r = op_of r'
}.

(** A service of a new chain: routed, and without chunks and requests. *)
Record new_server (config : ServiceConfig) (chainId : ChainId) `{Crc} (x : Handle) (gen : Z) (head : bool) (next : option Z) (sv : Server) : Prop := {
  ns_routed : routed_as chainId x head next sv;
  ns_store : exists o, sg_objects (sv_storage sv) !! x = Some o /\ sto_generationId o = gen /\ store_ok (svc_store config) (sto_store o)
    /\ forall id, cur (sto_store o) id = None;
  ns_clients : sv_clients sv = ∅
}.

Record new_chain (config : ServiceConfig) (chainId : ChainId) `{Crc} (chain : list Z) (x : nat -> Handle) (gen : nat -> Z) (w : World) : Prop := {
  nc_chain : NoDup chain;
  nc_servers : forall i a, chain !! i = Some a -> exists sv, w_servers w !! a = Some sv
    /\ new_server config chainId (x i) (gen i) (bool_decide (i = O)) (chain !! S i) sv;
  nc_places : forall a sv, w_servers w !! a = Some sv -> exists i, chain !! i = Some a;
  nc_idle : w_tasks w = ∅ /\ w_messages w = [] /\ w_replies w = [] /\ w_log w = []
}.

Section theorems.
Context (config : ServiceConfig) (chainId : ChainId) {HCrc : Crc} {HLaws : CrcLaws} (chain : list Z) (x : nat -> Handle) (gen : nat -> Z) (issued : UpdateReq -> Prop).
#[local] Instance theorems_persist : Persist := sc_force_persist (svc_store config).
Abbreviation Rel := (Rel config chainId chain x gen issued).

Lemma new_chain_rel w : new_chain config chainId chain x gen w -> Rel (fun _ => Spec_init) w.
Proof.
  intros [N1 N2 N3 (E1 & E2 & E3 & E4)]. split.
  - intros _. apply spec_inv_init.
  - done.
  - by intros id op ?%elem_of_nil.
  - done.
  - intros i a Ha. destruct (N2 i a Ha) as (sv & Hsv & [Hr (o & Ho & Hg & HS & Hc) Hcl]). exists sv. split_and!; [done| |].
    + split; [done|]. exists o. split_and!; [done|done|done|]. intros id. unfold chunk_rel, old_version, content, in_use. rewrite Hc. cbn. done.
    + intros k. unfold cached_at. rewrite Hcl, lookup_empty. cbn. done.
  - intros tid t. by rewrite E1, lookup_empty.
  - intros tid tid' t t'. by rewrite E1, lookup_empty.
  - intros tid tid' t t'. by rewrite E1, lookup_empty.
  - rewrite E2. by intros am ?%elem_of_nil.
  - rewrite E3. by intros am ?%elem_of_nil.
  - rewrite E4. split; [by intros e ?%elem_of_nil|by intros e id ver ?%elem_of_nil|by intros []|by intros []].
  - intros a sv v op _ _ [_ H]. done.
Qed.

Lemma reachable_rel w w' :
  sizes_fit (svc_store config) -> clients_ok chainId issued -> new_chain config chainId chain x gen w -> rtc (world_step config chainId issued) w w' ->
  exists A, (forall id, rtc (spec_step (length chain)) Spec_init (A id)) /\ Rel A w'.
Proof.
  intros Hsize [C1 C2] Hn Hs. pose proof (nc_chain _ _ _ _ _ _ Hn) as Hnd.
  assert (exists A : Specs, Rel A w /\ forall id, rtc (spec_step (length chain)) Spec_init (A id)) as (A & HR & HA)
    by (exists (fun _ => Spec_init); split; [by apply new_chain_rel|done]).
  clear Hn. revert A HR HA. induction Hs as [w|w w1 w2 Hw Hs IH]; intros A HR HA; [by exists A|].
  destruct (world_step_sim config chainId chain x gen issued Hsize Hnd C1 C2 A w w1 HR Hw) as (A1 & Hsim & HR1).
  apply (IH A1 HR1). intros id. destruct (Hsim id) as [->|Hst]; [apply HA|]. eapply rtc_r; [apply HA|exact Hst].
Qed.

(** C2: The chain refines its specification: every chunk has a history reached
    by the steps of the specification, and the chunk of every replica has the
    committed version of it and, unless dirty, the applied version and the
    bytes of the history up to it.  This is for the runs of [world_step] from a
    new chain: chunks are written, truncated and extended, not removed; the
    routing does not change and all targets serve; messages, answers and devices
    may fail, but no read of the device while a chunk is created; versions stay
    below 2^32 - 1. *)
Theorem chain_refines_spec w w' :
  sizes_fit (svc_store config) -> clients_ok chainId issued -> new_chain config chainId chain x gen w -> rtc (world_step config chainId issued) w w' ->
  exists A : ChunkId -> Spec, (forall id, rtc (spec_step (length chain)) Spec_init (A id))
    /\ forall i a, chain !! i = Some a -> exists sv o, w_servers w' !! a = Some sv /\ sg_objects (sv_storage sv) !! x i = Some o
         /\ store_ok (svc_store config) (sto_store o) /\ forall id, chunk_rel i (sto_store o) id (A id).
Proof.
  intros Hsize Hcl Hn Hs. destruct (reachable_rel w w' Hsize Hcl Hn Hs) as (A & HA & HR). exists A. split; [done|]. intros i a Ha.
  destruct (rl_servers HR i a Ha) as (sv & Hsv & [_ (o & Ho & _ & HS & Hc)] & _). by exists sv, o.
Qed.

(** C1: What clients see of a chain is linearizable: one history for each chunk, in
    which no request occurs twice, explains every answer and every read; reads
    return the bytes of the latest version anyone has seen, and a request sent
    after a version was seen gets a later one.  This is for every run of the
    services of a chain in which clients write, truncate, extend and read
    chunks, messages are delivered late, repeatedly or never, answers are lost,
    senders give up and retry, and devices fail, under these conditions: the
    targets are empty at the start, the routing does not change and all targets
    serve (no resync, no restart, no abort of a process), requests are
    well-formed and a channel does not use a sequence number for two of them,
    reads ask for committed data, no chunk is removed, no read of the device
    fails while a chunk is created, versions stay below 2^32 - 1, and errors of
    the transport have none of the codes of the storage service. *)
Theorem chain_linearizable w w' :
  sizes_fit (svc_store config) -> clients_ok chainId issued -> new_chain config chainId chain x gen w -> rtc (world_step config chainId issued) w w' ->
  exists hist, linearized (w_log w') hist.
Proof.
  intros Hsize Hcl Hn Hs. destruct (reachable_rel w w' Hsize Hcl Hn Hs) as (A & HA & HR). exists (fun id => sp_hist (A id)). split.
  - intros id id' i j op op' H1 H2 E.
    pose proof (rl_hist HR id op (list_elem_of_lookup_2 _ _ _ H1)) as [E1 _]. pose proof (rl_hist HR id' op' (list_elem_of_lookup_2 _ _ _ H2)) as [E2 _].
    assert (forall k o l, sp_hist (A l) !! k = Some o -> op_chunk o = l -> hist_at A (Z.of_nat k + 1) o) as Hat.
    { intros k o l Hk El. split; [lia|]. rewrite El, <-Hk. f_equal. lia. }
    destruct (hist_once config chainId chain x gen issued (cl_once _ _ Hcl) A w' _ _ op op' HR (Hat i op id H1 E1) (Hat j op' id' H2 E2) E) as [-> Ev].
    split; [congruence|lia].
  - intros req r He Hr. pose proof (lo_events (rl_log HR) _ He Hr) as [Hv Hh]. split; [lia|done].
  - intros rio v data He. apply (lo_events (rl_log HR) _ He).
  - apply (lo_latest (rl_log HR)).
  - intros l1 e l2 id ver req r E Hev Hin Hr Hid Hno. destruct (decide (ver < io_updateVer r)) as [|Hge]; [done|exfalso].
    assert (EAnswer req r ∈ w_log w') as He by (rewrite E; apply elem_of_app; right; right; done).
    destruct (lo_before (rl_log HR) l1 e l2 id ver (io_updateVer r) (op_of req) E Hev (lo_events (rl_log HR) _ He Hr) Hid ltac:(lia)) as (r' & Hr' & Eo).
    apply (Hno r' Hr'). by apply (f_equal op_tag) in Eo; cbn in Eo; rewrite Eo.
Qed.

(** C5: An acknowledged update is on every replica: committed at the last one,
    and every replica whose chunk is not dirty has at least its version, with
    bytes that include it.  This is for the runs of [world_step] from a new
    chain: chunks are written, truncated and extended, not removed; the routing
    does not change and all targets serve; messages, answers and devices may
    fail, but no read of the device while a chunk is created; versions stay
    below 2^32 - 1. *)
Theorem acknowledged_update_kept w w' req r :
  sizes_fit (svc_store config) -> clients_ok chainId issued -> new_chain config chainId chain x gen w -> rtc (world_step config chainId issued) w w' ->
  EAnswer req r ∈ w_log w' -> result_ok r = true ->
  exists before after, io_updateVer r = Z.of_nat (S (length before))
    /\ forall i a, chain !! i = Some a -> exists sv o, w_servers w' !! a = Some sv /\ sg_objects (sv_storage sv) !! x i = Some o
         /\ (S i = length chain -> io_updateVer r <= (old_version (sto_store o) (payload_chunk req)).2)
         /\ (not_dirty (sto_store o) (payload_chunk req) -> io_updateVer r <= (old_version (sto_store o) (payload_chunk req)).1
             /\ exists l, l `prefix_of` after /\ default [] (content (sto_store o) (payload_chunk req)) = replay (before ++ op_of req :: l)).
Proof.
  intros Hsize Hcl Hn Hs He Hr. destruct (reachable_rel w w' Hsize Hcl Hn Hs) as (A & HA & HR). set (id := payload_chunk req).
  destruct (lo_events (rl_log HR) _ He Hr) as [Hv Hh]. cbn in Hh. fold id in Hh.
  destruct (lo_seen (rl_log HR) _ id (io_updateVer r) He ltac:(cbn; by rewrite Hr)) as (j & Hj & Hc).
  pose proof (rl_spec HR id) as Hinv. set (k := Z.to_nat (io_updateVer r - 1)) in *. pose proof (lookup_lt_Some _ _ _ Hh) as Hk.
  pose proof (take_drop_middle _ _ _ Hh) as Hsplit. exists (take k (sp_hist (A id))), (drop (S k) (sp_hist (A id))).
  split; [rewrite length_take; lia|]. intros i a Ha. destruct (rl_servers HR i a Ha) as (sv & Hsv & [_ (o & Ho & _ & HS & Hrel)] & _).
  exists sv, o. split_and!; [done|done|..]; destruct (Hrel id) as [C1 C2]; pose proof (chain_lt _ _ _ Ha) as Hi.
  - intros El. rewrite C1. pose proof (committed_mono _ _ Hinv j i ltac:(lia) Hi). lia.
  - intros Hnd. destruct (C2 Hnd) as (C3 & C4 & _). assert (S k <= sp_applied (A id) i)%nat as Hle.
    { assert (sp_committed (A id) j <= sp_applied (A id) i)%nat; [|lia]. destruct (decide (j <= i)%nat).
      - pose proof (committed_mono _ _ Hinv j i ltac:(lia) Hi). pose proof (sv_order _ _ Hinv i Hi). lia.
      - pose proof (applied_mono _ _ Hinv i j ltac:(lia) Hj). pose proof (sv_order _ _ Hinv j Hj). lia. }
    split; [lia|]. exists (take (sp_applied (A id) i - S k) (drop (S k) (sp_hist (A id)))). split; [apply prefix_take|]. rewrite C4. f_equal.
    rewrite <-Hsplit at 1. rewrite take_app_ge by (rewrite length_take; lia). f_equal. rewrite length_take.
    replace (sp_applied (A id) i - k `min` length (sp_hist (A id)))%nat with (S (sp_applied (A id) i - S k)) by lia. done.
Qed.
End theorems.

(** * A run of a chain of two services

    The routing information of the manager wires two services; a client writes a
    chunk, the write is forwarded, committed and acknowledged, a message is
    delivered twice, and the chunk is read from the last service. *)

#[local] Existing Instance Crc_real.
#[local] Existing Instance Crc_real_laws.

(** ** The routing information *)

Definition run_node (nid address : Z) : NodeInfoWrapper :=
  NodeInfoWrapper_make (mkNodeInfo (mkFbsAppInfo nid "storage" 0 [mkServiceGroupInfo [] [address]] ReleaseVersion_default "") NT_STORAGE HEARTBEAT_CONNECTED 0 [] 0 CS_NORMAL) 5.
Definition run_target (tid nid : Z) : TargetInfo :=
  TargetInfo_make (mkFlatTargetInfo tid PS_SERVING LS_UPTODATE 7 (Some nid) (Some 0) 0) 5 5.
Definition run_ri : RoutingInfo :=
  mkRoutingInfo false 3 {[ 10 := run_node 10 1010; 11 := run_node 11 1011 ]} ∅ {[ 7 := two_targets ]} ∅ ∅ ∅
    {[ 101 := run_target 101 10; 102 := run_target 102 11 ]}.

Lemma run_ri_wf : ri_wf run_ri.
Proof.
  split; cbn.
  - intros cid c [<- <-]%lookup_singleton_Some. split; [done|apply two_targets_ok].
  - intros cid c cti [<- <-]%lookup_singleton_Some Hin. cbn in Hin. rewrite !elem_of_cons, elem_of_nil in Hin.
    destruct Hin as [->|[->|[]]]; eexists; (split; [reflexivity|done]).
  - intros tid ti [[<- <-]|[_ [<- <-]%lookup_singleton_Some]]%lookup_insert_Some; (split; [done|]); exists two_targets; (split; [done|]);
    change (chain_ids two_targets) with [101; 102]; rewrite !elem_of_cons; auto.
  - done.
  - intros cid [? ?]. done.
  - by intros nid node [[<- <-]|[_ [<- <-]%lookup_singleton_Some]]%lookup_insert_Some.
Qed.

Lemma run_wired : wired run_ri two_targets [1010; 1011].
Proof.
  split; [cbn; lia| | |done].
  - intros [|[|j]] cti a a' [= <-] [= <-]; cbn; by intros [= <-].
  - by intros [|[|j]] cti _ [= <-].
Qed.

(** ** The services *)

Definition run_config : ServiceConfig := mkServiceConfig sample_store_config false 1000000 true 1000 false.
Definition run_object (tid : Z) : StorageTarget :=
  mkStorageTarget (mkTargetConfig (mkPhysicalConfig tid 1 [4096] false 1) ["data"; "target"] 7 "" true true 0) NoFile sample_s0 {[ 4096 ]} 0 3.
(** A service with one target, before it has routing information. *)
Definition run_added (tid : Z) : Storage := (updateTargetMap (tm_addStorageTarget 0) (mkStorage TargetMap_empty {[ 0 := run_object tid ]})).2.
Definition run_server (tid : Z) : Server :=
  mkServer (updateTargetMap (tm_updateRouting sample_store_config (Some (flattenRoutingInfo false run_ri))) (run_added tid)).2 ∅ false ∅ ∅.

Lemma run_added_ok tid : tm_ok (run_added tid).
Proof.
  set (s := mkStorage TargetMap_empty {[ 0 := run_object tid ]}).
  assert (tm_ok s) as Hs by (split; intros id t; cbn; by rewrite lookup_empty).
  pose proof (add_ok 0 s Hs ltac:(intros id t; cbn; by rewrite lookup_empty) ltac:(by exists (run_object tid))) as H. unfold runs in H.
  unfold run_added, updateTargetMap. fold s. destruct (tm_addStorageTarget 0 s) as [[[]|c| |] s']; cbn in H; destruct H as [Hst H]; [apply H|..].
  all: by eapply (tm_ok_stay s).
Qed.

Lemma run_added_holds i tid : two_targets.(ci_targets) !! i = Some (mkChainTargetInfo tid PS_SERVING) -> holds_target two_targets i 0 (sg_map (run_added tid)).
Proof.
  intros Hi. assert (i = O /\ tid = 101 \/ i = 1%nat /\ tid = 102) as [[-> ->]|[-> ->]].
  { destruct i as [|[|i]]; cbn in Hi; [left|right|done]; by injection Hi as <-. }
  - split; [do 2 eexists; split_and!; [done|vm_compute; reflexivity|done]|]. by intros [|[|j]] cti [= <-] Hne.
  - split; [do 2 eexists; split_and!; [done|vm_compute; reflexivity|done]|]. by intros [|[|j]] cti [= <-] Hne.
Qed.

Lemma run_routed i tid : two_targets.(ci_targets) !! i = Some (mkChainTargetInfo tid PS_SERVING) ->
  routed_as 7 0 (bool_decide (i = O)) ([1010; 1011] !! S i) (run_server tid).
Proof.
  intros Hi. assert (i = O /\ tid = 101 \/ i = 1%nat /\ tid = 102) as Hc.
  { destruct i as [|[|i]]; cbn in Hi; [left|right|done]; by injection Hi as <-. }
  pose proof (updateRouting_wires sample_store_config false run_ri 7 two_targets [1010; 1011] i 0 (mkServer (run_added tid) ∅ false ∅ ∅)
    run_ri_wf eq_refl run_wired ltac:(by apply lookup_lt_Some in Hi) (run_added_ok tid) (run_added_holds i tid Hi)) as H. cbn [sv_storage] in H. unfold run_server.
  assert ((updateTargetMap (tm_updateRouting sample_store_config (Some (flattenRoutingInfo false run_ri))) (run_added tid)).1 = Ok tt) as E
    by (destruct Hc as [[-> ->]|[-> ->]]; vm_compute; reflexivity).
  destruct (updateTargetMap _ (run_added tid)) as [o st']. cbn in E. subst o. exact H.
Qed.

Definition run_handle (i : nat) : Handle := 0.
Definition run_gen (i : nat) : Z := 3.
Definition run_world : World := mkWorld {[ 1010 := run_server 101; 1011 := run_server 102 ]} ∅ [] [] [].

Lemma run_new_server i tid : two_targets.(ci_targets) !! i = Some (mkChainTargetInfo tid PS_SERVING) ->
  new_server run_config 7 0 3 (bool_decide (i = O)) ([1010; 1011] !! S i) (run_server tid).
Proof.
  intros Hi. assert (i = O /\ tid = 101 \/ i = 1%nat /\ tid = 102) as Hc.
  { destruct i as [|[|i]]; cbn in Hi; [left|right|done]; by injection Hi as <-. }
  split; [by apply run_routed| |done]. exists (run_object tid). split_and!; [destruct Hc as [[-> ->]|[-> ->]]; vm_compute; reflexivity|done|apply sample_s0_ok|].
  intros id. change (cur sample_s0 id = None). unfold cur. vm_compute. reflexivity.
Qed.

Lemma run_new_chain : new_chain run_config 7 [1010; 1011] run_handle run_gen run_world.
Proof.
  split; [by repeat (constructor; [set_solver|]); constructor| | |done].
  - intros [|[|i]] a [= <-]; [exists (run_server 101)|exists (run_server 102)]; (split; [reflexivity|]);
      [apply (run_new_server 0)|apply (run_new_server 1)]; done.
  - intros a sv. cbn. intros [[<- <-]|[_ [<- <-]%lookup_singleton_Some]]%lookup_insert_Some; [by exists O|by exists 1%nat].
Qed.

(** ** The clients *)

Definition run_key : GlobalKey := mkGlobalKey (mkVersionedChainId 7 1) [1].
Definition run_request : UpdateReq :=
  write_request (mkUpdateIO 10 3 4096 run_key [5; 6; 7] 0 UT_WRITE (checksum_of_buffer CHECKSUM_CRC32C [5; 6; 7]) [])
    (mkMessageTag 9 1 (mkUpdateChannel 2 1)) 0 0.
Definition run_read : ReadIO := mkReadIO 8 10 run_key 10.
Definition run_issued (r : UpdateReq) : Prop := r ∈ [run_request].

Lemma run_clients : clients_ok 7 run_issued.
Proof.
  split; [|by intros r r' ->%list_elem_of_singleton ->%list_elem_of_singleton]. intros r ->%list_elem_of_singleton. split_and!; [|done|done]. split; cbn; try done; try lia.
Qed.

(** ** The run *)

Definition run_env : Env := mkEnv (Ok [5; 6; 7]) (Ok tt) false 1000.
(** The message is delivered again after the second service has committed, and
    the first service takes the second answer. *)
Definition run_actions : list Action :=
  [ARequest 0 1010 run_request run_env; ALock 0 run_env; AForward 0 run_env;
   ADeliver 1 0 run_env; ALock 1 run_env; AForward 1 run_env; ADeliver 2 0 run_env;
   AReply 0 1 run_env; ARead 1011 run_read 0 CHECKSUM_NONE (Ok tt) (Ok tt) (Ok tt) (Ok tt)].

Definition run_final : World := default run_world (world_run run_config 7 [run_request] run_actions run_world).
Definition run_log : list Event := Eval vm_compute in w_log run_final.

Lemma run_log_eq : w_log run_final = run_log.
Proof. vm_cast_no_check (eq_refl run_log). Qed.

Lemma run_done : is_Some (world_run run_config 7 [run_request] run_actions run_world).
Proof.
  assert (match world_run run_config 7 [run_request] run_actions run_world with Some _ => true | None => false end = true) as E
    by (vm_cast_no_check (eq_refl true)).
  destruct (world_run _ _ _ _ _); [by eexists|done].
Qed.

Lemma run_ok : rtc (world_step run_config 7 run_issued) run_world run_final.
Proof. apply (world_run_sound run_config 7 [run_request] run_actions). unfold run_final. by destruct run_done as [w ->]. Qed.

Lemma chain_refines_spec_witness :
  exists A : ChunkId -> Spec, (forall id, rtc (spec_step 2) Spec_init (A id))
    /\ forall i a, [1010; 1011] !! i = Some a -> exists sv o, w_servers run_final !! a = Some sv /\ sg_objects (sv_storage sv) !! run_handle i = Some o
         /\ store_ok sample_store_config (sto_store o) /\ forall id, chunk_rel i (sto_store o) id (A id).
Proof.
  exact (chain_refines_spec run_config 7 [1010; 1011] run_handle run_gen run_issued run_world run_final sample_fit run_clients run_new_chain run_ok).
Defined.

Lemma chain_linearizable_witness :
  (length run_log = 3)%nat /\ exists hist, linearized (w_log run_final) hist.
Proof.
  split; [done|].
  exact (chain_linearizable run_config 7 [1010; 1011] run_handle run_gen run_issued run_world run_final sample_fit run_clients run_new_chain run_ok).
Defined.

Definition run_answer : IOResult := Eval vm_compute in match run_log with [_; EAnswer _ r; _] => r | _ => IOResult_default end.

Lemma run_answered : EAnswer run_request run_answer ∈ w_log run_final.
Proof. rewrite run_log_eq. apply (list_elem_of_lookup_2 _ 1). vm_compute. reflexivity. Qed.

Lemma acknowledged_update_kept_witness :
  exists before after, io_updateVer run_answer = Z.of_nat (S (length before))
    /\ forall i a, [1010; 1011] !! i = Some a -> exists sv o, w_servers run_final !! a = Some sv /\ sg_objects (sv_storage sv) !! run_handle i = Some o
         /\ (S i = 2%nat -> io_updateVer run_answer <= (old_version (sto_store o) [1]).2)
         /\ (not_dirty (sto_store o) [1] -> io_updateVer run_answer <= (old_version (sto_store o) [1]).1
             /\ exists l, l `prefix_of` after /\ default [] (content (sto_store o) [1]) = replay (before ++ op_of run_request :: l)).
Proof.
  exact (acknowledged_update_kept run_config 7 [1010; 1011] run_handle run_gen run_issued run_world run_final run_request run_answer
    sample_fit run_clients run_new_chain run_ok run_answered eq_refl).
Defined.

Lemma chain_wiring_witness :
  let '(o, st') := updateTargetMap (tm_updateRouting sample_store_config (Some (flattenRoutingInfo false run_ri))) (run_added 101) in
  match o with
  | Ok _ => routed_as 7 0 true (Some 1011) (set_sv_storage st' (mkServer (run_added 101) ∅ false ∅ ∅))
  | Err _ => sg_map st' = sg_map (run_added 101)
  | _ => False
  end.
Proof.
  exact (chain_wiring sample_store_config false run_ri 7 two_targets [1010; 1011] 0 0 (mkServer (run_added 101) ∅ false ∅ ∅)
    run_ri_wf eq_refl run_wired ltac:(cbn; lia) (run_added_ok 101) (run_added_holds 0 101 eq_refl)).
Defined.
