(* ===== verification/FsTypes.v ===== *)
(** * Data of the meta service ([src/fbs/meta/{Common,Schema}.*], [src/fbs/core/user])

    Inodes, directory entries, access rights and file layouts.  A [Path] is the
    sequence of components that the iterator of [boost::filesystem::path]
    yields: the root directory is the component ["/"].  A [ClientId] is its
    UUID, which is what its comparison looks at. *)

From stdpp Require Import base gmap list strings.
From Stdlib Require Import ZArith Lia.
From S2P Require Import Prelude StatusCode MgmtdTypes.

Abbreviation InodeId := Z (only parsing).
Abbreviation Uuid := Z (only parsing).
Abbreviation ClientId := Z (only parsing).
Abbreviation Path := (list string) (only parsing).

(** ** Status codes of the meta service *)

Definition MetaCode_kBadFileSystem : Z := 3011.
Definition MetaCode_kInodeIdAllocFailed : Z := 3012.
Definition MetaCode_kInvalidFileLayout : Z := 3013.
Definition MetaCode_kFileHasHole : Z := 3014.
Definition MetaCode_kBusy : Z := 3019.
Definition MetaCode_kFoundBug : Z := 3999.
Definition MgmtdClientCode_kRoutingInfoNotReady : Z := 6004.

(** ** Flags of the operating system *)

Definition O_ACCMODE : Z := 3.
Definition O_EXCL : Z := 128.
Definition O_TRUNC : Z := 512.
Definition O_APPEND : Z := 1024.
Definition O_DIRECTORY : Z := 65536.
Definition AT_SYMLINK_NOFOLLOW : Z := 256.
Definition AT_REMOVEDIR : Z := 512.
Definition AT_SYMLINK_FOLLOW : Z := 1024.
Definition AT_EMPTY_PATH : Z := 4096.
Definition FS_IMMUTABLE_FL : Z := 16.
Definition FS_NEW_CHUNK_ENGINE : Z := 1.
Definition FS_CHAIN_ALLOCATION_FL : Z := 4096.
Definition FS_HUGE_FILE_FL : Z := 262144.
Definition FS_FL_INHERITABLE : Z := Z.lor FS_CHAIN_ALLOCATION_FL FS_NEW_CHUNK_ENGINE.
Definition ALLPERMS : Z := 4095.
Definition S_ISUID : Z := 2048.
Definition S_ISGID : Z := 1024.
Definition S_ISVTX : Z := 512.
Definition NAME_MAX : nat := 255.

(** [x & bits] as a condition, and [BitFlags::contains]. *)
Definition has_bits (x bits : Z) : bool := negb (Z.land x bits =? 0).
Definition contains (x bits : Z) : bool := Z.land x bits =? bits.

Definition AccessType_EXEC : Z := 1.
Definition AccessType_WRITE : Z := 2.
Definition AccessType_READ : Z := 4.

(** [OpenFlags::accessType] and [valid]. *)
Definition accessType (flags : Z) : Z :=
  let mode := Z.land flags O_ACCMODE in
  if mode =? 0 then AccessType_READ
  else if mode =? 1 then AccessType_WRITE
  else Z.lor AccessType_READ AccessType_WRITE.

Definition OpenFlags_valid (flags : Z) : outcome unit :=
  if contains flags O_DIRECTORY && (negb (accessType flags =? AccessType_READ) || contains flags O_TRUNC)
  then Err kInvalidArg else Ok tt.

Definition followLastSymlink (flags : Z) : bool :=
  contains flags AT_SYMLINK_FOLLOW && negb (contains flags AT_SYMLINK_NOFOLLOW).

(** ** Users and access rights *)

Record UserInfo := mkUserInfo { us_uid : Z; us_gid : Z; us_groups : list Z }.

Definition isRoot (u : UserInfo) : bool := us_uid u =? 0.
Definition inGroup (u : UserInfo) (group : Z) : bool :=
  (us_gid u =? group) || bool_decide (group ∈ us_groups u).

Record Acl := mkAcl { acl_uid : Z; acl_gid : Z; acl_perm : Z; acl_iflags : Z }.

#[export] Instance Acl_eq_dec : EqDecision Acl.
Proof. solve_decision. Defined.

Definition Acl_root : Acl := mkAcl 0 0 493 FS_IMMUTABLE_FL.
Definition Acl_gcRoot : Acl := mkAcl 0 0 448 FS_IMMUTABLE_FL.

Definition isImmutable (a : Acl) : bool := has_bits (acl_iflags a) FS_IMMUTABLE_FL.

Definition checkPermission (a : Acl) (user : UserInfo) (type : Z) : outcome unit :=
  let permNeeded :=
    if us_uid user =? 0 then 0
    else if us_uid user =? acl_uid a then Z.shiftl type 6
    else if inGroup user (acl_gid a) then Z.shiftl type 3
    else type in
  if Z.land (acl_perm a) permNeeded =? permNeeded then Ok tt else Err MetaCode_kNoPermission.

Definition checkRecursiveRmPerm (a : Acl) (user : UserInfo) (owner : bool) : outcome unit :=
  if isImmutable a then Err MetaCode_kNoPermission
  else if negb (isRoot user) && (owner || has_bits (acl_perm a) S_ISVTX) && negb (us_uid user =? acl_uid a)
  then Err MetaCode_kNoPermission
  else checkPermission a user (Z.lor AccessType_READ (Z.lor AccessType_WRITE AccessType_EXEC)).

(** ** File layouts *)

Inductive LayoutChains :=
| LC_Empty
| LC_ChainRange (baseIndex shuffle seed : Z)
| LC_ChainList (chainIndexes : list Z).

#[export] Instance LayoutChains_eq_dec : EqDecision LayoutChains.
Proof. solve_decision. Defined.

Record Layout := mkLayout {
  ly_tableId : Z;
  ly_tableVersion : Z;
  ly_chunkSize : Z;
  ly_stripeSize : Z;
  ly_chains : LayoutChains
}.

#[export] Instance Layout_eq_dec : EqDecision Layout.
Proof. solve_decision. Defined.

Definition Layout_empty (l : Layout) : bool := match ly_chains l with LC_Empty => true | _ => false end.

Definition isPowTwo (v : Z) : bool := negb (v =? 0) && (Z.land v (v - 1) =? 0).

(** [Layout::valid].  The condition on chain lists is written
    [tableId == 0 != tableVersion == 0], which C++ reads as
    [((tableId == 0) != tableVersion) == 0]. *)
Definition Layout_valid (l : Layout) (allowEmpty : bool) : outcome unit :=
  if (ly_chunkSize l =? 0) || negb (isPowTwo (ly_chunkSize l)) || (ly_stripeSize l =? 0)
  then Err MetaCode_kInvalidFileLayout
  else
    let bad :=
      match ly_chains l with
      | LC_Empty => negb allowEmpty || (ly_tableId l =? 0)
      | LC_ChainRange base _ _ => (ly_tableId l =? 0) || (ly_tableVersion l =? 0) || (base =? 0)
      | LC_ChainList indexes =>
          (Z.b2z (ly_tableId l =? 0) =? ly_tableVersion l)
          || negb (ly_stripeSize l =? Z.of_nat (length indexes))
          || existsb (fun v => v =? 0) indexes
      end in
    if bad then Err MetaCode_kInvalidFileLayout else Ok tt.

(** ** Inodes *)

Definition InodeId_root : InodeId := 0.
Definition InodeId_gcRoot : InodeId := 1.
Definition isTreeRoot (id : InodeId) : bool := (id =? InodeId_root) || (id =? InodeId_gcRoot).
Definition kNewChunkEngineMask : Z := 2 ^ 56.
Definition withNewChunkEngine (id : InodeId) : InodeId := Z.lor id kNewChunkEngineMask.

Record VersionedLength := mkVersionedLength { vl_length : Z; vl_truncateVer : Z }.

#[export] Instance VersionedLength_eq_dec : EqDecision VersionedLength.
Proof. solve_decision. Defined.

Definition mergeHint (h1 h2 : option VersionedLength) : option VersionedLength :=
  match h1, h2 with
  | Some a, Some b => if vl_length b <=? vl_length a then h1 else h2
  | _, _ => None
  end.

Record File := mkFile {
  fl_length : Z;
  fl_truncateVer : Z;
  fl_layout : Layout;
  fl_flags : Z;
  fl_dynStripe : Z
}.

#[export] Instance File_eq_dec : EqDecision File.
Proof. solve_decision. Defined.

Definition newFileData (layout : Layout) : File := mkFile 0 0 layout 0 0.
Definition hasHole (f : File) : bool := contains (fl_flags f) 1.

Record Directory := mkDirectory {
  di_parent : InodeId;
  di_layout : Layout;
  di_name : string;
  di_chainAllocCounter : Z;
  di_lock : option ClientId
}.

#[export] Instance Directory_eq_dec : EqDecision Directory.
Proof. solve_decision. Defined.

(** [Directory::checkLock] *)
Definition checkLock (d : Directory) (client : ClientId) : outcome unit :=
  match di_lock d with
  | Some owner => if owner =? client then Ok tt else Err MetaCode_kNoLock
  | None => Ok tt
  end.

Inductive InodeType := IT_File | IT_Directory | IT_Symlink.

#[export] Instance InodeType_eq_dec : EqDecision InodeType.
Proof. solve_decision. Defined.

(** The variant of an [InodeData]. *)
Inductive InodeVariant :=
| IV_File (f : File)
| IV_Directory (d : Directory)
| IV_Symlink (target : Path).

#[export] Instance InodeVariant_eq_dec : EqDecision InodeVariant.
Proof. solve_decision. Defined.

Record InodeData := mkInodeData {
  in_type : InodeVariant;
  in_acl : Acl;
  in_nlink : Z;
  in_atime : UtcTime;
  in_ctime : UtcTime;
  in_mtime : UtcTime
}.

#[export] Instance InodeData_eq_dec : EqDecision InodeData.
Proof. solve_decision. Defined.

Definition getType (i : InodeData) : InodeType :=
  match in_type i with IV_File _ => IT_File | IV_Directory _ => IT_Directory | IV_Symlink _ => IT_Symlink end.

Definition set_in_type v i := mkInodeData v (in_acl i) (in_nlink i) (in_atime i) (in_ctime i) (in_mtime i).
Definition set_in_acl v i := mkInodeData (in_type i) v (in_nlink i) (in_atime i) (in_ctime i) (in_mtime i).
Definition set_in_nlink v i := mkInodeData (in_type i) (in_acl i) v (in_atime i) (in_ctime i) (in_mtime i).
Definition set_in_atime v i := mkInodeData (in_type i) (in_acl i) (in_nlink i) v (in_ctime i) (in_mtime i).
Definition set_in_ctime v i := mkInodeData (in_type i) (in_acl i) (in_nlink i) (in_atime i) v (in_mtime i).
Definition set_in_mtime v i := mkInodeData (in_type i) (in_acl i) (in_nlink i) (in_atime i) (in_ctime i) v.

Definition set_di_parent v d := mkDirectory v (di_layout d) (di_name d) (di_chainAllocCounter d) (di_lock d).
Definition set_di_layout v d := mkDirectory (di_parent d) v (di_name d) (di_chainAllocCounter d) (di_lock d).
Definition set_di_name v d := mkDirectory (di_parent d) (di_layout d) v (di_chainAllocCounter d) (di_lock d).
Definition set_di_counter v d := mkDirectory (di_parent d) (di_layout d) (di_name d) v (di_lock d).
Definition set_di_lock v d := mkDirectory (di_parent d) (di_layout d) (di_name d) (di_chainAllocCounter d) v.
Definition set_fl_length v f := mkFile (vl_length v) (vl_truncateVer v) (fl_layout f) (fl_flags f) (fl_dynStripe f).
Definition set_fl_dynStripe v f := mkFile (fl_length f) (fl_truncateVer f) (fl_layout f) (fl_flags f) v.

(** An [Inode]: its data and the identifier it is stored under. *)
Record Inode := mkInode { i_id : InodeId; i_data : InodeData }.

#[export] Instance Inode_eq_dec : EqDecision Inode.
Proof. solve_decision. Defined.

Definition set_i_data (f : InodeData -> InodeData) (i : Inode) : Inode := mkInode (i_id i) (f (i_data i)).

Definition isFile (i : InodeData) : bool := bool_decide (getType i = IT_File).
Definition isDirectory (i : InodeData) : bool := bool_decide (getType i = IT_Directory).
Definition isSymlink (i : InodeData) : bool := bool_decide (getType i = IT_Symlink).

(** [asFile], [asDirectory] and [asSymlink] abort on another variant. *)
Definition asFile (i : InodeData) : outcome File := match in_type i with IV_File f => Ok f | _ => Fatal end.
Definition asDirectory (i : InodeData) : outcome Directory := match in_type i with IV_Directory d => Ok d | _ => Fatal end.
Definition asSymlink (i : InodeData) : outcome Path := match in_type i with IV_Symlink p => Ok p | _ => Fatal end.

Definition newInode (id : InodeId) (acl : Acl) (time : UtcTime) (type : InodeVariant) : Inode :=
  mkInode id (mkInodeData type acl 1 time time time).
Definition newFileInode (id : InodeId) (acl : Acl) (layout : Layout) (time : UtcTime) : Inode :=
  newInode id acl time (IV_File (newFileData layout)).
Definition newDirectoryInode (id parent : InodeId) (name : string) (acl : Acl) (layout : Layout) (time : UtcTime) : Inode :=
  newInode id acl time (IV_Directory (mkDirectory parent layout name (2 ^ 32 - 1) None)).
Definition newSymlinkInode (id : InodeId) (target : Path) (uid gid : Z) (time : UtcTime) : Inode :=
  newInode id (mkAcl uid gid 511 0) time (IV_Symlink target).

(** The default [InodeData] of [Inode(id)]: a file without chains. *)
Definition defaultInodeData : InodeData :=
  mkInodeData (IV_File (newFileData (mkLayout 0 0 0 0 LC_Empty))) (mkAcl 0 0 0 0) 1
    1685548800000000 1685548800000000 1685548800000000.

(** ** Directory entries *)

Record GcInfo := mkGcInfo { gi_user : Z; gi_origPath : Path }.

#[export] Instance GcInfo_eq_dec : EqDecision GcInfo.
Proof. solve_decision. Defined.

Record DirEntryData := mkDirEntryData {
  de_id : InodeId;
  de_type : InodeType;
  de_dirAcl : option Acl;
  de_uuid : Uuid;
  de_gcInfo : option GcInfo
}.

#[export] Instance DirEntryData_eq_dec : EqDecision DirEntryData.
Proof. solve_decision. Defined.

Definition set_de_dirAcl v d := mkDirEntryData (de_id d) (de_type d) v (de_uuid d) (de_gcInfo d).
Definition set_de_uuid v d := mkDirEntryData (de_id d) (de_type d) (de_dirAcl d) v (de_gcInfo d).
Definition set_de_gcInfo v d := mkDirEntryData (de_id d) (de_type d) (de_dirAcl d) (de_uuid d) v.

Record DirEntry := mkDirEntry { e_parent : InodeId; e_name : string; e_data : DirEntryData }.

#[export] Instance DirEntry_eq_dec : EqDecision DirEntry.
Proof. solve_decision. Defined.

Definition e_id (e : DirEntry) : InodeId := de_id (e_data e).
Definition e_type (e : DirEntry) : InodeType := de_type (e_data e).

Definition newFileEntry (parent : InodeId) (name : string) (inode : InodeId) : DirEntry :=
  mkDirEntry parent name (mkDirEntryData inode IT_File None 0 None).
Definition newSymlinkEntry (parent : InodeId) (name : string) (inode : InodeId) : DirEntry :=
  mkDirEntry parent name (mkDirEntryData inode IT_Symlink None 0 None).
Definition newDirectoryEntry (parent : InodeId) (name : string) (inode : InodeId) (acl : Acl) : DirEntry :=
  mkDirEntry parent name (mkDirEntryData inode IT_Directory (Some acl) 0 None).
Definition rootEntry : DirEntry := newDirectoryEntry InodeId_root "." InodeId_root Acl_root.

(** ** Paths *)

Definition filename (p : Path) : string := default "" (last p).

Record PathAt := mkPathAt { pa_parent : InodeId; pa_path : option Path }.
#[export] Instance PathAt_eq_dec : EqDecision PathAt.
Proof. solve_decision. Defined.

Definition validForCreate (p : PathAt) : outcome unit :=
  match pa_path p with
  | None | Some [] => Err kInvalidArg
  | Some path =>
      if bool_decide (filename path = "" \/ filename path = "." \/ filename path = ".." \/ filename path = "/")
      then Err kInvalidArg else Ok tt
  end.

Record SessionInfo := mkSessionInfo { se_client : ClientId; se_session : Uuid }.
Definition SessionInfo_valid (s : SessionInfo) : bool := negb (se_client s =? 0) && negb (se_session s =? 0).

(** [UtcTime::castGranularity] *)
Definition castGranularity (gran t : Z) : Z := let res := Z.max 1 gran in Z.quot t res * res.
