(* ===== verification/FsTxn.v ===== *)
(** * Transactions of the meta store ([src/meta/store/{Inode,DirEntry,FileSession}.*],
      [src/meta/store/Operation.h])

    The store holds inodes, directory entries and file sessions under different
    key prefixes; it is modelled as one table for each.  A transaction reads
    the store as it was when the transaction began, with its own writes on top.
    A snapshot read leaves no trace; the other reads, and explicit calls, add to
    the read conflicts.  The commit takes place in the store of that moment,
    and only if nothing that the conflicts name has changed: this is the
    guarantee of FoundationDB.  A failing access ends the transaction with its
    error; this is not modelled, because such a transaction has no effect. *)

From Stdlib Require Import ZArith Lia String Ascii.
From stdpp Require Import base gmap list strings sorting.
From S2P Require Import Prelude StatusCode MgmtdTypes MgmtdState FsTypes.

(** ** The store *)

Record FileSession := mkFileSession { fs_inodeId : InodeId; fs_clientId : ClientId; fs_sessionId : Uuid; fs_timestamp : UtcTime }.

#[export] Instance FileSession_eq_dec : EqDecision FileSession.
Proof. solve_decision. Defined.

Record FsStore := mkFsStore {
  fs_inodes : gmap InodeId InodeData;
  fs_entries : gmap (InodeId * string) DirEntryData;
  fs_sessions : gmap (InodeId * Uuid) FileSession
}.

#[export] Instance FsStore_eq_dec : EqDecision FsStore.
Proof. solve_decision. Defined.

Inductive FsKey := KInode (id : InodeId) | KEntry (parent : InodeId) (name : string) | KSession (id : InodeId) (session : Uuid).

#[export] Instance FsKey_eq_dec : EqDecision FsKey.
Proof. solve_decision. Defined.

Inductive FsWrite :=
| WInode (id : InodeId) (v : option InodeData)
| WEntry (parent : InodeId) (name : string) (v : option DirEntryData)
| WSession (id : InodeId) (session : Uuid) (v : option FileSession).

Definition write_key (w : FsWrite) : FsKey :=
  match w with WInode id _ => KInode id | WEntry p n _ => KEntry p n | WSession i u _ => KSession i u end.

Definition apply_write (s : FsStore) (w : FsWrite) : FsStore :=
  match w with
  | WInode id v => mkFsStore (partial_alter (fun _ => v) id (fs_inodes s)) (fs_entries s) (fs_sessions s)
  | WEntry p n v => mkFsStore (fs_inodes s) (partial_alter (fun _ => v) (p, n) (fs_entries s)) (fs_sessions s)
  | WSession i u v => mkFsStore (fs_inodes s) (fs_entries s) (partial_alter (fun _ => v) (i, u) (fs_sessions s))
  end.

Definition apply_writes (ws : list FsWrite) (s : FsStore) : FsStore := fold_left apply_write ws s.

(** ** Read conflicts *)

(** [RC_Entries p after upto]: the entries of [p] whose names are greater than
    [after], up to [upto] where it is given. *)
Inductive ReadConflict :=
| RC_Key (k : FsKey)
| RC_Entries (parent : InodeId) (after : string) (upto : option string)
| RC_Sessions (id : InodeId).

Definition name_between (after : string) (upto : option string) (n : string) : bool :=
  String.ltb after n && match upto with Some u => String.leb n u | None => true end.

Definition agrees (s0 s1 : FsStore) (c : ReadConflict) : bool :=
  match c with
  | RC_Key (KInode id) => bool_decide (fs_inodes s0 !! id = fs_inodes s1 !! id)
  | RC_Key (KEntry p n) => bool_decide (fs_entries s0 !! (p, n) = fs_entries s1 !! (p, n))
  | RC_Key (KSession i u) => bool_decide (fs_sessions s0 !! (i, u) = fs_sessions s1 !! (i, u))
  | RC_Entries p after upto =>
      let sel := filter (fun kv : (InodeId * string) * DirEntryData =>
                           kv.1.1 = p /\ name_between after upto kv.1.2 = true) in
      bool_decide (sel (fs_entries s0) = sel (fs_entries s1))
  | RC_Sessions i =>
      let sel := filter (fun kv : (InodeId * Uuid) * FileSession => kv.1.1 = i) in
      bool_decide (sel (fs_sessions s0) = sel (fs_sessions s1))
  end.

(** ** Configuration and environment *)

(** The items of [Config] and [GcConfig] that the operations read. *)
Record FsConfig := mkFsConfig {
  fc_max_symlink_count : Z;
  fc_max_symlink_depth : Z;
  fc_acl_cache_time : Z;
  fc_time_granularity : Z;
  fc_allow_stat_deleted_inodes : bool;
  fc_list_default_limit : Z;
  fc_ignore_length_hint : bool;
  fc_dynamic_stripe : bool;
  fc_dynamic_stripe_initial : Z;
  fc_dynamic_stripe_growth : Z;
  fc_enable_new_chunk_engine : bool;
  fc_allow_owner_change_immutable : bool;
  fc_check_file_hole : bool;
  fc_inodeId_check_unique : bool;
  fc_inodeId_abort_on_duplicate : bool;
  fc_otrunc_replace_file : bool;
  fc_otrunc_replace_file_threshold : Z;
  fc_iflags_chain_allocation : bool;
  fc_iflags_chunk_engine : bool;
  fc_recursive_remove_check_owner : bool;
  fc_recursive_remove_perm_check : Z;
  fc_allow_directly_move_to_trash : bool;
  fc_idempotent_remove : bool;
  fc_idempotent_rename : bool;
  fc_gc_directory_entry_batch : Z;
  fc_gc_small_file_chunks : Z;
  fc_gc_large_file_chunks : Z;
  fc_gc_recursive_perm_check : bool;
  fc_gc_check_session : bool;
  fc_gc_distributed : bool;
  fc_gc_retry_delay : Z
}.

(** What a transaction meets: the readings of the clocks, the random part of
    the life of a cached access right ([ttl * randDouble(0.8, 1.0)]), the
    answers of the inode id allocator, random numbers, the routing information
    known, and the garbage directories of this server and of all servers.  The
    number of the call selects the answer.  [fe_shuffle] is [std::shuffle] with
    a generator of the given seed, and [fe_date] the text of a day. *)
Class FsEnv := {
  fe_utc : nat -> UtcTime;
  fe_steady : nat -> Z;
  fe_jitter : nat -> Z;
  fe_allocate : nat -> outcome InodeId;
  fe_rand : nat -> Z;
  fe_currGcDirectories : list InodeId;
  fe_allGcDirectories : list InodeId;
  fe_date : UtcTime -> string;
  fe_routing : nat -> option FlatRoutingInfo;
  fe_shuffle : Z -> list Z -> list Z
}.

(** ** A transaction *)

Record CacheEntry := mkCacheEntry { ce_timestamp : Z; ce_acl : Acl }.

(** The memory of a server that operations use: the cached access rights of
    directories, and the round robin of the chain allocator. *)
Record FsMem := mkFsMem { fm_acl : gmap InodeId CacheEntry; fm_roundRobin : gmap (Z * Z) Z }.

Record Txn := mkTxn {
  tx_base : FsStore;
  tx_writes : list FsWrite;
  tx_reads : list ReadConflict;
  tx_mem : FsMem;
  tx_ids : list InodeId;
  tx_tick : nat
}.

Definition new_txn (s : FsStore) (mem : FsMem) : Txn := mkTxn s [] [] mem [] 0.

Definition add_write (w : FsWrite) (t : Txn) : Txn :=
  mkTxn (tx_base t) (tx_writes t ++ [w]) (tx_reads t) (tx_mem t) (tx_ids t) (tx_tick t).
Definition add_read (c : ReadConflict) (t : Txn) : Txn :=
  mkTxn (tx_base t) (tx_writes t) (tx_reads t ++ [c]) (tx_mem t) (tx_ids t) (tx_tick t).
Definition set_tx_mem (m : FsMem) (t : Txn) : Txn :=
  mkTxn (tx_base t) (tx_writes t) (tx_reads t) m (tx_ids t) (tx_tick t).
Definition add_id (id : InodeId) (t : Txn) : Txn :=
  mkTxn (tx_base t) (tx_writes t) (tx_reads t) (tx_mem t) (tx_ids t ++ [id]) (tx_tick t).
Definition add_tick (t : Txn) : Txn :=
  mkTxn (tx_base t) (tx_writes t) (tx_reads t) (tx_mem t) (tx_ids t) (S (tx_tick t)).

(** What the transaction reads. *)
Definition view (t : Txn) : FsStore := apply_writes (tx_writes t) (tx_base t).

Definition written (t : Txn) (k : FsKey) : bool := bool_decide (k ∈ write_key <$> tx_writes t).

(** The commit in a store [s]. *)
Definition commits (t : Txn) (s : FsStore) : bool := forallb (agrees (tx_base t) s) (tx_reads t).
Definition commit_txn (t : Txn) (s : FsStore) : option FsStore :=
  if commits t s then Some (apply_writes (tx_writes t) s) else None.

(** [addReadConflict]: a key that the transaction wrote needs no check. *)
Definition addReadConflict (k : FsKey) : M Txn unit :=
  t ← getS; when (negb (written t k)) (modify (add_read (RC_Key k))).

(** A call to the environment. *)
Definition ask {A} (f : nat -> A) : M Txn A := t ← getS; modify add_tick ;; mret (f (tx_tick t)).

(** ** Inodes *)

Definition checkMetaFound {A} (v : option A) : outcome A :=
  match v with Some a => Ok a | None => Err MetaCode_kNotFound end.

Definition Inode_snapshotLoad (id : InodeId) : M Txn (option Inode) :=
  gets (fun t => mkInode id <$> fs_inodes (view t) !! id).

Definition Inode_load (id : InodeId) : M Txn (option Inode) :=
  addReadConflict (KInode id) ;; Inode_snapshotLoad id.

Definition Inode_addIntoReadConflict (id : InodeId) : M Txn unit := addReadConflict (KInode id).

Definition has_slash (name : string) : bool := existsb (fun c => Ascii.eqb c "/"%char) (list_ascii_of_string name).

(** The checks of [Inode::store]. *)
Definition storable (inode : Inode) : outcome unit :=
  let acl := in_acl (i_data inode) in
  if isTreeRoot (i_id inode) then
    match in_type (i_data inode) with
    | IV_Directory d =>
        if bool_decide (di_name d = "" \/ di_name d = "/") then
          let expected := if i_id inode =? InodeId_root then Acl_root else Acl_gcRoot in
          if bool_decide (acl = mkAcl (acl_uid expected) (acl_gid expected) (acl_perm expected) (acl_iflags acl))
          then Ok tt else Err MetaCode_kNoPermission
        else Err MetaCode_kFoundBug
    | _ => Err MetaCode_kFoundBug
    end
  else
    match in_type (i_data inode) with
    | IV_Directory d =>
        if bool_decide (di_name d = "." \/ di_name d = "..") || has_slash (di_name d) then Err MetaCode_kFoundBug else Ok tt
    | IV_File f => match Layout_valid (fl_layout f) false with Ok _ => Ok tt | _ => Err MetaCode_kFoundBug end
    | IV_Symlink _ => Ok tt
    end.

Definition Inode_store (inode : Inode) : M Txn unit :=
  lift (storable inode) ;; modify (add_write (WInode (i_id inode) (Some (i_data inode)))).

Definition Inode_remove (inode : Inode) : M Txn unit :=
  err_if (isTreeRoot (i_id inode)) MetaCode_kFoundBug ;;
  err_if (isImmutable (in_acl (i_data inode))) MetaCode_kFoundBug ;;
  modify (add_write (WInode (i_id inode) None)).

(** ** Directory entries *)

Definition checkName (name : string) : bool :=
  negb (bool_decide (name = "" \/ name = "." \/ name = "..")) && negb (has_slash name).

Definition DirEntry_snapshotLoad (parent : InodeId) (name : string) : M Txn (option DirEntry) :=
  err_if (bool_decide (NAME_MAX < String.length name)%nat) MetaCode_kNameTooLong ;;
  gets (fun t => mkDirEntry parent name <$> fs_entries (view t) !! (parent, name)).

(** The length is checked before the read. *)
Definition DirEntry_load (parent : InodeId) (name : string) : M Txn (option DirEntry) :=
  err_if (bool_decide (NAME_MAX < String.length name)%nat) MetaCode_kNameTooLong ;;
  addReadConflict (KEntry parent name) ;;
  DirEntry_snapshotLoad parent name.

Definition DirEntry_checkExist (parent : InodeId) (name : string) : M Txn bool :=
  e ← DirEntry_load parent name; mret (bool_decide (is_Some e)).

Definition DirEntry_addIntoReadConflict (parent : InodeId) (name : string) : M Txn unit :=
  addReadConflict (KEntry parent name).

Definition DirEntry_store (e : DirEntry) : M Txn unit :=
  err_if (negb (checkName (e_name e))) MetaCode_kFoundBug ;;
  err_if (bool_decide (NAME_MAX < String.length (e_name e))%nat) MetaCode_kNameTooLong ;;
  err_if (isTreeRoot (e_id e)) MetaCode_kFoundBug ;;
  modify (add_write (WEntry (e_parent e) (e_name e) (Some (e_data e)))).

Definition DirEntry_remove (e : DirEntry) : M Txn unit :=
  err_if (negb (checkName (e_name e))) kInvalidArg ;;
  modify (add_write (WEntry (e_parent e) (e_name e) None)).

(** [checkInodeExists] and [checkInodeType] *)
Definition checkEntryInode (e : DirEntry) (inode : option Inode) : outcome Inode :=
  match inode with
  | None => if bool_decide (e_name e = "." \/ e_name e = "..") then Err MetaCode_kNotFound else Err MetaCode_kInconsistent
  | Some i => if bool_decide (getType (i_data i) = e_type e) then Ok i else Err MetaCode_kInconsistent
  end.

Definition DirEntry_loadInode (e : DirEntry) : M Txn Inode :=
  i ← Inode_load (e_id e); lift (checkEntryInode e i).
Definition DirEntry_snapshotLoadInode (e : DirEntry) : M Txn Inode :=
  i ← Inode_snapshotLoad (e_id e); lift (checkEntryInode e i).

(** ** Lists of entries *)

Definition name_le (a b : string * DirEntryData) : Prop := String.leb a.1 b.1 = true.
#[export] Instance name_le_dec a b : Decision (name_le a b).
Proof. unfold name_le. apply _. Defined.

Definition listing (s : FsStore) (parent : InodeId) : list DirEntry :=
  (fun nd => mkDirEntry parent nd.1 nd.2) <$>
  merge_sort name_le
    (omap (fun kv : (InodeId * string) * DirEntryData => if decide (kv.1.1 = parent) then Some (kv.1.2, kv.2) else None)
       (map_to_list (fs_entries s))).

(** [getRange] over the names after [prev]: at most [limit] entries, whether
    there are more, and the part of the range that was read. *)
Definition list_range (s : FsStore) (parent : InodeId) (prev : string) (limit : nat) : list DirEntry * bool :=
  let l := filter (fun e => String.ltb prev (e_name e) = true) (listing s parent) in
  (take limit l, bool_decide (limit < length l)%nat).

Definition range_read (parent : InodeId) (prev : string) (r : list DirEntry * bool) : ReadConflict :=
  RC_Entries parent prev (if r.2 then e_name <$> last r.1 else None).

Definition default_limit (limit : Z) : nat := if 0 <? limit then Z.to_nat limit else 128%nat.

Definition DirEntryList_snapshotLoad (parent : InodeId) (prev : string) (limit : Z) : M Txn (list DirEntry * bool) :=
  gets (fun t => list_range (view t) parent prev (default_limit limit)).

Definition DirEntryList_load (parent : InodeId) (prev : string) (limit : Z) : M Txn (list DirEntry * bool) :=
  r ← DirEntryList_snapshotLoad parent prev limit;
  modify (add_read (range_read parent prev r)) ;;
  mret r.

Definition checkEmpty (parent : InodeId) : M Txn bool :=
  r ← DirEntryList_load parent "" 1;
  mret (bool_decide (r.1 = []) && negb r.2).

(** [Inode::snapshotLoadDirEntry].  An inode written by an old version has no
    name, and its entry is searched in the parent, page by page. *)
Fixpoint search_entry (fuel : nat) (parent id : InodeId) (prev : string) (found : option DirEntry) : M Txn (option DirEntry) :=
  match fuel with
  | O => lift Pending
  | S fuel' =>
      '(es, more) ← DirEntryList_snapshotLoad parent prev (-1);
      let found' := match list_find (fun e => e_id e = id) es with Some (_, e) => Some e | None => found end in
      if more : bool then search_entry fuel' parent id (default prev (e_name <$> last es)) found' else mret found'
  end.

Definition Inode_snapshotLoadDirEntry (inode : Inode) : M Txn DirEntry :=
  match in_type (i_data inode) with
  | IV_Directory d =>
      entry ←
        (if bool_decide (di_name d = "") then
           t ← getS; search_entry (S (length (listing (view t) (di_parent d)))) (di_parent d) (i_id inode) "" None
         else DirEntry_snapshotLoad (di_parent d) (di_name d));
      match entry with
      | Some e => err_if (negb (e_id e =? i_id inode)) MetaCode_kNotFound ;; mret e
      | None => fail MetaCode_kNotFound
      end
  | _ => fail MetaCode_kNotDirectory
  end.

(** [Inode::loadAncestors]: the directories from [parent] up to a root.  A
    directory met twice is an error, so no more are visited than exist. *)
Fixpoint ancestors_loop (fuel : nat) (seen : list InodeId) (curr : InodeId) (acc : list Inode) : M Txn (list Inode) :=
  match fuel with
  | O => lift Pending
  | S fuel' =>
      err_if (bool_decide (curr ∈ seen)) MetaCode_kInconsistent ;;
      loaded ← Inode_load curr;
      inode ← lift (checkMetaFound loaded);
      match in_type (i_data inode) with
      | IV_Directory d =>
          if di_parent d =? i_id inode then mret (acc ++ [inode])
          else ancestors_loop fuel' (curr :: seen) (di_parent d) (acc ++ [inode])
      | _ => fail MetaCode_kNotDirectory
      end
  end.

Definition loadAncestors (parent : InodeId) : M Txn (list Inode) :=
  t ← getS; ancestors_loop (S (S (size (fs_inodes (view t))))) [] parent [].

(** [DirEntryList::recursiveCheckRmPerm]: breadth first, as far as [limit]
    reads of at most [max(listBatchSize, 32)] entries go. *)
Record RmPerm := mkRmPerm { rp_limit : Z; rp_queue : list InodeId }.

Fixpoint check_entries (user : UserInfo) (es : list DirEntry) (st : RmPerm) (foundDir : bool) : outcome (RmPerm * bool) :=
  match es with
  | [] => Ok (st, foundDir)
  | e :: es' =>
      match e_type e with
      | IT_Directory =>
          let st' := if Z.of_nat (length (rp_queue st)) <? rp_limit st
                     then mkRmPerm (rp_limit st) (rp_queue st ++ [e_id e]) else st in
          match de_dirAcl (e_data e) with
          | Some acl =>
              match checkRecursiveRmPerm acl user false with
              | Ok _ => check_entries user es' st' true
              | _ => Err MetaCode_kNoPermission
              end
          | None => Fatal
          end
      | _ => check_entries user es' st foundDir
      end
  end.

Fixpoint check_directory (fuel : nat) (user : UserInfo) (dir : InodeId) (prev : string) (foundDir : bool) (numEntries : nat)
    (batch : Z) (st : RmPerm) : M Txn RmPerm :=
  match fuel with
  | O => lift Pending
  | S fuel' =>
      let st1 := mkRmPerm (rp_limit st - 1) (rp_queue st) in
      if rp_limit st <=? 0 then mret st1
      else
        '(es, more) ← DirEntryList_snapshotLoad dir prev (Z.max batch 32);
        '(st2, foundDir') ← lift (check_entries user es st1 foundDir);
        let num := (numEntries + length es)%nat in
        if negb more || (bool_decide (1024 < num)%nat && negb foundDir') then mret st2
        else check_directory fuel' user dir (default prev (e_name <$> last es)) foundDir' num batch st2
  end.

Fixpoint check_queue (fuel : nat) (user : UserInfo) (batch : Z) (st : RmPerm) : M Txn unit :=
  match fuel with
  | O => lift Pending
  | S fuel' =>
      match rp_queue st with
      | [] => mret tt
      | dir :: rest =>
          st' ← check_directory (S (Z.to_nat (rp_limit st))) user dir "" false 0 batch (mkRmPerm (rp_limit st) rest);
          check_queue fuel' user batch st'
      end
  end.

Definition recursiveCheckRmPerm (parent : InodeId) (user : UserInfo) (limit listBatchSize : Z) : M Txn unit :=
  check_queue (S (S (2 * Z.to_nat limit))) user listBatchSize (mkRmPerm limit [parent]).

(** ** File sessions *)

Section sessions.
Context {HEnv : FsEnv}.

Definition FileSession_create (inodeId : InodeId) (client : ClientId) (session : Uuid) : M Txn FileSession :=
  now ← ask fe_utc; mret (mkFileSession inodeId client session now).

Definition FileSession_store (s : FileSession) : M Txn unit :=
  modify (add_write (WSession (fs_inodeId s) (fs_sessionId s) (Some s))).

Definition FileSession_remove (s : FileSession) : M Txn unit :=
  modify (add_write (WSession (fs_inodeId s) (fs_sessionId s) None)).

Definition FileSession_snapshotCheckExists (inodeId : InodeId) : M Txn (option FileSession) :=
  gets (fun t => snd <$> head (map_to_list (filter (fun kv : (InodeId * Uuid) * FileSession => kv.1.1 = inodeId) (fs_sessions (view t))))).

(** [FileSession::checkExists].  The range is added to the read conflicts
    under the condition [!exists], where [exists] is the result of the call,
    which is known not to be an error at that point. *)
Definition FileSession_checkExists (inodeId : InodeId) : M Txn (option FileSession) :=
  existing ← attempt (FileSession_snapshotCheckExists inodeId);
  match existing with
  | inr c => fail c
  | inl v => when (negb (is_ok (Ok v))) (modify (add_read (RC_Sessions inodeId))) ;; mret v
  end.
End sessions.

(** ** Allocation of inode ids ([Operation::allocateInodeId]) *)

Definition allocateInodeId {HEnv : FsEnv} (cfg : FsConfig) (newChunkEngine : bool) : M Txn InodeId :=
  answer ← ask fe_allocate;
  allocated ← lift answer;
  let newId := if newChunkEngine then withNewChunkEngine allocated else allocated in
  modify (add_id newId) ;;
  when (fc_inodeId_check_unique cfg)
    (existing ← Inode_load newId;
     match existing with
     | Some _ => fatal_if (fc_inodeId_abort_on_duplicate cfg) ;; fail MetaCode_kInodeIdAllocFailed
     | None => mret tt
     end) ;;
  mret newId.

(** [now()]: the clock at the granularity of time stamps. *)
Definition op_now {HEnv : FsEnv} (cfg : FsConfig) : M Txn UtcTime :=
  now ← ask fe_utc; mret (castGranularity (fc_time_granularity cfg) now).
