(* ===== verification/FsLayout.v ===== *)
(** * Layouts and the chain allocator ([src/fbs/meta/Schema.cc],
      [src/fbs/mgmtd/RoutingInfo.cc], [src/meta/components/ChainAllocator.h])

    Which chain holds a chunk of a file, and how chains are given to new files. *)

From Stdlib Require Import ZArith Lia.
From stdpp Require Import base gmap list strings.
From S2P Require Import Prelude StatusCode MgmtdTypes MgmtdState FsTypes FsTxn.

(** ** Chains of the routing information *)

Definition getChainTable (ri : FlatRoutingInfo) (tableId tableVersion : Z) : option ChainTable :=
  versions ← fri_chainTables ri !! tableId;
  if tableVersion =? 0 then snd <$> rbegin versions else versions !! tableVersion.

(** [getChainId]: the index counts from 1 and wraps around the table.  A table
    without chains is a division by zero. *)
Definition getChainId (ri : FlatRoutingInfo) (tableId tableVersion index : Z) : outcome (option Z) :=
  if (tableId =? 0) && (tableVersion =? 0) then Ok (Some index)
  else
    match getChainTable ri tableId tableVersion with
    | None => Ok None
    | Some table =>
        if index =? 0 then Ok None
        else
          match ct_chains table with
          | [] => Fatal
          | chains => Ok (chains !! Z.to_nat ((index - 1) mod Z.of_nat (length chains)))
          end
    end.

Definition getChain (ri : FlatRoutingInfo) (tableId tableVersion index : Z) : outcome (option ChainInfo) :=
  omap_outcome (fun cid => cid ≫= (fun c => fri_chains ri !! c)) (getChainId ri tableId tableVersion index).

Section layout.
Context {HEnv : FsEnv}.

(** [Layout::getChainIndexList] *)
Definition getChainIndexList (l : Layout) : outcome (list Z) :=
  match ly_chains l with
  | LC_Empty => Ok []
  | LC_ChainList indexes => Ok indexes
  | LC_ChainRange base shuffle seed =>
      let chains := (fun i => u32 (base + Z.of_nat i)) <$> seq 0 (Z.to_nat (ly_stripeSize l)) in
      if shuffle =? 0 then Ok chains
      else if shuffle =? 1 then Ok (fe_shuffle seed chains)
      else Fatal
  end.

(** [Layout::getChainOfChunk]: the index of the chain of a chunk. *)
Definition getChainOfChunk (l : Layout) (chunkIndex : Z) : outcome Z :=
  match getChainIndexList l with
  | Ok chains =>
      if (ly_stripeSize l =? 0) || bool_decide (chains = []) then Fatal
      else match chains !! Z.to_nat (chunkIndex mod ly_stripeSize l) with Some c => Ok c | None => Fatal end
  | _ => Fatal
  end.

(** [File::getChainId], without the track. *)
Definition File_getChainId (f : File) (offset : Z) (ri : FlatRoutingInfo) : outcome Z :=
  let l := fl_layout f in
  if (ly_chunkSize l =? 0) || (ly_stripeSize l =? 0) then Err MetaCode_kInvalidFileLayout
  else
    match getChainOfChunk l (offset / ly_chunkSize l) with
    | Ok index =>
        match getChainId ri (ly_tableId l) (ly_tableVersion l) index with
        | Ok (Some cid) => Ok cid
        | Ok None => Err MgmtdClientCode_kRoutingInfoNotReady
        | Err c => Err c
        | Fatal => Fatal
        | Pending => Pending
        end
    | _ => Fatal
    end.

(** ** The chain allocator *)

Definition checkLayoutValid (l : Layout) : M Txn unit :=
  lift (Layout_valid l true) ;;
  when (negb (Layout_empty l))
    (routing ← ask fe_routing;
     chains ← lift (getChainIndexList l);
     for_each (fun index =>
       chain ← match routing with
               | Some ri => lift (getChain ri (ly_tableId l) (ly_tableVersion l) index)
               | None => mret None
               end;
       match chain with
       | None => fail MetaCode_kInvalidFileLayout
       | Some c => err_if (bool_decide (ci_targets c = [])) MetaCode_kInvalidFileLayout
       end) chains).

(** The start of the next range: the counter modulo the chains, counted from
    1, and the counter after it. *)
Definition next_range (counter chainCnt stripeSize : Z) : Z * Z :=
  ((counter mod chainCnt) + 1, u32 (counter + stripeSize) mod chainCnt).

Definition initial_counter (chainCnt stripeSize : Z) : M Txn Z :=
  r ← ask fe_rand; mret (r mod chainCnt / stripeSize * stripeSize).

(** With the server's counter for a table and a stripe size. *)
Definition roundRobin_global (l : Layout) (chainCnt : Z) : M Txn Z :=
  t ← getS;
  let key := (ly_tableId l, ly_stripeSize l) in
  counter ← match fm_roundRobin (tx_mem t) !! key with
            | Some c => mret c
            | None => initial_counter chainCnt (ly_stripeSize l)
            end;
  let '(res, next) := next_range counter chainCnt (ly_stripeSize l) in
  modify (fun t => set_tx_mem (mkFsMem (fm_acl (tx_mem t)) (<[key := next]> (fm_roundRobin (tx_mem t)))) t) ;;
  mret res.

(** With the counter of a directory, where all ones means not yet set. *)
Definition roundRobin_directory (l : Layout) (counter chainCnt : Z) : M Txn (Z * Z) :=
  counter' ← (if counter =? 2 ^ 32 - 1 then initial_counter chainCnt (ly_stripeSize l) else mret counter);
  mret (next_range counter' chainCnt (ly_stripeSize l)).

(** [allocateChainsForLayout] with the counter of the directory, or without.
    The counter is returned, with the layout or the error of an allocation that
    moved it. *)
Definition allocateChainsForLayout (l : Layout) (counter : option Z) : M Txn (outcome Layout * option Z) :=
  checkLayoutValid l ;;
  if negb (Layout_empty l) then mret (Ok l, counter)
  else
    routing ← ask fe_routing;
    match routing with
    | None => fatal
    | Some ri =>
        match getChainTable ri (ly_tableId l) (ly_tableVersion l) with
        | None => fail MetaCode_kInvalidFileLayout
        | Some table =>
            err_if (ct_chainTableVersion table =? 0) MetaCode_kInvalidFileLayout ;;
            let chainCnt := Z.of_nat (length (ct_chains table)) in
            err_if ((chainCnt <? ly_stripeSize l) || (chainCnt =? 0)) MetaCode_kInvalidFileLayout ;;
            '(chainBegin, counter') ←
              match counter with
              | Some c => '(b, c') ← roundRobin_directory l c chainCnt; mret (b, Some c')
              | None => b ← roundRobin_global l chainCnt; mret (b, None)
              end;
            seed ← ask fe_rand;
            let l' := mkLayout (ly_tableId l) (ct_chainTableVersion table) (ly_chunkSize l) (ly_stripeSize l)
                        (LC_ChainRange chainBegin 1 seed) in
            mret (omap_outcome (fun _ => l') (Layout_valid l' false), counter')
        end
    end.
End layout.
