(* ===== verification/FsResolve.v ===== *)
(** * Path resolution ([src/meta/store/PathResolve.*], [src/meta/components/AclCache.h])

    A path is walked component by component, with snapshot reads only.  The
    right to search a directory comes from the entry that led to it, from the
    cache of the server, or from its inode. *)

From Stdlib Require Import ZArith Lia.
From stdpp Require Import base gmap list strings.
From S2P Require Import Prelude StatusCode MgmtdTypes FsTypes FsTxn.

(** ** What is known of a directory *)

(** [std::variant<std::pair<InodeId, Acl>, Inode, DirEntry>] *)
Inductive ParentInfo := PI_Acl (id : InodeId) (acl : Acl) | PI_Inode (i : Inode) | PI_Entry (e : DirEntry).

(** [std::variant<InodeId, DirEntry>] *)
Inductive ParentRef := PR_Id (id : InodeId) | PR_Entry (e : DirEntry).

Definition ref_id (p : ParentRef) : InodeId := match p with PR_Id id => id | PR_Entry e => e_id e end.
Definition parent_id (p : ParentInfo) : InodeId :=
  match p with PI_Acl id _ => id | PI_Inode i => i_id i | PI_Entry e => e_id e end.
Definition parent_type (p : ParentInfo) : InodeType :=
  match p with PI_Acl _ _ => IT_Directory | PI_Inode i => getType (i_data i) | PI_Entry e => e_type e end.

(** [getDirectoryAcl]: an entry of a directory holds its access right. *)
Definition parent_acl (p : ParentInfo) : outcome Acl :=
  match p with
  | PI_Acl _ acl => Ok acl
  | PI_Inode i => Ok (in_acl (i_data i))
  | PI_Entry e => match de_dirAcl (e_data e) with Some acl => Ok acl | None => Fatal end
  end.

Record ResolveResult := mkResolveResult { rr_parent : ParentInfo; rr_dirEntry : option DirEntry }.

Section resolve.
Context {HEnv : FsEnv} (cfg : FsConfig).

(** ** The cache of access rights *)

Definition AclCache_get (inode : InodeId) (ttl : Z) : M Txn (option Acl) :=
  if ttl =? 0 then mret None
  else
    t ← getS;
    match fm_acl (tx_mem t) !! inode with
    | None => mret None
    | Some c =>
        jitter ← ask fe_jitter;
        now ← ask fe_steady;
        mret (if ce_timestamp c + jitter <? now then None else Some (ce_acl c))
    end.

Definition AclCache_set (inode : InodeId) (acl : Acl) : M Txn unit :=
  now ← ask fe_steady;
  modify (fun t => set_tx_mem (mkFsMem (<[inode := mkCacheEntry now acl]> (fm_acl (tx_mem t))) (fm_roundRobin (tx_mem t))) t).

Definition AclCache_invalid (inode : InodeId) : M Txn unit :=
  modify (fun t => set_tx_mem (mkFsMem (delete inode (fm_acl (tx_mem t))) (fm_roundRobin (tx_mem t))) t).

Definition loadParentAcl (parent : ParentRef) (cacheTime : Z) : M Txn ParentInfo :=
  info ←
    match parent with
    | PR_Entry e =>
        when (negb (cacheTime =? 0) && bool_decide (e_type e = IT_Directory))
          (acl ← lift (parent_acl (PI_Entry e)); AclCache_set (e_id e) acl) ;;
        mret (PI_Entry e)
    | PR_Id id =>
        if id =? InodeId_root then mret (PI_Entry rootEntry)
        else
          cached ← AclCache_get id cacheTime;
          match cached with
          | Some acl => mret (PI_Acl id acl)
          | None =>
              loaded ← Inode_snapshotLoad id;
              inode ← lift (checkMetaFound loaded);
              when (negb (cacheTime =? 0) && isDirectory (i_data inode)) (AclCache_set id (in_acl (i_data inode))) ;;
              mret (PI_Inode inode)
          end
    end;
  err_if (negb (bool_decide (parent_type info = IT_Directory))) MetaCode_kNotDirectory ;;
  mret info.

Definition loadAndCheckParentAcl (user : UserInfo) (parent : ParentRef) (cacheTime : Z) : M Txn ParentInfo :=
  info ← loadParentAcl parent cacheTime;
  acl ← lift (parent_acl info);
  lift (checkPermission acl user AccessType_EXEC) ;;
  mret info.

(** [ResolveResult::getParentInode] *)
Definition getParentInode (r : ResolveResult) : M Txn Inode :=
  match rr_parent r with
  | PI_Inode i => mret i
  | PI_Entry e => DirEntry_snapshotLoadInode e
  | PI_Acl id _ => loaded ← Inode_snapshotLoad id; lift (checkMetaFound loaded)
  end.

(** ** The resolver *)

(** A [PathResolveOp]: the transaction, the links met so far, and the trace of
    the names walked, where it is wanted. *)
Record Resolver := mkResolver { rs_txn : Txn; rs_depth : Z; rs_symlinkCnt : Z; rs_trace : option Path }.

Definition in_txn {A} (m : M Txn A) : M Resolver A :=
  zoom rs_txn (fun t s => mkResolver t (rs_depth s) (rs_symlinkCnt s) (rs_trace s)) m.

Definition trace_with (f : Path -> Path) : M Resolver unit :=
  modify (fun s => mkResolver (rs_txn s) (rs_depth s) (rs_symlinkCnt s) (f <$> rs_trace s)).

Section walk.
Context (user : UserInfo).

(** [pathComponent] *)
Definition pathComponent (parent : ParentRef) (name : string) : M Resolver ResolveResult :=
  let parentId := ref_id parent in
  trace_with (fun tr => (if parentId =? InodeId_root then ["/"] else tr) ++ [name]) ;;
  info ← in_txn (loadAndCheckParentAcl user parent (fc_acl_cache_time cfg));
  if bool_decide (name = ".") then
    acl ← in_txn (lift (parent_acl info));
    mret (mkResolveResult info (Some (newDirectoryEntry parentId "." parentId acl)))
  else if bool_decide (name = "..") then
    inode ← match info with
            | PI_Inode i => mret i
            | _ => in_txn (loaded ← Inode_snapshotLoad (parent_id info); lift (checkMetaFound loaded))
            end;
    d ← in_txn (lift (asDirectory (i_data inode)));
    mret (mkResolveResult (PI_Inode inode) (Some (newDirectoryEntry parentId ".." (di_parent d) (in_acl (i_data inode)))))
  else
    entry ← in_txn (DirEntry_snapshotLoad parentId name);
    mret (mkResolveResult info entry).

(** [pathRange]: the result, and the components from the one that is missing
    on.  [symlink] resolves a link met on the way. *)
Section range.
Context (symlink : DirEntry -> M Resolver ResolveResult).

Fixpoint walk (parent : ParentRef) (comps : list string) : M Resolver (ResolveResult * list string) :=
  match comps with
  | [] => lift Fatal
  | c :: rest =>
      if bool_decide (c = ".") then
        match rest with
        | [] => r ← pathComponent parent "."; mret (r, [])
        | _ => walk parent rest
        end
      else
        r ← pathComponent parent c;
        match rr_dirEntry r, rest with
        | None, _ => mret (r, comps)
        | Some _, [] => mret (r, [])
        | Some e, _ =>
            e' ← match e_type e with
                 | IT_Symlink =>
                     r' ← symlink e;
                     match rr_dirEntry r' with Some e' => mret e' | None => fail MetaCode_kNotFound end
                 | _ => mret e
                 end;
            match e_type e' with
            | IT_File => fail MetaCode_kNotDirectory
            | _ => walk (PR_Entry e') rest
            end
        end
  end.

Definition pathRange (parent : InodeId) (comps : list string) : M Resolver (ResolveResult * list string) :=
  match comps with
  | [] => fail MetaCode_kNotFound
  | c :: rest =>
      if bool_decide (c = "/") then
        match rest with
        | [] => trace_with (fun _ => ["/"]) ;; mret (mkResolveResult (PI_Entry rootEntry) (Some rootEntry), [])
        | _ => walk (PR_Id InodeId_root) rest
        end
      else walk (PR_Id parent) comps
  end.

(** [path(parent, path)]: only the last component may be missing. *)
Definition path_from (parent : InodeId) (comps : list string) : M Resolver ResolveResult :=
  '(r, missing) ← pathRange parent comps;
  match missing with
  | [] | [_] => mret r
  | _ => fail MetaCode_kNotFound
  end.
End range.

Definition loadSymLinkTarget (entry : DirEntry) : M Txn Path :=
  inode ← DirEntry_snapshotLoadInode entry; lift (asSymlink (i_data inode)).

(** [symlink]: [depth_] counts the calls that are open; after an error the
    resolver is not used again. *)
Definition symlink_enter : M Resolver unit :=
  modify (fun s => mkResolver (rs_txn s) (rs_depth s + 1) (rs_symlinkCnt s) (rs_trace s)) ;;
  s ← getS;
  err_if (fc_max_symlink_depth cfg <? rs_depth s) MetaCode_kTooManySymlinks.
Definition symlink_leave : M Resolver unit :=
  modify (fun s => mkResolver (rs_txn s) (rs_depth s - 1) (rs_symlinkCnt s) (rs_trace s)).
Definition symlink_count : M Resolver unit :=
  modify (fun s => mkResolver (rs_txn s) (rs_depth s) (rs_symlinkCnt s + 1) (rs_trace s)) ;;
  s ← getS;
  err_if (fc_max_symlink_count cfg <? rs_symlinkCnt s) MetaCode_kTooManySymlinks.

(** The loop of [symlink].  Each round counts a link, so [max_symlink_count]
    bounds the rounds of all calls. *)
Fixpoint symlink_loop (fuel : nat) (entry : DirEntry) : M Resolver ResolveResult :=
  match fuel with
  | O => lift Pending
  | S fuel' =>
      symlink_count ;;
      target ← in_txn (loadSymLinkTarget entry);
      trace_with (fun tr => removelast tr) ;;
      r ← path_from (fun e => symlink_enter ;; r ← symlink_loop fuel' e; symlink_leave ;; mret r)
            (e_parent entry) target;
      match rr_dirEntry r with
      | Some e => if bool_decide (e_type e = IT_Symlink) then symlink_loop fuel' e else mret r
      | None => mret r
      end
  end.

Definition link_fuel : nat := S (S (Z.to_nat (fc_max_symlink_count cfg))).

Definition symlink (e : DirEntry) : M Resolver ResolveResult :=
  symlink_enter ;; r ← symlink_loop link_fuel e; symlink_leave ;; mret r.

(** [path(parent, path, followLastSymlink)] *)
Definition path_follow (parent : InodeId) (comps : list string) (follow : bool) : M Resolver ResolveResult :=
  r ← path_from symlink parent comps;
  match rr_dirEntry r with
  | Some e => if follow && bool_decide (e_type e = IT_Symlink) then symlink e else mret r
  | None => mret r
  end.
End walk.

(** ** The interface of a [PathResolveOp] *)

Definition resolving {A} (trace : option Path) (m : M Resolver A) : M Txn (A * option Path) := fun t =>
  let '(o, s) := m (mkResolver t 0 0 trace) in (omap_outcome (fun a => (a, rs_trace s)) o, rs_txn s).

Definition resolve_path (user : UserInfo) (p : PathAt) (flags : Z) : M Txn ResolveResult :=
  match pa_path p with
  | None => fail kInvalidArg
  | Some comps => '(r, _) ← resolving None (path_follow user (pa_parent p) comps (followLastSymlink flags)); mret r
  end.

Definition resolve_dirEntry_traced (trace : option Path) (user : UserInfo) (p : PathAt) (flags : Z) : M Txn (DirEntry * option Path) :=
  match pa_path p with
  | None => fail kInvalidArg
  | Some comps =>
      '(r, tr) ← resolving trace (path_follow user (pa_parent p) comps (followLastSymlink flags));
      match rr_dirEntry r with Some e => mret (e, tr) | None => fail MetaCode_kNotFound end
  end.

Definition resolve_dirEntry (user : UserInfo) (p : PathAt) (flags : Z) : M Txn DirEntry :=
  '(e, _) ← resolve_dirEntry_traced None user p flags; mret e.

Definition resolve_inode (user : UserInfo) (p : PathAt) (flags : Z) (checkRefCnt : bool) : M Txn Inode :=
  inode ←
    (if match pa_path p with None => true | Some comps => bool_decide (comps = []) && contains flags AT_EMPTY_PATH end then
       loaded ← Inode_snapshotLoad (pa_parent p); lift (checkMetaFound loaded)
     else
       entry ← resolve_dirEntry user p flags; DirEntry_snapshotLoadInode entry);
  err_if (checkRefCnt && (in_nlink (i_data inode) =? 0)) MetaCode_kNotFound ;;
  mret inode.

Definition resolve_byDirectoryInodeId (inodeId : InodeId) : M Txn ResolveResult :=
  loaded ← Inode_snapshotLoad inodeId;
  inode ← lift (checkMetaFound loaded);
  entry ← Inode_snapshotLoadDirEntry inode;
  parent ← loadParentAcl (PR_Id (e_parent entry)) (fc_acl_cache_time cfg);
  mret (mkResolveResult parent (Some entry)).

(** [pathRange(path)]: the result and the missing components. *)
Definition resolve_pathRange (user : UserInfo) (p : PathAt) : M Txn (ResolveResult * Path) :=
  match pa_path p with
  | None => fail kInvalidArg
  | Some comps => '(r, _) ← resolving None (pathRange user (symlink user) (pa_parent p) comps); mret r
  end.
End resolve.
