(* ===== verification/FsGc.v ===== *)
(** * Garbage of the namespace ([src/meta/components/GcManager.*])

    A file or directory that loses its last name gets an entry in a garbage
    directory, under the second root; tasks later remove its chunks or its
    entries, and then the inode. *)

From Stdlib Require Import ZArith Lia String Ascii.
From stdpp Require Import base gmap list strings pretty.
From S2P Require Import Prelude StatusCode MgmtdTypes FsTypes FsTxn.

(** ** Names of garbage entries *)

Definition digit (n : Z) : ascii :=
  ascii_of_nat (Z.to_nat (if n <? 10 then 48 + n else 87 + n)).

(** The [w] last digits of [n], with leading zeros: the text of [n] in formats
    [{:020d}] and [{:016x}] for 64-bit numbers. *)
Fixpoint fixed_digits (base : Z) (w : nat) (n : Z) : string :=
  match w with
  | O => ""
  | S w' => fixed_digits base w' (n / base) +:+ String (digit (n mod base)) ""
  end.

Definition toHexString (id : InodeId) : string := "0x" +:+ fixed_digits 16 16 id.

Definition formatGcEntry (prefix : ascii) (timestamp : UtcTime) (inode : InodeId) : string :=
  String prefix "-" +:+ fixed_digits 10 20 (u64 timestamp) +:+ "-" +:+ toHexString inode.

Inductive GcEntryType := GC_DIRECTORY | GC_FILE_MEDIUM | GC_FILE_LARGE | GC_FILE_SMALL.

Definition prefixOf (type : GcEntryType) : ascii :=
  match type with GC_DIRECTORY => "d" | GC_FILE_MEDIUM => "f" | GC_FILE_LARGE => "L" | GC_FILE_SMALL => "S" end%char.

(** ** Time stamps ([SetAttr::update]) *)

Definition SETATTR_TIME_NOW : UtcTime := -1.

Definition update_time {HEnv : FsEnv} (v : UtcTime) (nv : option UtcTime) (resolution : Z) (cmp : bool) : M Txn (UtcTime * bool) :=
  match nv with
  | None => mret (v, false)
  | Some n =>
      n1 ← (if n =? SETATTR_TIME_NOW then ask fe_utc else mret n);
      let n2 := castGranularity resolution n1 in
      mret (if negb (n2 =? v) && (negb cmp || (v <? n2)) then (n2, true) else (v, false))
  end.

Section gc.
Context {HEnv : FsEnv} (cfg : FsConfig).

(** [SetAttr::update(inode.ctime, UtcClock::now(), .., true)] *)
Definition touch_ctime (inode : Inode) : M Txn Inode :=
  now ← ask fe_utc;
  '(ctime, _) ← update_time (in_ctime (i_data inode)) (Some now) (fc_time_granularity cfg) true;
  mret (set_i_data (set_in_ctime ctime) inode).

(** ** Adding garbage *)

Definition pickGcDirectory : M Txn InodeId :=
  fatal_if (bool_decide (fe_currGcDirectories = [])) ;;
  let pick (l : list InodeId) (i : Z) : M Txn InodeId :=
    match l !! Z.to_nat i with Some g => mret g | None => fatal end in
  if fc_gc_distributed cfg && negb (bool_decide (fe_allGcDirectories = [])) then
    r ← ask fe_rand; pick fe_allGcDirectories (r mod Z.of_nat (length fe_allGcDirectories))
  else if bool_decide (length fe_currGcDirectories = 1%nat) then pick fe_currGcDirectories 0
  else
    r ← ask fe_rand;
    pick fe_currGcDirectories (1 + r mod (Z.of_nat (length fe_currGcDirectories) - 1)).

Definition gc_addFile (dir : InodeId) (inode : Inode) : M Txn unit :=
  f ← lift (asFile (i_data inode));
  fatal_if (ly_chunkSize (fl_layout f) =? 0) ;;
  let chunks := fl_length f / ly_chunkSize (fl_layout f) in
  let type :=
    if chunks <? fc_gc_small_file_chunks cfg then GC_FILE_SMALL
    else if fc_gc_large_file_chunks cfg <=? chunks then GC_FILE_LARGE
    else GC_FILE_MEDIUM in
  now ← ask fe_utc;
  DirEntry_store (newFileEntry dir (formatGcEntry (prefixOf type) now (i_id inode)) (i_id inode)).

Definition gc_addDirectory (dir : InodeId) (inode : Inode) (gcInfo : GcInfo) : M Txn unit :=
  now ← ask fe_utc;
  let entry := newDirectoryEntry dir (formatGcEntry (prefixOf GC_DIRECTORY) now (i_id inode)) (i_id inode) (in_acl (i_data inode)) in
  DirEntry_store (mkDirEntry (e_parent entry) (e_name entry) (set_de_gcInfo (Some gcInfo) (e_data entry))).

Definition gc_add (dir : InodeId) (inode : Inode) (gcInfo : GcInfo) : M Txn unit :=
  match getType (i_data inode) with
  | IT_File => gc_addFile dir inode
  | IT_Directory => gc_addDirectory dir inode gcInfo
  | IT_Symlink => fatal
  end.

(** [GcManager::removeEntry]; the inode as updated is returned. *)
Definition GcManager_removeEntry (entry : DirEntry) (inode0 : Inode) (gcInfo : GcInfo) : M Txn Inode :=
  err_if (in_nlink (i_data inode0) =? 0) MetaCode_kInconsistent ;;
  err_if (isImmutable (in_acl (i_data inode0))) MetaCode_kNoPermission ;;
  let nlink := in_nlink (i_data inode0) - 1 in
  inode ← touch_ctime (set_i_data (set_in_nlink nlink) inode0);
  Inode_addIntoReadConflict (i_id inode) ;;
  DirEntry_addIntoReadConflict (e_parent entry) (e_name entry) ;;
  (if bool_decide (e_type entry = IT_Symlink) then
     DirEntry_remove entry ;;
     (if negb (nlink =? 0) then Inode_store inode else Inode_remove inode)
   else
     Inode_store inode ;;
     DirEntry_remove entry ;;
     when (isDirectory (i_data inode))
       (err_if (negb (nlink =? 0)) MetaCode_kFoundBug ;;
        d ← lift (asDirectory (i_data inode));
        err_if (negb (di_parent d =? e_parent entry)) MetaCode_kFoundBug) ;;
     when (nlink =? 0)
       (dir ← pickGcDirectory; gc_add dir inode gcInfo)) ;;
  mret inode.

(** ** Collecting garbage *)

Record GcTask := mkGcTask { gt_type : GcEntryType; gt_entry : DirEntry }.

Definition gc_moveToTail (task : GcTask) (delay : Z) : M Txn unit :=
  let e := gt_entry task in
  exists_ ← DirEntry_checkExist (e_parent e) (e_name e);
  when exists_
    (now ← ask fe_utc;
     fatal_if (bool_decide (e_type e = IT_Symlink)) ;;
     fatal_if (negb (Bool.eqb (bool_decide (e_type e = IT_Directory)) (bool_decide (is_Some (de_dirAcl (e_data e)))))) ;;
     DirEntry_store (mkDirEntry (e_parent e) (formatGcEntry (prefixOf (gt_type task)) (now + delay) (e_id e)) (e_data e)) ;;
     DirEntry_remove e).

Definition removeGcEntryAndInode (task : GcTask) : M Txn unit :=
  DirEntry_remove (gt_entry task) ;;
  Inode_remove (mkInode (e_id (gt_entry task)) defaultInodeData).

(** The user who removed the directory: an old version did not record it, and
    the owner is assumed. *)
Definition gc_user (task : GcTask) : outcome Z :=
  match de_gcInfo (e_data (gt_entry task)) with
  | Some info => Ok (gi_user info)
  | None => match de_dirAcl (e_data (gt_entry task)) with Some acl => Ok (acl_uid acl) | None => Fatal end
  end.

(** What [getUserAttr] gives of a user. *)
Record UserAttr := mkUserAttr { ua_name : string; ua_info : UserInfo }.

Definition gc_allocateInodeId : M Txn InodeId :=
  answer ← ask fe_allocate;
  id ← lift answer;
  modify (add_id id) ;;
  existing ← Inode_load id;
  fatal_if (bool_decide (is_Some existing)) ;;
  mret id.

(** [createOrphanEntry], in three parts: the directory, a link that holds the
    original path, and the entry.  Each searches for a name that is free. *)
Fixpoint orphan_step (fuel : nat) (i : nat) (parent : InodeId) (fname : string) : M Txn InodeId :=
  match fuel with
  | O => lift Pending
  | S fuel' =>
      let name := match i with O => fname | _ => String.substring 0 240 fname +:+ "." +:+ pretty i end in
      entry ← DirEntry_load parent name;
      match entry with
      | Some e => if bool_decide (e_type e = IT_Directory) then mret (e_id e) else orphan_step fuel' (S i) parent fname
      | None =>
          id ← gc_allocateInodeId;
          let acl := mkAcl 0 0 493 0 in
          DirEntry_store (newDirectoryEntry parent name id acl) ;;
          now ← ask fe_utc;
          Inode_store (newDirectoryInode id parent name acl (mkLayout 0 0 0 0 LC_Empty) (castGranularity 1000000 now)) ;;
          mret id
      end
  end.

Fixpoint orphan_directory (parent : InodeId) (names : list string) : M Txn InodeId :=
  match names with
  | [] => mret parent
  | n :: rest =>
      t ← getS;
      next ← orphan_step (S (size (fs_entries (view t)))) 0 parent n;
      orphan_directory next rest
  end.

Fixpoint orphan_symlink (fuel : nat) (first : bool) (parent : InodeId) (origPath : Path) (user : Z) : M Txn unit :=
  match fuel with
  | O => lift Pending
  | S fuel' =>
      name ← (if first then mret "_hf3fs_original_path"
              else now ← ask fe_utc; mret ("_hf3fs_original_path." +:+ pretty now));
      entry ← DirEntry_load parent name;
      match entry with
      | Some e =>
          same ← (if bool_decide (e_type e = IT_Symlink) then
                    inode ← DirEntry_loadInode e;
                    target ← lift (asSymlink (i_data inode));
                    mret (bool_decide (target = origPath))
                  else mret false);
          if same : bool then mret tt else orphan_symlink fuel' false parent origPath user
      | None =>
          id ← gc_allocateInodeId;
          now ← ask fe_utc;
          Inode_store (newSymlinkInode id origPath user user (castGranularity 1000000 now)) ;;
          DirEntry_store (newSymlinkEntry parent name id)
      end
  end.

Fixpoint orphan_entry (fuel : nat) (first : bool) (parent : InodeId) (entry : DirEntry) : M Txn DirEntry :=
  match fuel with
  | O => lift Pending
  | S fuel' =>
      name ← (if first then mret (e_name entry)
              else now ← ask fe_utc; mret (String.substring 0 230 (e_name entry) +:+ "." +:+ pretty now));
      taken ← DirEntry_checkExist parent name;
      if taken : bool then orphan_entry fuel' false parent entry
      else
        let orphan := mkDirEntry parent name (e_data entry) in
        DirEntry_store orphan ;; mret orphan
  end.

Definition createOrphanEntry (fuel : nat) (task : GcTask) (entry : DirEntry) (inode : Inode) (user : UserAttr) : M Txn DirEntry :=
  fatal_if (negb (e_id entry =? i_id inode)) ;;
  now ← ask fe_utc;
  let orphanDir := ["trash"; "gc-orphans"; ua_name user +:+ "-" +:+ fe_date now]
                   ++ (if isFile (i_data inode) then [toHexString (e_parent entry)] else []) in
  parent ← orphan_directory InodeId_root orphanDir;
  match de_gcInfo (e_data (gt_entry task)) with
  | Some info =>
      let isDir := isDirectory (i_data inode) in
      orphan_symlink fuel true (if isDir then i_id inode else parent)
        (if isDir then gi_origPath info ++ [e_name entry] else gi_origPath info) (gi_user info)
  | None => mret tt
  end ;;
  orphan_entry fuel true parent entry.

(** [GcTask::removeEntry]: an entry of a removed directory. *)
Definition GcTask_removeEntry (fuel : nat) (task : GcTask) (user : UserAttr) (entry : DirEntry) : M Txn unit :=
  err_if (negb (e_parent entry =? e_id (gt_entry task))) MetaCode_kFoundBug ;;
  inode ← DirEntry_loadInode entry;
  err_if (negb (i_id inode =? e_id entry)) MetaCode_kFoundBug ;;
  err_if (match in_type (i_data inode) with IV_Directory d => negb (di_parent d =? e_parent entry) | _ => false end)
    MetaCode_kFoundBug ;;
  perm ←
    (if isImmutable (in_acl (i_data inode)) then mret false
     else if fc_gc_recursive_perm_check cfg && isDirectory (i_data inode) then
       match checkRecursiveRmPerm (in_acl (i_data inode)) (ua_info user) false with
       | Ok _ => mret true
       | _ => checkEmpty (i_id inode)
       end
     else mret true);
  if (perm : bool) then
    uid ← lift (gc_user task);
    let origPath := match de_gcInfo (e_data (gt_entry task)) with
                    | Some info => gi_origPath info ++ [e_name entry]
                    | None => [e_name entry]
                    end in
    GcManager_removeEntry entry inode (mkGcInfo uid origPath) ;;
    mret tt
  else
    orphan ← createOrphanEntry fuel task entry inode user;
    match in_type (i_data inode) with
    | IV_Directory d => Inode_store (set_i_data (set_in_type (IV_Directory (set_di_parent (e_parent orphan) d))) inode)
    | _ => mret tt
    end ;;
    DirEntry_remove entry.

(** One transaction of [gcDirectory]: whether the inode was already checked,
    and whether it is and the task is finished. *)
Definition gcDirectory_txn (fuel : nat) (task : GcTask) (user : UserAttr) (checked : bool) : M Txn (bool * bool) :=
  gone ←
    (if checked then mret false
     else
       loaded ← Inode_load (e_id (gt_entry task));
       match loaded with
       | None => removeGcEntryAndInode task ;; mret true
       | Some inode =>
           err_if (negb (in_nlink (i_data inode) =? 0) || negb (isDirectory (i_data inode)) || isImmutable (in_acl (i_data inode)))
             MetaCode_kFoundBug ;;
           mret false
       end);
  if (gone : bool) then mret (false, true)
  else
    '(es, more) ← DirEntryList_load (e_id (gt_entry task)) "" (fc_gc_directory_entry_batch cfg);
    for_each (GcTask_removeEntry fuel task user) es ;;
    if (more : bool) then mret (true, false)
    else removeGcEntryAndInode task ;; mret (true, true).

(** The read-only transaction of [gcFile]: the inode whose chunks are to be
    removed. *)
Definition gcFile_check (task : GcTask) : M Txn (option Inode) :=
  let id := e_id (gt_entry task) in
  inode ← Inode_snapshotLoad id;
  if negb (fc_gc_check_session cfg) then mret inode
  else
    session ← FileSession_snapshotCheckExists id;
    err_if (bool_decide (is_Some session)) MetaCode_kBusy ;;
    match inode with
    | Some i => err_if (negb (in_nlink (i_data i) =? 0) || isImmutable (in_acl (i_data i))) MetaCode_kFoundBug
    | None => mret tt
    end ;;
    mret inode.

(** [openGcDirectory]: 512 ids are drawn and one of them is taken. *)
Fixpoint draw_ids (n : nat) (acc : list InodeId) : M Txn (list InodeId) :=
  match n with
  | O => mret acc
  | S n' => answer ← ask fe_allocate; id ← lift answer; modify (add_id id) ;; draw_ids n' (acc ++ [id])
  end.

Definition gcDirectoryName (nodeId : Z) (idx : nat) : string :=
  match idx with
  | O => "GC-Node-" +:+ pretty nodeId
  | _ => "GC-Node-" +:+ pretty nodeId +:+ "." +:+ pretty idx
  end.

Definition openGcDirectory (nodeId : Z) (idx : nat) (create : bool) : M Txn (option DirEntry) :=
  let name := gcDirectoryName nodeId idx in
  entry ← DirEntry_load InodeId_gcRoot name;
  match entry with
  | Some e => mret (Some e)
  | None =>
      if negb create then mret None
      else
        ids ← draw_ids 512 [];
        r ← ask fe_rand;
        newId ← lift (match ids !! Z.to_nat (r mod 512) with Some id => Ok id | None => Fatal end);
        now ← ask fe_utc;
        Inode_store (newDirectoryInode newId InodeId_gcRoot name Acl_gcRoot (mkLayout 0 0 0 0 LC_Empty) now) ;;
        let e := newDirectoryEntry InodeId_gcRoot name newId Acl_gcRoot in
        DirEntry_store e ;;
        mret (Some e)
  end.
End gc.
