(* ===== verification/FsOps.v ===== *)
(** * Operations on the namespace ([src/meta/store/ops/{Mkdirs,Symlink,HardLink,
      Remove,Rename,LockDirectory,SetAttr}.*], [src/meta/store/MetaStore.cc])

    One definition per operation: the body of its transaction. *)

From Stdlib Require Import ZArith Lia.
From stdpp Require Import base gmap list strings.
From S2P Require Import Prelude StatusCode MgmtdTypes FsTypes FsTxn FsLayout FsResolve FsGc.

(** ** Requests ([src/fbs/meta/Service.h]) *)

Record ReqBase := mkReqBase { rq_user : UserInfo; rq_client : ClientId; rq_uuid : Uuid }.

Definition checkUuid (r : ReqBase) : outcome unit :=
  if (rq_client r =? 0) || (rq_uuid r =? 0) then Err kInvalidArg else Ok tt.

Record MkdirsReq := mkMkdirsReq { mk_base : ReqBase; mk_path : PathAt; mk_perm : Z; mk_recursive : bool; mk_layout : option Layout }.

Definition MkdirsReq_valid (r : MkdirsReq) : outcome unit :=
  match pa_path (mk_path r) with
  | None | Some [] => Err kInvalidArg
  | Some _ => match mk_layout r with Some l => Layout_valid l true | None => Ok tt end
  end.

Record SymlinkReq := mkSymlinkReq { sl_base : ReqBase; sl_path : PathAt; sl_target : Path }.

Record HardLinkReq := mkHardLinkReq { hl_base : ReqBase; hl_oldPath : PathAt; hl_newPath : PathAt; hl_flags : Z }.

Record RemoveReq := mkRemoveReq {
  rm_base : ReqBase; rm_path : PathAt; rm_atFlags : Z; rm_recursive : bool; rm_checkType : bool; rm_inodeId : option InodeId }.

Definition RemoveReq_valid (r : RemoveReq) : outcome unit :=
  match (match pa_path (rm_path r) with Some _ => validForCreate (rm_path r) | None => Ok tt end) with
  | Ok _ => if rm_recursive r then checkUuid (rm_base r) else Ok tt
  | e => e
  end.

Record RenameReq := mkRenameReq {
  rn_base : ReqBase; rn_src : PathAt; rn_dest : PathAt; rn_moveToTrash : bool; rn_inodeId : option InodeId }.

Definition RenameReq_valid (r : RenameReq) : outcome unit :=
  match validForCreate (rn_src r) with
  | Ok _ => match validForCreate (rn_dest r) with
            | Ok _ => if rn_moveToTrash r then checkUuid (rn_base r) else Ok tt
            | e => e
            end
  | e => e
  end.

Inductive LockAction := LA_TryLock | LA_PreemptLock | LA_UnLock | LA_Clear.
Record LockDirectoryReq := mkLockDirectoryReq { ld_base : ReqBase; ld_inode : InodeId; ld_action : LockAction }.

Record SetAttrReq := mkSetAttrReq {
  sa_base : ReqBase; sa_path : PathAt; sa_flags : Z;
  sa_uid : option Z; sa_gid : option Z; sa_perm : option Z;
  sa_atime : option UtcTime; sa_mtime : option UtcTime;
  sa_layout : option Layout; sa_iflags : option Z; sa_dynStripe : Z }.

Definition FS_FL_SUPPORTED : Z :=
  Z.lor FS_IMMUTABLE_FL (Z.lor FS_CHAIN_ALLOCATION_FL (Z.lor FS_NEW_CHUNK_ENGINE FS_HUGE_FILE_FL)).

Definition SetAttrReq_valid (r : SetAttrReq) : outcome unit :=
  match (match sa_layout r with Some l => Layout_valid l true | None => Ok tt end) with
  | Ok _ => match sa_iflags r with
            | Some f => if negb (Z.ldiff f FS_FL_SUPPORTED =? 0) then Err kInvalidArg else Ok tt
            | None => Ok tt
            end
  | e => e
  end.

(** The path of a request whose [validForCreate] holds. *)
Definition req_filename (p : PathAt) : string := filename (default [] (pa_path p)).

Section ops.
Context {HEnv : FsEnv} (cfg : FsConfig).

(** The entry was made by this very request, whose answer got lost. *)
Definition already_done (e : DirEntry) (r : ReqBase) : bool :=
  negb (de_uuid (e_data e) =? 0) && (de_uuid (e_data e) =? rq_uuid r).

(** The parent as its inode, which the user may write and no other client has
    locked. *)
Definition writable_parent (r : ResolveResult) (req : ReqBase) : M Txn (Inode * Directory) :=
  parent ← getParentInode r;
  lift (checkPermission (in_acl (i_data parent)) (rq_user req) AccessType_WRITE) ;;
  d ← lift (asDirectory (i_data parent));
  lift (checkLock d (rq_client req)) ;;
  mret (parent, d).

(** ** [MkdirsOp] *)

Fixpoint mkdirs_loop (req : MkdirsReq) (acl : Acl) (layout : Layout) (parentId : InodeId) (missing : Path) : M Txn Inode :=
  match missing with
  | [] => fatal
  | name :: rest =>
      err_if (bool_decide (name = "" \/ name = "." \/ name = "..")) kInvalidArg ;;
      inodeId ← allocateInodeId cfg false;
      checkLayoutValid layout ;;
      now ← op_now cfg;
      let inode := newDirectoryInode inodeId parentId name acl layout now in
      let entry := newDirectoryEntry parentId name inodeId acl in
      DirEntry_store (mkDirEntry parentId name (set_de_uuid (rq_uuid (mk_base req)) (e_data entry))) ;;
      Inode_store inode ;;
      match rest with
      | [] => mret inode
      | _ => mkdirs_loop req acl layout inodeId rest
      end
  end.

(** The access right of a new directory. *)
Definition mkdirs_acl (req : MkdirsReq) (parent : Acl) : Acl :=
  let user := rq_user (mk_base req) in
  let perm := Z.land (mk_perm req) ALLPERMS in
  let iflags := Z.land (acl_iflags parent) FS_FL_INHERITABLE in
  if has_bits (acl_perm parent) S_ISGID
  then mkAcl (us_uid user) (acl_gid parent) (Z.lor perm S_ISGID) iflags
  else mkAcl (us_uid user) (us_gid user) perm iflags.

Definition mkdirs (req : MkdirsReq) : M Txn Inode :=
  lift (MkdirsReq_valid req) ;;
  '(r, missing) ← resolve_pathRange cfg (rq_user (mk_base req)) (mk_path req);
  match missing with
  | [] =>
      match rr_dirEntry r with
      | Some e => if already_done e (mk_base req) then DirEntry_snapshotLoadInode e else fail MetaCode_kExists
      | None => fatal
      end
  | name :: rest =>
      err_if (negb (bool_decide (rest = [])) && negb (mk_recursive req)) MetaCode_kNotFound ;;
      '(parent, d) ← writable_parent r (mk_base req);
      let layout := default (di_layout d) (mk_layout req) in
      let parentId := parent_id (rr_parent r) in
      Inode_addIntoReadConflict parentId ;;
      DirEntry_addIntoReadConflict parentId name ;;
      mkdirs_loop req (mkdirs_acl req (in_acl (i_data parent))) layout parentId missing
  end.

(** ** [SymlinkOp] *)

Definition symlinkOp (req : SymlinkReq) : M Txn Inode :=
  let user := rq_user (sl_base req) in
  lift (validForCreate (sl_path req)) ;;
  r ← resolve_path cfg user (sl_path req) AT_SYMLINK_NOFOLLOW;
  match rr_dirEntry r with
  | Some e => if already_done e (sl_base req) then DirEntry_snapshotLoadInode e else fail MetaCode_kExists
  | None =>
      writable_parent r (sl_base req) ;;
      inodeId ← allocateInodeId cfg false;
      let parentId := parent_id (rr_parent r) in
      let name := req_filename (sl_path req) in
      now ← op_now cfg;
      let inode := newSymlinkInode inodeId (sl_target req) (us_uid user) (us_gid user) now in
      Inode_addIntoReadConflict parentId ;;
      DirEntry_addIntoReadConflict parentId name ;;
      DirEntry_store (mkDirEntry parentId name (set_de_uuid (rq_uuid (sl_base req)) (e_data (newSymlinkEntry parentId name inodeId)))) ;;
      Inode_store inode ;;
      mret inode
  end.

(** ** [HardLinkOp] *)

Definition hardLink (req : HardLinkReq) : M Txn Inode :=
  let user := rq_user (hl_base req) in
  lift (validForCreate (hl_newPath req)) ;;
  r ← resolve_path cfg user (hl_newPath req) (hl_flags req);
  match rr_dirEntry r with
  | Some e => if already_done e (hl_base req) then DirEntry_snapshotLoadInode e else fail MetaCode_kExists
  | None =>
      inode ← resolve_inode cfg user (hl_oldPath req) (hl_flags req) true;
      writable_parent r (hl_base req) ;;
      err_if (isImmutable (in_acl (i_data inode))) MetaCode_kNoPermission ;;
      let parentId := parent_id (rr_parent r) in
      let name := req_filename (hl_newPath req) in
      entry ← match getType (i_data inode) with
              | IT_File => mret (newFileEntry parentId name (i_id inode))
              | IT_Directory => fail MetaCode_kIsDirectory
              | IT_Symlink => mret (newSymlinkEntry parentId name (i_id inode))
              end;
      err_if (in_nlink (i_data inode) =? 2 ^ 16 - 1) MetaCode_kNoPermission ;;
      Inode_addIntoReadConflict parentId ;;
      DirEntry_addIntoReadConflict parentId name ;;
      DirEntry_store (mkDirEntry parentId name (set_de_uuid (rq_uuid (hl_base req)) (e_data entry))) ;;
      inode' ← touch_ctime cfg (set_i_data (set_in_nlink (in_nlink (i_data inode) + 1)) inode);
      Inode_addIntoReadConflict (i_id inode') ;;
      Inode_store inode' ;;
      mret inode'
  end.

(** ** [RemoveOp] *)

(** The sticky bit of a directory: only the owners and root may take a name
    away. *)
Definition sticky_forbids (user : UserInfo) (parent inode : InodeData) : bool :=
  has_bits (acl_perm (in_acl parent)) S_ISVTX && negb (us_uid user =? acl_uid (in_acl parent)) && negb (isRoot user)
  && negb (us_uid user =? acl_uid (in_acl inode)).

Definition ancestors_path (ancestors : list Inode) (name : string) : M Txn Path :=
  names ← lift (foldr (fun i acc => match asDirectory (i_data i), acc with Ok d, Ok l => Ok (di_name d :: l) | _, _ => Fatal end)
                  (Ok []) ancestors);
  mret (rev names ++ [name]).

Definition remove (req : RemoveReq) : M Txn unit :=
  let user := rq_user (rm_base req) in
  lift (RemoveReq_valid req) ;;
  r ← (if bool_decide (is_Some (pa_path (rm_path req)))
       then resolve_path cfg user (rm_path req) AT_SYMLINK_NOFOLLOW
       else resolve_byDirectoryInodeId cfg (pa_parent (rm_path req)));
  match rr_dirEntry r with
  | None => fail MetaCode_kNotFound
  | Some entry =>
      err_if (isTreeRoot (e_id entry)) MetaCode_kNoPermission ;;
      err_if (match rm_inodeId req with Some id => negb (e_id entry =? id) | None => false end) MetaCode_kNotFound ;;
      '(parent, _) ← writable_parent r (rm_base req);
      err_if (rm_checkType req && contains (rm_atFlags req) AT_REMOVEDIR && bool_decide (e_type entry = IT_File)) MetaCode_kNotDirectory ;;
      err_if (rm_checkType req && negb (contains (rm_atFlags req) AT_REMOVEDIR) && bool_decide (e_type entry = IT_Directory)) MetaCode_kIsDirectory ;;
      inode ← DirEntry_snapshotLoadInode entry;
      err_if (sticky_forbids user (i_data parent) (i_data inode)) MetaCode_kNoPermission ;;
      err_if (isImmutable (in_acl (i_data inode))) MetaCode_kNoPermission ;;
      if bool_decide (e_type entry = IT_Directory) then
        empty ← checkEmpty (e_id entry);
        if (empty : bool) then
          DirEntry_addIntoReadConflict (e_parent entry) (e_name entry) ;;
          Inode_addIntoReadConflict (i_id inode) ;;
          DirEntry_remove entry ;;
          Inode_remove inode
        else
          err_if (negb (rm_recursive req)) MetaCode_kNotEmpty ;;
          lift (checkRecursiveRmPerm (in_acl (i_data inode)) user (fc_recursive_remove_check_owner cfg)) ;;
          when (negb (fc_recursive_remove_perm_check cfg =? 0))
            (recursiveCheckRmPerm (i_id inode) user (fc_recursive_remove_perm_check cfg) 128) ;;
          ancestors ← loadAncestors (e_parent entry);
          origPath ← ancestors_path ancestors (e_name entry);
          GcManager_removeEntry cfg entry inode (mkGcInfo (us_uid user) origPath) ;;
          mret tt
      else
        GcManager_removeEntry cfg entry inode (mkGcInfo (us_uid user) [e_name entry]) ;;
        mret tt
  end.

(** ** [RenameOp] *)

Definition underTrash (ancestors : list Inode) : outcome bool :=
  match rev ancestors with
  | top :: next :: _ =>
      if i_id top =? InodeId_root then omap_outcome (fun d => bool_decide (di_name d = "trash")) (asDirectory (i_data next))
      else Ok false
  | _ => Ok false
  end.

(** The ancestors of the destination: the source is not among them, and all of
    them are alive. *)
Fixpoint check_ancestors (src : InodeId) (ancestors : list Inode) : outcome unit :=
  match ancestors with
  | [] => Ok tt
  | a :: rest =>
      if i_id a =? src then Err kInvalidArg
      else if in_nlink (i_data a) =? 0 then Err MetaCode_kNotFound
      else
        match asDirectory (i_data a) with
        | Ok d =>
            if i_id a =? di_parent d then
              if i_id a =? InodeId_root then Ok tt
              else if i_id a =? InodeId_gcRoot then Err MetaCode_kNoPermission
              else Err MetaCode_kFoundBug
            else check_ancestors src rest
        | _ => Fatal
        end
  end.

Definition checkLoop (req : RenameReq) (src : ResolveResult) (srcEntry : DirEntry) (dst : ResolveResult) : M Txn unit :=
  let user := rq_user (rn_base req) in
  dstAncestors ← loadAncestors (parent_id (rr_parent dst));
  lift (check_ancestors (e_id srcEntry) dstAncestors) ;;
  trash ← lift (underTrash dstAncestors);
  when trash
    (fatal_if (negb (bool_decide (e_type srcEntry = IT_Directory))) ;;
     srcAncestors ← loadAncestors (parent_id (rr_parent src));
     (if rn_moveToTrash req || fc_allow_directly_move_to_trash cfg then
        match de_dirAcl (e_data srcEntry) with
        | None => fail MetaCode_kFoundBug
        | Some acl =>
            lift (checkRecursiveRmPerm acl user (fc_recursive_remove_check_owner cfg)) ;;
            when (negb (fc_recursive_remove_perm_check cfg =? 0))
              (recursiveCheckRmPerm (e_id srcEntry) user (fc_recursive_remove_perm_check cfg) 128)
        end
      else when (negb (isRoot user))
             (under ← lift (underTrash srcAncestors); err_if (negb under) MetaCode_kNoPermission)) ;;
     ancestors_path srcAncestors (e_name srcEntry) ;;
     mret tt).

(** [RenameOp::checkPermission]: the inode of the entry, if there is one. *)
Definition rename_checkPermission (req : RenameReq) (r : ResolveResult) (dst : bool) : M Txn (option Inode) :=
  '(parent, _) ← writable_parent r (rn_base req);
  err_if (dst && (in_nlink (i_data parent) =? 0)) MetaCode_kNotFound ;;
  match rr_dirEntry r with
  | None => mret None
  | Some entry =>
      inode ← DirEntry_snapshotLoadInode entry;
      err_if (isImmutable (in_acl (i_data inode))) MetaCode_kNoPermission ;;
      err_if (sticky_forbids (rq_user (rn_base req)) (i_data parent) (i_data inode)) MetaCode_kNoPermission ;;
      mret (Some inode)
  end.

Definition removeDst (req : RenameReq) (dst : ResolveResult) (dstInode : option Inode) : M Txn unit :=
  match rr_dirEntry dst with
  | None => mret tt
  | Some entry =>
      match e_type entry with
      | IT_File =>
          inode ← match dstInode with Some i => mret i | None => DirEntry_snapshotLoadInode entry end;
          GcManager_removeEntry cfg entry inode (mkGcInfo (us_uid (rq_user (rn_base req))) [e_name entry]) ;;
          mret tt
      | IT_Directory => Inode_remove (mkInode (e_id entry) defaultInodeData)
      | IT_Symlink =>
          inode ← DirEntry_loadInode entry;
          err_if (in_nlink (i_data inode) =? 0) MetaCode_kFoundBug ;;
          inode' ← touch_ctime cfg inode;
          Inode_store (set_i_data (set_in_nlink (in_nlink (i_data inode') - 1)) inode')
      end
  end.

(** The writes of a rename: the directory learns its new place, the old entry
    goes, what it replaces is removed, and the new entry is made. *)
Definition rename_move (req : RenameReq) (srcEntry : DirEntry) (dst : ResolveResult) (dstInode : option Inode) : M Txn Inode :=
  let dstParent := parent_id (rr_parent dst) in
  let dstName := req_filename (rn_dest req) in
  inode0 ← DirEntry_loadInode srcEntry;
  inode ← (if bool_decide (e_type srcEntry = IT_Directory) then
             d ← lift (asDirectory (i_data inode0));
             let inode1 := set_i_data (set_in_type (IV_Directory (set_di_name dstName (set_di_parent dstParent d)))) inode0 in
             Inode_store inode1 ;; mret inode1
           else mret inode0);
  DirEntry_remove srcEntry ;;
  removeDst req dst dstInode ;;
  DirEntry_store (mkDirEntry dstParent dstName (set_de_uuid (rq_uuid (rn_base req)) (e_data srcEntry))) ;;
  mret inode.

Definition rename (req : RenameReq) : M Txn Inode :=
  let user := rq_user (rn_base req) in
  lift (RenameReq_valid req) ;;
  src ← resolve_path cfg user (rn_src req) AT_SYMLINK_NOFOLLOW;
  dst ← resolve_path cfg user (rn_dest req) AT_SYMLINK_NOFOLLOW;
  let dstEntry := rr_dirEntry dst in
  if match dstEntry with Some e => already_done e (rn_base req) | None => false end then
    match dstEntry with Some e => DirEntry_snapshotLoadInode e | None => fatal end
  else
    match rr_dirEntry src with
    | None => fail MetaCode_kNotFound
    | Some srcEntry =>
        err_if (match rn_inodeId req with Some id => negb (e_id srcEntry =? id) | None => false end) MetaCode_kNotFound ;;
        if match dstEntry with
           | Some e => (e_parent e =? e_parent srcEntry) && bool_decide (e_name e = e_name srcEntry)
           | None => false
           end then
          match dstEntry with Some e => DirEntry_snapshotLoadInode e | None => fatal end
        else
          err_if (match dstEntry with Some e => bool_decide (e_type e = IT_File) && rn_moveToTrash req | None => false end) MetaCode_kExists ;;
          match dstEntry with
          | Some e =>
              when (bool_decide (e_type e = IT_Directory))
                (empty ← checkEmpty (e_id e); err_if (negb empty) MetaCode_kNotEmpty)
          | None => mret tt
          end ;;
          when (bool_decide (e_type srcEntry = IT_Directory))
            (err_if (match dstEntry with Some e => negb (bool_decide (e_type e = IT_Directory)) | None => false end) MetaCode_kNotDirectory ;;
             checkLoop req src srcEntry dst) ;;
          rename_checkPermission req src false ;;
          dstInode ← rename_checkPermission req dst true;
          Inode_addIntoReadConflict (parent_id (rr_parent src)) ;;
          DirEntry_addIntoReadConflict (e_parent srcEntry) (e_name srcEntry) ;;
          Inode_addIntoReadConflict (parent_id (rr_parent dst)) ;;
          DirEntry_addIntoReadConflict (parent_id (rr_parent dst)) (req_filename (rn_dest req)) ;;
          rename_move req srcEntry dst dstInode
    end.

(** ** [LockDirectoryOp] *)

Definition set_lock (lock : option ClientId) (inode : Inode) (d : Directory) : Inode :=
  set_i_data (set_in_type (IV_Directory (set_di_lock lock d))) inode.

Definition take_lock (req : LockDirectoryReq) (inode : Inode) (d : Directory) : M Txn unit :=
  let lock := Some (rq_client (ld_base req)) in
  when (negb (bool_decide (di_lock d = lock))) (Inode_store (set_lock lock inode d)).

Definition drop_lock (inode : Inode) (d : Directory) : M Txn unit :=
  when (bool_decide (is_Some (di_lock d))) (Inode_store (set_lock None inode d)).

(** The cases of the [switch] fall through to the next one. *)
Definition lockDirectory (req : LockDirectoryReq) : M Txn unit :=
  loaded ← Inode_load (ld_inode req);
  inode ← lift (checkMetaFound loaded);
  lift (checkPermission (in_acl (i_data inode)) (rq_user (ld_base req)) AccessType_WRITE) ;;
  match in_type (i_data inode) with
  | IV_Directory d =>
      let foreign := match di_lock d with Some c => negb (c =? rq_client (ld_base req)) | None => false end in
      match ld_action req with
      | LA_TryLock => err_if foreign MetaCode_kNoLock ;; take_lock req inode d
      | LA_PreemptLock => take_lock req inode d
      | LA_UnLock => err_if (bool_decide (di_lock d = None)) MetaCode_kNoLock ;; err_if foreign MetaCode_kNoLock ;; drop_lock inode d
      | LA_Clear => drop_lock inode d
      end
  | _ => fail MetaCode_kNotDirectory
  end.

(** ** [SetAttr] *)

Definition opt_differs (v : option Z) (cur : Z) : bool := match v with Some x => negb (x =? cur) | None => false end.

Definition SetAttr_check (inode : Inode) (req : SetAttrReq) : outcome unit :=
  let user := rq_user (sa_base req) in
  let acl := in_acl (i_data inode) in
  let owner := us_uid user =? acl_uid acl in
  match SetAttrReq_valid req with
  | Ok _ =>
      if isTreeRoot (i_id inode) && (bool_decide (is_Some (sa_perm req)) || bool_decide (is_Some (sa_uid req)) || bool_decide (is_Some (sa_gid req)))
      then Err MetaCode_kNoPermission
      else if match sa_iflags req with
              | Some f =>
                  negb (f =? acl_iflags acl) &&
                  let sets bit := negb (has_bits (acl_iflags acl) bit) && has_bits f bit in
                  let changed := Z.lxor f (acl_iflags acl) in
                  let ownerChangeable := if fc_allow_owner_change_immutable cfg then Z.lor FS_HUGE_FILE_FL FS_IMMUTABLE_FL else FS_HUGE_FILE_FL in
                  (sets FS_CHAIN_ALLOCATION_FL && negb (fc_iflags_chain_allocation cfg))
                  || (sets FS_NEW_CHUNK_ENGINE && negb (fc_iflags_chunk_engine cfg))
                  || negb (isRoot user || (owner && (changed =? Z.land changed ownerChangeable)))
              | None => false
              end
      then Err MetaCode_kNoPermission
      else if opt_differs (sa_perm req) (acl_perm acl) && negb (isRoot user) && negb owner then Err MetaCode_kNoPermission
      else if opt_differs (sa_uid req) (acl_uid acl) && negb (isRoot user) then Err MetaCode_kNoPermission
      else if opt_differs (sa_gid req) (acl_gid acl) && negb (isRoot user)
              && (negb owner || match sa_gid req with Some g => negb (inGroup user g) | None => false end)
      then Err MetaCode_kNoPermission
      else
        let cond1 := is_ok (checkPermission acl user AccessType_WRITE) in
        let explicit := opt_differs (sa_atime req) SETATTR_TIME_NOW || opt_differs (sa_mtime req) SETATTR_TIME_NOW in
        if (bool_decide (is_Some (sa_atime req)) || bool_decide (is_Some (sa_mtime req)))
           && negb (owner || isRoot user || (negb explicit && cond1))
        then Err MetaCode_kNoPermission
        else if bool_decide (is_Some (sa_layout req)) && negb (isDirectory (i_data inode)) then Err MetaCode_kNotDirectory
        else if bool_decide (is_Some (sa_layout req)) && negb cond1 then Err MetaCode_kNoPermission
        else if negb (isFile (i_data inode)) && negb (sa_dynStripe req =? 0) then Err MetaCode_kNotFile
        else Ok tt
  | e => e
  end.

Definition update_opt (v : Z) (nv : option Z) : Z * bool :=
  match nv with Some n => if n =? v then (v, false) else (n, true) | None => (v, false) end.

Fixpoint grow_stripe (fuel : nat) (target stripeSize growth dynStripe : Z) : outcome Z :=
  match fuel with
  | O => Pending
  | S fuel' =>
      if dynStripe <? Z.min target stripeSize
      then grow_stripe fuel' target stripeSize growth (Z.min (u32 (dynStripe * growth)) stripeSize)
      else Ok dynStripe
  end.

Definition SetAttr_apply (inode : Inode) (req : SetAttrReq) : M Txn (Inode * bool) :=
  let x := i_data inode in
  let gran := fc_time_granularity cfg in
  let '(iflags, d1) := update_opt (acl_iflags (in_acl x)) (sa_iflags req) in
  let '(uid, d2) := update_opt (acl_uid (in_acl x)) (sa_uid req) in
  let '(gid, d3) := update_opt (acl_gid (in_acl x)) (sa_gid req) in
  let '(perm, d4) := update_opt (acl_perm (in_acl x)) (sa_perm req) in
  '(type, d5) ← match sa_layout req with
                | Some l => d ← lift (asDirectory x);
                            mret (IV_Directory (set_di_layout l d), negb (bool_decide (di_layout d = l)))
                | None => mret (in_type x, false)
                end;
  let dirty := d1 || d2 || d3 || d4 || d5 in
  ctime ← (if dirty then '(c, _) ← update_time (in_ctime x) (Some SETATTR_TIME_NOW) gran true; mret c else mret (in_ctime x));
  '(atime, d6) ← update_time (in_atime x) (sa_atime req) gran false;
  '(mtime, d7) ← update_time (in_mtime x) (sa_mtime req) gran false;
  '(type', d8) ←
    (if sa_dynStripe req =? 0 then mret (type, false)
     else
       f ← lift (asFile (set_in_type type x));
       if (fl_dynStripe f =? 0) || (sa_dynStripe req <=? fl_dynStripe f) then mret (type, false)
       else
         s ← lift (grow_stripe 64 (sa_dynStripe req) (ly_stripeSize (fl_layout f)) (Z.max 2 (fc_dynamic_stripe_growth cfg)) (fl_dynStripe f));
         mret (IV_File (set_fl_dynStripe s f), negb (s =? fl_dynStripe f)));
  mret (mkInode (i_id inode) (mkInodeData type' (mkAcl uid gid perm iflags) (in_nlink x) atime ctime mtime),
        dirty || d6 || d7 || d8).

(** A directory written by an old version learns its name from its entry. *)
Definition fill_name (inode : Inode) (name : string) : Inode * bool :=
  match in_type (i_data inode) with
  | IV_Directory d =>
      if bool_decide (di_name d = "") then (set_i_data (set_in_type (IV_Directory (set_di_name name d))) inode, true)
      else (inode, false)
  | _ => (inode, false)
  end.

(** The entry of a directory whose access right changed is stored too. *)
Definition setAttr_entry (inode : Inode) (dirty : bool) (entry : option DirEntry) : M Txn (Inode * bool) :=
  '(e, (inode', named)) ←
    (if match entry with Some e => bool_decide (e_name e = "." \/ e_name e = "..") | None => true end then
       e ← Inode_snapshotLoadDirEntry inode; mret (e, fill_name inode (e_name e))
     else match entry with Some e => mret (e, (inode, false)) | None => fatal end);
  DirEntry_addIntoReadConflict (e_parent e) (e_name e) ;;
  DirEntry_store (mkDirEntry (e_parent e) (e_name e) (set_de_dirAcl (Some (in_acl (i_data inode))) (e_data e))) ;;
  mret (inode', dirty || named).

Definition setAttr (req : SetAttrReq) : M Txn Inode :=
  let user := rq_user (sa_base req) in
  let flags := Z.lor (sa_flags req) AT_SYMLINK_FOLLOW in
  '(inode0, entry) ←
    (if bool_decide (is_Some (pa_path (sa_path req))) then
       entry ← resolve_dirEntry cfg user (sa_path req) flags;
       inode ← DirEntry_snapshotLoadInode entry;
       mret (inode, Some entry)
     else inode ← resolve_inode cfg user (sa_path req) flags true; mret (inode, None));
  lift (SetAttr_check inode0 req) ;;
  '(inode1, dirty1) ← SetAttr_apply inode0 req;
  '(inode2, dirty2) ←
    (if isDirectory (i_data inode1) && negb (bool_decide (in_acl (i_data inode1) = in_acl (i_data inode0)))
        && negb (i_id inode1 =? InodeId_root)
     then setAttr_entry inode1 dirty1 entry
     else mret (inode1, dirty1));
  when dirty2 (Inode_addIntoReadConflict (i_id inode2) ;; Inode_store inode2) ;;
  mret inode2.

(** [SetAttrOp::finish], after the commit. *)
Definition setAttr_finish (req : SetAttrReq) (inode : Inode) : M Txn unit :=
  when (bool_decide (is_Some (sa_uid req)) || bool_decide (is_Some (sa_gid req))
        || bool_decide (is_Some (sa_perm req)) || bool_decide (is_Some (sa_iflags req)))
    (AclCache_invalid (i_id inode)).

(** ** [InitFsOp] *)

Definition initFs (rootLayout : Layout) : M Txn unit :=
  checkLayoutValid rootLayout ;;
  root ← Inode_load InodeId_root;
  gcRoot ← Inode_load InodeId_gcRoot;
  when (bool_decide (root = None))
    (now ← ask fe_utc;
     Inode_store (newDirectoryInode InodeId_root InodeId_root "/" Acl_root rootLayout (castGranularity 1000 now))) ;;
  when (bool_decide (gcRoot = None))
    (now ← ask fe_utc;
     Inode_store (newDirectoryInode InodeId_gcRoot InodeId_gcRoot "/" Acl_gcRoot (mkLayout 0 0 0 0 LC_Empty) (castGranularity 1000 now))).
End ops.
