(* ===== verification/FsOpen.v ===== *)
(** * Opening, creating and closing files ([src/meta/store/ops/{Open,BatchOperation,
      Stat,List,GetRealPath,PruneSession}.cc])

    Requests that change one inode, or create files in one directory, are
    collected and run as one transaction, a [BatchedOp]. *)

From Stdlib Require Import ZArith Lia.
From stdpp Require Import base gmap list strings sorting.
From S2P Require Import Prelude StatusCode MgmtdTypes FsTypes FsTxn FsLayout FsResolve FsGc FsOps.

Definition O_CREAT : Z := 64.

(** ** Requests *)

(** [OpenReq]; [CreateReq] has the fields of a new file in addition. *)
Record OpenReq := mkOpenReq {
  op_base : ReqBase; op_path : PathAt; op_session : option SessionInfo; op_flags : Z; op_removeChunksBatchSize : Z; op_dynStripe : bool }.

Record CreateReq := mkCreateReq { cr_open : OpenReq; cr_perm : Z; cr_layout : option Layout }.

(** [CHECK_SESSION] *)
Definition session_ok (s : option SessionInfo) : bool := match s with Some x => SessionInfo_valid x | None => false end.

Definition OpenReq_valid (r : OpenReq) : outcome unit :=
  let rdonly := accessType (op_flags r) =? AccessType_READ in
  match OpenFlags_valid (op_flags r) with
  | Ok _ =>
      if (negb rdonly && negb (session_ok (op_session r)))
         || (rdonly && (contains (op_flags r) O_TRUNC || contains (op_flags r) O_APPEND))
         || (contains (op_flags r) O_TRUNC && (op_removeChunksBatchSize r =? 0))
      then Err kInvalidArg else Ok tt
  | e => e
  end.

Definition CreateReq_valid (r : CreateReq) : outcome unit :=
  let o := cr_open r in
  match validForCreate (op_path o) with
  | Ok _ =>
      match OpenFlags_valid (op_flags o) with
      | Ok _ =>
          if negb (accessType (op_flags o) =? AccessType_READ) && negb (session_ok (op_session o)) then Err kInvalidArg
          else
            match (match cr_layout r with Some l => Layout_valid l true | None => Ok tt end) with
            | Ok _ => if contains (op_flags o) O_TRUNC && (op_removeChunksBatchSize o =? 0) then Err kInvalidArg else Ok tt
            | e => e
            end
      | e => e
      end
  | e => e
  end.

Record SyncReq := mkSyncReq {
  sy_inode : InodeId; sy_updateLength : bool; sy_atime : option UtcTime; sy_mtime : option UtcTime;
  sy_truncated : bool; sy_lengthHint : option VersionedLength }.

Record CloseReq := mkCloseReq {
  cl_inode : InodeId; cl_session : option SessionInfo; cl_updateLength : bool;
  cl_atime : option UtcTime; cl_mtime : option UtcTime; cl_lengthHint : option VersionedLength }.

Section open.
Context {HEnv : FsEnv} (cfg : FsConfig).

Definition store_session (inode : InodeId) (session : option SessionInfo) : M Txn unit :=
  match session with
  | Some s => x ← FileSession_create inode (se_client s) (se_session s); FileSession_store x
  | None => mret tt
  end.

(** Bits that a write by another user clears. *)
Definition sbits : Z := Z.lor S_ISUID (Z.lor S_ISGID S_ISVTX).

Definition clear_sbits (rdonly : bool) (user : UserInfo) (x : InodeData) : InodeData * bool :=
  let acl := in_acl x in
  if negb rdonly && negb (us_uid user =? acl_uid acl) && has_bits (acl_perm acl) sbits
  then (set_in_acl (mkAcl (acl_uid acl) (acl_gid acl) (Z.ldiff (acl_perm acl) sbits) (acl_iflags acl)) x, true)
  else (x, false).

(** A writer that does not know dynamic stripes fixes the stripe. *)
Definition fix_stripe (writer : bool) (reqDynStripe : bool) (x : InodeData) (f : File) : InodeData * bool :=
  if writer && negb reqDynStripe && negb (fl_dynStripe f =? 0) && (fl_dynStripe f <? ly_stripeSize (fl_layout f))
  then (set_in_type (IV_File (set_fl_dynStripe 0 f)) x, true)
  else (x, false).

(** ** [OpenOp] *)

Definition open_isReadOnly (r : OpenReq) : bool :=
  bool_decide (op_session r = None) && (accessType (op_flags r) =? AccessType_READ)
  && negb (contains (op_flags r) O_TRUNC) && negb (contains (op_flags r) O_CREAT).

Definition begin_write (r : OpenReq) : M Txn unit := err_if (open_isReadOnly r) MetaCode_kFoundBug.

Definition initial_stripe (dynStripe : bool) (inode : Inode) (l : Layout) : Inode :=
  if fc_dynamic_stripe cfg && dynStripe
  then set_i_data (set_in_type (IV_File (set_fl_dynStripe (Z.min (fc_dynamic_stripe_initial cfg) (ly_stripeSize l)) (newFileData l)))) inode
  else inode.

(** [replaceExistsFile]: the new inode, if the file was replaced. *)
Definition replaceExistsFile (req : OpenReq) (entry : DirEntry) (inode : Inode) (f : File) : M Txn (option Inode) :=
  if negb (fc_otrunc_replace_file cfg) || negb (in_nlink (i_data inode) =? 1)
     || (fl_length f <? fc_otrunc_replace_file_threshold cfg)
  then mret None
  else
    session ← FileSession_checkExists (i_id inode);
    if bool_decide (is_Some session) then mret None
    else
      GcManager_removeEntry cfg entry inode (mkGcInfo (us_uid (rq_user (op_base req))) [e_name entry]) ;;
      inodeId ← allocateInodeId cfg false;
      now ← op_now cfg;
      let inode' := initial_stripe (op_dynStripe req) (newFileInode inodeId (in_acl (i_data inode)) (fl_layout f) now) (fl_layout f) in
      Inode_addIntoReadConflict (e_parent entry) ;;
      DirEntry_addIntoReadConflict (e_parent entry) (e_name entry) ;;
      DirEntry_store (newFileEntry (e_parent entry) (e_name entry) inodeId) ;;
      Inode_store inode' ;;
      store_session inodeId (op_session req) ;;
      mret (Some inode').

Definition openExistsFile (req : OpenReq) (entry : option DirEntry) (inode : Inode) (f : File) : M Txn (Inode * bool) :=
  let user := rq_user (op_base req) in
  let access := accessType (op_flags req) in
  let rdonly := access =? AccessType_READ in
  let otrunc := contains (op_flags req) O_TRUNC in
  err_if (contains (op_flags req) O_DIRECTORY) MetaCode_kNotDirectory ;;
  err_if (negb rdonly && isImmutable (in_acl (i_data inode))) MetaCode_kNoPermission ;;
  lift (checkPermission (in_acl (i_data inode)) user access) ;;
  err_if (rdonly && hasHole f && fc_check_file_hole cfg) MetaCode_kFileHasHole ;;
  replaced ← match entry with
             | Some e => if otrunc then begin_write req ;; replaceExistsFile req e inode f else mret None
             | None => mret None
             end;
  match replaced with
  | Some inode' => mret (inode', false)
  | None =>
      let '(x1, d1) := clear_sbits rdonly user (i_data inode) in
      let writer := bool_decide (is_Some (op_session req)) && negb rdonly in
      when writer (begin_write req ;; store_session (i_id inode) (op_session req)) ;;
      let '(x2, d2) := fix_stripe writer (op_dynStripe req) x1 f in
      let inode' := mkInode (i_id inode) x2 in
      when (d1 || d2) (begin_write req ;; Inode_addIntoReadConflict (i_id inode') ;; Inode_store inode') ;;
      mret (inode', otrunc)
  end.

(** [isCreate]: the operation is [tryOpen]; [prevCreated]: the inode an earlier
    attempt of the operation made. *)
Definition openExists (isCreate : bool) (prevCreated : option InodeId) (req : OpenReq) (entry : option DirEntry) (inode : Inode)
    : M Txn (Inode * bool) :=
  if bool_decide (prevCreated = Some (i_id inode)) then mret (inode, false)
  else
    err_if (contains (op_flags req) O_EXCL) MetaCode_kExists ;;
    match in_type (i_data inode) with
    | IV_Directory _ =>
        err_if (negb (accessType (op_flags req) =? AccessType_READ) || contains (op_flags req) O_TRUNC || isCreate) MetaCode_kIsDirectory ;;
        lift (checkPermission (in_acl (i_data inode)) (rq_user (op_base req)) (accessType (op_flags req))) ;;
        mret (inode, false)
    | IV_File f => openExistsFile req entry inode f
    | IV_Symlink _ => fatal
    end.

Definition open (prevCreated : option InodeId) (req : OpenReq) : M Txn (Inode * bool) :=
  let user := rq_user (op_base req) in
  lift (OpenReq_valid req) ;;
  match pa_path (op_path req) with
  | None =>
      inode ← resolve_inode cfg user (op_path req) AT_SYMLINK_FOLLOW true;
      openExists false prevCreated req None inode
  | Some _ =>
      r ← resolve_path cfg user (op_path req) AT_SYMLINK_FOLLOW;
      match rr_dirEntry r with
      | None => fail MetaCode_kNotFound
      | Some e =>
          inode ← DirEntry_snapshotLoadInode e;
          openExists false prevCreated req (Some e) inode
      end
  end.

(** [tryOpen].  A file that does not exist is an error, and the request then
    names the directory to create it in: this is the second case of the
    result. *)
Definition tryOpen (prevCreated : option InodeId) (req : CreateReq) : M Txn ((Inode * bool) + PathAt) :=
  let o := cr_open req in
  let user := rq_user (op_base o) in
  lift (CreateReq_valid req) ;;
  r ← resolve_path cfg user (op_path o) AT_SYMLINK_FOLLOW;
  match rr_dirEntry r with
  | None => mret (inr (mkPathAt (parent_id (rr_parent r)) (Some [req_filename (op_path o)])))
  | Some e =>
      inode ← DirEntry_snapshotLoadInode e;
      res ← openExists true prevCreated o (Some e) inode;
      mret (inl res)
  end.

(** ** [BatchedOp] *)

(** *** Creating files *)

(** [create(txn, parent, counter, req)], up to the layout of the new file.  The
    counter of the directory, once it moved, stays so for the requests that
    follow. *)
Definition batch_create_layout (parent : Inode) (d : Directory) (counter : Z) (req : CreateReq) : M Txn (outcome Layout * Z) :=
  let o := cr_open req in
  let user := rq_user (op_base o) in
  let parentAcl := in_acl (i_data parent) in
  lift (CreateReq_valid req) ;;
  err_if (in_nlink (i_data parent) =? 0) MetaCode_kNotFound ;;
  lift (validForCreate (op_path o)) ;;
  lift (checkPermission parentAcl user AccessType_WRITE) ;;
  lift (checkLock d (rq_client (op_base o))) ;;
  let layout := default (di_layout d) (cr_layout req) in
  if negb (Layout_empty layout) then checkLayoutValid layout ;; mret (Ok layout, counter)
  else if has_bits (acl_iflags parentAcl) FS_CHAIN_ALLOCATION_FL then
    '(l, c) ← allocateChainsForLayout layout (Some counter); mret (l, default counter c)
  else '(l, _) ← allocateChainsForLayout layout None; mret (l, counter).

(** The rest of it: the inode, the entry and the session. *)
Definition batch_create_file (parent : Inode) (req : CreateReq) (layout : Layout) : M Txn (Inode * DirEntry) :=
  let o := cr_open req in
  let user := rq_user (op_base o) in
  let parentAcl := in_acl (i_data parent) in
  let name := req_filename (op_path o) in
  let newChunkEngine := fc_enable_new_chunk_engine cfg || has_bits (acl_iflags parentAcl) FS_NEW_CHUNK_ENGINE in
  inodeId ← allocateInodeId cfg newChunkEngine;
  fatal_if (negb (Bool.eqb (has_bits inodeId kNewChunkEngineMask) newChunkEngine)) ;;
  let entry := mkDirEntry (i_id parent) name (set_de_uuid (rq_uuid (op_base o)) (e_data (newFileEntry (i_id parent) name inodeId))) in
  now ← op_now cfg;
  let gid := if has_bits (acl_perm parentAcl) S_ISGID then acl_gid parentAcl else us_gid user in
  let inode := initial_stripe (op_dynStripe o)
                 (newFileInode inodeId (mkAcl (us_uid user) gid (Z.land (cr_perm req) ALLPERMS) 0) layout now) layout in
  Inode_addIntoReadConflict (i_id parent) ;;
  DirEntry_addIntoReadConflict (i_id parent) name ;;
  DirEntry_store entry ;;
  Inode_store inode ;;
  when (negb (accessType (op_flags o) =? AccessType_READ)) (store_session inodeId (op_session o)) ;;
  mret (inode, entry).

(** The file or an error, and the counter. *)
Definition batch_create_one (parent : Inode) (d : Directory) (counter : Z) (req : CreateReq) : M Txn ((Inode * DirEntry + Z) * Z) :=
  r ← attempt (batch_create_layout parent d counter req);
  let '(layout, counter') := match r with inl x => x | inr c => (Err c, counter) end in
  made ← attempt (l ← lift layout; batch_create_file parent req l);
  mret (made, counter').

(** The answer to a request of a batch: an inode and whether it must be
    truncated, or an error. *)
Definition CreateResult : Type := (Inode * bool) + Z.

(** [openExists(txn, inode, req)]: the inode as changed. *)
Definition batch_openExists_one (inode : Inode) (req : CreateReq) : M Txn (Inode * bool) :=
  let o := cr_open req in
  let user := rq_user (op_base o) in
  let access := accessType (op_flags o) in
  let rdonly := access =? AccessType_READ in
  lift (CreateReq_valid req) ;;
  match in_type (i_data inode) with
  | IV_Symlink _ => fail MetaCode_kBusy
  | IV_Directory _ => fail MetaCode_kIsDirectory
  | IV_File f =>
      err_if (contains (op_flags o) O_EXCL) MetaCode_kExists ;;
      err_if (negb rdonly && isImmutable (in_acl (i_data inode))) MetaCode_kNoPermission ;;
      lift (checkPermission (in_acl (i_data inode)) user access) ;;
      err_if (rdonly && hasHole f && fc_check_file_hole cfg) MetaCode_kFileHasHole ;;
      let '(x1, d1) := clear_sbits rdonly user (i_data inode) in
      let writer := bool_decide (is_Some (op_session o)) && negb rdonly in
      when writer (lift (checkPermission (in_acl x1) user access)) ;;
      let '(x2, d2) := fix_stripe writer (op_dynStripe o) x1 f in
      when writer (store_session (i_id inode) (op_session o)) ;;
      mret (mkInode (i_id inode) x2, d1 || d2)
  end.

(** The loop of [openExists] over the requests for one name.  The inode is the
    same object for all of them: a request that fails after it changed bits
    leaves the change, but nothing fails after that point. *)
Fixpoint batch_openExists_loop (inode : Inode) (entry : DirEntry) (reqs : list CreateReq) (dirty : bool)
    : M Txn (Inode * bool * list CreateResult) :=
  match reqs with
  | [] => mret (inode, dirty, [])
  | req :: rest =>
      if already_done entry (op_base (cr_open req)) then
        '(i, d, res) ← batch_openExists_loop inode entry rest dirty;
        mret (i, d, inl (inode, false) :: res)
      else
        r ← attempt (batch_openExists_one inode req);
        match r with
        | inl (inode', d1) =>
            '(i, d, res) ← batch_openExists_loop inode' entry rest (dirty || d1);
            mret (i, d, inl (inode', contains (op_flags (cr_open req)) O_TRUNC) :: res)
        | inr c =>
            '(i, d, res) ← batch_openExists_loop inode entry rest dirty;
            mret (i, d, inr c :: res)
        end
  end.

Definition batch_openExists (inode : Inode) (entry : DirEntry) (reqs : list CreateReq) : M Txn (list CreateResult) :=
  '(i, dirty, res) ← batch_openExists_loop inode entry reqs false;
  when dirty (Inode_addIntoReadConflict (i_id i) ;; Inode_store i) ;;
  mret res.

(** The requests for a name that does not exist: the first that succeeds
    creates it and the others open it. *)
Fixpoint batch_create_loop (parent : Inode) (d : Directory) (counter : Z) (reqs : list CreateReq) : M Txn (list CreateResult * Z) :=
  match reqs with
  | [] => mret ([], counter)
  | req :: rest =>
      '(made, counter1) ← batch_create_one parent d counter req;
      match made with
      | inl (inode, entry) =>
          res ← batch_openExists inode entry rest;
          mret (inl (inode, false) :: res, counter1)
      | inr c =>
          '(res, counter2) ← batch_create_loop parent d counter1 rest;
          mret (inr c :: res, counter2)
      end
  end.

(** The path of a creation is one name. *)
Definition single_name (p : PathAt) : bool := match pa_path p with Some ([] | [_]) => true | _ => false end.

Definition batch_create_name (parent : Inode) (d : Directory) (counter : Z) (reqs : list CreateReq) : M Txn (list CreateResult * Z) :=
  match reqs with
  | [] => mret ([], counter)
  | req :: _ =>
      let path := op_path (cr_open req) in
      fatal_if (negb (pa_parent path =? i_id parent) || negb (single_name path)) ;;
      entry ← DirEntry_snapshotLoad (i_id parent) (req_filename path);
      match entry with
      | Some e =>
          inode ← DirEntry_snapshotLoadInode e;
          res ← batch_openExists inode e reqs;
          mret (res, counter)
      | None => batch_create_loop parent d counter reqs
      end
  end.

(** The multimap of the requests: by name, and in the order of arrival for one
    name. *)
Fixpoint insert_create (name : string) (req : CreateReq) (groups : list (string * list CreateReq)) : list (string * list CreateReq) :=
  match groups with
  | [] => [(name, [req])]
  | (n, g) :: rest =>
      if bool_decide (n = name) then (n, g ++ [req]) :: rest
      else if String.leb name n then (name, [req]) :: groups
      else (n, g) :: insert_create name req rest
  end.

Definition group_creates (reqs : list CreateReq) : list (string * list CreateReq) :=
  fold_left (fun groups req => insert_create (req_filename (op_path (cr_open req))) req groups) reqs [].

(** The groups run concurrently in the code; they touch different names and
    take turns at the counter, and run one after the other here.  Every request
    is returned with its answer. *)
Fixpoint batch_create_groups (parent : Inode) (d : Directory) (counter : Z) (groups : list (list CreateReq))
    : M Txn (list (CreateReq * CreateResult) * Z) :=
  match groups with
  | [] => mret ([], counter)
  | g :: rest =>
      '(res, counter1) ← batch_create_name parent d counter g;
      '(more, counter2) ← batch_create_groups parent d counter1 rest;
      mret (combine g res ++ more, counter2)
  end.

Definition batch_create (inode : Inode) (reqs : list CreateReq) : M Txn (Inode * bool * list (CreateReq * CreateResult)) :=
  match reqs with
  | [] => mret (inode, false, [])
  | _ =>
      match in_type (i_data inode) with
      | IV_Directory d =>
          err_if (bool_decide (length reqs <> 1%nat) && existsb (fun r => negb (single_name (op_path (cr_open r)))) reqs) MetaCode_kFoundBug ;;
          '(res, counter) ← batch_create_groups inode d (di_chainAllocCounter d) (snd <$> group_creates reqs);
          mret (set_i_data (set_in_type (IV_Directory (set_di_counter counter d))) inode,
                negb (counter =? di_chainAllocCounter d), res)
      | _ => mret (inode, false, (fun r => (r, inr MetaCode_kNotDirectory)) <$> reqs)
      end
  end.

(** *** Lengths and times *)

(** What the requests of a batch ask about the length. *)
Record LengthAsk := mkLengthAsk { la_update : bool; la_truncate : bool; la_hint : option VersionedLength }.

(** [sync]: the inode and the length asked for, or an error for this request. *)
Definition batch_sync_one (inode : Inode) (req : SyncReq) (la : LengthAsk) : M Txn (Inode * bool * LengthAsk) :=
  let gran := fc_time_granularity cfg in
  err_if (sy_truncated req && negb (sy_updateLength req)) kInvalidArg ;;
  err_if (negb (sy_inode req =? i_id inode)) MetaCode_kFoundBug ;;
  err_if ((sy_updateLength req || sy_truncated req || bool_decide (is_Some (sy_lengthHint req))) && negb (isFile (i_data inode))) MetaCode_kNotFile ;;
  match sy_lengthHint req with
  | Some h => f ← lift (asFile (i_data inode)); err_if (fl_truncateVer f <? vl_truncateVer h) MetaCode_kFoundBug
  | None => mret tt
  end ;;
  '(atime, d1) ← update_time (in_atime (i_data inode)) (sy_atime req) gran true;
  '(mtime, d2) ← update_time (in_mtime (i_data inode)) (sy_mtime req) gran true;
  '(ctime, d3) ←
    (if sy_truncated req then
       t ← match sy_mtime req with Some t => mret t | None => ask fe_utc end;
       update_time (in_ctime (i_data inode)) (Some t) gran true
     else mret (in_ctime (i_data inode), false));
  mret (set_i_data (fun x => set_in_ctime ctime (set_in_mtime mtime (set_in_atime atime x))) inode,
        d1 || d2 || d3,
        mkLengthAsk (la_update la || sy_updateLength req) (la_truncate la || sy_truncated req)
          (if sy_updateLength req then mergeHint (la_hint la) (sy_lengthHint req) else la_hint la)).

Definition batch_close_one (inode : Inode) (req : CloseReq) (la : LengthAsk) : M Txn (Inode * bool * LengthAsk) :=
  let gran := fc_time_granularity cfg in
  err_if ((cl_updateLength req || bool_decide (is_Some (cl_mtime req))) && negb (session_ok (cl_session req))) kInvalidArg ;;
  err_if (negb (cl_inode req =? i_id inode)) MetaCode_kFoundBug ;;
  err_if ((bool_decide (is_Some (cl_session req)) || cl_updateLength req) && negb (isFile (i_data inode))) MetaCode_kNotFile ;;
  '(atime, d1) ← update_time (in_atime (i_data inode)) (cl_atime req) gran true;
  '(mtime, d2) ← update_time (in_mtime (i_data inode)) (cl_mtime req) gran true;
  mret (set_i_data (fun x => set_in_mtime mtime (set_in_atime atime x)) inode,
        d1 || d2,
        mkLengthAsk (la_update la || cl_updateLength req) (la_truncate la)
          (if cl_updateLength req then mergeHint (la_hint la) (cl_lengthHint req) else la_hint la)).

(** A pass over the requests of one kind; an error is the answer to its
    request. *)
Fixpoint batch_pass {R} (one : Inode -> R -> LengthAsk -> M Txn (Inode * bool * LengthAsk)) (inode : Inode) (dirty : bool)
    (la : LengthAsk) (reqs : list R) : M Txn (Inode * bool * LengthAsk * list (option Z)) :=
  match reqs with
  | [] => mret (inode, dirty, la, [])
  | req :: rest =>
      r ← attempt (one inode req la);
      match r with
      | inl (inode', d, la') =>
          '(i, d', l, res) ← batch_pass one inode' (dirty || d) la' rest;
          mret (i, d', l, None :: res)
      | inr c =>
          '(i, d', l, res) ← batch_pass one inode dirty la rest;
          mret (i, d', l, Some c :: res)
      end
  end.

(** [queryLength]: [next] is the length an earlier attempt decided on, and
    [stored] the answer of the storage services.  The third condition compares
    a length with a version, as the code does. *)
Definition queryLength (f : File) (hint : option VersionedLength) (truncate : bool) (next : option VersionedLength) (stored : outcome Z)
    : outcome VersionedLength :=
  let curr := mkVersionedLength (fl_length f) (fl_truncateVer f) in
  let ask_storage :=
    match stored with
    | Ok length =>
        Ok (mkVersionedLength length
              (if truncate || (length <? fl_length f) then u64 (fl_truncateVer f + 1) else fl_truncateVer f))
    | Err c => Err c
    | Fatal => Fatal
    | Pending => Pending
    end in
  if truncate && bool_decide (is_Some hint) then Fatal
  else
    match next with
    | Some v => Ok v
    | None =>
        match hint with
        | Some h =>
            if fc_ignore_length_hint cfg then ask_storage
            else if (vl_truncateVer h <=? vl_truncateVer curr) && (vl_length h <=? vl_length curr) then Ok curr
            else if (vl_truncateVer h =? vl_truncateVer curr) && (vl_truncateVer curr <? vl_length h) then Ok h
            else ask_storage
        | None => ask_storage
        end
    end.

(** The state of a [BatchedOp] that attempts share. *)
Record BatchState := mkBatchState { bs_versionstamp : option Z; bs_curr : option VersionedLength; bs_next : option VersionedLength }.

(** [syncAndClose]: the inode, whether it changed, the length decided, and the
    errors of the requests. *)
Definition syncAndClose (syncs : list SyncReq) (closes : list CloseReq) (next : option VersionedLength) (stored : outcome Z) (inode0 : Inode)
    : M Txn (Inode * bool * option VersionedLength * list (option Z) * list (option Z)) :=
  '(inode1, dirty1, la1, res1) ← batch_pass batch_sync_one inode0 false (mkLengthAsk false false (Some (mkVersionedLength 0 0))) syncs;
  '(inode2, dirty2, la2, res2) ← batch_pass batch_close_one inode1 dirty1 la1 closes;
  let hint := if la_truncate la2 then None else la_hint la2 in
  let update := la_truncate la2 || la_update la2 in
  for_each (fun cr : CloseReq * option Z =>
              match snd cr, cl_session (fst cr) with
              | None, Some s => x ← FileSession_create (i_id inode0) (se_client s) (se_session s); FileSession_remove x
              | _, _ => mret tt
              end) (combine closes res2) ;;
  if negb update then mret (inode2, dirty2, next, res1, res2)
  else
    match in_type (i_data inode2) with
    | IV_File f =>
        newLength ← lift (queryLength f hint (la_truncate la2) next stored);
        let curr := mkVersionedLength (fl_length f) (fl_truncateVer f) in
        if bool_decide (newLength = curr) then mret (inode2, dirty2, Some newLength, res1, res2)
        else
          fatal_if ((vl_truncateVer newLength <? fl_truncateVer f)
                    || ((vl_truncateVer newLength =? fl_truncateVer f) && (vl_length newLength <? fl_length f))) ;;
          now ← ask fe_utc;
          '(mtime, _) ← update_time (in_mtime (i_data inode2)) (Some now) (fc_time_granularity cfg) true;
          ctime ← (if negb (vl_truncateVer newLength =? fl_truncateVer f) then
                     now' ← ask fe_utc;
                     '(c, _) ← update_time (in_ctime (i_data inode2)) (Some now') (fc_time_granularity cfg) true; mret c
                   else mret (in_ctime (i_data inode2)));
          mret (set_i_data (fun x => set_in_type (IV_File (set_fl_length newLength f)) (set_in_ctime ctime (set_in_mtime mtime x))) inode2,
                true, Some newLength, res1, res2)
    | _ => fail MetaCode_kFoundBug
    end.

(** *** Attributes *)

Fixpoint batch_setattr_loop (inode : Inode) (dirty : bool) (reqs : list SetAttrReq) : M Txn (Inode * bool * list (option Z)) :=
  match reqs with
  | [] => mret (inode, dirty, [])
  | req :: rest =>
      err_if (negb (bool_decide (sa_path req = mkPathAt (i_id inode) None))) MetaCode_kFoundBug ;;
      match SetAttr_check cfg inode req with
      | Ok _ =>
          '(inode', d) ← SetAttr_apply cfg inode req;
          '(i, d', res) ← batch_setattr_loop inode' (dirty || d) rest;
          mret (i, d', None :: res)
      | Err c =>
          '(i, d', res) ← batch_setattr_loop inode dirty rest;
          mret (i, d', Some c :: res)
      | o => lift Fatal
      end
  end.

Definition batch_setAttr (inode0 : Inode) (reqs : list SetAttrReq) : M Txn (Inode * bool * list (option Z)) :=
  '(inode, dirty, res) ← batch_setattr_loop inode0 false reqs;
  if isDirectory (i_data inode) && negb (bool_decide (in_acl (i_data inode) = in_acl (i_data inode0)))
     && negb (i_id inode =? InodeId_root)
  then
    e ← Inode_snapshotLoadDirEntry inode;
    let '(inode', _) := fill_name inode (e_name e) in
    DirEntry_addIntoReadConflict (e_parent e) (e_name e) ;;
    DirEntry_store (mkDirEntry (e_parent e) (e_name e) (set_de_dirAcl (Some (in_acl (i_data inode))) (e_data e))) ;;
    mret (inode', dirty, res)
  else mret (inode, dirty, res).

(** *** The batch *)

Record Batch := mkBatch {
  bt_inodeId : InodeId; bt_syncs : list SyncReq; bt_closes : list CloseReq; bt_setattrs : list SetAttrReq; bt_creates : list CreateReq }.

Record BatchResult := mkBatchResult {
  br_inode : Inode; br_syncs : list (option Z); br_closes : list (option Z); br_setattrs : list (option Z); br_creates : list (CreateReq * CreateResult) }.

(** [BatchedOp::run].  [onServer] is the answer of the distributor, whether
    the inode belongs to this server and since when; [stored] the answer of
    the storage services about the length. *)
Definition batch_run (onServer : bool * Z) (stored : outcome Z) (st : BatchState) (b : Batch) : M Txn (BatchResult * BatchState) :=
  err_if (negb (fst onServer)) MetaCode_kBusy ;;
  loaded ← Inode_snapshotLoad (bt_inodeId b);
  inode0 ← lift (checkMetaFound loaded);
  st1 ←
    match in_type (i_data inode0) with
    | IV_File f =>
        let len := mkVersionedLength (fl_length f) (fl_truncateVer f) in
        let st' := if bool_decide (bs_versionstamp st = Some (snd onServer)) then st
                   else mkBatchState (Some (snd onServer)) (Some len) None in
        err_if (negb (bool_decide (bs_curr st' = Some len)) && negb (bool_decide (bs_next st' = Some len))) MetaCode_kBusy ;;
        mret st'
    | _ => mret st
    end;
  '(inode1, d1, next, res1, res2) ← syncAndClose (bt_syncs b) (bt_closes b) (bs_next st1) stored inode0;
  '(inode2, d2, res3) ← batch_setAttr inode1 (bt_setattrs b);
  '(inode3, d3, res4) ← batch_create inode2 (bt_creates b);
  when (d1 || d2 || d3) (Inode_addIntoReadConflict (i_id inode3) ;; Inode_store inode3) ;;
  mret (mkBatchResult inode3 res1 res2 res3 res4, mkBatchState (bs_versionstamp st1) (bs_curr st1) next).

(** ** Reading operations *)

Definition stat (user : UserInfo) (path : PathAt) (flags : Z) : M Txn Inode :=
  resolve_inode cfg user path flags (negb (fc_allow_stat_deleted_inodes cfg)).

Fixpoint load_inodes (es : list DirEntry) : M Txn (list Inode) :=
  match es with
  | [] => mret []
  | e :: rest => i ← DirEntry_snapshotLoadInode e; inodes ← load_inodes rest; mret (i :: inodes)
  end.

Definition list_op (user : UserInfo) (path : PathAt) (prev : string) (limit : Z) (status : bool) : M Txn (list DirEntry * list Inode * bool) :=
  inode ← resolve_inode cfg user path AT_SYMLINK_FOLLOW true;
  err_if (negb (isDirectory (i_data inode))) MetaCode_kNotDirectory ;;
  lift (checkPermission (in_acl (i_data inode)) user AccessType_READ) ;;
  '(es, more) ← DirEntryList_snapshotLoad (i_id inode) prev (if 0 <? limit then limit else fc_list_default_limit cfg);
  inodes ← (if status then load_inodes es else mret []);
  mret (es, inodes, more).

(** [simplifyPath] *)
Definition simplify_step (acc : list string * bool) (name : string) : list string * bool :=
  let '(comps, absolute) := acc in
  if bool_decide (name = ".") then acc
  else if bool_decide (name = "..") then
    match last comps with
    | Some c => if bool_decide (c = "..") then (if absolute then acc else (comps ++ [name], absolute)) else (removelast comps, absolute)
    | None => if absolute then acc else (comps ++ [name], absolute)
    end
  else if bool_decide (name = "/") then ([], true)
  else (comps ++ [name], absolute).

Definition simplifyPath (path : Path) : Path :=
  let '(comps, absolute) := fold_left simplify_step path ([], false) in
  let p := (if absolute then ["/"] else []) ++ comps in
  match p with [] => ["."] | _ => p end.

(** The loop of [GetRealPathOp] up to a root; it may run as long as the tree
    is deep. *)
Fixpoint real_path (fuel : nat) (entry : DirEntry) (path : Path) : M Txn Path :=
  match fuel with
  | O => lift Pending
  | S fuel' =>
      if isTreeRoot (e_parent entry) then mret path
      else
        loaded ← Inode_snapshotLoad (e_parent entry);
        parent ← lift (checkMetaFound loaded);
        e ← Inode_snapshotLoadDirEntry parent;
        real_path fuel' e (e_name e :: path)
  end.

Definition getRealPath (user : UserInfo) (path : PathAt) (absolute : bool) : M Txn Path :=
  t ← getS;
  let fuel := S (size (fs_inodes (view t))) in
  if bool_decide (is_Some (pa_path path)) then
    '(entry, trace) ← resolve_dirEntry_traced cfg (Some []) user path AT_SYMLINK_FOLLOW;
    if negb absolute then mret (simplifyPath (default [] trace))
    else p ← real_path fuel entry [e_name entry]; mret (simplifyPath ("/" :: p))
  else
    loaded ← Inode_snapshotLoad (pa_parent path);
    inode ← lift (checkMetaFound loaded);
    err_if (negb (isDirectory (i_data inode))) MetaCode_kNotDirectory ;;
    if isTreeRoot (i_id inode) then mret ["/"]
    else
      entry ← Inode_snapshotLoadDirEntry inode;
      p ← real_path fuel entry [e_name entry];
      mret (simplifyPath ("/" :: p)).

(** [PruneSessionOp]: sessions to prune are kept under a special inode id. *)
Definition pruneSession (client : ClientId) (sessions : list Uuid) : M Txn unit :=
  for_each (fun id => x ← FileSession_create (2 ^ 64 - 1) client id; FileSession_store x) sessions.
End open.
