(* ===== verification/FsNamespace.v ===== *)
(** * The namespace: its invariant and the moves that keep it

    What a well-formed namespace is, for inodes and entries alone; and the
    elementary changes an operation may make in the store in which it commits:
    creating a name, adding or dropping one, moving one, throwing away or
    collecting an inode, and changing attributes. *)

From Stdlib Require Import ZArith Lia.
From stdpp Require Import base gmap list strings.
From S2P Require Import Prelude StatusCode MgmtdTypes FsTypes FsTxn FsGc.

(** The directory a store has under an id. *)
Definition as_dir (x : InodeData) : option Directory :=
  match in_type x with IV_Directory d => Some d | _ => None end.

(** What the invariant looks at: the parent of a directory, the link count and
    the type of an inode. *)
Definition parent_of (s : FsStore) (id : InodeId) : option InodeId := x ← fs_inodes s !! id; di_parent <$> as_dir x.
Definition nlink_of (s : FsStore) (id : InodeId) : option Z := in_nlink <$> fs_inodes s !! id.
Definition type_of (s : FsStore) (id : InodeId) : option InodeType := getType <$> fs_inodes s !! id.
Definition is_dir (s : FsStore) (id : InodeId) : Prop := is_Some (parent_of s id).

(** Two versions of an inode that stand for the same object in the same place. *)
Definition same_place (x x' : InodeData) : Prop :=
  getType x = getType x' /\ di_parent <$> as_dir x = di_parent <$> as_dir x'.

Definition no_entries (s : FsStore) (id : InodeId) : Prop := forall n, fs_entries s !! (id, n) = None.
Definition unnamed (s : FsStore) (id : InodeId) : Prop := forall k e, fs_entries s !! k = Some e -> de_id e <> id.

(** Names that garbage of an inode may have. *)
Definition gc_name (n : string) (id : InodeId) : Prop := exists prefix ts, n = formatGcEntry prefix ts id.
Definition is_id (id : InodeId) : Prop := 0 <= id < 2 ^ 64.

Section namespace.
(** The garbage directories of all servers. *)
Context (G : gset InodeId).

(** ** Counting names *)

(** Names in garbage directories do not count. *)
Definition counts (id : InodeId) (kv : (InodeId * string) * DirEntryData) : Prop := de_id kv.2 = id /\ kv.1.1 ∉ G.
#[export] Instance counts_dec id kv : Decision (counts id kv).
Proof. unfold counts. apply _. Defined.

Definition links (E : gmap (InodeId * string) DirEntryData) (id : InodeId) : nat := size (filter (counts id) E).

Definition one_if (P : Prop) `{Decision P} : nat := if decide P then 1 else 0.

Lemma one_if_iff P Q `{Decision P, Decision Q} : (P <-> Q) -> one_if P = one_if Q.
Proof. intros HPQ. unfold one_if. destruct (decide P), (decide Q); tauto. Qed.
Lemma one_if_true P `{Decision P} : P -> one_if P = 1%nat.
Proof. intros HP. unfold one_if. by rewrite decide_True. Qed.
Lemma one_if_false P `{Decision P} : ~ P -> one_if P = 0%nat.
Proof. intros HP. unfold one_if. by rewrite decide_False. Qed.

Lemma links_insert E k e id :
  E !! k = None -> links (<[k := e]> E) id = (links E id + one_if (counts id (k, e)))%nat.
Proof.
  intros Hk. unfold links, one_if. destruct (decide (counts id (k, e))) as [Hc|Hc].
  - rewrite map_filter_insert_True, map_size_insert_None; [lia| |done].
    apply map_lookup_filter_None. by left.
  - rewrite map_filter_insert_False by done. rewrite delete_id by done. lia.
Qed.

Lemma links_delete E k e id :
  E !! k = Some e -> links E id = (links (delete k E) id + one_if (counts id (k, e)))%nat.
Proof.
  intros Hk. rewrite <- (insert_delete_id E k e) at 1 by done. apply links_insert, lookup_delete_eq.
Qed.

Lemma links_replace E k e e' id :
  E !! k = Some e -> de_id e = de_id e' -> links (<[k := e']> E) id = links E id.
Proof.
  intros Hk He. rewrite (links_delete E k e), (links_delete (<[k := e']> E) k e') by (by rewrite ?lookup_insert_eq).
  rewrite delete_insert_eq. f_equal. apply one_if_iff. unfold counts. simpl. by rewrite He.
Qed.

Lemma links_pos E k e id : E !! k = Some e -> counts id (k, e) -> (1 <= links E id)%nat.
Proof. intros Hk Hc. rewrite (links_delete E k e id Hk). unfold one_if. rewrite decide_True by done. lia. Qed.

Lemma links_exists E id : (1 <= links E id)%nat -> exists k e, E !! k = Some e /\ counts id (k, e).
Proof.
  unfold links. intros Hs. destruct (map_choose (filter (counts id) E)) as (k & e & Hk).
  { intros Hn. rewrite Hn, map_size_empty in Hs. lia. }
  apply map_lookup_filter_Some in Hk. eauto.
Qed.

Lemma links_unnamed s id : unnamed s id -> links (fs_entries s) id = 0%nat.
Proof.
  intros Hu. destruct (decide (1 <= links (fs_entries s) id)%nat) as [Hl|Hl]; [|lia].
  apply links_exists in Hl as (k & e & Hk & [He _]). by destruct (Hu k e Hk).
Qed.

(** Two different names of an inode count twice. *)
Lemma links_two E k1 k2 e1 e2 id :
  E !! k1 = Some e1 -> E !! k2 = Some e2 -> k1 <> k2 -> counts id (k1, e1) -> counts id (k2, e2) -> (2 <= links E id)%nat.
Proof.
  intros H1 H2 Hn C1 C2. rewrite (links_delete E k1 e1 id H1). unfold one_if at 1. rewrite decide_True by done.
  assert (Hd : delete k1 E !! k2 = Some e2) by (by rewrite lookup_delete_ne).
  pose proof (links_pos _ _ _ id Hd C2). lia.
Qed.

(** ** The invariant *)

(** From a directory one gets to a root, or to a directory that was removed. *)
Inductive anchored (s : FsStore) : InodeId -> Prop :=
| anch_root id : isTreeRoot id = true -> anchored s id
| anch_removed id : nlink_of s id = Some 0 -> anchored s id
| anch_step id p : parent_of s id = Some p -> anchored s p -> anchored s id.

(** A directory that operations of clients work in. *)
Definition public (id : InodeId) : Prop := id ∉ G /\ id <> InodeId_gcRoot.

Record NS (s : FsStore) : Prop := {
  ns_root : parent_of s InodeId_root = Some InodeId_root;
  ns_gcRoot : parent_of s InodeId_gcRoot = Some InodeId_gcRoot;
  (** garbage directories are under the second root, and cannot be removed *)
  ns_gcdirs : forall g, g ∈ G -> isTreeRoot g = false /\ parent_of s g = Some InodeId_gcRoot /\
    exists x, fs_inodes s !! g = Some x /\ isImmutable (in_acl x) = true /\ in_nlink x <> 0;
  (** an entry is in a directory, and no entry leads to a root *)
  ns_parent : forall p n e, fs_entries s !! (p, n) = Some e -> is_dir s p;
  ns_notroot : forall k e, fs_entries s !! k = Some e -> isTreeRoot (de_id e) = false;
  (** a name leads to an inode of its type *)
  ns_target : forall p n e, fs_entries s !! (p, n) = Some e -> p ∉ G -> type_of s (de_id e) = Some (de_type e);
  (** the link count is the number of names *)
  ns_nlink : forall id l, nlink_of s id = Some l -> isTreeRoot id = false -> l = Z.of_nat (links (fs_entries s) id);
  (** a directory has one name, in the directory it calls its parent *)
  ns_single : forall id, is_dir s id -> isTreeRoot id = false -> (links (fs_entries s) id <= 1)%nat;
  ns_dirlink : forall p n e q, fs_entries s !! (p, n) = Some e -> p ∉ G -> parent_of s (de_id e) = Some q -> q = p;
  ns_public : forall id q, parent_of s id = Some q -> isTreeRoot id = false -> id ∉ G -> public q;
  (** what is in a garbage directory has no name any more, and what has no
      name, except symbolic links, is in one *)
  ns_garbage : forall g n e l, fs_entries s !! (g, n) = Some e -> g ∈ G -> nlink_of s (de_id e) = Some l ->
    l = 0 /\ type_of s (de_id e) = Some (de_type e) /\ de_type e <> IT_Symlink;
  ns_collectable : forall id, nlink_of s id = Some 0 -> isTreeRoot id = false -> type_of s id <> Some IT_Symlink ->
    exists g n e, g ∈ G /\ fs_entries s !! (g, n) = Some e /\ de_id e = id;
  (** ids have 64 bits, and names are not empty *)
  ns_range : forall k e, fs_entries s !! k = Some e -> is_id (de_id e) /\ k.2 <> "";
  (** garbage is named after its inode, and only once in the garbage *)
  ns_gcname : forall g n e, fs_entries s !! (g, n) = Some e -> g ∈ G -> gc_name n (de_id e);
  ns_onegc : forall k e k' e', fs_entries s !! k = Some e -> fs_entries s !! k' = Some e' -> k.1 ∈ G -> k'.1 ∈ G ->
    de_id e = de_id e' -> k = k';
  (** no directory is below itself *)
  ns_anchored : forall id, is_dir s id -> anchored s id
}.

(** ** Moves *)

(** The way from [q] to the root avoids [id] and has no removed directory. *)
Inductive live_path (s : FsStore) (id : InodeId) : InodeId -> Prop :=
| lp_root : id <> InodeId_root -> live_path s id InodeId_root
| lp_step q p : parent_of s q = Some p -> nlink_of s q <> Some 0 -> q <> id -> live_path s id p -> live_path s id q.

(** A place for a new name. *)
Definition free_name (s : FsStore) (p : InodeId) (n : string) : Prop :=
  fs_entries s !! (p, n) = None /\ is_dir s p /\ public p /\ n <> "".

(** An existing name of an inode, outside the garbage. *)
Definition name_of (s : FsStore) (p : InodeId) (n : string) (e : DirEntryData) (x : InodeData) : Prop :=
  fs_entries s !! (p, n) = Some e /\ p ∉ G /\ de_id e ∉ G /\ fs_inodes s !! de_id e = Some x.

Definition alike (e e' : DirEntryData) : Prop := de_id e = de_id e' /\ de_type e = de_type e'.

(** A move, with the id of the inode that it creates. *)
Inductive ns_move : list InodeId -> FsStore -> FsStore -> Prop :=
(** a new inode and its name *)
| mv_create s p n e x S' :
    free_name s p n -> fs_inodes s !! de_id e = None -> unnamed s (de_id e) -> isTreeRoot (de_id e) = false -> de_id e ∉ G ->
    is_id (de_id e) ->
    getType x = de_type e -> in_nlink x = 1 -> (forall d, as_dir x = Some d -> di_parent d = p) ->
    ns_move [de_id e] s (mkFsStore (<[de_id e := x]> (fs_inodes s)) (<[(p, n) := e]> (fs_entries s)) S')
(** another name of a file or symbolic link *)
| mv_link s p n e x x' S' :
    free_name s p n -> fs_inodes s !! de_id e = Some x -> in_nlink x <> 0 -> getType x <> IT_Directory -> isTreeRoot (de_id e) = false ->
    getType x = de_type e -> same_place x x' -> in_nlink x' = in_nlink x + 1 ->
    ns_move [] s (mkFsStore (<[de_id e := x']> (fs_inodes s)) (<[(p, n) := e]> (fs_entries s)) S')
(** a name less, where others are left, or of a symbolic link *)
| mv_unlink s p n e x x' S' :
    name_of s p n e x -> getType x <> IT_Directory -> (2 <= in_nlink x \/ getType x = IT_Symlink) ->
    same_place x x' -> in_nlink x' = in_nlink x - 1 ->
    ns_move [] s (mkFsStore (<[de_id e := x']> (fs_inodes s)) (delete (p, n) (fs_entries s)) S')
(** the last name, with the inode *)
| mv_drop s p n e x S' :
    name_of s p n e x -> in_nlink x = 1 -> (getType x = IT_Symlink \/ no_entries s (de_id e)) ->
    ns_move [] s (mkFsStore (delete (de_id e) (fs_inodes s)) (delete (p, n) (fs_entries s)) S')
(** the last name, and the inode becomes garbage *)
| mv_trash s p n e x x' g gn ge S' :
    name_of s p n e x -> in_nlink x = 1 -> getType x <> IT_Symlink -> same_place x x' -> in_nlink x' = 0 ->
    g ∈ G -> fs_entries s !! (g, gn) = None -> gc_name gn (de_id e) -> alike e ge -> getType x = de_type e ->
    ns_move [] s (mkFsStore (<[de_id e := x']> (fs_inodes s)) (<[(g, gn) := ge]> (delete (p, n) (fs_entries s))) S')
(** a name moves, and with it a directory *)
| mv_move s p n q m e e' x x' S' :
    name_of s p n e x -> free_name s q m -> alike e e' -> getType x = getType x' -> in_nlink x' = in_nlink x ->
    (forall d, as_dir x' = Some d -> di_parent d = q /\ live_path s (de_id e) q) ->
    ns_move [] s (mkFsStore (<[de_id e := x']> (fs_inodes s)) (<[(q, m) := e']> (delete (p, n) (fs_entries s))) S')
(** attributes change *)
| mv_attr s id x x' S' :
    fs_inodes s !! id = Some x -> same_place x x' -> in_nlink x' = in_nlink x ->
    (id ∈ G -> isImmutable (in_acl x) = isImmutable (in_acl x')) ->
    ns_move [] s (mkFsStore (<[id := x']> (fs_inodes s)) (fs_entries s) S')
| mv_entry s k e e' S' :
    fs_entries s !! k = Some e -> alike e e' ->
    ns_move [] s (mkFsStore (fs_inodes s) (<[k := e']> (fs_entries s)) S')
(** garbage is collected, or moves within the garbage directory *)
| mv_collect s g n id S' :
    g ∈ G -> isTreeRoot id = false -> id ∉ G -> (forall e, fs_entries s !! (g, n) = Some e -> de_id e = id) ->
    (forall x, fs_inodes s !! id = Some x -> in_nlink x = 0) -> no_entries s id ->
    ns_move [] s (mkFsStore (delete id (fs_inodes s)) (delete (g, n) (fs_entries s)) S')
| mv_requeue s g n n' e e' S' :
    g ∈ G -> fs_entries s !! (g, n) = Some e -> fs_entries s !! (g, n') = None -> gc_name n' (de_id e) ->
    de_id e = de_id e' -> (forall x, fs_inodes s !! de_id e = Some x -> getType x = de_type e') ->
    ns_move [] s (mkFsStore (fs_inodes s) (delete (g, n) (<[(g, n') := e']> (fs_entries s))) S')
(** only sessions change *)
| mv_sessions s S' : ns_move [] s (mkFsStore (fs_inodes s) (fs_entries s) S').

(** Moves one after the other, with the ids of the inodes they create. *)
Inductive ns_moves : list InodeId -> FsStore -> FsStore -> Prop :=
| mvs_refl s : ns_moves [] s s
| mvs_step ids ids' s1 s2 s3 : ns_move ids s1 s2 -> ns_moves ids' s2 s3 -> ns_moves (ids ++ ids') s1 s3.
End namespace.
