(* ===== verification/FsMoves.v ===== *)
(** * Every move keeps the namespace well-formed *)

From Stdlib Require Import ZArith Lia.
From stdpp Require Import base gmap list strings.
From S2P Require Import Prelude StatusCode MgmtdTypes FsTypes FsTxn FsGc FsNamespace.

(** ** Inodes after a change *)

Section lookups.
Context (s : FsStore) (i : InodeId) (x : InodeData).

Lemma parent_of_insert E S' id :
  parent_of (mkFsStore (<[i := x]> (fs_inodes s)) E S') id = if decide (id = i) then di_parent <$> as_dir x else parent_of s id.
Proof.
  unfold parent_of. simpl. destruct (decide (id = i)) as [->|Hn]; [by rewrite lookup_insert_eq|by rewrite lookup_insert_ne].
Qed.
Lemma nlink_of_insert E S' id :
  nlink_of (mkFsStore (<[i := x]> (fs_inodes s)) E S') id = if decide (id = i) then Some (in_nlink x) else nlink_of s id.
Proof.
  unfold nlink_of. simpl. destruct (decide (id = i)) as [->|Hn]; [by rewrite lookup_insert_eq|by rewrite lookup_insert_ne].
Qed.
Lemma type_of_insert E S' id :
  type_of (mkFsStore (<[i := x]> (fs_inodes s)) E S') id = if decide (id = i) then Some (getType x) else type_of s id.
Proof.
  unfold type_of. simpl. destruct (decide (id = i)) as [->|Hn]; [by rewrite lookup_insert_eq|by rewrite lookup_insert_ne].
Qed.
Lemma parent_of_delete E S' id :
  parent_of (mkFsStore (delete i (fs_inodes s)) E S') id = if decide (id = i) then None else parent_of s id.
Proof.
  unfold parent_of. simpl. destruct (decide (id = i)) as [->|Hn]; [by rewrite lookup_delete_eq|by rewrite lookup_delete_ne].
Qed.
Lemma nlink_of_delete E S' id :
  nlink_of (mkFsStore (delete i (fs_inodes s)) E S') id = if decide (id = i) then None else nlink_of s id.
Proof.
  unfold nlink_of. simpl. destruct (decide (id = i)) as [->|Hn]; [by rewrite lookup_delete_eq|by rewrite lookup_delete_ne].
Qed.
Lemma type_of_delete E S' id :
  type_of (mkFsStore (delete i (fs_inodes s)) E S') id = if decide (id = i) then None else type_of s id.
Proof.
  unfold type_of. simpl. destruct (decide (id = i)) as [->|Hn]; [by rewrite lookup_delete_eq|by rewrite lookup_delete_ne].
Qed.
End lookups.

Lemma dir_type s id : is_dir s id <-> type_of s id = Some IT_Directory.
Proof.
  unfold is_dir, parent_of, type_of. destruct (fs_inodes s !! id) as [x|]; simpl; [|split; [by intros []|done]].
  unfold as_dir, getType. destruct (in_type x); simpl; split; try done; eauto; by intros [].
Qed.

Lemma as_dir_type x : is_Some (di_parent <$> as_dir x) <-> getType x = IT_Directory.
Proof. unfold as_dir, getType. destruct (in_type x); simpl; split; try done; eauto; by intros []. Qed.

Lemma lookup_of s id x : fs_inodes s !! id = Some x ->
  parent_of s id = di_parent <$> as_dir x /\ nlink_of s id = Some (in_nlink x) /\ type_of s id = Some (getType x).
Proof. unfold parent_of, nlink_of, type_of. by intros ->. Qed.

(** ** Stores that look the same to the invariant *)

(** The inodes of two stores agree in what the invariant looks at. *)
Record same_inodes (G : gset InodeId) (s s' : FsStore) : Prop := {
  si_parent : forall id, parent_of s' id = parent_of s id;
  si_nlink : forall id, nlink_of s' id = nlink_of s id;
  si_type : forall id, type_of s' id = type_of s id;
  si_immutable : forall g x, g ∈ G -> fs_inodes s !! g = Some x ->
    exists x', fs_inodes s' !! g = Some x' /\ isImmutable (in_acl x') = isImmutable (in_acl x) /\ in_nlink x' = in_nlink x
}.

Lemma same_inodes_eq G s E S' : same_inodes G s (mkFsStore (fs_inodes s) E S').
Proof. split; try done. eauto. Qed.

Lemma same_inodes_insert G s i x x' E S' :
  fs_inodes s !! i = Some x -> same_place x x' -> in_nlink x' = in_nlink x ->
  (i ∈ G -> isImmutable (in_acl x) = isImmutable (in_acl x')) ->
  same_inodes G s (mkFsStore (<[i := x']> (fs_inodes s)) E S').
Proof.
  intros Hx [Ht Hp] Hn HG. destruct (lookup_of _ _ _ Hx) as (Lp & Ln & Lt). split.
  - intros id. rewrite parent_of_insert. case_decide; subst; congruence.
  - intros id. rewrite nlink_of_insert. case_decide; subst; congruence.
  - intros id. rewrite type_of_insert. case_decide; subst; congruence.
  - intros g y Hg Hy. simpl. destruct (decide (g = i)) as [->|Hne].
    + rewrite lookup_insert_eq. replace y with x in * by congruence. exists x'. split; [done|]. split; [by rewrite HG|done].
    + rewrite lookup_insert_ne by done. eauto.
Qed.

Section moves.
Context (G : gset InodeId).

Lemma anchored_same s s' id :
  (forall id, parent_of s' id = parent_of s id) -> (forall id, nlink_of s' id = nlink_of s id) -> anchored s id -> anchored s' id.
Proof.
  intros Hp Hn. induction 1 as [id H|id H|id p H _ IH].
  - by apply anch_root.
  - apply anch_removed. by rewrite Hn.
  - eapply anch_step; [by rewrite Hp|done].
Qed.

(** Entries that change neither their place nor what they lead to. *)
Lemma NS_same s s' :
  NS G s -> same_inodes G s s' ->
  (forall k e', fs_entries s' !! k = Some e' -> exists e, fs_entries s !! k = Some e /\ alike e e') ->
  (forall k e, fs_entries s !! k = Some e -> exists e', fs_entries s' !! k = Some e' /\ alike e e') ->
  (forall id, links G (fs_entries s') id = links G (fs_entries s) id) ->
  NS G s'.
Proof.
  intros HN [Sp Sn St Si] HE HE' HL.
  assert (Hd : forall id, is_dir s' id <-> is_dir s id) by (intros id; unfold is_dir; by rewrite Sp).
  split.
  - rewrite Sp. apply HN.
  - rewrite Sp. apply HN.
  - intros g Hg. destruct (ns_gcdirs _ _ HN g Hg) as (H1 & H2 & x & Hx & H3 & H4). split; [done|]. rewrite Sp. split; [done|].
    destruct (Si g x Hg Hx) as (x' & Hx' & H5 & H6). exists x'. split; [done|]. split; congruence.
  - intros p n e' H. apply HE in H as (e & He & _). apply Hd. by eapply ns_parent.
  - intros k e' H. apply HE in H as (e & He & [Ha _]). rewrite <- Ha. by eapply ns_notroot.
  - intros p n e' H Hp. apply HE in H as (e & He & [Ha Hb]). rewrite St, <- Ha, <- Hb. by eapply ns_target.
  - intros id l. rewrite Sn, HL. by apply HN.
  - intros id. rewrite Hd, HL. by apply HN.
  - intros p n e' q H Hp Hq. apply HE in H as (e & He & [Ha _]). rewrite Sp, <- Ha in Hq. by eapply ns_dirlink.
  - intros id q. rewrite Sp. by apply HN.
  - intros g n e' l H Hg Hl. apply HE in H as (e & He & [Ha Hb]). rewrite Sn, <- Ha in Hl.
    rewrite St, <- Ha, <- Hb. by eapply ns_garbage.
  - intros id H1 H2 H3. rewrite Sn in H1. rewrite St in H3.
    destruct (ns_collectable _ _ HN id H1 H2 H3) as (g & n & e & Hg & He & Hi).
    apply HE' in He as (e' & He' & [Ha _]). exists g, n, e'. split; [done|]. split; [done|]. congruence.
  - intros k e' H. apply HE in H as (e & He & [Ha _]). rewrite <- Ha. by eapply ns_range.
  - intros g n e' H Hg. apply HE in H as (e & He & [Ha _]). rewrite <- Ha. by eapply ns_gcname.
  - intros k1 e1 k2 e2 H1 H2 Hg1 Hg2 Hi. apply HE in H1 as (f1 & H1 & [A1 _]). apply HE in H2 as (f2 & H2 & [A2 _]).
    eapply (ns_onegc _ _ HN); [done..|]. congruence.
  - intros id H. apply Hd in H. apply (anchored_same s); [done..|]. by apply HN.
Qed.

Lemma NS_attr s id x x' S' :
  NS G s -> fs_inodes s !! id = Some x -> same_place x x' -> in_nlink x' = in_nlink x ->
  (id ∈ G -> isImmutable (in_acl x) = isImmutable (in_acl x')) ->
  NS G (mkFsStore (<[id := x']> (fs_inodes s)) (fs_entries s) S').
Proof.
  intros HN Hx Hs Hn HG. apply (NS_same s); [done|by eapply same_inodes_insert| | |done]; unfold alike; eauto.
Qed.

Lemma NS_entry s k e e' S' :
  NS G s -> fs_entries s !! k = Some e -> alike e e' -> NS G (mkFsStore (fs_inodes s) (<[k := e']> (fs_entries s)) S').
Proof.
  intros HN He Ha. apply (NS_same s); [done|apply same_inodes_eq| | |].
  - intros k' y H. simpl in H. apply lookup_insert_Some in H as [[-> ->]|[_ H]]; [eauto|unfold alike; eauto].
  - intros k' y H. simpl. destruct (decide (k = k')) as [->|Hn].
    + rewrite lookup_insert_eq. exists e'. split; [done|]. congruence.
    + rewrite lookup_insert_ne by done. unfold alike; eauto.
  - intros id. simpl. by eapply links_replace, Ha.
Qed.

Lemma anchored_kept s s' (K : InodeId -> Prop) id :
  (forall id, K id -> nlink_of s id = Some 0 -> anchored s' id) ->
  (forall id p, K id -> isTreeRoot id = false -> nlink_of s id <> Some 0 -> parent_of s id = Some p ->
     anchored s' id \/ parent_of s' id = Some p /\ K p) ->
  anchored s id -> K id -> anchored s' id.
Proof.
  intros H0 H1. induction 1 as [id H|id H|id p H _ IH]; intros HK.
  - by apply anch_root.
  - auto.
  - destruct (isTreeRoot id) eqn:Hr; [by apply anch_root|].
    destruct (decide (nlink_of s id = Some 0)) as [Hz|Hz]; [auto|].
    destruct (H1 id p HK Hr Hz H) as [Ha|[Hp HKp]]; [done|]. eapply anch_step; [done|auto].
Qed.

(** ** Consequences of the invariant *)

Lemma isTreeRoot_root : isTreeRoot InodeId_root = true.
Proof. reflexivity. Qed.
Lemma isTreeRoot_gcRoot : isTreeRoot InodeId_gcRoot = true.
Proof. reflexivity. Qed.

(** A directory that was not removed has its entry in its parent. *)
Lemma NS_dir_entry s id p :
  NS G s -> parent_of s id = Some p -> isTreeRoot id = false -> nlink_of s id <> Some 0 ->
  exists n e, fs_entries s !! (p, n) = Some e /\ de_id e = id /\ p ∉ G.
Proof.
  intros HN Hp Hr Hz. assert (exists l, nlink_of s id = Some l) as [l Hl].
  { unfold parent_of, nlink_of in *. destruct (fs_inodes s !! id); simpl in *; [eauto|done]. }
  pose proof (ns_nlink _ _ HN _ _ Hl Hr) as Hc.
  destruct (links_exists G (fs_entries s) id) as ([p' n] & e & He & [Hi Hg]); [assert (l <> 0) by congruence; lia|].
  simpl in *. subst id. replace p with p'; [eauto|]. symmetry. by eapply ns_dirlink.
Qed.

Lemma NS_nlink s id x : NS G s -> fs_inodes s !! id = Some x -> isTreeRoot id = false ->
  in_nlink x = Z.of_nat (links G (fs_entries s) id).
Proof. intros HN Hx. apply (ns_nlink _ _ HN). unfold nlink_of. by rewrite Hx. Qed.

Lemma NS_child_kept s s' id : NS G s -> no_entries s id ->
  (forall i, i <> id -> parent_of s' i = parent_of s i) -> (forall i, i <> id -> nlink_of s' i = nlink_of s i) ->
  isTreeRoot id = false ->
  forall i, i <> id -> anchored s i -> anchored s' i.
Proof.
  intros HN Hno Hp Hn Hr i Hi Ha. apply (anchored_kept s s' (fun j => j <> id)); [| |done..].
  - intros j Hj Hz. apply anch_removed. by rewrite Hn.
  - intros j p Hj Hrj Hz Hpj. right. rewrite Hp by done. split; [done|].
    destruct (NS_dir_entry s j p HN Hpj Hrj Hz) as (n & e & He & _). intros ->. by rewrite Hno in He.
Qed.

(** ** The moves *)

Lemma is_dir_insert s i x E S' id : is_dir (mkFsStore (<[i := x]> (fs_inodes s)) E S') id <-> if decide (id = i) then getType x = IT_Directory else is_dir s id.
Proof. unfold is_dir. rewrite parent_of_insert. case_decide; [apply as_dir_type|done]. Qed.

Ltac at_inode := rewrite ?parent_of_insert, ?nlink_of_insert, ?type_of_insert, ?parent_of_delete, ?nlink_of_delete, ?type_of_delete.
Ltac at_inode_in H := rewrite ?parent_of_insert, ?nlink_of_insert, ?type_of_insert, ?parent_of_delete, ?nlink_of_delete, ?type_of_delete in H.

(** A change of one inode and of the entries that lead to it. *)
Record one_inode (s s' : FsStore) (id : InodeId) : Prop := {
  oi_inodes : forall i, i <> id -> fs_inodes s' !! i = fs_inodes s !! i;
  oi_kept : forall k e, de_id e <> id -> fs_entries s' !! k = Some e <-> fs_entries s !! k = Some e;
  oi_links : forall i, i <> id -> links G (fs_entries s') i = links G (fs_entries s) i
}.

(** What the invariant asks of that inode. *)
Record inode_ok (s' : FsStore) (id : InodeId) : Prop := {
  ok_parent : forall k e, fs_entries s' !! k = Some e -> de_id e = id -> is_dir s' k.1;
  ok_target : forall p n e, fs_entries s' !! (p, n) = Some e -> de_id e = id -> p ∉ G ->
    type_of s' id = Some (de_type e) /\ forall q, parent_of s' id = Some q -> q = p;
  ok_garbage : forall g n e l, fs_entries s' !! (g, n) = Some e -> de_id e = id -> g ∈ G -> nlink_of s' id = Some l ->
    l = 0 /\ type_of s' id = Some (de_type e) /\ de_type e <> IT_Symlink;
  ok_below : forall n e, fs_entries s' !! (id, n) = Some e -> is_dir s' id;
  ok_nlink : forall l, nlink_of s' id = Some l -> l = Z.of_nat (links G (fs_entries s') id);
  ok_single : is_dir s' id -> (links G (fs_entries s') id <= 1)%nat;
  ok_public : forall q, parent_of s' id = Some q -> public G q;
  ok_collectable : nlink_of s' id = Some 0 -> type_of s' id <> Some IT_Symlink ->
    exists g n e, g ∈ G /\ fs_entries s' !! (g, n) = Some e /\ de_id e = id;
  ok_range : forall k e, fs_entries s' !! k = Some e -> de_id e = id -> is_id id /\ k.2 <> "";
  ok_gcname : forall g n e, fs_entries s' !! (g, n) = Some e -> de_id e = id -> g ∈ G -> gc_name n id;
  ok_onegc : forall k e k' e', fs_entries s' !! k = Some e -> fs_entries s' !! k' = Some e' -> k.1 ∈ G -> k'.1 ∈ G ->
    de_id e = id -> de_id e' = id -> k = k'
}.

Lemma NS_one_inode s s' id :
  NS G s -> isTreeRoot id = false -> id ∉ G -> one_inode s s' id -> inode_ok s' id -> (forall i, is_dir s' i -> anchored s' i) ->
  NS G s'.
Proof.
  intros HN Hr HG [Hi Hk Hl] [O1 O2 O3 O4 O5 O6 O7 O8 O9 O10 O11] Ha.
  assert (Sp : forall i, i <> id -> parent_of s' i = parent_of s i) by (intros; unfold parent_of; by rewrite Hi).
  assert (Sn : forall i, i <> id -> nlink_of s' i = nlink_of s i) by (intros; unfold nlink_of; by rewrite Hi).
  assert (St : forall i, i <> id -> type_of s' i = type_of s i) by (intros; unfold type_of; by rewrite Hi).
  split; [| | | | | | | | | | | | | | |done].
  - rewrite Sp by (by intros <-). apply HN.
  - rewrite Sp by (by intros <-). apply HN.
  - intros g Hg. rewrite Sp, Hi by congruence. by apply HN.
  - intros p n e He. destruct (decide (p = id)) as [->|Hp]; [by eapply O4|].
    destruct (decide (de_id e = id)) as [Hid|Hid]; [by apply (O1 _ _ He)|].
    apply Hk in He; [|done]. unfold is_dir. rewrite Sp by done. by eapply ns_parent.
  - intros k e He. destruct (decide (de_id e = id)) as [->|Hid]; [done|]. apply Hk in He; [|done]. by eapply ns_notroot.
  - intros p n e He Hp. destruct (decide (de_id e = id)) as [Hid|Hid]; [rewrite Hid; by eapply O2|].
    rewrite St by done. apply Hk in He; [|done]. by eapply ns_target.
  - intros i l Hnl Hri. destruct (decide (i = id)) as [->|Hne]; [auto|]. rewrite Sn in Hnl by done. rewrite Hl by done. by apply HN.
  - intros i Hd Hri. destruct (decide (i = id)) as [->|Hne]; [auto|]. rewrite Hl by done. unfold is_dir in Hd. rewrite Sp in Hd by done. by apply HN.
  - intros p n e q He Hp Hq. destruct (decide (de_id e = id)) as [Hid|Hid]; [rewrite Hid in Hq; by eapply O2|].
    rewrite Sp in Hq by done. apply Hk in He; [|done]. by eapply ns_dirlink.
  - intros i q Hq. destruct (decide (i = id)) as [->|Hne]; [auto|]. rewrite Sp in Hq by done. by apply HN.
  - intros g n e l He Hg Hnl. destruct (decide (de_id e = id)) as [Hid|Hid]; [rewrite Hid in *; by eapply O3|].
    rewrite Sn in Hnl by done. rewrite St by done. apply Hk in He; [|done]. by eapply ns_garbage.
  - intros i Hz Hri Ht. destruct (decide (i = id)) as [->|Hne]; [auto|]. rewrite Sn in Hz by done. rewrite St in Ht by done.
    destruct (ns_collectable _ _ HN i Hz Hri Ht) as (g & n & e & Hg & He & He'). exists g, n, e.
    split; [done|]. split; [|done]. apply Hk; congruence.
  - intros k e He. destruct (decide (de_id e = id)) as [Hid|Hid]; [rewrite Hid; by eapply O9|]. apply Hk in He; [|done]. by eapply ns_range.
  - intros g n e He Hg. destruct (decide (de_id e = id)) as [Hid|Hid]; [rewrite Hid; by eapply O10|]. apply Hk in He; [|done]. by eapply ns_gcname.
  - intros k1 e1 k2 e2 H1 H2 Hg1 Hg2 Heq. destruct (decide (de_id e1 = id)) as [Hid|Hid]; [apply (O11 _ _ _ _ H1 H2); congruence|].
    apply Hk in H1; [|done]. apply Hk in H2; [|congruence]. by apply (ns_onegc _ _ HN _ _ _ _ H1 H2).
Qed.

(** A directory that did not change its parent stays anchored. *)
Lemma anchored_one_inode s s' id :
  NS G s -> isTreeRoot id = false -> (forall i, i <> id -> fs_inodes s' !! i = fs_inodes s !! i) ->
  (anchored s id -> anchored s' id) \/ no_entries s id ->
  forall i, i <> id -> anchored s i -> anchored s' i.
Proof.
  intros HN Hr Hi Hid i Hne Ha. revert Ha.
  assert (Sp : forall i, i <> id -> parent_of s' i = parent_of s i) by (intros; unfold parent_of; by rewrite Hi).
  assert (Sn : forall i, i <> id -> nlink_of s' i = nlink_of s i) by (intros; unfold nlink_of; by rewrite Hi).
  destruct Hid as [Hid|Hno].
  - clear Hne. induction 1 as [j H|j H|j p H Hp IH]; [by apply anch_root| |].
    + destruct (decide (j = id)) as [->|Hj]; [apply Hid; by apply anch_removed|]. apply anch_removed. by rewrite Sn.
    + destruct (decide (j = id)) as [->|Hj]; [apply Hid; by eapply anch_step|]. eapply anch_step; [by rewrite Sp|done].
  - by apply (NS_child_kept s s' id).
Qed.

Lemma one_inode_add s I k e S' :
  (forall i, i <> de_id e -> I !! i = fs_inodes s !! i) -> fs_entries s !! k = None ->
  one_inode s (mkFsStore I (<[k := e]> (fs_entries s)) S') (de_id e).
Proof.
  intros HI Hk. split; simpl; [done| |].
  - intros k' f Hf. destruct (decide (k = k')) as [->|Hn]; [rewrite lookup_insert_eq, Hk|by rewrite lookup_insert_ne]. split; congruence.
  - intros i Hi. rewrite links_insert by done. rewrite one_if_false; [lia|]. intros [? _]. by apply Hi.
Qed.

Lemma one_inode_drop s I k e S' :
  (forall i, i <> de_id e -> I !! i = fs_inodes s !! i) -> fs_entries s !! k = Some e ->
  one_inode s (mkFsStore I (delete k (fs_entries s)) S') (de_id e).
Proof.
  intros HI Hk. split; simpl; [done| |].
  - intros k' f Hf. destruct (decide (k = k')) as [->|Hn]; [rewrite lookup_delete_eq, Hk|by rewrite lookup_delete_ne]. split; congruence.
  - intros i Hi. rewrite (links_delete G _ k e i Hk), one_if_false; [lia|]. intros [? _]. by apply Hi.
Qed.

Lemma one_inode_move s I k k' e e' S' :
  (forall i, i <> de_id e -> I !! i = fs_inodes s !! i) -> fs_entries s !! k = Some e -> fs_entries s !! k' = None -> de_id e = de_id e' ->
  one_inode s (mkFsStore I (<[k' := e']> (delete k (fs_entries s))) S') (de_id e).
Proof.
  intros HI Hk Hk' He.
  assert (H1 : one_inode s (mkFsStore (fs_inodes s) (delete k (fs_entries s)) S') (de_id e)) by (by apply one_inode_drop).
  assert (H2 : one_inode (mkFsStore (fs_inodes s) (delete k (fs_entries s)) S') (mkFsStore I (<[k' := e']> (delete k (fs_entries s))) S') (de_id e')).
  { refine (one_inode_add (mkFsStore (fs_inodes s) (delete k (fs_entries s)) S') I k' e' S' _ _); simpl; [by rewrite <- He|].
    rewrite lookup_delete_ne; [done|]. by intros ->; rewrite Hk in Hk'. }
  rewrite <- He in H2. destruct H1 as [A1 A2 A3], H2 as [B1 B2 B3]. split; intros; [by rewrite B1, A1|by rewrite B2, A2|by rewrite B3, A3].
Qed.

(** Names of an inode after one was added or dropped. *)
Lemma NS_names s id k e : NS G s -> (links G (fs_entries s) id <= 1)%nat -> fs_entries s !! k = Some e -> counts G id (k, e) ->
  forall k' e', fs_entries s !! k' = Some e' -> counts G id (k', e') -> k' = k.
Proof.
  intros HN Hl Hk Hc k' e' Hk' Hc'. destruct (decide (k' = k)) as [|Hn]; [done|].
  pose proof (links_two G _ _ _ _ _ id Hk' Hk Hn Hc' Hc). lia.
Qed.

Lemma NS_create s p n e x S' :
  NS G s -> free_name G s p n -> fs_inodes s !! de_id e = None -> unnamed s (de_id e) -> isTreeRoot (de_id e) = false -> de_id e ∉ G ->
  is_id (de_id e) -> getType x = de_type e -> in_nlink x = 1 -> (forall d, as_dir x = Some d -> di_parent d = p) ->
  NS G (mkFsStore (<[de_id e := x]> (fs_inodes s)) (<[(p, n) := e]> (fs_entries s)) S').
Proof.
  intros HN (Hfree & Hdir & (HpG & Hpr) & Hne0) Hnew Hun Hr HG Hidr Ht Hl Hpar. set (s' := mkFsStore _ _ _).
  assert (Hnd : ~ is_dir s (de_id e)) by (unfold is_dir, parent_of; rewrite Hnew; by intros []).
  assert (Hpx : parent_of s' (de_id e) = di_parent <$> as_dir x) by (unfold s'; rewrite parent_of_insert; by rewrite decide_True).
  assert (Hq : forall q, parent_of s' (de_id e) = Some q -> q = p).
  { rewrite Hpx. intros q Hq. destruct (as_dir x) as [d|] eqn:Hd; [|done]. simpl in Hq. rewrite <- (Hpar d eq_refl). congruence. }
  assert (HI : forall i, i <> de_id e -> fs_inodes s' !! i = fs_inodes s !! i) by (intros; by apply lookup_insert_ne).
  assert (Hnx : nlink_of s' (de_id e) = Some 1) by (unfold s'; rewrite nlink_of_insert, decide_True by done; congruence).
  assert (HL : links G (fs_entries s') (de_id e) = 1%nat) by (simpl; rewrite links_insert, links_unnamed, one_if_true by done; done).
  assert (Hent : forall k f, fs_entries s' !! k = Some f -> de_id f = de_id e -> k = (p, n) /\ f = e).
  { simpl. intros k f [[<- <-]|[_ H]]%lookup_insert_Some Hf; [done|]. by apply Hun in H. }
  apply (NS_one_inode s _ (de_id e)); [done..| | |].
  - by apply one_inode_add.
  - split; try congruence.
    + intros k f H Hf. destruct (Hent _ _ H Hf) as [-> ->]. simpl. unfold is_dir. destruct (decide (p = de_id e)) as [->|Hne]; [done|].
      unfold s'. simpl. rewrite parent_of_insert. by rewrite decide_False.
    + intros q m f H Hf _. destruct (Hent _ _ H Hf) as [[= -> ->] ->]. split; [|auto]. unfold s'. rewrite type_of_insert, decide_True by done. congruence.
    + intros g m f l H Hf Hg. by destruct (Hent _ _ H Hf) as [[= -> ->] ->].
    + simpl. intros m f [[[= Hc _] _]|[_ H]]%lookup_insert_Some; [by rewrite <- Hc in Hnd|]. by eapply ns_parent in H.
    + rewrite HL. intros l Hl'. rewrite Hnx in Hl'. by simplify_eq.
    + rewrite HL. lia.
    + intros q ->%Hq. done.
    + intros k f H Hf. by destruct (Hent _ _ H Hf) as [-> ->].
    + intros g m f H Hf Hg. by destruct (Hent _ _ H Hf) as [[= -> ->] ->].
    + intros k f k' f' H H' _ _ Hf Hf'. destruct (Hent _ _ H Hf), (Hent _ _ H' Hf'). congruence.
  - assert (Hno : no_entries s (de_id e)).
    { intros m. destruct (fs_entries s !! (de_id e, m)) eqn:H; [|done]. by eapply ns_parent in H. }
    assert (Ha : forall i, i <> de_id e -> anchored s i -> anchored s' i) by (apply (anchored_one_inode s s'); auto).
    intros i Hi. destruct (decide (i = de_id e)) as [->|Hne].
    + destruct Hi as [q Hq']. eapply anch_step; [done|]. apply Hq in Hq' as ->. apply Ha; [congruence|by apply HN].
    + apply Ha; [done|]. apply HN. unfold is_dir, parent_of in *. by rewrite <- HI.
Qed.

Lemma NS_no_entries s id : NS G s -> ~ is_dir s id -> no_entries s id.
Proof. intros HN Hd n. destruct (fs_entries s !! (id, n)) eqn:H; [|done]. destruct Hd. by eapply ns_parent. Qed.

Lemma anchored_all s s' id :
  NS G s -> isTreeRoot id = false -> (forall i, i <> id -> fs_inodes s' !! i = fs_inodes s !! i) ->
  (anchored s id -> anchored s' id) \/ no_entries s id -> (is_dir s' id -> anchored s' id) ->
  forall i, is_dir s' i -> anchored s' i.
Proof.
  intros HN Hr HI Hor Hid i Hi. destruct (decide (i = id)) as [->|Hne]; [auto|].
  eapply anchored_one_inode; [done..|]. apply HN. unfold is_dir, parent_of in *. by rewrite <- HI.
Qed.

Lemma name_of_counts s p n e x : name_of G s p n e x -> counts G (de_id e) ((p, n), e).
Proof. by intros (_ & H & _). Qed.

(** An inode with a name has a positive count, and no name in the garbage. *)
Lemma name_of_nlink s p n e x : NS G s -> name_of G s p n e x ->
  in_nlink x = Z.of_nat (links G (fs_entries s) (de_id e)) /\ 1 <= in_nlink x /\ isTreeRoot (de_id e) = false /\
  getType x = de_type e /\
  forall k f, fs_entries s !! k = Some f -> de_id f = de_id e -> k.1 ∉ G.
Proof.
  intros HN Hname. pose proof (name_of_counts _ _ _ _ _ Hname) as Hc. destruct Hname as (He & Hp & _ & Hx).
  pose proof (ns_notroot _ _ HN _ _ He) as Hr. pose proof (NS_nlink s _ x HN Hx Hr) as Hl.
  pose proof (links_pos _ _ _ _ _ He Hc) as Hpos. destruct (lookup_of _ _ _ Hx) as (_ & Ln & Lt).
  pose proof (ns_target _ _ HN _ _ _ He Hp) as Ht. rewrite Lt in Ht. split_and!; [done|lia|done|congruence|].
  intros [g m] f Hf Hi Hg. simpl in *.
  edestruct (ns_garbage _ _ HN g m f (in_nlink x)) as [Hz _]; [done..|by rewrite Hi|]. lia.
Qed.

Lemma name_of_last s p n e x : NS G s -> name_of G s p n e x -> in_nlink x = 1 ->
  forall k f, fs_entries s !! k = Some f -> de_id f = de_id e -> k = (p, n).
Proof.
  intros HN Hname H1 k f Hk Hf. destruct (name_of_nlink _ _ _ _ _ HN Hname) as (Hl & _ & _ & _ & HG).
  eapply (NS_names s (de_id e)); [done| | | |done|split; [done|by eapply HG]].
  - lia.
  - by destruct Hname.
  - by eapply name_of_counts.
Qed.

Lemma NS_link s p n e x x' S' :
  NS G s -> free_name G s p n -> fs_inodes s !! de_id e = Some x -> in_nlink x <> 0 -> getType x <> IT_Directory -> isTreeRoot (de_id e) = false ->
  getType x = de_type e -> same_place x x' -> in_nlink x' = in_nlink x + 1 ->
  NS G (mkFsStore (<[de_id e := x']> (fs_inodes s)) (<[(p, n) := e]> (fs_entries s)) S').
Proof.
  intros HN (Hfree & Hdir & (HpG & Hpr) & Hne0) Hx Hz Hnt Hr Ht [Ht' _] Hl. set (s' := mkFsStore _ _ _).
  destruct (lookup_of _ _ _ Hx) as (Lp & Ln & Lt). pose proof (NS_nlink s _ x HN Hx Hr) as Hlx.
  assert (Hnd : forall x, getType x <> IT_Directory -> di_parent <$> as_dir x = None).
  { intros y Hy. destruct (di_parent <$> as_dir y) eqn:E; [|done]. destruct Hy. apply as_dir_type. by rewrite E. }
  assert (Hnot : ~ is_dir s (de_id e)) by (rewrite dir_type; congruence).
  assert (Hp' : parent_of s' (de_id e) = None) by (unfold s'; rewrite parent_of_insert, decide_True by done; apply Hnd; congruence).
  assert (Hnx : nlink_of s' (de_id e) = Some (in_nlink x + 1)) by (unfold s'; rewrite nlink_of_insert, decide_True by done; congruence).
  assert (Htx : type_of s' (de_id e) = Some (getType x)) by (unfold s'; rewrite type_of_insert, decide_True by done; congruence).
  assert (HI : forall i, i <> de_id e -> fs_inodes s' !! i = fs_inodes s !! i) by (intros; by apply lookup_insert_ne).
  assert (HgG : forall k f, fs_entries s !! k = Some f -> de_id f = de_id e -> k.1 ∉ G).
  { intros [g m] f Hf Hi Hg. simpl in *. edestruct (ns_garbage _ _ HN g m f (in_nlink x)) as [? _]; [done..|by rewrite Hi|done]. }
  assert (HgG' : forall k f, fs_entries s' !! k = Some f -> de_id f = de_id e -> k.1 ∉ G).
  { simpl. intros k f [[<- <-]|[_ H]]%lookup_insert_Some Hi; [done|eauto]. }
  assert (HD : forall i, is_dir s i -> is_dir s' i).
  { intros i Hi. unfold is_dir, parent_of in *. rewrite HI; [done|]. by intros ->. }
  apply (NS_one_inode s _ (de_id e)); [done|done| |by apply one_inode_add| |].
  - intros Hg. apply Hnot. destruct (ns_gcdirs _ _ HN _ Hg) as (_ & H & _). unfold is_dir. by rewrite H.
  - split; rewrite ?Hp', ?Hnx, ?Htx; try done.
    + simpl. intros [q m] f [[[= <- <-] <-]|[_ H]]%lookup_insert_Some Hi; [by apply HD|]. apply HD. by eapply ns_parent.
    + simpl. intros q m f [[[= <- <-] <-]|[_ H]]%lookup_insert_Some Hi Hq; [by rewrite Ht|]. split; [|done].
      rewrite <- (ns_target _ _ HN _ _ _ H Hq). congruence.
    + simpl. intros g m f l [[[= <- <-] <-]|[_ H]]%lookup_insert_Some Hi Hg; [done|]. by destruct (HgG _ _ H Hi).
    + simpl. intros m f [[[= Hq Hm] _]|[_ H]]%lookup_insert_Some; [by rewrite <- Hq in Hnot|]. by rewrite (NS_no_entries s) in H.
    + simpl. intros l [= <-]. rewrite links_insert, one_if_true by done. lia.
    + unfold is_dir. rewrite Hp'. by intros [].
    + intros [= E]. lia.
    + assert (is_id (de_id e)).
      { destruct (links_exists G (fs_entries s) (de_id e)) as (k & f & Hf & [<- _]); [lia|]. by eapply ns_range. }
      simpl. intros k f [[<- <-]|[_ H']]%lookup_insert_Some Hf; [done|]. split; [done|]. by eapply (ns_range _ _ HN).
    + intros g m f H Hf Hg. by destruct (HgG' _ _ H Hf).
    + intros k f k' f' H H' Hg _ Hf _. by destruct (HgG' _ _ H Hf).
  - eapply (anchored_all s s' (de_id e)); [done..| |].
    + right. by apply NS_no_entries.
    + unfold is_dir. rewrite Hp'. by intros [].
Qed.

(** The changed inode and the others. *)
Lemma inserted s id x E S' (s' := mkFsStore (<[id := x]> (fs_inodes s)) E S') :
  parent_of s' id = di_parent <$> as_dir x /\ nlink_of s' id = Some (in_nlink x) /\ type_of s' id = Some (getType x) /\
  forall i, i <> id -> fs_inodes s' !! i = fs_inodes s !! i.
Proof.
  unfold s'. at_inode. rewrite !decide_True by done. split_and!; [done..|]. intros i Hi. by apply lookup_insert_ne.
Qed.

Lemma deleted s id E S' (s' := mkFsStore (delete id (fs_inodes s)) E S') :
  parent_of s' id = None /\ nlink_of s' id = None /\ type_of s' id = None /\
  forall i, i <> id -> fs_inodes s' !! i = fs_inodes s !! i.
Proof.
  unfold s'. at_inode. rewrite !decide_True by done. split_and!; [done..|]. intros i Hi. by apply lookup_delete_ne.
Qed.

Lemma not_dir x : getType x <> IT_Directory -> di_parent <$> as_dir x = None.
Proof. intros Hy. destruct (di_parent <$> as_dir x) eqn:E; [|done]. destruct Hy. apply as_dir_type. by rewrite E. Qed.

Lemma is_dir_other s s' id i :
  (forall i, i <> id -> fs_inodes s' !! i = fs_inodes s !! i) -> (is_dir s id -> is_dir s' id) -> is_dir s i -> is_dir s' i.
Proof.
  intros HI Hid Hi. destruct (decide (i = id)) as [->|Hn]; [auto|]. unfold is_dir, parent_of in *. by rewrite HI.
Qed.

Lemma NS_unlink s p n e x x' S' :
  NS G s -> name_of G s p n e x -> getType x <> IT_Directory -> (2 <= in_nlink x \/ getType x = IT_Symlink) ->
  same_place x x' -> in_nlink x' = in_nlink x - 1 ->
  NS G (mkFsStore (<[de_id e := x']> (fs_inodes s)) (delete (p, n) (fs_entries s)) S').
Proof.
  intros HN Hname Hnt Hor [Ht' _] Hl. set (s' := mkFsStore _ _ _).
  destruct (name_of_nlink _ _ _ _ _ HN Hname) as (Hlx & Hpos & Hr & Ht & HgG).
  pose proof (name_of_counts _ _ _ _ _ Hname) as Hc. destruct Hname as (He & HpG & HeG & Hx).
  destruct (lookup_of _ _ _ Hx) as (Lp & Ln & Lt).
  destruct (inserted s (de_id e) x' (delete (p, n) (fs_entries s)) S') as (Hp' & Hnx & Htx & HI). fold s' in Hp', Hnx, Htx, HI.
  rewrite not_dir in Hp' by congruence. rewrite Hl in Hnx. rewrite <- Ht' in Htx.
  assert (Hnot : ~ is_dir s (de_id e)) by (rewrite dir_type; congruence).
  apply (NS_one_inode s _ (de_id e)); [done|done|done|by apply one_inode_drop| |].
  - split; rewrite ?Hp', ?Hnx, ?Htx; try done.
    + simpl. intros [q m] f [_ H]%lookup_delete_Some Hi. eapply (is_dir_other s); [done..|]. by eapply ns_parent.
    + simpl. intros q m f [_ H]%lookup_delete_Some Hi Hq. split; [|done]. rewrite <- (ns_target _ _ HN _ _ _ H Hq). congruence.
    + simpl. intros g m f l [_ H]%lookup_delete_Some Hi Hg. by destruct (HgG _ _ H Hi).
    + simpl. intros m f [_ H]%lookup_delete_Some. by rewrite (NS_no_entries s) in H.
    + simpl. intros l [= <-]. rewrite (links_delete G _ _ _ (de_id e) He), one_if_true in Hlx by done. lia.
    + unfold is_dir. rewrite Hp'. by intros [].
    + intros [= E] Hs. destruct Hor; [lia|congruence].
    + simpl. intros k f [_ H]%lookup_delete_Some <-. by apply (ns_range _ _ HN).
    + simpl. intros g m f [_ H]%lookup_delete_Some Hf Hg. by destruct (HgG _ _ H Hf).
    + simpl. intros k f k' f' [_ H]%lookup_delete_Some H' Hg _ Hf _. by destruct (HgG _ _ H Hf).
  - eapply (anchored_all s s' (de_id e)); [done..| |].
    + right. by apply NS_no_entries.
    + unfold is_dir. rewrite Hp'. by intros [].
Qed.

Lemma NS_drop s p n e x S' :
  NS G s -> name_of G s p n e x -> in_nlink x = 1 -> (getType x = IT_Symlink \/ no_entries s (de_id e)) ->
  NS G (mkFsStore (delete (de_id e) (fs_inodes s)) (delete (p, n) (fs_entries s)) S').
Proof.
  intros HN Hname H1 Hor. set (s' := mkFsStore _ _ _).
  destruct (name_of_nlink _ _ _ _ _ HN Hname) as (Hlx & Hpos & Hr & Ht & HgG).
  pose proof (name_of_last _ _ _ _ _ HN Hname H1) as Hlast. destruct Hname as (He & HpG & HeG & Hx).
  destruct (lookup_of _ _ _ Hx) as (Lp & Ln & Lt).
  destruct (deleted s (de_id e) (delete (p, n) (fs_entries s)) S') as (Hp' & Hnx & Htx & HI). fold s' in Hp', Hnx, Htx, HI.
  assert (Hno : no_entries s (de_id e)).
  { destruct Hor as [Hs|]; [|done]. apply NS_no_entries; [done|]. rewrite dir_type. congruence. }
  assert (Hnone : forall k f, fs_entries s' !! k = Some f -> de_id f <> de_id e).
  { simpl. intros k f [Hk H]%lookup_delete_Some Hf. by rewrite (Hlast _ _ H Hf) in Hk. }
  apply (NS_one_inode s _ (de_id e)); [done|done|done|by apply one_inode_drop| |].
  - split; rewrite ?Hp', ?Hnx, ?Htx; try done; try (intros; exfalso; by eapply Hnone).
    + simpl. intros m f [_ H]%lookup_delete_Some. by rewrite Hno in H.
    + unfold is_dir. rewrite Hp'. by intros [].
  - eapply (anchored_all s s' (de_id e)); [done..|by right|]. unfold is_dir. rewrite Hp'. by intros [].
Qed.

Lemma NS_gc_dir s g : NS G s -> g ∈ G -> is_dir s g.
Proof. intros HN Hg. destruct (ns_gcdirs _ _ HN g Hg) as (_ & H & _). unfold is_dir. by rewrite H. Qed.

Lemma same_place_dir x x' : same_place x x' -> getType x = IT_Directory -> is_Some (di_parent <$> as_dir x').
Proof. intros [H _] Ht. apply as_dir_type. congruence. Qed.

Lemma NS_trash s p n e x x' g gn ge S' :
  NS G s -> name_of G s p n e x -> in_nlink x = 1 -> getType x <> IT_Symlink -> same_place x x' -> in_nlink x' = 0 ->
  g ∈ G -> fs_entries s !! (g, gn) = None -> gc_name gn (de_id e) -> alike e ge -> getType x = de_type e ->
  NS G (mkFsStore (<[de_id e := x']> (fs_inodes s)) (<[(g, gn) := ge]> (delete (p, n) (fs_entries s))) S').
Proof.
  intros HN Hname H1 Hns Hsame H0 Hg Hfree Hgn [Hid Hty] Ht. set (s' := mkFsStore _ _ _).
  destruct (name_of_nlink _ _ _ _ _ HN Hname) as (Hlx & Hpos & Hr & _ & HgG).
  pose proof (name_of_counts _ _ _ _ _ Hname) as Hc.
  pose proof (name_of_last _ _ _ _ _ HN Hname H1) as Hlast. destruct Hname as (He & HpG & HeG & Hx).
  destruct (lookup_of _ _ _ Hx) as (Lp & Ln & Lt).
  destruct (inserted s (de_id e) x' (<[(g, gn) := ge]> (delete (p, n) (fs_entries s))) S') as (Hp' & Hnx & Htx & HI). fold s' in Hp', Hnx, Htx, HI.
  rewrite H0 in Hnx. destruct Hsame as [Hs1 Hs2]. rewrite <- Hs1, Ht in Htx. rewrite <- Hs2 in Hp'.
  assert (Hnew : delete (p, n) (fs_entries s) !! (g, gn) = None) by (rewrite lookup_delete_ne; [done|]; by intros [= -> ->]).
  assert (Hone : forall k f, fs_entries s' !! k = Some f -> de_id f = de_id e -> k = (g, gn) /\ f = ge).
  { simpl. intros k f [[<- <-]|[_ [Hk H]%lookup_delete_Some]]%lookup_insert_Some Hf; [done|]. by rewrite (Hlast _ _ H Hf) in Hk. }
  assert (Hd : is_dir s (de_id e) <-> is_dir s' (de_id e)) by (unfold is_dir; by rewrite Lp, Hp').
  apply (NS_one_inode s _ (de_id e)); [done|done|done|by apply one_inode_move| |].
  - split; rewrite ?Hnx, ?Htx.
    + intros k f H Hf. destruct (Hone _ _ H Hf) as [-> ->]. eapply (is_dir_other s); [done|by apply Hd|]. by apply NS_gc_dir.
    + intros q m f H Hf Hq. by destruct (Hone _ _ H Hf) as [[= -> ->] ->].
    + intros q m f l H Hf Hq [= <-]. destruct (Hone _ _ H Hf) as [[= -> ->] ->]. split; [done|]. split; congruence.
    + simpl. intros m f [[[= -> _] _]|[_ [_ H]%lookup_delete_Some]]%lookup_insert_Some; [done|]. apply Hd. by eapply ns_parent.
    + simpl. intros l [= <-]. rewrite links_insert by done. rewrite (links_delete G _ _ _ (de_id e) He), one_if_true in Hlx by done.
      rewrite one_if_false by (by intros [_ []]). lia.
    + intros _. simpl. rewrite links_insert by done. rewrite (links_delete G _ _ _ (de_id e) He), one_if_true in Hlx by done.
      rewrite one_if_false by (by intros [_ []]). lia.
    + rewrite Hp', <- Lp. intros q Hq. by eapply ns_public.
    + intros _ _. exists g, gn, ge. simpl. by rewrite lookup_insert_eq.
    + intros k f H Hf. destruct (Hone _ _ H Hf) as [-> ->]. split; [by eapply (ns_range _ _ HN)|]. by destruct Hgn as (? & ? & ->).
    + intros q m f H Hf Hq. by destruct (Hone _ _ H Hf) as [[= -> ->] ->].
    + intros k f k' f' H H' _ _ Hf Hf'. destruct (Hone _ _ H Hf), (Hone _ _ H' Hf'). congruence.
  - eapply (anchored_all s s' (de_id e)); [done..| |]; [left|]; intros _; by apply anch_removed.
Qed.

(** The new parent of a moved directory is still anchored. *)
Lemma live_path_anchored s s' id q :
  (forall i, i <> id -> fs_inodes s' !! i = fs_inodes s !! i) -> live_path s id q -> anchored s' q.
Proof.
  intros HI. induction 1 as [|q p Hp Hz Hne Hl IH]; [by apply anch_root|].
  eapply anch_step; [|done]. unfold parent_of. rewrite HI by done. exact Hp.
Qed.

Lemma links_move E k k' e e' id : E !! k = Some e -> E !! k' = None -> de_id e = de_id e' -> k.1 ∉ G -> k'.1 ∉ G ->
  links G (<[k' := e']> (delete k E)) id = links G E id.
Proof.
  intros Hk Hk' He HG HG'. rewrite links_insert by (rewrite lookup_delete_ne; [done|]; intros ->; by rewrite Hk in Hk').
  rewrite (links_delete G E k e id Hk). f_equal. apply one_if_iff. unfold counts. simpl. rewrite He. tauto.
Qed.

Lemma NS_move s p n q m e e' x x' S' :
  NS G s -> name_of G s p n e x -> free_name G s q m -> alike e e' -> getType x = getType x' -> in_nlink x' = in_nlink x ->
  (forall d, as_dir x' = Some d -> di_parent d = q /\ live_path s (de_id e) q) ->
  NS G (mkFsStore (<[de_id e := x']> (fs_inodes s)) (<[(q, m) := e']> (delete (p, n) (fs_entries s))) S').
Proof.
  intros HN Hname (Hfree & Hqd & (HqG & Hqr) & Hne0) [Hid Hty] Hgt Hl Hpar. set (s' := mkFsStore _ _ _).
  destruct (name_of_nlink _ _ _ _ _ HN Hname) as (Hlx & Hpos & Hr & Ht & HgG).
  pose proof (name_of_counts _ _ _ _ _ Hname) as Hc. destruct Hname as (He & HpG & HeG & Hx).
  destruct (lookup_of _ _ _ Hx) as (Lp & Ln & Lt).
  destruct (inserted s (de_id e) x' (<[(q, m) := e']> (delete (p, n) (fs_entries s))) S') as (Hp' & Hnx & Htx & HI). fold s' in Hp', Hnx, Htx, HI.
  rewrite Hl in Hnx. rewrite <- Hgt, Ht in Htx.
  assert (Hd : is_dir s (de_id e) <-> is_dir s' (de_id e)) by (rewrite !dir_type, Lt, Htx, Ht; done).
  assert (Hq : forall r, parent_of s' (de_id e) = Some r -> r = q /\ live_path s (de_id e) q).
  { rewrite Hp'. intros r Hr'. destruct (as_dir x') as [d|] eqn:Ed; [|done]. simpl in Hr'. destruct (Hpar d eq_refl). split; congruence. }
  assert (HL : links G (fs_entries s') (de_id e) = links G (fs_entries s) (de_id e)) by (by apply (links_move _ _ _ e)).
  assert (Hent : forall k f, fs_entries s' !! k = Some f -> de_id f = de_id e ->
    k = (q, m) /\ f = e' \/ k <> (p, n) /\ fs_entries s !! k = Some f).
  { simpl. intros k f [[<- <-]|[_ [Hk H]%lookup_delete_Some]]%lookup_insert_Some Hf; eauto. }
  assert (HgG' : forall k f, fs_entries s' !! k = Some f -> de_id f = de_id e -> k.1 ∉ G).
  { intros k f H Hf. destruct (Hent _ _ H Hf) as [[-> _]|[_ H']]; [done|by eapply HgG]. }
  assert (Hone : is_dir s (de_id e) -> forall k f, fs_entries s !! k = Some f -> de_id f = de_id e -> k = (p, n)).
  { intros Hi k f Hk Hf. eapply (NS_names s (de_id e)); [done|by apply HN|done|done|done|]. split; [done|by eapply HgG]. }
  apply (NS_one_inode s _ (de_id e)); [done|done|done|by apply one_inode_move| |].
  - split; rewrite ?Hnx, ?Htx, ?HL.
    + intros [g f'] f H Hf. simpl. destruct (Hent _ _ H Hf) as [[[= -> ->] ->]|[_ H']]; (eapply (is_dir_other s); [done|by apply Hd|]); [done|].
      by eapply ns_parent.
    + intros r m' f H Hf Hr'. destruct (Hent _ _ H Hf) as [[[= -> ->] ->]|[Hk H']].
      * split; [congruence|]. intros r' Hr''. by apply Hq.
      * split; [rewrite <- (ns_target _ _ HN _ _ _ H' Hr'); congruence|]. intros r' Hr''. destruct Hk. eapply Hone; [|done..].
        apply Hd. unfold is_dir. by rewrite Hr''.
    + intros g m' f l H Hf Hg. destruct (Hent _ _ H Hf) as [[[= -> ->] ->]|[Hk H']]; [done|]. by destruct (HgG _ _ H' Hf).
    + simpl. intros m' f [[[= Hqe _] _]|[_ [_ H]%lookup_delete_Some]]%lookup_insert_Some; apply Hd; [by rewrite <- Hqe|]. by eapply ns_parent.
    + intros l [= <-]. done.
    + intros Hi. apply HN; [by apply Hd|done].
    + intros r Hr'. apply Hq in Hr' as [-> _]. done.
    + intros [= E]. lia.
    + intros k f H Hf. destruct (Hent _ _ H Hf) as [[-> ->]|[_ H']]; (split; [by eapply (ns_range _ _ HN)|]); [done|by eapply (ns_range _ _ HN)].
    + intros g m' f H Hf Hg. by destruct (HgG' _ _ H Hf).
    + intros k f k' f' H H' Hg _ Hf _. by destruct (HgG' _ _ H Hf).
  - assert (Ha : is_dir s' (de_id e) -> anchored s' (de_id e)).
    { intros [r Hr']. destruct (Hq r Hr') as [-> Hlive]. eapply anch_step; [done|]. by eapply live_path_anchored. }
    eapply (anchored_all s s' (de_id e)); [done..| |done].
    destruct (decide (getType x = IT_Directory)) as [Hx'|Hx'].
    + left. intros _. apply Ha, Hd, dir_type. congruence.
    + right. apply NS_no_entries; [done|]. rewrite dir_type. congruence.
Qed.

Lemma NS_collect s g n id S' :
  NS G s -> g ∈ G -> isTreeRoot id = false -> id ∉ G -> (forall e, fs_entries s !! (g, n) = Some e -> de_id e = id) ->
  (forall x, fs_inodes s !! id = Some x -> in_nlink x = 0) -> no_entries s id ->
  NS G (mkFsStore (delete id (fs_inodes s)) (delete (g, n) (fs_entries s)) S').
Proof.
  intros HN Hg Hr HG Hent Hz Hno. set (s' := mkFsStore _ _ _).
  destruct (deleted s id (delete (g, n) (fs_entries s)) S') as (Hp' & Hnx & Htx & HI). fold s' in Hp', Hnx, Htx, HI.
  apply (NS_one_inode s _ id); [done|done|done| | |].
  - destruct (fs_entries s !! (g, n)) as [e|] eqn:He.
    + specialize (Hent e eq_refl) as <-. by apply one_inode_drop.
    + split; simpl; [done| |]; by rewrite delete_id.
  - split; rewrite ?Hp', ?Hnx, ?Htx; try done.
    + simpl. intros [q m] f [_ H]%lookup_delete_Some Hf. simpl. assert (q <> id) by (intros ->; by rewrite Hno in H).
      unfold is_dir, parent_of. rewrite HI by done. by eapply (ns_parent _ _ HN).
    + simpl. intros q m f [_ H]%lookup_delete_Some Hf Hq. exfalso. pose proof (ns_target _ _ HN _ _ _ H Hq) as Ht.
      rewrite Hf in Ht. unfold type_of in Ht. destruct (fs_inodes s !! id) as [x|] eqn:Hx; [|done].
      pose proof (NS_nlink s id x HN Hx Hr) as Hl. pose proof (links_pos G _ _ _ id H) as Hpos.
      rewrite (Hz x eq_refl) in Hl. assert (counts G id (q, m, f)) by (by split). apply Hpos in H0. lia.
    + simpl. intros m f [_ H]%lookup_delete_Some. by rewrite Hno in H.
    + unfold is_dir. rewrite Hp'. by intros [].
    + simpl. intros k f [_ H]%lookup_delete_Some <-. by eapply ns_range.
    + simpl. intros q m f [_ H]%lookup_delete_Some <- Hq. by eapply ns_gcname.
    + simpl. intros k f k' f' [_ H]%lookup_delete_Some [_ H']%lookup_delete_Some H1 H2 H3 H4.
      apply (ns_onegc _ _ HN _ _ _ _ H H'); congruence.
  - eapply (anchored_all s s' id); [done..|by right|]. unfold is_dir. rewrite Hp'. by intros [].
Qed.

Lemma NS_requeue s g n n' e e' S' :
  NS G s -> g ∈ G -> fs_entries s !! (g, n) = Some e -> fs_entries s !! (g, n') = None -> gc_name n' (de_id e) ->
  de_id e = de_id e' -> (forall x, fs_inodes s !! de_id e = Some x -> getType x = de_type e') ->
  NS G (mkFsStore (fs_inodes s) (delete (g, n) (<[(g, n') := e']> (fs_entries s))) S').
Proof.
  intros HN Hg He Hn' Hgn Hid Hty. assert (Hne : (g, n) <> (g, n')) by (intros E; rewrite <- E in Hn'; congruence).
  rewrite delete_insert_ne by done. set (s' := mkFsStore _ _ _).
  pose proof (ns_notroot _ _ HN _ _ He) as Hr.
  assert (HG : de_id e ∉ G).
  { intros H. destruct (ns_gcdirs _ _ HN _ H) as (_ & _ & x & Hx & _ & Hz). destruct (lookup_of _ _ _ Hx) as (_ & Ln & _).
    by destruct (ns_garbage _ _ HN _ _ _ _ He Hg Ln). }
  assert (Hent : forall k f, fs_entries s' !! k = Some f -> k = (g, n') /\ f = e' \/ fs_entries s !! k = Some f).
  { simpl. intros k f [[<- <-]|[_ [_ H]%lookup_delete_Some]]%lookup_insert_Some; eauto. }
  assert (Hone : forall k f, fs_entries s' !! k = Some f -> de_id f = de_id e -> k.1 ∈ G -> k = (g, n')).
  { simpl. intros k f [[<- _]|[_ [Hk H]%lookup_delete_Some]]%lookup_insert_Some Hf Hkg; [done|].
    by rewrite (ns_onegc _ _ HN _ _ _ _ H He) in Hk. }
  assert (HL : links G (fs_entries s') (de_id e) = links G (fs_entries s) (de_id e)).
  { simpl. rewrite links_insert by (by rewrite lookup_delete_ne). rewrite (links_delete G _ _ _ (de_id e) He).
    rewrite !one_if_false; [done| |]; by intros [_ []]. }
  apply (NS_one_inode s _ (de_id e)); [done|done|done|by apply one_inode_move| |].
  - split; rewrite ?HL.
    + intros [q m] f [[[= -> ->] ->]|H]%Hent Hf; [by apply (NS_gc_dir s)|]. by apply (ns_parent _ _ HN _ _ _ H).
    + intros q m f [[[= -> ->] ->]|H]%Hent Hf Hq; [done|]. rewrite <- Hf.
      split; [by apply (ns_target _ _ HN _ _ _ H)|]. intros r Hr'. by apply (ns_dirlink _ _ HN _ _ _ _ H).
    + intros q m f l [[[= -> ->] ->]|H]%Hent Hf Hq Hl.
      * destruct (ns_garbage _ _ HN _ _ _ _ He Hg Hl) as (H1 & H2 & H3). split; [done|]. unfold type_of in *. simpl in *.
        destruct (fs_inodes s !! de_id e) as [x|] eqn:Hx; [|done]. simpl in *. rewrite (Hty x eq_refl) in *. simplify_eq. split; congruence.
      * rewrite <- Hf in *. by apply (ns_garbage _ _ HN _ _ _ _ H).
    + intros m f [[[= Hq _] _]|H]%Hent; [by rewrite Hq in HG|]. by apply (ns_parent _ _ HN _ _ _ H).
    + intros l Hl. by apply (ns_nlink _ _ HN).
    + intros Hi. by apply (ns_single _ _ HN).
    + intros q Hq. by apply (ns_public _ _ HN _ _ Hq).
    + intros _ _. exists g, n', e'. simpl. by rewrite lookup_insert_eq.
    + intros k f [[-> ->]|H]%Hent Hf; (split; [by eapply (ns_range _ _ HN)|]); [by destruct Hgn as (? & ? & ->)|by eapply (ns_range _ _ HN)].
    + intros q m f [[[= -> ->] ->]|H]%Hent Hf Hq; [done|]. rewrite <- Hf. by eapply (ns_gcname _ _ HN).
    + intros k f k' f' H H' H1 H2 H3 H4. rewrite (Hone _ _ H H3 H1), (Hone _ _ H' H4 H2). done.
  - intros i Hi. apply (anchored_same s); [done..|]. by apply (ns_anchored _ _ HN).
Qed.

#[local] Hint Resolve NS_create NS_link NS_unlink NS_drop NS_trash NS_move NS_attr NS_entry NS_collect NS_requeue : core.

Lemma ns_move_NS ids s s' : NS G s -> ns_move G ids s s' -> NS G s'.
Proof.
  intros HN. destruct 1; eauto. apply (NS_same s); [done|apply same_inodes_eq| | |done]; unfold alike; eauto.
Qed.

Lemma ns_moves_NS ids s s' : NS G s -> ns_moves G ids s s' -> NS G s'.
Proof. intros HN. induction 1; eauto using ns_move_NS. Qed.

Lemma ns_moves_one ids s s' : ns_move G ids s s' -> ns_moves G ids s s'.
Proof. intros H. rewrite <- (app_nil_r ids). eapply mvs_step; [done|constructor]. Qed.

Lemma ns_moves_app ids ids' s1 s2 s3 : ns_moves G ids s1 s2 -> ns_moves G ids' s2 s3 -> ns_moves G (ids ++ ids') s1 s3.
Proof. intros H. revert s3. induction H; intros s4 H'; simpl; [done|]. rewrite <- app_assoc. econstructor; eauto. Qed.

(** ** Ids that nothing uses *)

Definition free (s : FsStore) (id : InodeId) : Prop := fs_inodes s !! id = None /\ unnamed s id.

Lemma free_insert s id i x E S' :
  free s id -> i <> id -> (forall k e, E !! k = Some e -> de_id e <> id) -> free (mkFsStore (<[i := x]> (fs_inodes s)) E S') id.
Proof. intros [H1 H2] Hi HE. split; simpl; [by rewrite lookup_insert_ne|exact HE]. Qed.

Lemma ns_move_free ids s s' id : ns_move G ids s s' -> free s id -> id ∉ ids -> free s' id.
Proof.
  intros Hm [Hi Hu]. unfold unnamed in Hu.
  assert (Hex : forall i x, fs_inodes s !! i = Some x -> i <> id) by (intros; congruence).
  destruct Hm; unfold name_of, alike in *; destruct_and?; intros Hid; split; simpl;
    repeat match goal with
    | |- <[_ := _]> _ !! _ = None => rewrite lookup_insert_ne; [done|]
    | |- delete _ _ !! _ = None => apply lookup_delete_None; by right
    end; try done; try (eapply Hex; eassumption); try (intros E0; apply Hid, list_elem_of_singleton; done).
  all: intros k' f; simpl; rewrite ?lookup_insert_Some, ?lookup_delete_Some, ?lookup_insert_Some; intros Hf; destruct_or?; destruct_and?; destruct_or?; destruct_and?; subst.
  all: try (by eapply Hu); try (eapply Hex; eassumption); try (intros E0; apply Hid, list_elem_of_singleton; done).
  all: match goal with H : de_id ?e = de_id ?f |- de_id ?f <> _ => rewrite <- H; by eapply Hu end.
Qed.

Lemma ns_moves_free ids s s' id : ns_moves G ids s s' -> free s id -> id ∉ ids -> free s' id.
Proof.
  induction 1 as [s|ids ids' s1 s2 s3 H1 H2 IH]; [done|]. intros Hf Hid. apply IH; [|set_solver]. eapply ns_move_free; [done..|set_solver].
Qed.
End moves.
