(* ===== verification/FsTracked.v ===== *)
(** * What a transaction that commits has seen

    A transaction reads a snapshot and commits in a later store.  Where it
    tracks a key, by a read conflict or by a write of its own, what it read is
    what the store of the commit holds, under the same writes.  This file has
    that fact, and the rules for runs of transactions that succeed. *)

From Stdlib Require Import ZArith Lia String Ascii.
From stdpp Require Import base gmap list strings sorting.
From S2P Require Import Prelude StatusCode MgmtdTypes FsTypes FsTxn.

(** ** Successful runs *)

Section oks.
Context {S : Type}.

(** If [m] succeeds in [t], its result and the state it reaches are in [Q]. *)
Definition oks {A} (m : M S A) (t : S) (Q : A -> S -> Prop) : Prop := forall a t', m t = (Ok a, t') -> Q a t'.

Lemma oks_bind {A B} (m : M S A) (k : A -> M S B) t Q : oks m t (fun a t1 => oks (k a) t1 Q) -> oks (m ≫= k) t Q.
Proof. intros H b t' (a & t1 & H1 & H2)%bind_inv. by eapply H. Qed.
Lemma oks_ret {A} (a : A) t (Q : A -> S -> Prop) : Q a t -> oks (mret a) t Q.
Proof. intros H b t' [= <- <-]. done. Qed.
Lemma oks_fail {A} c t (Q : A -> S -> Prop) : oks (fail c) t Q.
Proof. by intros b t' [=]. Qed.
Lemma oks_fatal {A} t (Q : A -> S -> Prop) : oks fatal t Q.
Proof. by intros b t' [=]. Qed.
Lemma oks_gets {A} (f : S -> A) t (Q : A -> S -> Prop) : Q (f t) t -> oks (gets f) t Q.
Proof. intros H b t' [= <- <-]. done. Qed.
Lemma oks_getS t (Q : S -> S -> Prop) : Q t t -> oks getS t Q.
Proof. intros H b t' [= <- <-]. done. Qed.
Lemma oks_modify f t (Q : unit -> S -> Prop) : Q tt (f t) -> oks (modify f) t Q.
Proof. intros H b t' [= <- <-]. done. Qed.
Lemma oks_lift {A} (o : outcome A) t (Q : A -> S -> Prop) : (forall a, o = Ok a -> Q a t) -> oks (lift o) t Q.
Proof. intros H b t' [= -> <-]. auto. Qed.
Lemma oks_err_if b c t (Q : unit -> S -> Prop) : (b = false -> Q tt t) -> oks (err_if b c) t Q.
Proof. intros H u t' [Hb ->]%err_if_inv. destruct u. auto. Qed.
Lemma oks_fatal_if b t (Q : unit -> S -> Prop) : (b = false -> Q tt t) -> oks (fatal_if b) t Q.
Proof. intros H u t' [Hb ->]%fatal_if_inv. destruct u. auto. Qed.
Lemma oks_when b (m : M S unit) t Q : (b = true -> oks m t Q) -> (b = false -> Q tt t) -> oks (when b m) t Q.
Proof. unfold when. destruct b; intros H1 H2; [auto|by apply oks_ret, H2]. Qed.
Lemma oks_mono {A} (m : M S A) t (P Q : A -> S -> Prop) : oks m t P -> (forall a t', P a t' -> Q a t') -> oks m t Q.
Proof. intros H HPQ a t' E. eauto. Qed.
Lemma oks_conj {A} (m : M S A) t (P Q : A -> S -> Prop) : oks m t P -> oks m t Q -> oks m t (fun a t' => P a t' /\ Q a t').
Proof. intros H1 H2 a t' E. eauto. Qed.
(** A call whose error the caller handles. *)
Lemma oks_attempt {A} (m : M S A) t (Q : A + Z -> S -> Prop) :
  (forall a t', m t = (Ok a, t') -> Q (inl a) t') -> (forall c t', m t = (Err c, t') -> Q (inr c) t') -> oks (attempt m) t Q.
Proof.
  intros H1 H2 r t'. unfold attempt. destruct (m t) as [[a|c| |] t1] eqn:E; intros [= <- <-]; eauto.
Qed.

(** Any state with what [R] says may follow. *)
Lemma oks_rel {A} (m : M S A) t (R : A -> S -> Prop) (Q : A -> S -> Prop) : oks m t R -> (forall a t', R a t' -> Q a t') -> oks m t Q.
Proof. apply oks_mono. Qed.
End oks.
Arguments oks : simpl never.

Lemma oks_zoom {S T A} (get : S -> T) (put : T -> S -> S) (m : M T A) s (Q : A -> S -> Prop) :
  oks m (get s) (fun a t => Q a (put t s)) -> oks (zoom get put m) s Q.
Proof. intros H a s'. unfold zoom. destruct (m (get s)) as [o t] eqn:E. intros [= -> <-]. by apply H. Qed.

Ltac okstep :=
  lazymatch goal with
  | |- oks (_ ≫= _) _ _ => apply oks_bind
  | |- oks (mret _) _ _ => apply oks_ret
  | |- oks (fail _) _ _ => apply oks_fail
  | |- oks fatal _ _ => apply oks_fatal
  | |- oks (gets _) _ _ => apply oks_gets
  | |- oks getS _ _ => apply oks_getS
  | |- oks (modify _) _ _ => apply oks_modify
  | |- oks (lift _) _ _ => apply oks_lift; let a := fresh "a" in let H := fresh "Hlift" in intros a H
  | |- oks (err_if _ _) _ _ => apply oks_err_if; let H := fresh "Hif" in intros H
  | |- oks (fatal_if _) _ _ => apply oks_fatal_if; let H := fresh "Hif" in intros H
  | |- oks (zoom _ _ _) _ _ => apply oks_zoom
  end.
Ltac oksteps := repeat okstep.
Ltac okif := lazymatch goal with |- oks (if ?b then _ else _) _ _ => let H := fresh "Hif" in destruct b eqn:H end.

(** ** Stores under writes *)

Definition shadow (t : Txn) (s : FsStore) : FsStore := apply_writes (tx_writes t) s.

Lemma apply_writes_app ws ws' s : apply_writes (ws ++ ws') s = apply_writes ws' (apply_writes ws s).
Proof. apply fold_left_app. Qed.

Lemma inode_written ws id : KInode id ∈ write_key <$> ws ->
  forall s s', fs_inodes (apply_writes ws s) !! id = fs_inodes (apply_writes ws s') !! id.
Proof.
  induction ws as [|w ws IH] using rev_ind; [by intros ?%elem_of_nil|]. intros Hin s s'. rewrite !apply_writes_app.
  rewrite fmap_app, elem_of_app in Hin. destruct w as [i v|p n v|i u v]; simpl.
  - destruct (decide (i = id)) as [->|Hn]; [by rewrite !lookup_partial_alter_eq|]. rewrite !lookup_partial_alter_ne by done. apply IH.
    destruct Hin as [|Hin]; [done|]. apply list_elem_of_singleton in Hin. by simplify_eq/=.
  - apply IH. destruct Hin as [|Hin]; [done|]. by apply list_elem_of_singleton in Hin.
  - apply IH. destruct Hin as [|Hin]; [done|]. by apply list_elem_of_singleton in Hin.
Qed.

Lemma entry_written ws p n : KEntry p n ∈ write_key <$> ws ->
  forall s s', fs_entries (apply_writes ws s) !! (p, n) = fs_entries (apply_writes ws s') !! (p, n).
Proof.
  induction ws as [|w ws IH] using rev_ind; [by intros ?%elem_of_nil|]. intros Hin s s'. rewrite !apply_writes_app.
  rewrite fmap_app, elem_of_app in Hin. destruct w as [i v|q m v|i u v]; simpl.
  - apply IH. destruct Hin as [|Hin]; [done|]. by apply list_elem_of_singleton in Hin.
  - destruct (decide ((q, m) = (p, n))) as [->|Hn]; [by rewrite !lookup_partial_alter_eq|]. rewrite !lookup_partial_alter_ne by done. apply IH.
    destruct Hin as [|Hin]; [done|]. apply list_elem_of_singleton in Hin. by simplify_eq/=.
  - apply IH. destruct Hin as [|Hin]; [done|]. by apply list_elem_of_singleton in Hin.
Qed.

Lemma inode_agree ws id s s' : fs_inodes s !! id = fs_inodes s' !! id ->
  fs_inodes (apply_writes ws s) !! id = fs_inodes (apply_writes ws s') !! id.
Proof.
  revert s s'. induction ws as [|w ws IH]; intros s s' H; simpl; [done|]. apply IH. destruct w as [i v|q m v|i u v]; simpl; try done.
  destruct (decide (i = id)) as [->|Hn]; [by rewrite !lookup_partial_alter_eq|by rewrite !lookup_partial_alter_ne].
Qed.

Lemma entry_agree ws k s s' : fs_entries s !! k = fs_entries s' !! k ->
  fs_entries (apply_writes ws s) !! k = fs_entries (apply_writes ws s') !! k.
Proof.
  revert s s'. induction ws as [|w ws IH]; intros s s' H; simpl; [done|]. apply IH. destruct w as [i v|q m v|i u v]; simpl; try done.
  destruct (decide ((q, m) = k)) as [->|Hn]; [by rewrite !lookup_partial_alter_eq|by rewrite !lookup_partial_alter_ne].
Qed.

(** ** Tracked keys *)

Definition tracked (t : Txn) (k : FsKey) : Prop := k ∈ write_key <$> tx_writes t \/ RC_Key k ∈ tx_reads t.

Lemma commits_read t s c : commits t s = true -> c ∈ tx_reads t -> agrees (tx_base t) s c = true.
Proof. unfold commits. rewrite forallb_forall. intros H Hc. apply H. by apply list_elem_of_In. Qed.

Lemma tracked_inode t s id : commits t s = true -> tracked t (KInode id) ->
  fs_inodes (shadow t s) !! id = fs_inodes (view t) !! id.
Proof.
  intros Hc [Hw|Hr]; [by apply inode_written|]. symmetry. apply inode_agree.
  by apply (commits_read _ _ _ Hc), bool_decide_eq_true_1 in Hr.
Qed.

Lemma tracked_entry t s p n : commits t s = true -> tracked t (KEntry p n) ->
  fs_entries (shadow t s) !! (p, n) = fs_entries (view t) !! (p, n).
Proof.
  intros Hc [Hw|Hr]; [by apply entry_written|]. symmetry. apply entry_agree.
  by apply (commits_read _ _ _ Hc), bool_decide_eq_true_1 in Hr.
Qed.

Lemma tracked_range t s p after upto n : commits t s = true -> RC_Entries p after upto ∈ tx_reads t -> name_between after upto n = true ->
  fs_entries (shadow t s) !! (p, n) = fs_entries (view t) !! (p, n).
Proof.
  intros Hc Hr Hn. symmetry. apply entry_agree. apply (commits_read _ _ _ Hc) in Hr. simpl in Hr. apply bool_decide_eq_true_1 in Hr.
  set (P := fun kv : (InodeId * string) * DirEntryData => kv.1.1 = p /\ name_between after upto kv.1.2 = true) in *.
  assert (H : forall s, filter P (fs_entries s) !! (p, n) = fs_entries s !! (p, n)).
  { intros s'. destruct (fs_entries s' !! (p, n)) as [e|] eqn:E.
    - apply map_lookup_filter_Some. done.
    - apply map_lookup_filter_None. by left. }
  rewrite <- !H. by rewrite Hr.
Qed.

(** ** How transactions grow *)

Definition prefix_reads (t t' : Txn) : Prop := exists rs, tx_reads t' = tx_reads t ++ rs.

Record grows (t t' : Txn) : Prop := {
  gr_base : tx_base t' = tx_base t;
  gr_reads : prefix_reads t t';
  gr_writes : exists ws, tx_writes t' = tx_writes t ++ ws;
  gr_ids : exists ids, tx_ids t' = tx_ids t ++ ids
}.

(** Nothing is written, and no id is taken. *)
Record quiet (t t' : Txn) : Prop := {
  qt_base : tx_base t' = tx_base t;
  qt_reads : prefix_reads t t';
  qt_writes : tx_writes t' = tx_writes t;
  qt_ids : tx_ids t' = tx_ids t
}.

#[export] Instance prefix_reads_preorder : PreOrder prefix_reads.
Proof.
  split.
  - intros t. exists []. by rewrite app_nil_r.
  - intros t1 t2 t3 [r1 H1] [r2 H2]. exists (r1 ++ r2). by rewrite H2, H1, app_assoc.
Qed.

#[export] Instance quiet_preorder : PreOrder quiet.
Proof.
  split.
  - intros t. by split.
  - intros t1 t2 t3 [? ? ? ?] [? ? ? ?]. split; [congruence|by etrans|congruence|congruence].
Qed.

#[export] Instance grows_preorder : PreOrder grows.
Proof.
  split.
  - intros t. split; [done|done|exists []; by rewrite app_nil_r|exists []; by rewrite app_nil_r].
  - intros t1 t2 t3 [? ? [w1 W1] [i1 I1]] [? ? [w2 W2] [i2 I2]]. split; [congruence|by etrans| |].
    + exists (w1 ++ w2). by rewrite W2, W1, app_assoc.
    + exists (i1 ++ i2). by rewrite I2, I1, app_assoc.
Qed.

Lemma quiet_grows t t' : quiet t t' -> grows t t'.
Proof. intros [? ? ? ?]. split; [done|done|exists []; by rewrite app_nil_r|exists []; by rewrite app_nil_r]. Qed.

Lemma quiet_view t t' : quiet t t' -> view t' = view t.
Proof. intros [Hb _ Hw _]. unfold view. by rewrite Hb, Hw. Qed.
Lemma quiet_shadow t t' s : quiet t t' -> shadow t' s = shadow t s.
Proof. intros [_ _ Hw _]. unfold shadow. by rewrite Hw. Qed.

Lemma grows_commits t t' s : grows t t' -> commits t' s = true -> commits t s = true.
Proof.
  intros [Hb [rs Hr] _ _]. unfold commits. rewrite Hb, Hr, forallb_app. by intros [H _]%andb_true_iff.
Qed.
Lemma grows_tracked t t' k : grows t t' -> tracked t k -> tracked t' k.
Proof.
  intros [_ [rs Hr] [ws Hw] _] [H|H]; [left|right]; rewrite ?Hw, ?Hr, ?fmap_app; apply elem_of_app; by left.
Qed.
Lemma grows_reads t t' c : grows t t' -> c ∈ tx_reads t -> c ∈ tx_reads t'.
Proof. intros [_ [rs Hr] _ _] H. rewrite Hr. apply elem_of_app. by left. Qed.

Lemma grows_write t w : grows t (add_write w t).
Proof. split; [done|exists []; by rewrite app_nil_r|by eexists|exists []; by rewrite app_nil_r]. Qed.
Lemma grows_id t i : grows t (add_id i t).
Proof. split; [done|exists []; by rewrite app_nil_r|exists []; by rewrite app_nil_r|by eexists]. Qed.
Lemma quiet_read t c : quiet t (add_read c t).
Proof. split; [done|by eexists|done|done]. Qed.
Lemma quiet_mem t m : quiet t (set_tx_mem m t).
Proof. split; [done|exists []; by rewrite app_nil_r|done|done]. Qed.
Lemma quiet_tick t : quiet t (add_tick t).
Proof. split; [done|exists []; by rewrite app_nil_r|done|done]. Qed.

Lemma view_write t w : view (add_write w t) = apply_write (view t) w.
Proof. unfold view. simpl. by rewrite apply_writes_app. Qed.
Lemma shadow_write t w s : shadow (add_write w t) s = apply_write (shadow t s) w.
Proof. unfold shadow. simpl. by rewrite apply_writes_app. Qed.

(** ** Computations that only read *)

Definition reads_only {A} (m : M Txn A) : Prop := forall t, quiet t (snd (m t)).

Section reads_only.
Lemma ro_ret {A} (a : A) : reads_only (mret a).
Proof. by intros t. Qed.
Lemma ro_fail {A} c : reads_only (@fail Txn A c).
Proof. by intros t. Qed.
Lemma ro_fatal {A} : reads_only (@fatal Txn A).
Proof. by intros t. Qed.
Lemma ro_lift {A} (o : outcome A) : reads_only (lift o).
Proof. by intros t. Qed.
Lemma ro_gets {A} (f : Txn -> A) : reads_only (gets f).
Proof. by intros t. Qed.
Lemma ro_getS : reads_only getS.
Proof. by intros t. Qed.
Lemma ro_err_if b c : reads_only (err_if b c).
Proof. by intros t. Qed.
Lemma ro_fatal_if b : reads_only (fatal_if b).
Proof. by intros t. Qed.
Lemma ro_bind {A B} (m : M Txn A) (k : A -> M Txn B) : reads_only m -> (forall a, reads_only (k a)) -> reads_only (m ≫= k).
Proof.
  intros Hm Hk t. specialize (Hm t). unfold mbind, M_bind. destruct (m t) as [[a|c| |] t1]; simpl in *; try done.
  etrans; [done|]. apply Hk.
Qed.
Lemma ro_when b m : reads_only m -> reads_only (when b m).
Proof. intros H. unfold when. destruct b; [done|apply ro_ret]. Qed.
Lemma ro_attempt {A} (m : M Txn A) : reads_only m -> reads_only (attempt m).
Proof. intros H t. specialize (H t). unfold attempt. by destruct (m t) as [[a|c| |] t1]. Qed.
Lemma ro_ask {A} (f : nat -> A) : reads_only (ask f).
Proof. intros t. apply quiet_tick. Qed.
Lemma ro_add_read c : reads_only (modify (add_read c)).
Proof. intros t. apply quiet_read. Qed.
Lemma ro_mem f : reads_only (modify (fun t => set_tx_mem (f t) t)).
Proof. intros t. apply quiet_mem. Qed.
Lemma ro_for_each {A} (f : A -> M Txn unit) l : (forall x, reads_only (f x)) -> reads_only (for_each f l).
Proof. intros H. induction l as [|x l IH]; simpl; [apply ro_ret|by apply ro_bind]. Qed.
End reads_only.

Create HintDb ro.
#[export] Hint Resolve ro_ret ro_fail ro_fatal ro_lift ro_gets ro_getS ro_err_if ro_fatal_if ro_ask ro_add_read ro_mem : ro.

(** Decompose a computation that only reads. *)
Ltac ro :=
  repeat first
    [ progress intros
    | solve [eauto with ro]
    | apply ro_bind
    | apply ro_when
    | apply ro_attempt
    | case_match ].

Lemma ro_addReadConflict k : reads_only (addReadConflict k).
Proof. unfold addReadConflict. ro. Qed.
#[export] Hint Resolve ro_addReadConflict : ro.
Lemma ro_Inode_snapshotLoad id : reads_only (Inode_snapshotLoad id).
Proof. unfold Inode_snapshotLoad. ro. Qed.
#[export] Hint Resolve ro_Inode_snapshotLoad : ro.
Lemma ro_Inode_load id : reads_only (Inode_load id).
Proof. unfold Inode_load. ro. Qed.
#[export] Hint Resolve ro_Inode_load : ro.
Lemma ro_DirEntry_snapshotLoad p n : reads_only (DirEntry_snapshotLoad p n).
Proof. unfold DirEntry_snapshotLoad. ro. Qed.
#[export] Hint Resolve ro_DirEntry_snapshotLoad : ro.
Lemma ro_DirEntry_load p n : reads_only (DirEntry_load p n).
Proof. unfold DirEntry_load. ro. Qed.
#[export] Hint Resolve ro_DirEntry_load : ro.
Lemma ro_snapshotLoadInode e : reads_only (DirEntry_snapshotLoadInode e).
Proof. unfold DirEntry_snapshotLoadInode. ro. Qed.
Lemma ro_loadInode e : reads_only (DirEntry_loadInode e).
Proof. unfold DirEntry_loadInode. ro. Qed.
#[export] Hint Resolve ro_snapshotLoadInode ro_loadInode : ro.
Lemma ro_list p prev limit : reads_only (DirEntryList_snapshotLoad p prev limit).
Proof. unfold DirEntryList_snapshotLoad. ro. Qed.
#[export] Hint Resolve ro_list : ro.
Lemma ro_search fuel p id prev found : reads_only (search_entry fuel p id prev found).
Proof. revert prev found. induction fuel; intros; simpl; ro. Qed.
#[export] Hint Resolve ro_search : ro.
Lemma ro_snapshotLoadDirEntry i : reads_only (Inode_snapshotLoadDirEntry i).
Proof. unfold Inode_snapshotLoadDirEntry. ro. Qed.
#[export] Hint Resolve ro_snapshotLoadDirEntry : ro.
Lemma ro_ancestors fuel seen curr acc : reads_only (ancestors_loop fuel seen curr acc).
Proof. revert seen curr acc. induction fuel; intros; simpl; ro. Qed.
Lemma ro_loadAncestors p : reads_only (loadAncestors p).
Proof. unfold loadAncestors. apply ro_bind; [apply ro_getS|intros; apply ro_ancestors]. Qed.
#[export] Hint Resolve ro_loadAncestors : ro.
Lemma ro_check_directory fuel user dir prev found num batch st : reads_only (check_directory fuel user dir prev found num batch st).
Proof. revert prev found num st. induction fuel; intros; simpl; ro. Qed.
#[export] Hint Resolve ro_check_directory : ro.
Lemma ro_check_queue fuel user batch st : reads_only (check_queue fuel user batch st).
Proof. revert st. induction fuel; intros; simpl; ro. Qed.
Lemma ro_recursiveCheckRmPerm p user limit batch : reads_only (recursiveCheckRmPerm p user limit batch).
Proof. apply ro_check_queue. Qed.
#[export] Hint Resolve ro_recursiveCheckRmPerm : ro.

(** ** The accesses of a transaction *)

(** Ids were taken from the allocator. *)
Record took (ids : list InodeId) (t t' : Txn) : Prop := {
  tk_base : tx_base t' = tx_base t;
  tk_reads : prefix_reads t t';
  tk_writes : tx_writes t' = tx_writes t;
  tk_ids : tx_ids t' = tx_ids t ++ ids
}.

Lemma took_grows ids t t' : took ids t t' -> grows t t'.
Proof. intros [? ? ? ?]. split; [done|done|exists []; by rewrite app_nil_r|by eexists]. Qed.
Lemma took_quiet ids t t1 t2 : took ids t t1 -> quiet t1 t2 -> took ids t t2.
Proof. intros [? ? ? ?] [? ? ? ?]. split; [congruence|by etrans|congruence|congruence]. Qed.
Lemma quiet_took ids t t1 t2 : quiet t t1 -> took ids t1 t2 -> took ids t t2.
Proof. intros [? ? ? ?] [? ? ? ?]. split; [congruence|by etrans|congruence|congruence]. Qed.
Lemma took_view ids t t' : took ids t t' -> view t' = view t.
Proof. intros [Hb _ Hw _]. unfold view. by rewrite Hb, Hw. Qed.
Lemma took_shadow ids t t' s : took ids t t' -> shadow t' s = shadow t s.
Proof. intros [_ _ Hw _]. unfold shadow. by rewrite Hw. Qed.

Lemma oks_ro {A} (m : M Txn A) t (Q : A -> Txn -> Prop) :
  reads_only m -> (forall a t', m t = (Ok a, t') -> quiet t t' -> Q a t') -> oks m t Q.
Proof. intros Hm HQ a t' E. apply HQ; [done|]. specialize (Hm t). by rewrite E in Hm. Qed.

(** Where only the state matters. *)
Lemma oks_quiet {A} (m : M Txn A) t (Q : A -> Txn -> Prop) :
  reads_only m -> (forall a t', quiet t t' -> Q a t') -> oks m t Q.
Proof. intros Hm HQ. apply oks_ro; auto. Qed.

Lemma oks_track k t (Q : unit -> Txn -> Prop) :
  (forall t', quiet t t' -> tracked t' k -> Q tt t') -> oks (addReadConflict k) t Q.
Proof.
  intros HQ. unfold addReadConflict. oksteps. apply oks_when; intros Hw; oksteps.
  - apply HQ; [apply quiet_read|]. right. simpl. apply elem_of_app. right. by apply list_elem_of_singleton.
  - apply HQ; [done|]. left. apply negb_false_iff in Hw. by apply bool_decide_eq_true_1 in Hw.
Qed.

Lemma oks_Inode_snapshotLoad id t (Q : option Inode -> Txn -> Prop) :
  Q (mkInode id <$> fs_inodes (view t) !! id) t -> oks (Inode_snapshotLoad id) t Q.
Proof. intros HQ. unfold Inode_snapshotLoad. by okstep. Qed.

Lemma oks_Inode_load id t (Q : option Inode -> Txn -> Prop) :
  (forall t', quiet t t' -> tracked t' (KInode id) -> Q (mkInode id <$> fs_inodes (view t) !! id) t') -> oks (Inode_load id) t Q.
Proof.
  intros HQ. unfold Inode_load. apply oks_bind, oks_track. intros t' Hq Ht. apply oks_Inode_snapshotLoad.
  rewrite (quiet_view _ _ Hq). auto.
Qed.

Lemma oks_DirEntry_snapshotLoad p n t (Q : option DirEntry -> Txn -> Prop) :
  Q (mkDirEntry p n <$> fs_entries (view t) !! (p, n)) t -> oks (DirEntry_snapshotLoad p n) t Q.
Proof. intros HQ. unfold DirEntry_snapshotLoad. by oksteps. Qed.

Lemma oks_DirEntry_load p n t (Q : option DirEntry -> Txn -> Prop) :
  (forall t', quiet t t' -> tracked t' (KEntry p n) -> Q (mkDirEntry p n <$> fs_entries (view t) !! (p, n)) t') -> oks (DirEntry_load p n) t Q.
Proof.
  intros HQ. unfold DirEntry_load. okstep. okstep. apply oks_bind, oks_track. intros t' Hq Ht. apply oks_DirEntry_snapshotLoad.
  rewrite (quiet_view _ _ Hq). auto.
Qed.

Lemma oks_DirEntry_checkExist p n t (Q : bool -> Txn -> Prop) :
  (forall t', quiet t t' -> tracked t' (KEntry p n) -> Q (bool_decide (is_Some (fs_entries (view t) !! (p, n)))) t') ->
  oks (DirEntry_checkExist p n) t Q.
Proof.
  intros HQ. unfold DirEntry_checkExist. apply oks_bind, oks_DirEntry_load. intros t' Hq Ht. apply oks_ret.
  specialize (HQ t' Hq Ht). destruct (fs_entries (view t) !! (p, n)); exact HQ.
Qed.

Lemma oks_snapshotLoadInode e t (Q : Inode -> Txn -> Prop) :
  (forall x, fs_inodes (view t) !! e_id e = Some x -> getType x = e_type e -> Q (mkInode (e_id e) x) t) ->
  oks (DirEntry_snapshotLoadInode e) t Q.
Proof.
  intros HQ. unfold DirEntry_snapshotLoadInode. apply oks_bind, oks_Inode_snapshotLoad. okstep.
  destruct (fs_inodes (view t) !! e_id e) as [x|] eqn:Hx; simpl in *; repeat case_match; simplify_eq.
  apply HQ; [done|]. by eapply bool_decide_eq_true_1.
Qed.

Lemma oks_loadInode e t (Q : Inode -> Txn -> Prop) :
  (forall x t', quiet t t' -> tracked t' (KInode (e_id e)) -> fs_inodes (view t) !! e_id e = Some x -> getType x = e_type e ->
     Q (mkInode (e_id e) x) t') ->
  oks (DirEntry_loadInode e) t Q.
Proof.
  intros HQ. unfold DirEntry_loadInode. apply oks_bind, oks_Inode_load. intros t' Hq Ht. okstep.
  destruct (fs_inodes (view t) !! e_id e) as [x|] eqn:Hx; simpl in *; repeat case_match; simplify_eq.
  apply HQ; [done|done|done|]. by eapply bool_decide_eq_true_1.
Qed.

Lemma checkMetaFound_inv {A} (v : option A) a : checkMetaFound v = Ok a -> v = Some a.
Proof. unfold checkMetaFound. destruct v; congruence. Qed.

Lemma oks_Inode_store i t (Q : unit -> Txn -> Prop) :
  Q tt (add_write (WInode (i_id i) (Some (i_data i))) t) -> oks (Inode_store i) t Q.
Proof. intros HQ. unfold Inode_store. by oksteps. Qed.

Lemma oks_Inode_remove i t (Q : unit -> Txn -> Prop) :
  (isTreeRoot (i_id i) = false -> isImmutable (in_acl (i_data i)) = false -> Q tt (add_write (WInode (i_id i) None) t)) ->
  oks (Inode_remove i) t Q.
Proof. intros HQ. unfold Inode_remove. oksteps. auto. Qed.

Lemma oks_DirEntry_store e t (Q : unit -> Txn -> Prop) :
  (checkName (e_name e) = true -> isTreeRoot (e_id e) = false ->
   Q tt (add_write (WEntry (e_parent e) (e_name e) (Some (e_data e))) t)) ->
  oks (DirEntry_store e) t Q.
Proof. intros HQ. unfold DirEntry_store. oksteps. apply HQ; [by apply negb_false_iff|done]. Qed.

Lemma oks_DirEntry_remove e t (Q : unit -> Txn -> Prop) :
  (checkName (e_name e) = true -> Q tt (add_write (WEntry (e_parent e) (e_name e) None) t)) -> oks (DirEntry_remove e) t Q.
Proof. intros HQ. unfold DirEntry_remove. oksteps. apply HQ. by apply negb_false_iff. Qed.

Lemma oks_ask {A} (f : nat -> A) t (Q : A -> Txn -> Prop) :
  (forall n t', quiet t t' -> Q (f n) t') -> oks (ask f) t Q.
Proof. intros HQ. unfold ask. oksteps. apply HQ, quiet_tick. Qed.

Lemma oks_allocateInodeId {HEnv : FsEnv} cfg b t (Q : InodeId -> Txn -> Prop) :
  (forall id t', took [id] t t' -> Q id t') -> oks (allocateInodeId cfg b) t Q.
Proof.
  intros HQ. unfold allocateInodeId. apply oks_bind, oks_ask. intros n t1 H1. do 4 okstep. set (id := if b then _ else _).
  apply oks_bind. assert (Ht : took [id] t (add_id id t1)).
  { eapply quiet_took; [done|]. split; [done|exists []; by rewrite app_nil_r|done|done]. }
  apply oks_quiet.
  - ro.
  - intros _ t2 H2. apply oks_ret, HQ. by eapply took_quiet.
Qed.

(** ** Lists of entries *)

Lemma elem_of_listing s p e : e ∈ listing s p <-> e_parent e = p /\ fs_entries s !! (p, e_name e) = Some (e_data e).
Proof.
  unfold listing. rewrite list_elem_of_fmap. split.
  - intros ([n d] & -> & Hin). rewrite merge_sort_Permutation in Hin.
    apply list_elem_of_omap in Hin as ([[q m] d'] & Hin & Hs). simpl in *. case_decide; simplify_eq. split; [done|].
    by apply elem_of_map_to_list in Hin.
  - intros [Hp He]. exists (e_name e, e_data e). split; [destruct e; simpl in *; congruence|].
    rewrite merge_sort_Permutation. apply list_elem_of_omap. exists ((p, e_name e), e_data e).
    split; [by apply elem_of_map_to_list|]. simpl. by rewrite decide_True.
Qed.

Lemma NoDup_listing s p : NoDup (e_name <$> listing s p).
Proof.
  unfold listing. rewrite <- list_fmap_compose. rewrite merge_sort_Permutation.
  assert (Hd : forall l : list ((InodeId * string) * DirEntryData), NoDup (l.*1) ->
    NoDup ((e_name ∘ (fun nd => mkDirEntry p nd.1 nd.2)) <$>
           omap (fun kv : (InodeId * string) * DirEntryData => if decide (kv.1.1 = p) then Some (kv.1.2, kv.2) else None) l));
    [|apply Hd, NoDup_fst_map_to_list].
  intros l. induction l as [|[[q m] d] l IH]; simpl; [constructor|]. intros [Hn Hl]%NoDup_cons. case_decide as Hq; [|auto].
  simpl. apply NoDup_cons. split; [|auto]. intros Hin. apply Hn.
  apply list_elem_of_fmap in Hin as ([m' d'] & Hm & Hin). simpl in Hm, Hq. subst.
  apply list_elem_of_omap in Hin as ([[q' m''] d''] & Hin & Hs). simpl in *. case_decide; simplify_eq.
  apply list_elem_of_fmap. eexists. by split; [|exact Hin].
Qed.

Lemma ltb_empty n : n <> "" -> String.ltb "" n = true.
Proof. by destruct n. Qed.

Lemma leb_trans a b c : String.leb a b = true -> String.leb b c = true -> String.leb a c = true.
Proof.
  unfold String.leb. revert b c. induction a as [|x a IH]; intros [|y b] [|z c]; simpl; try done.
  unfold Ascii.compare. destruct (N.compare_spec (N_of_ascii x) (N_of_ascii y)) as [Hxy|Hxy|Hxy]; try done;
    destruct (N.compare_spec (N_of_ascii y) (N_of_ascii z)) as [Hyz|Hyz|Hyz]; try done;
    destruct (N.compare_spec (N_of_ascii x) (N_of_ascii z)) as [Hxz|Hxz|Hxz]; try done; try lia. apply IH.
Qed.
#[local] Instance name_le_trans : Transitive name_le.
Proof. intros a b c. apply leb_trans. Qed.
#[local] Instance name_le_total : Total name_le.
Proof. intros a b. apply String.leb_total. Qed.

(** Listings are in the order of the names. *)
Definition names_sorted (l : list DirEntry) : Prop := StronglySorted (fun a b => String.leb (e_name a) (e_name b) = true) l.
Lemma listing_sorted s p : names_sorted (listing s p).
Proof.
  unfold listing. assert (Hs : forall l, StronglySorted name_le l -> names_sorted ((fun nd => mkDirEntry p nd.1 nd.2) <$> l)).
  { induction 1 as [|a l Hl IH Ha]; constructor; [done|]. apply Forall_fmap. eapply Forall_impl; [exact Ha|]. done. }
  apply Hs, StronglySorted_merge_sort; apply _.
Qed.
Lemma names_sorted_filter (P : DirEntry -> Prop) `{!forall e, Decision (P e)} l : names_sorted l -> names_sorted (filter P l).
Proof.
  induction 1 as [|a l Hl IH Ha]; [constructor|]. rewrite filter_cons. case_decide; [|done]. constructor; [done|].
  rewrite Forall_forall in Ha |- *. intros e [_ He]%list_elem_of_filter. auto.
Qed.
Lemma names_sorted_last k l e z : names_sorted l -> e ∈ take k l -> last (take k l) = Some z -> String.leb (e_name e) (e_name z) = true.
Proof.
  intros Hs. revert k. induction Hs as [|a l Hl IH Ha]; intros k He Hz; [by rewrite take_nil in He; apply elem_of_nil in He|].
  destruct k as [|k]; [by apply elem_of_nil in He|]. simpl in *.
  assert (Hrefl : forall n, String.leb n n = true) by (intros n; destruct (String.leb_total n n); done).
  destruct (take k l) as [|b r] eqn:E.
  - apply list_elem_of_singleton in He. simpl in Hz. injection Hz as <-. rewrite He. apply Hrefl.
  - rewrite last_cons_cons in Hz. rewrite <- E in *. apply elem_of_cons in He as [->|He]; [|by eapply IH].
    rewrite Forall_forall in Ha. apply Ha. apply last_Some_elem_of in Hz. rewrite <- (take_drop k l). apply elem_of_app. by left.
Qed.

(** What a page of a listing says of the store in which the transaction
    commits. *)
Lemma oks_DirEntryList_load p limit t (Q : list DirEntry * bool -> Txn -> Prop) :
  (forall es more t', quiet t t' -> NoDup (e_name <$> es) ->
     (forall s e, commits t' s = true -> e ∈ es -> fs_entries (shadow t' s) !! (p, e_name e) = Some (e_data e)) ->
     (more = false -> forall s n, commits t' s = true -> n <> "" -> n ∉ e_name <$> es -> fs_entries (shadow t' s) !! (p, n) = None) -> Q (es, more) t') ->
  oks (DirEntryList_load p "" limit) t Q.
Proof.
  intros HQ. unfold DirEntryList_load, DirEntryList_snapshotLoad. oksteps. set (r := list_range _ _ _ _).
  set (l := filter (fun e => String.ltb "" (e_name e) = true) (listing (view t) p)). set (k := default_limit limit).
  assert (Hl : names_sorted l) by apply names_sorted_filter, listing_sorted.
  assert (Hin : forall e, e ∈ take k l -> e ∈ l) by (intros e He; rewrite <- (take_drop k l); apply elem_of_app; by left).
  set (t' := add_read _ t). assert (H1 : quiet t t') by apply quiet_read.
  assert (Hr : range_read p "" r ∈ tx_reads t') by (apply elem_of_app; right; by apply list_elem_of_singleton).
  clearbody t'. destruct r as [es more] eqn:Er. injection Er as <- <-. apply HQ; [done| | |].
  - apply (sublist_NoDup _ (e_name <$> listing (view t) p)); [apply NoDup_listing|].
    apply fmap_sublist. etrans; [apply sublist_take|apply sublist_filter].
  - intros s e Hc He. apply Hin in He as He'. apply list_elem_of_filter in He' as [Hlt [_ He']%elem_of_listing].
    rewrite <- He', <- (quiet_view _ _ H1). eapply tracked_range; [done|exact Hr|]. unfold name_between. rewrite Hlt. simpl. fold l. fold k.
    match goal with |- context [if ?b then _ else None] => destruct b end; [|done]. destruct (last (take k l)) as [z|] eqn:Hz; [|done]. simpl. by eapply names_sorted_last.
  - intros Hmore s n Hc Hn Hnin. apply bool_decide_eq_false_1 in Hmore. rewrite (tracked_range t' s p "" None); [|done| |unfold name_between; by rewrite ltb_empty].
    + rewrite (quiet_view _ _ H1). destruct (fs_entries (view t) !! (p, n)) as [d|] eqn:Hd; [|done]. destruct Hnin.
      apply list_elem_of_fmap. exists (mkDirEntry p n d). split; [done|]. rewrite take_ge by (unfold l, k; lia).
      apply list_elem_of_filter. split; [by apply ltb_empty|]. apply elem_of_listing. by split.
    + unfold range_read in Hr. simpl in Hr. rewrite bool_decide_eq_false_2 in Hr by done. done.
Qed.

Lemma oks_checkEmpty p t (Q : bool -> Txn -> Prop) :
  (forall t', quiet t t' -> RC_Entries p "" None ∈ tx_reads t' -> (forall n, n <> "" -> fs_entries (view t) !! (p, n) = None) -> Q true t') ->
  (forall t', quiet t t' -> Q false t') -> oks (checkEmpty p) t Q.
Proof.
  intros H1 H2. unfold checkEmpty, DirEntryList_load, DirEntryList_snapshotLoad. oksteps.
  set (r := list_range _ _ _ _). destruct (bool_decide (r.1 = []) && negb r.2) eqn:Hb; [|apply H2, quiet_read].
  apply andb_true_iff in Hb as [Ha Hb]. apply bool_decide_eq_true_1 in Ha. apply negb_true_iff in Hb.
  apply H1; [apply quiet_read| |].
  - simpl. apply elem_of_app. right. apply list_elem_of_singleton. unfold range_read. by rewrite Hb.
  - intros n Hn. unfold r, list_range in Ha. simpl in Ha.
    set (l := filter _ (listing (view t) p)) in Ha. assert (Hl : l = []) by (by destruct l).
    destruct (fs_entries (view t) !! (p, n)) as [d|] eqn:Hd; [|done]. exfalso.
    assert (Hin : mkDirEntry p n d ∈ l); [|rewrite Hl in Hin; by apply elem_of_nil in Hin].
    apply list_elem_of_filter. split; [by apply ltb_empty|]. apply elem_of_listing. by split.
Qed.
