(* ===== verification/FsResolved.v ===== *)
(** * What path resolution finds

    From a start outside the garbage, resolution stays outside it, changes
    nothing of the transaction but caches and clocks, and its result is an
    entry of the snapshot or a name that the snapshot does not have. *)

From Stdlib Require Import ZArith Lia String Ascii.
From stdpp Require Import base gmap list strings.
From S2P Require Import Prelude StatusCode MgmtdTypes FsTypes FsTxn FsResolve FsGc FsNamespace FsMoves FsTracked.

Section resolved.
Context {HEnv : FsEnv} (cfg : FsConfig) (G : gset InodeId).

(** ** Results *)

Definition real (v : FsStore) (e : DirEntry) : Prop := fs_entries v !! (e_parent e, e_name e) = Some (e_data e) /\ public G (e_parent e).

(** An entry of the store, or one of the two that every directory has. *)
Definition entry_ok (v : FsStore) (e : DirEntry) : Prop :=
  public G (e_id e) /\ (real v e \/ checkName (e_name e) = false /\ e_type e = IT_Directory).

Definition info_ok (v : FsStore) (p : ParentInfo) : Prop :=
  match p with PI_Inode i => fs_inodes v !! i_id i = Some (i_data i) | _ => True end.

Record at_name (v : FsStore) (r : ResolveResult) (c : string) : Prop := {
  an_public : public G (parent_id (rr_parent r));
  an_info : info_ok v (rr_parent r);
  an_entry : match rr_dirEntry r with
             | None => fs_entries v !! (parent_id (rr_parent r), c) = None
             | Some e => e_parent e = parent_id (rr_parent r) /\ e_name e = c /\ entry_ok v e
             end
}.

(** ** Outside the garbage *)

Lemma public_root v : NS G v -> public G InodeId_root.
Proof. intros HN. split; [|done]. intros Hg. by destruct (ns_gcdirs _ _ HN _ Hg). Qed.

Lemma public_entry v p n e : NS G v -> fs_entries v !! (p, n) = Some e -> public G p -> public G (de_id e).
Proof.
  intros HN He [HpG Hpr]. split.
  - intros Hg. destruct (ns_gcdirs _ _ HN _ Hg) as (_ & Hp & _). by pose proof (ns_dirlink _ _ HN _ _ _ _ He HpG Hp).
  - intros Hi. pose proof (ns_notroot _ _ HN _ _ He) as Hr. by rewrite Hi in Hr.
Qed.

Lemma public_parent v id q : NS G v -> parent_of v id = Some q -> public G id -> public G q.
Proof.
  intros HN Hq [HG Hr]. destruct (isTreeRoot id) eqn:Ht; [|by eapply ns_public].
  unfold isTreeRoot in Ht. assert (id = InodeId_root) as -> by lia.
  rewrite (ns_root _ _ HN) in Hq. simplify_eq. by eapply public_root.
Qed.

Lemma entry_ok_real v p n d : NS G v -> fs_entries v !! (p, n) = Some d -> public G p -> entry_ok v (mkDirEntry p n d).
Proof. intros HN Hd Hp. split; [by eapply public_entry|]. left. by split. Qed.

(** ** Access rights *)

Lemma ro_AclCache_get id ttl : reads_only (AclCache_get id ttl).
Proof. unfold AclCache_get. ro. Qed.
Lemma ro_AclCache_set id acl : reads_only (AclCache_set id acl).
Proof. unfold AclCache_set. ro. Qed.
#[local] Hint Resolve ro_AclCache_get ro_AclCache_set : ro.

Lemma ro_loadParentAcl p time : reads_only (loadParentAcl p time).
Proof. unfold loadParentAcl. ro. Qed.
#[local] Hint Resolve ro_loadParentAcl : ro.
Lemma ro_loadAndCheckParentAcl user p time : reads_only (loadAndCheckParentAcl user p time).
Proof. unfold loadAndCheckParentAcl. ro. Qed.
Lemma ro_getParentInode r : reads_only (getParentInode r).
Proof. unfold getParentInode. ro. Qed.

Lemma oks_loadParentAcl p time t :
  oks (loadParentAcl p time) t (fun info t' => quiet t t' /\ parent_id info = ref_id p /\ info_ok (view t) info).
Proof.
  unfold loadParentAcl. apply oks_bind.
  apply (oks_rel _ _ (fun info t' => quiet t t' /\ parent_id info = ref_id p /\ info_ok (view t) info)).
  2: { intros info t' H. by oksteps. }
  destruct p as [id|e].
  - destruct (id =? InodeId_root) eqn:Hr; [apply oks_ret; apply Z.eqb_eq in Hr as ->; done|].
    apply oks_bind, oks_quiet; [ro|]. intros [acl|] t1 H1; [by apply oks_ret|].
    apply oks_bind, oks_Inode_snapshotLoad. okstep. okstep.
    match goal with H : checkMetaFound _ = Ok _ |- _ => apply checkMetaFound_inv in H; rename H into Hi end.
    apply fmap_Some in Hi as (x & Hx & ->). apply oks_bind, oks_quiet; [ro|]. intros _ t2 H2. apply oks_ret. simpl.
    rewrite <- (quiet_view _ _ H1). split; [by etrans|done].
  - apply oks_bind, oks_quiet; [ro|]. intros _ t1 H1. by apply oks_ret.
Qed.

Lemma oks_loadAndCheckParentAcl user p time t :
  oks (loadAndCheckParentAcl user p time) t (fun info t' => quiet t t' /\ parent_id info = ref_id p /\ info_ok (view t) info).
Proof.
  unfold loadAndCheckParentAcl. apply oks_bind. eapply oks_rel; [apply oks_loadParentAcl|]. intros info t1 H. by oksteps.
Qed.

(** The parent as its inode. *)
Lemma oks_getParentInode r t (Q : Inode -> Txn -> Prop) :
  info_ok (view t) (rr_parent r) ->
  (forall i, i_id i = parent_id (rr_parent r) -> fs_inodes (view t) !! i_id i = Some (i_data i) -> Q i t) ->
  oks (getParentInode r) t Q.
Proof.
  intros Hok HQ. unfold getParentInode. destruct (rr_parent r) as [id acl|i|e]; simpl in *.
  - apply oks_bind, oks_Inode_snapshotLoad. okstep.
    match goal with H : checkMetaFound _ = Ok _ |- _ => apply checkMetaFound_inv in H; rename H into Hi end.
    apply fmap_Some in Hi as (x & Hx & ->). by apply HQ.
  - apply oks_ret. by apply HQ.
  - apply oks_snapshotLoadInode. intros x Hx _. by apply HQ.
Qed.

(** ** Walking *)

Definition calm (s s' : Resolver) : Prop := quiet (rs_txn s) (rs_txn s').

#[local] Instance calm_preorder : PreOrder calm.
Proof. unfold calm. split; [by intros s|]. intros s1 s2 s3. by apply transitivity. Qed.

Section walk.
Context (user : UserInfo) (v : FsStore) (HN : NS G v).

Lemma oks_pathComponent parent name s :
  view (rs_txn s) = v -> public G (ref_id parent) ->
  oks (pathComponent cfg user parent name) s (fun r s' => calm s s' /\ at_name v r name /\ (name = "." -> is_Some (rr_dirEntry r))).
Proof.
  intros Hv Hp. unfold pathComponent, trace_with. okstep. okstep. apply oks_bind. unfold in_txn at 1. apply oks_zoom. simpl.
  eapply oks_rel; [apply oks_loadAndCheckParentAcl|]. rewrite Hv. intros info t1 (Hq & Hid & Hok).
  case_bool_decide as Hdot; [|case_bool_decide as Hdot2].
  - unfold in_txn. okstep. apply oks_zoom. okstep. apply oks_ret. split; [exact Hq|]. split; [|by eexists]. split; simpl; [congruence|done|].
    subst name. split; [done|]. split; [done|]. split; [done|]. by right.
  - apply oks_bind. apply (oks_rel _ _ (fun i s' => calm s s' /\ i_id i = ref_id parent /\ fs_inodes v !! i_id i = Some (i_data i))).
    + assert (Hload : forall i, parent_id info = i -> oks (in_txn (loaded ← Inode_snapshotLoad (parent_id info); lift (checkMetaFound loaded)))
                {| rs_txn := t1; rs_depth := rs_depth s; rs_symlinkCnt := rs_symlinkCnt s;
                   rs_trace := (fun tr => (if ref_id parent =? InodeId_root then ["/"] else tr) ++ [name]) <$> rs_trace s |}
                (fun i s' => calm s s' /\ i_id i = ref_id parent /\ fs_inodes v !! i_id i = Some (i_data i))).
      { intros i Hi. unfold in_txn. apply oks_zoom, oks_bind, oks_Inode_snapshotLoad. okstep. simpl.
        match goal with H : checkMetaFound _ = Ok _ |- _ => apply checkMetaFound_inv in H; rename H into Hx end.
        apply fmap_Some in Hx as (x & Hx & ->). simpl in *. rewrite (quiet_view _ _ Hq), Hv in Hx. by rewrite <- Hid. }
      destruct info as [id acl|i|e]; [by eapply Hload| |by eapply Hload]. by apply oks_ret.
    + intros i s1 (Hc & Hi & Hx). unfold in_txn. okstep. apply oks_zoom. okstep.
      match goal with H : asDirectory _ = Ok ?x |- _ => rename x into d; rename H into Hd end.
      apply oks_ret. split; [by destruct s1|]. split; [|by eexists].
      split; simpl; [congruence|done|]. subst name. split; [done|]. split; [done|]. split; [|by right].
      apply (public_parent v (ref_id parent)); [done| |done]. unfold parent_of. rewrite <- Hi, Hx. simpl.
      unfold asDirectory in Hd. unfold as_dir. destruct (in_type (i_data i)); simplify_eq/=. done.
  - apply oks_bind. unfold in_txn. apply oks_zoom, oks_DirEntry_snapshotLoad. simpl. apply oks_ret. split; [exact Hq|]. split; [|done].
    rewrite (quiet_view _ _ Hq), Hv. split; simpl; [congruence|done|].
    destruct (fs_entries v !! (ref_id parent, name)) as [d|] eqn:Hd; simpl; [|congruence]. rewrite Hid.
    split; [done|]. split; [done|]. by apply entry_ok_real.
Qed.

(** What a walk over [comps] gives: the last component, or the first that is
    missing. *)
Definition walked (comps : list string) (rm : ResolveResult * list string) : Prop :=
  exists c, at_name v (fst rm) c /\
    (snd rm = [] /\ is_Some (rr_dirEntry (fst rm)) /\ (last comps = Some c \/ last comps = Some "/") \/
     exists rest, snd rm = c :: rest /\ rr_dirEntry (fst rm) = None /\ last (c :: rest) = last comps).

Section range.
Context (symlink : DirEntry -> M Resolver ResolveResult).
Context (Hsymlink : forall e s, real v e -> view (rs_txn s) = v ->
  oks (symlink e) s (fun r s' => calm s s' /\ exists c, at_name v r c)).

Lemma calm_view s s' : calm s s' -> view (rs_txn s') = view (rs_txn s).
Proof. apply quiet_view. Qed.

Lemma oks_walk parent comps s :
  view (rs_txn s) = v -> public G (ref_id parent) ->
  oks (walk cfg user symlink parent comps) s (fun rm s' => calm s s' /\ walked comps rm).
Proof.
  revert parent s. induction comps as [|c rest IH]; intros parent s Hv Hp; simpl.
  { by intros a t' [=]. }
  assert (Hlast : rest <> [] -> last (c :: rest) = last rest) by (by destruct rest).
  case_bool_decide as Hdot.
  - destruct rest as [|c' rest'].
    + apply oks_bind. eapply oks_rel; [by apply oks_pathComponent|]. intros r s1 (Hc & Hr & Hs). apply oks_ret. split; [done|].
      exists ".". split; [done|]. subst c. left. split_and!; [done|auto|by left].
    + eapply oks_rel; [by apply IH|]. intros rm s1 (Hc & c0 & Hr & Hor). split; [done|]. exists c0. split; [done|]. by rewrite Hlast.
  - apply oks_bind. eapply oks_rel; [by apply oks_pathComponent|]. intros r s1 (Hc & Hr & _).
    pose proof (an_entry _ _ _ Hr) as He. destruct (rr_dirEntry r) as [e|] eqn:Hre.
    2: { apply oks_ret. split; [done|]. exists c. split; [done|]. right. exists rest. done. }
    destruct rest as [|c' rest'].
    { apply oks_ret. split; [done|]. exists c. split; [done|]. left. split_and!; [done|simpl; rewrite Hre; by eexists|by left]. }
    destruct He as (Hep & Hen & Hok). apply oks_bind.
    apply (oks_rel _ _ (fun e' s' => calm s s' /\ public G (e_id e'))).
    + destruct (e_type e) eqn:Ht; [by apply oks_ret; destruct Hok|by apply oks_ret; destruct Hok|].
      apply oks_bind. eapply oks_rel.
      * apply Hsymlink; [|by rewrite (calm_view _ _ Hc)]. destruct Hok as [_ [|[_ Hd]]]; [done|congruence].
      * intros r' s2 (Hc2 & c2 & Hr2). pose proof (an_entry _ _ _ Hr2) as He2. destruct (rr_dirEntry r'); [|apply oks_fail].
        apply oks_ret. split; [by etrans|]. by destruct He2 as (_ & _ & [? _]).
    + intros e' s2 (Hc2 & He'). assert (Hw : oks (walk cfg user symlink (PR_Entry e') (c' :: rest')) s2
          (fun rm s' => calm s s' /\ walked (c :: c' :: rest') rm)).
      { eapply oks_rel; [apply IH; [by rewrite (calm_view _ _ Hc2)|done]|]. intros rm s3 (Hc3 & c0 & Hr0 & Hor).
        split; [by etrans|]. exists c0. split; [done|]. by rewrite Hlast. }
      destruct (e_type e'); [apply oks_fail|exact Hw|exact Hw].
Qed.

Lemma oks_pathRange parent comps s :
  view (rs_txn s) = v -> public G parent ->
  oks (pathRange cfg user symlink parent comps) s (fun rm s' => calm s s' /\ walked comps rm).
Proof.
  intros Hv Hp. unfold pathRange. destruct comps as [|c rest]; [apply oks_fail|]. case_bool_decide as Hc; [|by apply oks_walk].
  subst c. destruct rest as [|c' rest'].
  - unfold trace_with. okstep. okstep. apply oks_ret. split; [done|]. exists ".". split.
    + split; simpl; [by eapply public_root|done|]. split; [done|]. split; [done|]. split; [by eapply public_root|]. by right.
    + left. simpl. split_and!; [done|by eexists|by right].
  - eapply oks_rel; [apply oks_walk; [done|by eapply public_root]|]. done.
Qed.

Lemma oks_path_from parent comps s :
  view (rs_txn s) = v -> public G parent ->
  oks (path_from cfg user symlink parent comps) s
    (fun r s' => calm s s' /\ exists c, at_name v r c /\ (last comps = Some c \/ last comps = Some "/")).
Proof.
  intros Hv Hp. unfold path_from. apply oks_bind. eapply oks_rel; [by apply oks_pathRange|].
  intros [r missing] s1 (Hc & c & Hr & Hor). simpl in *.
  destruct Hor as [(-> & _ & Hl)|(rest & -> & _ & Hl)].
  - apply oks_ret. eauto.
  - destruct rest; [|apply oks_fail]. apply oks_ret. split; [done|]. exists c. split; [done|]. by left.
Qed.
End range.

Lemma oks_symlink_loop fuel e s :
  real v e -> view (rs_txn s) = v -> oks (symlink_loop cfg user fuel e) s (fun r s' => calm s s' /\ exists c, at_name v r c).
Proof.
  revert e s. induction fuel as [|fuel IH]; intros e s He Hv; simpl; [by intros a t' [=]|].
  unfold symlink_count. do 5 okstep. apply oks_err_if. intros _. apply oks_bind. unfold in_txn. apply oks_zoom.
  apply oks_quiet; [unfold loadSymLinkTarget; ro|]. intros target t1 H1. unfold trace_with. do 2 okstep. apply oks_bind.
  eapply oks_rel.
  - apply oks_path_from; [|simpl; by rewrite (quiet_view _ _ H1)|by destruct He].
    intros e' s' He' Hv'. unfold symlink_enter, symlink_leave. do 5 okstep. apply oks_err_if. intros _. apply oks_bind.
    eapply oks_rel; [by apply IH|]. intros r s2 (Hc & Hr). do 2 okstep. by apply oks_ret.
  - intros r s2 (Hc & c & Hr & _). assert (Hc' : calm s s2) by (unfold calm in *; simpl in *; by etrans).
    pose proof (an_entry _ _ _ Hr) as Hre. destruct (rr_dirEntry r) as [e2|] eqn:E; [|apply oks_ret; eauto].
    case_bool_decide as Ht; [|apply oks_ret; eauto]. destruct Hre as (_ & _ & _ & [Hreal|[_ Hd]]); [|congruence].
    eapply oks_rel; [apply IH; [done|by rewrite (calm_view _ _ Hc')]|]. intros r' s3 (Hc3 & Hr3). split; [by etrans|done].
Qed.

Lemma oks_symlink e s :
  real v e -> view (rs_txn s) = v -> oks (symlink cfg user e) s (fun r s' => calm s s' /\ exists c, at_name v r c).
Proof.
  intros He Hv. unfold symlink, symlink_enter, symlink_leave. do 5 okstep. apply oks_err_if. intros _. apply oks_bind.
  eapply oks_rel; [by apply oks_symlink_loop|]. intros r s1 (Hc & Hr). do 2 okstep. by apply oks_ret.
Qed.

Lemma oks_path_follow parent comps follow s :
  view (rs_txn s) = v -> public G parent ->
  oks (path_follow cfg user parent comps follow) s
    (fun r s' => calm s s' /\ exists c, at_name v r c /\ (follow = false -> last comps = Some c \/ last comps = Some "/")).
Proof.
  intros Hv Hp. unfold path_follow. apply oks_bind. eapply oks_rel; [apply oks_path_from; [apply oks_symlink|done|done]|].
  intros r s1 (Hc & c & Hr & Hl). pose proof (an_entry _ _ _ Hr) as He. destruct (rr_dirEntry r) as [e|] eqn:E; [|apply oks_ret; eauto 6].
  destruct (follow && bool_decide (e_type e = IT_Symlink)) eqn:Hf; [|apply oks_ret; eauto 6].
  apply andb_true_iff in Hf as [-> Ht]. apply bool_decide_eq_true_1 in Ht.
  destruct He as (_ & _ & _ & [Hreal|[_ Hd]]); [|congruence].
  eapply oks_rel; [apply oks_symlink; [done|by rewrite (calm_view _ _ Hc)]|]. intros r' s2 (Hc2 & c2 & Hr2).
  split; [by etrans|]. by exists c2.
Qed.
End walk.

(** ** The interface *)

Lemma oks_resolving {A} trace (m : M Resolver A) t (Q : A -> Resolver -> Prop) (R : A * option Path -> Txn -> Prop) :
  oks m (mkResolver t 0 0 trace) Q -> (forall a s, Q a s -> R (a, rs_trace s) (rs_txn s)) -> oks (resolving trace m) t R.
Proof.
  intros Hm HR [a tr] t'. unfold resolving. destruct (m _) as [[b|c| |] s] eqn:E; simpl; intros [= <- <- <-].
  apply HR. by apply Hm.
Qed.

Lemma oks_resolve_path user p flags t :
  NS G (view t) -> public G (pa_parent p) ->
  oks (resolve_path cfg user p flags) t
    (fun r t' => quiet t t' /\ exists c, at_name (view t) r c /\
       (followLastSymlink flags = false -> filename (default [] (pa_path p)) = c \/ filename (default [] (pa_path p)) = "/")).
Proof.
  intros HN Hp. unfold resolve_path. destruct (pa_path p) as [comps|]; [|apply oks_fail]. apply oks_bind.
  eapply oks_resolving; [by apply (oks_path_follow user (view t))|]. intros r s (Hc & c & Hr & Hl). apply oks_ret.
  split; [done|]. exists c. split; [done|]. simpl. unfold filename. intros Hf. destruct (Hl Hf) as [->| ->]; auto.
Qed.

Lemma oks_resolve_dirEntry_traced tr user p flags t :
  NS G (view t) -> public G (pa_parent p) ->
  oks (resolve_dirEntry_traced cfg tr user p flags) t (fun r t' => quiet t t' /\ entry_ok (view t) (fst r)).
Proof.
  intros HN Hp. unfold resolve_dirEntry_traced. destruct (pa_path p) as [comps|]; [|apply oks_fail]. apply oks_bind.
  eapply oks_resolving; [by apply (oks_path_follow user (view t))|]. intros r s (Hc & c & Hr & _).
  pose proof (an_entry _ _ _ Hr) as He. destruct (rr_dirEntry r); [|apply oks_fail]. apply oks_ret. split; [done|]. apply He.
Qed.

Lemma oks_resolve_dirEntry user p flags t :
  NS G (view t) -> public G (pa_parent p) ->
  oks (resolve_dirEntry cfg user p flags) t (fun e t' => quiet t t' /\ entry_ok (view t) e).
Proof.
  intros HN Hp. unfold resolve_dirEntry. apply oks_bind. eapply oks_rel; [by apply oks_resolve_dirEntry_traced|].
  intros [e tr] t' H. by apply oks_ret.
Qed.

Lemma oks_resolve_inode user p flags check t :
  NS G (view t) -> public G (pa_parent p) ->
  oks (resolve_inode cfg user p flags check) t
    (fun i t' => quiet t t' /\ public G (i_id i) /\ fs_inodes (view t) !! i_id i = Some (i_data i) /\ (check = true -> in_nlink (i_data i) <> 0)).
Proof.
  intros HN Hp. unfold resolve_inode. apply oks_bind.
  apply (oks_rel _ _ (fun i t' => quiet t t' /\ public G (i_id i) /\ fs_inodes (view t) !! i_id i = Some (i_data i))).
  - set (b := match pa_path p with None => _ | _ => _ end). destruct b.
    + apply oks_bind, oks_Inode_snapshotLoad. okstep.
      match goal with H : checkMetaFound _ = Ok _ |- _ => apply checkMetaFound_inv in H; rename H into Hx end.
      apply fmap_Some in Hx as (x & Hx & ->). done.
    + apply oks_bind. eapply oks_rel; [by apply oks_resolve_dirEntry|]. intros e t1 (Hq & He). apply oks_snapshotLoadInode.
      intros x Hx _. rewrite (quiet_view _ _ Hq) in Hx. split_and!; [done|by destruct He|done].
  - intros i t1 (Hq & Hi & Hx). okstep. apply oks_err_if. intros Hz. apply oks_ret. split_and!; [done..|].
    intros ->. simpl in Hz. lia.
Qed.

Lemma oks_resolve_pathRange user p t :
  NS G (view t) -> public G (pa_parent p) ->
  oks (resolve_pathRange cfg user p) t
    (fun rm t' => quiet t t' /\ exists c, at_name (view t) (fst rm) c /\
       (snd rm = [] \/ exists rest, snd rm = c :: rest /\ rr_dirEntry (fst rm) = None)).
Proof.
  intros HN Hp. unfold resolve_pathRange. destruct (pa_path p) as [comps|]; [|apply oks_fail]. apply oks_bind.
  eapply oks_resolving; [apply (oks_pathRange user (view t)); [done|by apply oks_symlink|done|done]|].
  intros [r missing] s (Hc & c & Hr & Hor). apply oks_ret. split; [done|]. exists c. split; [done|]. simpl in *.
  destruct Hor as [(-> & _)|(rest & -> & ? & _)]; eauto.
Qed.

(** An inode's own entry. *)
Lemma oks_search fuel p id prev found t :
  (forall e, found = Some e -> fs_entries (view t) !! (p, e_name e) = Some (e_data e) /\ e_parent e = p) ->
  oks (search_entry fuel p id prev found) t
    (fun r t' => quiet t t' /\ forall e, r = Some e -> fs_entries (view t) !! (p, e_name e) = Some (e_data e) /\ e_parent e = p).
Proof.
  revert prev found. induction fuel as [|fuel IH]; intros prev found Hf; simpl; [by intros a t' [=]|].
  apply oks_bind. unfold DirEntryList_snapshotLoad. okstep. set (r := list_range _ _ _ _). destruct r as [es more] eqn:Hr.
  assert (Hes : forall e, e ∈ es -> fs_entries (view t) !! (p, e_name e) = Some (e_data e) /\ e_parent e = p).
  { unfold r, list_range in Hr. simplify_eq. intros e He. apply elem_of_take in He as (i & He & _).
    apply list_elem_of_lookup_2, list_elem_of_filter in He as [_ He]. apply elem_of_listing in He as [? ?]. done. }
  set (found' := match list_find _ es with Some _ => _ | None => _ end).
  assert (Hf' : forall e, found' = Some e -> fs_entries (view t) !! (p, e_name e) = Some (e_data e) /\ e_parent e = p).
  { unfold found'. intros e. destruct (list_find _ es) as [[i e']|] eqn:El; [|auto]. intros [= ->].
    apply list_find_Some in El as (El & _). by apply Hes, list_elem_of_lookup_2 with i. }
  destruct more; [by apply IH|]. by apply oks_ret.
Qed.

Lemma oks_snapshotLoadDirEntry i t :
  oks (Inode_snapshotLoadDirEntry i) t
    (fun e t' => quiet t t' /\ exists d, in_type (i_data i) = IV_Directory d /\ e_parent e = di_parent d /\ e_id e = i_id i /\
       fs_entries (view t) !! (e_parent e, e_name e) = Some (e_data e)).
Proof.
  unfold Inode_snapshotLoadDirEntry. destruct (in_type (i_data i)) as [f|d|l] eqn:Ht; [apply oks_fail| |apply oks_fail].
  apply oks_bind.
  apply (oks_rel _ _ (fun r t' => quiet t t' /\ forall e, r = Some e -> fs_entries (view t) !! (di_parent d, e_name e) = Some (e_data e) /\ e_parent e = di_parent d)).
  - case_bool_decide; [|apply oks_DirEntry_snapshotLoad; split; [done|]].
    + apply oks_bind, oks_getS. by apply oks_search.
    + intros e (x & Hx & ->)%fmap_Some. done.
  - intros [e|] t1 (Hq & He); [|apply oks_fail]. okstep. apply oks_err_if. intros Hid. apply oks_ret. split; [done|]. exists d.
    destruct (He e eq_refl) as [Hx Hp]. apply negb_false_iff, Z.eqb_eq in Hid. by rewrite Hp.
Qed.

Lemma oks_resolve_byDirectoryInodeId id t :
  NS G (view t) -> public G id ->
  oks (resolve_byDirectoryInodeId cfg id) t (fun r t' => quiet t t' /\ exists c, at_name (view t) r c).
Proof.
  intros HN Hp. unfold resolve_byDirectoryInodeId. apply oks_bind, oks_Inode_snapshotLoad. okstep. okstep.
  match goal with H : checkMetaFound _ = Ok _ |- _ => apply checkMetaFound_inv in H; rename H into Hx end.
  apply fmap_Some in Hx as (x & Hx & ->). apply oks_bind. eapply oks_rel; [apply oks_snapshotLoadDirEntry|].
  intros e t1 (Hq & d & Hd & Hep & Hei & He). simpl in *. apply oks_bind. eapply oks_rel; [apply oks_loadParentAcl|].
  intros info t2 (Hq2 & Hpi & Hok). apply oks_ret. rewrite (quiet_view _ _ Hq) in Hok. split; [by etrans|]. exists (e_name e). simpl in Hpi.
  assert (Hpub : public G (e_parent e)).
  { apply (public_parent (view t) id); [done| |done]. unfold parent_of. rewrite Hx. simpl. unfold as_dir. rewrite Hd. simpl. congruence. }
  split; simpl; [congruence|done|]. split; [done|]. split; [done|]. split; [|left; by split]. rewrite Hei. done.
Qed.
End resolved.

#[export] Hint Resolve ro_loadParentAcl ro_loadAndCheckParentAcl ro_getParentInode ro_AclCache_get ro_AclCache_set : ro.

(** * Commits as moves

    [lands]: whenever a transaction commits, in whatever store, the step from
    that store to the one it leaves is a sequence of moves.  First the parts
    that operations share: names of garbage, and [GcManager::removeEntry]. *)

(** ** Names of garbage *)

Lemma append_inj (a b x y : string) : String.length a = String.length b -> a +:+ x = b +:+ y -> a = b /\ x = y.
Proof.
  revert b. induction a as [|c a IH]; intros [|d b]; simpl; try done. intros [= Hl] [= -> H]. by destruct (IH b Hl H) as [-> ->].
Qed.

Lemma length_append (a b : string) : String.length (a +:+ b) = (String.length a + String.length b)%nat.
Proof. induction a as [|c a IH]; simpl; [done|]. by rewrite IH. Qed.

Lemma length_fixed_digits base w n : String.length (fixed_digits base w n) = w.
Proof. revert n. induction w as [|w IH]; intros n; simpl; [done|]. rewrite length_append, IH. simpl. lia. Qed.

Lemma digit_inj a b : 0 <= a < 16 -> 0 <= b < 16 -> digit a = digit b -> a = b.
Proof.
  intros Ha Hb H. apply (f_equal nat_of_ascii) in H. unfold digit in H.
  rewrite !nat_ascii_embedding in H by (repeat case_match; lia). repeat case_match; lia.
Qed.

Lemma fixed_digits_inj base w n m : 1 < base <= 16 -> 0 <= n < base ^ Z.of_nat w -> 0 <= m < base ^ Z.of_nat w ->
  fixed_digits base w n = fixed_digits base w m -> n = m.
Proof.
  intros Hb. revert n m. induction w as [|w IH]; intros n m Hn Hm H; simpl in H; [simpl in *; lia|].
  rewrite Nat2Z.inj_succ, Z.pow_succ_r in Hn, Hm by lia.
  apply append_inj in H as [H1 H2]; [|by rewrite !length_fixed_digits].
  injection H2 as H2. apply digit_inj in H2; [|pose proof (Z.mod_pos_bound n base); lia|pose proof (Z.mod_pos_bound m base); lia].
  apply IH in H1.
  - rewrite (Z.div_mod n base), (Z.div_mod m base) by lia. congruence.
  - split; [apply Z.div_pos; lia|apply Z.div_lt_upper_bound; lia].
  - split; [apply Z.div_pos; lia|apply Z.div_lt_upper_bound; lia].
Qed.

Lemma gc_name_inj n id id' : is_id id -> is_id id' -> gc_name n id -> gc_name n id' -> id = id'.
Proof.
  intros Hi Hi' (c & ts & H) (c' & ts' & H'). rewrite H in H'. unfold formatGcEntry, toHexString in H'.
  apply append_inj in H' as [_ H']; [|done]. apply append_inj in H' as [_ H']; [|by rewrite !length_fixed_digits].
  do 2 (apply append_inj in H' as [_ H']; [|done]). apply fixed_digits_inj in H'; [done|lia|exact Hi|exact Hi'].
Qed.

Section commit.
Context (G : gset InodeId).

(** ** Landing *)

Definition ok_id (id : InodeId) : Prop := isTreeRoot id = false /\ id ∉ G /\ is_id id.

(** The ids the transaction took are unused. *)
Definition unused (s : FsStore) (ids : list InodeId) : Prop := NoDup ids /\ Forall (fun id => ok_id id /\ free s id) ids.

Definition lands_at (s : FsStore) (t t' : Txn) : Prop := forall ids,
  tx_ids t' = tx_ids t ++ ids -> commits t' s = true -> NS G (shadow t s) -> unused (shadow t s) ids ->
  exists ids', ids' ⊆ ids /\ ns_moves G ids' (shadow t s) (shadow t' s).

Definition lands (t t' : Txn) : Prop := grows t t' /\ forall s, lands_at s t t'.

Lemma lands_grows t t' : lands t t' -> grows t t'.
Proof. by intros []. Qed.

Lemma lands_at_same s t t' : shadow t' s = shadow t s -> lands_at s t t'.
Proof. intros H ids _ _ _ _. exists []. split; [apply list_subseteq_nil|]. rewrite H. constructor. Qed.

Lemma quiet_lands t t' : quiet t t' -> lands t t'.
Proof. intros H. split; [by apply quiet_grows|]. intros s. by apply lands_at_same, quiet_shadow. Qed.
Lemma took_lands ids t t' : took ids t t' -> lands t t'.
Proof. intros H. split; [by eapply took_grows|]. intros s. by eapply lands_at_same, took_shadow. Qed.

Lemma unused_app s ids ids' : unused s (ids ++ ids') -> unused s ids /\ unused s ids'.
Proof. intros [(H1 & _ & H2)%NoDup_app [H3 H4]%Forall_app]. done. Qed.

Lemma lands_at_trans s t t1 t2 : grows t t1 -> grows t1 t2 -> lands_at s t t1 -> lands_at s t1 t2 -> lands_at s t t2.
Proof.
  intros G1 G2 L1 L2 ids Hids Hc HN [Hnd Hun]. destruct (gr_ids _ _ G1) as [i1 I1], (gr_ids _ _ G2) as [i2 I2].
  rewrite I2, I1, <- app_assoc in Hids. apply app_inv_head in Hids as <-.
  apply NoDup_app in Hnd as (N1 & Nd & N2). apply Forall_app in Hun as [U1 U2].
  destruct (L1 i1) as (j1 & J1 & M1); [done|by eapply grows_commits|done|by split|].
  destruct (L2 i2) as (j2 & J2 & M2); [done|done|by eapply ns_moves_NS| |].
  - split; [done|]. rewrite Forall_forall in U2 |- *. intros id Hid. destruct (U2 id Hid) as [Hok Hfree]. split; [done|].
    eapply ns_moves_free; [done..|]. intros Hj. apply (Nd id); [by apply J1|done].
  - exists (j1 ++ j2). split; [|by eapply ns_moves_app]. intros id. rewrite !elem_of_app. intros [?|?]; [left|right]; auto.
Qed.

Lemma lands_trans t t1 t2 : lands t t1 -> lands t1 t2 -> lands t t2.
Proof. intros [G1 L1] [G2 L2]. split; [by etrans|]. intros s. by eapply lands_at_trans. Qed.

#[local] Instance lands_preorder : PreOrder lands.
Proof. split; [intros t; by apply quiet_lands|intros t1 t2 t3; apply lands_trans]. Qed.

(** Moves that create nothing. *)
Lemma lands_moves t t' : grows t t' ->
  (forall s, commits t' s = true -> NS G (shadow t s) -> ns_moves G [] (shadow t s) (shadow t' s)) -> lands t t'.
Proof. intros Hg Hm. split; [done|]. intros s ids _ Hc HN _. exists []. split; [apply list_subseteq_nil|auto]. Qed.

(** Only sessions change. *)
Lemma lands_session t i u x : lands t (add_write (WSession i u x) t).
Proof. apply lands_moves; [apply grows_write|]. intros s _ _. rewrite shadow_write. apply ns_moves_one. apply mv_sessions. Qed.

(** ** Removing a name *)

(** The writes of [GcManager::removeEntry]: the entry goes, the inode has a
    link less, and what has no link left is removed or gets a garbage entry. *)
Inductive removal (e : DirEntry) (x : InodeData) : list FsWrite -> Prop :=
| rw_unlink x' : e_type e <> IT_Directory -> in_nlink x <> 1 -> same_place x x' -> in_nlink x' = in_nlink x - 1 ->
    removal e x [WInode (e_id e) (Some x'); WEntry (e_parent e) (e_name e) None]
| rw_unlink_link x' : e_type e = IT_Symlink -> in_nlink x <> 1 -> same_place x x' -> in_nlink x' = in_nlink x - 1 ->
    removal e x [WEntry (e_parent e) (e_name e) None; WInode (e_id e) (Some x')]
| rw_drop : e_type e = IT_Symlink -> in_nlink x = 1 ->
    removal e x [WEntry (e_parent e) (e_name e) None; WInode (e_id e) None]
| rw_trash x' g gn ge : e_type e <> IT_Symlink -> in_nlink x = 1 -> same_place x x' -> in_nlink x' = 0 -> g ∈ G -> gc_name gn (e_id e) ->
    alike (e_data e) ge ->
    removal e x [WInode (e_id e) (Some x'); WEntry (e_parent e) (e_name e) None; WEntry g gn (Some ge)].

Lemma gc_name_free s p n e x g gn : NS G s -> name_of G s p n e x -> g ∈ G -> gc_name gn (de_id e) -> fs_entries s !! (g, gn) = None.
Proof.
  intros HN Hname Hg Hgn. destruct (name_of_nlink G _ _ _ _ _ HN Hname) as (_ & _ & _ & _ & HG).
  destruct (fs_entries s !! (g, gn)) as [e'|] eqn:He; [|done]. exfalso. apply (HG _ _ He); [|done].
  eapply gc_name_inj; [by eapply (ns_range _ _ HN)| |by eapply (ns_gcname _ _ HN)|done].
  destruct Hname as (He' & _). by eapply (ns_range _ _ HN).
Qed.

Lemma removal_moves s e x ws :
  NS G s -> name_of G s (e_parent e) (e_name e) (e_data e) x -> removal e x ws -> ns_moves G [] s (apply_writes ws s).
Proof.
  intros HN Hname Hr. destruct (name_of_nlink G _ _ _ _ _ HN Hname) as (_ & Hpos & _ & Ht & _).
  apply ns_moves_one. destruct Hr as [x' Hd Hn Hs Hl|x' Hd Hn Hs Hl|Hd Hn|x' g gn ge Hd Hn Hs Hl Hg Hgn Ha].
  - apply (mv_unlink G s _ _ (e_data e) x); [done| |lia|done|done]. by rewrite Ht.
  - apply (mv_unlink G s _ _ (e_data e) x); [done| |lia|done|done]. rewrite Ht. unfold e_type in Hd. congruence.
  - apply (mv_drop G s _ _ (e_data e) x); [done|done|]. left. by rewrite Ht.
  - apply (mv_trash G s _ _ (e_data e) x); [done|done|by rewrite Ht|done|done|done| |done|done|done].
    by eapply gc_name_free.
Qed.

(** What a removal leaves alone. *)
Lemma removal_inodes e x ws s id : removal e x ws -> id <> e_id e -> fs_inodes (apply_writes ws s) !! id = fs_inodes s !! id.
Proof. intros Hr Hid. destruct Hr; simpl; by rewrite lookup_partial_alter_ne. Qed.
Lemma removal_entries e x ws s k : removal e x ws -> k <> (e_parent e, e_name e) -> k.1 ∉ G ->
  fs_entries (apply_writes ws s) !! k = fs_entries s !! k.
Proof.
  intros Hr Hk HG. destruct Hr; simpl; rewrite ?lookup_partial_alter_ne; try done; intros <-; simpl in *; done.
Qed.
Lemma removal_gone e x ws s : removal e x ws -> e_parent e ∉ G -> fs_entries (apply_writes ws s) !! (e_parent e, e_name e) = None.
Proof.
  intros Hr HG. destruct Hr; simpl; try (by apply lookup_partial_alter_eq).
  rewrite lookup_partial_alter_ne by (intros [= -> _]; done). apply lookup_partial_alter_eq.
Qed.

Section gc.
Context {HEnv : FsEnv} (cfg : FsConfig).
(** The garbage directories that a server uses are among all of them. *)
Context (Hcurr : forall g, g ∈ fe_currGcDirectories -> g ∈ G) (Hall : forall g, g ∈ fe_allGcDirectories -> g ∈ G).

Lemma oks_update_time v nv res cmp t (Q : UtcTime * bool -> Txn -> Prop) :
  (forall r t', quiet t t' -> Q r t') -> oks (update_time v nv res cmp) t Q.
Proof. intros HQ. apply oks_quiet; [unfold update_time; ro|auto]. Qed.

Lemma oks_touch_ctime i t (Q : Inode -> Txn -> Prop) :
  (forall c t', quiet t t' -> Q (set_i_data (set_in_ctime c) i) t') -> oks (touch_ctime cfg i) t Q.
Proof.
  intros HQ. unfold touch_ctime. apply oks_bind, oks_ask. intros n t1 H1. apply oks_bind, oks_update_time.
  intros [c b] t2 H2. apply oks_ret, HQ. by etrans.
Qed.

Lemma oks_pickGcDirectory t (Q : InodeId -> Txn -> Prop) :
  (forall g t', quiet t t' -> g ∈ G -> Q g t') -> oks (pickGcDirectory cfg) t Q.
Proof.
  intros HQ. unfold pickGcDirectory. okstep. okstep.
  assert (Hp : forall (l : list InodeId) i t1, quiet t t1 -> (forall g, g ∈ l -> g ∈ G) ->
    oks (match l !! Z.to_nat i with Some g => mret g | None => fatal end) t1 Q).
  { intros l i t1 H1 Hl. destruct (l !! Z.to_nat i) as [g|] eqn:E; [|apply oks_fatal]. apply oks_ret, HQ; [done|].
    by eapply Hl, list_elem_of_lookup_2. }
  case_match; [apply oks_bind, oks_ask; intros; by apply Hp|]. case_match; [by apply Hp|].
  apply oks_bind, oks_ask; intros; by apply Hp.
Qed.

Lemma oks_gc_add dir i info t (Q : unit -> Txn -> Prop) :
  (forall t1 gn ge, quiet t t1 -> gc_name gn (i_id i) -> de_id ge = i_id i -> de_type ge = getType (i_data i) ->
     Q tt (add_write (WEntry dir gn (Some ge)) t1)) ->
  oks (gc_add cfg dir i info) t Q.
Proof.
  intros HQ. unfold gc_add. destruct (getType (i_data i)) eqn:Ht; [| |apply oks_fatal].
  - unfold gc_addFile. okstep. okstep. okstep. okstep. apply oks_bind, oks_ask. intros n t1 H1.
    apply oks_DirEntry_store. intros _ _. apply HQ; try done. unfold gc_name. eauto.
  - unfold gc_addDirectory. apply oks_bind, oks_ask. intros n t1 H1.
    apply oks_DirEntry_store. intros _ _. apply HQ; try done. unfold gc_name. eauto.
Qed.

Lemma same_place_nlink x n : same_place x (set_in_nlink n x).
Proof. by destruct x. Qed.
Lemma same_place_ctime x c : same_place x (set_in_ctime c x).
Proof. by destruct x. Qed.
Lemma same_place_trans x y z : same_place x y -> same_place y z -> same_place x z.
Proof. intros [? ?] [? ?]. split; congruence. Qed.

(** [GcManager::removeEntry] tracks what it removes. *)
Lemma oks_GcManager_removeEntry e x info t (Q : Inode -> Txn -> Prop) :
  getType x = e_type e ->
  (forall i t' ws, grows t t' -> tx_ids t' = tx_ids t -> tx_writes t' = tx_writes t ++ ws -> removal e x ws ->
     (exists t1, quiet t t1 /\ grows t1 t' /\ tracked t1 (KInode (e_id e)) /\ tracked t1 (KEntry (e_parent e) (e_name e))) ->
     checkName (e_name e) = true -> Q i t') ->
  oks (GcManager_removeEntry cfg e (mkInode (e_id e) x) info) t Q.
Proof.
  intros Hty HQ. unfold GcManager_removeEntry. okstep. okstep. okstep. okstep. simpl.
  apply oks_bind, oks_touch_ctime. intros c t1 H1. set (x' := set_in_ctime c (set_in_nlink (in_nlink x - 1) x)).
  replace (set_i_data (set_in_ctime c) (set_i_data (set_in_nlink (in_nlink x - 1)) (mkInode (e_id e) x))) with (mkInode (e_id e) x') by done.
  assert (Hs : same_place x x') by (eapply same_place_trans; [apply same_place_nlink|apply same_place_ctime]).
  assert (Hl : in_nlink x' = in_nlink x - 1) by (by destruct x).
  apply oks_bind, oks_track. intros t2 H2 K2. apply oks_bind, oks_track. intros t3 H3 K3.
  assert (H03 : quiet t t3) by (etrans; [exact H1|]; by etrans).
  assert (Hkeys : tracked t3 (KInode (e_id e)) /\ tracked t3 (KEntry (e_parent e) (e_name e))).
  { split; [|done]. eapply (grows_tracked t2); [by apply quiet_grows|done]. }
  assert (Hq : forall t' ws, grows t3 t' -> tx_ids t' = tx_ids t3 -> tx_writes t' = tx_writes t3 ++ ws -> removal e x ws ->
    checkName (e_name e) = true -> Q (mkInode (e_id e) x') t').
  { intros t' ws Hg Hi Hw Hr Hn. eapply HQ; [|by rewrite Hi; apply H03|by rewrite Hw, (qt_writes _ _ H03)|done| |done].
    - etrans; [by apply quiet_grows|done].
    - exists t3. destruct Hkeys. done. }
  apply oks_bind. case_bool_decide as Ht.
  - apply oks_bind, oks_DirEntry_remove. intros Hn. destruct (in_nlink x - 1 =? 0) eqn:Hz; simpl.
    + apply oks_Inode_remove. intros _ _. apply oks_ret. eapply Hq; [| | |by apply rw_drop; [|lia]|done].
      * etrans; apply grows_write.
      * done.
      * simpl. by rewrite <- app_assoc.
    + apply oks_Inode_store, oks_ret. eapply Hq; [| | |apply (rw_unlink_link _ _ x'); [done|lia|done|done]|done].
      * etrans; apply grows_write.
      * done.
      * simpl. by rewrite <- app_assoc.
  - apply oks_bind, oks_Inode_store, oks_bind, oks_DirEntry_remove. intros Hn. apply oks_bind.
    set (t4 := add_write _ (add_write _ t3)).
    assert (G4 : grows t3 t4) by (etrans; apply grows_write).
    assert (W4 : tx_writes t4 = tx_writes t3 ++ [WInode (e_id e) (Some x'); WEntry (e_parent e) (e_name e) None]) by (simpl; by rewrite <- app_assoc).
    apply (oks_rel _ _ (fun _ t5 => t5 = t4 /\ (getType x = IT_Directory -> in_nlink x - 1 = 0))).
    + apply oks_when; intros Hd.
      * do 4 okstep. okstep. split; [done|]. intros _. lia.
      * split; [done|]. intros Hx. exfalso. unfold isDirectory in Hd. simpl in Hd. destruct Hs as [Hs _]. rewrite <- Hs, Hx in Hd. done.
    + intros _ t5 [-> Hd]. apply oks_when; intros Hz.
      * apply oks_bind, oks_pickGcDirectory. intros g t5 H5 Hg. apply oks_gc_add. intros t6 gn ge H6 Hgn Hid Hge. apply oks_ret.
        assert (H46 : quiet t4 t6) by (by etrans).
        eapply Hq; [| | |apply (rw_trash _ _ x' g gn ge); [done|lia|done|lia|done|done|]|done].
        -- etrans; [done|]. etrans; [by apply quiet_grows|apply grows_write].
        -- simpl. by rewrite (qt_ids _ _ H46).
        -- simpl. rewrite (qt_writes _ _ H46), W4, <- app_assoc. done.
        -- split; [done|]. rewrite Hge. simpl. destruct Hs as [Hs _]. unfold e_type in Hty. congruence.
      * apply oks_ret. eapply Hq; [done|done|done|apply (rw_unlink _ _ x'); [|lia|done|done]|done].
        intros He. rewrite <- Hty in He. apply Hd in He. lia.
Qed.
End gc.
End commit.
