(* ===== verification/FsOpsLand.v ===== *)
(** * The operations on the namespace land

    Each operation of FsOps.v, run on a well-formed snapshot, lands: what it
    commits, in whatever store it commits, is a sequence of moves. *)

From Stdlib Require Import ZArith Lia.
From stdpp Require Import base gmap list strings.
From S2P Require Import Prelude StatusCode MgmtdTypes FsTypes FsTxn FsLayout FsResolve FsGc FsOps FsNamespace FsMoves FsTracked FsResolved.

Section land.
Context {HEnv : FsEnv} (cfg : FsConfig) (G : gset InodeId).
Context (Hcurr : forall g, g ∈ fe_currGcDirectories -> g ∈ G) (Hall : forall g, g ∈ fe_allGcDirectories -> g ∈ G).

#[local] Existing Instance lands_preorder.
Notation lands := (lands G).
Notation lands_at := (lands_at G).

(** ** Patterns *)

Lemma is_dir_lookup s p y d : fs_inodes s !! p = Some y -> in_type y = IV_Directory d -> is_dir s p.
Proof. intros Hy Hd. unfold is_dir, parent_of. rewrite Hy. simpl. unfold as_dir. rewrite Hd. simpl. eauto. Qed.

Lemma checkName_nonempty n : checkName n = true -> n <> "".
Proof. by intros H ->. Qed.

Lemma unused_one s id : unused G s [id] -> ok_id G id /\ free s id.
Proof. intros [_ H]. rewrite Forall_singleton in H. exact H. Qed.

(** A new inode with its name. *)
Lemma create_lands_at s t t1 p n e x :
  took [de_id e] t t1 -> getType x = de_type e -> in_nlink x = 1 -> (forall d, as_dir x = Some d -> di_parent d = p) ->
  (commits t1 s = true -> NS G (shadow t s) -> free_name G (shadow t s) p n) ->
  lands_at s t (add_write (WInode (de_id e) (Some x)) (add_write (WEntry p n (Some e)) t1)).
Proof.
  intros Ht Hty Hl Hpar Hfree ids Hids Hc HN Hun. simpl in Hids. rewrite (tk_ids _ _ _ Ht) in Hids. apply app_inv_head in Hids as <-.
  destruct (unused_one _ _ Hun) as [(Hr & HG & Hid) [Hi Hu]].
  exists [de_id e]. split; [done|]. rewrite !shadow_write, (took_shadow _ _ _ s Ht). apply ns_moves_one.
  apply (mv_create G (shadow t s) p n e x (fs_sessions (shadow t s))); try done. apply Hfree; [|done]. eapply grows_commits; [|exact Hc]. etrans; apply grows_write.
Qed.

Lemma create_lands t t1 p n e x y d :
  took [de_id e] t t1 -> getType x = de_type e -> in_nlink x = 1 -> (forall d, as_dir x = Some d -> di_parent d = p) ->
  tracked t1 (KInode p) -> tracked t1 (KEntry p n) -> fs_inodes (view t) !! p = Some y -> in_type y = IV_Directory d ->
  fs_entries (view t) !! (p, n) = None -> public G p -> checkName n = true ->
  lands t (add_write (WInode (de_id e) (Some x)) (add_write (WEntry p n (Some e)) t1)).
Proof.
  intros Ht Hty Hl Hpar K1 K2 Hy Hd He Hp Hn. split.
  { etrans; [by eapply took_grows|]. etrans; apply grows_write. }
  intros s. apply create_lands_at; try done. intros Hc _.
  rewrite <- (took_shadow _ _ _ s Ht). rewrite <- (took_view _ _ _ Ht) in *. split_and!.
  - by rewrite tracked_entry.
  - eapply is_dir_lookup; [by rewrite tracked_inode|done].
  - done.
  - by apply checkName_nonempty.
Qed.

(** Attributes of an inode. *)
Lemma attr_lands t t1 id x x' :
  quiet t t1 -> tracked t1 (KInode id) -> fs_inodes (view t) !! id = Some x -> same_place x x' -> in_nlink x' = in_nlink x ->
  (id ∈ G -> isImmutable (in_acl x) = isImmutable (in_acl x')) ->
  lands t (add_write (WInode id (Some x')) t1).
Proof.
  intros Hq Hk Hx Hs Hl HG. apply lands_moves; [etrans; [by apply quiet_grows|apply grows_write]|].
  intros s Hc HN. rewrite shadow_write, (quiet_shadow _ _ s Hq). apply ns_moves_one. apply (mv_attr G (shadow t s) id x x' (fs_sessions (shadow t s))); try done.
  rewrite <- (quiet_shadow _ _ s Hq), tracked_inode, (quiet_view _ _ Hq); [done| |done].
  eapply grows_commits; [|exact Hc]. apply grows_write.
Qed.

(** An entry that leads where it did. *)
Lemma entry_lands t t1 p n e e' :
  quiet t t1 -> tracked t1 (KEntry p n) -> fs_entries (view t) !! (p, n) = Some e -> alike e e' ->
  lands t (add_write (WEntry p n (Some e')) t1).
Proof.
  intros Hq Hk He Ha. apply lands_moves; [etrans; [by apply quiet_grows|apply grows_write]|].
  intros s Hc HN. rewrite shadow_write, (quiet_shadow _ _ s Hq). apply ns_moves_one. apply (mv_entry G (shadow t s) (p, n) e e' (fs_sessions (shadow t s))); try done.
  rewrite <- (quiet_shadow _ _ s Hq), tracked_entry, (quiet_view _ _ Hq); [done| |done].
  eapply grows_commits; [|exact Hc]. apply grows_write.
Qed.

Lemma oks_writable_parent r req t (Q : Inode * Directory -> Txn -> Prop) :
  info_ok (view t) (rr_parent r) ->
  (forall i d, i_id i = parent_id (rr_parent r) -> fs_inodes (view t) !! i_id i = Some (i_data i) -> in_type (i_data i) = IV_Directory d -> Q (i, d) t) ->
  oks (writable_parent r req) t Q.
Proof.
  intros Hok HQ. unfold writable_parent. apply oks_bind, oks_getParentInode; [done|]. intros i Hi Hx. oksteps.
  apply HQ; [done|done|].
  match goal with H : asDirectory _ = Ok _ |- _ => unfold asDirectory in H; destruct (in_type (i_data i)); by simplify_eq end.
Qed.

Lemma validForCreate_name p : validForCreate p = Ok tt -> filename (default [] (pa_path p)) <> "/".
Proof.
  unfold validForCreate. destruct (pa_path p) as [[|c l]|]; [done| |done]. simpl. case_bool_decide as Hb; [done|]. tauto.
Qed.

Lemma nofollow : followLastSymlink AT_SYMLINK_NOFOLLOW = false.
Proof. reflexivity. Qed.

(** ** Links *)

Lemma symlinkOp_lands req t :
  NS G (view t) -> public G (pa_parent (sl_path req)) -> oks (symlinkOp cfg req) t (fun _ t' => lands t t').
Proof.
  intros HN Hp. unfold symlinkOp. do 2 okstep. match goal with H : validForCreate _ = Ok ?u |- _ => destruct u; rename H into Hv end.
  apply oks_bind. eapply oks_rel; [by apply (oks_resolve_path cfg G)|]. intros r t1 (H1 & c & Hr & Hname).
  specialize (Hname nofollow). destruct Hname as [Hname|Hname]; [|by apply validForCreate_name in Hv].
  pose proof (an_entry _ _ _ _ Hr) as He. destruct (rr_dirEntry r) as [e|].
  { case_match; [|apply oks_fail]. apply oks_snapshotLoadInode. intros. by apply quiet_lands. }
  apply oks_bind, oks_writable_parent; [rewrite (quiet_view _ _ H1); apply Hr|]. intros i d Hi Hx Hd. rewrite (quiet_view _ _ H1) in Hx.
  apply oks_bind, oks_allocateInodeId. intros id t2 H2. apply oks_bind, oks_quiet; [unfold op_now; ro|]. intros now t3 H3.
  apply oks_bind, oks_track. intros t4 H4 K4. apply oks_bind, oks_track. intros t5 H5 K5.
  apply oks_bind, oks_DirEntry_store. intros Hn _. apply oks_bind, oks_Inode_store, oks_ret. simpl in *.
  unfold req_filename in *. rewrite Hname in *. 
  eapply create_lands; try done; try apply Hr.
  - eapply quiet_took; [exact H1|]. eapply took_quiet; [exact H2|]. etrans; [exact H3|]. by etrans.
  - eapply (grows_tracked t4); [by apply quiet_grows|done].
  - by rewrite <- Hi.
Qed.

(** The name that the link gets is free in the directory that its new path leads
    to.  Only a path that is followed through a symbolic link at its end may
    lead to a directory where another name was looked up. *)
Definition link_name_free (req : HardLinkReq) (t : Txn) : Prop := followLastSymlink (hl_flags req) = true ->
  forall r t', resolve_path cfg (rq_user (hl_base req)) (hl_newPath req) (hl_flags req) t = (Ok r, t') -> rr_dirEntry r = None ->
    fs_entries (view t) !! (parent_id (rr_parent r), req_filename (hl_newPath req)) = None.

Lemma oks_link_resolve req t : NS G (view t) -> public G (pa_parent (hl_newPath req)) -> validForCreate (hl_newPath req) = Ok tt -> link_name_free req t ->
  oks (resolve_path cfg (rq_user (hl_base req)) (hl_newPath req) (hl_flags req)) t
    (fun r t' => quiet t t' /\ (exists c, at_name G (view t) r c) /\
       (rr_dirEntry r = None -> fs_entries (view t) !! (parent_id (rr_parent r), req_filename (hl_newPath req)) = None)).
Proof.
  intros HN Hp Hv Hfree r t' Hr. destruct (oks_resolve_path cfg G _ _ (hl_flags req) t HN Hp r t' Hr) as (Hq & c & Ha & Hname).
  split; [done|]. split; [by exists c|]. intros Hno. destruct (followLastSymlink (hl_flags req)) eqn:Hfl; [by eapply Hfree|].
  destruct (Hname eq_refl) as [Hc|Hc]; [|by apply validForCreate_name in Hv]. pose proof (an_entry _ _ _ _ Ha) as He. rewrite Hno in He.
  unfold req_filename. by rewrite Hc.
Qed.

Lemma hardLink_lands req t :
  NS G (view t) -> public G (pa_parent (hl_newPath req)) -> public G (pa_parent (hl_oldPath req)) -> link_name_free req t ->
  oks (hardLink cfg req) t (fun _ t' => lands t t').
Proof.
  intros HN Hp Hp' Hfree. unfold hardLink. do 2 okstep. match goal with H : validForCreate _ = Ok ?u |- _ => destruct u; rename H into Hv end.
  apply oks_bind. eapply oks_rel; [by apply oks_link_resolve|]. intros r t1 (H1 & (c & Hr) & He).
  destruct (rr_dirEntry r) as [e|].
  { case_match; [|apply oks_fail]. apply oks_snapshotLoadInode. intros. by apply quiet_lands. }
  specialize (He eq_refl).
  apply oks_bind. eapply oks_rel; [apply (oks_resolve_inode cfg G); [by rewrite (quiet_view _ _ H1)|done]|].
  intros i t2 (H2 & Hpi & Hxi & Hl). specialize (Hl eq_refl). assert (H02 : quiet t t2) by (by etrans).
  rewrite (quiet_view _ _ H1) in Hxi.
  apply oks_bind, oks_writable_parent; [rewrite (quiet_view _ _ H02); apply Hr|]. intros pi d Hi Hx Hd. rewrite (quiet_view _ _ H02) in Hx.
  do 2 okstep. apply oks_bind. simpl.
  set (name := req_filename (hl_newPath req)). set (pid := parent_id (rr_parent r)) in *.
  apply (oks_rel _ _ (fun e t' => t' = t2 /\ getType (i_data i) <> IT_Directory /\ de_id (e_data e) = i_id i /\ de_type (e_data e) = getType (i_data i))).
  { destruct (getType (i_data i)) eqn:Ht; [| |]; try (by apply oks_ret); apply oks_fail. }
  intros e t' (-> & Hnd & Hid & Hty). do 2 okstep. apply oks_bind, oks_track. intros t3 H3 K3. apply oks_bind, oks_track. intros t4 H4 K4.
  apply oks_bind, oks_DirEntry_store. intros Hn _. simpl in *. apply oks_bind, oks_touch_ctime. intros ct t5 H5.
  apply oks_bind, oks_track. intros t6 H6 K6. apply oks_bind, oks_Inode_store, oks_ret. simpl in *.
  set (w := WEntry _ _ _) in *. set (e' := set_de_uuid _ _) in *. set (x' := set_in_ctime ct _).
  assert (H04 : quiet t t4) by (etrans; [exact H02|]; by etrans).
  assert (H46 : quiet (add_write w t4) t6) by (by etrans).
  apply lands_moves.
  { etrans; [by apply quiet_grows|]. etrans; [apply grows_write|]. etrans; [by apply quiet_grows|apply grows_write]. }
  intros s Hc HN'. assert (C6 : commits t6 s = true) by (eapply grows_commits; [|exact Hc]; apply grows_write).
  assert (C4 : commits t4 s = true) by (eapply grows_commits; [|exact C6]; etrans; [apply grows_write|by apply quiet_grows]).
  rewrite shadow_write, (quiet_shadow _ _ s H46), shadow_write, (quiet_shadow _ _ s H04). apply ns_moves_one. unfold w.
  assert (Heid : de_id e' = i_id i) by done. rewrite <- Heid in *.
  apply (mv_link G (shadow t s) pid name e' (i_data i) x' (fs_sessions (shadow t s))); try done.
  - rewrite <- (quiet_shadow _ _ s H04). split_and!.
    + unfold pid, name. rewrite tracked_entry by done. by rewrite (quiet_view _ _ H04).
    + eapply is_dir_lookup; [|exact Hd]. rewrite tracked_inode; [by rewrite (quiet_view _ _ H04), <- Hi|done|].
      by eapply grows_tracked; [apply quiet_grows, H4|].
    + apply Hr.
    + by apply checkName_nonempty.
  - transitivity (fs_inodes (shadow t6 s) !! de_id e').
    + by rewrite (quiet_shadow _ _ s H46), shadow_write, (quiet_shadow _ _ s H04).
    + rewrite tracked_inode; [|done|done]. rewrite (quiet_view _ _ H46), view_write, (quiet_view _ _ H04). done.
  - destruct (isTreeRoot (de_id e')) eqn:Hroot; [|done]. exfalso. apply Hnd.
    assert (Hdir : is_dir (view t) (de_id e')).
    { unfold isTreeRoot in Hroot. assert (de_id e' = InodeId_root \/ de_id e' = InodeId_gcRoot) as [->| ->] by lia; unfold is_dir;
      [rewrite (ns_root _ _ HN)|rewrite (ns_gcRoot _ _ HN)]; eauto. }
    apply dir_type in Hdir. unfold type_of in Hdir. rewrite Hxi in Hdir. by injection Hdir.
Qed.

(** ** Directories *)

Lemma ro_checkLayoutValid l : reads_only (checkLayoutValid l).
Proof. unfold checkLayoutValid. repeat (apply ro_for_each || ro). Qed.
#[local] Hint Resolve ro_checkLayoutValid : ro.

Lemma oks_mkdirs_loop req acl layout missing p t :
  oks (mkdirs_loop cfg req acl layout p missing) t (fun _ t' => grows t t' /\
    forall s ids, tx_ids t' = tx_ids t ++ ids -> commits t' s = true -> NS G (shadow t s) -> public G p -> is_dir (shadow t s) p ->
      (forall name rest, missing = name :: rest -> fs_entries (shadow t s) !! (p, name) = None) -> unused G (shadow t s) ids ->
      exists ids', ids' ⊆ ids /\ ns_moves G ids' (shadow t s) (shadow t' s)).
Proof.
  revert p t. induction missing as [|name rest IH]; intros p t; simpl; [apply oks_fatal|].
  do 2 okstep. apply oks_bind, oks_allocateInodeId. intros id t1 H1. apply oks_bind, oks_quiet; [ro|]. intros _ t2 H2.
  apply oks_bind, oks_quiet; [unfold op_now; ro|]. intros now t3 H3.
  apply oks_bind, oks_DirEntry_store. intros Hn _. apply oks_bind, oks_Inode_store. simpl.
  set (e := set_de_uuid _ _) in *. set (x := mkInodeData _ _ _ _ _ _). set (t4 := add_write _ _).
  assert (Hid : de_id e = id) by done.
  assert (Ht : took [de_id e] t t3) by (eapply took_quiet; [exact H1|]; by etrans).
  assert (G4 : grows t t4) by (etrans; [by eapply took_grows|]; etrans; apply grows_write).
  assert (L4 : forall s, public G p -> is_dir (shadow t s) p -> fs_entries (shadow t s) !! (p, name) = None -> lands_at s t t4).
  { intros s Hp Hd He. apply (create_lands_at s t t3 p name e x); try done.
    - intros d [= <-]. done.
    - intros _ _. split_and!; [done|done|done|by apply checkName_nonempty]. }
  assert (I4 : tx_ids t4 = tx_ids t ++ [id]) by apply Ht.
  destruct rest as [|name' rest'].
  - apply oks_ret. split; [done|]. intros s ids Hids Hc HN Hp Hd He Hun. apply (L4 s); eauto.
  - eapply oks_rel; [apply IH|]. intros i t5 (G5 & L5). split; [by etrans|]. intros s ids Hids Hc HN Hp Hd He Hun.
    destruct (gr_ids _ _ G5) as [ids2 I5]. rewrite I5, I4, <- app_assoc in Hids. apply app_inv_head in Hids as <-.
    assert (C4 : commits t4 s = true) by (by eapply grows_commits).
    destruct (unused_app _ _ _ _ Hun) as [Hun1 Hun2]. destruct (unused_one _ _ Hun1) as [(Hr & HG & Hisid) [Hnone Hunn]].
    destruct (L4 s Hp Hd (He _ _ eq_refl) [id]) as (ids1 & S1 & M1); try done.
    assert (Hpid : p <> id) by (intros ->; destruct Hd as [q Hq]; unfold parent_of in Hq; by rewrite Hnone in Hq).
    destruct (L5 s ids2) as (ids2' & S2 & M2); try done.
    + by eapply ns_moves_NS.
    + split; [done|]. by intros ->.
    + unfold t4. rewrite !shadow_write. simpl. eapply (is_dir_lookup _ _ x); [exact (lookup_insert_eq (fs_inodes (shadow t3 s)) id x)|done].
    + intros n' r' [= <- <-]. unfold t4. rewrite !shadow_write, (took_shadow _ _ _ s Ht). simpl.
      rewrite lookup_partial_alter_ne by (by intros [= -> _]). apply (NS_no_entries G); [done|].
      intros [q Hq]. unfold parent_of in Hq. by rewrite Hnone in Hq.
    + destruct Hun as [Hnd _]. destruct Hun2 as [Hnd2 Hf]. split; [done|]. rewrite Forall_forall in Hf |- *.
      intros j Hj. destruct (Hf j Hj) as [Hok Hfr]. split; [done|]. eapply ns_moves_free; [done..|].
      intros Hj1. apply S1, list_elem_of_singleton in Hj1 as ->. apply NoDup_cons in Hnd as [Hnd _]. done.
    + exists (ids1 ++ ids2'). split; [|by eapply ns_moves_app]. intros j. rewrite !elem_of_app. intros [?|?]; [left|right]; auto.
Qed.

Lemma mkdirs_lands req t :
  NS G (view t) -> public G (pa_parent (mk_path req)) -> oks (mkdirs cfg req) t (fun _ t' => lands t t').
Proof.
  intros HN Hp. unfold mkdirs. do 2 okstep. apply oks_bind. eapply oks_rel; [by apply (oks_resolve_pathRange cfg G)|].
  intros [r missing] t1 (H1 & c & Hr & Hm). simpl in *. pose proof (an_entry _ _ _ _ Hr) as He.
  destruct missing as [|name rest].
  { destruct (rr_dirEntry r) as [e|]; [|apply oks_fatal]. case_match; [|apply oks_fail].
    apply oks_snapshotLoadInode. intros. by apply quiet_lands. }
  destruct Hm as [|(rest' & [= <- <-] & Hnone)]; [done|]. rewrite Hnone in He. do 2 okstep.
  apply oks_bind, oks_writable_parent; [rewrite (quiet_view _ _ H1); apply Hr|]. intros pi d Hi Hx Hd. rewrite (quiet_view _ _ H1) in Hx.
  apply oks_bind, oks_track. intros t2 H2 K2. apply oks_bind, oks_track. intros t3 H3 K3. assert (H03 : quiet t t3) by (etrans; [exact H1|]; by etrans).
  eapply oks_rel; [apply oks_mkdirs_loop|]. intros i t4 (G4 & L4). split; [etrans; [by apply quiet_grows|done]|].
  intros s ids Hids Hc HN' Hun. rewrite <- (quiet_shadow _ _ s H03) in *. rewrite <- (qt_ids _ _ H03) in Hids.
  assert (C3 : commits t3 s = true) by (by eapply grows_commits).
  apply L4; try done.
  - apply Hr.
  - eapply is_dir_lookup; [|exact Hd]. rewrite tracked_inode; [by rewrite (quiet_view _ _ H03), <- Hi|done|].
    eapply (grows_tracked t2); [by apply quiet_grows|done].
  - intros n' r' [= <- <-]. by rewrite tracked_entry, (quiet_view _ _ H03).
Qed.

(** ** Removing *)

Lemma removal_lands t t' e x ws :
  grows t t' -> tx_writes t' = tx_writes t ++ ws -> removal G e x ws ->
  (exists t1, quiet t t1 /\ grows t1 t' /\ tracked t1 (KInode (e_id e)) /\ tracked t1 (KEntry (e_parent e) (e_name e))) ->
  real G (view t) e -> fs_inodes (view t) !! e_id e = Some x -> lands t t'.
Proof.
  intros Hg Hw Hr (t1 & H1 & G1 & K1 & K2) [He Hp] Hx. apply lands_moves; [done|]. intros s Hc HN.
  assert (C1 : commits t1 s = true) by (by eapply grows_commits).
  unfold shadow at 2. rewrite Hw, apply_writes_app. fold (shadow t s). eapply removal_moves; [done| |done].
  assert (He' : fs_entries (shadow t s) !! (e_parent e, e_name e) = Some (e_data e)).
  { by rewrite <- (quiet_shadow _ _ s H1), tracked_entry, (quiet_view _ _ H1). }
  split_and!; [done|by destruct Hp|by eapply public_entry in He' as []|].
  fold (e_id e). by rewrite <- (quiet_shadow _ _ s H1), tracked_inode, (quiet_view _ _ H1).
Qed.

Lemma range_no_entries t s p :
  commits t s = true -> RC_Entries p "" None ∈ tx_reads t -> (forall n, n <> "" -> fs_entries (view t) !! (p, n) = None) ->
  NS G (shadow t s) -> no_entries (shadow t s) p.
Proof.
  intros Hc Hr He HN n. destruct (decide (n = "")) as [->|Hn].
  - destruct (fs_entries (shadow t s) !! (p, "")) as [e|] eqn:E; [|done]. by destruct (ns_range _ _ HN _ _ E).
  - rewrite (tracked_range _ _ _ "" None); [auto|done|done|]. unfold name_between. by rewrite ltb_empty.
Qed.

(** A name outside the garbage whose inode has no entries. *)
Lemma empty_name_of s e x :
  NS G s -> real G s e -> public G (e_id e) -> fs_inodes s !! e_id e = Some x -> getType x = IT_Directory -> no_entries s (e_id e) ->
  name_of G s (e_parent e) (e_name e) (e_data e) x /\ in_nlink x = 1.
Proof.
  intros HN [He [Hp _]] [Hid _] Hx Ht Hno. assert (Hname : name_of G s (e_parent e) (e_name e) (e_data e) x) by done. split; [done|].
  destruct (name_of_nlink G _ _ _ _ _ HN Hname) as (Hl & Hpos & Hr & _).
  assert (Hd : is_dir s (e_id e)) by (apply dir_type; unfold type_of; rewrite Hx; simpl; by rewrite Ht).
  pose proof (ns_single _ _ HN _ Hd Hr). unfold e_id in *. lia.
Qed.

Lemma entry_ok_real_name v e : entry_ok G v e -> checkName (e_name e) = true -> real G v e.
Proof. intros [_ [|[Hn _]]] Hc; [done|congruence]. Qed.

Lemma remove_lands req t :
  NS G (view t) -> public G (pa_parent (rm_path req)) -> oks (remove cfg req) t (fun _ t' => lands t t').
Proof.
  intros HN Hp. unfold remove. do 2 okstep. apply oks_bind.
  apply (oks_rel _ _ (fun r t' => quiet t t' /\ exists c, at_name G (view t) r c)).
  { case_match; [|by apply oks_resolve_byDirectoryInodeId].
    eapply oks_rel; [by apply (oks_resolve_path cfg G)|]. intros r t1 (H1 & c & Hr & _). eauto. }
  intros r t1 (H1 & c & Hr). pose proof (an_entry _ _ _ _ Hr) as He. destruct (rr_dirEntry r) as [e|]; [|apply oks_fail].
  destruct He as (Hep & Hen & Hok). assert (Hpe : public G (e_id e)) by (by destruct Hok). do 4 okstep.
  apply oks_bind, oks_writable_parent; [rewrite (quiet_view _ _ H1); apply Hr|]. intros pi d Hi Hx Hd. do 4 okstep.
  apply oks_bind, oks_snapshotLoadInode. intros x Hxe Hty. rewrite (quiet_view _ _ H1) in Hxe. do 4 okstep.
  assert (Hgc : forall info t2, quiet t t2 -> oks (_ ← GcManager_removeEntry cfg e (mkInode (e_id e) x) info; mret tt) t2 (fun _ t' => lands t t')).
  { intros info t2 H2. apply oks_bind. apply oks_GcManager_removeEntry with (G := G); [done..|].
    intros i t3 ws G3 I3 W3 R3 K3 Hn. apply oks_ret. etrans; [by apply quiet_lands|].
    eapply removal_lands; try done; rewrite (quiet_view _ _ H2); [by apply entry_ok_real_name|done]. }
  case_bool_decide as Hdir; [|by apply Hgc]. apply oks_bind, oks_checkEmpty.
  - intros t2 H2 R2 Hempty. apply oks_bind, oks_track. intros t3 H3 K3. apply oks_bind, oks_track. intros t4 H4 K4.
    apply oks_bind, oks_DirEntry_remove. intros Hn. apply oks_Inode_remove. intros _ _. simpl.
    assert (H14 : quiet t1 t4) by (etrans; [exact H2|]; by etrans). assert (H04 : quiet t t4) by (by etrans).
    apply lands_moves; [etrans; [by apply quiet_grows|]; etrans; apply grows_write|]. intros s Hc HN'.
    assert (C4 : commits t4 s = true) by (eapply grows_commits; [|exact Hc]; etrans; apply grows_write).
    rewrite !shadow_write, (quiet_shadow _ _ s H04). apply ns_moves_one.
    assert (Hno : no_entries (shadow t s) (e_id e)).
    { rewrite <- (quiet_shadow _ _ s H04). apply range_no_entries; [done| | |by rewrite (quiet_shadow _ _ s H04)].
      - eapply grows_reads; [|exact R2]. apply quiet_grows. by etrans.
      - intros n Hn'. rewrite (quiet_view _ _ H14). auto. }
    destruct (entry_ok_real_name _ _ Hok Hn) as [Hreal1 Hreal2].
    destruct (empty_name_of (shadow t s) e x) as [Hname Hone]; try done.
    + split; [|done]. rewrite <- (quiet_shadow _ _ s H04), tracked_entry, (quiet_view _ _ H04); [done|done|].
      eapply (grows_tracked t3); [by apply quiet_grows|done].
    + rewrite <- (quiet_shadow _ _ s H04), tracked_inode, (quiet_view _ _ H04); [done|done|done].
    + by rewrite Hty.
    + apply (mv_drop G (shadow t s) _ _ (e_data e) x (fs_sessions (shadow t s))); [done|done|by right].
  - intros t2 H2. do 4 okstep. apply oks_bind, oks_quiet; [ro|]. intros _ t3 H3. apply oks_bind, oks_quiet; [ro|]. intros an t4 H4.
    apply oks_bind, oks_quiet; [unfold ancestors_path; ro|]. intros orig t5 H5. apply Hgc.
    etrans; [exact H1|]. etrans; [exact H2|]. etrans; [exact H3|]. by etrans.
Qed.
End land.

(** * Renaming lands

    A rename moves a name and replaces what was under the new one.  For a
    directory the way from its new parent to the root was checked, and tracked:
    in the store of the commit it still avoids the directory. *)

Section rename.
Context {HEnv : FsEnv} (cfg : FsConfig) (G : gset InodeId).
Context (Hcurr : forall g, g ∈ fe_currGcDirectories -> g ∈ G) (Hall : forall g, g ∈ fe_allGcDirectories -> g ∈ G).

#[local] Existing Instance lands_preorder.
Notation lands := (lands G).

(** ** What is replaced *)

(** The writes of [removeDst] for an entry and its inode. *)
Inductive displaced (e : DirEntry) (x : InodeData) : list FsWrite -> Prop :=
| dp_file ws : e_type e = IT_File -> removal G e x ws -> displaced e x ws
| dp_dir : e_type e = IT_Directory -> displaced e x [WInode (e_id e) None]
| dp_link x' : e_type e = IT_Symlink -> in_nlink x <> 0 -> same_place x x' -> in_nlink x' = in_nlink x - 1 ->
    displaced e x [WInode (e_id e) (Some x')].

Lemma store_eq I E s : fs_inodes s = I -> fs_entries s = E -> s = mkFsStore I E (fs_sessions s).
Proof. intros <- <-. by destruct s. Qed.

(** The store without the old name, as moves make it. *)
Lemma displaced_moves s e x ws :
  NS G s -> real G s e -> public G (e_id e) -> fs_inodes s !! e_id e = Some x -> getType x = e_type e ->
  (e_type e = IT_Directory -> no_entries s (e_id e)) -> displaced e x ws ->
  exists s2, ns_moves G [] s s2 /\ fs_inodes s2 = fs_inodes (apply_writes ws s) /\ fs_entries s2 !! (e_parent e, e_name e) = None /\
    forall k, k <> (e_parent e, e_name e) -> fs_entries s2 !! k = fs_entries (apply_writes ws s) !! k.
Proof.
  intros HN Hreal Hid Hx Hty Hno Hdp. assert (Hname : name_of G s (e_parent e) (e_name e) (e_data e) x) by (by destruct Hreal as [? []], Hid).
  destruct Hdp as [ws Ht Hr|Ht|x' Ht Hz Hs Hl].
  - exists (apply_writes ws s). split_and!; [by eapply removal_moves|done| |done]. eapply removal_gone; [done|]. apply Hreal.
  - destruct (empty_name_of G s e x) as [_ H1]; try done; [congruence|auto|].
    exists (mkFsStore (delete (e_id e) (fs_inodes s)) (delete (e_parent e, e_name e) (fs_entries s)) (fs_sessions s)). split_and!.
    + apply ns_moves_one, (mv_drop G s _ _ (e_data e) x); [done|done|right; auto].
    + done.
    + apply lookup_delete_eq.
    + intros k Hk. simpl. by rewrite lookup_delete_ne.
  - exists (mkFsStore (<[e_id e := x']> (fs_inodes s)) (delete (e_parent e, e_name e) (fs_entries s)) (fs_sessions s)). split_and!.
    + apply ns_moves_one, (mv_unlink G s _ _ (e_data e) x); [done|congruence|right; congruence|done|done].
    + done.
    + apply lookup_delete_eq.
    + intros k Hk. simpl. by rewrite lookup_delete_ne.
Qed.

Lemma displaced_entries e x ws s k : displaced e x ws -> k <> (e_parent e, e_name e) -> k.1 ∉ G ->
  fs_entries (apply_writes ws s) !! k = fs_entries s !! k.
Proof. intros Hd Hk HG. destruct Hd; [by eapply removal_entries|done|done]. Qed.
Lemma displaced_inodes e x ws s id : displaced e x ws -> id <> e_id e -> fs_inodes (apply_writes ws s) !! id = fs_inodes s !! id.
Proof. intros Hd Hid. destruct Hd; [by eapply removal_inodes| |]; simpl; by rewrite lookup_partial_alter_ne. Qed.

(** An empty directory is not on the way of another one. *)
Lemma live_path_drop s s2 id q d :
  NS G s -> no_entries s d -> (forall i, i <> d -> fs_inodes s2 !! i = fs_inodes s !! i) -> q <> d -> live_path s id q -> live_path s2 id q.
Proof.
  intros HN Hno HI Hq Hl. induction Hl as [H|q p Hp Hz Hne Hl IH]; [by constructor|].
  destruct (isTreeRoot q) eqn:Hr.
  - unfold isTreeRoot in Hr. assert (q = InodeId_root \/ q = InodeId_gcRoot) as [->| ->] by lia; [by constructor|].
    rewrite (ns_gcRoot _ _ HN) in Hp. simplify_eq. apply IH. done.
  - apply (lp_step _ _ _ p); [unfold parent_of; by rewrite HI|unfold nlink_of; by rewrite HI|done|]. apply IH.
    destruct (NS_dir_entry G s q p HN Hp Hr Hz) as (n & e & He & _). intros ->. by rewrite Hno in He.
Qed.

(** ** The move *)

Section move.
Context (s : FsStore) (HN : NS G s) (src : DirEntry) (xs xs' : InodeData) (q : InodeId) (m : string) (e' : DirEntryData) (ws : list FsWrite).
Context (Hsrc : real G s src) (Hsid : public G (e_id src)) (Hxs : fs_inodes s !! e_id src = Some xs) (Hty : getType xs = e_type src).
Context (Hq : public G q) (Hqd : is_dir s q) (Hm : m <> "") (Hk : (e_parent src, e_name src) <> (q, m)) (He' : alike (e_data src) e').

(** The writes before those of [removeDst]. *)
Definition src_writes : list FsWrite :=
  (if bool_decide (e_type src = IT_Directory) then [WInode (e_id src) (Some xs')] else []) ++ [WEntry (e_parent src) (e_name src) None].

(** The moves end where the writes do. *)
Lemma final_store s2 xs2 :
  fs_inodes s2 = fs_inodes (apply_writes ws s) -> (forall k, k <> (q, m) -> fs_entries s2 !! k = fs_entries (apply_writes ws s) !! k) ->
  (forall s', fs_entries (apply_writes ws s') !! (e_parent src, e_name src) = fs_entries s' !! (e_parent src, e_name src)) ->
  (e_type src = IT_Directory -> forall s', fs_inodes (apply_writes ws s') !! e_id src = fs_inodes s' !! e_id src) ->
  (e_type src = IT_Directory -> xs2 = xs') -> (e_type src <> IT_Directory -> fs_inodes s2 !! e_id src = Some xs2) ->
  let s3 := apply_writes (src_writes ++ ws ++ [WEntry q m (Some e')]) s in
  s3 = mkFsStore (<[e_id src := xs2]> (fs_inodes s2)) (<[(q, m) := e']> (delete (e_parent src, e_name src) (fs_entries s2))) (fs_sessions s3).
Proof.
  intros HI HE Hp Hi Hx1 Hx2 s3. apply store_eq; unfold s3; rewrite !apply_writes_app.
  - simpl. apply map_eq. intros i. unfold src_writes. case_bool_decide as Ht; simpl.
    + rewrite (Hx1 Ht). destruct (decide (i = e_id src)) as [->|Hn].
      * rewrite lookup_insert_eq, Hi by done. apply lookup_partial_alter_eq.
      * rewrite lookup_insert_ne by done. rewrite HI. apply inode_agree. simpl. by rewrite lookup_partial_alter_ne.
    + rewrite insert_id by auto. rewrite HI. by apply inode_agree.
  - simpl. apply map_eq. intros k. destruct (decide (k = (q, m))) as [->|Hkq].
    { rewrite lookup_insert_eq. apply lookup_partial_alter_eq. }
    rewrite lookup_insert_ne, lookup_partial_alter_ne by done. destruct (decide (k = (e_parent src, e_name src))) as [->|Hks].
    + rewrite lookup_delete_eq, Hp. unfold src_writes. case_bool_decide; apply lookup_partial_alter_eq.
    + rewrite lookup_delete_ne, HE by done. apply entry_agree. unfold src_writes. case_bool_decide; simpl; by rewrite lookup_partial_alter_ne.
Qed.

Lemma move_moves s2 :
  NS G s2 -> fs_inodes s2 = fs_inodes (apply_writes ws s) -> fs_entries s2 !! (q, m) = None ->
  (forall k, k <> (q, m) -> fs_entries s2 !! k = fs_entries (apply_writes ws s) !! k) ->
  (forall s', fs_entries (apply_writes ws s') !! (e_parent src, e_name src) = fs_entries s' !! (e_parent src, e_name src)) ->
  (e_type src = IT_Directory -> forall s', fs_inodes (apply_writes ws s') !! e_id src = fs_inodes s' !! e_id src) ->
  is_dir s2 q -> (e_type src = IT_Directory -> live_path s2 (e_id src) q /\ getType xs' = IT_Directory /\ in_nlink xs' = in_nlink xs /\
    forall d, as_dir xs' = Some d -> di_parent d = q) ->
  ns_moves G [] s2 (apply_writes (src_writes ++ ws ++ [WEntry q m (Some e')]) s).
Proof.
  intros HN2 HI Hfree HE Hp Hi Hd2 Hdir.
  assert (He2 : fs_entries s2 !! (e_parent src, e_name src) = Some (e_data src)) by (rewrite HE, Hp by done; apply Hsrc).
  assert (Hx2 : exists xs2, fs_inodes s2 !! e_id src = Some xs2).
  { assert (HpG : e_parent src ∉ G) by apply Hsrc. pose proof (ns_target _ _ HN2 _ _ _ He2 HpG) as Ht.
    unfold type_of, e_id in *. destruct (fs_inodes s2 !! de_id (e_data src)); [eauto|done]. }
  destruct Hx2 as [xs2 Hx2].
  assert (Hname : name_of G s2 (e_parent src) (e_name src) (e_data src) xs2) by (by destruct Hsrc as [_ []], Hsid).
  assert (Hfn : free_name G s2 q m) by done.
  destruct (name_of_nlink G _ _ _ _ _ HN2 Hname) as (_ & _ & _ & Ht2 & _).
  destruct (decide (e_type src = IT_Directory)) as [Ht|Ht].
  - destruct (Hdir Ht) as (Hl & Hgt & Hnl & Hpar). rewrite (final_store s2 xs'); try done.
    assert (xs2 = xs) as -> by (rewrite HI, Hi, Hxs in Hx2 by done; congruence).
    apply ns_moves_one, (mv_move G s2 _ _ q m (e_data src) e' xs xs'); try done; [congruence|]. intros d Hd. split; [auto|done].
  - rewrite (final_store s2 xs2); try done.
    apply ns_moves_one, (mv_move G s2 _ _ q m (e_data src) e' xs2 xs2); try done.
    intros d Hd. exfalso. apply Ht. unfold e_type. rewrite <- Ht2. apply as_dir_type. rewrite Hd. simpl. eauto.
Qed.
End move.

(** ** Ancestors *)

(** The directories from [curr] to a root, as the transaction read and tracks
    them. *)
Inductive ancestry (v : FsStore) (t : Txn) : InodeId -> list Inode -> Prop :=
| an_top i d : fs_inodes v !! i_id i = Some (i_data i) -> in_type (i_data i) = IV_Directory d -> di_parent d = i_id i -> tracked t (KInode (i_id i)) ->
    ancestry v t (i_id i) [i]
| an_next i d l : fs_inodes v !! i_id i = Some (i_data i) -> in_type (i_data i) = IV_Directory d -> di_parent d <> i_id i -> tracked t (KInode (i_id i)) ->
    ancestry v t (di_parent d) l -> ancestry v t (i_id i) (i :: l).

Lemma oks_ancestors_loop fuel seen curr acc t :
  oks (ancestors_loop fuel seen curr acc) t (fun l t' => quiet t t' /\ exists l', l = acc ++ l' /\ ancestry (view t) t' curr l').
Proof.
  revert seen curr acc t. induction fuel as [|fuel IH]; intros seen curr acc t; simpl; [by intros a t' [=]|].
  do 2 okstep. apply oks_bind, oks_Inode_load. intros t1 H1 K1. do 2 okstep. apply checkMetaFound_inv in Hlift.
  apply fmap_Some in Hlift as (x & Hx & ->). simpl. destruct (in_type x) as [f|d|p] eqn:Hd; [apply oks_fail| |apply oks_fail].
  destruct (di_parent d =? curr) eqn:Hp.
  - apply oks_ret. split; [done|]. exists [mkInode curr x]. split; [done|]. apply Z.eqb_eq in Hp.
    by apply (an_top (view t) t1 (mkInode curr x) d).
  - eapply oks_rel; [apply IH|]. intros l t2 (H2 & l' & -> & Hl). split; [by etrans|]. exists (mkInode curr x :: l').
    split; [by rewrite <- app_assoc|]. rewrite (quiet_view _ _ H1) in Hl.
    apply (an_next (view t) t2 (mkInode curr x) d l'); [done|done|simpl; lia| |done].
    eapply grows_tracked; [by apply quiet_grows|done].
Qed.

Lemma oks_loadAncestors p t :
  oks (loadAncestors p) t (fun l t' => quiet t t' /\ ancestry (view t) t' p l).
Proof.
  unfold loadAncestors. do 2 okstep. eapply oks_rel; [apply oks_ancestors_loop|]. intros l t' (Hq & l' & -> & Hl). done.
Qed.

Lemma check_ancestors_live v t src curr l S :
  ancestry v t curr l -> check_ancestors src l = Ok tt -> (forall id, tracked t (KInode id) -> fs_inodes S !! id = fs_inodes v !! id) ->
  live_path S src curr.
Proof.
  intros Ha Hc HS. induction Ha as [i d Hx Hd Hp K|i d l Hx Hd Hp K Ha IH]; simpl in Hc.
  all: destruct (i_id i =? src) eqn:H1; [done|]; destruct (in_nlink (i_data i) =? 0) eqn:H2; [done|].
  all: unfold asDirectory in Hc; rewrite Hd in Hc.
  - rewrite Hp, Z.eqb_refl in Hc. destruct (i_id i =? InodeId_root) eqn:H3; [|by destruct (i_id i =? InodeId_gcRoot)].
    apply Z.eqb_eq in H3. rewrite H3 in *. constructor. lia.
  - destruct (i_id i =? di_parent d) eqn:H3; [lia|]. apply (lp_step _ _ _ (di_parent d)); [| |lia|auto].
    + unfold parent_of. rewrite HS, Hx by done. simpl. unfold as_dir. by rewrite Hd.
    + unfold nlink_of. rewrite HS, Hx by done. simpl. intros [= E]. lia.
Qed.

(** ** The operation *)

Lemma oks_checkLoop req src e dst t :
  oks (checkLoop cfg req src e dst) t (fun _ t' => quiet t t' /\
    forall S, (forall id, tracked t' (KInode id) -> fs_inodes S !! id = fs_inodes (view t) !! id) -> live_path S (e_id e) (parent_id (rr_parent dst))).
Proof.
  unfold checkLoop. apply oks_bind. eapply oks_rel; [apply oks_loadAncestors|]. intros l t1 (H1 & Hl). do 2 okstep. destruct a.
  do 2 okstep. apply oks_quiet; [unfold ancestors_path; ro|]. intros _ t2 H2. split; [by etrans|]. intros S HS.
  eapply check_ancestors_live; [done|done|]. intros id Hid. apply HS. eapply grows_tracked; [by apply quiet_grows|done].
Qed.

Lemma oks_rename_checkPermission req r dst t :
  info_ok (view t) (rr_parent r) ->
  oks (rename_checkPermission req r dst) t (fun o t' => quiet t t' /\
    (exists y d, fs_inodes (view t) !! parent_id (rr_parent r) = Some y /\ in_type y = IV_Directory d) /\
    match rr_dirEntry r with
    | None => o = None
    | Some e => exists x, o = Some (mkInode (e_id e) x) /\ fs_inodes (view t) !! e_id e = Some x /\ getType x = e_type e
    end).
Proof.
  intros Hok. unfold rename_checkPermission. apply oks_bind, oks_writable_parent; [done|]. intros i d Hi Hx Hd. do 2 okstep.
  assert (Hpar : exists y d, fs_inodes (view t) !! parent_id (rr_parent r) = Some y /\ in_type y = IV_Directory d).
  { rewrite <- Hi. eauto. }
  destruct (rr_dirEntry r) as [e|]; [|by apply oks_ret]. apply oks_bind, oks_snapshotLoadInode. intros x Hxe Hte. oksteps.
  split; [done|]. split; [done|]. eauto.
Qed.

(** [removeDst] of an entry, whose inode it has or loads. *)
Lemma oks_removeDst req dst e x t (Q : unit -> Txn -> Prop) :
  rr_dirEntry dst = Some e -> getType x = e_type e -> (e_type e = IT_Symlink -> fs_inodes (view t) !! e_id e = Some x) ->
  (forall t' ws, grows t t' -> tx_ids t' = tx_ids t -> tx_writes t' = tx_writes t ++ ws -> displaced e x ws ->
     (e_type e <> IT_Directory -> exists t1, quiet t t1 /\ grows t1 t' /\ tracked t1 (KInode (e_id e))) -> Q tt t') ->
  oks (removeDst cfg req dst (Some (mkInode (e_id e) x))) t Q.
Proof.
  intros Hdst Hty Hx HQ. unfold removeDst. rewrite Hdst. destruct (e_type e) eqn:Ht.
  - do 2 okstep. apply oks_bind. apply oks_GcManager_removeEntry with (G := G); [done..|congruence|].
    intros i t' ws Hg Hi Hw Hr (t1 & K1 & K2 & K3 & _) _. apply oks_ret. eapply HQ; [done|done|done|by apply dp_file|]. eauto.
  - apply oks_Inode_remove. intros _ _. eapply HQ; [apply grows_write|done|done|by apply dp_dir|done].
  - apply oks_bind, oks_loadInode. intros y t1 H1 K1 Hy _. rewrite (Hx eq_refl) in Hy. simplify_eq. do 2 okstep.
    apply oks_bind, oks_touch_ctime. intros c t2 H2. apply oks_Inode_store. simpl in *.
    assert (H02 : quiet t t2) by (by etrans).
    eapply HQ; [| | |apply dp_link|].
    + etrans; [by apply quiet_grows|apply grows_write].
    + simpl. apply H02.
    + simpl. by rewrite (qt_writes _ _ H02).
    + done.
    + lia.
    + eapply same_place_trans; [apply same_place_ctime|apply same_place_nlink].
    + by destruct y.
    + intros _. exists t1. split_and!; [done| |done]. etrans; [by apply quiet_grows|apply grows_write].
Qed.

(** The writes of a rename, and what they rest on. *)
Record renamed (t t' : Txn) (src : DirEntry) (dst : option DirEntry) (q : InodeId) (m : string) (xs xs' : InodeData) (e' : DirEntryData) (ws : list FsWrite) : Prop := {
  rd_grows : grows t t';
  rd_writes : tx_writes t' = tx_writes t ++ src_writes src xs' ++ ws ++ [WEntry q m (Some e')];
  rd_names : checkName (e_name src) = true /\ checkName m = true;
  rd_alike : alike (e_data src) e';
  rd_inode : forall s, commits t' s = true -> fs_inodes (shadow t s) !! e_id src = Some xs;
  rd_type : getType xs = e_type src;
  rd_moved : e_type src = IT_Directory -> getType xs' = IT_Directory /\ in_nlink xs' = in_nlink xs /\ forall d, as_dir xs' = Some d -> di_parent d = q;
  rd_dst : match dst with
           | None => ws = []
           | Some e => exists x, displaced e x ws /\ getType x = e_type e /\
               (e_type e <> IT_Directory -> forall s, commits t' s = true -> fs_inodes (shadow t s) !! e_id e = Some x)
           end
}.

Lemma oks_rename_move req src dst dstInode t :
  match rr_dirEntry dst with
  | None => dstInode = None
  | Some e => (exists x, dstInode = Some (mkInode (e_id e) x) /\ fs_inodes (view t) !! e_id e = Some x /\ getType x = e_type e) /\
              (e_type src = IT_Directory -> e_type e = IT_Directory)
  end ->
  oks (rename_move cfg req src dst dstInode) t (fun _ t' => exists xs xs' e' ws,
    renamed t t' src (rr_dirEntry dst) (parent_id (rr_parent dst)) (req_filename (rn_dest req)) xs xs' e' ws).
Proof.
  intros Hdst. assert (Hdd : forall e, rr_dirEntry dst = Some e -> e_type src = IT_Directory -> e_type e = IT_Directory).
  { intros e He. rewrite He in Hdst. apply Hdst. }
  unfold rename_move. apply oks_bind, oks_loadInode. intros xs t1 H1 K1 Hxs Hty. simpl. apply oks_bind.
  set (q := parent_id (rr_parent dst)). set (m := req_filename (rn_dest req)).
  apply (oks_rel _ _ (fun i t2 => exists xs', (e_type src = IT_Directory -> getType xs' = IT_Directory /\ in_nlink xs' = in_nlink xs /\
      forall d, as_dir xs' = Some d -> di_parent d = q) /\ grows t1 t2 /\ tx_writes t2 = tx_writes t1 ++
        (if bool_decide (e_type src = IT_Directory) then [WInode (e_id src) (Some xs')] else []))).
  { case_bool_decide as Ht; [|apply oks_ret; exists xs; split_and!; [done|done|by rewrite app_nil_r]].
    do 2 okstep. apply oks_bind, oks_Inode_store, oks_ret. simpl. eexists. split_and!; [|apply grows_write|done].
    intros _. split_and!; [done|by destruct xs|]. by intros d [= <-]. }
  intros i t2 (xs' & Hxs' & G2 & W2). apply oks_bind, oks_DirEntry_remove. intros Hn. simpl. set (t3 := add_write _ t2).
  assert (G3 : grows t1 t3) by (etrans; [done|apply grows_write]).
  assert (W3 : tx_writes t3 = tx_writes t ++ src_writes src xs').
  { simpl. rewrite W2, (qt_writes _ _ H1), <- app_assoc. done. }
  assert (Hkeep : e_type src <> IT_Directory -> forall s', fs_inodes (apply_writes (src_writes src xs') s') = fs_inodes s').
  { intros Ht s'. unfold src_writes. by rewrite bool_decide_false. }
  assert (Hend : forall t4 ws, grows t3 t4 -> tx_writes t4 = tx_writes t3 ++ ws ->
    match rr_dirEntry dst with
    | None => ws = []
    | Some e => exists x, displaced e x ws /\ getType x = e_type e /\ (e_type e <> IT_Directory -> fs_inodes (view t) !! e_id e = Some x /\
        exists t5, quiet t3 t5 /\ grows t5 t4 /\ tracked t5 (KInode (e_id e)))
    end -> forall (Q : Inode -> Txn -> Prop), (forall t5 e', renamed t t5 src (rr_dirEntry dst) q m xs xs' e' ws -> Q i t5) ->
    oks (DirEntry_store (mkDirEntry q m (set_de_uuid (rq_uuid (rn_base req)) (e_data src))) ;; mret i) t4 Q).
  { intros t4 ws G4 W4 Hws Q HQ. apply oks_bind, oks_DirEntry_store. intros Hm _. apply oks_ret. simpl in Hm. simpl.
    eapply (HQ _ (set_de_uuid (rq_uuid (rn_base req)) (e_data src))).
    assert (G14 : forall w, grows t1 (add_write w t4)) by (intros w; etrans; [exact G3|]; etrans; [exact G4|apply grows_write]).
    split; try done.
    - etrans; [by apply quiet_grows|done].
    - simpl. rewrite W4, W3, <- !app_assoc. done.
    - intros s Hc. rewrite <- (quiet_shadow _ _ s H1), tracked_inode, (quiet_view _ _ H1); [done| |done]. eapply grows_commits; [apply G14|exact Hc].
    - destruct (rr_dirEntry dst) as [e|] eqn:Hde; [|done]. destruct Hws as (x & Hd & Hx & Hrest). exists x. split_and!; [done..|].
      intros Hnd s Hc. destruct (Hrest Hnd) as (Hv & t5 & H5 & G5 & K5).
      assert (Hns : e_type src <> IT_Directory) by (intros Ht; by apply (Hdd e) in Ht).
      assert (C5 : commits t5 s = true) by (eapply grows_commits; [|exact Hc]; etrans; [exact G5|apply grows_write]).
      pose proof (tracked_inode _ _ _ C5 K5) as Ht. rewrite (quiet_shadow _ _ s H5), (quiet_view _ _ H5) in Ht.
      unfold shadow at 1, view at 1 in Ht. rewrite (gr_base _ _ G3), (qt_base _ _ H1), W3, !apply_writes_app, !Hkeep in Ht by done.
      unfold shadow. rewrite Ht. exact Hv. }
  apply oks_bind. destruct (rr_dirEntry dst) as [e|] eqn:Hde.
  - destruct Hdst as [(x & -> & Hx & Hte) Hsd].
    apply (oks_removeDst req dst e x); [done|done| |].
    + intros Hl. assert (Hns : e_type src <> IT_Directory) by (intros Ht; apply Hsd in Ht; congruence).
      unfold view. rewrite (gr_base _ _ G3), (qt_base _ _ H1), W3, apply_writes_app, Hkeep by done. exact Hx.
    + intros t4 ws G4 _ W4 Hd Htr. eapply Hend; [done|done| |eauto 6]. exists x. split_and!; [done..|]. intros Hnd. split; [done|]. by apply Htr.
  - unfold removeDst. rewrite Hde. apply oks_ret. eapply (Hend t3 []); [done|by rewrite app_nil_r|done|eauto 6].
Qed.

Lemma dst_is_dir s e q m : NS G s -> fs_entries s !! (q, m) = Some (e_data e) -> e_type e = IT_Directory -> q ∉ G ->
  exists x, fs_inodes s !! e_id e = Some x /\ getType x = e_type e.
Proof.
  intros HN He Ht Hq. pose proof (ns_target _ _ HN _ _ _ He Hq) as H. unfold type_of, e_id, e_type in *.
  destruct (fs_inodes s !! de_id (e_data e)) as [x|]; [|done]. injection H as H. eauto.
Qed.

(** From the store of the commit. *)
Lemma renamed_moves t t' src dst q m xs xs' e' ws s :
  renamed t t' src dst q m xs xs' e' ws -> commits t' s = true -> NS G (shadow t s) ->
  real G (shadow t s) src -> public G (e_id src) -> public G q -> is_dir (shadow t s) q ->
  match dst with
  | None => fs_entries (shadow t s) !! (q, m) = None
  | Some e => e_parent e = q /\ e_name e = m /\ fs_entries (shadow t s) !! (q, m) = Some (e_data e) /\ public G (e_id e) /\
      (e_parent src, e_name src) <> (q, m) /\ (e_type e = IT_Directory -> no_entries (shadow t s) (e_id e)) /\
      (e_type src = IT_Directory -> e_type e = IT_Directory)
  end ->
  (e_type src = IT_Directory -> live_path (shadow t s) (e_id src) q) ->
  ns_moves G [] (shadow t s) (shadow t' s).
Proof.
  intros [Rg Rw [Rn1 Rn2] Ra Ri Rt Rm Rd] Hc HN Hsrc Hsid Hq Hqd Hdst Hlive. specialize (Ri s Hc).
  unfold shadow at 2. rewrite Rw, apply_writes_app. fold (shadow t s). set (S := shadow t s) in *.
  apply checkName_nonempty in Rn2. destruct dst as [e|].
  - destruct Hdst as (Hep & Hen & He & Hid & Hk & Hno & Hsd). destruct Rd as (x & Hd & Hx & Hin).
    assert (Hreal : real G S e) by (split; [by rewrite Hep, Hen|by rewrite Hep]).
    assert (HexD : exists x, displaced e x ws /\ getType x = e_type e /\ fs_inodes S !! e_id e = Some x).
    { destruct (decide (e_type e = IT_Directory)) as [Ht|Ht]; [|eauto].
      destruct (dst_is_dir S e q m HN He Ht) as (y & Hy & Hty); [by destruct Hq|]. exists y. split_and!; [|done|done].
      inversion Hd; subst; [congruence|by apply dp_dir|congruence]. }
    clear x Hd Hx Hin. destruct HexD as (x & Hd & Hx & Hin).
    destruct (displaced_moves S e x ws) as (s2 & M2 & I2 & F2 & E2); try done. rewrite Hep, Hen in F2, E2.
    assert (Hdd : e_type src = IT_Directory -> e_id src <> e_id e).
    { intros Ht Heq. apply Hk. rewrite <- Hep, <- Hen. assert (Hdir : is_dir S (e_id src)) by (apply dir_type; unfold type_of; rewrite Ri; simpl; congruence).
      pose proof (ns_notroot _ _ HN _ _ (proj1 Hsrc)) as Hroot.
      eapply (NS_names G S (e_id src)); [done|by apply (ns_single _ _ HN)|apply Hreal| |apply Hsrc|]; (split; [done|]); simpl; [apply Hreal|apply Hsrc]. }
    change (@nil InodeId) with (@nil InodeId ++ []). eapply ns_moves_app; [exact M2|].
    apply (move_moves S src xs xs' q m e' ws Hsrc Hsid Ri); try done.
    + by eapply ns_moves_NS.
    + intros s'. eapply displaced_entries; [done|by rewrite Hep, Hen|]. apply Hsrc.
    + intros Ht s'. eapply displaced_inodes; [done|auto].
    + assert (Hqe : q <> e_id e \/ e_type e <> IT_Directory).
      { destruct (decide (e_type e = IT_Directory)) as [Ht|]; [left|by right]. intros ->. by rewrite (Hno Ht) in He. }
      apply dir_type. pose proof Hqd as Hqd'. apply dir_type in Hqd'. unfold type_of in *. rewrite I2.
      destruct Hqe as [Hqe|Hqe]; [erewrite displaced_inodes by done; done|].
      destruct (decide (q = e_id e)) as [Heq|]; [|erewrite displaced_inodes by done; done].
      exfalso. rewrite Heq, Hin in Hqd'. simpl in Hqd'. congruence.
    + intros Ht. destruct (Rm Ht) as (? & ? & ?). split_and!; try done. specialize (Hlive Ht). specialize (Hno (Hsd Ht)).
      eapply (live_path_drop S s2 _ _ (e_id e)); [done|done| | |done].
      * intros i Hi. rewrite I2. by eapply displaced_inodes.
      * intros ->. by rewrite Hno in He.
  - subst ws. apply (move_moves S src xs xs' q m e' [] Hsrc Hsid Ri); try done.
    + intros E. destruct Hsrc as [Hs _]. rewrite E in Hs. congruence.
    + intros Ht. destruct (Rm Ht) as (? & ? & ?). split_and!; try done. auto.
Qed.

Lemma rename_lands req t :
  NS G (view t) -> public G (pa_parent (rn_src req)) -> public G (pa_parent (rn_dest req)) -> oks (rename cfg req) t (fun _ t' => lands t t').
Proof.
  intros HN Hp1 Hp2. unfold rename. do 2 okstep.
  assert (Hv : validForCreate (rn_dest req) = Ok tt).
  { unfold RenameReq_valid in Hlift. destruct (validForCreate (rn_src req)); try done. by destruct (validForCreate (rn_dest req)) as [[]| | |]. }
  apply oks_bind. eapply oks_rel; [by apply (oks_resolve_path cfg G)|]. intros src t1 (H1 & c1 & Hr1 & _).
  apply oks_bind. eapply oks_rel; [apply (oks_resolve_path cfg G); [by rewrite (quiet_view _ _ H1)|done]|].
  intros dst t2 (H2 & c2 & Hr2 & Hname). rewrite (quiet_view _ _ H1) in Hr2.
  destruct (Hname nofollow) as [Hc2|Hc2]; [|by apply validForCreate_name in Hv]. clear Hname. fold (req_filename (rn_dest req)) in Hc2.
  assert (H02 : quiet t t2) by (by etrans).
  assert (Hearly : oks (match rr_dirEntry dst with Some e => DirEntry_snapshotLoadInode e | None => fatal end) t2 (fun _ t' => lands t t')).
  { destruct (rr_dirEntry dst); [|apply oks_fatal]. apply oks_snapshotLoadInode. intros. by apply quiet_lands. }
  simpl. match goal with |- oks (if ?b then _ else _) _ _ => destruct b; [done|] end.
  pose proof (an_entry _ _ _ _ Hr1) as He1. destruct (rr_dirEntry src) as [se|] eqn:Hse; [|apply oks_fail].
  destruct He1 as (Hsp & _ & Hsok). do 2 okstep. match goal with |- oks (if ?b then _ else _) _ _ => destruct b eqn:Hsame; [done|] end. do 2 okstep.
  pose proof (an_entry _ _ _ _ Hr2) as He2. set (q := parent_id (rr_parent dst)) in *. rewrite <- Hc2 in He2. set (m := req_filename (rn_dest req)) in *.
  (* an empty directory is replaced *)
  apply oks_bind.
  apply (oks_rel _ _ (fun _ t3 => quiet t t3 /\ forall e, rr_dirEntry dst = Some e -> e_type e = IT_Directory ->
    RC_Entries (e_id e) "" None ∈ tx_reads t3 /\ forall n, n <> "" -> fs_entries (view t) !! (e_id e, n) = None)).
  { destruct (rr_dirEntry dst) as [e|]; [|by apply oks_ret]. apply oks_when; intros Ht; [|by split; [|intros ? [= <-] Ht'; apply bool_decide_eq_false_1 in Ht]].
    apply oks_bind, oks_checkEmpty.
    - intros t3 H3 R3 Hno. apply oks_err_if. intros _. split; [by etrans|]. intros e' [= <-] _. split; [done|]. by rewrite (quiet_view _ _ H02) in Hno.
    - intros t3 H3. by apply oks_err_if. }
  intros _ t3 (H03 & Hempty).
  (* a directory does not move below itself *)
  apply oks_bind.
  apply (oks_rel _ _ (fun _ t4 => quiet t3 t4 /\ (e_type se = IT_Directory -> (forall e, rr_dirEntry dst = Some e -> e_type e = IT_Directory) /\
    forall S, (forall id, tracked t4 (KInode id) -> fs_inodes S !! id = fs_inodes (view t3) !! id) -> live_path S (e_id se) q))).
  { apply oks_when; intros Ht; [|split; [done|]; intros Ht'; by apply bool_decide_eq_false_1 in Ht]. do 2 okstep.
    eapply oks_rel; [apply oks_checkLoop|]. intros _ t4 (H4 & Hlive). split; [done|]. intros _. split; [|done].
    intros e He. rewrite He in Hif1. apply negb_false_iff in Hif1. by apply bool_decide_eq_true_1 in Hif1. }
  intros _ t4 (H4 & Hdir). assert (H04 : quiet t t4) by (by etrans).
  apply oks_bind. eapply oks_rel; [apply oks_rename_checkPermission; rewrite (quiet_view _ _ H04); apply Hr1|]. intros _ t5 (H5 & _).
  assert (H05 : quiet t t5) by (by etrans).
  apply oks_bind. eapply oks_rel; [apply oks_rename_checkPermission; rewrite (quiet_view _ _ H05); apply Hr2|].
  intros di t6 (H6 & (y & d & Hy & Hd) & Hdi). rewrite (quiet_view _ _ H05) in Hy, Hdi.
  apply oks_bind, oks_track. intros t7 H7 _. apply oks_bind, oks_track. intros t8 H8 K8.
  apply oks_bind, oks_track. intros t9 H9 K9. apply oks_bind, oks_track. intros t10 H10 K10. fold m in K10.
  assert (H4t : quiet t4 t10) by (etrans; [exact H5|]; etrans; [exact H6|]; etrans; [exact H7|]; etrans; [exact H8|]; by etrans).
  assert (H0t : quiet t t10) by (etrans; [exact H04|done]). assert (H3t : quiet t3 t10) by (etrans; [exact H4|done]).
  eapply oks_rel; [apply oks_rename_move|].
  { rewrite (quiet_view _ _ H0t). destruct (rr_dirEntry dst) as [e|]; [|done]. split; [done|]. intros Ht. by apply (Hdir Ht). }
  intros i t' (xs & xs' & e' & ws & HR). etrans; [by apply quiet_lands|]. apply lands_moves; [apply HR|].
  intros s Hc HN'. assert (C : commits t10 s = true) by (eapply grows_commits; [apply HR|exact Hc]).
  assert (Htr : forall t' k, quiet t' t10 -> tracked t' k -> tracked t10 k) by (intros; eapply grows_tracked; [by apply quiet_grows|done]).
  assert (H8t : quiet t8 t10) by (etrans; [exact H9|exact H10]).
  assert (Hsreal : real G (view t) se) by (apply entry_ok_real_name; [done|apply HR]).
  eapply renamed_moves; [exact HR|done|done| |by destruct Hsok|apply Hr2| | |].
  - split; [|apply Hsreal]. rewrite tracked_entry, (quiet_view _ _ H0t); [apply Hsreal|done|eauto].
  - eapply is_dir_lookup; [|exact Hd]. rewrite tracked_inode, (quiet_view _ _ H0t); [done|done|eauto].
  - assert (Hent : fs_entries (shadow t10 s) !! (q, m) = fs_entries (view t) !! (q, m)) by (by rewrite tracked_entry, (quiet_view _ _ H0t)).
    fold q m. rewrite Hent. destruct (rr_dirEntry dst) as [e|] eqn:Hde; [|done]. destruct He2 as (Hep & Hen & Heok).
    split_and!; [done|done| |by destruct Heok| | |].
    + assert (Hreal : real G (view t) e) by (apply entry_ok_real_name; [done|rewrite Hen; apply HR]). rewrite <- Hep, <- Hen. apply Hreal.
    + intros [= E1 E2]. rewrite Hep, Hen, E1, E2, Z.eqb_refl, bool_decide_true in Hsame; done.
    + intros Ht. destruct (Hempty e eq_refl Ht) as [R3 Hno]. apply (range_no_entries G); [done| | |done].
      * eapply (grows_reads t3); [by apply quiet_grows|done].
      * by rewrite (quiet_view _ _ H0t).
    + intros Ht. by apply (Hdir Ht).
  - intros Ht. destruct (Hdir Ht) as [_ Hlive]. apply Hlive. intros id Hid.
    rewrite tracked_inode by eauto. by rewrite (quiet_view _ _ H3t).
Qed.
End rename.
