(* ===== verification/FsOpenLand.v ===== *)
(** * Opening, attributes and batches land *)

From Stdlib Require Import ZArith Lia.
From stdpp Require Import base gmap list strings.
From S2P Require Import Prelude StatusCode MgmtdTypes FsTypes FsTxn FsLayout FsResolve FsGc FsOps FsOpen FsNamespace FsMoves FsTracked FsResolved FsOpsLand.

Section land.
Context {HEnv : FsEnv} (cfg : FsConfig) (G : gset InodeId).
Context (Hcurr : forall g, g ∈ fe_currGcDirectories -> g ∈ G) (Hall : forall g, g ∈ fe_allGcDirectories -> g ∈ G).

#[local] Existing Instance lands_preorder.
Notation lands := (lands G).

(** ** Versions of an inode *)

(** A version of an inode that differs in attributes only. *)
Definition kept (i i' : Inode) : Prop := i_id i' = i_id i /\ same_place (i_data i) (i_data i') /\ in_nlink (i_data i') = in_nlink (i_data i).

#[local] Instance kept_preorder : PreOrder kept.
Proof.
  split; [by intros i|]. intros i1 i2 i3 (H1 & H2 & H3) (K1 & K2 & K3). split_and!; [congruence| |congruence].
  by eapply same_place_trans.
Qed.

(** Storing such a version. *)
Lemma kept_lands t t1 i i' :
  quiet t t1 -> tracked t1 (KInode (i_id i')) -> fs_inodes (view t) !! i_id i = Some (i_data i) -> kept i i' -> i_id i ∉ G ->
  lands t (add_write (WInode (i_id i') (Some (i_data i'))) t1).
Proof.
  intros Hq Hk Hx (Hid & Hs & Hl) HG. rewrite Hid in *. eapply attr_lands; try done.
Qed.

(** Only sessions are written. *)
Record sessions_only (t t' : Txn) : Prop := {
  so_lands : lands t t';
  so_inodes : fs_inodes (view t') = fs_inodes (view t);
  so_entries : fs_entries (view t') = fs_entries (view t)
}.

#[local] Instance sessions_only_preorder : PreOrder sessions_only.
Proof.
  split; [intros t; by split|]. intros t1 t2 t3 [? ? ?] [? ? ?]. split; [by etrans|congruence|congruence].
Qed.

Lemma quiet_sessions t t' : quiet t t' -> sessions_only t t'.
Proof. intros H. split; [by apply quiet_lands|by rewrite (quiet_view _ _ H)|by rewrite (quiet_view _ _ H)]. Qed.

Lemma write_session t i u x : sessions_only t (add_write (WSession i u x) t).
Proof. split; [apply lands_session|by rewrite view_write|by rewrite view_write]. Qed.

Lemma sessions_NS t t' : sessions_only t t' -> NS G (view t) -> NS G (view t').
Proof.
  intros [_ HI HE] HN. apply (NS_same G (view t)); [done| | | |by rewrite HE].
  - destruct (view t') as [I E S']. simpl in *. subst. apply same_inodes_eq.
  - rewrite HE. unfold alike. eauto.
  - rewrite HE. unfold alike. eauto.
Qed.

Lemma oks_store_session id session t : oks (store_session id session) t (fun _ t' => sessions_only t t').
Proof.
  unfold store_session, FileSession_create, FileSession_store. destruct session as [x|]; [|by apply oks_ret].
  apply oks_bind, oks_bind, oks_ask. intros n t1 H1. do 2 okstep. etrans; [by apply quiet_sessions|apply write_session].
Qed.

Lemma clear_sbits_kept rdonly user id x : kept (mkInode id x) (mkInode id (fst (clear_sbits rdonly user x))).
Proof. unfold clear_sbits. case_match; [|done]. split_and!; [done|by destruct x|by destruct x]. Qed.

Lemma fix_stripe_kept b1 b2 id x f : (exists f, in_type x = IV_File f) -> kept (mkInode id x) (mkInode id (fst (fix_stripe b1 b2 x f))).
Proof.
  intros [f' Hf]. unfold fix_stripe. case_match; [|done]. destruct x; simpl in *; subst. done.
Qed.

Lemma clear_sbits_type rdonly user x : in_type (fst (clear_sbits rdonly user x)) = in_type x.
Proof. unfold clear_sbits. by case_match; destruct x. Qed.

(** ** [LockDirectory] *)

Lemma lockDirectory_lands req t : oks (lockDirectory req) t (fun _ t' => lands t t').
Proof.
  unfold lockDirectory. apply oks_bind, oks_Inode_load. intros t1 H1 K1. do 2 okstep. apply checkMetaFound_inv in Hlift.
  apply fmap_Some in Hlift as (x & Hx & ->). do 2 okstep. simpl. destruct (in_type x) as [f|d|l] eqn:Hd; [apply oks_fail| |apply oks_fail].
  assert (Hset : forall lock, oks (Inode_store (set_lock lock (mkInode (ld_inode req) x) d)) t1 (fun _ t' => lands t t')).
  { intros lock. apply oks_Inode_store. simpl. eapply attr_lands; try done. split; [unfold getType; by rewrite Hd|].
    unfold as_dir. rewrite Hd. done. }
  assert (Htake : oks (take_lock req (mkInode (ld_inode req) x) d) t1 (fun _ t' => lands t t')).
  { unfold take_lock. apply oks_when; intros _; [apply Hset|by apply quiet_lands]. }
  assert (Hdrop : oks (drop_lock (mkInode (ld_inode req) x) d) t1 (fun _ t' => lands t t')).
  { unfold drop_lock. apply oks_when; intros _; [apply Hset|by apply quiet_lands]. }
  destruct (ld_action req); oksteps; done.
Qed.

(** ** [SetAttr] *)

Lemma ro_update_time v nv res cmp : reads_only (update_time v nv res cmp).
Proof. unfold update_time. ro. Qed.
#[local] Hint Resolve ro_update_time : ro.

Lemma ro_SetAttr_apply i req : reads_only (SetAttr_apply cfg i req).
Proof. unfold SetAttr_apply. destruct (update_opt _ _), (update_opt _ _), (update_opt _ _), (update_opt _ _). ro. Qed.

Lemma oks_SetAttr_apply i req t : oks (SetAttr_apply cfg i req) t (fun r t' => quiet t t' /\ kept i (fst r)).
Proof.
  apply oks_conj; [apply oks_quiet; [apply ro_SetAttr_apply|done]|].
  unfold SetAttr_apply. destruct (update_opt _ _) as [iflags d1], (update_opt _ _) as [uid d2], (update_opt _ _) as [gid d3], (update_opt _ _) as [perm d4].
  set (same := fun v : InodeVariant => forall x, in_type x = v -> getType (i_data i) = getType x /\ di_parent <$> as_dir (i_data i) = di_parent <$> as_dir x).
  apply oks_bind. apply (oks_rel _ _ (fun r _ => same (fst r))).
  { destruct (sa_layout req) as [l|]; [|apply oks_ret; intros x Hx; unfold getType, as_dir; simpl in *; by rewrite Hx].
    do 2 okstep. apply oks_ret. unfold asDirectory in Hlift. intros x Hx. unfold getType, as_dir. simpl in *.
    destruct (in_type (i_data i)); simplify_eq. by rewrite Hx. }
  intros [type d5] t1 Htype. simpl in Htype. apply oks_bind, oks_quiet; [ro|]. intros ctime t2 _.
  apply oks_bind, oks_quiet; [ro|]. intros [atime d6] t3 _. apply oks_bind, oks_quiet; [ro|]. intros [mtime d7] t4 _.
  apply oks_bind. apply (oks_rel _ _ (fun r _ => same (fst r))).
  { case_match; [by apply oks_ret|]. do 2 okstep. rename a into f. unfold asFile in Hlift. simpl in Hlift. destruct type as [f0|d|p] eqn:Ety; simplify_eq.
    case_match; [by apply oks_ret|]. do 2 okstep. apply oks_ret. simpl. intros x Hx.
    destruct (Htype (set_in_type (IV_File f) x) eq_refl) as [Ha Hb]. unfold getType, as_dir in *. simpl in Ha, Hb. by rewrite Hx, Ha, Hb. }
  intros [type' d8] t5 Htype'. apply oks_ret. split_and!; [done| |done]. by apply Htype'.
Qed.

Lemma fill_name_kept i n : kept i (fst (fill_name i n)).
Proof.
  unfold fill_name. destruct (in_type (i_data i)) as [f|d|p] eqn:Hd; try done. case_match; [|done].
  split; [done|]. split; [|done]. split; [unfold getType; by rewrite Hd|]. unfold as_dir. by rewrite Hd.
Qed.

(** The entry of a directory follows its access right. *)
Lemma oks_setAttr_entry i dirty entry t :
  (forall e, entry = Some e -> entry_ok G (view t) e) ->
  oks (setAttr_entry i dirty entry) t (fun r t' => lands t t' /\ kept i (fst r) /\ fs_inodes (view t') = fs_inodes (view t)).
Proof.
  intros Hent. unfold setAttr_entry. apply oks_bind.
  apply (oks_rel _ _ (fun r t' => quiet t t' /\ kept i (fst (snd r)) /\
    (checkName (e_name (fst r)) = true -> fs_entries (view t) !! (e_parent (fst r), e_name (fst r)) = Some (e_data (fst r))))).
  { case_match.
    - apply oks_bind. eapply oks_rel; [apply oks_snapshotLoadDirEntry|]. intros e t1 (H1 & d & Hd & Hp & Hi & He). apply oks_ret.
      split_and!; [done|apply fill_name_kept|done].
    - destruct entry as [e|]; [|apply oks_fatal]. apply oks_ret. split_and!; [done|done|]. intros Hn. simpl in *.
      apply (entry_ok_real_name G (view t) e); [by apply Hent|done]. }
  intros [e [i' named]] t1 (H1 & Hk & He). simpl in *. apply oks_bind, oks_track. intros t2 H2 K2.
  apply oks_bind, oks_DirEntry_store. intros Hn _. apply oks_ret. simpl in *. assert (H02 : quiet t t2) by (by etrans).
  split_and!; [|done|by rewrite view_write, (quiet_view _ _ H02)]. eapply entry_lands; [done|done|by apply He|]. by destruct (e_data e).
Qed.

Lemma setAttr_lands req t :
  NS G (view t) -> public G (pa_parent (sa_path req)) -> oks (setAttr cfg req) t (fun _ t' => lands t t').
Proof.
  intros HN Hp. unfold setAttr. apply oks_bind.
  apply (oks_rel _ _ (fun r t' => quiet t t' /\ public G (i_id (fst r)) /\ fs_inodes (view t) !! i_id (fst r) = Some (i_data (fst r)) /\
    forall e, snd r = Some e -> entry_ok G (view t) e)).
  { case_match.
    - apply oks_bind. eapply oks_rel; [by apply (oks_resolve_dirEntry cfg G)|]. intros e t1 (H1 & He).
      apply oks_bind, oks_snapshotLoadInode. intros x Hx _. apply oks_ret. rewrite (quiet_view _ _ H1) in Hx. simpl.
      split_and!; [done|by destruct He|done|]. by intros e' [= <-].
    - apply oks_bind. eapply oks_rel; [by apply (oks_resolve_inode cfg G)|]. intros i t1 (H1 & Hi & Hx & _). by apply oks_ret. }
  intros [i0 entry] t1 (H1 & Hpub & Hx & Hent). simpl in *. do 2 okstep. apply oks_bind. eapply oks_rel; [apply oks_SetAttr_apply|].
  intros [i1 d1] t2 (H2 & K1). simpl in *. assert (H02 : quiet t t2) by (by etrans). apply oks_bind.
  apply (oks_rel _ _ (fun r t' => lands t t' /\ kept i0 (fst r) /\ fs_inodes (view t') = fs_inodes (view t))).
  { case_match; [|apply oks_ret; split_and!; [by apply quiet_lands|done|by rewrite (quiet_view _ _ H02)]].
    eapply oks_rel; [apply oks_setAttr_entry; by rewrite (quiet_view _ _ H02)|]. intros r t3 (L3 & K3 & V3).
    split_and!; [|by etrans|by rewrite V3, (quiet_view _ _ H02)]. etrans; [by apply quiet_lands|done]. }
  intros [i2 d2] t3 (L3 & K3 & V3). simpl in *. apply oks_bind. apply oks_when; intros _; [|by apply oks_ret].
  apply oks_bind, oks_track. intros t4 H4 K4. apply oks_Inode_store, oks_ret. etrans; [done|].
  eapply (kept_lands t3 t4 i0 i2); [done|done|by rewrite V3|done|by destruct Hpub].
Qed.

(** ** [Open] *)

Lemma ro_checkExists id : reads_only (FileSession_checkExists id).
Proof. unfold FileSession_checkExists, FileSession_snapshotCheckExists. ro. Qed.

Lemma initial_stripe_type dyn id acl l now :
  let i := initial_stripe cfg dyn (newFileInode id acl l now) l in
  i_id i = id /\ getType (i_data i) = IT_File /\ in_nlink (i_data i) = 1 /\ as_dir (i_data i) = None /\
  exists f, in_type (i_data i) = IV_File f /\ fl_layout f = l.
Proof. unfold initial_stripe. case_match; simpl; split_and!; try done; by eexists. Qed.

Lemma oks_replaceExistsFile req e x f t :
  NS G (view t) -> entry_ok G (view t) e -> fs_inodes (view t) !! e_id e = Some x -> getType x = e_type e -> getType x = IT_File ->
  oks (replaceExistsFile cfg req e (mkInode (e_id e) x) f) t
    (fun r t' => lands t t' /\ (r = None -> quiet t t')).
Proof.
  intros HN Hok Hx Hty Hfile. unfold replaceExistsFile. case_match; [by apply oks_ret; split; [|done]|].
  apply oks_bind, oks_quiet; [apply ro_checkExists|]. intros session t1 H1. case_match; [apply oks_ret; split; [by apply quiet_lands|done]|].
  apply oks_bind. apply oks_GcManager_removeEntry with (G := G); [done..|].
  intros i t2 ws G2 I2 W2 R2 K2 Hn. assert (Hreal : real G (view t) e) by (by apply entry_ok_real_name).
  assert (L2 : lands t t2).
  { etrans; [by apply quiet_lands|]. eapply removal_lands; try done; by rewrite (quiet_view _ _ H1). }
  assert (V2 : view t2 = apply_writes ws (view t)).
  { unfold view. rewrite (gr_base _ _ G2), W2, apply_writes_app. fold (view t1). by rewrite (quiet_view _ _ H1). }
  destruct Hreal as [He Hpub]. destruct (ns_parent _ _ HN _ _ _ He) as [q Hq].
  assert (Hdir : exists y d, fs_inodes (view t2) !! e_parent e = Some y /\ in_type y = IV_Directory d).
  { unfold parent_of in Hq. destruct (fs_inodes (view t) !! e_parent e) as [y|] eqn:Hy; [|done]. simpl in Hq. unfold as_dir in Hq.
    destruct (in_type y) as [|d|] eqn:Hd; simplify_eq/=. exists y, d. rewrite V2. split; [|done].
    erewrite removal_inodes; [done|done|]. intros E. rewrite E, Hx in Hy. simplify_eq. unfold getType in Hfile. by rewrite Hd in Hfile. }
  destruct Hdir as (y & d & Hy & Hd).
  apply oks_bind, oks_allocateInodeId. intros id t3 H3. apply oks_bind, oks_quiet; [unfold op_now; ro|]. intros now t4 H4.
  destruct (initial_stripe_type (op_dynStripe req) id (in_acl x) (fl_layout f) now) as (Hid & Ht & Hl & Hnd & _). simpl.
  set (ni := initial_stripe _ _ _ _) in *. apply oks_bind, oks_track. intros t5 H5 K5. apply oks_bind, oks_track. intros t6 H6 K6.
  apply oks_bind, oks_DirEntry_store. intros Hn' _. apply oks_bind, oks_Inode_store. simpl in *.
  apply oks_bind. eapply oks_rel; [apply oks_store_session|]. intros [] t7 H7. apply oks_ret. split; [|done].
  etrans; [exact L2|]. etrans; [|apply H7]. rewrite Hid.
  eapply (create_lands G t2 t6 (e_parent e) (e_name e) (e_data (newFileEntry (e_parent e) (e_name e) id)) (i_data ni) y d); try done.
  - eapply took_quiet; [exact H3|]. etrans; [exact H4|]. etrans; [exact H5|exact H6].
  - intros d' Hd'. congruence.
  - eapply (grows_tracked t5); [by apply quiet_grows|done].
  - rewrite V2. eapply removal_gone; [done|]. by destruct Hpub.
Qed.

Lemma oks_openExistsFile req entry i f t :
  NS G (view t) -> public G (i_id i) -> fs_inodes (view t) !! i_id i = Some (i_data i) -> in_type (i_data i) = IV_File f ->
  (forall e, entry = Some e -> entry_ok G (view t) e /\ e_id e = i_id i /\ e_type e = IT_File) ->
  oks (openExistsFile cfg req entry i f) t (fun _ t' => lands t t').
Proof.
  intros HN Hpub Hx Hf Hent. unfold openExistsFile. do 8 okstep. apply oks_bind.
  apply (oks_rel _ _ (fun r t' => lands t t' /\ (r = None -> quiet t t'))).
  { destruct entry as [e|]; [|by apply oks_ret]. case_match; [|by apply oks_ret]. unfold begin_write. do 2 okstep.
    destruct (Hent e eq_refl) as (Hok & Hid & Ht). destruct i as [ii x]. simpl in *. subst ii.
    apply oks_replaceExistsFile; try done; unfold getType; rewrite Hf; congruence. }
  intros [i'|] t1 (L1 & Hq1); [by apply oks_ret|]. specialize (Hq1 eq_refl).
  pose proof (clear_sbits_kept (accessType (op_flags req) =? AccessType_READ) (rq_user (op_base req)) (i_id i) (i_data i)) as Hk1.
  pose proof (clear_sbits_type (accessType (op_flags req) =? AccessType_READ) (rq_user (op_base req)) (i_data i)) as Ht1.
  destruct (clear_sbits _ _ _) as [x1 d1]. simpl in Hk1, Ht1. apply oks_bind.
  apply (oks_rel _ _ (fun _ t' => sessions_only t t')).
  { apply oks_when; intros _; [|by apply quiet_sessions]. unfold begin_write. do 2 okstep.
    eapply oks_rel; [apply oks_store_session|]. intros [] t2 H2. etrans; [by apply quiet_sessions|done]. }
  intros _ t2 H2. pose proof (fix_stripe_kept (bool_decide (is_Some (op_session req)) && negb (accessType (op_flags req) =? AccessType_READ)) (op_dynStripe req) (i_id i) x1 f) as Hk2.
  destruct (fix_stripe _ _ _ _) as [x2 d2]. simpl in Hk2. apply oks_bind. apply oks_when; intros _; [|by apply oks_ret; apply H2].
  unfold begin_write. do 2 okstep. apply oks_bind, oks_track. intros t3 H3 K3. apply oks_Inode_store, oks_ret.
  etrans; [apply H2|]. eapply (kept_lands t2 t3 i (mkInode (i_id i) x2)); [done|done|by rewrite (so_inodes _ _ H2)| |by destruct Hpub].
  assert (Hkk : kept (mkInode (i_id i) (i_data i)) (mkInode (i_id i) x2)).
  { etrans; [exact Hk1|]. apply Hk2. rewrite Ht1. eauto. }
  exact Hkk.
Qed.

Lemma oks_openExists b prev req entry i t :
  NS G (view t) -> public G (i_id i) -> fs_inodes (view t) !! i_id i = Some (i_data i) ->
  (forall e, entry = Some e -> entry_ok G (view t) e /\ e_id e = i_id i /\ e_type e = getType (i_data i)) ->
  oks (openExists cfg b prev req entry i) t (fun _ t' => lands t t').
Proof.
  intros HN Hpub Hx Hent. unfold openExists. case_match; [by apply oks_ret|]. do 2 okstep.
  destruct (in_type (i_data i)) as [f|d|l] eqn:Hd; [|by oksteps|apply oks_fatal].
  apply oks_openExistsFile; try done. intros e He. destruct (Hent e He) as (? & ? & Ht). split_and!; try done. unfold getType in Ht. by rewrite Hd in Ht.
Qed.

Lemma open_lands prev req t :
  NS G (view t) -> public G (pa_parent (op_path req)) -> oks (open cfg prev req) t (fun _ t' => lands t t').
Proof.
  intros HN Hp. unfold open. do 2 okstep. destruct (pa_path (op_path req)) eqn:Hpath.
  - apply oks_bind. eapply oks_rel; [by apply (oks_resolve_path cfg G)|]. intros r t1 (H1 & c & Hr & _).
    pose proof (an_entry _ _ _ _ Hr) as He. destruct (rr_dirEntry r) as [e|]; [|apply oks_fail]. destruct He as (_ & _ & Hok).
    apply oks_bind, oks_snapshotLoadInode. intros x Hx Hty. rewrite (quiet_view _ _ H1) in Hx.
    eapply oks_rel; [apply oks_openExists; simpl; rewrite ?(quiet_view _ _ H1); try done; [by destruct Hok|by intros e' [= <-]]|].
    intros ? t2 L2. etrans; [by apply quiet_lands|done].
  - apply oks_bind. eapply oks_rel; [by apply (oks_resolve_inode cfg G)|]. intros i t1 (H1 & Hi & Hx & _).
    eapply oks_rel; [apply oks_openExists; rewrite ?(quiet_view _ _ H1); done|]. intros ? t2 L2. etrans; [by apply quiet_lands|done].
Qed.

Lemma tryOpen_lands prev req t :
  NS G (view t) -> public G (pa_parent (op_path (cr_open req))) -> oks (tryOpen cfg prev req) t (fun _ t' => lands t t').
Proof.
  intros HN Hp. unfold tryOpen. do 2 okstep. apply oks_bind. eapply oks_rel; [by apply (oks_resolve_path cfg G)|]. intros r t1 (H1 & c & Hr & _).
  pose proof (an_entry _ _ _ _ Hr) as He. destruct (rr_dirEntry r) as [e|]; [|apply oks_ret; by apply quiet_lands]. destruct He as (_ & _ & Hok).
  apply oks_bind, oks_snapshotLoadInode. intros x Hx Hty. rewrite (quiet_view _ _ H1) in Hx. apply oks_bind.
  eapply oks_rel; [apply oks_openExists; simpl; rewrite ?(quiet_view _ _ H1); try done; [by destruct Hok|by intros e' [= <-]]|].
  intros res t2 L2. apply oks_ret. etrans; [by apply quiet_lands|done].
Qed.

Lemma pruneSession_lands client sessions t : oks (pruneSession client sessions) t (fun _ t' => lands t t').
Proof.
  unfold pruneSession. revert t. induction sessions as [|id l IH]; intros t; simpl; [by apply oks_ret|].
  unfold FileSession_create, FileSession_store. apply oks_bind, oks_bind, oks_bind, oks_ask. intros n t1 H1. do 2 okstep.
  eapply oks_rel; [apply IH|]. intros ? t2 L2. etrans; [exact (quiet_lands G _ _ H1)|]. etrans; [apply lands_session|exact L2].
Qed.
End land.
