(* ===== verification/FsBatchLand.v ===== *)
(** * Batches land ([BatchedOp]) *)

From Stdlib Require Import ZArith Lia.
From stdpp Require Import base gmap list strings.
From S2P Require Import Prelude StatusCode MgmtdTypes FsTypes FsTxn FsLayout FsResolve FsGc FsOps FsOpen FsNamespace FsMoves FsTracked FsResolved FsOpsLand FsOpenLand.

(** ** Runs that fail *)

Section errs.
Context {S : Type}.

(** If [m] ends with an error, the state it leaves is in [Q]. *)
Definition errs {A} (m : M S A) (t : S) (Q : S -> Prop) : Prop := forall c t', m t = (Err c, t') -> Q t'.

Lemma errs_seq {A B} (m : M S A) (k : A -> M S B) t Q : errs m t Q -> oks m t (fun a t1 => errs (k a) t1 Q) -> errs (m ≫= k) t Q.
Proof.
  intros He Hk c t'. unfold mbind, M_bind. destruct (m t) as [[a|c'| |] t1] eqn:E; intros H; simplify_eq; [by eapply Hk|by eapply He].
Qed.
Lemma errs_ret {A} (a : A) t (Q : S -> Prop) : errs (mret a) t Q.
Proof. by intros c t' [=]. Qed.
Lemma errs_modify f t (Q : S -> Prop) : errs (modify f) t Q.
Proof. by intros c t' [=]. Qed.
Lemma errs_mono {A} (m : M S A) t (P Q : S -> Prop) : errs m t P -> (forall t', P t' -> Q t') -> errs m t Q.
Proof. intros H HPQ c t' E. eauto. Qed.
End errs.

Lemma errs_ro {A} (m : M Txn A) t (Q : Txn -> Prop) : reads_only m -> (forall t', quiet t t' -> Q t') -> errs m t Q.
Proof. intros Hm HQ c t' E. apply HQ. specialize (Hm t). by rewrite E in Hm. Qed.

Section land.
Context {HEnv : FsEnv} (cfg : FsConfig) (G : gset InodeId).

#[local] Existing Instance lands_preorder.
#[local] Existing Instance kept_preorder.
#[local] Existing Instance sessions_only_preorder.
#[local] Hint Resolve ro_update_time ro_checkLayoutValid : ro.
Notation lands := (lands G).
Notation sessions_only := (sessions_only G).

(** ** Lengths and times *)

Lemma ro_batch_sync_one i req la : reads_only (batch_sync_one cfg i req la).
Proof. unfold batch_sync_one. ro. Qed.
Lemma ro_batch_close_one i req la : reads_only (batch_close_one cfg i req la).
Proof. unfold batch_close_one. ro. Qed.

Lemma oks_batch_sync_one i req la t : oks (batch_sync_one cfg i req la) t (fun r _ => kept i (fst (fst r))).
Proof.
  unfold batch_sync_one. do 6 okstep. apply oks_bind, oks_quiet; [ro|]. intros _ t1 _.
  apply oks_bind, oks_quiet; [ro|]. intros [a d1] t2 _. apply oks_bind, oks_quiet; [ro|]. intros [m d2] t3 _.
  apply oks_bind, oks_quiet; [ro|]. intros [c d3] t4 _. apply oks_ret. by destruct i as [id []].
Qed.
Lemma oks_batch_close_one i req la t : oks (batch_close_one cfg i req la) t (fun r _ => kept i (fst (fst r))).
Proof.
  unfold batch_close_one. do 6 okstep.
  apply oks_bind, oks_quiet; [ro|]. intros [a d1] t2 _. apply oks_bind, oks_quiet; [ro|]. intros [m d2] t3 _.
  apply oks_ret. by destruct i as [id []].
Qed.

Lemma oks_batch_pass {R} (one : Inode -> R -> LengthAsk -> M Txn (Inode * bool * LengthAsk)) i dirty la reqs t :
  (forall i r la, reads_only (one i r la)) -> (forall i r la t, oks (one i r la) t (fun r' _ => kept i (fst (fst r')))) ->
  oks (batch_pass one i dirty la reqs) t (fun r t' => quiet t t' /\ kept i (fst (fst (fst r)))).
Proof.
  intros Hro Hone. revert i dirty la t. induction reqs as [|r reqs IH]; intros i dirty la t; simpl; [by apply oks_ret|].
  apply oks_bind, oks_attempt.
  - intros [[i' d] la'] t1 E. pose proof (Hone i r la t _ _ E) as Hk. pose proof (Hro i r la t) as Hq. rewrite E in Hq. simpl in *.
    apply oks_bind. eapply oks_rel; [apply IH|]. intros [[[i2 d2] l2] res] t2 (H2 & K2). apply oks_ret. simpl in *. split; by etrans.
  - intros c t1 E. pose proof (Hro i r la t) as Hq. rewrite E in Hq. simpl in Hq.
    apply oks_bind. eapply oks_rel; [apply IH|]. intros [[[i2 d2] l2] res] t2 (H2 & K2). apply oks_ret. simpl in *. split; [by etrans|done].
Qed.

Lemma oks_close_sessions id (l : list (CloseReq * option Z)) t :
  oks (for_each (fun cr : CloseReq * option Z =>
              match snd cr, cl_session (fst cr) with
              | None, Some s => x ← FileSession_create id (se_client s) (se_session s); FileSession_remove x
              | _, _ => mret tt
              end) l) t (fun _ t' => sessions_only t t').
Proof.
  revert t. induction l as [|[r o] l IH]; intros t; simpl; [by apply oks_ret|]. apply oks_bind.
  apply (oks_rel _ _ (fun _ t' => sessions_only t t')).
  - destruct o; [by apply oks_ret|]. destruct (cl_session r) as [x|]; [|by apply oks_ret].
    unfold FileSession_create, FileSession_remove. apply oks_bind, oks_bind, oks_ask. intros n t1 H1. do 2 okstep.
    etrans; [by apply quiet_sessions|apply write_session].
  - intros [] t1 H1. eapply oks_rel; [apply IH|]. intros [] t2 H2. etrans; [exact H1|exact H2].
Qed.

Lemma oks_syncAndClose syncs closes next stored i t :
  oks (syncAndClose cfg syncs closes next stored i) t (fun r t' => sessions_only t t' /\ kept i (fst (fst (fst (fst r))))).
Proof.
  unfold syncAndClose. apply oks_bind. eapply oks_rel; [apply oks_batch_pass; [apply ro_batch_sync_one|apply oks_batch_sync_one]|].
  intros [[[i1 d1] l1] r1] t1 (H1 & K1). apply oks_bind.
  eapply oks_rel; [apply oks_batch_pass; [apply ro_batch_close_one|apply oks_batch_close_one]|].
  intros [[[i2 d2] l2] r2] t2 (H2 & K2). simpl in *. apply oks_bind. eapply oks_rel; [apply oks_close_sessions|]. intros [] t3 H3.
  assert (K : kept i i2) by (by etrans). assert (H03 : sessions_only t t3).
  { etrans; [apply (quiet_sessions G _ _ H1)|]. etrans; [apply (quiet_sessions G _ _ H2)|exact H3]. }
  okif; [by apply oks_ret|]. destruct (in_type (i_data i2)) as [f|d|p] eqn:Hf; try apply oks_fail.
  do 2 okstep. okif; [by apply oks_ret|]. do 2 okstep. apply oks_bind, oks_quiet; [ro|]. intros now t4 H4.
  apply oks_bind, oks_quiet; [ro|]. intros [m dm] t5 H5. apply oks_bind, oks_quiet; [ro|]. intros c t6 H6. apply oks_ret. simpl. split.
  - etrans; [exact H03|]. apply quiet_sessions. etrans; [exact H4|]. by etrans.
  - etrans; [exact K|]. split; [done|]. split; [|done]. split; [unfold getType; by rewrite Hf|]. unfold as_dir. by rewrite Hf.
Qed.

(** ** Attributes *)

Lemma oks_batch_setattr_loop i dirty reqs t :
  oks (batch_setattr_loop cfg i dirty reqs) t (fun r t' => quiet t t' /\ kept i (fst (fst r))).
Proof.
  revert i dirty t. induction reqs as [|r reqs IH]; intros i dirty t; simpl; [by apply oks_ret|].
  do 2 okstep. destruct (SetAttr_check cfg i r); [| |by intros a t' [=]|by intros a t' [=]].
  - apply oks_bind. eapply oks_rel; [apply oks_SetAttr_apply|]. intros [i1 d1] t1 (H1 & K1).
    apply oks_bind. eapply oks_rel; [apply IH|]. intros [[i2 d2] res] t2 (H2 & K2). apply oks_ret. simpl in *. split; by etrans.
  - apply oks_bind. eapply oks_rel; [apply IH|]. intros [[i2 d2] res] t2 (H2 & K2). by apply oks_ret.
Qed.

Lemma oks_batch_setAttr i reqs t :
  oks (batch_setAttr cfg i reqs) t (fun r t' => lands t t' /\ fs_inodes (view t') = fs_inodes (view t) /\ kept i (fst (fst r))).
Proof.
  unfold batch_setAttr. apply oks_bind. eapply oks_rel; [apply oks_batch_setattr_loop|]. intros [[i1 d1] res] t1 (H1 & K1). simpl in K1.
  case_match; [|apply oks_ret; split_and!; [by apply quiet_lands|by rewrite (quiet_view _ _ H1)|done..]].
  apply oks_bind. eapply oks_rel; [apply oks_snapshotLoadDirEntry|]. intros e t2 (H2 & d & Hd & Hp & Hi & He).
  pose proof (fill_name_kept i1 (e_name e)) as K2. destruct (fill_name i1 (e_name e)) as [i2 b]. simpl in K2.
  apply oks_bind, oks_track. intros t3 H3 K3. apply oks_bind, oks_DirEntry_store. intros Hn _. apply oks_ret. simpl in *.
  assert (H13 : quiet t1 t3) by (by etrans). assert (H03 : quiet t t3) by (etrans; [exact H1|done]).
  rewrite (quiet_view _ _ H1) in He. split; [|split; [by rewrite view_write, (quiet_view _ _ H03)|by etrans]].
  eapply entry_lands; [done|done|done|]. by destruct (e_data e).
Qed.

(** ** Opening what exists *)

(** At the commit, a garbage directory is a directory. *)
Lemma kept_file_lands t t1 i i' :
  quiet t t1 -> tracked t1 (KInode (i_id i')) -> fs_inodes (view t) !! i_id i = Some (i_data i) -> kept i i' -> getType (i_data i) <> IT_Directory ->
  lands t (add_write (WInode (i_id i') (Some (i_data i'))) t1).
Proof.
  intros Hq Hk Hx (Hid & Hs & Hl) Ht. rewrite Hid in *. apply lands_moves; [etrans; [by apply quiet_grows|apply grows_write]|].
  intros s Hc HN. rewrite shadow_write, (quiet_shadow _ _ s Hq). apply ns_moves_one.
  assert (Hsx : fs_inodes (shadow t s) !! i_id i = Some (i_data i)).
  { rewrite <- (quiet_shadow _ _ s Hq), tracked_inode, (quiet_view _ _ Hq); [done| |done].
    eapply grows_commits; [|exact Hc]. apply grows_write. }
  apply (mv_attr G (shadow t s) (i_id i) (i_data i) (i_data i') (fs_sessions (shadow t s))); try done.
  intros Hg. exfalso. apply Ht. pose proof (NS_gc_dir G _ _ HN Hg) as Hd. apply dir_type in Hd. unfold type_of in Hd. rewrite Hsx in Hd.
  by injection Hd.
Qed.

Lemma oks_batch_openExists_one i req t :
  oks (batch_openExists_one cfg i req) t (fun r t' => sessions_only t t' /\ kept i (fst r) /\ getType (i_data i) = IT_File).
Proof.
  unfold batch_openExists_one. do 2 okstep. destruct (in_type (i_data i)) as [f|d|p] eqn:Hf; try apply oks_fail. do 8 okstep.
  set (rd := accessType (op_flags (cr_open req)) =? AccessType_READ) in *.
  pose proof (clear_sbits_kept rd (rq_user (op_base (cr_open req))) (i_id i) (i_data i)) as Hk1.
  pose proof (clear_sbits_type rd (rq_user (op_base (cr_open req))) (i_data i)) as Ht1.
  destruct (clear_sbits _ _ _) as [x1 d1]. simpl in Hk1, Ht1. apply oks_bind, oks_quiet; [ro|]. intros [] t1 H1.
  pose proof (fix_stripe_kept (bool_decide (is_Some (op_session (cr_open req))) && negb rd) (op_dynStripe (cr_open req)) (i_id i) x1 f) as Hk2.
  destruct (fix_stripe _ _ _ _) as [x2 d2]. simpl in Hk2. apply oks_bind.
  apply (oks_rel _ _ (fun _ t' => sessions_only t t')).
  { apply oks_when; intros _; [|by apply quiet_sessions]. eapply oks_rel; [apply oks_store_session|]. intros [] t2 H2.
    etrans; [apply (quiet_sessions G _ _ H1)|exact H2]. }
  intros [] t2 H2. apply oks_ret. split; [done|]. split; [|unfold getType; by rewrite Hf].
  assert (Hkk : kept (mkInode (i_id i) (i_data i)) (mkInode (i_id i) x2)).
  { etrans; [exact Hk1|]. apply Hk2. rewrite Ht1. eauto. }
  exact Hkk.
Qed.

Lemma errs_store_session id session t (Q : Txn -> Prop) : errs (store_session id session) t Q.
Proof.
  unfold store_session, FileSession_create, FileSession_store. destruct session; [|apply errs_ret].
  intros c t'. unfold_M. unfold ask. by unfold_M.
Qed.

Lemma errs_batch_openExists_one i req t : errs (batch_openExists_one cfg i req) t (fun t' => quiet t t').
Proof.
  unfold batch_openExists_one. apply errs_seq; [apply errs_ro; [ro|done]|]. do 1 okstep.
  destruct (in_type (i_data i)) as [f|d|p]; [|by apply errs_ro; [ro|]|by apply errs_ro; [ro|]].
  do 4 (apply errs_seq; [by apply errs_ro; [ro|]|]; okstep).
  destruct (clear_sbits _ _ _) as [x1 d1]. apply errs_seq; [by apply errs_ro; [ro|]|]. apply oks_quiet; [ro|]. intros [] t1 H1.
  destruct (fix_stripe _ _ _ _) as [x2 d2]. apply errs_seq; [|intros ? t2 _; apply errs_ret].
  unfold when. case_match; [apply errs_store_session|apply errs_ret].
Qed.

Lemma oks_batch_openExists_loop i e reqs dirty t :
  oks (batch_openExists_loop cfg i e reqs dirty) t
    (fun r t' => sessions_only t t' /\ kept i (fst (fst r)) /\ (snd (fst r) = true -> dirty = true \/ getType (i_data i) = IT_File)).
Proof.
  revert i dirty t. induction reqs as [|r reqs IH]; intros i dirty t; simpl; [apply oks_ret; split; [done|]; split; [done|]; simpl; auto|]. okif.
  - apply oks_bind. eapply oks_rel; [apply IH|]. intros [[i2 d2] res] t2 H2. by apply oks_ret.
  - apply oks_bind, oks_attempt.
    + intros [i1 d1] t1 E. destruct (oks_batch_openExists_one i r t _ _ E) as (H1 & K1 & Ht). simpl in *.
      apply oks_bind. eapply oks_rel; [apply IH|]. intros [[i2 d2] res] t2 (H2 & K2 & _). apply oks_ret. simpl in *.
      split; [etrans; [exact H1|exact H2]|]. split; [by etrans|auto].
    + intros c t1 E. pose proof (errs_batch_openExists_one i r t _ _ E) as Hq.
      apply oks_bind. eapply oks_rel; [apply IH|]. intros [[i2 d2] res] t2 (H2 & K2 & Hd). apply oks_ret. simpl in *.
      split; [etrans; [apply (quiet_sessions G _ _ Hq)|exact H2]|]. done.
Qed.

(** The inode is as the transaction sees it. *)
Lemma oks_batch_openExists i e reqs t :
  fs_inodes (view t) !! i_id i = Some (i_data i) ->
  oks (batch_openExists cfg i e reqs) t (fun _ t' => lands t t' /\
    forall j, j <> i_id i \/ getType (i_data i) <> IT_File -> fs_inodes (view t') !! j = fs_inodes (view t) !! j).
Proof.
  intros Hx. unfold batch_openExists. apply oks_bind. eapply oks_rel; [apply oks_batch_openExists_loop|].
  intros [[i1 dirty] res] t1 (H1 & K1 & Hd). simpl in *. apply oks_bind. apply oks_when; intros Hdirty.
  - destruct (Hd Hdirty) as [|Ht]; [done|]. apply oks_bind, oks_track. intros t2 H2 K2. apply oks_Inode_store, oks_ret. split.
    + etrans; [apply H1|]. eapply (kept_file_lands t1 t2 i i1); try done; [by rewrite (so_inodes _ _ _ H1)|congruence].
    + intros j [Hj|Hj]; [|done]. rewrite view_write, (quiet_view _ _ H2). simpl. destruct K1 as (Hid & _). rewrite Hid.
      rewrite lookup_partial_alter_ne by done. by rewrite (so_inodes _ _ _ H1).
  - apply oks_ret. split; [apply H1|]. intros j _. by rewrite (so_inodes _ _ _ H1).
Qed.

(** ** Creating *)

(** Nothing can commit any more: an id that was taken is in use. *)
Definition doomed (t t' : Txn) : Prop := grows t t' /\ forall s ids,
  tx_ids t' = tx_ids t ++ ids -> commits t' s = true -> NS G (shadow t s) -> unused G (shadow t s) ids -> False.

Lemma doomed_grows t t1 t2 : doomed t t1 -> grows t1 t2 -> doomed t t2.
Proof.
  intros [G1 D1] G2. split; [by etrans|]. intros s ids Hids Hc HN Hun. destruct (gr_ids _ _ G1) as [i1 I1], (gr_ids _ _ G2) as [i2 I2].
  rewrite I2, I1, <- app_assoc in Hids. apply app_inv_head in Hids as <-. apply unused_app in Hun as [Hun _].
  eapply D1; [done|by eapply grows_commits|done|done].
Qed.

Lemma doomed_lands t t' : doomed t t' -> lands t t'.
Proof. intros [Hg D]. split; [done|]. intros s ids Hids Hc HN Hun. exfalso. eauto. Qed.

Lemma lands_doomed t t1 t2 : lands t t1 -> doomed t1 t2 -> doomed t t2.
Proof.
  intros [G1 L1] [G2 D2]. split; [by etrans|]. intros s ids Hids Hc HN [Hnd Hun]. destruct (gr_ids _ _ G1) as [i1 I1], (gr_ids _ _ G2) as [i2 I2].
  rewrite I2, I1, <- app_assoc in Hids. apply app_inv_head in Hids as <-. apply NoDup_app in Hnd as (N1 & Nd & N2). apply Forall_app in Hun as [U1 U2].
  destruct (L1 s i1) as (j1 & J1 & M1); [done|by eapply grows_commits|done|by split|].
  eapply (D2 s i2); [done|done|by eapply ns_moves_NS|]. split; [done|]. rewrite Forall_forall in U2 |- *. intros id Hid.
  destruct (U2 id Hid) as [Hok Hfree]. split; [done|]. eapply ns_moves_free; [done..|]. intros Hj. apply (Nd id); [by apply J1|done].
Qed.

(** The directory that the batch works on. *)
Section create.
Context (p : InodeId) (y : InodeData) (Hp : public G p) (Hydir : getType y = IT_Directory).

Definition present (t : Txn) : Prop := fs_inodes (view t) !! p = Some y.

(** Steps that land and leave the directory as it was seen. *)
Definition steady (t t' : Txn) : Prop := grows t t' /\ (present t -> lands t t' /\ (doomed t t' \/ present t')).

Lemma steady_then t t1 t2 : steady t t1 -> steady t1 t2 -> steady t t2.
Proof.
  intros [G1 S1] [G2 S2]. split; [by etrans|]. intros HF. destruct (S1 HF) as [L1 [D1|F1]].
  - assert (D : doomed t t2) by (by eapply doomed_grows). split; [by apply doomed_lands|by left].
  - destruct (S2 F1) as [L2 [D2|F2]]; (split; [by etrans|]); [left; by eapply lands_doomed|by right].
Qed.

Lemma steady_same t t' : lands t t' -> fs_inodes (view t') !! p = fs_inodes (view t) !! p -> steady t t'.
Proof. intros L V. split; [by eapply lands_grows|]. intros HF. split; [done|]. right. unfold present. by rewrite V. Qed.

Lemma y_directory : exists d, in_type y = IV_Directory d.
Proof. unfold getType in Hydir. destruct (in_type y); [done|eauto|done]. Qed.

(** *** Layouts *)

Lemma Layout_valid_nonempty l : Layout_valid l true = Ok tt -> Layout_empty l = false -> Layout_valid l false = Ok tt.
Proof. unfold Layout_valid, Layout_empty. by destruct (ly_chains l). Qed.

Lemma oks_checkLayoutValid l t : oks (checkLayoutValid l) t (fun _ t' => quiet t t' /\ Layout_valid l true = Ok tt).
Proof.
  apply oks_conj; [by apply oks_quiet; [ro|]|]. unfold checkLayoutValid. do 2 okstep. destruct a.
  intros a t' _. done.
Qed.

Lemma ro_allocateChains l c : reads_only (allocateChainsForLayout l c).
Proof. unfold allocateChainsForLayout, roundRobin_global, roundRobin_directory, initial_counter. ro. Qed.

Lemma oks_allocateChains l c t :
  oks (allocateChainsForLayout l c) t (fun r t' => quiet t t' /\ forall l', fst r = Ok l' -> Layout_valid l' false = Ok tt).
Proof.
  apply oks_conj; [by apply oks_quiet; [apply ro_allocateChains|]|]. unfold allocateChainsForLayout.
  apply oks_bind. eapply oks_rel; [apply oks_checkLayoutValid|]. intros [] t1 (H1 & Hv). okif.
  - apply oks_ret. intros l' [= <-]. apply Layout_valid_nonempty; [done|]. by apply negb_true_iff.
  - apply oks_bind, oks_quiet; [ro|]. intros [ri|] t2 _; [|apply oks_fatal].
    destruct (getChainTable _ _ _); [|apply oks_fail]. do 4 okstep.
    apply oks_bind, oks_quiet; [unfold roundRobin_global, roundRobin_directory, initial_counter; ro|]. intros [b c'] t3 _.
    apply oks_bind, oks_quiet; [ro|]. intros seed t4 _. apply oks_ret. intros l' Hl'. cbn [fst] in Hl'.
    destruct (Layout_valid _ false) as [[]|?| |] eqn:Hv'; simplify_eq/=. done.
Qed.

Lemma ro_batch_create_layout parent d counter req : reads_only (batch_create_layout parent d counter req).
Proof. unfold batch_create_layout. repeat (apply ro_allocateChains || ro). Qed.

Lemma oks_batch_create_layout parent d counter req t :
  oks (batch_create_layout parent d counter req) t (fun r t' => quiet t t' /\ forall l, fst r = Ok l -> Layout_valid l false = Ok tt).
Proof.
  apply oks_conj; [by apply oks_quiet; [apply ro_batch_create_layout|]|]. unfold batch_create_layout. do 10 okstep. okif; [|okif].
  - apply oks_bind. eapply oks_rel; [apply oks_checkLayoutValid|]. intros [] t1 (H1 & Hv). apply oks_ret. intros l [= <-].
    apply Layout_valid_nonempty; [done|]. by apply negb_true_iff.
  - apply oks_bind. eapply oks_rel; [apply oks_allocateChains|]. intros [l c] t1 [_ H1]. by apply oks_ret.
  - apply oks_bind. eapply oks_rel; [apply oks_allocateChains|]. intros [l c] t1 [_ H1]. by apply oks_ret.
Qed.

(** *** One file *)

Lemma storable_new id acl l now dyn : isTreeRoot id = false -> Layout_valid l false = Ok tt ->
  storable (initial_stripe cfg dyn (newFileInode id acl l now) l) = Ok tt.
Proof.
  intros Hr Hl. destruct (initial_stripe_type cfg dyn id acl l now) as (Hid & _ & _ & _ & f & Hf & Hfl).
  unfold storable. rewrite Hid, Hr, Hf, Hfl, Hl. done.
Qed.

Definition req_name (req : CreateReq) : string := req_filename (op_path (cr_open req)).

Lemma oks_batch_create_file parent layout req t t1 :
  i_id parent = p -> quiet t t1 ->
  oks (batch_create_file cfg parent req layout) t1 (fun r t' => grows t t' /\ fs_inodes (view t') !! i_id (fst r) = Some (i_data (fst r)) /\
    (present t -> fs_entries (view t) !! (p, req_name req) = None -> lands t t' /\ (doomed t t' \/ present t' /\ i_id (fst r) <> p))).
Proof.
  intros Hpar H1. destruct parent as [pp pd]. simpl in Hpar. subst pp. unfold batch_create_file. apply oks_bind, oks_allocateInodeId. intros id t2 H2. do 2 okstep.
  apply oks_bind, oks_quiet; [unfold op_now; ro|]. intros now t3 H3. simpl.
  set (acl := mkAcl _ _ _ _). destruct (initial_stripe_type cfg (op_dynStripe (cr_open req)) id acl layout now) as (Hid & Ht & Hl & Hnd & _).
  set (ni := initial_stripe _ _ _ _) in *. apply oks_bind, oks_track. intros t4 H4 K4. apply oks_bind, oks_track. intros t5 H5 K5.
  apply oks_bind, oks_DirEntry_store. intros Hn _. apply oks_bind, oks_Inode_store. apply oks_bind.
  set (e := set_de_uuid _ _) in *. simpl in *. set (t6 := add_write _ (add_write _ t5)).
  assert (T5 : took [de_id e] t t5).
  { eapply quiet_took; [exact H1|]. eapply took_quiet; [exact H2|]. etrans; [exact H3|]. etrans; [exact H4|exact H5]. }
  assert (K4' : tracked t5 (KInode p)) by (eapply (grows_tracked t4); [by apply quiet_grows|done]).
  assert (G6 : grows t t6) by (etrans; [by eapply took_grows|]; etrans; apply grows_write).
  assert (V6 : fs_inodes (view t6) = <[id := i_data ni]> (fs_inodes (view t))).
  { unfold t6. rewrite !view_write, (took_view _ _ _ T5). simpl. by rewrite Hid. }
  apply (oks_rel _ _ (fun _ t7 => sessions_only t6 t7)).
  { apply oks_when; intros _; [|done]. apply oks_store_session. }
  intros [] t7 H7. apply oks_ret. split; [etrans; [exact G6|by eapply lands_grows, H7]|]. simpl.
  rewrite (so_inodes _ _ _ H7), V6, Hid. split; [by rewrite lookup_insert_eq|]. intros HF He.
  destruct y_directory as [d' Hd'].
  assert (L6 : lands t t6).
  { unfold t6. rewrite Hid. eapply (create_lands G t t5 p (req_name req) e (i_data ni) y d'); try done; intros d0 Hd0; congruence. }
  split; [etrans; [exact L6|apply H7]|]. destruct (decide (id = p)) as [Heq|Hne].
  - left. eapply (doomed_grows t t6); [|by eapply lands_grows, H7]. split; [done|]. intros s ids Hids Hc _ Hun.
    assert (I6 : tx_ids t6 = tx_ids t ++ [id]) by apply T5. rewrite I6 in Hids. apply app_inv_head in Hids as <-.
    destruct (unused_one _ _ _ Hun) as [_ [Hnone _]]. rewrite Heq, <- (took_shadow _ _ _ s T5), tracked_inode, (took_view _ _ _ T5) in Hnone.
    + unfold present in HF. congruence.
    + eapply grows_commits; [|exact Hc]. etrans; apply grows_write.
    + done.
  - right. split; [|done]. unfold present. rewrite (so_inodes _ _ _ H7), V6. by rewrite lookup_insert_ne.
Qed.

(** A creation that fails has written nothing. *)
Lemma errs_allocateInodeId b t : errs (allocateInodeId cfg b) t (fun t' => exists ids, took ids t t').
Proof.
  assert (Hq : forall t', quiet t t' -> exists ids, took ids t t').
  { intros t' [? ? ? ?]. exists []. split; try done. by rewrite app_nil_r. }
  unfold allocateInodeId. apply errs_seq; [apply errs_ro; [ro|done]|]. apply oks_ask. intros n t1 H1.
  apply errs_seq; [apply errs_ro; [ro|intros t' H; apply Hq; by etrans]|]. okstep. set (id := if b then _ else _).
  apply errs_seq; [apply errs_modify|]. apply oks_modify.
  assert (Ht : took [id] t (add_id id t1)).
  { eapply quiet_took; [exact H1|]. split; [done|exists []; by rewrite app_nil_r|done|done]. }
  apply errs_seq; [|intros ? ? _; apply errs_ret]. apply errs_ro; [ro|]. intros t' H. exists [id]. by eapply took_quiet.
Qed.

Lemma errs_batch_create_file parent layout req t t1 : quiet t t1 -> Layout_valid layout false = Ok tt ->
  errs (batch_create_file cfg parent req layout) t1 (fun t' => exists ids, took ids t t').
Proof.
  intros H1 Hlv. unfold batch_create_file. apply errs_seq.
  { eapply errs_mono; [apply errs_allocateInodeId|]. intros t' (ids & H). exists ids. by eapply quiet_took. }
  apply oks_allocateInodeId. intros id t2 H2. assert (Htk : forall t', quiet t2 t' -> exists ids, took ids t t').
  { intros t' H. exists [id]. eapply quiet_took; [exact H1|]. by eapply took_quiet. }
  apply errs_seq; [apply errs_ro; [ro|done]|]. okstep.
  apply errs_seq; [apply errs_ro; [unfold op_now; ro|done]|]. apply oks_quiet; [unfold op_now; ro|]. intros now t3 H3.
  apply errs_seq; [apply errs_ro; [unfold Inode_addIntoReadConflict; ro|intros; apply Htk; by etrans]|]. apply oks_track. intros t4 H4 _.
  apply errs_seq; [apply errs_ro; [unfold DirEntry_addIntoReadConflict; ro|intros; apply Htk; etrans; [exact H3|]; by etrans]|].
  apply oks_track. intros t5 H5 _. assert (H25 : quiet t2 t5) by (etrans; [exact H3|]; etrans; [exact H4|exact H5]).
  apply errs_seq.
  { unfold DirEntry_store. do 3 (apply errs_seq; [apply errs_ro; [ro|intros; apply Htk; by etrans]|]; okstep). apply errs_modify. }
  apply oks_DirEntry_store. intros _ Hroot. apply errs_seq.
  { unfold Inode_store. apply errs_seq; [|intros ? ? _; apply errs_modify]. intros c t' [= Hbad _]. simpl in Hroot. unfold e_id in Hroot. simpl in Hroot.
    by rewrite storable_new in Hbad. }
  apply oks_Inode_store. apply errs_seq; [|intros ? ? _; apply errs_ret]. unfold when. case_match; [apply errs_store_session|apply errs_ret].
Qed.

(** A request makes a file, or fails and has written nothing. *)
Lemma oks_create_or_fail parent d counter req t (Q : Inode * DirEntry -> Txn -> Prop) :
  (forall l t1, quiet t t1 -> oks (batch_create_file cfg parent req l) t1 Q) ->
  oks (batch_create_one cfg parent d counter req) t (fun r t' => match fst r with inl x => Q x t' | inr _ => exists ids, took ids t t' end).
Proof.
  intros HQ. assert (Hq : forall t', quiet t t' -> exists ids, took ids t t').
  { intros t' [? ? ? ?]. exists []. split; try done. by rewrite app_nil_r. }
  unfold batch_create_one. apply oks_bind, oks_attempt.
  - intros [lay c1] t1 E. destruct (oks_batch_create_layout parent d counter req t _ _ E) as [H1 Hlay]. simpl in Hlay.
    apply oks_bind, oks_attempt.
    + intros x t2 E2. destruct lay as [l|c| |]; try done. apply oks_ret. exact (HQ l t1 H1 _ _ E2).
    + intros c t2 E2. apply oks_ret. destruct lay as [l|c'| |]; try done; [|injection E2 as -> ->; by apply Hq].
      eapply errs_batch_create_file; [exact H1|by apply Hlay|exact E2].
  - intros c t1 E. pose proof (ro_batch_create_layout parent d counter req t) as H1. rewrite E in H1. simpl in H1.
    apply oks_bind, oks_attempt; [done|]. intros c' t2 [= <- <-]. apply oks_ret. by apply Hq.
Qed.

(** *** Many files *)

Lemma took_steady ids t t' : took ids t t' -> steady t t'.
Proof. intros H. apply steady_same; [by eapply took_lands|by rewrite (took_view _ _ _ H)]. Qed.

Lemma oks_batch_create_loop parent d counter reqs n t :
  i_id parent = p -> Forall (fun r => req_name r = n) reqs ->
  oks (batch_create_loop cfg parent d counter reqs) t (fun _ t' => grows t t' /\
    (present t -> fs_entries (view t) !! (p, n) = None -> lands t t' /\ (doomed t t' \/ present t'))).
Proof.
  intros Hpar. revert counter t. induction reqs as [|r reqs IH]; intros counter t Hn; simpl; [apply oks_ret; split; [done|]; intros HF _; split; [done|by right]|].
  apply Forall_cons in Hn as [Hn Hns]. apply oks_bind.
  eapply oks_rel; [apply oks_create_or_fail; intros l t1; by apply oks_batch_create_file|]. intros [[[i e]|c] c1] t1; simpl.
  - intros (G1 & V1 & S1). rewrite Hn in S1. apply oks_bind. eapply oks_rel; [by apply oks_batch_openExists|]. intros res t2 (L2 & V2). apply oks_ret.
    split; [etrans; [exact G1|by eapply lands_grows]|]. intros HF He. destruct (S1 HF He) as [L1 [D1|[F1 Hne]]].
    + assert (D : doomed t t2) by (eapply doomed_grows; [exact D1|by eapply lands_grows]). split; [by apply doomed_lands|by left].
    + split; [by etrans|]. right. unfold present. rewrite V2; [done|by left].
  - intros (ids & H1).
    apply oks_bind. eapply oks_rel; [by apply IH|]. intros [res c'] t2 (G2 & S2). apply oks_ret.
    split; [etrans; [by eapply took_grows|exact G2]|]. intros HF He. unfold present in *. rewrite (took_view _ _ _ H1) in S2.
    destruct (S2 HF He) as [L2 S2']. split; [etrans; [by eapply took_lands|exact L2]|]. destruct S2' as [D2|F2]; [left|by right].
    eapply lands_doomed; [by eapply took_lands|done].
Qed.

(** The requests of a group name the same file. *)
Definition one_name (g : list CreateReq) : Prop := exists n, Forall (fun r => req_name r = n) g.

Lemma oks_batch_create_name parent d counter g t :
  i_id parent = p -> one_name g -> oks (batch_create_name cfg parent d counter g) t (fun _ t' => steady t t').
Proof.
  intros Hpar [n Hn]. unfold batch_create_name. destruct g as [|r g]; [apply oks_ret; by apply steady_same|].
  pose proof Hn as Hn'. apply Forall_cons in Hn' as [Hr _]. do 2 okstep. fold (req_name r). rewrite Hr, Hpar.
  apply oks_bind, oks_DirEntry_snapshotLoad. destruct (fs_entries (view t) !! (p, n)) as [e|] eqn:He; simpl.
  - apply oks_bind, oks_snapshotLoadInode. intros x Hx _. apply oks_bind. eapply oks_rel; [by apply oks_batch_openExists|].
    intros res t1 (L1 & V1). apply oks_ret. split; [by eapply lands_grows|]. intros HF. split; [done|]. right. unfold present in *. simpl in *.
    rewrite V1; [done|]. destruct (decide (p = de_id e)) as [Heq|]; [right|by left]. unfold e_id in Hx. simpl in Hx. rewrite <- Heq, HF in Hx. simplify_eq.
    by rewrite Hydir.
  - eapply oks_rel; [exact (oks_batch_create_loop parent d counter (r :: g) n t Hpar Hn)|]. intros res t1 (G1 & S1). split; [done|]. intros HF. by apply S1.
Qed.

Lemma oks_batch_create_groups parent d counter gs t :
  i_id parent = p -> Forall one_name gs -> oks (batch_create_groups cfg parent d counter gs) t (fun _ t' => steady t t').
Proof.
  intros Hpar. revert counter t. induction gs as [|g gs IH]; intros counter t Hn; simpl; [apply oks_ret; by apply steady_same|].
  apply Forall_cons in Hn as [Hn Hns]. apply oks_bind. eapply oks_rel; [by apply oks_batch_create_name|]. intros [res c1] t1 S1.
  apply oks_bind. eapply oks_rel; [by apply IH|]. intros [more c2] t2 S2. apply oks_ret. by eapply steady_then.
Qed.
End create.

Lemma kept_directory i i' d : kept i i' -> in_type (i_data i') = IV_Directory d -> getType (i_data i) = IT_Directory.
Proof. intros (_ & [Ht _] & _) Hd. rewrite Ht. unfold getType. by rewrite Hd. Qed.

Lemma insert_create_one_name req gs : Forall (fun g => Forall (fun r => req_name r = fst g) (snd g)) gs ->
  Forall (fun g => Forall (fun r => req_name r = fst g) (snd g)) (insert_create (req_name req) req gs).
Proof.
  induction 1 as [|[n g] gs Hg Hgs IH]; simpl; [by repeat constructor|]. case_bool_decide as Hn; [|case_match; by repeat constructor].
  constructor; [|done]. simpl in *. apply Forall_app. by split; [|constructor].
Qed.

Lemma group_creates_one_name reqs : Forall one_name (snd <$> group_creates reqs).
Proof.
  assert (H : Forall (fun g => Forall (fun r => req_name r = fst g) (snd g)) (group_creates reqs)).
  { unfold group_creates. assert (H0 : Forall (fun g : string * list CreateReq => Forall (fun r => req_name r = fst g) (snd g)) []) by constructor.
    revert H0. generalize (@nil (string * list CreateReq)). induction reqs as [|r reqs IH]; intros gs H0; [done|]. by apply IH, insert_create_one_name. }
  apply Forall_fmap. eapply Forall_impl; [exact H|]. intros [n g] Hg. by exists n.
Qed.

(** The batch's own inode, as it was read, is under every later write. *)
Lemma oks_batch_create i0 i reqs t :
  public G (i_id i0) -> kept i0 i ->
  oks (batch_create cfg i reqs) t (fun r t' => steady (i_id i0) (i_data i0) t t' /\ kept i0 (fst (fst r))).
Proof.
  intros Hp K. unfold batch_create. destruct reqs as [|r reqs]; [apply oks_ret; split; [by apply steady_same|done]|].
  destruct (in_type (i_data i)) as [f|d|l] eqn:Hd; [apply oks_ret; split; [by apply steady_same|done]| |apply oks_ret; split; [by apply steady_same|done]].
  do 2 okstep. apply oks_bind. eapply oks_rel.
  { apply (oks_batch_create_groups (i_id i0) (i_data i0)); [done|by eapply kept_directory|by destruct K|apply group_creates_one_name]. }
  intros [res c] t1 S1. apply oks_ret. split; [done|]. simpl. etrans; [exact K|]. split; [done|]. split; [|done].
  split; [unfold getType; by rewrite Hd|]. unfold as_dir. by rewrite Hd.
Qed.

Lemma batch_run_lands onServer stored st b t :
  public G (bt_inodeId b) -> oks (batch_run cfg onServer stored st b) t (fun _ t' => lands t t').
Proof.
  intros Hp. unfold batch_run. do 2 okstep. apply oks_bind, oks_Inode_snapshotLoad. do 2 okstep. apply checkMetaFound_inv in Hlift.
  apply fmap_Some in Hlift as (x & Hx & ->). apply oks_bind, oks_quiet; [ro|]. intros st1 t1 H1.
  apply oks_bind. eapply oks_rel; [apply oks_syncAndClose|]. intros [[[[i1 d1] next] res1] res2] t2 (H2 & K1).
  apply oks_bind. eapply oks_rel; [apply oks_batch_setAttr|]. intros [[i2 d2] res3] t3 (L3 & V3 & K2). simpl in K1, K2.
  set (i0 := mkInode (bt_inodeId b) x) in *. assert (K02 : kept i0 i2) by (etrans; [exact K1|exact K2]).
  apply oks_bind. eapply oks_rel; [by apply (oks_batch_create i0)|]. intros [[i3 d3] res4] t4 ([G4 S4] & K3). simpl in K3.
  assert (L03 : lands t t3).
  { etrans; [apply (quiet_lands G _ _ H1)|]. etrans; [apply H2|exact L3]. }
  assert (F3 : present (i_id i0) (i_data i0) t3) by (unfold present; rewrite V3, (so_inodes _ _ _ H2), (quiet_view _ _ H1); exact Hx).
  destruct (S4 F3) as [L4 Hor]. apply oks_bind. apply oks_when; intros _; [|apply oks_ret; etrans; [exact L03|exact L4]].
  apply oks_bind, oks_track. intros t5 H5 K5. apply oks_Inode_store, oks_ret. etrans; [exact L03|].
  destruct Hor as [D4|F4].
  - apply doomed_lands. eapply doomed_grows; [exact D4|]. etrans; [by apply quiet_grows|apply grows_write].
  - etrans; [exact L4|]. eapply (kept_lands G t4 t5 i0 i3); try done. by destruct Hp.
Qed.
End land.
