(* ===== verification/FsGcLand.v ===== *)
(** * Garbage collection lands

    A task works on an inode that has no name left.  What it removes, in a
    directory that was removed, may be kept: it then becomes an orphan, in a
    directory below the root that is made for it. *)

From Stdlib Require Import ZArith Lia.
From stdpp Require Import base gmap list strings.
From S2P Require Import Prelude StatusCode MgmtdTypes FsTypes FsTxn FsGc FsNamespace FsMoves FsTracked FsResolved FsOpsLand.

Section land.
Context {HEnv : FsEnv} (cfg : FsConfig) (G : gset InodeId).
Context (Hcurr : forall g, g ∈ fe_currGcDirectories -> g ∈ G) (Hall : forall g, g ∈ fe_allGcDirectories -> g ∈ G).

(** ** Dead inodes *)

(** No name leads to the inode, if it is still there. *)
Definition dead (s : FsStore) (id : InodeId) (ty : InodeType) : Prop := forall x, fs_inodes s !! id = Some x -> in_nlink x = 0 /\ getType x = ty.

Lemma ns_move_dead ids s s' id ty : NS G s -> ns_move G ids s s' -> isTreeRoot id = false -> dead s id ty -> id ∉ ids -> dead s' id ty.
Proof.
  intros HN Hm Hr Hd Hid.
  assert (Hname : forall p n e x, name_of G s p n e x -> de_id e <> id).
  { intros p n e x Hnm <-. destruct (name_of_nlink G _ _ _ _ _ HN Hnm) as (_ & Hpos & _). destruct Hnm as (_ & _ & _ & Hx).
    destruct (Hd _ Hx). lia. }
  assert (Hone : forall i x' I, I = fs_inodes s -> i <> id -> forall y, <[i := x']> I !! id = Some y -> in_nlink y = 0 /\ getType y = ty).
  { intros i x' I -> Hi y Hy. rewrite lookup_insert_ne in Hy by done. auto. }
  assert (Hdel : forall i y, delete i (fs_inodes s) !! id = Some y -> in_nlink y = 0 /\ getType y = ty).
  { intros i y [_ Hy]%lookup_delete_Some. auto. }
  unfold dead. destruct Hm; simpl; eauto.
  - apply Hone; [done|]. intros <-. by apply Hid, list_elem_of_singleton.
  - apply Hone; [done|]. intros <-. by destruct (Hd _ H0).
  - intros y Hy. destruct (decide (id0 = id)) as [->|Hn]; [|by eapply Hone].
    rewrite lookup_insert_eq in Hy. simplify_eq. destruct (Hd _ H) as [H3 H4]. destruct H0 as [H5 _]. split; congruence.
Qed.

Lemma ns_moves_dead ids s s' id ty : NS G s -> ns_moves G ids s s' -> isTreeRoot id = false -> dead s id ty -> id ∉ ids -> dead s' id ty.
Proof.
  intros HN Hm Hr. revert HN. induction Hm as [s|ids ids' s1 s2 s3 H1 H2 IH]; intros HN Hd Hid; [done|].
  rewrite elem_of_app in Hid. apply IH; [by eapply ns_move_NS|eapply ns_move_dead; [exact HN|done..|]|]; tauto.
Qed.

(** ** Tasks *)

(** A task is about an entry of a garbage directory. *)
Record task_ok (task : GcTask) : Prop := {
  tk_dir : e_parent (gt_entry task) ∈ G;
  tk_name : gc_name (e_name (gt_entry task)) (e_id (gt_entry task));
  tk_id : ok_id G (e_id (gt_entry task))
}.

Definition task_dead (s : FsStore) (task : GcTask) : Prop := dead s (e_id (gt_entry task)) (e_type (gt_entry task)).

(** Entries that a scan finds. *)
Lemma scanned_ok s g n e type : NS G s -> g ∈ G -> fs_entries s !! (g, n) = Some e ->
  let task := mkGcTask type (mkDirEntry g n e) in task_ok task /\ task_dead s task.
Proof.
  intros HN Hg He. split.
  - split; simpl; [done|by eapply ns_gcname|]. unfold e_id. simpl. split_and!; [by eapply ns_notroot| |by eapply (ns_range _ _ HN)].
    intros H. destruct (ns_gcdirs _ _ HN _ H) as (_ & _ & x & Hx & _ & Hz). destruct (lookup_of _ _ _ Hx) as (_ & Ln & _).
    by destruct (ns_garbage _ _ HN _ _ _ _ He Hg Ln).
  - intros x Hx. unfold e_id, e_type in *. simpl in *. destruct (lookup_of _ _ _ Hx) as (_ & Ln & Lt).
    destruct (ns_garbage _ _ HN _ _ _ _ He Hg Ln) as (H1 & H2 & _). split; [done|]. congruence.
Qed.

Section task.
Context (task : GcTask) (Hok : task_ok task).
Notation T := (e_id (gt_entry task)).

(** The entry a task names, if it is there, leads to the task's inode. *)
Lemma task_entry s e : NS G s -> fs_entries s !! (e_parent (gt_entry task), e_name (gt_entry task)) = Some e -> de_id e = T.
Proof.
  intros HN He. destruct Hok as [Hg Hn (_ & _ & Hid)]. eapply gc_name_inj; [by eapply (ns_range _ _ HN)|done|by eapply (ns_gcname _ _ HN)|done].
Qed.

Lemma collect_moves s ty S' : NS G s -> dead s T ty -> no_entries s T ->
  ns_move G [] s (mkFsStore (delete T (fs_inodes s)) (delete (e_parent (gt_entry task), e_name (gt_entry task)) (fs_entries s)) S').
Proof.
  intros HN Hd Hno. apply mv_collect; [apply Hok|apply Hok|apply Hok| |by apply Hd|done]. intros e He. by eapply task_entry.
Qed.

(** ** Moving to the tail *)

Lemma gc_moveToTail_at delay t :
  (forall n, formatGcEntry (prefixOf (gt_type task)) (fe_utc n + delay) T <> e_name (gt_entry task)) ->
  oks (gc_moveToTail task delay) t (fun _ t' => grows t t' /\ tx_ids t' = tx_ids t /\
    forall s, commits t' s = true -> NS G (shadow t s) -> task_dead (shadow t s) task -> ns_moves G [] (shadow t s) (shadow t' s)).
Proof.
  intros Hnew. unfold gc_moveToTail. apply oks_bind, oks_DirEntry_checkExist. intros t1 H1 K1. apply oks_when; intros Hex.
  2: { split; [by apply quiet_grows|]. split; [apply H1|]. intros s _ _ _. rewrite (quiet_shadow _ _ s H1). constructor. }
  apply oks_bind, oks_ask. intros n t2 H2. do 4 okstep. apply oks_bind, oks_DirEntry_store. intros Hn1 _. apply oks_DirEntry_remove. intros _. simpl in *.
  assert (H02 : quiet t t2) by (by etrans).
  split; [etrans; [by apply quiet_grows|]; etrans; apply grows_write|]. split; [apply H02|]. intros s Hc HN Hd.
  rewrite !shadow_write, (quiet_shadow _ _ s H02). apply ns_moves_one. destruct Hok as [Hg Hgn (Hr & HG & Hid)].
  assert (C1 : commits t1 s = true) by (eapply grows_commits; [|exact Hc]; etrans; [by apply quiet_grows|]; etrans; apply grows_write).
  apply bool_decide_eq_true_1 in Hex as [e He].
  assert (He' : fs_entries (shadow t s) !! (e_parent (gt_entry task), e_name (gt_entry task)) = Some e).
  { by rewrite <- (quiet_shadow _ _ s H1), tracked_entry, (quiet_view _ _ H1). }
  pose proof (task_entry _ _ HN He') as Heid.
  apply (mv_requeue G (shadow t s) _ _ (formatGcEntry (prefixOf (gt_type task)) (fe_utc n + delay) T) e (e_data (gt_entry task)) (fs_sessions (shadow t s))); try done.
  - destruct (fs_entries (shadow t s) !! (e_parent (gt_entry task), formatGcEntry (prefixOf (gt_type task)) (fe_utc n + delay) T)) as [e2|] eqn:He2; [|done]. exfalso. apply (Hnew n).
    assert (Hk : (e_parent (gt_entry task), formatGcEntry (prefixOf (gt_type task)) (fe_utc n + delay) T) = (e_parent (gt_entry task), e_name (gt_entry task))).
    { apply (ns_onegc _ _ HN _ _ _ _ He2 He'); [done|done|]. rewrite Heid.
      eapply gc_name_inj; [by eapply (ns_range _ _ HN)|done|by eapply (ns_gcname _ _ HN)|unfold gc_name; eauto]. }
    by injection Hk.
  - rewrite Heid. unfold gc_name. eauto.
  - intros x Hx. rewrite Heid in Hx. by destruct (Hd x Hx).
Qed.

(** ** Removing the inode *)

Lemma removeGc_at t :
  oks (removeGcEntryAndInode task) t (fun _ t' => grows t t' /\ tx_ids t' = tx_ids t /\
    forall s, NS G (shadow t s) -> task_dead (shadow t s) task -> no_entries (shadow t s) T -> ns_moves G [] (shadow t s) (shadow t' s)).
Proof.
  unfold removeGcEntryAndInode. apply oks_bind, oks_DirEntry_remove. intros _. apply oks_Inode_remove. intros _ _. simpl.
  split; [etrans; apply grows_write|]. split; [done|]. intros s HN Hd Hno. rewrite !shadow_write. apply ns_moves_one.
  by eapply (collect_moves (shadow t s) _ (fs_sessions (shadow t s))).
Qed.

(** The transaction of [gcFile], after the chunks are removed. *)
Lemma gcFile_at t :
  e_type (gt_entry task) <> IT_Directory ->
  oks (removeGcEntryAndInode task) t (fun _ t' => grows t t' /\ tx_ids t' = tx_ids t /\
    forall s, NS G (shadow t s) -> task_dead (shadow t s) task -> ns_moves G [] (shadow t s) (shadow t' s)).
Proof.
  intros Hty. eapply oks_rel; [apply removeGc_at|]. intros [] t' (Hg & Hi & Hm). split; [done|]. split; [done|]. intros s HN Hd. apply Hm; [done|done|].
  apply NS_no_entries with (G := G); [done|]. rewrite dir_type. unfold type_of. destruct (fs_inodes (shadow t s) !! T) as [x|] eqn:Hx; [|done].
  destruct (Hd x Hx) as [_ Ht]. simpl. congruence.
Qed.

(** ** Directories that live *)

Lemma live_dir s X p : NS G s -> live_path s X p -> is_dir s p.
Proof. intros HN Hl. destruct Hl as [|q p Hp _ _ _]; unfold is_dir; [rewrite (ns_root _ _ HN)|rewrite Hp]; eauto. Qed.

Lemma live_public s X p : NS G s -> live_path s X p -> public G p.
Proof.
  intros HN Hl. induction Hl as [|q p Hp Hz Hne Hl IH]; [by eapply public_root|]. destruct IH as [HG Hr]. split.
  - intros Hg. destruct (ns_gcdirs _ _ HN _ Hg) as (_ & Hp' & _). congruence.
  - intros ->. rewrite (ns_gcRoot _ _ HN) in Hp. congruence.
Qed.

Lemma live_alive s X p ty : NS G s -> dead s T ty -> live_path s X p -> p <> T.
Proof.
  intros HN Hd Hl ->. destruct Hok as [_ _ (Hr & _)]. remember T as q eqn:Eq. destruct Hl as [|q p Hp Hz Hne Hl]; [done|].
  subst q. unfold parent_of, nlink_of in *. destruct (fs_inodes s !! T) as [x|] eqn:Hx; [|done]. simpl in *. destruct (Hd x Hx). congruence.
Qed.

(** Directories keep living when one is created. *)
Lemma live_create s s' X p id : NS G s -> fs_inodes s !! id = None -> (forall i, i <> id -> fs_inodes s' !! i = fs_inodes s !! i) ->
  live_path s X p -> live_path s' X p.
Proof.
  intros HN Hnone HI. induction 1 as [|q p Hp Hz Hne Hl IH]; [by constructor|].
  assert (Hq : q <> id) by (intros ->; unfold parent_of in Hp; by rewrite Hnone in Hp).
  apply (lp_step _ _ _ p); [unfold parent_of; by rewrite HI|unfold nlink_of; by rewrite HI|done|done].
Qed.

(** ** Orphans *)

(** What the making of a place for the orphan [X] leaves alone. *)
Record orphan_frame (X : InodeId) (s s' : FsStore) : Prop := {
  of_inode : fs_inodes s' !! X = fs_inodes s !! X;
  of_task : fs_inodes s' !! T = fs_inodes s !! T;
  of_entries : forall n, fs_entries s' !! (T, n) = fs_entries s !! (T, n);
  of_live : forall p, live_path s X p -> live_path s' X p
}.

#[local] Instance orphan_frame_preorder X : PreOrder (orphan_frame X).
Proof.
  split; [intros s; by split|]. intros s1 s2 s3 [? ? ? ?] [? ? ? ?]. split; [congruence|congruence|congruence|auto].
Qed.

(** An inode below the task's directory. *)
Record below (s : FsStore) (X : InodeId) : Prop := {
  bl_dead : task_dead s task;
  bl_dir : is_dir s T;
  bl_inode : exists x, fs_inodes s !! X = Some x /\ in_nlink x <> 0 /\ forall d, as_dir x = Some d -> di_parent d = T
}.

Lemma below_frame s s' X : orphan_frame X s s' -> below s X -> below s' X.
Proof. intros [Hi Ht _ _] [Hd Hp Hx]. split; [unfold task_dead, dead in *; by rewrite Ht|unfold is_dir, parent_of in *; by rewrite Ht|by rewrite Hi]. Qed.

Lemma below_ne s X : below s X -> X <> T.
Proof. intros [Hd _ (x & Hx & Hl & _)] ->. by destruct (Hd x Hx). Qed.

(** From [t] to [t'] such a place is made, as moves, and [P] holds then. *)
Definition places (X : InodeId) (t t' : Txn) (Pre Post : FsStore -> Prop) : Prop := grows t t' /\
  forall s ids, tx_ids t' = tx_ids t ++ ids -> commits t' s = true -> NS G (shadow t s) -> below (shadow t s) X -> Pre (shadow t s) ->
    unused G (shadow t s) ids ->
    exists ids', ids' ⊆ ids /\ ns_moves G ids' (shadow t s) (shadow t' s) /\ orphan_frame X (shadow t s) (shadow t' s) /\ Post (shadow t' s).

Lemma places_trans X t t1 t2 P Q R : places X t t1 P Q -> places X t1 t2 Q R -> places X t t2 P R.
Proof.
  intros [G1 L1] [G2 L2]. split; [by etrans|]. intros s ids Hids Hc HN Hb HP [Hnd Hun]. destruct (gr_ids _ _ G1) as [i1 I1], (gr_ids _ _ G2) as [i2 I2].
  rewrite I2, I1, <- app_assoc in Hids. apply app_inv_head in Hids as <-. apply NoDup_app in Hnd as (N1 & Nd & N2). apply Forall_app in Hun as [U1 U2].
  destruct (L1 s i1) as (j1 & J1 & M1 & F1 & Q1); [done|by eapply grows_commits|done|done|done|by split|].
  destruct (L2 s i2) as (j2 & J2 & M2 & F2 & R2); [done|done|by eapply ns_moves_NS|by eapply below_frame|done| |].
  - split; [done|]. rewrite Forall_forall in U2 |- *. intros id Hid. destruct (U2 id Hid) as [Hk Hf]. split; [done|].
    eapply ns_moves_free; [done..|]. intros Hj. apply (Nd id); [by apply J1|done].
  - exists (j1 ++ j2). split; [|split; [by eapply ns_moves_app|split; [by etrans|done]]].
    intros id. rewrite !elem_of_app. intros [?|?]; [left|right]; auto.
Qed.

Lemma places_same X t t' (P : FsStore -> Prop) : quiet t t' -> places X t t' P P.
Proof.
  intros H. split; [by apply quiet_grows|]. intros s ids _ _ _ _ HP _. rewrite (quiet_shadow _ _ s H). exists [].
  split; [apply list_subseteq_nil|]. split; [constructor|done].
Qed.

Lemma places_weaken X t t' (P P' Q Q' : FsStore -> Prop) : places X t t' P Q ->
  (forall s, commits t' s = true -> NS G (shadow t s) -> below (shadow t s) X -> P' (shadow t s) -> P (shadow t s)) ->
  (forall s, NS G (shadow t' s) -> below (shadow t' s) X -> Q (shadow t' s) -> Q' (shadow t' s)) -> places X t t' P' Q'.
Proof.
  intros [Hg L] HP HQ. split; [done|]. intros s ids Hids Hc HN Hb HP' Hun. destruct (L s ids Hids Hc HN Hb (HP s Hc HN Hb HP') Hun) as (ids' & J & M & F & Q1).
  exists ids'. split; [done|]. split; [done|]. split; [done|]. apply HQ; [by eapply ns_moves_NS|by eapply below_frame|done].
Qed.

(** Something new in a directory that is not the task's. *)
Lemma create_places X t t1 t' p n e x (P Q : FsStore -> Prop) :
  took [de_id e] t t1 -> grows t1 t' -> tx_ids t' = tx_ids t1 ->
  (forall s, shadow t' s = mkFsStore (<[de_id e := x]> (fs_inodes (shadow t s))) (<[(p, n) := e]> (fs_entries (shadow t s))) (fs_sessions (shadow t s))) ->
  tracked t1 (KEntry p n) -> fs_entries (view t) !! (p, n) = None -> checkName n = true ->
  getType x = de_type e -> in_nlink x = 1 -> (forall d, as_dir x = Some d -> di_parent d = p) ->
  (forall s, NS G s -> below s X -> P s -> is_dir s p /\ public G p /\ p <> T) ->
  (forall s s', NS G s -> below s X -> P s -> fs_inodes s !! de_id e = None -> fs_inodes s' = <[de_id e := x]> (fs_inodes s) -> Q s') ->
  places X t t' P Q.
Proof.
  intros H1 G2 I2 Hsh K1 Hv Hn Hty Hl Hpar HP HQ. split; [etrans; [by eapply took_grows|done]|].
  intros s ids Hids Hc HN Hb HPs Hun. rewrite I2, (tk_ids _ _ _ H1) in Hids. apply app_inv_head in Hids as <-.
  destruct (unused_one _ _ _ Hun) as [(Hr & HG & Hid) [Hi Hu]]. destruct (HP _ HN Hb HPs) as (Hpd & Hpp & HpT).
  assert (Hfree : fs_entries (shadow t s) !! (p, n) = None).
  { rewrite <- (took_shadow _ _ _ s H1), tracked_entry, (took_view _ _ _ H1); [done| |done]. by eapply grows_commits. }
  rewrite Hsh. exists [de_id e]. split; [done|]. split.
  { apply ns_moves_one, mv_create; try done. split; [done|]. split; [done|]. split; [done|]. by apply checkName_nonempty. }
  assert (HX : X <> de_id e) by (intros ->; destruct Hb as [_ _ (x' & Hx' & _)]; congruence).
  assert (HT : T <> de_id e).
  { intros HT. destruct Hb as [_ Hd _]. unfold is_dir, parent_of in Hd. rewrite HT, Hi in Hd. by apply is_Some_None in Hd. }
  split; [|by apply (HQ (shadow t s))]. split; simpl.
  - by rewrite lookup_insert_ne.
  - by rewrite lookup_insert_ne.
  - intros m. rewrite lookup_insert_ne; [done|]. by intros [= -> _].
  - intros q Hq. eapply live_create; [exact HN|exact Hi| |done]. intros i Hi'. simpl. by rewrite lookup_insert_ne.
Qed.

Lemma oks_gc_allocateInodeId t (Q : InodeId -> Txn -> Prop) :
  (forall id t', took [id] t t' -> Q id t') -> oks gc_allocateInodeId t Q.
Proof.
  intros HQ. unfold gc_allocateInodeId. apply oks_bind, oks_ask. intros n t1 H1. do 4 okstep. apply oks_bind, oks_Inode_load. intros t2 H2 _. okstep. okstep. okstep.
  apply HQ. eapply took_quiet; [|exact H2]. eapply quiet_took; [done|]. split; [done|exists []; by rewrite app_nil_r|done|done].
Qed.

(** A directory found by its name in one that lives, lives. *)
Lemma live_entry s X p n e : NS G s -> below s X -> live_path s X p -> fs_entries s !! (p, n) = Some e -> de_type e = IT_Directory -> live_path s X (de_id e).
Proof.
  intros HN Hb Hl He Ht. destruct (live_public _ _ _ HN Hl) as [HG _]. pose proof (ns_target _ _ HN _ _ _ He HG) as Hty. rewrite Ht in Hty.
  apply dir_type in Hty as [q Hq]. pose proof (ns_dirlink _ _ HN _ _ _ _ He HG Hq) as ->.
  assert (HpT : p <> T) by (eapply live_alive; [done|apply Hb|done]).
  apply (lp_step _ _ _ p); [done| | |done].
  - intros Hz. apply (ns_nlink _ _ HN) in Hz; [|by eapply (ns_notroot _ _ HN)].
    assert (1 <= links G (fs_entries s) (de_id e))%nat; [|lia]. by eapply links_pos.
  - intros HX. destruct Hb as [_ _ (x & Hx & _ & Hd)]. rewrite HX in Hq. unfold parent_of in Hq. rewrite Hx in Hq. simpl in Hq.
    destruct (as_dir x) as [d|]; [|done]. simplify_eq/=. by destruct HpT; rewrite <- (Hd d).
Qed.

Lemma oks_orphan_step X fuel i p fname t :
  oks (orphan_step fuel i p fname) t (fun q t' => places X t t' (fun s => live_path s X p) (fun s => live_path s X q)).
Proof.
  revert i t. induction fuel as [|fuel IH]; intros i t; simpl; [apply oks_lift; done|]. set (name := match i with O => _ | _ => _ end).
  apply oks_bind, oks_DirEntry_load. intros t1 H1 K1. destruct (fs_entries (view t) !! (p, name)) as [e|] eqn:He; simpl.
  - case_bool_decide as Ht; [|eapply oks_rel; [apply IH|]; intros q t' L; eapply places_trans; [by apply places_same|exact L]].
    apply oks_ret. eapply places_weaken; [by apply (places_same X t t1 (fun s => live_path s X (de_id e)))| |done].
    intros s Hc HN Hb Hl. eapply live_entry; [done|done|done| |done]. by rewrite <- (quiet_shadow _ _ s H1), tracked_entry, (quiet_view _ _ H1).
  - apply oks_bind, oks_gc_allocateInodeId. intros id t2 H2. apply oks_bind, oks_DirEntry_store. intros Hn _. apply oks_bind, oks_ask. intros k t3 H3.
    apply oks_bind, oks_Inode_store, oks_ret. cbn [e_parent e_name e_data i_id i_data newDirectoryEntry newDirectoryInode newInode] in *.
    set (e := mkDirEntryData id _ _ _ _) in *. match goal with |- context [WInode id (Some ?y)] => set (x := y) end.
    assert (H02 : took [de_id e] t t2) by (by eapply quiet_took).
    eapply (create_places X t t2 _ p name e x); try done.
    + etrans; [apply grows_write|]. etrans; [by apply quiet_grows|apply grows_write].
    + simpl. by rewrite (qt_ids _ _ H3).
    + intros s. by rewrite shadow_write, (quiet_shadow _ _ s H3), shadow_write, (took_shadow _ _ _ s H02).
    + eapply (grows_tracked t1); [eapply took_grows; exact H2|done].
    + intros d [= <-]. done.
    + intros s HN Hb Hl. split; [by eapply live_dir|]. split; [by eapply live_public|]. eapply live_alive; [done|apply Hb|done].
    + intros s s' HN Hb Hl Hnone HI. apply (lp_step _ _ _ p).
      * unfold parent_of. rewrite HI. by rewrite lookup_insert_eq.
      * unfold nlink_of. rewrite HI. by rewrite lookup_insert_eq.
      * intros ->. destruct Hb as [_ _ (y & Hy & _)]. simpl in Hnone. congruence.
      * eapply live_create; [done|exact Hnone| |done]. intros j Hj. rewrite HI. by rewrite lookup_insert_ne.
Qed.

Lemma oks_orphan_directory X names p t :
  oks (orphan_directory p names) t (fun q t' => places X t t' (fun s => live_path s X p) (fun s => live_path s X q)).
Proof.
  revert p t. induction names as [|n names IH]; intros p t; [by apply oks_ret, places_same|]. cbn [orphan_directory].
  okstep. okstep. apply oks_bind. eapply oks_rel; [apply (oks_orphan_step X)|]. intros q t1 L1. eapply oks_rel; [apply IH|]. intros q' t2 L2. eapply places_trans; [exact L1|exact L2].
Qed.

(** A directory that the link to the original path may be made in. *)
Definition roomy (s : FsStore) (p : InodeId) : Prop := is_dir s p /\ public G p /\ p <> T.

Lemma roomy_live s X p : NS G s -> below s X -> live_path s X p -> roomy s p.
Proof. intros HN Hb Hl. split; [by eapply live_dir|]. split; [by eapply live_public|]. eapply live_alive; [done|apply Hb|done]. Qed.

Lemma roomy_below s X x d : NS G s -> below s X -> fs_inodes s !! X = Some x -> as_dir x = Some d -> roomy s X.
Proof.
  intros HN Hb Hx Hd. assert (Hp : parent_of s X = Some T).
  { destruct Hb as [_ _ (y & Hy & _ & Hyd)]. rewrite Hx in Hy. injection Hy as <-. unfold parent_of. rewrite Hx. simpl. rewrite Hd. simpl. by rewrite (Hyd d). }
  destruct Hok as [_ _ (Hr & _)]. split; [unfold is_dir; by rewrite Hp|]. split; [|by eapply below_ne]. split.
  - intros HG. destruct (ns_gcdirs _ _ HN _ HG) as (_ & Hp' & _). rewrite Hp' in Hp. injection Hp as Hp. by rewrite <- Hp in Hr.
  - intros ->. rewrite (ns_gcRoot _ _ HN) in Hp. injection Hp as Hp. by rewrite <- Hp in Hr.
Qed.

Lemma oks_orphan_symlink X fuel first p orig user q t :
  oks (orphan_symlink fuel first p orig user) t
    (fun _ t' => places X t t' (fun s => roomy s p /\ live_path s X q) (fun s => live_path s X q)).
Proof.
  revert first t. induction fuel as [|fuel IH]; intros first t; simpl; [apply oks_lift; done|].
  assert (Hdone : forall t1, quiet t t1 -> places X t t1 (fun s => roomy s p /\ live_path s X q) (fun s => live_path s X q)).
  { intros t1 H1. eapply places_weaken; [by apply (places_same X t t1 (fun s => live_path s X q))|by intros s _ _ _ []|done]. }
  apply oks_bind, oks_quiet; [destruct first; ro|]. intros name t1 H1. apply oks_bind, oks_DirEntry_load. intros t2 H2 K2.
  assert (H02 : quiet t t2) by (by etrans).
  destruct (fs_entries (view t1) !! (p, name)) as [e|] eqn:He; simpl.
  - apply oks_bind, oks_quiet; [destruct (bool_decide _); ro|]. intros same t3 H3. assert (H03 : quiet t t3) by (etrans; [exact H02|exact H3]).
    destruct same; [by apply oks_ret, Hdone|]. eapply oks_rel; [apply IH|]. intros [] t4 L. eapply places_trans; [by apply places_same|exact L].
  - apply oks_bind, oks_gc_allocateInodeId. intros id t3 H3. apply oks_bind, oks_ask. intros k t4 H4. apply oks_bind, oks_Inode_store, oks_DirEntry_store. intros Hn _.
    cbn [e_parent e_name e_data i_id i_data newSymlinkEntry newSymlinkInode newInode] in *.
    set (e := mkDirEntryData id _ _ _ _) in *. match goal with |- context [WInode id (Some ?y)] => set (x := y) end.
    assert (Hk : took [de_id e] t t4) by (eapply took_quiet; [|exact H4]; by eapply quiet_took).
    eapply (create_places X t t4 _ p name e x); try done.
    + etrans; apply grows_write.
    + intros s. by rewrite !shadow_write, (took_shadow _ _ _ s Hk).
    + eapply (grows_tracked t3); [by apply quiet_grows|]. eapply (grows_tracked t2); [eapply took_grows; exact H3|done].
    + by rewrite <- (quiet_view _ _ H1).
    + intros s HN Hb [Hp _]. done.
    + intros s s' HN Hb [_ Hl] Hnone HI. eapply live_create; [done|exact Hnone| |done]. intros j Hj. rewrite HI. by rewrite lookup_insert_ne.
Qed.

(** The entry of the orphan, under a name that is free. *)
Lemma oks_orphan_entry fuel first p entry t :
  oks (orphan_entry fuel first p entry) t (fun o t' => exists t1, quiet t t1 /\ t' = add_write (WEntry p (e_name o) (Some (e_data entry))) t1 /\
    tracked t1 (KEntry p (e_name o)) /\ fs_entries (view t) !! (p, e_name o) = None /\ e_name o <> "" /\ e_parent o = p).
Proof.
  revert first t. induction fuel as [|fuel IH]; intros first t; simpl; [apply oks_lift; done|].
  apply oks_bind, oks_quiet; [destruct first; ro|]. intros name t1 H1. apply oks_bind, oks_DirEntry_checkExist. intros t2 H2 K2.
  assert (H02 : quiet t t2) by (by etrans). case_bool_decide as Hex.
  - eapply oks_rel; [apply IH|]. intros o t' (t3 & H3 & -> & K3 & Hn & Hne & Hp). exists t3. split; [etrans; [exact H02|exact H3]|].
    rewrite (quiet_view _ _ H02) in Hn. done.
  - apply oks_bind, oks_DirEntry_store. intros Hn _. apply oks_ret. simpl in *. exists t2. split; [done|]. split; [done|]. split; [done|].
    split; [|by split; [apply checkName_nonempty|]]. rewrite <- (quiet_view _ _ H1). by apply eq_None_not_Some.
Qed.

Lemma oks_createOrphanEntry fuel entry x user t :
  (forall d, as_dir x = Some d -> di_parent d = T) ->
  oks (createOrphanEntry fuel task entry (mkInode (e_id entry) x) user) t (fun o t' => exists t1 t2,
    places (e_id entry) t t1 (fun s => fs_inodes s !! e_id entry = Some x) (fun s => live_path s (e_id entry) (e_parent o)) /\ quiet t1 t2 /\
    t' = add_write (WEntry (e_parent o) (e_name o) (Some (e_data entry))) t2 /\
    tracked t2 (KEntry (e_parent o) (e_name o)) /\ fs_entries (view t1) !! (e_parent o, e_name o) = None /\ e_name o <> "").
Proof.
  intros Hd. unfold createOrphanEntry. okstep. okstep. apply oks_bind, oks_ask. intros n t1 H1. apply oks_bind.
  eapply oks_rel; [apply (oks_orphan_directory (e_id entry))|]. intros q t2 L2.
  set (X := e_id entry) in *.
  assert (L02 : places X t t2 (fun s => fs_inodes s !! X = Some x) (fun s => fs_inodes s !! X = Some x /\ live_path s X q)).
  { destruct L2 as [G2 L2]. split; [etrans; [by apply quiet_grows|done]|]. intros s ids. rewrite <- (qt_ids _ _ H1), <- (quiet_shadow _ _ s H1).
    intros Hids Hc HN Hb Hx Hun. destruct (L2 s ids) as (ids' & J & M & F & Hl); [done|done|done|done| |done|].
    - apply lp_root. intros HX. destruct Hb as [_ _ (y & Hy & _ & Hyd)]. destruct Hok as [_ _ (Hr & _)].
      pose proof (ns_root _ _ HN) as Hroot. rewrite <- HX in Hroot. unfold parent_of in Hroot. rewrite Hy in Hroot. simpl in Hroot.
      destruct (as_dir y) as [d|] eqn:Ey; [|done]. simplify_eq/=. rewrite <- (Hyd d), Hroot in Hr by done. by rewrite HX in Hr.
    - exists ids'. split; [done|]. split; [done|]. split; [done|]. split; [|done]. by rewrite (of_inode _ _ _ F). }
  apply oks_bind. apply (oks_rel _ _ (fun _ t3 => places X t t3 (fun s => fs_inodes s !! X = Some x) (fun s => live_path s X q))).
  - case_match.
    + eapply oks_rel; [apply (oks_orphan_symlink X _ _ _ _ _ q)|]. intros [] t3 L3. eapply places_trans; [exact L02|].
      eapply places_weaken; [exact L3| |done]. intros s _ HN Hb [Hx Hl]. split; [|done]. unfold isDirectory, getType. simpl.
      destruct (in_type x) as [|d|] eqn:Hty; simpl; [by eapply roomy_live| |by eapply roomy_live]. eapply roomy_below; [done|done|exact Hx|].
      unfold as_dir. by rewrite Hty.
    + apply oks_ret. eapply places_weaken; [exact L02|done|]. by intros s _ _ [].
  - intros _ t3 L3. eapply oks_rel; [apply oks_orphan_entry|]. intros o t' (t4 & H4 & -> & K4 & Hn & Hne & <-). exists t3, t4. done.
Qed.

(** ** An entry of a removed directory *)

(** The entry [n] of the task's directory is gone, and nothing else in it
    changed. *)
Record cleared (n : string) (s s' : FsStore) : Prop := {
  cl_task : fs_inodes s' !! T = fs_inodes s !! T;
  cl_gone : fs_entries s' !! (T, n) = None;
  cl_rest : forall m, m <> n -> fs_entries s' !! (T, m) = fs_entries s !! (T, m)
}.

(** The transaction does that to the entry, wherever it commits. *)
Definition clears (e : DirEntry) (t t' : Txn) : Prop := grows t t' /\
  forall s ids, tx_ids t' = tx_ids t ++ ids -> commits t' s = true -> NS G (shadow t s) -> task_dead (shadow t s) task ->
    fs_entries (shadow t s) !! (T, e_name e) = Some (e_data e) -> unused G (shadow t s) ids ->
    exists ids', ids' ⊆ ids /\ ns_moves G ids' (shadow t s) (shadow t' s) /\ cleared (e_name e) (shadow t s) (shadow t' s).

(** An entry of the task's directory leads to something that has a name. *)
Lemma entry_below s n e : NS G s -> task_dead s task -> fs_entries s !! (T, n) = Some e ->
  below s (de_id e) /\ exists x, name_of G s T n e x.
Proof.
  intros HN Hd He. destruct Hok as [_ _ (Hr & HG & _)].
  pose proof (ns_target _ _ HN _ _ _ He HG) as Ht. unfold type_of in Ht. destruct (fs_inodes s !! de_id e) as [x|] eqn:Hx; [|done].
  assert (Hpar : forall d, as_dir x = Some d -> di_parent d = T).
  { intros d Hdx. apply (ns_dirlink _ _ HN _ _ _ (di_parent d) He HG). unfold parent_of. rewrite Hx. simpl. by rewrite Hdx. }
  assert (HG' : de_id e ∉ G).
  { intros H. destruct (ns_gcdirs _ _ HN _ H) as (_ & Hp & _). pose proof (ns_dirlink _ _ HN _ _ _ _ He HG Hp) as Hg. by rewrite <- Hg in Hr. }
  assert (Hnm : name_of G s T n e x) by done. split; [|by exists x]. destruct (name_of_nlink G _ _ _ _ _ HN Hnm) as (_ & Hpos & _).
  split; [done|by eapply (ns_parent _ _ HN)|]. exists x. split; [done|]. split; [lia|done].
Qed.

(** It is removed, *)
Lemma removal_clears e x t t1 t' ws :
  e_parent e = T -> removal G e x ws -> tx_writes t' = tx_writes t ++ ws -> tx_ids t' = tx_ids t -> quiet t t1 -> grows t1 t' ->
  tracked t1 (KInode (e_id e)) -> fs_inodes (view t) !! e_id e = Some x -> clears e t t'.
Proof.
  intros Hp Hr Hw Hi H1 G1 K1 Hx. split; [etrans; [by apply quiet_grows|done]|]. intros s ids _ Hc HN Hd He _.
  assert (HT : T ∉ G) by (by destruct Hok as [_ _ (_ & ? & _)]).
  destruct (entry_below _ _ _ HN Hd He) as [Hb (y & Hnm)].
  assert (Hy : fs_inodes (shadow t s) !! e_id e = Some x).
  { rewrite <- (quiet_shadow _ _ s H1), tracked_inode, (quiet_view _ _ H1); [done| |done]. by eapply grows_commits. }
  assert (y = x) as -> by (destruct Hnm as (_ & _ & _ & Hy'); unfold e_id in Hy; congruence).
  assert (Hsh : shadow t' s = apply_writes ws (shadow t s)) by (unfold shadow; by rewrite Hw, apply_writes_app).
  rewrite Hsh. exists []. split; [apply list_subseteq_nil|]. split.
  - eapply removal_moves; [done| |exact Hr]. rewrite Hp. done.
  - split.
    + eapply removal_inodes; [done|]. intros Heq. by apply (below_ne _ _ Hb).
    + rewrite <- Hp. eapply removal_gone; [done|]. by rewrite Hp.
    + intros m Hm. eapply removal_entries; [done| |done]. rewrite Hp. congruence.
Qed.

(** or moves to the orphans. *)
Lemma orphan_clears e x x' t t1 t2 t' q m :
  e_parent e = T -> tracked t (KInode (e_id e)) -> fs_inodes (view t) !! e_id e = Some x ->
  places (e_id e) t t1 (fun s => fs_inodes s !! e_id e = Some x) (fun s => live_path s (e_id e) q) -> quiet t1 t2 ->
  grows t2 t' -> tx_ids t' = tx_ids t2 -> tracked t2 (KEntry q m) -> fs_entries (view t1) !! (q, m) = None -> m <> "" ->
  getType x = getType x' -> in_nlink x' = in_nlink x -> (forall d, as_dir x' = Some d -> di_parent d = q) ->
  (forall s, fs_inodes (shadow t2 s) !! e_id e = Some x -> shadow t' s = mkFsStore (<[e_id e := x']> (fs_inodes (shadow t2 s)))
     (delete (T, e_name e) (<[(q, m) := e_data e]> (fs_entries (shadow t2 s)))) (fs_sessions (shadow t2 s))) ->
  clears e t t'.
Proof.
  intros Hp K Hx [G1 L1] H2 G3 I3 K2 Hm Hne Hty Hl Hpar Hsh.
  split; [etrans; [exact G1|]; etrans; [by apply quiet_grows|done]|]. intros s ids Hids Hc HN Hd He Hun.
  assert (C2 : commits t2 s = true) by (by eapply grows_commits).
  assert (C1 : commits t1 s = true) by (eapply grows_commits; [by apply quiet_grows|done]).
  destruct (entry_below _ _ _ HN Hd He) as [Hb _].
  destruct (L1 s ids) as (ids' & J & M & F & Hq); [by rewrite <- Hids, I3, (qt_ids _ _ H2)|done|done|exact Hb| |done|].
  { rewrite tracked_inode; [done| |done]. by eapply grows_commits. }
  assert (HN1 : NS G (shadow t1 s)) by (by eapply ns_moves_NS).
  assert (Hd1 : task_dead (shadow t1 s) task) by (unfold task_dead, dead; by rewrite (of_task _ _ _ F)).
  assert (He1 : fs_entries (shadow t1 s) !! (T, e_name e) = Some (e_data e)) by (by rewrite (of_entries _ _ _ F)).
  destruct (entry_below _ _ _ HN1 Hd1 He1) as [Hb1 (y & Hnm)].
  assert (Hx1 : fs_inodes (shadow t1 s) !! e_id e = Some x).
  { rewrite (of_inode _ _ _ F), tracked_inode; [done| |done]. by eapply grows_commits. }
  assert (y = x) as -> by (destruct Hnm as (_ & _ & _ & Hy'); unfold e_id in Hx1; congruence).
  assert (HqT : q <> T) by (by eapply live_alive).
  rewrite Hsh by (by rewrite (quiet_shadow _ _ s H2)). rewrite (quiet_shadow _ _ s H2).
  rewrite delete_insert_ne by (intros [= Hq' _]; by apply HqT).
  exists ids'. split; [done|]. split.
  - rewrite <- (app_nil_r ids'). eapply ns_moves_app; [exact M|]. apply ns_moves_one.
    apply (mv_move G (shadow t1 s) T (e_name e) q m (e_data e) (e_data e) x x' (fs_sessions (shadow t1 s))); try done.
    + split; [by rewrite <- (quiet_shadow _ _ s H2), tracked_entry, (quiet_view _ _ H2)|]. split; [by eapply live_dir|]. split; [by eapply live_public|done].
    + intros d Hdx. split; [by apply Hpar|done].
  - split; simpl.
    + rewrite lookup_insert_ne; [apply F|]. by apply (below_ne _ _ Hb).
    + rewrite lookup_insert_ne by (intros [= Hq' _]; by apply HqT). apply lookup_delete_eq.
    + intros m' Hm'. rewrite lookup_insert_ne by (intros [= Hq' _]; by apply HqT). rewrite lookup_delete_ne by congruence. apply F.
Qed.

Lemma quiet_clears e t t1 t' : quiet t t1 -> clears e t1 t' -> clears e t t'.
Proof.
  intros H1 [G2 L2]. split; [etrans; [by apply quiet_grows|done]|]. intros s ids. rewrite <- (qt_ids _ _ H1), <- (quiet_shadow _ _ s H1). apply L2.
Qed.

Lemma GcTask_removeEntry_clears fuel user e t : oks (GcTask_removeEntry cfg fuel task user e) t (fun _ t' => clears e t t').
Proof.
  unfold GcTask_removeEntry. okstep. okstep. assert (Hp : e_parent e = T) by (apply negb_false_iff in Hif; lia).
  apply oks_bind, oks_loadInode. intros x t1 H1 K1 Hx Hty. okstep. okstep. okstep. okstep.
  assert (Hd : forall d, as_dir x = Some d -> di_parent d = T).
  { unfold as_dir. simpl in Hif1. intros d Hd. destruct (in_type x); simplify_eq. apply negb_false_iff in Hif1. lia. }
  rewrite <- (quiet_view _ _ H1) in Hx.
  apply (oks_rel _ _ (fun _ t' => clears e t1 t')); [|intros [] t'; by apply quiet_clears].
  apply oks_bind, oks_quiet; [repeat case_match; ro|]. intros perm t2 H2.
  apply (oks_rel _ _ (fun _ t' => clears e t2 t')); [|intros [] t'; by apply quiet_clears].
  rewrite <- (quiet_view _ _ H2) in Hx. assert (K2 : tracked t2 (KInode (e_id e))) by (eapply grows_tracked; [by apply quiet_grows|done]).
  destruct perm.
  - okstep. okstep. apply oks_bind. apply oks_GcManager_removeEntry with (G := G); [done..|]. intros i t' ws G' I' W' Hr (t3 & H3 & G3 & _) _. okstep.
    eapply (removal_clears e x t2 t3); try done. eapply grows_tracked; [by apply quiet_grows|done].
  - apply oks_bind. eapply oks_rel; [by apply oks_createOrphanEntry|]. intros o t3 (t4 & t5 & L & H5 & -> & K5 & Hn & Hne). apply oks_bind.
    set (q := e_parent o) in *. set (m := e_name o) in *. simpl.
    destruct (in_type x) as [|d|] eqn:Hxt.
    + okstep. apply oks_DirEntry_remove. intros _.
      eapply (orphan_clears e x x t2 t4 t5 _ q m); try done; [etrans; apply grows_write|unfold as_dir; by rewrite Hxt|].
      intros s Hs. rewrite !shadow_write, Hp. simpl. rewrite insert_id by done. done.
    + apply oks_Inode_store, oks_DirEntry_remove. intros _. simpl.
      eapply (orphan_clears e x (set_in_type (IV_Directory (set_di_parent q d)) x) t2 t4 t5 _ q m); try done;
        [etrans; [apply grows_write|]; etrans; apply grows_write|unfold getType; by rewrite Hxt| |].
      * intros d' [= <-]. done.
      * intros s Hs. rewrite !shadow_write, Hp. done.
    + okstep. apply oks_DirEntry_remove. intros _.
      eapply (orphan_clears e x x t2 t4 t5 _ q m); try done; [etrans; apply grows_write|unfold as_dir; by rewrite Hxt|].
      intros s Hs. rewrite !shadow_write, Hp. simpl. rewrite insert_id by done. done.
Qed.

(** ** A removed directory *)

(** All of [es] are gone from the task's directory. *)
Definition clears_all (es : list DirEntry) (t t' : Txn) : Prop := grows t t' /\
  forall s ids, tx_ids t' = tx_ids t ++ ids -> commits t' s = true -> NS G (shadow t s) -> task_dead (shadow t s) task ->
    Forall (fun e => fs_entries (shadow t s) !! (T, e_name e) = Some (e_data e)) es -> unused G (shadow t s) ids ->
    exists ids', ids' ⊆ ids /\ ns_moves G ids' (shadow t s) (shadow t' s) /\ fs_inodes (shadow t' s) !! T = fs_inodes (shadow t s) !! T /\
      forall n, fs_entries (shadow t' s) !! (T, n) = if decide (n ∈ e_name <$> es) then None else fs_entries (shadow t s) !! (T, n).

Lemma oks_clear_all fuel user es t : NoDup (e_name <$> es) ->
  oks (for_each (GcTask_removeEntry cfg fuel task user) es) t (fun _ t' => clears_all es t t').
Proof.
  revert t. induction es as [|e es IH]; intros t Hnd; simpl.
  { apply oks_ret. split; [done|]. intros s ids _ _ _ _ _ _. exists []. split; [apply list_subseteq_nil|]. split; [constructor|done]. }
  apply NoDup_cons in Hnd as [Hne Hnd]. apply oks_bind. eapply oks_rel; [apply GcTask_removeEntry_clears|]. intros [] t1 [G1 L1].
  eapply oks_rel; [by apply IH|]. intros [] t2 [G2 L2]. split; [by etrans|].
  intros s ids Hids Hc HN Hd [He Hes]%Forall_cons [Hun1 Hun2]. destruct (gr_ids _ _ G1) as [i1 I1], (gr_ids _ _ G2) as [i2 I2].
  rewrite I2, I1, <- app_assoc in Hids. apply app_inv_head in Hids as <-. apply NoDup_app in Hun1 as (N1 & Nd & N2). apply Forall_app in Hun2 as [U1 U2].
  destruct (L1 s i1) as (j1 & J1 & M1 & [C1 C2 C3]); [done|by eapply grows_commits|done|done|done|by split|].
  assert (HN1 : NS G (shadow t1 s)) by (by eapply ns_moves_NS).
  destruct (L2 s i2) as (j2 & J2 & M2 & D1 & D2); [done|done|done|unfold task_dead, dead; by rewrite C1| | |].
  - rewrite Forall_forall in Hes |- *. intros e' He'. rewrite C3; [by apply Hes|]. intros Heq. apply Hne. rewrite <- Heq. by apply list_elem_of_fmap_2.
  - split; [done|]. rewrite Forall_forall in U2 |- *. intros id Hid. destruct (U2 id Hid) as [Hk Hf]. split; [done|].
    eapply ns_moves_free; [done..|]. intros Hj. apply (Nd id); [by apply J1|done].
  - exists (j1 ++ j2). split; [intros id; rewrite !elem_of_app; intros [?|?]; [left|right]; auto|]. split; [by eapply ns_moves_app|].
    split; [congruence|]. intros n. rewrite D2. destruct (decide (n = e_name e)) as [->|Hn].
    + rewrite decide_False by done. rewrite decide_True by (by left). done.
    + rewrite C3 by done. destruct (decide (n ∈ e_name <$> es)) as [Hin|Hin]; [by rewrite decide_True by (by right)|].
      rewrite decide_False; [done|]. intros [|]%elem_of_cons; done.
Qed.

Lemma gcDirectory_txn_at fuel user checked t :
  oks (gcDirectory_txn cfg fuel task user checked) t (fun _ t' => grows t t' /\
    forall s ids, tx_ids t' = tx_ids t ++ ids -> commits t' s = true -> NS G (shadow t s) -> task_dead (shadow t s) task ->
      unused G (shadow t s) ids -> exists ids', ids' ⊆ ids /\ ns_moves G ids' (shadow t s) (shadow t' s)).
Proof.
  unfold gcDirectory_txn. apply oks_bind.
  apply (oks_rel _ _ (fun gone t1 => if (gone : bool) then grows t t1 /\ tx_ids t1 = tx_ids t /\
    forall s, commits t1 s = true -> NS G (shadow t s) -> task_dead (shadow t s) task -> ns_moves G [] (shadow t s) (shadow t1 s) else quiet t t1)).
  { destruct checked; [by apply oks_ret|]. apply oks_bind, oks_Inode_load. intros t1 H1 K1. destruct (fs_inodes (view t) !! T) as [x|] eqn:Hx; simpl.
    - do 3 okstep. done.
    - apply oks_bind. eapply oks_rel; [apply removeGc_at|]. intros [] t2 (G2 & I2 & L2). apply oks_ret.
      split; [etrans; [by apply quiet_grows|done]|]. split; [rewrite I2; apply H1|]. intros s Hc. rewrite <- (quiet_shadow _ _ s H1). intros HN Hd. apply L2; [done|done|].
      apply NS_no_entries with (G := G); [done|]. unfold is_dir, parent_of. rewrite tracked_inode, (quiet_view _ _ H1), Hx; [by intros []%is_Some_None| |done].
      by eapply grows_commits. }
  intros [|] t1 H1.
  { apply oks_ret. destruct H1 as (G1 & I1 & L1). split; [done|]. intros s ids _ Hc HN Hd _. exists []. split; [apply list_subseteq_nil|auto]. }
  apply oks_bind, oks_DirEntryList_load. intros es more t2 H2 Hnd Hin Hout. assert (H02 : quiet t t2) by (etrans; [exact H1|exact H2]).
  apply oks_bind. eapply oks_rel; [by apply oks_clear_all|]. intros [] t3 [G3 L3].
  assert (G03 : grows t t3) by (etrans; [by apply quiet_grows|exact G3]).
  assert (L : forall s ids, tx_ids t3 = tx_ids t ++ ids -> commits t3 s = true -> NS G (shadow t s) -> task_dead (shadow t s) task ->
      unused G (shadow t s) ids -> exists ids', ids' ⊆ ids /\ ns_moves G ids' (shadow t s) (shadow t3 s) /\
      task_dead (shadow t3 s) task /\ (more = false -> no_entries (shadow t3 s) T)).
  { intros s ids. rewrite <- (qt_ids _ _ H02), <- (quiet_shadow _ _ s H02). intros Hids Hc HN Hd Hun.
    assert (C2 : commits t2 s = true) by (by eapply grows_commits).
    destruct (L3 s ids) as (ids' & J & M & D1 & D2); [done|done|done|done| |done|].
    - apply Forall_forall. intros e He. by apply Hin.
    - exists ids'. split; [done|]. split; [done|]. split; [unfold task_dead, dead; by rewrite D1|].
      intros Hm n. rewrite D2. case_decide as Hn; [done|]. destruct (decide (n = "")) as [->|Hne]; [|by apply Hout].
      destruct (fs_entries (shadow t2 s) !! (T, "")) as [e|] eqn:E; [|done]. by destruct (ns_range _ _ HN _ _ E). }
  destruct more.
  - apply oks_ret. split; [done|]. intros s ids Hids Hc HN Hd Hun. destruct (L s ids) as (ids' & J & M & _); [done..|]. by exists ids'.
  - apply oks_bind. eapply oks_rel; [apply removeGc_at|]. intros [] t4 (G4 & I4 & L4). apply oks_ret. split; [by etrans|].
    intros s ids Hids Hc HN Hd Hun. destruct (L s ids) as (ids' & J & M & D & E); [by rewrite <- I4|by eapply grows_commits|done|done|done|].
    exists ids'. split; [done|]. rewrite <- (app_nil_r ids'). eapply ns_moves_app; [exact M|]. apply L4; [by eapply ns_moves_NS|done|by apply E].
Qed.
End task.
End land.
