(* ===== verification/FsWorld.v ===== *)
(** * The start of a file system

    The first server makes the two roots, and every server then opens its
    garbage directories under the second of them.  The second part of the file
    is the world of servers over one store, its steps and its invariant. *)

From Stdlib Require Import ZArith Lia.
From stdpp Require Import base gmap list strings relations.
From S2P Require Import Prelude StatusCode MgmtdTypes FsTypes FsTxn FsLayout FsResolve FsGc FsOps FsOpen FsNamespace FsMoves FsTracked FsResolved FsOpsLand FsOpenLand FsBatchLand FsGcLand.

Definition empty_store : FsStore := mkFsStore ∅ ∅ ∅.

(** ** The roots *)

Lemma NS_roots s x y : fs_entries s = ∅ -> fs_inodes s = <[InodeId_gcRoot := y]> (<[InodeId_root := x]> ∅) ->
  di_parent <$> as_dir x = Some InodeId_root -> di_parent <$> as_dir y = Some InodeId_gcRoot -> NS ∅ s.
Proof.
  intros HE HI Hx Hy.
  assert (Hl : forall id z, fs_inodes s !! id = Some z -> isTreeRoot id = true).
  { intros id z. rewrite HI, lookup_insert_Some, lookup_insert_Some, lookup_empty. intros [[<- _]|[_ [[<- _]|[_ ?]]]]; done. }
  assert (Hp : forall id q, parent_of s id = Some q -> isTreeRoot id = true).
  { intros id q. unfold parent_of. destruct (fs_inodes s !! id) eqn:E; [|done]. intros _. by eapply Hl. }
  assert (Hn : forall id l, nlink_of s id = Some l -> isTreeRoot id = true).
  { intros id l. unfold nlink_of. destruct (fs_inodes s !! id) eqn:E; [|done]. intros _. by eapply Hl. }
  assert (HE' : forall k e, fs_entries s !! k = Some e -> False) by (intros k e; rewrite HE; by rewrite lookup_empty).
  split; try (intros; exfalso; eapply HE'; eassumption).
  - unfold parent_of. rewrite HI, lookup_insert_ne, lookup_insert_eq by done. done.
  - unfold parent_of. rewrite HI, lookup_insert_eq. done.
  - intros g Hg. by apply elem_of_empty in Hg.
  - intros id l Hl' Hr. rewrite (Hn id l) in Hr by done. done.
  - intros id [q Hq] Hr. rewrite (Hp id q) in Hr by done. done.
  - intros id q Hq Hr. rewrite (Hp id q) in Hr by done. done.
  - intros id Hq Hr. rewrite (Hn id 0) in Hr by done. done.
  - intros id [q Hq]. apply anch_root. by eapply Hp.
Qed.

(** The second root has no entries but garbage directories, and there are no
    directories but the roots and those. *)
Record started (G : gset InodeId) (s : FsStore) : Prop := {
  sd_ns : NS G s;
  sd_only : forall n e, fs_entries s !! (InodeId_gcRoot, n) = Some e -> de_id e ∈ G;
  sd_parents : forall i q, parent_of s i = Some q -> isTreeRoot q = true
}.

Lemma initFs_started {env : FsEnv} layout mem t s :
  initFs layout (new_txn empty_store mem) = (Ok tt, t) -> commit_txn t empty_store = Some s -> started ∅ s.
Proof.
  intros Hrun Hc. assert (Hw : exists c c', tx_writes t =
    [WInode InodeId_root (Some (i_data (newDirectoryInode InodeId_root InodeId_root "/" Acl_root layout c)));
     WInode InodeId_gcRoot (Some (i_data (newDirectoryInode InodeId_gcRoot InodeId_gcRoot "/" Acl_gcRoot (mkLayout 0 0 0 0 LC_Empty) c')))]).
  { revert Hrun. clear Hc s. revert t. cut (oks (initFs layout) (new_txn empty_store mem) (fun _ t => exists c c', tx_writes t =
    [WInode InodeId_root (Some (i_data (newDirectoryInode InodeId_root InodeId_root "/" Acl_root layout c)));
     WInode InodeId_gcRoot (Some (i_data (newDirectoryInode InodeId_gcRoot InodeId_gcRoot "/" Acl_gcRoot (mkLayout 0 0 0 0 LC_Empty) c')))])).
    { intros H t Ht. by apply (H tt t). }
    unfold initFs. apply oks_bind, oks_quiet; [apply ro_checkLayoutValid|]. intros [] t1 H1. apply oks_bind, oks_Inode_load. intros t2 H2 _. rewrite (quiet_view _ _ H1).
    apply oks_bind, oks_Inode_load. intros t3 H3 _. rewrite (quiet_view _ _ H2), (quiet_view _ _ H1). cbn [view new_txn tx_writes tx_base apply_writes fold_left empty_store fs_inodes].
    rewrite !lookup_empty. simpl. apply oks_bind, oks_bind, oks_ask. intros n t4 H4. apply oks_Inode_store. apply oks_bind, oks_ask. intros m t5 H5. apply oks_Inode_store.
    exists (castGranularity 1000 (fe_utc n)), (castGranularity 1000 (fe_utc m)). simpl.
    rewrite (qt_writes _ _ H5). simpl. by rewrite (qt_writes _ _ H4), (qt_writes _ _ H3), (qt_writes _ _ H2), (qt_writes _ _ H1). }
  destruct Hw as (c & c' & Hw). unfold commit_txn in Hc. destruct (commits t empty_store); [|done]. injection Hc as <-. rewrite Hw. split.
  - eapply NS_roots; simpl; done.
  - intros n e. simpl. by rewrite lookup_empty.
  - intros i q. unfold parent_of. simpl. destruct (decide (i = InodeId_gcRoot)) as [->|H1]; [rewrite lookup_partial_alter_eq; by intros [= <-]|].
    rewrite lookup_partial_alter_ne by done. destruct (decide (i = InodeId_root)) as [->|H2]; [rewrite lookup_partial_alter_eq; by intros [= <-]|].
    by rewrite lookup_partial_alter_ne, lookup_empty by done.
Qed.

(** ** Garbage directories *)

Section open.
Context (G : gset InodeId) (s : FsStore) (n : string) (e : DirEntryData) (x : InodeData) (S' : gmap (InodeId * Uuid) FileSession).
Notation id := (de_id e).
Notation G' := ({[id]} ∪ G).
Notation s' := (mkFsStore (<[id := x]> (fs_inodes s)) (<[(InodeId_gcRoot, n) := e]> (fs_entries s)) S').
(** Nothing else is in the namespace yet. *)
Context (Hpar : forall i q, parent_of s i = Some q -> isTreeRoot q = true).
Context (HN : NS G s) (Hid : ok_id G id) (Hfree : free s id) (Hn : fs_entries s !! (InodeId_gcRoot, n) = None) (Hne : n <> "").
Context (Hx : di_parent <$> as_dir x = Some InodeId_gcRoot) (Hty : de_type e = IT_Directory) (Hl : in_nlink x = 1) (Him : isImmutable (in_acl x) = true).

Lemma open_links i : links G' (fs_entries s) i = links G (fs_entries s) i.
Proof.
  unfold links. f_equal. apply map_filter_ext. intros [p m] e' He. unfold counts. simpl. rewrite elem_of_union, elem_of_singleton.
  assert (p <> id); [|tauto]. intros ->. destruct (ns_parent _ _ HN _ _ _ He) as [q Hq]. unfold parent_of in Hq. destruct Hfree as [Hf _]. by rewrite Hf in Hq.
Qed.

Lemma gcRoot_notin : InodeId_gcRoot ∉ G'.
Proof.
  rewrite elem_of_union, elem_of_singleton. intros [Heq|Hg].
  - destruct Hid as (Hr & _). by rewrite <- Heq in Hr.
  - by destruct (ns_gcdirs _ _ HN _ Hg).
Qed.

Lemma open_other i : i <> id -> parent_of s' i = parent_of s i /\ nlink_of s' i = nlink_of s i /\ type_of s' i = type_of s i.
Proof. intros Hi. unfold parent_of, nlink_of, type_of. simpl. by rewrite lookup_insert_ne. Qed.
Lemma open_new : parent_of s' id = Some InodeId_gcRoot /\ nlink_of s' id = Some 1 /\ type_of s' id = Some IT_Directory.
Proof.
  unfold parent_of, nlink_of, type_of. simpl. rewrite lookup_insert_eq. simpl. rewrite Hl. split; [done|]. split; [done|].
  unfold as_dir, getType in *. by destruct (in_type x).
Qed.

Lemma open_entry k e' : fs_entries s' !! k = Some e' -> k = (InodeId_gcRoot, n) /\ e' = e \/ k <> (InodeId_gcRoot, n) /\ fs_entries s !! k = Some e' /\ de_id e' <> id.
Proof.
  simpl. rewrite lookup_insert_Some. intros [[<- <-]|[Hk He]]; [by left|]. right. split; [done|]. split; [done|]. destruct Hfree as [_ Hu]. by eapply Hu.
Qed.

Lemma open_links' i : links G' (fs_entries s') i = (links G (fs_entries s) i + one_if (i = id))%nat.
Proof.
  simpl. rewrite links_insert, open_links by done. f_equal. apply one_if_iff. unfold counts. simpl. pose proof gcRoot_notin. split; [by intros [<- _]|by intros ->].
Qed.

Lemma open_notparent p m e' : fs_entries s !! (p, m) = Some e' -> p <> id.
Proof. intros He ->. destruct (ns_parent _ _ HN _ _ _ He) as [q Hq]. unfold parent_of in Hq. destruct Hfree as [Hf _]. by rewrite Hf in Hq. Qed.

Lemma open_anchored i : anchored s i -> anchored s' i.
Proof.
  induction 1 as [i Hr|i Hz|i p Hp _ IH]; [by apply anch_root| |].
  - apply anch_removed. destruct (open_other i) as (_ & -> & _); [|done]. intros ->. unfold nlink_of in Hz. destruct Hfree as [Hf _]. by rewrite Hf in Hz.
  - apply (anch_step _ _ p); [|done]. destruct (open_other i) as (-> & _); [|done]. intros ->. unfold parent_of in Hp. destruct Hfree as [Hf _]. by rewrite Hf in Hp.
Qed.

Lemma open_gc_NS : NS G' s'.
Proof.
  destruct Hid as (Hr & HG & Hrange). pose proof gcRoot_notin as Hroot. destruct open_new as (Np & Nn & Nt). destruct HN.
  assert (Hold : forall i, i <> id \/ i = id) by (intros i; destruct (decide (i = id)); auto).
  assert (HG' : forall i, i ∈ G' <-> i = id \/ i ∈ G) by (intros i; by rewrite elem_of_union, elem_of_singleton).
  assert (Hroots : forall i, isTreeRoot i = true -> i <> id) by (intros i Hi ->; congruence).
  split.
  - destruct (open_other InodeId_root) as (-> & _); [by apply Hroots|done].
  - destruct (open_other InodeId_gcRoot) as (-> & _); [by apply Hroots|done].
  - intros g [->|Hg]%HG'; [split; [done|]; split; [done|]; exists x; simpl; rewrite lookup_insert_eq; split; [done|]; split; [done|lia]|].
    assert (Hgi : g <> id) by (by intros ->). destruct (open_other g Hgi) as (-> & _). simpl. rewrite lookup_insert_ne by done. auto.
  - intros p m e' [[[= -> ->] ->]|(_ & He & _)]%open_entry; unfold is_dir; [destruct (open_other InodeId_gcRoot) as (-> & _); [by apply Hroots|eauto]|].
    destruct (open_other p) as (-> & _); [by eapply open_notparent|by eapply ns_parent].
  - intros k e' [[-> ->]|(_ & He & _)]%open_entry; [done|eauto].
  - intros p m e' [[[= -> ->] ->]|(_ & He & Hi)]%open_entry Hp; [by rewrite Nt, Hty|]. destruct (open_other _ Hi) as (_ & _ & ->). eapply ns_target; [done|].
    intros H. apply Hp, HG'. by right.
  - intros i l Hi Hri. rewrite open_links'. destruct (Hold i) as [Hni| ->].
    + destruct (open_other i Hni) as (_ & Hnl & _). rewrite Hnl in Hi. rewrite one_if_false by done. rewrite (ns_nlink i l Hi Hri). lia.
    + rewrite Nn in Hi. injection Hi as <-. rewrite one_if_true by done. rewrite links_unnamed; [done|]. apply Hfree.
  - intros i Hi Hri. rewrite open_links'. destruct (Hold i) as [Hni| ->].
    + unfold is_dir in Hi. destruct (open_other i Hni) as (Hp & _). rewrite Hp in Hi. rewrite one_if_false by done. pose proof (ns_single i Hi Hri). lia.
    + rewrite one_if_true by done. rewrite links_unnamed; [done|]. apply Hfree.
  - intros p m e' q [[[= -> ->] ->]|(_ & He & Hi)]%open_entry Hp Hq; [congruence|]. destruct (open_other _ Hi) as (Ho & _). rewrite Ho in Hq. eapply ns_dirlink; [done| |done].
    intros H. apply Hp, HG'. by right.
  - intros i q Hq Hri Hi. destruct (Hold i) as [Hni| ->]; [|by destruct Hi; apply HG'; left]. destruct (open_other i Hni) as (Ho & _). rewrite Ho in Hq.
    destruct (ns_public i q) as [H1 H2]; [done|done|intros H; by apply Hi, HG'; right|]. split; [|done]. rewrite HG'. intros [->|]; [|done].
    by apply Hpar in Hq; rewrite Hr in Hq.
  - intros g m e' l [[[= -> ->] ->]|(_ & He & Hi)]%open_entry Hg Hnl; [done|]. destruct (open_other _ Hi) as (_ & Ho & ->). rewrite Ho in Hnl.
    eapply ns_garbage; [done| |done]. apply HG' in Hg as [->|]; [|done]. by eapply open_notparent in He.
  - intros i Hz Hri Ht. destruct (Hold i) as [Hni| ->]; [|congruence]. destruct (open_other i Hni) as (_ & Ho & Ho'). rewrite Ho in Hz. rewrite Ho' in Ht.
    destruct (ns_collectable i Hz Hri Ht) as (g & m & e' & Hg & He & Hd). exists g, m, e'. split; [apply HG'; by right|]. split; [|done]. simpl.
    rewrite lookup_insert_ne; [done|]. intros [= <- _]. by apply Hroot, HG'; right.
  - intros k e' [[-> ->]|(_ & He & _)]%open_entry; [done|eauto].
  - intros g m e' [[[= -> ->] ->]|(_ & He & _)]%open_entry Hg; [done|]. eapply ns_gcname; [done|]. apply HG' in Hg as [->|]; [|done]. by eapply open_notparent in He.
  - intros [p m] e1 [p' m'] e2 [[[= -> ->] ->]|(_ & He & Hi)]%open_entry [[[= -> ->] ->]|(_ & He' & Hi')]%open_entry Hg Hg' Heq; simpl in *; try done.
    apply HG' in Hg as [->|Hg]; [by eapply open_notparent in He|]. apply HG' in Hg' as [->|Hg']; [by eapply open_notparent in He'|]. by eapply ns_onegc.
  - intros i Hi. destruct (Hold i) as [Hni| ->].
    + unfold is_dir in Hi. destruct (open_other i Hni) as (Hp & _). rewrite Hp in Hi. by apply open_anchored, ns_anchored.
    + apply (anch_step _ _ InodeId_gcRoot); [done|]. by apply anch_root.
Qed.
End open.

(** ** Setting up *)

(** The store and the garbage directories, when servers have started. *)
Inductive booted : gset InodeId -> FsStore -> Prop :=
| boot_init (env : FsEnv) layout mem t s :
    initFs layout (new_txn empty_store mem) = (Ok tt, t) -> commit_txn t empty_store = Some s -> booted ∅ s
| boot_open G s (env : FsEnv) mem nodeId idx e t s' :
    booted G s -> openGcDirectory nodeId idx true (new_txn s mem) = (Ok (Some e), t) -> unused G s (tx_ids t) ->
    commit_txn t s = Some s' -> booted ({[e_id e]} ∪ G) s'.

#[local] Arguments draw_ids : simpl never.

Lemma draw_ids_took {env : FsEnv} k acc t : oks (draw_ids k acc) t (fun ids t' => exists new, ids = acc ++ new /\ took new t t').
Proof.
  revert acc t. induction k as [|k IH]; intros acc t; [|change (draw_ids (S k) acc) with (answer ← ask fe_allocate; id ← lift answer; modify (add_id id) ;; draw_ids k (acc ++ [id]))].
  - apply oks_ret. exists []. split; [by rewrite app_nil_r|]. split; [done|exists []; by rewrite app_nil_r|done|by rewrite app_nil_r].
  - apply oks_bind, oks_ask. intros n t1 H1. do 4 okstep. eapply oks_rel; [apply IH|]. intros ids t2 (new & -> & Ht). exists (a :: new).
    split; [by rewrite <- app_assoc|]. eapply quiet_took; [done|]. destruct Ht as [H2 H3 H4 H5]. simpl in *. split; [done|done|done|]. rewrite H5. by rewrite <- app_assoc.
Qed.

(** The directory is there, or it is made. *)
Lemma oks_openGcDirectory {env : FsEnv} nodeId idx t :
  oks (openGcDirectory nodeId idx true) t (fun r t' => exists e, r = Some e /\ let n := gcDirectoryName nodeId idx in
    (quiet t t' /\ fs_entries (view t) !! (InodeId_gcRoot, n) = Some (e_data e) \/
     exists t1 new x, took new t t1 /\ e_id e ∈ new /\ tracked t1 (KEntry InodeId_gcRoot n) /\ fs_entries (view t) !! (InodeId_gcRoot, n) = None /\ n <> "" /\
       t' = add_write (WEntry InodeId_gcRoot n (Some (e_data e))) (add_write (WInode (e_id e) (Some x)) t1) /\
       di_parent <$> as_dir x = Some InodeId_gcRoot /\ e_type e = IT_Directory /\ in_nlink x = 1 /\ isImmutable (in_acl x) = true)).
Proof.
  unfold openGcDirectory. set (n := gcDirectoryName nodeId idx). apply oks_bind, oks_DirEntry_load. intros t1 H1 K1.
  destruct (fs_entries (view t) !! (InodeId_gcRoot, n)) as [e|] eqn:He; simpl.
  { apply oks_ret. eexists. split; [done|]. by left. }
  apply oks_bind. eapply oks_rel; [apply (draw_ids_took 512)|]. intros ids t2 (new & -> & H2). apply oks_bind, oks_ask. intros k t3 H3.
  okstep. okstep. apply oks_bind, oks_ask. intros m t4 H4. apply oks_bind, oks_Inode_store, oks_bind, oks_DirEntry_store. intros Hn _. apply oks_ret.
  eexists. split; [done|]. right. exists t4, new. eexists. split; [|split; [|split; [|split; [done|split; [|split; [reflexivity|done]]]]]].
  - eapply took_quiet; [|exact H4]. eapply took_quiet; [|exact H3]. by eapply quiet_took.
  - destruct (new !! Z.to_nat (fe_rand k mod 512)) as [i|] eqn:E; [|by simpl in Hlift; rewrite E in Hlift]. simpl in Hlift. rewrite E in Hlift. injection Hlift as ->.
    by eapply list_elem_of_lookup_2.
  - eapply (grows_tracked t1); [|done]. etrans; [by eapply took_grows|]. apply quiet_grows. etrans; [exact H3|exact H4].
  - by apply checkName_nonempty.
Qed.

Lemma booted_started G s : booted G s -> started G s.
Proof.
  induction 1 as [env layout mem t s Hrun Hc|G s env mem nodeId idx e t s' _ [HN Ho Hp] Hrun Hun Hc].
  - by eapply initFs_started.
  - unfold commit_txn in Hc. destruct (commits t s) eqn:Hco; [|done]. injection Hc as <-. change (started ({[e_id e]} ∪ G) (shadow t s)).
    destruct (oks_openGcDirectory nodeId idx (new_txn s mem) _ _ Hrun) as (e' & [= <-] & [[Hq He]|(t1 & new & x & Ht & Hin & K & Hfree & Hne & -> & Hx & Hty & Hl & Him)]).
    + rewrite (quiet_shadow _ _ s Hq). assert (e_id e ∈ G) by (by apply (Ho _ _ He)). replace ({[e_id e]} ∪ G) with G; [done|].
      apply set_eq. intros i. rewrite elem_of_union, elem_of_singleton. split; [by right|by intros [->|]].
    + rewrite !shadow_write, (took_shadow _ _ _ s Ht). destruct Hun as [_ Hun]. simpl in Hun. rewrite (tk_ids _ _ _ Ht) in Hun. rewrite Forall_forall in Hun.
      destruct (Hun (e_id e) Hin) as [Hok Hf]. split.
      * by eapply (open_gc_NS G s _ (e_data e) x).
      * intros n e0. simpl. rewrite lookup_partial_alter_Some. rewrite elem_of_union, elem_of_singleton. intros [[_ [= <-]]|[_ H]]; [by left|right; by eapply Ho].
      * intros i q. unfold parent_of. simpl. destruct (decide (i = e_id e)) as [->|Hi]; [rewrite lookup_partial_alter_eq; simpl; rewrite Hx; by intros [= <-]|].
        rewrite lookup_partial_alter_ne by done. apply Hp.
Qed.

(** * Servers over one store

    Any number of meta servers run transactions on snapshots of the store and
    commit them later, in any order; the collectors among them work on tasks
    they scanned before.  The namespace is well formed in every store that is
    reached, and every commit is a sequence of moves. *)

(** ** What a server runs *)

(** The operations of clients and the transactions of the collector. *)
Inductive FsOp :=
| OpMkdirs (req : MkdirsReq)
| OpSymlink (req : SymlinkReq)
| OpHardLink (req : HardLinkReq)
| OpRemove (req : RemoveReq)
| OpRename (req : RenameReq)
| OpLockDirectory (req : LockDirectoryReq)
| OpSetAttr (req : SetAttrReq)
| OpOpen (prev : option InodeId) (req : OpenReq)
| OpTryOpen (prev : option InodeId) (req : CreateReq)
| OpBatch (onServer : bool * Z) (stored : outcome Z) (st : BatchState) (b : Batch)
| OpPruneSession (client : ClientId) (sessions : list Uuid)
| OpGcMoveToTail (task : GcTask) (delay : Z)
| OpGcFile (task : GcTask)
| OpGcDirectory (fuel : nat) (task : GcTask) (user : UserAttr) (checked : bool).

Definition run_op (env : FsEnv) (cfg : FsConfig) (op : FsOp) : M Txn unit :=
  match op with
  | OpMkdirs req => mkdirs cfg req ;; mret tt
  | OpSymlink req => symlinkOp cfg req ;; mret tt
  | OpHardLink req => hardLink cfg req ;; mret tt
  | OpRemove req => remove cfg req
  | OpRename req => rename cfg req ;; mret tt
  | OpLockDirectory req => lockDirectory req
  | OpSetAttr req => setAttr cfg req ;; mret tt
  | OpOpen prev req => open cfg prev req ;; mret tt
  | OpTryOpen prev req => tryOpen cfg prev req ;; mret tt
  | OpBatch onServer stored st b => batch_run cfg onServer stored st b ;; mret tt
  | OpPruneSession client sessions => pruneSession client sessions
  | OpGcMoveToTail task delay => gc_moveToTail task delay
  | OpGcFile task => removeGcEntryAndInode task
  | OpGcDirectory fuel task user checked => gcDirectory_txn cfg fuel task user checked ;; mret tt
  end.

Section world.
(** The garbage directories of all servers. *)
Context (G : gset InodeId).

(** The store, the ids that were drawn, transactions that ran and did not
    commit yet, and the tasks that were scanned. *)
Record World := mkWorld { w_store : FsStore; w_seen : gset InodeId; w_pending : list Txn; w_tasks : list GcTask }.

Definition env_ok (env : FsEnv) : Prop :=
  (forall g, g ∈ @fe_currGcDirectories env -> g ∈ G) /\ (forall g, g ∈ @fe_allGcDirectories env -> g ∈ G).

(** What is assumed of an operation that starts on the snapshot [s]: a request
    does not start in the root of the garbage or in a garbage directory of a
    server; a hard link gets a name that is free where its new path leads; a
    requeued task gets a new name; a collector works on a task it scanned. *)
Definition op_ok (env : FsEnv) (cfg : FsConfig) (s : FsStore) (mem : FsMem) (tasks : list GcTask) (op : FsOp) : Prop :=
  match op with
  | OpMkdirs req => public G (pa_parent (mk_path req))
  | OpSymlink req => public G (pa_parent (sl_path req))
  | OpHardLink req => public G (pa_parent (hl_newPath req)) /\ public G (pa_parent (hl_oldPath req)) /\ link_name_free cfg req (new_txn s mem)
  | OpRemove req => public G (pa_parent (rm_path req))
  | OpRename req => public G (pa_parent (rn_src req)) /\ public G (pa_parent (rn_dest req))
  | OpLockDirectory _ => True
  | OpSetAttr req => public G (pa_parent (sa_path req))
  | OpOpen _ req => public G (pa_parent (op_path req))
  | OpTryOpen _ req => public G (pa_parent (op_path (cr_open req)))
  | OpBatch _ _ _ b => public G (bt_inodeId b)
  | OpPruneSession _ _ => True
  | OpGcMoveToTail task delay => task ∈ tasks /\
      forall n, formatGcEntry (prefixOf (gt_type task)) (@fe_utc env n + delay) (e_id (gt_entry task)) <> e_name (gt_entry task)
  | OpGcFile task => task ∈ tasks /\ e_type (gt_entry task) <> IT_Directory
  | OpGcDirectory _ task _ _ => task ∈ tasks
  end.

(** The ids a run draws were not drawn before. *)
Definition fresh (seen : gset InodeId) (ids : list InodeId) : Prop := NoDup ids /\ Forall (fun id => ok_id G id /\ id ∉ seen) ids.

Inductive fs_step : World -> World -> Prop :=
(** an operation runs on the store as it is *)
| st_run s seen pending tasks env cfg mem op t :
    env_ok env -> op_ok env cfg s mem tasks op -> run_op env cfg op (new_txn s mem) = (Ok tt, t) -> fresh seen (tx_ids t) ->
    fs_step (mkWorld s seen pending tasks) (mkWorld s (list_to_set (tx_ids t) ∪ seen) (pending ++ [t]) tasks)
(** its transaction commits, if nothing it read has changed *)
| st_commit s seen l t r tasks s' :
    commit_txn t s = Some s' -> fs_step (mkWorld s seen (l ++ t :: r) tasks) (mkWorld s' seen (l ++ r) tasks)
(** or fails *)
| st_drop s seen l t r tasks :
    fs_step (mkWorld s seen (l ++ t :: r) tasks) (mkWorld s seen (l ++ r) tasks)
(** a collector scans an entry of a garbage directory *)
| st_scan s seen pending tasks g n e type :
    g ∈ G -> fs_entries s !! (g, n) = Some e ->
    fs_step (mkWorld s seen pending tasks) (mkWorld s seen pending (mkGcTask type (mkDirEntry g n e) :: tasks)).

(** ** What a transaction does where it commits *)

Definition landing (tasks : list GcTask) (t : Txn) : Prop := forall s,
  commits t s = true -> NS G s -> Forall (task_dead s) tasks -> unused G s (tx_ids t) ->
  exists ids, ids ⊆ tx_ids t /\ ns_moves G ids s (shadow t s).

Lemma lands_landing tasks s0 mem t : lands G (new_txn s0 mem) t -> landing tasks t.
Proof. intros [_ L] s Hc HN _ Hun. by apply (L s (tx_ids t)). Qed.

Lemma oks_done {A} (m : M Txn A) t (P : Txn -> Prop) : oks m t (fun _ t' => P t') -> oks (m ;; mret tt) t (fun _ t' => P t').
Proof. intros H. apply oks_bind. eapply oks_rel; [exact H|]. intros a t' HP. by apply oks_ret. Qed.

Lemma oks_run_op env cfg tasks s mem op :
  env_ok env -> NS G s -> Forall (task_ok G) tasks -> op_ok env cfg s mem tasks op -> oks (run_op env cfg op) (new_txn s mem) (fun _ t => landing tasks t).
Proof.
  intros [Hcurr Hall] HN Htasks Hop.
  assert (Hv : NS G (view (new_txn s mem))) by done.
  assert (Hl : forall {A} (m : M Txn A), oks m (new_txn s mem) (fun _ t => lands G (new_txn s mem) t) -> oks m (new_txn s mem) (fun _ t => landing tasks t)).
  { intros A m Hm. eapply oks_rel; [exact Hm|]. intros a t. apply lands_landing. }
  assert (Hquiet : forall (t : Txn), tx_ids t = tx_ids (new_txn s mem) -> (forall s', NS G s' -> Forall (task_dead s') tasks -> commits t s' = true ->
    ns_moves G [] s' (shadow t s')) -> landing tasks t).
  { intros t _ Hm s' Hc HN' Hd _. exists []. split; [apply list_subseteq_nil|auto]. }
  rewrite Forall_forall in Htasks.
  destruct op; simpl in *; try apply oks_done.
  - by apply Hl, mkdirs_lands.
  - by apply Hl, symlinkOp_lands.
  - destruct Hop as (? & ? & ?). by apply Hl, hardLink_lands.
  - by apply Hl, remove_lands.
  - destruct Hop. by apply Hl, rename_lands.
  - apply Hl, lockDirectory_lands.
  - by apply Hl, setAttr_lands.
  - by apply Hl, open_lands.
  - by apply Hl, tryOpen_lands.
  - by apply Hl, batch_run_lands.
  - apply Hl, pruneSession_lands.
  - destruct Hop as [Hin Hne]. eapply oks_rel; [apply (gc_moveToTail_at G task); [by apply Htasks|done]|]. intros [] t (_ & Hi & L). apply Hquiet; [done|].
    intros s' HN' Hd Hc. apply L; [done|done|]. rewrite Forall_forall in Hd. by apply Hd.
  - destruct Hop as [Hin Hne]. eapply oks_rel; [apply (gcFile_at G task); [by apply Htasks|done]|]. intros [] t (_ & Hi & L). apply Hquiet; [done|].
    intros s' HN' Hd Hc. apply L; [done|]. rewrite Forall_forall in Hd. by apply Hd.
  - eapply oks_rel; [eapply (gcDirectory_txn_at cfg G); [done|done|by apply Htasks]|]. intros _ t (_ & L) s' Hc HN' Hd Hun. rewrite Forall_forall in Hd.
    apply L; [done|done|done|by apply Hd|done].
Qed.

(** ** The invariant *)

(** Ids that transactions hold. *)
Definition held (w : World) : list InodeId := w_pending w ≫= tx_ids.

Record fs_inv (w : World) : Prop := {
  fi_ns : NS G (w_store w);
  fi_pending : Forall (landing (w_tasks w)) (w_pending w);
  (** ids not drawn yet are free, and those that transactions hold too *)
  fi_seen : forall id, id ∉ w_seen w -> free (w_store w) id;
  fi_held : NoDup (held w) /\ Forall (fun id => ok_id G id /\ id ∈ w_seen w /\ free (w_store w) id) (held w);
  (** tasks are about inodes without names, for ever *)
  fi_tasks : Forall (fun task => task_ok G task /\ task_dead (w_store w) task /\
    e_id (gt_entry task) ∈ w_seen w /\ e_id (gt_entry task) ∉ held w) (w_tasks w)
}.

Lemma landing_mono tasks tasks' t : tasks ⊆ tasks' -> landing tasks t -> landing tasks' t.
Proof. intros Hsub L s Hc HN Hd Hun. apply L; [done|done| |done]. rewrite Forall_forall in Hd |- *. auto. Qed.

Lemma held_split s seen l t r tasks : held (mkWorld s seen (l ++ t :: r) tasks) ≡ₚ tx_ids t ++ held (mkWorld s seen (l ++ r) tasks).
Proof. unfold held. simpl. rewrite !bind_app, bind_cons, !app_assoc. by rewrite (Permutation_app_comm (l ≫= tx_ids) (tx_ids t)). Qed.

(** A transaction goes, and the store changes by moves that create some of
    the ids it held. *)
Lemma fs_inv_end s s' seen l t r tasks ids :
  fs_inv (mkWorld s seen (l ++ t :: r) tasks) -> ids ⊆ tx_ids t -> ns_moves G ids s s' -> fs_inv (mkWorld s' seen (l ++ r) tasks).
Proof.
  intros [HN Hp Hs [Hnd Hh] Ht] Hids Hm. simpl in *. rewrite held_split in Hnd, Hh.
  apply NoDup_app in Hnd as (_ & Hdis & Hnd). apply Forall_app in Hh as [Ht1 Hh]. rewrite Forall_forall in Ht1.
  assert (Hfree : forall id, free s id -> id ∉ tx_ids t -> free s' id).
  { intros id Hf Hn. eapply ns_moves_free; [done|done|]. intros Hi. by apply Hn, Hids. }
  split; simpl.
  - by eapply ns_moves_NS.
  - apply Forall_app in Hp as [Hl [_ Hr]%Forall_cons]. by apply Forall_app.
  - intros id Hid. apply Hfree; [auto|]. intros Hi. by destruct (Ht1 id Hi) as (_ & ? & _).
  - split; [done|]. rewrite Forall_forall in Hh |- *. intros id Hid. destruct (Hh id Hid) as (? & ? & ?). split; [done|]. split; [done|].
    apply Hfree; [done|]. intros Hi. by apply (Hdis id).
  - rewrite Forall_forall in Ht |- *. intros task Htask. destruct (Ht task Htask) as (Hok & Hd & Hin & Hnh). rewrite held_split, elem_of_app in Hnh.
    split; [done|]. split; [|split; [done|tauto]]. eapply ns_moves_dead; [exact HN|exact Hm|apply Hok|exact Hd|]. intros Hi. apply Hnh. left. by apply Hids.
Qed.

Lemma fs_inv_step w w' : fs_inv w -> fs_step w w' -> fs_inv w' /\ exists ids, ns_moves G ids (w_store w) (w_store w').
Proof.
  intros HI Hstep. destruct Hstep as [s seen pending tasks env cfg mem op t Henv Hop Hrun [Hnd Hfresh]|s seen l t r tasks s' Hc|s seen l t r tasks|s seen pending tasks g n e type Hg He].
  - split; [|exists []; constructor]. destruct HI as [HN Hp Hs [Hnd' Hh] Ht]. simpl in *. rewrite Forall_forall in Hfresh, Hh.
    assert (Hheld : held (mkWorld s (list_to_set (tx_ids t) ∪ seen) (pending ++ [t]) tasks) = held (mkWorld s seen pending tasks) ++ tx_ids t).
    { unfold held. simpl. rewrite bind_app. simpl. by rewrite app_nil_r. }
    assert (Hok : Forall (task_ok G) tasks) by (eapply Forall_impl; [exact Ht|]; by intros ? []).
    split; simpl.
    + done.
    + apply Forall_app. split; [done|]. apply Forall_singleton. exact (oks_run_op env cfg tasks s mem op Henv HN Hok Hop tt t Hrun).
    + intros id Hid. apply Hs. set_solver.
    + rewrite Hheld. split.
      * apply NoDup_app. split; [done|]. split; [|done]. intros id H1 H2. destruct (Hh id H1) as (_ & ? & _). by destruct (Hfresh id H2).
      * apply Forall_app. split; apply Forall_forall; intros id Hid.
        -- destruct (Hh id Hid) as (? & ? & ?). split; [done|]. split; [|done]. apply elem_of_union. by right.
        -- destruct (Hfresh id Hid) as [? Hns]. split; [done|]. split; [|by apply Hs]. apply elem_of_union. left. by apply elem_of_list_to_set.
    + eapply Forall_impl; [exact Ht|]. intros task (? & ? & ? & ?). split; [done|]. split; [done|]. rewrite Hheld, elem_of_app. split; [apply elem_of_union; by right|].
      intros [|Hi]; [done|]. by destruct (Hfresh _ Hi).
  - pose proof HI as [HN Hp Hs [Hnd Hh] Ht]. simpl in *. rewrite held_split in Hnd, Hh. apply NoDup_app in Hnd as (Hnd & _ & _). apply Forall_app in Hh as [Hh _].
    unfold commit_txn in Hc. destruct (commits t s) eqn:Hco; [|done]. injection Hc as <-.
    apply Forall_app in Hp as [_ [Hl _]%Forall_cons]. destruct (Hl s) as (ids & Hsub & Hm); [done|done| | |].
    + eapply Forall_impl; [exact Ht|]. by intros task (_ & ? & _).
    + split; [done|]. eapply Forall_impl; [exact Hh|]. by intros id (? & _ & ?).
    + split; [by eapply fs_inv_end|by exists ids].
  - split; [|exists []; constructor]. eapply (fs_inv_end s s seen l t r tasks []); [done|apply list_subseteq_nil|constructor].
  - split; [|exists []; constructor]. destruct HI as [HN Hp Hs [Hnd Hh] Ht]. simpl in *. split; simpl; [done| |done|done|].
    + eapply Forall_impl; [exact Hp|]. intros t. apply landing_mono. intros x Hx. by right.
    + apply Forall_cons. split; [|done]. destruct (scanned_ok G s g n e type HN Hg He) as [Hok Hd]. split; [done|]. split; [done|].
      assert (Hnf : ~ free s (de_id e)) by (intros [_ Hu]; by apply (Hu _ _ He)).
      split.
      * destruct (decide (de_id e ∈ seen)) as [|Hn]; [done|]. by destruct Hnf; apply Hs.
      * intros Hi. rewrite Forall_forall in Hh. by destruct (Hh _ Hi) as (_ & _ & ?).
Qed.

(** Where the servers start. *)
Definition initial (s : FsStore) (seen : gset InodeId) (w : World) : Prop :=
  NS G s /\ (forall id, id ∉ seen -> free s id) /\ w = mkWorld s seen [] [].

Lemma fs_inv_initial s seen w : initial s seen w -> fs_inv w.
Proof. intros (HN & Hs & ->). split; simpl; [done|constructor|done|split; constructor|constructor]. Qed.

Lemma fs_inv_reach s seen w w' : initial s seen w -> rtc fs_step w w' -> fs_inv w' /\ exists ids, ns_moves G ids s (w_store w').
Proof.
  intros Hi Hr. assert (HI : fs_inv w) by (by eapply fs_inv_initial). destruct Hi as (_ & _ & Hw).
  assert (Hs : w_store w = s) by (by rewrite Hw). rewrite <- Hs. clear Hs Hw. induction Hr as [w|w1 w2 w3 H1 _ IH]; [split; [done|by exists []; constructor]|].
  destruct (fs_inv_step _ _ HI H1) as [HI2 [ids M1]]. destruct (IH HI2) as [HI3 [ids' M2]]. split; [done|]. exists (ids ++ ids'). by eapply ns_moves_app.
Qed.
End world.
