(* ===== verification/FsGcLive.v ===== *)
(** * Removed directories are emptied

    The loop of [GcTask::gcDirectory], for a directory whose entries may all
    be removed and that gets no new ones: it comes to an end, and then the
    directory is gone, however often its transactions are repeated.  Every
    commit takes a page of entries, so there are no more commits than entries,
    and one. *)

From Stdlib Require Import ZArith Lia String Ascii.
From stdpp Require Import base gmap list strings.
From S2P Require Import Prelude StatusCode MgmtdTypes FsTypes FsTxn FsGc FsNamespace FsMoves FsTracked FsResolved FsOpsLand FsGcLand.

(** How an attempt at a transaction ends: it commits; it is repeated, after a
    conflict ([false]) or after a commit of unknown result that was applied
    ([true]); or the retries are used up and the error is returned. *)
Inductive CommitEnd := CommitOk | CommitRepeat (applied : bool) | CommitFail (code : Z) (applied : bool).

(** An attempt: what other transactions commit before it reads, the memory of
    the server, and how it ends. *)
Record GcAttempt := mkGcAttempt { ga_others : FsStore -> FsStore; ga_mem : FsMem; ga_end : CommitEnd }.

(** The loop of [gcDirectory] over the attempts that [runReadWrite] makes.  The
    handler sets the captured [checked] and [finished] before the commit, and
    neither is cleared when it is run again. *)
Fixpoint gcDirectory {HEnv : FsEnv} (attempts : list GcAttempt) (cfg : FsConfig) (fuel : nat) (task : GcTask) (user : UserAttr)
    (checked finished : bool) (s : FsStore) : outcome unit * FsStore :=
  match attempts with
  | [] => (Pending, s)
  | a :: attempts' =>
      let s := ga_others a s in
      match gcDirectory_txn cfg fuel task user checked (new_txn s (ga_mem a)) with
      | (Ok (checked', last), t) =>
          let finished' := finished || last in
          let done (applied : bool) := if applied then apply_writes (tx_writes t) s else s in
          match ga_end a with
          | CommitOk => if finished' then (Ok tt, done true) else gcDirectory attempts' cfg fuel task user checked' finished' (done true)
          | CommitRepeat applied => gcDirectory attempts' cfg fuel task user checked' finished' (done applied)
          | CommitFail code applied => (Err code, done applied)
          end
      | (Err c, _) => (Err c, s)
      | (Fatal, _) => (Fatal, s)
      | (Pending, _) => (Pending, s)
      end
  end.

(** The attempts that commit and are told so. *)
Definition is_commit (a : GcAttempt) : bool := match ga_end a with CommitOk => true | _ => false end.
Definition commits_of (attempts : list GcAttempt) : nat := length (List.filter is_commit attempts).

(** ** Runs that succeed *)

Section does.
Context {S : Type}.

(** [m] succeeds in [s], with a result and a state in [Q]. *)
Definition does {A} (m : M S A) (s : S) (Q : A -> S -> Prop) : Prop := exists a s', m s = (Ok a, s') /\ Q a s'.

Lemma does_bind {A B} (m : M S A) (k : A -> M S B) s Q : does m s (fun a s1 => does (k a) s1 Q) -> does (m ≫= k) s Q.
Proof.
  intros (a & s1 & H1 & b & s2 & H2 & HQ). exists b, s2. split; [|done]. unfold mbind, M_bind. by rewrite H1.
Qed.
Lemma does_ret {A} (a : A) s (Q : A -> S -> Prop) : Q a s -> does (mret a) s Q.
Proof. intros. by exists a, s. Qed.
Lemma does_gets {A} (f : S -> A) s (Q : A -> S -> Prop) : Q (f s) s -> does (gets f) s Q.
Proof. intros. by exists (f s), s. Qed.
Lemma does_getS s (Q : S -> S -> Prop) : Q s s -> does getS s Q.
Proof. intros. by exists s, s. Qed.
Lemma does_modify f s (Q : unit -> S -> Prop) : Q tt (f s) -> does (modify f) s Q.
Proof. intros. by exists tt, (f s). Qed.
Lemma does_lift {A} (o : outcome A) a s (Q : A -> S -> Prop) : o = Ok a -> Q a s -> does (lift o) s Q.
Proof. intros -> HQ. by exists a, s. Qed.
Lemma does_err_if b c s (Q : unit -> S -> Prop) : b = false -> Q tt s -> does (err_if b c) s Q.
Proof. intros -> HQ. by exists tt, s. Qed.
Lemma does_fatal_if b s (Q : unit -> S -> Prop) : b = false -> Q tt s -> does (fatal_if b) s Q.
Proof. intros -> HQ. by exists tt, s. Qed.
Lemma does_when b (m : M S unit) s Q : (b = true -> does m s Q) -> (b = false -> Q tt s) -> does (when b m) s Q.
Proof. unfold when. destruct b; intros H1 H2; [auto|by apply does_ret, H2]. Qed.
Lemma does_mono {A} (m : M S A) s (P Q : A -> S -> Prop) : does m s P -> (forall a s', P a s' -> Q a s') -> does m s Q.
Proof. intros (a & s' & H & HP) HPQ. exists a, s'. auto. Qed.
(** What successful runs satisfy. *)
Lemma does_oks {A} (m : M S A) s (P Q : A -> S -> Prop) : does m s P -> oks m s Q -> does m s (fun a s' => P a s' /\ Q a s').
Proof. intros (a & s' & H & HP) Ho. exists a, s'. split; [done|]. split; [done|]. by apply Ho. Qed.
End does.

Ltac dostep := lazymatch goal with
  | |- does (_ ≫= _) _ _ => apply does_bind
  | |- does (mret _) _ _ => apply does_ret
  | |- does (gets _) _ _ => apply does_gets
  | |- does getS _ _ => apply does_getS
  | |- does (modify _) _ _ => apply does_modify
  | |- does (err_if _ _) _ _ => apply does_err_if
  | |- does (fatal_if _) _ _ => apply does_fatal_if
  end.

(** ** Names of garbage are names *)

Lemma has_slash_app a b : has_slash (a +:+ b) = has_slash a || has_slash b.
Proof. unfold has_slash. induction a as [|c a IH]; simpl; [done|]. rewrite IH. by destruct (Ascii.eqb c "/"). Qed.

Lemma digit_slash d : 0 <= d < 16 -> Ascii.eqb (digit d) "/" = false.
Proof.
  intros Hd. apply Ascii.eqb_neq. intros H. apply (f_equal nat_of_ascii) in H. unfold digit in H.
  rewrite nat_ascii_embedding in H by (case_match; lia). change (nat_of_ascii "/") with 47%nat in H. case_match; lia.
Qed.

Lemma has_slash_digits base w n : 1 < base <= 16 -> has_slash (fixed_digits base w n) = false.
Proof.
  intros Hb. revert n. induction w as [|w IH]; intros n; simpl; [done|]. rewrite has_slash_app, IH. unfold has_slash. simpl.
  rewrite digit_slash; [done|]. pose proof (Z.mod_pos_bound n base). lia.
Qed.

Lemma gc_entry_name type ts id : checkName (formatGcEntry (prefixOf type) ts id) = true /\
  String.length (formatGcEntry (prefixOf type) ts id) = 41%nat.
Proof.
  unfold formatGcEntry, toHexString. split.
  - unfold checkName. rewrite !has_slash_app, !has_slash_digits by lia. rewrite bool_decide_eq_false_2.
    + by destruct type.
    + by intros [?|[?|?]].
  - rewrite !length_append, !length_fixed_digits. done.
Qed.

(** ** Parts of the transaction *)

Section live.
Context {HEnv : FsEnv} (cfg : FsConfig) (G : gset InodeId).
Context (Hcurr : forall g, g ∈ fe_currGcDirectories -> g ∈ G) (Hall : forall g, g ∈ fe_allGcDirectories -> g ∈ G).
Context (Hdirs : fe_currGcDirectories <> []).

Lemma does_ask {A} (f : nat -> A) t (Q : A -> Txn -> Prop) : (forall n t', quiet t t' -> Q (f n) t') -> does (ask f) t Q.
Proof. intros HQ. unfold ask. do 2 dostep. do 2 dostep. dostep. apply HQ, quiet_tick. Qed.

Lemma does_track k t (Q : unit -> Txn -> Prop) : (forall t', quiet t t' -> Q tt t') -> does (addReadConflict k) t Q.
Proof.
  intros HQ. unfold addReadConflict. do 2 dostep. apply does_when; intros _; [|by apply HQ]. dostep. apply HQ, quiet_read.
Qed.

Lemma does_touch_ctime i t (Q : Inode -> Txn -> Prop) :
  (forall c t', quiet t t' -> Q (set_i_data (set_in_ctime c) i) t') -> does (touch_ctime cfg i) t Q.
Proof.
  intros HQ. unfold touch_ctime, update_time. dostep. apply does_ask. intros n t1 H1. dostep. dostep.
  assert (Hn : forall n2 t2, quiet t t2 -> does (mret (if negb (n2 =? in_ctime (i_data i)) && (negb true || (in_ctime (i_data i) <? n2)) then (n2, true) else (in_ctime (i_data i), false))) t2
    (fun a s1 => does (let '(ctime, _) := a in mret (set_i_data (set_in_ctime ctime) i)) s1 Q)).
  { intros n2 t2 H2. dostep. destruct (negb _ && _); dostep; by apply HQ. }
  case_match; [apply does_ask; intros m t2 H2; apply Hn; by etrans|dostep; by apply Hn].
Qed.

Lemma does_pickGcDirectory t (Q : InodeId -> Txn -> Prop) : (forall g t', quiet t t' -> Q g t') -> does (pickGcDirectory cfg) t Q.
Proof.
  intros HQ. unfold pickGcDirectory. dostep. dostep; [by apply bool_decide_eq_false_2|].
  assert (Hp : forall (l : list InodeId) i t1, quiet t t1 -> 0 <= i < Z.of_nat (length l) ->
    does (match l !! Z.to_nat i with Some g => mret g | None => fatal end) t1 Q).
  { intros l i t1 H1 Hi. destruct (l !! Z.to_nat i) as [g|] eqn:E; [dostep; by apply HQ|]. apply lookup_ge_None in E. lia. }
  assert (Hlen : (0 < length fe_currGcDirectories)%nat) by (destruct fe_currGcDirectories; simpl; [done|lia]).
  destruct (fc_gc_distributed cfg && negb (bool_decide (fe_allGcDirectories = []))) eqn:Hd.
  - apply andb_true_iff in Hd as [_ Hd]. apply negb_true_iff, bool_decide_eq_false_1 in Hd. dostep. apply does_ask. intros k t1 H1. apply Hp; [done|].
    apply Z.mod_pos_bound. destruct fe_allGcDirectories; simpl; [done|lia].
  - clear Hd. case_bool_decide as H1; [apply Hp; [done|lia]|]. dostep. apply does_ask. intros k t1 H2. apply Hp; [done|].
    pose proof (Z.mod_pos_bound (fe_rand k) (Z.of_nat (length fe_currGcDirectories) - 1)). lia.
Qed.

Lemma does_DirEntry_store e t (Q : unit -> Txn -> Prop) :
  checkName (e_name e) = true -> (String.length (e_name e) <= NAME_MAX)%nat -> isTreeRoot (e_id e) = false ->
  Q tt (add_write (WEntry (e_parent e) (e_name e) (Some (e_data e))) t) -> does (DirEntry_store e) t Q.
Proof.
  intros Hn Hl Hr HQ. unfold DirEntry_store. do 2 dostep; [by rewrite Hn|]. do 2 dostep; [apply bool_decide_eq_false_2; lia|]. do 2 dostep; [done|]. by dostep.
Qed.

Lemma does_DirEntry_remove e t (Q : unit -> Txn -> Prop) :
  checkName (e_name e) = true -> Q tt (add_write (WEntry (e_parent e) (e_name e) None) t) -> does (DirEntry_remove e) t Q.
Proof. intros Hn HQ. unfold DirEntry_remove. do 2 dostep; [by rewrite Hn|]. by dostep. Qed.

Lemma does_Inode_store i t (Q : unit -> Txn -> Prop) :
  storable i = Ok tt -> Q tt (add_write (WInode (i_id i) (Some (i_data i))) t) -> does (Inode_store i) t Q.
Proof. intros Hs HQ. unfold Inode_store. dostep. eapply does_lift; [done|]. by dostep. Qed.

Lemma does_Inode_remove i t (Q : unit -> Txn -> Prop) :
  isTreeRoot (i_id i) = false -> isImmutable (in_acl (i_data i)) = false -> Q tt (add_write (WInode (i_id i) None) t) -> does (Inode_remove i) t Q.
Proof. intros Hr Hi HQ. unfold Inode_remove. do 2 dostep; [done|]. do 2 dostep; [done|]. by dostep. Qed.

(** An inode without links is put in the garbage. *)
Lemma does_gc_add dir id x info t (Q : unit -> Txn -> Prop) :
  isTreeRoot id = false -> getType x <> IT_Symlink -> storable (mkInode id x) = Ok tt ->
  (forall t1 gn ge, quiet t t1 -> Q tt (add_write (WEntry dir gn (Some ge)) t1)) -> does (gc_add cfg dir (mkInode id x) info) t Q.
Proof.
  intros Hr Hty Hs HQ. unfold gc_add. cbn [i_data]. unfold getType in *. unfold storable in Hs. cbn [i_data i_id] in Hs. rewrite Hr in Hs.
  destruct (in_type x) as [f|d|l] eqn:Hx; [| |done].
  - unfold gc_addFile. dostep. unfold asFile. cbn [i_data]. rewrite Hx. eapply does_lift; [done|]. dostep. dostep.
    { unfold Layout_valid in Hs. by destruct (ly_chunkSize (fl_layout f) =? 0). }
    cbn zeta. dostep. apply does_ask. intros n t1 H1. apply does_DirEntry_store.
    + apply gc_entry_name.
    + cbn [e_name newFileEntry]. rewrite (proj2 (gc_entry_name _ _ _)). unfold NAME_MAX. lia.
    + done.
    + by apply HQ.
  - unfold gc_addDirectory. dostep. apply does_ask. intros n t1 H1. apply does_DirEntry_store.
    + exact (proj1 (gc_entry_name GC_DIRECTORY _ _)).
    + cbn [e_name newDirectoryEntry]. rewrite (proj2 (gc_entry_name GC_DIRECTORY _ _)). unfold NAME_MAX. lia.
    + done.
    + by apply HQ.
Qed.

(** ** An entry is removed *)

(** No inode is new, and none changes but in its links and times. *)
Definition gentle (s s' : FsStore) : Prop := forall id y', fs_inodes s' !! id = Some y' ->
  exists y, fs_inodes s !! id = Some y /\ in_acl y' = in_acl y /\ in_type y' = in_type y.

Lemma gentle_refl s : gentle s s.
Proof. intros id y Hy. by exists y. Qed.
Lemma gentle_trans s1 s2 s3 : gentle s1 s2 -> gentle s2 s3 -> gentle s1 s3.
Proof.
  intros H1 H2 id y3 Hy3. destruct (H2 id y3 Hy3) as (y2 & Hy2 & ? & ?). destruct (H1 id y2 Hy2) as (y1 & Hy1 & ? & ?). exists y1. split; [done|]. split; congruence.
Qed.
Lemma gentle_store s id x x' E S' : fs_inodes s !! id = Some x -> in_acl x' = in_acl x -> in_type x' = in_type x ->
  gentle s (mkFsStore (<[id := x']> (fs_inodes s)) E S').
Proof.
  intros Hx Ha Ht i y. simpl. rewrite lookup_insert_Some. intros [[<- <-]|[_ Hy]]; [by exists x|by exists y].
Qed.

Lemma storable_kept id x x' : isTreeRoot id = false -> in_type x' = in_type x -> storable (mkInode id x) = Ok tt -> storable (mkInode id x') = Ok tt.
Proof. unfold storable. simpl. intros -> ->. done. Qed.

Lemma does_GcManager_removeEntry e x info t :
  getType x = e_type e -> in_nlink x <> 0 -> isImmutable (in_acl x) = false -> isTreeRoot (e_id e) = false -> storable (mkInode (e_id e) x) = Ok tt ->
  checkName (e_name e) = true -> fs_inodes (view t) !! e_id e = Some x ->
  (forall d, in_type x = IV_Directory d -> in_nlink x = 1 /\ di_parent d = e_parent e) ->
  does (GcManager_removeEntry cfg e (mkInode (e_id e) x) info) t (fun _ t' => tx_ids t' = tx_ids t /\ gentle (view t) (view t')).
Proof.
  intros Hty Hl Him Hr Hs Hn Hx Hd. unfold GcManager_removeEntry. do 2 dostep; [simpl; lia|]. do 2 dostep; [done|]. cbn [i_data].
  dostep. apply does_touch_ctime. intros c t1 H1. set (x' := set_in_ctime c (set_in_nlink (in_nlink x - 1) x)).
  replace (set_i_data (set_in_ctime c) (set_i_data (set_in_nlink (in_nlink x - 1)) (mkInode (e_id e) x))) with (mkInode (e_id e) x') by done.
  assert (Ha : in_acl x' = in_acl x) by (by destruct x). assert (Ht : in_type x' = in_type x) by (by destruct x).
  assert (Hs' : storable (mkInode (e_id e) x') = Ok tt) by (by eapply storable_kept).
  dostep. apply does_track. intros t2 H2. dostep. apply does_track. intros t3 H3. assert (H03 : quiet t t3) by (etrans; [exact H1|]; by etrans).
  assert (Hgentle : forall t', tx_ids t' = tx_ids t3 -> gentle (view t3) (view t') -> tx_ids t' = tx_ids t /\ gentle (view t) (view t')).
  { intros t' Hi Hg. rewrite (quiet_view _ _ H03) in Hg. split; [rewrite Hi; apply H03|done]. }
  rewrite <- (quiet_view _ _ H03) in Hx.
  dostep. case_bool_decide as Hsym.
  - dostep. apply does_DirEntry_remove; [done|]. destruct (in_nlink x - 1 =? 0); simpl.
    + apply does_Inode_remove; [done|cbn [i_data]; rewrite Ha; done|]. dostep. apply Hgentle; [done|]. rewrite !view_write. intros i y Hy. change (delete (e_id e) (fs_inodes (view t3)) !! i = Some y) in Hy. apply lookup_delete_Some in Hy as [_ Hy]. by exists y.
    + apply does_Inode_store; [done|]. dostep. apply Hgentle; [done|]. rewrite !view_write. by eapply (gentle_store (view t3)).
  - dostep. apply does_Inode_store; [done|]. dostep. apply does_DirEntry_remove; [done|]. set (t4 := add_write _ _).
    assert (G4 : gentle (view t3) (view t4)) by (unfold t4; rewrite !view_write; by eapply (gentle_store (view t3))).
    dostep. apply (does_mono _ _ (fun _ t5 => t5 = t4)).
    + apply does_when; intros Hdir; [|done]. unfold isDirectory, getType in Hdir. cbn [i_data] in Hdir. rewrite Ht in Hdir.
      destruct (in_type x) as [f|d|l] eqn:Hxt; try done. destruct (Hd d eq_refl) as [Hone Hpar].
      do 2 dostep; [rewrite Hone; done|]. dostep. unfold asDirectory. cbn [i_data]. rewrite Ht. eapply does_lift; [done|]. dostep; [|done]. rewrite Hpar. by rewrite Z.eqb_refl.
    + intros [] t5 ->. apply does_when; intros Hz; [|dostep; by apply Hgentle].
      dostep. apply does_pickGcDirectory. intros g t5 H5. apply does_gc_add; [done| |done|].
      * unfold getType in *. rewrite Ht. congruence.
      * intros t6 gn ge H6. assert (H46 : quiet t4 t6) by (etrans; [exact H5|exact H6]). dostep. apply Hgentle; [simpl; by rewrite (qt_ids _ _ H46)|].
        rewrite view_write. rewrite (quiet_view _ _ H46). exact G4.
Qed.

(** ** A transaction on its own snapshot *)

Lemma commits_base t : commits t (tx_base t) = true.
Proof.
  unfold commits. apply forallb_forall. intros c _. destruct c as [[]| |]; simpl; by apply bool_decide_eq_true_2.
Qed.

Lemma shadow_base t t' : tx_base t' = tx_base t -> shadow t' (tx_base t) = view t'.
Proof. intros H. unfold shadow, view. by rewrite H. Qed.

Section task.
Context (task : GcTask) (Hok : task_ok G task) (user : UserAttr) (uid : Z) (Huser : gc_user task = Ok uid).
Context (Hdir : e_type (gt_entry task) = IT_Directory) (Hname : checkName (e_name (gt_entry task)) = true).
Notation T := (e_id (gt_entry task)).

Lemma clears_view e t t' : clears G task e t t' -> tx_ids t' = tx_ids t -> NS G (view t) -> task_dead (view t) task ->
  fs_entries (view t) !! (T, e_name e) = Some (e_data e) -> NS G (view t') /\ cleared task (e_name e) (view t) (view t').
Proof.
  intros [Hg L] Hi HN Hd He. pose proof (gr_base _ _ Hg) as Hb. rewrite <- (shadow_base t t Logic.eq_refl) in HN, Hd, He.
  destruct (L (tx_base t) []) as (ids & _ & M & C); [by rewrite app_nil_r|rewrite <- Hb; apply commits_base|done|done|done|split; constructor|].
  rewrite <- (shadow_base t t' Hb), <- (shadow_base t t Logic.eq_refl). split; [by eapply ns_moves_NS|done].
Qed.

(** An entry that may be removed with its directory. *)
Definition removable (s : FsStore) (e : DirEntry) : Prop := checkName (e_name e) = true /\ forall x, fs_inodes s !! e_id e = Some x ->
  isImmutable (in_acl x) = false /\ storable (mkInode (e_id e) x) = Ok tt /\
  (fc_gc_recursive_perm_check cfg = true -> isDirectory x = true -> checkRecursiveRmPerm (in_acl x) (ua_info user) false = Ok tt).

Lemma removable_gentle s s' e : isTreeRoot (e_id e) = false -> gentle s s' -> removable s e -> removable s' e.
Proof.
  intros Hr Hg [Hn Hx]. split; [done|]. intros x' Hx'. destruct (Hg _ _ Hx') as (x & Hx0 & Ha & Ht). destruct (Hx x Hx0) as (H1 & H2 & H3). rewrite Ha.
  split; [done|]. split; [by eapply storable_kept|]. unfold isDirectory, getType. rewrite Ht. exact H3.
Qed.

Lemma does_GcTask_removeEntry fuel e t :
  NS G (view t) -> task_dead (view t) task -> e_parent e = T -> fs_entries (view t) !! (T, e_name e) = Some (e_data e) -> removable (view t) e ->
  does (GcTask_removeEntry cfg fuel task user e) t (fun _ t' => tx_ids t' = tx_ids t /\ gentle (view t) (view t')).
Proof.
  intros HN Hd Hp He [Hn Hx]. destruct (entry_below G task Hok _ _ _ HN Hd He) as [_ (x & Hnm)]. destruct (name_of_nlink G _ _ _ _ _ HN Hnm) as (Hl & Hpos & Hr & Hty & _).
  destruct Hnm as (_ & HG & _ & Hxx). fold (e_id e) in Hxx. destruct (Hx x Hxx) as (Him & Hs & Hperm).
  assert (Hpd : forall d, in_type x = IV_Directory d -> di_parent d = T).
  { intros d Hdx. apply (ns_dirlink _ _ HN _ _ _ (di_parent d) He HG). fold (e_id e). unfold parent_of, as_dir. rewrite Hxx. simpl. by rewrite Hdx. }
  unfold GcTask_removeEntry. do 2 dostep; [rewrite Hp; by rewrite Z.eqb_refl|]. dostep. unfold DirEntry_loadInode. dostep. unfold Inode_load. dostep. apply does_track. intros t1 H1.
  unfold Inode_snapshotLoad. dostep. rewrite (quiet_view _ _ H1), Hxx. simpl. apply (does_lift _ (mkInode (e_id e) x)).
  { unfold e_type. by rewrite bool_decide_eq_true_2. }
  do 2 dostep; [by rewrite Z.eqb_refl|]. do 2 dostep; [cbn [i_data]; destruct (in_type x) as [|d|] eqn:Hxt; try done; rewrite Hp, (Hpd d) by done; by rewrite Z.eqb_refl|].
  cbn [i_data i_id]. rewrite Him. dostep. apply (does_mono _ _ (fun b t2 => b = true /\ t2 = t1)).
  { destruct (fc_gc_recursive_perm_check cfg && isDirectory x) eqn:Hb; [|by dostep]. apply andb_true_iff in Hb as [Hb1 Hb2]. rewrite Hperm by done. by dostep. }
  intros b t2 [-> ->]. dostep. eapply does_lift; [exact Huser|]. dostep. eapply does_mono; [apply does_GcManager_removeEntry|]; try done.
  - unfold nlink_of in *. lia.
  - by rewrite (quiet_view _ _ H1).
  - intros d Hdx. rewrite Hp. split; [|by apply Hpd]. unfold e_id in *.
    assert (Hisd : is_dir (view t) (de_id (e_data e))) by (apply dir_type; unfold type_of, getType; rewrite Hxx; simpl; by rewrite Hdx).
    pose proof (ns_single _ _ HN _ Hisd Hr). lia.
  - intros i t2 [Hi Hg]. dostep. rewrite (quiet_view _ _ H1) in Hg. split; [rewrite Hi; apply H1|done].
Qed.

(** A page of entries. *)
Definition swept (es : list DirEntry) (s s' : FsStore) : Prop := NS G s' /\ gentle s s' /\ fs_inodes s' !! T = fs_inodes s !! T /\
  forall n, fs_entries s' !! (T, n) = if decide (n ∈ e_name <$> es) then None else fs_entries s !! (T, n).

Lemma does_sweep fuel es t :
  NS G (view t) -> task_dead (view t) task -> NoDup (e_name <$> es) ->
  Forall (fun e => e_parent e = T /\ fs_entries (view t) !! (T, e_name e) = Some (e_data e) /\ removable (view t) e) es ->
  does (for_each (GcTask_removeEntry cfg fuel task user) es) t (fun _ t' => tx_ids t' = tx_ids t /\ tx_base t' = tx_base t /\ swept es (view t) (view t')).
Proof.
  revert t. induction es as [|e es IH]; intros t HN Hd Hnd Hes; simpl.
  { dostep. split; [done|]. split; [done|]. split; [done|]. split; [apply gentle_refl|done]. }
  apply NoDup_cons in Hnd as [Hne Hnd]. apply Forall_cons in Hes as [(Hp & He & Hrm) Hes]. dostep.
  eapply does_mono; [eapply does_oks; [by apply does_GcTask_removeEntry|by apply (GcTask_removeEntry_clears cfg G)]|].
  intros [] t1 [[Hi Hg] Hc]. destruct (clears_view e t t1) as [HN1 [C1 C2 C3]]; [done..|].
  assert (Hb1 : tx_base t1 = tx_base t) by (by destruct Hc as [[]]).
  eapply does_mono; [apply IH|]; [done|unfold task_dead, dead; by rewrite C1|done| |].
  - rewrite Forall_forall in Hes |- *. intros e' He'. destruct (Hes e' He') as (Hp' & Hee' & Hrm'). split; [done|]. split.
    + rewrite C3; [done|]. intros Heq. apply Hne. rewrite <- Heq. by apply list_elem_of_fmap_2.
    + eapply removable_gentle; [by eapply (ns_notroot _ _ HN _ _ Hee')|done|done].
  - intros [] t2 (Hi2 & Hb2 & HN2 & Hg2 & HT & HE). split; [congruence|]. split; [congruence|]. split; [done|]. split; [by eapply gentle_trans|]. split; [congruence|].
    intros n. rewrite HE. destruct (decide (n = e_name e)) as [->|Hn].
    + rewrite decide_False by done. rewrite decide_True by (by left). done.
    + rewrite C3 by done. destruct (decide (n ∈ e_name <$> es)) as [Hin|Hin]; [by rewrite decide_True by (by right)|].
      rewrite decide_False; [done|]. intros [|]%elem_of_cons; done.
Qed.

(** ** The loop *)

(** The directory of the task, and all that is in it, may be removed. *)
Record drainable (s : FsStore) : Prop := {
  dr_ns : NS G s;
  dr_dead : task_dead s task;
  dr_mutable : forall x, fs_inodes s !! T = Some x -> isImmutable (in_acl x) = false;
  dr_entries : forall n e, fs_entries s !! (T, n) = Some e -> removable s (mkDirEntry T n e)
}.

(** What the loop leaves. *)
Definition drained (s' : FsStore) : Prop := NS G s' /\ fs_inodes s' !! T = None /\ no_entries s' T /\
  fs_entries s' !! (e_parent (gt_entry task), e_name (gt_entry task)) = None.

Lemma does_removeGc t : NS G (view t) -> task_dead (view t) task -> no_entries (view t) T ->
  does (removeGcEntryAndInode task) t (fun _ t' => tx_base t' = tx_base t /\ drained (view t')).
Proof.
  intros HN Hd Hno. destruct Hok as [Hg _ (Hr & HG & _)]. unfold removeGcEntryAndInode. dostep. apply does_DirEntry_remove; [done|].
  apply does_Inode_remove; [done|done|]. split; [done|]. rewrite !view_write.
  set (s' := apply_write _ _). assert (Hs : s' = mkFsStore (delete T (fs_inodes (view t))) (delete (e_parent (gt_entry task), e_name (gt_entry task)) (fs_entries (view t))) (fs_sessions (view t))) by done.
  rewrite Hs. split; [|simpl; split; [apply lookup_delete_eq|split; [|apply lookup_delete_eq]]].
  - eapply ns_move_NS; [done|]. by eapply (collect_moves G task Hok (view t) _ (fs_sessions (view t))).
  - intros n. simpl. apply lookup_delete_None. right. apply Hno.
Qed.

Lemma sweep_drainable es s s' : drainable s -> swept es s s' -> drainable s'.
Proof.
  intros [HN Hd Hm He] (HN' & Hg & HT & HE). split; [done|unfold task_dead, dead; by rewrite HT|by rewrite HT|].
  intros n e Hn. rewrite HE in Hn. case_decide; [done|]. eapply removable_gentle; [by eapply (ns_notroot _ _ HN _ _ Hn)|done|by apply He].
Qed.

Lemma listing_swept es s s' e0 : swept es s s' -> e0 ∈ es -> e0 ∈ listing s T -> (length (listing s' T) < length (listing s T))%nat.
Proof.
  intros (_ & _ & _ & HE) Hin H0.
  assert (Hsub : e0 :: listing s' T ⊆+ listing s T).
  { apply NoDup_submseteq.
    - apply NoDup_cons. split.
      + intros [_ H]%elem_of_listing. rewrite HE, decide_True in H; [done|]. by apply list_elem_of_fmap_2.
      + eapply NoDup_fmap_1, NoDup_listing.
    - intros e [->|He]%elem_of_cons; [done|]. apply elem_of_listing in He as [Hp He]. rewrite HE in He. case_decide; [done|]. by apply elem_of_listing. }
  apply submseteq_length in Hsub. simpl in Hsub. lia.
Qed.

(** A page of the loop. *)
Definition gc_page : nat := default_limit (fc_gc_directory_entry_batch cfg).

Lemma gc_page_pos : (1 <= gc_page)%nat.
Proof. unfold gc_page, default_limit. destruct (Z.ltb_spec 0 (fc_gc_directory_entry_batch cfg)); lia. Qed.

Lemma no_entries_listing s : no_entries s T <-> length (listing s T) = 0%nat.
Proof.
  split.
  - intros Hno. destruct (listing s T) as [|e l] eqn:E; [done|]. exfalso.
    assert (e ∈ listing s T) as [_ He]%elem_of_listing by (rewrite E; by left). by rewrite Hno in He.
  - intros Hl n. destruct (fs_entries s !! (T, n)) as [e|] eqn:E; [|done]. apply nil_length_inv in Hl.
    assert (mkDirEntry T n e ∈ listing s T) as He by (by apply elem_of_listing). rewrite Hl in He. by apply elem_of_nil in He.
Qed.

(** The scan of a page starts after the empty name, which nothing has. *)
Lemma listing_scanned s : NS G s -> filter (fun e => String.ltb "" (e_name e) = true) (listing s T) = listing s T.
Proof.
  intros HN. assert (H : forall l, l ⊆ listing s T -> filter (fun e => String.ltb "" (e_name e) = true) l = l).
  { induction l as [|e l IH]; intros Hl; [done|]. rewrite filter_cons, decide_True, IH; [done|set_solver|].
    assert (e ∈ listing s T) as [Hp He]%elem_of_listing by set_solver. apply ltb_empty. by apply (ns_range _ _ HN _ _ He). }
  by apply H.
Qed.

(** The first part: the inode is as expected, or gone and its garbage entry is
    removed. *)
Lemma does_gc_check mem (checked : bool) s : drainable s -> let t := new_txn s mem in
  does (if checked then mret false
     else loaded ← Inode_load (e_id (gt_entry task));
       match loaded with
       | None => removeGcEntryAndInode task ;; mret true
       | Some inode =>
           err_if (negb (in_nlink (i_data inode) =? 0) || negb (isDirectory (i_data inode)) || isImmutable (in_acl (i_data inode)))
             MetaCode_kFoundBug ;; mret false
       end) t (fun (gone : bool) t1 => tx_base t1 = s /\ if gone then no_entries s T /\ drained (view t1) else quiet t t1).
Proof.
  intros [HN Hd Hm He] t. assert (Hv : view t = s) by done. destruct checked; [by dostep|]. dostep. unfold Inode_load. dostep. apply does_track. intros t1 H1. unfold Inode_snapshotLoad. dostep.
  assert (B1 : tx_base t1 = s) by apply H1. rewrite (quiet_view _ _ H1), Hv. destruct (fs_inodes s !! T) as [x|] eqn:Hx; simpl.
  - destruct (Hd x Hx) as [Hz Ht]. dostep. dostep; [|by dostep]. rewrite Hz, (Hm x Logic.eq_refl). unfold isDirectory. by rewrite Ht, Hdir.
  - assert (Hno : no_entries s T) by (apply NS_no_entries with (G := G); [done|]; unfold is_dir, parent_of; rewrite Hx; by intros []%is_Some_None).
    dostep. eapply does_mono; [apply does_removeGc; rewrite (quiet_view _ _ H1), Hv; done|].
    intros [] t2 [B2 Hdr]. dostep. split; [congruence|done].
Qed.

(** One transaction: it finishes the task, when there is one page at most, or
    there are fewer entries. *)
Lemma does_gcDirectory_txn fuel mem checked s : drainable s ->
  does (gcDirectory_txn cfg fuel task user checked) (new_txn s mem) (fun r t' => tx_base t' = s /\
    if (snd r : bool) then (length (listing s T) <= gc_page)%nat /\ drained (view t')
    else (gc_page < length (listing s T))%nat /\ drainable (view t') /\ (length (listing (view t') T) < length (listing s T))%nat).
Proof.
  intros Hdr0. pose proof Hdr0 as [HN Hd Hm He]. unfold gcDirectory_txn. dostep. eapply does_mono; [by apply (does_gc_check mem checked s)|]. set (t := new_txn s mem).
  intros gone t1 [B1 H1]. destruct gone.
  { dostep. split; [done|]. simpl. destruct H1 as [Hno%no_entries_listing ?]. split; [lia|done]. }
  dostep. unfold DirEntryList_load, DirEntryList_snapshotLoad. do 2 dostep. do 2 dostep. dostep. fold gc_page.
  unfold list_range. rewrite (quiet_view _ _ H1). change (view t) with s. rewrite (listing_scanned s HN).
  set (t2 := add_read _ t1). assert (H02 : quiet t t2) by (etrans; [exact H1|apply quiet_read]).
  assert (V2 : view t2 = s) by (by rewrite (quiet_view _ _ H02)). clearbody t2.
  set (es := take gc_page (listing s T)). assert (Hin : forall e, e ∈ es -> e ∈ listing s T).
  { intros e Hes. rewrite <- (take_drop gc_page (listing s T)). apply elem_of_app. by left. }
  dostep. eapply does_mono; [apply does_sweep|]; rewrite ?V2; [done|done| | |].
  - apply (sublist_NoDup _ (e_name <$> listing s T)); [apply NoDup_listing|]. apply fmap_sublist, sublist_take.
  - apply Forall_forall. intros e [Hp Hee]%Hin%elem_of_listing. split; [done|]. split; [done|]. specialize (He _ _ Hee). by rewrite <- Hp in He; destruct e.
  - intros [] t3 (_ & B3 & Hsw). assert (B03 : tx_base t3 = s) by (rewrite B3; apply H02).
    assert (Hdr : drainable (view t3)) by (by eapply sweep_drainable). pose proof gc_page_pos as Hk.
    destruct (bool_decide (gc_page < length (listing s T))%nat) eqn:Hmore.
    + dostep. split; [done|]. simpl. apply bool_decide_eq_true_1 in Hmore. split; [done|]. split; [done|].
      destruct es as [|e0 es'] eqn:Ees; [exfalso; apply (f_equal length) in Ees; unfold es in Ees; rewrite length_take in Ees; simpl in Ees; lia|].
      eapply (listing_swept _ s _ e0); [exact Hsw|by left|apply Hin; by left].
    + apply bool_decide_eq_false_1 in Hmore. destruct Hdr as [HN3 Hd3 _ _]. dostep. eapply does_mono; [apply does_removeGc; [done|done|]|].
      * destruct Hsw as (_ & _ & _ & HE). intros n. rewrite HE. case_decide as Hn; [done|]. destruct (fs_entries s !! (T, n)) as [e|] eqn:Hee; [|done]. destruct Hn.
        apply list_elem_of_fmap. exists (mkDirEntry T n e). split; [done|]. unfold es. rewrite take_ge by lia. by apply elem_of_listing.
      * intros [] t4 [B4 Hf]. dostep. split; [congruence|]. simpl. split; [lia|done].
Qed.

Lemma drained_drainable s : drained s -> drainable s.
Proof.
  intros (HN & Hi & Hno & _). split; [done|by intros x; rewrite Hi|by intros x; rewrite Hi|]. intros n e. by rewrite Hno.
Qed.

(** What others do leaves the directory to the task: it can still be emptied,
    and has no new entries. *)
Definition leaves_alone (f : FsStore -> FsStore) : Prop := forall s, drainable s ->
  drainable (f s) /\ (length (listing (f s) T) <= length (listing s T))%nat.

Definition attempt_ok (a : GcAttempt) : Prop := leaves_alone (ga_others a) /\ forall c b, ga_end a <> CommitFail c b.

(** [finished] set by an attempt that did not commit: one page is left, and
    the attempt that does commit takes it. *)
Lemma gcDirectory_drained fuel attempts checked finished s :
  Forall attempt_ok attempts -> drainable s -> (length (listing s T) < commits_of attempts)%nat ->
  (finished = true -> (length (listing s T) <= gc_page)%nat) ->
  exists s', gcDirectory attempts cfg fuel task user checked finished s = (Ok tt, s') /\ drained s'.
Proof.
  intros Hat. revert checked finished s. induction Hat as [|a attempts [Ho Hf] _ IH]; intros checked finished s Hdr Hn Hfin; [unfold commits_of in Hn; simpl in Hn; lia|].
  cbn [gcDirectory]. cbv zeta. destruct (Ho s Hdr) as [Hdr1 Hle]. set (s1 := ga_others a s) in *. clearbody s1.
  destruct (does_gcDirectory_txn fuel (ga_mem a) checked s1 Hdr1) as ([checked' last] & t & -> & Hb & Hres). simpl in Hres.
  replace (apply_writes (tx_writes t) s1) with (view t) by (unfold view; by rewrite Hb).
  assert (Hstep : drainable (view t) /\ (length (listing (view t) T) <= length (listing s1 T))%nat).
  { destruct last; [|destruct Hres as (_ & ? & ?); split; [done|lia]]. destruct Hres as [_ Hd]. split; [by apply drained_drainable|].
    destruct Hd as (_ & _ & Hno%no_entries_listing & _). lia. }
  assert (Hflag : finished || last = true -> last = true /\ (length (listing s1 T) <= gc_page)%nat).
  { destruct last; [by intros _; split; [|apply Hres]|]. rewrite orb_false_r. intros Hf1%Hfin. destruct Hres as [? _]. lia. }
  unfold commits_of in Hn. simpl in Hn. unfold is_commit in Hn at 1. destruct (ga_end a) as [|applied|c b] eqn:Hend; [| |by destruct (Hf c b)].
  - simpl in Hn. destruct (finished || last) eqn:Hfl.
    + destruct (Hflag eq_refl) as [-> _]. exists (view t). split; [done|]. apply Hres.
    + apply orb_false_iff in Hfl as [-> ->]. destruct Hres as (_ & Hdr2 & Hlt). apply IH; [done|unfold commits_of; lia|done].
  - destruct applied.
    + destruct Hstep as [Hs1 Hs2]. apply IH; [done|unfold commits_of; lia|]. intros [_ Hx]%Hflag. lia.
    + apply IH; [done|unfold commits_of; lia|]. by intros [_ Hx]%Hflag.
Qed.
End task.
End live.
