(* ===== verification/FsEnds.v ===== *)
(** * Operations end

    The loops of the meta store and why they stop: links are counted, a
    directory met twice is an error, pages of a listing advance, the check of
    a tree has a budget, and the way to the root is finite. *)

From Stdlib Require Import ZArith Lia String Ascii.
From stdpp Require Import base gmap list strings sorting.
From S2P Require Import Prelude StatusCode MgmtdTypes FsTypes FsTxn FsLayout FsResolve FsGc FsOps FsOpen FsNamespace FsMoves FsTracked FsResolved.

(** ** Computations that end *)

Section ends.
Context {S : Type}.

Definition ends {A} (m : M S A) : Prop := forall s, fst (m s) <> Pending.

Lemma ends_bind {A B} (m : M S A) (k : A -> M S B) : ends m -> (forall a, ends (k a)) -> ends (m ≫= k).
Proof.
  intros Hm Hk s. specialize (Hm s). unfold mbind, M_bind. destruct (m s) as [[a|c| |] s1]; simpl in *; try done. apply Hk.
Qed.
Lemma ends_ret {A} (a : A) : ends (mret a).
Proof. by intros s. Qed.
Lemma ends_fail {A} c : ends (@fail S A c).
Proof. by intros s. Qed.
Lemma ends_fatal {A} : ends (@fatal S A).
Proof. by intros s. Qed.
Lemma ends_gets {A} (f : S -> A) : ends (gets f).
Proof. by intros s. Qed.
Lemma ends_getS : ends (@getS S).
Proof. by intros s. Qed.
Lemma ends_modify (f : S -> S) : ends (modify f).
Proof. by intros s. Qed.
Lemma ends_lift {A} (o : outcome A) : o <> Pending -> ends (lift o).
Proof. intros H s. done. Qed.
Lemma ends_err_if b c : ends (@err_if S b c).
Proof. intros s. by destruct b. Qed.
Lemma ends_fatal_if b : ends (@fatal_if S b).
Proof. intros s. by destruct b. Qed.
Lemma ends_when b (m : M S unit) : ends m -> ends (when b m).
Proof. intros H. by destruct b. Qed.
Lemma ends_for_each {A} (f : A -> M S unit) l : (forall x, ends (f x)) -> ends (for_each f l).
Proof. intros H. induction l as [|x l IH]; simpl; [apply ends_ret|by apply ends_bind]. Qed.
End ends.

Create HintDb ends.
#[export] Hint Resolve ends_ret ends_fail ends_fatal ends_gets ends_getS ends_modify ends_err_if ends_fatal_if : ends.
(** Answers that are not pending. *)
#[export] Hint Extern 1 (_ <> Pending) => (repeat case_match; discriminate) : ends.

Ltac ends :=
  repeat first
    [ progress intros
    | solve [eauto with ends]
    | apply ends_bind
    | apply ends_when
    | apply ends_for_each
    | apply ends_lift
    | case_match ].

Lemma ends_ask {A} (f : nat -> A) : ends (ask f).
Proof. unfold ask. ends. Qed.
Lemma ends_track k : ends (addReadConflict k).
Proof. unfold addReadConflict. ends. Qed.
#[export] Hint Resolve ends_ask ends_track : ends.
Lemma checkMetaFound_ends {A} (v : option A) : checkMetaFound v <> Pending.
Proof. by destruct v. Qed.
Lemma checkEntryInode_ends e i : checkEntryInode e i <> Pending.
Proof. unfold checkEntryInode. repeat case_match; done. Qed.
Lemma asFile_ends x : asFile x <> Pending.
Proof. unfold asFile. by case_match. Qed.
Lemma asDirectory_ends x : asDirectory x <> Pending.
Proof. unfold asDirectory. by case_match. Qed.
Lemma asSymlink_ends x : asSymlink x <> Pending.
Proof. unfold asSymlink. by case_match. Qed.
Lemma parent_acl_ends p : parent_acl p <> Pending.
Proof. unfold parent_acl. repeat case_match; done. Qed.
Lemma checkPermission_ends acl user type : checkPermission acl user type <> Pending.
Proof. unfold checkPermission. repeat case_match; done. Qed.
Lemma checkRecursiveRmPerm_ends acl user b : checkRecursiveRmPerm acl user b <> Pending.
Proof. unfold checkRecursiveRmPerm. repeat case_match; first [done|apply checkPermission_ends]. Qed.
Lemma checkLock_ends d c : checkLock d c <> Pending.
Proof. unfold checkLock. repeat case_match; done. Qed.
Lemma storable_ends i : storable i <> Pending.
Proof. unfold storable. repeat case_match; done. Qed.
#[export] Hint Resolve checkMetaFound_ends checkEntryInode_ends asFile_ends asDirectory_ends asSymlink_ends parent_acl_ends checkPermission_ends checkRecursiveRmPerm_ends checkLock_ends storable_ends : ends.

Lemma ends_Inode_snapshotLoad id : ends (Inode_snapshotLoad id).
Proof. unfold Inode_snapshotLoad. ends. Qed.
#[export] Hint Resolve ends_Inode_snapshotLoad : ends.
Lemma ends_Inode_load id : ends (Inode_load id).
Proof. unfold Inode_load. ends. Qed.
Lemma ends_Inode_store i : ends (Inode_store i).
Proof. unfold Inode_store. ends. Qed.
Lemma ends_Inode_remove i : ends (Inode_remove i).
Proof. unfold Inode_remove. ends. Qed.
Lemma ends_DirEntry_snapshotLoad p n : ends (DirEntry_snapshotLoad p n).
Proof. unfold DirEntry_snapshotLoad. ends. Qed.
Lemma ends_DirEntry_store e : ends (DirEntry_store e).
Proof. unfold DirEntry_store. ends. Qed.
Lemma ends_DirEntry_remove e : ends (DirEntry_remove e).
Proof. unfold DirEntry_remove. ends. Qed.
#[export] Hint Resolve ends_Inode_load ends_Inode_store ends_Inode_remove ends_DirEntry_snapshotLoad ends_DirEntry_store ends_DirEntry_remove : ends.
Lemma ends_DirEntry_load p n : ends (DirEntry_load p n).
Proof. unfold DirEntry_load. ends. Qed.
Lemma ends_snapshotLoadInode e : ends (DirEntry_snapshotLoadInode e).
Proof. unfold DirEntry_snapshotLoadInode. ends. Qed.
Lemma ends_loadInode e : ends (DirEntry_loadInode e).
Proof. unfold DirEntry_loadInode. ends. Qed.
Lemma ends_list p prev limit : ends (DirEntryList_snapshotLoad p prev limit).
Proof. unfold DirEntryList_snapshotLoad. ends. Qed.
Lemma ends_checkEmpty p : ends (checkEmpty p).
Proof. unfold checkEmpty, DirEntryList_load, DirEntryList_snapshotLoad. ends. Qed.
#[export] Hint Resolve ends_DirEntry_load ends_snapshotLoadInode ends_loadInode ends_list ends_checkEmpty : ends.

(** ** Pages of a listing *)

Definition after (prev : string) (l : list DirEntry) : list DirEntry := filter (fun e => String.ltb prev (e_name e) = true) l.

Lemma ltb_trans a b c : String.ltb a b = true -> String.ltb b c = true -> String.ltb a c = true.
Proof.
  unfold String.ltb. revert b c. induction a as [|x a IH]; intros [|y b] [|z c]; simpl; try done.
  unfold Ascii.compare. destruct (N.compare_spec (N_of_ascii x) (N_of_ascii y)) as [Hxy|Hxy|Hxy]; try done;
    destruct (N.compare_spec (N_of_ascii y) (N_of_ascii z)) as [Hyz|Hyz|Hyz]; try done;
    destruct (N.compare_spec (N_of_ascii x) (N_of_ascii z)) as [Hxz|Hxz|Hxz]; try done; try lia. apply IH.
Qed.
Lemma ltb_irrefl a : String.ltb a a = false.
Proof. unfold String.ltb. induction a as [|x a IH]; simpl; [done|]. unfold Ascii.compare. by rewrite N.compare_refl. Qed.

Lemma after_shrinks prev l e : e ∈ after prev l -> (length (after (e_name e) l) < length (after prev l))%nat.
Proof.
  intros [Hp He]%list_elem_of_filter. unfold after.
  assert (Hle : forall l', (length (filter (fun e' => String.ltb (e_name e) (e_name e') = true) l') <= length (filter (fun e' => String.ltb prev (e_name e') = true) l'))%nat).
  { induction l' as [|a l' IH]; [done|]. rewrite !filter_cons. case_decide as H1; case_decide as H2; simpl; try lia. destruct H2. by eapply ltb_trans. }
  induction He as [e0 l|e0 a l He IH]; rewrite !filter_cons.
  - rewrite decide_False by (by rewrite ltb_irrefl). rewrite decide_True by done. simpl. match goal with |- context [filter _ ?l1] => specialize (Hle l1) end. lia.
  - specialize (IH Hp Hle). case_decide as H1; [rewrite decide_True by (by eapply ltb_trans); simpl; lia|]. case_decide; simpl; lia.
Qed.

Lemma ends_search fuel p id prev found t : (length (after prev (listing (view t) p)) < fuel)%nat -> fst (search_entry fuel p id prev found t) <> Pending.
Proof.
  revert prev found. induction fuel as [|fuel IH]; intros prev found Hf; [lia|]. cbn [search_entry]. unfold DirEntryList_snapshotLoad, mbind, M_bind, gets, list_range, default_limit.
  fold (after prev (listing (view t) p)). set (l := after prev (listing (view t) p)) in *. simpl. case_bool_decide as Hm; [|done].
  apply IH. destruct (last (take 128 l)) as [e|] eqn:Hl; simpl.
  - apply last_Some_elem_of in Hl. assert (Hin : e ∈ l) by (rewrite <- (take_drop 128 l); apply elem_of_app; by left).
    apply after_shrinks in Hin. unfold l in Hf. lia.
  - apply last_None in Hl. apply (f_equal length) in Hl. rewrite length_take in Hl. change (length (@nil DirEntry)) with 0%nat in Hl. lia.
Qed.

Lemma ends_search_all p id : ends (t ← getS; search_entry (S (length (listing (view t) p))) p id "" None).
Proof. intros t. unfold mbind, M_bind, getS. apply ends_search. unfold after. apply Nat.lt_succ_r, length_filter. Qed.
#[export] Hint Resolve ends_search_all : ends.
Lemma ends_snapshotLoadDirEntry i : ends (Inode_snapshotLoadDirEntry i).
Proof. unfold Inode_snapshotLoadDirEntry. ends. Qed.
#[export] Hint Resolve ends_snapshotLoadDirEntry : ends.

(** ** Ancestors *)

Lemma seen_bound {A} (m : gmap InodeId A) (l : list InodeId) : NoDup l -> Forall (fun id => is_Some (m !! id)) l -> (length l <= size m)%nat.
Proof.
  intros Hnd Hl. rewrite <- size_dom. rewrite <- (size_list_to_set (C := gset InodeId) l Hnd). apply subseteq_size.
  intros id. rewrite elem_of_list_to_set, elem_of_dom. rewrite Forall_forall in Hl. apply Hl.
Qed.

Lemma ends_ancestors_loop fuel seen curr acc t : NoDup seen -> Forall (fun id => is_Some (fs_inodes (view t) !! id)) seen ->
  (S (size (fs_inodes (view t))) < fuel + length seen)%nat -> fst (ancestors_loop fuel seen curr acc t) <> Pending.
Proof.
  revert seen curr acc t. induction fuel as [|fuel IH]; intros seen curr acc t Hnd Hs Hf; cbn [ancestors_loop].
  - pose proof (seen_bound _ _ Hnd Hs). lia.
  - case_bool_decide as Hin; [done|]. unfold Inode_load, Inode_snapshotLoad, mbind, M_bind, err_if, gets. simpl.
    pose proof (ro_addReadConflict (KInode curr) t) as Hq. pose proof (ends_track (KInode curr) t) as He.
    destruct (addReadConflict (KInode curr) t) as [[[]|c| |] t1]; simpl in *; try done.
    destruct (fs_inodes (view t1) !! curr) as [x|] eqn:Hx; simpl; [|done]. destruct (in_type x) as [|d|]; [done| |done].
    destruct (di_parent d =? curr); [done|]. rewrite (quiet_view _ _ Hq) in Hx. apply IH.
    + by apply NoDup_cons.
    + rewrite (quiet_view _ _ Hq). apply Forall_cons. split; [by rewrite Hx|done].
    + rewrite (quiet_view _ _ Hq). simpl. lia.
Qed.

Lemma ends_loadAncestors p : ends (loadAncestors p).
Proof. intros t. unfold loadAncestors, mbind, M_bind, getS. apply ends_ancestors_loop; [constructor|constructor|simpl; lia]. Qed.
#[export] Hint Resolve ends_loadAncestors : ends.

(** ** The check of a tree *)

Lemma check_entries_ends user es st b : check_entries user es st b <> Pending.
Proof.
  revert st b. induction es as [|e es IH]; intros st b; simpl; [done|]. destruct (e_type e); [apply IH| |apply IH].
  destruct (de_dirAcl (e_data e)) as [acl|]; [|done]. destruct (checkRecursiveRmPerm acl user false); done || apply IH.
Qed.
Lemma check_entries_queue user es st b st' b' : check_entries user es st b = Ok (st', b') ->
  rp_limit st' = rp_limit st /\ Z.of_nat (length (rp_queue st')) <= Z.max (Z.of_nat (length (rp_queue st))) (rp_limit st).
Proof.
  revert st b. induction es as [|e es IH]; intros st b; simpl; [intros [= <- <-]; split; [done|lia]|]. destruct (e_type e); [apply IH| |apply IH].
  destruct (de_dirAcl (e_data e)) as [acl|]; [|done]. destruct (checkRecursiveRmPerm acl user false); try done. intros H. apply IH in H.
  destruct (Z.ltb_spec (Z.of_nat (length (rp_queue st))) (rp_limit st)); [|done]. simpl in H. rewrite length_app in H. simpl in H. split; [apply H|lia].
Qed.

(** Every read costs one of the budget, and the queue never grows beyond it. *)
Lemma check_directory_ends fuel user dir prev found num batch st t : rp_limit st < Z.of_nat fuel -> (1 <= fuel)%nat ->
  match check_directory fuel user dir prev found num batch st t with
  | (Ok st', _) => rp_limit st' < rp_limit st /\ Z.of_nat (length (rp_queue st')) <= Z.max (Z.of_nat (length (rp_queue st))) (rp_limit st - 1)
  | (Pending, _) => False
  | _ => True
  end.
Proof.
  revert prev found num st t. induction fuel as [|fuel IH]; intros prev found num st t Hf Hf1; [lia|]. cbn [check_directory].
  destruct (Z.leb_spec (rp_limit st) 0); [simpl; lia|]. unfold mbind, M_bind, DirEntryList_snapshotLoad, gets. destruct (list_range _ _ _ _) as [es more]. simpl.
  set (st1 := mkRmPerm (rp_limit st - 1) (rp_queue st)). pose proof (check_entries_ends user es st1 found) as He.
  destruct (check_entries user es st1 found) as [[st2 found']|c| |] eqn:Hce; simpl; try done. apply check_entries_queue in Hce as [Hl Hq]. simpl in Hl, Hq.
  destruct (negb more || _); [simpl; lia|]. specialize (IH (default prev (e_name <$> last es)) found' (num + length es)%nat st2 t).
  destruct (check_directory fuel user dir _ found' _ batch st2 t) as [[st3|c| |] t']; try done; [destruct IH; lia|apply IH; lia].
Qed.

Lemma ends_check_queue fuel user batch st t : (Z.max (Z.of_nat (length (rp_queue st))) (rp_limit st) < Z.of_nat fuel) ->
  fst (check_queue fuel user batch st t) <> Pending.
Proof.
  revert st t. induction fuel as [|fuel IH]; intros st t Hf; [lia|]. cbn [check_queue]. destruct (rp_queue st) as [|dir rest] eqn:Hq; [done|].
  unfold mbind, M_bind. set (st0 := mkRmPerm (rp_limit st) rest).
  pose proof (check_directory_ends (S (Z.to_nat (rp_limit st))) user dir "" false 0 batch st0 t) as Hd. simpl rp_limit in Hd. specialize (Hd ltac:(lia) ltac:(lia)).
  destruct (check_directory _ user dir "" false 0 batch st0 t) as [[st'|c| |] t']; try done. apply IH. simpl in Hd. simpl in Hf. lia.
Qed.

Lemma ends_recursiveCheckRmPerm p user limit batch : ends (recursiveCheckRmPerm p user limit batch).
Proof. intros t. apply ends_check_queue. simpl. lia. Qed.
#[export] Hint Resolve ends_recursiveCheckRmPerm : ends.

(** ** Links on a path *)

Section resolver.
Context {HEnv : FsEnv} (cfg : FsConfig).

(** From a resolver that has met [k] links or more, [m] ends, and the count
    does not go down. *)
Definition settles {A} (k : Z) (m : M Resolver A) : Prop := forall s, k <= rs_symlinkCnt s -> fst (m s) <> Pending /\ rs_symlinkCnt s <= rs_symlinkCnt (snd (m s)).

Lemma settles_bind {A B} k (m : M Resolver A) (f : A -> M Resolver B) : settles k m -> (forall a, settles k (f a)) -> settles k (m ≫= f).
Proof.
  intros Hm Hf s Hk. destruct (Hm s Hk) as [Hne Hc]. unfold mbind, M_bind. destruct (m s) as [[a|c| |] s1]; simpl in *; try (by split).
  destruct (Hf a s1) as [H1 H2]; [lia|]. split; [done|lia].
Qed.
Lemma settles_ret {A} k (a : A) : settles k (mret a).
Proof. intros s _. done. Qed.
Lemma settles_fail {A} k c : settles k (@fail Resolver A c).
Proof. intros s _. done. Qed.
Lemma settles_lift {A} k (o : outcome A) : o <> Pending -> settles k (lift o).
Proof. intros H s _. done. Qed.
Lemma settles_in_txn {A} k (m : M Txn A) : ends m -> settles k (in_txn m).
Proof. intros H s _. unfold in_txn, zoom. specialize (H (rs_txn s)). destruct (m (rs_txn s)) as [o t]. done. Qed.
Lemma settles_trace k f : settles k (trace_with f).
Proof. intros s _. done. Qed.
Lemma settles_enter k : settles k (symlink_enter cfg).
Proof. intros s _. unfold symlink_enter, mbind, M_bind, modify, getS, err_if. simpl. case_match; done. Qed.
Lemma settles_leave k : settles k symlink_leave.
Proof. intros s _. done. Qed.
End resolver.

#[export] Hint Resolve settles_ret settles_fail settles_trace settles_enter settles_leave : ends.
Ltac settles :=
  repeat first
    [ progress intros
    | solve [eauto with ends]
    | apply settles_bind
    | apply settles_in_txn; ends
    | apply settles_lift
    | case_match ].

Section walk.
Context {HEnv : FsEnv} (cfg : FsConfig) (user : UserInfo).

Lemma ends_AclCache_get id ttl : ends (AclCache_get id ttl).
Proof. unfold AclCache_get. ends. Qed.
Lemma ends_AclCache_set id acl : ends (AclCache_set id acl).
Proof. unfold AclCache_set. ends. Qed.
#[local] Hint Resolve ends_AclCache_get ends_AclCache_set : ends.
Lemma ends_loadParentAcl p ttl : ends (loadParentAcl p ttl).
Proof. unfold loadParentAcl. ends. Qed.
#[local] Hint Resolve ends_loadParentAcl : ends.
Lemma ends_loadAndCheckParentAcl p ttl : ends (loadAndCheckParentAcl user p ttl).
Proof. unfold loadAndCheckParentAcl. ends. Qed.
#[local] Hint Resolve ends_loadAndCheckParentAcl : ends.
Lemma ends_loadSymLinkTarget e : ends (loadSymLinkTarget e).
Proof. unfold loadSymLinkTarget. ends. Qed.
#[local] Hint Resolve ends_loadSymLinkTarget : ends.

Lemma settles_pathComponent k p n : settles k (pathComponent cfg user p n).
Proof. unfold pathComponent. settles. Qed.
#[local] Hint Resolve settles_pathComponent : ends.

Lemma settles_walk k sym p comps : (forall e, settles k (sym e)) -> settles k (walk cfg user sym p comps).
Proof.
  intros Hs. revert p. induction comps as [|c rest IH]; intros p; cbn [walk]; [by apply settles_lift|].
  case_bool_decide; [destruct rest; settles|]. apply settles_bind; [auto with ends|]. intros r. destruct (rr_dirEntry r) as [e|]; [|settles]. destruct rest; [settles|].
  apply settles_bind; [destruct (e_type e); settles|]. intros e'. destruct (e_type e'); settles.
Qed.

Lemma settles_path_from k sym p comps : (forall e, settles k (sym e)) -> settles k (path_from cfg user sym p comps).
Proof.
  intros Hs. unfold path_from, pathRange. apply settles_bind; [|settles]. destruct comps as [|c rest]; [settles|].
  case_bool_decide; [destruct rest; [settles|by apply settles_walk]|by apply settles_walk].
Qed.

(** Every round of the loop counts a link, and the count has a bound. *)
Lemma settles_count {A} k (m : M Resolver A) :
  (forall s, k + 1 <= rs_symlinkCnt s <= fc_max_symlink_count cfg -> fst (m s) <> Pending /\ rs_symlinkCnt s <= rs_symlinkCnt (snd (m s))) ->
  settles k (symlink_count cfg ≫= fun _ => m).
Proof.
  intros Hm s Hk. unfold symlink_count, mbind, M_bind, modify, getS, err_if. simpl. destruct (Z.ltb_spec (fc_max_symlink_count cfg) (rs_symlinkCnt s + 1)); simpl.
  - split; [done|lia].
  - destruct (Hm (mkResolver (rs_txn s) (rs_depth s) (rs_symlinkCnt s + 1) (rs_trace s))) as [H1 H2]; [simpl; lia|]. split; [done|]. simpl in H2. lia.
Qed.

Lemma settles_symlink_loop fuel e : (1 <= fuel)%nat -> settles (fc_max_symlink_count cfg + 2 - Z.of_nat fuel) (symlink_loop cfg user fuel e).
Proof.
  revert e. induction fuel as [|fuel IH]; intros e Hf; [lia|]. cbn [symlink_loop]. apply settles_count. intros s Hs.
  assert (Hf' : (1 <= fuel)%nat) by lia. set (k := fc_max_symlink_count cfg + 2 - Z.of_nat fuel). assert (Hk : k <= rs_symlinkCnt s) by lia.
  revert s Hk Hs. intros s Hk _. revert s Hk. change (settles k (target ← in_txn (loadSymLinkTarget e);
      trace_with (fun tr => removelast tr) ;;
      r ← path_from cfg user (fun e => symlink_enter cfg ;; r ← symlink_loop cfg user fuel e; symlink_leave ;; mret r) (e_parent e) target;
      match rr_dirEntry r with
      | Some e => if bool_decide (e_type e = IT_Symlink) then symlink_loop cfg user fuel e else mret r
      | None => mret r
      end)).
  assert (Hsym : forall e0, settles k (symlink_loop cfg user fuel e0)) by (intros; by apply IH).
  apply settles_bind; [settles|]. intros target. apply settles_bind; [settles|]. intros _. apply settles_bind; [|settles].
  apply settles_path_from. intros e0. settles.
Qed.

Lemma settles_symlink e : settles 0 (symlink cfg user e).
Proof.
  unfold symlink. apply settles_bind; [settles|]. intros _. apply settles_bind; [|settles].
  intros s Hs. apply settles_symlink_loop; unfold link_fuel; lia.
Qed.
#[local] Hint Resolve settles_symlink : ends.

Lemma ends_resolving {A} trace (m : M Resolver A) : settles 0 m -> ends (resolving trace m).
Proof.
  intros Hm t. unfold resolving. destruct (Hm (mkResolver t 0 0 trace)) as [H _]; [done|]. destruct (m _) as [[a|c| |] s]; simpl in *; done.
Qed.

Lemma settles_path_follow p comps follow : settles 0 (path_follow cfg user p comps follow).
Proof. unfold path_follow. apply settles_bind; [apply settles_path_from; auto with ends|settles]. Qed.

Lemma ends_resolve_path p flags : ends (resolve_path cfg user p flags).
Proof. unfold resolve_path. ends. apply ends_resolving, settles_path_follow. Qed.
Lemma ends_resolve_dirEntry_traced trace p flags : ends (resolve_dirEntry_traced cfg trace user p flags).
Proof. unfold resolve_dirEntry_traced. ends. apply ends_resolving, settles_path_follow. Qed.
Lemma ends_resolve_dirEntry p flags : ends (resolve_dirEntry cfg user p flags).
Proof. unfold resolve_dirEntry. apply ends_bind; [apply ends_resolve_dirEntry_traced|ends]. Qed.
#[local] Hint Resolve ends_resolve_path ends_resolve_dirEntry_traced ends_resolve_dirEntry : ends.
Lemma ends_resolve_inode p flags b : ends (resolve_inode cfg user p flags b).
Proof. unfold resolve_inode. ends. Qed.
Lemma ends_resolve_byDirectoryInodeId id : ends (resolve_byDirectoryInodeId cfg id).
Proof. unfold resolve_byDirectoryInodeId. ends. Qed.
Lemma ends_resolve_pathRange p : ends (resolve_pathRange cfg user p).
Proof.
  unfold resolve_pathRange. destruct (pa_path p) as [comps|]; [|ends]. apply ends_bind; [|ends]. apply ends_resolving. unfold pathRange.
  destruct comps as [|c rest]; [settles|]. case_bool_decide; [destruct rest; [settles|]|]; apply settles_walk; auto with ends.
Qed.
End walk.
#[export] Hint Resolve ends_resolve_path ends_resolve_dirEntry_traced ends_resolve_dirEntry ends_resolve_inode ends_resolve_byDirectoryInodeId ends_resolve_pathRange : ends.

(** ** The operations *)

Section ops.
Context {HEnv : FsEnv} (cfg : FsConfig).
Context (Halloc : forall n, fe_allocate n <> Pending).

Lemma ends_update_time v nv res cmp : ends (update_time v nv res cmp).
Proof. unfold update_time. ends. Qed.
#[local] Hint Resolve ends_update_time : ends.
Lemma ends_touch_ctime i : ends (touch_ctime cfg i).
Proof. unfold touch_ctime. ends. Qed.
Lemma ends_pickGcDirectory : ends (pickGcDirectory cfg).
Proof. unfold pickGcDirectory. ends. Qed.
#[local] Hint Resolve ends_touch_ctime ends_pickGcDirectory : ends.
Lemma ends_gc_add dir i info : ends (gc_add cfg dir i info).
Proof. unfold gc_add, gc_addFile, gc_addDirectory. ends. Qed.
#[local] Hint Resolve ends_gc_add : ends.
Lemma ends_GcManager_removeEntry e i info : ends (GcManager_removeEntry cfg e i info).
Proof. unfold GcManager_removeEntry, Inode_addIntoReadConflict, DirEntry_addIntoReadConflict. ends. Qed.
#[local] Hint Resolve ends_GcManager_removeEntry : ends.

Lemma ends_getParentInode r : ends (getParentInode r).
Proof. unfold getParentInode. ends. Qed.
#[local] Hint Resolve ends_getParentInode : ends.
Lemma ends_writable_parent r req : ends (writable_parent r req).
Proof. unfold writable_parent. ends. Qed.
#[local] Hint Resolve ends_writable_parent : ends.
Lemma ends_allocateInodeId b : ends (allocateInodeId cfg b).
Proof.
  unfold allocateInodeId. intros t. unfold ask, mbind, M_bind, getS, modify. simpl. destruct (fe_allocate (tx_tick t)) as [id|c| |] eqn:Ha; simpl; try done; [|by apply Halloc in Ha].
  match goal with |- context [when ?b ?m ?t'] => assert (Hw : ends (when b m)) by ends; specialize (Hw t'); destruct (when b m t') as [[[]|c| |] t1] end; done.
Qed.
Lemma ends_op_now : ends (op_now cfg).
Proof. unfold op_now. ends. Qed.
#[local] Hint Resolve ends_allocateInodeId ends_op_now : ends.
Lemma Layout_valid_ends l b : Layout_valid l b <> Pending.
Proof. unfold Layout_valid. repeat case_match; done. Qed.
Lemma getChainIndexList_ends l : getChainIndexList l <> Pending.
Proof. unfold getChainIndexList. repeat case_match; done. Qed.
Lemma getChain_ends ri tid ver i : getChain ri tid ver i <> Pending.
Proof. unfold getChain, getChainId. repeat case_match; done. Qed.
#[local] Hint Resolve Layout_valid_ends getChainIndexList_ends getChain_ends : ends.
Lemma ends_checkLayoutValid l : ends (checkLayoutValid l).
Proof. unfold checkLayoutValid. ends. Qed.
#[local] Hint Resolve ends_checkLayoutValid : ends.

Lemma validForCreate_ends p : validForCreate p <> Pending.
Proof. unfold validForCreate. repeat case_match; done. Qed.
#[local] Hint Resolve validForCreate_ends : ends.

Lemma checkUuid_ends r : checkUuid r <> Pending.
Proof. unfold checkUuid. repeat case_match; done. Qed.
Lemma MkdirsReq_valid_ends r : MkdirsReq_valid r <> Pending.
Proof. unfold MkdirsReq_valid. pose proof (validForCreate_ends (mk_path r)). repeat case_match; try done; auto with ends. Qed.
Lemma RemoveReq_valid_ends r : RemoveReq_valid r <> Pending.
Proof. unfold RemoveReq_valid. pose proof (validForCreate_ends (rm_path r)). pose proof (checkUuid_ends (rm_base r)). repeat case_match; done. Qed.
Lemma RenameReq_valid_ends r : RenameReq_valid r <> Pending.
Proof.
  unfold RenameReq_valid. pose proof (validForCreate_ends (rn_src r)). pose proof (validForCreate_ends (rn_dest r)). pose proof (checkUuid_ends (rn_base r)).
  repeat case_match; done.
Qed.
#[local] Hint Resolve MkdirsReq_valid_ends RemoveReq_valid_ends RenameReq_valid_ends : ends.

Lemma ends_mkdirs_loop req acl l p missing : ends (mkdirs_loop cfg req acl l p missing).
Proof. revert p. induction missing as [|n rest IH]; intros p; cbn [mkdirs_loop]; ends. Qed.
#[local] Hint Resolve ends_mkdirs_loop : ends.

Lemma ends_mkdirs req : ends (mkdirs cfg req).
Proof.
  unfold mkdirs. unfold Inode_addIntoReadConflict, DirEntry_addIntoReadConflict. ends.
Qed.
Lemma ends_symlinkOp req : ends (symlinkOp cfg req).
Proof. unfold symlinkOp, Inode_addIntoReadConflict, DirEntry_addIntoReadConflict. ends. Qed.
Lemma ends_hardLink req : ends (hardLink cfg req).
Proof. unfold hardLink, Inode_addIntoReadConflict, DirEntry_addIntoReadConflict. ends. Qed.

Lemma ancestors_names_ends ancestors : foldr (fun i acc => match asDirectory (i_data i), acc with Ok d, Ok l => Ok (di_name d :: l) | _, _ => Fatal end) (Ok []) ancestors <> Pending.
Proof. destruct ancestors as [|a l]; simpl; [done|]. repeat case_match; done. Qed.
#[local] Hint Resolve ancestors_names_ends : ends.
Lemma ends_ancestors_path ancestors n : ends (ancestors_path ancestors n).
Proof. unfold ancestors_path. ends. Qed.
#[local] Hint Resolve ends_ancestors_path : ends.
Lemma ends_remove req : ends (remove cfg req).
Proof.
  unfold remove. unfold Inode_addIntoReadConflict, DirEntry_addIntoReadConflict. ends.
Qed.

Lemma check_ancestors_ends src l : check_ancestors src l <> Pending.
Proof. induction l as [|a l IH]; simpl; [done|]. repeat case_match; done. Qed.
Lemma underTrash_ends l : underTrash l <> Pending.
Proof. unfold underTrash. repeat case_match; try done. by destruct (asDirectory _) eqn:E; [done|done|done|apply asDirectory_ends in E]. Qed.
#[local] Hint Resolve check_ancestors_ends underTrash_ends : ends.
Lemma ends_checkLoop req src e dst : ends (checkLoop cfg req src e dst).
Proof. unfold checkLoop. ends. Qed.
Lemma ends_rename_checkPermission req r b : ends (rename_checkPermission req r b).
Proof. unfold rename_checkPermission. ends. Qed.
Lemma ends_removeDst req dst i : ends (removeDst cfg req dst i).
Proof. unfold removeDst. ends. Qed.
#[local] Hint Resolve ends_checkLoop ends_rename_checkPermission ends_removeDst : ends.
Lemma ends_rename_move req e dst i : ends (rename_move cfg req e dst i).
Proof. unfold rename_move. ends. Qed.
#[local] Hint Resolve ends_rename_move : ends.
Lemma ends_rename req : ends (rename cfg req).
Proof.
  unfold rename. unfold Inode_addIntoReadConflict, DirEntry_addIntoReadConflict. ends.
Qed.

Lemma ends_stat user p flags : ends (stat cfg user p flags).
Proof. unfold stat. ends. Qed.
Lemma ends_load_inodes es : ends (load_inodes es).
Proof. induction es as [|e es IH]; cbn [load_inodes]; ends. Qed.
#[local] Hint Resolve ends_load_inodes : ends.
Lemma ends_list_op user p prev limit status : ends (list_op cfg user p prev limit status).
Proof. unfold list_op. ends. Qed.
End ops.

(** ** The way to the root *)

Section way.
Context (G : gset InodeId).

(** The directories from one to a root or to one that was removed. *)
Inductive way (s : FsStore) : InodeId -> list InodeId -> Prop :=
| way_root id : isTreeRoot id = true -> way s id []
| way_removed id : nlink_of s id = Some 0 -> way s id []
| way_step id p l : parent_of s id = Some p -> way s p l -> way s id (id :: l).

Lemma way_suffix s id l x : way s id l -> x ∈ l -> exists l', way s x l' /\ (length l' <= length l)%nat /\ l' `suffix_of` l.
Proof.
  induction 1 as [id Hr|id Hz|id p l Hp Hw IH]; intros Hx; [by apply elem_of_nil in Hx|by apply elem_of_nil in Hx|].
  apply elem_of_cons in Hx as [->|Hx]; [exists (id :: l); split; [by eapply way_step|]; done|].
  destruct (IH Hx) as (l' & Hw' & Hl & Hs). exists l'. split; [done|]. split; [simpl; lia|]. by apply suffix_cons_r.
Qed.

(** It need not visit one twice, and so it is no longer than there are. *)
Lemma way_exists s id : anchored s id -> exists l, way s id l /\ NoDup l /\ Forall (fun i => is_Some (fs_inodes s !! i)) l.
Proof.
  induction 1 as [id Hr|id Hz|id p Hp _ (l & Hw & Hnd & Hl)]; [exists []; split; [by constructor|split; constructor]..|].
  destruct (decide (id ∈ l)) as [Hin|Hin].
  - destruct (way_suffix _ _ _ _ Hw Hin) as (l' & Hw' & _ & Hs). exists l'. split; [done|]. destruct Hs as [k ->].
    apply NoDup_app in Hnd as (_ & _ & ?). by apply Forall_app in Hl as [_ ?].
  - exists (id :: l). split; [by eapply way_step|]. split; [by apply NoDup_cons|]. apply Forall_cons. split; [|done].
    unfold parent_of in Hp. destruct (fs_inodes s !! id); [by eexists|done].
Qed.

(** A directory with a name was not removed. *)
Lemma named_alive s q n e p d : NS G s -> fs_entries s !! (q, n) = Some e -> de_id e = p -> fs_inodes s !! p = Some d ->
  di_parent <$> as_dir d = Some q -> isTreeRoot p = false -> nlink_of s p <> Some 0.
Proof.
  intros HN He Hid Hd Hq Hr Hz. assert (Hpar : parent_of s p = Some q) by (unfold parent_of; by rewrite Hd).
  destruct (decide (p ∈ G)) as [Hg|Hg].
  - destruct (ns_gcdirs _ _ HN _ Hg) as (_ & _ & x & Hx & _ & Hne). unfold nlink_of in Hz. rewrite Hx in Hz. by injection Hz.
  - destruct (ns_public _ _ HN _ _ Hpar Hr Hg) as [HqG _]. apply (ns_nlink _ _ HN) in Hz; [|done].
    assert (1 <= links G (fs_entries s) p)%nat; [|lia]. by eapply links_pos.
Qed.

Lemma ends_real_path fuel entry path t l : NS G (view t) -> way (view t) (e_parent entry) l -> (length l < fuel)%nat ->
  fst (real_path fuel entry path t) <> Pending.
Proof.
  revert entry path t l. induction fuel as [|fuel IH]; intros entry path t l HN Hw Hf; [lia|]. cbn [real_path].
  destruct (isTreeRoot (e_parent entry)) eqn:Hr; [done|]. unfold Inode_snapshotLoad, mbind, M_bind, gets. simpl.
  destruct (fs_inodes (view t) !! e_parent entry) as [x|] eqn:Hx; simpl; [|done].
  pose proof (ends_snapshotLoadDirEntry (mkInode (e_parent entry) x) t) as He. pose proof (oks_snapshotLoadDirEntry (mkInode (e_parent entry) x) t) as Ho.
  destruct (Inode_snapshotLoadDirEntry (mkInode (e_parent entry) x) t) as [[e|c| |] t1] eqn:Hrun; try done.
  destruct (Ho e t1 Hrun) as (Hq & d & Hd & Hpe & Hie & Hent). simpl in *.
  assert (Hxd : di_parent <$> as_dir x = Some (e_parent e)) by (unfold as_dir; rewrite Hd; simpl; congruence).
  rewrite <- (quiet_view _ _ Hq) in HN, Hw. destruct Hw as [id Hr'|id Hz|id p l Hp Hw]; [congruence| |].
  - rewrite (quiet_view _ _ Hq) in HN, Hz. exfalso. by eapply (named_alive _ _ _ _ _ x HN Hent).
  - apply (IH e _ t1 l); [done| |simpl in Hf; lia]. replace (e_parent e) with p; [done|]. unfold parent_of in Hp. rewrite (quiet_view _ _ Hq), Hx in Hp. simpl in Hp. congruence.
Qed.

Context {HEnv : FsEnv} (cfg : FsConfig).

Lemma real_path_top entry path t : NS G (view t) -> fst (real_path (S (size (fs_inodes (view t)))) entry path t) <> Pending.
Proof.
  intros HN. destruct (isTreeRoot (e_parent entry)) eqn:Hr; [cbn [real_path]; by rewrite Hr|].
  destruct (parent_of (view t) (e_parent entry)) as [q|] eqn:Hq.
  - destruct (way_exists (view t) (e_parent entry)) as (l & Hw & Hnd & Hl); [apply (ns_anchored _ _ HN); by eexists|].
    eapply ends_real_path; [done|exact Hw|]. apply Nat.lt_succ_r. by eapply seen_bound.
  - cbn [real_path]. rewrite Hr. unfold Inode_snapshotLoad, mbind, M_bind, gets. simpl. unfold parent_of in Hq.
    destruct (fs_inodes (view t) !! e_parent entry) as [x|]; [|done]. simpl in *. unfold Inode_snapshotLoadDirEntry, as_dir in *. simpl.
    by destruct (in_type x).
Qed.

Lemma ends_then {A B} (m : M Txn A) (k : A -> M Txn B) t :
  ends m -> (forall a t1, m t = (Ok a, t1) -> fst (k a t1) <> Pending) -> fst ((m ≫= k) t) <> Pending.
Proof. intros Hm Hk. specialize (Hm t). unfold mbind, M_bind. destruct (m t) as [[a|c| |] t1]; simpl in *; try done. auto. Qed.

Lemma ends_getRealPath user p absolute t : NS G (view t) -> public G (pa_parent p) -> fst (getRealPath cfg user p absolute t) <> Pending.
Proof.
  intros HN Hp. unfold getRealPath. apply ends_then; [apply ends_getS|]. intros t0 t0' [= <- <-].
  assert (Hfin : forall entry path t1, quiet t t1 ->
    fst ((p ← real_path (S (size (fs_inodes (view t)))) entry path; mret (simplifyPath ("/" :: p))) t1) <> Pending).
  { intros entry path t1 Hq. rewrite <- (quiet_view _ _ Hq). unfold mbind, M_bind. pose proof (real_path_top entry path t1) as Hr.
    rewrite (quiet_view _ _ Hq) in *. specialize (Hr HN). destruct (real_path _ entry path t1) as [[q|c| |] t2]; simpl in *; done. }
  case_bool_decide.
  - apply ends_then; [apply ends_resolve_dirEntry_traced|]. intros [entry trace] t1 Hrun. destruct absolute; simpl; [|done].
    apply Hfin. by destruct (oks_resolve_dirEntry_traced cfg G (Some []) user p AT_SYMLINK_FOLLOW t HN Hp _ _ Hrun).
  - apply ends_then; [ends|]. intros loaded t1 Hrun. assert (Hq1 : quiet t t1) by (by injection Hrun as _ <-).
    apply ends_then; [ends|]. intros inode t2 Hrun2. assert (Hq2 : quiet t t2) by (by injection Hrun2 as _ <-).
    apply ends_then; [ends|]. intros [] t3 Hrun3. assert (Hq3 : quiet t t3) by (by destruct (negb _); [|injection Hrun3 as <-]).
    destruct (isTreeRoot (i_id inode)); [done|]. apply ends_then; [ends|]. intros e t4 Hrun4. apply Hfin.
    destruct (oks_snapshotLoadDirEntry inode t3 _ _ Hrun4) as [Hq4 _]. etrans; [exact Hq3|exact Hq4].
Qed.
End way.

(** ** All of them *)

(** The operations that walk the namespace. *)
Inductive WalkOp :=
| WalkMkdirs (req : MkdirsReq)
| WalkSymlink (req : SymlinkReq)
| WalkHardLink (req : HardLinkReq)
| WalkRemove (req : RemoveReq)
| WalkRename (req : RenameReq)
| WalkStat (user : UserInfo) (path : PathAt) (flags : Z)
| WalkList (user : UserInfo) (path : PathAt) (prev : string) (limit : Z) (status : bool)
| WalkRealPath (user : UserInfo) (path : PathAt) (absolute : bool).

Definition run_walk {HEnv : FsEnv} (cfg : FsConfig) (op : WalkOp) : M Txn unit :=
  match op with
  | WalkMkdirs req => mkdirs cfg req ;; mret tt
  | WalkSymlink req => symlinkOp cfg req ;; mret tt
  | WalkHardLink req => hardLink cfg req ;; mret tt
  | WalkRemove req => remove cfg req
  | WalkRename req => rename cfg req ;; mret tt
  | WalkStat user path flags => stat cfg user path flags ;; mret tt
  | WalkList user path prev limit status => list_op cfg user path prev limit status ;; mret tt
  | WalkRealPath user path absolute => getRealPath cfg user path absolute ;; mret tt
  end.

(** The allocator of ids answers, and the way to the root is asked for in a
    namespace that is well formed. *)
Definition walk_ok {HEnv : FsEnv} (G : gset InodeId) (op : WalkOp) (s : FsStore) : Prop :=
  match op with
  | WalkMkdirs _ | WalkSymlink _ => forall n, fe_allocate n <> Pending
  | WalkRealPath _ path _ => NS G s /\ public G (pa_parent path)
  | _ => True
  end.

Lemma run_walk_ends {HEnv : FsEnv} cfg G op t : walk_ok G op (view t) -> fst (run_walk cfg op t) <> Pending.
Proof.
  destruct op; simpl; intros Hok.
  - by apply ends_bind; [apply ends_mkdirs|ends].
  - by apply ends_bind; [apply ends_symlinkOp|ends].
  - by apply ends_bind; [apply ends_hardLink|ends].
  - apply ends_remove.
  - by apply ends_bind; [apply ends_rename|ends].
  - by apply ends_bind; [apply ends_stat|ends].
  - by apply ends_bind; [apply ends_list_op|ends].
  - destruct Hok. pose proof (ends_getRealPath G cfg user path absolute t H H0) as He. unfold mbind, M_bind. by destruct (getRealPath _ _ _ _ t) as [[]].
Qed.
