(* ===== verification/FsPermission.v ===== *)
(** * Entries change only where the user may write

    The operations that change names do it in directories that the user of
    the request may write and that no other client has locked, in directories
    they make themselves, and in the garbage. *)

From Stdlib Require Import ZArith Lia.
From stdpp Require Import base gmap list strings.
From S2P Require Import Prelude StatusCode MgmtdTypes FsTypes FsTxn FsLayout FsResolve FsGc FsOps FsNamespace FsMoves FsTracked FsResolved FsOpsLand.

Section permission.
Context {HEnv : FsEnv} (cfg : FsConfig) (G : gset InodeId).
Context (Hcurr : forall g, g ∈ fe_currGcDirectories -> g ∈ G) (Hall : forall g, g ∈ fe_allGcDirectories -> g ∈ G).

(** The user may write the directory, and no other client has locked it. *)
Definition permitted (s : FsStore) (req : ReqBase) (p : InodeId) : Prop := exists x d,
  fs_inodes s !! p = Some x /\ in_type x = IV_Directory d /\
  checkPermission (in_acl x) (rq_user req) AccessType_WRITE = Ok tt /\ checkLock d (rq_client req) = Ok tt.

(** The entries that are written, from [t] to [t'], are in directories of [P]. *)
Definition entries_in (P : InodeId -> Prop) (t t' : Txn) : Prop := exists ws, tx_writes t' = tx_writes t ++ ws /\ forall p n v, WEntry p n v ∈ ws -> P p.

Lemma entries_quiet P t t' : quiet t t' -> entries_in P t t'.
Proof. intros H. exists []. rewrite app_nil_r. split; [apply H|]. intros p n v Hin. by apply elem_of_nil in Hin. Qed.
Lemma entries_took P ids t t' : took ids t t' -> entries_in P t t'.
Proof. intros H. exists []. rewrite app_nil_r. split; [apply H|]. intros p n v Hin. by apply elem_of_nil in Hin. Qed.
Lemma entries_trans P t t1 t2 : entries_in P t t1 -> entries_in P t1 t2 -> entries_in P t t2.
Proof.
  intros (w1 & E1 & H1) (w2 & E2 & H2). exists (w1 ++ w2). rewrite E2, E1, app_assoc. split; [done|]. intros p n v [Hin|Hin]%elem_of_app; eauto.
Qed.
Lemma entries_write (P : InodeId -> Prop) t w : (forall p n v, w = WEntry p n v -> P p) -> entries_in P t (add_write w t).
Proof. intros H. exists [w]. split; [done|]. intros p n v Hin%list_elem_of_singleton. by eapply H. Qed.
Lemma entries_mono (P Q : InodeId -> Prop) t t' : (forall p, P p -> Q p) -> entries_in P t t' -> entries_in Q t t'.
Proof. intros HPQ (ws & E & H). exists ws. split; [done|]. eauto. Qed.

Lemma oks_permitted r req t (Q : Inode * Directory -> Txn -> Prop) :
  info_ok (view t) (rr_parent r) -> (forall i d, permitted (view t) req (parent_id (rr_parent r)) -> Q (i, d) t) -> oks (writable_parent r req) t Q.
Proof.
  intros Hok HQ. unfold writable_parent. apply oks_bind, oks_getParentInode; [done|]. intros i Hi Hx. oksteps. apply HQ. exists (i_data i), a0. rewrite <- Hi.
  repeat match goal with u : unit |- _ => destruct u end. split; [done|].
  match goal with H : asDirectory _ = Ok _ |- _ => unfold asDirectory in H; destruct (in_type (i_data i)); by simplify_eq end.
Qed.

(** ** The operations *)

Definition may (s : FsStore) (req : ReqBase) (t' : Txn) (p : InodeId) : Prop := p ∈ G \/ p ∈ tx_ids t' \/ permitted s req p.

Lemma removal_entries_in e x ws t t' : removal G e x ws -> tx_writes t' = tx_writes t ++ ws -> entries_in (fun p => p ∈ G \/ p = e_parent e) t t'.
Proof.
  intros Hr Hw. exists ws. split; [done|]. intros p n v Hin. destruct Hr; repeat (apply elem_of_cons in Hin as [Hin|Hin]; [simplify_eq; auto|]); by apply elem_of_nil in Hin.
Qed.

Lemma symlinkOp_permitted req t : NS G (view t) -> public G (pa_parent (sl_path req)) ->
  oks (symlinkOp cfg req) t (fun _ t' => entries_in (may (view t) (sl_base req) t') t t').
Proof.
  intros HN Hp. unfold symlinkOp. do 2 okstep. apply oks_bind. eapply oks_rel; [by apply (oks_resolve_path cfg G)|]. intros r t1 (H1 & c & Hr & _).
  destruct (rr_dirEntry r) as [e|].
  { case_match; [|apply oks_fail]. apply oks_snapshotLoadInode. intros. by apply entries_quiet. }
  apply oks_bind, oks_permitted; [rewrite (quiet_view _ _ H1); apply Hr|]. intros i d Hperm. rewrite (quiet_view _ _ H1) in Hperm.
  apply oks_bind, oks_allocateInodeId. intros id t2 H2. apply oks_bind, oks_quiet; [unfold op_now; ro|]. intros now t3 H3.
  apply oks_bind, oks_track. intros t4 H4 _. apply oks_bind, oks_track. intros t5 H5 _.
  apply oks_bind, oks_DirEntry_store. intros _ _. apply oks_bind, oks_Inode_store, oks_ret.
  eapply entries_trans; [by apply entries_quiet|]. eapply entries_trans; [by eapply entries_took|]. eapply entries_trans; [apply entries_quiet; etrans; [exact H3|]; etrans; [exact H4|exact H5]|].
  eapply entries_trans; apply entries_write; intros p n v; [intros Heq; assert (p = parent_id (rr_parent r)) as -> by (simpl in Heq; congruence); right; by right|done].
Qed.

Lemma hardLink_permitted req t : NS G (view t) -> public G (pa_parent (hl_newPath req)) -> public G (pa_parent (hl_oldPath req)) ->
  oks (hardLink cfg req) t (fun _ t' => entries_in (may (view t) (hl_base req) t') t t').
Proof.
  intros HN Hp Hp'. unfold hardLink. do 2 okstep. apply oks_bind. eapply oks_rel; [by apply (oks_resolve_path cfg G)|]. intros r t1 (H1 & c & Hr & _).
  destruct (rr_dirEntry r) as [e|].
  { case_match; [|apply oks_fail]. apply oks_snapshotLoadInode. intros. by apply entries_quiet. }
  apply oks_bind. eapply oks_rel; [apply (oks_resolve_inode cfg G); [by rewrite (quiet_view _ _ H1)|done]|]. intros i t2 (H2 & _). assert (H02 : quiet t t2) by (by etrans).
  apply oks_bind, oks_permitted; [rewrite (quiet_view _ _ H02); apply Hr|]. intros pi d Hperm. rewrite (quiet_view _ _ H02) in Hperm.
  do 2 okstep. apply oks_bind. apply (oks_rel _ _ (fun _ t' => t' = t2)); [destruct (getType (i_data i)); (apply oks_fail || by apply oks_ret)|].
  intros e t' ->. do 2 okstep. apply oks_bind, oks_track. intros t3 H3 _. apply oks_bind, oks_track. intros t4 H4 _.
  apply oks_bind, oks_DirEntry_store. intros _ _. apply oks_bind, oks_touch_ctime. intros ct t5 H5. apply oks_bind, oks_track. intros t6 H6 _. apply oks_bind, oks_Inode_store, oks_ret.
  eapply (entries_trans _ _ t6); [|by apply entries_write]. eapply entries_trans; [|apply entries_quiet; etrans; [exact H5|exact H6]].
  eapply (entries_trans _ _ t4); [apply entries_quiet; etrans; [exact H02|]; etrans; [exact H3|exact H4]|].
  apply entries_write; intros p n v Heq; assert (p = parent_id (rr_parent r)) as -> by (simpl in Heq; congruence); right; by right.
Qed.

Lemma mkdirs_loop_in req acl layout p missing t :
  oks (mkdirs_loop cfg req acl layout p missing) t (fun _ t' => (exists ids, tx_ids t' = tx_ids t ++ ids) /\ entries_in (fun q => q = p \/ q ∈ tx_ids t') t t').
Proof.
  revert p t. induction missing as [|name rest IH]; intros p t; simpl; [apply oks_fatal|].
  do 2 okstep. apply oks_bind, oks_allocateInodeId. intros id t1 H1. apply oks_bind, oks_quiet; [apply ro_checkLayoutValid|]. intros _ t2 H2.
  apply oks_bind, oks_quiet; [unfold op_now; ro|]. intros now t3 H3. apply oks_bind, oks_DirEntry_store. intros _ _. apply oks_bind, oks_Inode_store.
  set (t4 := add_write _ _). assert (I4 : tx_ids t4 = tx_ids t ++ [id]) by (simpl; by rewrite (qt_ids _ _ H3), (qt_ids _ _ H2), (tk_ids _ _ _ H1)).
  assert (E4 : forall P : InodeId -> Prop, P p -> entries_in P t t4).
  { intros P HP. eapply entries_trans; [by eapply entries_took|]. eapply entries_trans; [apply entries_quiet; etrans; [exact H2|exact H3]|].
    eapply entries_trans; apply entries_write; intros q n v; [by intros [= <- _ _]|done]. }
  destruct rest as [|name' rest'].
  - apply oks_ret. split; [by eexists|]. apply E4. by left.
  - eapply oks_rel; [apply IH|]. intros i t5 ([ids I5] & E5). split; [exists ([id] ++ ids); by rewrite I5, I4, app_assoc|].
    eapply entries_trans; [apply E4; by left|]. eapply entries_mono; [|exact E5]. intros q [->|Hq]; right; [|done].
    rewrite I5, I4. apply elem_of_app. left. apply elem_of_app. right. by apply list_elem_of_singleton.
Qed.

Lemma mkdirs_permitted req t : NS G (view t) -> public G (pa_parent (mk_path req)) ->
  oks (mkdirs cfg req) t (fun _ t' => entries_in (may (view t) (mk_base req) t') t t').
Proof.
  intros HN Hp. unfold mkdirs. do 2 okstep. apply oks_bind. eapply oks_rel; [by apply (oks_resolve_pathRange cfg G)|]. intros [r missing] t1 (H1 & c & Hr & _). simpl in *.
  destruct missing as [|name rest].
  { destruct (rr_dirEntry r) as [e|]; [|apply oks_fatal]. case_match; [|apply oks_fail]. apply oks_snapshotLoadInode. intros. by apply entries_quiet. }
  do 2 okstep. apply oks_bind, oks_permitted; [rewrite (quiet_view _ _ H1); apply Hr|]. intros pi d Hperm. rewrite (quiet_view _ _ H1) in Hperm.
  apply oks_bind, oks_track. intros t2 H2 _. apply oks_bind, oks_track. intros t3 H3 _. eapply oks_rel; [apply mkdirs_loop_in|]. intros i t4 (_ & E4).
  eapply entries_trans; [apply entries_quiet; etrans; [exact H1|]; etrans; [exact H2|exact H3]|]. eapply entries_mono; [|exact E4]. intros q [->|Hq]; right; [by right|by left].
Qed.

Lemma removeEntry_in e x info (P : InodeId -> Prop) t : getType x = e_type e -> (forall g, g ∈ G -> P g) -> P (e_parent e) ->
  oks (GcManager_removeEntry cfg e (mkInode (e_id e) x) info) t (fun _ t' => entries_in P t t').
Proof.
  intros Hty HG HP. apply oks_GcManager_removeEntry with (G := G); [done..|]. intros i t' ws _ _ Hw Hr _ _.
  eapply entries_mono; [|by eapply removal_entries_in]. intros p [Hg| ->]; auto.
Qed.

Lemma remove_permitted req t : NS G (view t) -> public G (pa_parent (rm_path req)) ->
  oks (remove cfg req) t (fun _ t' => entries_in (fun p => p ∈ G \/ permitted (view t) (rm_base req) p) t t').
Proof.
  intros HN Hp. unfold remove. do 2 okstep. apply oks_bind.
  apply (oks_rel _ _ (fun r t' => quiet t t' /\ exists c, at_name G (view t) r c)).
  { case_bool_decide; [eapply oks_rel; [by apply (oks_resolve_path cfg G)|]; intros r t1 (H1 & c & Hr & _); eauto|].
    by apply (oks_resolve_byDirectoryInodeId cfg G). }
  intros r t1 (H1 & c & Hr). pose proof (an_entry _ _ _ _ Hr) as He. destruct (rr_dirEntry r) as [e|]; [|apply oks_fail]. destruct He as (Hep & _).
  do 4 okstep. apply oks_bind, oks_permitted; [rewrite (quiet_view _ _ H1); apply Hr|]. intros pi d Hperm. rewrite (quiet_view _ _ H1), <- Hep in Hperm.
  set (P := fun p => p ∈ G \/ permitted (view t) (rm_base req) p).
  assert (HP : P (e_parent e)) by (by right). assert (HPG : forall g, g ∈ G -> P g) by (by left).
  do 4 okstep. apply oks_bind, oks_snapshotLoadInode. intros x Hx Hty. do 4 okstep.
  assert (Hgc : forall info t2, quiet t t2 -> oks (GcManager_removeEntry cfg e (mkInode (e_id e) x) info ;; mret tt) t2 (fun _ t' => entries_in P t t')).
  { intros info t2 H2. apply oks_bind. eapply oks_rel; [by apply (removeEntry_in e x info P)|]. intros i t3 E3. apply oks_ret. eapply entries_trans; [by apply entries_quiet|done]. }
  case_bool_decide; [|by apply Hgc]. apply oks_bind, oks_checkEmpty.
  - intros t2 H2 _ _. apply oks_bind, oks_track. intros t3 H3 _. apply oks_bind, oks_track. intros t4 H4 _.
    apply oks_bind, oks_DirEntry_remove. intros _. apply oks_Inode_remove. intros _ _.
    eapply entries_trans; [|by apply entries_write].
    eapply (entries_trans _ _ t4); [apply entries_quiet; etrans; [exact H1|]; etrans; [exact H2|]; etrans; [exact H3|exact H4]|].
    apply entries_write. intros q n v [= <- _ _]. done.
  - intros t2 H2. do 4 okstep. apply oks_bind, oks_quiet; [ro|]. intros _ t3 H3. apply oks_bind, oks_quiet; [ro|]. intros an t4 H4.
    apply oks_bind, oks_quiet; [unfold ancestors_path; ro|]. intros orig t5 H5. apply Hgc.
    etrans; [exact H1|]. etrans; [exact H2|]. etrans; [exact H3|]. etrans; [exact H4|exact H5].
Qed.

Lemma removeDst_in req dst i (P : InodeId -> Prop) t : (forall g, g ∈ G -> P g) -> (forall e, rr_dirEntry dst = Some e -> P (e_parent e) /\ exists x, i = Some (mkInode (e_id e) x) /\ getType x = e_type e) ->
  oks (removeDst cfg req dst i) t (fun _ t' => entries_in P t t').
Proof.
  intros HG He. unfold removeDst. destruct (rr_dirEntry dst) as [e|]; [|apply oks_ret; by apply entries_quiet].
  destruct (He e eq_refl) as (HP & x & -> & Hty). destruct (e_type e) eqn:Ht.
  - do 2 okstep. apply oks_bind. eapply oks_rel; [apply (removeEntry_in e x _ P); [congruence|done|done]|]. intros ? t1 E1. by apply oks_ret.
  - apply oks_Inode_remove. intros _ _. by apply entries_write.
  - apply oks_bind, oks_loadInode. intros y t1 H1 _ _ _. do 2 okstep. apply oks_bind, oks_touch_ctime. intros c t2 H2. apply oks_Inode_store.
    eapply (entries_trans _ _ t2); [apply entries_quiet; etrans; [exact H1|exact H2]|]. by apply entries_write.
Qed.

Lemma rename_checkPermission_permitted req r dst t : info_ok (view t) (rr_parent r) ->
  oks (rename_checkPermission req r dst) t (fun o t' => quiet t t' /\ permitted (view t) (rn_base req) (parent_id (rr_parent r)) /\
    forall e, rr_dirEntry r = Some e -> exists x, o = Some (mkInode (e_id e) x) /\ getType x = e_type e).
Proof.
  intros Hok. unfold rename_checkPermission. apply oks_bind, oks_permitted; [done|]. intros i d Hperm. do 2 okstep.
  destruct (rr_dirEntry r) as [e|]; [|by apply oks_ret]. apply oks_bind, oks_snapshotLoadInode. intros x _ Hty. oksteps.
  split; [done|]. split; [done|]. intros e' [= <-]. eauto.
Qed.

Lemma rename_move_in req e dst i (P : InodeId -> Prop) t :
  (forall g, g ∈ G -> P g) -> P (e_parent e) -> P (parent_id (rr_parent dst)) ->
  (forall e', rr_dirEntry dst = Some e' -> P (e_parent e') /\ exists x, i = Some (mkInode (e_id e') x) /\ getType x = e_type e') ->
  oks (rename_move cfg req e dst i) t (fun _ t' => entries_in P t t').
Proof.
  intros HG Hsrc Hdst Hi. unfold rename_move. apply oks_bind, oks_loadInode. intros x t1 H1 _ _ _. apply oks_bind.
  apply (oks_rel _ _ (fun _ t2 => entries_in P t1 t2)).
  { case_bool_decide; [|apply oks_ret; by apply entries_quiet]. do 2 okstep. apply oks_bind, oks_Inode_store, oks_ret. by apply entries_write. }
  intros i1 t2 E2. apply oks_bind, oks_DirEntry_remove. intros _. apply oks_bind. eapply oks_rel; [by apply (removeDst_in req dst i P)|]. intros [] t4 E4.
  apply oks_bind, oks_DirEntry_store. intros _ _. apply oks_ret.
  eapply (entries_trans _ _ t4); [|apply entries_write; intros q n v [= <- _ _]; done]. eapply entries_trans; [|exact E4].
  eapply (entries_trans _ _ t2); [eapply entries_trans; [by apply entries_quiet|exact E2]|]. apply entries_write. by intros q n v [= <- _ _].
Qed.

Lemma rename_permitted req t : NS G (view t) -> public G (pa_parent (rn_src req)) -> public G (pa_parent (rn_dest req)) ->
  oks (rename cfg req) t (fun _ t' => entries_in (fun p => p ∈ G \/ permitted (view t) (rn_base req) p) t t').
Proof.
  intros HN Hp1 Hp2. unfold rename. do 2 okstep.
  apply oks_bind. eapply oks_rel; [by apply (oks_resolve_path cfg G)|]. intros src t1 (H1 & c1 & Hr1 & _).
  apply oks_bind. eapply oks_rel; [apply (oks_resolve_path cfg G); [by rewrite (quiet_view _ _ H1)|done]|]. intros dst t2 (H2 & c2 & Hr2 & _). rewrite (quiet_view _ _ H1) in Hr2.
  assert (H02 : quiet t t2) by (by etrans). set (P := fun p => p ∈ G \/ permitted (view t) (rn_base req) p).
  assert (Hearly : oks (match rr_dirEntry dst with Some e => DirEntry_snapshotLoadInode e | None => fatal end) t2 (fun _ t' => entries_in P t t')).
  { destruct (rr_dirEntry dst); [|apply oks_fatal]. apply oks_snapshotLoadInode. intros. by apply entries_quiet. }
  simpl. match goal with |- oks (if ?b then _ else _) _ _ => destruct b; [done|] end.
  pose proof (an_entry _ _ _ _ Hr1) as He1. pose proof (an_entry _ _ _ _ Hr2) as He2. destruct (rr_dirEntry src) as [se|] eqn:Hse; [|apply oks_fail]. destruct He1 as (Hsp & _).
  do 2 okstep. match goal with |- oks (if ?b then _ else _) _ _ => destruct b; [done|] end. do 2 okstep.
  apply oks_bind, oks_quiet; [ro|]. intros _ t3 H3. apply oks_bind, oks_quiet; [unfold checkLoop, ancestors_path; ro|]. intros _ t4 H4.
  assert (H04 : quiet t t4) by (etrans; [exact H02|]; etrans; [exact H3|exact H4]).
  apply oks_bind. eapply oks_rel; [apply rename_checkPermission_permitted; rewrite (quiet_view _ _ H04); apply Hr1|]. intros si t5 (H5 & Hps & _). assert (H05 : quiet t t5) by (by etrans).
  apply oks_bind. eapply oks_rel; [apply rename_checkPermission_permitted; rewrite (quiet_view _ _ H05); apply Hr2|]. intros di t6 (H6 & Hpd & Hdi).
  rewrite (quiet_view _ _ H04) in Hps. rewrite (quiet_view _ _ H05) in Hpd.
  apply oks_bind, oks_track. intros t7 H7 _. apply oks_bind, oks_track. intros t8 H8 _. apply oks_bind, oks_track. intros t9 H9 _. apply oks_bind, oks_track. intros t10 H10 _.
  eapply oks_rel; [apply (rename_move_in req se dst di P)|].
  - by left.
  - right. by rewrite Hsp.
  - by right.
  - intros e' He'. split; [|by apply Hdi]. rewrite He' in He2. destruct He2 as (Hep & _). right. by rewrite Hep.
  - intros i t' E. eapply entries_trans; [|exact E]. apply entries_quiet.
    etrans; [exact H05|]. etrans; [exact H6|]. etrans; [exact H7|]. etrans; [exact H8|]. etrans; [exact H9|exact H10].
Qed.
End permission.
