(* ===== verification/FsTheorems.v ===== *)
(** * The namespace of the file system: theorems

    What the meta store guarantees, and a run of servers from an empty store
    for which it is evaluated. *)

From Stdlib Require Import ZArith Lia.
From stdpp Require Import base gmap list strings relations.
From S2P Require Import Prelude StatusCode MgmtdTypes FsTypes FsTxn FsLayout FsResolve FsGc FsOps FsOpen FsNamespace FsMoves FsTracked FsResolved FsOpsLand FsOpenLand FsBatchLand FsGcLand FsWorld FsGcLive FsEnds FsPermission.

(** ** A run *)

(** A server, with the ids it draws from [base] on and its garbage
    directories. *)
Definition sample_env (base : Z) (dirs : list InodeId) : FsEnv := {|
  fe_utc := fun n => 1700000000000000 + Z.of_nat n; fe_steady := fun n => Z.of_nat n; fe_jitter := fun _ => 0;
  fe_allocate := fun n => Ok (base + Z.of_nat n); fe_rand := fun _ => 0; fe_currGcDirectories := dirs; fe_allGcDirectories := dirs;
  fe_date := fun _ => "20240101"; fe_routing := fun _ => None; fe_shuffle := fun _ l => l |}.

Definition sample_cfg : FsConfig := mkFsConfig 32 8 0 1 false 128 false true 16 2 false false false true false true 0 true true true 0 false true true
  1 10 100 false true true 0.
Definition sample_mem : FsMem := mkFsMem ∅ ∅.
Definition sample_layout : Layout := mkLayout 1 0 524288 1 LC_Empty.

Definition boot_txn : Txn := snd (@initFs (sample_env 0 []) sample_layout (new_txn empty_store sample_mem)).
Definition boot_store : FsStore := apply_writes (tx_writes boot_txn) empty_store.
Definition gc_run : outcome (option DirEntry) * Txn := @openGcDirectory (sample_env 4096 []) 7 1 true (new_txn boot_store sample_mem).
Definition gc_txn : Txn := snd gc_run.
Definition start_store : FsStore := apply_writes (tx_writes gc_txn) boot_store.
Definition sample_G : gset InodeId := {[4096]}.
Definition sample_seen : gset InodeId := {[InodeId_root; InodeId_gcRoot]} ∪ list_to_set (tx_ids gc_txn).

Lemma boot_booted : booted ∅ boot_store.
Proof.
  apply (boot_init (sample_env 0 []) sample_layout sample_mem boot_txn).
  - unfold boot_txn. rewrite (surjective_pairing (initFs _ _)) at 1. apply (f_equal2 pair); [vm_compute; reflexivity|reflexivity].
  - unfold commit_txn. assert (commits boot_txn empty_store = true) as -> by (vm_compute; reflexivity). done.
Qed.

Lemma gc_unused : unused ∅ boot_store (tx_ids gc_txn).
Proof.
  assert (HE : fs_entries boot_store = ∅) by (compute_done).
  split; [compute_done|].
  assert (H : Forall (fun id => isTreeRoot id = false /\ (0 <= id < 2 ^ 64) /\ fs_inodes boot_store !! id = None) (tx_ids gc_txn)).
  { compute_done. }
  eapply Forall_impl; [exact H|]. intros id (H1 & H2 & H3). split; [split; [done|split; [by apply not_elem_of_empty|done]]|].
  split; [done|]. intros k e. rewrite HE. by rewrite lookup_empty.
Qed.

Lemma sample_booted : booted sample_G start_store.
Proof.
  set (e := newDirectoryEntry InodeId_gcRoot "GC-Node-7.1" 4096 Acl_gcRoot).
  assert (Hrun : gc_run = (Ok (Some e), gc_txn)) by (rewrite (surjective_pairing gc_run); apply (f_equal2 pair); [vm_compute; reflexivity|reflexivity]).
  replace sample_G with ({[e_id e]} ∪ ∅ : gset InodeId) by (by rewrite (right_id_L ∅ (∪))).
  eapply (boot_open ∅ boot_store (sample_env 4096 []) sample_mem 7 1 e gc_txn); [apply boot_booted|exact Hrun|apply gc_unused|].
  unfold commit_txn. assert (commits gc_txn boot_store = true) as -> by (vm_compute; reflexivity). done.
Qed.

Definition covers (seen : gset InodeId) (s : FsStore) : bool :=
  forallb (fun kx => bool_decide (kx.1 ∈ seen)) (map_to_list (fs_inodes s)) && forallb (fun ke => bool_decide (de_id ke.2 ∈ seen)) (map_to_list (fs_entries s)).

Lemma covers_free seen s : covers seen s = true -> forall id, id ∉ seen -> free s id.
Proof.
  intros [HI HE]%andb_true_iff id Hid. rewrite forallb_forall in HI, HE. split.
  - apply eq_None_not_Some. intros [x Hx]. apply elem_of_map_to_list, list_elem_of_In in Hx. apply HI, bool_decide_eq_true_1 in Hx. by apply Hid.
  - intros k e He Heq. apply elem_of_map_to_list, list_elem_of_In in He. apply HE, bool_decide_eq_true_1 in He. apply Hid. by rewrite <- Heq.
Qed.

Lemma sample_seen_free : forall id, id ∉ sample_seen -> free start_store id.
Proof. apply covers_free. vm_compute. reflexivity. Qed.

(** *** Steps of the servers *)

#[local] Instance fresh_dec seen ids : Decision (fresh sample_G seen ids).
Proof. unfold fresh, ok_id, is_id. apply _. Defined.

Definition try_run (env : FsEnv) (op : FsOp) (w : World) : option World :=
  match run_op env sample_cfg op (new_txn (w_store w) sample_mem) with
  | (Ok _, t) => if decide (fresh sample_G (w_seen w) (tx_ids t))
                 then Some (mkWorld (w_store w) (list_to_set (tx_ids t) ∪ w_seen w) (w_pending w ++ [t]) (w_tasks w)) else None
  | _ => None
  end.
Definition try_commit (w : World) : option World :=
  match w_pending w with
  | t :: r => s' ← commit_txn t (w_store w); Some (mkWorld s' (w_seen w) r (w_tasks w))
  | [] => None
  end.
Definition try_drop (w : World) : option World :=
  match w_pending w with
  | t :: r => Some (mkWorld (w_store w) (w_seen w) r (w_tasks w))
  | [] => None
  end.
Definition try_scan (type : GcEntryType) (g : InodeId) (w : World) : option World :=
  match listing (w_store w) g with
  | e :: _ => Some (mkWorld (w_store w) (w_seen w) (w_pending w) (mkGcTask type e :: w_tasks w))
  | [] => None
  end.

(** What a step gives, when it can be taken. *)
Notation after_step step w := (default w (step w)).

Lemma run_step env op w : env_ok sample_G env -> op_ok sample_G env sample_cfg (w_store w) sample_mem (w_tasks w) op -> is_Some (try_run env op w) -> fs_step sample_G w (after_step (try_run env op) w).
Proof.
  intros He Ho [w' Hw]. rewrite Hw. simpl. unfold try_run in Hw. destruct w as [s seen pending tasks]. simpl in *.
  destruct (run_op env sample_cfg op (new_txn s sample_mem)) as [[[]|c| |] t] eqn:Hrun; try done. case_decide; [|done]. injection Hw as <-. by eapply st_run.
Qed.
Lemma commit_step w : is_Some (try_commit w) -> fs_step sample_G w (after_step try_commit w).
Proof.
  intros [w' Hw]. rewrite Hw. simpl. unfold try_commit in Hw. destruct w as [s seen [|t r] tasks]; simpl in *; [done|].
  destruct (commit_txn t s) as [s'|] eqn:Hc; [|done]. injection Hw as <-. by apply (st_commit sample_G s seen [] t r tasks).
Qed.
Lemma drop_step w : is_Some (try_drop w) -> fs_step sample_G w (after_step try_drop w).
Proof.
  intros [w' Hw]. rewrite Hw. simpl. unfold try_drop in Hw. destruct w as [s seen [|t r] tasks]; simpl in *; [done|]. injection Hw as <-.
  by apply (st_drop sample_G s seen [] t r tasks).
Qed.
Lemma scan_step type g w : g ∈ sample_G -> is_Some (try_scan type g w) -> fs_step sample_G w (after_step (try_scan type g) w).
Proof.
  intros Hg [w' Hw]. rewrite Hw. simpl. unfold try_scan in Hw. destruct w as [s seen pending tasks]. simpl in *.
  destruct (listing s g) as [|e l] eqn:Hl; [done|]. injection Hw as <-.
  assert (He : e ∈ listing s g) by (rewrite Hl; by left). apply elem_of_listing in He as [Hp He]. destruct e as [p n d]. simpl in *. subst p. by apply st_scan.
Qed.

Definition sample_req (uuid : Z) : ReqBase := mkReqBase (mkUserInfo 0 0 []) 9 uuid.
Definition at_root (path : list string) : PathAt := mkPathAt InodeId_root (Some path).
Definition server (base : Z) : FsEnv := sample_env base [4096].

Definition op_mkdirs : FsOp := OpMkdirs (mkMkdirsReq (sample_req 1) (at_root ["a"; "b"]) 493 true None).
Definition op_symlink : FsOp := OpSymlink (mkSymlinkReq (sample_req 2) (at_root ["a"; "l"]) ["b"]).
Definition op_mkdir : FsOp := OpMkdirs (mkMkdirsReq (sample_req 6) (at_root ["a"; "d"]) 493 false None).
Definition op_rename : FsOp := OpRename (mkRenameReq (sample_req 3) (at_root ["a"; "b"]) (at_root ["c"]) false None).
Definition op_inner : FsOp := OpMkdirs (mkMkdirsReq (sample_req 4) (at_root ["a"; "b"; "x"]) 493 false None).
Definition op_remove : FsOp := OpRemove (mkRemoveReq (sample_req 5) (at_root ["a"]) 0 true false None).

Definition world0 : World := mkWorld start_store sample_seen [] [].
(** [/a/b], [/a/l] and [/a/d] are made, *)
Definition world1 : World := after_step (try_run (server 8192) op_mkdirs) world0.
Definition world2 : World := after_step try_commit world1.
Definition world3 : World := after_step (try_run (server 8256) op_symlink) world2.
Definition world4 : World := after_step try_commit world3.
Definition world4a : World := after_step (try_run (server 8576) op_mkdir) world4.
Definition world4b : World := after_step try_commit world4a.
(** [/a/b] moves to [/c] while a directory is made in it, which fails, *)
Definition world5 : World := after_step (try_run (server 8320) op_rename) world4b.
Definition world6 : World := after_step (try_run (server 8384) op_inner) world5.
Definition world7 : World := after_step try_commit world6.
Definition world8 : World := after_step try_drop world7.
(** [/a] is removed, with what is in it, and collected. *)
Definition world9 : World := after_step (try_run (server 8448) op_remove) world8.
Definition world10 : World := after_step try_commit world9.
Definition world11 : World := after_step (try_scan GC_DIRECTORY 4096) world10.
Definition sample_task : GcTask := default (mkGcTask GC_DIRECTORY rootEntry) (head (w_tasks world11)).
Definition sample_user : UserAttr := mkUserAttr "root" (mkUserInfo 0 0 []).
Definition op_collect (checked : bool) : FsOp := OpGcDirectory 4 sample_task sample_user checked.
Definition world12 : World := after_step (try_run (server 8512) (op_collect false)) world11.
Definition world13 : World := after_step try_commit world12.
Definition world14 : World := after_step (try_run (server 8640) (op_collect true)) world13.
Definition world15 : World := after_step try_commit world14.

Lemma server_ok base : env_ok sample_G (server base).
Proof. split; intros g Hg%list_elem_of_singleton; subst g; by apply elem_of_singleton. Qed.
Lemma root_public : public sample_G InodeId_root.
Proof. split; [|done]. unfold sample_G. by rewrite elem_of_singleton. Qed.
Lemma default_head {A} (d : A) l : length l = 1%nat -> default d (head l) ∈ l.
Proof. destruct l as [|a l]; [done|]. intros _. by left. Qed.
Lemma sample_task_in : sample_task ∈ w_tasks world11.
Proof. unfold sample_task. apply default_head. vm_compute. reflexivity. Qed.

(** Tasks stay. *)
Lemma run_tasks env op w : w_tasks (after_step (try_run env op) w) = w_tasks w.
Proof. unfold try_run. destruct (run_op _ _ _ _) as [[[]| | |] t]; simpl; try done. by case_decide. Qed.
Lemma commit_tasks w : w_tasks (after_step try_commit w) = w_tasks w.
Proof. unfold try_commit. destruct w as [s seen [|t r] tasks]; simpl; [done|]. by destruct (commit_txn t s). Qed.
Lemma sample_task_kept : sample_task ∈ w_tasks world13.
Proof. unfold world13. rewrite commit_tasks. unfold world12. rewrite run_tasks. apply sample_task_in. Qed.

Lemma is_some_true {A} (o : option A) : match o with Some _ => true | None => false end = true -> is_Some o.
Proof. destruct o; [by eexists|done]. Qed.
Ltac taken := apply is_some_true; vm_compute; reflexivity.

Lemma sample_steps : rtc (fs_step sample_G) world0 world11.
Proof.
  apply (rtc_l _ _ world1); [apply (run_step (server 8192) op_mkdirs world0); [apply server_ok|apply root_public|taken]|].
  apply (rtc_l _ _ world2); [apply (commit_step world1); taken|].
  apply (rtc_l _ _ world3); [apply (run_step (server 8256) op_symlink world2); [apply server_ok|apply root_public|taken]|].
  apply (rtc_l _ _ world4); [apply (commit_step world3); taken|].
  apply (rtc_l _ _ world4a); [apply (run_step (server 8576) op_mkdir world4); [apply server_ok|apply root_public|taken]|].
  apply (rtc_l _ _ world4b); [apply (commit_step world4a); taken|].
  apply (rtc_l _ _ world5); [apply (run_step (server 8320) op_rename world4b); [apply server_ok|split; apply root_public|taken]|].
  apply (rtc_l _ _ world6); [apply (run_step (server 8384) op_inner world5); [apply server_ok|apply root_public|taken]|].
  apply (rtc_l _ _ world7); [apply (commit_step world6); taken|].
  apply (rtc_l _ _ world8); [apply (drop_step world7); taken|].
  apply (rtc_l _ _ world9); [apply (run_step (server 8448) op_remove world8); [apply server_ok|apply root_public|taken]|].
  apply (rtc_l _ _ world10); [apply (commit_step world9); taken|].
  apply rtc_once, (scan_step GC_DIRECTORY 4096 world10); [by apply elem_of_singleton|taken].
Qed.

Lemma sample_fs_run : rtc (fs_step sample_G) world0 world15.
Proof.
  etrans; [apply sample_steps|].
  apply (rtc_l _ _ world12); [apply (run_step (server 8512) (op_collect false) world11); [apply server_ok|apply sample_task_in|taken]|].
  apply (rtc_l _ _ world13); [apply (commit_step world12); taken|].
  apply (rtc_l _ _ world14); [apply (run_step (server 8640) (op_collect true) world13); [apply server_ok|apply sample_task_kept|taken]|].
  apply rtc_once, (commit_step world14). taken.
Qed.

(** ** The namespace *)

(** C3: Servers that start on an empty store, make the roots and a fixed set of
    garbage directories, and then run operations of clients and transactions of
    the collector on snapshots, with any interleaving of runs, commits, failures
    and scans, keep the namespace well formed: every entry is in a directory
    and leads to an inode of its type, the link count of an inode is the number
    of its names, a directory has one name and knows its parent, no directory
    is below itself, the garbage directories list every inode except symbolic
    links that has lost its last name, and no inode that has one.  This is for
    runs in which ids that are drawn are new, no request starts in the root of
    the garbage or in a garbage directory, a requeued task gets a new name, and
    a hard link whose new path is followed through a symbolic link at its end
    gets a name that is free where the path leads. *)
Theorem namespace_invariant G s seen w :
  booted G s -> (forall id, id ∉ seen -> free s id) -> rtc (fs_step G) (mkWorld s seen [] []) w -> NS G (w_store w).
Proof.
  intros Hb Hs Hr. apply booted_started in Hb as [HN _ _]. by destruct (fs_inv_reach G s seen _ w (conj HN (conj Hs Logic.eq_refl)) Hr) as [[? _ _ _ _] _].
Qed.

Lemma namespace_invariant_witness : NS sample_G (w_store world15).
Proof. apply (namespace_invariant sample_G start_store sample_seen world15); [apply sample_booted|apply sample_seen_free|apply sample_fs_run]. Defined.

(** C4: Every store the servers reach comes from the first by elementary moves of
    the namespace: creating an inode with its name, adding, moving and dropping
    names, throwing an inode away and collecting it, and changes of attributes;
    transactions that interleave are no more than that.  This is for the runs
    of [fs_step]: ids that are drawn are new, no request starts in the root of
    the garbage or in a garbage directory, a requeued task gets a new name, and
    a hard link whose new path is followed through a symbolic link at its end
    gets a name that is free where the path leads. *)
Theorem commits_refine_moves G s seen w :
  booted G s -> (forall id, id ∉ seen -> free s id) -> rtc (fs_step G) (mkWorld s seen [] []) w -> exists ids, ns_moves G ids s (w_store w).
Proof.
  intros Hb Hs Hr. apply booted_started in Hb as [HN _ _]. by destruct (fs_inv_reach G s seen _ w (conj HN (conj Hs Logic.eq_refl)) Hr).
Qed.

Lemma commits_refine_moves_witness : exists ids, ns_moves sample_G ids start_store (w_store world15).
Proof. apply (commits_refine_moves sample_G start_store sample_seen world15); [apply sample_booted|apply sample_seen_free|apply sample_fs_run]. Defined.

(** ** Garbage *)

(** C7: The loop that collects a removed directory comes to an end and leaves
    nothing of it, if its entries may all be removed: however its transactions
    are repeated, after conflicts and after commits of unknown result that were
    applied, and whatever others commit between its attempts as long as they
    add no entry to the directory and keep it removable, it succeeds once more
    of its attempts have committed than the directory has entries, provided
    the retries are not used up before; then the inode, all its entries and its
    garbage entry are gone and the namespace is well formed. *)
Theorem gcDirectory_drains {HEnv : FsEnv} cfg G fuel task user uid attempts s :
  env_ok G HEnv -> fe_currGcDirectories <> [] ->
  task_ok G task -> gc_user task = Ok uid -> e_type (gt_entry task) = IT_Directory -> checkName (e_name (gt_entry task)) = true ->
  Forall (attempt_ok cfg G task user) attempts -> drainable cfg G task user s ->
  (length (listing s (e_id (gt_entry task))) < commits_of attempts)%nat ->
  exists s', gcDirectory attempts cfg fuel task user false false s = (Ok tt, s') /\ NS G s' /\ fs_inodes s' !! e_id (gt_entry task) = None /\
    no_entries s' (e_id (gt_entry task)) /\ fs_entries s' !! (e_parent (gt_entry task), e_name (gt_entry task)) = None.
Proof.
  intros [Hcurr Hall] Hdirs Hok Hu Ht Hn Hat Hdr Hlen.
  exact (gcDirectory_drained cfg G Hcurr Hall Hdirs task Hok user uid Hu Ht Hn fuel attempts false false s Hat Hdr Hlen ltac:(done)).
Qed.

Definition removableb (s : FsStore) (dir : InodeId) (ke : (InodeId * string) * DirEntryData) : bool :=
  negb (ke.1.1 =? dir) || checkName ke.1.2 && match fs_inodes s !! de_id ke.2 with
    | Some x => negb (isImmutable (in_acl x)) && match storable (mkInode (de_id ke.2) x) with Ok _ => true | _ => false end
    | None => true
    end.

Lemma removableb_sound s dir user n e : forallb (removableb s dir) (map_to_list (fs_entries s)) = true -> fs_entries s !! (dir, n) = Some e ->
  removable sample_cfg user s (mkDirEntry dir n e).
Proof.
  intros Hb He. rewrite forallb_forall in Hb. apply elem_of_map_to_list, list_elem_of_In in He. apply Hb in He. unfold removableb in He. simpl in He.
  rewrite Z.eqb_refl in He. simpl in He. apply andb_true_iff in He as [Hn He]. split; [done|]. intros x Hx. unfold e_id in *. simpl in *. rewrite Hx in He.
  apply andb_true_iff in He as [Hi Hs]. split; [by apply negb_true_iff|]. split; [|done]. destruct (storable _) as [[]| | |]; done.
Qed.

Lemma sample_drainable : task_ok sample_G sample_task /\ drainable sample_cfg sample_G sample_task sample_user (w_store world11).
Proof.
  assert (HI : fs_inv sample_G world11).
  { destruct (fs_inv_reach sample_G start_store sample_seen world0 world11) as [HI _]; [|apply sample_steps|exact HI].
    split; [apply (sd_ns _ _ (booted_started _ _ sample_booted))|]. split; [apply sample_seen_free|done]. }
  destruct HI as [HN _ _ _ Ht]. rewrite Forall_forall in Ht. destruct (Ht sample_task sample_task_in) as (Hok & Hd & _). split; [done|]. split; [done|done| |].
  - intros x Hx. assert (Hb : match fs_inodes (w_store world11) !! e_id (gt_entry sample_task) with Some y => isImmutable (in_acl y) | None => false end = false) by (vm_compute; reflexivity).
    by rewrite Hx in Hb.
  - intros n e. apply removableb_sound. vm_compute. reflexivity.
Qed.

(** A conflict, a commit of unknown result, and commits. *)
Definition sample_attempts : list GcAttempt :=
  map (mkGcAttempt id sample_mem) [CommitRepeat false; CommitRepeat true; CommitOk; CommitOk; CommitOk].

Lemma sample_attempts_ok : Forall (attempt_ok sample_cfg sample_G sample_task sample_user) sample_attempts.
Proof.
  assert (H : forall e, (forall c b, e <> CommitFail c b) -> attempt_ok sample_cfg sample_G sample_task sample_user (mkGcAttempt id sample_mem e))
    by (intros e He; split; [intros s Hs; exact (conj Hs (le_n _))|exact He]).
  unfold sample_attempts, map. repeat (apply Forall_cons; split; [by apply H|]). by apply Forall_nil.
Qed.

Lemma gcDirectory_drains_witness : exists s',
  gcDirectory (HEnv := server 8704) sample_attempts sample_cfg 4 sample_task sample_user false false (w_store world11) = (Ok tt, s') /\ NS sample_G s' /\
  fs_inodes s' !! e_id (gt_entry sample_task) = None /\ no_entries s' (e_id (gt_entry sample_task)) /\
  fs_entries s' !! (e_parent (gt_entry sample_task), e_name (gt_entry sample_task)) = None.
Proof.
  apply (gcDirectory_drains (HEnv := server 8704) sample_cfg sample_G 4 sample_task sample_user 0 sample_attempts (w_store world11)).
  - apply server_ok.
  - done.
  - apply sample_drainable.
  - vm_compute. reflexivity.
  - vm_compute. reflexivity.
  - vm_compute. reflexivity.
  - apply sample_attempts_ok.
  - apply sample_drainable.
  - vm_compute. lia.
Defined.

(** ** Operations *)

(** C17: The operations that walk the namespace end, whatever the namespace
    holds: cycles of symbolic links, huge directories, deep trees and loops of
    parents that a broken store may have; only the real path of an inode relies
    on a namespace that is well formed. *)
Theorem operations_end {HEnv : FsEnv} cfg G op t : walk_ok G op (view t) -> fst (run_walk cfg op t) <> Pending.
Proof. apply run_walk_ends. Qed.

Lemma operations_end_witness :
  fst (run_walk (HEnv := server 8704) sample_cfg (WalkRealPath (mkUserInfo 0 0 []) (at_root ["c"]) true) (new_txn (w_store world11) sample_mem)) <> Pending.
Proof.
  apply (operations_end (HEnv := server 8704) sample_cfg sample_G). split; [|apply root_public].
  destruct sample_drainable as [_ Hd]. exact (dr_ns _ _ _ _ _ Hd).
Defined.

(** Operations that change names, with the part of the request that says who
    asks. *)
Definition name_op (op : FsOp) : option ReqBase :=
  match op with
  | OpMkdirs req => Some (mk_base req)
  | OpSymlink req => Some (sl_base req)
  | OpHardLink req => Some (hl_base req)
  | OpRemove req => Some (rm_base req)
  | OpRename req => Some (rn_base req)
  | _ => None
  end.

Lemma name_op_permitted G env cfg s mem op base : env_ok G env -> NS G s -> op_ok G env cfg s mem [] op -> name_op op = Some base ->
  oks (run_op env cfg op) (new_txn s mem) (fun _ t => entries_in (may G s base t) (new_txn s mem) t).
Proof.
  intros [Hcurr Hall] HN Hop Hb. assert (Hv : NS G (view (new_txn s mem))) by done. destruct op; simpl in *; simplify_eq.
  - apply oks_done. by apply (mkdirs_permitted cfg G).
  - apply oks_done. by apply (symlinkOp_permitted cfg G).
  - destruct Hop as (? & ? & _). apply oks_done. by apply (hardLink_permitted cfg G).
  - eapply oks_rel; [by apply (remove_permitted cfg G)|]. intros [] t. apply entries_mono. intros p [|]; [by left|by right; right].
  - destruct Hop. apply oks_done. eapply oks_rel; [by apply (rename_permitted cfg G)|]. intros i t. apply entries_mono. intros p [|]; [by left|by right; right].
Qed.

(** C18: Making directories, links, removing and renaming write entries only in
    directories that the user of the request may write and no other client has
    locked, in directories they make, and in the garbage. *)
Theorem changes_permitted G env cfg s mem op base t p n v :
  env_ok G env -> NS G s -> op_ok G env cfg s mem [] op -> name_op op = Some base -> run_op env cfg op (new_txn s mem) = (Ok tt, t) ->
  WEntry p n v ∈ tx_writes t -> p ∈ G \/ p ∈ tx_ids t \/ permitted s base p.
Proof.
  intros He HN Hop Hb Hrun Hw. destruct (name_op_permitted G env cfg s mem op base He HN Hop Hb tt t Hrun) as (ws & Hws & Hin).
  simpl in Hws. rewrite Hws in Hw. by apply (Hin p n v).
Qed.

Definition op_move : FsOp := OpRename (mkRenameReq (sample_req 7) (at_root ["c"]) (at_root ["e"]) false None).
Definition move_run : outcome unit * Txn := run_op (server 8704) sample_cfg op_move (new_txn (w_store world11) sample_mem).

Lemma move_writes_root : WEntry InodeId_root "c" None ∈ tx_writes (snd move_run).
Proof. apply (list_elem_of_lookup_2 _ 1). vm_compute. reflexivity. Qed.

Lemma changes_permitted_witness :
  InodeId_root ∈ sample_G \/ InodeId_root ∈ tx_ids (snd move_run) \/ permitted (w_store world11) (sample_req 7) InodeId_root.
Proof.
  apply (changes_permitted sample_G (server 8704) sample_cfg (w_store world11) sample_mem op_move (sample_req 7) (snd move_run) InodeId_root "c" None).
  - apply server_ok.
  - destruct sample_drainable as [_ Hd]. exact (dr_ns _ _ _ _ _ Hd).
  - split; apply root_public.
  - reflexivity.
  - change (move_run = (Ok tt, snd move_run)). rewrite (surjective_pairing move_run) at 1. apply (f_equal2 pair); [vm_compute; reflexivity|reflexivity].
  - apply move_writes_root.
Defined.

(** ** Batches *)

Lemma created_or_failed {HEnv : FsEnv} cfg parent d counter reqs t res c t' :
  batch_create_loop cfg parent d counter reqs t = (Ok (res, c), t') -> Forall (fun r : CreateResult => exists code, r = inr code) res -> tx_writes t' = tx_writes t.
Proof.
  revert counter t res c t'. induction reqs as [|req reqs IH]; intros counter t res c t'; cbn [batch_create_loop]; [by intros [= <- <- <-]|].
  intros ([made c1] & t1 & Hone & Hk)%bind_inv Hres.
  pose proof (oks_create_or_fail cfg parent d counter req t (fun _ _ => True) (fun _ _ _ _ _ _ => I) _ _ Hone) as Hmade. simpl in Hmade.
  destruct made as [[inode entry]|code].
  - apply bind_inv in Hk as (res' & t3 & _ & [= <- _ _]). apply Forall_cons in Hres as [[code [=]] _].
  - apply bind_inv in Hk as ([res' c'] & t3 & Hloop & [= <- <- <-]). apply Forall_cons in Hres as [_ Hres]. rewrite (IH _ _ _ _ _ Hloop Hres).
    by destruct Hmade as (ids & [_ _ Hw _]).
Qed.

(** C40: Of the requests of a batch that create a file, those that fail leave
    nothing in the transaction: if none of the requests for a name succeeds,
    whatever the point where each failed, not one write is made, although the
    transaction commits the other requests of the batch. *)
Theorem failed_creations_write_nothing {HEnv : FsEnv} cfg parent d counter reqs t res c t' :
  fs_entries (view t) !! (i_id parent, match reqs with r :: _ => req_name r | [] => "" end) = None ->
  batch_create_name cfg parent d counter reqs t = (Ok (res, c), t') -> Forall (fun r : CreateResult => exists code, r = inr code) res -> tx_writes t' = tx_writes t.
Proof.
  intros Hnone. unfold batch_create_name. destruct reqs as [|r reqs]; [by intros [= <- <- <-]|]. unfold DirEntry_snapshotLoad.
  intros ([] & t0' & [_ ->]%fatal_if_inv & Hk)%bind_inv Hres. apply bind_inv in Hk as (e & t1 & He & Hk).
  apply bind_inv in He as ([] & t0 & Herr & [= <- <-]). apply err_if_inv in Herr as [_ ->]. fold (req_name r) in Hk. rewrite Hnone in Hk.
  exact (created_or_failed cfg parent d counter (r :: reqs) t res c t' Hk Hres).
Qed.

Definition sample_parent : Inode := mkInode InodeId_root (default defaultInodeData (fs_inodes (w_store world11) !! InodeId_root)).
Definition create_by (uid : Z) (layout : option Layout) : CreateReq :=
  mkCreateReq (mkOpenReq (mkReqBase (mkUserInfo uid uid []) 9 8) (at_root ["f"]) None 0 0 false) 420 layout.
Definition failing : list CreateReq := [create_by 1000 None; create_by 0 (Some (mkLayout 1 1 524288 1 (LC_ChainList [1])))].
Definition create_run : outcome (list CreateResult * Z) * Txn :=
  batch_create_name (HEnv := server 8704) sample_cfg sample_parent (mkDirectory InodeId_root sample_layout "/" (2 ^ 32 - 1) None) 0 failing
    (new_txn (w_store world11) sample_mem).

(** One user has no permission, and the other names a chain that is not there. *)
Lemma failed_creations_write_nothing_witness :
  fst create_run = Ok ([inr MetaCode_kNoPermission; inr MetaCode_kInvalidFileLayout], 0) /\ tx_writes (snd create_run) = [].
Proof.
  assert (H : fst create_run = Ok ([inr MetaCode_kNoPermission; inr MetaCode_kInvalidFileLayout], 0)) by (vm_compute; reflexivity).
  split; [exact H|]. change (@nil FsWrite) with (tx_writes (new_txn (w_store world11) sample_mem)).
  apply (failed_creations_write_nothing (HEnv := server 8704) sample_cfg sample_parent (mkDirectory InodeId_root sample_layout "/" (2 ^ 32 - 1) None) 0 failing
    (new_txn (w_store world11) sample_mem) [inr MetaCode_kNoPermission; inr MetaCode_kInvalidFileLayout] 0).
  - vm_compute. reflexivity.
  - change (create_run = (Ok ([inr MetaCode_kNoPermission; inr MetaCode_kInvalidFileLayout], 0), snd create_run)).
    rewrite (surjective_pairing create_run) at 1. apply (f_equal2 pair); [exact H|reflexivity].
  - repeat constructor; eexists; reflexivity.
Defined.

(** ** A hard link that overwrites *)

(** The links [/a/l], [/l], which leads to a name that does not exist in
    [/a], and [/t]. *)
Definition link_op (path : list string) (target : Path) (uuid : Z) : FsOp := OpSymlink (mkSymlinkReq (sample_req uuid) (at_root path) target).
Definition link_world : World :=
  let step base op w := after_step try_commit (after_step (try_run (server base) op) w) in
  step 9088 (link_op ["t"] ["x"] 23) (step 9024 (link_op ["l"] ["/"; "a"; "none"] 22) (step 8960 (link_op ["a"; "l"] ["x"] 21) (step 8896 op_mkdirs world0))).

Definition link_dir : InodeId := 8896.
Definition link_old : InodeId := 8960.
Definition link_new : InodeId := 9088.
Definition overwriting : HardLinkReq := mkHardLinkReq (sample_req 24) (mkPathAt link_new None) (at_root ["l"]) AT_SYMLINK_FOLLOW.
Definition overwrite_run : outcome Inode * Txn := hardLink (HEnv := server 9152) sample_cfg overwriting (new_txn (w_store link_world) sample_mem).

(** A hard link whose new path ends in a symbolic link that leads nowhere,
    with the flag to follow it, is made in the directory the link leads to but
    under the name of the link itself, where nothing was looked up: it replaces
    the entry [/a/l] that is there, whose inode keeps its link count and has no
    name any more. *)
Example hard_link_overwrites :
  de_id <$> fs_entries (w_store link_world) !! (link_dir, "l") = Some link_old /\ is_ok (fst overwrite_run) = true /\
  exists s', commit_txn (snd overwrite_run) (w_store link_world) = Some s' /\
    de_id <$> fs_entries s' !! (link_dir, "l") = Some link_new /\ in_nlink <$> fs_inodes s' !! link_old = Some 1 /\ unnamed s' link_old.
Proof.
  split; [vm_compute; reflexivity|]. split; [vm_compute; reflexivity|]. unfold commit_txn.
  assert (commits (snd overwrite_run) (w_store link_world) = true) as -> by (vm_compute; reflexivity). eexists. split; [reflexivity|].
  split; [vm_compute; reflexivity|]. split; [vm_compute; reflexivity|].
  assert (Hb : forallb (fun ke => negb (de_id ke.2 =? link_old)) (map_to_list (fs_entries (apply_writes (tx_writes (snd overwrite_run)) (w_store link_world)))) = true) by (vm_compute; reflexivity).
  rewrite forallb_forall in Hb. intros k e He Heq. apply elem_of_map_to_list, list_elem_of_In in He. apply Hb in He. simpl in He. rewrite Heq in He. by rewrite Z.eqb_refl in He.
Qed.
